(* ===== verification/_CoqProject ===== *)
-Q . S2P
Prelude.v
Http2Frame.v
Http2Stream.v
HpackTables.v
HpackHuffman.v
HpackHuffmanProofs.v
AsciiCase.v
Hpack.v
HpackProofs.v
HpackRoundtrip.v
HeadersView.v
Http2Connection.v
Http2ConnInv.v
Http2ConnSafe.v
Http2ConnInput.v
Http2ConnSend.v
Http2ConnHistory.v
UrlCodec.v
UrlCodecProofs.v
Http1Request.v
Http1RequestProofs.v
Http1Body.v
Http1Safety.v
Http1BodyProofs.v
WebSocketFrame.v
WebSocketFrameProofs.v
Utf8.v
WebSocketHandler.v
WebSocketSends.v
WebSocketInput.v
ServerProtocolLoop.v
WebSocketHistory.v
WebSocketBounds.v
WebSocketDeliver.v
WebSocketDialogue.v
RouteConstraint.v
RouteConstraintProofs.v
Cors.v
PathHandlerEntry.v
PathHandlerEntryProofs.v
RoutePattern.v
RoutePatternProofs.v
RadixTree.v
RadixTreeProofs.v
RadixTreeInsert.v
RadixTreeRoot.v
Router.v
RouterProofs.v
KeepAliveQueue.v
KeepAliveQueueProofs.v
KeepAliveSweep.v
KeepAliveSweepProofs.v
ResponseParser.v
ResponseParserProofs.v
ResponseRoundtrip.v
TimeString.v
RawChars.v
HttpMessage.v
HttpMessageSpec.v
HttpMessageRepr.v
HttpMessageFields.v
HttpMessageBodies.v
HttpMessageInline.v
HttpMessageHistory.v
HttpFinalize.v
HttpFinalizeSpec.v
HttpFinalizeBranches.v
HttpFinalizeProofs.v
HttpEndToEnd.v
StaticRanges.v
StaticRangesProofs.v
