(* ===== verification/Prelude.v ===== *)
(** * A verification of aeronet, a C++ HTTP/1.1, HTTP/2 and WebSocket library

    ** The program

    aeronet (src/aeronet/) is a server and a client built from modules.  Those modelled here:
    - http2/: frames (http2-frame.cpp), streams (http2-stream.cpp), header compression
      (hpack.cpp) and connections (http2-connection.cpp), with its configuration
      (objects/src/http2-config.cpp);
    - tech/: ASCII case folding and comparison with vector instructions
      (toupperlower.hpp, tolower-str.hpp, string-equal-ignore-case.hpp);
    - tech/, http/, server/: percent coding and redirects (url-decode.cpp, url-encode.hpp,
      https-redirect.cpp), request heads (http-request-view.cpp, header-merge.cpp), fixed
      and chunked bodies (http-parser.cpp), the table of mergeable headers
      (mergeable-headers.hpp) and the flat view of a header block (http-headers-view.hpp);
    - websocket/: frames (websocket-frame.cpp), UTF-8 validation and connections
      (websocket-handler.cpp); and the loop of the server that drives them
      (processSpecialProtocolHandler in single-http-server.cpp);
    - http/: the router (router.cpp, with route-constraint.cpp, path-handler-entry.cpp and
      cors-policy.cpp), which finds the handler of a request;
    - server/: the deadlines of idle connections (keep-alive-deadline-queue.cpp) and the sweep
      that closes them (connection-manager.cpp);
    - client/: the parser of responses (response-parser.cpp) and the loop that feeds it
      (http11-connection.cpp);
    - http/, objects/, tech/: HTTP/1 messages and responses, edited in one byte buffer
      (http-message.cpp, http-response.cpp, http-payload.cpp, raw-bytes.cpp), and the dates
      they carry (timestring.cpp).
    A server reads bytes from a socket into the input buffer of a connection.  An HTTP/1
    request is parsed in that buffer: the head becomes views of it, repeated headers are
    merged in place, and the body is views or a second buffer.  After an upgrade the bytes
    go to a protocol handler: [Http2Connection::processInput] or
    [WebSocketHandler::processInput].  An HTTP/2 connection cuts them into frames, drives one
    stream state machine per stream, decodes header blocks with HPACK, calls the application
    back, and appends the frames it sends to an output buffer that the server writes;
    responses come back through [sendHeaders] and [sendData], which respect the flow control
    windows of the peer.  A WebSocket connection puts messages together, answers pings and
    runs the close handshake.

    ** The files

    - Prelude: bytes and machine integers as [Z] with their wrap-around ([u8], [s32], ...),
      spans, bit operations, and the generic lemmas.
    - Http2Frame: http2-frame-types.hpp, http2-frame.hpp, http2-frame.cpp; a parser and a
      writer per frame type, buffers as byte lists.
    - Http2Stream: http2-stream.hpp and .cpp; one function per event, and the specification
      of a stream as two independent directions.
    - HpackTables, HpackHuffman, Hpack: the data of RFC 7541 as hpack.cpp holds it (the
      constexpr tables are computed here as the compiler computes them there), the Huffman
      coder with its 64-bit buffer, integers, strings, dynamic table, decoder, encoder.
      HpackHuffmanProofs, HpackProofs and HpackRoundtrip hold the theorems: the Huffman
      decoder accepts exactly the encodings, integers and strings round-trip, the dynamic
      table refines a bounded FIFO, the search is sound and complete, whole blocks
      round-trip and keep both tables equal, and arbitrary input is decoded safely.  A name
      that the decoder found in the table is a view of the buffer of its entry; the insertion
      that evicts this entry may free the buffer before the name is copied.  That is the one
      fault ([HpackFreed]); [dynamic_table_refines] and [decode_safe] tell exactly when it is
      met, any other outcome being as specified.
    - AsciiCase: case folding by scalar and vector code, the bisected merge table.
    - HeadersView: the walk of a block "name: value CRLF" and its search by substring.
    - Http2Connection: all of http2-connection.cpp as computations in a state and error
      monad on the record [Http2Connection], whose fields are the members of the class.
      [Undefined] stands for a failed assertion or the use of a dangling iterator.  Callbacks
      are arbitrary computations on the connection.  The streams are kept in a flat hash map
      that moves its elements: an iterator is an id with the epoch at which it was made, each
      insertion or removal starts another epoch, and an iterator of an earlier one must not be
      used.  [reset_in_callback_dangles] is a callback of the library itself that makes the
      frame handler do so.
    - Http2ConnInv, Http2ConnSafe: the invariant of connections and its preservation by each
      operation and each frame handler, in a weakest precondition calculus.
    - Http2ConnInput: the frame loop: fuel is irrelevant (each frame takes at least nine
      bytes, and the loop is given as many steps as bytes), only whole frames are consumed,
      the result does not depend on how the transport cuts the bytes; header blocks over
      CONTINUATION frames; finality of connection errors.
    - Http2ConnSend: the exact bytes that sending headers and data produces.
    - Http2ConnHistory: both ends together, headers sent are headers received; any history of
      calls keeps the invariant, when the callbacks that run while the code holds an iterator
      open no stream and have none removed; the streams a peer may open, and the effect of
      SETTINGS.

    - UrlCodec, UrlCodecProofs: percent coding, query strings decoded in place and their
      iterator, the target of HTTPS redirects; each proved equal to a reference function.
    - Http1Request: HttpRequestView::initTrySetHead on the bytes of the buffer, with views as
      offsets.  Http1RequestProofs: well-formed heads are parsed exactly, and the inputs on
      which the code does something else; Http1Safety: every buffer is parsed without an
      access out of bounds, in bounded steps.
    - Http1Body, Http1BodyProofs: bodies and trailers; every read of the chunk loop is
      bounded by the buffer ([read]), safety, and the round trip of chunks and trailers.
    - WebSocketFrame, WebSocketFrameProofs: frames and masking.  Utf8: validation of text.
    - WebSocketHandler: every operation of the class on a record of its members; callbacks
      are programs that may call the handler back.  A decompressed message is given to the
      callback as a view of _compressBuffer, which a compressed send of that callback
      refills: the handler then records [cb_overwritten], from which point what the callback
      reads is not described.  WebSocketSends: no operation looks at
      the carry-over.  WebSocketInput: the input may be cut anywhere.  WebSocketHistory: the
      output of any history of calls.  WebSocketBounds: the state in any history (the
      input kept is bounded while the connection is open; [carry_grows_after_close] is what
      happens afterwards).
      WebSocketDeliver, WebSocketDialogue: messages delivered by the rules of RFC 6455, two
      ends together, the close handshake.
    - ServerProtocolLoop: the loop of the server against an interface of protocol handlers,
      which WebSocket connections implement.

    - RouteConstraint, RouteConstraintProofs: the compilation of the constraint of a route
      parameter and its backtracking matcher, a step machine that is given enough steps for
      every pattern and value, and the language it accepts, for patterns whose ranges and bounds are ordered;
      [std::regex] is a parameter.
    - Cors: the policies and their decisions on requests.
    - PathHandlerEntry, PathHandlerEntryProofs: the handlers of a route, one storage cell per
      method, read with the type that three bitmaps tell; the bitmaps never lie.  The
      callables are abstract types.
    - RoutePattern, RoutePatternProofs: patterns such as /users/{id:[0-9]+}/*, and which paths
      are instances of one; as documented, the final star stands for whole segments, so
      /staticfoo is no instance of /static/*.
    - RadixTree: insertion and matching in the tree, a value since every node has one owner.
      Matching returns [None] where it would read a constraint that is not there or meet a
      node without route.  The assertions on the flags of trailing slashes are not modelled.
      RadixTreeProofs: the invariant of the tree, and that a match is an instance of a
      registered pattern; RadixTreeInsert, RadixTreeRoot: insertion keeps the invariant.
    - Router, RouterProofs: registration, matching, trailing slashes; what is served after any
      sequence of registrations of patterns without doubled braces or stars in the middle, the
      first of the tree not being /*.  A path may also be served by a pattern whose text it
      [overrun]s, as /static/* serves /staticfoo; at the end of the file, this and other patterns
      that the code serves in ways its documentation does not foresee.

    - KeepAliveQueue, KeepAliveQueueProofs: the heap of deadlines with the index each
      connection keeps of its entry; any history of it is one of a finite map.
    - KeepAliveSweep, KeepAliveSweepProofs: the table of connections, scheduling, the sweep and
      the closing of connections with their tunnels; the sweep ends and closes exactly the idle
      connections.  With a timeout of zero it may not end.
    - ResponseParser: the client's parser, called again each time the buffer has grown.
      ResponseParserProofs: each call returns, and the result does not depend on how the
      transport cuts the bytes.  ResponseRoundtrip: well-formed responses are received as sent.
      The rounds given to its loops exceed the bytes of the buffer, each round takes one.

    - TimeString: dates written and read; every second of the clock is read
      back.  RawChars: byte buffers, an allocation and a size; any history of
      one is a history of a list.
    - HttpMessage: the message classes on a record of their members, the buffer and the word
      that packs the starts of the headers and of the body; pointers are positions.  [Effect]
      tells a normal return from an exception with the message it leaves.
      HttpMessageSpec: the searches for a header, from either end; a
      response as status, reason, fields, body and trailers, and its operations.
      HttpMessageRepr: the representation of a response by
      the buffer and how bytes are replaced in it.  HttpMessageFields,
      HttpMessageBodies, HttpMessageInline: each operation refines the one of the
      specification, and the constructors make the response they are given.
      HttpMessageHistory: any history of operations does, and what they do outside of the
      conditions of that theorem; these are the documented ones, among them that no reserved
      header is set.
    - HttpFinalize: the text of a response (finalizeForHttp1), written in place in the buffer.
      HttpFinalizeSpec: that text from the abstract response, and writing over bytes that may
      change.  HttpFinalizeBranches: the branches.  HttpFinalizeProofs: their composition; the bytes sent are the
      text of the specification.  HttpEndToEnd: that text is a well-formed message, which the
      parser of the client receives as the history of the response described it.
    - StaticRanges: the Range header, the answers to it and the entity tags of static files
      (static-file-handler.cpp); the reads of the file are a parameter.  StaticRangesProofs:
      the ranges answered cover exactly the bytes asked for; multipart bodies fit their room.

    ** Conventions

    Definitions have the names of the code, fields a prefix of their structure.  Bytes are
    integers in [0, 256); unsigned and signed widths wrap with [u8] ... [s32] where the code
    can wrap.  A loop that is not structural has fuel, the number of bytes or entries it
    walks; running out is a fault, and the safety theorems show that it does not happen.
    [None], [StrFault], [HpackAssert], [HpackFreed], [OutOfBounds] or [Undefined] are the
    undefined behaviours of the code, never its error results, which are values of sums.

    ** What is not modelled

    Allocation failure, buffer capacities outside of RawChars (buffers are lists), logging, the
    scheduling of the event loop, sockets, TLS, compression codecs (and messages compressed by
    them), requests and the codecs of messages, the rest of static files, the WebSocket upgrade, the dispatch of HTTP/2 requests, the requests and the pool of
    the client, telemetry. *)

From stdpp Require Export base tactics list list_numbers numbers gmap strings.
From Stdlib Require Export ZArith Lia Ascii.

Open Scope Z_scope.

(** ** Arithmetic automation *)

(** [lia] with division and modulo by constants turned into equations. *)
Ltac zlia := Z.to_euclidean_division_equations; lia.

(** Case analysis on every boolean integer test of the goal and the hypotheses. *)
Ltac ztest :=
  repeat match goal with
  | |- context [Z.ltb ?a ?b] => destruct (Z.ltb_spec a b)
  | |- context [Z.leb ?a ?b] => destruct (Z.leb_spec a b)
  | |- context [Z.eqb ?a ?b] => destruct (Z.eqb_spec a b)
  | H : context [Z.ltb ?a ?b] |- _ => destruct (Z.ltb_spec a b)
  | H : context [Z.leb ?a ?b] |- _ => destruct (Z.leb_spec a b)
  | H : context [Z.eqb ?a ?b] |- _ => destruct (Z.eqb_spec a b)
  end.

(** Concatenations associated to the right, so that equal ones are syntactically equal. *)
Ltac app_simpl := repeat progress (rewrite <- ?app_assoc; cbn [app]).

(** ** Machine integers: the wrap-around of each C++ width *)

Definition u8 (z : Z) : Z := z mod 2 ^ 8.
Definition u16 (z : Z) : Z := z mod 2 ^ 16.
Definition u32 (z : Z) : Z := z mod 2 ^ 32.
Definition u64 (z : Z) : Z := z mod 2 ^ 64.
Definition s32 (z : Z) : Z := (z + 2 ^ 31) mod 2 ^ 32 - 2 ^ 31.

(** ** Bytes and spans *)

Abbreviation bytes := (list Z).

Definition byte_ok (b : Z) : Prop := 0 <= b < 256.
Definition bytes_ok (l : bytes) : Prop := Forall byte_ok l.

#[export] Instance byte_ok_dec b : Decision (byte_ok b).
Proof. unfold byte_ok. apply _. Defined.
#[export] Instance bytes_ok_dec l : Decision (bytes_ok l).
Proof. unfold bytes_ok. apply _. Defined.

(** Size of a span, as the code's [size()]. *)
Definition zlen {A} (l : list A) : Z := Z.of_nat (length l).

(** [data[i]]; every access of the code is behind a size test, so the default
    is never observed. *)
Definition byte_at (l : bytes) (i : nat) : Z := nth i l 0.

(** [span.subspan(off, n)]. *)
Definition subspan {A} (off n : Z) (l : list A) : list A :=
  take (Z.to_nat n) (drop (Z.to_nat off) l).

(** [n] bytes of the buffer from [pos]: undefined when they are not all in it. *)
Definition read (buf : bytes) (pos n : Z) : option bytes :=
  if (0 <=? pos) && (0 <=? n) && (pos + n <=? zlen buf) then Some (subspan pos n buf) else None.

(** The bytes of a string literal. *)
Fixpoint str (s : string) : bytes :=
  match s with
  | EmptyString => []
  | String c r => Z.of_N (N_of_ascii c) :: str r
  end.

(** ** Bit operations as arithmetic *)

Lemma land_ones_mod a n : 0 <= n -> Z.land a (Z.ones n) = a mod 2 ^ n.
Proof. apply Z.land_ones. Qed.

Lemma land_255 a : Z.land a 255 = a mod 256.
Proof. exact (Z.land_ones a 8 ltac:(lia)). Qed.

Lemma land_127 a : Z.land a 127 = a mod 128.
Proof. exact (Z.land_ones a 7 ltac:(lia)). Qed.

Lemma land_31bit a : Z.land a 2147483647 = a mod 2147483648.
Proof. exact (Z.land_ones a 31 ltac:(lia)). Qed.

Lemma testbit_above b n i : 0 <= b < 2 ^ n -> n <= i -> Z.testbit b i = false.
Proof.
  intros Hb Hi. destruct (Z.eq_dec b 0) as [->|]; [apply Z.bits_0|].
  apply Z.bits_above_log2; [lia|]. enough (Z.log2 b < n) by lia.
  apply Z.log2_lt_pow2; lia.
Qed.

Lemma land_shiftl_low a b n :
  0 <= n -> 0 <= b < 2 ^ n -> Z.land (Z.shiftl a n) b = 0.
Proof.
  intros Hn Hb. apply Z.bits_inj'; intros i Hi.
  rewrite Z.land_spec, Z.bits_0, Z.shiftl_spec by lia.
  destruct (Z.ltb_spec i n).
  - by rewrite Z.testbit_neg_r by lia.
  - by rewrite (testbit_above b n i), andb_false_r by lia.
Qed.

(** A disjoint [|] is an addition: the low operand fits below the shift. *)
Lemma lor_shiftl_low a b n :
  0 <= n -> 0 <= b < 2 ^ n -> Z.lor (Z.shiftl a n) b = a * 2 ^ n + b.
Proof.
  intros Hn Hb. rewrite <- Z.shiftl_mul_pow2 by lia.
  symmetry. apply Z.add_nocarry_lor, land_shiftl_low; lia.
Qed.

(** ** Big-endian reads and writes as arithmetic *)

Lemma be16_val a b : 0 <= b < 256 -> Z.lor (Z.shiftl a 8) b = a * 256 + b.
Proof. intros Hb. by rewrite (lor_shiftl_low a b 8) by lia. Qed.

Lemma be24_val a b c : 0 <= b < 256 -> 0 <= c < 256 ->
  Z.lor (Z.lor (Z.shiftl a 16) (Z.shiftl b 8)) c = a * 65536 + b * 256 + c.
Proof.
  intros Hb Hc.
  replace (Z.shiftl a 16) with (Z.shiftl (Z.shiftl a 8) 8) by by rewrite Z.shiftl_shiftl by lia.
  rewrite <- Z.shiftl_lor, be16_val, be16_val by lia. lia.
Qed.

Lemma be32_val a b c d : 0 <= b < 256 -> 0 <= c < 256 -> 0 <= d < 256 ->
  Z.lor (Z.lor (Z.lor (Z.shiftl a 24) (Z.shiftl b 16)) (Z.shiftl c 8)) d
  = a * 16777216 + b * 65536 + c * 256 + d.
Proof.
  intros Hb Hc Hd.
  replace (Z.shiftl a 24) with (Z.shiftl (Z.shiftl a 16) 8) by by rewrite Z.shiftl_shiftl by lia.
  replace (Z.shiftl b 16) with (Z.shiftl (Z.shiftl b 8) 8) by by rewrite Z.shiftl_shiftl by lia.
  rewrite <- !Z.shiftl_lor, be16_val, be24_val by lia. lia.
Qed.

Lemma shiftr_byte v n : 0 <= n -> Z.land (Z.shiftr v n) 255 = (v / 2 ^ n) mod 256.
Proof. intros Hn. by rewrite land_255, Z.shiftr_div_pow2 by lia. Qed.

Lemma byte_at_ok l i : bytes_ok l -> 0 <= byte_at l i < 256.
Proof.
  intros H. unfold byte_at. destruct (decide (i < length l)%nat).
  - apply (Forall_nth byte_ok 0 l); done.
  - rewrite nth_overflow; lia.
Qed.

Lemma zlen_nil {A} : zlen (@nil A) = 0.
Proof. done. Qed.
Lemma zlen_cons {A} (x : A) l : zlen (x :: l) = 1 + zlen l.
Proof. unfold zlen. simpl length. lia. Qed.
Lemma zlen_app {A} (l k : list A) : zlen (l ++ k) = zlen l + zlen k.
Proof. unfold zlen. rewrite length_app. lia. Qed.
Lemma zlen_nonneg {A} (l : list A) : 0 <= zlen l.
Proof. unfold zlen. lia. Qed.
Lemma zlen_0 {A} (l : list A) : zlen l = 0 -> l = [].
Proof. unfold zlen. destruct l; simpl; [done|lia]. Qed.

Create HintDb aero.
Create Rewrite HintDb aero.
#[export] Hint Rewrite @zlen_nil @zlen_cons @zlen_app : aero.
#[export] Hint Resolve zlen_nonneg : aero.

(** A span cut at its own length. *)
Lemma subspan_app_mid {A} (a p r : list A) n m :
  n = zlen a -> m = zlen p -> subspan n m (a ++ p ++ r) = p.
Proof.
  intros -> ->. unfold subspan, zlen. rewrite !Nat2Z.id.
  by rewrite drop_app_length, take_app_length.
Qed.

Lemma subspan_length {A} off n (l : list A) :
  0 <= off -> 0 <= n -> off + n <= zlen l -> zlen (subspan off n l) = n.
Proof. unfold subspan, zlen. intros. rewrite length_take, length_drop. lia. Qed.

Lemma read_in buf pos n : 0 <= pos -> 0 <= n -> pos + n <= zlen buf -> read buf pos n = Some (subspan pos n buf).
Proof. intros. unfold read. by rewrite !(proj2 (Z.leb_le _ _)) by lia. Qed.

Lemma subspan_split {A} off n (l : list A) :
  0 <= off -> 0 <= n -> off + n <= zlen l ->
  exists pre post, l = pre ++ subspan off n l ++ post
    /\ zlen pre = off /\ zlen post = zlen l - off - n.
Proof.
  unfold zlen. intros Ho Hn Hl. exists (take (Z.to_nat off) l), (drop (Z.to_nat (off + n)) l).
  rewrite length_take, length_drop. split; [|lia]. unfold subspan.
  replace (Z.to_nat (off + n)) with (Z.to_nat off + Z.to_nat n)%nat by lia.
  by rewrite <- drop_drop, take_drop, take_drop.
Qed.

(** Reads inside the first of two joined lists. *)
Lemma byte_at_app (a b : bytes) i : (i < length a)%nat -> byte_at (a ++ b) i = byte_at a i.
Proof. intros Hi. unfold byte_at. by rewrite app_nth1. Qed.

Lemma subspan_app_l {A} off n (a b : list A) :
  0 <= off -> 0 <= n -> off + n <= zlen a -> subspan off n (a ++ b) = subspan off n a.
Proof.
  intros Ho Hn Hl. unfold subspan, zlen in *. rewrite drop_app_le by lia.
  by rewrite take_app_le by (rewrite length_drop; lia).
Qed.

Lemma s32_id z : - 2 ^ 31 <= z < 2 ^ 31 -> s32 z = z.
Proof. unfold s32. intros. rewrite Z.mod_small; lia. Qed.
Lemma u32_id z : 0 <= z < 2 ^ 32 -> u32 z = z.
Proof. apply Z.mod_small. Qed.
Lemma u64_id z : 0 <= z < 2 ^ 64 -> u64 z = z.
Proof. apply Z.mod_small. Qed.
