(* ===== verification/Http2Frame.v ===== *)
(** HTTP/2 frames: the enumerations and constants of http2-frame-types.hpp, the
    frame structures of http2-frame.hpp, and the parsing and writing functions of
    http2-frame.cpp.  A writer takes the output buffer and returns the grown buffer
    with the number of bytes written; a parser returns the parse error or the
    parsed structure.  The theorems show that parsing inverts writing for every
    frame type the library can write, and that no parser reads outside its payload. *)

From S2P Require Import Prelude.
Local Open Scope Z_scope.

(** ** Enumerations (a C++ enum can hold a value without an enumerator) *)

Inductive FrameType :=
| FtData | FtHeaders | FtPriority | FtRstStream | FtSettings | FtPushPromise
| FtPing | FtGoAway | FtWindowUpdate | FtContinuation | FtUnknown
| FtOther (raw : Z).

Definition FrameType_of_u8 (v : Z) : FrameType :=
  match v with
  | 0 => FtData | 1 => FtHeaders | 2 => FtPriority | 3 => FtRstStream
  | 4 => FtSettings | 5 => FtPushPromise | 6 => FtPing | 7 => FtGoAway
  | 8 => FtWindowUpdate | 9 => FtContinuation | 255 => FtUnknown
  | _ => FtOther v
  end.

Definition FrameType_to_u8 (t : FrameType) : Z :=
  match t with
  | FtData => 0 | FtHeaders => 1 | FtPriority => 2 | FtRstStream => 3
  | FtSettings => 4 | FtPushPromise => 5 | FtPing => 6 | FtGoAway => 7
  | FtWindowUpdate => 8 | FtContinuation => 9 | FtUnknown => 255
  | FtOther v => v
  end.

Inductive ErrorCode :=
| ErrNoError | ErrProtocolError | ErrInternalError | ErrFlowControlError
| ErrSettingsTimeout | ErrStreamClosed | ErrFrameSizeError | ErrRefusedStream
| ErrCancel | ErrCompressionError | ErrConnectError | ErrEnhanceYourCalm
| ErrInadequateSecurity | ErrHttp11Required
| ErrOther (raw : Z).

Definition ErrorCode_of_u32 (v : Z) : ErrorCode :=
  match v with
  | 0 => ErrNoError | 1 => ErrProtocolError | 2 => ErrInternalError
  | 3 => ErrFlowControlError | 4 => ErrSettingsTimeout | 5 => ErrStreamClosed
  | 6 => ErrFrameSizeError | 7 => ErrRefusedStream | 8 => ErrCancel
  | 9 => ErrCompressionError | 10 => ErrConnectError | 11 => ErrEnhanceYourCalm
  | 12 => ErrInadequateSecurity | 13 => ErrHttp11Required
  | _ => ErrOther v
  end.

Definition ErrorCode_to_u32 (e : ErrorCode) : Z :=
  match e with
  | ErrNoError => 0 | ErrProtocolError => 1 | ErrInternalError => 2
  | ErrFlowControlError => 3 | ErrSettingsTimeout => 4 | ErrStreamClosed => 5
  | ErrFrameSizeError => 6 | ErrRefusedStream => 7 | ErrCancel => 8
  | ErrCompressionError => 9 | ErrConnectError => 10 | ErrEnhanceYourCalm => 11
  | ErrInadequateSecurity => 12 | ErrHttp11Required => 13
  | ErrOther v => v
  end.

#[export] Instance ErrorCode_eq_dec : EqDecision ErrorCode.
Proof. solve_decision. Defined.
#[export] Instance FrameType_eq_dec : EqDecision FrameType.
Proof. solve_decision. Defined.

Inductive SettingsParameter :=
| SpHeaderTableSize | SpEnablePush | SpMaxConcurrentStreams
| SpInitialWindowSize | SpMaxFrameSize | SpMaxHeaderListSize
| SpOther (raw : Z).

Definition SettingsParameter_of_u16 (v : Z) : SettingsParameter :=
  match v with
  | 1 => SpHeaderTableSize | 2 => SpEnablePush | 3 => SpMaxConcurrentStreams
  | 4 => SpInitialWindowSize | 5 => SpMaxFrameSize | 6 => SpMaxHeaderListSize
  | _ => SpOther v
  end.

Definition SettingsParameter_to_u16 (p : SettingsParameter) : Z :=
  match p with
  | SpHeaderTableSize => 1 | SpEnablePush => 2 | SpMaxConcurrentStreams => 3
  | SpInitialWindowSize => 4 | SpMaxFrameSize => 5 | SpMaxHeaderListSize => 6
  | SpOther v => v
  end.

(** Frame flags. *)
Definition FlagNone : Z := 0x00.
Definition DataEndStream : Z := 0x01.
Definition DataPadded : Z := 0x08.
Definition HeadersEndStream : Z := 0x01.
Definition HeadersEndHeaders : Z := 0x04.
Definition HeadersPadded : Z := 0x08.
Definition HeadersPriority : Z := 0x20.
Definition SettingsAck : Z := 0x01.
Definition PingAck : Z := 0x01.
Definition ContinuationEndHeaders : Z := 0x04.

(** Defaults and limits. *)
Definition kDefaultInitialWindowSize : Z := 65535.
Definition kMaxWindowSize : Z := 2 ^ 31 - 1.
Definition kFrameHeaderSize : Z := 9.

Definition kConnectionPreface : bytes :=
  str "PRI * HTTP/2.0" ++ [13; 10; 13; 10] ++ str "SM" ++ [13; 10; 13; 10].

(** ** Structures *)

Record FrameHeader := MkFrameHeader {
  fh_length : Z;      (* uint32_t, 24 bits on the wire *)
  fh_type : FrameType;
  fh_flags : Z;       (* uint8_t *)
  fh_streamId : Z     (* uint32_t, 31 bits on the wire *)
}.

Definition hasFlag (h : FrameHeader) (flag : Z) : bool :=
  negb (Z.land (fh_flags h) flag =? 0).

Definition isValid (h : FrameHeader) : bool := fh_length h <=? 0x00FFFFFF.

Record SettingsEntry := MkSettingsEntry { se_id : SettingsParameter; se_value : Z }.

Record DataFrame := MkDataFrame {
  df_data : bytes; df_padLength : Z; df_endStream : bool }.

Record HeadersFrame := MkHeadersFrame {
  hf_headerBlockFragment : bytes; hf_streamDependency : Z; hf_weight : Z;
  hf_padLength : Z; hf_endStream : bool; hf_endHeaders : bool;
  hf_exclusive : bool; hf_hasPriority : bool }.

Record PriorityFrame := MkPriorityFrame {
  pf_streamDependency : Z; pf_weight : Z; pf_exclusive : bool }.

Record RstStreamFrame := MkRstStreamFrame { rf_errorCode : ErrorCode }.

(** [entries[0 .. entryCount)] as a list. *)
Definition kMaxEntries : Z := 16.
Record SettingsFrame := MkSettingsFrame {
  sf_entries : list SettingsEntry; sf_isAck : bool }.

Record PingFrame := MkPingFrame { pg_opaqueData : bytes; pg_isAck : bool }.

Record GoAwayFrame := MkGoAwayFrame {
  ga_lastStreamId : Z; ga_errorCode : ErrorCode; ga_debugData : bytes }.

Record WindowUpdateFrame := MkWindowUpdateFrame { wu_windowSizeIncrement : Z }.

Record ContinuationFrame := MkContinuationFrame {
  cf_headerBlockFragment : bytes; cf_endHeaders : bool }.

Inductive FrameParseResult :=
| FpOk | FpNeedMoreData | FpFrameSizeError | FpProtocolError | FpInvalidPadding.

(** A parser's outcome: the code other than [Ok], or [Ok] with the filled [out]. *)
Abbreviation parsed A := (FrameParseResult + A)%type.

(** ** Big-endian integers *)

Definition Read16BE (d : bytes) : Z :=
  u16 (Z.lor (Z.shiftl (byte_at d 0) 8) (byte_at d 1)).

Definition Read24BE (d : bytes) : Z :=
  Z.lor (Z.lor (Z.shiftl (byte_at d 0) 16) (Z.shiftl (byte_at d 1) 8)) (byte_at d 2).

Definition Read32BE (d : bytes) : Z :=
  Z.lor (Z.lor (Z.lor (Z.shiftl (byte_at d 0) 24) (Z.shiftl (byte_at d 1) 16))
               (Z.shiftl (byte_at d 2) 8)) (byte_at d 3).

Definition Write16BE (value : Z) : bytes :=
  [Z.land (Z.shiftr value 8) 0xFF; Z.land value 0xFF].

Definition Write24BE (value : Z) : bytes :=
  [Z.land (Z.shiftr value 16) 0xFF; Z.land (Z.shiftr value 8) 0xFF; Z.land value 0xFF].

Definition Write32BE (value : Z) : bytes :=
  [Z.land (Z.shiftr value 24) 0xFF; Z.land (Z.shiftr value 16) 0xFF;
   Z.land (Z.shiftr value 8) 0xFF; Z.land value 0xFF].

(** ** Frame header *)

Definition CreateFrameHeader (type : FrameType) (flags streamId payloadLength : Z) : FrameHeader :=
  MkFrameHeader payloadLength type flags streamId.

(** Precondition of the code: at least nine bytes. *)
Definition ParseFrameHeader (data : bytes) : FrameHeader :=
  CreateFrameHeader (FrameType_of_u8 (byte_at data 3)) (byte_at data 4)
    (Z.land (Read32BE (drop 5 data)) 0x7FFFFFFF) (Read24BE data).

(** The nine bytes written at the target address. *)
Definition WriteFrameHeader (h : FrameHeader) : bytes :=
  Write24BE (fh_length h) ++ [FrameType_to_u8 (fh_type h); fh_flags h]
  ++ Write32BE (Z.land (fh_streamId h) 0x7FFFFFFF).

Definition WriteFrame (buffer : bytes) (type : FrameType) (flags streamId payloadSize : Z)
  : bytes * Z :=
  (buffer ++ WriteFrameHeader (CreateFrameHeader type flags streamId payloadSize),
   kFrameHeaderSize + payloadSize).

(** ** Frame parsers *)

Definition ParseDataFrame (header : FrameHeader) (payload : bytes) : parsed DataFrame :=
  let endStream := hasFlag header DataEndStream in
  if hasFlag header DataPadded then
    if zlen payload =? 0 then inl FpFrameSizeError
    else
      let padLength := byte_at payload 0 in
      if zlen payload <=? padLength then inl FpInvalidPadding
      else inr (MkDataFrame (subspan 1 (zlen payload - 1 - padLength) payload)
                  padLength endStream)
  else inr (MkDataFrame payload 0 endStream).

(** [exclusive], [streamDependency] and [weight] of the five priority bytes. *)
Definition ReadPriority (d : bytes) : bool * Z * Z :=
  let depAndExcl := Read32BE d in
  (negb (Z.land depAndExcl 0x80000000 =? 0), Z.land depAndExcl 0x7FFFFFFF, byte_at d 4 + 1).

Definition ParseHeadersFrame (header : FrameHeader) (payload : bytes) : parsed HeadersFrame :=
  let endStream := hasFlag header HeadersEndStream in
  let endHeaders := hasFlag header HeadersEndHeaders in
  let hasPriority := hasFlag header HeadersPriority in
  let padded := hasFlag header HeadersPadded in
  if padded && (zlen payload =? 0) then inl FpFrameSizeError
  else
    let padLength := if padded then byte_at payload 0 else 0 in
    let offset := if padded then 1 else 0 in
    if hasPriority && (zlen payload <? offset + 5) then inl FpFrameSizeError
    else
      let '(exclusive, streamDependency, weight) :=
        if hasPriority then ReadPriority (drop (Z.to_nat offset) payload)
        else (false, 0, 16) in
      let offset := if hasPriority then offset + 5 else offset in
      if (0 <? padLength) && (zlen payload <? offset + padLength) then inl FpInvalidPadding
      else inr (MkHeadersFrame (subspan offset (zlen payload - offset - padLength) payload)
                  streamDependency weight padLength endStream endHeaders exclusive hasPriority).

Definition ParsePriorityFrame (header : FrameHeader) (payload : bytes) : parsed PriorityFrame :=
  if negb (zlen payload =? 5) then inl FpFrameSizeError
  else
    let '(exclusive, streamDependency, weight) := ReadPriority payload in
    inr (MkPriorityFrame streamDependency weight exclusive).

Definition ParseRstStreamFrame (header : FrameHeader) (payload : bytes) : parsed RstStreamFrame :=
  if negb (zlen payload =? 4) then inl FpFrameSizeError
  else inr (MkRstStreamFrame (ErrorCode_of_u32 (Read32BE payload))).

(** The loop over [idx] in [0, numEntries). *)
Fixpoint ReadSettingsEntries (numEntries : nat) (d : bytes) : list SettingsEntry :=
  match numEntries with
  | O => []
  | S n => MkSettingsEntry (SettingsParameter_of_u16 (Read16BE d)) (Read32BE (drop 2 d))
           :: ReadSettingsEntries n (drop 6 d)
  end.

Definition ParseSettingsFrame (header : FrameHeader) (payload : bytes) : parsed SettingsFrame :=
  if hasFlag header SettingsAck then
    if negb (zlen payload =? 0) then inl FpFrameSizeError
    else inr (MkSettingsFrame [] true)
  else if negb (zlen payload mod 6 =? 0) then inl FpFrameSizeError
  else
    let numEntries := Z.min (zlen payload / 6) kMaxEntries in
    inr (MkSettingsFrame (ReadSettingsEntries (Z.to_nat numEntries) payload) false).

Definition ParsePingFrame (header : FrameHeader) (payload : bytes) : parsed PingFrame :=
  if negb (zlen payload =? 8) then inl FpFrameSizeError
  else inr (MkPingFrame (take 8 payload) (hasFlag header PingAck)).

Definition ParseGoAwayFrame (header : FrameHeader) (payload : bytes) : parsed GoAwayFrame :=
  if zlen payload <? 8 then inl FpFrameSizeError
  else inr (MkGoAwayFrame (Z.land (Read32BE payload) 0x7FFFFFFF)
              (ErrorCode_of_u32 (Read32BE (drop 4 payload))) (drop 8 payload)).

Definition ParseWindowUpdateFrame (payload : bytes) : parsed WindowUpdateFrame :=
  if negb (zlen payload =? 4) then inl FpFrameSizeError
  else inr (MkWindowUpdateFrame (Z.land (Read32BE payload) 0x7FFFFFFF)).

Definition ParseContinuationFrame (header : FrameHeader) (payload : bytes) : ContinuationFrame :=
  MkContinuationFrame payload (hasFlag header ContinuationEndHeaders).

(** ** Frame writers *)

Definition ComputeHeaderFrameFlags (endStream endHeaders : bool) (init : Z) : Z :=
  let init := if endStream then Z.lor init HeadersEndStream else init in
  if endHeaders then Z.lor init HeadersEndHeaders else init.

Definition WriteDataFrame (buffer : bytes) (streamId : Z) (data : bytes) (endStream : bool)
  : bytes * Z :=
  let flags := if endStream then DataEndStream else FlagNone in
  let '(buffer, ret) := WriteFrame buffer FtData flags streamId (u32 (zlen data)) in
  (buffer ++ data, ret).

(** [streamDependency] with the exclusive bit, then the weight byte. *)
Definition PriorityBytes (streamDependency weight : Z) (exclusive : bool) : bytes :=
  let depWithExcl := if exclusive then Z.lor streamDependency 0x80000000 else streamDependency in
  Write32BE depWithExcl ++ [weight].

Definition WriteHeadersFrameWithPriority (buffer : bytes) (streamId : Z) (headerBlock : bytes)
    (streamDependency weight : Z) (exclusive endStream endHeaders : bool) : bytes * Z :=
  let payloadSize := 5 + zlen headerBlock in
  (buffer
   ++ WriteFrameHeader (CreateFrameHeader FtHeaders
        (ComputeHeaderFrameFlags endStream endHeaders HeadersPriority)
        streamId (u32 payloadSize))
   ++ PriorityBytes streamDependency weight exclusive ++ headerBlock,
   kFrameHeaderSize + payloadSize).

Definition WritePriorityFrame (buffer : bytes) (streamId streamDependency weight : Z)
    (exclusive : bool) : bytes * Z :=
  let '(buffer, ret) := WriteFrame buffer FtPriority FlagNone streamId 5 in
  (buffer ++ PriorityBytes streamDependency weight exclusive, ret).

Definition WriteRstStreamFrame (buffer : bytes) (streamId : Z) (errorCode : ErrorCode)
  : bytes * Z :=
  let '(buffer, ret) := WriteFrame buffer FtRstStream FlagNone streamId 4 in
  (buffer ++ Write32BE (ErrorCode_to_u32 errorCode), ret).

Definition SettingsEntryBytes (e : SettingsEntry) : bytes :=
  Write16BE (SettingsParameter_to_u16 (se_id e)) ++ Write32BE (se_value e).

Definition WriteSettingsFrame (buffer : bytes) (entries : list SettingsEntry) : bytes * Z :=
  let payloadSize := zlen entries * 6 in
  (buffer
   ++ WriteFrameHeader (CreateFrameHeader FtSettings FlagNone 0 (u32 payloadSize))
   ++ concat (map SettingsEntryBytes entries),
   kFrameHeaderSize + payloadSize).

Definition WriteSettingsAckFrame (buffer : bytes) : bytes * Z :=
  WriteFrame buffer FtSettings SettingsAck 0 0.

Definition WritePingFrame (buffer : bytes) (pingFrame : PingFrame) : bytes * Z :=
  let flags := if pg_isAck pingFrame then PingAck else FlagNone in
  let '(buffer, ret) := WriteFrame buffer FtPing flags 0 8 in
  (buffer ++ pg_opaqueData pingFrame, ret).

Definition WriteGoAwayFrame (buffer : bytes) (lastStreamId : Z) (errorCode : ErrorCode)
    (debugData : bytes) : bytes * Z :=
  let payloadSize := 8 + zlen debugData in
  (buffer
   ++ WriteFrameHeader (CreateFrameHeader FtGoAway FlagNone 0 (u32 payloadSize))
   ++ Write32BE lastStreamId ++ Write32BE (ErrorCode_to_u32 errorCode) ++ debugData,
   kFrameHeaderSize + payloadSize).

Definition WriteWindowUpdateFrame (buffer : bytes) (streamId windowSizeIncrement : Z)
  : bytes * Z :=
  let '(buffer, ret) := WriteFrame buffer FtWindowUpdate FlagNone streamId 4 in
  (buffer ++ Write32BE (Z.land windowSizeIncrement 0x7FFFFFFF), ret).

Definition WriteContinuationFrame (buffer : bytes) (streamId : Z) (headerBlock : bytes)
    (endHeaders : bool) : bytes * Z :=
  let flags := if endHeaders then ContinuationEndHeaders else FlagNone in
  let '(buffer, ret) := WriteFrame buffer FtContinuation flags streamId (u32 (zlen headerBlock)) in
  (buffer ++ headerBlock, ret).

(** ** Parsing inverts writing *)

Ltac be_norm :=
  rewrite ?be16_val, ?be24_val, ?be32_val by (rewrite ?shiftr_byte, ?land_255 by lia; zlia);
  rewrite ?shiftr_byte, ?land_255 by lia.

Lemma Read16BE_Write16BE v r : 0 <= v < 2 ^ 16 -> Read16BE (Write16BE v ++ r) = v.
Proof. intros Hv. unfold Read16BE, Write16BE, u16, byte_at; simpl. be_norm. zlia. Qed.

Lemma Read24BE_Write24BE v r : 0 <= v < 2 ^ 24 -> Read24BE (Write24BE v ++ r) = v.
Proof. intros Hv. unfold Read24BE, Write24BE, byte_at; simpl. be_norm. zlia. Qed.

Lemma Read32BE_Write32BE v r : 0 <= v < 2 ^ 32 -> Read32BE (Write32BE v ++ r) = v.
Proof. intros Hv. unfold Read32BE, Write32BE, byte_at; simpl. be_norm. zlia. Qed.

Definition frame_header_ok (h : FrameHeader) : Prop :=
  0 <= fh_length h < 2 ^ 24 /\ FrameType_of_u8 (FrameType_to_u8 (fh_type h)) = fh_type h
  /\ 0 <= fh_flags h < 256 /\ 0 <= fh_streamId h < 2 ^ 31.

Lemma WriteFrameHeader_length h : zlen (WriteFrameHeader h) = kFrameHeaderSize.
Proof. done. Qed.

Lemma header_roundtrip h r :
  frame_header_ok h -> ParseFrameHeader (WriteFrameHeader h ++ r) = h.
Proof.
  intros (Hl & Ht & Hf & Hs). destruct h as [len ty fl sid].
  cbn [fh_length fh_type fh_flags fh_streamId] in *.
  unfold ParseFrameHeader, CreateFrameHeader, WriteFrameHeader.
  cbn [fh_length fh_type fh_flags fh_streamId]. rewrite <- app_assoc. f_equal.
  - by apply Read24BE_Write24BE.
  - done.
  - rewrite !land_31bit, <- app_assoc. change (drop 5 _) with (Write32BE (sid mod 2147483648) ++ r).
    rewrite Read32BE_Write32BE by zlia. zlia.
Qed.

(** The frames the library writes, with the arguments of their writers. *)
Inductive wire_frame :=
| WData (streamId : Z) (data : bytes) (endStream : bool)
| WHeadersPrio (streamId : Z) (block : bytes) (dep weight : Z) (excl endStream endHeaders : bool)
| WPriority (streamId dep weight : Z) (excl : bool)
| WRstStream (streamId : Z) (e : ErrorCode)
| WSettings (entries : list SettingsEntry)
| WSettingsAck
| WPing (p : PingFrame)
| WGoAway (lastStreamId : Z) (e : ErrorCode) (debugData : bytes)
| WWindowUpdate (streamId inc : Z)
| WContinuation (streamId : Z) (block : bytes) (endHeaders : bool).

Definition write_wire (buffer : bytes) (f : wire_frame) : bytes * Z :=
  match f with
  | WData sid d es => WriteDataFrame buffer sid d es
  | WHeadersPrio sid b dep w x es eh => WriteHeadersFrameWithPriority buffer sid b dep w x es eh
  | WPriority sid dep w x => WritePriorityFrame buffer sid dep w x
  | WRstStream sid e => WriteRstStreamFrame buffer sid e
  | WSettings es => WriteSettingsFrame buffer es
  | WSettingsAck => WriteSettingsAckFrame buffer
  | WPing p => WritePingFrame buffer p
  | WGoAway l e d => WriteGoAwayFrame buffer l e d
  | WWindowUpdate sid i => WriteWindowUpdateFrame buffer sid i
  | WContinuation sid b eh => WriteContinuationFrame buffer sid b eh
  end.

Definition wire_type (f : wire_frame) : FrameType :=
  match f with
  | WData _ _ _ => FtData | WHeadersPrio _ _ _ _ _ _ _ => FtHeaders
  | WPriority _ _ _ _ => FtPriority | WRstStream _ _ => FtRstStream
  | WSettings _ | WSettingsAck => FtSettings | WPing _ => FtPing
  | WGoAway _ _ _ => FtGoAway | WWindowUpdate _ _ => FtWindowUpdate
  | WContinuation _ _ _ => FtContinuation
  end.

Definition wire_stream (f : wire_frame) : Z :=
  match f with
  | WData s _ _ | WHeadersPrio s _ _ _ _ _ _ | WPriority s _ _ _ | WRstStream s _
  | WWindowUpdate s _ | WContinuation s _ _ => s
  | WSettings _ | WSettingsAck | WPing _ | WGoAway _ _ _ => 0
  end.

Definition u31_ok (v : Z) : Prop := 0 <= v < 2 ^ 31.
Definition error_code_ok (e : ErrorCode) : Prop :=
  ErrorCode_of_u32 (ErrorCode_to_u32 e) = e /\ 0 <= ErrorCode_to_u32 e < 2 ^ 32.
Definition settings_entry_ok (s : SettingsEntry) : Prop :=
  SettingsParameter_of_u16 (SettingsParameter_to_u16 (se_id s)) = se_id s
  /\ 0 <= SettingsParameter_to_u16 (se_id s) < 2 ^ 16 /\ 0 <= se_value s < 2 ^ 32.

(** The argument ranges of the writers (the C++ types and the 24-bit length field). *)
Definition wire_ok (f : wire_frame) : Prop :=
  u31_ok (wire_stream f) /\
  match f with
  | WData _ d _ => zlen d < 2 ^ 24
  | WHeadersPrio _ b dep w _ _ _ => 5 + zlen b < 2 ^ 24 /\ u31_ok dep /\ byte_ok w
  | WPriority _ dep w _ => u31_ok dep /\ byte_ok w
  | WRstStream _ e => error_code_ok e
  | WSettings es => zlen es <= kMaxEntries /\ Forall settings_entry_ok es
  | WSettingsAck => True
  | WPing p => zlen (pg_opaqueData p) = 8
  | WGoAway l e d => u31_ok l /\ error_code_ok e /\ 8 + zlen d < 2 ^ 24
  | WWindowUpdate _ i => u31_ok i
  | WContinuation _ b _ => zlen b < 2 ^ 24
  end.

(** The parser of the frame's type gives back the writer's arguments. *)
Definition wire_parsed (f : wire_frame) (h : FrameHeader) (payload : bytes) : Prop :=
  match f with
  | WData _ d es => ParseDataFrame h payload = inr (MkDataFrame d 0 es)
  | WHeadersPrio _ b dep w x es eh =>
      ParseHeadersFrame h payload = inr (MkHeadersFrame b dep (w + 1) 0 es eh x true)
  | WPriority _ dep w x => ParsePriorityFrame h payload = inr (MkPriorityFrame dep (w + 1) x)
  | WRstStream _ e => ParseRstStreamFrame h payload = inr (MkRstStreamFrame e)
  | WSettings es => ParseSettingsFrame h payload = inr (MkSettingsFrame es false)
  | WSettingsAck => ParseSettingsFrame h payload = inr (MkSettingsFrame [] true)
  | WPing p => ParsePingFrame h payload = inr p
  | WGoAway l e d => ParseGoAwayFrame h payload = inr (MkGoAwayFrame l e d)
  | WWindowUpdate _ i => ParseWindowUpdateFrame payload = inr (MkWindowUpdateFrame i)
  | WContinuation _ b eh => ParseContinuationFrame h payload = MkContinuationFrame b eh
  end.

(** The header and the payload of each frame, as one list of bytes each. *)
Definition wire_flags (f : wire_frame) : Z :=
  match f with
  | WData _ _ es => if es then DataEndStream else FlagNone
  | WHeadersPrio _ _ _ _ _ es eh => ComputeHeaderFrameFlags es eh HeadersPriority
  | WSettingsAck => SettingsAck
  | WPing p => if pg_isAck p then PingAck else FlagNone
  | WContinuation _ _ eh => if eh then ContinuationEndHeaders else FlagNone
  | _ => FlagNone
  end.

Definition wire_payload (f : wire_frame) : bytes :=
  match f with
  | WData _ d _ => d
  | WHeadersPrio _ b dep w x _ _ => PriorityBytes dep w x ++ b
  | WPriority _ dep w x => PriorityBytes dep w x
  | WRstStream _ e => Write32BE (ErrorCode_to_u32 e)
  | WSettings es => concat (map SettingsEntryBytes es)
  | WSettingsAck => []
  | WPing p => pg_opaqueData p
  | WGoAway l e d => Write32BE l ++ Write32BE (ErrorCode_to_u32 e) ++ d
  | WWindowUpdate _ i => Write32BE (Z.land i 0x7FFFFFFF)
  | WContinuation _ b _ => b
  end.

Definition wire_header (f : wire_frame) : FrameHeader :=
  MkFrameHeader (zlen (wire_payload f)) (wire_type f) (wire_flags f) (wire_stream f).

Lemma PriorityBytes_length dep w x : zlen (PriorityBytes dep w x) = 5.
Proof. by destruct x. Qed.

Lemma concat_settings_length es : zlen (concat (map SettingsEntryBytes es)) = zlen es * 6.
Proof.
  induction es as [|e es IH]; [done|]. simpl concat. autorewrite with aero.
  rewrite IH. unfold SettingsEntryBytes. autorewrite with aero. unfold zlen; simpl; lia.
Qed.

Lemma Write32BE_length v : zlen (Write32BE v) = 4.
Proof. done. Qed.
#[local] Hint Rewrite Write32BE_length PriorityBytes_length concat_settings_length : aero.

Lemma write_wire_eq buffer f :
  wire_ok f ->
  write_wire buffer f =
    (buffer ++ WriteFrameHeader (wire_header f) ++ wire_payload f,
     kFrameHeaderSize + zlen (wire_payload f)).
Proof.
  intros [Hs Hf].
  pose proof (@zlen_nonneg Z) as Hz; pose proof (@zlen_nonneg SettingsEntry) as Hz'.
  destruct f; simpl in Hf; unfold write_wire, WriteDataFrame, WriteHeadersFrameWithPriority,
    WritePriorityFrame, WriteRstStreamFrame, WriteSettingsFrame, WriteSettingsAckFrame,
    WritePingFrame, WriteGoAwayFrame, WriteWindowUpdateFrame, WriteContinuationFrame,
    WriteFrame, wire_header, CreateFrameHeader, u32, wire_type, wire_flags, wire_stream,
    wire_payload;
    autorewrite with aero; rewrite ?(Z.add_assoc 4 4), ?Z.mod_small by (unfold kMaxEntries in *; specialize (Hz block) || specialize (Hz data)
      || specialize (Hz debugData) || specialize (Hz' entries); lia).
  all: rewrite ?app_nil_r, <- ?app_assoc; try done.
  by rewrite Hf.
Qed.

Lemma wire_header_ok f : wire_ok f -> frame_header_ok (wire_header f).
Proof.
  intros [Hs Hf]. unfold frame_header_ok, wire_header; cbn [fh_length fh_type fh_flags fh_streamId].
  split_and!; try apply Hs; try apply zlen_nonneg.
  - destruct f; simpl in Hf; unfold wire_payload; autorewrite with aero; unfold kMaxEntries in *;
      unfold zlen; simpl length; unfold zlen in Hf; lia.
  - by destruct f.
  - destruct f; simpl; unfold ComputeHeaderFrameFlags; repeat case_match; done.
  - destruct f; simpl; unfold ComputeHeaderFrameFlags; repeat case_match; done.
Qed.

Lemma ReadPriority_Priority dep w x r :
  u31_ok dep -> ReadPriority (PriorityBytes dep w x ++ r) = (x, dep, w + 1).
Proof.
  intros Hd. unfold u31_ok in Hd. unfold ReadPriority, PriorityBytes.
  assert (Hx : Z.lor dep 2147483648 = dep + 2147483648).
  { rewrite Z.lor_comm. pose proof (lor_shiftl_low 1 dep 31) as H.
    change (Z.shiftl 1 31) with 2147483648 in H. rewrite H; lia. }
  assert (Hland : forall d, 0 <= d < 2 ^ 31 -> Z.land d 2147483648 = 0).
  { intros d Hd'. rewrite Z.land_comm. by apply (land_shiftl_low 1 d 31). }
  assert (Hland' : Z.land (dep + 2147483648) 2147483648 = 2147483648).
  { rewrite <- Hx, Z.land_lor_distr_l, Hland by done. done. }
  rewrite <- app_assoc. destruct x; rewrite ?Hx, Read32BE_Write32BE by lia;
    rewrite ?Hland', ?Hland, land_31bit by lia; simpl; f_equal; f_equal; zlia.
Qed.

Lemma ReadSettingsEntries_concat es r :
  Forall settings_entry_ok es ->
  ReadSettingsEntries (length es) (concat (map SettingsEntryBytes es) ++ r) = es.
Proof.
  induction 1 as [|[id v] es (H1 & H2 & H3) Hes IH]; [done|].
  cbn [se_id se_value] in *. cbn [map concat length ReadSettingsEntries].
  unfold SettingsEntryBytes at 1 3 5; cbn [se_id se_value]. rewrite <- !app_assoc.
  rewrite Read16BE_Write16BE, H1 by done. f_equal; [|by apply IH].
  f_equal. by apply Read32BE_Write32BE.
Qed.

Ltac flag_cases := unfold hasFlag, ComputeHeaderFrameFlags; cbn [fh_flags wire_header];
  repeat match goal with b : bool |- _ => destruct b end; try reflexivity.

Lemma wire_parse f : wire_ok f -> wire_parsed f (wire_header f) (wire_payload f).
Proof.
  intros [Hs Hf]. destruct f; cbn [wire_stream] in Hs; simpl in Hf; unfold wire_parsed.
  - unfold ParseDataFrame. destruct endStream; reflexivity.
  - destruct Hf as (Hl & Hd & Hw). pose proof (zlen_nonneg block).
    unfold ParseHeadersFrame. cbn [wire_payload].
    replace (hasFlag _ HeadersPriority) with true by flag_cases.
    replace (hasFlag _ HeadersPadded) with false by flag_cases.
    replace (hasFlag _ HeadersEndStream) with endStream by flag_cases.
    replace (hasFlag _ HeadersEndHeaders) with endHeaders by flag_cases.
    cbn [andb]. autorewrite with aero. change (drop (Z.to_nat 0) ?l) with l.
    rewrite ReadPriority_Priority by done. destruct (Z.ltb_spec (5 + zlen block) (0 + 5)); [lia|].
    cbn [andb Z.ltb Z.compare]. do 2 f_equal.
    rewrite <- (app_nil_r block) at 2. apply subspan_app_mid; autorewrite with aero; lia.
  - destruct Hf as (Hd & Hw). unfold ParsePriorityFrame. cbn [wire_payload].
    rewrite PriorityBytes_length, <- (app_nil_r (PriorityBytes _ _ _)).
    by rewrite ReadPriority_Priority.
  - destruct Hf as (He & Hr). unfold ParseRstStreamFrame. cbn [wire_payload].
    rewrite <- (app_nil_r (Write32BE _)), Read32BE_Write32BE by done. by rewrite He.
  - destruct Hf as (Hl & He). unfold ParseSettingsFrame. cbn [wire_payload].
    rewrite concat_settings_length. change (hasFlag _ SettingsAck) with false. cbv beta iota.
    rewrite Z.mod_mul, Z.div_mul, Z.min_l by lia. cbn [Z.eqb negb].
    unfold zlen. rewrite Nat2Z.id, <- (app_nil_r (concat _)).
    by rewrite ReadSettingsEntries_concat.
  - done.
  - unfold ParsePingFrame. cbn [wire_payload]. rewrite Hf. cbn [negb Z.eqb Pos.eqb].
    destruct p as [d a]; cbn [pg_opaqueData] in *. rewrite take_ge by (unfold zlen in Hf; lia).
    by destruct a.
  - destruct Hf as (Hl & (He & Hr) & Hd). unfold ParseGoAwayFrame. cbn [wire_payload].
    autorewrite with aero. destruct (Z.ltb_spec (4 + (4 + zlen debugData)) 8).
    { pose proof (zlen_nonneg debugData). lia. }
    unfold u31_ok in Hl. rewrite Read32BE_Write32BE, land_31bit by lia.
    change (drop 4 _) with (Write32BE (ErrorCode_to_u32 e) ++ debugData).
    rewrite Read32BE_Write32BE, He by done. do 2 f_equal. zlia.
  - unfold ParseWindowUpdateFrame. cbn [wire_payload]. unfold u31_ok in Hf.
    rewrite <- (app_nil_r (Write32BE _)), !land_31bit, Read32BE_Write32BE by zlia.
    cbn. do 2 f_equal. zlia.
  - unfold ParseContinuationFrame. by destruct endHeaders.
Qed.

(** C20: parsing inverts writing for every frame the library can write: the writer
    appends exactly the returned number of bytes; from those bytes, whatever follows
    them, the header parser recovers type, stream and a length that delimits the
    payload, and the parser of that type recovers the writer's arguments. *)
Theorem frame_roundtrip buffer f rest :
  wire_ok f ->
  exists enc, write_wire buffer f = (buffer ++ enc, zlen enc)
  /\ let h := ParseFrameHeader (enc ++ rest) in
     fh_type h = wire_type f /\ fh_streamId h = wire_stream f
     /\ zlen enc = kFrameHeaderSize + fh_length h
     /\ wire_parsed f h (subspan kFrameHeaderSize (fh_length h) (enc ++ rest)).
Proof.
  intros Hok. exists (WriteFrameHeader (wire_header f) ++ wire_payload f).
  rewrite write_wire_eq by done. split; [autorewrite with aero; by rewrite WriteFrameHeader_length|].
  rewrite <- app_assoc, header_roundtrip by by apply wire_header_ok. cbn zeta.
  split_and!; [done..| |].
  - autorewrite with aero. done.
  - rewrite subspan_app_mid by done. by apply wire_parse.
Qed.

Lemma frame_roundtrip_witness :
  wire_ok (WHeadersPrio 5 [130; 132] 3 15 true false true)
  /\ exists enc,
     write_wire [7] (WHeadersPrio 5 [130; 132] 3 15 true false true) = ([7] ++ enc, zlen enc).
Proof.
  assert (H : wire_ok (WHeadersPrio 5 [130; 132] 3 15 true false true)) by (vm_compute; intuition congruence).
  split; [exact H|]. destruct (frame_roundtrip [7] _ [] H) as (enc & He & _). by exists enc.
Defined.

Lemma Read32BE_bound d : bytes_ok d -> 0 <= Read32BE d < 2 ^ 32.
Proof.
  intros Hd. unfold Read32BE. rewrite be32_val by by apply byte_at_ok.
  pose proof (byte_at_ok d 0 Hd); pose proof (byte_at_ok d 1 Hd);
    pose proof (byte_at_ok d 2 Hd); pose proof (byte_at_ok d 3 Hd). lia.
Qed.

Lemma bytes_ok_drop n d : bytes_ok d -> bytes_ok (drop n d).
Proof. apply Forall_drop. Qed.

Lemma ReadPriority_bounds d x dep w :
  bytes_ok d -> ReadPriority d = (x, dep, w) -> u31_ok dep /\ 1 <= w <= 256.
Proof.
  unfold ReadPriority. intros Hd [= <- <- <-]. rewrite land_31bit.
  pose proof (byte_at_ok d 4 Hd). unfold u31_ok. zlia.
Qed.

(** an accepted DATA or HEADERS payload splits exactly into the prefix (pad length
    byte, priority fields), the data or header block fragment, and the padding, so no
    subtraction in the span arithmetic underflows and no byte outside the payload is
    read; the priority fields of HEADERS are in the ranges of the protocol. *)
Theorem parse_padding_in_bounds h payload :
  bytes_ok payload ->
  (forall f, ParseDataFrame h payload = inr f ->
     exists pre pad, payload = pre ++ df_data f ++ pad /\ zlen pad = df_padLength f
       /\ zlen pre = (if hasFlag h DataPadded then 1 else 0))
  /\ (forall f, ParseHeadersFrame h payload = inr f ->
     exists pre pad, payload = pre ++ hf_headerBlockFragment f ++ pad
       /\ zlen pad = hf_padLength f
       /\ zlen pre = (if hasFlag h HeadersPadded then 1 else 0)
                     + (if hf_hasPriority f then 5 else 0)
       /\ u31_ok (hf_streamDependency f) /\ 1 <= hf_weight f <= 256).
Proof.
  intros Hp. pose proof (byte_at_ok payload 0 Hp) as H0. pose proof (zlen_nonneg payload) as Hl.
  split.
  - intros f. unfold ParseDataFrame. destruct (hasFlag h DataPadded) eqn:Hpad.
    + destruct (Z.eqb_spec (zlen payload) 0); [done|].
      destruct (Z.leb_spec (zlen payload) (byte_at payload 0)); [done|]. intros [= <-].
      destruct (subspan_split 1 (zlen payload - 1 - byte_at payload 0) payload)
        as (pre & post & He & H1 & H2); [lia..|]. exists pre, post.
      cbn [df_data df_padLength]. split; [done|lia].
    + intros [= <-]. exists [], []. by rewrite app_nil_r.
  - intros f. unfold ParseHeadersFrame.
    set (padded := hasFlag h HeadersPadded). set (prio := hasFlag h HeadersPriority).
    destruct (padded && (zlen payload =? 0)) eqn:He; [done|].
    destruct (prio && (zlen payload <? _)) eqn:He2; [done|].
    set (pr := if prio then ReadPriority _ else _). destruct pr as [[x dep] w] eqn:Hpr.
    assert (Hb : u31_ok dep /\ 1 <= w <= 256).
    { subst pr. clearbody prio. destruct prio.
      - eapply ReadPriority_bounds, Hpr. by apply bytes_ok_drop.
      - simplify_eq. unfold u31_ok. lia. }
    cbv beta iota. destruct ((0 <? _) && _) eqn:He3; [done|]. intros [= <-]; cbn.
    set (off := if prio then (if padded then 1 else 0) + 5 else if padded then 1 else 0) in *.
    set (pl := if padded then byte_at payload 0 else 0) in *.
    assert (Hoff : 0 <= off /\ 0 <= pl /\ off + pl <= zlen payload).
    { subst off pl. destruct padded, prio; cbn in *; ztest; try done; lia. }
    destruct (subspan_split off (zlen payload - off - pl) payload)
      as (pre & post & Hs & H1 & H2); [lia..|]. exists pre, post.
    split_and!; [done|lia|subst off; destruct prio, padded; lia|apply Hb..].
Qed.

Lemma parse_padding_in_bounds_witness :
  bytes_ok [2; 1; 2; 3; 0; 0]
  /\ ParseDataFrame (MkFrameHeader 6 FtData 8 1) [2; 1; 2; 3; 0; 0]
     = inr (MkDataFrame [1; 2; 3] 2 false)
  /\ exists pre pad, [2; 1; 2; 3; 0; 0] = pre ++ [1; 2; 3] ++ pad /\ zlen pad = 2.
Proof.
  assert (H : bytes_ok [2; 1; 2; 3; 0; 0]) by (apply (bool_decide_unpack _); vm_compute; exact I).
  split; [exact H|]. split; [reflexivity|].
  destruct (parse_padding_in_bounds (MkFrameHeader 6 FtData 8 1) _ H) as [Hd _].
  destruct (Hd _ eq_refl) as (pre & pad & E & L & _). exists pre, pad. by split.
Defined.
