(* ===== verification/Http2Stream.v ===== *)
(** HTTP/2 streams (http2-stream.hpp, http2-stream.cpp): the stream state machine of
    RFC 9113 section 5.1, the two flow-control windows kept as [int32_t], priority
    and error fields.  The theorems give the state machine as a step relation the
    transition functions refine, show that a closed stream stays closed, and that
    window arithmetic never leaves the 32-bit range. *)

From S2P Require Import Prelude Http2Frame.
Local Open Scope Z_scope.

Inductive StreamState :=
| StIdle | StReservedLocal | StReservedRemote | StOpen
| StHalfClosedLocal | StHalfClosedRemote | StClosed.

#[export] Instance StreamState_eq_dec : EqDecision StreamState.
Proof. solve_decision. Defined.

Record Http2Stream := MkStream {
  st_streamId : Z;
  st_errorCode : ErrorCode;
  st_sendWindow : Z;          (* int32_t *)
  st_recvWindow : Z;          (* int32_t *)
  st_initialSendWindow : Z;   (* uint32_t *)
  st_streamDependency : Z;
  st_weight : Z;
  st_state : StreamState;
  st_exclusive : bool;
  st_closedNotified : bool }.

(** The constructor: windows are [static_cast<int32_t>] of the initial size. *)
Definition NewStream (streamId initialWindowSize : Z) : Http2Stream :=
  MkStream streamId ErrNoError (s32 initialWindowSize) (s32 initialWindowSize)
    initialWindowSize 0 16 StIdle false false.

Definition with_state (v : StreamState) (s : Http2Stream) : Http2Stream :=
  MkStream (st_streamId s) (st_errorCode s) (st_sendWindow s) (st_recvWindow s)
    (st_initialSendWindow s) (st_streamDependency s) (st_weight s) v (st_exclusive s)
    (st_closedNotified s).
Definition with_sendWindow (v : Z) (s : Http2Stream) : Http2Stream :=
  MkStream (st_streamId s) (st_errorCode s) v (st_recvWindow s)
    (st_initialSendWindow s) (st_streamDependency s) (st_weight s) (st_state s)
    (st_exclusive s) (st_closedNotified s).
Definition with_recvWindow (v : Z) (s : Http2Stream) : Http2Stream :=
  MkStream (st_streamId s) (st_errorCode s) (st_sendWindow s) v
    (st_initialSendWindow s) (st_streamDependency s) (st_weight s) (st_state s)
    (st_exclusive s) (st_closedNotified s).
Definition with_initialSendWindow (v : Z) (s : Http2Stream) : Http2Stream :=
  MkStream (st_streamId s) (st_errorCode s) (st_sendWindow s) (st_recvWindow s)
    v (st_streamDependency s) (st_weight s) (st_state s)
    (st_exclusive s) (st_closedNotified s).

Definition canSend (s : Http2Stream) : bool :=
  match st_state s with StOpen | StHalfClosedRemote => true | _ => false end.

Definition canReceive (s : Http2Stream) : bool :=
  match st_state s with StOpen | StHalfClosedLocal => true | _ => false end.

Definition isClosed (s : Http2Stream) : bool :=
  match st_state s with StClosed => true | _ => false end.

Definition markClosedNotified (s : Http2Stream) : bool * Http2Stream :=
  if st_closedNotified s then (false, s)
  else (true, MkStream (st_streamId s) (st_errorCode s) (st_sendWindow s) (st_recvWindow s)
          (st_initialSendWindow s) (st_streamDependency s) (st_weight s) (st_state s)
          (st_exclusive s) true).

Definition setPriority (streamDependency weight : Z) (exclusive : bool) (s : Http2Stream)
  : Http2Stream :=
  MkStream (st_streamId s) (st_errorCode s) (st_sendWindow s) (st_recvWindow s)
    (st_initialSendWindow s) streamDependency weight (st_state s) exclusive
    (st_closedNotified s).

Definition setErrorCode (code : ErrorCode) (s : Http2Stream) : Http2Stream :=
  MkStream (st_streamId s) code (st_sendWindow s) (st_recvWindow s)
    (st_initialSendWindow s) (st_streamDependency s) (st_weight s) (st_state s)
    (st_exclusive s) (st_closedNotified s).

(** ** State transitions: the returned error and the stream after the call *)

Definition onSendHeaders (endStream : bool) (s : Http2Stream) : ErrorCode * Http2Stream :=
  match st_state s with
  | StIdle => (ErrNoError, with_state (if endStream then StHalfClosedLocal else StOpen) s)
  | StReservedLocal =>
      (ErrNoError, with_state (if endStream then StClosed else StHalfClosedRemote) s)
  | StOpen => (ErrNoError, if endStream then with_state StHalfClosedLocal s else s)
  | StHalfClosedRemote => (ErrNoError, if endStream then with_state StClosed s else s)
  | _ => (ErrStreamClosed, s)
  end.

Definition onRecvHeaders (endStream : bool) (s : Http2Stream) : ErrorCode * Http2Stream :=
  match st_state s with
  | StIdle => (ErrNoError, with_state (if endStream then StHalfClosedRemote else StOpen) s)
  | StReservedRemote =>
      (ErrNoError, with_state (if endStream then StClosed else StHalfClosedLocal) s)
  | StOpen => (ErrNoError, if endStream then with_state StHalfClosedRemote s else s)
  | StHalfClosedLocal => (ErrNoError, if endStream then with_state StClosed s else s)
  | _ => (ErrStreamClosed, s)
  end.

Definition onSendData (endStream : bool) (s : Http2Stream) : ErrorCode * Http2Stream :=
  match st_state s with
  | StOpen => (ErrNoError, if endStream then with_state StHalfClosedLocal s else s)
  | StHalfClosedRemote => (ErrNoError, if endStream then with_state StClosed s else s)
  | _ => (ErrStreamClosed, s)
  end.

Definition onRecvData (endStream : bool) (s : Http2Stream) : ErrorCode * Http2Stream :=
  match st_state s with
  | StOpen => (ErrNoError, if endStream then with_state StHalfClosedRemote s else s)
  | StHalfClosedLocal => (ErrNoError, if endStream then with_state StClosed s else s)
  | _ => (ErrStreamClosed, s)
  end.

Definition onSendRstStream (s : Http2Stream) : Http2Stream := with_state StClosed s.
Definition onRecvRstStream (s : Http2Stream) : Http2Stream := with_state StClosed s.

Definition onSendPushPromise (s : Http2Stream) : ErrorCode :=
  match st_state s with StOpen | StHalfClosedRemote => ErrNoError | _ => ErrProtocolError end.

Definition onRecvPushPromise (s : Http2Stream) : ErrorCode :=
  match st_state s with StOpen | StHalfClosedLocal => ErrNoError | _ => ErrProtocolError end.

(** ** Flow control.  [std::cmp_less] compares the mathematical values. *)

Definition consumeSendWindow (n : Z) (s : Http2Stream) : bool * Http2Stream :=
  if st_sendWindow s <? n then (false, s)
  else (true, with_sendWindow (s32 (st_sendWindow s - s32 n)) s).

Definition consumeRecvWindow (n : Z) (s : Http2Stream) : bool * Http2Stream :=
  if st_recvWindow s <? n then (false, s)
  else (true, with_recvWindow (s32 (st_recvWindow s - s32 n)) s).

Definition increaseSendWindow (increment : Z) (s : Http2Stream) : ErrorCode * Http2Stream :=
  if increment =? 0 then (ErrProtocolError, s)
  else
    let newWindow := st_sendWindow s + increment in
    if kMaxWindowSize <? newWindow then (ErrFlowControlError, s)
    else (ErrNoError, with_sendWindow (s32 newWindow) s).

Definition increaseRecvWindow (increment : Z) (s : Http2Stream) : ErrorCode * Http2Stream :=
  let newWindow := st_recvWindow s + increment in
  if kMaxWindowSize <? newWindow then (ErrFlowControlError, s)
  else (ErrNoError, with_recvWindow (s32 newWindow) s).

Definition updateInitialWindowSize (newInitialWindowSize : Z) (s : Http2Stream)
  : ErrorCode * Http2Stream :=
  let delta := newInitialWindowSize - st_initialSendWindow s in
  let newWindow := st_sendWindow s + delta in
  if (kMaxWindowSize <? newWindow) || (newWindow <? 0) then (ErrFlowControlError, s)
  else (ErrNoError, with_initialSendWindow newInitialWindowSize
                      (with_sendWindow (s32 newWindow) s)).

(** ** Specification: a stream is a pair of independent directions

    Each direction is not yet opened, open for frames, or finished.  The seven states
    of the code are exactly seven of these pairs. *)

Inductive dir := DIdle | DOpen | DDone.

#[export] Instance dir_eq_dec : EqDecision dir.
Proof. solve_decision. Defined.

Definition directions (st : StreamState) : dir * dir :=
  match st with
  | StIdle => (DIdle, DIdle)
  | StReservedLocal => (DIdle, DDone)
  | StReservedRemote => (DDone, DIdle)
  | StOpen => (DOpen, DOpen)
  | StHalfClosedLocal => (DDone, DOpen)
  | StHalfClosedRemote => (DOpen, DDone)
  | StClosed => (DDone, DDone)
  end.

Definition local_dir (s : Http2Stream) : dir := (directions (st_state s)).1.
Definition remote_dir (s : Http2Stream) : dir := (directions (st_state s)).2.

(** HEADERS open both directions of the stream; the sender's one is then done if the
    frame carries END_STREAM.  A done direction refuses the frame. *)
Definition opened (d : dir) : dir := match d with DIdle => DOpen | d => d end.
Definition after_frame (endStream : bool) : dir := if endStream then DDone else DOpen.

Definition spec_headers (endStream : bool) (mine other : dir) : option (dir * dir) :=
  if decide (mine = DDone) then None else Some (after_frame endStream, opened other).
Definition spec_data (endStream : bool) (mine other : dir) : option (dir * dir) :=
  if decide (mine = DOpen) then Some (after_frame endStream, other) else None.

Definition refines_step (r : ErrorCode * Http2Stream) (s : Http2Stream)
    (spec : option (dir * dir)) (swap : bool) : Prop :=
  match spec with
  | Some (m, o) => r.1 = ErrNoError
      /\ directions (st_state r.2) = (if swap then (o, m) else (m, o))
      /\ r.2 = with_state (st_state r.2) s
  | None => r = (ErrStreamClosed, s)
  end.

Ltac by_stream_state := unfold local_dir, remote_dir, canSend, canReceive, isClosed,
  onSendHeaders, onRecvHeaders, onSendData, onRecvData, spec_headers, spec_data, refines_step;
  match goal with s : Http2Stream |- _ => destruct s as [? ? ? ? ? ? ? st ? ?]; destruct st end;
  repeat match goal with b : bool |- _ => destruct b end; simpl; split_and?; try done.

(** C23: the state machine of the code refines two independent directions: HEADERS are
    accepted exactly when the sender's direction is not done and then move it to open
    or done, DATA exactly when it is open, every refusal is STREAM_CLOSED and leaves
    the stream unchanged; [canSend], [canReceive] and [isClosed] read the directions. *)
Theorem stream_refines_directions (s : Http2Stream) (es : bool) :
  refines_step (onSendHeaders es s) s (spec_headers es (local_dir s) (remote_dir s)) false
  /\ refines_step (onRecvHeaders es s) s (spec_headers es (remote_dir s) (local_dir s)) true
  /\ refines_step (onSendData es s) s (spec_data es (local_dir s) (remote_dir s)) false
  /\ refines_step (onRecvData es s) s (spec_data es (remote_dir s) (local_dir s)) true
  /\ canSend s = bool_decide (local_dir s = DOpen)
  /\ canReceive s = bool_decide (remote_dir s = DOpen)
  /\ isClosed s = bool_decide (local_dir s = DDone /\ remote_dir s = DDone).
Proof. by_stream_state. Qed.

(** ** Sequences of operations *)

Inductive stream_op :=
| OpSendHeaders (es : bool) | OpRecvHeaders (es : bool)
| OpSendData (es : bool) | OpRecvData (es : bool)
| OpSendRst | OpRecvRst
| OpConsumeSend (n : Z) | OpConsumeRecv (n : Z)
| OpIncreaseSend (n : Z) | OpIncreaseRecv (n : Z)
| OpUpdateInitial (n : Z)
| OpSetPriority (dep w : Z) (x : bool) | OpSetError (e : ErrorCode) | OpMarkNotified.

Definition apply_op (s : Http2Stream) (o : stream_op) : Http2Stream :=
  match o with
  | OpSendHeaders es => (onSendHeaders es s).2
  | OpRecvHeaders es => (onRecvHeaders es s).2
  | OpSendData es => (onSendData es s).2
  | OpRecvData es => (onRecvData es s).2
  | OpSendRst => onSendRstStream s
  | OpRecvRst => onRecvRstStream s
  | OpConsumeSend n => (consumeSendWindow n s).2
  | OpConsumeRecv n => (consumeRecvWindow n s).2
  | OpIncreaseSend n => (increaseSendWindow n s).2
  | OpIncreaseRecv n => (increaseRecvWindow n s).2
  | OpUpdateInitial n => (updateInitialWindowSize n s).2
  | OpSetPriority d w x => setPriority d w x s
  | OpSetError e => setErrorCode e s
  | OpMarkNotified => (markClosedNotified s).2
  end.

Definition run_ops (ops : list stream_op) (s : Http2Stream) : Http2Stream :=
  foldl apply_op s ops.

(** Every operation only moves a direction forward. *)
Definition dir_le (a b : dir) : Prop :=
  match a, b with
  | DIdle, _ | DOpen, (DOpen | DDone) | DDone, DDone => True
  | _, _ => False
  end.

Lemma window_ops_state s :
  forall o, match o with
  | OpConsumeSend _ | OpConsumeRecv _ | OpIncreaseSend _ | OpIncreaseRecv _
  | OpUpdateInitial _ | OpSetPriority _ _ _ | OpSetError _ | OpMarkNotified =>
      st_state (apply_op s o) = st_state s
  | _ => True end.
Proof.
  intros []; simpl; try done; unfold consumeSendWindow, consumeRecvWindow, increaseSendWindow,
    increaseRecvWindow, updateInitialWindowSize, markClosedNotified; repeat case_match; done.
Qed.

Lemma apply_op_forward s o :
  dir_le (local_dir s) (local_dir (apply_op s o))
  /\ dir_le (remote_dir s) (remote_dir (apply_op s o)).
Proof.
  pose proof (window_ops_state s o) as Hw.
  destruct o; unfold local_dir, remote_dir; try (rewrite Hw; by destruct (st_state s));
    unfold apply_op; by_stream_state.
Qed.

Lemma run_ops_done ops s :
  (local_dir s = DDone -> local_dir (run_ops ops s) = DDone)
  /\ (remote_dir s = DDone -> remote_dir (run_ops ops s) = DDone).
Proof.
  revert s. induction ops as [|o ops IH]; intros s; [done|]. simpl.
  destruct (apply_op_forward s o) as [Hl Hr]. destruct (IH (apply_op s o)) as [IHl IHr].
  split; intros Hd; rewrite Hd in *.
  - apply IHl. by destruct (local_dir (apply_op s o)).
  - apply IHr. by destruct (remote_dir (apply_op s o)).
Qed.

Lemma done_refuses s es :
  (local_dir s = DDone ->
     onSendData es s = (ErrStreamClosed, s) /\ onSendHeaders es s = (ErrStreamClosed, s))
  /\ (remote_dir s = DDone ->
     onRecvData es s = (ErrStreamClosed, s) /\ onRecvHeaders es s = (ErrStreamClosed, s)).
Proof. split; intros Hd; revert Hd; by_stream_state. Qed.

(** END_STREAM is final in its direction: after a frame with END_STREAM was accepted
    for sending (receiving), no sequence of stream operations whatever makes the stream
    accept another HEADERS or DATA frame in that direction. *)
Theorem end_stream_final (s : Http2Stream) (ops : list stream_op) (es : bool) :
  (forall s', onSendData true s = (ErrNoError, s') \/ onSendHeaders true s = (ErrNoError, s') ->
     let s2 := run_ops ops s' in
     onSendData es s2 = (ErrStreamClosed, s2) /\ onSendHeaders es s2 = (ErrStreamClosed, s2))
  /\ (forall s', onRecvData true s = (ErrNoError, s') \/ onRecvHeaders true s = (ErrNoError, s') ->
     let s2 := run_ops ops s' in
     onRecvData es s2 = (ErrStreamClosed, s2) /\ onRecvHeaders es s2 = (ErrStreamClosed, s2)).
Proof.
  split; intros s' Hs' s2; destruct (run_ops_done ops s') as [Hl Hr]; apply done_refuses.
  - apply Hl. unfold onSendData, onSendHeaders in Hs'. unfold local_dir.
    destruct (st_state s), Hs'; by simplify_eq.
  - apply Hr. unfold onRecvData, onRecvHeaders in Hs'. unfold remote_dir.
    destruct (st_state s), Hs'; by simplify_eq.
Qed.

Lemma end_stream_final_witness :
  let s := with_state StOpen (NewStream 1 65535) in
  onSendData true s = (ErrNoError, with_state StHalfClosedLocal s)
  /\ onSendData false (run_ops [OpRecvData true; OpIncreaseSend 10] (with_state StHalfClosedLocal s))
     = (ErrStreamClosed, run_ops [OpRecvData true; OpIncreaseSend 10] (with_state StHalfClosedLocal s)).
Proof.
  intros s. split; [reflexivity|].
  apply (end_stream_final s [OpRecvData true; OpIncreaseSend 10] false). left. reflexivity.
Defined.

(** ** Flow control *)

Definition stream_ok (s : Http2Stream) : Prop :=
  0 <= st_sendWindow s <= kMaxWindowSize /\ 0 <= st_recvWindow s <= kMaxWindowSize
  /\ 0 <= st_initialSendWindow s <= kMaxWindowSize.

(** Arguments in the range of their C++ type; SETTINGS_INITIAL_WINDOW_SIZE is checked
    by the caller. *)
Definition op_ok (o : stream_op) : Prop :=
  match o with
  | OpConsumeSend n | OpConsumeRecv n | OpIncreaseSend n | OpIncreaseRecv n => 0 <= n < 2 ^ 32
  | OpUpdateInitial n => 0 <= n <= kMaxWindowSize
  | _ => True
  end.

(** What an operation adds to the send (receive) window when the code accepts it. *)
Definition send_delta (s : Http2Stream) (o : stream_op) : Z :=
  match o with
  | OpConsumeSend n => if (consumeSendWindow n s).1 then - n else 0
  | OpIncreaseSend n => if decide ((increaseSendWindow n s).1 = ErrNoError) then n else 0
  | OpUpdateInitial n =>
      if decide ((updateInitialWindowSize n s).1 = ErrNoError)
      then n - st_initialSendWindow s else 0
  | _ => 0
  end.
Definition recv_delta (s : Http2Stream) (o : stream_op) : Z :=
  match o with
  | OpConsumeRecv n => if (consumeRecvWindow n s).1 then - n else 0
  | OpIncreaseRecv n => if decide ((increaseRecvWindow n s).1 = ErrNoError) then n else 0
  | _ => 0
  end.

Fixpoint balance (delta : Http2Stream -> stream_op -> Z) (ops : list stream_op)
    (s : Http2Stream) : Z :=
  match ops with
  | [] => 0
  | o :: r => delta s o + balance delta r (apply_op s o)
  end.

Ltac window_op := unfold consumeSendWindow, consumeRecvWindow, increaseSendWindow,
  increaseRecvWindow, updateInitialWindowSize, kMaxWindowSize in *;
  repeat first [ progress ztest | progress cbn in * | case_decide ];
  repeat match goal with |- context [s32 ?x] => rewrite (s32_id x) by lia end; cbn.

Lemma apply_op_window s o :
  stream_ok s -> op_ok o ->
  stream_ok (apply_op s o)
  /\ st_sendWindow (apply_op s o) = st_sendWindow s + send_delta s o
  /\ st_recvWindow (apply_op s o) = st_recvWindow s + recv_delta s o.
Proof.
  intros (Hs & Hr & Hi) Ho. unfold stream_ok.
  destruct o; cbn [apply_op send_delta recv_delta op_ok] in *;
    try (unfold onSendHeaders, onRecvHeaders, onSendData, onRecvData, markClosedNotified;
         repeat case_match; cbn; lia).
  all: window_op; try done; lia.
Qed.

(** C31: flow-control windows are exact.  For every sequence of operations with arguments in
    the range of their C++ types, both windows stay in [0, 2^31-1], no [int32_t]
    arithmetic wraps, and each window equals its start value plus the accepted credits
    minus the accepted debits, so a stream never accounts more bytes than it was given. *)
Theorem flow_windows_exact (s : Http2Stream) (ops : list stream_op) :
  stream_ok s -> Forall op_ok ops ->
  stream_ok (run_ops ops s)
  /\ st_sendWindow (run_ops ops s) = st_sendWindow s + balance send_delta ops s
  /\ st_recvWindow (run_ops ops s) = st_recvWindow s + balance recv_delta ops s.
Proof.
  intros Hs Hops. revert s Hs. induction Hops as [|o ops Ho Hops IH]; intros s Hs.
  - cbn. split; [done|lia].
  - destruct (apply_op_window s o Hs Ho) as (Hok & H1 & H2).
    destruct (IH _ Hok) as (Hok' & H1' & H2'). cbn [run_ops foldl balance].
    unfold run_ops in *. split; [done|lia].
Qed.

Lemma flow_windows_exact_witness :
  let ops := [OpConsumeSend 65535; OpIncreaseSend 10; OpConsumeSend 11; OpConsumeRecv 5] in
  stream_ok (NewStream 1 65535) /\ Forall op_ok ops
  /\ st_sendWindow (run_ops ops (NewStream 1 65535)) = 10.
Proof.
  intros ops. assert (H1 : stream_ok (NewStream 1 65535)) by (vm_compute; intuition congruence).
  assert (H2 : Forall op_ok ops) by (repeat constructor; cbn; lia).
  split; [exact H1|]. split; [exact H2|].
  destruct (flow_windows_exact _ _ H1 H2) as (_ & E & _). rewrite E. reflexivity.
Defined.

(** a change of SETTINGS_INITIAL_WINDOW_SIZE is accepted exactly when the adjusted send
    window stays in [0, 2^31-1]; otherwise the result is FLOW_CONTROL_ERROR and the stream
    is unchanged.  (RFC 9113 section 6.9.2 lets the window become negative.) *)
Theorem updateInitialWindowSize_accepts (s : Http2Stream) (n : Z) :
  stream_ok s -> 0 <= n <= kMaxWindowSize ->
  let w := st_sendWindow s + (n - st_initialSendWindow s) in
  updateInitialWindowSize n s =
    (if decide (0 <= w <= kMaxWindowSize)
     then (ErrNoError, with_initialSendWindow n (with_sendWindow w s))
     else (ErrFlowControlError, s)).
Proof.
  intros (Hs & Hr & Hi) Hn w. subst w. window_op; try done; lia.
Qed.

Lemma updateInitialWindowSize_accepts_witness :
  let s := with_sendWindow 0 (NewStream 1 65535) in
  stream_ok s /\ updateInitialWindowSize 16384 s = (ErrFlowControlError, s).
Proof.
  intros s. assert (H : stream_ok s) by (vm_compute; intuition congruence).
  split; [exact H|]. rewrite (updateInitialWindowSize_accepts s 16384 H) by (vm_compute; intuition congruence).
  reflexivity.
Defined.
