(* ===== verification/HpackTables.v ===== *)
(** The constant tables of hpack.cpp: the HPACK static table (RFC 7541 appendix A) and the
    Huffman code of every octet and of EOS (RFC 7541 appendix B), copied entry by entry. *)

From S2P Require Import Prelude.
Local Open Scope Z_scope.

Record HeaderView := MkHeaderView { hv_name : bytes; hv_value : bytes }.

#[export] Instance HeaderView_eq_dec : EqDecision HeaderView.
Proof. solve_decision. Defined.

Definition hdr (name value : string) : HeaderView := MkHeaderView (str name) (str value).

Definition kStaticTable : list HeaderView := [
  hdr ":authority" EmptyString;
  hdr ":method" "GET";
  hdr ":method" "POST";
  hdr ":path" "/";
  hdr ":path" "/index.html";
  hdr ":scheme" "http";
  hdr ":scheme" "https";
  hdr ":status" "200";
  hdr ":status" "204";
  hdr ":status" "206";
  hdr ":status" "304";
  hdr ":status" "400";
  hdr ":status" "404";
  hdr ":status" "500";
  hdr "accept-charset" EmptyString;
  hdr "accept-encoding" "gzip, deflate";
  hdr "accept-language" EmptyString;
  hdr "accept-ranges" EmptyString;
  hdr "accept" EmptyString;
  hdr "access-control-allow-origin" EmptyString;
  hdr "age" EmptyString;
  hdr "allow" EmptyString;
  hdr "authorization" EmptyString;
  hdr "cache-control" EmptyString;
  hdr "content-disposition" EmptyString;
  hdr "content-encoding" EmptyString;
  hdr "content-language" EmptyString;
  hdr "content-length" EmptyString;
  hdr "content-location" EmptyString;
  hdr "content-range" EmptyString;
  hdr "content-type" EmptyString;
  hdr "cookie" EmptyString;
  hdr "date" EmptyString;
  hdr "etag" EmptyString;
  hdr "expect" EmptyString;
  hdr "expires" EmptyString;
  hdr "from" EmptyString;
  hdr "host" EmptyString;
  hdr "if-match" EmptyString;
  hdr "if-modified-since" EmptyString;
  hdr "if-none-match" EmptyString;
  hdr "if-range" EmptyString;
  hdr "if-unmodified-since" EmptyString;
  hdr "last-modified" EmptyString;
  hdr "link" EmptyString;
  hdr "location" EmptyString;
  hdr "max-forwards" EmptyString;
  hdr "proxy-authenticate" EmptyString;
  hdr "proxy-authorization" EmptyString;
  hdr "range" EmptyString;
  hdr "referer" EmptyString;
  hdr "refresh" EmptyString;
  hdr "retry-after" EmptyString;
  hdr "server" EmptyString;
  hdr "set-cookie" EmptyString;
  hdr "strict-transport-security" EmptyString;
  hdr "transfer-encoding" EmptyString;
  hdr "user-agent" EmptyString;
  hdr "vary" EmptyString;
  hdr "via" EmptyString;
  hdr "www-authenticate" EmptyString].

Record HuffmanCode := MkHuffmanCode { hc_code : Z; hc_bitLength : Z }.

Definition hc (code bitLength : Z) : HuffmanCode := MkHuffmanCode code bitLength.

(** Entry [i] is the code of octet [i]; entry 256 is EOS. *)
Definition kHuffmanCodes : list HuffmanCode := [
  hc 0x1ff8 13; hc 0x7fffd8 23; hc 0xfffffe2 28; hc 0xfffffe3 28;
  hc 0xfffffe4 28; hc 0xfffffe5 28; hc 0xfffffe6 28; hc 0xfffffe7 28;
  hc 0xfffffe8 28; hc 0xffffea 24; hc 0x3ffffffc 30; hc 0xfffffe9 28;
  hc 0xfffffea 28; hc 0x3ffffffd 30; hc 0xfffffeb 28; hc 0xfffffec 28;
  hc 0xfffffed 28; hc 0xfffffee 28; hc 0xfffffef 28; hc 0xffffff0 28;
  hc 0xffffff1 28; hc 0xffffff2 28; hc 0x3ffffffe 30; hc 0xffffff3 28;
  hc 0xffffff4 28; hc 0xffffff5 28; hc 0xffffff6 28; hc 0xffffff7 28;
  hc 0xffffff8 28; hc 0xffffff9 28; hc 0xffffffa 28; hc 0xffffffb 28;
  hc 0x14 6; hc 0x3f8 10; hc 0x3f9 10; hc 0xffa 12;
  hc 0x1ff9 13; hc 0x15 6; hc 0xf8 8; hc 0x7fa 11;
  hc 0x3fa 10; hc 0x3fb 10; hc 0xf9 8; hc 0x7fb 11;
  hc 0xfa 8; hc 0x16 6; hc 0x17 6; hc 0x18 6;
  hc 0x0 5; hc 0x1 5; hc 0x2 5; hc 0x19 6;
  hc 0x1a 6; hc 0x1b 6; hc 0x1c 6; hc 0x1d 6;
  hc 0x1e 6; hc 0x1f 6; hc 0x5c 7; hc 0xfb 8;
  hc 0x7ffc 15; hc 0x20 6; hc 0xffb 12; hc 0x3fc 10;
  hc 0x1ffa 13; hc 0x21 6; hc 0x5d 7; hc 0x5e 7;
  hc 0x5f 7; hc 0x60 7; hc 0x61 7; hc 0x62 7;
  hc 0x63 7; hc 0x64 7; hc 0x65 7; hc 0x66 7;
  hc 0x67 7; hc 0x68 7; hc 0x69 7; hc 0x6a 7;
  hc 0x6b 7; hc 0x6c 7; hc 0x6d 7; hc 0x6e 7;
  hc 0x6f 7; hc 0x70 7; hc 0x71 7; hc 0x72 7;
  hc 0xfc 8; hc 0x73 7; hc 0xfd 8; hc 0x1ffb 13;
  hc 0x7fff0 19; hc 0x1ffc 13; hc 0x3ffc 14; hc 0x22 6;
  hc 0x7ffd 15; hc 0x3 5; hc 0x23 6; hc 0x4 5;
  hc 0x24 6; hc 0x5 5; hc 0x25 6; hc 0x26 6;
  hc 0x27 6; hc 0x6 5; hc 0x74 7; hc 0x75 7;
  hc 0x28 6; hc 0x29 6; hc 0x2a 6; hc 0x7 5;
  hc 0x2b 6; hc 0x76 7; hc 0x2c 6; hc 0x8 5;
  hc 0x9 5; hc 0x2d 6; hc 0x77 7; hc 0x78 7;
  hc 0x79 7; hc 0x7a 7; hc 0x7b 7; hc 0x7ffe 15;
  hc 0x7fc 11; hc 0x3ffd 14; hc 0x1ffd 13; hc 0xffffffc 28;
  hc 0xfffe6 20; hc 0x3fffd2 22; hc 0xfffe7 20; hc 0xfffe8 20;
  hc 0x3fffd3 22; hc 0x3fffd4 22; hc 0x3fffd5 22; hc 0x7fffd9 23;
  hc 0x3fffd6 22; hc 0x7fffda 23; hc 0x7fffdb 23; hc 0x7fffdc 23;
  hc 0x7fffdd 23; hc 0x7fffde 23; hc 0xffffeb 24; hc 0x7fffdf 23;
  hc 0xffffec 24; hc 0xffffed 24; hc 0x3fffd7 22; hc 0x7fffe0 23;
  hc 0xffffee 24; hc 0x7fffe1 23; hc 0x7fffe2 23; hc 0x7fffe3 23;
  hc 0x7fffe4 23; hc 0x1fffdc 21; hc 0x3fffd8 22; hc 0x7fffe5 23;
  hc 0x3fffd9 22; hc 0x7fffe6 23; hc 0x7fffe7 23; hc 0xffffef 24;
  hc 0x3fffda 22; hc 0x1fffdd 21; hc 0xfffe9 20; hc 0x3fffdb 22;
  hc 0x3fffdc 22; hc 0x7fffe8 23; hc 0x7fffe9 23; hc 0x1fffde 21;
  hc 0x7fffea 23; hc 0x3fffdd 22; hc 0x3fffde 22; hc 0xfffff0 24;
  hc 0x1fffdf 21; hc 0x3fffdf 22; hc 0x7fffeb 23; hc 0x7fffec 23;
  hc 0x1fffe0 21; hc 0x1fffe1 21; hc 0x3fffe0 22; hc 0x1fffe2 21;
  hc 0x7fffed 23; hc 0x3fffe1 22; hc 0x7fffee 23; hc 0x7fffef 23;
  hc 0xfffea 20; hc 0x3fffe2 22; hc 0x3fffe3 22; hc 0x3fffe4 22;
  hc 0x7ffff0 23; hc 0x3fffe5 22; hc 0x3fffe6 22; hc 0x7ffff1 23;
  hc 0x3ffffe0 26; hc 0x3ffffe1 26; hc 0xfffeb 20; hc 0x7fff1 19;
  hc 0x3fffe7 22; hc 0x7ffff2 23; hc 0x3fffe8 22; hc 0x1ffffec 25;
  hc 0x3ffffe2 26; hc 0x3ffffe3 26; hc 0x3ffffe4 26; hc 0x7ffffde 27;
  hc 0x7ffffdf 27; hc 0x3ffffe5 26; hc 0xfffff1 24; hc 0x1ffffed 25;
  hc 0x7fff2 19; hc 0x1fffe3 21; hc 0x3ffffe6 26; hc 0x7ffffe0 27;
  hc 0x7ffffe1 27; hc 0x3ffffe7 26; hc 0x7ffffe2 27; hc 0xfffff2 24;
  hc 0x1fffe4 21; hc 0x1fffe5 21; hc 0x3ffffe8 26; hc 0x3ffffe9 26;
  hc 0xffffffd 28; hc 0x7ffffe3 27; hc 0x7ffffe4 27; hc 0x7ffffe5 27;
  hc 0xfffec 20; hc 0xfffff3 24; hc 0xfffed 20; hc 0x1fffe6 21;
  hc 0x3fffe9 22; hc 0x1fffe7 21; hc 0x1fffe8 21; hc 0x7ffff3 23;
  hc 0x3fffea 22; hc 0x3fffeb 22; hc 0x1ffffee 25; hc 0x1ffffef 25;
  hc 0xfffff4 24; hc 0xfffff5 24; hc 0x3ffffea 26; hc 0x7ffff4 23;
  hc 0x3ffffeb 26; hc 0x7ffffe6 27; hc 0x3ffffec 26; hc 0x3ffffed 26;
  hc 0x7ffffe7 27; hc 0x7ffffe8 27; hc 0x7ffffe9 27; hc 0x7ffffea 27;
  hc 0x7ffffeb 27; hc 0xffffffe 28; hc 0x7ffffec 27; hc 0x7ffffed 27;
  hc 0x7ffffee 27; hc 0x7ffffef 27; hc 0x7fffff0 27; hc 0x3ffffee 26;
  hc 0x3fffffff 30].
