(* ===== verification/HpackHuffmanProofs.v ===== *)
(** Correctness of the HPACK Huffman coder of HpackHuffman: facts of the code table
    established by computation, the bit string denoted by a decoder state, the language
    of valid encodings, and the agreement of the decoder and the encoder with it. *)

From S2P Require Import Prelude HpackTables HpackHuffman.
Local Open Scope Z_scope.

(** ** Facts of the code table *)

Definition code_ok (c : HuffmanCode) : bool :=
  (5 <=? hc_bitLength c) && (hc_bitLength c <=? 30)
  && (0 <=? hc_code c) && (hc_code c <? 2 ^ hc_bitLength c).

Definition prefix_of (c d : HuffmanCode) : bool :=
  (hc_bitLength c <=? hc_bitLength d)
  && (Z.shiftr (hc_code d) (hc_bitLength d - hc_bitLength c) =? hc_code c).

Fixpoint prefix_free (l : list HuffmanCode) : bool :=
  match l with
  | [] => true
  | c :: r => forallb (fun d => negb (prefix_of c d) && negb (prefix_of d c)) r && prefix_free r
  end.

Definition all_ones (c : HuffmanCode) : bool :=
  (hc_bitLength c <=? 7) && (hc_code c =? 2 ^ hc_bitLength c - 1).

Definition short_codes : list HuffmanCode :=
  List.filter (fun c => hc_bitLength c <=? 9) kHuffmanCodes.

Definition entry_check (i : Z) (e : HuffmanDecodeEntry) : bool :=
  if de_bitsUsed e =? 0 then
    forallb (fun c => negb (Z.shiftr i (9 - hc_bitLength c) =? hc_code c)) short_codes
  else
    (0 <=? de_symbol e) && (de_symbol e <? 256)
    && (hc_bitLength (code_of (de_symbol e)) =? de_bitsUsed e) && (de_bitsUsed e <=? 9)
    && (Z.shiftr i (9 - de_bitsUsed e) =? hc_code (code_of (de_symbol e))).

Fixpoint table_check (i : Z) (t : list HuffmanDecodeEntry) : bool :=
  match t with [] => true | e :: t => entry_check i e && table_check (i + 1) t end.

Lemma codes_count : length kHuffmanCodes = 257%nat.
Proof. reflexivity. Qed.
Lemma codes_ok : forallb code_ok kHuffmanCodes = true.
Proof. vm_compute. reflexivity. Qed.
Lemma codes_prefix_free : prefix_free kHuffmanCodes = true.
Proof. vm_compute. reflexivity. Qed.
Lemma codes_not_padding : forallb (fun c => negb (all_ones c)) kHuffmanCodes = true.
Proof. vm_compute. reflexivity. Qed.
Lemma table_size : length kHuffmanDecodeTable = 512%nat.
Proof. vm_compute. reflexivity. Qed.
Lemma table_ok : table_check 0 kHuffmanDecodeTable = true.
Proof. vm_compute. reflexivity. Qed.

(** ** The facts in terms of symbols *)

Definition sym_ok (s : Z) : Prop := 0 <= s <= 256.
Abbreviation clen s := (hc_bitLength (code_of s)).
Abbreviation cval s := (hc_code (code_of s)).

Lemma code_of_lookup s : sym_ok s -> kHuffmanCodes !! Z.to_nat s = Some (code_of s).
Proof.
  intros Hs. unfold sym_ok in Hs. unfold code_of.
  destruct (lookup_lt_is_Some_2 kHuffmanCodes (Z.to_nat s)) as [c Hc].
  { rewrite codes_count. lia. }
  by rewrite Hc, (nth_lookup_Some _ _ _ _ Hc).
Qed.

Lemma forallb_lookup {A} (f : A -> bool) l i x :
  forallb f l = true -> l !! i = Some x -> f x = true.
Proof.
  intros Hf Hi. rewrite forallb_forall in Hf. apply Hf.
  apply list_elem_of_In, list_elem_of_lookup. eauto.
Qed.

Lemma clen_bounds s : sym_ok s -> 5 <= clen s <= 30.
Proof.
  intros Hs. pose proof (forallb_lookup _ _ _ _ codes_ok (code_of_lookup s Hs)) as H.
  unfold code_ok in H. lia.
Qed.

Lemma cval_bounds s : sym_ok s -> 0 <= cval s < 2 ^ clen s.
Proof.
  intros Hs. pose proof (forallb_lookup _ _ _ _ codes_ok (code_of_lookup s Hs)) as H.
  unfold code_ok in H. lia.
Qed.

Lemma prefix_free_lookup l i j c d :
  prefix_free l = true -> l !! i = Some c -> l !! j = Some d -> prefix_of c d = true -> i = j.
Proof.
  revert i j. induction l as [|x l IH]; intros i j Hf Hi Hj Hp; [done|].
  cbn in Hf. apply andb_true_iff in Hf as [Hx Hl].
  destruct i as [|i], j as [|j]; simpl in Hi, Hj; simplify_eq; [done|..].
  - pose proof (forallb_lookup _ _ _ _ Hx Hj) as H. cbn beta in H. by rewrite Hp in H.
  - pose proof (forallb_lookup _ _ _ _ Hx Hi) as H. cbn beta in H.
    by rewrite Hp, andb_false_r in H.
  - f_equal. eauto.
Qed.

Lemma codes_prefix_unique s t :
  sym_ok s -> sym_ok t -> clen s <= clen t ->
  cval t / 2 ^ (clen t - clen s) = cval s -> s = t.
Proof.
  intros Hs Ht Hl Hv. unfold sym_ok in *.
  enough (Z.to_nat s = Z.to_nat t) by lia.
  eapply prefix_free_lookup; [apply codes_prefix_free|by apply code_of_lookup..|].
  unfold prefix_of. rewrite Z.shiftr_div_pow2 by lia. lia.
Qed.

Lemma table_check_lookup i t j e :
  table_check i t = true -> t !! j = Some e -> entry_check (i + Z.of_nat j) e = true.
Proof.
  revert i j. induction t as [|x t IH]; intros i j Hc Hj; [done|].
  cbn in Hc. apply andb_true_iff in Hc as [Hx Ht]. destruct j as [|j]; simpl in Hj; simplify_eq.
  - by rewrite Z.add_0_r.
  - replace (i + Z.of_nat (S j)) with (i + 1 + Z.of_nat j) by lia. by apply IH.
Qed.

Lemma table_entry i :
  0 <= i < 512 ->
  let e := nth (Z.to_nat i) kHuffmanDecodeTable (MkHuffmanDecodeEntry 0xFFFF 0) in
  entry_check i e = true.
Proof.
  intros Hi e. destruct (lookup_lt_is_Some_2 kHuffmanDecodeTable (Z.to_nat i)) as [x Hx].
  { rewrite table_size. lia. }
  subst e. rewrite (nth_lookup_Some _ _ _ _ Hx).
  pose proof (table_check_lookup 0 _ _ _ table_ok Hx) as H. by rewrite Z.add_0_l, Z2Nat.id in H by lia.
Qed.

Lemma short_codes_in s : sym_ok s -> clen s <= 9 -> In (code_of s) short_codes.
Proof.
  intros Hs Hl. apply filter_In. split; [|lia].
  apply list_elem_of_In, list_elem_of_lookup. exists (Z.to_nat s). by apply code_of_lookup.
Qed.

(** The linear scan returns a symbol with the wanted code, or there is none. *)
Lemma find_code_spec s0 codes code n :
  0 <= s0 -> s0 + zlen codes < 0xFFFF ->
  let r := find_code s0 codes code n in
  (r <> 0xFFFF -> exists i c, codes !! i = Some c /\ r = s0 + Z.of_nat i
      /\ hc_bitLength c = n /\ hc_code c = code)
  /\ (r = 0xFFFF -> forall i c, codes !! i = Some c -> hc_bitLength c = n -> hc_code c <> code).
Proof.
  revert s0. induction codes as [|c codes IH]; intros s0 H0 Hn; cbn [find_code]; [done|].
  rewrite zlen_cons in Hn. pose proof (zlen_nonneg codes).
  destruct (_ && _) eqn:E.
  - split; [intros _; exists 0%nat, c; split_and!; [done|lia..]|lia].
  - destruct (IH (s0 + 1)) as [IH1 IH2]; [lia..|]. split.
    + intros Hr. destruct (IH1 Hr) as (i & d & Hi & -> & Hd). exists (S i), d.
      split_and!; [done|lia|apply Hd..].
    + intros Hr [|i] d Hi Hd; simpl in Hi; [simplify_eq; lia|by eapply IH2].
Qed.

Lemma DecodeHuffmanSymbol_found code n :
  DecodeHuffmanSymbol code n <> 0xFFFF ->
  exists s, DecodeHuffmanSymbol code n = s /\ sym_ok s /\ clen s = n /\ cval s = code.
Proof.
  intros Hr. destruct (find_code_spec 0 kHuffmanCodes code n) as [H _]; [done..|].
  destruct (H Hr) as (i & c & Hi & Hs & Hl & Hc). exists (Z.of_nat i).
  assert (Hok : sym_ok (Z.of_nat i)).
  { apply lookup_lt_Some in Hi. rewrite codes_count in Hi. unfold sym_ok. lia. }
  pose proof (code_of_lookup _ Hok) as Hc'. rewrite Nat2Z.id, Hi in Hc'. injection Hc' as Hc'.
  unfold DecodeHuffmanSymbol. rewrite Hs, <- Hc'. by split_and!; [lia|..].
Qed.

Lemma DecodeHuffmanSymbol_none code n s :
  DecodeHuffmanSymbol code n = 0xFFFF -> sym_ok s -> clen s = n -> cval s <> code.
Proof.
  intros Hr Hs Hl. destruct (find_code_spec 0 kHuffmanCodes code n) as [_ H]; [done..|].
  exact (H Hr _ _ (code_of_lookup s Hs) Hl).
Qed.

(** ** Bit strings

    A string of [L] bits is the integer [V] in [0, 2^L); its first [n] bits are
    [V / 2^(L-n)]. *)

Definition head_sym (V L s : Z) : Prop :=
  sym_ok s /\ clen s <= L /\ V / 2 ^ (L - clen s) = cval s.

Lemma div_pow2_trans V a b : 0 <= a -> 0 <= b -> V / 2 ^ (a + b) = V / 2 ^ a / 2 ^ b.
Proof.
  intros Ha Hb. rewrite Z.pow_add_r by lia.
  symmetry. apply Z.div_div; [apply Z.pow_nonzero|apply Z.pow_pos_nonneg]; lia.
Qed.

Lemma head_sym_le V L s t :
  head_sym V L s -> head_sym V L t -> clen s <= clen t -> s = t.
Proof.
  intros (Hs & Hl & Hv) (Ht & Hl' & Hv') Hle. apply codes_prefix_unique; [done..|].
  rewrite <- Hv', <- Hv, <- div_pow2_trans by lia. do 2 f_equal. lia.
Qed.

Lemma head_sym_unique V L s t : head_sym V L s -> head_sym V L t -> s = t.
Proof.
  intros H1 H2. destruct (Z.le_ge_cases (clen s) (clen t));
    [|symmetry]; eapply head_sym_le; eauto.
Qed.

(** Big-endian value of a byte list. *)
Fixpoint be_val (l : bytes) : Z :=
  match l with [] => 0 | b :: r => b * 2 ^ (8 * zlen r) + be_val r end.

Lemma be_val_bound l : bytes_ok l -> 0 <= be_val l < 2 ^ (8 * zlen l).
Proof.
  induction 1 as [|b l Hb Hl IH]; [done|]. unfold byte_ok in Hb. cbn [be_val].
  rewrite zlen_cons. pose proof (zlen_nonneg l).
  replace (8 * (1 + zlen l)) with (8 + 8 * zlen l) by lia.
  rewrite Z.pow_add_r by lia. change (2 ^ 8) with 256. nia.
Qed.

Lemma be_val_app l k : be_val (l ++ k) = be_val l * 2 ^ (8 * zlen k) + be_val k.
Proof.
  induction l as [|b l IH]; [cbn; lia|]. cbn [app be_val]. rewrite IH, zlen_app.
  pose proof (zlen_nonneg l); pose proof (zlen_nonneg k).
  rewrite Z.mul_add_distr_l, Z.pow_add_r by lia. ring.
Qed.

Lemma be_val_inj l k :
  bytes_ok l -> bytes_ok k -> length l = length k -> be_val l = be_val k -> l = k.
Proof.
  intros Hl. revert k. induction Hl as [|b l Hb Hl IH]; intros k Hk Hlen Hv.
  { by destruct k. }
  destruct Hk as [|c k Hc Hk]; [done|]. injection Hlen as Hlen. cbn [be_val] in Hv.
  replace (zlen k) with (zlen l) in Hv by (unfold zlen; lia).
  pose proof (be_val_bound l Hl). pose proof (be_val_bound k Hk) as Hbk.
  replace (zlen k) with (zlen l) in Hbk by (unfold zlen; lia). pose proof (zlen_nonneg l).
  assert (0 < 2 ^ (8 * zlen l)) by (apply Z.pow_pos_nonneg; lia).
  assert (b = c) as -> by nia. f_equal. apply IH; [done..|lia].
Qed.

(** ** Decoder states as bit strings *)

(** The [bits] pending bits of the left-aligned buffer, then the unread bytes. *)
Definition repr (buf bits : Z) (data : bytes) (V L : Z) : Prop :=
  0 <= bits <= 64 /\ bytes_ok data
  /\ exists B, 0 <= B < 2 ^ bits /\ buf = B * 2 ^ (64 - bits)
     /\ V = B * 2 ^ (8 * zlen data) + be_val data /\ L = bits + 8 * zlen data.

Lemma repr_bound buf bits data V L : repr buf bits data V L -> 0 <= V < 2 ^ L /\ 0 <= L.
Proof.
  intros (Hb & Hd & B & HB & -> & -> & ->). pose proof (be_val_bound data Hd).
  pose proof (zlen_nonneg data). rewrite Z.pow_add_r by lia. split; [|lia]. nia.
Qed.

Lemma refill_repr data buf bits V L buf' bits' data' :
  repr buf bits data V L -> refill buf bits data = (buf', bits', data') ->
  repr buf' bits' data' V L /\ (57 <= bits' \/ data' = []).
Proof.
  revert buf bits. induction data as [|b data IH]; intros buf bits HR E; cbn [refill] in E.
  { simplify_eq. auto. }
  destruct (Z.leb_spec bits 56); [|simplify_eq; split; [done|left; lia]].
  eapply IH, E. destruct HR as (Hb & Hd & B & HB & -> & -> & ->).
  apply Forall_cons in Hd as [Hb8 Hd]. unfold byte_ok in Hb8. pose proof (zlen_nonneg data).
  split_and!; [lia..|done|]. exists (B * 256 + b). rewrite Z.pow_add_r by lia.
  rewrite zlen_cons. cbn [be_val]. split_and!; [nia|nia| |..].
  - replace (B * 2 ^ (64 - bits)) with (Z.shiftl (Z.shiftl B 8) (56 - bits)).
    2:{ rewrite Z.shiftl_shiftl, Z.shiftl_mul_pow2 by lia. do 2 f_equal. lia. }
    rewrite <- Z.shiftl_lor, be16_val, Z.shiftl_mul_pow2 by lia. do 2 f_equal. lia.
  - replace (8 * (1 + zlen data)) with (8 + 8 * zlen data) by lia.
    rewrite Z.pow_add_r by lia. change (2 ^ 8) with 256. ring.
  - lia.
Qed.

(** The first [n] buffered bits are the first [n] bits of the string. *)
Lemma repr_top buf bits data V L n :
  repr buf bits data V L -> 0 <= n <= bits -> Z.shiftr buf (64 - n) = V / 2 ^ (L - n).
Proof.
  intros (Hb & Hd & B & HB & -> & -> & ->) Hn. pose proof (zlen_nonneg data).
  pose proof (be_val_bound data Hd). rewrite Z.shiftr_div_pow2 by lia.
  replace (64 - n) with ((64 - bits) + (bits - n)) by lia.
  replace (bits + 8 * zlen data - n) with (8 * zlen data + (bits - n)) by lia.
  rewrite !div_pow2_trans by lia. f_equal.
  rewrite Z.div_mul by (apply Z.pow_nonzero; lia).
  symmetry. rewrite Z.div_add_l by (apply Z.pow_nonzero; lia). rewrite Z.div_small; lia.
Qed.

Lemma repr_head_fits buf bits data V L s :
  repr buf bits data V L -> 57 <= bits \/ data = [] -> head_sym V L s -> clen s <= bits.
Proof.
  intros HR Hfull (Hs & Hl & _). pose proof (clen_bounds s Hs).
  destruct HR as (_ & _ & B & _ & _ & _ & ->). destruct Hfull as [? | ->]; [lia|].
  unfold zlen in Hl. cbn [length] in Hl. lia.
Qed.

Lemma top_bits_u32 V L n : 0 <= V < 2 ^ L -> 0 <= n <= 32 -> n <= L ->
  u32 (V / 2 ^ (L - n)) = V / 2 ^ (L - n).
Proof.
  intros HV Hn HL. apply u32_id.
  assert (0 < 2 ^ (L - n)) by (apply Z.pow_pos_nonneg; lia).
  split; [apply Z.div_pos; lia|]. apply Z.lt_le_trans with (2 ^ n).
  - apply Z.div_lt_upper_bound; [lia|]. rewrite <- Z.pow_add_r by lia.
    replace (L - n + n) with L by lia. lia.
  - apply Z.pow_le_mono_r; lia.
Qed.

Section Scan.
Context (buf bits : Z) (data : bytes) (V L : Z).
Hypothesis HR : repr buf bits data V L.
Hypothesis Hfull : 57 <= bits \/ data = [].

Lemma repr_bits_le : bits <= L.
Proof using HR.
  destruct HR as (_ & _ & B & _ & _ & _ & ->). pose proof (zlen_nonneg data). lia.
Qed.

Lemma slow_scan_spec fuel n0 :
  5 <= n0 -> 31 <= n0 + Z.of_nat fuel ->
  match slow_scan fuel n0 buf bits with
  | Some (s, n) => head_sym V L s /\ n = clen s /\ n <= bits
  | None => forall s, head_sym V L s -> clen s < n0
  end.
Proof using HR Hfull.
  pose proof repr_bits_le. destruct (repr_bound _ _ _ _ _ HR) as [HV _].
  revert n0. induction fuel as [|fuel IH]; intros n0 H5 Hf; cbn [slow_scan].
  { intros s (Hs & _). pose proof (clen_bounds s Hs). lia. }
  destruct (_ && _) eqn:E.
  2:{ intros s Hs. pose proof (repr_head_fits _ _ _ _ _ _ HR Hfull Hs).
      destruct Hs as (Hs & _). pose proof (clen_bounds s Hs). lia. }
  rewrite (repr_top _ _ _ _ _ n0 HR), top_bits_u32 by lia.
  destruct (Z.eqb_spec (DecodeHuffmanSymbol (V / 2 ^ (L - n0)) n0) 0xFFFF) as [Hn|Hn].
  - specialize (IH (n0 + 1) ltac:(lia) ltac:(lia)).
    destruct (slow_scan fuel (n0 + 1) buf bits) as [[s n]|]; [done|].
    intros s Hs. specialize (IH s Hs). destruct Hs as (Hs & Hl & Hv).
    destruct (Z.eq_dec (clen s) n0) as [He|]; [|lia].
    exfalso. apply (DecodeHuffmanSymbol_none _ _ s Hn Hs He). by rewrite <- Hv, He.
  - destruct (DecodeHuffmanSymbol_found _ _ Hn) as (s & -> & Hs & Hl & Hc).
    split_and!; [|lia..]. split_and!; [done|lia|]. by rewrite Hl, Hc.
Qed.

Lemma table_entry_head :
  9 <= bits ->
  let e := nth (Z.to_nat (Z.shiftr buf 55)) kHuffmanDecodeTable (MkHuffmanDecodeEntry 0xFFFF 0) in
  if de_bitsUsed e =? 0 then forall s, head_sym V L s -> 10 <= clen s
  else head_sym V L (de_symbol e) /\ de_bitsUsed e = clen (de_symbol e)
       /\ de_symbol e < 256 /\ de_bitsUsed e <= 9.
Proof using HR.
  intros H9. pose proof repr_bits_le. destruct (repr_bound _ _ _ _ _ HR) as [HV _].
  change 55 with (64 - 9). rewrite (repr_top _ _ _ _ _ 9 HR) by lia.
  set (i := V / 2 ^ (L - 9)).
  assert (Hi : 0 <= i < 512).
  { assert (0 < 2 ^ (L - 9)) by (apply Z.pow_pos_nonneg; lia).
    split; [apply Z.div_pos; lia|]. apply Z.div_lt_upper_bound; [lia|].
    change 512 with (2 ^ 9). rewrite <- Z.pow_add_r by lia.
    replace (L - 9 + 9) with L by lia. lia. }
  pose proof (table_entry i Hi) as He. intros e. fold e in He. unfold entry_check in He.
  assert (Hsh : forall n, 0 <= n <= 9 -> Z.shiftr i (9 - n) = V / 2 ^ (L - n)).
  { intros n Hn. unfold i. rewrite Z.shiftr_div_pow2, <- div_pow2_trans by lia.
    do 2 f_equal. lia. }
  destruct (Z.eqb_spec (de_bitsUsed e) 0).
  - intros s (Hs & Hl & Hv). destruct (Z.le_gt_cases (clen s) 9); [|lia]. exfalso.
    rewrite forallb_forall in He. specialize (He _ (short_codes_in s Hs ltac:(lia))).
    cbn beta in He. pose proof (clen_bounds s Hs). rewrite Hsh in He by lia. lia.
  - assert (Hs : sym_ok (de_symbol e)) by (unfold sym_ok; lia).
    pose proof (clen_bounds _ Hs). split_and!; [|lia..]. split_and!; [done|lia|].
    rewrite <- Hsh by lia. replace (clen (de_symbol e)) with (de_bitsUsed e) by lia. lia.
Qed.

(** One symbol: both paths find the unique symbol whose code starts the string. *)
Lemma next_symbol_spec :
  match next_symbol buf bits with
  | FastSymbol s n => head_sym V L s /\ n = clen s /\ n <= bits /\ s < 256
  | SlowSymbol s n => head_sym V L s /\ n = clen s /\ n <= bits
  | NoSymbol => forall s, ~ head_sym V L s
  end.
Proof using HR Hfull.
  unfold next_symbol, kHuffmanLevel1Bits. change (64 - 9) with 55.
  destruct (Z.leb_spec 9 bits).
  - pose proof (table_entry_head ltac:(lia)) as He. cbv zeta in He |- *.
    set (e := nth _ _ _) in *. destruct (Z.eqb_spec (de_bitsUsed e) 0); cbn [negb andb].
    + pose proof (slow_scan_spec 26 10 ltac:(lia) ltac:(lia)) as Hs.
      destruct (slow_scan 26 10 buf bits) as [[s n]|]; [done|].
      intros s Hh. specialize (Hs s Hh). specialize (He s Hh). lia.
    + rewrite (proj2 (Z.leb_le _ _)) by lia. split_and!; [apply He|apply He|lia|apply He].
  - pose proof (slow_scan_spec 26 5 ltac:(lia) ltac:(lia)) as Hs.
    destruct (slow_scan 26 5 buf bits) as [[s n]|]; [done|].
    intros s Hh. specialize (Hs s Hh). destruct Hh as (Hk & _).
    pose proof (clen_bounds s Hk). lia.
Qed.

(** Consuming the symbol removes its bits from the front of the string. *)
Lemma repr_consume n :
  0 <= n <= bits ->
  repr (u64 (Z.shiftl buf n)) (bits - n) data (V mod 2 ^ (L - n)) (L - n).
Proof using HR.
  intros Hn. destruct HR as (Hb & Hd & B & HB & -> & -> & ->).
  pose proof (zlen_nonneg data). pose proof (be_val_bound data Hd).
  split_and!; [lia..|done|]. exists (B mod 2 ^ (bits - n)).
  assert (0 < 2 ^ (bits - n)) by (apply Z.pow_pos_nonneg; lia).
  assert (0 < 2 ^ (8 * zlen data)) by (apply Z.pow_pos_nonneg; lia).
  split_and!; [apply Z.mod_pos_bound; lia..| | |lia].
  - unfold u64. rewrite Z.shiftl_mul_pow2, <- Z.mul_assoc, <- Z.pow_add_r by lia.
    replace (64 - bits + n) with (64 - (bits - n)) by lia.
    replace 64 with ((bits - n) + (64 - (bits - n))) at 2 by lia.
    rewrite Z.pow_add_r, Z.mul_mod_distr_r by lia. done.
  - replace (bits + 8 * zlen data - n) with ((bits - n) + 8 * zlen data) by lia.
    rewrite (Z.div_mod B (2 ^ (bits - n))) at 1 by lia. rewrite Z.pow_add_r by lia.
    set (q := B / _). set (r := B mod _). set (W := 2 ^ (bits - n)) in *.
    set (M := 2 ^ (8 * zlen data)) in *.
    assert (0 <= r < W) by (apply Z.mod_pos_bound; lia).
    replace ((W * q + r) * M + be_val data) with ((r * M + be_val data) + q * (W * M)) by ring.
    rewrite Z.mod_add by nia. apply Z.mod_small. nia.
Qed.
End Scan.

(** ** The language of valid encodings (RFC 7541, section 5.2)

    The codes of the symbols, then at most seven padding bits, all ones. *)

Fixpoint encV (s : bytes) : Z :=
  match s with [] => 0 | ch :: s => cval ch * 2 ^ sum_bits s + encV s end.

Definition huff_lang (V L : Z) (s : bytes) : Prop :=
  bytes_ok s /\ exists p, 0 <= p <= 7 /\ L = sum_bits s + p /\ V = encV s * 2 ^ p + (2 ^ p - 1).

Lemma byte_sym_ok b : byte_ok b -> sym_ok b.
Proof. unfold byte_ok, sym_ok. lia. Qed.

Lemma sum_bits_nonneg s : bytes_ok s -> 0 <= sum_bits s.
Proof.
  induction 1 as [|b s Hb Hs IH]; cbn [sum_bits]; [lia|].
  pose proof (clen_bounds b (byte_sym_ok b Hb)). lia.
Qed.

Lemma encV_bound s : bytes_ok s -> 0 <= encV s < 2 ^ sum_bits s.
Proof.
  induction 1 as [|b s Hb Hs IH]; cbn [encV sum_bits]; [done|].
  pose proof (clen_bounds b (byte_sym_ok b Hb)). pose proof (cval_bounds b (byte_sym_ok b Hb)).
  pose proof (sum_bits_nonneg s Hs). rewrite Z.pow_add_r by lia. nia.
Qed.

Lemma huff_lang_nil V L : huff_lang V L [] <-> 0 <= L <= 7 /\ V = 2 ^ L - 1.
Proof.
  unfold huff_lang. cbn [sum_bits encV]. split.
  - intros (_ & p & Hp & -> & ->). split; [lia|]. by rewrite Z.add_0_l.
  - intros (HL & ->). split; [constructor|]. exists L. lia.
Qed.

Lemma padding_no_head L s : 0 <= L <= 7 -> ~ head_sym (2 ^ L - 1) L s.
Proof.
  intros HL (Hs & Hl & Hv).
  pose proof (forallb_lookup _ _ _ _ codes_not_padding (code_of_lookup s Hs)) as H.
  cbn beta in H. unfold all_ones in H. pose proof (clen_bounds s Hs).
  enough (cval s = 2 ^ clen s - 1) by lia. rewrite <- Hv.
  assert (HP : 2 ^ L = 2 ^ clen s * 2 ^ (L - clen s)).
  { rewrite <- Z.pow_add_r by lia. f_equal. lia. }
  assert (0 < 2 ^ (L - clen s)) by (apply Z.pow_pos_nonneg; lia).
  symmetry. apply Z.div_unique with (2 ^ (L - clen s) - 1); [lia|]. rewrite HP. ring.
Qed.

Lemma huff_lang_cons V L b s :
  huff_lang V L (b :: s) <->
  byte_ok b /\ head_sym V L b /\ huff_lang (V mod 2 ^ (L - clen b)) (L - clen b) s.
Proof.
  split.
  - intros (Hok & p & Hp & -> & ->). apply Forall_cons in Hok as [Hb Hs].
    pose proof (byte_sym_ok b Hb) as Hy. pose proof (clen_bounds b Hy).
    pose proof (encV_bound s Hs). pose proof (sum_bits_nonneg s Hs). cbn [sum_bits encV].
    assert (HL : clen b + sum_bits s + p - clen b = sum_bits s + p) by lia.
    assert (0 < 2 ^ p) by (apply Z.pow_pos_nonneg; lia).
    assert (HV : (cval b * 2 ^ sum_bits s + encV s) * 2 ^ p + (2 ^ p - 1)
      = cval b * 2 ^ (sum_bits s + p) + (encV s * 2 ^ p + (2 ^ p - 1))).
    { rewrite Z.pow_add_r by lia. ring. }
    assert (0 <= encV s * 2 ^ p + (2 ^ p - 1) < 2 ^ (sum_bits s + p)).
    { rewrite Z.pow_add_r by lia. nia. }
    split; [done|]. rewrite HV. split.
    + split_and!; [done|lia|]. rewrite HL. rewrite Z.div_add_l by lia. rewrite Z.div_small; lia.
    + rewrite HL, Z.add_comm, Z.mod_add, Z.mod_small by lia. split; [done|]. by exists p.
  - intros (Hb & (Hy & Hl & Hv) & Hok & p & Hp & HL & HV). split; [by constructor|].
    exists p. cbn [sum_bits encV]. split_and!; [lia..|].
    pose proof (sum_bits_nonneg s Hok).
    assert (0 < 2 ^ (L - clen b)) by (apply Z.pow_pos_nonneg; lia).
    rewrite (Z.div_mod V (2 ^ (L - clen b))), Hv, HV, HL, Z.pow_add_r by lia. ring.
Qed.

Lemma huff_lang_no_head V L s :
  (forall b, ~ head_sym V L b) -> huff_lang V L s -> s = [] /\ 0 <= L <= 7 /\ V = 2 ^ L - 1.
Proof.
  intros Hno Hl. destruct s as [|b s]; [split; [done|by apply huff_lang_nil]|].
  apply huff_lang_cons in Hl as (_ & Hh & _). by apply Hno in Hh.
Qed.

(** ** The decoder decides the language *)

Lemma huff_finish_spec buf bits V L out :
  repr buf bits [] V L -> (forall s, ~ head_sym V L s) ->
  match huff_finish buf bits out with
  | HuffOk o => o = out /\ huff_lang V L []
  | HuffError => forall s, ~ huff_lang V L s
  | _ => False
  end.
Proof.
  intros HR Hno. pose proof (repr_bound _ _ _ _ _ HR) as [HV _].
  pose proof HR as (Hb & _ & B & _ & _ & _ & HL). rewrite (@zlen_nil Z), Z.add_0_r in HL. subst L.
  assert (Hlang : forall s, huff_lang V bits s -> 0 <= bits <= 7 /\ V = 2 ^ bits - 1)
    by (intros s Hs; by apply (huff_lang_no_head V bits s)).
  unfold huff_finish. destruct (Z.ltb_spec 0 bits).
  2:{ assert (bits = 0) as -> by lia. split; [done|]. apply huff_lang_nil. lia. }
  destruct (Z.ltb_spec 7 bits). { intros s Hs. apply Hlang in Hs. lia. }
  rewrite (repr_top _ _ _ _ _ bits HR), Z.sub_diag, Z.div_1_r by lia.
  rewrite Z.shiftl_mul_pow2, Z.mul_1_l by lia. unfold u8.
  assert (2 ^ bits <= 2 ^ 7) by (apply Z.pow_le_mono_r; lia).
  rewrite !Z.mod_small by lia. destruct (Z.eqb_spec V (2 ^ bits - 1)); cbn [negb].
  - split; [done|]. apply huff_lang_nil. lia.
  - intros s Hs. apply Hlang in Hs. lia.
Qed.

Definition loop_post (out : bytes) (V L : Z) (r : HuffmanResult) : Prop :=
  match r with
  | HuffOk o => exists s, o = out ++ s /\ huff_lang V L s
  | HuffError => forall s, ~ huff_lang V L s
  | HuffAssert | HuffFuel => False
  end.

Lemma huff_finish_post buf bits V L out :
  repr buf bits [] V L -> (forall s, ~ head_sym V L s) ->
  loop_post out V L (huff_finish buf bits out).
Proof.
  intros HR Hno. pose proof (huff_finish_spec buf bits V L out HR Hno) as H. unfold loop_post.
  destruct (huff_finish buf bits out); [|done..].
  destruct H as [-> Hnil]. exists []. by rewrite app_nil_r.
Qed.

(** A decoded symbol: what the rest of the loop establishes extends to the whole string. *)
Lemma loop_post_symbol out V L s r :
  head_sym V L s -> byte_ok s ->
  loop_post (out ++ [u8 s]) (V mod 2 ^ (L - clen s)) (L - clen s) r -> loop_post out V L r.
Proof.
  intros Hh Hs. unfold u8. rewrite Z.mod_small by exact Hs. destruct r; cbn; [|intros Hr|done..].
  - intros (t & -> & Ht). exists (s :: t). rewrite <- app_assoc. split; [done|].
    by apply huff_lang_cons.
  - intros [|b t] Hl.
    + apply huff_lang_nil in Hl as [HL ->]. by apply padding_no_head in Hh.
    + apply huff_lang_cons in Hl as (_ & Hb & Hl).
      rewrite (head_sym_unique _ _ _ _ Hb Hh) in Hl. by eapply Hr.
Qed.

Lemma eos_not_lang V L s : head_sym V L 256 -> ~ huff_lang V L s.
Proof.
  intros Hh. destruct s as [|b t]; intros Hl.
  - apply huff_lang_nil in Hl as [HL ->]. by apply padding_no_head in Hh.
  - apply huff_lang_cons in Hl as (Hb & Hb' & _).
    pose proof (head_sym_unique _ _ _ _ Hb' Hh). unfold byte_ok in Hb. lia.
Qed.

Lemma huff_loop_spec fuel maxLen buf bits data out V L :
  repr buf bits data V L -> L < Z.of_nat fuel -> 5 * zlen out + L <= 5 * maxLen + 4 ->
  loop_post out V L (huff_loop fuel maxLen buf bits data out).
Proof.
  revert buf bits data out V L. induction fuel as [|fuel IH];
    intros buf bits data out V L HR Hf Hm.
  { destruct (repr_bound _ _ _ _ _ HR). lia. }
  cbn [huff_loop]. destruct (_ || _) eqn:E.
  2:{ assert (data = []) as -> by (apply zlen_0; pose proof (zlen_nonneg data); lia).
      apply huff_finish_post; [done|]. intros s (Hs & Hl & _). pose proof (clen_bounds s Hs).
      destruct HR as (_ & _ & B & _ & _ & _ & ->). rewrite (@zlen_nil Z) in *. lia. }
  assert (HL5 : 5 <= L).
  { destruct HR as (? & _ & B & _ & _ & _ & ->). pose proof (zlen_nonneg data). lia. }
  destruct (refill buf bits data) as [[buf1 bits1] data1] eqn:Er.
  destruct (refill_repr _ _ _ _ _ _ _ _ HR Er) as [HR1 Hfull]. clear HR Er E.
  assert (Hbits : bits1 = L /\ data1 = [] \/ 57 <= bits1).
  { destruct Hfull as [? | ->]; [by right|left].
    destruct HR1 as (_ & _ & B & _ & _ & _ & ->). rewrite (@zlen_nil Z). split; [lia|done]. }
  destruct (Z.ltb_spec bits1 5); [lia|].
  pose proof (next_symbol_spec _ _ _ _ _ HR1 Hfull) as Hn.
  destruct (next_symbol buf1 bits1) as [s n|s n|].
  - destruct Hn as (Hh & -> & Hle & Hs). pose proof Hh as (Hy & Hl & _).
    pose proof (clen_bounds s Hy). unfold sym_ok in Hy.
    rewrite (proj2 (Z.eqb_neq s 256)), (proj2 (Z.leb_gt maxLen _)) by lia. cbn [orb].
    eapply loop_post_symbol; [done|unfold byte_ok; lia|]. apply IH; [|lia|].
    + apply repr_consume; [done|lia].
    + rewrite zlen_app, zlen_cons, (@zlen_nil Z). lia.
  - destruct Hn as (Hh & -> & Hle). pose proof Hh as (Hy & Hl & _).
    pose proof (clen_bounds s Hy). unfold sym_ok in Hy.
    destruct (Z.eqb_spec s 256) as [->|]; [intros t; by apply eos_not_lang|].
    rewrite (proj2 (Z.leb_gt maxLen _)) by lia.
    eapply loop_post_symbol; [done|unfold byte_ok; lia|]. apply IH; [|lia|].
    + apply repr_consume; [done|lia].
    + rewrite zlen_app, zlen_cons, (@zlen_nil Z). lia.
  - destruct (Z.leb_spec 30 bits1).
    { intros t Ht. apply huff_lang_no_head in Ht; [|done].
      destruct HR1 as (_ & _ & B & _ & _ & _ & ->). pose proof (zlen_nonneg data1). lia. }
    destruct Hbits as [[_ ->]|]; [|lia].
    by apply huff_finish_post.
Qed.

Lemma decodeHuffman_lang d :
  bytes_ok d -> loop_post [] (be_val d) (8 * zlen d) (decodeHuffman d).
Proof.
  intros Hd. apply huff_loop_spec.
  - split_and!; [lia..|done|]. exists 0. split_and!; [done..|lia|lia].
  - unfold zlen. lia.
  - unfold zlen. cbn [length]. zlia.
Qed.

(** ** The encoder produces the language *)

Lemma pow2_pos n : 0 <= n -> 0 < 2 ^ n.
Proof. intros. apply Z.pow_pos_nonneg; lia. Qed.

(** Splitting the low [n + m] bits at bit [m]. *)
Lemma mod_pow2_split a n m : 0 <= n -> 0 <= m ->
  a mod 2 ^ (n + m) = (a / 2 ^ m) mod 2 ^ n * 2 ^ m + a mod 2 ^ m.
Proof.
  intros Hn Hm. pose proof (pow2_pos n Hn). pose proof (pow2_pos m Hm).
  rewrite (Z.add_comm n m), Z.pow_add_r by lia. rewrite Z.rem_mul_r by lia. lia.
Qed.

Lemma flush_bytes_spec fuel code bits r out :
  0 <= bits -> bits < 8 * (Z.of_nat fuel + 1) -> flush_bytes fuel code bits = (r, out) ->
  bytes_ok out /\ 0 <= r < 8 /\ bits = 8 * zlen out + r
  /\ be_val out * 2 ^ r + code mod 2 ^ r = code mod 2 ^ bits.
Proof.
  revert bits r out. induction fuel as [|fuel IH]; intros bits r out H0 Hf E; cbn in E.
  { simplify_eq. split_and!; [constructor|cbn [be_val]; rewrite ?(@zlen_nil Z); lia..]. }
  destruct (Z.leb_spec 8 bits); [|simplify_eq; split_and!; [constructor|cbn [be_val]; rewrite ?(@zlen_nil Z); lia..]].
  destruct (flush_bytes fuel code (bits - 8)) as [r' out'] eqn:E'. simplify_eq.
  destruct (IH (bits - 8) r out') as (Hok & Hr & Hb & Hv); [lia..|done|].
  pose proof (zlen_nonneg out'). rewrite shiftr_byte by lia. split_and!; [|lia..| |].
  - constructor; [|done]. apply Z.mod_pos_bound. lia.
  - rewrite zlen_cons. lia.
  - cbn [be_val]. rewrite Z.mul_add_distr_r, <- Z.add_assoc, Hv, <- Z.mul_assoc, <- Z.pow_add_r by lia.
    replace (8 * zlen out' + r) with (bits - 8) by lia.
    replace bits with (8 + (bits - 8)) at 4 by lia. rewrite mod_pow2_split by lia. done.
Qed.

(** Appending a code to the accumulator keeps the pending bits. *)
Lemma accumulate_code code bits c n :
  0 <= bits -> 0 <= n -> bits + n <= 64 -> 0 <= c < 2 ^ n ->
  Z.lor (u64 (Z.shiftl code n)) c mod 2 ^ (bits + n) = (code mod 2 ^ bits) * 2 ^ n + c.
Proof.
  intros Hb Hn Hle Hc. pose proof (pow2_pos n Hn). pose proof (pow2_pos bits Hb).
  assert (E : u64 (Z.shiftl code n) = Z.shiftl (code mod 2 ^ (64 - n)) n).
  { unfold u64. rewrite !Z.shiftl_mul_pow2 by lia.
    replace 64 with ((64 - n) + n) at 1 by lia. rewrite Z.pow_add_r by lia.
    apply Z.mul_mod_distr_r; [apply Z.pow_nonzero|]; lia. }
  rewrite E, lor_shiftl_low, mod_pow2_split by lia. rewrite Z.div_add_l by lia.
  rewrite (Z.div_small c), Z.add_0_r by lia.
  rewrite (Z.add_comm (_ * _) c), Z.mod_add, (Z.mod_small c) by lia. f_equal. f_equal.
  replace (64 - n) with (bits + (64 - n - bits)) by lia.
  rewrite Z.pow_add_r by lia. rewrite Z.rem_mul_r by (try apply Z.pow_nonzero; try apply pow2_pos; lia).
  rewrite Z.mul_comm, Z.mod_add, Z.mod_mod by lia. done.
Qed.

Lemma encode_loop_spec s code bits code' bits' out :
  bytes_ok s -> 0 <= bits < 8 -> encode_loop s code bits = (code', bits', out) ->
  bytes_ok out /\ 0 <= bits' < 8 /\ bits + sum_bits s = 8 * zlen out + bits'
  /\ be_val out * 2 ^ bits' + code' mod 2 ^ bits'
     = (code mod 2 ^ bits) * 2 ^ sum_bits s + encV s.
Proof.
  intros Hs. revert code bits code' bits' out.
  induction Hs as [|c s Hc Hs IH]; intros code bits code' bits' out Hb E; cbn [encode_loop] in E.
  { simplify_eq. cbn [be_val encV sum_bits]. split_and!; [constructor|rewrite ?(@zlen_nil Z); lia..]. }
  pose proof (clen_bounds c (byte_sym_ok c Hc)). pose proof (cval_bounds c (byte_sym_ok c Hc)).
  unfold u8 in E. rewrite Z.mod_small in E by lia.
  set (acc := Z.lor _ _) in E.
  destruct (flush_bytes _ acc _) as [r o] eqn:Ef in E.
  destruct (encode_loop s acc r) as [[code2 bits2] o2] eqn:El. simplify_eq.
  apply flush_bytes_spec in Ef as (Ho & Hr & Hbr & Hv); [|lia..].
  destruct (IH _ _ _ _ _ Hr El) as (Ho2 & Hb2 & Hbits & Hv2).
  pose proof (zlen_nonneg o). pose proof (zlen_nonneg o2). pose proof (sum_bits_nonneg s Hs).
  rewrite zlen_app. cbn [sum_bits encV]. split_and!; [by apply Forall_app|lia..|].
  rewrite be_val_app, Z.mul_add_distr_r, <- Z.mul_assoc, <- Z.pow_add_r by lia.
  replace (8 * zlen o2 + bits') with (r + sum_bits s) by lia.
  rewrite <- Z.add_assoc, Hv2, Z.pow_add_r by lia.
  replace (be_val o * (2 ^ r * 2 ^ sum_bits s) + (acc mod 2 ^ r * 2 ^ sum_bits s + encV s))
    with ((be_val o * 2 ^ r + acc mod 2 ^ r) * 2 ^ sum_bits s + encV s) by ring.
  rewrite Hv. subst acc. rewrite accumulate_code by lia. rewrite Z.pow_add_r by lia. ring.
Qed.

Lemma EncodeHuffman_output output s : EncodeHuffman output s = output ++ EncodeHuffman [] s.
Proof. unfold EncodeHuffman. by destruct (encode_loop s 0 0) as [[? ?] ?]. Qed.

(** The encoding of [s] is a word of the language, in whole bytes. *)
Lemma EncodeHuffman_lang s :
  bytes_ok s ->
  let e := EncodeHuffman [] s in
  bytes_ok e /\ huff_lang (be_val e) (8 * zlen e) s.
Proof.
  intros Hs. unfold EncodeHuffman. destruct (encode_loop s 0 0) as [[code bits] out] eqn:E.
  apply encode_loop_spec in E as (Ho & Hb & Hl & Hv); [|done|lia].
  rewrite Zmod_0_l, Z.mul_0_l, Z.add_0_l in Hv. rewrite Z.add_0_l in Hl. cbn [app].
  destruct (Z.ltb_spec 0 bits).
  2:{ assert (bits = 0) as -> by lia. rewrite app_nil_r. split; [done|]. split; [done|].
      exists 0. rewrite Z.mod_1_r in Hv. split_and!; [lia..|]. lia. }
  set (p := 8 - bits). pose proof (pow2_pos p ltac:(lia)). pose proof (pow2_pos bits ltac:(lia)).
  assert (HP : 2 ^ bits * 2 ^ p = 256).
  { rewrite <- Z.pow_add_r by lia. by replace (bits + p) with 8 by lia. }
  assert (Hpad : u8 (Z.shiftl 1 p - 1) = 2 ^ p - 1).
  { unfold u8. rewrite Z.shiftl_mul_pow2 by lia. rewrite Z.mod_small; nia. }
  rewrite Hpad. unfold u8. replace 8 with (bits + p) by lia.
  rewrite accumulate_code by lia. set (lowbits := code mod 2 ^ bits) in *.
  assert (0 <= lowbits < 2 ^ bits) by (apply Z.mod_pos_bound; lia).
  split.
  { apply Forall_app. split; [done|]. constructor; [|constructor]. unfold byte_ok. nia. }
  split; [done|]. exists p. rewrite zlen_app, be_val_app. cbn [be_val].
  rewrite zlen_cons, (@zlen_nil Z). split_and!; [lia..|]. rewrite <- Hv.
  change (2 ^ (8 * (1 + 0))) with 256. rewrite <- HP. rewrite Z.mul_add_distr_r. lia.
Qed.

Lemma HuffmanEncodedLength_exact s :
  bytes_ok s -> zlen (EncodeHuffman [] s) = HuffmanEncodedLength s.
Proof.
  intros Hs. destruct (EncodeHuffman_lang s Hs) as (_ & _ & p & Hp & HL & _).
  unfold HuffmanEncodedLength. zlia.
Qed.

(** The language determines the encoding. *)
Lemma huff_lang_encoding d s :
  bytes_ok d -> huff_lang (be_val d) (8 * zlen d) s -> d = EncodeHuffman [] s.
Proof.
  intros Hd (Hs & p & Hp & HL & HV).
  destruct (EncodeHuffman_lang s Hs) as (He & _ & q & Hq & HL' & HV').
  assert (p = q) as -> by lia.
  apply be_val_inj; [done..|unfold zlen in *; lia|]. by rewrite HV, HV'.
Qed.

Lemma decodeHuffman_encode s : bytes_ok s -> decodeHuffman (EncodeHuffman [] s) = HuffOk s.
Proof.
  intros Hs. destruct (EncodeHuffman_lang s Hs) as [He Hl].
  pose proof (decodeHuffman_lang _ He) as Hp. destruct (decodeHuffman _) as [o| | |];
    [|by destruct (Hp s)|done..].
  destruct Hp as (t & -> & Ht). f_equal. cbn [app]. clear He.
  revert Hl Ht. generalize (be_val (EncodeHuffman [] s)), (8 * zlen (EncodeHuffman [] s)).
  intros V L. clear Hs. revert V L t. induction s as [|b s IH]; intros V L [|c t] H1 H2; [done|..].
  - apply huff_lang_nil in H1 as [? ->]. apply huff_lang_cons in H2 as (_ & Hh & _).
    by apply padding_no_head in Hh.
  - apply huff_lang_nil in H2 as [? ->]. apply huff_lang_cons in H1 as (_ & Hh & _).
    by apply padding_no_head in Hh.
  - apply huff_lang_cons in H1 as (_ & Hh1 & Ht1). apply huff_lang_cons in H2 as (_ & Hh2 & Ht2).
    rewrite (head_sym_unique _ _ _ _ Hh2 Hh1) in *. f_equal. by eapply IH.
Qed.

(** C21: the Huffman decoder accepts exactly the encoder's outputs: for every byte string
    [d], decoding yields [s] if and only if [d] is what the encoder writes for [s].  So
    the fast table, the slow scan and the padding test agree with the code table on every
    input, an encoding round-trips, and no other byte string (wrong padding, padding of
    eight bits or more, an embedded EOS) is accepted. *)
Theorem decodeHuffman_exact d s :
  bytes_ok d -> decodeHuffman d = HuffOk s <-> bytes_ok s /\ d = EncodeHuffman [] s.
Proof.
  intros Hd. split; [|intros [Hs ->]; by apply decodeHuffman_encode].
  intros E. pose proof (decodeHuffman_lang d Hd) as H. rewrite E in H.
  destruct H as (t & -> & Ht). cbn [app]. split; [apply Ht|]. by apply huff_lang_encoding.
Qed.

Lemma decodeHuffman_exact_witness :
  bytes_ok [0xa8; 0xeb; 0x10; 0x64; 0x9c; 0xbf]
  /\ decodeHuffman [0xa8; 0xeb; 0x10; 0x64; 0x9c; 0xbf] = HuffOk (str "no-cache").
Proof.
  assert (H : bytes_ok [0xa8; 0xeb; 0x10; 0x64; 0x9c; 0xbf]) by (repeat constructor; done).
  split; [done|]. apply (decodeHuffman_exact _ (str "no-cache") H). split; [|done].
  repeat constructor; done.
Defined.

(** the decoder is safe on every input: whatever the bytes, none of its assertions
    fails, it never writes past the [8 n / 5] bytes it allocated, the loop ends, and the
    result is a string of at most that many bytes or the error. *)
Theorem decodeHuffman_safe d :
  bytes_ok d ->
  decodeHuffman d = HuffError
  \/ exists s, decodeHuffman d = HuffOk s /\ bytes_ok s /\ zlen s <= zlen d * 8 / 5.
Proof.
  intros Hd. pose proof (decodeHuffman_lang d Hd) as H.
  destruct (decodeHuffman d) as [o| | |]; [right|by left|done..].
  destruct H as (s & -> & Hs & p & Hp & HL & _). exists s. split_and!; [done..|].
  apply Z.div_le_lower_bound; [lia|]. enough (5 * zlen s <= sum_bits s) by lia.
  clear HL Hp Hd. induction Hs as [|b s Hb Hs IH]; [done|].
  pose proof (clen_bounds b (byte_sym_ok b Hb)). cbn [sum_bits]. rewrite zlen_cons. lia.
Qed.

Lemma decodeHuffman_safe_witness :
  decodeHuffman (replicate 8 0xff) = HuffError
  \/ exists s, decodeHuffman (replicate 8 0xff) = HuffOk s /\ bytes_ok s
       /\ zlen s <= zlen (replicate 8 0xff) * 8 / 5.
Proof. apply (decodeHuffman_safe (replicate 8 0xff)). repeat constructor; done. Defined.
