(* ===== verification/AsciiCase.v ===== *)
(** ASCII case folding (tech/toupperlower.hpp, tolower-str.hpp, string-equal-ignore-case.hpp)
    and the request-header merge policy table (http/mergeable-headers.hpp).

    The vector code of the source is modelled lane by lane: a register is the list of its
    byte lanes, a compare works on the signed value of each lane.  The word-at-a-time
    loops, their overlapping last block and their scalar tails are kept.  The theorems
    show that every one of these routines computes the bytewise definition. *)

From S2P Require Import Prelude.
Local Open Scope Z_scope.

(** ** Characters *)

Definition tolower (ch : Z) : Z :=
  if (65 <=? ch) && (ch <=? 90) then Z.lor ch 0x20 else ch.

Definition toupper (ch : Z) : Z :=
  if (97 <=? ch) && (ch <=? 122) then Z.land ch 0xDF else ch.

(** Signed value of a byte lane, as [_mm_cmpgt_epi8] compares it. *)
Definition lane_s8 (b : Z) : Z := if b <? 128 then b else b - 256.

(** One lane of [AsciiLowerMask], [AsciiLowerMask4] and [AsciiLowerEqual16]. *)
Definition lane_lower (b : Z) : Z :=
  let geA := 64 <? lane_s8 b in
  let ltZ := lane_s8 b <? 91 in
  let isUpper := if geA && ltZ then 0xFF else 0 in
  let lowerBit := Z.land isUpper 0x20 in
  Z.lor b lowerBit.

Definition AsciiLowerMask (lanes : bytes) : bytes := map lane_lower lanes.

(** The [n] bytes at [pos]. *)
Definition block (n pos : nat) (l : bytes) : bytes := take n (drop pos l).

(** ** CaseInsensitiveEqual *)

Definition lanes_equal (n : nat) (lhs rhs : bytes) (pos : nat) : bool :=
  bool_decide (AsciiLowerMask (block n pos lhs) = AsciiLowerMask (block n pos rhs)).

Definition AsciiLowerEqual16 (lhs rhs : bytes) (pos : nat) : bool := lanes_equal 16 lhs rhs pos.

(** [for (; pos + w <= len; pos += w)]: [None] is the early [return false]. *)
Fixpoint equal_blocks (fuel w : nat) (lhs rhs : bytes) (pos : nat) : option nat :=
  match fuel with
  | O => Some pos
  | S fuel =>
      if decide (pos + w <= length lhs)%nat then
        if lanes_equal w lhs rhs pos then equal_blocks fuel w lhs rhs (pos + w) else None
      else Some pos
  end.

(** Whole blocks, then an overlapping last block when bytes remain. *)
Definition equal_words (w : nat) (lhs rhs : bytes) : bool :=
  match equal_blocks (S (length lhs)) w lhs rhs 0 with
  | None => false
  | Some pos =>
      if decide (pos = length lhs) then true
      else lanes_equal w lhs rhs (length lhs - w)
  end.

Fixpoint equal_scalar (lhs rhs : bytes) : bool :=
  match lhs, rhs with
  | a :: lhs, b :: rhs => if tolower a =? tolower b then equal_scalar lhs rhs else false
  | _, _ => true
  end.

Definition CaseInsensitiveEqual (lhs rhs : bytes) : bool :=
  let len := length lhs in
  if decide (len = length rhs) then
    if decide (16 <= len)%nat then equal_words 16 lhs rhs
    else if decide (8 <= len)%nat then equal_words 8 lhs rhs
    else equal_scalar lhs rhs
  else false.

(** [char] is signed: [lc < rc] compares signed values. *)
Fixpoint CaseInsensitiveLess (lhs rhs : bytes) : bool :=
  match lhs, rhs with
  | a :: lhs, b :: rhs =>
      let lc := tolower a in
      let rc := tolower b in
      if lc =? rc then CaseInsensitiveLess lhs rhs else lane_s8 lc <? lane_s8 rc
  | [], _ :: _ => true
  | _, [] => false
  end.

(** ** tolower on buffers *)

(** Write [out] at [pos] of [buf]. *)
Definition store (buf : bytes) (pos : nat) (out : bytes) : bytes :=
  take pos buf ++ out ++ drop (pos + length out) buf.

(** One loop [for (; pos + w <= len; pos += w) store(lower(load))] from [from] to [to];
    the in-place loops use the same buffer for both. *)
Fixpoint lower_inplace (fuel w : nat) (lower : Z -> Z) (len : nat) (st : bytes * nat)
  : bytes * nat :=
  match fuel with
  | O => st
  | S fuel =>
      let '(buf, pos) := st in
      if decide (pos + w <= len)%nat then
        lower_inplace fuel w lower len (store buf pos (map lower (block w pos buf)), (pos + w)%nat)
      else (buf, pos)
  end.

(** [tolower(char* buf, size_t len)]; [misalignment] is the buffer address modulo 8 and
    [avx2] the result of the CPU test. *)
Definition tolower_buf (avx2 : bool) (misalignment : nat) (buf : bytes) (len : nat) : bytes :=
  let head := if decide (misalignment = 0)%nat then 0%nat
              else let delta := (8 - misalignment)%nat in
                   if decide (len < delta)%nat then len else delta in
  let st := lower_inplace (S len) 1 tolower head (buf, 0%nat) in
  let st := if avx2 then lower_inplace (S len) 32 lane_lower len st else st in
  let st := lower_inplace (S len) 8 lane_lower len st in
  fst (lower_inplace (S len) 1 tolower len st).

Fixpoint lower_copy (fuel w : nat) (lower : Z -> Z) (len : nat) (from : bytes) (st : bytes * nat)
  : bytes * nat :=
  match fuel with
  | O => st
  | S fuel =>
      let '(to, pos) := st in
      if decide (pos + w <= len)%nat then
        lower_copy fuel w lower len from (store to pos (map lower (block w pos from)), (pos + w)%nat)
      else (to, pos)
  end.

(** [tolower_n(from, len, to)]; the two misalignments select the scalar head. *)
Definition tolower_n (fromMisalign toMisalign : nat) (from : bytes) (len : nat) (to : bytes)
  : bytes :=
  let head := if decide (fromMisalign = toMisalign /\ fromMisalign <> 0)%nat
              then Nat.min len (8 - fromMisalign) else 0%nat in
  let st := lower_copy (S len) 1 tolower head from (to, 0%nat) in
  let st := lower_copy (S len) 8 lane_lower len from st in
  fst (lower_copy (S len) 1 tolower len from st).

(** ** Merge policy of request headers *)

Record Entry := MkEntry { e_name : bytes; e_sep : Z }.

Definition sepForbidden : Z := 0.
Definition sepComma : Z := 44.
Definition sepSemicolon : Z := 59.
Definition sepSpace : Z := 32.
Definition sepOverride : Z := 79.

Definition kEntries : list Entry :=
  [ MkEntry (str "Accept") sepComma; MkEntry (str "Accept-Charset") sepComma;
    MkEntry (str "Accept-Datetime") sepComma; MkEntry (str "accept-encoding") sepComma;
    MkEntry (str "Accept-Language") sepComma; MkEntry (str "Authorization") sepOverride;
    MkEntry (str "cache-control") sepComma; MkEntry (str "connection") sepComma;
    MkEntry (str "content-length") sepForbidden; MkEntry (str "Content-MD5") sepForbidden;
    MkEntry (str "Content-Transfer-Encoding") sepForbidden;
    MkEntry (str "content-type") sepOverride; MkEntry (str "Cookie") sepSemicolon;
    MkEntry (str "DNT") sepComma; MkEntry (str "Expect") sepComma;
    MkEntry (str "Forwarded") sepComma; MkEntry (str "From") sepOverride;
    MkEntry (str "Host") sepForbidden; MkEntry (str "If-Match") sepComma;
    MkEntry (str "If-Modified-Since") sepOverride; MkEntry (str "If-None-Match") sepComma;
    MkEntry (str "If-Range") sepOverride; MkEntry (str "If-Unmodified-Since") sepOverride;
    MkEntry (str "Max-Forwards") sepOverride; MkEntry (str "Origin") sepComma;
    MkEntry (str "Pragma") sepComma; MkEntry (str "Prefer") sepComma;
    MkEntry (str "Proxy-Authorization") sepOverride; MkEntry (str "range") sepOverride;
    MkEntry (str "Referer") sepOverride; MkEntry (str "Save-Data") sepComma;
    MkEntry (str "Sec-Fetch-Dest") sepComma; MkEntry (str "Sec-Fetch-Mode") sepComma;
    MkEntry (str "Sec-Fetch-Site") sepComma; MkEntry (str "Sec-Fetch-User") sepComma;
    MkEntry (str "Sec-WebSocket-Extensions") sepComma;
    MkEntry (str "Sec-WebSocket-Protocol") sepComma; MkEntry (str "te") sepComma;
    MkEntry (str "trailer") sepComma; MkEntry (str "transfer-encoding") sepComma;
    MkEntry (str "upgrade") sepComma; MkEntry (str "Upgrade-Insecure-Requests") sepForbidden;
    MkEntry (str "user-agent") sepSpace; MkEntry (str "vary") sepComma;
    MkEntry (str "Via") sepComma; MkEntry (str "Warning") sepComma ].

(** [std::ranges::partition_point]: bisection on the [len] elements from [first]. *)
Fixpoint partition_point (fuel : nat) (p : Entry -> bool) (l : list Entry) (first len : nat) : nat :=
  match fuel with
  | O => first
  | S fuel =>
      if decide (len = 0)%nat then first
      else
        let half := (len / 2)%nat in
        match l !! (first + half)%nat with
        | Some e => if p e then partition_point fuel p l (first + half + 1) (len - half - 1)
                    else partition_point fuel p l first half
        | None => first
        end
  end.

Definition ReqHeaderValueSeparator (headerName : bytes) (mergeAllowedForUnknown : bool) : Z :=
  let it := partition_point (S (length kEntries))
              (fun entry => CaseInsensitiveLess (e_name entry) headerName)
              kEntries 0 (length kEntries) in
  match kEntries !! it with
  | Some e => if CaseInsensitiveEqual (e_name e) headerName then e_sep e
              else if mergeAllowedForUnknown then sepComma else sepForbidden
  | None => if mergeAllowedForUnknown then sepComma else sepForbidden
  end.

(** ** Lanes and bytes *)

Abbreviation lower := (map tolower).

Lemma lane_lower_tolower b : byte_ok b -> lane_lower b = tolower b.
Proof.
  intros Hb. unfold byte_ok in Hb. unfold lane_lower, tolower, lane_s8.
  destruct (Z.ltb_spec b 128); ztest; try lia; cbn [andb]; try (by apply Z.lor_0_r); done.
Qed.

Lemma map_lane_lower l : bytes_ok l -> map lane_lower l = lower l.
Proof. intros Hl. induction Hl; cbn; [done|]. by rewrite lane_lower_tolower, IHHl. Qed.

Lemma bytes_ok_block n pos l : bytes_ok l -> bytes_ok (block n pos l).
Proof. intros. by apply Forall_take, Forall_drop. Qed.

Lemma map_block (f : Z -> Z) n pos l : map f (block n pos l) = block n pos (map f l).
Proof. unfold block. by rewrite <- fmap_drop, <- fmap_take. Qed.

Lemma AsciiLowerMask_block n pos l :
  bytes_ok l -> AsciiLowerMask (block n pos l) = block n pos (lower l).
Proof.
  intros Hl. unfold AsciiLowerMask.
  by rewrite map_lane_lower, map_block by by apply bytes_ok_block.
Qed.

(** Equality on the index range [a, b). *)
Definition agree (a b : nat) (l k : bytes) : Prop :=
  forall i, (a <= i < b)%nat -> l !! i = k !! i.

Lemma block_agree n pos (l k : bytes) :
  block n pos l = block n pos k <-> agree pos (pos + n) l k.
Proof.
  split.
  - intros E i Hi. assert (H : block n pos l !! (i - pos)%nat = block n pos k !! (i - pos)%nat)
      by (by rewrite E).
    unfold block in H. rewrite !lookup_take_lt, !lookup_drop in H by lia.
    by replace (pos + (i - pos))%nat with i in H by lia.
  - intros H. apply list_eq. intros i. unfold block.
    destruct (decide (i < n)%nat).
    + rewrite !lookup_take_lt, !lookup_drop by lia. apply H. lia.
    + by rewrite !lookup_take_ge by lia.
Qed.

Lemma agree_whole (l k : bytes) : length l = length k -> agree 0 (length l) l k -> l = k.
Proof.
  intros Hl H. apply list_eq. intros i. destruct (decide (i < length l)%nat); [apply H; lia|].
  by rewrite !lookup_ge_None_2 by lia.
Qed.

Lemma lanes_equal_agree n lhs rhs pos :
  bytes_ok lhs -> bytes_ok rhs ->
  lanes_equal n lhs rhs pos = true <-> agree pos (pos + n) (lower lhs) (lower rhs).
Proof.
  intros Hl Hr. unfold lanes_equal. rewrite !AsciiLowerMask_block by done.
  rewrite bool_decide_eq_true. apply block_agree.
Qed.

(** ** CaseInsensitiveEqual is bytewise equality of the lower-cased strings *)

Lemma equal_blocks_spec fuel w lhs rhs pos :
  (0 < w)%nat -> bytes_ok lhs -> bytes_ok rhs -> (length lhs < pos + fuel)%nat ->
  (pos <= length lhs)%nat -> agree 0 pos (lower lhs) (lower rhs) ->
  match equal_blocks fuel w lhs rhs pos with
  | None => lower lhs <> lower rhs
  | Some p => (pos <= p /\ p <= length lhs < p + w)%nat /\ agree 0 p (lower lhs) (lower rhs)
  end.
Proof.
  intros Hw Hl Hr. revert pos. induction fuel as [|fuel IH]; intros pos Hf Hp Ha; [lia|].
  cbn [equal_blocks]. case_decide; [|split; [lia|done]].
  destruct (lanes_equal w lhs rhs pos) eqn:E.
  - apply lanes_equal_agree in E; [|done..].
    assert (agree 0 (pos + w) (lower lhs) (lower rhs)) as Ha'.
    { intros i Hi. destruct (decide (i < pos)%nat); [apply Ha|apply E]; lia. }
    specialize (IH (pos + w)%nat ltac:(lia) ltac:(lia) Ha').
    destruct (equal_blocks fuel w lhs rhs (pos + w)); [|done]. destruct IH. split; [lia|done].
  - intros Heq. enough (lanes_equal w lhs rhs pos = true) by congruence.
    apply lanes_equal_agree; [done..|]. by rewrite Heq.
Qed.

Lemma equal_words_spec w lhs rhs :
  (0 < w <= length lhs)%nat -> bytes_ok lhs -> bytes_ok rhs -> length lhs = length rhs ->
  equal_words w lhs rhs = true <-> lower lhs = lower rhs.
Proof.
  intros Hw Hl Hr Hlen. unfold equal_words.
  pose proof (equal_blocks_spec (S (length lhs)) w lhs rhs 0 ltac:(lia) Hl Hr ltac:(lia)
                ltac:(lia) ltac:(intros i Hi; lia)) as H.
  destruct (equal_blocks _ _ _ _ _) as [p|]; [|by split].
  destruct H as [Hp Ha].
  assert (Hlen' : length (lower lhs) = length (lower rhs)) by (by rewrite !length_map).
  assert (Hll : length (lower lhs) = length lhs) by apply length_map.
  case_decide as Hd.
  - split; [intros _|done]. apply agree_whole; [done|]. by rewrite Hll, <- Hd.
  - rewrite lanes_equal_agree by done. split; [|by intros ->; intros ? ?].
    intros Hb. apply agree_whole; [done|]. intros i Hi. rewrite Hll in Hi.
    destruct (decide (i < p)%nat); [apply Ha|apply Hb]; lia.
Qed.

Lemma equal_scalar_spec lhs rhs :
  length lhs = length rhs -> equal_scalar lhs rhs = true <-> lower lhs = lower rhs.
Proof.
  revert rhs. induction lhs as [|a lhs IH]; intros [|b rhs] Hl; [done..|].
  injection Hl as Hl. cbn [equal_scalar map]. destruct (Z.eqb_spec (tolower a) (tolower b)) as [E|E].
  - rewrite IH, E by done. split; [by intros ->|]. intros H. by injection H.
  - split; [done|]. intros H. by injection H.
Qed.

Lemma CaseInsensitiveEqual_iff lhs rhs :
  bytes_ok lhs -> bytes_ok rhs ->
  CaseInsensitiveEqual lhs rhs = true <-> lower lhs = lower rhs.
Proof.
  intros Hl Hr. unfold CaseInsensitiveEqual. case_decide as Hlen.
  - repeat case_decide; [apply equal_words_spec; (done || lia)..|by apply equal_scalar_spec].
  - split; [done|]. intros E. apply (f_equal length) in E. by rewrite !length_map in E.
Qed.

(** ** The buffer routines lower the first [len] bytes *)

Lemma store_lowered w f from to pos :
  (forall b, byte_ok b -> f b = tolower b) -> bytes_ok from -> (pos + w <= length from)%nat ->
  store (take pos (lower from) ++ drop pos to) pos (map f (block w pos from))
  = take (pos + w) (lower from) ++ drop (pos + w) to.
Proof.
  intros Hf Hok Hp.
  assert (Hm : map f (block w pos from) = block w pos (lower from)).
  { rewrite <- map_block. assert (Hb := bytes_ok_block w pos from Hok).
    induction Hb; cbn; [done|]. by rewrite Hf, IHHb. }
  assert (Hl : length (lower from) = length from) by apply length_map.
  rewrite Hm. unfold store.
  assert (Hlb : length (block w pos (lower from)) = w).
  { unfold block. rewrite length_take, length_drop. lia. }
  rewrite Hlb, take_app_length' by (rewrite length_take; lia).
  rewrite drop_app_ge by (rewrite length_take; lia). rewrite length_take, drop_drop.
  replace (pos + (pos + w - pos `min` length (lower from)))%nat with (pos + w)%nat by lia.
  rewrite app_assoc. f_equal. unfold block. by rewrite take_take_drop.
Qed.

Lemma lower_copy_spec fuel w f len from to pos :
  (0 < w)%nat -> (forall b, byte_ok b -> f b = tolower b) -> bytes_ok from ->
  (len <= length from)%nat -> (len < pos + fuel)%nat ->
  let lowered p := take p (lower from) ++ drop p to in
  exists p, lower_copy fuel w f len from (lowered pos, pos) = (lowered p, p)
    /\ (len < p + w)%nat /\ (pos <= p)%nat /\ (p <= Nat.max pos len)%nat.
Proof.
  intros Hw Hf Hok Hlen. revert pos. induction fuel as [|fuel IH]; intros pos Hfu lowered.
  { exists pos. cbn. repeat split; lia. }
  cbn [lower_copy]. case_decide; [|exists pos; repeat split; lia].
  unfold lowered. rewrite store_lowered by (done || lia).
  destruct (IH (pos + w)%nat ltac:(lia)) as (p & Hp & ?). exists p. split; [exact Hp|lia].
Qed.

(** In place, the bytes from [pos] on are still the original ones, so the in-place loop
    is the copy loop from the original buffer. *)
Lemma lower_inplace_copy fuel w f len from pos :
  (pos <= length from)%nat -> (len <= length from)%nat -> (0 < w)%nat ->
  (forall b, byte_ok b -> f b = tolower b) -> bytes_ok from ->
  let lowered p := take p (lower from) ++ drop p from in
  lower_inplace fuel w f len (lowered pos, pos) = lower_copy fuel w f len from (lowered pos, pos).
Proof.
  intros Hp Hlen Hw Hf Hok lowered. revert pos Hp. induction fuel as [|fuel IH]; intros pos Hp; [done|].
  cbn [lower_inplace lower_copy]. case_decide; [|done].
  assert (Hl : length (lower from) = length from) by apply length_map.
  assert (Hb : block w pos (lowered pos) = block w pos from).
  { unfold block, lowered. by rewrite drop_app_length' by (rewrite length_take; lia). }
  rewrite Hb. unfold lowered. rewrite store_lowered by (done || lia). apply IH. lia.
Qed.

Section Buffers.
Context (len : nat) (from to : bytes).
Hypothesis Hok : bytes_ok from.
Hypothesis Hlen : (len <= length from)%nat.

Let lowered p := take p (lower from) ++ drop p to.

Lemma lower_copy_to fuel w f len' pos :
  (0 < w)%nat -> (forall b, byte_ok b -> f b = tolower b) -> (len' <= len)%nat ->
  (len' < pos + fuel)%nat -> (pos <= len)%nat ->
  exists p, lower_copy fuel w f len' from (lowered pos, pos) = (lowered p, p)
    /\ (pos <= p <= len)%nat /\ (len' < p + w)%nat.
Proof using Hok Hlen.
  intros Hw Hf Hl Hfu Hp.
  destruct (lower_copy_spec fuel w f len' from to pos) as (p & Hcp & ?); [done..|lia|lia|].
  exists p. split; [done|lia].
Qed.

Lemma tolower_n_spec fm tm :
  tolower_n fm tm from len to = take len (lower from) ++ drop len to.
Proof using Hok Hlen.
  unfold tolower_n. set (head := if decide _ then _ else _).
  assert (Hh : (head <= len)%nat) by (subst head; case_decide; lia).
  destruct (lower_copy_to (S len) 1 tolower head 0) as (p1 & E1 & ? & _); [lia|done|lia..|].
  unfold lowered at 1 in E1. rewrite take_0, drop_0 in E1. cbn [app] in E1. rewrite E1.
  destruct (lower_copy_to (S len) 8 lane_lower len p1) as (p2 & E2 & ? & _);
    [lia|apply lane_lower_tolower|lia..|]. rewrite E2.
  destruct (lower_copy_to (S len) 1 tolower len p2) as (p3 & E3 & ? & ?); [lia|done|lia..|].
  rewrite E3. cbn [fst]. by replace p3 with len by lia.
Qed.
End Buffers.

Lemma tolower_buf_spec avx2 mis buf len :
  bytes_ok buf -> (len <= length buf)%nat ->
  tolower_buf avx2 mis buf len = take len (lower buf) ++ drop len buf.
Proof.
  intros Hok Hlen. unfold tolower_buf. set (head := if decide _ then _ else _).
  assert (Hh : (head <= len)%nat) by (subst head; repeat case_decide; lia).
  set (lowered p := take p (lower buf) ++ drop p buf).
  assert (Hstep : forall w f len' pos, (0 < w)%nat -> (forall b, byte_ok b -> f b = tolower b) ->
    (len' <= len)%nat -> (pos <= len)%nat ->
    exists p, lower_inplace (S len) w f len' (lowered pos, pos) = (lowered p, p)
      /\ (pos <= p <= len)%nat /\ (len' < p + w)%nat).
  { intros w f len' pos ? ? ? ?. unfold lowered. rewrite lower_inplace_copy by (done || lia).
    apply lower_copy_to; (done || lia). }
  destruct (Hstep 1%nat tolower head 0%nat) as (p1 & E1 & ? & _); [lia|done|lia..|].
  unfold lowered at 1 in E1. rewrite take_0, drop_0 in E1. cbn [app] in E1. rewrite E1.
  assert (exists p2, (if avx2 then lower_inplace (S len) 32 lane_lower len (lowered p1, p1)
      else (lowered p1, p1)) = (lowered p2, p2) /\ (p2 <= len)%nat) as (p2 & E2 & ?).
  { destruct avx2; [|by exists p1; split; [|lia]].
    destruct (Hstep 32%nat lane_lower len p1) as (p & E & ? & _);
      [lia|apply lane_lower_tolower|lia..|]. exists p. split; [done|lia]. }
  rewrite E2.
  destruct (Hstep 8%nat lane_lower len p2) as (p3 & E3 & ? & _);
    [lia|apply lane_lower_tolower|lia..|]. rewrite E3.
  destruct (Hstep 1%nat tolower len p3) as (p4 & E4 & ? & ?); [lia|done|lia..|].
  rewrite E4. cbn [fst]. unfold lowered. by replace p4 with len by lia.
Qed.

(** ** Ordering and the merge table *)

Lemma less_trans a b c :
  CaseInsensitiveLess a b = true -> CaseInsensitiveLess b c = true -> CaseInsensitiveLess a c = true.
Proof.
  revert b c. induction a as [|x a IH]; intros [|y b] [|z c]; cbn [CaseInsensitiveLess]; try done.
  cbv zeta. generalize (tolower x) (tolower y) (tolower z). intros X Y Z0.
  destruct (Z.eqb_spec X Y) as [->|], (Z.eqb_spec Y Z0) as [->|].
  - apply IH.
  - auto.
  - rewrite (proj2 (Z.eqb_neq X Z0)) by done. auto.
  - destruct (Z.eqb_spec X Z0) as [->|]; rewrite !Z.ltb_lt; lia.
Qed.

Lemma less_lower_r a b c :
  lower b = lower c -> CaseInsensitiveLess a b = CaseInsensitiveLess a c.
Proof.
  revert b c. induction a as [|x a IH]; intros [|y b] [|z c] E; try done.
  injection E as E1 E2. cbn [CaseInsensitiveLess]. by rewrite E1, (IH b c).
Qed.

Lemma less_irrefl a : CaseInsensitiveLess a a = false.
Proof. induction a; [done|]. cbn [CaseInsensitiveLess]. by rewrite Z.eqb_refl. Qed.

(** Bisection finds the end of the prefix where the predicate holds. *)
Lemma partition_point_spec fuel p (l : list Entry) first len j :
  (first <= j <= first + len)%nat -> (first + len <= length l)%nat -> (len < fuel)%nat ->
  (forall i e, l !! i = Some e -> p e = true <-> (i < j)%nat) ->
  partition_point fuel p l first len = j.
Proof.
  intros Hj Hl Hf Hp. revert first len Hj Hl Hf.
  induction fuel as [|fuel IH]; intros first len Hj Hl Hf; [lia|]. cbn [partition_point].
  case_decide as Hd; [lia|].
  pose proof (Nat.Div0.mul_div_le len 2). pose proof (Nat.div_lt len 2 ltac:(lia) ltac:(lia)).
  destruct (lookup_lt_is_Some_2 l (first + len / 2)%nat ltac:(lia)) as [e He]. rewrite He.
  pose proof (Hp _ _ He) as Hpe. destruct (p e).
  - apply IH; [|lia..]. assert (first + len / 2 < j)%nat by (by apply Hpe). lia.
  - apply IH; [|lia..]. destruct (decide (first + len / 2 < j)%nat) as [Hlt|]; [|lia].
    apply Hpe in Hlt. done.
Qed.

Fixpoint entries_sorted (l : list Entry) : bool :=
  match l with
  | [] => true
  | e :: r => forallb (fun f => CaseInsensitiveLess (e_name e) (e_name f)) r && entries_sorted r
  end.

(** The source's [static_assert], strengthened to strict order. *)
Lemma kEntries_sorted : entries_sorted kEntries = true.
Proof. vm_compute. reflexivity. Qed.

Lemma kEntries_bytes : Forall (fun e => bytes_ok (e_name e)) kEntries.
Proof. repeat constructor; done. Qed.

Lemma entries_sorted_lookup l i j e f :
  entries_sorted l = true -> l !! i = Some e -> l !! j = Some f -> (i < j)%nat ->
  CaseInsensitiveLess (e_name e) (e_name f) = true.
Proof.
  revert i j. induction l as [|x l IH]; intros i j Hs Hi Hj Hij; [done|].
  cbn in Hs. apply andb_true_iff in Hs as [Hx Hs]. destruct j as [|j]; [lia|].
  simpl in Hj. destruct i as [|i]; simpl in Hi.
  - simplify_eq. rewrite forallb_forall in Hx. apply Hx, list_elem_of_In, list_elem_of_lookup. eauto.
  - eapply IH; [done..|lia].
Qed.

(** The length of the prefix of entries below the name: where bisection stops. *)
Lemma entries_boundary (l : list Entry) n :
  entries_sorted l = true ->
  exists j, (j <= length l)%nat
    /\ forall i e, l !! i = Some e -> CaseInsensitiveLess (e_name e) n = true <-> (i < j)%nat.
Proof.
  induction l as [|x l IH]; intros Hs.
  { exists 0%nat. split; [done|]. by intros i e H. }
  pose proof Hs as Hs'. cbn in Hs'. apply andb_true_iff in Hs' as [_ Hl].
  destruct (IH Hl) as (j & Hj & Hp). destruct (CaseInsensitiveLess (e_name x) n) eqn:E.
  - exists (S j). split; [simpl; lia|]. intros [|i] e H; simpl in H; simplify_eq.
    + split; [lia|done].
    + rewrite (Hp i e H). lia.
  - exists 0%nat. split; [lia|]. intros i e H. split; [|lia]. intros Hn. exfalso.
    destruct i as [|i]; [simpl in H; simplify_eq; congruence|].
    pose proof (entries_sorted_lookup (x :: l) 0 (S i) x e Hs eq_refl H ltac:(lia)) as Hx.
    rewrite (less_trans _ _ _ Hx Hn) in E. done.
Qed.

(** The policy as a linear search of the table. *)
Definition policy_of (headerName : bytes) : option Entry :=
  List.find (fun e => bool_decide (lower (e_name e) = lower headerName)) kEntries.

Lemma policy_position n j :
  (forall i e, kEntries !! i = Some e ->
     CaseInsensitiveLess (e_name e) n = true <-> (i < j)%nat) ->
  forall i e, kEntries !! i = Some e -> lower (e_name e) = lower n -> i = j.
Proof.
  intros Hp i e Hi He.
  assert (Hless : forall a, CaseInsensitiveLess a n = CaseInsensitiveLess a (e_name e)).
  { intros a. by apply less_lower_r. }
  pose proof (Hp i e Hi) as Hpi. rewrite Hless, less_irrefl in Hpi.
  destruct (decide (i < j)%nat) as [Hlt|]; [by apply Hpi in Hlt|].
  destruct (decide (i = j)) as [|Hne]; [done|].
  destruct (lookup_lt_is_Some_2 kEntries j) as [f Hf].
  { apply lookup_lt_Some in Hi. lia. }
  pose proof (Hp j f Hf) as Hpj. rewrite Hless in Hpj.
  rewrite (entries_sorted_lookup kEntries j i f e kEntries_sorted Hf Hi ltac:(lia)) in Hpj.
  destruct Hpj as [Hpj _]. specialize (Hpj eq_refl). lia.
Qed.

(** the vectorised comparison is ASCII case-insensitive equality: for any two byte
    strings, of any length (so through the 16-byte blocks, the 8-byte blocks, the
    overlapping last block or the scalar loop), it answers true exactly when the strings
    have the same length and the same bytes up to the case of A-Z. *)
Theorem CaseInsensitiveEqual_correct lhs rhs :
  bytes_ok lhs -> bytes_ok rhs ->
  CaseInsensitiveEqual lhs rhs = true
  <-> length lhs = length rhs
      /\ forall i a b, lhs !! i = Some a -> rhs !! i = Some b -> tolower a = tolower b.
Proof.
  intros Hl Hr. rewrite CaseInsensitiveEqual_iff by done.
  split.
  - intros E. split; [apply (f_equal length) in E; by rewrite !length_map in E|].
    intros i a b Ha Hb. apply (f_equal (fun l => l !! i)) in E.
    change (map tolower) with (fmap (M := list) tolower) in E.
    rewrite !list_lookup_fmap, Ha, Hb in E. by injection E.
  - intros [Hlen H]. apply list_eq_same_length with (length lhs); [by rewrite length_map..|].
    intros i x y Hi. change (map tolower) with (fmap (M := list) tolower).
    rewrite !list_lookup_fmap.
    destruct (lhs !! i) as [a|] eqn:Ea; [|done]. destruct (rhs !! i) as [b|] eqn:Eb; [|done].
    cbn. intros Hx Hy. simplify_eq. by eapply H.
Qed.

Lemma CaseInsensitiveEqual_correct_witness :
  CaseInsensitiveEqual (str "X-Forwarded-For-Host") (str "x-forwarded-FOR-hosT") = true.
Proof.
  apply (CaseInsensitiveEqual_correct (str "X-Forwarded-For-Host") (str "x-forwarded-FOR-hosT"));
    [repeat constructor; done..|]. split; [done|]. intros i a b Ha Hb.
  do 20 (destruct i as [|i]; [simpl in Ha, Hb; injection Ha as <-; injection Hb as <-; reflexivity|]).
  discriminate Ha.
Defined.

(** the in-place and the copying conversion lower exactly the first [len] bytes and
    leave the rest of the destination alone, whatever the alignment of the buffers and
    whether or not the CPU has AVX2. *)
Theorem tolower_buffers avx2 mis fromMis toMis buf to len :
  bytes_ok buf -> (len <= length buf)%nat ->
  tolower_buf avx2 mis buf len = map tolower (take len buf) ++ drop len buf
  /\ tolower_n fromMis toMis buf len to = map tolower (take len buf) ++ drop len to.
Proof.
  intros Hok Hlen. rewrite tolower_buf_spec, tolower_n_spec by done.
  change (map tolower) with (fmap (M := list) tolower). by rewrite fmap_take.
Qed.

Lemma tolower_buffers_witness :
  tolower_buf true 3 (str "Sec-WebSocket-Extensions: Permessage-Deflate") 24
  = map tolower (take 24 (str "Sec-WebSocket-Extensions: Permessage-Deflate"))
    ++ drop 24 (str "Sec-WebSocket-Extensions: Permessage-Deflate").
Proof.
  apply (tolower_buffers true 3 0 0 (str "Sec-WebSocket-Extensions: Permessage-Deflate") [] 24).
  - repeat constructor; done.
  - vm_compute. lia.
Defined.

(** the merge policy found by bisection is the one of the table: the separator of the
    entry whose name equals the header name up to case, and the configured default when no
    entry does. *)
Theorem ReqHeaderValueSeparator_correct n mergeAllowed :
  bytes_ok n ->
  ReqHeaderValueSeparator n mergeAllowed
  = match policy_of n with
    | Some e => e_sep e
    | None => if mergeAllowed then sepComma else sepForbidden
    end.
Proof.
  intros Hn. destruct (entries_boundary kEntries n kEntries_sorted) as (j & Hj & Hp).
  unfold ReqHeaderValueSeparator.
  rewrite (partition_point_spec _ _ _ _ _ j); [|lia..|exact Hp]. unfold policy_of.
  destruct (List.find _ kEntries) as [e|] eqn:Ef.
  - apply find_some in Ef as [Hin He]. apply bool_decide_eq_true in He.
    apply list_elem_of_In, list_elem_of_lookup in Hin as [i Hi].
    pose proof (policy_position n j Hp i e Hi He) as ->. rewrite Hi.
    assert (bytes_ok (e_name e)) by (eapply Forall_lookup in Hi; [exact Hi|apply kEntries_bytes]).
    by rewrite (proj2 (CaseInsensitiveEqual_iff _ _ ltac:(done) Hn) He).
  - destruct (kEntries !! j) as [e|] eqn:Ej; [|done].
    assert (bytes_ok (e_name e)) by (eapply Forall_lookup in Ej; [exact Ej|apply kEntries_bytes]).
    destruct (CaseInsensitiveEqual (e_name e) n) eqn:E; [|done]. exfalso.
    apply CaseInsensitiveEqual_iff in E; [|done..].
    apply list_elem_of_lookup_2, list_elem_of_In in Ej.
    pose proof (find_none _ _ Ef _ Ej) as H1. cbn beta in H1.
    by rewrite bool_decide_eq_true_2 in H1.
Qed.

Lemma ReqHeaderValueSeparator_correct_witness :
  ReqHeaderValueSeparator (str "cOOkie") false
  = match policy_of (str "cOOkie") with Some e => e_sep e | None => sepForbidden end.
Proof. apply (ReqHeaderValueSeparator_correct (str "cOOkie") false). repeat constructor; done. Defined.
