(* ===== verification/Hpack.v ===== *)
(** HPACK header compression (http2/hpack.hpp, hpack.cpp): integers, string literals, the
    dynamic table, the static-table hash lookup, the decoder and the encoder.

    A computation that the C++ leaves undefined is a [hpack_fault]: a failed assertion, a
    span outside its data or the last entry of an empty table ([HpackAssert], also [None] where
    no other fault is possible), or a copy from a freed buffer ([HpackFreed]); a decoding error is an error message. *)

From S2P Require Import Prelude HpackTables HpackHuffman AsciiCase.
Local Open Scope Z_scope.

Definition kHpackOverhead : Z := 32.

Inductive hpack_fault := HpackAssert | HpackFreed.

(** ** Integers *)

Definition kInvalidIndex : Z := 2 ^ 64 - 1.
Definition kMaxContinuationBytes : Z := 8.

Record DecodedIndex := MkDecodedIndex { di_index : Z; di_consumed : Z }.

Definition invalid_index : DecodedIndex := MkDecodedIndex kInvalidIndex 0.

(** The [while (pos < data.size())] loop; [rest] is the data from [pos] on. *)
Fixpoint decode_continuation (rest : bytes) (pos value multiplier : Z) : DecodedIndex :=
  match rest with
  | [] => invalid_index
  | currByte :: rest =>
      if kMaxContinuationBytes <? pos then invalid_index
      else
        let value := u64 (value + Z.land currByte 0x7F * multiplier) in
        let multiplier := u64 (multiplier * 128) in
        let pos := pos + 1 in
        if Z.land currByte 0x80 =? 0 then MkDecodedIndex value pos
        else decode_continuation rest pos value multiplier
  end.

Definition DecodeInteger (data : bytes) (prefixBits : Z) : DecodedIndex :=
  match data with
  | [] => invalid_index
  | first :: rest =>
      let prefixMask := u8 (Z.shiftl 1 prefixBits - 1) in
      let value := Z.land first prefixMask in
      if value <? prefixMask then MkDecodedIndex value 1
      else decode_continuation rest 1 value 1
  end.

(** [while (value >= 128)]: at most ten bytes for 64 bits. *)
Fixpoint encode_continuation (fuel : nat) (value : Z) : bytes :=
  match fuel with
  | O => []
  | S fuel =>
      if 128 <=? value
      then Z.lor (Z.land value 0x7F) 0x80 :: encode_continuation fuel (Z.shiftr value 7)
      else [u8 value]
  end.

Definition EncodeInteger (output : bytes) (value prefixBits prefixMask : Z) : bytes :=
  let maxPrefix := u8 (Z.shiftl 1 prefixBits - 1) in
  if value <? maxPrefix then output ++ [u8 (Z.lor prefixMask (u8 value))]
  else
    let value := value - maxPrefix in
    output ++ u8 (Z.lor prefixMask maxPrefix) :: encode_continuation 10 value.

(** The reservation made before the loop writes unchecked bytes. *)
Definition bit_width (v : Z) : Z := if v =? 0 then 0 else Z.log2 v + 1.
Definition continuationBytes (value : Z) : Z :=
  if value <? 128 then 1 else (bit_width value + 6) / 7.

(** ** String literals *)

Inductive DecodedString :=
| StrOk (s : bytes) (consumed : Z)
| StrInvalid     (* kInvalidConsumed *)
| StrFault.      (* bytes outside the data, or an assertion of the Huffman decoder failed *)

Definition decodeString (data : bytes) : DecodedString :=
  let '(MkDecodedIndex length consumed) := DecodeInteger data 7 in
  if length =? kInvalidIndex then StrInvalid
  else if zlen data <? u64 (consumed + length) then StrInvalid
  else
    match read data consumed length with
    | None => StrFault
    | Some stringData =>
        let isHuffman := negb (Z.land (byte_at data 0) 0x80 =? 0) in
        if isHuffman then
          match decodeHuffman stringData with
          | HuffOk s => StrOk s (u64 (length + consumed))
          | HuffError => StrInvalid
          | HuffAssert | HuffFuel => StrFault
          end
        else StrOk stringData (u64 (length + consumed))
    end.

Definition EncodeString (output : bytes) (s : bytes) : bytes :=
  let huffmanLen := HuffmanEncodedLength s in
  if huffmanLen <? zlen s then EncodeHuffman (EncodeInteger output huffmanLen 7 0x80) s
  else EncodeInteger output (zlen s) 7 0x00 ++ s.

(** ** Dynamic table *)

Record HpackDynamicTable :=
  MkTable { entries : list HeaderView; currentSize : Z; maxSize : Z }.

Definition new_table (maxSize : Z) : HpackDynamicTable := MkTable [] 0 maxSize.

Definition header_size (h : HeaderView) : Z := zlen (hv_name h) + zlen (hv_value h).

Definition clear (t : HpackDynamicTable) : HpackDynamicTable := MkTable [] 0 (maxSize t).

(** Pop the back; undefined on an empty vector. *)
Definition evict (t : HpackDynamicTable) : option (HeaderView * HpackDynamicTable) :=
  match last (entries t) with
  | None => None
  | Some evictedEntry =>
      Some (evictedEntry,
            MkTable (removelast (entries t))
              (u64 (currentSize t - (header_size evictedEntry + kHpackOverhead))) (maxSize t))
  end.

(** [while (_maxSize < _currentSize + extra) evict()]: at most one step per entry, and one
    more that would touch an empty vector. *)
Fixpoint evict_while (fuel : nat) (extra : Z) (t : HpackDynamicTable) : option HpackDynamicTable :=
  if maxSize t <? u64 (currentSize t + extra) then
    match fuel with
    | O => None
    | S fuel => match evict t with
                | None => None
                | Some (_, t) => evict_while fuel extra t
                end
    end
  else Some t.

Definition setMaxSize (t : HpackDynamicTable) (m : Z) : option HpackDynamicTable :=
  let t := MkTable (entries t) (currentSize t) m in
  evict_while (length (entries t)) 0 t.

(** [add(name, value)].  [name_entry] is the index of the table entry whose buffer the
    [name] view points into, if any.  The first evicted entry gives its buffer to the new
    one; when the buffer is too small, it is reallocated before [name] is copied, so a
    [name] inside it is read after being freed. *)
Definition add (t : HpackDynamicTable) (name_entry : option nat) (name value : bytes)
  : hpack_fault + (bool * HpackDynamicTable) :=
  let entrySize := u64 (zlen name + zlen value + kHpackOverhead) in
  if maxSize t <? entrySize then inr (false, clear t)
  else
    let insert t :=
      inr (true, MkTable (MkHeaderView name value :: entries t)
                    (u64 (currentSize t + entrySize)) (maxSize t)) in
    if maxSize t <? u64 (currentSize t + entrySize) then
      match evict t with
      | None => inl HpackAssert
      | Some (evicted, t') =>
          if (header_size evicted <? zlen name + zlen value)
             && bool_decide (name_entry = Some (length (entries t) - 1)%nat)
          then inl HpackFreed
          else match evict_while (length (entries t')) entrySize t' with
               | None => inl HpackAssert
               | Some t' => insert t'
               end
      end
    else insert t.

(** ** Static table lookup by name *)

(** [string_view] ordering. *)
Fixpoint bytes_lt (a b : bytes) : bool :=
  match a, b with
  | [], _ :: _ => true
  | _, [] => false
  | x :: a, y :: b => if x =? y then bytes_lt a b else x <? y
  end.

Record StaticTableEntry := MkStaticEntry { se_name : bytes; se_index : Z }.

Definition static_entry_lt (lhs rhs : StaticTableEntry) : bool :=
  if bool_decide (se_name lhs <> se_name rhs) then bytes_lt (se_name lhs) (se_name rhs)
  else se_index lhs <? se_index rhs.

(** [std::ranges::sort] by a strict total order: the sorted list is unique. *)
Fixpoint sort_insert (e : StaticTableEntry) (l : list StaticTableEntry) : list StaticTableEntry :=
  match l with
  | [] => [e]
  | x :: r => if static_entry_lt e x then e :: l else x :: sort_insert e r
  end.

Definition kStaticTableByName : list StaticTableEntry :=
  foldr sort_insert []
    (imap (fun i h => MkStaticEntry (hv_name h) (Z.of_nat i)) kStaticTable).

Definition kStaticHeaderNameMinLen : Z :=
  foldr Z.min 1000 (map (fun h => zlen (hv_name h)) kStaticTable).
Definition kStaticHeaderNameMaxLen : Z :=
  foldr Z.max 0 (map (fun h => zlen (hv_name h)) kStaticTable).

Definition FnvHash (sv : bytes) : Z :=
  foldl (fun hash ch => u32 (Z.lxor hash ch * 16777619)) 2166136261 sv.

Record StaticNameHashEntry := MkHashEntry { he_name : bytes; he_sortedStart : Z; he_count : Z }.

Definition kStaticNameHashSize : Z := 64.
Definition kStaticNameHashMask : Z := kStaticNameHashSize - 1.

Definition empty_slot : StaticNameHashEntry := MkHashEntry [] 0 0.
Definition slot_at (table : list StaticNameHashEntry) (slot : Z) : StaticNameHashEntry :=
  nth (Z.to_nat slot) table empty_slot.

(** Number of leading entries with this name. *)
Fixpoint run_length (name : bytes) (l : list StaticTableEntry) : nat :=
  match l with
  | e :: r => if bool_decide (se_name e = name) then S (run_length name r) else O
  | [] => O
  end.

Fixpoint probe_empty (fuel : nat) (table : list StaticNameHashEntry) (slot : Z) : Z :=
  match fuel with
  | O => slot
  | S fuel =>
      if bool_decide (he_name (slot_at table slot) = []) then slot
      else probe_empty fuel table (Z.land (slot + 1) kStaticNameHashMask)
  end.

Fixpoint fill_names (fuel : nat) (idx : nat) (table : list StaticNameHashEntry)
  : list StaticNameHashEntry :=
  match fuel with
  | O => table
  | S fuel =>
      match kStaticTableByName !! idx with
      | None => table
      | Some e =>
          let name := se_name e in
          let n := run_length name (drop idx kStaticTableByName) in
          let slot := probe_empty 64 table (Z.land (FnvHash name) kStaticNameHashMask) in
          fill_names fuel (idx + n)
            (<[Z.to_nat slot := MkHashEntry name (Z.of_nat idx) (Z.of_nat n)]> table)
      end
  end.

Definition kStaticNameHashTable : list StaticNameHashEntry :=
  fill_names 61 0 (replicate 64 empty_slot).

(** ** Lookups *)

Inductive Match := MatchNone | MatchNameOnly | MatchFull.

Record HpackLookupResult := MkLookup { lr_match : Match; lr_index : Z }.

(** [while (!table[slot].name.empty())]: the entry of the name, if it is reached. *)
Fixpoint probe_name (fuel : nat) (name : bytes) (slot : Z) : option StaticNameHashEntry :=
  match fuel with
  | O => None
  | S fuel =>
      let e := slot_at kStaticNameHashTable slot in
      if bool_decide (he_name e = []) then None
      else if bool_decide (he_name e = name) then Some e
      else probe_name fuel name (Z.land (slot + 1) kStaticNameHashMask)
  end.

(** [for (ii = 0; ii < count; ++ii)] over the run of entries of one name; a full match
    returns at once. *)
Fixpoint scan_run (run : list StaticTableEntry) (value : bytes) (result : HpackLookupResult)
  : HpackLookupResult :=
  match run with
  | [] => result
  | e :: run =>
      let entryIdx := se_index e in
      let result := match lr_match result with
                    | MatchNone => MkLookup MatchNameOnly (1 + entryIdx)
                    | _ => result
                    end in
      if bool_decide (hv_value (nth (Z.to_nat entryIdx) kStaticTable (MkHeaderView [] [])) = value)
      then MkLookup MatchFull (1 + entryIdx)
      else scan_run run value result
  end.

Definition find_static (name value : bytes) : HpackLookupResult :=
  let result := MkLookup MatchNone 0 in
  if (kStaticHeaderNameMinLen <=? zlen name) && (zlen name <=? kStaticHeaderNameMaxLen) then
    match probe_name 64 name (Z.land (FnvHash name) kStaticNameHashMask) with
    | None => result
    | Some e =>
        scan_run (take (Z.to_nat (he_count e))
                    (drop (Z.to_nat (he_sortedStart e)) kStaticTableByName)) value result
    end
  else result.

Fixpoint find_dynamic (l : list HeaderView) (idx : Z) (name value : bytes)
    (result : HpackLookupResult) : HpackLookupResult :=
  match l with
  | [] => result
  | entry :: l =>
      if bool_decide (hv_name entry = name) then
        let index := u32 (61 + 1 + idx) in
        if bool_decide (hv_value entry = value) then MkLookup MatchFull index
        else find_dynamic l (idx + 1) name value (MkLookup MatchNameOnly index)
      else find_dynamic l (idx + 1) name value result
  end.

Definition findHeader (t : HpackDynamicTable) (name value : bytes) : HpackLookupResult :=
  let result := find_static name value in
  match lr_match result with
  | MatchFull => result
  | _ => find_dynamic (entries t) 0 name value result
  end.

(** The header at a combined index, empty when out of bounds, with the dynamic entry it
    views. *)
Definition lookupIndex (t : HpackDynamicTable) (index : Z) : HeaderView * option nat :=
  if index <=? 61 then
    (nth (Z.to_nat (index - 1)) kStaticTable (MkHeaderView [] []), None)
  else
    let dynamicIndex := u32 (index - 61 - 1) in
    match entries t !! Z.to_nat dynamicIndex with
    | None => (MkHeaderView [] [], None)
    | Some entry => (entry, Some (Z.to_nat dynamicIndex))
    end.

(** ** Decoder *)

Inductive DecodeError :=
| FailedIndexedIndex | InvalidIndexZero | IndexOutOfBounds | FailedTableSizeUpdate
| FailedLiteralIndex | FailedLiteralName | IndexOutOfBoundsForName | FailedLiteralValue
| DuplicatedHeaderForbidden.

(** [HeadersViewMap]: the stored name and value of each header; a key is matched up to
    ASCII case. *)
Definition HeadersMap := list (bytes * bytes).

Record HpackDecoder := MkDecoder {
  d_dynamicTable : HpackDynamicTable;
  d_decodedHeadersMap : HeadersMap;
  d_mergeAllowedForUnknownRequestHeaders : bool }.

Definition new_decoder (maxDynamicTableSize : Z) (mergeAllowed : bool) : HpackDecoder :=
  MkDecoder (new_table maxDynamicTableSize) [] mergeAllowed.

Definition map_find (m : HeadersMap) (name : bytes) : option (bytes * bytes) :=
  List.find (fun kv => CaseInsensitiveEqual (fst kv) name) m.

(** [it->second = value] for the entry of this name. *)
Fixpoint map_set (m : HeadersMap) (name value : bytes) : HeadersMap :=
  match m with
  | [] => []
  | (k, v) :: m =>
      if CaseInsensitiveEqual k name then (k, value) :: m else (k, v) :: map_set m name value
  end.

Definition storeHeader (mergeAllowed : bool) (m : HeadersMap) (header : HeaderView)
  : DecodeError + HeadersMap :=
  match map_find m (hv_name header) with
  | None => inr (m ++ [(hv_name header, hv_value header)])
  | Some (key, existingValue) =>
      let mergeSep := ReqHeaderValueSeparator key mergeAllowed in
      if mergeSep =? 0 then inl DuplicatedHeaderForbidden
      else inr (map_set m (hv_name header) (existingValue ++ mergeSep :: hv_value header))
  end.

Inductive name_result :=
| NameOk (name : bytes) (entry : option nat) (data : bytes)
| NameError (e : DecodeError)
| NameFault.

Definition decode_name (t : HpackDynamicTable) (index : Z) (data : bytes) : name_result :=
  if index =? 0 then
    match decodeString data with
    | StrOk name consumed => NameOk name None (drop (Z.to_nat consumed) data)
    | StrInvalid => NameError FailedLiteralName
    | StrFault => NameFault
    end
  else
    let '(header, entry) := lookupIndex t index in
    if bool_decide (hv_name header = []) then NameError IndexOutOfBoundsForName
    else NameOk (hv_name header) entry data.

(** One iteration of the decoding loop on the data from [pos] on: the error and the state,
    or the state and the remaining data. *)
Definition decode_step (d : HpackDecoder) (data : bytes)
  : hpack_fault + (HpackDecoder * (DecodeError + bytes)) :=
  let '(MkDecoder t m merge) := d in
  let fail e := inr (d, inl e) in
  let firstByte := byte_at data 0 in
  if negb (Z.land firstByte 0x80 =? 0) then
    let '(MkDecodedIndex index consumed) := DecodeInteger data 7 in
    if index =? kInvalidIndex then fail FailedIndexedIndex
    else
      let data := drop (Z.to_nat consumed) data in
      if index =? 0 then fail InvalidIndexZero
      else
        let '(header, _) := lookupIndex t index in
        if bool_decide (hv_name header = []) then fail IndexOutOfBounds
        else match storeHeader merge m header with
             | inl e => fail e
             | inr m => inr (MkDecoder t m merge, inr data)
             end
  else if Z.land firstByte 0xE0 =? 0x20 then
    let '(MkDecodedIndex size consumed) := DecodeInteger data 5 in
    if size =? kInvalidIndex then fail FailedTableSizeUpdate
    else
      match setMaxSize t size with
      | None => inl HpackAssert
      | Some t => inr (MkDecoder t m merge, inr (drop (Z.to_nat consumed) data))
      end
  else
    let withIndexing := Z.land firstByte 0xC0 =? 0x40 in
    let prefixBits := if withIndexing then 6 else 4 in
    let '(MkDecodedIndex index consumed) := DecodeInteger data prefixBits in
    if index =? kInvalidIndex then fail FailedLiteralIndex
    else
      match decode_name t index (drop (Z.to_nat consumed) data) with
      | NameFault => inl HpackAssert
      | NameError e => fail e
      | NameOk name name_entry data =>
          match decodeString data with
          | StrFault => inl HpackAssert
          | StrInvalid => fail FailedLiteralValue
          | StrOk value consumed =>
              let data := drop (Z.to_nat consumed) data in
              match storeHeader merge m (MkHeaderView name value) with
              | inl e => fail e
              | inr m =>
                  if withIndexing then
                    match add t name_entry name value with
                    | inl f => inl f
                    | inr (_, t) => inr (MkDecoder t m merge, inr data)
                    end
                  else inr (MkDecoder t m merge, inr data)
              end
          end
      end.

(** Every iteration consumes at least a byte. *)
Fixpoint decode_loop (fuel : nat) (d : HpackDecoder) (data : bytes)
  : hpack_fault + (HpackDecoder * option DecodeError) :=
  if 0 <? zlen data then
    match fuel with
    | O => inl HpackAssert
    | S fuel =>
        match decode_step d data with
        | inl f => inl f
        | inr (d, inl e) => inr (d, Some e)
        | inr (d, inr data) => decode_loop fuel d data
        end
    end
  else inr (d, None).

(** The error message, if any; the decoded headers are the map of the decoder. *)
Definition decode (d : HpackDecoder) (data : bytes) : hpack_fault + (HpackDecoder * option DecodeError) :=
  decode_loop (length data)
    (MkDecoder (d_dynamicTable d) [] (d_mergeAllowedForUnknownRequestHeaders d)) data.

Definition decoder_setMaxDynamicTableSize (d : HpackDecoder) (m : Z) : option HpackDecoder :=
  match setMaxSize (d_dynamicTable d) m with
  | None => None
  | Some t => Some (MkDecoder t (d_decodedHeadersMap d) (d_mergeAllowedForUnknownRequestHeaders d))
  end.

(** ** Encoder *)

Definition kNoPendingUpdate : Z := 2 ^ 64 - 1.

Record HpackEncoder := MkEncoder {
  e_dynamicTable : HpackDynamicTable; e_pendingTableSizeUpdate : Z }.

Definition new_encoder (maxDynamicTableSize : Z) : HpackEncoder :=
  MkEncoder (new_table maxDynamicTableSize) kNoPendingUpdate.

Inductive IndexingMode := Indexed | WithoutIndexing | NeverIndexed.

Definition encoder_setMaxDynamicTableSize (e : HpackEncoder) (m : Z) : HpackEncoder :=
  MkEncoder (e_dynamicTable e) m.

Definition encodeDynamicTableSizeUpdate (e : HpackEncoder) (output : bytes) (newSize : Z)
  : option (HpackEncoder * bytes) :=
  match setMaxSize (e_dynamicTable e) newSize with
  | None => None
  | Some t => Some (MkEncoder t (e_pendingTableSizeUpdate e), EncodeInteger output newSize 5 0x20)
  end.

(** The literal representations: index of the name or the name itself, then the value. *)
Definition encode_literal (output : bytes) (lookup : HpackLookupResult) (prefixBits mask : Z)
    (name value : bytes) : bytes :=
  let output :=
    match lr_match lookup with
    | MatchNameOnly => EncodeInteger output (lr_index lookup) prefixBits mask
    | _ => EncodeString (output ++ [mask]) name
    end in
  EncodeString output value.

Definition encode_field (e : HpackEncoder) (output name value : bytes) (mode : IndexingMode)
  : option (HpackEncoder * bytes) :=
  let '(MkEncoder t pending) := e in
  let lookup := findHeader t name value in
  match lr_match lookup with
  | MatchFull => Some (e, EncodeInteger output (lr_index lookup) 7 0x80)
  | _ =>
      match mode with
      | Indexed =>
          match add t None name value with
          | inl _ => None
          | inr (_, t) => Some (MkEncoder t pending, encode_literal output lookup 6 0x40 name value)
          end
      | NeverIndexed => Some (e, encode_literal output lookup 4 0x10 name value)
      | WithoutIndexing => Some (e, encode_literal output lookup 4 0x00 name value)
      end
  end.

(** The assertion of [findHeader]: no upper-case letter in the name. *)
Definition name_is_lower (name : bytes) : bool :=
  forallb (fun ch => negb ((65 <=? ch) && (ch <=? 90))) name.

Definition encode (e : HpackEncoder) (output name value : bytes) (mode : IndexingMode)
  : option (HpackEncoder * bytes) :=
  match (if e_pendingTableSizeUpdate e =? kNoPendingUpdate then Some (e, output)
         else match encodeDynamicTableSizeUpdate e output (e_pendingTableSizeUpdate e) with
              | None => None
              | Some (e, output) => Some (MkEncoder (e_dynamicTable e) kNoPendingUpdate, output)
              end) with
  | None => None
  | Some (e, output) =>
      if name_is_lower name then encode_field e output name value mode else None
  end.

(** ** RFC 7541 examples (appendices C.1, C.4) *)

Example encode_1337 : EncodeInteger [] 1337 5 0 = [31; 154; 10].
Proof. reflexivity. Qed.
Example decode_1337 : DecodeInteger [31; 154; 10] 5 = MkDecodedIndex 1337 3.
Proof. reflexivity. Qed.
Example find_method_post :
  findHeader (new_table 4096) (str ":method") (str "POST") = MkLookup MatchFull 3.
Proof. vm_compute. reflexivity. Qed.

Definition example_request : bytes :=
  [0x82; 0x86; 0x84; 0x41; 0x8c; 0xf1; 0xe3; 0xc2; 0xe5; 0xf2; 0x3a; 0x6b; 0xa0; 0xab; 0x90;
   0xf4; 0xff].

Example decode_request_C41 :
  match decode (new_decoder 4096 true) example_request with
  | inr (d, e) => Some (d_decodedHeadersMap d, currentSize (d_dynamicTable d), e)
  | inl _ => None
  end = Some ([(str ":method", str "GET"); (str ":scheme", str "http"); (str ":path", str "/");
           (str ":authority", str "www.example.com")], 57, None).
Proof. vm_compute. reflexivity. Qed.
