(* ===== verification/HpackRoundtrip.v ===== *)
(** HPACK end to end (Hpack): what one encoded field does to the decoder, header blocks of
    many fields, the safety of the decoder on arbitrary input, and the one aliasing between
    a decoded name and the dynamic table that the code does not survive. *)

From S2P Require Import Prelude HpackTables HpackHuffman HpackHuffmanProofs AsciiCase Hpack HpackProofs.
Local Open Scope Z_scope.

#[local] Opaque kStaticTable kStaticTableByName kStaticNameHashTable findHeader lookupIndex.

(** ** First bytes *)

Lemma land_E0 b : byte_ok b -> (Z.land b 0xE0 =? 0x20) = (32 <=? b) && (b <? 64).
Proof.
  intros Hb. apply eqb_prop.
  by apply (byte_forall (fun b => Bool.eqb (Z.land b 0xE0 =? 0x20) ((32 <=? b) && (b <? 64)))).
Qed.

Lemma land_C0 b : byte_ok b -> (Z.land b 0xC0 =? 0x40) = (64 <=? b) && (b <? 128).
Proof.
  intros Hb. apply eqb_prop.
  by apply (byte_forall (fun b => Bool.eqb (Z.land b 0xC0 =? 0x40) ((64 <=? b) && (b <? 128)))).
Qed.

Inductive representation := RepIndexed | RepSizeUpdate | RepLiteral (withIndexing : bool).

(** The decoder's classification of the first byte. *)
Definition classify (b : Z) : representation :=
  if negb (Z.land b 0x80 =? 0) then RepIndexed
  else if Z.land b 0xE0 =? 0x20 then RepSizeUpdate
  else RepLiteral (Z.land b 0xC0 =? 0x40).

Lemma classify_spec b : byte_ok b ->
  classify b = if 128 <=? b then RepIndexed else if 64 <=? b then RepLiteral true
               else if 32 <=? b then RepSizeUpdate else RepLiteral false.
Proof.
  intros Hb. unfold classify. rewrite land_bit7, land_E0, land_C0 by done. unfold byte_ok in Hb.
  ztest; try lia; done.
Qed.

Definition rep_mask (rep : representation) (p mask : Z) : Prop :=
  match rep with
  | RepIndexed => p = 7 /\ mask = 0x80
  | RepSizeUpdate => p = 5 /\ mask = 0x20
  | RepLiteral true => p = 6 /\ mask = 0x40
  | RepLiteral false => p = 4 /\ (mask = 0x10 \/ mask = 0)
  end.

Lemma rep_mask_prefix rep p mask : rep_mask rep p mask -> prefix_mask p mask.
Proof. destruct rep as [| |[]]; cbn; intros H; repeat split; intuition (subst; done). Qed.

Lemma classify_first rep p mask b :
  rep_mask rep p mask -> mask <= b < mask + 2 ^ p -> byte_ok b /\ classify b = rep.
Proof.
  intros H Hb. assert (Hok : byte_ok b).
  { destruct (rep_mask_prefix _ _ _ H) as (_ & ? & _ & ?). unfold byte_ok. lia. }
  split; [done|]. rewrite classify_spec by done.
  destruct rep as [| |[]]; cbn in H; destruct H as [-> H]; try destruct H as [H|H]; subst mask;
    match type of Hb with context [2 ^ ?p] => let v := eval compute in (2 ^ p) in change (2 ^ p) with v in Hb end;
    ztest; try lia; done.
Qed.

Lemma classify_integer rep p mask v data :
  rep_mask rep p mask -> 0 <= v < 2 ^ 56 ->
  classify (byte_at (EncodeInteger [] v p mask ++ data) 0) = rep
  /\ DecodeInteger (EncodeInteger [] v p mask ++ data) p
     = MkDecodedIndex v (zlen (EncodeInteger [] v p mask)).
Proof.
  intros H Hv. pose proof (rep_mask_prefix _ _ _ H) as Hm.
  destruct (EncodeInteger_shape v p mask Hm ltac:(lia)) as (b & tl & E & Hb & _). split.
  - rewrite E. cbn [app byte_at nth]. by apply (classify_first rep p mask).
  - apply DecodeInteger_encode; [done|]. destruct Hm as (Hp & _). pose proof (prefix_max p Hp). lia.
Qed.

(** The decoding step by representation. *)
Lemma decode_step_classify d data :
  decode_step d data
  = let '(MkDecoder t m merge) := d in
    let fail e := inr (d, inl e) in
    match classify (byte_at data 0) with
    | RepIndexed =>
        let '(MkDecodedIndex index consumed) := DecodeInteger data 7 in
        if index =? kInvalidIndex then fail FailedIndexedIndex
        else if index =? 0 then fail InvalidIndexZero
        else if bool_decide (hv_name (fst (lookupIndex t index)) = []) then fail IndexOutOfBounds
        else match storeHeader merge m (fst (lookupIndex t index)) with
             | inl e => fail e
             | inr m => inr (MkDecoder t m merge, inr (drop (Z.to_nat consumed) data))
             end
    | RepSizeUpdate =>
        let '(MkDecodedIndex size consumed) := DecodeInteger data 5 in
        if size =? kInvalidIndex then fail FailedTableSizeUpdate
        else match setMaxSize t size with
             | None => inl HpackAssert
             | Some t => inr (MkDecoder t m merge, inr (drop (Z.to_nat consumed) data))
             end
    | RepLiteral withIndexing =>
        let '(MkDecodedIndex index consumed) := DecodeInteger data (if withIndexing then 6 else 4) in
        if index =? kInvalidIndex then fail FailedLiteralIndex
        else
          match decode_name t index (drop (Z.to_nat consumed) data) with
          | NameFault => inl HpackAssert
          | NameError e => fail e
          | NameOk name name_entry data =>
              match decodeString data with
              | StrFault => inl HpackAssert
              | StrInvalid => fail FailedLiteralValue
              | StrOk value consumed =>
                  match storeHeader merge m (MkHeaderView name value) with
                  | inl e => fail e
                  | inr m =>
                      if withIndexing then
                        match add t name_entry name value with
                        | inl f => inl f
                        | inr (_, t) =>
                            inr (MkDecoder t m merge, inr (drop (Z.to_nat consumed) data))
                        end
                      else inr (MkDecoder t m merge, inr (drop (Z.to_nat consumed) data))
                  end
              end
          end
    end.
Proof.
  destruct d as [t m merge]. unfold decode_step, classify.
  destruct (negb (Z.land (byte_at data 0) 0x80 =? 0)).
  { destruct (DecodeInteger data 7) as [index consumed].
    destruct (lookupIndex t index) as [h al]. reflexivity. }
  destruct (Z.land (byte_at data 0) 0xE0 =? 0x20); [reflexivity|].
  destruct (Z.land (byte_at data 0) 0xC0 =? 0x40); reflexivity.
Qed.

(** ** One encoded item *)

Definition after_store (d : HpackDecoder) (h : HeaderView)
    (k : HeadersMap -> hpack_fault + (HpackDecoder * (DecodeError + bytes))) :=
  match storeHeader (d_mergeAllowedForUnknownRequestHeaders d) (d_decodedHeadersMap d) h with
  | inl e => inr (d, inl e)
  | inr m => k m
  end.

Lemma decode_indexed t m merge i h rest :
  1 <= i < 2 ^ 40 -> fst (lookupIndex t i) = h -> hv_name h <> [] ->
  decode_step (MkDecoder t m merge) (EncodeInteger [] i 7 0x80 ++ rest)
  = after_store (MkDecoder t m merge) h (fun m => inr (MkDecoder t m merge, inr rest)).
Proof.
  intros Hi Hh Hn. destruct (classify_integer RepIndexed 7 0x80 i rest) as [Hc Hd]; [done|lia|].
  rewrite decode_step_classify, Hc, Hd, Hh. unfold kInvalidIndex.
  rewrite !(proj2 (Z.eqb_neq _ _)) by lia. rewrite bool_decide_eq_false_2 by done.
  rewrite drop_zlen_app. reflexivity.
Qed.

Lemma decode_size_update t m merge v rest :
  0 <= v < 2 ^ 40 ->
  decode_step (MkDecoder t m merge) (EncodeInteger [] v 5 0x20 ++ rest)
  = match setMaxSize t v with
    | None => inl HpackAssert
    | Some t => inr (MkDecoder t m merge, inr rest)
    end.
Proof.
  intros Hv. destruct (classify_integer RepSizeUpdate 5 0x20 v rest) as [Hc Hd]; [done|lia|].
  rewrite decode_step_classify, Hc, Hd. unfold kInvalidIndex.
  rewrite !(proj2 (Z.eqb_neq _ _)) by lia. rewrite drop_zlen_app. reflexivity.
Qed.

(** The table entry whose buffer a decoded name views. *)
Definition name_alias (t : HpackDynamicTable) (r : HpackLookupResult) : option nat :=
  match lr_match r with
  | MatchNameOnly => snd (lookupIndex t (lr_index r))
  | _ => None
  end.

Definition text_ok (s : bytes) : Prop := bytes_ok s /\ zlen s < 2 ^ 32.

Lemma decode_name_literal t lookup p mask name value rest wi :
  rep_mask (RepLiteral wi) p mask -> lr_match lookup <> MatchFull ->
  table_small t -> lookup_sound t name value lookup -> name <> [] -> text_ok name ->
  exists i, classify (byte_at (encode_literal [] lookup p mask name value ++ rest) 0) = RepLiteral wi
  /\ DecodeInteger (encode_literal [] lookup p mask name value ++ rest) p
     = MkDecodedIndex i (zlen (EncodeInteger [] i p mask)) /\ 0 <= i < 2 ^ 40
  /\ decode_name t i (drop (Z.to_nat (zlen (EncodeInteger [] i p mask)))
                           (encode_literal [] lookup p mask name value ++ rest))
     = NameOk name (name_alias t lookup) (EncodeString [] value ++ rest).
Proof.
  intros Hrep Hnf Hsmall Hsound Hne [Hok Hlen]. unfold table_small in Hsmall.
  unfold encode_literal, name_alias. rewrite EncodeString_output, <- app_assoc.
  destruct lookup as [[] i]; cbn [lr_match lr_index lookup_sound] in *; [..|done].
  - (* a literal name, after a zero index *)
    exists 0.
    assert (E0 : EncodeInteger [] 0 p mask = [mask]).
    { pose proof (rep_mask_prefix _ _ _ Hrep) as Hm. pose proof Hm as (Hp & ? & _ & ?).
      destruct (prefix_max p Hp) as [Hmax ?].
      unfold EncodeInteger. rewrite Hmax, (proj2 (Z.ltb_lt 0 _)) by lia.
      unfold u8. rewrite Z.mod_0_l, Z.lor_0_r, Z.mod_small by lia. done. }
    cbn [app]. rewrite (EncodeString_output [mask]), <- E0, <- app_assoc.
    destruct (classify_integer _ _ _ 0 (EncodeString [] name ++ EncodeString [] value ++ rest) Hrep)
      as [Hc Hd]; [lia|].
    split_and!; [exact Hc|exact Hd|lia|lia|]. rewrite drop_zlen_app. unfold decode_name. cbn [Z.eqb].
    rewrite decodeString_encode by (done || lia). by rewrite drop_zlen_app.
  - exists i. destruct Hsound as [Hi Hn].
    destruct (classify_integer _ _ _ i (EncodeString [] value ++ rest) Hrep) as [Hc Hd]; [lia|].
    split_and!; [exact Hc|exact Hd|lia|lia|]. rewrite drop_zlen_app. unfold decode_name.
    rewrite (proj2 (Z.eqb_neq i 0)) by lia. destruct (lookupIndex t i) as [h al]. cbn [fst snd] in *.
    subst name. rewrite bool_decide_eq_false_2 by done. reflexivity.
Qed.

Lemma decode_literal t m merge lookup p mask name value rest wi :
  rep_mask (RepLiteral wi) p mask -> lr_match lookup <> MatchFull ->
  table_small t -> lookup_sound t name value lookup -> name <> [] -> text_ok name -> text_ok value ->
  decode_step (MkDecoder t m merge) (encode_literal [] lookup p mask name value ++ rest)
  = after_store (MkDecoder t m merge) (MkHeaderView name value) (fun m =>
      if wi then match add t (name_alias t lookup) name value with
                 | inl f => inl f
                 | inr (_, t) => inr (MkDecoder t m merge, inr rest)
                 end
      else inr (MkDecoder t m merge, inr rest)).
Proof.
  intros Hrep Hnf Hsmall Hsound Hne Hname [Hvok Hvlen].
  destruct (decode_name_literal t lookup p mask name value rest wi) as (i & Hc & Hd & Hi & Hn); [done..|].
  rewrite decode_step_classify, Hc.
  replace (if wi then 6 else 4) with p by (destruct wi, Hrep; congruence).
  rewrite Hd. unfold kInvalidIndex. rewrite (proj2 (Z.eqb_neq i _)) by lia. rewrite Hn.
  rewrite decodeString_encode by (done || lia). rewrite drop_zlen_app. reflexivity.
Qed.

(** ** One field *)

(** The field is inserted and the insertion reads the name from a freed buffer. *)
Definition field_hazard (t : HpackDynamicTable) (name value : bytes) (mode : IndexingMode) : bool :=
  match mode, lr_match (findHeader t name value) with
  | _, MatchFull => false
  | Indexed, _ => add_hazard t (name_alias t (findHeader t name value)) name value
  | _, _ => false
  end.

(** The table after the field, on both sides. *)
Definition table_after (t : HpackDynamicTable) (name value : bytes) (mode : IndexingMode)
  : HpackDynamicTable :=
  match mode, lr_match (findHeader t name value) with
  | _, MatchFull => t
  | Indexed, _ =>
      let l := fit (maxSize t) (MkHeaderView name value :: entries t) in
      MkTable l (table_size l) (maxSize t)
  | _, _ => t
  end.

Definition field_ok (name value : bytes) : Prop :=
  name <> [] /\ text_ok name /\ text_ok value /\ name_is_lower name = true.

(** The tables stay small: the maximum size is a 32-bit setting. *)
Definition table_sync (t : HpackDynamicTable) : Prop := table_ok t /\ maxSize t < 2 ^ 32.

Lemma table_sync_small t : table_sync t -> table_small t.
Proof.
  intros [[Hs Hf Hm] Hmax]. unfold table_small. pose proof (table_size_length (entries t)). lia.
Qed.

Lemma table_after_sync t name value mode : table_sync t -> table_sync (table_after t name value mode).
Proof.
  intros [Ht Hm]. pose proof (table_ok_max_nonneg t Ht). unfold table_after.
  destruct mode, (lr_match _); try done; (split; [apply fit_table_ok; lia|done]).
Qed.

Lemma add_hazard_none t name value : add_hazard t None name value = false.
Proof.
  unfold add_hazard. rewrite (bool_decide_eq_false_2 (None = _)) by done.
  by rewrite andb_false_r.
Qed.

Lemma encode_literal_output output lookup p mask name value :
  encode_literal output lookup p mask name value
  = output ++ encode_literal [] lookup p mask name value.
Proof.
  assert (Hs : forall o o' s s', o = output ++ o' ->
    EncodeString (EncodeString o s) s' = output ++ EncodeString (EncodeString o' s) s').
  { intros o o' s s' ->. rewrite (EncodeString_output (EncodeString (output ++ o') s)).
    rewrite (EncodeString_output (output ++ o')), (EncodeString_output (EncodeString o' s)).
    rewrite (EncodeString_output o'). by rewrite <- !app_assoc. }
  unfold encode_literal. destruct (lr_match lookup); [by apply Hs| |by apply Hs].
  rewrite EncodeString_output, (EncodeString_output (EncodeInteger [] _ _ _)).
  by rewrite (EncodeInteger_output output), <- app_assoc.
Qed.

Lemma EncodeString_longer output s : zlen output <= zlen (EncodeString output s).
Proof.
  rewrite EncodeString_output, zlen_app. pose proof (zlen_nonneg (EncodeString [] s)). lia.
Qed.

Lemma encode_literal_nonempty lookup p mask name value :
  1 <= zlen (encode_literal [] lookup p mask name value).
Proof.
  unfold encode_literal. etrans; [|apply EncodeString_longer].
  destruct (lr_match lookup).
  - exact (EncodeString_longer [mask] name).
  - apply EncodeInteger_length.
  - exact (EncodeString_longer [mask] name).
Qed.

(** What the decoder does with the encoding of a field, by cases on the hazard. *)
Definition decodes_to (t : HpackDynamicTable) (name value : bytes) (mode : IndexingMode)
    (chunk : bytes) : Prop :=
  1 <= zlen chunk
  /\ forall m merge rest,
    decode_step (MkDecoder t m merge) (chunk ++ rest)
    = after_store (MkDecoder t m merge) (MkHeaderView name value) (fun m =>
        if field_hazard t name value mode then inl HpackFreed
        else inr (MkDecoder (table_after t name value mode) m merge, inr rest)).

Lemma encode_field_decodes t pending output name value mode :
  table_sync t -> field_ok name value ->
  exists chunk,
    encode_field (MkEncoder t pending) output name value mode
    = Some (MkEncoder (table_after t name value mode) pending, output ++ chunk)
    /\ decodes_to t name value mode chunk.
Proof.
  intros Ht (Hne & Hname & Hvalue & _). pose proof (table_sync_small t Ht) as Hsmall.
  destruct Ht as [Ht Hmax].
  destruct (findHeader_spec t name value Hsmall) as (Hsound & _ & _).
  assert (Hadd : forall al, add t al name value
    = if add_hazard t al name value then inl HpackFreed
      else inr (entry_size (MkHeaderView name value) <=? maxSize t,
                 let l := fit (maxSize t) (MkHeaderView name value :: entries t) in
                 MkTable l (table_size l) (maxSize t))).
  { intros al. apply add_spec; [done|]. destruct Hname, Hvalue. lia. }
  unfold encode_field, decodes_to, table_after, field_hazard.
  destruct (findHeader t name value) as [mt i] eqn:El. cbn [lr_match lr_index].
  destruct (match mt with MatchFull => true | _ => false end) eqn:Hfull.
  - destruct mt; [discriminate Hfull..|]. cbn [lookup_sound] in Hsound. destruct Hsound as [Hi Hh].
    exists (EncodeInteger [] i 7 0x80). rewrite EncodeInteger_output.
    split; [destruct mode; reflexivity|].
    split; [apply EncodeInteger_length|]. intros m merge rest. unfold table_small in Hsmall.
    rewrite (decode_indexed t m merge i (MkHeaderView name value)) by first [lia|assumption].
    destruct mode; reflexivity.
  - set (lookup := MkLookup mt i) in *.
    assert (Hnf : lr_match lookup <> MatchFull) by (destruct mt; [discriminate..|discriminate Hfull]).
    destruct mode.
    + exists (encode_literal [] lookup 6 0x40 name value).
      rewrite Hadd, add_hazard_none, encode_literal_output. split; [destruct mt; [reflexivity..|discriminate Hfull]|].
      split; [apply encode_literal_nonempty|]. intros m merge rest.
      rewrite (decode_literal _ _ _ _ _ _ _ _ _ true) by first [assumption|split; reflexivity]. rewrite Hadd.
      destruct mt; [| |discriminate Hfull]; cbn [lr_match]; destruct (add_hazard _ _ _ _); reflexivity.
    + exists (encode_literal [] lookup 4 0x00 name value).
      rewrite encode_literal_output. split; [destruct mt; [reflexivity..|discriminate Hfull]|].
      split; [apply encode_literal_nonempty|]. intros m merge rest.
      rewrite (decode_literal _ _ _ _ _ _ _ _ _ false) by first [assumption|split; [reflexivity|right; reflexivity]].
      destruct mt; [reflexivity..|discriminate Hfull].
    + exists (encode_literal [] lookup 4 0x10 name value).
      rewrite encode_literal_output. split; [destruct mt; [reflexivity..|discriminate Hfull]|].
      split; [apply encode_literal_nonempty|]. intros m merge rest.
      rewrite (decode_literal _ _ _ _ _ _ _ _ _ false) by first [assumption|split; [reflexivity|left; reflexivity]].
      destruct mt; [reflexivity..|discriminate Hfull].
Qed.

(** ** Header blocks *)

Record field := MkField { f_name : bytes; f_value : bytes; f_mode : IndexingMode }.

Definition fields_ok (fs : list field) : Prop := Forall (fun f => field_ok (f_name f) (f_value f)) fs.

Fixpoint encode_all (e : HpackEncoder) (output : bytes) (fs : list field)
  : option (HpackEncoder * bytes) :=
  match fs with
  | [] => Some (e, output)
  | f :: fs =>
      match encode e output (f_name f) (f_value f) (f_mode f) with
      | None => None
      | Some (e, output) => encode_all e output fs
      end
  end.

Fixpoint store_all (merge : bool) (m : HeadersMap) (fs : list field) : DecodeError + HeadersMap :=
  match fs with
  | [] => inr m
  | f :: fs =>
      match storeHeader merge m (MkHeaderView (f_name f) (f_value f)) with
      | inl e => inl e
      | inr m => store_all merge m fs
      end
  end.

Fixpoint hazard_free (t : HpackDynamicTable) (fs : list field) : bool :=
  match fs with
  | [] => true
  | f :: fs => negb (field_hazard t (f_name f) (f_value f) (f_mode f))
               && hazard_free (table_after t (f_name f) (f_value f) (f_mode f)) fs
  end.

Definition decodes_block (t t' : HpackDynamicTable) (fs : list field) (out : bytes) : Prop :=
  forall fuel m merge, (length out <= fuel)%nat ->
    match store_all merge m fs with
    | inr m' => decode_loop fuel (MkDecoder t m merge) out = inr (MkDecoder t' m' merge, None)
    | inl e => exists d, decode_loop fuel (MkDecoder t m merge) out = inr (d, Some e)
    end.

(** A decoding step that consumes a nonempty chunk. *)
Lemma decode_loop_chunk fuel d chunk rest :
  1 <= zlen chunk -> (length (chunk ++ rest) <= fuel)%nat ->
  exists fuel', (length rest <= fuel')%nat
    /\ decode_loop fuel d (chunk ++ rest)
       = match decode_step d (chunk ++ rest) with
         | inl f => inl f
         | inr (d, inl e) => inr (d, Some e)
         | inr (d, inr data) => decode_loop fuel' d data
         end.
Proof.
  intros Hc Hf. rewrite length_app in Hf. unfold zlen in Hc.
  destruct fuel as [|fuel]; [lia|]. exists fuel. split; [lia|]. cbn [decode_loop].
  rewrite (proj2 (Z.ltb_lt _ _)); [reflexivity|]. unfold zlen. rewrite length_app. lia.
Qed.

Lemma encode_all_decodes fs t output :
  table_sync t -> fields_ok fs -> hazard_free t fs = true ->
  exists t' out,
    encode_all (MkEncoder t kNoPendingUpdate) output fs
    = Some (MkEncoder t' kNoPendingUpdate, output ++ out)
    /\ table_sync t' /\ decodes_block t t' fs out.
Proof.
  intros Ht Hfs. revert t output Ht. induction Hfs as [|f fs Hf Hfs IH]; intros t output Ht Hh.
  { exists t, []. rewrite app_nil_r. split_and!; [done..|].
    intros [|fuel] m merge _; reflexivity. }
  cbn [hazard_free] in Hh. apply andb_true_iff in Hh as [Hz Hh]. apply negb_true_iff in Hz.
  destruct (encode_field_decodes t kNoPendingUpdate output _ _ (f_mode f) Ht Hf)
    as (chunk & He & Hc & Hd).
  destruct (IH _ (output ++ chunk) (table_after_sync t (f_name f) (f_value f) (f_mode f) Ht) Hh)
    as (t' & out & Hall & Ht' & Hb).
  exists t', (chunk ++ out). cbn [encode_all]. unfold encode. cbn [e_pendingTableSizeUpdate].
  rewrite Z.eqb_refl. destruct Hf as (_ & _ & _ & ->). rewrite He, Hall, app_assoc.
  split_and!; [done..|]. intros fuel m merge Hfuel.
  destruct (decode_loop_chunk fuel (MkDecoder t m merge) chunk out Hc Hfuel) as (fuel' & Hf' & ->).
  rewrite Hd, Hz. cbn [store_all]. unfold after_store.
  cbn [d_mergeAllowedForUnknownRequestHeaders d_decodedHeadersMap].
  destruct (storeHeader merge m _) as [e|m']; [by eexists|]. by apply Hb.
Qed.

(** The table once a pending size update has been written, with the first field. *)
Definition table_start (e : HpackEncoder) : HpackDynamicTable :=
  let t := e_dynamicTable e in
  let p := e_pendingTableSizeUpdate e in
  if p =? kNoPendingUpdate then t
  else let l := fit p (entries t) in MkTable l (table_size l) p.

Definition encoder_ok (e : HpackEncoder) : Prop :=
  table_sync (e_dynamicTable e)
  /\ (e_pendingTableSizeUpdate e = kNoPendingUpdate \/ 0 <= e_pendingTableSizeUpdate e < 2 ^ 32).

Lemma encode_pending e output name value mode p :
  encoder_ok e -> e_pendingTableSizeUpdate e = p -> p <> kNoPendingUpdate ->
  encode e output name value mode
  = encode (MkEncoder (table_start e) kNoPendingUpdate) (output ++ EncodeInteger [] p 5 0x20)
      name value mode
  /\ setMaxSize (e_dynamicTable e) p = Some (table_start e) /\ table_sync (table_start e).
Proof.
  intros [[Ht Hmax] Hp] <- Hne. destruct Hp as [?|Hp]; [done|].
  assert (Hset : setMaxSize (e_dynamicTable e) (e_pendingTableSizeUpdate e) = Some (table_start e)).
  { rewrite setMaxSize_spec by (done || lia). unfold table_start.
    by rewrite (proj2 (Z.eqb_neq _ _)) by done. }
  split_and!; [|done|].
  - unfold encode. cbn [e_pendingTableSizeUpdate]. rewrite (proj2 (Z.eqb_neq _ _) Hne), Z.eqb_refl.
    unfold encodeDynamicTableSizeUpdate. rewrite Hset, EncodeInteger_output. reflexivity.
  - unfold table_start. rewrite (proj2 (Z.eqb_neq _ _) Hne). split; [apply fit_table_ok; lia|].
    cbn [maxSize]. lia.
Qed.

(** The whole block. *)
Lemma encoded_block_decodes e fs merge :
  encoder_ok e -> fields_ok fs -> hazard_free (table_start e) fs = true ->
  exists e' out,
    encode_all e [] fs = Some (e', out) /\ encoder_ok e'
    /\ forall d, d_dynamicTable d = e_dynamicTable e ->
         d_mergeAllowedForUnknownRequestHeaders d = merge ->
         match store_all merge [] fs with
         | inr m => decode d out = inr (MkDecoder (e_dynamicTable e') m merge, None)
         | inl err => exists d', decode d out = inr (d', Some err)
         end.
Proof.
  intros He Hfs Hh. destruct fs as [|f fs'] eqn:Efs.
  { exists e, []. split_and!; [done..|]. intros [t m mg] Ht Hm. cbn in Ht, Hm. subst. reflexivity. }
  rewrite <- Efs in *. destruct (decide (e_pendingTableSizeUpdate e = kNoPendingUpdate)) as [Hp|Hp].
  - destruct e as [t p]. cbn [e_pendingTableSizeUpdate] in Hp. subst p.
    unfold table_start in Hh. cbn [e_pendingTableSizeUpdate e_dynamicTable] in Hh.
    rewrite Z.eqb_refl in Hh.
    destruct (encode_all_decodes fs t [] (proj1 He) Hfs Hh) as (t' & out & Hall & Ht' & Hb).
    exists (MkEncoder t' kNoPendingUpdate), out. split_and!; [done|split; [done|by left]|].
    intros [t0 m mg] Ht Hm. cbn [d_dynamicTable d_mergeAllowedForUnknownRequestHeaders e_dynamicTable] in Ht, Hm.
    subst t0 mg. by apply (Hb (length out) [] merge).
  - destruct (encode_pending e [] (f_name f) (f_value f) (f_mode f) _ He eq_refl Hp)
      as (Henc & Hset & Hts).
    set (u := EncodeInteger [] (e_pendingTableSizeUpdate e) 5 0x20) in *.
    destruct (encode_all_decodes fs (table_start e) ([] ++ u) Hts Hfs Hh)
      as (t' & out & Hall & Ht' & Hb).
    exists (MkEncoder t' kNoPendingUpdate), (u ++ out). split_and!.
    + rewrite Efs in *. cbn [encode_all] in *. rewrite Henc. exact Hall.
    + split; [done|by left].
    + intros [t0 m mg] Ht Hm. cbn [d_dynamicTable d_mergeAllowedForUnknownRequestHeaders] in Ht, Hm.
      subst t0 mg. unfold decode. cbn [d_dynamicTable d_mergeAllowedForUnknownRequestHeaders].
      destruct (decode_loop_chunk (length (u ++ out)) (MkDecoder (e_dynamicTable e) [] merge) u out)
        as (fuel' & Hf' & ->); [apply EncodeInteger_length|lia|].
      unfold u at 1 2. destruct He as [_ [?|Hpp]]; [done|].
      rewrite decode_size_update, Hset by lia. by apply (Hb fuel' [] merge).
Qed.

(** C3: header compression round-trips: starting from equal dynamic tables, whatever
    sequence of fields the encoder writes in whatever indexing modes, with or without a
    pending table size update, the decoder reads the whole block without error, recovers
    every field in order (merged by the header policy), and ends with a dynamic table equal
    to the encoder's, so that the next block decodes as well; a duplicate that may not be
    merged is the only error.  The hypothesis [hazard_free] excludes the insertions of
    [aliased_insert_undefined]. *)
Theorem hpack_roundtrip e fs merge :
  encoder_ok e -> fields_ok fs -> hazard_free (table_start e) fs = true ->
  exists e' out,
    encode_all e [] fs = Some (e', out) /\ encoder_ok e'
    /\ forall d, d_dynamicTable d = e_dynamicTable e ->
         d_mergeAllowedForUnknownRequestHeaders d = merge ->
         match store_all merge [] fs with
         | inr m => decode d out = inr (MkDecoder (e_dynamicTable e') m merge, None)
         | inl err => exists d', decode d out = inr (d', Some err)
         end.
Proof. apply encoded_block_decodes. Qed.

Lemma hpack_roundtrip_witness :
  exists e' out,
    encode_all (MkEncoder (new_table 4096) 200) []
      [MkField (str ":method") (str "POST") Indexed; MkField (str "x-id") (str "42") Indexed;
       MkField (str "x-id") (str "43") WithoutIndexing; MkField (str "cookie") (str "s") NeverIndexed]
    = Some (e', out) /\ encoder_ok e'
    /\ forall d, d_dynamicTable d = new_table 4096 ->
         d_mergeAllowedForUnknownRequestHeaders d = true ->
         decode d out = inr (MkDecoder (e_dynamicTable e')
           [(str ":method", str "POST"); (str "x-id", str "42,43"); (str "cookie", str "s")] true, None).
Proof.
  destruct (hpack_roundtrip (MkEncoder (new_table 4096) 200)
    [MkField (str ":method") (str "POST") Indexed; MkField (str "x-id") (str "42") Indexed;
     MkField (str "x-id") (str "43") WithoutIndexing; MkField (str "cookie") (str "s") NeverIndexed] true)
    as (e' & out & H1 & H2 & H3).
  - split; [split; [constructor; cbn; lia|cbn; lia]|right; cbn; lia].
  - repeat constructor; first [discriminate | reflexivity | cbn; lia].
  - vm_compute. reflexivity.
  - exists e', out. split; [exact H1|]. split; [exact H2|]. intros d Hd Hm.
    specialize (H3 d Hd Hm). exact H3.
Defined.

(** the one case that breaks the agreement.  When the name of an inserted field was
    found in the oldest dynamic entry, and the insertion evicts that entry while needing
    more room than it had, the decoder copies the name from a buffer it has just
    reallocated.  The encoder of the same program produces such fields: from equal tables
    it encodes the field, and decoding that encoding is undefined. *)
Theorem aliased_insert_undefined t pending name value mode m merge m' rest :
  table_sync t -> field_ok name value -> field_hazard t name value mode = true ->
  storeHeader merge m (MkHeaderView name value) = inr m' ->
  exists t' chunk,
    encode_field (MkEncoder t pending) [] name value mode = Some (MkEncoder t' pending, chunk)
    /\ decode_step (MkDecoder t m merge) (chunk ++ rest) = inl HpackFreed.
Proof.
  intros Ht Hf Hh Hm.
  destruct (encode_field_decodes t pending [] name value mode Ht Hf) as (chunk & He & _ & Hd).
  eexists _, chunk. split; [exact He|]. rewrite Hd, Hh. unfold after_store.
  cbn [d_mergeAllowedForUnknownRequestHeaders d_decodedHeadersMap]. by rewrite Hm.
Qed.

Definition hazard_table : HpackDynamicTable := MkTable [MkHeaderView (str "x-id") (str "1")] 37 64.

Lemma aliased_insert_undefined_witness :
  add (new_table 64) None (str "x-id") (str "1") = inr (true, hazard_table)
  /\ exists t' chunk,
    encode_field (MkEncoder hazard_table kNoPendingUpdate) [] (str "x-id") (str "a longer value") Indexed
    = Some (MkEncoder t' kNoPendingUpdate, chunk)
    /\ decode_step (MkDecoder hazard_table [] true) (chunk ++ []) = inl HpackFreed.
Proof.
  split; [vm_compute; reflexivity|].
  apply (aliased_insert_undefined hazard_table kNoPendingUpdate (str "x-id") (str "a longer value")
    Indexed [] true [(str "x-id", str "a longer value")] []).
  - split; [constructor; vm_compute; congruence|vm_compute; congruence].
  - repeat constructor; first [discriminate | reflexivity | cbn; lia].
  - vm_compute. reflexivity.
  - reflexivity.
Defined.

(** ** Arbitrary input *)

(** What a successful integer read consumes, and how large the integer can be. *)
Lemma decode_continuation_bounds rest pos value mult :
  bytes_ok rest -> 1 <= pos -> mult = 128 ^ (pos - 1) -> 0 <= value < 128 + mult ->
  let r := decode_continuation rest pos value mult in
  r = invalid_index
  \/ (pos < di_consumed r <= pos + zlen rest /\ 0 <= di_index r < 2 ^ 57).
Proof.
  intros Hr. revert pos value mult. induction Hr as [|b rest Hb Hr IH];
    intros pos value mult Hp Hm Hv; cbn [decode_continuation]; [by left|].
  unfold kMaxContinuationBytes. destruct (Z.ltb_spec 8 pos); [by left|].
  assert (Hm1 : 128 * mult = 128 ^ (pos + 1 - 1)).
  { rewrite Hm. replace (pos + 1 - 1) with (Z.succ (pos - 1)) by lia. rewrite Z.pow_succ_r; lia. }
  assert (128 ^ (pos + 1 - 1) <= 128 ^ 8) by (apply Z.pow_le_mono_r; lia).
  assert (0 < mult) by (rewrite Hm; apply Z.pow_pos_nonneg; lia).
  change (128 ^ 8) with (2 ^ 56) in *. rewrite land_127.
  pose proof (Z.mod_pos_bound b 128 ltac:(lia)).
  rewrite !u64_id by nia. rewrite zlen_cons. pose proof (zlen_nonneg rest).
  destruct (_ =? 0); cbn [di_consumed di_index]; [right; nia|].
  destruct (IH (pos + 1) (value + b mod 128 * mult) (mult * 128)) as [E|[Hq1 Hq2]];
    [lia|lia|nia|by left|right; split; [lia|done]].
Qed.

Lemma DecodeInteger_bounds data p :
  bytes_ok data -> 1 <= p <= 7 ->
  let r := DecodeInteger data p in
  di_index r = kInvalidIndex
  \/ (1 <= di_consumed r <= zlen data /\ 0 <= di_index r < 2 ^ 57).
Proof.
  intros Hd Hp. destruct Hd as [|b rest Hb Hr]; cbn [DecodeInteger]; [by left|].
  destruct (prefix_max p Hp) as [-> Hpow]. pose proof (zlen_nonneg rest). rewrite zlen_cons.
  assert (Hland : 0 <= Z.land b (2 ^ p - 1) < 128).
  { replace (2 ^ p - 1) with (Z.ones p) by (rewrite Z.ones_equiv; lia).
    rewrite Z.land_ones by lia. pose proof (Z.mod_pos_bound b (2 ^ p)). lia. }
  destruct (_ <? _); cbn [di_consumed di_index]; [right; lia|].
  destruct (decode_continuation_bounds rest 1 (Z.land b (2 ^ p - 1)) 1) as [-> |[Hq1 Hq2]];
    [done|lia|done|lia|by left|right; lia].
Qed.

(** Spans below the address space. *)
Definition span_ok (data : bytes) : Prop := bytes_ok data /\ zlen data < 2 ^ 46.

Lemma span_ok_drop k data : span_ok data -> span_ok (drop k data).
Proof.
  intros [Hd Hl]. split; [by apply Forall_drop|]. unfold zlen in *. rewrite length_drop. lia.
Qed.

Lemma decodeString_safe data :
  span_ok data ->
  match decodeString data with
  | StrOk s consumed => bytes_ok s /\ zlen s < 2 ^ 50
  | StrInvalid => True
  | StrFault => False
  end.
Proof.
  intros [Hd Hlen]. unfold decodeString. pose proof (DecodeInteger_bounds data 7 Hd ltac:(lia)) as Hb.
  destruct (DecodeInteger data 7) as [len consumed]. cbv zeta in Hb. cbn [di_index di_consumed] in Hb.
  destruct (Z.eqb_spec len kInvalidIndex) as [|Hne]; [done|]. destruct Hb as [?|[Hc Hl]]; [done|].
  rewrite (u64_id (consumed + len)) by lia. destruct (Z.ltb_spec (zlen data) (consumed + len)); [done|].
  rewrite read_in by lia. assert (Hbody : bytes_ok (subspan consumed len data)) by (by apply Forall_take, Forall_drop).
  assert (Hsub : zlen (subspan consumed len data) = len) by (apply subspan_length; lia).
  destruct (negb _); [|split; [done|lia]].
  pose proof (decodeHuffman_lang _ Hbody) as Hh.
  destruct (decodeHuffman _) as [o| | |] eqn:E; cbn [loop_post] in Hh; [|done..].
  destruct Hh as (s & -> & Hs & q & Hq & HL & _). cbn [app]. split; [done|].
  enough (zlen s <= sum_bits s) by lia. clear - Hs. induction Hs as [|b s Hb Hs IH]; [done|].
  pose proof (clen_bounds b (byte_sym_ok b Hb)). cbn [sum_bits]. rewrite zlen_cons. lia.
Qed.

(** The invariant of a decoder's table: its maximum is what an integer can carry. *)
Definition decoder_ok (d : HpackDecoder) : Prop :=
  table_ok (d_dynamicTable d) /\ maxSize (d_dynamicTable d) < 2 ^ 58.

Lemma entry_in_table t h : h ∈ entries t -> table_ok t -> maxSize t < 2 ^ 58 -> header_size h < 2 ^ 58.
Proof.
  intros Hin [_ Hf _] Hm. enough (header_size h <= table_size (entries t)) by lia.
  clear - Hin. induction Hin as [h l|h x l Hin IH]; cbn [table_size].
  - pose proof (table_size_nonneg l). unfold entry_size. lia.
  - pose proof (entry_size_pos x). lia.
Qed.

#[local] Transparent kStaticTable lookupIndex.
Lemma static_names_short :
  forallb (fun h => header_size h <? 100) kStaticTable = true.
Proof. vm_compute. reflexivity. Qed.

Lemma lookupIndex_size t i :
  table_ok t -> maxSize t < 2 ^ 58 -> header_size (fst (lookupIndex t i)) < 2 ^ 58.
Proof.
  intros Ht Hm. unfold lookupIndex. destruct (i <=? 61); cbn [fst].
  - destruct (nth_in_or_default (Z.to_nat (i - 1)) kStaticTable (MkHeaderView [] [])) as [Hin | ->].
    + pose proof (proj1 (forallb_forall _ _) static_names_short _ Hin) as H. cbn beta in H. lia.
    + done.
  - destruct (entries t !! _) as [h|] eqn:E; cbn [fst]; [|done].
    apply (entry_in_table t); [by eapply list_elem_of_lookup_2|done..].
Qed.
#[local] Opaque kStaticTable lookupIndex.

Lemma decode_name_safe t i data :
  table_ok t -> maxSize t < 2 ^ 58 -> span_ok data ->
  match decode_name t i data with
  | NameOk name _ data' => zlen name < 2 ^ 58 /\ span_ok data' /\ exists k, data' = drop k data
  | NameError _ => True
  | NameFault => False
  end.
Proof.
  intros Ht Hm Hd. unfold decode_name. destruct (i =? 0).
  - pose proof (decodeString_safe data Hd) as Hs. destruct (decodeString data) as [s c| |]; try done.
    split_and!; [lia|by apply span_ok_drop|by eexists].
  - pose proof (lookupIndex_size t i Ht Hm) as Hl. destruct (lookupIndex t i) as [h al]. cbn [fst] in Hl.
    case_bool_decide; [done|]. unfold header_size in Hl. pose proof (zlen_nonneg (hv_value h)).
    split_and!; [lia|done|by exists 0%nat].
Qed.

(** The next item is a literal to index whose name is that of the oldest entry, and whose
    insertion reads this name after the entry's buffer was reallocated. *)
Definition reads_freed_name (d : HpackDecoder) (data : bytes) : Prop :=
  let t := d_dynamicTable d in
  exists index consumed oldest value consumed' m,
    classify (byte_at data 0) = RepLiteral true
    /\ DecodeInteger data 6 = MkDecodedIndex index consumed /\ index <> kInvalidIndex /\ index <> 0
    /\ lookupIndex t index = (oldest, Some (length (entries t) - 1)%nat) /\ hv_name oldest <> []
    /\ decodeString (drop (Z.to_nat consumed) data) = StrOk value consumed'
    /\ storeHeader (d_mergeAllowedForUnknownRequestHeaders d) (d_decodedHeadersMap d)
         (MkHeaderView (hv_name oldest) value) = inr m
    /\ add_hazard t (Some (length (entries t) - 1)%nat) (hv_name oldest) value = true.

(** One step on arbitrary input: it reads a freed name, or keeps the invariant and moves
    forward in the data. *)
Definition step_safe (d : HpackDecoder) (data : bytes)
    (r : hpack_fault + (HpackDecoder * (DecodeError + bytes))) : Prop :=
  match r with
  | inl f => f = HpackFreed /\ reads_freed_name d data
  | inr (d', inl _) => decoder_ok d'
  | inr (d', inr rest) => decoder_ok d' /\ exists k, rest = drop (S k) data
  end.

Lemma drop_consumed c (data : bytes) : 1 <= c -> exists k, drop (Z.to_nat c) data = drop (S k) data.
Proof. intros Hc. exists (Z.to_nat c - 1)%nat. f_equal. lia. Qed.

Lemma step_safe_literal d wi name al value data0 rest k :
  decoder_ok d -> zlen name < 2 ^ 58 -> zlen value < 2 ^ 50 -> rest = drop (S k) data0 ->
  (forall m, wi = true -> storeHeader (d_mergeAllowedForUnknownRequestHeaders d) (d_decodedHeadersMap d) (MkHeaderView name value) = inr m ->
    add_hazard (d_dynamicTable d) al name value = true -> reads_freed_name d data0) ->
  step_safe d data0 (after_store d (MkHeaderView name value) (fun m =>
    if wi : bool then match add (d_dynamicTable d) al name value with
            | inl f => inl f
            | inr (_, t) => inr (MkDecoder t m (d_mergeAllowedForUnknownRequestHeaders d), inr rest)
            end
    else inr (MkDecoder (d_dynamicTable d) m (d_mergeAllowedForUnknownRequestHeaders d), inr rest))).
Proof.
  intros [Ht Hm] Hn Hv -> Hfreed. unfold after_store. destruct (storeHeader _ _ _) as [e|m] eqn:Es; [done|].
  destruct wi; [|split; [done|by eexists]].
  pose proof (table_ok_max_nonneg _ Ht). rewrite add_spec by (done || lia).
  destruct (add_hazard _ _ _ _) eqn:Eh; [split; [done|by apply (Hfreed m)]|].
  split; [|by eexists]. split; [apply fit_table_ok; lia|done].
Qed.

Lemma add_hazard_oldest t al name value :
  add_hazard t al name value = true -> al = Some (length (entries t) - 1)%nat.
Proof. unfold add_hazard. rewrite !andb_true_iff, bool_decide_eq_true. tauto. Qed.

Lemma decode_name_alias t i data name al data' :
  decode_name t i data = NameOk name (Some al) data' ->
  i <> 0 /\ data' = data /\ exists h, lookupIndex t i = (h, Some al) /\ hv_name h = name /\ name <> [].
Proof.
  unfold decode_name. destruct (Z.eqb_spec i 0); [by destruct (decodeString data)|].
  destruct (lookupIndex t i) as [h al0]. case_bool_decide as Hne; [done|]. intros [= <- -> ->].
  split_and!; [done..|]. by exists h.
Qed.

Lemma decode_step_safe d data :
  decoder_ok d -> span_ok data -> step_safe d data (decode_step d data).
Proof.
  intros Hd Hdata. pose proof Hd as [Ht Hm]. pose proof Hdata as [Hb _].
  rewrite decode_step_classify. destruct d as [t m merge].
  cbn [d_dynamicTable] in Ht, Hm.
  destruct (classify (byte_at data 0)) as [| |wi] eqn:Ec.
  - pose proof (DecodeInteger_bounds data 7 Hb ltac:(lia)) as Hi.
    destruct (DecodeInteger data 7) as [i c]. cbv zeta in Hi. cbn [di_index di_consumed] in Hi.
    destruct (Z.eqb_spec i kInvalidIndex); [done|]. destruct Hi as [?|[Hc Hi]]; [done|].
    destruct (i =? 0); [done|]. case_bool_decide; [done|].
    destruct (storeHeader _ _ _) as [e|m']; [done|]. split; [done|apply drop_consumed; lia].
  - pose proof (DecodeInteger_bounds data 5 Hb ltac:(lia)) as Hi.
    destruct (DecodeInteger data 5) as [i c]. cbv zeta in Hi. cbn [di_index di_consumed] in Hi.
    destruct (Z.eqb_spec i kInvalidIndex); [done|]. destruct Hi as [?|[Hc Hi]]; [done|].
    rewrite setMaxSize_spec by (done || lia). split; [|apply drop_consumed; lia].
    split; [apply fit_table_ok; lia|cbn [d_dynamicTable maxSize]; lia].
  - pose proof (DecodeInteger_bounds data (if wi then 6 else 4) Hb ltac:(destruct wi; lia)) as Hi.
    destruct (DecodeInteger data _) as [i c] eqn:Ei. cbv zeta in Hi. cbn [di_index di_consumed] in Hi.
    destruct (Z.eqb_spec i kInvalidIndex); [done|]. destruct Hi as [?|[Hc Hi]]; [done|].
    pose proof (decode_name_safe t i (drop (Z.to_nat c) data) Ht Hm (span_ok_drop _ _ Hdata)) as Hn.
    destruct (decode_name _ _ _) as [name al data1|e|] eqn:En; [|done|done].
    destruct Hn as (Hn & Hd1 & k1 & Ek1). pose proof (decodeString_safe _ Hd1) as Hs.
    destruct (decodeString _) as [value c2| |] eqn:Ev; [|done|done].
    destruct (drop_consumed c data (proj1 Hc)) as [k Ek].
    apply (step_safe_literal (MkDecoder t m merge) wi name al value data _ (k + k1 + Z.to_nat c2)); [done|done|lia| |].
    { rewrite Ek1, Ek, !drop_drop. f_equal. lia. }
    cbn [d_dynamicTable d_decodedHeadersMap d_mergeAllowedForUnknownRequestHeaders].
    intros m' -> Em Eh. pose proof (add_hazard_oldest _ _ _ _ Eh) as ->.
    destruct (decode_name_alias _ _ _ _ _ _ En) as (H0 & -> & h & El & <- & Hne).
    by exists i, c, h, value, c2, m'.
Qed.

(** And conversely. *)
Lemma reads_freed_step d data : decoder_ok d -> span_ok data -> reads_freed_name d data -> decode_step d data = inl HpackFreed.
Proof.
  intros [Ht Hm] Hdata (i & c & h & v & c2 & m' & Hc & Hi & Hn & H0 & Hl & Hne & Hv & Hs & Hh).
  rewrite decode_step_classify. destruct d as [t m merge].
  cbn [d_dynamicTable d_decodedHeadersMap d_mergeAllowedForUnknownRequestHeaders] in *.
  rewrite Hc, Hi, (proj2 (Z.eqb_neq _ _) Hn). unfold decode_name. rewrite (proj2 (Z.eqb_neq _ _) H0), Hl, bool_decide_eq_false_2 by done.
  rewrite Hv, Hs. pose proof (decodeString_safe _ (span_ok_drop (Z.to_nat c) _ Hdata)) as Hvs. rewrite Hv in Hvs.
  pose proof (lookupIndex_size t i Ht Hm) as Hls. rewrite Hl in Hls. unfold header_size in Hls. cbn [fst] in Hls.
  pose proof (zlen_nonneg (hv_value h)). rewrite add_spec, Hh by (done || lia). done.
Qed.

(** The states a block goes through. *)
Inductive decode_steps : HpackDecoder -> bytes -> HpackDecoder -> bytes -> Prop :=
| steps_refl d data : decode_steps d data d data
| steps_one d data d1 rest1 d2 rest2 :
    data <> [] -> decode_step d data = inr (d1, inr rest1) ->
    decode_steps d1 rest1 d2 rest2 -> decode_steps d data d2 rest2.

Lemma decode_loop_safe fuel d data :
  decoder_ok d -> span_ok data -> (length data <= fuel)%nat ->
  match decode_loop fuel d data with
  | inr (d', _) => decoder_ok d'
  | inl f => f = HpackFreed /\ exists d1 rest, decode_steps d data d1 rest /\ rest <> [] /\ reads_freed_name d1 rest
  end.
Proof.
  revert d data. induction fuel as [|fuel IH]; intros d data Hd Hdata Hf.
  { destruct data; [done|simpl in Hf; lia]. }
  cbn [decode_loop]. destruct (Z.ltb_spec 0 (zlen data)) as [Hz|]; [|done].
  assert (Hne : data <> []) by (by intros ->).
  pose proof (decode_step_safe d data Hd Hdata) as Hs.
  destruct (decode_step d data) as [f|[d1 [e|rest]]] eqn:E; cbn [step_safe] in Hs; [|done|].
  - destruct Hs as [-> Hs]. split; [done|]. exists d, data. split; [constructor|done].
  - destruct Hs as [Hd1 [k ->]].
    assert (Hlen : (length (drop (S k) data) <= fuel)%nat) by (rewrite length_drop; lia).
    specialize (IH d1 (drop (S k) data) Hd1 (span_ok_drop _ _ Hdata) Hlen).
    destruct (decode_loop fuel d1 _) as [f|[d2 r]]; [|done].
    destruct IH as (-> & d2 & rest & Hst & Hh). split; [done|].
    exists d2, rest. split; [|done]. by eapply steps_one.
Qed.

Lemma decode_loop_freed fuel d data d1 rest :
  decoder_ok d -> span_ok data -> (length data <= fuel)%nat -> decode_steps d data d1 rest -> rest <> [] ->
  reads_freed_name d1 rest -> decode_loop fuel d data = inl HpackFreed.
Proof.
  intros Hd Hdata Hf Hst Hne Hfreed. revert fuel Hd Hdata Hf.
  induction Hst as [d data|d data d1 rest1 d2 rest2 Hn E Hst IH]; intros fuel Hd Hdata Hf.
  - destruct data; [done|]. destruct fuel as [|fuel]; [simpl in Hf; lia|]. cbn [decode_loop].
    rewrite (proj2 (Z.ltb_lt _ _)) by (rewrite zlen_cons; pose proof (zlen_nonneg data); lia). by rewrite reads_freed_step.
  - destruct data; [done|]. destruct fuel as [|fuel]; [simpl in Hf; lia|]. cbn [decode_loop].
    rewrite (proj2 (Z.ltb_lt _ _)) by (rewrite zlen_cons; pose proof (zlen_nonneg data); lia). rewrite E.
    pose proof (decode_step_safe d _ Hd Hdata) as Hs. rewrite E in Hs. destruct Hs as [Hd1 [k ->]].
    apply IH; [done..|by apply span_ok_drop|]. rewrite length_drop. simpl in *. lia.
Qed.

(** C11: the decoder is safe on arbitrary input, but for one exact case: for any bytes,
    no assertion fails (no string is read past the end of the data, the Huffman decoder fails
    no assertion, the table never evicts from an empty vector), and decoding ends with headers
    or an error, the table invariant holding again.  It reads a freed buffer exactly when some
    item of the block, reached after items that decode, is a literal to index named by the
    oldest entry of the table at that point, whose insertion must evict this entry and needs
    more room than it had. *)
Theorem decode_safe d data :
  decoder_ok d -> span_ok data ->
  decode d data <> inl HpackAssert
  /\ (forall d' e, decode d data = inr (d', e) -> decoder_ok d')
  /\ (decode d data = inl HpackFreed <->
      exists d1 rest,
        decode_steps (MkDecoder (d_dynamicTable d) [] (d_mergeAllowedForUnknownRequestHeaders d)) data d1 rest
        /\ rest <> [] /\ reads_freed_name d1 rest).
Proof.
  intros Hd Hdata. unfold decode. set (d0 := MkDecoder (d_dynamicTable d) [] _).
  assert (Hd0 : decoder_ok d0) by exact Hd. pose proof (decode_loop_safe (length data) d0 data Hd0 Hdata (le_n _)) as H.
  split_and!.
  - intros E. rewrite E in H. by destruct H.
  - intros d' e E. by rewrite E in H.
  - split; [intros E; rewrite E in H; by destruct H|]. intros (d1 & rest & Hst & Hne & Hr). by eapply decode_loop_freed.
Qed.

(** A block that inserts "x-id: 1" in a table of 64 bytes, then a longer value under the name
    of this entry. *)
Definition freed_block : bytes := [0x40; 4] ++ str "x-id" ++ [1] ++ str "1" ++ [0x7e; 14] ++ str "a longer value".

Lemma decode_safe_witness :
  decode (new_decoder 4096 true) [0x40; 0x01; 0x61; 0x7f; 0xff] <> inl HpackAssert
  /\ decode (new_decoder 64 true) freed_block = inl HpackFreed
  /\ exists d1 rest, decode_steps (new_decoder 64 true) freed_block d1 rest /\ rest <> [] /\ reads_freed_name d1 rest.
Proof.
  assert (E : decode (new_decoder 64 true) freed_block = inl HpackFreed) by (vm_compute; reflexivity).
  split; [|split; [exact E|]].
  - apply (decode_safe (new_decoder 4096 true) [0x40; 0x01; 0x61; 0x7f; 0xff]).
    + split; [constructor; cbn; lia|cbn; lia].
    + split; [repeat constructor; done|done].
  - apply (decode_safe (new_decoder 64 true) freed_block); [| |exact E].
    + split; [constructor; cbn; lia|cbn; lia].
    + split; [by apply (bool_decide_unpack _); vm_compute|done].
Defined.
