(* ===== verification/HeadersView.v ===== *)
(** The flat header block view (http/http-headers-view.hpp): lines "name: value CRLF" in one
    buffer, walked by an iterator that recomputes the lengths of each line, and searched for
    a name without walking it.  [SearchCRLF] and [TrimOws] (tech/memory-utils.hpp,
    objects/string-trim.hpp) are here with their only users of this development.

    An iterator that would leave the buffer is [None].  The theorems show that the walk
    inverts the concatenation of well-formed lines and that the search by substring finds
    exactly the names of the block. *)

From S2P Require Import Prelude HpackTables.
Local Open Scope Z_scope.

Definition HeaderSep : bytes := [58; 32].   (* ": " *)
Definition CRLF : bytes := [13; 10].

(** Offset of the first CRLF, or the size. *)
Fixpoint SearchCRLF (l : bytes) : nat :=
  match l with
  | [] => 0%nat
  | a :: rest =>
      match rest with
      | b :: _ => if (a =? 13) && (b =? 10) then 0%nat else S (SearchCRLF rest)
      | [] => 1%nat
      end
  end.

(** [memchr]: offset of the first byte equal to [c]. *)
Fixpoint memchr (c : Z) (l : bytes) : option nat :=
  match l with
  | [] => None
  | a :: l => if a =? c then Some 0%nat else option_map S (memchr c l)
  end.

(** [setLen] on the bytes from [_cur]: the lengths of the name and of the value.  The search
    for the colon starts after the first byte, which is the colon of a pseudo-header. *)
Definition setLen (cur : bytes) : option (nat * nat) :=
  match memchr 58 (drop 1 cur) with
  | None => None
  | Some i =>
      let nameLen := S i in
      let begValue := (nameLen + length HeaderSep)%nat in
      if decide (begValue <= length cur)%nat
      then Some (nameLen, SearchCRLF (drop begValue cur)) else None
  end.

(** The loop [for (const auto& [name, value] : headersView)]; each line has at least four
    bytes besides its name. *)
Fixpoint walk (fuel : nat) (cur : bytes) : option (list HeaderView) :=
  match cur with
  | [] => Some []
  | _ =>
      match fuel with
      | O => None
      | S fuel =>
          match setLen cur with
          | None => None
          | Some (nameLen, valueLen) =>
              let next := (nameLen + length HeaderSep + valueLen + length CRLF)%nat in
              let header := MkHeaderView (take nameLen cur)
                              (take valueLen (drop (nameLen + length HeaderSep) cur)) in
              if decide (next <= length cur)%nat
              then option_map (cons header) (walk fuel (drop next cur)) else None
          end
      end
  end.

Definition headers_of (flat : bytes) : option (list HeaderView) := walk (length flat) flat.

(** [string_view::find(needle, pos)]. *)
Fixpoint find_from (fuel pos : nat) (needle hay : bytes) : option nat :=
  match fuel with
  | O => None
  | S fuel =>
      if decide (pos + length needle <= length hay)%nat then
        if decide (take (length needle) (drop pos hay) = needle) then Some pos
        else find_from fuel (S pos) needle hay
      else None
  end.

(** The loop of [containsCaseSensitive]; the position grows by the size of the needle. *)
Fixpoint contains_loop (fuel pos : nat) (needle flat : bytes) : bool :=
  match fuel with
  | O => false
  | S fuel =>
      match find_from (S (length flat)) pos needle flat with
      | None => false
      | Some pos =>
          if decide (pos = 0%nat \/ (length CRLF <= pos)%nat
                     /\ take (length CRLF) (drop (pos - length CRLF) flat) = CRLF)
          then true
          else contains_loop fuel (pos + length needle) needle flat
      end
  end.

Definition containsCaseSensitive (flat headerNameWithColon : bytes) : bool :=
  contains_loop (S (length flat)) 0 headerNameWithColon flat.

(** [TrimOws]. *)
Definition isWhitespace (ch : Z) : bool := (ch =? 32) || (ch =? 9).

Fixpoint trim_left (l : bytes) : bytes :=
  match l with
  | ch :: r => if isWhitespace ch then trim_left r else l
  | [] => []
  end.

Definition TrimOws (sv : bytes) : bytes :=
  match sv with
  | [] => sv
  | first :: _ =>
      if negb (isWhitespace first) && negb (isWhitespace (List.last sv 0)) then sv
      else rev (trim_left (rev (trim_left sv)))
  end.

(** Trimming keeps a part of the text. *)
Lemma trim_left_suffix l : exists p, l = p ++ trim_left l.
Proof.
  induction l as [|a l IH]; [by exists []|]. cbn [trim_left].
  destruct (isWhitespace a); [|by exists []]. destruct IH as [p Hp]. exists (a :: p). cbn. by f_equal.
Qed.

Lemma TrimOws_infix l : exists p s, l = p ++ TrimOws l ++ s.
Proof.
  unfold TrimOws. destruct l as [|a l]; [by exists [], []|].
  destruct (_ && _); [exists [], []; by rewrite app_nil_r|].
  destruct (trim_left_suffix (a :: l)) as [p Hp].
  destruct (trim_left_suffix (rev (trim_left (a :: l)))) as [q Hq].
  exists p, (rev q). rewrite Hp at 1. f_equal.
  rewrite <- rev_app_distr, <- Hq. by rewrite rev_involutive.
Qed.

(** ** Well-formed lines *)

Definition line_of (h : HeaderView) : bytes := hv_name h ++ HeaderSep ++ hv_value h ++ CRLF.
Definition flatten_headers (hs : list HeaderView) : bytes := concat (map line_of hs).

Definition no_crlf (l : bytes) : Prop := Forall (fun b => b <> 10) l.

(** A name has no colon, except that a pseudo-header starts with one; no field spans
    lines. *)
Definition header_wf (h : HeaderView) : Prop :=
  (exists first rest, hv_name h = first :: rest /\ Forall (fun b => b <> 58) rest)
  /\ no_crlf (hv_name h) /\ no_crlf (hv_value h).

Lemma memchr_app c l k : Forall (fun b => b <> c) l -> memchr c (l ++ c :: k) = Some (length l).
Proof.
  induction 1 as [|a l Ha Hl IH]; cbn; [by rewrite Z.eqb_refl|].
  by rewrite (proj2 (Z.eqb_neq a c)), IH by done.
Qed.

Lemma SearchCRLF_app v k : no_crlf v -> SearchCRLF (v ++ CRLF ++ k) = length v.
Proof.
  induction 1 as [|a v Ha Hv IH]; [done|]. cbn [app SearchCRLF length].
  destruct (v ++ CRLF ++ k) as [|b r] eqn:E; [by destruct v|].
  destruct ((a =? 13) && (b =? 10)) eqn:Eab; [|by rewrite IH].
  apply andb_true_iff in Eab as [_ Hb]. apply Z.eqb_eq in Hb. subst b.
  destruct Hv as [|b v Hb Hv]; cbn in E; [done|]. injection E as -> _. done.
Qed.

Lemma setLen_line h k :
  header_wf h -> setLen (line_of h ++ k) = Some (length (hv_name h), length (hv_value h)).
Proof.
  intros ((f & r & En & Hr) & _ & Hv). unfold setLen.
  assert (El : line_of h ++ k = f :: r ++ 58 :: 32 :: hv_value h ++ CRLF ++ k).
  { unfold line_of. rewrite En, <- !app_assoc. done. }
  rewrite El, En. change (drop 1 (f :: ?x)) with x. rewrite memchr_app by done. cbn [length].
  rewrite decide_True by (cbn; rewrite !length_app; cbn; lia).
  do 2 f_equal.
  replace (f :: r ++ 58 :: 32 :: hv_value h ++ CRLF ++ k)
    with ((f :: r ++ [58; 32]) ++ hv_value h ++ CRLF ++ k) by (cbn; by rewrite <- app_assoc).
  rewrite drop_app_length' by (cbn; rewrite length_app; cbn; lia). by apply SearchCRLF_app.
Qed.

Lemma walk_flatten fuel hs :
  Forall header_wf hs -> (length (flatten_headers hs) <= fuel)%nat ->
  walk fuel (flatten_headers hs) = Some hs.
Proof.
  intros Hs. revert fuel. induction Hs as [|h hs Hh Hs IH]; intros fuel Hf; [by destruct fuel|].
  cbn [flatten_headers concat map] in *. fold (flatten_headers hs) in *.
  rewrite length_app in Hf.
  assert (Hlen : length (line_of h) = (length (hv_name h) + 2 + length (hv_value h) + 2)%nat).
  { unfold line_of. rewrite !length_app. cbn. lia. }
  destruct fuel as [|fuel]; [lia|].
  destruct (line_of h ++ flatten_headers hs) as [|x y] eqn:E.
  { apply (f_equal length) in E. rewrite length_app in E. cbn in E. lia. }
  cbn [walk]. rewrite <- E, setLen_line by done.
  change (length HeaderSep) with 2%nat. change (length CRLF) with 2%nat.
  rewrite <- Hlen, drop_app_length, decide_True by (rewrite length_app; lia).
  rewrite IH by lia. cbn [option_map]. do 2 f_equal. destruct h as [n v]. cbn [hv_name hv_value] in *.
  unfold line_of. cbn [hv_name hv_value]. f_equal.
  - by rewrite <- app_assoc, take_app_length.
  - rewrite <- !app_assoc. rewrite drop_app_add.
    change (drop 2 (HeaderSep ++ ?x)) with x. by rewrite take_app_length.
Qed.

(** ** Search by substring *)

Definition match_at (needle flat : bytes) (pos : nat) : Prop :=
  (pos + length needle <= length flat)%nat /\ take (length needle) (drop pos flat) = needle.

Definition line_start (flat : bytes) (pos : nat) : Prop :=
  pos = 0%nat \/ (length CRLF <= pos)%nat /\ take (length CRLF) (drop (pos - length CRLF) flat) = CRLF.

Lemma find_from_spec fuel pos needle flat :
  (length flat < pos + fuel)%nat -> needle <> [] ->
  match find_from fuel pos needle flat with
  | Some p => (pos <= p)%nat /\ match_at needle flat p
              /\ forall q, (pos <= q < p)%nat -> ~ match_at needle flat q
  | None => forall q, (pos <= q)%nat -> ~ match_at needle flat q
  end.
Proof.
  intros Hf Hne. assert (0 < length needle)%nat by (destruct needle; [done|simpl; lia]).
  revert pos Hf. induction fuel as [|fuel IH]; intros pos Hf; cbn [find_from].
  { intros q Hq [Hm _]. lia. }
  case_decide as Hle; [|intros q Hq [Hm _]; lia].
  case_decide as Hm; [split_and!; [lia|done|lia]|].
  specialize (IH (S pos) ltac:(lia)). destruct (find_from fuel (S pos) needle flat) as [p|].
  - destruct IH as (Hp & Hmp & Hno). split_and!; [lia|done|]. intros q Hq.
    destruct (decide (q = pos)) as [->|]; [intros [_ E]; done|apply Hno; lia].
  - intros q Hq. destruct (decide (q = pos)) as [->|]; [intros [_ E]; done|apply IH; lia].
Qed.

Lemma take_drop_lookup {A} (l k : list A) n pos i :
  take n (drop pos l) = k -> (i < n)%nat -> k !! i = l !! (pos + i)%nat.
Proof. intros <- Hi. by rewrite lookup_take_lt, lookup_drop by lia. Qed.

(** A later match at a line start does not overlap a match that is not at one. *)
Lemma match_line_disjoint needle flat p q :
  no_crlf needle -> match_at needle flat p -> match_at needle flat q -> line_start flat q ->
  (p < q)%nat -> (p + length needle <= q)%nat.
Proof.
  intros Hn [_ Hp] _ [->|[Hq Hcr]] Hlt; [lia|]. change (length CRLF) with 2%nat in *.
  destruct (decide (p + length needle <= q)%nat) as [|Hgt]; [done|]. exfalso.
  pose proof (take_drop_lookup _ _ _ _ 1 Hcr ltac:(lia)) as H1. cbn in H1.
  replace (q - 2 + 1)%nat with (p + (q - 1 - p))%nat in H1 by lia.
  rewrite <- (take_drop_lookup _ _ _ _ _ Hp) in H1 by lia.
  symmetry in H1. eapply Forall_lookup in H1; [|exact Hn]. done.
Qed.

Lemma contains_loop_spec fuel pos needle flat :
  (length flat < pos + fuel)%nat -> needle <> [] -> no_crlf needle ->
  contains_loop fuel pos needle flat = true
  <-> exists q, (pos <= q)%nat /\ match_at needle flat q /\ line_start flat q.
Proof.
  intros Hf Hne Hn. assert (0 < length needle)%nat by (destruct needle; [done|simpl; lia]).
  revert pos Hf. induction fuel as [|fuel IH]; intros pos Hf; cbn [contains_loop].
  { split; [done|]. intros (q & Hq & [Hm _] & _). lia. }
  pose proof (find_from_spec (S (length flat)) pos needle flat ltac:(lia) Hne) as Hs.
  destruct (find_from _ _ _ _) as [p|].
  2:{ split; [done|]. intros (q & Hq & Hm & _). by apply Hs in Hm. }
  destruct Hs as (Hp & Hm & Hno). case_decide as Hl.
  { split; [intros _|done]. by exists p. }
  rewrite IH by lia. split.
  - intros (q & Hq & Hmq & Hlq). exists q. split; [lia|done].
  - intros (q & Hq & Hmq & Hlq). exists q. split; [|done].
    destruct (decide (q < p)%nat); [exfalso; eapply Hno; [|done]; lia|].
    destruct (decide (q = p)) as [->|]; [done|]. by apply (match_line_disjoint needle flat p q); [..|lia].
Qed.

(** The names of the lines are the matches at line starts. *)
Definition name_wf (n : bytes) : Prop :=
  (exists first rest, n = first :: rest /\ Forall (fun b => b <> 58) rest) /\ no_crlf n.

Lemma line_lf h i :
  header_wf h -> line_of h !! i = Some 10 -> S i = length (line_of h).
Proof.
  intros (_ & Hn & Hv) Hi. pose proof (lookup_lt_Some _ _ _ Hi) as Hlt.
  unfold line_of in *. rewrite !app_assoc in *. rewrite length_app in *.
  change (length CRLF) with 2%nat in *. set (body := (hv_name h ++ HeaderSep) ++ hv_value h) in *.
  assert (Hb : no_crlf body) by (subst body; repeat (apply Forall_app; split); try done; repeat constructor; done).
  destruct (decide (i < length body)%nat).
  - rewrite lookup_app_l in Hi by done. eapply Forall_lookup in Hi; [|exact Hb]. done.
  - rewrite lookup_app_r in Hi by lia. destruct (i - length body)%nat as [|[|k]] eqn:E; [done|lia|done].
Qed.

Lemma match_first_line n h k :
  header_wf h -> name_wf n -> match_at (n ++ HeaderSep) (line_of h ++ k) 0 <-> hv_name h = n.
Proof.
  intros ((f & r & En & Hr) & _ & _) ((g & t & -> & Ht) & _). unfold match_at. rewrite drop_0.
  assert (El : line_of h ++ k = f :: r ++ 58 :: 32 :: hv_value h ++ CRLF ++ k).
  { unfold line_of. rewrite En, <- !app_assoc. done. }
  split.
  - intros [_ Hm].
    assert (Hflat : exists z, line_of h ++ k = (g :: t) ++ 58 :: 32 :: z).
    { exists (drop (length ((g :: t) ++ HeaderSep)) (line_of h ++ k)).
      rewrite <- (take_drop (length ((g :: t) ++ HeaderSep)) (line_of h ++ k)) at 1.
      rewrite Hm, <- app_assoc. done. }
    destruct Hflat as [z Hz]. rewrite El in Hz. cbn [app] in Hz. injection Hz as -> Hz.
    pose proof (f_equal (memchr 58) Hz) as Hc. rewrite !memchr_app in Hc by done.
    injection Hc as Hc. rewrite En. f_equal. by apply app_inj_1 in Hz as [-> _].
  - intros Hn. rewrite Hn in En. injection En as <- <-. rewrite El. split.
    + cbn. rewrite !length_app. cbn. lia.
    + replace (g :: t ++ 58 :: 32 :: hv_value h ++ CRLF ++ k)
        with (((g :: t) ++ HeaderSep) ++ hv_value h ++ CRLF ++ k) by (by rewrite <- app_assoc).
      by rewrite take_app_length.
Qed.

Lemma line_start_next h k q :
  header_wf h -> line_start (line_of h ++ k) q -> q <> 0%nat ->
  exists q', q = (length (line_of h) + q')%nat /\ line_start k q'.
Proof.
  intros Hh [->|[Hq Hcr]] Hne; [done|]. change (length CRLF) with 2%nat in *.
  pose proof (take_drop_lookup _ _ _ _ 0 Hcr ltac:(lia)) as H0.
  pose proof (take_drop_lookup _ _ _ _ 1 Hcr ltac:(lia)) as H1.
  cbn in H0, H1. rewrite Nat.add_0_r in H0.
  assert (Hlen : (length (line_of h) <= q)%nat).
  { destruct (decide (q - 2 + 1 < length (line_of h))%nat) as [Hlt|]; [|lia].
    rewrite lookup_app_l in H1 by done. symmetry in H1. apply line_lf in H1; [lia|done]. }
  exists (q - length (line_of h))%nat. split; [lia|].
  destruct (decide (q = length (line_of h))) as [->|Hneq]; [left; lia|].
  assert (Hlast : line_of h !! (length (line_of h) - 1)%nat = Some 10).
  { unfold line_of. rewrite !app_assoc, lookup_app_r by (rewrite !length_app; cbn; lia).
    rewrite !length_app. change (length CRLF) with 2%nat.
    by replace (_ - _)%nat with 1%nat by lia. }
  destruct (decide (q = S (length (line_of h)))) as [->|].
  { exfalso. rewrite lookup_app_l in H0 by lia.
    replace (S (length (line_of h)) - 2)%nat with (length (line_of h) - 1)%nat in H0 by lia.
    rewrite Hlast in H0. done. }
  right. change (length CRLF) with 2%nat. split; [lia|].
  rewrite drop_app_ge in Hcr by lia.
  by replace (q - length (line_of h) - 2)%nat with (q - 2 - length (line_of h))%nat by lia.
Qed.

Lemma line_start_ends_crlf h k : line_start (line_of h ++ k) (length (line_of h)).
Proof.
  right. unfold line_of. rewrite !length_app. change (length CRLF) with 2%nat.
  change (length HeaderSep) with 2%nat. split; [lia|]. rewrite <- !app_assoc.
  replace (length (hv_name h) + (2 + (length (hv_value h) + 2)) - 2)%nat
    with (length (hv_name h ++ HeaderSep ++ hv_value h)) by (rewrite !length_app; cbn; lia).
  rewrite !app_assoc, <- (app_assoc _ CRLF k), drop_app_length' by (by rewrite !length_app). done.
Qed.

Lemma line_start_shift h k q :
  line_start k q -> line_start (line_of h ++ k) (length (line_of h) + q).
Proof.
  intros [->|[Hq Hcr]]; [rewrite Nat.add_0_r; apply line_start_ends_crlf|].
  right. split; [lia|]. change (length CRLF) with 2%nat in *.
  rewrite drop_app_ge by lia.
  by replace (length (line_of h) + q - 2 - length (line_of h))%nat with (q - 2)%nat by lia.
Qed.

Lemma match_at_shift n l k q : match_at n (l ++ k) (length l + q) <-> match_at n k q.
Proof.
  unfold match_at. rewrite length_app, drop_app_add. split; intros [? ?]; (split; [lia|done]).
Qed.

Lemma line_matches_names n hs :
  Forall header_wf hs -> name_wf n ->
  (exists q, match_at (n ++ HeaderSep) (flatten_headers hs) q /\ line_start (flatten_headers hs) q)
  <-> exists h, h ∈ hs /\ hv_name h = n.
Proof.
  intros Hs Hn. induction Hs as [|h hs Hh Hs IH].
  { split; [intros (q & [Hm _] & _)|intros (h & Hh & _); by apply elem_of_nil in Hh].
    rewrite length_app in Hm. cbn in Hm. lia. }
  change (flatten_headers (h :: hs)) with (line_of h ++ flatten_headers hs). split.
  - intros (q & Hm & Hl). destruct (decide (q = 0%nat)) as [->|Hq].
    + apply match_first_line in Hm; [|done..]. exists h. split; [apply elem_of_cons; by left|done].
    + destruct (line_start_next _ _ _ Hh Hl Hq) as (q' & -> & Hl').
      apply match_at_shift in Hm. destruct (proj1 IH) as (h' & Hin & Hname); [by exists q'|].
      exists h'. split; [apply elem_of_cons; by right|done].
  - intros (h' & [-> | Hin]%elem_of_cons & Hname).
    + exists 0%nat. split; [by apply match_first_line|by left].
    + destruct (proj2 IH) as (q & Hm & Hl); [by exists h'|].
      exists (length (line_of h) + q)%nat. split; [by apply match_at_shift|by apply line_start_shift].
Qed.

(** The search finds the names of the block. *)
Lemma contains_iff hs n :
  Forall header_wf hs -> name_wf n ->
  containsCaseSensitive (flatten_headers hs) (n ++ HeaderSep) = true
  <-> exists h, h ∈ hs /\ hv_name h = n.
Proof.
  intros Hs Hn. unfold containsCaseSensitive. rewrite contains_loop_spec.
  - rewrite <- (line_matches_names n hs Hs Hn). split.
    + intros (q & _ & H). by exists q.
    + intros (q & H). exists q. split; [lia|done].
  - lia.
  - destruct n; [|done]. by destruct Hn as [(? & ? & ? & _) _].
  - apply Forall_app. split; [apply Hn|repeat constructor; done].
Qed.

(** the flat header view is faithful to the headers it was built from: walking the
    concatenation of well-formed lines yields exactly the names and values that were
    written, in order, pseudo-headers included; and the substring search finds a name
    followed by the separator exactly when some line has that name, so an occurrence inside
    a value, or as the tail of a longer name, is never taken for a header. *)
Theorem headers_view_correct hs n :
  Forall header_wf hs -> name_wf n ->
  headers_of (flatten_headers hs) = Some hs
  /\ (containsCaseSensitive (flatten_headers hs) (n ++ HeaderSep) = true
      <-> exists h, h ∈ hs /\ hv_name h = n).
Proof.
  intros Hs Hn. split; [by apply walk_flatten|by apply contains_iff].
Qed.

Definition example_headers : list HeaderView :=
  [hdr ":path" "/a:b"; hdr "x-a" "date: none"; hdr "last-date" "1"].

Lemma headers_view_correct_witness :
  headers_of (flatten_headers example_headers) = Some example_headers
  /\ (containsCaseSensitive (flatten_headers example_headers) (str "date" ++ HeaderSep) = true
      <-> exists h, h ∈ example_headers /\ hv_name h = str "date").
Proof.
  apply (headers_view_correct example_headers (str "date")).
  - repeat constructor; try (eexists _, _; split; [reflexivity|]); repeat constructor; done.
  - split; [eexists _, _; split; [reflexivity|]|]; repeat constructor; done.
Defined.

Example contains_not_a_header :
  containsCaseSensitive (flatten_headers example_headers) (str "date" ++ HeaderSep) = false.
Proof. vm_compute. reflexivity. Qed.
