(* ===== verification/Http2Connection.v ===== *)
(** HTTP/2 connections (http2-connection.hpp, http2-connection.cpp, http2-config.cpp): the
    connection preface and SETTINGS exchange, the frame dispatcher and every frame handler,
    the streams map with its FIFO of closed streams, connection flow control, header blocks
    with CONTINUATION, and the sending operations.

    Operations are computations on the connection that may fail: [Undefined] is a failed
    assertion, the use of a stream that the map does not hold, or the use of an iterator or
    reference taken before an insertion in the map or a removal from it; [HpackAliasing] is
    the read of a freed name by the HPACK decoder (HpackRoundtrip.decode_safe).
    The application callbacks are parameters; they run on the connection and may call back
    into it, as the code allows. *)

From S2P Require Import Prelude Http2Frame Http2Stream HpackTables AsciiCase Hpack HeadersView.
Local Open Scope Z_scope.

(** ** Constants *)

Definition kConnectionPrefaceLength : Z := zlen kConnectionPreface.
Definition kClosedStreamsMaxRetained : Z := 16.
Definition kMaxHeaderBlockAccumulationSize : Z := 256 * 1024.
Definition kMaxIdlePriorityFrames : Z := 10000.

(** ** Configuration (the fields the connection uses, and those [validate] checks) *)

Record Http2Config := MkConfig {
  cfg_enablePush : bool; cfg_mergeUnknownRequestHeaders : bool;
  cfg_headerTableSize : Z; cfg_maxConcurrentStreams : Z; cfg_initialWindowSize : Z;
  cfg_maxFrameSize : Z; cfg_maxHeaderListSize : Z; cfg_connectionWindowSize : Z;
  cfg_maxPriorityTreeDepth : Z }.

Definition default_config : Http2Config :=
  MkConfig false true 4096 100 65535 16384 8192 (Z.shiftl 1 20) 256.

(** [validate] throws exactly when this is false. *)
Definition validate (c : Http2Config) : bool :=
  negb ((cfg_maxFrameSize c <? 16384) || (16777215 <? cfg_maxFrameSize c))
  && negb (2147483647 <? cfg_initialWindowSize c)
  && negb (2147483647 <? cfg_connectionWindowSize c)
  && negb (65536 <? cfg_headerTableSize c)
  && negb (cfg_maxHeaderListSize c =? 0)
  && negb (cfg_maxPriorityTreeDepth c =? 0).

Record PeerSettings := MkPeer {
  ps_headerTableSize : Z; ps_enablePush : bool; ps_maxConcurrentStreams : Z;
  ps_initialWindowSize : Z; ps_maxFrameSize : Z; ps_maxHeaderListSize : Z }.

Definition default_peer : PeerSettings := MkPeer 4096 true 100 65535 16384 (2 ^ 32 - 1).

(** ** State *)

Inductive ConnectionState :=
| AwaitingPreface | AwaitingSettings | Open | GoAwaySent | GoAwayReceived | Closed.

#[export] Instance ConnectionState_eq_dec : EqDecision ConnectionState.
Proof. solve_decision. Defined.

Inductive Action := ActContinue | ActOutputReady | ActError | ActGoAway | ActClosed.

#[export] Instance Action_eq_dec : EqDecision Action.
Proof. solve_decision. Defined.

Record ProcessResult := MkResult {
  pr_action : Action; pr_errorCode : ErrorCode; pr_bytesConsumed : Z; pr_errorMessage : bytes }.

Abbreviation StreamsMap := (gmap Z Http2Stream).

(** [c_streamsEpoch] counts the insertions and removals of the streams map.  The map is a flat
    table: a new key may make it grow or move a chain of entries, and [erase] moves the last
    entry of a chain into the erased slot (internal/bytell_hash_map.hpp), so both may move
    entries that iterators and references point to. *)
Record Http2Connection := MkConn {
  c_localSettings : Http2Config;
  c_peerSettings : PeerSettings;
  c_streams : StreamsMap;
  c_closedStreamsFifo : list Z;
  c_headerBlockStreamId : Z;
  c_activeStreamCount : Z;
  c_lastPeerStreamId : Z;
  c_lastLocalStreamId : Z;
  c_goAwayLastStreamId : Z;
  c_idlePriorityFrameCount : Z;
  c_connectionSendWindow : Z;
  c_connectionRecvWindow : Z;
  c_hpackEncoder : HpackEncoder;
  c_hpackDecoder : HpackDecoder;
  c_headerBlockBuffer : bytes;
  c_outputBuffer : bytes;
  c_outputWritePos : Z;
  c_state : ConnectionState;
  c_settingsSent : bool;
  c_settingsAckReceived : bool;
  c_isServer : bool;
  c_expectingContinuation : bool;
  c_headerBlockEndStream : bool;
  c_streamsEpoch : Z }.

Definition set_peerSettings (v : PeerSettings) (c : Http2Connection) : Http2Connection :=
  MkConn (c_localSettings c) v (c_streams c) (c_closedStreamsFifo c) (c_headerBlockStreamId c)
    (c_activeStreamCount c) (c_lastPeerStreamId c) (c_lastLocalStreamId c) (c_goAwayLastStreamId
    c) (c_idlePriorityFrameCount c) (c_connectionSendWindow c) (c_connectionRecvWindow c)
    (c_hpackEncoder c) (c_hpackDecoder c) (c_headerBlockBuffer c) (c_outputBuffer c)
    (c_outputWritePos c) (c_state c) (c_settingsSent c) (c_settingsAckReceived c) (c_isServer c)
    (c_expectingContinuation c) (c_headerBlockEndStream c) (c_streamsEpoch c).
Definition set_streams (v : StreamsMap) (c : Http2Connection) : Http2Connection :=
  MkConn (c_localSettings c) (c_peerSettings c) v (c_closedStreamsFifo c) (c_headerBlockStreamId
    c) (c_activeStreamCount c) (c_lastPeerStreamId c) (c_lastLocalStreamId c)
    (c_goAwayLastStreamId c) (c_idlePriorityFrameCount c) (c_connectionSendWindow c)
    (c_connectionRecvWindow c) (c_hpackEncoder c) (c_hpackDecoder c) (c_headerBlockBuffer c)
    (c_outputBuffer c) (c_outputWritePos c) (c_state c) (c_settingsSent c) (c_settingsAckReceived
    c) (c_isServer c) (c_expectingContinuation c) (c_headerBlockEndStream c) (c_streamsEpoch c).
Definition set_closedStreamsFifo (v : list Z) (c : Http2Connection) : Http2Connection :=
  MkConn (c_localSettings c) (c_peerSettings c) (c_streams c) v (c_headerBlockStreamId c)
    (c_activeStreamCount c) (c_lastPeerStreamId c) (c_lastLocalStreamId c) (c_goAwayLastStreamId
    c) (c_idlePriorityFrameCount c) (c_connectionSendWindow c) (c_connectionRecvWindow c)
    (c_hpackEncoder c) (c_hpackDecoder c) (c_headerBlockBuffer c) (c_outputBuffer c)
    (c_outputWritePos c) (c_state c) (c_settingsSent c) (c_settingsAckReceived c) (c_isServer c)
    (c_expectingContinuation c) (c_headerBlockEndStream c) (c_streamsEpoch c).
Definition set_headerBlockStreamId (v : Z) (c : Http2Connection) : Http2Connection :=
  MkConn (c_localSettings c) (c_peerSettings c) (c_streams c) (c_closedStreamsFifo c) v
    (c_activeStreamCount c) (c_lastPeerStreamId c) (c_lastLocalStreamId c) (c_goAwayLastStreamId
    c) (c_idlePriorityFrameCount c) (c_connectionSendWindow c) (c_connectionRecvWindow c)
    (c_hpackEncoder c) (c_hpackDecoder c) (c_headerBlockBuffer c) (c_outputBuffer c)
    (c_outputWritePos c) (c_state c) (c_settingsSent c) (c_settingsAckReceived c) (c_isServer c)
    (c_expectingContinuation c) (c_headerBlockEndStream c) (c_streamsEpoch c).
Definition set_activeStreamCount (v : Z) (c : Http2Connection) : Http2Connection :=
  MkConn (c_localSettings c) (c_peerSettings c) (c_streams c) (c_closedStreamsFifo c)
    (c_headerBlockStreamId c) v (c_lastPeerStreamId c) (c_lastLocalStreamId c)
    (c_goAwayLastStreamId c) (c_idlePriorityFrameCount c) (c_connectionSendWindow c)
    (c_connectionRecvWindow c) (c_hpackEncoder c) (c_hpackDecoder c) (c_headerBlockBuffer c)
    (c_outputBuffer c) (c_outputWritePos c) (c_state c) (c_settingsSent c) (c_settingsAckReceived
    c) (c_isServer c) (c_expectingContinuation c) (c_headerBlockEndStream c) (c_streamsEpoch c).
Definition set_lastPeerStreamId (v : Z) (c : Http2Connection) : Http2Connection :=
  MkConn (c_localSettings c) (c_peerSettings c) (c_streams c) (c_closedStreamsFifo c)
    (c_headerBlockStreamId c) (c_activeStreamCount c) v (c_lastLocalStreamId c)
    (c_goAwayLastStreamId c) (c_idlePriorityFrameCount c) (c_connectionSendWindow c)
    (c_connectionRecvWindow c) (c_hpackEncoder c) (c_hpackDecoder c) (c_headerBlockBuffer c)
    (c_outputBuffer c) (c_outputWritePos c) (c_state c) (c_settingsSent c) (c_settingsAckReceived
    c) (c_isServer c) (c_expectingContinuation c) (c_headerBlockEndStream c) (c_streamsEpoch c).
Definition set_goAwayLastStreamId (v : Z) (c : Http2Connection) : Http2Connection :=
  MkConn (c_localSettings c) (c_peerSettings c) (c_streams c) (c_closedStreamsFifo c)
    (c_headerBlockStreamId c) (c_activeStreamCount c) (c_lastPeerStreamId c) (c_lastLocalStreamId
    c) v (c_idlePriorityFrameCount c) (c_connectionSendWindow c) (c_connectionRecvWindow c)
    (c_hpackEncoder c) (c_hpackDecoder c) (c_headerBlockBuffer c) (c_outputBuffer c)
    (c_outputWritePos c) (c_state c) (c_settingsSent c) (c_settingsAckReceived c) (c_isServer c)
    (c_expectingContinuation c) (c_headerBlockEndStream c) (c_streamsEpoch c).
Definition set_idlePriorityFrameCount (v : Z) (c : Http2Connection) : Http2Connection :=
  MkConn (c_localSettings c) (c_peerSettings c) (c_streams c) (c_closedStreamsFifo c)
    (c_headerBlockStreamId c) (c_activeStreamCount c) (c_lastPeerStreamId c) (c_lastLocalStreamId
    c) (c_goAwayLastStreamId c) v (c_connectionSendWindow c) (c_connectionRecvWindow c)
    (c_hpackEncoder c) (c_hpackDecoder c) (c_headerBlockBuffer c) (c_outputBuffer c)
    (c_outputWritePos c) (c_state c) (c_settingsSent c) (c_settingsAckReceived c) (c_isServer c)
    (c_expectingContinuation c) (c_headerBlockEndStream c) (c_streamsEpoch c).
Definition set_connectionSendWindow (v : Z) (c : Http2Connection) : Http2Connection :=
  MkConn (c_localSettings c) (c_peerSettings c) (c_streams c) (c_closedStreamsFifo c)
    (c_headerBlockStreamId c) (c_activeStreamCount c) (c_lastPeerStreamId c) (c_lastLocalStreamId
    c) (c_goAwayLastStreamId c) (c_idlePriorityFrameCount c) v (c_connectionRecvWindow c)
    (c_hpackEncoder c) (c_hpackDecoder c) (c_headerBlockBuffer c) (c_outputBuffer c)
    (c_outputWritePos c) (c_state c) (c_settingsSent c) (c_settingsAckReceived c) (c_isServer c)
    (c_expectingContinuation c) (c_headerBlockEndStream c) (c_streamsEpoch c).
Definition set_connectionRecvWindow (v : Z) (c : Http2Connection) : Http2Connection :=
  MkConn (c_localSettings c) (c_peerSettings c) (c_streams c) (c_closedStreamsFifo c)
    (c_headerBlockStreamId c) (c_activeStreamCount c) (c_lastPeerStreamId c) (c_lastLocalStreamId
    c) (c_goAwayLastStreamId c) (c_idlePriorityFrameCount c) (c_connectionSendWindow c) v
    (c_hpackEncoder c) (c_hpackDecoder c) (c_headerBlockBuffer c) (c_outputBuffer c)
    (c_outputWritePos c) (c_state c) (c_settingsSent c) (c_settingsAckReceived c) (c_isServer c)
    (c_expectingContinuation c) (c_headerBlockEndStream c) (c_streamsEpoch c).
Definition set_hpackEncoder (v : HpackEncoder) (c : Http2Connection) : Http2Connection :=
  MkConn (c_localSettings c) (c_peerSettings c) (c_streams c) (c_closedStreamsFifo c)
    (c_headerBlockStreamId c) (c_activeStreamCount c) (c_lastPeerStreamId c) (c_lastLocalStreamId
    c) (c_goAwayLastStreamId c) (c_idlePriorityFrameCount c) (c_connectionSendWindow c)
    (c_connectionRecvWindow c) v (c_hpackDecoder c) (c_headerBlockBuffer c) (c_outputBuffer c)
    (c_outputWritePos c) (c_state c) (c_settingsSent c) (c_settingsAckReceived c) (c_isServer c)
    (c_expectingContinuation c) (c_headerBlockEndStream c) (c_streamsEpoch c).
Definition set_hpackDecoder (v : HpackDecoder) (c : Http2Connection) : Http2Connection :=
  MkConn (c_localSettings c) (c_peerSettings c) (c_streams c) (c_closedStreamsFifo c)
    (c_headerBlockStreamId c) (c_activeStreamCount c) (c_lastPeerStreamId c) (c_lastLocalStreamId
    c) (c_goAwayLastStreamId c) (c_idlePriorityFrameCount c) (c_connectionSendWindow c)
    (c_connectionRecvWindow c) (c_hpackEncoder c) v (c_headerBlockBuffer c) (c_outputBuffer c)
    (c_outputWritePos c) (c_state c) (c_settingsSent c) (c_settingsAckReceived c) (c_isServer c)
    (c_expectingContinuation c) (c_headerBlockEndStream c) (c_streamsEpoch c).
Definition set_headerBlockBuffer (v : bytes) (c : Http2Connection) : Http2Connection :=
  MkConn (c_localSettings c) (c_peerSettings c) (c_streams c) (c_closedStreamsFifo c)
    (c_headerBlockStreamId c) (c_activeStreamCount c) (c_lastPeerStreamId c) (c_lastLocalStreamId
    c) (c_goAwayLastStreamId c) (c_idlePriorityFrameCount c) (c_connectionSendWindow c)
    (c_connectionRecvWindow c) (c_hpackEncoder c) (c_hpackDecoder c) v (c_outputBuffer c)
    (c_outputWritePos c) (c_state c) (c_settingsSent c) (c_settingsAckReceived c) (c_isServer c)
    (c_expectingContinuation c) (c_headerBlockEndStream c) (c_streamsEpoch c).
Definition set_outputBuffer (v : bytes) (c : Http2Connection) : Http2Connection :=
  MkConn (c_localSettings c) (c_peerSettings c) (c_streams c) (c_closedStreamsFifo c)
    (c_headerBlockStreamId c) (c_activeStreamCount c) (c_lastPeerStreamId c) (c_lastLocalStreamId
    c) (c_goAwayLastStreamId c) (c_idlePriorityFrameCount c) (c_connectionSendWindow c)
    (c_connectionRecvWindow c) (c_hpackEncoder c) (c_hpackDecoder c) (c_headerBlockBuffer c) v
    (c_outputWritePos c) (c_state c) (c_settingsSent c) (c_settingsAckReceived c) (c_isServer c)
    (c_expectingContinuation c) (c_headerBlockEndStream c) (c_streamsEpoch c).
Definition set_outputWritePos (v : Z) (c : Http2Connection) : Http2Connection :=
  MkConn (c_localSettings c) (c_peerSettings c) (c_streams c) (c_closedStreamsFifo c)
    (c_headerBlockStreamId c) (c_activeStreamCount c) (c_lastPeerStreamId c) (c_lastLocalStreamId
    c) (c_goAwayLastStreamId c) (c_idlePriorityFrameCount c) (c_connectionSendWindow c)
    (c_connectionRecvWindow c) (c_hpackEncoder c) (c_hpackDecoder c) (c_headerBlockBuffer c)
    (c_outputBuffer c) v (c_state c) (c_settingsSent c) (c_settingsAckReceived c) (c_isServer c)
    (c_expectingContinuation c) (c_headerBlockEndStream c) (c_streamsEpoch c).
Definition set_state (v : ConnectionState) (c : Http2Connection) : Http2Connection :=
  MkConn (c_localSettings c) (c_peerSettings c) (c_streams c) (c_closedStreamsFifo c)
    (c_headerBlockStreamId c) (c_activeStreamCount c) (c_lastPeerStreamId c) (c_lastLocalStreamId
    c) (c_goAwayLastStreamId c) (c_idlePriorityFrameCount c) (c_connectionSendWindow c)
    (c_connectionRecvWindow c) (c_hpackEncoder c) (c_hpackDecoder c) (c_headerBlockBuffer c)
    (c_outputBuffer c) (c_outputWritePos c) v (c_settingsSent c) (c_settingsAckReceived c)
    (c_isServer c) (c_expectingContinuation c) (c_headerBlockEndStream c) (c_streamsEpoch c).
Definition set_settingsSent (v : bool) (c : Http2Connection) : Http2Connection :=
  MkConn (c_localSettings c) (c_peerSettings c) (c_streams c) (c_closedStreamsFifo c)
    (c_headerBlockStreamId c) (c_activeStreamCount c) (c_lastPeerStreamId c) (c_lastLocalStreamId
    c) (c_goAwayLastStreamId c) (c_idlePriorityFrameCount c) (c_connectionSendWindow c)
    (c_connectionRecvWindow c) (c_hpackEncoder c) (c_hpackDecoder c) (c_headerBlockBuffer c)
    (c_outputBuffer c) (c_outputWritePos c) (c_state c) v (c_settingsAckReceived c) (c_isServer c)
    (c_expectingContinuation c) (c_headerBlockEndStream c) (c_streamsEpoch c).
Definition set_settingsAckReceived (v : bool) (c : Http2Connection) : Http2Connection :=
  MkConn (c_localSettings c) (c_peerSettings c) (c_streams c) (c_closedStreamsFifo c)
    (c_headerBlockStreamId c) (c_activeStreamCount c) (c_lastPeerStreamId c) (c_lastLocalStreamId
    c) (c_goAwayLastStreamId c) (c_idlePriorityFrameCount c) (c_connectionSendWindow c)
    (c_connectionRecvWindow c) (c_hpackEncoder c) (c_hpackDecoder c) (c_headerBlockBuffer c)
    (c_outputBuffer c) (c_outputWritePos c) (c_state c) (c_settingsSent c) v (c_isServer c)
    (c_expectingContinuation c) (c_headerBlockEndStream c) (c_streamsEpoch c).
Definition set_expectingContinuation (v : bool) (c : Http2Connection) : Http2Connection :=
  MkConn (c_localSettings c) (c_peerSettings c) (c_streams c) (c_closedStreamsFifo c)
    (c_headerBlockStreamId c) (c_activeStreamCount c) (c_lastPeerStreamId c) (c_lastLocalStreamId
    c) (c_goAwayLastStreamId c) (c_idlePriorityFrameCount c) (c_connectionSendWindow c)
    (c_connectionRecvWindow c) (c_hpackEncoder c) (c_hpackDecoder c) (c_headerBlockBuffer c)
    (c_outputBuffer c) (c_outputWritePos c) (c_state c) (c_settingsSent c) (c_settingsAckReceived
    c) (c_isServer c) v (c_headerBlockEndStream c) (c_streamsEpoch c).
Definition set_headerBlockEndStream (v : bool) (c : Http2Connection) : Http2Connection :=
  MkConn (c_localSettings c) (c_peerSettings c) (c_streams c) (c_closedStreamsFifo c)
    (c_headerBlockStreamId c) (c_activeStreamCount c) (c_lastPeerStreamId c) (c_lastLocalStreamId
    c) (c_goAwayLastStreamId c) (c_idlePriorityFrameCount c) (c_connectionSendWindow c)
    (c_connectionRecvWindow c) (c_hpackEncoder c) (c_hpackDecoder c) (c_headerBlockBuffer c)
    (c_outputBuffer c) (c_outputWritePos c) (c_state c) (c_settingsSent c) (c_settingsAckReceived
    c) (c_isServer c) (c_expectingContinuation c) v (c_streamsEpoch c).

Definition set_streamsEpoch (v : Z) (c : Http2Connection) : Http2Connection :=
  MkConn (c_localSettings c) (c_peerSettings c) (c_streams c) (c_closedStreamsFifo c)
    (c_headerBlockStreamId c) (c_activeStreamCount c) (c_lastPeerStreamId c) (c_lastLocalStreamId
    c) (c_goAwayLastStreamId c) (c_idlePriorityFrameCount c) (c_connectionSendWindow c)
    (c_connectionRecvWindow c) (c_hpackEncoder c) (c_hpackDecoder c) (c_headerBlockBuffer c)
    (c_outputBuffer c) (c_outputWritePos c) (c_state c) (c_settingsSent c) (c_settingsAckReceived
    c) (c_isServer c) (c_expectingContinuation c) (c_headerBlockEndStream c) v.

Definition new_connection (config : Http2Config) (isServer : bool) : Http2Connection :=
  MkConn config default_peer ∅ [] 0 0 0 0 (2 ^ 32 - 1) 0
    (s32 kDefaultInitialWindowSize) (s32 (cfg_connectionWindowSize config))
    (new_encoder (cfg_headerTableSize config))
    (new_decoder (cfg_headerTableSize config) (cfg_mergeUnknownRequestHeaders config))
    [] [] 0 AwaitingPreface false false isServer false false 0.

(** ** Computations *)

Inductive fault := Undefined | HpackAliasing.

Definition M (A : Type) : Type := Http2Connection -> fault + (A * Http2Connection).

Definition ret {A} (a : A) : M A := fun c => inr (a, c).
Definition bind {A B} (m : M A) (k : A -> M B) : M B :=
  fun c => match m c with inl f => inl f | inr (a, c) => k a c end.
Definition fail {A} (f : fault) : M A := fun _ => inl f.
Definition gets {A} (f : Http2Connection -> A) : M A := fun c => inr (f c, c).
Definition modify (f : Http2Connection -> Http2Connection) : M unit := fun c => inr (tt, f c).
Definition assert (b : bool) : M unit := if b then ret tt else fail Undefined.
Definition when (b : bool) (m : M unit) : M unit := if b then m else ret tt.
Definition opt_call {A} (cb : option A) (k : A -> M unit) : M unit :=
  match cb with Some f => k f | None => ret tt end.

Declare Scope conn_scope.
Delimit Scope conn_scope with conn.
Notation "x <- m ;; k" := (bind m (fun x => k))
  (at level 95, m at next level, right associativity) : conn_scope.
Notation "m ;;; k" := (bind m (fun _ => k)) (at level 95, right associativity) : conn_scope.
Local Open Scope conn_scope.

(** The callbacks, each possibly unset. *)
Record Callbacks := MkCallbacks {
  cb_onHeadersDecoded : option (Z -> HeadersMap -> bool -> M unit);
  cb_onData : option (Z -> bytes -> bool -> M unit);
  cb_onStreamReset : option (Z -> ErrorCode -> M unit);
  cb_onStreamClosed : option (Z -> M unit);
  cb_onGoAway : option (Z -> ErrorCode -> bytes -> M unit);
  cb_onWindowUpdate : option (Z -> Z -> M unit) }.

Definition no_callbacks : Callbacks := MkCallbacks None None None None None None.

Definition result (a : Action) : ProcessResult := MkResult a ErrNoError 0 [].

(** Append what a frame writer appends. *)
Definition write (w : bytes -> bytes * Z) : M unit :=
  modify (fun c => set_outputBuffer (fst (w (c_outputBuffer c))) c).

(** [it->second] right after the stream was found. *)
Definition stream_at (streamId : Z) : M Http2Stream :=
  fun c => match c_streams c !! streamId with Some s => inr (s, c) | None => inl Undefined end.
Definition put_stream (streamId : Z) (s : Http2Stream) : M unit :=
  modify (fun c => set_streams (<[streamId := s]> (c_streams c)) c).
Definition insert_stream (streamId : Z) (s : Http2Stream) : M unit :=
  modify (fun c => set_streamsEpoch (c_streamsEpoch c + 1) (set_streams (<[streamId := s]> (c_streams c)) c)).
Definition erase_stream (streamId : Z) : M unit :=
  modify (fun c => set_streamsEpoch (c_streamsEpoch c + 1) (set_streams (delete streamId (c_streams c)) c)).

(** Iterators (and references to entries): valid until the next insertion or removal. *)
Record iterator := MkIterator { it_first : Z; it_epoch : Z }.

(** The iterator of a stream that [find] or [try_emplace] just gave. *)
Definition iterator_at (streamId : Z) : M iterator := gets (fun c => MkIterator streamId (c_streamsEpoch c)).
Definition valid (it : iterator) : M unit :=
  epoch <- gets c_streamsEpoch ;; assert (it_epoch it =? epoch).
(** [it->second] and [it->first]. *)
Definition deref (it : iterator) : M Http2Stream := valid it ;;; stream_at (it_first it).
Definition key (it : iterator) : M Z := valid it ;;; ret (it_first it).

Definition find_stream (streamId : Z) : M (option Http2Stream) :=
  gets (fun c => c_streams c !! streamId).

(** ** Connection lifecycle *)

Definition canCreateStreams (c : Http2Connection) : bool :=
  if ps_maxConcurrentStreams (c_peerSettings c) <=? c_activeStreamCount c then false
  else match c_state c with
       | Open => true
       | AwaitingSettings => negb (c_isServer c)
       | _ => false
       end.

Definition hasPendingOutput (c : Http2Connection) : bool :=
  c_outputWritePos c <? zlen (c_outputBuffer c).

Definition getPendingOutput (c : Http2Connection) : bytes :=
  drop (Z.to_nat (c_outputWritePos c)) (c_outputBuffer c).

Definition onOutputWritten (bytesWritten : Z) : M unit :=
  modify (fun c =>
    let c := set_outputWritePos (u64 (c_outputWritePos c + bytesWritten)) c in
    if zlen (c_outputBuffer c) <=? c_outputWritePos c
    then set_outputWritePos 0 (set_outputBuffer [] c) else c).

Definition initiateGoAway (errorCode : ErrorCode) (debugData : bytes) : M unit :=
  st <- gets c_state ;;
  match st with
  | Closed | GoAwaySent => ret tt
  | _ =>
      lastPeer <- gets c_lastPeerStreamId ;;
      write (fun b => WriteGoAwayFrame b lastPeer errorCode debugData) ;;;
      modify (set_state GoAwaySent) ;;;
      modify (set_goAwayLastStreamId lastPeer)
  end.

Definition local_settings_entries (cfg : Http2Config) : list SettingsEntry :=
  [ MkSettingsEntry SpHeaderTableSize (cfg_headerTableSize cfg);
    MkSettingsEntry SpEnablePush (if cfg_enablePush cfg then 1 else 0);
    MkSettingsEntry SpMaxConcurrentStreams (cfg_maxConcurrentStreams cfg);
    MkSettingsEntry SpInitialWindowSize (cfg_initialWindowSize cfg);
    MkSettingsEntry SpMaxFrameSize (cfg_maxFrameSize cfg);
    MkSettingsEntry SpMaxHeaderListSize (cfg_maxHeaderListSize cfg) ].

Definition sendSettings : M unit :=
  cfg <- gets c_localSettings ;;
  write (fun b => WriteSettingsFrame b (local_settings_entries cfg)) ;;;
  modify (set_settingsSent true) ;;;
  when (kDefaultInitialWindowSize <? cfg_connectionWindowSize cfg)
    (write (fun b => WriteWindowUpdateFrame b 0 (cfg_connectionWindowSize cfg - kDefaultInitialWindowSize))).

Definition sendSettingsAck : M unit := write WriteSettingsAckFrame.

Definition sendServerPreface : M unit :=
  isServer <- gets c_isServer ;; sent <- gets c_settingsSent ;;
  if negb isServer || sent then ret tt else sendSettings.

Definition sendClientPreface : M unit :=
  isServer <- gets c_isServer ;; sent <- gets c_settingsSent ;;
  if isServer || sent then ret tt
  else
    modify (fun c => set_outputBuffer (c_outputBuffer c ++ kConnectionPreface) c) ;;;
    sendSettings ;;;
    modify (set_state AwaitingSettings).

Section Connection.
Context (cbs : Callbacks).

(** ** Closing streams *)

(** [while (_closedStreamsFifo.size() > kClosedStreamsMaxRetained)]. *)
Fixpoint prune_loop (fuel : nat) : M unit :=
  fifo <- gets c_closedStreamsFifo ;;
  if kClosedStreamsMaxRetained <? zlen fifo then
    match fuel, fifo with
    | S fuel, streamId :: fifo =>
        modify (set_closedStreamsFifo fifo) ;;;
        s <- stream_at streamId ;;
        assert (isClosed s) ;;;
        erase_stream streamId ;;;
        prune_loop fuel
    | _, _ => fail Undefined
    end
  else ret tt.

Definition pruneClosedStreams : M unit :=
  fifo <- gets c_closedStreamsFifo ;; prune_loop (length fifo).

Definition closeStream (it : iterator) (errorCode : ErrorCode) : M unit :=
  s <- deref it ;;
  assert (isClosed s) ;;;
  let '(marked, s) := markClosedNotified s in
  if negb marked then ret tt
  else
    let s := if decide (errorCode = ErrNoError) then s else setErrorCode errorCode s in
    put_stream (it_first it) s ;;;
    n <- gets c_activeStreamCount ;;
    assert (negb (n =? 0)) ;;;
    modify (set_activeStreamCount (n - 1)) ;;;
    opt_call (cb_onStreamClosed cbs) (fun f => streamId <- key it ;; f streamId) ;;;
    streamId <- key it ;;
    modify (fun c => set_closedStreamsFifo (c_closedStreamsFifo c ++ [streamId]) c) ;;;
    pruneClosedStreams.

Definition finalizeSendClosedStream (streamId : Z) : M unit :=
  os <- find_stream streamId ;;
  match os with
  | Some s => if isClosed s then it <- iterator_at streamId ;; closeStream it ErrNoError else ret tt
  | None => ret tt
  end.

(** ** Sending *)

Definition sendRstStream (streamId : Z) (errorCode : ErrorCode) : M unit :=
  write (fun b => WriteRstStreamFrame b streamId errorCode) ;;;
  os <- find_stream streamId ;;
  match os with
  | None => ret tt
  | Some s =>
      it <- iterator_at streamId ;;
      put_stream streamId (setErrorCode errorCode (onSendRstStream s)) ;;;
      closeStream it errorCode ;;;
      opt_call (cb_onStreamReset cbs) (fun f => f streamId errorCode)
  end.

Definition sendPing (pingFrame : PingFrame) : M unit := write (fun b => WritePingFrame b pingFrame).

Definition sendWindowUpdate (streamId increment : Z) : M unit :=
  write (fun b => WriteWindowUpdateFrame b streamId increment) ;;;
  if streamId =? 0 then
    modify (fun c =>
      let newWindow := c_connectionRecvWindow c + increment in
      set_connectionRecvWindow (s32 (Z.min newWindow (2 ^ 31 - 1))) c)
  else
    os <- find_stream streamId ;;
    match os with
    | None => ret tt
    | Some s => put_stream streamId (snd (increaseRecvWindow increment s))
    end.

Definition prepareSendHeaders (streamId : Z) (endStream : bool) : M ErrorCode :=
  os <- find_stream streamId ;;
  ok <- match os with
        | Some _ => ret true
        | None =>
            initial <- gets (fun c => ps_initialWindowSize (c_peerSettings c)) ;;
            insert_stream streamId (NewStream streamId initial) ;;;
            can <- gets canCreateStreams ;;
            if can then
              modify (fun c => set_activeStreamCount (u32 (c_activeStreamCount c + 1)) c) ;;; ret true
            else
              erase_stream streamId ;;; ret false
        end ;;
  if ok then
    s <- stream_at streamId ;;
    let '(err, s) := onSendHeaders endStream s in
    put_stream streamId s ;;; ret err
  else ret ErrRefusedStream.

(** The loop [for (offset = 0; offset < data.size();)]: one DATA frame per chunk. *)
Fixpoint write_data_chunks (fuel : nat) (streamId : Z) (maxFrameSize : Z) (endStream : bool)
    (data : bytes) : M unit :=
  match fuel, data with
  | _, [] => ret tt
  | O, _ => fail Undefined
  | S fuel, _ =>
      let chunkSize := Z.min (zlen data) maxFrameSize in
      let isLast := zlen data <=? chunkSize in
      write (fun b => WriteDataFrame b streamId (subspan 0 chunkSize data) (isLast && endStream)) ;;;
      write_data_chunks fuel streamId maxFrameSize endStream (drop (Z.to_nat chunkSize) data)
  end.

Definition sendData (streamId : Z) (data : bytes) (endStream : bool) : M ErrorCode :=
  os <- find_stream streamId ;;
  match os with
  | None => ret ErrProtocolError
  | Some s =>
      if negb (canSend s) then ret ErrStreamClosed
      else
        let dataSize := u32 (zlen data) in
        let '(ok, s) := consumeSendWindow dataSize s in
        if negb ok then ret ErrFlowControlError
        else
          put_stream streamId s ;;;
          window <- gets c_connectionSendWindow ;;
          if window <? dataSize then
            put_stream streamId (snd (increaseSendWindow dataSize s)) ;;; ret ErrFlowControlError
          else
            modify (set_connectionSendWindow (s32 (window - s32 dataSize))) ;;;
            let '(err, s) := onSendData endStream s in
            put_stream streamId s ;;;
            assert (bool_decide (err = ErrNoError)) ;;;
            match data with
            | [] => when endStream (write (fun b => WriteDataFrame b streamId [] true))
            | _ =>
                maxFrameSize <- gets (fun c => ps_maxFrameSize (c_peerSettings c)) ;;
                write_data_chunks (length data) streamId maxFrameSize endStream data
            end ;;;
            ret ErrNoError
  end.

(** ** Errors *)

Definition connectionError (code : ErrorCode) (message : bytes) : M ProcessResult :=
  initiateGoAway code message ;;;
  modify (set_state Closed) ;;;
  ret (MkResult ActError code 0 message).

Definition streamError (streamId : Z) (code : ErrorCode) (message : bytes) : M ProcessResult :=
  sendRstStream streamId code ;;;
  ret (MkResult ActOutputReady code 0 message).

(** ** Header blocks *)

(** [decodeAndEmitHeaders]. *)
Definition decodeAndEmitHeaders (streamId : Z) (headerBlock : bytes) (endStream : bool) : M ErrorCode :=
  decoder <- gets c_hpackDecoder ;;
  match decode decoder headerBlock with
  | inl HpackAssert => fail Undefined
  | inl HpackFreed => fail HpackAliasing
  | inr (decoder, error) =>
      modify (set_hpackDecoder decoder) ;;;
      match error with
      | Some _ => ret ErrCompressionError
      | None =>
          opt_call (cb_onHeadersDecoded cbs)
            (fun f => f streamId (d_decodedHeadersMap decoder) endStream) ;;;
          ret ErrNoError
      end
  end.

(** The end of a header block, from HEADERS or from the last CONTINUATION. *)
Definition finishHeaders (it : iterator) (headerBlock : bytes) (endStream : bool) : M (option ProcessResult) :=
  let streamId := it_first it in
  s <- deref it ;;
  let '(err, s) := onRecvHeaders endStream s in
  put_stream streamId s ;;;
  if bool_decide (err <> ErrNoError) then
    r <- streamError streamId err (str "Invalid stream state for HEADERS") ;; ret (Some r)
  else
    decodeErr <- decodeAndEmitHeaders streamId headerBlock endStream ;;
    if bool_decide (decodeErr <> ErrNoError) then
      r <- connectionError decodeErr (str "HPACK decoding failed") ;; ret (Some r)
    else
      (if endStream then
         s <- deref it ;;
         when (isClosed s) (closeStream it ErrNoError)
       else ret tt) ;;;
      ret None.

(** ** Frame handlers *)

Definition handleDataFrame (header : FrameHeader) (payload : bytes) : M ProcessResult :=
  let streamId := fh_streamId header in
  if streamId =? 0 then connectionError ErrProtocolError (str "DATA frame on stream 0")
  else
    match ParseDataFrame header payload with
    | inl FpInvalidPadding => connectionError ErrProtocolError (str "Invalid padding in DATA frame")
    | inl _ => connectionError ErrFrameSizeError (str "Invalid DATA frame")
    | inr frame =>
        let payloadSize := s32 (zlen payload) in
        window <- gets c_connectionRecvWindow ;;
        if window <? payloadSize then
          connectionError ErrFlowControlError (str "Connection flow control exceeded")
        else
          modify (set_connectionRecvWindow (s32 (window - payloadSize))) ;;;
          os <- find_stream streamId ;;
          match os with
          | None => ret (result ActContinue)
          | Some s =>
              if negb (canReceive s) then
                streamError streamId ErrStreamClosed (str "DATA on closed stream")
              else
                let '(ok, s) := consumeRecvWindow (u32 payloadSize) s in
                if negb ok then
                  streamError streamId ErrFlowControlError (str "Stream flow control exceeded")
                else
                  it <- iterator_at streamId ;;
                  let '(err, s) := onRecvData (df_endStream frame) s in
                  put_stream streamId s ;;;
                  assert (bool_decide (err = ErrNoError)) ;;;
                  opt_call (cb_onData cbs)
                    (fun f => f streamId (df_data frame) (df_endStream frame)) ;;;
                  when (bool_decide (is_Some (cb_onData cbs)) && (0 <? payloadSize))
                    (sendWindowUpdate streamId (u32 payloadSize) ;;;
                     sendWindowUpdate 0 (u32 payloadSize)) ;;;
                  (if df_endStream frame then
                     s <- deref it ;;
                     when (isClosed s) (closeStream it ErrNoError)
                   else ret tt) ;;;
                  ret (result ActContinue)
          end
    end.

(** [try_emplace] with its validation: an error to return, or the stream is in the map. *)
Definition openPeerStream (streamId : Z) : M (option ProcessResult) :=
  os <- find_stream streamId ;;
  match os with
  | Some _ => ret None
  | None =>
      initial <- gets (fun c => ps_initialWindowSize (c_peerSettings c)) ;;
      insert_stream streamId (NewStream streamId initial) ;;;
      isServer <- gets c_isServer ;;
      last <- gets c_lastPeerStreamId ;;
      active <- gets c_activeStreamCount ;;
      max <- gets (fun c => cfg_maxConcurrentStreams (c_localSettings c)) ;;
      let erase := erase_stream streamId in
      if isServer && (Z.land streamId 1 =? 0) then
        erase ;;;
        r <- connectionError ErrProtocolError (str "Server-initiated stream ID from client") ;;
        ret (Some r)
      else if isServer && (streamId <=? last) then
        erase ;;;
        r <- connectionError ErrProtocolError (str "Stream ID not increasing") ;; ret (Some r)
      else if max <=? active then
        erase ;;;
        r <- connectionError ErrProtocolError (str "Max concurrent streams exceeded") ;; ret (Some r)
      else
        modify (set_activeStreamCount (u32 (active + 1))) ;;;
        modify (set_lastPeerStreamId streamId) ;;;
        ret None
  end.

Definition handleHeadersFrame (header : FrameHeader) (payload : bytes) : M ProcessResult :=
  let streamId := fh_streamId header in
  if streamId =? 0 then connectionError ErrProtocolError (str "HEADERS frame on stream 0")
  else
    st <- gets c_state ;; goAwayLast <- gets c_goAwayLastStreamId ;;
    if bool_decide (st = GoAwaySent \/ st = GoAwayReceived) && (goAwayLast <? streamId) then
      ret (result ActContinue)
    else
      match ParseHeadersFrame header payload with
      | inl FpInvalidPadding =>
          connectionError ErrProtocolError (str "Invalid padding in HEADERS frame")
      | inl _ => connectionError ErrFrameSizeError (str "Invalid HEADERS frame")
      | inr frame =>
          opened <- openPeerStream streamId ;;
          match opened with
          | Some r => ret r
          | None =>
              it <- iterator_at streamId ;;
              if hf_hasPriority frame && (hf_streamDependency frame =? streamId) then
                streamError streamId ErrProtocolError (str "Stream depends on itself")
              else
                when (hf_hasPriority frame)
                  (s <- deref it ;;
                   put_stream streamId
                     (setPriority (hf_streamDependency frame) (hf_weight frame) (hf_exclusive frame) s)) ;;;
                if negb (hf_endHeaders frame) then
                  if kMaxHeaderBlockAccumulationSize <? zlen (hf_headerBlockFragment frame) then
                    connectionError ErrEnhanceYourCalm (str "Header block too large")
                  else
                    modify (set_expectingContinuation true) ;;;
                    modify (set_headerBlockStreamId streamId) ;;;
                    modify (set_headerBlockEndStream (hf_endStream frame)) ;;;
                    modify (set_headerBlockBuffer (hf_headerBlockFragment frame)) ;;;
                    ret (result ActContinue)
                else
                  r <- finishHeaders it (hf_headerBlockFragment frame) (hf_endStream frame) ;;
                  match r with
                  | Some r => ret r
                  | None => ret (result ActContinue)
                  end
          end
      end.

Definition handlePriorityFrame (header : FrameHeader) (payload : bytes) : M ProcessResult :=
  let streamId := fh_streamId header in
  if streamId =? 0 then connectionError ErrProtocolError (str "PRIORITY frame on stream 0")
  else
    match ParsePriorityFrame header payload with
    | inl _ => connectionError ErrFrameSizeError (str "Invalid PRIORITY frame")
    | inr frame =>
        if pf_streamDependency frame =? streamId then
          streamError streamId ErrProtocolError (str "Stream depends on itself")
        else
          os <- find_stream streamId ;;
          match os with
          | Some s =>
              put_stream streamId
                (setPriority (pf_streamDependency frame) (pf_weight frame) (pf_exclusive frame) s) ;;;
              ret (result ActContinue)
          | None =>
              modify (fun c => set_idlePriorityFrameCount (u32 (c_idlePriorityFrameCount c + 1)) c) ;;;
              n <- gets c_idlePriorityFrameCount ;;
              if kMaxIdlePriorityFrames <? n then
                connectionError ErrEnhanceYourCalm (str "Too many PRIORITY frames on idle streams")
              else ret (result ActContinue)
          end
    end.

Definition handleRstStreamFrame (header : FrameHeader) (payload : bytes) : M ProcessResult :=
  let streamId := fh_streamId header in
  if streamId =? 0 then connectionError ErrProtocolError (str "RST_STREAM frame on stream 0")
  else
    match ParseRstStreamFrame header payload with
    | inl _ => connectionError ErrFrameSizeError (str "Invalid RST_STREAM frame")
    | inr frame =>
        os <- find_stream streamId ;;
        match os with
        | None => ret (result ActContinue)
        | Some s =>
            it <- iterator_at streamId ;;
            put_stream streamId (setErrorCode (rf_errorCode frame) (onRecvRstStream s)) ;;;
            closeStream it (rf_errorCode frame) ;;;
            opt_call (cb_onStreamReset cbs) (fun f => f streamId (rf_errorCode frame)) ;;;
            ret (result ActContinue)
        end
    end.

(** [for (auto& [id, stream] : _streams)], in the iteration order of the map; stops at the
    first stream that refuses the new window. *)
Fixpoint update_windows (ids : list Z) (newInitialWindowSize : Z) : M ErrorCode :=
  match ids with
  | [] => ret ErrNoError
  | id :: ids =>
      s <- stream_at id ;;
      let '(err, s) := updateInitialWindowSize newInitialWindowSize s in
      put_stream id s ;;;
      if bool_decide (err <> ErrNoError) then ret err else update_windows ids newInitialWindowSize
  end.

Definition with_peer (f : PeerSettings -> PeerSettings) : M unit :=
  modify (fun c => set_peerSettings (f (c_peerSettings c)) c).

(** One iteration of the settings loop: an error to return, if any. *)
Definition applySetting (entry : SettingsEntry) : M (option ProcessResult) :=
  let v := se_value entry in
  match se_id entry with
  | SpHeaderTableSize =>
      with_peer (fun p => MkPeer v (ps_enablePush p) (ps_maxConcurrentStreams p)
                            (ps_initialWindowSize p) (ps_maxFrameSize p) (ps_maxHeaderListSize p)) ;;;
      modify (fun c => set_hpackEncoder (encoder_setMaxDynamicTableSize (c_hpackEncoder c) v) c) ;;;
      ret None
  | SpEnablePush =>
      if 1 <? v then
        r <- connectionError ErrProtocolError (str "Invalid ENABLE_PUSH value") ;; ret (Some r)
      else
        with_peer (fun p => MkPeer (ps_headerTableSize p) (v =? 1) (ps_maxConcurrentStreams p)
                              (ps_initialWindowSize p) (ps_maxFrameSize p) (ps_maxHeaderListSize p)) ;;;
        ret None
  | SpMaxConcurrentStreams =>
      with_peer (fun p => MkPeer (ps_headerTableSize p) (ps_enablePush p) v
                            (ps_initialWindowSize p) (ps_maxFrameSize p) (ps_maxHeaderListSize p)) ;;;
      ret None
  | SpInitialWindowSize =>
      if 0x7FFFFFFF <? v then
        r <- connectionError ErrFlowControlError (str "Initial window size too large") ;; ret (Some r)
      else
        ids <- gets (fun c => map fst (map_to_list (c_streams c))) ;;
        err <- update_windows ids v ;;
        if bool_decide (err <> ErrNoError) then
          r <- connectionError err (str "Window size update overflow") ;; ret (Some r)
        else
          with_peer (fun p => MkPeer (ps_headerTableSize p) (ps_enablePush p) (ps_maxConcurrentStreams p)
                                v (ps_maxFrameSize p) (ps_maxHeaderListSize p)) ;;;
          ret None
  | SpMaxFrameSize =>
      if (v <? 16384) || (16777215 <? v) then
        r <- connectionError ErrProtocolError (str "Invalid MAX_FRAME_SIZE") ;; ret (Some r)
      else
        with_peer (fun p => MkPeer (ps_headerTableSize p) (ps_enablePush p) (ps_maxConcurrentStreams p)
                              (ps_initialWindowSize p) v (ps_maxHeaderListSize p)) ;;;
        ret None
  | SpMaxHeaderListSize =>
      with_peer (fun p => MkPeer (ps_headerTableSize p) (ps_enablePush p) (ps_maxConcurrentStreams p)
                            (ps_initialWindowSize p) (ps_maxFrameSize p) v) ;;;
      ret None
  | SpOther _ => ret None
  end.

Fixpoint applySettings (entries : list SettingsEntry) : M (option ProcessResult) :=
  match entries with
  | [] => ret None
  | entry :: entries =>
      r <- applySetting entry ;;
      match r with Some r => ret (Some r) | None => applySettings entries end
  end.

(** "If we were awaiting settings, now we're open". *)
Definition openIfAwaiting : M unit :=
  st <- gets c_state ;; when (bool_decide (st = AwaitingSettings)) (modify (set_state Open)).

Definition handleSettingsFrame (header : FrameHeader) (payload : bytes) : M ProcessResult :=
  if negb (fh_streamId header =? 0) then
    connectionError ErrProtocolError (str "SETTINGS frame on non-zero stream")
  else
    match ParseSettingsFrame header payload with
    | inl _ => connectionError ErrFrameSizeError (str "Invalid SETTINGS frame")
    | inr frame =>
        if sf_isAck frame then
          openIfAwaiting ;;;
          modify (set_settingsAckReceived true) ;;;
          ret (result ActContinue)
        else
          r <- applySettings (sf_entries frame) ;;
          match r with
          | Some r => ret r
          | None => sendSettingsAck ;;; openIfAwaiting ;;; ret (result ActOutputReady)
          end
    end.

Definition handlePingFrame (header : FrameHeader) (payload : bytes) : M ProcessResult :=
  if negb (fh_streamId header =? 0) then
    connectionError ErrProtocolError (str "PING frame on non-zero stream")
  else
    match ParsePingFrame header payload with
    | inl _ => connectionError ErrFrameSizeError (str "Invalid PING frame")
    | inr frame =>
        if negb (pg_isAck frame) then
          write (fun b => WritePingFrame b (MkPingFrame (pg_opaqueData frame) true)) ;;;
          ret (result ActOutputReady)
        else ret (result ActContinue)
    end.

Definition handleGoAwayFrame (header : FrameHeader) (payload : bytes) : M ProcessResult :=
  if negb (fh_streamId header =? 0) then
    connectionError ErrProtocolError (str "GOAWAY frame on non-zero stream")
  else
    match ParseGoAwayFrame header payload with
    | inl _ => connectionError ErrFrameSizeError (str "Invalid GOAWAY frame")
    | inr frame =>
        modify (set_state GoAwayReceived) ;;;
        modify (set_goAwayLastStreamId (ga_lastStreamId frame)) ;;;
        opt_call (cb_onGoAway cbs)
          (fun f => f (ga_lastStreamId frame) (ga_errorCode frame) (ga_debugData frame)) ;;;
        ret (result ActGoAway)
    end.

Definition handleWindowUpdateFrame (header : FrameHeader) (payload : bytes) : M ProcessResult :=
  let streamId := fh_streamId header in
  match ParseWindowUpdateFrame payload with
  | inl _ => connectionError ErrFrameSizeError (str "Invalid WINDOW_UPDATE frame")
  | inr frame =>
      let increment := wu_windowSizeIncrement frame in
      let notify :=
        opt_call (cb_onWindowUpdate cbs) (fun f => f streamId increment) ;;;
        ret (result ActContinue) in
      if increment =? 0 then
        if streamId =? 0 then
          connectionError ErrProtocolError (str "Zero WINDOW_UPDATE increment on connection")
        else streamError streamId ErrProtocolError (str "Zero WINDOW_UPDATE increment")
      else if streamId =? 0 then
        window <- gets c_connectionSendWindow ;;
        let newWindow := window + increment in
        if 0x7FFFFFFF <? newWindow then
          connectionError ErrFlowControlError (str "Connection window overflow")
        else modify (set_connectionSendWindow (s32 newWindow)) ;;; notify
      else
        os <- find_stream streamId ;;
        match os with
        | None => notify
        | Some s =>
            let '(err, s) := increaseSendWindow increment s in
            put_stream streamId s ;;;
            if bool_decide (err <> ErrNoError) then
              streamError streamId err (str "Stream window overflow")
            else notify
        end
  end.

Definition handleContinuationFrame (header : FrameHeader) (payload : bytes) : M ProcessResult :=
  expecting <- gets c_expectingContinuation ;;
  blockStream <- gets c_headerBlockStreamId ;;
  if negb expecting then connectionError ErrProtocolError (str "Unexpected CONTINUATION frame")
  else if negb (fh_streamId header =? blockStream) then
    connectionError ErrProtocolError (str "CONTINUATION on wrong stream")
  else
    let frame := ParseContinuationFrame header payload in
    buffered <- gets c_headerBlockBuffer ;;
    if kMaxHeaderBlockAccumulationSize <? zlen buffered + zlen (cf_headerBlockFragment frame) then
      connectionError ErrEnhanceYourCalm (str "Header block too large")
    else
      let block := buffered ++ cf_headerBlockFragment frame in
      modify (set_headerBlockBuffer block) ;;;
      if negb (cf_endHeaders frame) then ret (result ActContinue)
      else
        modify (set_expectingContinuation false) ;;;
        os <- find_stream blockStream ;;
        match os with
        | None => connectionError ErrInternalError (str "Stream not found for CONTINUATION")
        | Some _ =>
            it <- iterator_at blockStream ;;
            endStream <- gets c_headerBlockEndStream ;;
            r <- finishHeaders it block endStream ;;
            match r with
            | Some r => ret r
            | None =>
                modify (set_headerBlockBuffer []) ;;;
                modify (set_headerBlockStreamId 0) ;;;
                ret (result ActContinue)
            end
        end.

(** ** Dispatch *)

Definition processFrame (header : FrameHeader) (payload : bytes) : M ProcessResult :=
  expecting <- gets c_expectingContinuation ;;
  if expecting && negb (bool_decide (fh_type header = FtContinuation)) then
    connectionError ErrProtocolError (str "Expected CONTINUATION frame")
  else
    match fh_type header with
    | FtData => handleDataFrame header payload
    | FtHeaders => handleHeadersFrame header payload
    | FtPriority => handlePriorityFrame header payload
    | FtRstStream => handleRstStreamFrame header payload
    | FtSettings => handleSettingsFrame header payload
    | FtPushPromise => connectionError ErrProtocolError (str "Unexpected PUSH_PROMISE")
    | FtPing => handlePingFrame header payload
    | FtGoAway => handleGoAwayFrame header payload
    | FtWindowUpdate => handleWindowUpdateFrame header payload
    | FtContinuation => handleContinuationFrame header payload
    | FtUnknown | FtOther _ => ret (result ActContinue)
    end.

Definition with_consumed (n : Z) (r : ProcessResult) : ProcessResult :=
  MkResult (pr_action r) (pr_errorCode r) n (pr_errorMessage r).

Definition goes_on (a : Action) : bool :=
  match a with ActContinue | ActOutputReady => true | _ => false end.

(** The frame at the front of the data, when it is complete. *)
Fixpoint processFrames_loop (fuel : nat) (data : bytes) (totalConsumed : Z) : M ProcessResult :=
  let finish :=
    pending <- gets hasPendingOutput ;;
    ret (MkResult (if pending then ActOutputReady else ActContinue) ErrNoError totalConsumed []) in
  if zlen data <? kFrameHeaderSize then finish
  else
    match fuel with
    | O => fail Undefined
    | S fuel =>
        let header := ParseFrameHeader data in
        maxFrameSize <- gets (fun c => cfg_maxFrameSize (c_localSettings c)) ;;
        if maxFrameSize <? fh_length header then
          connectionError ErrFrameSizeError (str "Frame exceeds maximum size")
        else
          let totalFrameSize := kFrameHeaderSize + fh_length header in
          if zlen data <? totalFrameSize then finish
          else
            let payload := subspan kFrameHeaderSize (fh_length header) data in
            result <- processFrame header payload ;;
            let totalConsumed := totalConsumed + totalFrameSize in
            if negb (goes_on (pr_action result)) then ret (with_consumed totalConsumed result)
            else processFrames_loop fuel (drop (Z.to_nat totalFrameSize) data) totalConsumed
    end.

(** Every frame takes at least nine bytes. *)
Definition processFrames (data : bytes) : M ProcessResult :=
  processFrames_loop (length data) data 0.

Definition processPreface (data : bytes) : M ProcessResult :=
  isServer <- gets c_isServer ;;
  if isServer then
    if zlen data <? kConnectionPrefaceLength then ret (result ActContinue)
    else if negb (bool_decide (take (Z.to_nat kConnectionPrefaceLength) data = kConnectionPreface)) then
      connectionError ErrProtocolError (str "Invalid connection preface")
    else
      modify (set_state AwaitingSettings) ;;;
      sent <- gets c_settingsSent ;;
      when (negb sent) sendSettings ;;;
      ret (MkResult ActOutputReady ErrNoError kConnectionPrefaceLength [])
  else
    modify (set_state AwaitingSettings) ;;;
    ret (result ActContinue).

Definition processInput (data : bytes) : M ProcessResult :=
  match data with
  | [] => ret (result ActContinue)
  | _ =>
      st <- gets c_state ;;
      match st with
      | AwaitingPreface => processPreface data
      | AwaitingSettings | Open | GoAwaySent | GoAwayReceived => processFrames data
      | Closed => ret (result ActClosed)
      end
  end.

(** ** Sending headers *)

Definition encode_header (name value : bytes) : M unit :=
  fun c =>
    match encode (c_hpackEncoder c) (c_outputBuffer c) name value Indexed with
    | None => inl Undefined
    | Some (e, out) => inr (tt, set_outputBuffer out (set_hpackEncoder e c))
    end.

(** [writeStatusCode]: three digits. *)
Definition status_digits (status : Z) : bytes :=
  [49 + (status - 100) / 100; 48 + status mod 100 / 10; 48 + status mod 10].

Definition MagicForHttpRequest : Z := -1.

(** The loop over [headersView]: the first header of a request is skipped, every other name
    is lower-cased in place. *)
Fixpoint encode_headers_view (hs : list HeaderView) (skipHostHeader : bool) : M unit :=
  match hs with
  | [] => ret tt
  | h :: hs =>
      if skipHostHeader then
        assert (bool_decide (hv_name h = str "host")) ;;; encode_headers_view hs false
      else
        let name := tolower_buf false 0 (hv_name h) (length (hv_name h)) in
        encode_header name (TrimOws (hv_value h)) ;;;
        encode_headers_view hs false
  end.

(** The headers view once its names were lower-cased. *)
Definition lowered_view (hs : list HeaderView) (skipHostHeader : bool) : bytes :=
  let lower h := MkHeaderView (tolower_buf false 0 (hv_name h) (length (hv_name h))) (hv_value h) in
  flatten_headers
    (match hs with
     | h :: r => if skipHostHeader then h :: map lower r else map lower hs
     | [] => []
     end).

Fixpoint encode_global_headers (flat : bytes) (globals : list bytes) : M unit :=
  match globals with
  | [] => ret tt
  | kv :: globals =>
      match find_from (S (length kv)) 0 HeaderSep kv with
      | None => fail Undefined
      | Some colonPos =>
          if containsCaseSensitive flat (take (colonPos + length HeaderSep) kv)
          then encode_global_headers flat globals
          else
            let name := take colonPos kv in
            assert (name_is_lower name) ;;;
            encode_header name (TrimOws (drop (colonPos + length HeaderSep) kv)) ;;;
            encode_global_headers flat globals
      end
  end.

(** [for (offset = 0; offset < remainingHeaderBlockSize;)]. *)
Fixpoint write_continuations (fuel : nat) (streamId maxFrameSize : Z) (remaining : bytes) : M unit :=
  match fuel, remaining with
  | _, [] => ret tt
  | O, _ => fail Undefined
  | S fuel, _ =>
      let chunkSize := Z.min (zlen remaining) maxFrameSize in
      let isLast := zlen remaining <=? chunkSize in
      write (fun b => WriteContinuationFrame b streamId (subspan 0 chunkSize remaining) isLast) ;;;
      write_continuations fuel streamId maxFrameSize (drop (Z.to_nat chunkSize) remaining)
  end.

(** The framing of a header block that starts at [oldSize] of the output buffer, behind the
    nine reserved bytes of its frame header. *)
Definition frame_header_block (streamId : Z) (endStream : bool) (oldSize : Z) : M unit :=
  out <- gets c_outputBuffer ;;
  maxFrameSize <- gets (fun c => ps_maxFrameSize (c_peerSettings c)) ;;
  let block := drop (Z.to_nat oldSize) out in
  let headerBlockSize := u32 (zlen block) in
  let before := take (Z.to_nat (oldSize - kFrameHeaderSize)) out in
  if headerBlockSize <=? maxFrameSize then
    let flags := ComputeHeaderFrameFlags endStream true FlagNone in
    modify (set_outputBuffer
      (before ++ WriteFrameHeader (MkFrameHeader headerBlockSize FtHeaders flags streamId) ++ block))
  else
    let flags := ComputeHeaderFrameFlags endStream false FlagNone in
    modify (set_outputBuffer
      (fst (WriteFrame before FtHeaders flags streamId maxFrameSize)
       ++ take (Z.to_nat maxFrameSize) block)) ;;;
    write_continuations (length block) streamId maxFrameSize (drop (Z.to_nat maxFrameSize) block).

(** [encodeHeaders]; [hs] is the walk of [headersView]. *)
Definition encodeHeaders (streamId statusCode : Z) (headersView : bytes) (endStream : bool)
    (oldSize : Z) (pGlobalHeaders : option (list bytes)) : M unit :=
  assert ((statusCode =? 0) || (statusCode =? MagicForHttpRequest)
          || ((100 <=? statusCode) && (statusCode <=? 999))) ;;;
  when (100 <=? statusCode) (encode_header (str ":status") (status_digits statusCode)) ;;;
  let skipHostHeader := statusCode =? MagicForHttpRequest in
  match headers_of headersView with
  | None => fail Undefined
  | Some hs =>
      encode_headers_view hs skipHostHeader ;;;
      match pGlobalHeaders with
      | None => ret tt
      | Some globals => encode_global_headers (lowered_view hs skipHostHeader) globals
      end ;;;
      frame_header_block streamId endStream oldSize
  end.

(** [addSize(FrameHeader::kSize)]: the reserved bytes are overwritten by the frame header. *)
Definition reserve_frame_header : M Z :=
  modify (fun c => set_outputBuffer (c_outputBuffer c ++ replicate 9 0) c) ;;;
  gets (fun c => zlen (c_outputBuffer c)).

Definition sendHeaders (streamId statusCode : Z) (headersView : bytes) (endStream : bool)
    (pGlobalHeaders : option (list bytes)) : M ErrorCode :=
  err <- prepareSendHeaders streamId endStream ;;
  if bool_decide (err <> ErrNoError) then ret err
  else
    oldSize <- reserve_frame_header ;;
    encodeHeaders streamId statusCode headersView endStream oldSize pGlobalHeaders ;;;
    ret err.

(** [method] is the method's name. *)
Definition sendRequestHeaders (streamId : Z) (method : bytes) (isTlsRequest : bool)
    (target authority headersView : bytes) (endStream : bool)
    (pGlobalHeaders : option (list bytes)) : M ErrorCode :=
  err <- prepareSendHeaders streamId endStream ;;
  if bool_decide (err <> ErrNoError) then ret err
  else
    oldSize <- reserve_frame_header ;;
    match target with
    | [] => ret tt
    | _ =>
        encode_header (str ":method") method ;;;
        encode_header (str ":scheme") (str (if isTlsRequest then "https" else "http")) ;;;
        encode_header (str ":authority") authority ;;;
        encode_header (str ":path") target
    end ;;;
    encodeHeaders streamId (match target with [] => 0 | _ => MagicForHttpRequest end)
      headersView endStream oldSize pGlobalHeaders ;;;
    ret err.
End Connection.
