(* ===== verification/Http2ConnInv.v ===== *)
(** The invariant of HTTP/2 connections (Http2Connection) and its preservation: a weakest
    precondition calculus for the computations, the well-formedness of a connection, and one
    lemma per operation and per frame handler.  Callbacks are constrained only by what the
    code itself relies on when it calls them. *)

From S2P Require Import Prelude Http2Frame Http2Stream HpackTables AsciiCase Hpack HpackProofs.
From S2P Require Import HpackRoundtrip HeadersView Http2Connection.
Local Open Scope Z_scope.
Local Open Scope conn_scope.

(** ** Weakest preconditions *)

(** [Undefined] is excluded; the freed name of HPACK is the one fault allowed. *)
Definition wp {A} (m : M A) (Q : A -> Http2Connection -> Prop) (c : Http2Connection) : Prop :=
  match m c with
  | inl Undefined => False
  | inl HpackAliasing => True
  | inr (a, c') => Q a c'
  end.

Lemma wp_bind {A B} (m : M A) (k : A -> M B) Q c :
  wp m (fun a => wp (k a) Q) c -> wp (bind m k) Q c.
Proof. unfold wp, bind. by destruct (m c) as [[]|[a c']]. Qed.

Lemma wp_ret {A} (a : A) Q c : Q a c -> wp (ret a) Q c.
Proof. done. Qed.

Lemma wp_gets {A} (f : Http2Connection -> A) Q c : Q (f c) c -> wp (gets f) Q c.
Proof. done. Qed.

Lemma wp_modify f Q c : Q tt (f c) -> wp (modify f) Q c.
Proof. done. Qed.

Lemma wp_assert b Q c : b = true -> Q tt c -> wp (assert b) Q c.
Proof. by intros ->. Qed.

Lemma wp_stream_at id Q c s :
  c_streams c !! id = Some s -> Q s c -> wp (stream_at id) Q c.
Proof. intros E HQ. unfold wp, stream_at. by rewrite E. Qed.

(** A valid iterator to a stream of the map. *)
Definition points_to (it : iterator) (c : Http2Connection) : Prop :=
  it_epoch it = c_streamsEpoch c /\ is_Some (c_streams c !! it_first it).

Lemma wp_valid it Q c : it_epoch it = c_streamsEpoch c -> Q tt c -> wp (valid it) Q c.
Proof. intros E HQ. unfold wp, valid, bind, gets. by rewrite E, Z.eqb_refl. Qed.

Lemma wp_deref it Q c s :
  it_epoch it = c_streamsEpoch c -> c_streams c !! it_first it = Some s -> Q s c -> wp (deref it) Q c.
Proof. intros E Es HQ. unfold deref. apply wp_bind, wp_valid; [done|]. by eapply wp_stream_at. Qed.

Lemma wp_key it Q c : it_epoch it = c_streamsEpoch c -> Q (it_first it) c -> wp (key it) Q c.
Proof. intros E HQ. unfold key. by apply wp_bind, wp_valid. Qed.

Lemma wp_mono {A} (m : M A) (Q Q' : A -> Http2Connection -> Prop) c :
  wp m Q c -> (forall a c', Q a c' -> Q' a c') -> wp m Q' c.
Proof. unfold wp. intros H HQ. destruct (m c) as [[]|[a c']]; auto. Qed.

Lemma wp_when b m Q c :
  (b = true -> wp m Q c) -> (b = false -> Q tt c) -> wp (when b m) Q c.
Proof. destruct b; cbn; auto. Qed.

(** Symbolic execution of the structural steps. *)
Ltac wstep :=
  lazymatch goal with
  | |- wp (bind _ _) _ _ => apply wp_bind
  | |- wp (ret _) _ _ => apply wp_ret
  | |- wp (gets _) _ _ => apply wp_gets
  | |- wp (find_stream _) _ _ => unfold find_stream; apply wp_gets
  | |- wp (put_stream _ _) _ _ => unfold put_stream; apply wp_modify
  | |- wp (insert_stream _ _) _ _ => unfold insert_stream; apply wp_modify
  | |- wp (erase_stream _) _ _ => unfold erase_stream; apply wp_modify
  | |- wp (iterator_at _) _ _ => unfold iterator_at; apply wp_gets
  | |- wp (write _) _ _ => unfold write; apply wp_modify
  | |- wp (modify _) _ _ => apply wp_modify
  end; cbv beta.
Ltac wsteps := repeat wstep.

(** ** The invariant *)

Definition u32_ok (v : Z) : Prop := 0 <= v < 2 ^ 32.

Definition config_ok (cfg : Http2Config) : Prop :=
  validate cfg = true /\ u32_ok (cfg_headerTableSize cfg) /\ u32_ok (cfg_maxConcurrentStreams cfg)
  /\ u32_ok (cfg_initialWindowSize cfg) /\ u32_ok (cfg_maxFrameSize cfg)
  /\ u32_ok (cfg_maxHeaderListSize cfg) /\ u32_ok (cfg_connectionWindowSize cfg).

Definition peer_ok (p : PeerSettings) : Prop :=
  u32_ok (ps_maxConcurrentStreams p) /\ 0 <= ps_initialWindowSize p <= kMaxWindowSize
  /\ 16384 <= ps_maxFrameSize p <= 16777215.

(** A stream of the map: a notified stream is closed. *)
Definition entry_ok (s : Http2Stream) : Prop :=
  stream_ok s /\ (st_closedNotified s = true -> isClosed s = true).

Definition active (p : Z * Http2Stream) : Prop := st_closedNotified p.2 = false.
#[export] Instance active_dec p : Decision (active p).
Proof. unfold active. apply _. Defined.

Definition active_of (m : StreamsMap) : Z := Z.of_nat (size (filter active m)).

Definition notified_in (m : StreamsMap) (id : Z) : Prop :=
  exists s, m !! id = Some s /\ st_closedNotified s = true.

(** [pend]: streams being closed, marked but not yet in the FIFO. *)
Record conn_inv (pend : list Z) (c : Http2Connection) : Prop := {
  inv_config : config_ok (c_localSettings c);
  inv_peer : peer_ok (c_peerSettings c);
  inv_send : 0 <= c_connectionSendWindow c <= kMaxWindowSize;
  inv_recv : 0 <= c_connectionRecvWindow c <= kMaxWindowSize;
  inv_entries : map_Forall (fun _ s => entry_ok s) (c_streams c);
  inv_active : c_activeStreamCount c = active_of (c_streams c);
  inv_active_u32 : c_activeStreamCount c < 2 ^ 32;
  inv_nodup : NoDup (pend ++ c_closedStreamsFifo c);
  inv_fifo : forall id, id ∈ pend ++ c_closedStreamsFifo c <-> notified_in (c_streams c) id;
  inv_fifo_len : zlen (c_closedStreamsFifo c) <= kClosedStreamsMaxRetained;
  inv_block_len : zlen (c_headerBlockBuffer c) <= kMaxHeaderBlockAccumulationSize;
  inv_block_ok : bytes_ok (c_headerBlockBuffer c);
  inv_encoder : encoder_ok (c_hpackEncoder c);
  inv_decoder : decoder_ok (c_hpackDecoder c);
  inv_out : 0 <= c_outputWritePos c <= zlen (c_outputBuffer c) }.

(** Settings that touch no other clause. *)
Ltac inv_trivial := intros []; constructor; done.

Lemma inv_set_state pend v c : conn_inv pend c -> conn_inv pend (set_state v c).
Proof. inv_trivial. Qed.
Lemma inv_set_settingsSent pend v c : conn_inv pend c -> conn_inv pend (set_settingsSent v c).
Proof. inv_trivial. Qed.
Lemma inv_set_settingsAck pend v c : conn_inv pend c -> conn_inv pend (set_settingsAckReceived v c).
Proof. inv_trivial. Qed.
Lemma inv_set_goAwayLast pend v c : conn_inv pend c -> conn_inv pend (set_goAwayLastStreamId v c).
Proof. inv_trivial. Qed.
Lemma inv_set_lastPeer pend v c : conn_inv pend c -> conn_inv pend (set_lastPeerStreamId v c).
Proof. inv_trivial. Qed.
Lemma inv_set_idle pend v c : conn_inv pend c -> conn_inv pend (set_idlePriorityFrameCount v c).
Proof. inv_trivial. Qed.
Lemma inv_set_expecting pend v c : conn_inv pend c -> conn_inv pend (set_expectingContinuation v c).
Proof. inv_trivial. Qed.
Lemma inv_set_blockStream pend v c : conn_inv pend c -> conn_inv pend (set_headerBlockStreamId v c).
Proof. inv_trivial. Qed.
Lemma inv_set_epoch pend v c : conn_inv pend c -> conn_inv pend (set_streamsEpoch v c).
Proof. inv_trivial. Qed.
Lemma inv_set_blockEnd pend v c : conn_inv pend c -> conn_inv pend (set_headerBlockEndStream v c).
Proof. inv_trivial. Qed.

Lemma inv_set_peer pend v c : peer_ok v -> conn_inv pend c -> conn_inv pend (set_peerSettings v c).
Proof. intros Hv. inv_trivial. Qed.
Lemma inv_set_send pend v c :
  0 <= v <= kMaxWindowSize -> conn_inv pend c -> conn_inv pend (set_connectionSendWindow v c).
Proof. intros Hv. inv_trivial. Qed.
Lemma inv_set_recv pend v c :
  0 <= v <= kMaxWindowSize -> conn_inv pend c -> conn_inv pend (set_connectionRecvWindow v c).
Proof. intros Hv. inv_trivial. Qed.
Lemma inv_set_encoder pend v c : encoder_ok v -> conn_inv pend c -> conn_inv pend (set_hpackEncoder v c).
Proof. intros Hv. inv_trivial. Qed.
Lemma inv_set_decoder pend v c : decoder_ok v -> conn_inv pend c -> conn_inv pend (set_hpackDecoder v c).
Proof. intros Hv. inv_trivial. Qed.
Lemma inv_set_block pend v c :
  bytes_ok v -> zlen v <= kMaxHeaderBlockAccumulationSize ->
  conn_inv pend c -> conn_inv pend (set_headerBlockBuffer v c).
Proof. intros Hv Hl. inv_trivial. Qed.
Lemma inv_set_out pend v c :
  c_outputWritePos c <= zlen v -> conn_inv pend c -> conn_inv pend (set_outputBuffer v c).
Proof. intros Hv []. constructor; try done. cbn. lia. Qed.

Create HintDb conn.
#[export] Hint Resolve inv_set_state inv_set_settingsSent inv_set_settingsAck inv_set_goAwayLast
  inv_set_lastPeer inv_set_idle inv_set_expecting inv_set_blockStream inv_set_blockEnd inv_set_epoch : conn.

(** ** The streams map *)

Lemma active_insert_new m id s :
  m !! id = None -> st_closedNotified s = false -> active_of (<[id := s]> m) = active_of m + 1.
Proof.
  intros Hid Hs. unfold active_of. rewrite map_filter_insert_True by done.
  rewrite map_size_insert_None by (by apply map_lookup_filter_None; left). lia.
Qed.

Lemma active_delete_new (m : StreamsMap) id s :
  m !! id = None -> delete id (<[id := s]> m) = m.
Proof. apply delete_insert_id. Qed.

Lemma active_update m id s s' :
  m !! id = Some s -> st_closedNotified s' = st_closedNotified s ->
  active_of (<[id := s']> m) = active_of m.
Proof.
  intros Hid Hs. unfold active_of. destruct (st_closedNotified s) eqn:E.
  - rewrite map_filter_insert_False by (unfold active; cbn; congruence).
    rewrite map_filter_delete, delete_id; [done|].
    apply map_lookup_filter_None. right. intros x Hx. rewrite Hid in Hx. injection Hx as <-.
    unfold active. cbn. congruence.
  - rewrite map_filter_insert_True by done. f_equal. apply map_size_insert_Some.
    exists s. by apply map_lookup_filter_Some.
Qed.

Lemma active_notify m id s s' :
  m !! id = Some s -> st_closedNotified s = false -> st_closedNotified s' = true ->
  active_of (<[id := s']> m) = active_of m - 1 /\ 0 < active_of m.
Proof.
  intros Hid Hs Hs'. unfold active_of.
  assert (Hf : filter active m !! id = Some s) by (by apply map_lookup_filter_Some).
  rewrite map_filter_insert_False by (unfold active; cbn; congruence).
  rewrite map_filter_delete. rewrite map_size_delete_Some by (by eexists).
  assert (size (filter active m) <> 0%nat).
  { intros E. apply map_size_empty_inv in E. rewrite E in Hf. by rewrite lookup_empty in Hf. }
  lia.
Qed.

Lemma active_delete_notified m id s :
  m !! id = Some s -> st_closedNotified s = true -> active_of (delete id m) = active_of m.
Proof.
  intros Hid Hs. unfold active_of. rewrite map_filter_delete, delete_id; [done|].
  apply map_lookup_filter_None. right. intros x Hx. rewrite Hid in Hx. injection Hx as <-.
  unfold active. cbn. congruence.
Qed.

(** Updating a stream without touching its notification. *)
Lemma inv_update_stream pend c id s s' :
  conn_inv pend c -> c_streams c !! id = Some s -> entry_ok s' ->
  st_closedNotified s' = st_closedNotified s ->
  conn_inv pend (set_streams (<[id := s']> (c_streams c)) c).
Proof.
  intros [] Hid Hs' Hn. constructor; try done; cbn.
  - by apply map_Forall_insert_2.
  - by rewrite (active_update _ _ s).
  - intros i. rewrite inv_fifo0. unfold notified_in. destruct (decide (i = id)) as [->|Hne].
    + rewrite lookup_insert_eq. split; intros (x & Hx & Hnx); simplify_eq; eexists; (split; [done|congruence]).
    + by rewrite lookup_insert_ne.
Qed.

Lemma entry_of pend c id s : conn_inv pend c -> c_streams c !! id = Some s -> entry_ok s.
Proof. intros [] Hid. exact (inv_entries0 id s Hid). Qed.

(** ** What the callbacks must respect

    They may run any operation of the connection, so they must preserve its invariant.  The
    code holds an iterator across the one that tells that a stream was closed, and across
    those that deliver headers or data with END_STREAM: these must not insert a stream in the
    map nor remove one (see [Http2ConnHistory.reset_in_callback_dangles]).  The others may. *)
Definition same_slots (c c' : Http2Connection) : Prop :=
  c_streamsEpoch c' = c_streamsEpoch c /\ dom (c_streams c') = dom (c_streams c).

Definition keeps_slots (f : M unit) : Prop :=
  forall pend c, conn_inv pend c -> wp f (fun _ c' => conn_inv pend c' /\ same_slots c c') c.

Definition keeps_inv (f : M unit) : Prop :=
  forall pend c, conn_inv pend c -> wp f (fun _ c' => conn_inv pend c') c.

Record cbs_ok (cbs : Callbacks) : Prop := {
  ok_headers : forall f, cb_onHeadersDecoded cbs = Some f -> forall id m (es : bool),
    if es then keeps_slots (f id m es) else keeps_inv (f id m es);
  ok_data : forall f, cb_onData cbs = Some f -> forall id d (es : bool),
    if es then keeps_slots (f id d es) else keeps_inv (f id d es);
  ok_reset : forall f, cb_onStreamReset cbs = Some f -> forall id e, keeps_inv (f id e);
  ok_closed : forall f, cb_onStreamClosed cbs = Some f -> forall id, keeps_slots (f id);
  ok_goaway : forall f, cb_onGoAway cbs = Some f -> forall id e d, keeps_inv (f id e d);
  ok_window : forall f, cb_onWindowUpdate cbs = Some f -> forall id n, keeps_inv (f id n) }.

Lemma no_callbacks_ok : cbs_ok no_callbacks.
Proof. by constructor. Qed.

Lemma same_slots_refl c : same_slots c c.
Proof. done. Qed.
Lemma same_slots_trans c1 c2 c3 : same_slots c1 c2 -> same_slots c2 c3 -> same_slots c1 c3.
Proof. intros [] []. split; congruence. Qed.
Lemma same_slots_points it c c' : same_slots c c' -> points_to it c -> points_to it c'.
Proof. intros [He Hd] [Hi Hs]. split; [congruence|]. apply elem_of_dom. rewrite Hd. by apply elem_of_dom. Qed.
Lemma same_slots_put id s c : is_Some (c_streams c !! id) -> same_slots c (set_streams (<[id := s]> (c_streams c)) c).
Proof. intros Hid. split; [done|]. cbn. by rewrite dom_insert_lookup_L. Qed.

Lemma keeps_slots_inv f : keeps_slots f -> keeps_inv f.
Proof. intros Hf pend c Hc. eapply wp_mono; [by apply Hf|]. by intros a c' [? _]. Qed.

Lemma wp_opt_call {A} (cb : option A) (k : A -> M unit) pend c :
  conn_inv pend c -> (forall f, cb = Some f -> keeps_inv (k f)) ->
  wp (opt_call cb k) (fun _ c' => conn_inv pend c') c.
Proof. intros Hc Hk. destruct cb as [f|]; cbn; [by apply (Hk f eq_refl)|done]. Qed.

(** A callback called with the key of a valid iterator. *)
Lemma wp_opt_call_key (cb : option (Z -> M unit)) it pend c :
  conn_inv pend c -> it_epoch it = c_streamsEpoch c -> (forall f, cb = Some f -> forall id, keeps_slots (f id)) ->
  wp (opt_call cb (fun f => bind (key it) f)) (fun _ c' => conn_inv pend c' /\ same_slots c c') c.
Proof.
  intros Hc He Hk. destruct cb as [f|]; cbn; [|by split].
  apply wp_bind, wp_key; [done|]. by apply Hk.
Qed.

(** A callback that runs while an iterator is held, if it is used afterwards. *)
Lemma wp_opt_call_held {A} (cb : option A) (k : A -> M unit) (held : bool) pend c :
  conn_inv pend c -> (forall f, cb = Some f -> if held then keeps_slots (k f) else keeps_inv (k f)) ->
  wp (opt_call cb k) (fun _ c' => conn_inv pend c' /\ (held = true -> same_slots c c')) c.
Proof.
  intros Hc Hk. destruct cb as [f|]; cbn; [|by split].
  specialize (Hk f eq_refl). destruct held.
  - eapply wp_mono; [by apply Hk|]. by intros a c' [? ?].
  - eapply wp_mono; [by apply Hk|]. by intros a c' ?.
Qed.

(** ** Output *)

Lemma inv_append pend c out :
  conn_inv pend c -> conn_inv pend (set_outputBuffer (c_outputBuffer c ++ out) c).
Proof.
  intros Hc. apply inv_set_out; [|done]. destruct Hc. rewrite zlen_app.
  pose proof (zlen_nonneg out). lia.
Qed.

(** Frame writers append. *)
Definition appends (w : bytes -> bytes * Z) : Prop := forall b, exists out, fst (w b) = b ++ out.

Lemma inv_write pend c w :
  appends w -> conn_inv pend c -> conn_inv pend (set_outputBuffer (fst (w (c_outputBuffer c))) c).
Proof. intros Hw Hc. destruct (Hw (c_outputBuffer c)) as [out ->]. by apply inv_append. Qed.

Lemma appends_data id d es : appends (fun b => WriteDataFrame b id d es).
Proof. intros b. eexists. cbn. by rewrite <- app_assoc. Qed.
Lemma appends_rst id e : appends (fun b => WriteRstStreamFrame b id e).
Proof. intros b. eexists. cbn. by rewrite <- app_assoc. Qed.
Lemma appends_settings es : appends (fun b => WriteSettingsFrame b es).
Proof. intros b. by eexists. Qed.
Lemma appends_settings_ack : appends WriteSettingsAckFrame.
Proof. intros b. by eexists. Qed.
Lemma appends_ping p : appends (fun b => WritePingFrame b p).
Proof. intros b. eexists. cbn. by rewrite <- app_assoc. Qed.
Lemma appends_goaway l e d : appends (fun b => WriteGoAwayFrame b l e d).
Proof. intros b. by eexists. Qed.
Lemma appends_window id n : appends (fun b => WriteWindowUpdateFrame b id n).
Proof. intros b. eexists. cbn. by rewrite <- app_assoc. Qed.
Lemma appends_continuation id d eh : appends (fun b => WriteContinuationFrame b id d eh).
Proof. intros b. eexists. cbn. by rewrite <- app_assoc. Qed.
#[export] Hint Resolve appends_data appends_rst appends_settings appends_settings_ack appends_ping
  appends_goaway appends_window appends_continuation inv_write inv_append : conn.

(** ** Closing streams *)

(** An operation preserves the invariant from every well-formed connection. *)
Definition safe {A} (m : M A) : Prop :=
  forall pend c, conn_inv pend c -> wp m (fun _ c' => conn_inv pend c') c.

Lemma safe_ret {A} (a : A) : safe (ret a).
Proof. by intros pend c Hc. Qed.

Lemma safe_bind {A B} (m : M A) (k : A -> M B) : safe m -> (forall a, safe (k a)) -> safe (bind m k).
Proof.
  intros Hm Hk pend c Hc. apply wp_bind. eapply wp_mono; [by apply Hm|]. intros a c' Hc'. by apply Hk.
Qed.

Lemma safe_write w : appends w -> safe (write w).
Proof. intros Hw pend c Hc. unfold write. wsteps. by apply inv_write. Qed.

Lemma safe_gets {A} (f : Http2Connection -> A) : safe (gets f).
Proof. by intros pend c Hc. Qed.

Lemma safe_if {A} (b : bool) (m n : M A) : safe m -> safe n -> safe (if b then m else n).
Proof. by destruct b. Qed.

Lemma safe_when b m : safe m -> safe (when b m).
Proof. intros Hm. unfold when. apply safe_if; [exact Hm|apply safe_ret]. Qed.

#[export] Hint Resolve safe_ret safe_write safe_gets safe_when : conn.

(** Stream operations keep a stream well formed, and closed once notified. *)
Lemma entry_op s o :
  entry_ok s -> op_ok o -> o <> OpMarkNotified ->
  entry_ok (apply_op s o) /\ st_closedNotified (apply_op s o) = st_closedNotified s.
Proof.
  intros [Hs Hc] Ho Hne.
  assert (Hn : st_closedNotified (apply_op s o) = st_closedNotified s).
  { destruct o; try done; cbn [apply_op]; unfold onSendHeaders, onRecvHeaders, onSendData, onRecvData,
      consumeSendWindow, consumeRecvWindow, increaseSendWindow, increaseRecvWindow,
      updateInitialWindowSize; repeat case_match; done. }
  split; [|done]. split; [by apply apply_op_window|]. rewrite Hn. intros Hnot. specialize (Hc Hnot).
  assert (Hd : local_dir s = DDone /\ remote_dir s = DDone).
  { unfold local_dir, remote_dir. unfold isClosed in Hc. by destruct (st_state s). }
  destruct Hd as [Hl Hr]. destruct (apply_op_forward s o) as [Fl Fr]. rewrite Hl, Hr in *.
  unfold local_dir, remote_dir in Fl, Fr. unfold isClosed.
  by destruct (st_state (apply_op s o)).
Qed.

Lemma inv_stream_op pend c id s o :
  conn_inv pend c -> c_streams c !! id = Some s -> op_ok o -> o <> OpMarkNotified ->
  conn_inv pend (set_streams (<[id := apply_op s o]> (c_streams c)) c).
Proof.
  intros Hc Hid Ho Hne. destruct (entry_op s o (entry_of _ _ _ _ Hc Hid) Ho Hne) as [He Hn].
  by apply (inv_update_stream pend c id s).
Qed.

Lemma new_stream_entry id initial : 0 <= initial <= kMaxWindowSize -> entry_ok (NewStream id initial).
Proof.
  intros Hi. unfold entry_ok, stream_ok, NewStream. cbn. unfold kMaxWindowSize in *.
  rewrite s32_id by lia. split; [lia|done].
Qed.

Section Ops.
Context (cbs : Callbacks).
Hypothesis Hcbs : cbs_ok cbs.

(** The streams and the FIFO once the stream that was being closed is queued. *)
Lemma prune_spec pend c id fifo :
  conn_inv (id :: pend) c -> c_closedStreamsFifo c = fifo ->
  wp pruneClosedStreams (fun _ c' => conn_inv pend c') (set_closedStreamsFifo (fifo ++ [id]) c).
Proof.
  intros Hc Hf. pose proof Hc as []. rewrite Hf in *.
  assert (Hnd : NoDup (pend ++ fifo ++ [id])).
  { rewrite app_assoc. apply NoDup_app. apply NoDup_cons in inv_nodup0 as [Hid Hnd].
    split_and!; [done| |apply NoDup_singleton].
    intros x Hx Hx1%elem_of_cons. destruct Hx1 as [-> | Hx1]; [done|by apply elem_of_nil in Hx1]. }
  assert (Hmem : forall i, i ∈ pend ++ fifo ++ [id] <-> notified_in (c_streams c) i).
  { intros i. rewrite <- inv_fifo0. cbn [app].
    rewrite elem_of_cons, !elem_of_app, list_elem_of_singleton. tauto. }
  unfold kClosedStreamsMaxRetained in *.
  unfold pruneClosedStreams. wsteps. cbn [c_closedStreamsFifo set_closedStreamsFifo].
  destruct (decide (zlen (fifo ++ [id]) <= 16)) as [Hle|Hgt].
  - assert (E : forall n Q c0, c_closedStreamsFifo c0 = fifo ++ [id] -> Q tt c0 -> wp (prune_loop n) Q c0).
    { intros n Q c0 E0 HQ. destruct n; cbn [prune_loop]; wsteps; rewrite E0;
        unfold kClosedStreamsMaxRetained; by rewrite (proj2 (Z.ltb_ge _ _)) by lia. }
    apply E; [done|]. constructor; cbn; done.
  - rewrite zlen_app, zlen_cons in Hgt. change (zlen (@nil Z)) with 0 in Hgt.
    destruct fifo as [|h rest]; [change (zlen (@nil Z)) with 0 in Hgt; lia|]. rewrite zlen_cons in *.
    cbn [app] in *. cbn [length prune_loop]. wsteps. cbn [c_closedStreamsFifo set_closedStreamsFifo].
    unfold kClosedStreamsMaxRetained. rewrite zlen_cons, zlen_app.
    rewrite (proj2 (Z.ltb_lt _ _)) by (rewrite zlen_cons; change (zlen (@nil Z)) with 0; lia).
    wsteps. cbn [c_streams set_closedStreamsFifo].
    assert (Hh : h ∈ pend ++ (h :: rest) ++ [id])
      by (rewrite !elem_of_app, elem_of_cons; tauto).
    apply Hmem in Hh as (s & Hs & Hsn). pose proof (inv_entries0 h s Hs) as [_ Hcl].
    eapply wp_stream_at; [exact Hs|]. apply wp_bind, wp_assert; [by apply Hcl|]. wsteps.
    assert (Hfin : forall n c0 (Q : unit -> Http2Connection -> Prop),
      c_closedStreamsFifo c0 = rest ++ [id] -> Q tt c0 -> wp (prune_loop n) Q c0).
    { intros n c0 Q E0 HQ. destruct n; cbn [prune_loop]; wsteps; rewrite E0;
        unfold kClosedStreamsMaxRetained; rewrite (proj2 (Z.ltb_ge _ _)); try done;
        rewrite zlen_app, zlen_cons; change (zlen (@nil Z)) with 0; lia. }
    apply Hfin; [done|].
    assert (Hnh : h ∉ pend ++ rest ++ [id]).
    { apply NoDup_app in Hnd as (_ & Hd & Hr). apply NoDup_cons in Hr as [Hr _].
      rewrite elem_of_app. intros [Hp|Hp]; [|done]. by apply (Hd h Hp), elem_of_cons; left. }
    constructor; cbn; try done.
    + by apply map_Forall_delete.
    + by rewrite (active_delete_notified _ _ s).
    + apply NoDup_app in Hnd as (Hp & Hd & Hr). apply NoDup_cons in Hr as [_ Hr].
      apply NoDup_app. split_and!; [done| |done]. intros x Hx Hx'. by apply (Hd x Hx), elem_of_cons; right.
    + intros i. unfold notified_in. destruct (decide (i = h)) as [->|Hne].
      * rewrite lookup_delete_eq. split; [done|]. by intros (? & ? & _).
      * rewrite lookup_delete_ne by done. rewrite <- (Hmem i). cbn [app].
        rewrite (elem_of_app pend (rest ++ _)), (elem_of_app pend (h :: _)), (elem_of_cons (rest ++ _)). tauto.
    + rewrite zlen_app, zlen_cons. change (zlen (@nil Z)) with 0.
      unfold kClosedStreamsMaxRetained. lia.
Qed.

(** Marking a closed stream: it moves to the streams being closed. *)
Lemma inv_mark pend c id s s' n :
  conn_inv pend c -> c_streams c !! id = Some s -> st_closedNotified s = false ->
  entry_ok s' -> st_closedNotified s' = true -> n = c_activeStreamCount c - 1 ->
  0 < c_activeStreamCount c
  /\ conn_inv (id :: pend) (set_activeStreamCount n (set_streams (<[id := s']> (c_streams c)) c)).
Proof.
  intros [] Hid Hs Hs' Hn ->. destruct (active_notify (c_streams c) id s s' Hid Hs Hn) as [Ha Hpos].
  split; [lia|].
  assert (Hnot : id ∉ pend ++ c_closedStreamsFifo c).
  { rewrite inv_fifo0. intros (x & Hx & Hxn). simplify_eq. congruence. }
  constructor; try done; cbn.
  - by apply map_Forall_insert_2.
  - lia.
  - lia.
  - by apply NoDup_cons.
  - intros i. rewrite elem_of_cons, inv_fifo0. unfold notified_in.
    destruct (decide (i = id)) as [->|Hne].
    + rewrite lookup_insert_eq. split; [intros _; by eexists|by left].
    + rewrite lookup_insert_ne by done. split; [by intros [?|?]|by right].
Qed.

Lemma closeStream_inv pend c it e s :
  conn_inv pend c -> it_epoch it = c_streamsEpoch c -> c_streams c !! it_first it = Some s -> isClosed s = true ->
  wp (closeStream cbs it e) (fun _ c' => conn_inv pend c') c.
Proof using Hcbs.
  intros Hc He Hid Hcl. unfold closeStream. apply wp_bind. eapply wp_deref; [exact He|exact Hid|].
  apply wp_bind, wp_assert; [done|]. unfold markClosedNotified.
  destruct (st_closedNotified s) eqn:En; cbn [negb]; [by apply wp_ret|]. wsteps.
  set (s' := if decide (e = ErrNoError) then _ else _).
  pose proof (entry_of _ _ _ _ Hc Hid) as [Hso _].
  assert (Hs' : entry_ok s' /\ st_closedNotified s' = true).
  { subst s'. case_decide; (split; [split; [exact Hso|intros _; exact Hcl]|done]). }
  destruct Hs' as [Hs' Hn'].
  destruct (inv_mark pend c (it_first it) s s' (c_activeStreamCount c - 1) Hc Hid En Hs' Hn' eq_refl) as [Hpos Hc1].
  cbn [c_activeStreamCount set_streams]. apply wp_assert.
  { apply negb_true_iff, Z.eqb_neq. lia. }
  wsteps.
  eapply wp_mono; [by apply (wp_opt_call_key _ it _ _ Hc1 He (ok_closed cbs Hcbs))|].
  intros [] c2 [Hc2 [He2 _]]. cbv beta. wsteps. apply wp_key; [by rewrite He2|]. wsteps.
  by apply (prune_spec pend c2 (it_first it)).
Qed.

Lemma finalizeSendClosedStream_inv pend c id :
  conn_inv pend c -> wp (finalizeSendClosedStream cbs id) (fun _ c' => conn_inv pend c') c.
Proof using Hcbs.
  intros Hc. unfold finalizeSendClosedStream. wsteps.
  destruct (c_streams c !! id) as [s|] eqn:E; [|by apply wp_ret].
  destruct (isClosed s) eqn:Ec; [|by apply wp_ret]. wsteps. by eapply closeStream_inv.
Qed.

(** ** Sending *)

Lemma sendSettings_safe : safe sendSettings.
Proof.
  intros pend c Hc. unfold sendSettings. wsteps. apply safe_when; [exact (safe_write _ (appends_window _ _))|].
  by apply inv_set_settingsSent, (inv_write pend c _ (appends_settings _)).
Qed.

Lemma sendServerPreface_safe : safe sendServerPreface.
Proof.
  intros pend c Hc. unfold sendServerPreface. wsteps.
  destruct (_ || _); [done|by apply sendSettings_safe].
Qed.

Lemma sendClientPreface_safe : safe sendClientPreface.
Proof.
  intros pend c Hc. unfold sendClientPreface. wsteps. destruct (_ || _); [done|]. wsteps.
  eapply wp_mono; [by apply sendSettings_safe, inv_append|]. intros [] c' Hc'. cbv beta. wsteps.
  by apply inv_set_state.
Qed.

Lemma initiateGoAway_safe e d : safe (initiateGoAway e d).
Proof.
  intros pend c Hc. unfold initiateGoAway. wsteps.
  destruct (c_state c); try done; wsteps;
    by apply inv_set_goAwayLast, inv_set_state, (inv_write pend c _ (appends_goaway _ _ _)).
Qed.

Lemma connectionError_safe e d : safe (connectionError e d).
Proof.
  intros pend c Hc. unfold connectionError. wsteps.
  eapply wp_mono; [by apply initiateGoAway_safe|]. intros [] c' Hc'. cbv beta. wsteps.
  by apply inv_set_state.
Qed.

Lemma sendRstStream_safe id e : safe (sendRstStream cbs id e).
Proof using Hcbs.
  intros pend c Hc. unfold sendRstStream. wsteps. cbn [c_streams set_outputBuffer].
  apply (inv_write pend c _ (appends_rst id e)) in Hc.
  destruct (c_streams c !! id) as [s|] eqn:E; [|by apply wp_ret]. wsteps.
  assert (Hop : entry_ok (setErrorCode e (onSendRstStream s))
    /\ st_closedNotified (setErrorCode e (onSendRstStream s)) = st_closedNotified s).
  { pose proof (entry_of _ _ _ _ Hc E) as [Hs _]. split; [split; [exact Hs|done]|done]. }
  pose proof (inv_update_stream pend _ id s _ Hc E (proj1 Hop) (proj2 Hop)) as Hc1.
  eapply wp_mono; [apply (closeStream_inv pend _ _ e (setErrorCode e (onSendRstStream s))); [exact Hc1|reflexivity| |reflexivity]|].
  { cbn [c_streams set_streams it_first]. apply lookup_insert_eq. }
  intros [] c' Hc'. cbv beta. apply wp_opt_call; [done|]. intros f Hf. by apply (ok_reset cbs Hcbs f Hf).
Qed.

Lemma streamError_safe id e d : safe (streamError cbs id e d).
Proof using Hcbs. apply safe_bind; [apply sendRstStream_safe|]. intros []. apply safe_ret. Qed.

Lemma sendPing_safe p : safe (sendPing p).
Proof. exact (safe_write _ (appends_ping _)). Qed.

Lemma sendWindowUpdate_inv pend c id n (P : Http2Connection -> Prop) :
  conn_inv pend c -> u32_ok n ->
  wp (sendWindowUpdate id n)
     (fun _ c' => conn_inv pend c' /\ same_slots c c') c.
Proof.
  intros Hc Hn. unfold sendWindowUpdate. wsteps.
  apply (inv_write pend c _ (appends_window id n)) in Hc.
  destruct (Z.eqb_spec id 0).
  - wsteps. cbn [c_connectionRecvWindow set_outputBuffer]. split; [|done]. apply inv_set_recv; [|done].
    pose proof (inv_recv _ _ Hc) as Hr. cbn [c_connectionRecvWindow set_outputBuffer] in Hr.
    unfold u32_ok, kMaxWindowSize in *. rewrite s32_id by lia. lia.
  - wsteps. cbn [c_streams set_outputBuffer]. destruct (c_streams c !! id) as [s|] eqn:E; [|by apply wp_ret].
    wsteps. split; [by apply (inv_stream_op pend _ id s (OpIncreaseRecv n))|].
    apply (same_slots_put id _ (set_outputBuffer _ c)). by eexists.
Qed.

Lemma sendWindowUpdate_safe id n : u32_ok n -> safe (sendWindowUpdate id n).
Proof.
  intros Hn pend c Hc. eapply wp_mono; [by apply (sendWindowUpdate_inv pend c id n (fun _ => True))|].
  by intros [] c' [Hc' _].
Qed.

(** A new stream, and its rollback. *)
Lemma inv_new_stream pend c id s :
  conn_inv pend c -> c_streams c !! id = None -> entry_ok s -> st_closedNotified s = false ->
  c_activeStreamCount c + 1 < 2 ^ 32 ->
  conn_inv pend (set_activeStreamCount (u32 (c_activeStreamCount c + 1))
                   (set_streams (<[id := s]> (c_streams c)) c)).
Proof.
  intros Hc Hid Hs Hn Hlt. pose proof Hc as [].
  assert (0 <= active_of (c_streams c)) by (unfold active_of; lia).
  constructor; try done; cbn; rewrite ?u32_id by lia.
  - by apply map_Forall_insert_2.
  - rewrite active_insert_new by done. lia.
  - lia.
  - intros i. rewrite inv_fifo0. unfold notified_in. destruct (decide (i = id)) as [->|Hne].
    + rewrite lookup_insert_eq, Hid. split; [by intros (? & ? & _)|]. intros (x & Hx & Hxn). congruence.
    + by rewrite lookup_insert_ne.
Qed.

Lemma rollback_stream (c : Http2Connection) id s :
  c_streams c !! id = None ->
  set_streamsEpoch (c_streamsEpoch c + 1 + 1) (set_streams (delete id (<[id := s]> (c_streams c)))
    (set_streamsEpoch (c_streamsEpoch c + 1) (set_streams (<[id := s]> (c_streams c)) c)))
  = set_streamsEpoch (c_streamsEpoch c + 1 + 1) c.
Proof. intros Hid. rewrite delete_insert_id by done. by destruct c. Qed.

Lemma prepareSendHeaders_inv pend c id es :
  conn_inv pend c ->
  wp (prepareSendHeaders id es) (fun _ c' => conn_inv pend c'
      /\ c_outputBuffer c' = c_outputBuffer c /\ c_outputWritePos c' = c_outputWritePos c) c.
Proof.
  intros Hc. unfold prepareSendHeaders. wsteps.
  assert (Hcont : forall c1, conn_inv pend c1 -> is_Some (c_streams c1 !! id) ->
    c_outputBuffer c1 = c_outputBuffer c -> c_outputWritePos c1 = c_outputWritePos c ->
    wp (stream_at id) (fun s => wp (let '(err, s) := onSendHeaders es s in
          bind (put_stream id s) (fun _ => ret err))
       (fun _ c' => conn_inv pend c'
          /\ c_outputBuffer c' = c_outputBuffer c /\ c_outputWritePos c' = c_outputWritePos c)) c1).
  { intros c1 Hc1 [s Hs] Ho Hw. eapply wp_stream_at; [exact Hs|].
    destruct (onSendHeaders es s) as [err s'] eqn:E. wsteps. split; [|done].
    pose proof (inv_stream_op pend c1 id s (OpSendHeaders es) Hc1 Hs I ltac:(done)) as H.
    cbn [apply_op] in H. by rewrite E in H. }
  destruct (c_streams c !! id) as [s|] eqn:E.
  - wsteps. by apply Hcont.
  - wsteps. unfold canCreateStreams. cbn [c_peerSettings c_activeStreamCount c_state c_isServer set_streams set_streamsEpoch].
    destruct (Z.leb_spec (ps_maxConcurrentStreams (c_peerSettings c)) (c_activeStreamCount c)) as [|Hlt].
    { wsteps. cbn [c_streams c_streamsEpoch set_streams set_streamsEpoch]. rewrite rollback_stream by done.
      split; [by apply inv_set_epoch|done]. }
    destruct (match c_state c with Open => true | AwaitingSettings => negb (c_isServer c) | _ => false end).
    + wsteps. apply Hcont; [|cbn; rewrite lookup_insert_eq; by eexists|done|done].
      destruct (inv_peer _ _ Hc) as ((_ & Hu) & Hi & _).
      apply (inv_set_epoch pend (c_streamsEpoch c + 1)) in Hc.
      apply (inv_new_stream pend _ id (NewStream id (ps_initialWindowSize (c_peerSettings c))) Hc);
        [done|by apply new_stream_entry|done|cbn; lia].
    + wsteps. cbn [c_streams c_streamsEpoch set_streams set_streamsEpoch]. rewrite rollback_stream by done.
      split; [by apply inv_set_epoch|done].
Qed.

Lemma write_data_chunks_safe fuel id mf es data :
  16384 <= mf -> (length data <= fuel)%nat -> safe (write_data_chunks fuel id mf es data).
Proof.
  intros Hm. revert data. induction fuel as [|fuel IH]; intros data Hf; destruct data as [|b data];
    cbn [write_data_chunks]; try apply safe_ret; [simpl in Hf; lia|].
  apply safe_bind; [exact (safe_write _ (appends_data _ _ _))|]. intros _. apply IH.
  rewrite length_drop, zlen_cons. pose proof (zlen_nonneg data). simpl in Hf |- *. lia.
Qed.

Lemma sendData_safe id data es : zlen data < 2 ^ 31 -> safe (sendData id data es).
Proof.
  intros Hlen pend c Hc. unfold sendData. wsteps.
  destruct (c_streams c !! id) as [s|] eqn:E; [|by apply wp_ret].
  destruct (canSend s) eqn:Ecan; cbn [negb]; [|by apply wp_ret].
  pose proof (zlen_nonneg data). rewrite u32_id by lia.
  destruct (consumeSendWindow (zlen data) s) as [ok s1] eqn:Ew.
  destruct ok; cbn [negb]; [|by apply wp_ret]. wsteps.
  assert (Hn : op_ok (OpConsumeSend (zlen data))) by (cbn; lia).
  pose proof (inv_stream_op pend c id s _ Hc E Hn ltac:(done)) as Hc1.
  pose proof (entry_op s _ (entry_of _ _ _ _ Hc E) Hn ltac:(done)) as [He1 Hn1].
  cbn [apply_op] in Hc1, He1, Hn1. rewrite Ew in Hc1, He1, Hn1. cbn [snd] in Hc1, He1, Hn1.
  assert (Hst : st_state s1 = st_state s).
  { unfold consumeSendWindow in Ew. destruct (_ <? _); by simplify_eq. }
  assert (E1 : c_streams (set_streams (<[id:=s1]> (c_streams c)) c) !! id = Some s1)
    by apply lookup_insert_eq.
  cbn [c_connectionSendWindow set_streams]. pose proof (inv_send _ _ Hc) as Hw.
  destruct (Z.ltb_spec (c_connectionSendWindow c) (zlen data)).
  { wsteps. by apply (inv_stream_op pend _ id s1 (OpIncreaseSend (zlen data))); [..|cbn; lia|]. }
  wsteps. destruct (onSendData es s1) as [err s2] eqn:Es. wsteps.
  assert (Herr : err = ErrNoError).
  { unfold canSend in Ecan. unfold onSendData in Es. rewrite Hst in Es.
    destruct (st_state s); by simplify_eq. }
  rewrite (s32_id (zlen data)), s32_id by (unfold kMaxWindowSize in *; lia).
  apply (inv_set_send pend (c_connectionSendWindow c - zlen data)) in Hc1;
    [|unfold kMaxWindowSize in *; lia].
  pose proof (inv_stream_op pend _ id s1 (OpSendData es) Hc1 E1 I ltac:(done)) as Hc2.
  cbn [apply_op] in Hc2. rewrite Es in Hc2. cbn [snd] in Hc2.
  apply wp_assert; [by apply bool_decide_eq_true|]. wsteps.
  assert (Hfin : safe (match data with
    | [] => when es (write (fun b => WriteDataFrame b id [] true))
    | _ => bind (gets (fun c => ps_maxFrameSize (c_peerSettings c)))
             (fun mf => write_data_chunks (length data) id mf es data) end) \/ True) by (by right).
  clear Hfin. destruct data as [|b data].
  - eapply wp_mono; [apply safe_when; [exact (safe_write _ (appends_data _ _ _))|exact Hc2]|].
    intros [] c' Hc'. by apply wp_ret.
  - wsteps. eapply wp_mono; [apply write_data_chunks_safe; [|done|exact Hc2]|].
    { pose proof (inv_peer _ _ Hc) as (_ & _ & Hmf). cbn. lia. }
    intros [] c' Hc'. by apply wp_ret.
Qed.

Lemma onOutputWritten_safe n : 0 <= n < 2 ^ 63 -> forall pend c, conn_inv pend c ->
  zlen (c_outputBuffer c) < 2 ^ 63 ->
  wp (onOutputWritten n) (fun _ c' => conn_inv pend c') c.
Proof.
  intros Hn pend c Hc Hlen. unfold onOutputWritten. wsteps. cbn [c_outputBuffer c_outputWritePos set_outputWritePos].
  pose proof (inv_out _ _ Hc). rewrite u64_id by lia.
  destruct (Z.leb_spec (zlen (c_outputBuffer c)) (c_outputWritePos c + n)).
  - destruct Hc. by constructor.
  - destruct Hc. constructor; try done; cbn; lia.
Qed.
End Ops.
