(* ===== verification/Http2ConnSafe.v ===== *)
(** Every frame handler, the dispatcher and the sending of headers preserve the connection
    invariant of Http2ConnInv; hence so does any history of calls, from the constructor on. *)

From S2P Require Import Prelude Http2Frame Http2Stream HpackTables AsciiCase Hpack HpackProofs.
From S2P Require Import HpackRoundtrip HeadersView Http2Connection Http2ConnInv.
Local Open Scope Z_scope.
Local Open Scope conn_scope.

(** Decoding a block keeps a well-formed decoder. *)
Lemma decode_ok d block :
  decoder_ok d -> span_ok block ->
  match decode d block with inr (d', _) => decoder_ok d' | inl f => f = HpackFreed end.
Proof.
  intros Hd Hb. unfold decode.
  pose proof (decode_loop_safe (length block)
    (MkDecoder (d_dynamicTable d) [] (d_mergeAllowedForUnknownRequestHeaders d)) block Hd Hb ltac:(done)) as H.
  destruct (decode_loop _ _ _) as [f|[d' e]]; [by destruct H|done].
Qed.

#[local] Opaque decode encode.

(** ** Frames as received *)

Definition frame_ok (header : FrameHeader) (payload : bytes) : Prop :=
  bytes_ok payload /\ zlen payload <= 16777215 /\ 0 <= fh_streamId header < 2 ^ 31.

Lemma subspan_bytes off n l : bytes_ok l -> bytes_ok (subspan off n l).
Proof. intros. by apply Forall_take, Forall_drop. Qed.

Lemma subspan_le off n (l : bytes) : zlen (subspan off n l) <= zlen l.
Proof. unfold subspan, zlen. rewrite length_take, length_drop. lia. Qed.

Lemma headers_fragment_ok h payload f :
  bytes_ok payload -> ParseHeadersFrame h payload = inr f ->
  bytes_ok (hf_headerBlockFragment f) /\ zlen (hf_headerBlockFragment f) <= zlen payload.
Proof.
  unfold ParseHeadersFrame. intros Hp E. repeat case_match; simplify_eq; cbn;
    (split; [by apply subspan_bytes|apply subspan_le]).
Qed.

Lemma settings_values n d e :
  bytes_ok d -> e ∈ ReadSettingsEntries n d -> u32_ok (se_value e).
Proof.
  revert d. induction n as [|n IH]; intros d Hd He; cbn [ReadSettingsEntries] in He.
  { by apply elem_of_nil in He. }
  apply elem_of_cons in He as [-> | He].
  - cbn. apply Read32BE_bound. by apply bytes_ok_drop.
  - eapply IH, He. by apply bytes_ok_drop.
Qed.

Lemma window_increment_ok payload f :
  bytes_ok payload -> ParseWindowUpdateFrame payload = inr f -> 0 <= wu_windowSizeIncrement f < 2 ^ 31.
Proof.
  unfold ParseWindowUpdateFrame. intros Hp E. case_match; simplify_eq. cbn. rewrite land_31bit.
  apply Z.mod_pos_bound. lia.
Qed.

Section Handlers.
Context (cbs : Callbacks).
Hypothesis Hcbs : cbs_ok cbs.

Abbreviation inv_post := (fun pend _ c' => conn_inv pend c').

(** [wp] of a safe computation whose continuation only needs the invariant. *)
Lemma wp_safe {A} (m : M A) pend c (Q : A -> Http2Connection -> Prop) :
  safe m -> conn_inv pend c -> (forall a c', conn_inv pend c' -> Q a c') -> wp m Q c.
Proof. intros Hm Hc HQ. eapply wp_mono; [by apply Hm|done]. Qed.

Ltac wsafe l := eapply wp_safe; [apply l|eassumption|].

Lemma safe_some {A} (m : M A) : safe m -> safe (bind m (fun r => ret (Some r))).
Proof. intros Hm. apply safe_bind; [done|]. intros a. apply safe_ret. Qed.

Ltac werror :=
  eapply wp_safe; [apply safe_some; first [apply connectionError_safe|apply (streamError_safe cbs Hcbs)]
                  |eassumption|by auto].

(** ** Header blocks *)

Lemma decodeAndEmit_inv pend c id block es :
  conn_inv pend c -> span_ok block ->
  wp (decodeAndEmitHeaders cbs id block es)
     (fun _ c' => conn_inv pend c' /\ (es = true -> same_slots c c')) c.
Proof using Hcbs.
  intros Hc Hb. unfold decodeAndEmitHeaders. wsteps.
  pose proof (decode_ok _ _ (inv_decoder _ _ Hc) Hb) as Hd.
  destruct (decode (c_hpackDecoder c) block) as [[]|[d e]]; [done|done|].
  wsteps. destruct e as [e|].
  - wsteps. split; [by apply inv_set_decoder|done].
  - wsteps. eapply wp_mono; [apply (wp_opt_call_held _ _ es pend); [by apply inv_set_decoder|]|].
    + intros f Hf. by apply (ok_headers cbs Hcbs f Hf).
    + intros [] c' Hc'. by apply wp_ret.
Qed.

(** Closing the stream at the end of a frame that carried END_STREAM. *)
Lemma close_if_done_inv pend c it (es : bool) :
  conn_inv pend c -> (es = true -> points_to it c) ->
  wp (if es then bind (deref it) (fun s => when (isClosed s) (closeStream cbs it ErrNoError)) else ret tt)
     (fun _ c' => conn_inv pend c') c.
Proof using Hcbs.
  intros Hc Hit. destruct es; [|by apply wp_ret]. destruct (Hit eq_refl) as [He [s Hs]].
  apply wp_bind. eapply wp_deref; [exact He|exact Hs|].
  apply wp_when; intros E; [by eapply closeStream_inv|done].
Qed.

Lemma finishHeaders_inv pend c it block es :
  conn_inv pend c -> points_to it c -> span_ok block ->
  wp (finishHeaders cbs it block es) (fun _ c' => conn_inv pend c') c.
Proof using Hcbs.
  intros Hc Hit Hb. pose proof Hit as [He [s Hs]]. unfold finishHeaders. apply wp_bind. eapply wp_deref; [exact He|exact Hs|].
  destruct (onRecvHeaders es s) as [err s'] eqn:E. wsteps.
  pose proof (inv_stream_op pend c _ s (OpRecvHeaders es) Hc Hs I ltac:(done)) as Hc1.
  cbn [apply_op] in Hc1. rewrite E in Hc1. cbn [snd] in Hc1.
  pose proof (same_slots_put _ s' c (ex_intro _ s Hs)) as Hsame.
  case_bool_decide; [werror|].
  wsteps. eapply wp_mono; [apply (decodeAndEmit_inv pend _ (it_first it) block es Hc1 Hb)|].
  intros e2 c2 [Hc2 Hs2]. cbv beta.
  case_bool_decide; [werror|].
  apply wp_bind. eapply wp_mono; [apply (close_if_done_inv pend c2 it es Hc2)|].
  { intros Ees. apply (same_slots_points it c); [|exact Hit]. eapply same_slots_trans; [exact Hsame|by apply Hs2]. }
  intros [] c3 Hc3. by apply wp_ret.
Qed.

(** ** DATA *)

Lemma handleDataFrame_safe header payload :
  frame_ok header payload -> safe (handleDataFrame cbs header payload).
Proof using Hcbs.
  intros (Hp & Hl & Hi) pend c Hc. unfold handleDataFrame.
  destruct (_ =? 0); [by apply connectionError_safe|].
  destruct (ParseDataFrame header payload) as [e|frame]; [destruct e; by apply connectionError_safe|].
  pose proof (zlen_nonneg payload). rewrite s32_id by lia. wsteps.
  pose proof (inv_recv _ _ Hc) as Hr. unfold kMaxWindowSize in Hr.
  destruct (Z.ltb_spec (c_connectionRecvWindow c) (zlen payload)) as [|Hle]; [by apply connectionError_safe|].
  wsteps. rewrite s32_id by lia.
  apply (inv_set_recv pend (c_connectionRecvWindow c - zlen payload)) in Hc;
    [|unfold kMaxWindowSize; lia].
  revert Hc. generalize (set_connectionRecvWindow (c_connectionRecvWindow c - zlen payload) c).
  clear Hr Hle c. intros c Hc. set (id := fh_streamId header) in *.
  destruct (c_streams c !! id) as [s|] eqn:E; [|by apply wp_ret].
  destruct (canReceive s) eqn:Ecan; cbn [negb]; [|by apply streamError_safe].
  rewrite u32_id by lia.
  destruct (consumeRecvWindow (zlen payload) s) as [ok s1] eqn:Ew.
  destruct ok; cbn [negb]; [|by apply streamError_safe].
  assert (Hn : op_ok (OpConsumeRecv (zlen payload))) by (cbn; lia).
  pose proof (entry_op s _ (entry_of _ _ _ _ Hc E) Hn ltac:(done)) as [He1 Hn1].
  cbn [apply_op] in He1, Hn1. rewrite Ew in He1, Hn1. cbn [snd] in He1, Hn1.
  assert (Hst : st_state s1 = st_state s).
  { unfold consumeRecvWindow in Ew. destruct (_ <? _); by simplify_eq. }
  destruct (onRecvData (df_endStream frame) s1) as [err s2] eqn:Es.
  pose proof (entry_op s1 (OpRecvData (df_endStream frame)) He1 I ltac:(done)) as [He2 Hn2].
  cbn [apply_op] in He2, Hn2. rewrite Es in He2, Hn2. cbn [snd] in He2, Hn2.
  assert (Herr : err = ErrNoError).
  { unfold canReceive in Ecan. unfold onRecvData in Es. rewrite Hst in Es.
    destruct (st_state s); by simplify_eq. }
  wsteps. apply wp_assert; [by apply bool_decide_eq_true|]. wsteps.
  pose proof (inv_update_stream pend c id s s2 Hc E He2 ltac:(congruence)) as Hc2.
  set (it := MkIterator id (c_streamsEpoch c)).
  assert (Hit : points_to it (set_streams (<[id:=s2]> (c_streams c)) c)).
  { split; [done|]. cbn. rewrite lookup_insert_eq. by eexists. }
  eapply wp_mono.
  { apply (wp_opt_call_held _ _ (df_endStream frame) pend); [exact Hc2|].
    intros f Hf. by apply (ok_data cbs Hcbs f Hf). }
  intros [] c3 [Hc3 Hs3]. cbv beta. wsteps.
  assert (Hlast : forall c4, conn_inv pend c4 -> same_slots c3 c4 ->
    wp (bind (if df_endStream frame then
                bind (deref it) (fun s => when (isClosed s) (closeStream cbs it ErrNoError))
              else ret tt) (fun _ => ret (result ActContinue)))
       (fun _ c' => conn_inv pend c') c4).
  { intros c4 Hc4 Hs4. apply wp_bind. eapply wp_mono; [apply (close_if_done_inv pend c4 it _ Hc4)|].
    - intros Ees. eapply same_slots_points; [|exact Hit]. eapply same_slots_trans; [by apply Hs3|exact Hs4].
    - intros [] c5 Hc5. by apply wp_ret. }
  assert (Hu : u32_ok (zlen payload)) by (unfold u32_ok; lia).
  apply wp_when; intros _; [|by apply Hlast].
  wsteps. eapply wp_mono; [by apply (sendWindowUpdate_inv pend c3 id (zlen payload) (fun _ => True))|].
  intros [] c4 [Hc4 Hk4]. cbv beta.
  eapply wp_mono; [by apply (sendWindowUpdate_inv pend c4 0 (zlen payload) (fun _ => True))|].
  intros [] c5 [Hc5 Hk5]. apply Hlast; [done|]. by eapply same_slots_trans.
Qed.

(** ** HEADERS *)

Lemma openPeerStream_inv pend c id :
  conn_inv pend c ->
  wp (openPeerStream id)
     (fun r c' => conn_inv pend c' /\ (r = None -> is_Some (c_streams c' !! id))) c.
Proof.
  intros Hc. unfold openPeerStream. wsteps.
  destruct (c_streams c !! id) as [s|] eqn:E; [wsteps; split; [done|by eexists]|]. wsteps.
  cbn [c_peerSettings c_isServer c_lastPeerStreamId c_activeStreamCount c_localSettings set_streams set_streamsEpoch].
  assert (Herr : forall code msg,
    wp (bind (erase_stream id) (fun _ => bind (connectionError code msg) (fun r => ret (Some r))))
       (fun r c' => conn_inv pend c' /\ (r = None -> is_Some (c_streams c' !! id)))
       (set_streamsEpoch (c_streamsEpoch c + 1)
         (set_streams (<[id := NewStream id (ps_initialWindowSize (c_peerSettings c))]> (c_streams c)) c))).
  { intros code msg. wsteps. cbn [c_streams c_streamsEpoch set_streams set_streamsEpoch]. rewrite rollback_stream by done.
    eapply wp_mono; [by apply connectionError_safe, inv_set_epoch|]. intros r c' Hc'. by apply wp_ret. }
  destruct (_ && (Z.land _ _ =? _)); [apply Herr|].
  destruct (_ && (_ <=? _)); [apply Herr|].
  destruct (Z.leb_spec (cfg_maxConcurrentStreams (c_localSettings c)) (c_activeStreamCount c)); [apply Herr|].
  wsteps. destruct (inv_peer _ _ Hc) as (_ & Hi & _). destruct (inv_config _ _ Hc) as (_ & _ & [_ Hu] & _).
  split; [|intros _; cbn; rewrite lookup_insert_eq; by eexists].
  apply inv_set_lastPeer.
  apply (inv_set_epoch pend (c_streamsEpoch c + 1)) in Hc.
  apply (inv_new_stream pend _ id (NewStream id (ps_initialWindowSize (c_peerSettings c))) Hc);
    [done|by apply new_stream_entry|done|cbn; lia].
Qed.

Lemma handleHeadersFrame_safe header payload :
  frame_ok header payload -> safe (handleHeadersFrame cbs header payload).
Proof using Hcbs.
  intros (Hp & Hl & Hi) pend c Hc. unfold handleHeadersFrame.
  destruct (_ =? 0); [by apply connectionError_safe|]. wsteps.
  destruct (_ && _); [by apply wp_ret|].
  destruct (ParseHeadersFrame header payload) as [e|frame] eqn:Ep;
    [destruct e; by apply connectionError_safe|].
  destruct (headers_fragment_ok _ _ _ Hp Ep) as [Hfok Hfl]. set (id := fh_streamId header) in *.
  wsteps. eapply wp_mono; [by apply openPeerStream_inv|]. intros r c1 [Hc1 Hin1]. cbv beta.
  destruct r as [r|]; [by apply wp_ret|]. specialize (Hin1 eq_refl). wsteps.
  set (it := MkIterator id (c_streamsEpoch c1)). destruct (_ && _); [by apply streamError_safe|]. wsteps.
  assert (Hrest : forall c2, conn_inv pend c2 -> points_to it c2 ->
    wp (if negb (hf_endHeaders frame) then
          if kMaxHeaderBlockAccumulationSize <? zlen (hf_headerBlockFragment frame) then
            connectionError ErrEnhanceYourCalm (str "Header block too large")
          else
            modify (set_expectingContinuation true) ;;;
            modify (set_headerBlockStreamId id) ;;;
            modify (set_headerBlockEndStream (hf_endStream frame)) ;;;
            modify (set_headerBlockBuffer (hf_headerBlockFragment frame)) ;;;
            ret (result ActContinue)
        else
          r <- finishHeaders cbs it (hf_headerBlockFragment frame) (hf_endStream frame) ;;
          match r with Some r => ret r | None => ret (result ActContinue) end)
       (fun _ c' => conn_inv pend c') c2).
  { intros c2 Hc2 Hin2. destruct (negb (hf_endHeaders frame)).
    - destruct (Z.ltb_spec kMaxHeaderBlockAccumulationSize (zlen (hf_headerBlockFragment frame)));
        [by apply connectionError_safe|]. wsteps.
      apply inv_set_block; [done|done|]. by apply inv_set_blockEnd, inv_set_blockStream, inv_set_expecting.
    - wsteps. eapply wp_mono; [apply finishHeaders_inv; [done|done|split; [done|lia]]|].
      intros [r|] c3 Hc3; by apply wp_ret. }
  apply wp_when; intros Hprio; [|by apply Hrest].
  destruct Hin1 as [s Hs]. apply wp_bind. eapply wp_deref; [reflexivity|exact Hs|]. wsteps.
  apply Hrest; [|split; [done|cbn; rewrite lookup_insert_eq; by eexists]].
  by apply (inv_stream_op pend c1 id s
    (OpSetPriority (hf_streamDependency frame) (hf_weight frame) (hf_exclusive frame))).
Qed.

(** ** The other frames *)

Lemma handlePriorityFrame_safe header payload : safe (handlePriorityFrame cbs header payload).
Proof using Hcbs.
  intros pend c Hc. unfold handlePriorityFrame. destruct (_ =? 0); [by apply connectionError_safe|].
  destruct (ParsePriorityFrame header payload) as [e|frame]; [by apply connectionError_safe|].
  destruct (_ =? _); [by apply streamError_safe|]. wsteps.
  destruct (c_streams c !! fh_streamId header) as [s|] eqn:E; wsteps.
  - by apply (inv_stream_op pend c _ s
      (OpSetPriority (pf_streamDependency frame) (pf_weight frame) (pf_exclusive frame))).
  - destruct (_ <? _); [by apply connectionError_safe, inv_set_idle|]. by apply wp_ret, inv_set_idle.
Qed.

Lemma handleRstStreamFrame_safe header payload : safe (handleRstStreamFrame cbs header payload).
Proof using Hcbs.
  intros pend c Hc. unfold handleRstStreamFrame. destruct (_ =? 0); [by apply connectionError_safe|].
  destruct (ParseRstStreamFrame header payload) as [e|frame]; [by apply connectionError_safe|]. wsteps.
  destruct (c_streams c !! fh_streamId header) as [s|] eqn:E; [|by apply wp_ret]. wsteps.
  set (s' := setErrorCode (rf_errorCode frame) (onRecvRstStream s)).
  assert (He : entry_ok s').
  { pose proof (entry_of _ _ _ _ Hc E) as [Hs _]. split; [exact Hs|reflexivity]. }
  pose proof (inv_update_stream pend c _ s s' Hc E He eq_refl) as Hc1.
  eapply wp_mono; [apply (closeStream_inv cbs Hcbs pend _ (MkIterator (fh_streamId header) (c_streamsEpoch c)) (rf_errorCode frame) s');
    [exact Hc1|reflexivity|cbn; apply lookup_insert_eq|reflexivity]|].
  intros [] c2 Hc2. cbv beta. wsteps. eapply wp_mono; [apply wp_opt_call; [exact Hc2|]|].
  { intros f Hf. by apply (ok_reset cbs Hcbs f Hf). }
  intros [] c3 Hc3. by apply wp_ret.
Qed.

Lemma update_windows_inv pend ids v c :
  conn_inv pend c -> 0 <= v <= kMaxWindowSize ->
  (forall i, i ∈ ids -> is_Some (c_streams c !! i)) ->
  wp (update_windows ids v)
     (fun _ c' => conn_inv pend c' /\ c_peerSettings c' = c_peerSettings c) c.
Proof.
  intros Hc Hv. revert c Hc. induction ids as [|id ids IH]; intros c Hc Hin; cbn [update_windows].
  { by apply wp_ret. }
  destruct (Hin id ltac:(apply elem_of_cons; by left)) as [s Hs].
  apply wp_bind. eapply wp_stream_at; [exact Hs|].
  destruct (updateInitialWindowSize v s) as [err s'] eqn:E. wsteps.
  pose proof (inv_stream_op pend c id s (OpUpdateInitial v) Hc Hs Hv ltac:(done)) as Hc1.
  cbn [apply_op] in Hc1. rewrite E in Hc1. cbn [snd] in Hc1.
  case_bool_decide; [by apply wp_ret|].
  eapply wp_mono; [apply IH; [exact Hc1|]|done].
  intros i Hi. cbn. apply lookup_insert_is_Some'. right. apply Hin, elem_of_cons. by right.
Qed.

Lemma applySetting_safe e : u32_ok (se_value e) -> safe (applySetting e).
Proof.
  intros Hv pend c Hc. pose proof (inv_peer _ _ Hc) as (Hp1 & Hp2 & Hp3).
  unfold applySetting, with_peer. destruct (se_id e).
  - wsteps. apply inv_set_encoder.
    { destruct (inv_encoder _ _ Hc) as [Hs _]. split; [exact Hs|by right]. }
    by apply inv_set_peer.
  - destruct (1 <? se_value e); [werror|].
    wsteps. by apply inv_set_peer.
  - wsteps. by apply inv_set_peer.
  - destruct (Z.ltb_spec 0x7FFFFFFF (se_value e)); [werror|].
    wsteps. assert (0 <= se_value e <= kMaxWindowSize) by (unfold u32_ok, kMaxWindowSize in *; lia).
    eapply wp_mono; [apply (update_windows_inv pend); [done|done|]|].
    { intros i Hi. apply list_elem_of_fmap in Hi as ([k s] & -> & Hi).
      apply elem_of_map_to_list in Hi. by eexists. }
    intros err c1 [Hc1 Hp]. cbv beta.
    case_bool_decide; [werror|].
    wsteps. apply inv_set_peer; [by rewrite Hp|done].
  - destruct (Z.ltb_spec (se_value e) 16384), (Z.ltb_spec 16777215 (se_value e)); cbn [orb];
      try (werror).
    wsteps. apply inv_set_peer; [|done]. split; [exact Hp1|split; [exact Hp2|done]].
  - wsteps. by apply inv_set_peer.
  - by apply wp_ret.
Qed.

Lemma applySettings_safe es : (forall e, e ∈ es -> u32_ok (se_value e)) -> safe (applySettings es).
Proof.
  induction es as [|e es IH]; intros He; cbn [applySettings]; [apply safe_ret|].
  apply safe_bind; [apply applySetting_safe, He, elem_of_cons; by left|].
  intros [r|]; [apply safe_ret|]. apply IH. intros e' He'. apply He, elem_of_cons. by right.
Qed.

Lemma openIfAwaiting_safe : safe openIfAwaiting.
Proof.
  intros pend c Hc. unfold openIfAwaiting. wsteps. apply wp_when; intros _; [|done].
  wsteps. by apply inv_set_state.
Qed.

Lemma handleSettingsFrame_safe header payload :
  frame_ok header payload -> safe (handleSettingsFrame header payload).
Proof.
  intros (Hp & Hl & Hi) pend c Hc. unfold handleSettingsFrame.
  destruct (negb _); [by apply connectionError_safe|].
  destruct (ParseSettingsFrame header payload) as [e|frame] eqn:Ep; [by apply connectionError_safe|].
  assert (Hvals : forall e, e ∈ sf_entries frame -> u32_ok (se_value e)).
  { unfold ParseSettingsFrame in Ep. repeat case_match; simplify_eq; cbn.
    - intros e He. by apply elem_of_nil in He.
    - intros e He. by eapply settings_values. }
  destruct (sf_isAck frame).
  - wsteps. wsafe openIfAwaiting_safe. intros [] c1 Hc1. cbv beta. wsteps. by apply inv_set_settingsAck.
  - wsteps. wsafe (applySettings_safe _ Hvals). intros r c1 Hc1. cbv beta.
    destruct r as [r|]; [by apply wp_ret|]. wsteps.
    wsafe (safe_write _ appends_settings_ack). intros [] c2 Hc2. cbv beta. wsteps.
    wsafe openIfAwaiting_safe. intros [] c3 Hc3. by apply wp_ret.
Qed.

Lemma handlePingFrame_safe header payload : safe (handlePingFrame header payload).
Proof.
  intros pend c Hc. unfold handlePingFrame. destruct (negb _); [by apply connectionError_safe|].
  destruct (ParsePingFrame header payload) as [e|frame]; [by apply connectionError_safe|].
  destruct (negb _); [|by apply wp_ret]. apply wp_bind.
  wsafe (safe_write _ (appends_ping (MkPingFrame (pg_opaqueData frame) true))).
  intros [] c1 Hc1. by apply wp_ret.
Qed.

Lemma handleGoAwayFrame_safe header payload : safe (handleGoAwayFrame cbs header payload).
Proof using Hcbs.
  intros pend c Hc. unfold handleGoAwayFrame. destruct (negb _); [by apply connectionError_safe|].
  destruct (ParseGoAwayFrame header payload) as [e|frame]; [by apply connectionError_safe|].
  wsteps. eapply wp_mono; [apply wp_opt_call; [by apply inv_set_goAwayLast, inv_set_state|]|].
  { intros f Hf. by apply (ok_goaway cbs Hcbs f Hf). }
  intros [] c1 Hc1. by apply wp_ret.
Qed.

Lemma handleWindowUpdateFrame_safe header payload :
  frame_ok header payload -> safe (handleWindowUpdateFrame cbs header payload).
Proof using Hcbs.
  intros (Hp & Hl & Hi) pend c Hc. unfold handleWindowUpdateFrame.
  destruct (ParseWindowUpdateFrame payload) as [e|frame] eqn:Ep; [by apply connectionError_safe|].
  pose proof (window_increment_ok _ _ Hp Ep) as Hinc. set (n := wu_windowSizeIncrement frame) in *.
  assert (Hnotify : safe (bind (opt_call (cb_onWindowUpdate cbs) (fun f => f (fh_streamId header) n))
            (fun _ => ret (result ActContinue)))).
  { intros pend1 c1 Hc1. wsteps. eapply wp_mono; [apply wp_opt_call; [exact Hc1|]|].
    { intros f Hf. by apply (ok_window cbs Hcbs f Hf). }
    intros [] c2 Hc2. by apply wp_ret. }
  destruct (Z.eqb_spec n 0).
  { destruct (_ =? 0); [by apply connectionError_safe|by apply streamError_safe]. }
  destruct (Z.eqb_spec (fh_streamId header) 0).
  - apply wp_bind, wp_gets. pose proof (inv_send _ _ Hc). unfold kMaxWindowSize in *.
    destruct (Z.ltb_spec 0x7FFFFFFF (c_connectionSendWindow c + n)); [by apply connectionError_safe|].
    apply wp_bind, wp_modify. apply Hnotify. rewrite s32_id by lia.
    apply inv_set_send; [unfold kMaxWindowSize; lia|done].
  - apply wp_bind. unfold find_stream. apply wp_gets.
    destruct (c_streams c !! fh_streamId header) as [s|] eqn:E; [|by apply Hnotify].
    destruct (increaseSendWindow n s) as [err s'] eqn:Es. apply wp_bind. unfold put_stream. apply wp_modify.
    assert (Hn : op_ok (OpIncreaseSend n)) by (cbn; lia).
    pose proof (inv_stream_op pend c _ s _ Hc E Hn ltac:(done)) as Hc1.
    cbn [apply_op] in Hc1. rewrite Es in Hc1. cbn [snd] in Hc1.
    case_bool_decide; [by apply streamError_safe|by apply Hnotify].
Qed.

Lemma handleContinuationFrame_safe header payload :
  frame_ok header payload -> safe (handleContinuationFrame cbs header payload).
Proof using Hcbs.
  intros (Hp & Hl & Hi) pend c Hc. unfold handleContinuationFrame. wsteps.
  destruct (negb _); [by apply connectionError_safe|].
  destruct (negb _); [by apply connectionError_safe|].
  wsteps. cbn [cf_headerBlockFragment ParseContinuationFrame cf_endHeaders].
  destruct (Z.ltb_spec kMaxHeaderBlockAccumulationSize (zlen (c_headerBlockBuffer c) + zlen payload));
    [by apply connectionError_safe|]. wsteps.
  assert (Hblock : bytes_ok (c_headerBlockBuffer c ++ payload)).
  { apply Forall_app. split; [apply Hc|done]. }
  apply (inv_set_block pend (c_headerBlockBuffer c ++ payload)) in Hc; [|done|rewrite zlen_app; lia].
  destruct (negb _); [by apply wp_ret|]. wsteps.
  apply (inv_set_expecting pend false) in Hc. cbn [c_streams set_expectingContinuation set_headerBlockBuffer].
  destruct (c_streams c !! c_headerBlockStreamId c) as [s|] eqn:E; [|by apply connectionError_safe].
  wsteps. eapply wp_mono; [apply finishHeaders_inv; [exact Hc|split; [reflexivity|cbn; by eexists]|]|].
  { split; [done|]. rewrite zlen_app. unfold kMaxHeaderBlockAccumulationSize in *. lia. }
  intros [r|] c2 Hc2; [by apply wp_ret|]. cbv beta. wsteps.
  apply inv_set_blockStream, inv_set_block; [constructor|done|done].
Qed.

(** ** Dispatch *)

Lemma processFrame_safe header payload :
  frame_ok header payload -> safe (processFrame cbs header payload).
Proof using Hcbs.
  intros Hf pend c Hc. unfold processFrame. wsteps. destruct (_ && _); [by apply connectionError_safe|].
  destruct (fh_type header);
    first [ by apply handleDataFrame_safe | by apply handleHeadersFrame_safe
          | by apply handlePriorityFrame_safe | by apply handleRstStreamFrame_safe
          | by apply handleSettingsFrame_safe | by apply connectionError_safe
          | by apply handlePingFrame_safe | by apply handleGoAwayFrame_safe
          | by apply handleWindowUpdateFrame_safe | by apply handleContinuationFrame_safe
          | by apply wp_ret ].
Qed.

Lemma config_frame_size cfg : config_ok cfg -> 16384 <= cfg_maxFrameSize cfg <= 16777215.
Proof.
  intros [Hv _]. unfold validate in Hv. rewrite !andb_true_iff in Hv.
  destruct Hv as [[[[[Hv _] _] _] _] _]. rewrite negb_true_iff, orb_false_iff in Hv. lia.
Qed.

Lemma header_parsed_ok data : bytes_ok data -> 0 <= fh_streamId (ParseFrameHeader data) < 2 ^ 31.
Proof. intros Hd. cbn. rewrite land_31bit. apply Z.mod_pos_bound. lia. Qed.

Lemma header_length_nonneg data : bytes_ok data -> 0 <= fh_length (ParseFrameHeader data).
Proof.
  intros Hd. cbn. unfold Read24BE. rewrite be24_val by (by apply byte_at_ok).
  pose proof (byte_at_ok data 0 Hd). pose proof (byte_at_ok data 1 Hd). pose proof (byte_at_ok data 2 Hd). lia.
Qed.

Lemma processFrames_loop_safe (fuel : nat) (data : bytes) (n : Z) :
  bytes_ok data -> (length data <= fuel)%nat -> safe (processFrames_loop cbs fuel data n).
Proof using Hcbs.
  revert data n. induction fuel as [|fuel IH]; intros data n Hd Hf pend c Hc; cbn [processFrames_loop].
  { destruct data; [|simpl in Hf; lia]. cbn. wsteps. done. }
  unfold kFrameHeaderSize. destruct (Z.ltb_spec (zlen data) 9) as [|H9]; [by wsteps|]. wsteps.
  pose proof (header_length_nonneg data Hd). pose proof (header_parsed_ok data Hd).
  destruct (Z.ltb_spec (cfg_maxFrameSize (c_localSettings c)) (fh_length (ParseFrameHeader data)));
    [by apply connectionError_safe|].
  destruct (Z.ltb_spec (zlen data) (9 + fh_length (ParseFrameHeader data))); [by wsteps|].
  pose proof (config_frame_size _ (inv_config _ _ Hc)).
  wsteps. eapply wp_mono; [apply processFrame_safe; [|exact Hc]|].
  { split_and!; [by apply subspan_bytes|rewrite subspan_length; lia|lia|lia]. }
  intros r c1 Hc1. cbv beta. destruct (negb _); [by apply wp_ret|].
  apply IH; [by apply bytes_ok_drop| |done]. rewrite length_drop. unfold zlen in *. lia.
Qed.

Lemma processInput_safe data : bytes_ok data -> safe (processInput cbs data).
Proof using Hcbs.
  intros Hd pend c Hc. unfold processInput. destruct data as [|b data0] eqn:E; [by apply wp_ret|].
  rewrite <- E in *. clear E. wsteps.
  assert (Hfr : wp (processFrames cbs data) (fun _ c' => conn_inv pend c') c)
    by exact (processFrames_loop_safe (length data) data 0 Hd (le_n _) pend c Hc).
  destruct (c_state c); try exact Hfr; [|by apply wp_ret].
  unfold processPreface. wsteps. destruct (c_isServer c).
  - destruct (_ <? _); [by apply wp_ret|]. destruct (negb _); [by apply connectionError_safe|].
    wsteps. apply (inv_set_state pend AwaitingSettings) in Hc.
    apply wp_when; intros _; [|by wsteps]. eapply wp_safe; [apply sendSettings_safe|exact Hc|].
    intros [] c1 Hc1. by apply wp_ret.
  - wsteps. by apply inv_set_state.
Qed.
End Handlers.

(** The connection once constructed, with a configuration that [validate] accepts. *)
Lemma new_connection_inv cfg isServer : config_ok cfg -> conn_inv [] (new_connection cfg isServer).
Proof.
  intros Hcfg. pose proof Hcfg as (Hv & Hh & Hm & Hi & Hf & Hl & Hw). unfold validate in Hv.
  rewrite !andb_true_iff in Hv. destruct Hv as (((((Hf1 & Hi1) & Hw1) & Hh1) & Hl1) & _).
  rewrite negb_true_iff in Hw1, Hh1. apply Z.ltb_ge in Hw1, Hh1. unfold u32_ok in *.
  constructor; cbn [c_localSettings c_peerSettings c_streams c_closedStreamsFifo c_activeStreamCount
    c_connectionSendWindow c_connectionRecvWindow c_hpackEncoder c_hpackDecoder c_headerBlockBuffer
    c_outputBuffer c_outputWritePos new_connection]; try done.
  - unfold kMaxWindowSize. rewrite s32_id; lia.
  - constructor.
  - intros id. cbn. unfold notified_in. rewrite elem_of_nil. split; [done|]. intros (s & Hs & _).
    by rewrite lookup_empty in Hs.
  - constructor.
  - split; [|by left]. split; [constructor; cbn; (done || lia)|cbn; lia].
  - split; [constructor; cbn; (done || lia)|cbn; lia].
Qed.

(** Connections of the examples, once the settings were exchanged. *)
Definition example_server : Http2Connection := set_state Open (new_connection default_config true).
Definition example_client : Http2Connection := set_state Open (new_connection default_config false).

Lemma default_config_ok : config_ok default_config.
Proof. vm_compute. intuition congruence. Qed.

Lemma example_server_inv : conn_inv [] example_server.
Proof. apply inv_set_state, new_connection_inv, default_config_ok. Qed.

Lemma example_client_inv : conn_inv [] example_client.
Proof. apply inv_set_state, new_connection_inv, default_config_ok. Qed.
