(* ===== verification/Http2ConnInput.v ===== *)
(** The input side of HTTP/2 connections: how received bytes are cut into frames.  The frame
    loop needs no more fuel than the bytes it is given, consumes whole frames only, and its
    outcome does not depend on how the transport splits the stream of bytes. *)

From S2P Require Import Prelude Http2Frame Http2Stream HpackTables AsciiCase Hpack HpackProofs.
From S2P Require Import HpackRoundtrip HeadersView Http2Connection Http2ConnInv Http2ConnSafe.
Local Open Scope Z_scope.
Local Open Scope conn_scope.

(** ** Computations *)

Lemma bind_assoc {A B C} (m : M A) (k : A -> M B) (l : B -> M C) c :
  bind (bind m k) l c = bind m (fun a => bind (k a) l) c.
Proof. unfold bind. by destruct (m c) as [|[a c']]. Qed.

Lemma bind_ext {A B} (m : M A) (k k' : A -> M B) c :
  (forall a c', k a c' = k' a c') -> bind m k c = bind m k' c.
Proof. intros H. unfold bind. destruct (m c) as [|[a c']]; [done|apply H]. Qed.

Lemma bind_cong {A B} (m m' : M A) (k : A -> M B) c : m c = m' c -> bind m k c = bind m' k c.
Proof. unfold bind. by intros ->. Qed.

Lemma bind_from {A B} (m m' : M A) (k : A -> M B) c c' : m c = m' c' -> bind m k c = bind m' k c'.
Proof. unfold bind. by intros ->. Qed.

Lemma bind_run {A B} (m : M A) (k : A -> M B) c a c' : m c = inr (a, c') -> bind m k c = k a c'.
Proof. unfold bind. by intros ->. Qed.

Lemma bind_gets {A B} (f : Http2Connection -> A) (k : A -> M B) c : bind (gets f) k c = k (f c) c.
Proof. done. Qed.

Lemma bind_modify {B} f (k : unit -> M B) c : bind (modify f) k c = k tt (f c).
Proof. done. Qed.

Lemma bind_ret_r {A} (m : M A) c : bind m ret c = m c.
Proof. unfold bind. by destruct (m c) as [|[a c']]. Qed.

Section Input.
Context (cbs : Callbacks).

(** ** One frame of the loop *)

(** No complete frame at the front of the data. *)
Definition incomplete (data : bytes) : Prop :=
  zlen data < kFrameHeaderSize \/ zlen data < kFrameHeaderSize + fh_length (ParseFrameHeader data).

Lemma loop_step fuel data n c :
  bytes_ok data -> (length data <= fuel)%nat ->
  processFrames_loop cbs fuel data n c =
  (if zlen data <? kFrameHeaderSize then
     inr (MkResult (if hasPendingOutput c then ActOutputReady else ActContinue) ErrNoError n [], c)
   else if cfg_maxFrameSize (c_localSettings c) <? fh_length (ParseFrameHeader data) then
     connectionError ErrFrameSizeError (str "Frame exceeds maximum size") c
   else if zlen data <? kFrameHeaderSize + fh_length (ParseFrameHeader data) then
     inr (MkResult (if hasPendingOutput c then ActOutputReady else ActContinue) ErrNoError n [], c)
   else
     bind (processFrame cbs (ParseFrameHeader data)
             (subspan kFrameHeaderSize (fh_length (ParseFrameHeader data)) data))
       (fun r =>
          let total := kFrameHeaderSize + fh_length (ParseFrameHeader data) in
          if negb (goes_on (pr_action r)) then ret (with_consumed (n + total) r)
          else processFrames_loop cbs (fuel - 1) (drop (Z.to_nat total) data) (n + total)) c).
Proof.
  intros Hd Hf. destruct fuel as [|fuel].
  - destruct data; [done|simpl in Hf; lia].
  - cbn [processFrames_loop]. destruct (zlen data <? kFrameHeaderSize); [done|].
    unfold bind at 1, gets. destruct (_ <? _); [done|]. cbv zeta. destruct (_ <? _); [done|].
    by rewrite Nat.sub_1_r.
Qed.

Lemma frame_shorter data :
  bytes_ok data -> ~ zlen data < kFrameHeaderSize ->
  (length (drop (Z.to_nat (kFrameHeaderSize + fh_length (ParseFrameHeader data))) data) < length data)%nat.
Proof.
  intros Hd Hz. pose proof (header_length_nonneg data Hd). unfold kFrameHeaderSize in *.
  rewrite length_drop. unfold zlen in *. lia.
Qed.

Lemma loop_fuel fuel data n c :
  bytes_ok data -> (length data <= fuel)%nat ->
  processFrames_loop cbs fuel data n c = processFrames_loop cbs (length data) data n c.
Proof.
  intros Hd Hf. remember (length data) as len eqn:El. revert data fuel n c El Hd Hf.
  induction len as [len IH] using lt_wf_ind. intros data fuel n c -> Hd Hf.
  rewrite !loop_step by lia || done. destruct (Z.ltb_spec (zlen data) kFrameHeaderSize); [done|].
  destruct (_ <? _); [done|]. destruct (_ <? _); [done|].
  apply bind_ext. intros r c'. cbv zeta. destruct (negb _); [done|].
  pose proof (frame_shorter data Hd ltac:(lia)) as Hlt.
  rewrite (IH _ Hlt _ (fuel - 1)%nat), (IH _ Hlt _ (length data - 1)%nat); try done;
    try (by apply bytes_ok_drop); lia.
Qed.

(** The result of a loop that starts when [n] bytes were consumed already: an oversized
    frame reports none of them. *)
Definition resume (n : Z) (r : ProcessResult) : ProcessResult :=
  if negb (goes_on (pr_action r)) && (pr_bytesConsumed r =? 0) then r
  else with_consumed (n + pr_bytesConsumed r) r.

Lemma resume_0 r : resume 0 r = r.
Proof. unfold resume. destruct (_ && _); by destruct r. Qed.

Lemma resume_add m n r : 0 <= m -> 0 <= n -> 0 <= pr_bytesConsumed r -> resume m (resume n r) = resume (m + n) r.
Proof.
  intros Hm Hn Hr. unfold resume. destruct (negb (goes_on (pr_action r))) eqn:E; cbn [andb].
  - destruct (Z.eqb_spec (pr_bytesConsumed r) 0) as [E0|E0]; cbn [pr_action pr_bytesConsumed with_consumed];
      rewrite E; cbn [andb].
    + by rewrite E0.
    + rewrite (proj2 (Z.eqb_neq (n + _) 0)) by lia. unfold with_consumed. cbn. f_equal. lia.
  - cbn [pr_action pr_bytesConsumed with_consumed]. rewrite E. cbn [andb].
    unfold with_consumed. cbn. f_equal. lia.
Qed.

(** ** Consumption *)

Lemma connectionError_result code msg c :
  connectionError code msg c
  = inr (MkResult ActError code 0 msg,
         set_state Closed (match initiateGoAway code msg c with inr (_, c') => c' | inl _ => c end)).
Proof.
  unfold connectionError, initiateGoAway, bind, gets, modify, write, ret. by destruct (c_state c).
Qed.

Lemma loop_consumed len data n c r c' :
  bytes_ok data -> length data = len -> 0 <= n ->
  processFrames_loop cbs len data n c = inr (r, c') ->
  if goes_on (pr_action r) then
    n <= pr_bytesConsumed r <= n + zlen data
    /\ incomplete (drop (Z.to_nat (pr_bytesConsumed r - n)) data)
  else pr_bytesConsumed r = 0 \/ n + kFrameHeaderSize <= pr_bytesConsumed r <= n + zlen data.
Proof.
  intros Hd El Hn. revert data n c El Hd Hn. induction len as [len IH] using lt_wf_ind.
  intros data n c El Hd Hn. subst len. rewrite loop_step by done.
  pose proof (zlen_nonneg data). pose proof (header_length_nonneg data Hd).
  assert (Hstop : incomplete data -> forall a, goes_on a = true -> inr (A := fault) (MkResult a ErrNoError n [], c) = inr (r, c') ->
    if goes_on (pr_action r) then
      n <= pr_bytesConsumed r <= n + zlen data
      /\ incomplete (drop (Z.to_nat (pr_bytesConsumed r - n)) data)
    else pr_bytesConsumed r = 0 \/ n + kFrameHeaderSize <= pr_bytesConsumed r <= n + zlen data).
  { intros Hi a Ha E. injection E as <- <-. cbn [pr_action pr_bytesConsumed]. rewrite Ha, Z.sub_diag, drop_0.
    split; [lia|done]. }
  destruct (Z.ltb_spec (zlen data) kFrameHeaderSize).
  { apply Hstop; [by left|by destruct (hasPendingOutput c)]. }
  destruct (_ <? _).
  { rewrite connectionError_result. intros E. injection E as <- <-. by left. }
  destruct (Z.ltb_spec (zlen data) (kFrameHeaderSize + fh_length (ParseFrameHeader data))).
  { apply Hstop; [by right|by destruct (hasPendingOutput c)]. }
  unfold bind at 1. destruct (processFrame cbs _ _ c) as [|[r1 c1]]; [done|]. cbv zeta.
  unfold kFrameHeaderSize in *. set (t := 9 + fh_length (ParseFrameHeader data)) in *.
  destruct (goes_on (pr_action r1)) eqn:Eg; cbn [negb].
  - rewrite loop_fuel by (first [by apply bytes_ok_drop|rewrite length_drop; unfold zlen in *; lia]).
    intros E. apply IH in E; [|unfold zlen in *; rewrite length_drop; lia|done|by apply bytes_ok_drop|lia].
    assert (Hz : zlen (drop (Z.to_nat t) data) = zlen data - t) by (unfold zlen in *; rewrite length_drop; lia).
    rewrite Hz in E. destruct (goes_on (pr_action r)).
    + destruct E as [Hb Hi]. split; [lia|]. rewrite drop_drop in Hi.
      by replace (Z.to_nat t + Z.to_nat (pr_bytesConsumed r - (n + t)))%nat
        with (Z.to_nat (pr_bytesConsumed r - n)) in Hi by lia.
    + lia.
  - intros E. injection E as <- <-. cbn [pr_action with_consumed pr_bytesConsumed]. rewrite Eg. right. lia.
Qed.

Lemma loop_shift len data n c :
  bytes_ok data -> length data = len -> 0 <= n ->
  processFrames_loop cbs len data n c
  = bind (processFrames_loop cbs len data 0) (fun r => ret (resume n r)) c.
Proof.
  intros Hd El Hn. revert data n c El Hd Hn. induction len as [len IH] using lt_wf_ind.
  intros data n c El Hd Hn. subst len. unfold bind at 1. rewrite !loop_step by done.
  pose proof (header_length_nonneg data Hd).
  assert (Hstop : forall a, goes_on a = true ->
    resume n (MkResult a ErrNoError 0 []) = MkResult a ErrNoError n []).
  { intros a Ha. unfold resume. cbn [pr_action]. rewrite Ha. cbn [negb andb].
    unfold with_consumed. cbn. f_equal. lia. }
  assert (Hgo : goes_on (if hasPendingOutput c then ActOutputReady else ActContinue) = true)
    by (by destruct (hasPendingOutput c)).
  destruct (Z.ltb_spec (zlen data) kFrameHeaderSize).
  { unfold ret. by rewrite Hstop. }
  destruct (_ <? _); [by rewrite connectionError_result|].
  destruct (Z.ltb_spec (zlen data) (kFrameHeaderSize + fh_length (ParseFrameHeader data))).
  { unfold ret. by rewrite Hstop. }
  pose proof (frame_shorter data Hd ltac:(lia)) as Hlt.
  unfold bind. destruct (processFrame cbs _ _ c) as [|[r1 c1]]; [done|]. cbv zeta.
  unfold kFrameHeaderSize in *. set (t := 9 + fh_length (ParseFrameHeader data)) in *.
  assert (Hd' : bytes_ok (drop (Z.to_nat t) data)) by (by apply bytes_ok_drop).
  destruct (goes_on (pr_action r1)) eqn:Eg; cbn [negb].
  - rewrite !(loop_fuel (length data - 1)) by (done || lia).
    rewrite !(IH _ Hlt _ _ _ eq_refl Hd') by lia. unfold bind.
    destruct (processFrames_loop cbs (length (drop (Z.to_nat t) data)) (drop (Z.to_nat t) data) 0 c1)
      as [|[r c']] eqn:E; [done|].
    unfold ret. do 2 f_equal. rewrite resume_add; [f_equal; lia|lia|lia|].
    pose proof (loop_consumed _ _ 0 _ _ _ Hd' eq_refl ltac:(lia) E) as Hcons.
    destruct (goes_on (pr_action r)); unfold kFrameHeaderSize in *; lia.
  - unfold ret, resume. cbn [pr_action pr_bytesConsumed with_consumed]. rewrite Eg. cbn [negb andb].
    rewrite (proj2 (Z.eqb_neq (0 + t) 0)) by lia. unfold with_consumed. cbn. do 3 f_equal.
Qed.

(** ** Splitting the stream *)

Lemma header_app a b : kFrameHeaderSize <= zlen a -> ParseFrameHeader (a ++ b) = ParseFrameHeader a.
Proof.
  intros Ha. unfold kFrameHeaderSize, zlen in Ha.
  do 9 (destruct a as [|? a]; [simpl in Ha; lia|]). reflexivity.
Qed.

Lemma loop_split len a b c :
  bytes_ok (a ++ b) -> length a = len ->
  processFrames cbs (a ++ b) c
  = bind (processFrames_loop cbs len a 0) (fun r =>
      if goes_on (pr_action r)
      then bind (processFrames cbs (drop (Z.to_nat (pr_bytesConsumed r)) a ++ b))
             (fun r' => ret (resume (pr_bytesConsumed r) r'))
      else ret r) c.
Proof.
  revert a c. induction len as [len IH] using lt_wf_ind. intros a c Hab El. subst len.
  pose proof Hab as [Ha Hb]%Forall_app. fold (bytes_ok a) in Ha.
  pose proof (header_length_nonneg a Ha). unfold bind at 1. rewrite (loop_step (length a) a) by done.
  assert (Hgo : goes_on (if hasPendingOutput c then ActOutputReady else ActContinue) = true)
    by (by destruct (hasPendingOutput c)).
  assert (Hsame : bind (processFrames cbs (a ++ b)) (fun r' => ret (resume 0 r')) c = processFrames cbs (a ++ b) c).
  { rewrite <- (bind_ret_r (processFrames cbs (a ++ b))). apply bind_ext. intros r c'. by rewrite resume_0. }
  destruct (Z.ltb_spec (zlen a) kFrameHeaderSize) as [|H9].
  { cbn [pr_action pr_bytesConsumed]. rewrite Hgo. by rewrite drop_0, Hsame. }
  destruct (cfg_maxFrameSize (c_localSettings c) <? fh_length (ParseFrameHeader a)) eqn:Ebig.
  { unfold processFrames. rewrite loop_step by done. rewrite header_app, zlen_app by done.
    pose proof (zlen_nonneg b). rewrite (proj2 (Z.ltb_ge _ _)) by lia.
    by rewrite Ebig, connectionError_result. }
  destruct (Z.ltb_spec (zlen a) (kFrameHeaderSize + fh_length (ParseFrameHeader a))).
  { cbn [pr_action pr_bytesConsumed]. rewrite Hgo. by rewrite drop_0, Hsame. }
  unfold processFrames at 1. rewrite loop_step by done. rewrite header_app, zlen_app by done.
  pose proof (zlen_nonneg b). rewrite !(proj2 (Z.ltb_ge _ _)) by (done || lia).
  unfold kFrameHeaderSize in *. rewrite subspan_app_l by lia.
  set (t := 9 + fh_length (ParseFrameHeader a)) in *. unfold bind at 1 2.
  destruct (processFrame cbs _ _ c) as [|[r1 c1]]; [done|]. cbv zeta.
  destruct (goes_on (pr_action r1)) eqn:Eg; cbn [negb].
  2:{ unfold ret, with_consumed. cbn [pr_action]. by rewrite Eg. }
  assert (Hdrop : drop (Z.to_nat t) (a ++ b) = drop (Z.to_nat t) a ++ b)
    by (apply drop_app_le; unfold zlen in *; lia).
  assert (Hd' : bytes_ok (drop (Z.to_nat t) a ++ b))
    by (rewrite <- Hdrop; by apply bytes_ok_drop).
  pose proof Hd' as [Ha' _]%Forall_app.
  assert (Hlt : (length (drop (Z.to_nat t) a) < length a)%nat).
  { rewrite length_drop. unfold zlen in *. lia. }
  rewrite Hdrop, (loop_fuel (length (a ++ b) - 1)) by (first [done|rewrite !length_app; lia]).
  rewrite loop_shift by (done || lia).
  change (processFrames_loop cbs (length (drop (Z.to_nat t) a ++ b)) (drop (Z.to_nat t) a ++ b) 0)
    with (processFrames cbs (drop (Z.to_nat t) a ++ b)).
  rewrite (loop_fuel (length a - 1)) by (done || lia).
  rewrite (loop_shift _ (drop (Z.to_nat t) a)) by (done || lia).
  unfold bind at 1. rewrite (IH _ Hlt _ c1 Hd' eq_refl). unfold bind at 1 3.
  destruct (processFrames_loop cbs (length (drop (Z.to_nat t) a)) (drop (Z.to_nat t) a) 0 c1)
    as [|[r c']] eqn:E; [done|].
  pose proof (loop_consumed _ _ 0 _ _ _ Ha' eq_refl ltac:(lia) E) as Hcons.
  change (ret (resume (0 + t) r) c') with (inr (A := fault) (resume (0 + t) r, c')). cbv iota beta.
  assert (Hact : pr_action (resume (0 + t) r) = pr_action r) by (unfold resume; by destruct (_ && _)).
  rewrite Hact. destruct (goes_on (pr_action r)) eqn:Er; [|done].
  assert (Hk : pr_bytesConsumed (resume (0 + t) r) = t + pr_bytesConsumed r).
  { unfold resume. rewrite Er. cbn [negb andb pr_bytesConsumed with_consumed]. lia. }
  rewrite Hk. destruct Hcons as [Hcons _]. rewrite drop_drop.
  replace (Z.to_nat t + Z.to_nat (pr_bytesConsumed r))%nat
    with (Z.to_nat (t + pr_bytesConsumed r)) by lia.
  unfold bind. set (rest := drop _ a ++ b).
  assert (Hrest : bytes_ok rest).
  { apply Forall_app. split; [by apply bytes_ok_drop|done]. }
  destruct (processFrames cbs rest c') as [|[r' c2]] eqn:E2; [done|].
  pose proof (loop_consumed _ _ 0 _ _ _ Hrest eq_refl ltac:(lia) E2) as H2.
  unfold ret. rewrite resume_add; [done|lia|lia|].
  destruct (goes_on (pr_action r')); unfold kFrameHeaderSize in *; lia.
Qed.
(** ** Frames as they are received *)

(** A frame, then the rest of the data. *)
Definition serve (m : M ProcessResult) (n : Z) (rest : bytes) : M ProcessResult :=
  bind m (fun r =>
    if negb (goes_on (pr_action r)) then ret (with_consumed n r)
    else bind (processFrames cbs rest) (fun r' => ret (resume n r'))).

Lemma serve_cong m m' n rest c c' : m c = m' c' -> serve m n rest c = serve m' n rest c'.
Proof. unfold serve, bind. by intros ->. Qed.

Lemma serve_run m n rest c r c' :
  m c = inr (r, c') -> goes_on (pr_action r) = true ->
  serve m n rest c = bind (processFrames cbs rest) (fun r' => ret (resume n r')) c'.
Proof. intros E Hg. unfold serve. rewrite (bind_run _ _ _ _ _ E). by rewrite Hg. Qed.

Lemma processFrames_consumed data c r c' :
  bytes_ok data -> processFrames cbs data c = inr (r, c') -> 0 <= pr_bytesConsumed r.
Proof.
  intros Hd E. pose proof (loop_consumed _ _ 0 _ _ _ Hd eq_refl ltac:(lia) E) as H.
  destruct (goes_on (pr_action r)); unfold kFrameHeaderSize in *; lia.
Qed.

Lemma serve_shift m n n' rest c :
  bytes_ok rest -> 0 <= n -> 0 < n' ->
  bind (serve m n' rest) (fun r => ret (resume n r)) c = serve m (n + n') rest c.
Proof.
  intros Hr Hn Hn'. unfold serve. rewrite bind_assoc. apply bind_ext. intros r c1.
  destruct (goes_on (pr_action r)) eqn:Eg; cbn [negb].
  - rewrite bind_assoc. unfold bind. destruct (processFrames cbs rest c1) as [|[r' c2]] eqn:E; [done|].
    unfold ret. rewrite resume_add; [done|lia|lia|]. by eapply processFrames_consumed.
  - unfold bind, ret, resume. cbn [pr_action pr_bytesConsumed with_consumed]. rewrite Eg.
    by rewrite (proj2 (Z.eqb_neq n' 0)) by lia.
Qed.

Lemma processFrames_frame h payload rest c :
  frame_header_ok h -> fh_length h = zlen payload -> bytes_ok (WriteFrameHeader h ++ payload ++ rest) ->
  fh_length h <= cfg_maxFrameSize (c_localSettings c) ->
  processFrames cbs (WriteFrameHeader h ++ payload ++ rest) c
  = serve (processFrame cbs h payload) (kFrameHeaderSize + zlen payload) rest c.
Proof.
  intros Hh Hlen Hd Hm. unfold processFrames at 1. rewrite loop_step by done.
  rewrite header_roundtrip by done. rewrite Hlen in *. unfold kFrameHeaderSize in *.
  pose proof (zlen_nonneg payload). pose proof (zlen_nonneg rest).
  assert (Hw : zlen (WriteFrameHeader h) = 9) by apply WriteFrameHeader_length.
  assert (Hz : zlen (WriteFrameHeader h ++ payload ++ rest) = 9 + zlen payload + zlen rest)
    by (rewrite !zlen_app; lia).
  rewrite Hz, !(proj2 (Z.ltb_ge _ _)) by lia.
  rewrite subspan_app_mid by done. unfold serve. apply bind_ext. intros r c1. cbv zeta.
  destruct (negb _); [done|].
  assert (Hdrop : drop (Z.to_nat (9 + zlen payload)) (WriteFrameHeader h ++ payload ++ rest) = rest).
  { rewrite app_assoc. apply drop_app_length'. rewrite length_app. unfold zlen in *. lia. }
  assert (Hr : bytes_ok rest) by (rewrite <- Hdrop; by apply bytes_ok_drop).
  rewrite Hdrop, loop_fuel; [|done|rewrite !length_app; unfold zlen in *; lia].
  by rewrite loop_shift by (done || lia).
Qed.

(** ** Header blocks over several frames *)

Definition headers_frame (id : Z) (es eh : bool) (fragment : bytes) : bytes :=
  WriteFrameHeader (MkFrameHeader (zlen fragment) FtHeaders (ComputeHeaderFrameFlags es eh FlagNone) id)
  ++ fragment.

Definition continuation_frame (id : Z) (eh : bool) (fragment : bytes) : bytes :=
  WriteFrameHeader (wire_header (WContinuation id fragment eh)) ++ fragment.

Definition is_nil {A} (l : list A) : bool := match l with [] => true | _ => false end.

(** CONTINUATION frames, the last one with END_HEADERS. *)
Fixpoint continuation_frames (id : Z) (fragments : list bytes) : bytes :=
  match fragments with
  | [] => []
  | f :: fs => continuation_frame id (is_nil fs) f ++ continuation_frames id fs
  end.

Definition block_frames (id : Z) (es : bool) (fragments : list bytes) : bytes :=
  match fragments with
  | [] => []
  | f :: fs => headers_frame id es (is_nil fs) f ++ continuation_frames id fs
  end.

Definition id_ok (id : Z) : Prop := 0 <= id < 2 ^ 31.

(** The connection while a header block is assembled. *)
Definition assembling (id : Z) (es : bool) (buffer : bytes) (c : Http2Connection) : Http2Connection :=
  set_headerBlockBuffer buffer (set_headerBlockEndStream es (set_headerBlockStreamId id
    (set_expectingContinuation true c))).

Definition fragment_ok (c : Http2Connection) (f : bytes) : Prop :=
  bytes_ok f /\ zlen f <= cfg_maxFrameSize (c_localSettings c) /\ zlen f < 2 ^ 24.

Lemma continuation_header_ok id f eh :
  id_ok id -> zlen f < 2 ^ 24 -> frame_header_ok (wire_header (WContinuation id f eh)).
Proof. intros Hi Hf. apply wire_header_ok. split; [done|]. cbn. lia. Qed.

Lemma assembling_more id es buffer f c (rest : list bytes) :
  zlen buffer + zlen f <= kMaxHeaderBlockAccumulationSize -> is_Some (c_streams c !! id) ->
  processFrame cbs (wire_header (WContinuation id f (is_nil rest))) f (assembling id es buffer c)
  = if is_nil rest then
      bind (iterator_at id) (fun it => bind (finishHeaders cbs it (buffer ++ f) es) (fun r =>
        match r with
        | Some r => ret r
        | None => modify (set_headerBlockBuffer []) ;;; modify (set_headerBlockStreamId 0) ;;;
                  ret (result ActContinue)
        end)) (set_expectingContinuation false (assembling id es (buffer ++ f) c))
    else inr (result ActContinue, assembling id es (buffer ++ f) c).
Proof.
  intros Hl [s Hs]. unfold processFrame. rewrite bind_gets.
  change (c_expectingContinuation (assembling id es buffer c)) with true.
  change (fh_type (wire_header _)) with FtContinuation. rewrite bool_decide_eq_true_2 by done. cbn [andb negb].
  unfold handleContinuationFrame. rewrite !bind_gets.
  change (c_expectingContinuation (assembling id es buffer c)) with true.
  change (c_headerBlockStreamId (assembling id es buffer c)) with id.
  change (fh_streamId (wire_header _)) with id. rewrite Z.eqb_refl. cbn [negb]. rewrite bind_gets.
  change (c_headerBlockBuffer (assembling id es buffer c)) with buffer.
  cbv zeta. cbn [ParseContinuationFrame cf_headerBlockFragment cf_endHeaders].
  rewrite (proj2 (Z.ltb_ge _ _)) by exact Hl. rewrite bind_modify.
  change (set_headerBlockBuffer ?x (assembling id es buffer c)) with (assembling id es x c).
  replace (hasFlag _ ContinuationEndHeaders) with (is_nil rest) by (by destruct (is_nil rest)).
  destruct (is_nil rest); cbn [negb]; [|reflexivity].
  rewrite bind_modify. unfold find_stream. rewrite bind_gets.
  change (c_streams (set_expectingContinuation false (assembling id es (buffer ++ f) c))) with (c_streams c).
  rewrite Hs. unfold iterator_at. rewrite !bind_gets. reflexivity.
Qed.
(** What follows the last frame of a block. *)
Definition finish_assembly (id : Z) (es : bool) (block : bytes) : M ProcessResult :=
  bind (iterator_at id) (fun it => bind (finishHeaders cbs it block es) (fun r =>
    match r with
    | Some r => ret r
    | None => modify (set_headerBlockBuffer []) ;;; modify (set_headerBlockStreamId 0) ;;;
              ret (result ActContinue)
    end)).

Lemma frames_bytes_ok h f rest :
  bytes_ok f -> bytes_ok rest -> bytes_ok (WriteFrameHeader h) -> bytes_ok (WriteFrameHeader h ++ f ++ rest).
Proof. intros. unfold bytes_ok. by rewrite !Forall_app. Qed.

Lemma continuations_assemble id es fs f0 buffer c rest :
  id_ok id -> is_Some (c_streams c !! id) ->
  Forall (fragment_ok c) (f0 :: fs) -> bytes_ok (continuation_frames id (f0 :: fs) ++ rest) ->
  zlen buffer + zlen (concat (f0 :: fs)) <= kMaxHeaderBlockAccumulationSize ->
  processFrames cbs (continuation_frames id (f0 :: fs) ++ rest) (assembling id es buffer c)
  = serve (finish_assembly id es (buffer ++ concat (f0 :: fs)))
      (zlen (continuation_frames id (f0 :: fs))) rest
      (set_expectingContinuation false (assembling id es (buffer ++ concat (f0 :: fs)) c)).
Proof.
  intros Hid Hs. revert f0 buffer. induction fs as [|f1 fs IH]; intros f0 buffer Hf Hd Hl;
    inversion Hf as [|? ? (Hf0 & Hmax & H24) Hf']; subst; cbn [continuation_frames] in *;
    unfold continuation_frame at 1 in Hd; unfold continuation_frame at 1; rewrite <- !app_assoc in *;
    rewrite processFrames_frame; try done; try (by apply continuation_header_ok).
  - cbn [is_nil concat] in *. rewrite ?app_nil_r in *.
    rewrite (serve_cong _ _ _ _ _ _ (assembling_more id es buffer f0 c [] Hl Hs)).
    replace (zlen (continuation_frame id true f0)) with (kFrameHeaderSize + zlen f0); [done|].
    unfold continuation_frame. rewrite zlen_app, WriteFrameHeader_length. done.
  - cbn [concat] in Hl |- *. rewrite zlen_app in Hl. pose proof (zlen_nonneg (concat (f1 :: fs))) as Hnn.
    cbn [concat] in Hnn.
    rewrite (serve_run _ _ _ _ _ _ (assembling_more id es buffer f0 c (f1 :: fs) ltac:(lia) Hs) eq_refl).
    assert (Hrest : bytes_ok (continuation_frames id (f1 :: fs) ++ rest)).
    { cbn [continuation_frames]. rewrite <- app_assoc.
      by apply Forall_app in Hd as [_ [_ Hd]%Forall_app]. }
    cbn [continuation_frames] in *. rewrite <- app_assoc in Hrest.
    specialize (IH f1 (buffer ++ f0) Hf'). rewrite <- !app_assoc in IH.
    cbn [concat] in IH. 
    etransitivity; [apply bind_from, IH; [exact Hrest|rewrite !zlen_app in *; lia]|].
    pose proof (zlen_nonneg f0). pose proof (zlen_nonneg (continuation_frames id fs)).
    rewrite serve_shift.
    + unfold kFrameHeaderSize. rewrite (zlen_app (continuation_frame id (is_nil (f1 :: fs)) f0)).
      replace (zlen (continuation_frame id (is_nil (f1 :: fs)) f0)) with (9 + zlen f0); [done|].
      unfold continuation_frame. by rewrite zlen_app, WriteFrameHeader_length.
    + by apply Forall_app in Hrest as [_ [_ Hrest]%Forall_app].
    + unfold kFrameHeaderSize. lia.
    + unfold continuation_frame. rewrite !zlen_app, WriteFrameHeader_length. unfold kFrameHeaderSize.
      pose proof (zlen_nonneg f1). lia.
Qed.

(** ** HEADERS *)

Lemma openPeerStream_opened id c c1 :
  openPeerStream id c = inr (None, c1) ->
  is_Some (c_streams c1 !! id) /\ c_localSettings c1 = c_localSettings c
  /\ c_expectingContinuation c1 = c_expectingContinuation c.
Proof.
  unfold openPeerStream, bind at 1, find_stream, gets.
  destruct (c_streams c !! id) as [s|] eqn:E.
  { intros H. injection H as <-. by rewrite E. }
  unfold bind, insert_stream, erase_stream, modify, gets.
  cbn [c_isServer c_lastPeerStreamId c_activeStreamCount c_localSettings set_streams set_streamsEpoch].
  destruct (_ && (Z.land _ _ =? _)); [by rewrite connectionError_result|].
  destruct (_ && (_ <=? _)); [by rewrite connectionError_result|].
  destruct (_ <=? _); [by rewrite connectionError_result|].
  intros H. injection H as <-. cbn. rewrite lookup_insert_eq. by split; [eexists|].
Qed.

(** A HEADERS frame of a stream that GOAWAY does not exclude. *)
Definition accepts_headers (id : Z) (c c1 : Http2Connection) : Prop :=
  id_ok id /\ id <> 0 /\ c_expectingContinuation c = false
  /\ (c_state c = GoAwaySent \/ c_state c = GoAwayReceived -> id <= c_goAwayLastStreamId c)
  /\ openPeerStream id c = inr (None, c1).

Lemma headers_processed id es eh f c c1 :
  accepts_headers id c c1 -> zlen f < 2 ^ 24 -> zlen f <= kMaxHeaderBlockAccumulationSize ->
  processFrame cbs (MkFrameHeader (zlen f) FtHeaders (ComputeHeaderFrameFlags es eh FlagNone) id) f c
  = if eh then
      bind (iterator_at id) (fun it => bind (finishHeaders cbs it f es) (fun r =>
        match r with Some r => ret r | None => ret (result ActContinue) end)) c1
    else inr (result ActContinue, assembling id es f c1).
Proof.
  intros (Hid & Hne & Hexp & Hgo & Hopen) H24 Hmax. unfold processFrame, bind at 1, gets.
  rewrite Hexp. cbn [andb fh_type]. unfold handleHeadersFrame. cbn [fh_streamId].
  rewrite (proj2 (Z.eqb_neq id 0) Hne). unfold bind at 1 2, gets.
  assert (Hskip : bool_decide (c_state c = GoAwaySent \/ c_state c = GoAwayReceived)
                  && (c_goAwayLastStreamId c <? id) = false).
  { case_bool_decide as Hc; [|done]. cbn [andb]. apply Z.ltb_ge. by apply Hgo. }
  rewrite Hskip.
  assert (Hp : ParseHeadersFrame
      (MkFrameHeader (zlen f) FtHeaders (ComputeHeaderFrameFlags es eh FlagNone) id) f
    = inr (MkHeadersFrame f 0 16 0 es eh false false)).
  { unfold ParseHeadersFrame. pose proof (zlen_nonneg f).
    replace (hasFlag _ HeadersPriority) with false by (destruct es, eh; reflexivity).
    replace (hasFlag _ HeadersPadded) with false by (destruct es, eh; reflexivity).
    replace (hasFlag _ HeadersEndStream) with es by (destruct es, eh; reflexivity).
    replace (hasFlag _ HeadersEndHeaders) with eh by (destruct es, eh; reflexivity).
    cbn [andb]. cbv beta iota zeta. rewrite ?Z.add_0_r. cbn [Z.ltb Z.compare andb].
    do 2 f_equal. unfold subspan. rewrite drop_0. apply take_ge. unfold zlen. lia. }
  rewrite Hp. rewrite (bind_run _ _ _ _ _ Hopen). unfold iterator_at. rewrite !bind_gets.
  cbn [hf_hasPriority hf_endHeaders hf_endStream hf_headerBlockFragment andb when]. unfold bind at 1, ret at 1.
  destruct eh; cbn [negb]; [done|]. by rewrite (proj2 (Z.ltb_ge _ _)) by done.
Qed.

(** The end of a block that fits in its HEADERS frame. *)
Definition finish_headers (id : Z) (es : bool) (block : bytes) : M ProcessResult :=
  bind (iterator_at id) (fun it => bind (finishHeaders cbs it block es) (fun r =>
    match r with Some r => ret r | None => ret (result ActContinue) end)).

Lemma headers_frame_bytes id es eh (f rest : bytes) :
  headers_frame id es eh f ++ rest
  = WriteFrameHeader (MkFrameHeader (zlen f) FtHeaders (ComputeHeaderFrameFlags es eh FlagNone) id) ++ f ++ rest.
Proof. unfold headers_frame. by rewrite <- app_assoc. Qed.

Lemma headers_frame_zlen id es eh (f : bytes) : zlen (headers_frame id es eh f) = kFrameHeaderSize + zlen f.
Proof. unfold headers_frame. by rewrite zlen_app, WriteFrameHeader_length. Qed.

Lemma headers_header_ok id es eh (f : bytes) :
  id_ok id -> zlen f < 2 ^ 24 ->
  frame_header_ok (MkFrameHeader (zlen f) FtHeaders (ComputeHeaderFrameFlags es eh FlagNone) id).
Proof.
  intros Hid Hf. pose proof (zlen_nonneg f). split_and!; cbn [fh_length fh_type fh_flags fh_streamId];
    try done; try apply Hid; by destruct es, eh.
Qed.

Lemma block_frames_processed id es f0 fs rest c c1 :
  accepts_headers id c c1 -> Forall (fragment_ok c) (f0 :: fs) ->
  bytes_ok (block_frames id es (f0 :: fs) ++ rest) ->
  zlen (concat (f0 :: fs)) <= kMaxHeaderBlockAccumulationSize ->
  processFrames cbs (block_frames id es (f0 :: fs) ++ rest) c
  = if is_nil fs
    then serve (finish_headers id es f0) (zlen (block_frames id es [f0])) rest c1
    else serve (finish_assembly id es (concat (f0 :: fs))) (zlen (block_frames id es (f0 :: fs))) rest
           (set_expectingContinuation false (assembling id es (concat (f0 :: fs)) c1)).
Proof.
  intros Hacc Hf Hd Hl. pose proof Hacc as (Hid & _ & _ & _ & Hopen).
  destruct (openPeerStream_opened _ _ _ Hopen) as (Hs & Hcfg & _).
  pose proof Hf as Hf1. inversion Hf1 as [|? ? (Hf0 & Hmax & H24) Hf']; subst.
  cbn [concat] in Hl. rewrite zlen_app in Hl. pose proof (zlen_nonneg (concat fs)).
  cbn [block_frames] in *. rewrite <- app_assoc in *. rewrite headers_frame_bytes in *.
  rewrite processFrames_frame; [|by apply headers_header_ok|done|done|done].
  pose proof (headers_processed id es (is_nil fs) f0 c c1 Hacc H24 ltac:(lia)) as Hh.
  destruct fs as [|f1 fs]; cbn [is_nil] in *.
  - rewrite (serve_cong _ _ _ _ _ _ Hh). cbn [continuation_frames app]. rewrite ?app_nil_r, headers_frame_zlen. done.
  - rewrite (serve_run _ _ _ _ _ _ Hh eq_refl). apply Forall_app in Hd as [_ [_ Hd]%Forall_app].
    assert (Hf1' : Forall (fragment_ok c1) (f1 :: fs)).
    { eapply Forall_impl; [exact Hf'|]. intros x Hx. unfold fragment_ok. by rewrite Hcfg. }
    etransitivity; [apply bind_from, (continuations_assemble id es fs f1 f0 c1 rest); done|].
    rewrite serve_shift.
    + by rewrite (zlen_app (headers_frame _ _ _ _)), headers_frame_zlen.
    + by apply Forall_app in Hd as [_ Hd].
    + unfold kFrameHeaderSize. pose proof (zlen_nonneg f0). lia.
    + cbn [continuation_frames]. unfold continuation_frame. rewrite !zlen_app, WriteFrameHeader_length.
      unfold kFrameHeaderSize. pose proof (zlen_nonneg f1). pose proof (zlen_nonneg (continuation_frames id fs)). lia.
Qed.

(** C10: the outcome of receiving bytes does not depend on how the transport delivers them:
    processing two pieces at once is processing the first one, and, unless it ended the
    processing with an error, processing what it left followed by the second one; the bytes
    consumed add up, whole frames are consumed, and what is left has no complete frame. *)
Theorem processFrames_split a b c :
  bytes_ok (a ++ b) ->
  processFrames cbs (a ++ b) c
  = bind (processFrames cbs a) (fun r =>
      if goes_on (pr_action r)
      then bind (processFrames cbs (drop (Z.to_nat (pr_bytesConsumed r)) a ++ b))
             (fun r' => ret (resume (pr_bytesConsumed r) r'))
      else ret r) c
  /\ forall r c', processFrames cbs a c = inr (r, c') -> goes_on (pr_action r) = true ->
       0 <= pr_bytesConsumed r <= zlen a
       /\ incomplete (drop (Z.to_nat (pr_bytesConsumed r)) a).
Proof.
  intros Hab. split; [exact (loop_split (length a) a b c Hab eq_refl)|]. intros r c' E Hg. pose proof Hab as [Ha _]%Forall_app.
  pose proof (loop_consumed _ _ 0 _ _ _ Ha eq_refl ltac:(lia) E) as H. by rewrite Hg, Z.sub_0_r in H.
Qed.

(** C28: a header block is assembled across frames: a HEADERS frame for an accepted stream,
    followed by CONTINUATION frames of the same stream up to END_HEADERS, ends in one
    decoding of the concatenated fragments, with the END_STREAM flag of the HEADERS frame,
    in a connection that waits for no further fragment; processing then goes on with the
    bytes behind the block. *)
Theorem header_block_assembled id es f0 fs rest c c1 :
  accepts_headers id c c1 -> Forall (fragment_ok c) (f0 :: fs) ->
  bytes_ok (block_frames id es (f0 :: fs) ++ rest) ->
  zlen (concat (f0 :: fs)) <= kMaxHeaderBlockAccumulationSize ->
  exists c2, c_expectingContinuation c2 = false /\ c_streams c2 = c_streams c1
  /\ c_hpackDecoder c2 = c_hpackDecoder c1
  /\ processFrames cbs (block_frames id es (f0 :: fs) ++ rest) c
     = serve ((if is_nil fs then finish_headers else finish_assembly) id es (concat (f0 :: fs)))
         (zlen (block_frames id es (f0 :: fs))) rest c2.
Proof.
  intros Hacc Hf Hd Hl. pose proof Hacc as (_ & _ & Hexp & _ & Hopen).
  destruct (openPeerStream_opened _ _ _ Hopen) as (_ & _ & He).
  rewrite (block_frames_processed id es f0 fs rest c c1) by done.
  destruct fs as [|f1 fs]; cbn [is_nil].
  - exists c1. cbn [concat]. rewrite app_nil_r. rewrite He.
    exact (conj Hexp (conj eq_refl (conj eq_refl eq_refl))).
  - eexists. split_and!; [| | |reflexivity]; reflexivity.
Qed.

(** a header block in progress is exclusive and bounded: while CONTINUATION is
    expected, any other frame, or a CONTINUATION of another stream, ends the connection with
    PROTOCOL_ERROR; so does a CONTINUATION that is not expected; a fragment that would make
    the block exceed 256 KiB ends it with ENHANCE_YOUR_CALM; in every case nothing is
    decoded and the connection is closed. *)
Theorem header_block_exclusive header payload c :
  let error code := exists msg c', processFrame cbs header payload c = inr (MkResult ActError code 0 msg, c')
    /\ c_state c' = Closed /\ c_streams c' = c_streams c /\ c_hpackDecoder c' = c_hpackDecoder c in
  (c_expectingContinuation c = true ->
     (fh_type header <> FtContinuation \/ fh_streamId header <> c_headerBlockStreamId c -> error ErrProtocolError)
     /\ (fh_type header = FtContinuation -> fh_streamId header = c_headerBlockStreamId c ->
         kMaxHeaderBlockAccumulationSize < zlen (c_headerBlockBuffer c) + zlen payload ->
         error ErrEnhanceYourCalm))
  /\ (c_expectingContinuation c = false -> fh_type header = FtContinuation -> error ErrProtocolError).
Proof.
  intros error.
  assert (Herr : forall code msg, processFrame cbs header payload c = connectionError code msg c -> error code).
  { intros code msg E. rewrite connectionError_result in E. do 2 eexists. split; [exact E|]. cbn.
    split; [done|]. unfold initiateGoAway, bind, gets, modify, write, ret. by destruct (c_state c). }
  split.
  - intros He. split.
    + intros Hor. destruct (decide (fh_type header = FtContinuation)) as [Ht|Ht].
      * destruct Hor as [?|Hor]; [done|]. eapply Herr. unfold processFrame, bind at 1, gets.
        rewrite He, Ht. cbn [andb negb bool_decide decide]. rewrite bool_decide_eq_true_2 by done. cbn [negb].
        unfold handleContinuationFrame, bind at 1 2, gets. rewrite He. cbn [negb].
        rewrite (proj2 (Z.eqb_neq _ _)) by done. reflexivity.
      * eapply Herr. unfold processFrame, bind at 1, gets. rewrite He, bool_decide_eq_false_2 by done. reflexivity.
    + intros Ht Hid Hl. eapply Herr. unfold processFrame, bind at 1, gets.
      rewrite He, Ht. rewrite bool_decide_eq_true_2 by done. cbn [andb negb].
      unfold handleContinuationFrame, bind at 1 2 3, gets. rewrite He, Hid, Z.eqb_refl. cbn [negb].
      cbv zeta. cbn [ParseContinuationFrame cf_headerBlockFragment]. rewrite (proj2 (Z.ltb_lt _ _)) by done. reflexivity.
  - intros He Ht. eapply Herr. unfold processFrame, bind at 1, gets. rewrite He, Ht. cbn [andb].
    unfold handleContinuationFrame, bind at 1 2, gets. rewrite He. reflexivity.
Qed.

(** a connection error is final: it reports the error, announces it to the peer with a
    GOAWAY frame that names the last stream of the peer (unless a GOAWAY was sent already),
    keeps the output that was pending, and leaves a connection that ignores all further
    input and can create no stream. *)
Theorem connectionError_final code msg c :
  exists c', connectionError code msg c = inr (MkResult ActError code 0 msg, c')
  /\ c_outputBuffer c'
     = (if bool_decide (c_state c = Closed \/ c_state c = GoAwaySent) then c_outputBuffer c
        else fst (WriteGoAwayFrame (c_outputBuffer c) (c_lastPeerStreamId c) code msg))
  /\ c_streams c' = c_streams c /\ c_outputWritePos c' = c_outputWritePos c
  /\ canCreateStreams c' = false
  /\ forall data, data <> [] -> processInput cbs data c' = inr (result ActClosed, c').
Proof.
  rewrite connectionError_result. eexists. split; [reflexivity|].
  unfold initiateGoAway, bind, gets, modify, write, ret.
  assert (Hcan : forall c0, canCreateStreams (set_state Closed c0) = false).
  { intros c0. unfold canCreateStreams. by destruct (_ <=? _). }
  assert (Hin : forall c0 data, data <> [] -> processInput cbs data (set_state Closed c0)
      = inr (result ActClosed, set_state Closed c0)) by (intros c0 [|b data] Hd; done).
  destruct (c_state c); (split_and!; [reflexivity..|apply Hcan|apply Hin]).
Qed.
End Input.

(** ** Witnesses *)

(** Two PING frames, cut in the second header. *)
Definition example_first : bytes := [0; 0; 8; 6; 0; 0; 0; 0; 0; 1; 2; 3; 4; 5; 6; 7; 8; 0; 0; 8].
Definition example_second : bytes := [6; 0; 0; 0; 0; 0; 9; 9; 9; 9; 9; 9; 9; 9].

Lemma processFrames_split_witness :
  bytes_ok (example_first ++ example_second)
  /\ processFrames no_callbacks (example_first ++ example_second) example_server
    = bind (processFrames no_callbacks example_first) (fun r =>
        if goes_on (pr_action r)
        then bind (processFrames no_callbacks (drop (Z.to_nat (pr_bytesConsumed r)) example_first ++ example_second))
               (fun r' => ret (resume (pr_bytesConsumed r) r'))
        else ret r) example_server.
Proof.
  assert (H : bytes_ok (example_first ++ example_second)) by (by apply (bool_decide_unpack _); vm_compute).
  split; [exact H|]. exact (proj1 (processFrames_split no_callbacks example_first example_second example_server H)).
Defined.

Definition example_opened : Http2Connection :=
  set_lastPeerStreamId 1 (set_activeStreamCount 1 (set_streamsEpoch 1
    (set_streams (<[1 := NewStream 1 65535]> (c_streams example_server)) example_server))).

Lemma header_block_assembled_witness :
  exists c2, c_expectingContinuation c2 = false /\ c_streams c2 = c_streams example_opened
  /\ c_hpackDecoder c2 = c_hpackDecoder example_opened
  /\ processFrames no_callbacks (block_frames 1 true [[130; 132]; [134]; []] ++ example_first) example_server
     = serve no_callbacks (finish_assembly no_callbacks 1 true [130; 132; 134])
         (zlen (block_frames 1 true [[130; 132]; [134]; []])) example_first c2.
Proof.
  apply (header_block_assembled no_callbacks 1 true [130; 132] [[134]; []] example_first example_server example_opened).
  - split; [unfold id_ok; lia|]. split; [done|]. split; [reflexivity|]. split; [by intros [?|?]|reflexivity].
  - repeat (apply Forall_cons; split; [split; [by apply (bool_decide_unpack _); vm_compute|
      vm_compute; split; [discriminate|reflexivity]]|]). constructor.
  - by apply (bool_decide_unpack _); vm_compute.
  - vm_compute. discriminate.
Defined.
