(* ===== verification/Http2ConnSend.v ===== *)
(** Sending over HTTP/2 connections: the header block an operation encodes, its framing into
    HEADERS and CONTINUATION frames, the DATA frames of a body, and the flow control both
    respect. *)

From S2P Require Import Prelude Http2Frame Http2Stream HpackTables AsciiCase Hpack HpackProofs.
From S2P Require Import HpackRoundtrip HeadersView Http2Connection Http2ConnInv Http2ConnSafe.
From S2P Require Import Http2ConnInput.
Local Open Scope Z_scope.
Local Open Scope conn_scope.

(** ** Encoding a sequence of fields *)

Lemma encode_field_output e out n v m :
  encode_field e out n v m = option_map (fun r => (fst r, out ++ snd r)) (encode_field e [] n v m).
Proof.
  destruct e as [t p]. unfold encode_field.
  destruct (lr_match (findHeader t n v)), m; try destruct (add t None n v) as [|[b t']]; try reflexivity;
    cbn [option_map fst snd]; by rewrite 1?EncodeInteger_output, 1?encode_literal_output.
Qed.

Lemma encode_output e out n v m :
  encode e out n v m = option_map (fun r => (fst r, out ++ snd r)) (encode e [] n v m).
Proof.
  unfold encode. destruct (e_pendingTableSizeUpdate e =? kNoPendingUpdate).
  - destruct (name_is_lower n); [|done]. apply encode_field_output.
  - unfold encodeDynamicTableSizeUpdate.
    destruct (setMaxSize (e_dynamicTable e) (e_pendingTableSizeUpdate e)) as [t|]; [|done].
    destruct (name_is_lower n); [|done].
    rewrite (encode_field_output _ (EncodeInteger out _ _ _)), (encode_field_output _ (EncodeInteger [] _ _ _)).
    destruct (encode_field _ [] n v m) as [[e' o]|]; [|done]. cbn [option_map fst snd].
    by rewrite (EncodeInteger_output out), <- app_assoc.
Qed.

Lemma integer_bytes v p mask : prefix_mask p mask -> 0 <= v < 2 ^ 64 -> bytes_ok (EncodeInteger [] v p mask).
Proof.
  intros Hm Hv. destruct (EncodeInteger_shape v p mask Hm Hv) as (b & tail & -> & Hb & Ht).
  constructor; [|done]. destruct Hm as (_ & H0 & _ & H1). unfold byte_ok. lia.
Qed.

Lemma text_bytes s : text_ok s -> bytes_ok (EncodeString [] s).
Proof. intros [Hs Hl]. apply EncodeString_bytes; [done|lia]. Qed.

Lemma literal_bytes t lookup p mask n v :
  prefix_mask p mask -> table_small t -> lookup_sound t n v lookup -> text_ok n -> text_ok v ->
  bytes_ok (encode_literal [] lookup p mask n v).
Proof.
  intros Hm Ht Hl Hn Hv. unfold encode_literal. rewrite EncodeString_output. apply Forall_app.
  split; [|by apply text_bytes].
  assert (Hname : bytes_ok (EncodeString ([] ++ [mask]) n)).
  { rewrite EncodeString_output. apply Forall_app. split; [|by apply text_bytes].
    destruct Hm as (Hp & H0 & _ & H1). constructor; [|constructor].
    assert (0 < 2 ^ p) by (apply Z.pow_pos_nonneg; lia). unfold byte_ok. lia. }
  destruct lookup as [[] i]; cbn [lr_match lr_index lookup_sound] in *; [exact Hname| |exact Hname].
  apply integer_bytes; [done|]. unfold table_small in Ht. lia.
Qed.

Lemma encode_field_bytes t p n v m e' out :
  table_sync t -> text_ok n -> text_ok v ->
  encode_field (MkEncoder t p) [] n v m = Some (e', out) -> bytes_ok out.
Proof.
  intros Ht Hn Hv. pose proof (table_sync_small t Ht) as Hs.
  destruct (findHeader_spec t n v Hs) as (Hsound & _ & _). unfold encode_field.
  destruct (findHeader t n v) as [mt i]. cbn [lr_match lr_index].
  assert (Hfull : MkLookup mt i = MkLookup MatchFull i -> bytes_ok (EncodeInteger [] i 7 0x80)).
  { intros E. rewrite E in Hsound. cbn in Hsound. unfold table_small in Hs.
    apply integer_bytes; [by apply (rep_mask_prefix RepIndexed)|lia]. }
  destruct mt; [| |intros E; injection E as _ <-; by apply Hfull].
  all: destruct m; [destruct (add t None n v) as [|[b t']]; [discriminate|]|..];
    intros E; injection E as _ <-; apply (literal_bytes t); try done;
    first [by apply (rep_mask_prefix (RepLiteral true))|apply (rep_mask_prefix (RepLiteral false)); cbn; tauto].
Qed.

Lemma encode_ok e n v m :
  encoder_ok e -> field_ok n v ->
  exists e' out, encode e [] n v m = Some (e', out) /\ encoder_ok e' /\ bytes_ok out.
Proof.
  intros He Hf. pose proof Hf as (_ & Hn & Hv & Hlow).
  assert (Hstart : forall t o, table_sync t -> bytes_ok o ->
    exists e' out, encode (MkEncoder t kNoPendingUpdate) o n v m = Some (e', out) /\ encoder_ok e' /\ bytes_ok out).
  { intros t o Ht Ho. unfold encode. cbn [e_pendingTableSizeUpdate]. rewrite Z.eqb_refl, Hlow.
    rewrite encode_field_output.
    destruct (encode_field_decodes t kNoPendingUpdate [] n v m Ht Hf) as (chunk & E & _). rewrite E.
    cbn [option_map fst snd app]. do 2 eexists. split; [reflexivity|].
    split; [split; [by apply table_after_sync|by left]|]. apply Forall_app. split; [done|].
    by apply (encode_field_bytes _ _ _ _ _ _ _ Ht Hn Hv E). }
  destruct (decide (e_pendingTableSizeUpdate e = kNoPendingUpdate)) as [Hp|Hp].
  - destruct e as [t p]. cbn in Hp. subst p. apply Hstart; [apply He|constructor].
  - destruct (encode_pending e [] n v m _ He eq_refl Hp) as (-> & _ & Ht). apply Hstart; [done|].
    destruct He as [_ [?|Hpp]]; [done|].
    apply integer_bytes; [by apply (rep_mask_prefix RepSizeUpdate)|lia].
Qed.

Lemma encode_all_output e out fs :
  encode_all e out fs = option_map (fun r => (fst r, out ++ snd r)) (encode_all e [] fs).
Proof.
  revert e out. induction fs as [|f fs IH]; intros e out; cbn [encode_all].
  { cbn. by rewrite app_nil_r. }
  rewrite encode_output. destruct (encode e [] _ _ _) as [[e' o]|]; [|done]. cbn [option_map fst snd].
  rewrite IH, (IH e' o). destruct (encode_all e' [] fs) as [[e2 o2]|]; [|done]. cbn. by rewrite app_assoc.
Qed.

Lemma encode_all_ok e fs :
  encoder_ok e -> fields_ok fs ->
  exists e' out, encode_all e [] fs = Some (e', out) /\ encoder_ok e' /\ bytes_ok out.
Proof.
  intros He Hfs. revert e He. induction Hfs as [|f fs Hf Hfs IH]; intros e He; cbn [encode_all].
  { do 2 eexists. split_and!; [reflexivity|done|constructor]. }
  destruct (encode_ok e _ _ (f_mode f) He Hf) as (e1 & o1 & -> & He1 & Ho1).
  rewrite encode_all_output. destruct (IH e1 He1) as (e2 & o2 & -> & He2 & Ho2).
  do 2 eexists. split_and!; [reflexivity|done|]. by apply Forall_app.
Qed.

(** ** The fields of a message *)

Definition lower_name (h : HeaderView) : HeaderView :=
  MkHeaderView (map tolower (hv_name h)) (hv_value h).

Definition field_of (h : HeaderView) : field := MkField (hv_name h) (TrimOws (hv_value h)) Indexed.

Definition skips_host (status : Z) : bool := status =? MagicForHttpRequest.

(** The headers once encoded: the first one of a request is left as it is. *)
Definition lowered (status : Z) (hs : list HeaderView) : list HeaderView :=
  if skips_host status then match hs with h :: r => h :: map lower_name r | [] => [] end
  else map lower_name hs.

Definition view_fields (status : Z) (hs : list HeaderView) : list field :=
  map field_of (if skips_host status then map lower_name (tail hs) else map lower_name hs).

(** The global headers that the message does not set itself. *)
Definition global_fields (present gs : list HeaderView) : list field :=
  map field_of (filter (fun g => hv_name g ∉ map hv_name present) gs).

Definition status_fields (status : Z) : list field :=
  if 100 <=? status then [MkField (str ":status") (status_digits status) Indexed] else [].

Definition message_fields (status : Z) (hs : list HeaderView) (gs : option (list HeaderView)) : list field :=
  status_fields status ++ view_fields status hs
  ++ match gs with Some gs => global_fields (lowered status hs) gs | None => [] end.

(** The text of one header of [ConcatenatedHeaders]. *)
Definition global_line (g : HeaderView) : bytes := hv_name g ++ HeaderSep ++ hv_value g.

(** What the callers ensure. *)
Definition header_ok (h : HeaderView) : Prop :=
  header_wf h /\ text_ok (hv_name h) /\ text_ok (hv_value h).

Definition view_ok (status : Z) (hs : list HeaderView) : Prop :=
  Forall header_ok hs
  /\ (status = MagicForHttpRequest -> match hs with h :: _ => hv_name h = str "host" | [] => True end).

Definition global_ok (g : HeaderView) : Prop :=
  hv_name g <> [] /\ Forall (fun b => b <> 58) (hv_name g) /\ no_crlf (hv_name g)
  /\ text_ok (hv_name g) /\ text_ok (hv_value g) /\ name_is_lower (hv_name g) = true.

Definition status_ok (status : Z) : Prop :=
  status = 0 \/ status = MagicForHttpRequest \/ 100 <= status <= 999.

(** ** Names and values *)

Lemma tolower_ok b : byte_ok b -> byte_ok (tolower b) /\ (65 <=? tolower b) && (tolower b <=? 90) = false.
Proof.
  intros Hb. assert (Hall : forallb (fun b => bool_decide (byte_ok (tolower b))
      && negb ((65 <=? tolower b) && (tolower b <=? 90))) (map Z.of_nat (seq 0 256)) = true)
    by (vm_compute; reflexivity).
  rewrite forallb_forall in Hall. specialize (Hall b). rewrite andb_true_iff, negb_true_iff, bool_decide_eq_true in Hall.
  apply Hall. apply in_map_iff. exists (Z.to_nat b). unfold byte_ok in Hb. rewrite in_seq. lia.
Qed.

(** Lower-casing touches letters only. *)
Lemma tolower_other b c : byte_ok b -> (c < 65 \/ 122 < c) -> tolower b = c -> b = c.
Proof.
  intros Hb Hc E. unfold tolower in E. destruct (_ && _) eqn:Eb; [|done]. exfalso.
  apply andb_true_iff in Eb as [H1 H2]. apply Z.leb_le in H1, H2.
  assert (97 <= Z.lor b 32 <= 122); [|lia].
  assert (Hall : forallb (fun b => (97 <=? Z.lor b 32) && (Z.lor b 32 <=? 122)) (map Z.of_nat (seq 65 26)) = true)
    by (vm_compute; reflexivity).
  rewrite forallb_forall in Hall. specialize (Hall b). rewrite andb_true_iff, !Z.leb_le in Hall.
  apply Hall, in_map_iff. exists (Z.to_nat b). rewrite in_seq. lia.
Qed.

Lemma lower_ne c l :
  bytes_ok l -> (c < 65 \/ 122 < c) -> Forall (fun b => b <> c) l ->
  Forall (fun b => b <> c) (map tolower l).
Proof.
  intros Hok Hc Hl. apply Forall_forall. intros x Hx. apply list_elem_of_fmap in Hx as (b & -> & Hb).
  unfold bytes_ok in Hok. rewrite Forall_forall in Hok, Hl. intros E. apply (Hl b Hb).
  by apply (tolower_other b c); [apply Hok| |].
Qed.

Lemma lower_text_ok l : text_ok l -> text_ok (map tolower l) /\ name_is_lower (map tolower l) = true.
Proof.
  intros [Hl Hlen]. split; [split|].
  - apply Forall_forall. intros x Hx. apply list_elem_of_fmap in Hx as (b & -> & Hb).
    unfold bytes_ok in Hl. rewrite Forall_forall in Hl. apply (tolower_ok b), Hl, Hb.
  - unfold zlen in *. by rewrite length_map.
  - unfold name_is_lower. apply forallb_forall. intros x Hx. apply in_map_iff in Hx as (b & <- & Hb).
    unfold bytes_ok in Hl. rewrite List.Forall_forall in Hl. by rewrite (proj2 (tolower_ok b (Hl b Hb))).
Qed.

Lemma TrimOws_text_ok l : text_ok l -> text_ok (TrimOws l).
Proof.
  destruct (TrimOws_infix l) as (p & s & E). intros [Hl Hlen]. rewrite E in Hl, Hlen.
  apply Forall_app in Hl as [_ [Hl _]%Forall_app]. split; [exact Hl|].
  rewrite !zlen_app in Hlen. pose proof (zlen_nonneg p). pose proof (zlen_nonneg s). lia.
Qed.

Lemma lower_name_ok h : header_ok h -> header_ok (lower_name h).
Proof.
  intros (((f & r & En & Hr) & Hn & Hv) & Ht & Htv). unfold header_ok, header_wf. cbn [lower_name hv_name hv_value].
  assert (Hb : bytes_ok (hv_name h)) by apply Ht.
  split_and!; try done; [|apply lower_ne; (done || lia)|by apply lower_text_ok].
  rewrite En in *. cbn [map]. do 2 eexists. split; [reflexivity|]. inversion Hb; subst.
  apply lower_ne; (done || lia).
Qed.

Lemma lower_field_ok h : header_ok h -> field_ok (hv_name (lower_name h)) (TrimOws (hv_value h)).
Proof.
  intros (((f & r & En & Hr) & Hn & Hv) & Ht & Htv). destruct (lower_text_ok _ Ht) as [Hlt Hlow].
  split_and!; [cbn; by rewrite En|done|by apply TrimOws_text_ok|done].
Qed.

Lemma view_fields_ok status hs : view_ok status hs -> fields_ok (view_fields status hs).
Proof.
  intros [Hs _]. unfold view_fields, fields_ok.
  assert (Hl : forall l, Forall header_ok l ->
    Forall (fun f => field_ok (f_name f) (f_value f)) (map field_of (map lower_name l))).
  { intros l Hl. induction Hl; [constructor|]. cbn [map]. constructor; [by apply lower_field_ok|done]. }
  destruct (skips_host status); apply Hl; [by destruct Hs|done].
Qed.

Lemma global_fields_ok present gs : Forall global_ok gs -> fields_ok (global_fields present gs).
Proof.
  intros Hg. unfold global_fields, fields_ok. apply Forall_forall. intros f Hf.
  apply list_elem_of_fmap in Hf as (g & -> & Hin). apply list_elem_of_filter in Hin as [_ Hin].
  rewrite Forall_forall in Hg. destruct (Hg g Hin) as (? & _ & _ & ? & ? & ?).
  split_and!; [done|done|by apply TrimOws_text_ok|done].
Qed.

Lemma status_fields_ok status : status_ok status -> fields_ok (status_fields status).
Proof.
  intros Hs. unfold status_fields. destruct (Z.leb_spec 100 status) as [Hle|]; [|constructor].
  assert (status <= 999) by (unfold status_ok, MagicForHttpRequest in Hs; lia).
  constructor; [|constructor]. cbn [f_name f_value].
  split_and!; [done| |split; [|done]|reflexivity].
  - split; [by apply (bool_decide_unpack _); vm_compute|done].
  - unfold status_digits. repeat constructor; unfold byte_ok; zlia.
Qed.

Lemma message_fields_ok status hs gs :
  status_ok status -> view_ok status hs -> match gs with Some gs => Forall global_ok gs | None => True end ->
  fields_ok (message_fields status hs gs).
Proof.
  intros Hst Hv Hg. unfold message_fields, fields_ok. rewrite !Forall_app. split_and!.
  - by apply status_fields_ok.
  - by apply view_fields_ok.
  - destruct gs; [by apply global_fields_ok|constructor].
Qed.

(** ** The encoding loops are one run of the encoder *)

Definition put_encoded (fs : list field) : M unit := fun c =>
  match encode_all (c_hpackEncoder c) (c_outputBuffer c) fs with
  | None => inl Undefined
  | Some (e, out) => inr (tt, set_outputBuffer out (set_hpackEncoder e c))
  end.

Lemma put_encoded_nil c : put_encoded [] c = inr (tt, c).
Proof. by destruct c. Qed.

Lemma put_encoded_cons f fs c :
  f_mode f = Indexed ->
  bind (encode_header (f_name f) (f_value f)) (fun _ => put_encoded fs) c = put_encoded (f :: fs) c.
Proof.
  intros Hm. unfold bind, encode_header, put_encoded. cbn [encode_all]. rewrite Hm.
  by destruct (encode _ _ _ _ _) as [[e out]|].
Qed.

Lemma put_encoded_app fs gs c :
  bind (put_encoded fs) (fun _ => put_encoded gs) c = put_encoded (fs ++ gs) c.
Proof.
  revert c. induction fs as [|f fs IH]; intros c; [unfold bind; by rewrite put_encoded_nil|].
  unfold bind, put_encoded in *. cbn [app encode_all].
  destruct (encode _ _ _ _ _) as [[e out]|]; [|done].
  apply (IH (set_outputBuffer out (set_hpackEncoder e c))).
Qed.

Lemma tolower_name h :
  header_ok h -> tolower_buf false 0 (hv_name h) (length (hv_name h)) = map tolower (hv_name h).
Proof.
  intros (_ & [Hb _] & _). rewrite tolower_buf_spec by done.
  rewrite take_ge; [by rewrite drop_ge, app_nil_r|]. apply Nat.eq_le_incl, length_map.
Qed.

Lemma encode_view_lower hs c :
  Forall header_ok hs ->
  encode_headers_view hs false c = put_encoded (map field_of (map lower_name hs)) c.
Proof.
  intros Hs. revert c. induction Hs as [|h hs Hh Hs IH]; intros c; [by rewrite put_encoded_nil|].
  cbn [encode_headers_view map]. rewrite <- put_encoded_cons by done. cbv zeta.
  rewrite tolower_name by done. apply bind_ext. intros _ c'. apply IH.
Qed.

Lemma encode_view_eq status hs c :
  view_ok status hs ->
  encode_headers_view hs (skips_host status) c = put_encoded (view_fields status hs) c.
Proof.
  intros [Hs Hhost]. unfold view_fields, skips_host in *. destruct (Z.eqb_spec status MagicForHttpRequest) as [E|].
  - destruct hs as [|h hs]; [by rewrite put_encoded_nil|]. cbn [encode_headers_view tail].
    rewrite (bool_decide_eq_true_2 _ (Hhost E)). apply encode_view_lower. by inversion Hs.
  - by apply encode_view_lower.
Qed.

Lemma lowered_view_eq status hs :
  Forall header_ok hs -> lowered_view hs (skips_host status) = flatten_headers (lowered status hs).
Proof.
  intros Hs. unfold lowered_view, lowered. f_equal.
  assert (Hl : forall l, Forall header_ok l ->
    map (fun h => MkHeaderView (tolower_buf false 0 (hv_name h) (length (hv_name h))) (hv_value h)) l
    = map lower_name l).
  { intros l Hl. induction Hl as [|h l Hh Hl IH]; [done|]. cbn [map]. by rewrite tolower_name, IH. }
  destruct (skips_host status); (destruct hs as [|h hs]; [done|]).
  - f_equal. apply Hl. by inversion Hs.
  - by apply Hl.
Qed.

Lemma lowered_wf status hs : Forall header_ok hs -> Forall header_wf (lowered status hs).
Proof.
  intros Hs. unfold lowered.
  assert (Hl : forall l, Forall header_ok l -> Forall header_wf (map lower_name l)).
  { intros l Hl. induction Hl as [|h l Hh Hl IH]; [constructor|]. cbn [map].
    constructor; [by apply lower_name_ok|done]. }
  destruct (skips_host status); [|by apply Hl]. destruct Hs as [|h hs Hh Hs]; [constructor|].
  constructor; [apply Hh|by apply Hl].
Qed.

Lemma find_sep name value fuel :
  Forall (fun b => b <> 58) name -> (length name < fuel)%nat ->
  find_from fuel 0 HeaderSep (name ++ HeaderSep ++ value) = Some (length name).
Proof.
  intros Hn. assert (H : forall pre fuel, (length name < fuel)%nat ->
    find_from fuel (length pre) HeaderSep (pre ++ name ++ HeaderSep ++ value) = Some (length pre + length name)%nat).
  { clear fuel. induction Hn as [|b name Hb Hn IH]; intros pre fuel Hf; (destruct fuel as [|fuel]; [simpl in Hf; lia|]);
      cbn [find_from]; rewrite decide_True by (rewrite !length_app; cbn; lia); rewrite drop_app_length.
    - rewrite decide_True by done. f_equal. simpl. lia.
    - rewrite decide_False by (unfold HeaderSep; cbn; congruence).
      specialize (IH (pre ++ [b]) fuel). rewrite length_app in IH. cbn [length] in IH, Hf |- *.
      rewrite <- app_assoc in IH. cbn [app] in IH.
      replace (S (length pre)) with (length pre + 1)%nat by lia. cbn [app]. rewrite IH by lia. f_equal. lia. }
  intros Hf. apply (H [] fuel Hf).
Qed.

Lemma encode_globals_eq present gs c :
  Forall header_wf present -> Forall global_ok gs ->
  encode_global_headers (flatten_headers present) (map global_line gs) c
  = put_encoded (global_fields present gs) c.
Proof.
  intros Hp Hg. revert c. induction Hg as [|g gs (Hne & Hcol & Hcr & Ht & Htv & Hlow) Hg IH]; intros c;
    [by rewrite put_encoded_nil|].
  cbn [map encode_global_headers]. unfold global_fields in *.
  assert (Eg : global_line g = (hv_name g ++ HeaderSep) ++ hv_value g).
  { unfold global_line. by rewrite app_assoc. }
  assert (Hf : find_from (S (length (global_line g))) 0 HeaderSep (global_line g) = Some (length (hv_name g))).
  { apply find_sep; [done|]. unfold global_line. rewrite length_app. lia. }
  rewrite Hf, Eg. rewrite take_app_length' by (by rewrite length_app).
  assert (Hwf : name_wf (hv_name g)).
  { split; [|done]. destruct (hv_name g) as [|b r]; [done|]. do 2 eexists. split; [reflexivity|].
    by inversion Hcol. }
  pose proof (contains_iff present (hv_name g) Hp Hwf) as Hc.
  rewrite filter_cons. destruct (containsCaseSensitive _ _) eqn:Ec.
  - rewrite decide_False; [apply IH|]. intros Hno. apply Hno.
    destruct (proj1 Hc eq_refl) as (h & Hin & <-). apply list_elem_of_fmap. by exists h.
  - rewrite decide_True.
    2:{ rewrite list_elem_of_fmap. intros (h & Hn & Hin).
        discriminate (proj2 Hc (ex_intro _ h (conj Hin (eq_sym Hn)))). }
    cbn [map]. rewrite <- put_encoded_cons by done. cbn [f_name f_value field_of].
    rewrite <- app_assoc, take_app_length.
    rewrite (app_assoc (hv_name g)), drop_app_length' by (by rewrite length_app). rewrite Hlow.
    unfold bind at 1, assert, ret. apply bind_ext. intros _ c'. apply IH.
Qed.

(** ** Framing *)

(** The fragments of a block: as large as the peer allows. *)
Fixpoint chunks (fuel : nat) (mf : Z) (l : bytes) : list bytes :=
  match fuel with
  | O => [l]
  | S fuel =>
      if zlen l <=? mf then [l] else take (Z.to_nat mf) l :: chunks fuel mf (drop (Z.to_nat mf) l)
  end.

Definition header_frames (id : Z) (es : bool) (mf : Z) (block : bytes) : bytes :=
  block_frames id es (chunks (length block) mf block).

Lemma chunks_fuel fuel mf l :
  0 < mf -> (length l <= fuel)%nat -> chunks fuel mf l = chunks (length l) mf l.
Proof.
  intros Hm. remember (length l) as n eqn:E. revert l fuel E. induction n as [n IH] using lt_wf_ind.
  intros l fuel -> Hf. destruct fuel as [|fuel]; [by destruct l; [|simpl in Hf; lia]|].
  destruct l as [|b l]; [cbn [length chunks]; rewrite (proj2 (Z.leb_le (zlen (@nil Z)) mf)) by (change (zlen (@nil Z)) with 0; lia); reflexivity|].
  cbn [length chunks]. set (k := b :: l) in *. destruct (Z.leb_spec (zlen k) mf); [done|]. f_equal.
  assert (Hl : (length (drop (Z.to_nat mf) k) <= length l)%nat) by (rewrite length_drop; subst k; cbn; lia).
  assert (Hlt : (length (drop (Z.to_nat mf) k) < S (length l))%nat) by lia.
  assert (S (length l) <= S fuel)%nat by exact Hf.
  rewrite (IH _ Hlt _ fuel eq_refl) by lia. symmetry. by rewrite (IH _ Hlt _ (length l) eq_refl).
Qed.

Lemma chunks_concat fuel mf l : concat (chunks fuel mf l) = l.
Proof.
  revert l. induction fuel as [|fuel IH]; intros l; cbn [chunks]; [by rewrite concat_cons, app_nil_r|].
  destruct (_ <=? _); cbn [concat]; [by rewrite app_nil_r|]. by rewrite IH, take_drop.
Qed.

Lemma chunks_size fuel mf l f :
  0 < mf -> (length l <= fuel)%nat -> f ∈ chunks fuel mf l -> zlen f <= mf.
Proof.
  intros Hm. revert l. induction fuel as [|fuel IH]; intros l Hf Hin; cbn [chunks] in Hin.
  { apply list_elem_of_singleton in Hin as ->. destruct l; [change (zlen (@nil Z)) with 0; lia|simpl in Hf; lia]. }
  destruct (Z.leb_spec (zlen l) mf); [by apply list_elem_of_singleton in Hin as ->|].
  apply elem_of_cons in Hin as [-> | Hin]; [unfold zlen; rewrite length_take; lia|].
  refine (IH _ _ Hin). rewrite length_drop. unfold zlen in *. lia.
Qed.

Lemma chunks_cons fuel mf l : exists f fs, chunks fuel mf l = f :: fs.
Proof. destruct fuel; cbn [chunks]; [|destruct (_ <=? _)]; by do 2 eexists. Qed.

Lemma take_min (mf : Z) (rest : bytes) :
  0 <= mf -> subspan 0 (Z.min (zlen rest) mf) rest = take (Z.to_nat mf) rest.
Proof.
  intros Hm. unfold subspan. rewrite drop_0. destruct (Z.min_spec (zlen rest) mf) as [[Hl ->]|[_ ->]]; [|done].
  unfold zlen in *. rewrite !take_ge by lia. done.
Qed.

Lemma drop_min (mf : Z) (rest : bytes) :
  0 <= mf -> drop (Z.to_nat (Z.min (zlen rest) mf)) rest = drop (Z.to_nat mf) rest.
Proof.
  intros Hm. destruct (Z.min_spec (zlen rest) mf) as [[Hl ->]|[_ ->]]; [|done].
  unfold zlen in *. by rewrite !drop_ge by lia.
Qed.

Lemma min_last mf (rest : bytes) : (zlen rest <=? Z.min (zlen rest) mf) = (zlen rest <=? mf).
Proof. destruct (Z.leb_spec (zlen rest) mf), (Z.leb_spec (zlen rest) (Z.min (zlen rest) mf)); lia. Qed.

Lemma set_out_out a b c : set_outputBuffer a (set_outputBuffer b c) = set_outputBuffer a c.
Proof. done. Qed.

Lemma set_out_same c : set_outputBuffer (c_outputBuffer c) c = c.
Proof. by destruct c. Qed.

Lemma zlen_take_le {A} k (l : list A) : 0 <= k -> zlen (take (Z.to_nat k) l) <= k.
Proof. intros. unfold zlen. rewrite length_take. lia. Qed.

Lemma continuation_write buffer id fragment eh :
  id_ok id -> zlen fragment < 2 ^ 24 ->
  fst (WriteContinuationFrame buffer id fragment eh) = buffer ++ continuation_frame id eh fragment.
Proof.
  intros Hi Hf. change (WriteContinuationFrame buffer id fragment eh) with (write_wire buffer (WContinuation id fragment eh)).
  rewrite write_wire_eq; [done|]. split; [done|]. cbn. lia.
Qed.

Lemma write_continuations_eq fuel id mf rest c :
  id_ok id -> 16384 <= mf <= 16777215 -> (length rest <= fuel)%nat -> rest <> [] ->
  write_continuations fuel id mf rest c
  = inr (tt, set_outputBuffer (c_outputBuffer c ++ continuation_frames id (chunks fuel mf rest)) c).
Proof.
  intros Hi Hm. revert rest c. induction fuel as [|fuel IH]; intros rest c Hf Hne;
    (destruct rest as [|b rest]; [done|]); [simpl in Hf; lia|].
  cbn [write_continuations chunks]. set (l := b :: rest) in *. cbv zeta.
  rewrite min_last, take_min, drop_min by lia. unfold write. rewrite bind_modify.
  pose proof (zlen_take_le mf l ltac:(lia)). rewrite continuation_write by (done || lia).
  destruct (Z.leb_spec (zlen l) mf) as [Hle|Hgt].
  - rewrite drop_ge, take_ge by (unfold zlen in *; lia). cbn [continuation_frames is_nil].
    rewrite app_nil_r. by destruct fuel.
  - rewrite IH.
    + cbn [c_outputBuffer set_outputBuffer]. rewrite set_out_out, <- app_assoc.
      destruct (chunks_cons fuel mf (drop (Z.to_nat mf) l)) as (f & fs & ->). reflexivity.
    + rewrite length_drop. subst l. simpl in Hf |- *. lia.
    + intros E. apply (f_equal length) in E. rewrite length_drop in E. change (length (@nil Z)) with 0%nat in E.
      unfold zlen in Hgt. lia.
Qed.

Lemma frame_header_block_eq id es before reserved block c :
  id_ok id -> 16384 <= ps_maxFrameSize (c_peerSettings c) <= 16777215 ->
  length reserved = 9%nat -> zlen block < 2 ^ 32 ->
  c_outputBuffer c = before ++ reserved ++ block ->
  frame_header_block id es (zlen before + 9) c
  = inr (tt, set_outputBuffer (before ++ header_frames id es (ps_maxFrameSize (c_peerSettings c)) block) c).
Proof.
  intros Hi Hm Hr Hb Ho. unfold frame_header_block. rewrite !bind_gets, Ho. cbv zeta.
  set (mf := ps_maxFrameSize (c_peerSettings c)) in *.
  pose proof (zlen_nonneg before). pose proof (zlen_nonneg block).
  replace (drop _ (before ++ reserved ++ block)) with block.
  2:{ rewrite app_assoc, drop_app_length'; [done|]. rewrite length_app. unfold zlen. lia. }
  replace (take _ (before ++ reserved ++ block)) with before.
  2:{ unfold kFrameHeaderSize. rewrite take_app_length'; [done|]. unfold zlen. lia. }
  rewrite u32_id by lia. unfold header_frames. destruct (Z.leb_spec (zlen block) mf) as [Hle|Hgt].
  - replace (chunks (length block) mf block) with [block].
    2:{ destruct block; [done|]. cbn [length chunks]. by rewrite (proj2 (Z.leb_le _ _)) by done. }
    cbn [block_frames continuation_frames is_nil]. rewrite app_nil_r. reflexivity.
  - rewrite bind_modify. set (rest := drop (Z.to_nat mf) block).
    assert (Hl : (length rest < length block)%nat) by (subst rest; rewrite length_drop; unfold zlen in *; lia).
    assert (Hc : chunks (length block) mf block = take (Z.to_nat mf) block :: chunks (length block) mf rest).
    { destruct (length block) as [|n] eqn:En; [lia|].
      change (chunks (S n) mf block) with (if zlen block <=? mf then [block]
        else take (Z.to_nat mf) block :: chunks n mf rest).
      rewrite (proj2 (Z.leb_gt _ _)) by lia.
      by rewrite (chunks_fuel n), (chunks_fuel (S n)) by lia. }
    rewrite write_continuations_eq; [|done|done|lia|].
    2:{ intros E. apply (f_equal length) in E. subst rest. rewrite length_drop in E. change (length (@nil Z)) with 0%nat in E. unfold zlen in *. lia. }
    cbn [c_outputBuffer set_outputBuffer]. rewrite set_out_out, Hc. do 3 f_equal.
    destruct (chunks_cons (length block) mf rest) as (f & fs & ->).
    cbn [block_frames is_nil]. unfold headers_frame, WriteFrame, CreateFrameHeader. cbn [fst].
    replace (zlen (take (Z.to_nat mf) block)) with mf by (unfold zlen in *; rewrite length_take; lia).
    by rewrite <- !app_assoc.
Qed.

(** ** [sendHeaders] and [sendRequestHeaders] *)

Definition globals_arg (gs : option (list HeaderView)) : option (list bytes) :=
  option_map (map global_line) gs.

Definition globals_ok (gs : option (list HeaderView)) : Prop :=
  match gs with Some gs => Forall global_ok gs | None => True end.

Lemma headers_of_ok hs : Forall header_ok hs -> headers_of (flatten_headers hs) = Some hs.
Proof.
  intros Hs. apply walk_flatten; [|done]. eapply Forall_impl; [exact Hs|]. intros h Hh. apply Hh.
Qed.

Lemma put_bind_app {B} fs gs (k : unit -> M B) c :
  bind (put_encoded fs) (fun _ => bind (put_encoded gs) k) c = bind (put_encoded (fs ++ gs)) k c.
Proof. rewrite <- bind_assoc. apply bind_cong, put_encoded_app. Qed.

Lemma encodeHeaders_eq id status hs es oldSize gs c :
  status_ok status -> view_ok status hs -> globals_ok gs ->
  encodeHeaders id status (flatten_headers hs) es oldSize (globals_arg gs) c
  = bind (put_encoded (message_fields status hs gs)) (fun _ => frame_header_block id es oldSize) c.
Proof.
  intros Hst Hv Hg. unfold encodeHeaders, message_fields.
  assert (Ha : ((status =? 0) || (status =? MagicForHttpRequest)
          || ((100 <=? status) && (status <=? 999))) = true).
  { unfold status_ok in Hst. rewrite !orb_true_iff, andb_true_iff, !Z.eqb_eq, !Z.leb_le. tauto. }
  rewrite Ha. unfold bind at 1, assert, ret at 1. rewrite (headers_of_ok hs) by apply Hv.
  change (status =? MagicForHttpRequest) with (skips_host status).
  rewrite <- put_bind_app.
  rewrite (bind_cong _ (put_encoded (status_fields status))).
  2:{ unfold status_fields, when. destruct (100 <=? status); [|by rewrite put_encoded_nil].
      rewrite <- put_encoded_cons by done. symmetry. unfold bind. cbn [f_name f_value].
      destruct (encode_header _ _ c) as [|[[] c1]]; [done|]. by rewrite put_encoded_nil. }
  apply bind_ext. intros _ c1. rewrite <- put_bind_app, (bind_cong _ _ _ _ (encode_view_eq status hs c1 Hv)).
  apply bind_ext. intros _ c2. apply bind_cong. destruct gs as [gs|]; cbn [globals_arg option_map].
  - rewrite lowered_view_eq by apply Hv. apply encode_globals_eq; [apply lowered_wf, Hv|done].
  - by rewrite put_encoded_nil.
Qed.

(** ** The operations *)

Lemma prepareSendHeaders_frame id es c err c1 :
  prepareSendHeaders id es c = inr (err, c1) ->
  exists ep ss n, c1 = set_activeStreamCount n (set_streamsEpoch ep (set_streams ss c)).
Proof.
  unfold prepareSendHeaders, find_stream. rewrite bind_gets.
  assert (Hend : forall ok c0, (exists ep ss n, c0 = set_activeStreamCount n (set_streamsEpoch ep (set_streams ss c))) ->
    (if ok : bool then
       bind (stream_at id) (fun s => let '(err, s) := onSendHeaders es s in
         bind (put_stream id s) (fun _ => ret err))
     else ret ErrRefusedStream) c0 = inr (err, c1) ->
    exists ep ss n, c1 = set_activeStreamCount n (set_streamsEpoch ep (set_streams ss c))).
  { intros ok c0 (ep & ss & n & ->). destruct ok.
    - unfold bind at 1, stream_at. cbn [c_streams set_activeStreamCount set_streams set_streamsEpoch].
      destruct (ss !! id) as [s|]; [|done]. destruct (onSendHeaders es s) as [e s'].
      unfold put_stream. rewrite bind_modify. intros E. injection E as _ <-. by do 3 eexists.
    - intros E. injection E as _ <-. by do 3 eexists. }
  assert (Hsame : exists ep ss n, c = set_activeStreamCount n (set_streamsEpoch ep (set_streams ss c))).
  { exists (c_streamsEpoch c), (c_streams c), (c_activeStreamCount c). by destruct c. }
  destruct (c_streams c !! id) as [s|].
  - apply (Hend true c Hsame).
  - rewrite bind_assoc, bind_gets. unfold insert_stream, erase_stream. rewrite bind_assoc, bind_modify, bind_assoc, bind_gets.
    destruct (canCreateStreams _).
    + rewrite bind_assoc, bind_modify. apply (Hend true). by do 3 eexists.
    + rewrite bind_assoc, bind_modify. apply (Hend false).
      exists (c_streamsEpoch c + 1 + 1), (delete id (<[id:=NewStream id (ps_initialWindowSize (c_peerSettings c))]> (c_streams c))),
        (c_activeStreamCount c). reflexivity.
Qed.

(** Encoding and framing behind the reserved bytes. *)
Lemma send_block id es fs e' block c :
  id_ok id -> 16384 <= ps_maxFrameSize (c_peerSettings c) <= 16777215 ->
  encode_all (c_hpackEncoder c) [] fs = Some (e', block) -> zlen block < 2 ^ 32 ->
  bind reserve_frame_header (fun oldSize =>
    bind (put_encoded fs) (fun _ => frame_header_block id es oldSize)) c
  = inr (tt, set_outputBuffer (c_outputBuffer c ++ header_frames id es (ps_maxFrameSize (c_peerSettings c)) block)
               (set_hpackEncoder e' c)).
Proof.
  intros Hid Hm Henc Hb. unfold reserve_frame_header. rewrite bind_assoc, bind_modify, bind_gets.
  unfold bind, put_encoded. cbn [c_hpackEncoder c_outputBuffer set_outputBuffer].
  rewrite encode_all_output, Henc. cbn [option_map fst snd]. rewrite zlen_app.
  change (zlen (replicate 9 0)) with 9.
  rewrite (frame_header_block_eq id es (c_outputBuffer c) (replicate 9 0) block); try done.
  by rewrite <- app_assoc.
Qed.

Lemma put_bind_cons {B} f fs (k : unit -> M B) c :
  f_mode f = Indexed ->
  bind (put_encoded (f :: fs)) k c
  = bind (encode_header (f_name f) (f_value f)) (fun _ => bind (put_encoded fs) k) c.
Proof. intros Hm. rewrite <- bind_assoc. apply bind_cong. by rewrite put_encoded_cons. Qed.

(** The request pseudo-headers, and the headers of a request. *)
Definition request_fields (method : bytes) (isTls : bool) (target authority : bytes)
    (hs : list HeaderView) (gs : option (list HeaderView)) : list field :=
  match target with
  | [] => message_fields 0 hs gs
  | _ => [MkField (str ":method") method Indexed;
          MkField (str ":scheme") (str (if isTls then "https" else "http")) Indexed;
          MkField (str ":authority") authority Indexed;
          MkField (str ":path") target Indexed] ++ message_fields MagicForHttpRequest hs gs
  end.

Definition sent (id : Z) (es : bool) (fs : list field) (c : Http2Connection)
    (m : M ErrorCode) : Prop :=
  exists err c1, prepareSendHeaders id es c = inr (err, c1)
  /\ (exists ep ss n, c1 = set_activeStreamCount n (set_streamsEpoch ep (set_streams ss c)))
  /\ (err <> ErrNoError -> m c = inr (err, c1))
  /\ (err = ErrNoError -> exists e' block,
       encode_all (c_hpackEncoder c) [] fs = Some (e', block) /\ encoder_ok e' /\ bytes_ok block
       /\ (zlen block < 2 ^ 32 ->
           m c = inr (ErrNoError,
             set_outputBuffer (c_outputBuffer c
                 ++ header_frames id es (ps_maxFrameSize (c_peerSettings c)) block)
               (set_hpackEncoder e' c1)))).

Lemma sent_intro id es fs pend c (enc : Z -> M unit) :
  conn_inv pend c -> id_ok id -> fields_ok fs ->
  (forall oldSize c, enc oldSize c = bind (put_encoded fs) (fun _ => frame_header_block id es oldSize) c) ->
  sent id es fs c
    (bind (prepareSendHeaders id es) (fun err =>
       if bool_decide (err <> ErrNoError) then ret err
       else bind reserve_frame_header (fun oldSize => bind (enc oldSize) (fun _ => ret err)))).
Proof.
  intros Hc Hid Hfs Henc. pose proof (prepareSendHeaders_inv pend c id es Hc) as Hp. unfold wp in Hp.
  assert (Hnf : forall f, prepareSendHeaders id es c <> inl f).
  { intros f E. rewrite E in Hp. destruct f; [done|]. clear Hp. revert E.
    unfold prepareSendHeaders, find_stream. rewrite bind_gets. destruct (c_streams c !! id) as [s|] eqn:Es.
    - unfold bind at 1, ret at 1. unfold bind at 1, stream_at. rewrite Es.
      destruct (onSendHeaders es s). unfold put_stream. by rewrite bind_modify.
    - rewrite bind_assoc, bind_gets. unfold insert_stream, erase_stream. rewrite bind_assoc, bind_modify, bind_assoc, bind_gets.
      destruct (canCreateStreams _).
      + rewrite bind_assoc, bind_modify. unfold bind at 1, ret at 1. unfold bind at 1, stream_at.
        cbn [c_streams set_activeStreamCount set_streams set_streamsEpoch]. rewrite lookup_insert_eq.
        destruct (onSendHeaders es _). unfold put_stream. by rewrite bind_modify.
      + by rewrite bind_assoc, bind_modify. }
  destruct (prepareSendHeaders id es c) as [f|[err c1]] eqn:E; [by destruct (Hnf f)|].
  destruct Hp as (Hc1 & Hout & _). pose proof (prepareSendHeaders_frame _ _ _ _ _ E) as (ep & ss & n & E1).
  exists err, c1. split; [done|]. split; [by do 3 eexists|]. split.
  - intros Hne. rewrite (bind_run _ _ _ _ _ E). by rewrite bool_decide_eq_true_2.
  - intros ->. destruct (encode_all_ok (c_hpackEncoder c) fs (inv_encoder _ _ Hc) Hfs) as (e' & block & Ha & He' & Hb).
    exists e', block. split_and!; [done..|]. intros Hlen. rewrite (bind_run _ _ _ _ _ E).
    rewrite bool_decide_eq_false_2 by (intros H; by apply H).
    assert (Hpeer : c_peerSettings c1 = c_peerSettings c) by (by rewrite E1).
    assert (Henc1 : c_hpackEncoder c1 = c_hpackEncoder c) by (by rewrite E1).
    destruct (inv_peer _ _ Hc) as (_ & _ & Hm).
    pose proof (send_block id es fs e' block c1 Hid ltac:(by rewrite Hpeer) ltac:(by rewrite Henc1) Hlen) as Hs.
    rewrite Hpeer, Hout in Hs. unfold bind in Hs |- *.
    destruct (reserve_frame_header c1) as [|[o c2]]; [done|]. rewrite Henc. unfold bind.
    destruct (put_encoded fs c2) as [|[[] c3]]; [done|].
    destruct (frame_header_block id es o c3) as [|[[] c4]]; [done|]. by injection Hs as ->.
Qed.

(** sending headers puts exactly the message on the wire: when the stream and the
    connection accept it, the output grows by the HEADERS and CONTINUATION frames of the
    HPACK block of the message's fields: the status, the headers with names lower-cased and
    values trimmed, then each global header that the message does not set itself; the
    encoder moves to the state after that block; otherwise the error is returned and nothing
    is written. *)
Theorem sendHeaders_exact pend c id status hs gs es :
  conn_inv pend c -> id_ok id -> status_ok status -> view_ok status hs -> globals_ok gs ->
  sent id es (message_fields status hs gs) c
    (sendHeaders id status (flatten_headers hs) es (globals_arg gs)).
Proof.
  intros Hc Hid Hst Hv Hg. apply (sent_intro id es _ pend); [done|done|by apply message_fields_ok|].
  intros o c0. by apply encodeHeaders_eq.
Qed.

Lemma request_fields_ok method tls target authority hs gs :
  text_ok method -> text_ok authority -> text_ok target ->
  view_ok (match target with [] => 0 | _ => MagicForHttpRequest end) hs -> globals_ok gs ->
  fields_ok (request_fields method tls target authority hs gs).
Proof.
  intros Hm Ha Ht Hv Hg. unfold request_fields. destruct target as [|b target].
  - apply message_fields_ok; [by left|done|done].
  - assert (Hps : forall name value, bool_decide (bytes_ok name) = true -> name <> [] -> zlen name < 2 ^ 32 ->
      name_is_lower name = true -> text_ok value -> field_ok name value).
    { intros name value Hb Hne Hl Hlow Hval. split_and!; [done|split; [by apply bool_decide_eq_true in Hb|done]|done|done]. }
    repeat (apply Forall_cons; split; [apply Hps; try done; try reflexivity|]).
    + destruct tls; (split; [by apply (bool_decide_unpack _); vm_compute|reflexivity]).
    + apply message_fields_ok; [by right; left|done|done].
Qed.

(** The request operation is one encoding and framing. *)
Lemma request_sent pend c id method tls target authority hs gs es :
  conn_inv pend c -> id_ok id -> text_ok method -> text_ok authority -> text_ok target ->
  view_ok (match target with [] => 0 | _ => MagicForHttpRequest end) hs -> globals_ok gs ->
  sent id es (request_fields method tls target authority hs gs) c
    (sendRequestHeaders id method tls target authority (flatten_headers hs) es (globals_arg gs)).
Proof.
  intros Hc Hid Hm Ha Ht Hv Hg.
  pose proof (request_fields_ok method tls target authority hs gs Hm Ha Ht Hv Hg) as Hfs.
  pose proof (sent_intro id es _ pend c
    (fun oldSize =>
       match target with
       | [] => ret tt
       | _ =>
           encode_header (str ":method") method ;;;
           encode_header (str ":scheme") (str (if tls then "https" else "http")) ;;;
           encode_header (str ":authority") authority ;;;
           encode_header (str ":path") target
       end ;;;
       encodeHeaders id (match target with [] => 0 | _ => MagicForHttpRequest end)
         (flatten_headers hs) es oldSize (globals_arg gs)) Hc Hid Hfs) as Hs.
  unfold sendRequestHeaders. unfold sent in *.
  destruct Hs as (err & c1 & Hp & Hfr & Hno & Hyes).
  - intros o c0. unfold request_fields. destruct target as [|b target].
    + unfold bind at 1, ret at 1. apply encodeHeaders_eq; [by left|done|done].
    + rewrite <- put_bind_app. rewrite bind_assoc, put_bind_cons by done. apply bind_ext. intros _ c2.
      rewrite bind_assoc, put_bind_cons by done. apply bind_ext. intros _ c3.
      rewrite bind_assoc, put_bind_cons by done. apply bind_ext. intros _ c4.
      rewrite put_bind_cons by done. apply bind_ext. intros _ c5.
      rewrite (encodeHeaders_eq id _ hs es o gs c5) by (done || by right; left).
      unfold bind. by rewrite put_encoded_nil.
  - exists err, c1. split_and!; [done|done| |].
    + intros Hne. specialize (Hno Hne). rewrite <- Hno. apply bind_ext. intros e c2.
      destruct (bool_decide _); [done|]. apply bind_ext. intros o c3. by rewrite bind_assoc.
    + intros He. destruct (Hyes He) as (e' & block & Henc & Hok & Hb & Hrun). exists e', block.
      split_and!; [done..|]. intros Hl. rewrite <- (Hrun Hl). apply bind_ext. intros e c2.
      destruct (bool_decide _); [done|]. apply bind_ext. intros o c3. by rewrite bind_assoc.
Qed.

(** the same for a request: the pseudo-headers :method, :scheme, :authority and :path
    come first, the leading Host line is left out, and trailers (no target) carry no
    pseudo-header. *)
Theorem sendRequestHeaders_exact pend c id method tls target authority hs gs es :
  conn_inv pend c -> id_ok id -> text_ok method -> text_ok authority -> text_ok target ->
  view_ok (match target with [] => 0 | _ => MagicForHttpRequest end) hs -> globals_ok gs ->
  sent id es (request_fields method tls target authority hs gs) c
    (sendRequestHeaders id method tls target authority (flatten_headers hs) es (globals_arg gs)).
Proof. intros Hc Hid Hm Ha Ht Hv Hg. by apply (request_sent pend). Qed.

(** ** DATA *)

Definition data_frame (id : Z) (es : bool) (fragment : bytes) : bytes :=
  WriteFrameHeader (wire_header (WData id fragment es)) ++ fragment.

(** DATA frames, the last one with END_STREAM if the stream ends. *)
Fixpoint data_frames (id : Z) (es : bool) (fragments : list bytes) : bytes :=
  match fragments with
  | [] => []
  | f :: fs => data_frame id (is_nil fs && es) f ++ data_frames id es fs
  end.

Lemma data_write buffer id es fragment :
  id_ok id -> zlen fragment < 2 ^ 24 ->
  fst (WriteDataFrame buffer id fragment es) = buffer ++ data_frame id es fragment.
Proof.
  intros Hi Hf. change (WriteDataFrame buffer id fragment es) with (write_wire buffer (WData id fragment es)).
  rewrite write_wire_eq; [done|]. split; [done|]. cbn. lia.
Qed.

Lemma write_data_chunks_eq fuel id mf es rest c :
  id_ok id -> 16384 <= mf <= 16777215 -> (length rest <= fuel)%nat -> rest <> [] ->
  write_data_chunks fuel id mf es rest c
  = inr (tt, set_outputBuffer (c_outputBuffer c ++ data_frames id es (chunks fuel mf rest)) c).
Proof.
  intros Hi Hm. revert rest c. induction fuel as [|fuel IH]; intros rest c Hf Hne;
    (destruct rest as [|b rest]; [done|]); [simpl in Hf; lia|].
  cbn [write_data_chunks chunks]. set (l := b :: rest) in *. cbv zeta.
  rewrite min_last, take_min, drop_min by lia. unfold write. rewrite bind_modify.
  pose proof (zlen_take_le mf l ltac:(lia)). rewrite data_write by (done || lia).
  destruct (Z.leb_spec (zlen l) mf) as [Hle|Hgt].
  - rewrite drop_ge, take_ge by (unfold zlen in *; lia). cbn [data_frames is_nil].
    rewrite app_nil_r. by destruct fuel.
  - rewrite IH.
    + cbn [c_outputBuffer set_outputBuffer]. rewrite set_out_out, <- app_assoc.
      destruct (chunks_cons fuel mf (drop (Z.to_nat mf) l)) as (f & fs & ->). reflexivity.
    + rewrite length_drop. subst l. simpl in Hf |- *. lia.
    + intros E. apply (f_equal length) in E. rewrite length_drop in E. change (length (@nil Z)) with 0%nat in E.
      unfold zlen in Hgt. lia.
Qed.

(** The frames of one call. *)
Definition body_frames (id : Z) (es : bool) (mf : Z) (data : bytes) : bytes :=
  match data with
  | [] => if es then data_frame id true [] else []
  | _ => data_frames id es (chunks (length data) mf data)
  end.

(** What [sendData] does, by cases. *)
Definition sendData_outcome (id : Z) (data : bytes) (es : bool) (c : Http2Connection)
  : ErrorCode * Http2Connection :=
  match c_streams c !! id with
  | None => (ErrProtocolError, c)
  | Some s =>
      if negb (canSend s) then (ErrStreamClosed, c)
      else if (st_sendWindow s <? zlen data) || (c_connectionSendWindow c <? zlen data)
      then (ErrFlowControlError, c)
      else
        let s' := snd (onSendData es (with_sendWindow (st_sendWindow s - zlen data) s)) in
        (ErrNoError,
         set_outputBuffer (c_outputBuffer c ++ body_frames id es (ps_maxFrameSize (c_peerSettings c)) data)
           (set_connectionSendWindow (c_connectionSendWindow c - zlen data)
             (set_streams (<[id := s']> (c_streams c)) c)))
  end.

Lemma set_streams_same id s c :
  c_streams c !! id = Some s -> set_streams (<[id := s]> (c_streams c)) c = c.
Proof. intros E. rewrite insert_id by done. by destruct c. Qed.

(** C14: sending data is exact: data is refused, with nothing changed, when the stream is
    unknown, cannot send, or when either flow control window is too small for all of it;
    otherwise both windows decrease by exactly its size and the output grows by DATA frames
    that carry it in order, none larger than the peer's maximum frame size, with END_STREAM
    on the last one alone when the stream ends. *)
Theorem sendData_exact pend c id data es :
  conn_inv pend c -> id_ok id -> zlen data < 2 ^ 31 ->
  sendData id data es c = inr (sendData_outcome id data es c)
  /\ concat (chunks (length data) (ps_maxFrameSize (c_peerSettings c)) data) = data
  /\ Forall (fun f => zlen f <= ps_maxFrameSize (c_peerSettings c))
       (chunks (length data) (ps_maxFrameSize (c_peerSettings c)) data).
Proof.
  intros Hc Hid Hl. destruct (inv_peer _ _ Hc) as (_ & _ & Hm). split; [|split; [apply chunks_concat|]].
  2:{ apply Forall_forall. intros f Hf. by apply (chunks_size (length data) _ data); [lia|..]. }
  unfold sendData, sendData_outcome, find_stream. rewrite bind_gets.
  destruct (c_streams c !! id) as [s|] eqn:E; [|done].
  destruct (canSend s) eqn:Ecan; cbn [negb]; [|done].
  destruct (entry_of _ _ _ _ Hc E) as [(Hw & _) _]. pose proof (inv_send _ _ Hc) as Hcw.
  pose proof (zlen_nonneg data). unfold kMaxWindowSize in *. rewrite u32_id by lia. unfold consumeSendWindow.
  destruct (Z.ltb_spec (st_sendWindow s) (zlen data)); cbn [negb orb]; [done|].
  rewrite (s32_id (zlen data)), s32_id by lia. unfold put_stream. rewrite bind_modify, bind_gets.
  cbn [c_connectionSendWindow set_streams].
  destruct (Z.ltb_spec (c_connectionSendWindow c) (zlen data)).
  - rewrite bind_modify. cbn [c_streams set_streams]. unfold increaseSendWindow, kMaxWindowSize.
    rewrite (proj2 (Z.eqb_neq _ _)) by lia. cbn [st_sendWindow with_sendWindow].
    rewrite (proj2 (Z.ltb_ge _ _)) by lia. cbn [snd]. rewrite s32_id by lia.
    rewrite insert_insert_eq. unfold ret. do 3 f_equal.
    replace (with_sendWindow _ (with_sendWindow _ s)) with s; [exact (set_streams_same id s c E)|].
    destruct s. unfold with_sendWindow. cbn. f_equal. lia.
  - rewrite s32_id by lia. rewrite bind_modify. set (s1 := with_sendWindow _ s).
    assert (Hs : exists s2, onSendData es s1 = (ErrNoError, s2)).
    { unfold canSend in Ecan. unfold onSendData. change (st_state s1) with (st_state s).
      destruct (st_state s); try done; by eexists. }
    destruct Hs as [s2 ->]. cbn [snd]. rewrite bind_modify.
    rewrite bool_decide_eq_true_2 by done. unfold bind at 1, assert, ret at 1.
    cbn [c_streams set_connectionSendWindow set_streams]. rewrite insert_insert_eq.
    set (c2 := set_streams (<[id := s2]> (c_streams c)) _).
    assert (Hc2 : c2 = set_connectionSendWindow (c_connectionSendWindow c - zlen data)
             (set_streams (<[id := s2]> (c_streams c)) c)) by reflexivity.
    destruct data as [|b data].
    + unfold bind. destruct es; cbn [when body_frames]; unfold write, modify, ret.
      * rewrite data_write by (done || lia). by rewrite Hc2.
      * rewrite Hc2. rewrite app_nil_r. by destruct c.
    + rewrite bind_assoc, bind_gets.
      change (ps_maxFrameSize (c_peerSettings c2)) with (ps_maxFrameSize (c_peerSettings c)).
      rewrite (bind_run _ _ _ _ _ (write_data_chunks_eq (length (b :: data)) id (ps_maxFrameSize (c_peerSettings c)) es
        (b :: data) c2 Hid Hm (le_n _) ltac:(done))).
      cbn [body_frames]. by rewrite Hc2.
Qed.

(** ** Witnesses *)

Definition example_view : list HeaderView := [hdr "Content-Type" "text/plain "; hdr "x-a" "1"].
Definition example_globals : list HeaderView := [hdr "server" "aeronet"; hdr "x-a" "2"].

Lemma example_view_ok : view_ok 200 example_view.
Proof.
  split; [|done]. repeat (apply Forall_cons; split); try constructor; unfold header_ok, header_wf;
    split_and!; try (eexists _, _; split; [reflexivity|]);
    first [by apply (bool_decide_unpack _); vm_compute
          |split; [by apply (bool_decide_unpack _); vm_compute|reflexivity]
          |repeat constructor; done].
Qed.

#[local] Instance no_crlf_dec l : Decision (no_crlf l).
Proof. unfold no_crlf. apply _. Defined.

Lemma example_globals_ok : globals_ok (Some example_globals).
Proof.
  assert (H : forall g, bool_decide (hv_name g <> [] /\ Forall (fun b => b <> 58) (hv_name g) /\ no_crlf (hv_name g)
      /\ bytes_ok (hv_name g) /\ bytes_ok (hv_value g)) = true ->
    (zlen (hv_name g) <? 2 ^ 32) && (zlen (hv_value g) <? 2 ^ 32) && name_is_lower (hv_name g) = true ->
    global_ok g).
  { intros g Hg. apply bool_decide_eq_true in Hg as (? & ? & ? & ? & ?). rewrite !andb_true_iff, !Z.ltb_lt.
    intros [[? ?] ?]. split_and!; try done; split; done. }
  cbn [globals_ok]. unfold example_globals.
  constructor; [|constructor; [|constructor]]; apply H; vm_compute; reflexivity.
Qed.

Example example_message :
  map (fun f => (f_name f, f_value f)) (message_fields 200 example_view (Some example_globals))
  = [(str ":status", str "200"); (str "content-type", str "text/plain"); (str "x-a", str "1");
     (str "server", str "aeronet")].
Proof. vm_compute. reflexivity. Qed.

Lemma sendHeaders_exact_witness :
  sent 1 true (message_fields 200 example_view (Some example_globals)) example_client
    (sendHeaders 1 200 (flatten_headers example_view) true (globals_arg (Some example_globals))).
Proof.
  apply (sendHeaders_exact [] example_client 1 200 example_view (Some example_globals) true).
  - exact example_client_inv.
  - unfold id_ok. lia.
  - right. right. lia.
  - exact example_view_ok.
  - exact example_globals_ok.
Defined.

Lemma sendRequestHeaders_exact_witness :
  sent 1 true (request_fields (str "GET") true (str "/") (str "example.org") [hdr "host" "example.org"] None)
    example_client
    (sendRequestHeaders 1 (str "GET") true (str "/") (str "example.org")
       (flatten_headers [hdr "host" "example.org"]) true (globals_arg None)).
Proof.
  apply (sendRequestHeaders_exact [] example_client 1 (str "GET") true (str "/") (str "example.org")
    [hdr "host" "example.org"] None true).
  - exact example_client_inv.
  - unfold id_ok. lia.
  - split; [by apply (bool_decide_unpack _); vm_compute|reflexivity].
  - split; [by apply (bool_decide_unpack _); vm_compute|reflexivity].
  - split; [by apply (bool_decide_unpack _); vm_compute|reflexivity].
  - split; [|done]. apply Forall_cons; split; [|constructor]. unfold header_ok, header_wf.
    split_and!; try (eexists _, _; split; [reflexivity|]);
    first [split; [by apply (bool_decide_unpack _); vm_compute|reflexivity]|repeat constructor; done].
  - exact I.
Defined.

(** A client that has sent the headers of stream 1. *)
Definition example_sending : Http2Connection :=
  match prepareSendHeaders 1 false example_client with inr (_, c) => c | inl _ => example_client end.

Lemma example_sending_inv : conn_inv [] example_sending.
Proof. exact (proj1 (prepareSendHeaders_inv [] example_client 1 false example_client_inv)). Qed.

Lemma sendData_exact_witness :
  sendData 1 (replicate 5 7) true example_sending = inr (sendData_outcome 1 (replicate 5 7) true example_sending)
  /\ fst (sendData_outcome 1 (replicate 5 7) true example_sending) = ErrNoError.
Proof.
  split; [|vm_compute; reflexivity].
  apply (sendData_exact [] example_sending 1 (replicate 5 7) true).
  - exact example_sending_inv.
  - unfold id_ok. lia.
  - reflexivity.
Defined.
