(* ===== verification/Http2ConnHistory.v ===== *)
(** The two ends of an HTTP/2 connection together: the frames of a header block that one end
    sends make the other end decode the very fields that were encoded and hand them to its
    application, with both compression contexts still equal afterwards.  Then any history of
    one end, and the rules for streams and SETTINGS. *)

From S2P Require Import Prelude Http2Frame Http2Stream HpackTables AsciiCase Hpack HpackProofs.
From S2P Require Import HpackRoundtrip HeadersView Http2Connection Http2ConnInv Http2ConnSafe.
From S2P Require Import Http2ConnInput Http2ConnSend.
From S2P Require Import Http2ConnInput.
Local Open Scope Z_scope.
Local Open Scope conn_scope.

#[local] Opaque decode encode.

Section Deliver.
Context (cbs : Callbacks).

(** The end of a frame with END_STREAM. *)
Definition close_if_ended (it : iterator) (es : bool) : M unit :=
  if es then s <- deref it ;; when (isClosed s) (closeStream cbs it ErrNoError) else ret tt.

Lemma finishHeaders_run {B} f it block es s s' d' c (k : option ProcessResult -> M B) :
  cb_onHeadersDecoded cbs = Some f ->
  it_epoch it = c_streamsEpoch c -> c_streams c !! it_first it = Some s -> onRecvHeaders es s = (ErrNoError, s') ->
  decode (c_hpackDecoder c) block = inr (d', None) ->
  bind (finishHeaders cbs it block es) k c
  = bind (f (it_first it) (d_decodedHeadersMap d') es) (fun _ => bind (close_if_ended it es) (fun _ => k None))
      (set_hpackDecoder d' (set_streams (<[it_first it := s']> (c_streams c)) c)).
Proof.
  intros Hcb He Hs Hr Hd. unfold finishHeaders. cbv zeta. rewrite bind_assoc.
  rewrite (bind_run (deref it) _ c s c)
    by (unfold deref, valid, stream_at, bind, gets; rewrite He, Z.eqb_refl; cbn [assert ret]; by rewrite Hs).
  rewrite Hr. unfold put_stream. rewrite bind_assoc, bind_modify.
  rewrite bool_decide_eq_false_2 by (intros H; by apply H).
  rewrite bind_assoc. unfold decodeAndEmitHeaders. rewrite bind_assoc, bind_gets.
  cbn [c_hpackDecoder set_streams]. rewrite Hd, bind_assoc, bind_modify, Hcb. cbn [opt_call].
  rewrite bind_assoc. apply bind_ext. intros [] c'. unfold bind at 1, ret at 1.
  rewrite bool_decide_eq_false_2 by (intros H; by apply H).
  rewrite bind_assoc. reflexivity.
Qed.

(** What remains after the callback: closing the stream, forgetting the assembled block,
    and the result of a call that consumed everything. *)
Definition after_headers (it : iterator) (es single : bool) (n : Z) : M ProcessResult :=
  close_if_ended it es ;;;
  when (negb single) (modify (set_headerBlockBuffer []) ;;; modify (set_headerBlockStreamId 0)) ;;;
  pending <- gets hasPendingOutput ;;
  ret (MkResult (if pending then ActOutputReady else ActContinue) ErrNoError n []).

Lemma serve_end n (m : M unit) c :
  serve cbs (bind m (fun _ => ret (result ActContinue))) n [] c
  = bind m (fun _ => bind (gets hasPendingOutput) (fun pending : bool =>
      ret (MkResult (if pending then ActOutputReady else ActContinue) ErrNoError n []))) c.
Proof.
  unfold serve. rewrite bind_assoc. apply bind_ext. intros [] c'. unfold bind at 1, ret at 1.
  cbn [goes_on result pr_action negb]. rewrite bind_gets.
  assert (E : processFrames cbs [] c'
    = inr (MkResult (if hasPendingOutput c' then ActOutputReady else ActContinue) ErrNoError 0 [], c'))
    by reflexivity.
  rewrite (bind_run _ _ _ _ _ E). unfold resume, with_consumed.
  destruct (hasPendingOutput c'); cbn; by rewrite Z.add_0_r.
Qed.

Lemma openPeerStream_decoder id c c1 :
  openPeerStream id c = inr (None, c1) -> c_hpackDecoder c1 = c_hpackDecoder c.
Proof.
  unfold openPeerStream, find_stream. rewrite bind_gets.
  destruct (c_streams c !! id) as [s|] eqn:E; [intros H; by injection H as <-|].
  rewrite bind_gets. unfold insert_stream, erase_stream. rewrite bind_modify, !bind_gets. cbv zeta.
  destruct (_ && (Z.land _ _ =? _)); [rewrite bind_modify; unfold bind at 1; by rewrite connectionError_result|].
  destruct (_ && (_ <=? _)); [rewrite bind_modify; unfold bind at 1; by rewrite connectionError_result|].
  destruct (_ <=? _); [rewrite bind_modify; unfold bind at 1; by rewrite connectionError_result|].
  rewrite !bind_modify. intros H. by injection H as <-.
Qed.

Lemma frames_ok id es fs :
  id_ok id -> Forall bytes_ok fs -> bytes_ok (block_frames id es fs).
Proof.
  assert (Hh : forall len ty fl sid, 0 <= fl < 256 -> 0 <= FrameType_to_u8 ty < 256 ->
    bytes_ok (WriteFrameHeader (MkFrameHeader len ty fl sid))).
  { intros len ty fl sid Hfl Hty. unfold WriteFrameHeader, Write24BE, Write32BE. cbn [fh_length fh_type fh_flags fh_streamId].
    repeat (apply Forall_app; split); repeat constructor; unfold byte_ok; rewrite ?land_255; try zlia; try done. }
  assert (Hc : forall fs, Forall bytes_ok fs -> bytes_ok (continuation_frames id fs)).
  { intros l Hl. induction Hl as [|f l Hf Hl IH]; [constructor|]. cbn [continuation_frames].
    apply Forall_app. split; [|exact IH]. unfold continuation_frame. apply Forall_app. split; [|done].
    apply Hh; [cbn; by destruct (is_nil l)|done]. }
  intros Hid Hf. destruct Hf as [|f fs Hf Hfs]; [constructor|]. cbn [block_frames].
  apply Forall_app. split; [|by apply Hc]. unfold headers_frame. apply Forall_app. split; [|done].
  apply Hh; [by destruct es, (is_nil fs)|done].
Qed.

(** C2: headers are delivered: let one end encode a list of fields and frame the block for
    the other end's maximum frame size (as [sendHeaders] and [sendRequestHeaders] do), and
    let the other end, with an equal compression context, accept the stream.  Then feeding
    it those frames runs its headers callback exactly once, on that stream, with exactly
    those fields (merged by the header policy) and the END_STREAM flag, in a state where
    the contexts are equal again and the stream has moved; then everything is consumed. *)
Theorem headers_delivered f id es fs enc e' block mf c c1 s s' m :
  cb_onHeadersDecoded cbs = Some f ->
  encoder_ok enc -> fields_ok fs -> hazard_free (table_start enc) fs = true ->
  encode_all enc [] fs = Some (e', block) -> zlen block <= kMaxHeaderBlockAccumulationSize ->
  d_dynamicTable (c_hpackDecoder c) = e_dynamicTable enc ->
  0 < mf <= cfg_maxFrameSize (c_localSettings c) -> mf < 2 ^ 24 ->
  accepts_headers id c c1 ->
  c_streams c1 !! id = Some s -> onRecvHeaders es s = (ErrNoError, s') ->
  store_all (d_mergeAllowedForUnknownRequestHeaders (c_hpackDecoder c)) [] fs = inr m ->
  exists c2 single, d_dynamicTable (c_hpackDecoder c2) = e_dynamicTable e'
  /\ c_streams c2 = <[id := s']> (c_streams c1) /\ c_streamsEpoch c2 = c_streamsEpoch c1
  /\ processFrames cbs (header_frames id es mf block) c
     = bind (f id m es) (fun _ => after_headers (MkIterator id (c_streamsEpoch c1)) es single (zlen (header_frames id es mf block))) c2.
Proof.
  intros Hcb He Hfs Hh Henc Hlen Htab Hmf H24 Hacc Hs Hr Hst. pose proof Hacc as (Hid & _ & _ & _ & Hopen).
  destruct (encoded_block_decodes enc fs (d_mergeAllowedForUnknownRequestHeaders (c_hpackDecoder c)) He Hfs Hh)
    as (e2 & out & E2 & _ & Hdec).
  rewrite Henc in E2. injection E2 as <- <-. specialize (Hdec (c_hpackDecoder c) Htab eq_refl).
  rewrite Hst in Hdec. pose proof (openPeerStream_decoder _ _ _ Hopen) as Hd1.
  destruct (encode_all_ok enc fs He Hfs) as (e3 & b3 & E3 & _ & Hb). rewrite Henc in E3. injection E3 as <- <-.
  unfold header_frames. destruct (chunks_cons (length block) mf block) as (f0 & rest & Ech).
  assert (Hconcat : concat (f0 :: rest) = block) by (rewrite <- Ech; apply chunks_concat).
  assert (Hall : Forall bytes_ok (f0 :: rest)).
  { apply Forall_forall. intros x Hx. rewrite <- Hconcat in Hb.
    clear - Hx Hb. induction (f0 :: rest) as [|y l IH]; [by apply elem_of_nil in Hx|].
    cbn [concat] in Hb. apply Forall_app in Hb as [Hy Hl].
    apply elem_of_cons in Hx as [-> | Hx]; [done|by apply IH]. }
  assert (Hfrag : Forall (fragment_ok c) (f0 :: rest)).
  { apply Forall_forall. intros x Hx. rewrite Forall_forall in Hall.
    assert (zlen x <= mf) by (apply (chunks_size (length block) mf block x); [lia|done|by rewrite Ech]).
    split; [by apply Hall|lia]. }
  assert (Hp := block_frames_processed cbs id es f0 rest [] c c1 Hacc Hfrag). rewrite !app_nil_r, Hconcat in Hp.
  specialize (Hp (frames_ok id es (f0 :: rest) Hid Hall) Hlen). rewrite Ech, Hp. clear Hp.
  destruct rest as [|f1 rest]; cbn [is_nil].
  - cbn [concat] in Hconcat. rewrite app_nil_r in Hconcat. subst f0.
    exists (set_hpackDecoder (MkDecoder (e_dynamicTable e') m
              (d_mergeAllowedForUnknownRequestHeaders (c_hpackDecoder c)))
              (set_streams (<[id := s']> (c_streams c1)) c1)), true.
    split_and!; [reflexivity..|].
    unfold serve, finish_headers. rewrite bind_assoc. unfold iterator_at at 1. rewrite bind_gets, bind_assoc.
    rewrite (finishHeaders_run f (MkIterator id (c_streamsEpoch c1)) block es s s' _ c1 _ Hcb eq_refl Hs Hr ltac:(rewrite Hd1; exact Hdec)).
    cbn [d_decodedHeadersMap]. apply bind_ext. intros [] c'.
    pose proof (serve_end (zlen (block_frames id es [block])) (close_if_ended (MkIterator id (c_streamsEpoch c1)) es) c') as Hend.
    unfold serve in Hend. rewrite bind_assoc in Hend. exact Hend.
  - set (c2 := set_expectingContinuation false (assembling id es block c1)).
    exists (set_hpackDecoder (MkDecoder (e_dynamicTable e') m
              (d_mergeAllowedForUnknownRequestHeaders (c_hpackDecoder c)))
              (set_streams (<[id := s']> (c_streams c1)) c2)), false.
    split_and!; [reflexivity..|].
    unfold serve, finish_assembly. rewrite bind_assoc. unfold iterator_at at 1. rewrite bind_gets, bind_assoc.
    change (c_streamsEpoch c2) with (c_streamsEpoch c1).
    rewrite (finishHeaders_run f (MkIterator id (c_streamsEpoch c1)) block es s s' (MkDecoder (e_dynamicTable e') m
              (d_mergeAllowedForUnknownRequestHeaders (c_hpackDecoder c))) c2 _ Hcb eq_refl Hs Hr).
    2:{ change (c_hpackDecoder c2) with (c_hpackDecoder c1). rewrite Hd1. exact Hdec. }
    cbn [d_decodedHeadersMap]. apply bind_ext. intros [] c'.
    pose proof (serve_end (zlen (block_frames id es (f0 :: f1 :: rest)))
      (close_if_ended (MkIterator id (c_streamsEpoch c1)) es ;;; (modify (set_headerBlockBuffer []) ;;; modify (set_headerBlockStreamId 0))) c') as Hend.
    unfold serve in Hend. rewrite !bind_assoc in Hend. unfold after_headers.
    etransitivity; [|etransitivity; [exact Hend|]].
    + apply bind_ext. intros [] c3. rewrite !bind_assoc. rewrite !bind_modify. reflexivity.
    + apply bind_ext. intros [] c3. cbn [negb when]. reflexivity.
Qed.
End Deliver.

(** A GET request to a server whose application answers the headers with a PING. *)
Definition example_fields : list field :=
  [MkField (str ":method") (str "GET") Indexed; MkField (str ":scheme") (str "https") Indexed;
   MkField (str ":authority") (str "example.org") Indexed; MkField (str ":path") (str "/a?b") Indexed;
   MkField (str "x-trace") (str "7") Indexed; MkField (str "x-trace") (str "8") Indexed].

Definition example_encoded : HpackEncoder * bytes :=
  match encode_all (new_encoder 4096) [] example_fields with Some r => r | None => (new_encoder 0, []) end.

Definition answer_ping : Z -> HeadersMap -> bool -> M unit :=
  fun _ _ _ => sendPing (MkPingFrame (replicate 8 0) false).

Definition example_callbacks : Callbacks := MkCallbacks (Some answer_ping) None None None None None.

Lemma headers_delivered_witness :
  exists c2 single, d_dynamicTable (c_hpackDecoder c2) = e_dynamicTable (fst example_encoded)
  /\ c_streams c2 = <[1 := snd (onRecvHeaders true (NewStream 1 65535))]> (c_streams example_opened)
  /\ c_streamsEpoch c2 = 1
  /\ processFrames example_callbacks (header_frames 1 true 16384 (snd example_encoded)) example_server
     = bind (answer_ping 1 [(str ":method", str "GET"); (str ":scheme", str "https");
               (str ":authority", str "example.org"); (str ":path", str "/a?b"); (str "x-trace", str "7,8")] true)
         (fun _ => after_headers example_callbacks (MkIterator 1 1) true single
            (zlen (header_frames 1 true 16384 (snd example_encoded)))) c2.
Proof.
  apply (headers_delivered example_callbacks answer_ping 1 true example_fields (new_encoder 4096)
    (fst example_encoded) (snd example_encoded) 16384 example_server example_opened (NewStream 1 65535)).
  - reflexivity.
  - split; [split; [constructor; cbn; lia|cbn; lia]|by left].
  - repeat constructor; first [discriminate | reflexivity | cbn; lia].
  - vm_compute. reflexivity.
  - vm_compute. reflexivity.
  - vm_compute. discriminate.
  - reflexivity.
  - cbn. lia.
  - lia.
  - split; [unfold id_ok; lia|]. split; [done|]. split; [reflexivity|]. split; [by intros [?|?]|reflexivity].
  - reflexivity.
  - reflexivity.
  - vm_compute. reflexivity.
Defined.

(** Histories of HTTP/2 connections: whatever a peer sends and whatever the application
    calls, in whatever order and from whatever callbacks, the connection invariant holds and
    no assertion of the code fails. *)

(** The public operations that change the connection. *)
Inductive api_call :=
| CallProcessInput (data : bytes)
| CallOnOutputWritten (bytesWritten : Z)
| CallInitiateGoAway (errorCode : ErrorCode) (debugData : bytes)
| CallSendServerPreface
| CallSendClientPreface
| CallPrepareSendHeaders (streamId : Z) (endStream : bool)
| CallSendHeaders (streamId status : Z) (hs : list HeaderView) (gs : option (list HeaderView))
    (endStream : bool)
| CallSendRequestHeaders (streamId : Z) (method : bytes) (isTls : bool) (target authority : bytes)
    (hs : list HeaderView) (gs : option (list HeaderView)) (endStream : bool)
| CallSendData (streamId : Z) (data : bytes) (endStream : bool)
| CallSendRstStream (streamId : Z) (errorCode : ErrorCode)
| CallSendPing (frame : PingFrame)
| CallSendWindowUpdate (streamId increment : Z)
| CallFinalizeSendClosedStream (streamId : Z).

Section History.
Context (cbs : Callbacks).

Definition ignore {A} (m : M A) : M unit := bind m (fun _ => ret tt).

Definition run_call (a : api_call) : M unit :=
  match a with
  | CallProcessInput data => ignore (processInput cbs data)
  | CallOnOutputWritten n => onOutputWritten n
  | CallInitiateGoAway e d => initiateGoAway e d
  | CallSendServerPreface => sendServerPreface
  | CallSendClientPreface => sendClientPreface
  | CallPrepareSendHeaders id es => ignore (prepareSendHeaders id es)
  | CallSendHeaders id status hs gs es =>
      ignore (sendHeaders id status (flatten_headers hs) es (globals_arg gs))
  | CallSendRequestHeaders id method tls target authority hs gs es =>
      ignore (sendRequestHeaders id method tls target authority (flatten_headers hs) es (globals_arg gs))
  | CallSendData id data es => ignore (sendData id data es)
  | CallSendRstStream id e => sendRstStream cbs id e
  | CallSendPing p => sendPing p
  | CallSendWindowUpdate id n => sendWindowUpdate id n
  | CallFinalizeSendClosedStream id => finalizeSendClosedStream cbs id
  end.

(** The header block of a message stays below 4 GiB. *)
Definition block_small (fs : list field) (c : Http2Connection) : Prop :=
  forall e' block, encode_all (c_hpackEncoder c) [] fs = Some (e', block) -> zlen block < 2 ^ 32.

(** What a caller must respect: arguments in the range of their types, messages made of
    well-formed headers, and buffers smaller than the address space. *)
Definition call_ok (a : api_call) (c : Http2Connection) : Prop :=
  match a with
  | CallProcessInput data => bytes_ok data
  | CallOnOutputWritten n => 0 <= n < 2 ^ 63 /\ zlen (c_outputBuffer c) < 2 ^ 63
  | CallSendHeaders id status hs gs es =>
      id_ok id /\ status_ok status /\ view_ok status hs /\ globals_ok gs
      /\ block_small (message_fields status hs gs) c
  | CallSendRequestHeaders id method tls target authority hs gs es =>
      id_ok id /\ text_ok method /\ text_ok authority /\ text_ok target
      /\ view_ok (match target with [] => 0 | _ => MagicForHttpRequest end) hs /\ globals_ok gs
      /\ block_small (request_fields method tls target authority hs gs) c
  | CallSendData id data es => zlen data < 2 ^ 31
  | CallSendWindowUpdate id n => u32_ok n
  | _ => True
  end.

(** Sequences of calls, each allowed in the state it starts from. *)
Inductive run_calls : Http2Connection -> list api_call -> fault + Http2Connection -> Prop :=
| run_nil c : run_calls c [] (inr c)
| run_fault c a calls f : call_ok a c -> run_call a c = inl f -> run_calls c (a :: calls) (inl f)
| run_step c a calls c' r :
    call_ok a c -> run_call a c = inr (tt, c') -> run_calls c' calls r -> run_calls c (a :: calls) r.

Hypothesis Hcbs : cbs_ok cbs.

Lemma ignore_safe {A} (m : M A) : safe m -> safe (ignore m).
Proof. intros Hm. apply safe_bind; [done|]. intros a. apply safe_ret. Qed.

Lemma sent_inv pend c id es fs m :
  conn_inv pend c -> block_small fs c -> sent id es fs c m ->
  wp m (fun _ c' => conn_inv pend c') c.
Proof.
  intros Hc Hb (err & c1 & Hp & Hfr & Hno & Hyes).
  pose proof (prepareSendHeaders_inv pend c id es Hc) as Hi. unfold wp in Hi |- *. rewrite Hp in Hi.
  destruct Hi as (Hc1 & Ho & Hw). destruct (decide (err = ErrNoError)) as [E|E].
  - destruct (Hyes E) as (e' & block & Henc & He' & _ & Hrun). rewrite (Hrun (Hb _ _ Henc)).
    rewrite <- Ho. pose proof (inv_append pend _ (header_frames id es (ps_maxFrameSize (c_peerSettings c)) block)
      (inv_set_encoder pend e' c1 He' Hc1)) as Hf. exact Hf.
  - by rewrite (Hno E).
Qed.

Lemma run_call_inv pend a c :
  conn_inv pend c -> call_ok a c -> wp (run_call a) (fun _ c' => conn_inv pend c') c.
Proof using Hcbs.
  intros Hc Ha.
  assert (Hign : forall A (m : M A), wp m (fun _ c' => conn_inv pend c') c ->
    wp (ignore m) (fun _ c' => conn_inv pend c') c).
  { intros A m Hm. apply wp_bind. eapply wp_mono; [exact Hm|]. intros x c' Hc'. by apply wp_ret. }
  destruct a; cbn [run_call call_ok] in *.
  - apply Hign. by apply (processInput_safe cbs Hcbs).
  - destruct Ha as [Hn Hl]. by apply onOutputWritten_safe.
  - by apply initiateGoAway_safe.
  - by apply sendServerPreface_safe.
  - by apply sendClientPreface_safe.
  - apply Hign. eapply wp_mono; [by apply prepareSendHeaders_inv|]. intros ? ? [? _]. done.
  - destruct Ha as (Hid & Hst & Hv & Hg & Hb). apply Hign. apply (sent_inv pend c streamId endStream _ _ Hc Hb).
    apply (sent_intro streamId endStream _ pend); [done|done|by apply message_fields_ok|].
    intros o c0. by apply encodeHeaders_eq.
  - destruct Ha as (Hid & Hm & Hau & Ht & Hv & Hg & Hb). apply Hign. apply (sent_inv pend c streamId endStream _ _ Hc Hb).
    by apply (request_sent pend).
  - apply Hign. by apply sendData_safe.
  - by apply (sendRstStream_safe cbs Hcbs).
  - by apply sendPing_safe.
  - by apply sendWindowUpdate_safe.
  - by apply (finalizeSendClosedStream_inv cbs Hcbs).
Qed.

End History.

Section Invariant.
Context (cbs : Callbacks).
Hypothesis Hcbs : cbs_ok cbs.

Lemma run_calls_inv c calls r :
  conn_inv [] c -> run_calls cbs c calls r ->
  match r with inr c' => conn_inv [] c' | inl f => f = HpackAliasing end.
Proof using Hcbs.
  intros Hc Hr. revert Hc. induction Hr as [c|c a calls f Ha Hf|c a calls c' r Ha Hrun Hr IH]; intros Hc.
  - exact Hc.
  - pose proof (run_call_inv cbs Hcbs [] a c Hc Ha) as H. unfold wp in H. rewrite Hf in H. by destruct f.
  - apply IH. pose proof (run_call_inv cbs Hcbs [] a c Hc Ha) as H. unfold wp in H. by rewrite Hrun in H.
Qed.
End Invariant.

(** C1: no history breaks a connection: from a validated configuration, whatever bytes the
    peer sends, however they are cut, and whatever operations the application calls, also
    from its callbacks, no assertion of the code fails, no stream is used that the map does
    not hold, and no iterator is used after the map was restructured; the only fault left is
    the HPACK decoder reading a freed name, in the exact case of [decode_safe].  The callbacks
    that run while an iterator is held (a stream was closed; headers or data with END_STREAM)
    must not open a stream nor have one removed.  All along, the flow
    control windows stay within [0, 2^31), the active streams are exactly those not yet
    notified as closed, the closed streams kept are at most 16 and exactly those queued, and
    the header block buffer stays below 256 KiB. *)
Theorem connection_invariant cbs cfg isServer calls r :
  cbs_ok cbs -> config_ok cfg -> run_calls cbs (new_connection cfg isServer) calls r ->
  match r with inr c => conn_inv [] c | inl f => f = HpackAliasing end.
Proof. intros Hcbs Hcfg. apply run_calls_inv; [done|]. by apply new_connection_inv. Qed.

(** ** Witness *)

(** An application that answers every message with a PING. *)
Definition ping_callbacks : Callbacks :=
  let ping := sendPing (MkPingFrame (replicate 8 0) false) in
  MkCallbacks (Some (fun _ _ _ => ping)) (Some (fun _ _ _ => ping)) None None None None.

Lemma ping_callbacks_ok : cbs_ok ping_callbacks.
Proof.
  assert (Hp : forall p, keeps_slots (sendPing p)).
  { intros p pend c Hc. unfold sendPing, write. wsteps.
    split; [by apply (inv_write pend c _ (appends_ping p))|done]. }
  constructor; cbn; try done; intros f Hf; injection Hf as <-; intros id x []; first [apply Hp|apply keeps_slots_inv, Hp].
Qed.

(** The preface, an empty SETTINGS frame, and half of a HEADERS frame. *)
Definition example_calls : list api_call :=
  [CallSendServerPreface;
   CallProcessInput kConnectionPreface;
   CallProcessInput [0; 0; 0; 4; 0; 0; 0; 0; 0; 0; 0; 3; 1; 5; 0; 0; 0; 1; 130];
   CallOnOutputWritten 20;
   CallProcessInput [0; 0; 3; 1; 5; 0; 0; 0; 1; 130; 132; 134];
   CallSendHeaders 1 200 [] None true;
   CallFinalizeSendClosedStream 1].

Lemma connection_invariant_witness :
  exists c, run_calls ping_callbacks (new_connection default_config true) example_calls (inr c)
  /\ conn_inv [] c.
Proof.
  assert (Hrun : exists c, run_calls ping_callbacks (new_connection default_config true) example_calls (inr c)).
  { eexists. unfold example_calls.
    eapply run_step; [exact I|vm_compute; reflexivity|].
    eapply run_step; [by apply (bool_decide_unpack _); vm_compute|vm_compute; reflexivity|].
    eapply run_step; [by apply (bool_decide_unpack _); vm_compute|vm_compute; reflexivity|].
    eapply run_step; [split; [lia|vm_compute; reflexivity]|vm_compute; reflexivity|].
    eapply run_step; [by apply (bool_decide_unpack _); vm_compute|vm_compute; reflexivity|].
    eapply run_step; [|vm_compute; reflexivity|].
    { split; [unfold id_ok; lia|]. split; [right; right; lia|]. split; [by split|]. split; [done|].
      intros e' block E. vm_compute in E. injection E as <- <-. reflexivity. }
    eapply run_step; [exact I|vm_compute; reflexivity|]. apply run_nil. }
  destruct Hrun as [c Hrun]. exists c. split; [exact Hrun|].
  apply (connection_invariant ping_callbacks default_config true example_calls (inr c)).
  - exact ping_callbacks_ok.
  - vm_compute. intuition congruence.
  - exact Hrun.
Defined.

(** A server whose application resets the stream when it gets a request, as the protocol
    handler does for a request without path.  When 16 closed streams are retained already,
    the reset removes the oldest from the map, and the handler of the frame goes on with an
    iterator from before the removal. *)
Definition reset_callbacks : Callbacks :=
  MkCallbacks (Some (fun id _ _ => sendRstStream no_callbacks id ErrProtocolError)) None None None None None.

Definition requests (n : nat) : bytes :=
  concat (map (fun i => headers_frame (2 * i + 1) true true [130; 132; 134]) (seqZ 0 (Z.of_nat n))).

Lemma reset_in_callback_dangles :
  (exists r c, processFrames reset_callbacks (requests 16) example_server = inr (r, c) /\ zlen (c_closedStreamsFifo c) = 16)
  /\ processFrames reset_callbacks (requests 17) example_server = inl Undefined.
Proof.
  split; [|vm_compute; reflexivity].
  destruct (processFrames reset_callbacks (requests 16) example_server) as [f|[r c]] eqn:E; [vm_compute in E; discriminate|].
  exists r, c. split; [done|]. vm_compute in E. injection E as _ <-. reflexivity.
Qed.

(** Rules of HTTP/2 connections: which streams a peer may open, and what a SETTINGS frame
    changes. *)

(** ** Streams opened by the peer *)

(** A client opens odd streams in increasing order; a server's concurrency limit applies. *)
Definition admitted (id : Z) (c : Http2Connection) : bool :=
  (negb (c_isServer c) || (Z.odd id && (c_lastPeerStreamId c <? id)))
  && (c_activeStreamCount c <? cfg_maxConcurrentStreams (c_localSettings c)).

Lemma land_1_odd id : (Z.land id 1 =? 0) = negb (Z.odd id).
Proof.
  change 1 with (Z.ones 1). rewrite land_ones_mod by lia. change (2 ^ 1) with 2.
  rewrite Zmod_odd. by destruct (Z.odd id).
Qed.

Definition opened (id : Z) (c : Http2Connection) : Http2Connection :=
  set_lastPeerStreamId id (set_activeStreamCount (c_activeStreamCount c + 1)
    (set_streamsEpoch (c_streamsEpoch c + 1)
      (set_streams (<[id := NewStream id (ps_initialWindowSize (c_peerSettings c))]> (c_streams c)) c))).

(** a peer opens exactly the streams it may: a stream the connection knows is left as
    it is; an unknown one is created, counted and recorded as the last of the peer exactly
    when (for a server) its identifier is odd and larger than all the previous ones, and
    fewer streams than the local limit are active; otherwise the connection ends with
    PROTOCOL_ERROR and its streams are as before. *)
Theorem openPeerStream_exact pend c id :
  conn_inv pend c ->
  (is_Some (c_streams c !! id) -> openPeerStream id c = inr (None, c))
  /\ (c_streams c !! id = None ->
      if admitted id c then openPeerStream id c = inr (None, opened id c)
      else exists msg c', openPeerStream id c = inr (Some (MkResult ActError ErrProtocolError 0 msg), c')
             /\ c_state c' = Closed /\ c_streams c' = c_streams c
             /\ c_activeStreamCount c' = c_activeStreamCount c).
Proof.
  intros Hc. split.
  { intros [s Hs]. unfold openPeerStream, find_stream. rewrite bind_gets. by rewrite Hs. }
  intros Hid. unfold openPeerStream, find_stream. rewrite bind_gets, Hid, bind_gets.
  unfold insert_stream, erase_stream. rewrite bind_modify, !bind_gets. cbv zeta.
  cbn [c_isServer c_lastPeerStreamId c_activeStreamCount c_localSettings set_streams set_streamsEpoch].
  assert (Herr : forall msg, exists msg' c',
    bind (erase_stream id) (fun _ => bind (connectionError ErrProtocolError msg) (fun r => ret (Some r)))
      (set_streamsEpoch (c_streamsEpoch c + 1)
        (set_streams (<[id := NewStream id (ps_initialWindowSize (c_peerSettings c))]> (c_streams c)) c))
    = inr (Some (MkResult ActError ErrProtocolError 0 msg'), c')
    /\ c_state c' = Closed /\ c_streams c' = c_streams c /\ c_activeStreamCount c' = c_activeStreamCount c).
  { intros msg. unfold erase_stream. rewrite bind_modify. cbn [c_streams c_streamsEpoch set_streams set_streamsEpoch].
    rewrite rollback_stream by done.
    rewrite (bind_run _ _ _ _ _ (connectionError_result ErrProtocolError msg (set_streamsEpoch _ c))).
    do 2 eexists. split; [reflexivity|]. unfold initiateGoAway, bind, gets, modify, write, ret.
    cbn [c_state set_streamsEpoch]. by destruct (c_state c). }
  unfold erase_stream in Herr. rewrite land_1_odd. unfold admitted.
  destruct (c_isServer c), (Z.odd id), (Z.leb_spec id (c_lastPeerStreamId c)),
    (Z.ltb_spec (c_lastPeerStreamId c) id); cbn [andb orb negb]; try lia; try apply Herr;
    (destruct (Z.leb_spec (cfg_maxConcurrentStreams (c_localSettings c)) (c_activeStreamCount c)) as [|Hlt],
       (Z.ltb_spec (c_activeStreamCount c) (cfg_maxConcurrentStreams (c_localSettings c)));
       try lia; [apply Herr|]); rewrite !bind_modify; unfold opened; rewrite u32_id; try done;
    pose proof (inv_active _ _ Hc); destruct (inv_config _ _ Hc) as (_ & _ & [_ Hu] & _);
    assert (0 <= active_of (c_streams c)) by (unfold active_of; lia); lia.
Qed.

Lemma openPeerStream_exact_witness :
  conn_inv [] example_server
  /\ openPeerStream 5 example_server = inr (None, opened 5 example_server)
  /\ exists msg c', openPeerStream 4 example_server = inr (Some (MkResult ActError ErrProtocolError 0 msg), c').
Proof.
  split; [exact example_server_inv|].
  destruct (openPeerStream_exact [] example_server 5 example_server_inv) as [_ H5].
  destruct (openPeerStream_exact [] example_server 4 example_server_inv) as [_ H4].
  specialize (H5 eq_refl). specialize (H4 eq_refl).
  change (admitted 5 example_server) with true in H5. change (admitted 4 example_server) with false in H4.
  cbv iota in H4, H5.
  split; [exact H5|]. destruct H4 as (msg & c' & H4 & _). by exists msg, c'.
Defined.

(** ** SETTINGS *)

(** The error of an invalid value. *)
Definition setting_error (e : SettingsEntry) : option ErrorCode :=
  match se_id e with
  | SpEnablePush => if 1 <? se_value e then Some ErrProtocolError else None
  | SpInitialWindowSize => if 0x7FFFFFFF <? se_value e then Some ErrFlowControlError else None
  | SpMaxFrameSize =>
      if (se_value e <? 16384) || (16777215 <? se_value e) then Some ErrProtocolError else None
  | _ => None
  end.

(** The settings of the peer after a valid entry. *)
Definition setting_applied (e : SettingsEntry) (p : PeerSettings) : PeerSettings :=
  let '(MkPeer hts push mcs iws mfs mhls) := p in
  let v := se_value e in
  match se_id e with
  | SpHeaderTableSize => MkPeer v push mcs iws mfs mhls
  | SpEnablePush => MkPeer hts (v =? 1) mcs iws mfs mhls
  | SpMaxConcurrentStreams => MkPeer hts push v iws mfs mhls
  | SpInitialWindowSize => MkPeer hts push mcs v mfs mhls
  | SpMaxFrameSize => MkPeer hts push mcs iws v mhls
  | SpMaxHeaderListSize => MkPeer hts push mcs iws mfs v
  | SpOther _ => p
  end.

(** The streams after a new initial window size, when every one of them accepts it. *)
Definition streams_accept (v : Z) (m : StreamsMap) : Prop :=
  map_Forall (fun _ s => fst (updateInitialWindowSize v s) = ErrNoError) m.

Definition streams_updated (v : Z) (m : StreamsMap) : StreamsMap :=
  (fun s => snd (updateInitialWindowSize v s)) <$> m.

Definition setting_state (e : SettingsEntry) (c : Http2Connection) : Http2Connection :=
  let c := set_peerSettings (setting_applied e (c_peerSettings c)) c in
  match se_id e with
  | SpHeaderTableSize => set_hpackEncoder (encoder_setMaxDynamicTableSize (c_hpackEncoder c) (se_value e)) c
  | SpInitialWindowSize => set_streams (streams_updated (se_value e) (c_streams c)) c
  | _ => c
  end.

(** Every entry is acceptable in the state the previous ones lead to. *)
Fixpoint settings_valid (es : list SettingsEntry) (c : Http2Connection) : Prop :=
  match es with
  | [] => True
  | e :: es =>
      setting_error e = None
      /\ (se_id e = SpInitialWindowSize -> streams_accept (se_value e) (c_streams c))
      /\ settings_valid es (setting_state e c)
  end.

Definition settings_state (es : list SettingsEntry) (c : Http2Connection) : Http2Connection :=
  fold_left (fun c e => setting_state e c) es c.

Lemma update_windows_run v ids m c :
  NoDup ids -> (forall id, id ∈ ids -> m !! id = c_streams c !! id) ->
  (forall id, id ∈ ids -> is_Some (m !! id)) -> streams_accept v m ->
  exists m', update_windows ids v c = inr (ErrNoError, set_streams m' c)
  /\ (forall id, id ∈ ids -> m' !! id = streams_updated v m !! id)
  /\ (forall id, id ∉ ids -> m' !! id = c_streams c !! id).
Proof.
  intros Hnd Heq Hin Hacc. revert c Heq. induction ids as [|id ids IH]; intros c Heq; cbn [update_windows].
  { exists (c_streams c). split_and!; [by destruct c| |done]. intros id Hid. by apply elem_of_nil in Hid. }
  apply NoDup_cons in Hnd as [Hnot Hnd].
  destruct (Hin id ltac:(apply elem_of_cons; by left)) as [s Hs].
  assert (Hcs : c_streams c !! id = Some s) by (rewrite <- Heq; [done|apply elem_of_cons; by left]).
  rewrite (bind_run (stream_at id) _ c s c) by (unfold stream_at; by rewrite Hcs).
  pose proof (Hacc id s Hs) as Hok. destruct (updateInitialWindowSize v s) as [err s'] eqn:E.
  assert (Herr : err = ErrNoError) by (clear -Hok E; cbv beta in Hok; rewrite E in Hok; exact Hok). rewrite Herr. clear Herr. unfold put_stream. rewrite bind_modify.
  rewrite bool_decide_eq_false_2 by (intros H; by apply H).
  destruct (IH Hnd ltac:(intros i Hi; apply Hin, elem_of_cons; by right)
    (set_streams (<[id := s']> (c_streams c)) c)) as (m' & Hrun & Hm & Hother).
  { intros i Hi. cbn. rewrite lookup_insert_ne by (intros ->; done). apply Heq, elem_of_cons. by right. }
  exists m'. split_and!; [exact Hrun| |].
  - intros i [-> | Hi]%elem_of_cons; [|by apply Hm]. rewrite Hother by done. cbn.
    rewrite lookup_insert_eq. unfold streams_updated. rewrite lookup_fmap, Hs. cbn. by rewrite E.
  - intros i Hi. rewrite elem_of_cons in Hi. rewrite Hother by tauto. cbn.
    by rewrite lookup_insert_ne by (intros ->; tauto).
Qed.

Lemma update_all_windows v c :
  streams_accept v (c_streams c) ->
  update_windows (map fst (map_to_list (c_streams c))) v c
  = inr (ErrNoError, set_streams (streams_updated v (c_streams c)) c).
Proof.
  intros Hacc. set (ids := map fst (map_to_list (c_streams c))).
  assert (Hids : forall i, i ∈ ids <-> is_Some (c_streams c !! i)).
  { intros i. subst ids. rewrite list_elem_of_fmap. split.
    - intros ([k s] & -> & Hk). apply elem_of_map_to_list in Hk. by eexists.
    - intros [s Hs]. exists (i, s). split; [done|]. by apply elem_of_map_to_list. }
  destruct (update_windows_run v ids (c_streams c) c) as (m' & Hrun & Hm & Hother); try done.
  { apply NoDup_fst_map_to_list. }
  { intros i. apply Hids. }
  rewrite Hrun. do 3 f_equal. apply map_eq. intros i. destruct (decide (i ∈ ids)) as [Hi|Hi].
  - by apply Hm.
  - rewrite Hother by done. unfold streams_updated. rewrite lookup_fmap.
    rewrite Hids in Hi. destruct (c_streams c !! i) as [s|]; [|done]. exfalso. apply Hi. by eexists.
Qed.

Lemma applySetting_valid e c :
  setting_error e = None -> (se_id e = SpInitialWindowSize -> streams_accept (se_value e) (c_streams c)) ->
  applySetting e c = inr (None, setting_state e c).
Proof.
  unfold setting_error, applySetting, setting_state, with_peer. intros He Hacc.
  assert (Hp : setting_applied e (c_peerSettings c) = setting_applied e (c_peerSettings c)) by done.
  unfold setting_applied in Hp |- *. destruct (c_peerSettings c) as [hts push mcs iws mfs mhls] eqn:Ep.
  destruct (se_id e).
  - rewrite !bind_modify. cbn. by rewrite Ep.
  - destruct (1 <? se_value e); [done|]. rewrite bind_modify. cbn. by rewrite Ep.
  - rewrite bind_modify. cbn. by rewrite Ep.
  - destruct (_ <? se_value e); [done|]. rewrite bind_gets.
    rewrite (bind_run _ _ _ _ _ (update_all_windows (se_value e) c (Hacc eq_refl))).
    rewrite bool_decide_eq_false_2 by (intros H; by apply H). rewrite bind_modify. cbn. by rewrite Ep.
  - destruct (_ || _); [done|]. rewrite bind_modify. cbn. by rewrite Ep.
  - rewrite bind_modify. cbn. by rewrite Ep.
  - unfold ret. do 2 f_equal. cbn. rewrite <- Ep. by destruct c.
Qed.

Lemma applySettings_valid es c :
  settings_valid es c -> applySettings es c = inr (None, settings_state es c).
Proof.
  revert c. induction es as [|e es IH]; intros c; cbn [settings_valid applySettings]; [done|].
  intros (He & Hacc & Hes). rewrite (bind_run _ _ _ _ _ (applySetting_valid e c He Hacc)). by apply IH.
Qed.

(** An invalid entry after valid ones. *)
Lemma applySettings_invalid es1 e es2 c code :
  settings_valid es1 c -> setting_error e = Some code ->
  exists msg, applySettings (es1 ++ e :: es2) c
  = bind (connectionError code msg) (fun r => ret (Some r)) (settings_state es1 c).
Proof.
  intros Hv He. revert c Hv. induction es1 as [|e1 es1 IH]; intros c Hv; cbn [app applySettings].
  - unfold setting_error in He. unfold applySetting. cbn [settings_state fold_left].
    assert (Hrun : forall msg, exists msg', bind (bind (connectionError code msg) (fun r => ret (Some r)))
        (fun r => match r with Some r => ret (Some r) | None => applySettings es2 end) c
      = bind (connectionError code msg') (fun r => ret (Some r)) c).
    { intros msg. exists msg. unfold bind. by rewrite connectionError_result. }
    destruct (se_id e); try discriminate He.
    + destruct (1 <? se_value e); [|discriminate He]. injection He as <-. apply Hrun.
    + destruct (_ <? se_value e); [|discriminate He]. injection He as <-. apply Hrun.
    + destruct (_ || _); [|discriminate He]. injection He as <-. apply Hrun.
  - cbn [settings_valid] in Hv. destruct Hv as (He1 & Hacc & Hes).
    rewrite (bind_run _ _ _ _ _ (applySetting_valid e1 c He1 Hacc)). by apply IH.
Qed.

(** "If we were awaiting settings, now we're open". *)
Definition open_if_awaiting (c : Http2Connection) : Http2Connection :=
  if bool_decide (c_state c = AwaitingSettings) then set_state Open c else c.

Lemma openIfAwaiting_run c : openIfAwaiting c = inr (tt, open_if_awaiting c).
Proof. unfold openIfAwaiting, open_if_awaiting. rewrite bind_gets. by destruct (bool_decide _). Qed.

(** C40: a SETTINGS frame is applied entry by entry, in order: when every entry is valid, and
    every stream accepts each new initial window size, the peer's settings, the pending
    size of the encoder's table and the send windows of all the streams change as the
    entries say, the frame is acknowledged, and a connection that awaited settings opens;
    the first invalid value ends the connection with its error, with the entries before it
    applied and nothing acknowledged; an acknowledgement only opens the connection. *)
Theorem handleSettingsFrame_exact header payload frame c :
  fh_streamId header = 0 -> ParseSettingsFrame header payload = inr frame ->
  if sf_isAck frame then
    handleSettingsFrame header payload c
    = inr (result ActContinue, set_settingsAckReceived true (open_if_awaiting c))
  else
    (settings_valid (sf_entries frame) c ->
     let c' := settings_state (sf_entries frame) c in
     handleSettingsFrame header payload c
     = inr (result ActOutputReady,
            open_if_awaiting (set_outputBuffer (fst (WriteSettingsAckFrame (c_outputBuffer c'))) c')))
    /\ (forall es1 e es2 code, sf_entries frame = es1 ++ e :: es2 -> settings_valid es1 c ->
        setting_error e = Some code ->
        exists msg, handleSettingsFrame header payload c = connectionError code msg (settings_state es1 c)).
Proof.
  intros Hid Hp. unfold handleSettingsFrame. rewrite Hid, Hp. cbn [Z.eqb negb].
  destruct (sf_isAck frame).
  - rewrite (bind_run _ _ _ _ _ (openIfAwaiting_run c)). by rewrite bind_modify.
  - split.
    + intros Hv. rewrite (bind_run _ _ _ _ _ (applySettings_valid _ _ Hv)). cbv zeta.
      unfold sendSettingsAck, write. rewrite bind_modify.
      by rewrite (bind_run _ _ _ _ _ (openIfAwaiting_run _)).
    + intros es1 e es2 code -> Hv He. destruct (applySettings_invalid es1 e es2 c code Hv He) as [msg Hm].
      exists msg. etransitivity; [apply bind_from, Hm|]. rewrite bind_assoc. unfold bind. by rewrite connectionError_result.
Qed.

(** INITIAL_WINDOW_SIZE 1000, HEADER_TABLE_SIZE 100. *)
Definition example_settings : bytes := [0; 4; 0; 0; 3; 232; 0; 1; 0; 0; 0; 100].

Lemma handleSettingsFrame_exact_witness :
  let h := MkFrameHeader 12 FtSettings 0 0 in
  let c := example_opened in
  exists c', handleSettingsFrame h example_settings c = inr (result ActOutputReady, c')
  /\ ps_initialWindowSize (c_peerSettings c') = 1000
  /\ e_pendingTableSizeUpdate (c_hpackEncoder c') = 100
  /\ st_sendWindow <$> (c_streams c' !! 1) = Some 1000.
Proof.
  intros h c.
  pose proof (handleSettingsFrame_exact h example_settings
    (MkSettingsFrame [MkSettingsEntry SpInitialWindowSize 1000; MkSettingsEntry SpHeaderTableSize 100] false)
    c eq_refl eq_refl) as [H _].
  cbn [sf_entries] in H. eexists. split; [apply H|].
  - cbn [settings_valid]. split; [reflexivity|]. split.
    + intros _. by apply (bool_decide_unpack _); vm_compute.
    + split; [reflexivity|]. split; [discriminate|exact I].
  - vm_compute. repeat split.
Defined.
