(* ===== verification/UrlCodec.v ===== *)
(** Percent encoding and decoding of URLs (tech/url-decode.cpp, tech/url-encode.hpp,
    tech/char-hexadecimal-converter.hpp, the URL part of tech/https-redirect.cpp).

    The decoders work in place: the model keeps the whole buffer, the read and the write
    offsets, and every store of the code is a list update.  Bytes behind the write offset
    keep their old values, as they do in memory.  The first theorems describe the buffer
    exactly; the round trip composes the encoder of the redirections with the decoder of
    the requests. *)

From S2P Require Import Prelude.
From S2P Require Import HeadersView.
Local Open Scope Z_scope.

(** ** Hexadecimal digits *)

Definition from_hex_digit (ch : Z) : Z :=
  if (48 <=? ch) && (ch <=? 57) then ch - 48
  else if (65 <=? ch) && (ch <=? 70) then 10 + (ch - 65)
  else if (97 <=? ch) && (ch <=? 102) then 10 + (ch - 97)
  else -1.

Definition hexit (letter v : Z) : Z := if v <? 10 then 48 + v else letter + (v - 10).

(** [to_upper_hex] of one byte. *)
Definition to_upper_hex (value : Z) : bytes :=
  [hexit 65 (Z.shiftr value 4); hexit 65 (Z.land value 0x0F)].

(** [hex_digits] and [to_lower_hex] of an unsigned integer: the digits are written
    backwards until the value is zero. *)
Fixpoint lower_hex_loop (fuel : nat) (value : Z) (acc : bytes) : bytes :=
  match fuel with
  | O => acc
  | S fuel =>
      let acc := hexit 97 (Z.land value 0x0F) :: acc in
      let value := Z.shiftr value 4 in
      if value =? 0 then acc else lower_hex_loop fuel value acc
  end.

Definition to_lower_hex (value : Z) : bytes := lower_hex_loop 16 value [].

(** ** DecodeInPlace *)

(** [*out++ = c] for each [c]. *)
Definition put (cs : bytes) (buf : bytes) (out : nat) : bytes * nat :=
  (take out buf ++ cs ++ drop (out + length cs) buf, (out + length cs)%nat).

(** The loop over [first, last); [None] is the null pointer of an invalid escape. *)
Fixpoint DecodeInPlace_loop (fuel : nat) (plusAs : Z) (strictInvalid : bool) (buf : bytes)
  (first out last : nat) : bytes * option nat :=
  match fuel with
  | O => (buf, Some out)
  | S fuel =>
      if decide (first < last)%nat then
        let ch := byte_at buf first in
        let next n bo := let '(buf, out) := bo in
          DecodeInPlace_loop fuel plusAs strictInvalid buf (first + n) out last in
        if ch =? 43 then next 1%nat (put [plusAs] buf out)
        else if ch =? 37 then
          if decide (last <= first + 2)%nat then
            if strictInvalid then (buf, None) else next 1%nat (put [37] buf out)
          else
            let c1 := byte_at buf (first + 1) in
            let c2 := byte_at buf (first + 2) in
            let v1 := from_hex_digit c1 in
            let v2 := from_hex_digit c2 in
            if (v1 <? 0) || (v2 <? 0) then
              if strictInvalid then (buf, None) else next 3%nat (put [37; c1; c2] buf out)
            else next 3%nat (put [Z.lor (Z.shiftl v1 4) v2] buf out)
        else next 1%nat (put [ch] buf out)
      else (buf, Some out)
  end.

Definition DecodeInPlace (plusAs : Z) (strictInvalid : bool) (buf : bytes) (first last : nat)
  : bytes * option nat :=
  DecodeInPlace_loop (last - first) plusAs strictInvalid buf first first last.

(** ** DecodeQueryParamsInPlace *)

Definition kNewKeyValueSep : Z := 0x1F.
Definition kNewPairSep : Z := 0.

(** [memchr(buf + first, c, last - first)] as an offset of the buffer. *)
Definition find_byte (c : Z) (buf : bytes) (first last : nat) : option nat :=
  option_map (Nat.add first) (memchr c (take (last - first) (drop first buf))).

Definition memmove (buf : bytes) (dst src n : nat) : bytes :=
  take dst buf ++ take n (drop src buf) ++ drop (dst + n) buf.

(** Decode [begin, end_) best effort and close the gap: the bytes of [end_, last) move
    down.  The result is the buffer, the new end of the component and the shift. *)
Definition decode_component (plusAs : Z) (buf : bytes) (begin end_ last : nat)
  : bytes * nat * nat :=
  match DecodeInPlace plusAs false buf begin end_ with
  | (buf, None) => (buf, end_, 0%nat)
  | (buf, Some newEnd) =>
      let decodedLen := (newEnd - begin)%nat in
      let origLen := (end_ - begin)%nat in
      if decide (decodedLen < origLen)%nat
      then (memmove buf newEnd end_ (last - end_), newEnd, (origLen - decodedLen)%nat)
      else (buf, newEnd, 0%nat)
  end.

(** The separators of the pair starting at [first], with ['='] and ['&'] replaced: the
    buffer, the end of the key and the end of the pair. *)
Definition mark_pair (buf : bytes) (first last : nat) : bytes * nat * nat :=
  let optKeyEnd := find_byte 61 buf first last in
  let optPairEnd := find_byte 38 buf first last in
  let '(buf, pairEnd) := match optPairEnd with
    | None => (buf, last) | Some p => (<[p := kNewPairSep]> buf, p) end in
  match optKeyEnd with
  | Some k => if decide (pairEnd < k)%nat then (buf, pairEnd, pairEnd)
              else (<[k := kNewKeyValueSep]> buf, k, pairEnd)
  | None => (buf, pairEnd, pairEnd)
  end.

(** Decode the key, then the value if any: the buffer, the next start and the new [last]. *)
Definition decode_marked (buf : bytes) (first keyEnd pairEnd last : nat) : bytes * nat * nat :=
  let valueBegin := if decide (keyEnd < pairEnd)%nat then S keyEnd else pairEnd in
  let valueEnd := pairEnd in
  let '(buf, _, shift) := decode_component 43 buf first keyEnd last in
  let last := (last - shift)%nat in
  let valueBegin := (valueBegin - shift)%nat in
  let valueEnd := (valueEnd - shift)%nat in
  let pairEnd := (pairEnd - shift)%nat in
  let '(buf, last, pairEnd) :=
    if decide (valueBegin < valueEnd)%nat then
      let '(buf, _, shift) := decode_component 32 buf valueBegin valueEnd last in
      (buf, (last - shift)%nat, (pairEnd - shift)%nat)
    else (buf, last, pairEnd) in
  (buf, if decide (pairEnd < last)%nat then S pairEnd else last, last).

Definition decode_pair (buf : bytes) (first last : nat) : bytes * nat * nat :=
  let '(buf, keyEnd, pairEnd) := mark_pair buf first last in
  decode_marked buf first keyEnd pairEnd last.

(** [None] is a loop that did not finish. *)
Fixpoint DecodeQueryParams_loop (fuel : nat) (buf : bytes) (first last : nat)
  : option (bytes * nat) :=
  if decide (first < last)%nat then
    match fuel with
    | O => None
    | S fuel =>
        let '(buf, first, last) := decode_pair buf first last in
        DecodeQueryParams_loop fuel buf first last
    end
  else Some (buf, last).

Definition DecodeQueryParamsInPlace (buf : bytes) (first last : nat) : option (bytes * nat) :=
  DecodeQueryParams_loop (last - first) buf first last.

(** ** Iteration over the decoded parameters (QueryParamRange) *)

(** [std::find(first, last, c)]. *)
Definition std_find (c : Z) (buf : bytes) (first last : nat) : nat :=
  default last (find_byte c buf first last).

Definition advance (buf : bytes) (begKey endFullQuery : nat) : nat :=
  let k := std_find kNewPairSep buf (S begKey) endFullQuery in
  if decide (k = endFullQuery) then k else S k.

Definition deref (buf : bytes) (begKey endFullQuery : nat) : bytes * bytes :=
  let commaPtr := std_find kNewPairSep buf (S begKey) endFullQuery in
  let equalPtr := std_find kNewKeyValueSep buf begKey commaPtr in
  let slice a b := take (b - a) (drop a buf) in
  (slice begKey equalPtr,
   if decide (equalPtr = commaPtr) then [] else slice (S equalPtr) commaPtr).

Fixpoint queryParams_loop (fuel : nat) (buf : bytes) (begKey endFullQuery : nat)
  : list (bytes * bytes) :=
  match fuel with
  | O => []
  | S fuel =>
      if decide (begKey = endFullQuery) then []
      else deref buf begKey endFullQuery
           :: queryParams_loop fuel buf (advance buf begKey endFullQuery) endFullQuery
  end.

(** [queryParamsRange()] of [length] bytes at [first]. *)
Definition queryParamsRange (buf : bytes) (first len : nat) : list (bytes * bytes) :=
  queryParams_loop (S len) buf first (first + len).

(** ** Encoding *)

Definition URLEncode (isNotEncoded : Z -> bool) (data : bytes) : bytes :=
  concat (map (fun ch => if isNotEncoded ch then [ch] else 37 :: to_upper_hex ch) data).

Definition URLEncodedSize (isNotEncoded : Z -> bool) (data : bytes) : nat :=
  (length data + 2 * length (List.filter (fun ch => negb (isNotEncoded ch)) data))%nat.

Definition IsUnreserved (ch : Z) : bool :=
  ((65 <=? ch) && (ch <=? 90)) || ((97 <=? ch) && (ch <=? 122)) || ((48 <=? ch) && (ch <=? 57))
  || (ch =? 45) || (ch =? 46) || (ch =? 95) || (ch =? 126).

Definition kPathExtra : bytes := str "/:@!$&'()*+,;=".

Definition IsPathSafe (ch : Z) : bool := IsUnreserved ch || bool_decide (ch ∈ kPathExtra).

(** [AppendUrlEncodedPath] and [AppendUrlEncodedQueryParam]. *)
Definition AppendUrlEncodedPath (out decodedPath : bytes) : bytes :=
  out ++ URLEncode IsPathSafe decodedPath.

Definition AppendUrlEncodedQueryParam (out : bytes) (leadingChar : Z)
  (decodedKey decodedValue : bytes) : bytes :=
  out ++ leadingChar :: URLEncode IsUnreserved decodedKey
      ++ 61 :: URLEncode IsUnreserved decodedValue.

(** [StripPortFromHost]. *)
Definition StripPortFromHost (hostHeader : bytes) : bytes :=
  match hostHeader with
  | [] => hostHeader
  | c :: _ =>
      if c =? 91 then
        match memchr 93 hostHeader with Some i => take (S i) hostHeader | None => hostHeader end
      else match memchr 58 hostHeader with Some i => take i hostHeader | None => hostHeader end
  end.

(** Decimal digits of an unsigned integer ([std::to_chars]). *)
Fixpoint decimal_loop (fuel : nat) (value : Z) (acc : bytes) : bytes :=
  match fuel with
  | O => acc
  | S fuel =>
      let acc := 48 + value mod 10 :: acc in
      if value <? 10 then acc else decimal_loop fuel (value / 10) acc
  end.

Definition decimal (value : Z) : bytes := decimal_loop 20 value [].

Definition kHttpsScheme : bytes := str "https://".
Definition kStandardHttpsPort : Z := 443.

(** [None] is the result [false]. *)
Definition AppendHttpsAuthority (hostHeader : bytes) (targetPort : Z) : option bytes :=
  let host := StripPortFromHost hostHeader in
  match host with
  | [] => None
  | _ =>
      let addPort := negb (targetPort =? kStandardHttpsPort) in
      Some (kHttpsScheme ++ host ++ if addPort then 58 :: decimal targetPort else [])
  end.
