(* ===== verification/UrlCodecProofs.v ===== *)
(** Theorems on percent encoding and decoding: the in-place decoder computes the recursive
    definition [percent_decode] and closes no gap, the query decoder ends and rewrites its
    range to the decoded pairs, and what the redirections encode is what the requests
    decode. *)

From S2P Require Import Prelude.
From S2P Require Import HeadersView.
From S2P Require Import UrlCodec.
Local Open Scope Z_scope.

(** ** The decoder as a recursive definition *)

Fixpoint percent_decode (plusAs : Z) (strict : bool) (l : bytes) : option bytes :=
  match l with
  | [] => Some []
  | ch :: r =>
      if ch =? 43 then cons plusAs <$> percent_decode plusAs strict r
      else if ch =? 37 then
        match r with
        | c1 :: c2 :: r2 =>
            if (from_hex_digit c1 <? 0) || (from_hex_digit c2 <? 0) then
              if strict then None else app [37; c1; c2] <$> percent_decode plusAs strict r2
            else cons (Z.lor (Z.shiftl (from_hex_digit c1) 4) (from_hex_digit c2))
                 <$> percent_decode plusAs strict r2
        | _ => if strict then None else cons 37 <$> percent_decode plusAs strict r
        end
      else cons ch <$> percent_decode plusAs strict r
  end.

Lemma byte_at_lookup l i : byte_at l i = default 0 (l !! i).
Proof.
  unfold byte_at. destruct (l !! i) eqn:E; cbn; [by apply nth_lookup_Some|].
  apply nth_overflow, lookup_ge_None_1; done.
Qed.

Lemma byte_at_app_r a l i : byte_at (a ++ l) (length a + i) = byte_at l i.
Proof. rewrite !byte_at_lookup, lookup_app_r by lia. do 2 f_equal. lia. Qed.

(** The bytes behind the write offset are those of the segment. *)
Lemma byte_at_rest a done pre rest b i :
  (length done <= length pre)%nat -> (i < length rest)%nat ->
  byte_at (a ++ done ++ drop (length done) (pre ++ rest) ++ b) (length a + length pre + i)
  = byte_at rest i.
Proof.
  intros Hd Hi. rewrite !byte_at_lookup, <- Nat.add_assoc, lookup_app_r by lia.
  rewrite lookup_app_r by lia. rewrite lookup_app_l, lookup_drop, lookup_app_r
    by (rewrite ?length_drop, ?length_app; lia).
  do 2 f_equal. lia.
Qed.

Lemma put_done a done seg b cs :
  (length done + length cs <= length seg)%nat ->
  put cs (a ++ done ++ drop (length done) seg ++ b) (length a + length done)
  = (a ++ (done ++ cs) ++ drop (length (done ++ cs)) seg ++ b,
     (length a + length (done ++ cs))%nat).
Proof.
  intros Hc. unfold put. rewrite length_app. f_equal; [|lia].
  rewrite (app_assoc a), take_app_length' by (rewrite length_app; lia).
  rewrite drop_app_ge by (rewrite length_app; lia). rewrite length_app.
  replace (length a + length done + length cs - (length a + length done))%nat
    with (length cs) by lia.
  rewrite drop_app_le by (rewrite length_drop; lia). rewrite drop_drop, <- !app_assoc. done.
Qed.

Section Decode.
Context (plusAs : Z) (strict : bool) (a b : bytes).

Definition decoded_buffer (seg d : bytes) : bytes := a ++ d ++ drop (length d) seg ++ b.

Definition decode_result (seg done rest : bytes) (r : bytes * option nat) : Prop :=
  match percent_decode plusAs strict rest with
  | Some d => r = (decoded_buffer seg (done ++ d), Some (length a + length (done ++ d))%nat)
              /\ (length d <= length rest)%nat
  | None => exists mid, length mid = length seg /\ r = (a ++ mid ++ b, None)
  end.

(** A step that consumes [used] and writes [cs]. *)
Lemma decode_result_step seg done used rest cs r :
  (length cs <= length used)%nat ->
  percent_decode plusAs strict (used ++ rest) = app cs <$> percent_decode plusAs strict rest ->
  decode_result seg (done ++ cs) rest r -> decode_result seg done (used ++ rest) r.
Proof.
  intros Hl E. unfold decode_result. rewrite E.
  destruct (percent_decode plusAs strict rest) as [d|]; cbn; [|done].
  rewrite <- app_assoc, !length_app. intros [-> ?]. split; [done|lia].
Qed.

Lemma DecodeInPlace_loop_spec fuel pre done rest :
  (length done <= length pre)%nat -> (length rest <= fuel)%nat ->
  decode_result (pre ++ rest) done rest
    (DecodeInPlace_loop fuel plusAs strict (decoded_buffer (pre ++ rest) done)
       (length a + length pre) (length a + length done) (length a + length (pre ++ rest))).
Proof.
  revert pre done rest. induction fuel as [|fuel IH]; intros pre done rest Hd Hf.
  { destruct rest; [|cbn in Hf; lia]. cbn. unfold decode_result. cbn.
    rewrite !app_nil_r. split; [done|lia]. }
  cbn [DecodeInPlace_loop]. destruct rest as [|ch r].
  { rewrite decide_False by (rewrite app_nil_r; lia). unfold decode_result. cbn.
    rewrite !app_nil_r. split; [done|lia]. }
  rewrite decide_True by (rewrite length_app; cbn; lia).
  assert (Hb : forall i, (i < length (ch :: r))%nat ->
    byte_at (decoded_buffer (pre ++ ch :: r) done) (length a + length pre + i) = byte_at (ch :: r) i)
    by (intros i Hi; unfold decoded_buffer; by apply byte_at_rest).
  pose proof (Hb 0%nat ltac:(cbn; lia)) as H0. rewrite Nat.add_0_r in H0. rewrite H0.
  change (byte_at (ch :: r) 0) with ch.
  (* every branch but the failures: write [cs] for the consumed [used] *)
  assert (Hstep : forall used rest' cs, ch :: r = used ++ rest' -> (0 < length used)%nat ->
    (length cs <= length used)%nat ->
    percent_decode plusAs strict (used ++ rest') = app cs <$> percent_decode plusAs strict rest' ->
    decode_result (pre ++ ch :: r) done (ch :: r)
      (let '(buf, out) := put cs (decoded_buffer (pre ++ ch :: r) done) (length a + length done) in
       DecodeInPlace_loop fuel plusAs strict buf (length a + length pre + length used) out
         (length a + length (pre ++ ch :: r)))).
  { intros used rest' cs E Hu Hc Hp. unfold decoded_buffer. rewrite E in Hf |- *.
    rewrite length_app in Hf.
    rewrite put_done by (rewrite !length_app; lia).
    eapply decode_result_step; [exact Hc|exact Hp|]. rewrite app_assoc.
    replace (length a + length pre + length used)%nat with (length a + length (pre ++ used))%nat
      by (rewrite length_app; lia).
    apply IH; [rewrite !length_app; lia|lia]. }
  destruct (ch =? 43) eqn:E43.
  { apply (Hstep [ch] r [plusAs]); [done|cbn; lia|cbn; lia|]. cbn. by rewrite E43. }
  destruct (ch =? 37) eqn:E37.
  2:{ apply (Hstep [ch] r [ch]); [done|cbn; lia|cbn; lia|]. cbn. by rewrite E43, E37. }
  assert (Hfail : strict = true -> percent_decode plusAs strict (ch :: r) = None ->
    decode_result (pre ++ ch :: r) done (ch :: r) (decoded_buffer (pre ++ ch :: r) done, None)).
  { intros _ Ep. unfold decode_result. rewrite Ep. unfold decoded_buffer.
    exists (done ++ drop (length done) (pre ++ ch :: r)). rewrite <- app_assoc. split; [|done].
    rewrite !length_app, length_drop, length_app. cbn. lia. }
  case_decide as Hlen.
  - assert (Ep : percent_decode plusAs strict (ch :: r)
                 = if strict then None else cons 37 <$> percent_decode plusAs strict r).
    { cbn [percent_decode]. rewrite E43, E37. clear -Hlen. rewrite length_app in Hlen.
      destruct r as [|? [|? ?]]; [done..|]. cbn in Hlen. lia. }
    destruct strict eqn:Es; [apply Hfail; [done|exact Ep]|].
    apply (Hstep [ch] r [37]); [done|cbn; lia|cbn; lia|exact Ep].
  - rewrite length_app in Hlen. destruct r as [|c1 [|c2 r2]]; [cbn in Hlen; lia..|].
    rewrite !(Hb 1%nat), !(Hb 2%nat) by (cbn; lia).
    change (byte_at (ch :: c1 :: c2 :: r2) 1) with c1.
    change (byte_at (ch :: c1 :: c2 :: r2) 2) with c2.
    destruct ((from_hex_digit c1 <? 0) || (from_hex_digit c2 <? 0)) eqn:Eh.
    + destruct strict eqn:Es.
      * apply Hfail; [done|]. cbn [percent_decode]. by rewrite E43, E37, Eh.
      * apply (Hstep [ch; c1; c2] r2 [37; c1; c2]); [done|cbn; lia|cbn; lia|].
        cbn [percent_decode app]. by rewrite E43, E37, Eh.
    + apply (Hstep [ch; c1; c2] r2 [Z.lor (Z.shiftl (from_hex_digit c1) 4) (from_hex_digit c2)]);
        [done|cbn; lia|cbn; lia|].
      cbn [percent_decode app]. by rewrite E43, E37, Eh.
Qed.

Lemma DecodeInPlace_spec seg :
  decode_result seg [] seg
    (DecodeInPlace plusAs strict (a ++ seg ++ b) (length a) (length a + length seg)).
Proof.
  pose proof (DecodeInPlace_loop_spec (length seg) [] [] seg ltac:(done) ltac:(done)) as H.
  unfold DecodeInPlace. rewrite Nat.add_comm, Nat.add_sub.
  cbn [app length] in H. rewrite Nat.add_0_r, (Nat.add_comm (length a)) in H. exact H.
Qed.
End Decode.

(** ** Decoding of queries *)

Definition best_effort (plusAs : Z) (l : bytes) : bytes := default [] (percent_decode plusAs false l).

Lemma percent_decode_total plusAs l : percent_decode plusAs false l = Some (best_effort plusAs l).
Proof.
  unfold best_effort. remember (length l) as n eqn:Hn. revert l Hn.
  induction n as [n IH] using lt_wf_ind. intros l ->.
  assert (IH' : forall k, (length k < length l)%nat ->
    exists d, percent_decode plusAs false k = Some d).
  { intros k Hk. eexists. by apply (IH (length k)). }
  destruct l as [|ch r]; [done|]. cbn [percent_decode].
  destruct (IH' r ltac:(cbn; lia)) as [d Ed].
  destruct (ch =? 43); [by rewrite Ed|]. destruct (ch =? 37); [|by rewrite Ed].
  destruct r as [|c1 [|c2 r2]]; [by rewrite Ed..|].
  destruct (IH' r2 ltac:(cbn; lia)) as [d2 Ed2]. rewrite Ed2. by destruct (_ || _).
Qed.

Fixpoint split_on (c : Z) (l : bytes) : list bytes :=
  match l with
  | [] => [[]]
  | x :: l =>
      if x =? c then [] :: split_on c l
      else match split_on c l with h :: t => (x :: h) :: t | [] => [[x]] end
  end.

Fixpoint join (c : Z) (ls : list bytes) : bytes :=
  match ls with
  | [] => []
  | [l] => l
  | l :: ls => l ++ c :: join c ls
  end.

Definition pair_decoded (p : bytes) : bytes :=
  match memchr 61 p with
  | Some i => best_effort 43 (take i p) ++ kNewKeyValueSep :: best_effort 32 (drop (S i) p)
  | None => best_effort 43 p
  end.

Definition query_decoded (q : bytes) : bytes :=
  join kNewPairSep (map pair_decoded (split_on 38 q)).

Lemma memchr_Some c l i :
  memchr c l = Some i -> l = take i l ++ c :: drop (S i) l /\ (i < length l)%nat
    /\ Forall (fun b => b <> c) (take i l).
Proof.
  revert i. induction l as [|a l IH]; [done|]. intros i. cbn [memchr].
  destruct (Z.eqb_spec a c) as [->|Hne].
  - intros [= <-]. cbn. rewrite drop_0. split_and!; [done|lia|constructor].
  - destruct (memchr c l) as [j|]; cbn; [|done]. intros [= <-].
    destruct (IH j eq_refl) as (E & Hj & Hf). cbn. split_and!; [by f_equal|lia|by constructor].
Qed.

Lemma memchr_None c l : memchr c l = None <-> Forall (fun b => b <> c) l.
Proof.
  induction l as [|a l IH]; cbn [memchr]; [by split|]. rewrite Forall_cons, <- IH.
  destruct (Z.eqb_spec a c) as [->|Hne]; [by split; [|intros []]|].
  destruct (memchr c l); cbn; [split; [done|by intros []]|by split].
Qed.

Lemma memchr_app_l c p r i : memchr c p = Some i -> memchr c (p ++ r) = Some i.
Proof.
  revert i. induction p as [|a p IH]; [done|]. intros i. cbn [memchr app]. destruct (a =? c); [done|].
  destruct (memchr c p) as [j|]; [|done]. by rewrite (IH j eq_refl).
Qed.

Lemma memchr_app_r c p r :
  memchr c p = None -> memchr c (p ++ r) = option_map (Nat.add (length p)) (memchr c r).
Proof.
  induction p as [|a p IH]; cbn [memchr app length].
  { intros _. destruct (memchr c r); done. }
  destruct (a =? c); [done|]. destruct (memchr c p); [done|]. intros _. rewrite IH by done.
  by destruct (memchr c r).
Qed.

Lemma split_on_last c l : Forall (fun b => b <> c) l -> split_on c l = [l].
Proof.
  induction 1 as [|x l Hx Hl IH]; [done|]. cbn. by rewrite (proj2 (Z.eqb_neq x c)), IH by done.
Qed.

Lemma split_on_app c l k :
  Forall (fun b => b <> c) l -> split_on c (l ++ c :: k) = l :: split_on c k.
Proof.
  induction 1 as [|x l Hx Hl IH]; cbn; [by rewrite Z.eqb_refl|].
  by rewrite (proj2 (Z.eqb_neq x c)), IH by done.
Qed.

Lemma split_on_ne c l : split_on c l <> [].
Proof. destruct l as [|x l]; cbn; [done|]. destruct (x =? c); [done|]. by destruct (split_on c l). Qed.

Lemma query_decoded_last q : memchr 38 q = None -> query_decoded q = pair_decoded q.
Proof. intros H. apply memchr_None in H. unfold query_decoded. by rewrite split_on_last. Qed.

Lemma query_decoded_app p t :
  memchr 38 p = None ->
  query_decoded (p ++ 38 :: t) = pair_decoded p ++ kNewPairSep :: query_decoded t.
Proof.
  intros H. apply memchr_None in H. unfold query_decoded. rewrite split_on_app by done.
  cbn [map join]. destruct (map pair_decoded (split_on 38 t)) eqn:E; [|done].
  apply map_eq_nil in E. by apply split_on_ne in E.
Qed.

Lemma find_byte_spec c a q b :
  find_byte c (a ++ q ++ b) (length a) (length a + length q)
  = option_map (Nat.add (length a)) (memchr c q).
Proof.
  unfold find_byte. rewrite drop_app_length, Nat.add_comm, Nat.add_sub, take_app_length. done.
Qed.

(** One component of the query: the bytes after it move down, the freed bytes are junk. *)
Lemma decode_component_spec plusAs x seg y b :
  exists junk, decode_component plusAs (x ++ seg ++ y ++ b) (length x) (length x + length seg)
                 (length x + length seg + length y)
  = (x ++ best_effort plusAs seg ++ y ++ junk ++ b,
     (length x + length (best_effort plusAs seg))%nat, length junk)
  /\ (length (best_effort plusAs seg) + length junk = length seg)%nat.
Proof.
  pose proof (DecodeInPlace_spec plusAs false x (y ++ b) seg) as H. unfold decode_result in H.
  rewrite percent_decode_total in H. set (d := best_effort plusAs seg) in *.
  destruct H as [E Hd]. unfold decode_component. rewrite E. unfold decoded_buffer. cbn [app].
  replace (length x + length d - length x)%nat with (length d) by lia.
  replace (length x + length seg - length x)%nat with (length seg) by lia.
  case_decide as Hlt.
  - exists (drop (length y) (drop (length d) seg ++ y)).
    assert (Hj : length (drop (length y) (drop (length d) seg ++ y)) = (length seg - length d)%nat)
      by (rewrite length_drop, length_app, length_drop; lia).
    rewrite Hj. split; [|lia]. do 2 f_equal. unfold memmove.
    replace (length x + length seg + length y - (length x + length seg))%nat with (length y) by lia.
    rewrite (app_assoc x d), take_app_length' by (rewrite length_app; lia).
    assert (Hs : drop (length x + length seg) ((x ++ d) ++ drop (length d) seg ++ y ++ b) = y ++ b).
    { rewrite app_assoc, drop_app_length'; [done|]. rewrite !length_app, length_drop. lia. }
    rewrite Hs, take_app_length.
    rewrite drop_app_ge by (rewrite length_app; lia). rewrite length_app.
    replace (length x + length d + length y - (length x + length d))%nat with (length y) by lia.
    rewrite (app_assoc (drop (length d) seg)), drop_app_le by (rewrite length_app; lia).
    by rewrite <- !app_assoc.
  - exists []. cbn [length app]. split; [|lia]. do 2 f_equal.
    by rewrite drop_ge by lia.
Qed.

(** The first pair of a query and what follows it, with its separator replaced. *)
Definition first_pair (q : bytes) : bytes * bytes :=
  match memchr 38 q with
  | Some i => (take i q, kNewPairSep :: drop (S i) q)
  | None => (q, [])
  end.

(** The pair with its first ['='] replaced, and the length of its key. *)
Definition marked (p : bytes) : bytes :=
  match memchr 61 p with Some i => take i p ++ kNewKeyValueSep :: drop (S i) p | None => p end.
Definition key_length (p : bytes) : nat := default (length p) (memchr 61 p).

Lemma insert_mid {A} (a p t : list A) x y :
  <[(length a + length p)%nat := y]> (a ++ p ++ x :: t) = a ++ p ++ y :: t.
Proof. by rewrite insert_app_r, insert_app_r_alt, Nat.sub_diag by lia. Qed.

Lemma length_marked p : length (marked p) = length p.
Proof.
  unfold marked. destruct (memchr 61 p) as [i|] eqn:E; [|done]. apply memchr_Some in E as (_ & Hi & _).
  rewrite length_app. cbn [length]. rewrite length_take, length_drop. lia.
Qed.

Lemma key_length_le p : (key_length p <= length p)%nat.
Proof.
  unfold key_length. destruct (memchr 61 p) as [i|] eqn:E; cbn; [|lia].
  apply memchr_Some in E. lia.
Qed.

Lemma mark_pair_spec a q b :
  let '(p, tail) := first_pair q in
  mark_pair (a ++ q ++ b) (length a) (length a + length q)
  = (a ++ marked p ++ tail ++ b, (length a + key_length p)%nat, (length a + length p)%nat)
  /\ (length p + length tail = length q)%nat.
Proof.
  unfold mark_pair. rewrite !find_byte_spec. unfold first_pair.
  assert (Hkey : forall p tail, memchr 38 p = None ->
    match option_map (Nat.add (length a)) (memchr 61 p) with
    | Some k => if decide (length a + length p < k)%nat
                then (a ++ p ++ tail ++ b, (length a + length p)%nat, (length a + length p)%nat)
                else (<[k:=kNewKeyValueSep]> (a ++ p ++ tail ++ b), k, (length a + length p)%nat)
    | None => (a ++ p ++ tail ++ b, (length a + length p)%nat, (length a + length p)%nat)
    end = (a ++ marked p ++ tail ++ b, (length a + key_length p)%nat, (length a + length p)%nat)).
  { intros p tail _. unfold marked, key_length. destruct (memchr 61 p) as [i|] eqn:E; cbn; [|done].
    apply memchr_Some in E as (E & Hi & _). rewrite decide_False by lia. do 2 f_equal.
    rewrite E at 1. rewrite <- (app_assoc (take i p)). cbn [app].
    replace (length a + i)%nat with (length a + length (take i p))%nat by (rewrite length_take; lia).
    rewrite insert_mid. by rewrite <- (app_assoc (take i p)). }
  destruct (memchr 38 q) as [i|] eqn:E; cbn [option_map].
  - pose proof E as E0. apply memchr_Some in E as (Eq & Hi & Hf).
    pose proof (proj2 (memchr_None _ _) Hf) as Hp. set (p := take i q) in *. set (t := drop (S i) q) in *.
    assert (Hlp : length p = i) by (subst p; rewrite length_take; lia).
    split; [|cbn; rewrite Eq, length_app; cbn; lia].
    rewrite Eq, <- app_assoc. cbn [app]. rewrite <- Hlp, insert_mid.
    etransitivity; [|exact (Hkey p (kNewPairSep :: t) Hp)].
    destruct (memchr 61 p) as [k|] eqn:Ek.
    + rewrite (memchr_app_l 61 p _ k Ek). done.
    + rewrite memchr_app_r by done. cbn [memchr]. rewrite (proj2 (Z.eqb_neq 38 61)) by done.
      destruct (memchr 61 t); cbn [option_map]; [|done]. by rewrite decide_True by lia.
  - split; [|cbn; lia]. exact (Hkey q [] E).
Qed.

Lemma decode_marked_spec a p tail b :
  exists junk, decode_marked (a ++ marked p ++ tail ++ b) (length a) (length a + key_length p)
                 (length a + length p) (length a + length p + length tail)
  = (a ++ pair_decoded p ++ tail ++ junk ++ b,
     (length a + length (pair_decoded p) + Nat.min 1 (length tail))%nat,
     (length a + length (pair_decoded p) + length tail)%nat)
  /\ (length (pair_decoded p) + length junk = length p)%nat.
Proof.
  unfold decode_marked, marked, key_length, pair_decoded.
  destruct (memchr 61 p) as [i|] eqn:E; cbn [default from_option id].
  - apply memchr_Some in E as (E & Hi & _). set (k := take i p) in *. set (v := drop (S i) p) in *.
    assert (Hk : length k = i) by (subst k; rewrite length_take; lia).
    assert (Hp : length p = (i + 1 + length v)%nat) by (subst v; rewrite length_drop; lia).
    rewrite decide_True by lia.
    destruct (decode_component_spec 43 a k (kNewKeyValueSep :: v ++ tail) b) as (j1 & E1 & H1).
    replace (length a + length k + length (kNewKeyValueSep :: v ++ tail))%nat
      with (length a + length p + length tail)%nat in E1 by (cbn; rewrite length_app; lia).
    rewrite <- (app_assoc k). cbn [app] in E1 |- *. rewrite <- !(app_assoc v) in E1.
    rewrite <- Hk, E1. set (dk := best_effort 43 k) in *.
    destruct (decode_component_spec 32 (a ++ dk ++ [kNewKeyValueSep]) v tail (j1 ++ b))
      as (j2 & E2 & H2).
    set (dv := best_effort 32 v) in *.
    case_decide as Hv.
    + replace (S (length a + length k) - length j1)%nat with (length (a ++ dk ++ [kNewKeyValueSep]))
        by (rewrite !length_app; cbn; lia).
      replace (length a + length p - length j1)%nat
        with (length (a ++ dk ++ [kNewKeyValueSep]) + length v)%nat by (rewrite !length_app; cbn; lia).
      replace (length a + length p + length tail - length j1)%nat
        with (length (a ++ dk ++ [kNewKeyValueSep]) + length v + length tail)%nat
        by (rewrite !length_app; cbn; lia).
      rewrite <- !app_assoc in E2. cbn [app] in E2. rewrite E2. exists (j2 ++ j1).
      rewrite !length_app in *. cbn [length] in *. split; [|lia].
      rewrite <- !app_assoc. cbn [app].
      do 2 f_equal; [|lia]. destruct tail; cbn [length].
      * rewrite decide_False by lia. lia.
      * rewrite decide_True by lia. lia.
    + assert (Hv0 : length v = 0%nat) by lia. destruct v; [|done]. change dv with (@nil Z).
      exists j1. rewrite !length_app in *. cbn [length] in *. split; [|lia].
      rewrite <- !app_assoc. cbn [app]. do 2 f_equal; [|lia]. destruct tail; cbn [length].
      * rewrite decide_False by lia. lia.
      * rewrite decide_True by lia. lia.
  - rewrite decide_False by lia.
    destruct (decode_component_spec 43 a p tail b) as (j1 & E1 & H1). rewrite E1.
    rewrite decide_False by lia. exists j1. split; [|lia]. do 2 f_equal; [|lia].
    destruct tail; cbn [length].
    + rewrite decide_False by lia. lia.
    + rewrite decide_True by lia. lia.
Qed.

Lemma DecodeQueryParams_loop_spec fuel a q b :
  (length q <= fuel)%nat ->
  exists junk, DecodeQueryParams_loop fuel (a ++ q ++ b) (length a) (length a + length q)
  = Some (a ++ query_decoded q ++ junk ++ b, (length a + length (query_decoded q))%nat)
  /\ (length (query_decoded q) + length junk = length q)%nat.
Proof.
  revert a q b. induction fuel as [|fuel IH]; intros a q b Hf.
  { destruct q; [|cbn in Hf; lia]. exists []. cbn. rewrite decide_False by lia.
    rewrite Nat.add_0_r. done. }
  cbn [DecodeQueryParams_loop]. case_decide as Hq.
  2:{ destruct q; [|cbn in Hq; lia]. exists []. cbn. by rewrite Nat.add_0_r. }
  unfold decode_pair. pose proof (mark_pair_spec a q b) as H. destruct (first_pair q) as [p tail] eqn:Ef.
  destruct H as [-> Hl]. rewrite <- Hl, Nat.add_assoc.
  destruct (decode_marked_spec a p tail b) as (j & -> & Hj).
  unfold first_pair in Ef. destruct (memchr 38 q) as [i|] eqn:E; injection Ef as Ep <-.
  - cbn [length Nat.min]. apply memchr_Some in E as (E & Hi & Hn).
    apply memchr_None in Hn. rewrite Ep in E, Hn. set (t := drop (S i) q) in *. clearbody t. subst q.
    cbn [length] in Hl. rewrite query_decoded_app by done.
    destruct (IH (a ++ pair_decoded p ++ [kNewPairSep]) t (j ++ b)) as (j2 & E2 & H2); [lia|].
    exists (j2 ++ j). rewrite <- !app_assoc in *. cbn [app] in *.
    replace (length a + length (pair_decoded p) + S (length t))%nat
      with (length (a ++ pair_decoded p ++ [kNewPairSep]) + length t)%nat
      by (rewrite !length_app; cbn; lia).
    replace (length a + length (pair_decoded p) + 1)%nat
      with (length (a ++ pair_decoded p ++ [kNewPairSep]))%nat by (rewrite !length_app; cbn; lia).
    rewrite E2. rewrite !length_app in *. cbn [length] in *. split; [|lia]. do 2 f_equal. lia.
  - cbn [length Nat.min] in *. subst p. rewrite query_decoded_last by done. exists j. rewrite !Nat.add_0_r.
    split; [|lia]. destruct fuel; cbn; by rewrite decide_False by lia.
Qed.

Lemma DecodeQueryParamsInPlace_spec a q b :
  exists junk, DecodeQueryParamsInPlace (a ++ q ++ b) (length a) (length a + length q)
  = Some (a ++ query_decoded q ++ junk ++ b, (length a + length (query_decoded q))%nat)
  /\ (length (query_decoded q) + length junk = length q)%nat.
Proof. apply DecodeQueryParams_loop_spec. lia. Qed.

(** ** Encoding is inverted by decoding *)

Definition hex_inverse (ch : Z) : bool :=
  match to_upper_hex ch with
  | [c1; c2] => (0 <=? from_hex_digit c1) && (0 <=? from_hex_digit c2)
                && (Z.lor (Z.shiftl (from_hex_digit c1) 4) (from_hex_digit c2) =? ch)
                && IsUnreserved c1 && IsUnreserved c2
  | _ => false
  end.

Lemma all_bytes (f : Z -> bool) :
  forallb f (map Z.of_nat (seq 0 256)) = true -> forall b, byte_ok b -> f b = true.
Proof.
  intros H b Hb. unfold byte_ok in Hb. rewrite forallb_forall in H. apply H.
  apply in_map_iff. exists (Z.to_nat b). split; [lia|]. apply in_seq. lia.
Qed.

Lemma hex_inverse_ok ch : byte_ok ch -> hex_inverse ch = true.
Proof. apply all_bytes. vm_compute. reflexivity. Qed.

(** Characters that the decoder copies. *)
Definition verbatim (plusAs : Z) (keep : Z -> bool) : Prop :=
  forall ch, keep ch = true -> ch <> 37 /\ (ch <> 43 \/ plusAs = 43).

Lemma percent_decode_escape plusAs strict ch r :
  byte_ok ch ->
  percent_decode plusAs strict (37 :: to_upper_hex ch ++ r) = cons ch <$> percent_decode plusAs strict r.
Proof.
  intros Hc. pose proof (hex_inverse_ok ch Hc) as H. unfold hex_inverse, to_upper_hex in *.
  cbn [app percent_decode]. cbn [Z.eqb Pos.eqb]. ztest; cbn [andb orb] in *; try done; try lia.
  f_equal. congruence.
Qed.

Lemma percent_decode_URLEncode plusAs strict keep data :
  verbatim plusAs keep -> bytes_ok data ->
  percent_decode plusAs strict (URLEncode keep data) = Some data.
Proof.
  intros Hk Hd. unfold URLEncode. induction Hd as [|ch data Hc Hd IH]; [done|]. cbn [map concat].
  destruct (keep ch) eqn:E.
  - destruct (Hk ch E) as [H37 H43]. cbn [app percent_decode].
    destruct (Z.eqb_spec ch 43) as [->|]; [destruct H43; [done|subst plusAs]; by rewrite IH|].
    rewrite (proj2 (Z.eqb_neq ch 37)) by done. by rewrite IH.
  - change ((37 :: to_upper_hex ch) ++ ?r) with (37 :: to_upper_hex ch ++ r).
    by rewrite percent_decode_escape, IH.
Qed.

Lemma URLEncodedSize_spec keep data : length (URLEncode keep data) = URLEncodedSize keep data.
Proof.
  unfold URLEncode, URLEncodedSize. induction data as [|ch data IH]; [done|].
  cbn [map concat List.filter length]. rewrite length_app, IH.
  destruct (keep ch); cbn; lia.
Qed.

(** What the encoder emits: kept characters, ['%'] and hexadecimal digits. *)
Lemma URLEncode_chars (P : Z -> Prop) keep data :
  bytes_ok data -> (forall ch, keep ch = true -> P ch) -> P 37 ->
  (forall ch, IsUnreserved ch = true -> P ch) -> Forall P (URLEncode keep data).
Proof.
  intros Hd Hk H37 Hu. unfold URLEncode. induction Hd as [|ch data Hc Hd IH]; [constructor|].
  cbn [map concat]. apply Forall_app. split; [|done]. destruct (keep ch) eqn:E; [by repeat constructor; auto|].
  pose proof (hex_inverse_ok ch Hc) as H. unfold hex_inverse in H.
  destruct (to_upper_hex ch) as [|c1 [|c2 [|? ?]]]; try done.
  repeat (apply andb_true_iff in H as [H ?]). repeat constructor; auto.
Qed.

Lemma IsUnreserved_not ch c :
  IsUnreserved ch = true -> IsUnreserved c = false -> ch <> c.
Proof. intros H1 H2 ->. congruence. Qed.

Lemma verbatim_unreserved plusAs : verbatim plusAs IsUnreserved.
Proof. intros ch H. split; [|left]; by apply (IsUnreserved_not ch _ H). Qed.

Lemma verbatim_path : verbatim 43 IsPathSafe.
Proof.
  intros ch H. split; [|by right]. intros ->. vm_compute in H. done.
Qed.

Definition encoded_pair (kv : bytes * bytes) : bytes :=
  URLEncode IsUnreserved (fst kv) ++ 61 :: URLEncode IsUnreserved (snd kv).

Definition param_ok (kv : bytes * bytes) : Prop := bytes_ok (fst kv) /\ bytes_ok (snd kv).

Lemma URLEncode_free c data :
  bytes_ok data -> IsUnreserved c = false -> c <> 37 ->
  Forall (fun b => b <> c) (URLEncode IsUnreserved data).
Proof.
  intros Hd Hc H37. apply URLEncode_chars; [done|..].
  - intros ch H. by apply (IsUnreserved_not ch).
  - congruence.
  - intros ch H. by apply (IsUnreserved_not ch).
Qed.

Lemma encoded_pair_free kv : param_ok kv -> memchr 38 (encoded_pair kv) = None.
Proof.
  intros [Hk Hv]. apply memchr_None. unfold encoded_pair. apply Forall_app. split.
  - by apply URLEncode_free.
  - constructor; [done|]. by apply URLEncode_free.
Qed.

Lemma best_effort_URLEncode plusAs data :
  bytes_ok data -> best_effort plusAs (URLEncode IsUnreserved data) = data.
Proof.
  intros. unfold best_effort. by rewrite percent_decode_URLEncode by (done || apply verbatim_unreserved).
Qed.

Definition decoded_pair (kv : bytes * bytes) : bytes := fst kv ++ kNewKeyValueSep :: snd kv.

Lemma pair_decoded_encoded kv : param_ok kv -> pair_decoded (encoded_pair kv) = decoded_pair kv.
Proof.
  intros [Hk Hv]. unfold pair_decoded, encoded_pair.
  rewrite memchr_app by by apply URLEncode_free. rewrite take_app_length.
  rewrite <- Nat.add_1_r, drop_app_add. cbn [drop]. rewrite drop_0. by rewrite !best_effort_URLEncode.
Qed.

Lemma query_decoded_encoded kvs :
  kvs <> [] -> Forall param_ok kvs ->
  query_decoded (join 38 (map encoded_pair kvs)) = join kNewPairSep (map decoded_pair kvs).
Proof.
  intros Hne Hk. induction Hk as [|kv kvs Hkv Hk IH]; [done|]. cbn [map join].
  destruct kvs as [|kv' kvs].
  - cbn [map]. rewrite query_decoded_last by by apply encoded_pair_free. by apply pair_decoded_encoded.
  - specialize (IH ltac:(done)). cbn [map] in IH |- *.
    rewrite query_decoded_app by by apply encoded_pair_free. by rewrite IH, pair_decoded_encoded.
Qed.

(** ** Iterating over the decoded pairs *)

Definition free_of (c : Z) (l : bytes) : Prop := Forall (fun b => b <> c) l.

Definition param_plain (kv : bytes * bytes) : Prop :=
  free_of kNewPairSep (fst kv) /\ free_of kNewPairSep (snd kv) /\ free_of kNewKeyValueSep (fst kv).

Lemma std_find_spec c x s t b :
  free_of c s -> t = [] \/ (exists t', t = c :: t') ->
  std_find c (x ++ s ++ t ++ b) (length x) (length x + length s + length t) = (length x + length s)%nat.
Proof.
  intros Hs Ht. unfold std_find.
  rewrite (app_assoc s), <- Nat.add_assoc, <- length_app, find_byte_spec.
  apply memchr_None in Hs. rewrite memchr_app_r by done. destruct Ht as [->|[t' ->]]; cbn [memchr].
  - cbn [option_map default from_option id]. rewrite app_nil_r. done.
  - rewrite Z.eqb_refl. cbn [option_map default from_option id]. lia.
Qed.

Section Iterate.
Context (a b : bytes).

(** The separator found from the second byte of a pair. *)
Lemma pair_end x kv t :
  param_plain kv -> t = [] \/ (exists t', t = kNewPairSep :: t') ->
  let end_ := (length x + length (decoded_pair kv) + length t)%nat in
  std_find kNewPairSep (x ++ decoded_pair kv ++ t ++ b) (S (length x)) end_
  = (length x + length (decoded_pair kv))%nat.
Proof.
  intros (Hk & Hv & _) Ht end_.
  assert (Hf : free_of kNewPairSep (decoded_pair kv)).
  { apply Forall_app. split; [done|]. by constructor. }
  destruct (decoded_pair kv) as [|c s] eqn:E.
  { unfold decoded_pair in E. by destruct (fst kv). }
  apply Forall_cons_1 in Hf as [_ Hf].
  pose proof (std_find_spec kNewPairSep (x ++ [c]) s t b Hf Ht) as H.
  rewrite length_app in H. cbn [length] in *. rewrite <- app_assoc in H. cbn [app] in *.
  replace (length x + 1)%nat with (S (length x)) in H by lia. unfold end_.
  replace (length x + S (length s) + length t)%nat with (S (length x) + length s + length t)%nat by lia.
  rewrite H. lia.
Qed.

Lemma deref_spec x kv t :
  param_plain kv -> t = [] \/ (exists t', t = kNewPairSep :: t') ->
  deref (x ++ decoded_pair kv ++ t ++ b) (length x)
    (length x + length (decoded_pair kv) + length t) = kv.
Proof.
  intros Hp Ht. unfold deref. rewrite pair_end by done. destruct Hp as (_ & _ & Hk).
  destruct kv as [k v]. unfold decoded_pair in *. cbn [fst snd] in *.
  pose proof (std_find_spec kNewKeyValueSep x k (kNewKeyValueSep :: v) (t ++ b) Hk
                ltac:(right; by eexists)) as H.
  rewrite length_app, Nat.add_assoc, <- (app_assoc k), H. clear H.
  cbn [length]. rewrite decide_False by lia. f_equal.
  - rewrite drop_app_length, Nat.add_comm, Nat.add_sub, take_app_length. done.
  - replace (S (length x + length k)) with (length (x ++ k ++ [kNewKeyValueSep]))
      by (rewrite !length_app; cbn; lia).
    replace (x ++ k ++ (kNewKeyValueSep :: v) ++ t ++ b)
      with ((x ++ k ++ [kNewKeyValueSep]) ++ v ++ t ++ b) by (rewrite <- !app_assoc; done).
    rewrite drop_app_length, !length_app. cbn [length].
    replace (length x + length k + S (length v) - (length x + (length k + 1)))%nat
      with (length v) by lia. by rewrite take_app_length.
Qed.

Lemma queryParams_loop_spec fuel x kvs :
  Forall param_plain kvs -> (length (join kNewPairSep (map decoded_pair kvs)) < fuel)%nat ->
  queryParams_loop fuel (x ++ join kNewPairSep (map decoded_pair kvs) ++ b) (length x)
    (length x + length (join kNewPairSep (map decoded_pair kvs))) = kvs.
Proof.
  intros Hp. revert fuel x. induction Hp as [|kv kvs Hkv Hp IH]; intros fuel x Hf.
  { destruct fuel; cbn; [done|]. by rewrite decide_True by lia. }
  destruct fuel as [|fuel]; [lia|]. cbn [queryParams_loop].
  set (t := match kvs with [] => [] | _ => kNewPairSep :: join kNewPairSep (map decoded_pair kvs) end).
  assert (Ej : join kNewPairSep (map decoded_pair (kv :: kvs)) = decoded_pair kv ++ t).
  { unfold t. destruct kvs; cbn [map join]; [by rewrite app_nil_r|done]. }
  assert (Ht : t = [] \/ exists t', t = kNewPairSep :: t').
  { unfold t. destruct kvs; [by left|right; by eexists]. }
  assert (Hpos : (0 < length (decoded_pair kv))%nat).
  { unfold decoded_pair. rewrite length_app. cbn. lia. }
  rewrite Ej, length_app, Nat.add_assoc in *. rewrite <- app_assoc.
  rewrite decide_False by lia. rewrite deref_spec by done. f_equal.
  unfold advance. rewrite pair_end by done. unfold t in *. destruct kvs as [|kv' kvs].
  - cbn [length]. rewrite decide_True by lia. destruct fuel; cbn; [done|]. by rewrite decide_True by lia.
  - set (r := join kNewPairSep (map decoded_pair (kv' :: kvs))) in *. cbn [length] in *.
    rewrite decide_False by lia.
    specialize (IH fuel (x ++ decoded_pair kv ++ [kNewPairSep]) ltac:(lia)).
    rewrite !length_app, <- !app_assoc in IH. cbn [length app] in *.
    replace (S (length x + length (decoded_pair kv)))
      with (length x + (length (decoded_pair kv) + 1))%nat by lia.
    etransitivity; [|exact IH]. f_equal. lia.
Qed.
End Iterate.

Lemma queryParamsRange_spec a kvs b :
  Forall param_plain kvs ->
  let q := join kNewPairSep (map decoded_pair kvs) in
  queryParamsRange (a ++ q ++ b) (length a) (length q) = kvs.
Proof. intros Hp q. unfold queryParamsRange. apply queryParams_loop_spec; [done|]. subst q. lia. Qed.
