(* ===== verification/Http1Request.v ===== *)
(** The head of an HTTP/1 request (http/http-request-view.cpp, header-merge.cpp,
    header-line-parse.hpp, http-method-parse.cpp, tech/major-minor-version.hpp).

    A request is a record of views: offsets and lengths into the connection buffer.  Parsing
    decodes the target in place and merges repeated headers in place, so it returns the
    buffer too.  The hash map of headers is the list of its entries; its iteration order is
    never observed. *)

From S2P Require Import Prelude.
From S2P Require Import AsciiCase.
From S2P Require Import HeadersView.
From S2P Require Import UrlCodec.
Local Open Scope Z_scope.

(** ** Views and the header map *)

Record View := MkView { v_off : nat; v_len : nat }.

Definition view_of (buf : bytes) (v : View) : bytes := take (v_len v) (drop (v_off v) buf).

(** [string_view(first, last)]. *)
Definition view_between (first last : nat) : View := MkView first (last - first).

Record HeaderSlot := MkSlot { hs_key : View; hs_value : View }.

Abbreviation HeadersViewMap := (list HeaderSlot).

(** [map.find(name)]. *)
Fixpoint find_slot (buf : bytes) (map : HeadersViewMap) (name : bytes) : option nat :=
  match map with
  | [] => None
  | s :: map =>
      if CaseInsensitiveEqual (view_of buf (hs_key s)) name then Some 0%nat
      else option_map S (find_slot buf map name)
  end.

Definition set_value (v : View) (s : HeaderSlot) : HeaderSlot := MkSlot (hs_key s) v.

Definition shift_view (n : nat) (v : View) : View := MkView (v_off v + n) (v_len v).

Definition shift_slot (firstValueLast n : nat) (s : HeaderSlot) : HeaderSlot :=
  if decide (firstValueLast < v_off (hs_key s))%nat
  then MkSlot (shift_view n (hs_key s)) (shift_view n (hs_value s)) else s.

(** ** AddOrMergeHeaderInPlace *)

(** The merge proper: the bytes after the first value up to the current line move right, the
    views after it follow, and the separator and the new value fill the gap. *)
Definition merge_values (map : HeadersViewMap) (i : nat) (it : HeaderSlot) (mergeSep : Z)
  (value : View) (buf : bytes) (currentLineStart : nat) : HeadersViewMap * bytes :=
  let szToMove := (v_len value + 1)%nat in
  let tmp := view_of buf value in
  let firstValueFirst := v_off (hs_value it) in
  let firstValueLast := (firstValueFirst + v_len (hs_value it))%nat in
  let buf := memmove buf (firstValueLast + szToMove) firstValueLast
               (currentLineStart - firstValueLast) in
  let map := List.map (shift_slot firstValueLast szToMove) map in
  let buf := fst (put tmp buf (firstValueLast + 1)) in
  let buf := <[firstValueLast := mergeSep]> buf in
  let merged := MkView firstValueFirst (v_len (hs_value it) + szToMove) in
  (alter (set_value merged) i map, buf).

Definition AddOrMergeHeaderInPlace (map : HeadersViewMap) (name value : View) (buf : bytes)
  (currentLineStart : nat) (mergeAllowedForUnknown : bool) : bool * HeadersViewMap * bytes :=
  match find_slot buf map (view_of buf name) with
  | None => (true, map ++ [MkSlot name value], buf)
  | Some i =>
      match map !! i with
      | None => (true, map, buf)
      | Some it =>
          let mergeSep := ReqHeaderValueSeparator (view_of buf (hs_key it)) mergeAllowedForUnknown in
          if mergeSep =? sepForbidden then (false, map, buf)
          else if Nat.eqb (v_len (hs_value it)) 0 || (mergeSep =? sepOverride)
          then (true, alter (set_value value) i map, buf)
          else if decide (v_len value = 0)%nat then (true, map, buf)
          else
            let '(map, buf) := merge_values map i it mergeSep value buf currentLineStart in
            (true, map, buf)
      end
  end.

(** ** Header lines *)

Fixpoint skip_ws (fuel : nat) (buf : bytes) (first last : nat) : nat :=
  match fuel with
  | O => first
  | S fuel =>
      if decide (first < last)%nat then
        if isWhitespace (byte_at buf first) then skip_ws fuel buf (S first) last else first
      else first
  end.

Fixpoint skip_ws_back (fuel : nat) (buf : bytes) (first last : nat) : nat :=
  match fuel with
  | O => last
  | S fuel =>
      if decide (first < last)%nat then
        if isWhitespace (byte_at buf (last - 1)) then skip_ws_back fuel buf first (last - 1) else last
      else last
  end.

(** [ParseHeaderLine] on the line [lineStart, lineLast): the name and the value.  Without a
    colon the name is empty and the value is not meant to be used. *)
Definition ParseHeaderLine (buf : bytes) (lineStart lineLast : nat) : View * View :=
  let colonPtr := std_find 58 buf lineStart lineLast in
  let valueFirst := skip_ws (lineLast - S colonPtr) buf (S colonPtr) lineLast in
  let valueLast := skip_ws_back (lineLast - valueFirst) buf valueFirst lineLast in
  (if decide (colonPtr = lineLast) then MkView 0 0 else view_between lineStart colonPtr,
   view_between valueFirst valueLast).

(** ** Methods and versions *)

Inductive Method := GET | HEAD | POST | PUT | DELETE | CONNECT | OPTIONS | TRACE | PATCH.

#[export] Instance Method_eq_dec : EqDecision Method.
Proof. solve_decision. Defined.

Definition MethodToStr (m : Method) : bytes :=
  match m with
  | GET => str "GET" | HEAD => str "HEAD" | POST => str "POST" | PUT => str "PUT"
  | DELETE => str "DELETE" | CONNECT => str "CONNECT" | OPTIONS => str "OPTIONS"
  | TRACE => str "TRACE" | PATCH => str "PATCH"
  end.

Definition MethodStrToOptEnum (s : bytes) : option Method :=
  let check m := if CaseInsensitiveEqual s (MethodToStr m) then Some m else None in
  let first := toupper (byte_at s 0) in
  match length s with
  | 3%nat => if first =? 71 then check GET else if first =? 80 then check PUT else None
  | 4%nat => if first =? 72 then check HEAD else if first =? 80 then check POST else None
  | 5%nat => if first =? 84 then check TRACE else if first =? 80 then check PATCH else None
  | 6%nat => check DELETE
  | 7%nat => if first =? 67 then check CONNECT else if first =? 79 then check OPTIONS else None
  | _ => None
  end.

(** [MajorMinorVersion<"HTTP/">]: the major digit in the high nibble, 0 when invalid.  The
    constructor looks at the length, the digits and the dot. *)
Definition kPrefixLength : nat := 5.
Definition kStrLen : nat := (kPrefixLength + 2 + 1)%nat.

Definition Version_of (s : bytes) : Z :=
  if decide (length s = kStrLen) then
    let major := byte_at s kPrefixLength in
    let minor := byte_at s (kPrefixLength + 2) in
    if (49 <=? major) && (major <=? 57) && (byte_at s (kPrefixLength + 1) =? 46)
       && (48 <=? minor) && (minor <=? 57)
    then u8 (Z.lor (u8 (Z.shiftl (u8 (major - 48)) 4)) (u8 (minor - 48)))
    else 0
  else 0.

Definition version_major (data : Z) : Z := Z.shiftr data 4.
Definition version_minor (data : Z) : Z := Z.land data 0x0F.
Definition isValid (data : Z) : bool := negb (data =? 0).

Definition HTTP_1_0 : Z := Z.lor (Z.shiftl 1 4) 0.
Definition HTTP_1_1 : Z := Z.lor (Z.shiftl 1 4) 1.

(** ** The request *)

Inductive BodyAccessMode := Undecided | Streaming | Aggregated.

Record HttpRequestView := MkRequest {
  rq_method : Method;
  rq_version : Z;
  rq_path : View;
  rq_decodedQueryParams : View;
  rq_headers : HeadersViewMap;
  rq_trailers : HeadersViewMap;
  rq_body : bytes;
  rq_headSpanSize : nat;
  rq_bodyAccessMode : BodyAccessMode;
  rq_headPinned : bool
}.

Definition set_method m r := MkRequest m (rq_version r) (rq_path r) (rq_decodedQueryParams r)
  (rq_headers r) (rq_trailers r) (rq_body r) (rq_headSpanSize r) (rq_bodyAccessMode r) (rq_headPinned r).
Definition set_version v r := MkRequest (rq_method r) v (rq_path r) (rq_decodedQueryParams r)
  (rq_headers r) (rq_trailers r) (rq_body r) (rq_headSpanSize r) (rq_bodyAccessMode r) (rq_headPinned r).
Definition set_path p r := MkRequest (rq_method r) (rq_version r) p (rq_decodedQueryParams r)
  (rq_headers r) (rq_trailers r) (rq_body r) (rq_headSpanSize r) (rq_bodyAccessMode r) (rq_headPinned r).
Definition set_query q r := MkRequest (rq_method r) (rq_version r) (rq_path r) q
  (rq_headers r) (rq_trailers r) (rq_body r) (rq_headSpanSize r) (rq_bodyAccessMode r) (rq_headPinned r).
Definition set_headers h r := MkRequest (rq_method r) (rq_version r) (rq_path r)
  (rq_decodedQueryParams r) h (rq_trailers r) (rq_body r) (rq_headSpanSize r) (rq_bodyAccessMode r)
  (rq_headPinned r).
Definition set_trailers t r := MkRequest (rq_method r) (rq_version r) (rq_path r)
  (rq_decodedQueryParams r) (rq_headers r) t (rq_body r) (rq_headSpanSize r) (rq_bodyAccessMode r)
  (rq_headPinned r).
Definition set_body b r := MkRequest (rq_method r) (rq_version r) (rq_path r)
  (rq_decodedQueryParams r) (rq_headers r) (rq_trailers r) b (rq_headSpanSize r)
  (rq_bodyAccessMode r) (rq_headPinned r).

(** The fields that a complete head resets. *)
Definition head_complete (headSpanSize : nat) (r : HttpRequestView) : HttpRequestView :=
  MkRequest (rq_method r) (rq_version r) (rq_path r) (rq_decodedQueryParams r) (rq_headers r)
    [] [] headSpanSize Undecided false.

Definition kStatusNeedMoreData : Z := 0.
Definition StatusCodeOK : Z := 200.
Definition StatusCodeBadRequest : Z := 400.
Definition StatusCodePayloadTooLarge : Z := 413.
Definition StatusCodeRequestHeaderFieldsTooLarge : Z := 431.
Definition StatusCodeNotImplemented : Z := 501.
Definition StatusCodeHTTPVersionNotSupported : Z := 505.

Definition kHttpReqLineMinLen : nat := 16.

(** [SearchCRLF(buf + first, last)] as an offset of the buffer. *)
Definition search_crlf (buf : bytes) (first : nat) : nat := (first + SearchCRLF (drop first buf))%nat.

(** [decodePath]: [None] for a query loop that did not finish. *)
Definition decodePath (buf : bytes) (pathStart pathEnd : nat) (r : HttpRequestView)
  : option (bool * bytes * HttpRequestView) :=
  let questionMark := std_find 63 buf pathStart pathEnd in
  match (if decide (questionMark = pathEnd) then Some (buf, set_query (MkView 0 0) r)
         else match DecodeQueryParamsInPlace buf (S questionMark) pathEnd with
              | None => None
              | Some (buf, paramsEnd) =>
                  Some (buf, set_query (view_between (S questionMark) paramsEnd) r)
              end) with
  | None => None
  | Some (buf, r) =>
      match DecodeInPlace 43 true buf pathStart questionMark with
      | (buf, None) => Some (false, buf, r)
      | (buf, Some pathLast) =>
          if decide (pathStart = pathLast) then Some (false, buf, r)
          else Some (true, buf, set_path (view_between pathStart pathLast) r)
      end
  end.

(** Outcome of a parse: the status, the buffer and the request. *)
Abbreviation parsed := (Z * bytes * HttpRequestView)%type.

(** The header lines from [first]; on the empty line, the offset after it. *)
Inductive lines_result :=
| LinesEnd (buf : bytes) (headers : HeadersViewMap) (first : nat)
| LinesStatus (status : Z) (buf : bytes) (headers : HeadersViewMap).

Fixpoint header_lines (fuel : nat) (maxHeadersBytes : Z) (mergeAllowed : bool) (buf : bytes)
  (headers : HeadersViewMap) (first : nat) : option lines_result :=
  if decide (first < length buf)%nat then
    match fuel with
    | O => None
    | S fuel =>
        let lineLast := search_crlf buf first in
        if decide (lineLast = length buf) then Some (LinesStatus kStatusNeedMoreData buf headers)
        else if decide (lineLast = first) then Some (LinesEnd buf headers first)
        else if maxHeadersBytes <? Z.of_nat (lineLast + length CRLF)
        then Some (LinesStatus StatusCodeRequestHeaderFieldsTooLarge buf headers)
        else
          let '(nameView, valueView) := ParseHeaderLine buf first lineLast in
          if Nat.eqb (v_len nameView) 0 || existsb isWhitespace (view_of buf nameView)
          then Some (LinesStatus StatusCodeBadRequest buf headers)
          else
            let '(ok, headers, buf) :=
              AddOrMergeHeaderInPlace headers nameView valueView buf first mergeAllowed in
            if ok : bool
            then header_lines fuel maxHeadersBytes mergeAllowed buf headers (lineLast + length CRLF)
            else Some (LinesStatus StatusCodeBadRequest buf headers)
    end
  else Some (LinesStatus kStatusNeedMoreData buf headers).

(** The headers after the request line, which ends at [lineLast]. *)
Definition parse_header_section (maxHeadersBytes : Z) (mergeAllowed : bool) (buf : bytes)
  (lineLast : nat) (r : HttpRequestView) : option parsed :=
  let first := (lineLast + length CRLF)%nat in
  if decide (first = length buf) then Some (kStatusNeedMoreData, buf, r)
  else
    match header_lines (length buf) maxHeadersBytes mergeAllowed buf [] first with
    | None => None
    | Some (LinesStatus status buf headers) => Some (status, buf, set_headers headers r)
    | Some (LinesEnd buf headers first) =>
        Some (StatusCodeOK, buf, head_complete (first + length CRLF) (set_headers headers r))
    end.

Definition initTrySetHead (buf : bytes) (maxHeadersBytes : Z) (mergeAllowed : bool)
  (r : HttpRequestView) : option parsed :=
  let lineLast := search_crlf buf 0 in
  if decide (lineLast = length buf) then Some (kStatusNeedMoreData, buf, r)
  else if decide (lineLast < kHttpReqLineMinLen - length CRLF)%nat
  then Some (StatusCodeBadRequest, buf, r)
  else
    let nextSep := std_find 32 buf 0 lineLast in
    if decide (nextSep = lineLast) then Some (StatusCodeBadRequest, buf, r)
    else
      match MethodStrToOptEnum (take nextSep buf) with
      | None => Some (StatusCodeNotImplemented, buf, r)
      | Some m =>
          let r := set_method m r in
          let first := S nextSep in
          let nextSep := std_find 32 buf first lineLast in
          match decodePath buf first nextSep r with
          | None => None
          | Some (false, buf, r) => Some (StatusCodeBadRequest, buf, r)
          | Some (true, buf, r) =>
              let first := S nextSep in
              let version := Version_of (view_of buf (view_between first lineLast)) in
              let r := set_version version r in
              if negb (isValid version) then Some (StatusCodeBadRequest, buf, r)
              else if negb (version_major version =? 1) || (1 <? version_minor version)
              then Some (StatusCodeHTTPVersionNotSupported, buf, r)
              else parse_header_section maxHeadersBytes mergeAllowed buf lineLast r
          end
      end.

(** ** Accessors *)

Definition path (buf : bytes) (r : HttpRequestView) : bytes := view_of buf (rq_path r).

Definition slot_value (buf : bytes) (map : HeadersViewMap) (name : bytes) : option bytes :=
  match find_slot buf map name with
  | Some i => (fun s => view_of buf (hs_value s)) <$> map !! i
  | None => None
  end.

Definition headerValue (buf : bytes) (r : HttpRequestView) (name : bytes) : option bytes :=
  slot_value buf (rq_headers r) name.

Definition headerValueOrEmpty (buf : bytes) (r : HttpRequestView) (name : bytes) : bytes :=
  default [] (headerValue buf r name).

Definition queryParams (buf : bytes) (r : HttpRequestView) : list (bytes * bytes) :=
  queryParamsRange buf (v_off (rq_decodedQueryParams r)) (v_len (rq_decodedQueryParams r)).

Definition wantClose (buf : bytes) (r : HttpRequestView) : bool :=
  CaseInsensitiveEqual (headerValueOrEmpty buf r (str "connection")) (str "close").

Definition hasExpectContinue (buf : bytes) (r : HttpRequestView) : bool :=
  (rq_version r =? HTTP_1_1)
  && CaseInsensitiveEqual (headerValueOrEmpty buf r (str "expect")) (str "100-continue").

Definition isKeepAliveForHttp1 (buf : bytes) (r : HttpRequestView) (enableKeepAlive : bool)
  (requestsServed maxRequestsPerConnection : Z) (isServerRunning : bool) : bool :=
  if negb enableKeepAlive || (maxRequestsPerConnection <=? requestsServed) || negb isServerRunning
  then false
  else
    let connVal := headerValueOrEmpty buf r (str "connection") in
    match connVal with
    | [] => rq_version r =? HTTP_1_1
    | _ => negb (CaseInsensitiveEqual connVal (str "close"))
    end.

(** The location of [emitHttpsRedirect]: authority, path, then the query parameters. *)
Definition redirect_target (path : bytes) (params : list (bytes * bytes)) : bytes :=
  fst (List.fold_left (fun '(url, querySep) '(key, value) =>
         (AppendUrlEncodedQueryParam url querySep key value, 38))
       params (AppendUrlEncodedPath [] path, 63)).

Definition redirect_location (buf : bytes) (r : HttpRequestView) (targetPort : Z) : option bytes :=
  (fun authority => authority ++ redirect_target (path buf r) (queryParams buf r))
  <$> AppendHttpsAuthority (headerValueOrEmpty buf r (str "host")) targetPort.
