(* ===== verification/Http1RequestProofs.v ===== *)
(** Theorems on the head of HTTP/1 requests: a well-formed head is parsed to its method,
    version, decoded target and merged headers, in place and without touching the bytes
    after it; a redirection keeps the target. *)

From S2P Require Import Prelude.
From S2P Require Import AsciiCase.
From S2P Require Import HeadersView.
From S2P Require Import UrlCodec.
From S2P Require Import UrlCodecProofs.
From S2P Require Import Http1Request.
Local Open Scope Z_scope.

(** ** The specification: fields and their merge *)

Record Field := MkField { fd_name : bytes; fd_before : bytes; fd_value : bytes; fd_after : bytes }.

Definition field_content (f : Field) : bytes :=
  fd_name f ++ 58 :: fd_before f ++ fd_value f ++ fd_after f.
Definition field_line (f : Field) : bytes := field_content f ++ CRLF.

Definition whitespace (l : bytes) : Prop := Forall (fun b => isWhitespace b = true) l.

(** The value starts and ends with other characters than whitespace. *)
Definition trimmed (v : bytes) : Prop :=
  (exists c r, v = c :: r /\ isWhitespace c = false) /\ (exists c r, v = r ++ [c] /\ isWhitespace c = false).

Definition name_char (b : Z) : Prop := byte_ok b /\ b <> 58 /\ b <> 10 /\ isWhitespace b = false.

Definition field_wf (f : Field) : Prop :=
  fd_name f <> [] /\ Forall name_char (fd_name f)
  /\ whitespace (fd_before f) /\ whitespace (fd_after f)
  /\ trimmed (fd_value f) /\ no_crlf (fd_value f).

Abbreviation fields := (list (bytes * bytes)).

Fixpoint find_name (l : fields) (name : bytes) : option nat :=
  match l with
  | [] => None
  | (n, _) :: l => if CaseInsensitiveEqual n name then Some 0%nat else option_map S (find_name l name)
  end.

Definition merge_value (sep : Z) (v : bytes) (nv : bytes * bytes) : bytes * bytes :=
  (fst nv, snd nv ++ sep :: v).

(** One more field: appended, or joined to the first one of its name. [None]: a repeated
    header that may not be repeated, or that replaces its first value. *)
Definition add_field (allowed : bool) (l : fields) (name value : bytes) : option fields :=
  match find_name l name with
  | None => Some (l ++ [(name, value)])
  | Some i =>
      match l !! i with
      | None => None
      | Some (n, _) =>
          let sep := ReqHeaderValueSeparator n allowed in
          if (sep =? sepForbidden) || (sep =? sepOverride) then None
          else Some (alter (merge_value sep value) i l)
      end
  end.

Fixpoint merge_fields (allowed : bool) (l : fields) (fs : list Field) : option fields :=
  match fs with
  | [] => Some l
  | f :: fs =>
      match add_field allowed l (fd_name f) (fd_value f) with
      | Some l => merge_fields allowed l fs
      | None => None
      end
  end.

(** ** Layout of the parsed bytes: gaps, names and values in the order of the slots *)

(** [front]: the first gap may be empty. *)
Inductive layout : bool -> nat -> bytes -> HeadersViewMap -> fields -> Prop :=
| layout_nil front o g : (front = false -> g <> []) -> layout front o g [] []
| layout_cons front o g n h v rest slots l :
    (front = false -> g <> []) -> h <> [] ->
    layout false (o + length g + length n + length h + length v) rest slots l ->
    layout front o (g ++ n ++ h ++ v ++ rest)
      (MkSlot (MkView (o + length g) (length n))
              (MkView (o + length g + length n + length h) (length v)) :: slots)
      ((n, v) :: l).

Definition read_slot (buf : bytes) (s : HeaderSlot) : bytes * bytes :=
  (view_of buf (hs_key s), view_of buf (hs_value s)).

Lemma view_of_mid a x b : view_of (a ++ x ++ b) (MkView (length a) (length x)) = x.
Proof. unfold view_of. cbn [v_off v_len]. by rewrite drop_app_length, take_app_length. Qed.

(** A view of a known place of the buffer. *)
Lemma view_at buf a x b v :
  buf = a ++ x ++ b -> v_off v = length a -> v_len v = length x -> view_of buf v = x.
Proof. intros -> Ho Hl. destruct v. cbn in *. subst. apply view_of_mid. Qed.

Lemma layout_read fr a p b slots l :
  layout fr (length a) p slots l -> map (read_slot (a ++ p ++ b)) slots = l.
Proof.
  remember (length a) as o eqn:Ho. intros H. revert a Ho.
  induction H as [|fr o g n h v rest slots l Hg Hh H IH]; intros a ->; [done|].
  cbn [map]. f_equal.
  - unfold read_slot. cbn [hs_key hs_value]. f_equal.
    + apply (view_at _ (a ++ g) _ (h ++ v ++ rest ++ b)); cbn; rewrite ?length_app; [|lia..].
      by rewrite <- !app_assoc.
    + apply (view_at _ (a ++ g ++ n ++ h) _ (rest ++ b)); cbn; rewrite ?length_app; [|lia..].
      by rewrite <- !app_assoc.
  - specialize (IH (a ++ g ++ n ++ h ++ v)). rewrite <- IH by (rewrite !length_app; lia).
    f_equal. f_equal. by rewrite <- !app_assoc.
Qed.

Lemma layout_app fr o p x slots l : layout fr o p slots l -> layout fr o (p ++ x) slots l.
Proof.
  induction 1 as [fr o g Hg|fr o g n h v rest slots l Hg Hh H IH].
  - constructor. intros E. specialize (Hg E). by destruct g.
  - rewrite <- !app_assoc. by constructor.
Qed.

(** A slot appended after the last gap. *)
Lemma layout_snoc fr o p slots l n h v x :
  layout fr o p slots l -> h <> [] -> x <> [] ->
  layout fr o (p ++ n ++ h ++ v ++ x)
    (slots ++ [MkSlot (MkView (o + length p) (length n))
                      (MkView (o + length p + length n + length h) (length v))])
    (l ++ [(n, v)]).
Proof.
  intros H Hh Hx. induction H as [fr o g Hg|fr o g n' h' v' rest slots l Hg Hh' H IH]; cbn [app].
  - constructor; [done|done|]. by constructor.
  - rewrite <- !app_assoc. constructor; [done|done|].
    rewrite !length_app. replace (o + (length g + (length n' + (length h' + (length v' + length rest)))))%nat
      with (o + length g + length n' + length h' + length v' + length rest)%nat by lia. done.
Qed.

(** The slots behind an offset all move. *)
Lemma layout_shift o p slots l d q :
  layout false o p slots l -> (q <= o)%nat -> layout false (o + d) p (map (shift_slot q d) slots) l.
Proof.
  remember false as fr eqn:Efr. induction 1 as [fr o g Hg|fr o g n h v rest slots l Hg Hh H IH]; intros Hq; [by constructor|].
  specialize (Hg Efr). assert (0 < length g)%nat by (destruct g; [done|cbn; lia]).
  cbn [map]. unfold shift_slot at 1. cbn [hs_key hs_value v_off].
  rewrite decide_True by lia. unfold shift_view. cbn [v_off v_len].
  replace (o + length g + d)%nat with (o + d + length g)%nat by lia.
  replace (o + length g + length n + length h + d)%nat
    with (o + d + length g + length n + length h)%nat by lia.
  constructor; [done|done|].
  replace (o + d + length g + length n + length h + length v)%nat
    with (o + length g + length n + length h + length v + d)%nat by lia.
  apply IH; [done|lia].
Qed.

Lemma layout_length fr o p slots l : layout fr o p slots l -> length slots = length l.
Proof. induction 1; cbn; congruence. Qed.

Lemma layout_find fr a p b slots l name :
  layout fr (length a) p slots l -> find_slot (a ++ p ++ b) slots name = find_name l name.
Proof.
  intros H. pose proof (layout_read fr a p b slots l H) as E. clear H. revert l E.
  induction slots as [|s slots IH]; intros l <-; [done|]. cbn [map find_slot find_name].
  unfold read_slot at 1. by rewrite <- (IH _ eq_refl).
Qed.

(** The buffer operations of a merge: [b] moves over the start of [c]. *)
Lemma memmove_spec (a b c r : bytes) k :
  (k <= length c)%nat ->
  exists x, length x = k
    /\ memmove (a ++ b ++ c ++ r) (length a + k) (length a) (length b)
       = a ++ x ++ b ++ drop k c ++ r.
Proof.
  intros Hc. exists (take k (b ++ c)). rewrite length_take, length_app. split; [lia|].
  unfold memmove. rewrite drop_app_length, take_app_length, take_app_add, <- app_assoc.
  rewrite (app_assoc b c), take_app_le by (rewrite length_app; lia). do 3 f_equal.
  rewrite <- Nat.add_assoc, drop_app_add, <- app_assoc, Nat.add_comm, drop_app_add.
  by rewrite drop_app_le by lia.
Qed.

Lemma merge_bytes (a b c r v : bytes) sep :
  (length v + 1 <= length c)%nat ->
  <[length a := sep]> (fst (put v
    (memmove (a ++ b ++ c ++ r) (length a + (length v + 1)) (length a) (length b)) (length a + 1)))
  = a ++ (sep :: v) ++ b ++ drop (length v + 1) c ++ r.
Proof.
  intros Hc. destruct (memmove_spec a b c r _ Hc) as (x & Hx & ->).
  destruct x as [|x y]; [cbn in Hx; lia|]. cbn in Hx. unfold put. cbn [fst app].
  replace (a ++ x :: y ++ b ++ drop (length v + 1) c ++ r)
    with ((a ++ [x]) ++ y ++ b ++ drop (length v + 1) c ++ r) by (by rewrite <- app_assoc).
  rewrite take_app_length' by (rewrite length_app; cbn; lia).
  rewrite (app_assoc (a ++ [x]) y), drop_app_length' by (rewrite !length_app; cbn; lia).
  rewrite <- app_assoc. cbn [app]. rewrite <- (Nat.add_0_r (length a)), insert_app_r. done.
Qed.

(** Merging into slot [i]. *)
Lemma merge_layout fr a p slots l i n v0 :
  layout fr (length a) p slots l -> l !! i = Some (n, v0) ->
  exists it p1 p2, slots !! i = Some it /\ p = p1 ++ p2
    /\ (v_off (hs_value it) + v_len (hs_value it) = length a + length p1)%nat
    /\ v_len (hs_value it) = length v0
    /\ view_of (a ++ p) (hs_key it) = n
    /\ forall sep v, layout fr (length a) (p1 ++ (sep :: v) ++ p2)
         (alter (set_value (MkView (v_off (hs_value it)) (length v0 + (length v + 1)))) i
            (map (shift_slot (length a + length p1) (length v + 1)) slots))
         (alter (merge_value sep v) i l).
Proof.
  remember (length a) as o eqn:Ho. intros H. revert a Ho i.
  induction H as [|fr o g n' h v' rest slots l Hg Hh H IH]; intros a -> i Hi; [done|].
  assert (0 < length h)%nat by (destruct h; [done|cbn; lia]).
  destruct i as [|i].
  - injection Hi as -> ->. eexists _, (g ++ n ++ h ++ v0), rest. split; [done|].
    cbn [hs_key hs_value v_off v_len]. split_and!.
    + by rewrite <- !app_assoc.
    + rewrite !length_app. lia.
    + done.
    + apply (view_at _ (a ++ g) _ (h ++ v0 ++ rest)); cbn; rewrite ?length_app; [|lia..].
      by rewrite <- !app_assoc.
    + intros sep v. cbn [map alter list_alter]. unfold set_value, merge_value. cbn [fst snd hs_key].
      unfold shift_slot at 1. cbn [hs_key v_off]. rewrite decide_False by (rewrite !length_app; lia).
      cbn [hs_key hs_value v_off].
      replace (length v0 + (length v + 1))%nat with (length (v0 ++ sep :: v))
        by (rewrite length_app; cbn; lia).
      replace ((g ++ n ++ h ++ v0) ++ (sep :: v) ++ rest) with (g ++ n ++ h ++ (v0 ++ sep :: v) ++ rest)
        by (by rewrite <- !app_assoc).
      constructor; [done|done|].
      replace (length a + length g + length n + length h + length (v0 ++ sep :: v))%nat
        with (length a + length g + length n + length h + length v0 + (length v + 1))%nat
        by (rewrite length_app; cbn; lia).
      apply layout_shift; [done|]. rewrite !length_app. lia.
  - cbn in Hi. destruct (IH (a ++ g ++ n' ++ h ++ v') ltac:(rewrite !length_app; lia) i Hi)
      as (it & p1 & p2 & Hit & -> & He & Hl & Hk & Hm).
    exists it, (g ++ n' ++ h ++ v' ++ p1), p2. split; [done|]. split_and!.
    + by rewrite <- !app_assoc.
    + rewrite !length_app. lia.
    + done.
    + rewrite <- Hk. f_equal. by rewrite <- !app_assoc.
    + intros sep v. specialize (Hm sep v). cbn [map alter list_alter].
      unfold shift_slot at 1. cbn [hs_key v_off]. rewrite decide_False by (rewrite !length_app; lia).
      replace ((g ++ n' ++ h ++ v' ++ p1) ++ (sep :: v) ++ p2)
        with (g ++ n' ++ h ++ v' ++ (p1 ++ (sep :: v) ++ p2)) by (by rewrite <- !app_assoc).
      constructor; [done|done|]. rewrite !length_app in *.
      replace (length a + (length g + (length n' + (length h + (length v' + length p1)))))%nat
        with (length a + length g + length n' + length h + length v' + length p1)%nat by lia.
      exact Hm.
Qed.

Definition values_nonempty (l : fields) : Prop := Forall (fun nv => snd nv <> []) l.

Lemma add_field_nonempty allowed l n v l' :
  values_nonempty l -> v <> [] -> add_field allowed l n v = Some l' -> values_nonempty l'.
Proof.
  intros Hl Hv. unfold add_field. destruct (find_name l n) as [i|].
  - destruct (l !! i) as [[n0 v0]|] eqn:Ei; [|done]. destruct (_ || _); [done|]. intros [= <-].
    apply Forall_alter; [done|]. intros nv _ _. unfold merge_value. cbn. by destruct (snd nv).
  - intros [= <-]. apply Forall_app. split; [done|]. by repeat constructor.
Qed.

(** One header line: the parsed bytes grow by the line, the bytes before the first gap and
    after the line stay. *)
Lemma AddOrMerge_spec fr allowed a p slots l l' n h v x r :
  layout fr (length a) p slots l -> values_nonempty l -> v <> [] -> x <> [] -> (1 <= length h)%nat ->
  add_field allowed l n v = Some l' ->
  let o := (length a + length p)%nat in
  exists p' slots',
    AddOrMergeHeaderInPlace slots (MkView o (length n)) (MkView (o + length n + length h) (length v))
      (a ++ p ++ (n ++ h ++ v ++ x) ++ r) o allowed = (true, slots', a ++ p' ++ r)
    /\ layout fr (length a) p' slots' l' /\ length p' = (length p + length (n ++ h ++ v ++ x))%nat.
Proof.
  intros Hp Hl Hv Hx Hh. set (c := n ++ h ++ v ++ x). intros Ha o. set (buf := a ++ p ++ c ++ r).
  assert (Hn : view_of buf (MkView o (length n)) = n).
  { apply (view_at _ (a ++ p) _ (h ++ v ++ x ++ r)); [|by rewrite length_app|done].
    unfold buf, c. by rewrite <- !app_assoc. }
  assert (Hvv : view_of buf (MkView (o + length n + length h) (length v)) = v).
  { apply (view_at _ (a ++ p ++ n ++ h) _ (x ++ r)); cbn; rewrite ?length_app; [|unfold o; lia..].
    unfold buf, c. by rewrite <- !app_assoc. }
  revert Ha. unfold AddOrMergeHeaderInPlace, add_field. rewrite Hn.
  pose proof (layout_find fr a p (c ++ r) slots l n Hp) as Hf. fold buf in Hf. rewrite Hf.
  destruct (find_name l n) as [i|] eqn:Ei.
  2:{ intros [= <-]. exists (p ++ c), (slots ++ [MkSlot (MkView o (length n))
        (MkView (o + length n + length h) (length v))]).
      split_and!; [unfold buf; by rewrite <- app_assoc| |by rewrite length_app].
      exact (layout_snoc fr (length a) p slots l n h v x Hp ltac:(by destruct h; [cbn in Hh; lia|]) Hx). }
  destruct (l !! i) as [[n0 v0]|] eqn:Eli; [|done].
  destruct (merge_layout fr a p slots l i n0 v0 Hp Eli)
    as (it & p1 & p2 & Hit & -> & He & Hlen & _ & Hm).
  assert (Hkey : view_of buf (hs_key it) = n0).
  { pose proof (layout_read fr a (p1 ++ p2) (c ++ r) slots l Hp) as Hr. fold buf in Hr.
    assert (Hlk : map (read_slot buf) slots !! i = read_slot buf <$> (slots !! i))
      by apply list_lookup_fmap.
    rewrite Hr, Hit, Eli in Hlk. cbn in Hlk. unfold read_slot in Hlk. congruence. }
  rewrite Hit, Hkey. destruct (_ =? sepForbidden); [done|]. cbn [orb].
  assert (Hv0 : v0 <> []).
  { eapply Forall_lookup_1 in Hl; [|exact Eli]. exact Hl. }
  rewrite (proj2 (Nat.eqb_neq (v_len (hs_value it)) 0)) by (destruct v0; [done|cbn in *; lia]).
  destruct (_ =? sepOverride); [done|]. cbn [orb]. intros [= <-].
  cbn [v_len]. rewrite decide_False by (destruct v; [done|cbn; lia]).
  unfold merge_values. cbn [v_len]. rewrite Hvv, He, Hlen.
  assert (Hc : (length v + 1 <= length c)%nat) by (unfold c; rewrite !length_app; lia).
  assert (Hbuf : buf = (a ++ p1) ++ p2 ++ c ++ r) by (unfold buf; by rewrite <- !app_assoc).
  rewrite Hbuf, <- length_app.
  replace (o - length (a ++ p1))%nat with (length p2) by (unfold o; rewrite !length_app; lia).
  rewrite merge_bytes, length_app by done.
  eexists (p1 ++ (_ :: v) ++ p2 ++ drop (length v + 1) c), _. split_and!.
  - f_equal. by app_simpl.
  - assert (E : forall z k, p1 ++ (z :: v) ++ p2 ++ k = (p1 ++ (z :: v) ++ p2) ++ k)
      by (intros; by app_simpl).
    rewrite E. apply layout_app, Hm.
  - rewrite !length_app, length_drop. cbn [length]. unfold c in *. rewrite !length_app in *. lia.
Qed.

(** ** Header lines *)

Lemma byte_at_mid a c r : byte_at (a ++ c :: r) (length a) = c.
Proof. rewrite byte_at_lookup, lookup_app_r, Nat.sub_diag by lia. done. Qed.

Lemma skip_ws_spec fuel a w v r :
  whitespace w -> (v = [] \/ exists c v', v = c :: v' /\ isWhitespace c = false) ->
  (length w <= fuel)%nat ->
  skip_ws fuel (a ++ w ++ v ++ r) (length a) (length a + length w + length v)
  = (length a + length w)%nat.
Proof.
  intros Hw Hv. revert a fuel. induction Hw as [|b w Hb Hw IH]; intros a fuel Hf.
  - rewrite Nat.add_0_r. cbn [app length]. destruct fuel; [done|]. cbn [skip_ws].
    destruct Hv as [->|(c & v' & -> & Hc)]; [by rewrite decide_False by (cbn; lia)|].
    rewrite decide_True by (cbn; lia). cbn [app]. by rewrite byte_at_mid, Hc.
  - destruct fuel as [|fuel]; [cbn in Hf; lia|]. cbn [skip_ws length]. rewrite decide_True by lia.
    cbn [app]. rewrite byte_at_mid, Hb. specialize (IH (a ++ [b]) fuel ltac:(cbn in Hf; lia)).
    rewrite length_app, <- app_assoc in IH. cbn [app length] in IH.
    replace (length a + S (length w))%nat with (length a + 1 + length w)%nat by lia.
    etransitivity; [|exact IH]. f_equal. lia.
Qed.

Lemma skip_ws_back_spec fuel a v w r :
  whitespace w -> (v = [] \/ exists c v', v = v' ++ [c] /\ isWhitespace c = false) ->
  (length w <= fuel)%nat ->
  skip_ws_back fuel (a ++ v ++ w ++ r) (length a) (length a + length v + length w)
  = (length a + length v)%nat.
Proof.
  intros Hw Hv. revert r fuel. induction w as [|b w IH] using rev_ind; intros r fuel Hf.
  - cbn [length app]. rewrite Nat.add_0_r. destruct fuel; [done|]. cbn [skip_ws_back].
    destruct Hv as [->|(c & v' & -> & Hc)]; [by rewrite decide_False by (cbn; lia)|].
    rewrite decide_True by (rewrite length_app; cbn; lia).
    replace (length a + length (v' ++ [c]) - 1)%nat with (length (a ++ v'))
      by (rewrite !length_app; cbn; lia).
    rewrite <- app_assoc. cbn [app]. rewrite app_assoc. by rewrite byte_at_mid, Hc.
  - apply Forall_app in Hw as [Hw Hb]. apply Forall_cons_1 in Hb as [Hb _].
    rewrite length_app in Hf |- *. cbn [length] in *.
    destruct fuel as [|fuel]; [lia|]. cbn [skip_ws_back]. rewrite decide_True by lia.
    replace (length a + length v + (length w + 1) - 1)%nat with (length (a ++ v ++ w))
      by (rewrite !length_app; lia).
    assert (Hbuf : a ++ v ++ (w ++ [b]) ++ r = (a ++ v ++ w) ++ b :: r) by (by rewrite <- !app_assoc).
    rewrite Hbuf, byte_at_mid, Hb. specialize (IH Hw (b :: r) fuel ltac:(lia)).
    rewrite <- !app_assoc, !length_app. rewrite Nat.add_assoc. exact IH.
Qed.

Lemma ParseHeaderLine_spec p f r :
  field_wf f ->
  ParseHeaderLine (p ++ field_content f ++ r) (length p) (length p + length (field_content f))
  = (MkView (length p) (length (fd_name f)),
     MkView (length p + length (fd_name f) + length (58 :: fd_before f)) (length (fd_value f))).
Proof.
  destruct f as [n b v a]. intros (Hn & Hnc & Hb & Ha & [(c1 & r1 & E1 & H1) (c2 & r2 & E2 & H2)] & _).
  unfold field_content, ParseHeaderLine. cbn [fd_name fd_before fd_value fd_after] in *.
  assert (Hv : length v <> 0%nat) by (rewrite E1; done).
  assert (Hcolon : std_find 58 (p ++ (n ++ 58 :: b ++ v ++ a) ++ r) (length p)
                     (length p + length (n ++ 58 :: b ++ v ++ a)) = (length p + length n)%nat).
  { rewrite length_app, <- app_assoc, Nat.add_assoc. apply std_find_spec; [|right; by eexists].
    eapply Forall_impl; [exact Hnc|]. by intros ? (_ & ? & _). }
  rewrite Hcolon.
  assert (Hbuf : p ++ (n ++ 58 :: b ++ v ++ a) ++ r = (p ++ n ++ [58]) ++ b ++ v ++ a ++ r)
    by (rewrite <- !app_assoc; cbn [app]; by rewrite <- !app_assoc).
  rewrite Hbuf. set (q := p ++ n ++ [58]).
  assert (Hq : length q = S (length p + length n)) by (unfold q; rewrite !length_app; cbn; lia).
  assert (Hlast : (length p + length (n ++ 58%Z :: b ++ v ++ a)
                   = length q + length b + length (v ++ a))%nat).
  { rewrite Hq, !length_app. cbn [length]. rewrite !length_app. lia. }
  rewrite Hlast, <- Hq.
  assert (Hfirst : forall fu, (length b <= fu)%nat ->
    skip_ws fu (q ++ b ++ v ++ a ++ r) (length q) (length q + length b + length (v ++ a))
    = (length q + length b)%nat).
  { intros fu Hfu. rewrite (app_assoc v). apply skip_ws_spec; [done| |done].
    right. exists c1, (r1 ++ a). by rewrite E1. }
  rewrite Hfirst by lia.
  assert (Hback : forall fu, (length a <= fu)%nat ->
    skip_ws_back fu (q ++ b ++ v ++ a ++ r) (length q + length b)
      (length q + length b + length (v ++ a)) = (length q + length b + length v)%nat).
  { intros fu Hfu. rewrite app_assoc.
    pose proof (skip_ws_back_spec fu (q ++ b) v a r Ha (or_intror (ex_intro _ c2 (ex_intro _ r2 (conj E2 H2)))) Hfu) as H.
    rewrite !length_app in *. rewrite Nat.add_assoc. exact H. }
  rewrite Hback by (rewrite !length_app; lia).
  rewrite decide_False by (rewrite Hq, length_app; lia). unfold view_between.
  do 2 f_equal; rewrite ?Hq; cbn [length]; lia.
Qed.

Lemma whitespace_no_lf w : whitespace w -> no_crlf w.
Proof. intros H. eapply Forall_impl; [exact H|]. intros b Hb ->. vm_compute in Hb. done. Qed.

Lemma field_content_no_lf f : field_wf f -> no_crlf (field_content f).
Proof.
  intros (_ & Hn & Hb & Ha & _ & Hv). unfold field_content, no_crlf in *.
  apply Forall_app. split; [eapply Forall_impl; [exact Hn|]; by intros b (_ & _ & ? & _)|].
  constructor; [done|]. apply Forall_app. split; [by apply whitespace_no_lf|].
  apply Forall_app. split; [done|]. by apply whitespace_no_lf.
Qed.

Lemma field_name_plain f : field_wf f -> existsb isWhitespace (fd_name f) = false.
Proof.
  intros (_ & Hn & _). apply not_true_is_false. rewrite existsb_exists. intros (b & Hb & Hw).
  rewrite Forall_forall in Hn. apply list_elem_of_In, Hn in Hb as (_ & _ & _ & ?). congruence.
Qed.

Lemma search_crlf_spec p c r :
  no_crlf c -> search_crlf (p ++ c ++ CRLF ++ r) (length p) = (length p + length c)%nat.
Proof. intros Hc. unfold search_crlf. by rewrite drop_app_length, SearchCRLF_app. Qed.

Definition lines_of (fs : list Field) : bytes := concat (map field_line fs).

Lemma header_lines_spec fr allowed max a fs r fuel p slots l l' :
  Forall field_wf fs -> layout fr (length a) p slots l -> values_nonempty l ->
  merge_fields allowed l fs = Some l' ->
  (length fs < fuel)%nat -> Z.of_nat (length a + length p + length (lines_of fs)) <= max ->
  exists p' slots',
    header_lines fuel max allowed (a ++ p ++ lines_of fs ++ CRLF ++ r) slots (length a + length p)
    = Some (LinesEnd (a ++ p' ++ CRLF ++ r) slots' (length a + length p'))
    /\ layout fr (length a) p' slots' l' /\ length p' = (length p + length (lines_of fs))%nat.
Proof.
  intros Hwf. revert fuel p slots l. induction Hwf as [|f fs Hf Hwf IH]; intros fuel p slots l Hp Hl Hm Hfu Hmax;
    (destruct fuel as [|fuel]; [cbn in Hfu; lia|]); cbn [header_lines].
  - injection Hm as ->. exists p, slots. change (lines_of []) with (@nil Z) in *. cbn [app length].
    rewrite decide_True by (rewrite !length_app; cbn; lia).
    pose proof (search_crlf_spec (a ++ p) [] r ltac:(constructor)) as Hs.
    rewrite length_app, <- app_assoc in Hs. cbn [app length] in Hs. rewrite Nat.add_0_r in Hs |- *.
    rewrite Hs, decide_False by (rewrite !length_app; cbn; lia). by rewrite decide_True.
  - cbn in Hm, Hfu. destruct (add_field allowed l (fd_name f) (fd_value f)) as [l1|] eqn:Ea; [|done].
    change (lines_of (f :: fs)) with (field_line f ++ lines_of fs) in *.
    rewrite length_app in Hmax. unfold field_line in *. rewrite length_app in Hmax.
    change (length CRLF) with 2%nat in *.
    set (c := field_content f) in *. set (R := lines_of fs ++ CRLF ++ r).
    assert (Hbuf : a ++ p ++ ((c ++ CRLF) ++ lines_of fs) ++ CRLF ++ r = (a ++ p) ++ c ++ CRLF ++ R)
      by (unfold R; by rewrite <- !app_assoc).
    assert (Hc0 : (0 < length c)%nat) by (unfold c, field_content; rewrite length_app; cbn; lia).
    rewrite Hbuf, <- length_app, search_crlf_spec by by apply field_content_no_lf.
    assert (HlR : (length ((a ++ p) ++ c ++ CRLF ++ R) = length (a ++ p) + length c + 2 + length R)%nat)
      by (rewrite !length_app; cbn; lia).
    rewrite decide_True by lia. rewrite decide_False by lia. rewrite decide_False by lia.
    change (length CRLF) with 2%nat.
    rewrite (proj2 (Z.ltb_ge _ _)) by (rewrite length_app; lia).
    pose proof (ParseHeaderLine_spec (a ++ p) f (CRLF ++ R) Hf) as Hph. fold c in Hph. rewrite Hph.
    assert (Hname : view_of ((a ++ p) ++ c ++ CRLF ++ R) (MkView (length (a ++ p)) (length (fd_name f)))
                    = fd_name f).
    { apply (view_at _ (a ++ p) _ ((58 :: fd_before f ++ fd_value f ++ fd_after f) ++ CRLF ++ R)); [|done..].
      unfold c, field_content. by rewrite <- !app_assoc. }
    rewrite Hname, field_name_plain by done.
    pose proof Hf as (Hn & _ & _ & _ & [(c1 & r1 & E1 & _) _] & _).
    assert (Hv : fd_value f <> []) by (by rewrite E1).
    cbn [v_len]. rewrite (proj2 (Nat.eqb_neq _ 0)) by (destruct (fd_name f); [done|cbn; lia]). cbn [orb].
    destruct (AddOrMerge_spec fr allowed a p slots l l1 (fd_name f) (58 :: fd_before f) (fd_value f)
                (fd_after f ++ CRLF) R) as (p1 & slots1 & E & Hp1 & Hl1);
      [done|done|done|by destruct (fd_after f)|cbn; lia|done|].
    assert (Hline : fd_name f ++ (58 :: fd_before f) ++ fd_value f ++ fd_after f ++ CRLF = c ++ CRLF).
    { unfold c, field_content. by app_simpl. }
    rewrite Hline in E, Hl1. rewrite <- (app_assoc c), app_assoc, <- length_app in E. rewrite E.
    rewrite length_app in Hl1. change (length CRLF) with 2%nat in *.
    destruct (IH fuel p1 slots1 l1) as (p2 & slots2 & E2 & Hp2 & Hl2);
      [done|by apply (add_field_nonempty allowed l (fd_name f) (fd_value f))|done|lia|lia|].
    exists p2, slots2. split_and!; [|done|rewrite Hl2, Hl1, !length_app; cbn; lia].
    rewrite <- E2. f_equal. rewrite length_app. lia.
Qed.

(** ** The target *)

Definition query_part (q : option bytes) : bytes :=
  match q with Some q => 63 :: q | None => [] end.

Definition target_of (p : bytes) (q : option bytes) : bytes := p ++ query_part q.

(** The bytes of the target after decoding: the path, what is left of its escapes, the
    decoded query, what is left of it. *)
Definition target_decoded (d x : bytes) (q : option bytes) (y : bytes) : bytes :=
  d ++ x ++ match q with Some q => 63 :: query_decoded q ++ y | None => [] end.

Definition query_view (o : nat) (p : bytes) (q : option bytes) : View :=
  match q with Some q => MkView (S (o + length p)) (length (query_decoded q)) | None => MkView 0 0 end.

Lemma decodePath_spec a p q b d r :
  free_of 63 p -> percent_decode 43 true p = Some d -> d <> [] ->
  exists x y, (length d + length x)%nat = length p
    /\ (length (target_decoded d x q y) = length (target_of p q))%nat
    /\ decodePath (a ++ target_of p q ++ b) (length a) (length a + length (target_of p q)) r
       = Some (true, a ++ target_decoded d x q y ++ b,
               set_path (MkView (length a) (length d)) (set_query (query_view (length a) p q) r)).
Proof.
  intros Hp Hd Hne. unfold decodePath, target_of, target_decoded, query_view.
  assert (Hlen : (0 < length d)%nat) by (destruct d; [done|cbn; lia]).
  assert (Hfind : std_find 63 (a ++ (p ++ query_part q) ++ b) (length a)
                    (length a + length (p ++ query_part q)) = (length a + length p)%nat).
  { rewrite length_app, <- app_assoc, Nat.add_assoc. apply std_find_spec; [done|].
    destruct q; [right; by eexists|by left]. }
  rewrite Hfind, length_app.
  assert (Hdec : forall t, DecodeInPlace 43 true (a ++ p ++ t) (length a) (length a + length p)
    = (a ++ d ++ drop (length d) p ++ t, Some (length a + length d)%nat) /\ (length d <= length p)%nat).
  { intros t. pose proof (DecodeInPlace_spec 43 true a t p) as H. unfold decode_result in H.
    rewrite Hd in H. exact H. }
  destruct q as [q|]; cbn [query_part].
  - rewrite decide_False by (cbn; lia).
    destruct (DecodeQueryParamsInPlace_spec (a ++ p ++ [63]) q b) as (y & E & Hy).
    rewrite !length_app, <- !app_assoc in E. cbn [length app] in *.
    replace (length a + (length p + 1))%nat with (S (length a + length p)) in E by lia.
    replace (length a + (length p + S (length q)))%nat
      with (S (length a + length p) + length q)%nat by lia.
    rewrite <- app_assoc. cbn [app]. rewrite E. destruct (Hdec (63 :: query_decoded q ++ y ++ b)) as [-> Hle].
    rewrite decide_False by lia. exists (drop (length d) p), y. rewrite length_drop. split; [lia|].
    split.
    { rewrite !length_app, length_drop. cbn [length]. rewrite length_app. lia. }
    do 2 f_equal; [f_equal; rewrite <- !app_assoc; cbn [app]; by rewrite <- app_assoc|].
    unfold view_between. do 2 f_equal; [f_equal; lia|]. do 2 f_equal. lia.
  - cbn [length]. rewrite decide_True by lia. rewrite app_nil_r.
    destruct (Hdec b) as [-> Hle]. rewrite decide_False by lia.
    exists (drop (length d) p), []. rewrite length_drop. split; [lia|].
    split; [rewrite !length_app, length_drop; cbn; lia|].
    do 2 f_equal; [f_equal; by rewrite app_nil_r, <- app_assoc|].
    unfold view_between. do 2 f_equal. lia.
Qed.

(** ** Whole heads *)

Definition version_text (minor : Z) : bytes := str "HTTP/1." ++ [48 + minor].

Definition request_line (m : Method) (target : bytes) (minor : Z) : bytes :=
  MethodToStr m ++ 32 :: target ++ 32 :: version_text minor.

Definition request_head (m : Method) (target : bytes) (minor : Z) (fs : list Field) : bytes :=
  request_line m target minor ++ CRLF ++ lines_of fs ++ CRLF.

Definition target_char (b : Z) : Prop := b <> 32 /\ b <> 10.

Lemma Version_of_text minor :
  minor = 0 \/ minor = 1 -> Version_of (version_text minor) = Z.lor (Z.shiftl 1 4) minor.
Proof. intros [-> | ->]; vm_compute; reflexivity. Qed.

Lemma MethodStr_roundtrip m : MethodStrToOptEnum (MethodToStr m) = Some m.
Proof. destruct m; vm_compute; reflexivity. Qed.

Lemma MethodToStr_plain m : Forall target_char (MethodToStr m) /\ (3 <= length (MethodToStr m))%nat.
Proof. destruct m; (split; [repeat constructor; done|cbn; lia]). Qed.

Lemma request_line_no_lf m target minor :
  Forall target_char target -> minor = 0 \/ minor = 1 -> no_crlf (request_line m target minor).
Proof.
  intros Ht Hm. assert (Hw : forall l, Forall target_char l -> no_crlf l).
  { intros l Hl. eapply Forall_impl; [exact Hl|]. by intros ? []. }
  unfold request_line, no_crlf in *. apply Forall_app. split; [apply Hw, MethodToStr_plain|].
  constructor; [done|]. apply Forall_app. split; [by apply Hw|]. constructor; [done|].
  destruct Hm as [-> | ->]; repeat constructor; done.
Qed.

Lemma length_lines_of fs : Forall field_wf fs -> (length fs <= length (lines_of fs))%nat.
Proof.
  induction 1 as [|f fs Hf Hfs IH]; [done|]. change (lines_of (f :: fs)) with (field_line f ++ lines_of fs).
  rewrite length_app. unfold field_line. rewrite length_app. cbn. lia.
Qed.

Lemma parse_header_section_spec allowed max line fs merged rest r :
  Forall field_wf fs -> merge_fields allowed [] fs = Some merged ->
  Z.of_nat (length line + 2 + length (lines_of fs)) <= max ->
  exists p slots,
    parse_header_section max allowed (line ++ CRLF ++ lines_of fs ++ CRLF ++ rest) (length line) r
    = Some (StatusCodeOK, line ++ p ++ CRLF ++ rest,
            head_complete (length line + length p + 2) (set_headers slots r))
    /\ layout false (length line) p slots merged /\ length p = (2 + length (lines_of fs))%nat.
Proof.
  intros Hwf Hm Hmax. unfold parse_header_section.
  rewrite decide_False by (rewrite !length_app; cbn; lia).
  destruct (header_lines_spec false allowed max line fs rest
              (length (line ++ CRLF ++ lines_of fs ++ CRLF ++ rest)) CRLF [] [] merged)
    as (p & slots & E & Hp & Hl); [done|by constructor|constructor|done| |cbn; lia|].
  { pose proof (length_lines_of fs Hwf). rewrite !length_app. cbn. lia. }
  change (length CRLF) with 2%nat in *. rewrite E. exists p, slots. split_and!; [done..|exact Hl].
Qed.

(** The request line with its target decoded in place. *)
Definition decoded_line (m : Method) (t : bytes) (minor : Z) : bytes :=
  MethodToStr m ++ 32 :: t ++ 32 :: version_text minor.

Lemma length_request_line m t minor :
  minor = 0 \/ minor = 1 ->
  length (request_line m t minor) = (length (MethodToStr m) + length t + 10)%nat.
Proof.
  intros Hm. unfold request_line. rewrite length_app. cbn [length]. rewrite length_app.
  destruct Hm as [-> | ->]; cbn; lia.
Qed.

Lemma std_find_head x s c t b :
  free_of c s ->
  std_find c (x ++ s ++ (c :: t) ++ b) (length x) (length x + length s + S (length t))
  = (length x + length s)%nat.
Proof. intros Hs. apply (std_find_spec c x s (c :: t) b Hs). right. by eexists. Qed.

Section RequestLine.
Context (m : Method) (p : bytes) (q : option bytes) (d : bytes) (minor : Z).
Hypothesis Ht : Forall target_char (target_of p q).
Hypothesis Hq : free_of 63 p.
Hypothesis Hd : percent_decode 43 true p = Some d.
Hypothesis Hne : d <> [].
Hypothesis Hmin : minor = 0 \/ minor = 1.

Let line := request_line m (target_of p q) minor.
Let o := S (length (MethodToStr m)).

Lemma request_line_parsed tail max allowed r :
  exists x y,
    let line' := decoded_line m (target_decoded d x q y) minor in
    (length d + length x)%nat = length p
    /\ length line' = length line
    /\ initTrySetHead (line ++ CRLF ++ tail) max allowed r
       = parse_header_section max allowed (line' ++ CRLF ++ tail) (length line)
           (set_version (Z.lor (Z.shiftl 1 4) minor)
             (set_path (MkView o (length d)) (set_query (query_view o p q) (set_method m r)))).
Proof using Ht Hq Hd Hne Hmin.
  set (M := MethodToStr m) in *. set (T := target_of p q) in *.
  destruct (MethodToStr_plain m) as [Hmp Hml]. fold M in Hmp, Hml.
  pose proof (length_request_line m T minor Hmin) as Hll. fold line M in Hll.
  assert (Hfree : forall l, Forall target_char l -> free_of 32 l).
  { intros l Hl. eapply Forall_impl; [exact Hl|]. by intros ? []. }
  assert (Hv8 : length (version_text minor) = 8%nat) by (by destruct Hmin as [-> | ->]).
  set (buf := line ++ CRLF ++ tail).
  assert (Hbuf : buf = M ++ (32 :: T ++ 32 :: version_text minor) ++ CRLF ++ tail).
  { unfold buf, line, request_line. fold M. by app_simpl. }
  assert (Hbuf2 : buf = (M ++ [32]) ++ T ++ (32 :: version_text minor) ++ CRLF ++ tail).
  { rewrite Hbuf. by app_simpl. }
  assert (Hf1 : std_find 32 buf 0 (length line) = length M).
  { rewrite Hbuf. pose proof (std_find_head [] M 32 (T ++ 32 :: version_text minor) (CRLF ++ tail)
      (Hfree M Hmp)) as H. cbn [length] in H. rewrite length_app in H. cbn [length] in H.
    rewrite Hll. rewrite Hv8 in H. cbn [app] in H |- *.
    replace (length M + length T + 10)%nat with (0 + length M + S (length T + 9))%nat by lia. exact H. }
  assert (Ho : o = length (M ++ [32])) by (unfold o; rewrite length_app; fold M; cbn; lia).
  assert (Hf2 : std_find 32 buf o (length line) = (o + length T)%nat).
  { rewrite Hbuf2, Ho. pose proof (std_find_head (M ++ [32]) T 32 (version_text minor) (CRLF ++ tail)
      (Hfree T Ht)) as H. rewrite Hv8 in H. rewrite Hll.
    replace (length M + length T + 10)%nat with (length (M ++ [32%Z]) + length T + 9)%nat
      by (rewrite length_app; cbn; lia). exact H. }
  destruct (decodePath_spec (M ++ [32]) p q ((32 :: version_text minor) ++ CRLF ++ tail) d (set_method m r)
              Hq Hd Hne) as (x & y & Hx & Hl & E). fold T in Hl, E. rewrite <- Ho, <- Hbuf2 in E.
  exists x, y. set (line' := decoded_line m (target_decoded d x q y) minor).
  assert (Hline' : line' ++ CRLF ++ tail
    = (M ++ [32]) ++ target_decoded d x q y ++ (32 :: version_text minor) ++ CRLF ++ tail).
  { unfold line', decoded_line. fold M. by app_simpl. }
  split; [done|]. split; [unfold line'; rewrite (length_request_line m (target_decoded d x q y)) by done; fold M; lia|].
  unfold initTrySetHead.
  pose proof (search_crlf_spec [] line tail (request_line_no_lf m T minor Ht Hmin)) as Hs.
  cbn [app length Nat.add] in Hs. fold buf in Hs. rewrite Hs.
  rewrite decide_False by (unfold buf; rewrite !length_app; cbn; lia).
  assert (HT1 : (1 <= length T)%nat).
  { unfold T, target_of. destruct p; [by injection Hd as <-|cbn; lia]. }
  rewrite decide_False by (change (kHttpReqLineMinLen - length CRLF)%nat with 14%nat; lia).
  rewrite Hf1, decide_False by lia.
  rewrite Hbuf, take_app_length, <- Hbuf. unfold M at 1. rewrite MethodStr_roundtrip.
  fold o. rewrite Hf2, E.
  assert (Hver : view_of ((M ++ [32]) ++ target_decoded d x q y ++ (32 :: version_text minor) ++ CRLF ++ tail)
                   (view_between (S (o + length T)) (length line)) = version_text minor).
  { apply (view_at _ ((M ++ [32]) ++ target_decoded d x q y ++ [32]) _ (CRLF ++ tail)).
    - by app_simpl.
    - cbn. rewrite !length_app in *. cbn [length] in *. lia.
    - cbn. unfold o in *. fold M in Hll |- *. lia. }
  rewrite Hver, Version_of_text by done. rewrite Hline'.
  destruct Hmin as [-> | ->]; reflexivity.
Qed.
End RequestLine.

(** C15: A well-formed head, alone or followed by a body, is parsed in one pass: method,
    version, path and query are those of the request line, repeated headers are merged, the
    head ends where it ends, and the bytes after it are not touched. *)
Theorem head_parsed_exact m p q d minor fs merged rest max allowed r :
  Forall target_char (target_of p q) -> free_of 63 p ->
  percent_decode 43 true p = Some d -> d <> [] -> minor = 0 \/ minor = 1 ->
  Forall field_wf fs -> merge_fields allowed [] fs = Some merged ->
  zlen (request_head m (target_of p q) minor fs) <= max ->
  exists buf' r',
    initTrySetHead (request_head m (target_of p q) minor fs ++ rest) max allowed r
      = Some (StatusCodeOK, buf', r')
    /\ rq_method r' = m /\ rq_version r' = Z.lor (Z.shiftl 1 4) minor
    /\ path buf' r' = d
    /\ view_of buf' (rq_decodedQueryParams r') = from_option query_decoded [] q
    /\ map (read_slot buf') (rq_headers r') = merged
    /\ rq_headSpanSize r' = length (request_head m (target_of p q) minor fs)
    /\ drop (rq_headSpanSize r') buf' = rest.
Proof.
  intros Ht Hq Hd Hne Hmin Hfs Hm Hmax.
  destruct (request_line_parsed m p q d minor Ht Hq Hd Hne Hmin (lines_of fs ++ CRLF ++ rest) max allowed r)
    as (x & y & Hx & Hl & E).
  set (line := request_line m (target_of p q) minor) in *.
  set (line' := decoded_line m (target_decoded d x q y) minor) in *.
  assert (Hhl : length (request_head m (target_of p q) minor fs)
                = (length line' + 2 + length (lines_of fs) + 2)%nat).
  { unfold request_head. fold line. rewrite !length_app. cbn. lia. }
  destruct (parse_header_section_spec allowed max line' fs merged rest
    (set_version (Z.lor (Z.shiftl 1 4) minor)
       (set_path (MkView (S (length (MethodToStr m))) (length d))
          (set_query (query_view (S (length (MethodToStr m))) p q) (set_method m r)))) Hfs Hm)
    as (P & slots & E2 & HP & HlP); [unfold zlen in Hmax; lia|].
  rewrite Hl in E2. rewrite <- E in E2.
  eexists _, _. split.
  { rewrite <- E2. f_equal. unfold request_head. fold line. by app_simpl. }
  split; [done|]. split; [done|].
  assert (Hpath : line' ++ P ++ CRLF ++ rest
    = (MethodToStr m ++ [32]) ++ d ++ x ++ match q with Some q => 63 :: query_decoded q ++ y | None => [] end
      ++ (32 :: version_text minor) ++ P ++ CRLF ++ rest).
  { unfold line', decoded_line, target_decoded. by app_simpl. }
  split; [|split; [|split; [|split]]].
  - change (view_of (line' ++ P ++ CRLF ++ rest) (MkView (S (length (MethodToStr m))) (length d)) = d).
    rewrite Hpath. apply (view_at _ (MethodToStr m ++ [32]) _ _ _ eq_refl); [|done].
    rewrite length_app. cbn. lia.
  - change (view_of (line' ++ P ++ CRLF ++ rest) (query_view (S (length (MethodToStr m))) p q)
            = from_option query_decoded [] q).
    rewrite Hpath. clear -Hx. destruct q as [q|]; [|done]. cbn [from_option query_view].
    apply (view_at _ ((MethodToStr m ++ [32]) ++ d ++ x ++ [63]) _
             (y ++ (32 :: version_text minor) ++ P ++ CRLF ++ rest)).
    + by app_simpl.
    + cbn. rewrite !length_app. cbn. lia.
    + done.
  - change (map (read_slot (line' ++ P ++ CRLF ++ rest)) slots = merged). by eapply layout_read.
  - change ((length line + length P + 2)%nat = length (request_head m (target_of p q) minor fs)). lia.
  - change (drop (length line + length P + 2) (line' ++ P ++ CRLF ++ rest) = rest).
    rewrite !app_assoc. apply drop_app_length'. rewrite !length_app. cbn. lia.
Qed.

(** A test for well-formed fields. *)
Definition field_wfb (f : Field) : bool :=
  match fd_name f, fd_value f, rev (fd_value f) with
  | _ :: _, c :: _, c' :: _ =>
      forallb (fun b => bool_decide (byte_ok b) && negb (b =? 58) && negb (b =? 10)
                        && negb (isWhitespace b)) (fd_name f)
      && forallb isWhitespace (fd_before f) && forallb isWhitespace (fd_after f)
      && negb (isWhitespace c) && negb (isWhitespace c')
      && forallb (fun b => negb (b =? 10)) (fd_value f)
  | _, _, _ => false
  end.

Lemma forallb_impl {A} (f : A -> bool) (P : A -> Prop) l :
  (forall x, f x = true -> P x) -> forallb f l = true -> Forall P l.
Proof. intros H. induction l; cbn; [constructor|]. intros [? ?]%andb_true_iff. constructor; auto. Qed.

Lemma field_wfb_ok f : field_wfb f = true -> field_wf f.
Proof.
  destruct f as [n b v a]. unfold field_wfb, field_wf. cbn [fd_name fd_before fd_value fd_after].
  destruct n as [|n0 n]; [done|]. destruct v as [|c v]; [done|].
  destruct (rev (c :: v)) as [|c' v'] eqn:E; [done|].
  intros [[[[[Hn Hb]%andb_true_iff Ha]%andb_true_iff Hc]%andb_true_iff Hc']%andb_true_iff Hv]%andb_true_iff.
  split_and!; [done|..].
  - eapply forallb_impl; [|exact Hn]. intros x. rewrite !andb_true_iff, bool_decide_eq_true, !negb_true_iff, !Z.eqb_neq.
    intros [[[? ?] ?] ?]. by split_and!.
  - by eapply forallb_impl; [|exact Hb].
  - by eapply forallb_impl; [|exact Ha].
  - split; [by exists c, v; apply negb_true_iff in Hc|]. exists c', (rev v').
    apply negb_true_iff in Hc'. split; [|done]. rewrite <- (rev_involutive (c :: v)), E. done.
  - eapply forallb_impl; [|exact Hv]. intros x. by rewrite negb_true_iff, Z.eqb_neq.
Qed.

Definition sample_fields : list Field :=
  [ MkField (str "Host") (str " ") (str "h") []; MkField (str "Accept") (str " ") (str "a/b") [];
    MkField (str "x-k") [] (str "1") (str " "); MkField (str "ACCEPT") (str " ") (str "c/d") [] ].

Definition empty_request : HttpRequestView :=
  MkRequest GET 0 (MkView 0 0) (MkView 0 0) [] [] [] 0 Undecided false.

Lemma head_parsed_exact_witness :
  exists buf' r',
    initTrySetHead (request_head POST (target_of (str "/a%20b") (Some (str "x=1%21"))) 1 sample_fields
                    ++ str "body") 8192 true empty_request = Some (StatusCodeOK, buf', r')
    /\ rq_method r' = POST /\ rq_version r' = Z.lor (Z.shiftl 1 4) 1
    /\ path buf' r' = str "/a b"
    /\ view_of buf' (rq_decodedQueryParams r') = from_option query_decoded [] (Some (str "x=1%21"))
    /\ map (read_slot buf') (rq_headers r')
       = [(str "Host", str "h"); (str "Accept", str "a/b,c/d"); (str "x-k", str "1")]
    /\ rq_headSpanSize r'
       = length (request_head POST (target_of (str "/a%20b") (Some (str "x=1%21"))) 1 sample_fields)
    /\ drop (rq_headSpanSize r') buf' = str "body".
Proof.
  assert (Hc : forall l, forallb (fun b => negb (b =? 32) && negb (b =? 10) && negb (b =? 63)) l = true ->
    Forall target_char l /\ free_of 63 l).
  { intros l. induction l as [|b l IH]; [by repeat constructor|]. cbn.
    intros H. apply andb_true_iff in H as [H Hl]. destruct (IH Hl).
    split; constructor; try done; [split|]; intros ->; done. }
  apply (head_parsed_exact POST (str "/a%20b") (Some (str "x=1%21")) (str "/a b") 1 sample_fields).
  - unfold target_of. apply Forall_app. split; [by apply (Hc (str "/a%20b"))|].
    constructor; [by split|]. by apply (Hc (str "x=1%21")).
  - by apply (Hc (str "/a%20b")).
  - vm_compute. reflexivity.
  - done.
  - by right.
  - apply (forallb_impl field_wfb); [apply field_wfb_ok|vm_compute; reflexivity].
  - vm_compute. reflexivity.
  - vm_compute. discriminate.
Defined.

(** ** Redirections *)

Lemma redirect_target_spec d kvs :
  redirect_target d kvs
  = target_of (URLEncode IsPathSafe d)
      (match kvs with [] => None | _ => Some (join 38 (map encoded_pair kvs)) end).
Proof.
  unfold redirect_target, target_of, AppendUrlEncodedPath. cbn [app].
  set (step := fun '(url, querySep) '(key, value) =>
         (AppendUrlEncodedQueryParam url querySep key value, 38) : bytes * Z).
  assert (H : forall kvs url c, kvs <> [] ->
    fst (List.fold_left step kvs (url, c)) = url ++ c :: join 38 (map encoded_pair kvs)).
  { clear. induction kvs as [|[k v] kvs IH]; [done|]. intros url c _. cbn [List.fold_left map join].
    destruct kvs as [|kv kvs]; [done|].
    cbn [step]. rewrite IH by done. unfold AppendUrlEncodedQueryParam. cbn [map].
    change (encoded_pair (k, v)) with (URLEncode IsUnreserved k ++ 61 :: URLEncode IsUnreserved v).
    by app_simpl. }
  destruct kvs as [|kv kvs]; [cbn; by rewrite app_nil_r|]. by apply H.
Qed.

(** C38: The location of an HTTP to HTTPS redirection names the same resource: the request for
    its target has the same decoded path and the same query parameters, in order. *)
Theorem redirect_keeps_target a b d kvs r :
  bytes_ok d -> d <> [] -> Forall param_ok kvs -> Forall param_plain kvs ->
  let t := redirect_target d kvs in
  exists buf' r',
    decodePath (a ++ t ++ b) (length a) (length a + length t) r = Some (true, buf', r')
    /\ path buf' r' = d /\ queryParams buf' r' = kvs.
Proof.
  intros Hd Hne Hok Hplain t. unfold t. rewrite redirect_target_spec.
  set (q := match kvs with [] => None | _ => Some (join 38 (map encoded_pair kvs)) end).
  assert (Hfree : free_of 63 (URLEncode IsPathSafe d)).
  { apply URLEncode_chars; [done| |done|]; intros ch Hch ->; vm_compute in Hch; done. }
  destruct (decodePath_spec a _ q b d r Hfree
              (percent_decode_URLEncode 43 true IsPathSafe d verbatim_path Hd) Hne)
    as (x & y & Hx & Hl & E).
  eexists _, _. split; [exact E|]. split.
  - unfold path, target_decoded. apply (view_at _ a _ (x ++ match q with
      | Some q => 63 :: query_decoded q ++ y | None => [] end ++ b)); [by app_simpl|done..].
  - unfold queryParams. cbn [rq_decodedQueryParams set_path set_query query_view].
    subst q. destruct kvs as [|kv kvs]; [done|]. set (k := kv :: kvs) in *.
    cbn [query_view v_off v_len]. unfold target_decoded.
    rewrite query_decoded_encoded by done.
    pose proof (queryParamsRange_spec (a ++ d ++ x ++ [63]) k (y ++ b) Hplain) as H. cbv zeta in H.
    etransitivity; [|exact H]. f_equal; [by app_simpl|]. rewrite !length_app. cbn [length]. lia.
Qed.

Lemma redirect_keeps_target_witness :
  let t := redirect_target (str "/a b%") [(str "k&", str "1+2"); (str "", str "=")] in
  exists buf' r',
    decodePath (str "GET " ++ t ++ str " HTTP/1.1") 4 (4 + length t) empty_request
      = Some (true, buf', r')
    /\ path buf' r' = str "/a b%"
    /\ queryParams buf' r' = [(str "k&", str "1+2"); (str "", str "=")].
Proof.
  apply (redirect_keeps_target (str "GET ") (str " HTTP/1.1") (str "/a b%")
           [(str "k&", str "1+2"); (str "", str "=")] empty_request).
  - repeat constructor; done.
  - done.
  - repeat constructor; done.
  - repeat constructor; done.
Defined.

(** ** What happens when a head does not arrive at once

    The server parses the buffer again, from its start, when a head was incomplete or its
    body had not arrived.  The first parse has already decoded the target and moved the
    headers, so the second one reads other bytes. *)

Definition parse (buf : bytes) : option parsed := initTrySetHead buf 8192 true empty_request.

Definition status_of (x : option parsed) : option Z := (fun '(status, _, _) => status) <$> x.
Definition path_of (x : option parsed) : option bytes := (fun '(_, buf, r) => path buf r) <$> x.

(** The parse of [first], then of the buffer it leaves with [second] received. *)
Definition parse_twice (first second : bytes) : option parsed :=
  match parse first with
  | Some (_, buf, r) => initTrySetHead (buf ++ second) 8192 true r
  | None => None
  end.

Definition line_crlf (s : string) : bytes := str s ++ CRLF.

Lemma split_head_rejected :
  status_of (parse (line_crlf "GET /a%20b HTTP/1.1" ++ CRLF)) = Some StatusCodeOK
  /\ status_of (parse (line_crlf "GET /a%20b HTTP/1.1")) = Some kStatusNeedMoreData
  /\ status_of (parse_twice (line_crlf "GET /a%20b HTTP/1.1") CRLF) = Some StatusCodeBadRequest.
Proof. by vm_compute. Qed.

Lemma split_head_decoded_twice :
  path_of (parse (line_crlf "GET /%2541 HTTP/1.1" ++ CRLF)) = Some (str "/%41")
  /\ path_of (parse_twice (line_crlf "GET /%2541 HTTP/1.1") CRLF) = Some (str "/A41").
Proof. by vm_compute. Qed.

(** A complete head whose body is late: repeated headers were already merged. *)
Lemma late_body_rejected :
  let head := line_crlf "POST / HTTP/1.1" ++ line_crlf "A: 1" ++ line_crlf "A: 2"
              ++ line_crlf "Content-Length: 1" ++ CRLF in
  status_of (parse head) = Some StatusCodeOK
  /\ status_of (parse_twice head (str "x")) = Some StatusCodeBadRequest.
Proof. by vm_compute. Qed.

(** Encoded separators make parameters of their own. *)
Lemma separators_injected :
  match parse (line_crlf "GET /?a=1%00admin%1Ftrue HTTP/1.1" ++ CRLF) with
  | Some (_, buf, r) => queryParams buf r
  | None => []
  end = [(str "a", str "1"); (str "admin", str "true")].
Proof. by vm_compute. Qed.

(** An empty pair is glued to the next key. *)
Lemma empty_pair_glued :
  match parse (line_crlf "GET /?a=1&&b=2 HTTP/1.1" ++ CRLF) with
  | Some (_, buf, r) => queryParams buf r
  | None => []
  end = [(str "a", str "1"); (0 :: str "b", str "2")].
Proof. by vm_compute. Qed.

(** The name of the protocol is not looked at. *)
Lemma any_protocol_name : status_of (parse (line_crlf "GET / XXXXX1.1" ++ CRLF)) = Some StatusCodeOK.
Proof. by vm_compute. Qed.

(** After an empty first value is replaced, a merge into another header corrupts it. *)
Lemma replaced_value_corrupted :
  match parse (line_crlf "GET / HTTP/1.1" ++ line_crlf "H:" ++ line_crlf "K: k" ++ line_crlf "H: vvv"
               ++ line_crlf "K: kkkk" ++ CRLF) with
  | Some (_, buf, r) => headerValue buf r (str "H")
  | None => None
  end = Some [13; 10; 72].
Proof. by vm_compute. Qed.
