(* ===== verification/Http1Body.v ===== *)
(** Bodies of HTTP/1 requests (server/http-parser.cpp, objects/reserved-headers.hpp): fixed
    length and chunked transfer coding with trailers.

    Offsets into the connection buffer and chunk sizes are [size_t] values, with their
    wrap-around.  Decompression is a third party's code: the result of
    [HttpCodec::WillDecompress] and the function [DecompressChunkedBody] are parameters.

    [None] is undefined behaviour: bytes read past the end of the buffer, a header line of the
    trailers that does not end, or one without a colon, whose value would be a range that ends
    before it starts. *)

From S2P Require Import Prelude.
From S2P Require Import AsciiCase.
From S2P Require Import HeadersView.
From S2P Require Import UrlCodec.
From S2P Require Import Http1Request.
Local Open Scope Z_scope.

Inductive BodyDecodeStatus := Ready | NeedMore | Error.

(** The part of the connection that body decoding reads and writes.  [hc_queued] holds the
    bytes queued for the peer, [hc_error] the status of [emitSimpleError]. *)
Record HttpConnection := MkHttpConnection {
  hc_inBuffer : bytes;
  hc_request : HttpRequestView;
  hc_bodyAndTrailers : bytes;
  hc_trailerLen : nat;
  hc_queued : bytes;
  hc_error : option Z
}.

Definition with_request r c := MkHttpConnection (hc_inBuffer c) r (hc_bodyAndTrailers c)
  (hc_trailerLen c) (hc_queued c) (hc_error c).
Definition with_body_buffer b n c := MkHttpConnection (hc_inBuffer c) (hc_request c) b n
  (hc_queued c) (hc_error c).
Definition queueData d c := MkHttpConnection (hc_inBuffer c) (hc_request c) (hc_bodyAndTrailers c)
  (hc_trailerLen c) (hc_queued c ++ d) (hc_error c).
Definition emitSimpleError s c := MkHttpConnection (hc_inBuffer c) (hc_request c)
  (hc_bodyAndTrailers c) (hc_trailerLen c) (hc_queued c) (Some s).

Definition HTTP11_100_CONTINUE : bytes := str "HTTP/1.1 100 Continue" ++ CRLF ++ CRLF.

(** A step: the status, the consumed bytes and the connection. *)
Abbreviation decoded := (BodyDecodeStatus * Z * HttpConnection)%type.

Definition fail (s : Z) (c : HttpConnection) : decoded := (Error, 0, emitSimpleError s c).

(** ** Fixed length *)

(** [std::from_chars] on the whole text as a [size_t]. *)
Fixpoint digits_value (acc : Z) (l : bytes) : option Z :=
  match l with
  | [] => Some acc
  | c :: l => if (48 <=? c) && (c <=? 57) then digits_value (acc * 10 + (c - 48)) l else None
  end.

Definition from_chars_size (l : bytes) : option Z :=
  match l with
  | [] => None
  | _ =>
      match digits_value 0 l with
      | Some v => if v <? 2 ^ 64 then Some v else None
      | None => None
      end
  end.

Definition decodeFixedLengthBody (expectContinue : bool) (maxBodyBytes : Z) (c : HttpConnection)
  : decoded :=
  let c := with_body_buffer (hc_bodyAndTrailers c) 0 c in
  let request := hc_request c in
  let headerEnd := Z.of_nat (rq_headSpanSize request) in
  match headerValue (hc_inBuffer c) request (str "content-length") with
  | None => (Ready, headerEnd, with_request (set_body [] request) c)
  | Some lenViewAll =>
      match from_chars_size lenViewAll with
      | None => fail StatusCodeBadRequest c
      | Some declaredContentLen =>
          if maxBodyBytes <? declaredContentLen then fail StatusCodePayloadTooLarge c
          else
            let c := if expectContinue && (0 <? declaredContentLen)
                     then queueData HTTP11_100_CONTINUE c else c in
            let totalNeeded := u64 (headerEnd + declaredContentLen) in
            if zlen (hc_inBuffer c) <? totalNeeded then (NeedMore, 0, c)
            else (Ready, totalNeeded,
                  with_request (set_body (subspan headerEnd declaredContentLen (hc_inBuffer c)) request) c)
      end
  end.

(** ** Chunk sizes *)

(** The loop over the digits: an error status or the size. *)
Fixpoint chunk_size (maxBodyBytes chunkSize : Z) (l : bytes) : Z + Z :=
  match l with
  | [] => inr chunkSize
  | ch :: l =>
      let digit := from_hex_digit ch in
      if digit <? 0 then inl StatusCodeBadRequest
      else
        let chunkSize := u64 (Z.lor (Z.shiftl chunkSize 4) digit) in
        if maxBodyBytes <? chunkSize then inl StatusCodePayloadTooLarge
        else chunk_size maxBodyBytes chunkSize l
  end.

(** ** Trailers *)

Definition kForbiddenTrailers : list bytes :=
  map str ["authorization"; "cache-control"; "content-encoding"; "content-length";
    "content-range"; "content-type"; "cookie"; "expect"; "expires"; "host"; "if-match";
    "if-modified-since"; "if-none-match"; "if-unmodified-since"; "pragma"; "range";
    "set-cookie"; "te"; "trailer"; "transfer-encoding"; "vary"]%string.

Definition IsForbiddenTrailerHeader (name : bytes) : bool :=
  existsb (CaseInsensitiveEqual name) kForbiddenTrailers.

Inductive outcome (A : Type) := More | Status (s : Z) | Value (a : A).
Arguments More {A}. Arguments Status {A} _. Arguments Value {A} _.

(** First pass over the lines from [tempPos]: the offset after the empty line. *)
Fixpoint trailers_end (fuel : nat) (maxHeaderBytes : Z) (buf : bytes) (trailerStart tempPos : nat)
  : option (outcome nat) :=
  match fuel with
  | O => None
  | S fuel =>
      let lineEnd := search_crlf buf tempPos in
      if decide (lineEnd = length buf) then Some More
      else if maxHeaderBytes <? Z.of_nat (tempPos - trailerStart)
      then Some (Status StatusCodeRequestHeaderFieldsTooLarge)
      else if decide (tempPos = lineEnd) then Some (Value (lineEnd + length CRLF)%nat)
      else
        match find_byte 58 buf tempPos lineEnd with
        | None => Some (Status StatusCodeBadRequest)
        | Some colon =>
            if IsForbiddenTrailerHeader (view_of buf (view_between tempPos colon))
            then Some (Status StatusCodeBadRequest)
            else trailers_end fuel maxHeaderBytes buf trailerStart (lineEnd + length CRLF)
        end
  end.

(** [parseHeadersUnchecked] of [first, last) in [buf]. *)
Fixpoint parseHeadersUnchecked_loop (fuel : nat) (mergeAllowed : bool) (headersMap : HeadersViewMap)
  (buf : bytes) (first last : nat) : option (bool * HeadersViewMap * bytes) :=
  if decide (first < last)%nat then
    match fuel with
    | O => None
    | S fuel =>
        let lineEnd := search_crlf (take last buf) first in
        if decide (lineEnd = last) then None
        else
          match find_byte 58 buf first lineEnd with
          | None => None
          | Some _ =>
              let '(headerName, headerValue) := ParseHeaderLine buf first lineEnd in
              let '(ok, headersMap, buf) :=
                AddOrMergeHeaderInPlace headersMap headerName headerValue buf first mergeAllowed in
              if ok : bool
              then parseHeadersUnchecked_loop fuel mergeAllowed headersMap buf (lineEnd + length CRLF) last
              else Some (false, headersMap, buf)
          end
    end
  else Some (true, headersMap, buf).

Definition parseHeadersUnchecked (mergeAllowed : bool) (buf : bytes) (first last : nat)
  : option (bool * HeadersViewMap * bytes) :=
  parseHeadersUnchecked_loop (last - first) mergeAllowed [] buf first last.

(** ** The chunk loop *)

Record BodyLimits := MkBodyLimits {
  bl_maxBodyBytes : Z;
  bl_maxHeaderBytes : Z;
  bl_maxCompressedBytes : Z
}.

(** What the loop accumulates: the plain bytes, or the compressed chunks and their size. *)
Record ChunkState := MkChunkState {
  cs_body : bytes;
  cs_compressedChunks : list bytes;
  cs_totalCompressedSize : Z
}.

(** A chunk whose data starts at [pos]. *)
Definition add_chunk (limits : BodyLimits) (direct : bool) (buf : bytes) (pos chunkSize : Z)
  (s : ChunkState) : option (Z + ChunkState) :=
  if direct then
    chunk ← read buf pos chunkSize;
    let total := u64 (cs_totalCompressedSize s + chunkSize) in
    if (bl_maxBodyBytes limits <? total)
       || (negb (bl_maxCompressedBytes limits =? 0) && (bl_maxCompressedBytes limits <? total))
    then Some (inl StatusCodePayloadTooLarge)
    else Some (inr (MkChunkState (cs_body s) (cs_compressedChunks s ++ [chunk]) total))
  else
    let appendSz := Z.min chunkSize (u64 (zlen buf - pos)) in
    if bl_maxBodyBytes limits <? zlen (cs_body s) + appendSz then Some (inl StatusCodePayloadTooLarge)
    else
      data ← read buf pos appendSz;
      Some (inr (MkChunkState (cs_body s ++ data) (cs_compressedChunks s) (cs_totalCompressedSize s))).

(** The end of the loop: the position after the body, the state, the raw trailers. *)
Abbreviation chunks_end := (Z * ChunkState * bytes)%type.

Fixpoint chunk_loop (fuel : nat) (limits : BodyLimits) (direct : bool) (buf : bytes) (pos : Z)
  (s : ChunkState) : option (outcome chunks_end) :=
  match fuel with
  | O => None
  | S fuel =>
      _ ← read buf pos 0;
      let first := Z.to_nat pos in
      let lineEnd := search_crlf buf first in
      if decide (lineEnd = length buf) then Some More
      else
        let sizeLineEnd := std_find 59 buf first lineEnd in
        match chunk_size (bl_maxBodyBytes limits) 0 (view_of buf (view_between first sizeLineEnd)) with
        | inl e => Some (Status e)
        | inr chunkSize =>
            let pos := Z.of_nat lineEnd + 2 in
            if zlen buf <? u64 (pos + chunkSize + 2) then Some More
            else if chunkSize =? 0 then
              next ← read buf pos 2;
              if decide (next = CRLF) then Some (Value (pos + 2, s, []))
              else
                let trailerStart := Z.to_nat pos in
                match trailers_end (S (length buf)) (bl_maxHeaderBytes limits) buf trailerStart trailerStart with
                | None => None
                | Some More => Some More
                | Some (Status e) => Some (Status e)
                | Some (Value trailerEndPos) =>
                    trailers ← read buf pos (Z.of_nat trailerEndPos - pos - 2);
                    Some (Value (Z.of_nat trailerEndPos, s, trailers))
                end
            else
              added ← add_chunk limits direct buf pos chunkSize s;
              match added with
              | inl e => Some (Status e)
              | inr s =>
                  let pos := u64 (pos + chunkSize) in
                  next ← read buf pos 2;
                  if decide (next = CRLF)
                  then chunk_loop fuel limits direct buf (u64 (pos + 2)) s
                  else Some (Status StatusCodeBadRequest)
              end
        end
  end.

Section Decode.
(** An error status, or the body and the buffer that holds it. *)
Variable DecompressChunkedBody : list bytes -> Z -> Z + bytes * bytes.
Variable decompressCode : Z.
Variable mergeUnknownRequestHeaders : bool.
Variable limits : BodyLimits.

(** After the loop: decompress the chunks, or take what precedes the trailers. *)
Definition finish_chunks (pos : Z) (s : ChunkState) (c : HttpConnection) : decoded :=
  let request := hc_request c in
  if negb (cs_totalCompressedSize s =? 0) then
    let trailers := hc_bodyAndTrailers c in
    match DecompressChunkedBody (cs_compressedChunks s) (cs_totalCompressedSize s) with
    | inl e => fail e c
    | inr (body, buf) =>
        (Ready, pos, with_body_buffer (buf ++ trailers) (hc_trailerLen c)
                       (with_request (set_body body request) c))
    end
  else
    let bodyLen := (length (hc_bodyAndTrailers c) - hc_trailerLen c)%nat in
    (Ready, pos, with_request (set_body (take bodyLen (hc_bodyAndTrailers c)) request) c).

Definition decodeChunkedBody (expectContinue : bool) (c : HttpConnection) : option decoded :=
  let c := if expectContinue then queueData HTTP11_100_CONTINUE c else c in
  let c := with_body_buffer [] 0 c in
  if decompressCode =? StatusCodeBadRequest then Some (fail StatusCodeBadRequest c)
  else
    let direct := decompressCode =? StatusCodeOK in
    match chunk_loop (S (length (hc_inBuffer c))) limits direct (hc_inBuffer c)
            (Z.of_nat (rq_headSpanSize (hc_request c))) (MkChunkState [] [] 0) with
    | None => None
    | Some More => Some (NeedMore, 0, c)
    | Some (Status e) => Some (fail e c)
    | Some (Value (pos, s, trailers)) =>
        let c := with_body_buffer (cs_body s ++ trailers) (length trailers) c in
        match trailers with
        | [] => Some (finish_chunks pos s c)
        | _ =>
            match parseHeadersUnchecked mergeUnknownRequestHeaders (hc_bodyAndTrailers c)
                    (length (cs_body s)) (length (hc_bodyAndTrailers c)) with
            | None => None
            | Some (ok, headersMap, buf) =>
                let c := with_body_buffer buf (hc_trailerLen c)
                           (with_request (set_trailers headersMap (hc_request c)) c) in
                if ok : bool then Some (finish_chunks pos s c)
                else Some (fail StatusCodeBadRequest c)
            end
        end
    end.

Definition decodeBodyIfReady (isChunked expectContinue : bool) (c : HttpConnection)
  : option decoded :=
  if isChunked then decodeChunkedBody expectContinue c
  else Some (decodeFixedLengthBody expectContinue (bl_maxBodyBytes limits) c).

(** The second parse of the trailers, when the body is not empty
    ([maybeDecompressRequestBody]) and was not compressed. *)
Definition reparse_trailers (c : HttpConnection) : option HttpConnection :=
  if decide (hc_trailerLen c = 0%nat) then Some c
  else
    let buf := hc_bodyAndTrailers c in
    match parseHeadersUnchecked mergeUnknownRequestHeaders buf
            (length buf - hc_trailerLen c) (length buf) with
    | None => None
    | Some (_, headersMap, buf) =>
        Some (with_body_buffer buf (hc_trailerLen c)
                (with_request (set_trailers headersMap (hc_request c)) c))
    end.
End Decode.
