(* ===== verification/Http1BodyProofs.v ===== *)
(** Theorems on request bodies: the chunked decoder ends on every input within the limits of
    the configuration, and inverts the chunked transfer coding. *)

From S2P Require Import Prelude.
From S2P Require Import AsciiCase.
From S2P Require Import HeadersView.
From S2P Require Import UrlCodec.
From S2P Require Import UrlCodecProofs.
From S2P Require Import Http1Request.
From S2P Require Import Http1Body.
From S2P Require Import Http1RequestProofs.
From S2P Require Import Http1Safety.
Local Open Scope Z_scope.

(** ** Trailers: the second pass finds the lines of the first *)

Lemma SearchCRLF_take l n :
  (SearchCRLF l + 2 <= n)%nat -> (SearchCRLF l < length l)%nat ->
  SearchCRLF (take n l) = SearchCRLF l.
Proof.
  revert n. induction l as [|a l IH]; intros n Hn Hl; [cbn in Hl; lia|].
  destruct n as [|[|n]]; [lia|lia|]. cbn [take]. destruct l as [|b l]; [cbn in Hl; lia|].
  cbn [SearchCRLF] in *. cbn [take].
  destruct ((a =? 13) && (b =? 10)); [done|]. f_equal.
  change (b :: take n l) with (take (S n) (b :: l)). apply IH; cbn [length] in *; lia.
Qed.

Inductive trailer_lines : bytes -> Prop :=
| trailer_nil : trailer_lines []
| trailer_cons l :
    (SearchCRLF l + 2 <= length l)%nat -> memchr 58 (take (SearchCRLF l) l) <> None ->
    trailer_lines (drop (SearchCRLF l + 2) l) -> trailer_lines l.

Lemma trailers_end_spec fuel max buf trailerStart tempPos e :
  (tempPos <= length buf)%nat ->
  trailers_end fuel max buf trailerStart tempPos = Some (Value e) ->
  (tempPos + 2 <= e <= length buf)%nat
  /\ trailer_lines (take (e - 2 - tempPos) (drop tempPos buf)).
Proof.
  revert tempPos. induction fuel as [|fuel IH]; intros pos Hp; [done|]. cbn [trailers_end].
  pose proof (search_crlf_bounds buf pos Hp) as Hb.
  case_decide as Hend; [done|]. pose proof (search_crlf_found buf pos Hp Hend) as He.
  change (length CRLF) with 2%nat.
  destruct (_ <? _); [done|]. case_decide as Hempty.
  { intros [= <-]. rewrite <- Hempty in *. split; [lia|].
    replace (pos + 2 - 2 - pos)%nat with 0%nat by lia. constructor. }
  destruct (find_byte 58 buf pos _) as [colon|] eqn:Ec; [|done].
  destruct (IsForbiddenTrailerHeader _); [done|]. intros Hr.
  apply IH in Hr as [Hr1 Hr2]; [|lia]. split; [lia|].
  set (l := drop pos buf) in *.
  assert (Hl : search_crlf buf pos = (pos + SearchCRLF l)%nat) by done.
  assert (Hll : length l = (length buf - pos)%nat) by apply length_drop.
  rewrite Hl in *.
  assert (Es : SearchCRLF (take (e - 2 - pos) l) = SearchCRLF l) by (apply SearchCRLF_take; lia).
  constructor; rewrite Es.
  - rewrite length_take. lia.
  - rewrite take_take, Nat.min_l by lia. unfold find_byte in Ec.
    replace (pos + SearchCRLF l - pos)%nat with (SearchCRLF l) in Ec by lia. fold l in Ec.
    by destruct (memchr 58 (take (SearchCRLF l) l)).
  - rewrite skipn_firstn_comm. unfold l. rewrite drop_drop.
    replace (e - 2 - pos - (SearchCRLF (drop pos buf) + 2))%nat
      with (e - 2 - (pos + SearchCRLF l + 2))%nat by (fold l; lia).
    rewrite Nat.add_assoc in *. exact Hr2.
Qed.

Lemma parseHeaders_total fuel allowed slots x l :
  trailer_lines l -> (length l <= fuel)%nat -> slots_before (length x) slots ->
  exists ok slots' buf',
    parseHeadersUnchecked_loop fuel allowed slots (x ++ l) (length x) (length (x ++ l))
      = Some (ok, slots', buf')
    /\ length buf' = length (x ++ l).
Proof.
  intros Hl. revert fuel slots x. induction Hl as [|l Hn Hc Hl IH]; intros fuel slots x Hf Hs.
  { destruct fuel; cbn; rewrite decide_False by (rewrite app_nil_r; lia); eauto. }
  set (n := SearchCRLF l) in *. destruct fuel as [|fuel]; [lia|]. cbn [parseHeadersUnchecked_loop].
  rewrite decide_True by (rewrite length_app; lia). rewrite firstn_all.
  assert (Hsc : search_crlf (x ++ l) (length x) = (length x + n)%nat)
    by (unfold search_crlf; by rewrite drop_app_length).
  rewrite Hsc, decide_False by (rewrite length_app; lia).
  assert (Hfb : exists c, find_byte 58 (x ++ l) (length x) (length x + n) = Some c).
  { unfold find_byte. rewrite drop_app_length.
    replace (length x + n - length x)%nat with n by lia.
    destruct (memchr 58 (take n l)); [by eexists|done]. }
  destruct Hfb as [c Hfb]. rewrite Hfb.
  destruct (ParseHeaderLine _ _ _) as [name value] eqn:Ep.
  destruct (AddOrMergeHeaderInPlace _ _ _ _ _ _) as [[ok slots'] buf'] eqn:Ea.
  assert (Hline : in_line (length x) (length x + n) name value).
  { eapply ParseHeaderLine_in_line; [|lia|exact Ep]. unfold std_find. rewrite Hfb.
    apply find_byte_bounds in Hfb. cbn. lia. }
  apply AddOrMerge_frame with (last := (length x + n)%nat) in Ea as [Hs' [Hlen Hdrop]];
    [|done|done|rewrite length_app; lia].
  destruct ok; [|eauto 10].
  change (length CRLF) with 2%nat.
  set (x' := take (length x + n + 2) buf').
  assert (Hx' : length x' = (length x + n + 2)%nat).
  { unfold x'. rewrite length_take, Hlen, length_app. lia. }
  assert (Hbuf : buf' = x' ++ drop (n + 2) l).
  { unfold x'. rewrite <- (take_drop (length x + n + 2) buf') at 1. f_equal.
    rewrite <- (drop_drop buf' 2 (length x + n)), Hdrop, drop_drop, <- Nat.add_assoc, drop_app_add. done. }
  destruct (IH fuel slots' x') as (ok & s2 & b2 & E & Hl2).
  { rewrite length_drop. lia. }
  { eapply slots_before_le; [exact Hs'|]. lia. }
  rewrite <- Hbuf, Hx', Hlen in E. rewrite <- Hbuf in Hl2. exists ok, s2, b2. split; [done|congruence].
Qed.

(** ** Chunk sizes *)

Lemma chunk_size_bounds max acc l n :
  0 <= acc <= max -> chunk_size max acc l = inr n -> 0 <= n <= max.
Proof.
  revert acc. induction l as [|ch l IH]; intros acc Ha; cbn [chunk_size]; [by intros [= <-]|].
  destruct (_ <? 0); [done|]. destruct (Z.ltb_spec max (u64 (Z.lor (Z.shiftl acc 4) (from_hex_digit ch))));
    [done|]. apply IH. split; [|done]. unfold u64. apply Z.mod_pos_bound. lia.
Qed.

(** ** The loop *)

Section Loop.
Context (limits : BodyLimits) (direct : bool) (buf : bytes).
Hypothesis Hmax : 0 <= bl_maxBodyBytes limits < 2 ^ 60.
Hypothesis Hlen : zlen buf < 2 ^ 60.

Definition chunk_state_ok (s : ChunkState) : Prop :=
  zlen (cs_body s) <= bl_maxBodyBytes limits /\ (direct = false -> cs_totalCompressedSize s = 0).

Definition loop_safe (pos : Z) (r : option (outcome chunks_end)) : Prop :=
  match r with
  | None => False
  | Some (Value (e, s, trailers)) =>
      pos <= e <= zlen buf /\ chunk_state_ok s /\ trailer_lines trailers
  | Some _ => True
  end.

Lemma subspan_trailers pos (e : nat) :
  0 <= pos -> subspan pos (Z.of_nat e - pos - 2) buf
    = take (e - 2 - Z.to_nat pos) (drop (Z.to_nat pos) buf).
Proof. intros H. unfold subspan. f_equal. lia. Qed.

Lemma trailers_end_total fuel max trailerStart tempPos :
  (tempPos <= length buf)%nat -> (length buf - tempPos < fuel)%nat ->
  trailers_end fuel max buf trailerStart tempPos <> None.
Proof using.
  clear. revert tempPos. induction fuel as [|fuel IH]; intros pos Hp Hf; [lia|]. cbn [trailers_end].
  pose proof (search_crlf_bounds buf pos Hp) as Hb.
  case_decide as Hend; [done|]. pose proof (search_crlf_found buf pos Hp Hend) as He.
  destruct (_ <? _); [done|]. case_decide; [done|]. destruct (find_byte _ _ _ _); [|done].
  destruct (IsForbiddenTrailerHeader _); [done|]. apply IH; change (length CRLF) with 2%nat; lia.
Qed.

Lemma add_chunk_ok pos n s s' :
  0 <= n -> 0 <= pos <= zlen buf -> chunk_state_ok s ->
  add_chunk limits direct buf pos n s = Some (inr s') -> chunk_state_ok s'.
Proof using Hlen.
  intros Hn Hp Hs. unfold add_chunk, chunk_state_ok in *. destruct direct.
  - destruct (read buf pos n); [|done]. cbn. destruct (_ || _); [done|]. intros [= <-]. by split; [apply Hs|].
  - destruct Hs as [Hs Ht]. destruct (Z.ltb_spec (bl_maxBodyBytes limits) (zlen (cs_body s) + Z.min n (u64 (zlen buf - pos))));
      [done|]. rewrite u64_id in * by lia. rewrite read_in by lia. intros [= <-]. cbn. rewrite zlen_app.
    rewrite subspan_length by lia. by split.
Qed.

(** A chunk that is in the buffer is read inside it. *)
Lemma add_chunk_defined pos n s :
  0 <= pos -> 0 <= n -> pos + n <= zlen buf -> add_chunk limits direct buf pos n s <> None.
Proof using Hlen.
  intros Hp Hn Hfit. unfold add_chunk. destruct direct.
  - rewrite read_in by lia. cbn. by destruct (_ || _).
  - destruct (_ <? _); [done|]. rewrite u64_id by lia. by rewrite read_in by lia.
Qed.

Lemma chunk_loop_safe fuel pos s :
  0 <= pos <= zlen buf -> zlen buf - pos < Z.of_nat fuel -> chunk_state_ok s ->
  loop_safe pos (chunk_loop fuel limits direct buf pos s).
Proof using Hmax Hlen.
  revert pos s. induction fuel as [|fuel IH]; intros pos s Hp Hf Hs; [lia|]. cbn [chunk_loop].
  rewrite (read_in buf pos 0) by lia. cbn [mbind option_bind]. unfold zlen in *.
  pose proof (search_crlf_bounds buf (Z.to_nat pos) ltac:(lia)) as Hb.
  case_decide as Hend; [done|]. pose proof (search_crlf_found buf (Z.to_nat pos) ltac:(lia) Hend) as He.
  set (lineEnd := search_crlf buf (Z.to_nat pos)) in *.
  destruct (chunk_size _ _ _) as [e|n] eqn:Ec; [done|].
  apply chunk_size_bounds in Ec; [|lia]. set (p := Z.of_nat lineEnd + 2) in *.
  rewrite (u64_id (p + n + 2)) by lia.
  destruct (Z.ltb_spec (Z.of_nat (length buf)) (p + n + 2)) as [|Hfit]; [done|].
  destruct (Z.eqb_spec n 0) as [->|Hn].
  - rewrite (read_in buf p 2) by (unfold zlen; lia). cbn [mbind option_bind]. case_decide; [cbn; split_and!; [unfold zlen; lia|unfold zlen; lia|done|constructor]|].
    destruct (trailers_end _ _ _ _ _) as [[|e|e]|] eqn:Et; [done|done| |].
    + apply trailers_end_spec in Et as [H1 H2]; [|lia]. rewrite read_in by (unfold zlen; lia). cbn. unfold zlen.
      rewrite subspan_trailers by lia. split_and!; [lia|lia|done|done].
    + by apply trailers_end_total in Et; [|lia|lia].
  - pose proof (add_chunk_defined p n s ltac:(lia) ltac:(lia) ltac:(unfold zlen; lia)) as Hdef.
    destruct (add_chunk _ _ _ _ _ _) as [[e|s']|] eqn:Ea; [done| |done].
    apply add_chunk_ok in Ea; [|lia|unfold zlen; lia|done]. cbn [mbind option_bind].
    rewrite (u64_id (p + n)) by lia. rewrite (read_in buf (p + n) 2) by (unfold zlen; lia). cbn [mbind option_bind]. case_decide; [|done]. rewrite u64_id by lia.
    specialize (IH (p + n + 2) s' ltac:(lia) ltac:(lia) Ea).
    unfold loop_safe in *. destruct (chunk_loop _ _ _ _ _ _) as [[| |[[e s2] t]]|]; try done.
    destruct IH as (? & ? & ?). split_and!; [lia|lia|done|done].
Qed.
End Loop.

Section Decoder.
Context (DecompressChunkedBody : list bytes -> Z -> Z + bytes * bytes) (decompressCode : Z)
  (allowed : bool) (limits : BodyLimits).

Definition body_safe (c : HttpConnection) (r : option decoded) : Prop :=
  match r with
  | None => False
  | Some (status, consumed, c') =>
      hc_inBuffer c' = hc_inBuffer c
      /\ (status = Error <-> hc_error c' <> None)
      /\ (status = Ready ->
          Z.of_nat (rq_headSpanSize (hc_request c)) <= consumed <= zlen (hc_inBuffer c)
          /\ (decompressCode <> StatusCodeOK ->
              zlen (rq_body (hc_request c')) <= bl_maxBodyBytes limits))
  end.

Lemma finish_safe pos s c c0 :
  hc_inBuffer c = hc_inBuffer c0 -> hc_error c = None ->
  Z.of_nat (rq_headSpanSize (hc_request c0)) <= pos <= zlen (hc_inBuffer c0) ->
  zlen (take (length (hc_bodyAndTrailers c) - hc_trailerLen c) (hc_bodyAndTrailers c))
    <= bl_maxBodyBytes limits ->
  (decompressCode <> StatusCodeOK -> cs_totalCompressedSize s = 0) ->
  body_safe c0 (Some (finish_chunks DecompressChunkedBody pos s c)).
Proof.
  intros Hin He Hpos Hb Hd. unfold finish_chunks. destruct (Z.eqb_spec (cs_totalCompressedSize s) 0); cbn [negb].
  - cbn. split_and!; [done|by rewrite He|done].
  - destruct (DecompressChunkedBody _ _) as [e|[body b]]; cbn.
    + split_and!; [done|by split|done].
    + split_and!; [done|by rewrite He|]. intros _. split; [done|]. intros H. by apply Hd in H.
Qed.

(** C22: The chunked decoder ends with a status on every input that fits in the address space;
    it never reads past the end of the buffer, nor a trailer line that is not there; when the body is ready, the consumed
    bytes are between the head and the end of the buffer, and a body that is not compressed
    respects the limit. *)
Theorem decodeChunkedBody_safe expectContinue c :
  0 <= bl_maxBodyBytes limits < 2 ^ 60 -> zlen (hc_inBuffer c) < 2 ^ 60 ->
  Z.of_nat (rq_headSpanSize (hc_request c)) <= zlen (hc_inBuffer c) -> hc_error c = None ->
  body_safe c (decodeChunkedBody DecompressChunkedBody decompressCode allowed limits expectContinue c).
Proof.
  intros Hmax Hlen Hhead Herr. unfold decodeChunkedBody.
  set (c0 := with_body_buffer [] 0 (if expectContinue then queueData _ c else c)).
  assert (Hc0 : hc_inBuffer c0 = hc_inBuffer c /\ hc_request c0 = hc_request c /\ hc_error c0 = None).
  { unfold c0. destruct expectContinue; by split_and!. }
  clearbody c0. destruct Hc0 as (Hin & Hreq & He).
  assert (Hbs : forall r, body_safe c0 r -> body_safe c r).
  { intros [[[st n] c']|]; [|done]. unfold body_safe. by rewrite Hin, Hreq. }
  apply Hbs. rewrite <- Hin, <- Hreq in *. clear Hbs Hin Hreq Herr c.
  destruct (decompressCode =? StatusCodeBadRequest); [by cbn; split_and!|].
  assert (H0 : chunk_state_ok limits (decompressCode =? StatusCodeOK) (MkChunkState [] [] 0))
    by (split; [change (0 <= bl_maxBodyBytes limits); lia|done]).
  pose proof (chunk_loop_safe limits (decompressCode =? StatusCodeOK) (hc_inBuffer c0) Hmax Hlen
                (S (length (hc_inBuffer c0))) (Z.of_nat (rq_headSpanSize (hc_request c0)))
                (MkChunkState [] [] 0) ltac:(lia) ltac:(unfold zlen; lia) H0) as H.
  destruct (chunk_loop _ _ _ _ _ _) as [[|e|[[pos s] trailers]]|]; cbn in H; [by cbn; split_and!|..|done].
  { cbn. by split_and!. }
  destruct H as (Hpos & Hs & Ht).
  destruct trailers as [|t0 trailers].
  { rewrite app_nil_r. apply finish_safe; [done|done|cbn; lia|..].
    - cbn. rewrite Nat.sub_0_r, firstn_all. apply Hs.
    - intros Hd. apply Hs. by apply Z.eqb_neq. }
  set (t := t0 :: trailers) in *. unfold parseHeadersUnchecked. cbn [hc_bodyAndTrailers with_body_buffer].
  destruct (parseHeaders_total (length (cs_body s ++ t) - length (cs_body s)) allowed [] (cs_body s) t Ht)
    as (ok & slots & buf & -> & Hl); [rewrite length_app; lia|constructor|].
  destruct ok; [|cbn; by split_and!]. apply finish_safe; [done|done|cbn; lia|..].
  - cbn. destruct Hs as [Hs _]. unfold zlen in *. rewrite length_take, Hl, length_app. subst t. cbn in *. lia.
  - intros Hd. apply Hs. by apply Z.eqb_neq.
Qed.
End Decoder.

(** ** The chunked transfer coding *)

Record Chunk := MkChunk { ck_extension : bytes; ck_data : bytes }.

Definition chunk_wf (c : Chunk) : Prop :=
  ck_data c <> [] /\ no_crlf (ck_extension c)
  /\ (ck_extension c = [] \/ exists e, ck_extension c = 59 :: e).

Definition encode_chunk (c : Chunk) : bytes :=
  to_lower_hex (zlen (ck_data c)) ++ ck_extension c ++ CRLF ++ ck_data c ++ CRLF.

Definition last_chunk (trailers : list Field) : bytes := str "0" ++ CRLF ++ lines_of trailers ++ CRLF.

Definition trailers_wf (limits : BodyLimits) (trailers : list Field) : Prop :=
  Forall field_wf trailers /\ Forall (fun f => IsForbiddenTrailerHeader (fd_name f) = false) trailers
  /\ zlen (lines_of trailers) <= bl_maxHeaderBytes limits.

Definition encode_chunks (cs : list Chunk) : bytes := concat (map encode_chunk cs).
Definition chunks_data (cs : list Chunk) : bytes := concat (map ck_data cs).

Definition hex_ok (v : Z) : bool :=
  (from_hex_digit (hexit 97 v) =? v) && negb (hexit 97 v =? 10) && negb (hexit 97 v =? 59).

Lemma hexit_ok v : 0 <= v < 16 ->
  from_hex_digit (hexit 97 v) = v /\ hexit 97 v <> 10 /\ hexit 97 v <> 59.
Proof.
  intros Hv. assert (H : forallb hex_ok (map Z.of_nat (seq 0 16)) = true) by (vm_compute; reflexivity).
  rewrite forallb_forall in H. specialize (H v). unfold hex_ok in H.
  rewrite !andb_true_iff, !negb_true_iff, !Z.eqb_neq, Z.eqb_eq in H.
  destruct H as [[? ?] ?]; [|done]. apply in_map_iff. exists (Z.to_nat v). split; [lia|].
  apply in_seq. lia.
Qed.

Lemma land_15 v : Z.land v 15 = v mod 16.
Proof. exact (Z.land_ones v 4 ltac:(lia)). Qed.

Lemma chunk_size_digit max acc v rest :
  0 <= acc -> 0 <= v < 16 -> acc * 16 + v <= max < 2 ^ 60 ->
  chunk_size max acc (hexit 97 v :: rest) = chunk_size max (acc * 16 + v) rest.
Proof.
  intros Ha Hv Hm. cbn [chunk_size]. destruct (hexit_ok v Hv) as [-> _].
  rewrite (proj2 (Z.ltb_ge v 0)) by lia. rewrite lor_shiftl_low by lia.
  change (2 ^ 4) with 16. rewrite u64_id by lia. by rewrite (proj2 (Z.ltb_ge max _)) by lia.
Qed.

Lemma chunk_size_hex max fuel v rest :
  0 <= v < 16 ^ Z.of_nat fuel -> v <= max < 2 ^ 60 ->
  fuel <> 0%nat ->
  chunk_size max 0 (lower_hex_loop fuel v rest) = chunk_size max v rest
  /\ exists h, lower_hex_loop fuel v rest = h ++ rest /\ Forall (fun b => b <> 10 /\ b <> 59) h.
Proof.
  revert v rest. induction fuel as [|fuel IH]; intros v rest Hv Hm Hf; [done|]. cbn [lower_hex_loop].
  rewrite land_15, Z.shiftr_div_pow2 by lia. change (2 ^ 4) with 16.
  assert (Hmod : 0 <= v mod 16 < 16) by (apply Z.mod_pos_bound; lia).
  destruct (hexit_ok (v mod 16) Hmod) as (_ & Hne).
  destruct (Z.eqb_spec (v / 16) 0) as [E|E].
  - split; [|exists [hexit 97 (v mod 16)]; split; [done|by apply Forall_singleton]].
    rewrite chunk_size_digit by zlia. f_equal. zlia.
  - assert (Hfuel : fuel <> 0%nat).
    { intros ->. change (16 ^ Z.of_nat 1) with 16 in Hv. zlia. }
    destruct (IH (v / 16) (hexit 97 (v mod 16) :: rest)) as (E1 & h & E2 & Hh); [|zlia|done|].
    { rewrite Nat2Z.inj_succ, Z.pow_succ_r in Hv by lia.
      split; [zlia|]. apply Z.div_lt_upper_bound; lia. }
    rewrite E1, chunk_size_digit by zlia. split; [f_equal; zlia|].
    exists (h ++ [hexit 97 (v mod 16)]). rewrite E2. split; [by app_simpl|].
    apply Forall_app. split; [done|by apply Forall_singleton].
Qed.

Section Coding.
Context (limits : BodyLimits).
Hypothesis Hmax : 0 <= bl_maxBodyBytes limits < 2 ^ 60.

(** The size line of a chunk of [n] bytes. *)
Lemma size_line n ext a r :
  0 <= n <= bl_maxBodyBytes limits -> no_crlf ext -> (ext = [] \/ exists e, ext = 59 :: e) ->
  let buf := a ++ (to_lower_hex n ++ ext) ++ CRLF ++ r in
  let lineEnd := (length a + length (to_lower_hex n ++ ext))%nat in
  search_crlf buf (length a) = lineEnd
  /\ chunk_size (bl_maxBodyBytes limits) 0
       (view_of buf (view_between (length a) (std_find 59 buf (length a) lineEnd))) = inr n.
Proof using Hmax.
  intros Hn He Hext buf lineEnd.
  destruct (chunk_size_hex (bl_maxBodyBytes limits) 16 n []) as (E & h & Eh & Hh);
    [change (16 ^ Z.of_nat 16) with (2 ^ 64); lia|lia|done|].
  unfold to_lower_hex in *. rewrite Eh, app_nil_r in E. rewrite app_nil_r in Eh. subst buf lineEnd.
  rewrite Eh.
  assert (Hlf : no_crlf h) by (eapply Forall_impl; [exact Hh|]; by intros b []).
  assert (Hsc : free_of 59 h) by (eapply Forall_impl; [exact Hh|]; by intros b []).
  split.
  - unfold search_crlf. rewrite drop_app_length, SearchCRLF_app; [done|].
    apply Forall_app. by split.
  - rewrite length_app, <- (app_assoc h), Nat.add_assoc, std_find_spec; [|done|].
    2:{ destruct Hext as [-> | [e ->]]; [by left|right; by eexists]. }
    unfold view_between. rewrite Nat.add_comm, Nat.add_sub, view_of_mid. exact E.
Qed.

Lemma subspan_mid_nat (a x b : bytes) n m :
  n = zlen a -> m = zlen x -> subspan n m (a ++ x ++ b) = x.
Proof. apply subspan_app_mid. Qed.

Lemma chunk_loop_step fuel a c r s :
  chunk_wf c -> zlen (a ++ encode_chunk c ++ r) < 2 ^ 60 ->
  zlen (cs_body s) + zlen (ck_data c) <= bl_maxBodyBytes limits ->
  chunk_loop (S fuel) limits false (a ++ encode_chunk c ++ r) (zlen a) s
  = chunk_loop fuel limits false (a ++ encode_chunk c ++ r) (zlen (a ++ encode_chunk c))
      (MkChunkState (cs_body s ++ ck_data c) (cs_compressedChunks s) (cs_totalCompressedSize s)).
Proof using Hmax.
  intros (Hd & Hlf & Hext) Hlen Hb. set (d := ck_data c) in *. set (ext := ck_extension c) in *.
  assert (Hd0 : 0 < zlen d) by (destruct d; [done|rewrite zlen_cons; pose proof (zlen_nonneg d); lia]).
  set (L := to_lower_hex (zlen d) ++ ext).
  assert (Hbuf : a ++ encode_chunk c ++ r = a ++ L ++ CRLF ++ d ++ CRLF ++ r).
  { unfold encode_chunk, L. fold d ext. by app_simpl. }
  assert (Hend : zlen (a ++ encode_chunk c) = zlen a + zlen L + 2 + zlen d + 2).
  { unfold encode_chunk. fold d ext. rewrite zlen_app. unfold L. rewrite !zlen_app.
    change (zlen CRLF) with 2. lia. }
  rewrite Hend, Hbuf in *. rewrite !zlen_app in Hlen. change (zlen CRLF) with 2 in Hlen.
  pose proof (zlen_nonneg (cs_body s)). pose proof (zlen_nonneg r). pose proof (zlen_nonneg a).
  pose proof (zlen_nonneg L).
  destruct (size_line (zlen d) ext a (d ++ CRLF ++ r) ltac:(lia) Hlf Hext) as [E1 E2]. fold L in E1, E2.
  set (buf := a ++ L ++ CRLF ++ d ++ CRLF ++ r) in *.
  assert (Hz : zlen buf = zlen a + zlen L + 2 + zlen d + 2 + zlen r).
  { unfold buf. rewrite !zlen_app. change (zlen CRLF) with 2. lia. }
  cbn [chunk_loop]. rewrite (read_in _ (zlen a) 0) by lia. cbn [mbind option_bind].
  replace (Z.to_nat (zlen a)) with (length a) by (unfold zlen; lia).
  rewrite E1. rewrite decide_False by (unfold zlen in *; lia). rewrite E2.
  replace (Z.of_nat (length a + length L)) with (zlen a + zlen L) by (unfold zlen; lia).
  rewrite (u64_id (_ + zlen d + 2)) by lia.
  rewrite (proj2 (Z.ltb_ge (zlen buf) _)) by lia. rewrite (proj2 (Z.eqb_neq (zlen d) 0)) by lia.
  unfold add_chunk. rewrite (u64_id (zlen buf - _)) by lia. rewrite Z.min_l by lia.
  rewrite (proj2 (Z.ltb_ge (bl_maxBodyBytes limits) _)) by lia. rewrite (read_in buf (zlen a + zlen L + 2) (zlen d)) by lia. cbn [mbind option_bind].
  assert (Hdata : subspan (zlen a + zlen L + 2) (zlen d) buf = d).
  { unfold buf. rewrite (app_assoc a), (app_assoc (a ++ L)). apply subspan_app_mid; [|done].
    rewrite !zlen_app. change (zlen CRLF) with 2. lia. }
  rewrite Hdata, (u64_id (_ + zlen d)), (read_in buf (zlen a + zlen L + 2 + zlen d) 2) by lia. cbn [mbind option_bind].
  assert (Hcr : subspan (zlen a + zlen L + 2 + zlen d) 2 buf = CRLF).
  { unfold buf. rewrite (app_assoc a), (app_assoc (a ++ L)), (app_assoc (_ ++ CRLF) d).
    apply subspan_app_mid; [|done]. rewrite !zlen_app. change (zlen CRLF) with 2. lia. }
  rewrite Hcr, decide_True by done. by rewrite u64_id by lia.
Qed.

Lemma field_colon a f r :
  field_wf f -> find_byte 58 (a ++ field_content f ++ r) (length a) (length a + length (field_content f))
    = Some (length a + length (fd_name f))%nat.
Proof using.
  intros (_ & Hn & _).
  pose proof (std_find_spec 58 a (fd_name f) (58 :: fd_before f ++ fd_value f ++ fd_after f) r
    ltac:(eapply Forall_impl; [exact Hn|]; by intros ? (_ & ? & _)) ltac:(right; by eexists)) as H.
  unfold field_content. rewrite <- app_assoc, length_app, Nat.add_assoc. unfold std_find in H.
  destruct (find_byte _ _ _ _) as [i|] eqn:E; [cbn in H; congruence|]. cbn in H. lia.
Qed.

Lemma trailers_end_lines max start a fs r fuel :
  Forall field_wf fs -> Forall (fun f => IsForbiddenTrailerHeader (fd_name f) = false) fs ->
  (length fs < fuel)%nat -> Z.of_nat (length a + length (lines_of fs) - start) <= max ->
  trailers_end fuel max (a ++ lines_of fs ++ CRLF ++ r) start (length a)
  = Some (Value (length a + length (lines_of fs) + 2)%nat).
Proof using.
  intros Hwf. revert fuel a. induction Hwf as [|f fs Hf Hwf IH]; intros fuel a Hforb Hfu Hm;
    (destruct fuel as [|fuel]; [cbn in Hfu; lia|]); cbn [trailers_end].
  - change (lines_of []) with (@nil Z) in *. cbn [app length] in *.
    pose proof (search_crlf_spec a [] r ltac:(constructor)) as Hs. cbn [app length] in Hs. rewrite Nat.add_0_r in Hs.
    rewrite Hs, decide_False by (rewrite !length_app; cbn; lia). rewrite (proj2 (Z.ltb_ge _ _)) by lia.
    rewrite decide_True by done. do 2 f_equal. cbn. lia.
  - apply Forall_cons in Hforb as [Hnf Hforb]. cbn in Hfu.
    change (lines_of (f :: fs)) with (field_line f ++ lines_of fs) in *. unfold field_line in *.
    set (c := field_content f) in *. rewrite !length_app in Hm. change (length CRLF) with 2%nat in *.
    assert (Hbuf : a ++ ((c ++ CRLF) ++ lines_of fs) ++ CRLF ++ r = a ++ c ++ CRLF ++ lines_of fs ++ CRLF ++ r)
      by (by rewrite <- !app_assoc).
    assert (Hc0 : (0 < length c)%nat) by (unfold c, field_content; rewrite length_app; cbn; lia).
    rewrite Hbuf, search_crlf_spec by by apply field_content_no_lf.
    rewrite decide_False by (rewrite !length_app; cbn; lia). rewrite (proj2 (Z.ltb_ge _ _)) by lia.
    rewrite decide_False by lia.
    pose proof (field_colon a f (CRLF ++ lines_of fs ++ CRLF ++ r) Hf) as Hcol. fold c in Hcol. rewrite Hcol.
    assert (Hname : view_of (a ++ c ++ CRLF ++ lines_of fs ++ CRLF ++ r) (view_between (length a) (length a + length (fd_name f)))
                    = fd_name f).
    { apply (view_at _ a _ ((58 :: fd_before f ++ fd_value f ++ fd_after f) ++ CRLF ++ lines_of fs ++ CRLF ++ r));
        [unfold c, field_content; by rewrite <- !app_assoc|done|unfold view_between; cbn; lia]. }
    rewrite Hname, Hnf. specialize (IH fuel (a ++ c ++ CRLF) Hforb ltac:(lia)).
    rewrite !length_app in IH. change (length CRLF) with 2%nat in *. rewrite <- !app_assoc in IH.
    replace (length a + length c + 2)%nat with (length a + (length c + 2))%nat by lia. rewrite IH by lia.
    do 2 f_equal. rewrite !length_app. cbn. lia.
Qed.

Lemma trailers_parsed fr allowed a fs fuel p slots l l' :
  Forall field_wf fs -> layout fr (length a) p slots l -> values_nonempty l ->
  merge_fields allowed l fs = Some l' -> (length fs <= fuel)%nat ->
  exists p' slots',
    parseHeadersUnchecked_loop fuel allowed slots (a ++ p ++ lines_of fs) (length a + length p)
      (length a + length p + length (lines_of fs)) = Some (true, slots', a ++ p')
    /\ layout fr (length a) p' slots' l' /\ length p' = (length p + length (lines_of fs))%nat.
Proof using.
  intros Hwf. revert fuel p slots l. induction Hwf as [|f fs Hf Hwf IH]; intros fuel p slots l Hp Hl Hm Hfu.
  - injection Hm as ->. exists p, slots. change (lines_of []) with (@nil Z) in *. cbn [length]. rewrite app_nil_r, Nat.add_0_r.
    split_and!; [|done|lia]. by destruct fuel; cbn [parseHeadersUnchecked_loop]; rewrite decide_False by lia.
  - destruct fuel as [|fuel]; [cbn in Hfu; lia|]. cbn [parseHeadersUnchecked_loop].
    cbn in Hm, Hfu. destruct (add_field allowed l (fd_name f) (fd_value f)) as [l1|] eqn:Ea; [|done].
    change (lines_of (f :: fs)) with (field_line f ++ lines_of fs) in *. unfold field_line in *.
    set (c := field_content f) in *. set (R := lines_of fs).
    assert (Hc0 : (0 < length c)%nat) by (unfold c, field_content; rewrite length_app; cbn; lia).
    rewrite decide_True by (rewrite !length_app; cbn; lia).
    assert (Hbuf : a ++ p ++ (c ++ CRLF) ++ R = (a ++ p) ++ c ++ CRLF ++ R) by (by rewrite <- !app_assoc).
    rewrite Hbuf, (take_ge ((a ++ p) ++ _)) by (rewrite !length_app; lia).
    rewrite <- length_app, search_crlf_spec by by apply field_content_no_lf.
    rewrite decide_False by (rewrite !length_app; cbn; lia). 
    pose proof (field_colon (a ++ p) f (CRLF ++ R) Hf) as Hcol. fold c in Hcol. rewrite Hcol.
    pose proof (ParseHeaderLine_spec (a ++ p) f (CRLF ++ R) Hf) as Hph. fold c in Hph. rewrite Hph.
    pose proof Hf as (Hn & _ & _ & _ & [(c1 & r1 & E1 & _) _] & _).
    assert (Hv : fd_value f <> []) by (by rewrite E1).
    destruct (AddOrMerge_spec fr allowed a p slots l l1 (fd_name f) (58 :: fd_before f) (fd_value f)
                (fd_after f ++ CRLF) R) as (p1 & slots1 & E & Hp1 & Hl1);
      [done|done|done|by destruct (fd_after f)|cbn; lia|done|].
    assert (Hline : fd_name f ++ (58 :: fd_before f) ++ fd_value f ++ fd_after f ++ CRLF = c ++ CRLF).
    { unfold c, field_content. by app_simpl. }
    rewrite Hline in E, Hl1. rewrite <- (app_assoc c), app_assoc, <- length_app in E. rewrite E.
    rewrite length_app in Hl1. change (length CRLF) with 2%nat in *.
    destruct (IH fuel p1 slots1 l1) as (p2 & slots2 & E2 & Hp2 & Hl2);
      [done|by apply (add_field_nonempty allowed l (fd_name f) (fd_value f))|done|lia|].
    exists p2, slots2. split_and!; [|done|rewrite Hl2, Hl1; unfold R; rewrite !length_app; cbn; lia].
    rewrite <- E2. f_equal; unfold R; rewrite !length_app; cbn; lia.
Qed.

Lemma chunk_loop_last fuel a ts r s :
  trailers_wf limits ts -> zlen (a ++ last_chunk ts ++ r) < 2 ^ 60 ->
  chunk_loop (S fuel) limits false (a ++ last_chunk ts ++ r) (zlen a) s
  = Some (Value (zlen (a ++ last_chunk ts), s, lines_of ts)).
Proof using Hmax.
  intros (Hwf & Hforb & Hmh) Hlen. set (T := lines_of ts) in *.
  assert (Hbuf : a ++ last_chunk ts ++ r = a ++ (to_lower_hex 0 ++ []) ++ CRLF ++ T ++ CRLF ++ r).
  { unfold last_chunk. fold T. change (to_lower_hex 0 ++ []) with (str "0"). by app_simpl. }
  destruct (size_line 0 [] a (T ++ CRLF ++ r) ltac:(lia) ltac:(constructor) ltac:(by left)) as [E1 E2].
  rewrite <- Hbuf in E1, E2. change (length (to_lower_hex 0 ++ [])) with 1%nat in *.
  set (buf := a ++ last_chunk ts ++ r) in *.
  assert (Hlc : zlen (last_chunk ts) = zlen T + 5).
  { unfold last_chunk. fold T. rewrite !zlen_app. change (zlen CRLF) with 2. change (zlen (str "0")) with 1. lia. }
  assert (Hz : zlen buf = zlen a + 5 + zlen T + zlen r) by (unfold buf; rewrite !zlen_app, Hlc; lia).
  pose proof (zlen_nonneg a). pose proof (zlen_nonneg r). pose proof (zlen_nonneg T).
  cbn [chunk_loop]. rewrite (read_in _ (zlen a) 0) by lia. cbn [mbind option_bind].
  replace (Z.to_nat (zlen a)) with (length a) by (unfold zlen; lia).
  rewrite E1. rewrite decide_False by (unfold zlen in *; lia). rewrite E2.
  replace (Z.of_nat (length a + 1)) with (zlen a + 1) by (unfold zlen; lia).
  rewrite u64_id by lia. rewrite (proj2 (Z.ltb_ge (zlen buf) _)) by lia. cbn [Z.eqb].
  rewrite (read_in buf (zlen a + 1 + 2) 2) by lia. cbn [mbind option_bind].
  set (b := a ++ str "0" ++ CRLF).
  assert (Hb : zlen b = zlen a + 1 + 2) by (unfold b; rewrite !zlen_app; change (zlen CRLF) with 2; change (zlen (str "0")) with 1; lia).
  assert (Eb : buf = b ++ T ++ CRLF ++ r) by (unfold buf, last_chunk, b; fold T; by app_simpl).
  rewrite zlen_app, Hlc, <- Hb. destruct (decide (ts = [])) as [->|Hts].
  - change T with (@nil Z) in *. cbn [app] in Eb. rewrite Eb, subspan_app_mid by done.
    rewrite decide_True by done. do 4 f_equal. change (zlen (@nil Z)) with 0. lia.
  - assert (Hne : subspan (zlen b) 2 buf <> CRLF).
    { rewrite Eb. clearbody buf. unfold T. destruct ts as [|f ts']; [done|]. change (lines_of (f :: ts')) with (field_line f ++ lines_of ts').
      apply Forall_cons in Hwf as [(Hn & Hnc & _) _].
      unfold subspan, zlen. rewrite Nat2Z.id, <- !app_assoc, drop_app_length. unfold field_line, field_content.
      destruct (fd_name f) as [|n0 [|n1 n]]; [done|done|]. cbn. intros [= -> E].
      apply Forall_cons in Hnc as [_ Hnc]. by apply Forall_cons in Hnc as [(_ & _ & Hx & _) _]. }
    rewrite decide_False by done. replace (Z.to_nat (zlen b)) with (length b) by (unfold zlen; lia).
    pose proof (trailers_end_lines (bl_maxHeaderBytes limits) (length b) b ts r (S (length buf)) Hwf Hforb) as Ht.
    fold T in Ht. rewrite <- Eb in Ht. rewrite Ht; [|pose proof (length_lines_of ts Hwf) as Hlt; fold T in Hlt; unfold zlen in *; lia|unfold zlen in *; lia].
    replace (Z.of_nat (length b + length T + 2) - zlen b - 2) with (zlen T) by (unfold zlen; lia).
    rewrite (read_in buf (zlen b) (zlen T)) by lia. cbn [mbind option_bind]. rewrite Eb, subspan_app_mid by done.
    do 4 f_equal. unfold zlen in *. lia.
Qed.

Lemma chunk_loop_chunks cs ts fuel a r s :
  Forall chunk_wf cs -> trailers_wf limits ts -> (length cs < fuel)%nat ->
  zlen (a ++ encode_chunks cs ++ last_chunk ts ++ r) < 2 ^ 60 ->
  zlen (cs_body s) + zlen (chunks_data cs) <= bl_maxBodyBytes limits ->
  chunk_loop fuel limits false (a ++ encode_chunks cs ++ last_chunk ts ++ r) (zlen a) s
  = Some (Value (zlen (a ++ encode_chunks cs ++ last_chunk ts),
      MkChunkState (cs_body s ++ chunks_data cs) (cs_compressedChunks s) (cs_totalCompressedSize s), lines_of ts)).
Proof using Hmax.
  intros Hcs Hts. revert fuel a s. induction Hcs as [|c cs Hc Hcs IH]; intros fuel a s Hf Hlen Hb;
    (destruct fuel as [|fuel]; [cbn in Hf; lia|]).
  - change (encode_chunks []) with (@nil Z) in *. change (chunks_data []) with (@nil Z) in *.
    cbn [app] in *. rewrite chunk_loop_last, app_nil_r by done. by destruct s.
  - change (encode_chunks (c :: cs)) with (encode_chunk c ++ encode_chunks cs) in *.
    change (chunks_data (c :: cs)) with (ck_data c ++ chunks_data cs) in *.
    rewrite zlen_app in Hb. pose proof (zlen_nonneg (chunks_data cs)).
    rewrite <- !(app_assoc (encode_chunk c)) in *.
    rewrite chunk_loop_step by (done || lia).
    specialize (IH fuel (a ++ encode_chunk c)
      (MkChunkState (cs_body s ++ ck_data c) (cs_compressedChunks s) (cs_totalCompressedSize s))).
    cbn [cs_body cs_compressedChunks cs_totalCompressedSize] in IH.
    rewrite <- !(app_assoc a) in IH. rewrite IH; [|cbn in Hf; lia|done|rewrite zlen_app; lia].
    by rewrite <- (app_assoc (cs_body s)).
Qed.
End Coding.


Definition sample_connection (input : bytes) (headSize : nat) : HttpConnection :=
  MkHttpConnection input
    (MkRequest POST HTTP_1_1 (MkView 0 0) (MkView 0 0) [] [] [] headSize Undecided false) [] 0 [] None.

Definition sample_limits : BodyLimits := MkBodyLimits 1000 1000 0.
Definition no_decompression (chunks : list bytes) (size : Z) : Z + bytes * bytes := inl 400.

Definition sample_chunks : list Chunk :=
  [MkChunk [] (str "hello, "); MkChunk (str ";a=b") (str "chunked world")].

Definition sample_trailers : list Field :=
  [MkField (str "X-Sum") (str " ") (str "abc") []; MkField (str "x-tag") [] (str "1") (str " "); MkField (str "X-Tag") (str " ") (str "2") []].


Lemma decodeChunkedBody_safe_witness :
  body_safe 304 sample_limits (sample_connection (str "HEADzz") 4)
    (decodeChunkedBody no_decompression 304 true sample_limits true (sample_connection (str "HEADzz") 4)).
Proof.
  apply (decodeChunkedBody_safe no_decompression 304 true sample_limits true
           (sample_connection (str "HEADzz") 4)).
  - vm_compute. split; [discriminate|reflexivity].
  - vm_compute. reflexivity.
  - vm_compute. discriminate.
  - reflexivity.
Defined.

(** ** Behaviours at the edges *)

(** An empty size line is taken for the last chunk. *)
Lemma empty_size_line_accepted :
  (fun '(st, n, _) => (st, n)) <$>
    decodeChunkedBody no_decompression 304 true sample_limits false
      (sample_connection (str "HEAD" ++ CRLF ++ CRLF) 4)
  = Some (Ready, 8).
Proof. by vm_compute. Qed.

(** The trailers of a chunked request with a body are parsed a second time from the buffer
    that the first parse has merged in place: what is left of a repeated trailer has no
    colon. *)
Definition repeated_trailers : bytes :=
  str "HEAD1" ++ CRLF ++ str "x" ++ CRLF ++ str "0" ++ CRLF ++ str "A: 1" ++ CRLF
  ++ str "A: 2" ++ CRLF ++ CRLF.

Lemma repeated_trailers_undefined :
  match decodeChunkedBody no_decompression 304 true sample_limits false
          (sample_connection repeated_trailers 4) with
  | Some (Ready, _, c) =>
      rq_body (hc_request c) = str "x"
      /\ slot_value (hc_bodyAndTrailers c) (rq_trailers (hc_request c)) (str "A") = Some (str "1,2")
      /\ reparse_trailers true c = None
  | _ => False
  end.
Proof. vm_compute. done. Qed.
