(* ===== verification/WebSocketFrameProofs.v ===== *)
(** Theorems on WebSocket frames: masking on every processor, and the round trip of frames,
    including that a part of a frame is incomplete. *)

From S2P Require Import Prelude.
From S2P Require Import UrlCodecProofs.
From S2P Require Import WebSocketFrame.
Local Open Scope Z_scope.

(** ** Integers on the wire *)

Lemma write_be_bytes n v : length (write_be n v) = n.
Proof. unfold write_be. by rewrite length_map, length_seq. Qed.

(** One step of a big-endian read. *)
Lemma read_be_snoc l b :
  0 <= read_be l < 2 ^ 56 -> 0 <= b < 256 -> read_be (l ++ [b]) = read_be l * 256 + b.
Proof.
  intros Hl Hb. unfold read_be in *. rewrite fold_left_app. cbn [fold_left].
  rewrite u64_id by (rewrite Z.shiftl_mul_pow2 by lia; lia). by apply be16_val.
Qed.

Lemma write_be_S n v : write_be (S n) v = write_be n (v / 256) ++ [v mod 256].
Proof.
  unfold write_be. rewrite seq_S, map_app. cbn [map]. f_equal.
  - apply map_ext_in. intros i Hi. apply in_seq in Hi. f_equal.
    replace (Z.of_nat (S n - 1 - i) * 8) with (8 + Z.of_nat (n - 1 - i) * 8) by lia.
    rewrite <- Z.shiftr_shiftr by lia. f_equal. by rewrite Z.shiftr_div_pow2 by lia.
  - f_equal. rewrite shiftr_byte by lia.
    replace (Z.of_nat (S n - 1 - (0 + n)) * 8) with 0 by lia. by rewrite Z.div_1_r.
Qed.

Lemma read_be_write n v :
  (n <= 8)%nat -> 0 <= v < 256 ^ Z.of_nat n -> read_be (write_be n v) = v.
Proof.
  revert v. induction n as [|n IH]; intros v Hn Hv.
  { cbn in Hv. assert (v = 0) as -> by lia. done. }
  rewrite Nat2Z.inj_succ, Z.pow_succ_r in Hv by lia.
  assert (Hd : 0 <= v / 256 < 256 ^ Z.of_nat n) by (split; [zlia|apply Z.div_lt_upper_bound; lia]).
  rewrite write_be_S, read_be_snoc; rewrite ?IH by (lia || done); [zlia| |zlia].
  split; [lia|]. eapply Z.lt_le_trans; [apply Hd|].
  change (2 ^ 56) with (256 ^ 7). apply Z.pow_le_mono_r; lia.
Qed.

Lemma read_key_bytes key r : 0 <= key < 2 ^ 32 -> read_key (key_bytes key ++ r) = key.
Proof.
  intros Hk. unfold read_key, key_bytes. cbn [map app byte_at nth].
  rewrite !shiftr_byte by lia. cbn [Z.mul Pos.mul]. zlia.
Qed.

(** ** The length field *)

Definition length_field (n : Z) : Z * bytes :=
  if n <? kPayloadLen16 then (n, [])
  else if n <=? 0xFFFF then (kPayloadLen16, write_be 2 n) else (kPayloadLen64, write_be 8 n).

Lemma length_field_spec n :
  0 <= n < 2 ^ 63 ->
  let '(l7, ext) := length_field n in
  0 <= l7 < 128
  /\ (forall b0 b1 r, ParseLength (b0 :: b1 :: ext ++ r) l7 = inr (n, 2 + zlen ext))
  /\ (forall b0 b1 (r : bytes), (length r < length ext)%nat ->
        ParseLength (b0 :: b1 :: r) l7 = inl FrameIncomplete).
Proof.
  intros Hn. unfold length_field, kPayloadLen16, kPayloadLen64.
  destruct (Z.ltb_spec n 126) as [H|H].
  { split; [lia|]. split; [|cbn; lia]. intros. unfold ParseLength, kPayloadLen16, kPayloadLen64.
    rewrite (proj2 (Z.eqb_neq n 126)), (proj2 (Z.eqb_neq n 127)) by lia. done. }
  destruct (Z.leb_spec n 0xFFFF) as [H2|H2]; (split; [lia|]); split; intros b0 b1 r;
    unfold ParseLength, kPayloadLen16, kPayloadLen64; cbn [Z.eqb Pos.eqb].
  - rewrite (proj2 (Z.ltb_ge _ _)) by (unfold zlen; cbn [length]; rewrite length_app, write_be_bytes; lia).
    change (b0 :: b1 :: write_be 2 n ++ r) with ([b0; b1] ++ write_be 2 n ++ r).
    rewrite subspan_app_mid by (unfold zlen; rewrite ?write_be_bytes; done).
    rewrite read_be_write by (cbn; lia). by rewrite (proj2 (Z.ltb_ge n 126)) by lia.
  - intros Hr. rewrite write_be_bytes in Hr.
    by rewrite (proj2 (Z.ltb_lt _ _)) by (unfold zlen; cbn [length]; lia).
  - rewrite (proj2 (Z.ltb_ge _ _)) by (unfold zlen; cbn [length]; rewrite length_app, write_be_bytes; lia).
    change (b0 :: b1 :: write_be 8 n ++ r) with ([b0; b1] ++ write_be 8 n ++ r).
    rewrite subspan_app_mid by (unfold zlen; rewrite ?write_be_bytes; done).
    rewrite read_be_write by (try lia; change (256 ^ Z.of_nat 8) with (2 ^ 64); lia).
    rewrite Z.shiftr_div_pow2, Z.div_small by lia. cbn [Z.eqb negb].
    by rewrite (proj2 (Z.leb_gt n 0xFFFF)) by lia.
  - intros Hr. rewrite write_be_bytes in Hr.
    by rewrite (proj2 (Z.ltb_lt _ _)) by (unfold zlen; cbn [length]; lia).
Qed.

(** ** The first two bytes *)

Definition first_byte (op : Opcode) (fin rsv1 : bool) : Z :=
  let b := Opcode_to_u8 op in
  let b := if fin then Z.lor b kFinBit else b in
  if rsv1 then Z.lor b kRsv1Bit else b.

Definition second_byte (masked : bool) (l7 : Z) : Z := Z.lor (if masked then kMaskBit else 0) l7.

Lemma second_byte_ok masked l7 :
  0 <= l7 < 128 ->
  negb (Z.land (second_byte masked l7) kMaskBit =? 0) = masked
  /\ Z.land (second_byte masked l7) kPayloadLenMask = l7.
Proof.
  intros Hl. set (test := fun b => Bool.eqb (negb (Z.land (second_byte masked b) kMaskBit =? 0)) masked
                                  && (Z.land (second_byte masked b) kPayloadLenMask =? b)).
  assert (H : forallb test (map Z.of_nat (seq 0 128)) = true) by (destruct masked; vm_compute; reflexivity).
  rewrite forallb_forall in H. specialize (H l7). unfold test in H.
  rewrite andb_true_iff, eqb_true_iff, Z.eqb_eq in H. apply H. apply in_map_iff.
  exists (Z.to_nat l7). split; [lia|]. apply in_seq. lia.
Qed.

Lemma BuildFrameHeader_bytes op n fin masked key rsv1 :
  BuildFrameHeader op n fin masked key rsv1
  = let '(l7, ext) := length_field n in
    first_byte op fin rsv1 :: second_byte masked l7 :: ext ++ (if masked then key_bytes key else []).
Proof.
  unfold BuildFrameHeader, length_field, first_byte, second_byte, kPayloadLen16, kPayloadLen64.
  destruct (n <? 126); [done|]. destruct (n <=? 0xFFFF); reflexivity.
Qed.

(** Frames that the protocol allows. *)
Definition frame_wf (op : Opcode) (n : Z) (fin rsv1 : bool) : Prop :=
  0 <= n < 2 ^ 62 /\ (IsControlFrame op = true -> fin = true /\ rsv1 = false /\ n <= kMaxControlFramePayload).

Lemma ParseFrame_head op fin rsv1 masked n l7 r max allowRsv1 :
  frame_wf op n fin rsv1 -> 0 <= l7 < 128 -> (rsv1 = true -> allowRsv1 = true) ->
  let data := first_byte op fin rsv1 :: second_byte masked l7 :: r in
  ParseFrame data max masked allowRsv1
  = match ParseLength data l7 with
    | inl e => e
    | inr (payloadLength, headerSize) =>
        if IsControlFrame op && (kMaxControlFramePayload <? payloadLength)
        then FrameProtocolError "Control frame payload too large"
        else if (0 <? max) && (max <? payloadLength) then FramePayloadTooLarge
        else ParsePayload data (MkFrameHeader op fin masked rsv1 false false payloadLength 0) headerSize
    end.
Proof.
  intros [_ Hc] Hl Hr data. destruct (second_byte_ok masked l7 Hl) as [Hm H7].
  assert (H2 : (zlen data <? kMinFrameHeaderSize) = false).
  { apply Z.ltb_ge. unfold data, kMinFrameHeaderSize, zlen. cbn [length]. lia. }
  unfold ParseFrame. rewrite H2. change (byte_at data 1) with (second_byte masked l7).
  change (byte_at data 0) with (first_byte op fin rsv1). rewrite Hm, H7. clearbody data. clear H2 Hm H7.
  destruct op; destruct fin; try (destruct (Hc eq_refl) as (? & ? & _); congruence);
    (destruct rsv1; [try (destruct (Hc eq_refl) as (? & ? & _); congruence);
                     rewrite (Hr eq_refl)|]);
    destruct masked; reflexivity.
Qed.

(** ** Round trip *)

(** The bytes of a frame: the header, then the payload as it is on the wire. *)
Lemma BuildFrame_bytes simd op payload fin masked key rsv1 :
  BuildFrame simd op payload fin masked key rsv1
  = let '(l7, ext) := length_field (zlen payload) in
    first_byte op fin rsv1 :: second_byte masked l7 ::
      ext ++ (if masked then key_bytes key else [])
          ++ (if masked then mask_spec key payload else payload).
Proof.
  unfold BuildFrame, AppendFramePayload. rewrite BuildFrameHeader_bytes, ApplyMask_spec.
  destruct (length_field _) as [l7 ext]. by app_simpl.
Qed.

Lemma key_bytes_length key : zlen (key_bytes key) = 4.
Proof. done. Qed.

Lemma ParsePayload_spec b0 b1 ext kb payload r op fin (masked : bool) rsv1 n :
  let data := b0 :: b1 :: ext ++ kb ++ payload ++ r in
  n = zlen payload -> zlen ext <= 8 -> zlen kb = (if masked then 4 else 0) -> n < 2 ^ 62 ->
  ParsePayload data (MkFrameHeader op fin masked rsv1 false false n 0) (2 + zlen ext)
  = FrameComplete
      (MkFrameHeader op fin masked rsv1 false false n (if masked then read_key kb else 0))
      payload (2 + zlen ext + zlen kb + n).
Proof.
  intros data -> He Hk Hn. unfold ParsePayload. cbn [fh_masked fh_opcode fh_fin fh_rsv1 fh_rsv2 fh_rsv3].
  pose proof (zlen_nonneg ext). pose proof (zlen_nonneg payload). pose proof (zlen_nonneg r).
  assert (Hz : zlen data = 2 + zlen ext + zlen kb + zlen payload + zlen r).
  { unfold data. rewrite !zlen_cons, !zlen_app. lia. }
  assert (Hs : (if masked then 2 + zlen ext + kMaskingKeySize else 2 + zlen ext) = 2 + zlen ext + zlen kb).
  { unfold kMaskingKeySize. destruct masked; lia. }
  rewrite Hs, (proj2 (Z.ltb_ge _ _)) by (destruct masked; lia).
  assert (Hkey : masked = true -> subspan (2 + zlen ext) 4 data = kb).
  { intros ->. replace data with ((b0 :: b1 :: ext) ++ kb ++ payload ++ r) by (unfold data; by app_simpl).
    apply subspan_app_mid; [rewrite !zlen_cons; lia|done]. }
  assert (Hp : subspan (2 + zlen ext + zlen kb) (zlen payload) data = payload).
  { replace data with ((b0 :: b1 :: ext ++ kb) ++ payload ++ r) by (unfold data; by app_simpl).
    apply subspan_app_mid; [rewrite !zlen_cons, zlen_app; lia|done]. }
  destruct masked.
  - rewrite (Hkey eq_refl). cbn [fh_payloadLength]. rewrite u64_id by lia.
    rewrite (proj2 (Z.ltb_ge _ _)) by lia. by rewrite Hp.
  - cbn [fh_payloadLength]. rewrite u64_id by lia. rewrite (proj2 (Z.ltb_ge _ _)) by lia. by rewrite Hp.
Qed.

(** A part of the payload, or of the key. *)
Lemma ParsePayload_part b0 b1 ext part op fin (masked : bool) rsv1 n :
  zlen ext <= 8 -> 0 <= n < 2 ^ 62 -> zlen part < (if masked then 4 else 0) + n ->
  ParsePayload (b0 :: b1 :: ext ++ part) (MkFrameHeader op fin masked rsv1 false false n 0) (2 + zlen ext)
  = FrameIncomplete.
Proof.
  intros He Hn Hp. unfold ParsePayload. cbn [fh_masked fh_opcode fh_fin fh_rsv1 fh_rsv2 fh_rsv3].
  pose proof (zlen_nonneg ext).
  assert (Hz : zlen (b0 :: b1 :: ext ++ part) = 2 + zlen ext + zlen part) by (rewrite !zlen_cons, zlen_app; lia).
  rewrite Hz. unfold kMaskingKeySize. destruct masked; cbn [fh_payloadLength]; rewrite u64_id by lia;
    ztest; done || lia.
Qed.

Lemma length_field_ext n : zlen (snd (length_field n)) <= 8.
Proof. unfold length_field, zlen. destruct (_ <? _); [done|]. destruct (_ <=? _); cbn [snd]; rewrite write_be_bytes; lia. Qed.

Lemma zlen_wire key payload (masked : bool) :
  zlen (if masked then mask_spec key payload else payload) = zlen payload.
Proof. unfold zlen. destruct masked; [|done]. unfold mask_spec. by rewrite length_mask_from. Qed.

Section Roundtrip.
Context (simd : Simd) (op : Opcode) (payload : bytes) (fin masked : bool) (key : Z) (rsv1 : bool).
Context (max : Z) (allowRsv1 : bool).
Hypothesis Hwf : frame_wf op (zlen payload) fin rsv1.
Hypothesis Hrsv : rsv1 = true -> allowRsv1 = true.

Let wire := if masked then mask_spec key payload else payload.
Let header := MkFrameHeader op fin masked rsv1 false false (zlen payload) (if masked then key else 0).

Let wire_length : zlen wire = zlen payload := zlen_wire key payload masked.

Lemma parse_checks r :
  let '(l7, ext) := length_field (zlen payload) in
  let data := first_byte op fin rsv1 :: second_byte masked l7 :: r in
  ParseFrame data max masked allowRsv1
  = match ParseLength data l7 with
    | inl e => e
    | inr (n, hs) =>
        if IsControlFrame op && (kMaxControlFramePayload <? n)
        then FrameProtocolError "Control frame payload too large"
        else if (0 <? max) && (max <? n) then FramePayloadTooLarge
        else ParsePayload data (MkFrameHeader op fin masked rsv1 false false n 0) hs
    end.
Proof.
  pose proof (length_field_spec (zlen payload) ltac:(destruct Hwf; lia)) as H.
  destruct (length_field (zlen payload)) as [l7 ext]. destruct H as [Hl _].
  by apply (ParseFrame_head op fin rsv1 masked (zlen payload)).
Qed.

Lemma control_ok : IsControlFrame op && (kMaxControlFramePayload <? zlen payload) = false.
Proof.
  destruct Hwf as [_ Hc]. destruct (IsControlFrame op); [|done]. destruct (Hc eq_refl) as (_ & _ & H).
  apply Z.ltb_ge. exact H.
Qed.

Lemma parse_complete rest :
  0 <= key < 2 ^ 32 ->
  ParseFrame (BuildFrame simd op payload fin masked key rsv1 ++ rest) max masked allowRsv1
  = if (0 <? max) && (max <? zlen payload) then FramePayloadTooLarge
    else FrameComplete header wire (zlen (BuildFrame simd op payload fin masked key rsv1)).
Proof.
  intros Hkey. rewrite BuildFrame_bytes.
  pose proof (length_field_spec (zlen payload) ltac:(destruct Hwf; lia)) as H.
  pose proof (length_field_ext (zlen payload)) as He.
  pose proof parse_checks as Hp. destruct (length_field (zlen payload)) as [l7 ext]. cbn [snd] in He.
  destruct H as (Hl & H & _). fold wire. set (kb := if masked then key_bytes key else []).
  cbn [app]. rewrite Hp. rewrite <- (app_assoc ext), H, control_ok.
  destruct (_ && _); [done|].
  rewrite <- (app_assoc kb). rewrite ParsePayload_spec;
    [|by rewrite wire_length|done|by unfold kb; destruct masked|destruct Hwf; lia].
  f_equal.
  - unfold header. f_equal. unfold kb. destruct masked; [|done]. rewrite <- (app_nil_r (key_bytes key)).
    by apply read_key_bytes.
  - rewrite !zlen_cons, !zlen_app, wire_length. lia.
Qed.

Lemma parse_part part tail :
  ~ (0 < max < zlen payload) ->
  BuildFrame simd op payload fin masked key rsv1 = part ++ tail -> tail <> [] ->
  ParseFrame part max masked allowRsv1 = FrameIncomplete.
Proof.
  intros Hm E Ht. rewrite BuildFrame_bytes in E.
  pose proof (length_field_spec (zlen payload) ltac:(destruct Hwf; lia)) as H.
  pose proof (length_field_ext (zlen payload)) as He.
  pose proof parse_checks as Hp. destruct (length_field (zlen payload)) as [l7 ext]. cbn [snd] in He.
  destruct H as (Hl & H & Hi). fold wire in E. set (kb := if masked then key_bytes key else []) in E.
  assert (Htl : (0 < length tail)%nat) by (destruct tail; [done|cbn; lia]).
  destruct part as [|b0 [|b1 r]]; [done..|]. cbn [app] in E. injection E as <- <- E.
  rewrite Hp. destruct (decide (length r < length ext)%nat) as [Hr|Hr]; [by rewrite Hi|].
  assert (Hrx : exists x, r = ext ++ x /\ kb ++ wire = x ++ tail).
  { exists (drop (length ext) r). apply (f_equal (fun l => (take (length ext) l, drop (length ext) l))) in E.
    rewrite take_app_length, drop_app_length, take_app_le, drop_app_le in E by lia.
    injection E as E1 E2. split; [|done]. rewrite E1 at 1. by rewrite take_drop. }
  destruct Hrx as (x & -> & Ex). rewrite H, control_ok.
  replace ((0 <? max) && (max <? zlen payload)) with false
    by (symmetry; apply andb_false_iff; rewrite !Z.ltb_ge; lia).
  apply ParsePayload_part; [done|destruct Hwf; lia|].
  apply (f_equal zlen) in Ex. rewrite !zlen_app, wire_length in Ex.
  assert (zlen kb = if masked then 4 else 0) by (unfold kb; by destruct masked).
  assert (0 < zlen tail) by (unfold zlen; lia). lia.
Qed.
End Roundtrip.

(** C32: A written frame is parsed to the fields it was written with, whatever follows it: its
    payload, unmasked, is the payload written; any shorter part of it is incomplete, so a
    frame is never cut short; and it is refused exactly when its payload is over the limit.
    This holds for each vector path of the masking and both directions of the connection. *)
Theorem websocket_frame_roundtrip simd op payload fin masked key rsv1 max allowRsv1 rest :
  frame_wf op (zlen payload) fin rsv1 -> (rsv1 = true -> allowRsv1 = true) -> 0 <= key < 2 ^ 32 ->
  let frame := BuildFrame simd op payload fin masked key rsv1 in
  (0 < max < zlen payload ->
    ParseFrame (frame ++ rest) max masked allowRsv1 = FramePayloadTooLarge)
  /\ (~ (0 < max < zlen payload) ->
    (exists wire,
      ParseFrame (frame ++ rest) max masked allowRsv1
        = FrameComplete (MkFrameHeader op fin masked rsv1 false false (zlen payload)
                           (if masked then key else 0)) wire (zlen frame)
      /\ (if masked then ApplyMask simd key wire else wire) = payload)
    /\ forall part tail, frame = part ++ tail -> tail <> [] ->
        ParseFrame part max masked allowRsv1 = FrameIncomplete).
Proof.
  intros Hwf Hr Hk frame. split.
  - intros Hm. unfold frame. rewrite parse_complete by done.
    by rewrite (proj2 (Z.ltb_lt 0 max)), (proj2 (Z.ltb_lt max _)) by lia.
  - intros Hm. split.
    + eexists. unfold frame. rewrite parse_complete by done.
      replace ((0 <? max) && (max <? zlen payload)) with false
        by (symmetry; apply andb_false_iff; rewrite !Z.ltb_ge; lia).
      split; [reflexivity|]. destruct masked; [|done]. rewrite ApplyMask_spec. apply mask_from_involutive.
    + intros part tail E Ht. by eapply parse_part.
Qed.

Lemma websocket_frame_roundtrip_witness :
  let payload := repeat 7 300 in
  let frame := BuildFrame Avx2 Binary payload false true 0x12345678 true in
  (0 < 1000 < zlen payload -> ParseFrame (frame ++ [1; 2]) 1000 true true = FramePayloadTooLarge)
  /\ (~ (0 < 1000 < zlen payload) ->
    (exists wire,
      ParseFrame (frame ++ [1; 2]) 1000 true true
        = FrameComplete (MkFrameHeader Binary false true true false false (zlen payload) 0x12345678)
            wire (zlen frame)
      /\ ApplyMask Avx2 0x12345678 wire = payload)
    /\ forall part tail, frame = part ++ tail -> tail <> [] ->
        ParseFrame part 1000 true true = FrameIncomplete).
Proof.
  apply (websocket_frame_roundtrip Avx2 Binary (repeat 7 300) false true 0x12345678 true 1000 true [1; 2]).
  - split; [vm_compute; split; [discriminate|reflexivity]|discriminate].
  - reflexivity.
  - vm_compute. split; [discriminate|reflexivity].
Defined.
