(* ===== verification/Utf8.v ===== *)
(** Validation of UTF-8 text messages (websocket/websocket-handler.cpp): the scalar decoder
    of multibyte sequences and the loops that skip ASCII sixteen bytes at a time.  The
    theorem shows that every path accepts exactly the encodings of Unicode scalar values. *)

From S2P Require Import Prelude.
From S2P Require Import UrlCodecProofs.
Local Open Scope Z_scope.

(** ** The code *)

(** The continuation bytes: the code point and what follows. *)
Fixpoint continuation (remaining : nat) (codepoint : Z) (ptr : bytes) : option (Z * bytes) :=
  match remaining with
  | O => Some (codepoint, ptr)
  | S remaining =>
      match ptr with
      | [] => None
      | byte :: ptr =>
          if negb (Z.land byte 0xC0 =? 0x80) then None
          else continuation remaining (u32 (Z.lor (Z.shiftl codepoint 6) (Z.land byte 0x3F))) ptr
      end
  end.

(** [Some] is [true], with the pointer after the sequence. *)
Definition ValidateMultibyteSequence (ptr : bytes) (lead : Z) : option bytes :=
  match (if Z.land lead 0xE0 =? 0xC0 then Some (1%nat, Z.land lead 0x1F, 0x80)
         else if Z.land lead 0xF0 =? 0xE0 then Some (2%nat, Z.land lead 0x0F, 0x800)
         else if Z.land lead 0xF8 =? 0xF0 then Some (3%nat, Z.land lead 0x07, 0x10000)
         else None) with
  | None => None
  | Some (remaining, codepoint, minCodepoint) =>
      if decide (length ptr < remaining)%nat then None
      else
        match continuation remaining codepoint ptr with
        | None => None
        | Some (codepoint, ptr) =>
            if codepoint <? minCodepoint then None
            else if (0xD800 <=? codepoint) && (codepoint <=? 0xDFFF) then None
            else if codepoint <=? 0x10FFFF then Some ptr else None
        end
  end.

(** [_mm_movemask_epi8] and [__builtin_ctz]: the offset of the first byte with its high bit
    set; the NEON path scans for the same byte. *)
Fixpoint first_high (l : bytes) : option nat :=
  match l with
  | [] => None
  | b :: l => if negb (Z.land b 0x80 =? 0) then Some 0%nat else option_map S (first_high l)
  end.

Inductive Path := Vector16 | Scalar.

(** The scalar tail. *)
Fixpoint utf8_tail (fuel : nat) (ptr : bytes) : bool :=
  match ptr with
  | [] => true
  | byte :: ptr =>
      match fuel with
      | O => false
      | S fuel =>
          if byte <=? 0x7F then utf8_tail fuel ptr
          else match ValidateMultibyteSequence ptr byte with
               | Some ptr => utf8_tail fuel ptr
               | None => false
               end
      end
  end.

(** The loop on blocks of sixteen bytes: what is left for the tail. *)
Fixpoint utf8_blocks (fuel : nat) (ptr : bytes) : option bytes :=
  match fuel with
  | O => Some ptr
  | S fuel =>
      if decide (16 <= length ptr)%nat then
        match first_high (take 16 ptr) with
        | None => utf8_blocks fuel (drop 16 ptr)
        | Some offset =>
            match drop offset ptr with
            | lead :: ptr =>
                match ValidateMultibyteSequence ptr lead with
                | Some ptr => utf8_blocks fuel ptr
                | None => None
                end
            | [] => None
            end
        end
      else Some ptr
  end.

Definition ValidateUtf8 (path : Path) (data : bytes) : bool :=
  match path with
  | Vector16 =>
      match utf8_blocks (length data) data with
      | Some ptr => utf8_tail (length ptr) ptr
      | None => false
      end
  | Scalar => utf8_tail (length data) data
  end.

(** ** Unicode scalar values and their encoding (RFC 3629) *)

Definition scalar_value (c : Z) : Prop := 0 <= c < 0xD800 \/ 0xDFFF < c <= 0x10FFFF.

Definition utf8_encode (c : Z) : bytes :=
  if c <? 0x80 then [c]
  else if c <? 0x800 then [192 + c / 64; 128 + c mod 64]
  else if c <? 0x10000 then [224 + c / 4096; 128 + c / 64 mod 64; 128 + c mod 64]
  else [240 + c / 262144; 128 + c / 4096 mod 64; 128 + c / 64 mod 64; 128 + c mod 64].

Definition utf8_text (data : bytes) : Prop :=
  exists cs, Forall scalar_value cs /\ data = concat (map utf8_encode cs).

(** ** Bits of bytes *)

Definition byte_bits (b : Z) : bool :=
  Bool.eqb (Z.land b 0xE0 =? 0xC0) ((192 <=? b) && (b <? 224))
  && Bool.eqb (Z.land b 0xF0 =? 0xE0) ((224 <=? b) && (b <? 240))
  && Bool.eqb (Z.land b 0xF8 =? 0xF0) ((240 <=? b) && (b <? 248))
  && Bool.eqb (Z.land b 0xC0 =? 0x80) ((128 <=? b) && (b <? 192))
  && Bool.eqb (Z.land b 0x80 =? 0) (b <? 128)
  && (Z.land b 0x1F =? b mod 32) && (Z.land b 0x0F =? b mod 16) && (Z.land b 0x07 =? b mod 8)
  && (Z.land b 0x3F =? b mod 64).

Lemma byte_bits_ok b : byte_ok b -> byte_bits b = true.
Proof. apply all_bytes. vm_compute. reflexivity. Qed.

Ltac byte_facts b H :=
  let E := fresh "E" in
  pose proof (byte_bits_ok b H) as E; unfold byte_bits in E; unfold byte_ok in H;
  repeat (rewrite andb_true_iff in E);
  rewrite !eqb_true_iff, !Z.eqb_eq in E;
  destruct E as [[[[[[[[? ?] ?] ?] ?] ?] ?] ?] ?].

Lemma continuation_S n cp b ptr :
  byte_ok b -> 0 <= cp < 2 ^ 20 ->
  continuation (S n) cp (b :: ptr)
  = if (128 <=? b) && (b <? 192) then continuation n (cp * 64 + (b - 128)) ptr else None.
Proof.
  intros Hb Hcp. cbn [continuation]. byte_facts b Hb.
  replace (Z.land b 192 =? 128) with ((128 <=? b) && (b <? 192)) by congruence.
  destruct ((128 <=? b) && (b <? 192)) eqn:Er; [|done]. cbn [negb].
  apply andb_true_iff in Er as [?%Z.leb_le ?%Z.ltb_lt].
  replace (Z.land b 63) with (b mod 64) by congruence.
  rewrite lor_shiftl_low by zlia. change (2 ^ 6) with 64. rewrite u32_id by zlia. f_equal. zlia.
Qed.

(** ** Multibyte sequences *)

(** The decoder with its bit operations as arithmetic. *)
Definition multibyte (n : nat) (codepoint minCodepoint : Z) (ptr : bytes) : option bytes :=
  if decide (length ptr < n)%nat then None
  else
    match continuation n codepoint ptr with
    | None => None
    | Some (c, ptr) =>
        if c <? minCodepoint then None
        else if (0xD800 <=? c) && (c <=? 0xDFFF) then None
        else if c <=? 0x10FFFF then Some ptr else None
    end.

Lemma ValidateMultibyte_arith ptr lead :
  byte_ok lead -> 128 <= lead ->
  ValidateMultibyteSequence ptr lead
  = if lead <? 192 then None
    else if lead <? 224 then multibyte 1 (lead - 192) 0x80 ptr
    else if lead <? 240 then multibyte 2 (lead - 224) 0x800 ptr
    else if lead <? 248 then multibyte 3 (lead - 240) 0x10000 ptr
    else None.
Proof.
  intros Hl Hge. unfold ValidateMultibyteSequence, multibyte. byte_facts lead Hl.
  replace (Z.land lead 0xE0 =? 0xC0) with ((192 <=? lead) && (lead <? 224)) by congruence.
  replace (Z.land lead 0xF0 =? 0xE0) with ((224 <=? lead) && (lead <? 240)) by congruence.
  replace (Z.land lead 0xF8 =? 0xF0) with ((240 <=? lead) && (lead <? 248)) by congruence.
  replace (Z.land lead 0x1F) with (lead mod 32) by congruence.
  replace (Z.land lead 0x0F) with (lead mod 16) by congruence.
  replace (Z.land lead 0x07) with (lead mod 8) by congruence.
  clear -Hl Hge. ztest; cbn [andb]; try lia; try done.
  - by replace (lead mod 32) with (lead - 192) by zlia.
  - by replace (lead mod 16) with (lead - 224) by zlia.
  - by replace (lead mod 8) with (lead - 240) by zlia.
Qed.

Definition cont (b : Z) : Prop := 128 <= b < 192.

(** [n] continuation bytes, as a number in base 64. *)
Fixpoint base64 (acc : Z) (bs : bytes) : Z :=
  match bs with [] => acc | b :: bs => base64 (acc * 64 + (b - 128)) bs end.

Lemma continuation_spec n cp ptr c r :
  bytes_ok ptr -> 0 <= cp < 32 -> (n <= 3)%nat ->
  (continuation n cp ptr = Some (c, r)
   <-> exists bs, length bs = n /\ Forall cont bs /\ ptr = bs ++ r /\ c = base64 cp bs).
Proof.
  intros Hp Hcp Hn.
  enough (H : forall k n cp ptr, (n + k = 3)%nat -> bytes_ok ptr -> 0 <= cp < 32 * 64 ^ Z.of_nat k ->
    (continuation n cp ptr = Some (c, r)
     <-> exists bs, length bs = n /\ Forall cont bs /\ ptr = bs ++ r /\ c = base64 cp bs)).
  { apply (H (3 - n)%nat); [lia|done|]. split; [lia|].
    assert (1 <= 64 ^ Z.of_nat (3 - n)) by (apply Z.lt_pred_le, Z.pow_pos_nonneg; lia). nia. }
  clear n cp ptr Hp Hcp Hn. intros k n. revert k. induction n as [|n IH]; intros k cp ptr Hk Hp Hcp.
  { cbn [continuation]. split.
    - intros [= <- <-]. exists []. split_and!; [done|constructor|done|done].
    - intros ([|? ?] & ? & _ & -> & ->); [done|done]. }
  destruct ptr as [|b ptr].
  { split; [done|]. intros ([|? ?] & ? & _ & ? & _); done. }
  apply Forall_cons_1 in Hp as [Hb Hp].
  assert (Hpow : 64 ^ Z.of_nat k <= 64 ^ 2) by (apply Z.pow_le_mono_r; lia).
  rewrite continuation_S by (done || (split; [lia|]; change (64 ^ 2) with 4096 in Hpow; lia)).
  destruct ((128 <=? b) && (b <? 192)) eqn:Er.
  - apply andb_true_iff in Er as [?%Z.leb_le ?%Z.ltb_lt].
    rewrite (IH (S k)); [|lia|done|rewrite Nat2Z.inj_succ, Z.pow_succ_r by lia; lia].
    split.
    + intros (bs & Hl & Hf & -> & ->). exists (b :: bs). split_and!; [by cbn; f_equal|by constructor|done|done].
    + intros ([|b' bs] & Hl & Hf & E & ->); [done|]. injection E as <- ->. injection Hl as Hl.
      apply Forall_cons_1 in Hf as [_ Hf]. by exists bs.
  - split; [done|]. intros ([|b' bs] & Hl & Hf & E & ->); [done|]. injection E as <- ->.
    apply Forall_cons_1 in Hf as [[] _]. apply andb_false_iff in Er as [?%Z.leb_gt|?%Z.ltb_ge]; lia.
Qed.

Lemma multibyte_spec n cp min ptr r :
  bytes_ok ptr -> 0 <= cp < 32 -> (n <= 3)%nat ->
  (multibyte n cp min ptr = Some r
   <-> exists bs, length bs = n /\ Forall cont bs /\ ptr = bs ++ r
        /\ min <= base64 cp bs <= 0x10FFFF /\ ~ (0xD800 <= base64 cp bs <= 0xDFFF)).
Proof.
  intros Hp Hcp Hn. unfold multibyte. split.
  - case_decide; [done|]. destruct (continuation n cp ptr) as [[c r']|] eqn:E; [|done].
    apply continuation_spec in E as (bs & Hl & Hf & -> & ->); [|done..].
    destruct (Z.ltb_spec (base64 cp bs) min); [done|].
    destruct (_ && _) eqn:Es; [done|]. destruct (Z.leb_spec (base64 cp bs) 0x10FFFF); [|done].
    intros [= <-]. exists bs. split_and!; [done..|lia|lia|].
    apply andb_false_iff in Es as [?%Z.leb_gt|?%Z.leb_gt]; lia.
  - intros (bs & Hl & Hf & -> & Hr & Hs).
    rewrite decide_False by (rewrite length_app; lia).
    assert (E : continuation n cp (bs ++ r) = Some (base64 cp bs, r)).
    { apply continuation_spec; [done..|]. by exists bs. }
    rewrite E, (proj2 (Z.ltb_ge _ min)) by lia.
    destruct (_ && _) eqn:Es.
    { apply andb_true_iff in Es as [?%Z.leb_le ?%Z.leb_le]. lia. }
    by rewrite (proj2 (Z.leb_le _ 0x10FFFF)) by lia.
Qed.

Ltac cont_bytes bs Hl Hf :=
  repeat match type of Hl with
  | length bs = _ => destruct bs as [|? bs]; cbn [length] in Hl; try lia
  end;
  repeat match type of Hf with Forall _ (_ :: _) => apply Forall_cons_1 in Hf as [? Hf] end;
  unfold cont in *; cbn [base64 app] in *.

(** The encoding of [c] by the length of its encoding. *)
Lemma utf8_encode_cases c :
  scalar_value c -> 0x80 <= c ->
  exists lead bs, utf8_encode c = lead :: bs /\ Forall cont bs
    /\ ((length bs = 1%nat /\ 192 <= lead < 224 /\ 0x80 <= c /\ c = base64 (lead - 192) bs)
        \/ (length bs = 2%nat /\ 224 <= lead < 240 /\ 0x800 <= c /\ c = base64 (lead - 224) bs)
        \/ (length bs = 3%nat /\ 240 <= lead < 248 /\ 0x10000 <= c /\ c = base64 (lead - 240) bs)).
Proof.
  intros Hs Hc. assert (c <= 0x10FFFF) by (destruct Hs; lia). unfold utf8_encode.
  rewrite (proj2 (Z.ltb_ge c 0x80)) by lia.
  destruct (Z.ltb_spec c 0x800); [|destruct (Z.ltb_spec c 0x10000)]; eexists _, _;
    (split; [reflexivity|split; [repeat (apply Forall_cons_2; [unfold cont; zlia|]); constructor|]]).
  - left. split; [done|]. cbn [base64]. zlia.
  - right; left. split; [done|]. cbn [base64]. zlia.
  - right; right. split; [done|]. cbn [base64]. zlia.
Qed.

Lemma utf8_encode_1 lead b :
  192 <= lead < 224 -> cont b -> 0x80 <= base64 (lead - 192) [b] ->
  utf8_encode (base64 (lead - 192) [b]) = [lead; b].
Proof.
  unfold cont, utf8_encode. cbn [base64]. intros. rewrite (proj2 (Z.ltb_ge _ 0x80)) by lia.
  rewrite (proj2 (Z.ltb_lt _ 0x800)) by lia. repeat (f_equal; try zlia).
Qed.

Lemma utf8_encode_2 lead b b' :
  224 <= lead < 240 -> cont b -> cont b' -> 0x800 <= base64 (lead - 224) [b; b'] ->
  utf8_encode (base64 (lead - 224) [b; b']) = [lead; b; b'].
Proof.
  unfold cont, utf8_encode. cbn [base64]. intros. rewrite (proj2 (Z.ltb_ge _ 0x80)) by lia.
  rewrite (proj2 (Z.ltb_ge _ 0x800)) by lia. rewrite (proj2 (Z.ltb_lt _ 0x10000)) by lia.
  repeat (f_equal; try zlia).
Qed.

Lemma utf8_encode_3 lead b b' b'' :
  240 <= lead < 248 -> cont b -> cont b' -> cont b'' ->
  0x10000 <= base64 (lead - 240) [b; b'; b''] ->
  utf8_encode (base64 (lead - 240) [b; b'; b'']) = [lead; b; b'; b''].
Proof.
  unfold cont, utf8_encode. cbn [base64]. intros. rewrite (proj2 (Z.ltb_ge _ 0x80)) by lia.
  rewrite (proj2 (Z.ltb_ge _ 0x800)) by lia. rewrite (proj2 (Z.ltb_ge _ 0x10000)) by lia.
  repeat (f_equal; try zlia).
Qed.

(** The decoder accepts exactly the encodings of scalar values beyond ASCII. *)
Lemma multibyte_exact ptr lead r :
  byte_ok lead -> bytes_ok ptr -> 128 <= lead ->
  (ValidateMultibyteSequence ptr lead = Some r
   <-> exists c, scalar_value c /\ 0x80 <= c /\ lead :: ptr = utf8_encode c ++ r).
Proof.
  intros Hl Hp Hge. rewrite ValidateMultibyte_arith by done. unfold byte_ok in Hl. split.
  - assert (Hsc : forall c min, 0x80 <= min -> min <= c <= 0x10FFFF -> ~ 0xD800 <= c <= 0xDFFF ->
      scalar_value c /\ 0x80 <= c) by (unfold scalar_value; lia).
    destruct (Z.ltb_spec lead 192); [done|].
    destruct (Z.ltb_spec lead 224); [|destruct (Z.ltb_spec lead 240); [|destruct (Z.ltb_spec lead 248); [|done]]];
      intros (bs & Hb & Hf & -> & Hr & Hs)%multibyte_spec; try done; try lia.
    + exists (base64 (lead - 192) bs). destruct (Hsc _ 0x80 ltac:(lia) Hr Hs). split_and!; [done..|].
      destruct bs as [|b [|]]; try done. rewrite Forall_singleton in Hf. by rewrite utf8_encode_1 by (done || lia).
    + exists (base64 (lead - 224) bs). destruct (Hsc _ 0x800 ltac:(lia) Hr Hs). split_and!; [done..|].
      destruct bs as [|b [|b' [|]]]; try done. rewrite !Forall_cons, Forall_nil in Hf. destruct Hf as (? & ? & _).
      by rewrite utf8_encode_2 by (done || lia).
    + exists (base64 (lead - 240) bs). destruct (Hsc _ 0x10000 ltac:(lia) Hr Hs). split_and!; [done..|].
      destruct bs as [|b [|b' [|b'' [|]]]]; try done. rewrite !Forall_cons, Forall_nil in Hf.
      destruct Hf as (? & ? & ? & _). by rewrite utf8_encode_3 by (done || lia).
  - intros (c & Hs & Hc & E). assert (c <= 0x10FFFF) by (destruct Hs; lia).
    destruct (utf8_encode_cases c Hs Hc) as (lead' & bs & Ee & Hf & Hcase). rewrite Ee in E. injection E as -> ->.
    assert (Hnot : ~ (0xD800 <= c <= 0xDFFF)) by (destruct Hs; lia).
    destruct Hcase as [(? & ? & ? & ->)|[(? & ? & ? & ->)|(? & ? & ? & ->)]]; ztest; try lia;
      (apply multibyte_spec; [done|lia|lia|]; exists bs; by split_and!).
Qed.

(** ** The text *)

Lemma utf8_encode_ascii c : 0 <= c < 128 -> utf8_encode c = [c].
Proof. intros. unfold utf8_encode. by rewrite (proj2 (Z.ltb_lt c 0x80)) by lia. Qed.

Lemma utf8_text_nil : utf8_text [].
Proof. exists []. split; [constructor|done]. Qed.

Lemma utf8_text_app c r : scalar_value c -> utf8_text r -> utf8_text (utf8_encode c ++ r).
Proof. intros Hc (cs & Hf & ->). exists (c :: cs). split; [by constructor|done]. Qed.

(** A text that is not empty starts with one encoding. *)
Lemma utf8_text_inv l :
  utf8_text l -> l = [] \/ exists c r, scalar_value c /\ l = utf8_encode c ++ r /\ utf8_text r.
Proof.
  intros ([|c cs] & Hf & ->); [by left|right]. apply Forall_cons_1 in Hf as [Hc Hf].
  exists c, (concat (map utf8_encode cs)). split_and!; [done|done|by exists cs].
Qed.

Lemma utf8_text_ascii b l : 0 <= b < 128 -> utf8_text (b :: l) <-> utf8_text l.
Proof.
  intros Hb. split.
  - intros [|(c & r & Hc & E & Hr)]%utf8_text_inv; [done|].
    destruct (Z.lt_ge_cases c 128) as [Hlt|Hge].
    + rewrite utf8_encode_ascii in E by (unfold scalar_value in Hc; lia). by injection E as _ ->.
    + destruct (utf8_encode_cases c Hc Hge) as (lead & bs & Ee & _ & Hcase). rewrite Ee in E.
      injection E as -> _. lia.
  - intros Hl. change (b :: l) with ([b] ++ l). rewrite <- (utf8_encode_ascii b) by done.
    apply utf8_text_app; [left; lia|done].
Qed.

Lemma utf8_text_ascii_app p l :
  Forall (fun b => 0 <= b < 128) p -> utf8_text (p ++ l) <-> utf8_text l.
Proof.
  induction 1 as [|b p Hb _ IH]; [done|]. cbn [app]. by rewrite utf8_text_ascii.
Qed.

Lemma utf8_text_lead lead ptr :
  byte_ok lead -> bytes_ok ptr -> 128 <= lead ->
  (utf8_text (lead :: ptr)
   <-> exists r, ValidateMultibyteSequence ptr lead = Some r /\ utf8_text r).
Proof.
  intros Hl Hp Hge. split.
  - intros [|(c & r & Hc & E & Hr)]%utf8_text_inv; [done|]. exists r. split; [|done].
    apply multibyte_exact; [done..|]. exists c. split_and!; [done| |done].
    destruct (Z.lt_ge_cases c 0x80); [|done].
    rewrite utf8_encode_ascii in E by (unfold scalar_value in Hc; lia). injection E as -> _. lia.
  - intros (r & (c & Hc & _ & ->)%multibyte_exact & Hr); [|done..]. by apply utf8_text_app.
Qed.

Lemma multibyte_rest ptr lead r :
  byte_ok lead -> bytes_ok ptr -> 128 <= lead -> ValidateMultibyteSequence ptr lead = Some r ->
  bytes_ok r /\ (length r < length ptr)%nat.
Proof.
  intros Hl Hp Hge (c & Hc & Hc' & E)%multibyte_exact; [|done..].
  destruct (utf8_encode_cases c Hc Hc') as (lead' & bs & Ee & _ & Hcase). rewrite Ee in E.
  injection E as _ ->. apply Forall_app in Hp as [_ ?]. split; [done|]. rewrite length_app. lia.
Qed.

(** ** The loops *)

Lemma utf8_tail_exact fuel ptr :
  bytes_ok ptr -> (length ptr <= fuel)%nat -> utf8_tail fuel ptr = true <-> utf8_text ptr.
Proof.
  revert ptr. induction fuel as [|fuel IH]; intros [|b ptr] Hp Hf; cbn [length] in Hf; try lia.
  1, 2: split; [intros _; apply utf8_text_nil|done].
  cbn [utf8_tail]. apply Forall_cons_1 in Hp as [Hb Hp]. destruct (Z.leb_spec b 0x7F).
  - rewrite utf8_text_ascii by (unfold byte_ok in Hb; lia). apply IH; [done|lia].
  - rewrite utf8_text_lead by (done || lia).
    destruct (ValidateMultibyteSequence ptr b) as [r|] eqn:E.
    + apply multibyte_rest in E as [Hr ?]; [|done || lia..]. rewrite IH by (done || lia). split.
      * intros Ht. by exists r.
      * by intros (? & [= <-] & ?).
    + split; [done|]. by intros (? & ? & _).
Qed.

Lemma high_bit b : byte_ok b -> (Z.land b 0x80 =? 0) = (b <? 128).
Proof. intros Hb. by byte_facts b Hb. Qed.

Lemma first_high_None l : bytes_ok l -> first_high l = None -> Forall (fun b => 0 <= b < 128) l.
Proof.
  induction 1 as [|b l Hb _ IH]; [constructor|]. cbn [first_high]. rewrite high_bit by done.
  unfold byte_ok in Hb. destruct (Z.ltb_spec b 128); [|done]. cbn [negb].
  destruct (first_high l); [done|]. intros _. constructor; [lia|by apply IH].
Qed.

Lemma first_high_Some l k :
  bytes_ok l -> first_high l = Some k ->
  exists p lead r, l = p ++ lead :: r /\ length p = k /\ Forall (fun b => 0 <= b < 128) p /\ 128 <= lead.
Proof.
  intros Hl. revert k. induction Hl as [|b l Hb _ IH]; intros k; [done|]. cbn [first_high].
  rewrite high_bit by done. unfold byte_ok in Hb. destruct (Z.ltb_spec b 128); cbn [negb].
  - destruct (first_high l) as [k'|]; [|done]. intros [= <-].
    destruct (IH k' eq_refl) as (p & lead & r & -> & <- & Hf & ?).
    exists (b :: p), lead, r. split_and!; [done|done|constructor; [lia|done]|done].
  - intros [= <-]. exists [], b, l. split_and!; [done|done|constructor|done].
Qed.

(** Every round of the block loop keeps the verdict. *)
Lemma utf8_blocks_exact fuel ptr :
  bytes_ok ptr ->
  match utf8_blocks fuel ptr with
  | Some r => bytes_ok r /\ (utf8_text ptr <-> utf8_text r)
  | None => ~ utf8_text ptr
  end.
Proof.
  revert ptr. induction fuel as [|fuel IH]; intros ptr Hp; [done|]. cbn [utf8_blocks].
  case_decide as Hlen; [|done]. destruct (first_high (take 16 ptr)) as [k|] eqn:E.
  - apply first_high_Some in E as (p & lead & r & E & <- & Hf & Hge); [|by apply Forall_take].
    assert (Hptr : ptr = p ++ lead :: r ++ drop 16 ptr).
    { rewrite <- (take_drop 16 ptr) at 1. rewrite E. by app_simpl. }
    set (rest := r ++ drop 16 ptr) in *. rewrite Hptr in Hp |- *.
    rewrite drop_app_length. apply Forall_app in Hp as [_ [Hl Hr]%Forall_cons_1].
    assert (Ht : utf8_text (p ++ lead :: rest) <-> utf8_text (lead :: rest)) by by apply utf8_text_ascii_app.
    rewrite utf8_text_lead in Ht by done.
    destruct (ValidateMultibyteSequence rest lead) as [r'|] eqn:Em.
    + apply multibyte_rest in Em as [Hr' _]; [|done..]. specialize (IH r' Hr').
      assert (Ht' : utf8_text (p ++ lead :: rest) <-> utf8_text r').
      { rewrite Ht. split; [by intros (? & [= <-] & ?)|intros; by exists r']. }
      destruct (utf8_blocks fuel r'); by rewrite Ht'.
    + rewrite Ht. by intros (? & ? & _).
  - apply first_high_None in E; [|by apply Forall_take].
    assert (Ht : utf8_text ptr <-> utf8_text (drop 16 ptr)).
    { rewrite <- (take_drop 16 ptr) at 1. by apply utf8_text_ascii_app. }
    specialize (IH (drop 16 ptr) (Forall_drop _ _ _ Hp)).
    destruct (utf8_blocks fuel (drop 16 ptr)); by rewrite Ht.
Qed.

(** C35: the validator of text messages accepts exactly the sequences of encodings of Unicode
    scalar values, and no overlong form, surrogate or value beyond 0x10FFFF, whether it skips
    ASCII in blocks of sixteen bytes or runs byte by byte. *)
Theorem ValidateUtf8_exact (path : Path) (data : bytes) (Hdata : bytes_ok data) :
  ValidateUtf8 path data = true <-> utf8_text data.
Proof.
  destruct path; cbn [ValidateUtf8].
  - pose proof (utf8_blocks_exact (length data) data Hdata) as H.
    destruct (utf8_blocks (length data) data) as [r|]; [|done].
    destruct H as [Hr ->]. by apply utf8_tail_exact.
  - by apply utf8_tail_exact.
Qed.

Lemma ValidateUtf8_exact_witness :
  let data := [104; 101; 108; 108; 111; 32; 119; 111; 114; 108; 100; 32; 240; 159; 140; 141; 33] in
  bytes_ok data /\ ValidateUtf8 Vector16 data = true
  /\ (ValidateUtf8 Vector16 data = true <-> utf8_text data)
  /\ ~ utf8_text [0xED; 0xA0; 0x80].
Proof.
  cbv zeta.
  assert (Hb : bytes_ok [104; 101; 108; 108; 111; 32; 119; 111; 114; 108; 100; 32; 240; 159; 140; 141; 33])
    by (repeat (apply Forall_cons_2; [unfold byte_ok; lia|]); constructor).
  split_and!; [exact Hb|vm_compute; reflexivity|by apply ValidateUtf8_exact|].
  intros H. apply (ValidateUtf8_exact Scalar) in H.
  - vm_compute in H. discriminate.
  - repeat (apply Forall_cons_2; [unfold byte_ok; lia|]); constructor.
Defined.
