(* ===== verification/WebSocketHandler.v ===== *)
(** WebSocket connections (websocket/websocket-handler.hpp and .cpp): reassembly of messages,
    control frames, the close handshake, the carry-over of incomplete frames.

    The members of [WebSocketHandler] are the fields of a record and each member function is
    a function on it.  A callback is a program of the application: it has a state of its own
    and may call the handler back ([App]).  The compression context, a wrapper of zlib
    streams, is a parameter; so are the clock and the vector path.  A callback is given the bytes
    of the payload.  Those of a compressed message are a view of [_compressBuffer], which a send that
    the callback makes may overwrite: [cb_overwritten] says that this happened, after which what the
    callback reads of the payload is not described.  Where the code unmasks the caller's buffer in place the
    payload is a value: the position moves past those bytes at once, nothing reads them again. *)

From S2P Require Import Prelude.
From S2P Require Import WebSocketFrame.
From S2P Require Import Utf8.
Local Open Scope Z_scope.

(** ** State *)

Inductive Action := ActContinue | ActResponseReady | ActUpgrade | ActClose | ActCloseImmediate.
Inductive CloseState := Open | CloseSent | CloseReceived | Closed.

#[export] Instance Action_eq_dec : EqDecision Action.
Proof. solve_decision. Defined.
#[export] Instance CloseState_eq_dec : EqDecision CloseState.
Proof. solve_decision. Defined.

(** What a callback may ask of the handler that runs it. *)
Inductive ApiCall :=
| ApiSendText (text : bytes)
| ApiSendBinary (data : bytes)
| ApiSendPing (payload : bytes)
| ApiSendPong (payload : bytes)
| ApiSendClose (code : Z) (reason : bytes)
| ApiIsClosing
| ApiIsCloseComplete.

(** Programs of the application, with a state [A]. *)
Inductive App (A : Type) :=
| Ret (a : A)
| Call (c : ApiCall) (k : bool -> App A).
Arguments Ret {A} a.
Arguments Call {A} c k.

(** The [std::function]s; [None] is an empty one. *)
Record WebSocketCallbacks (A : Type) := MkCallbacks {
  onMessage : option (bytes -> bool -> A -> App A);
  onPing : option (bytes -> A -> App A);
  onPong : option (bytes -> A -> App A);
  onClose : option (Z -> bytes -> A -> App A);
  onError : option (Z -> bytes -> A -> App A)
}.
Arguments MkCallbacks {A}.
Arguments onMessage {A}.
Arguments onPing {A}.
Arguments onPong {A}.
Arguments onClose {A}.
Arguments onError {A}.

Record WebSocketConfig := MkWsConfig {
  maxMessageSize : Z; maxFrameSize : Z; closeTimeout : Z; minCompressSize : Z;
  isServerSide : bool
}.

Record MessageState := MkMessage { ms_buffer : bytes; ms_opcode : Opcode; ms_inProgress : bool }.

(** [_compressBuffer]: its bytes, whether a callback is running that was given a view of them, and
    whether they were overwritten under such a view. *)
Record CompressBuffer := MkCompressBuffer { cb_data : bytes; cb_viewed : bool; cb_overwritten : bool }.

Record WebSocketHandler (A D : Type) := MkWs {
  ws_config : WebSocketConfig;
  ws_callbacks : WebSocketCallbacks A;
  ws_deflateContext : option D;
  ws_compressBuffer : CompressBuffer;
  ws_closeInitiatedAt : Z;
  ws_outputBuffer : bytes;
  ws_outputOffset : nat;
  ws_message : MessageState;
  ws_inputBuffer : bytes;
  ws_inputBufferOffset : nat;
  ws_rngState : Z;
  ws_closeCode : Z;
  ws_closeState : CloseState;
  ws_messageCompressed : bool;
  ws_app : A
}.
Arguments MkWs {A D}.
Arguments ws_config {A D}.
Arguments ws_callbacks {A D}.
Arguments ws_deflateContext {A D}.
Arguments ws_compressBuffer {A D}.
Arguments ws_closeInitiatedAt {A D}.
Arguments ws_outputBuffer {A D}.
Arguments ws_outputOffset {A D}.
Arguments ws_message {A D}.
Arguments ws_inputBuffer {A D}.
Arguments ws_inputBufferOffset {A D}.
Arguments ws_rngState {A D}.
Arguments ws_closeCode {A D}.
Arguments ws_closeState {A D}.
Arguments ws_messageCompressed {A D}.
Arguments ws_app {A D}.

Section Setters.
Context {A D : Type}.
Local Abbreviation WS := (WebSocketHandler A D).

Definition set_callbacks x (h : WS) : WS :=
  let 'MkWs cf _ d z ca ob oo m ib io r cc cs mc a := h in MkWs cf x d z ca ob oo m ib io r cc cs mc a.
Definition set_deflateContext x (h : WS) : WS :=
  let 'MkWs cf cb _ z ca ob oo m ib io r cc cs mc a := h in MkWs cf cb x z ca ob oo m ib io r cc cs mc a.
Definition set_compressBuffer x (h : WS) : WS :=
  let 'MkWs cf cb d _ ca ob oo m ib io r cc cs mc a := h in MkWs cf cb d x ca ob oo m ib io r cc cs mc a.
Definition set_closeInitiatedAt x (h : WS) : WS :=
  let 'MkWs cf cb d z _ ob oo m ib io r cc cs mc a := h in MkWs cf cb d z x ob oo m ib io r cc cs mc a.
Definition set_output buf off (h : WS) : WS :=
  let 'MkWs cf cb d z ca _ _ m ib io r cc cs mc a := h in MkWs cf cb d z ca buf off m ib io r cc cs mc a.
Definition set_message x (h : WS) : WS :=
  let 'MkWs cf cb d z ca ob oo _ ib io r cc cs mc a := h in MkWs cf cb d z ca ob oo x ib io r cc cs mc a.
Definition set_input buf off (h : WS) : WS :=
  let 'MkWs cf cb d z ca ob oo m _ _ r cc cs mc a := h in MkWs cf cb d z ca ob oo m buf off r cc cs mc a.
Definition set_rngState x (h : WS) : WS :=
  let 'MkWs cf cb d z ca ob oo m ib io _ cc cs mc a := h in MkWs cf cb d z ca ob oo m ib io x cc cs mc a.
Definition set_closeCode x (h : WS) : WS :=
  let 'MkWs cf cb d z ca ob oo m ib io r _ cs mc a := h in MkWs cf cb d z ca ob oo m ib io r x cs mc a.
Definition set_closeState x (h : WS) : WS :=
  let 'MkWs cf cb d z ca ob oo m ib io r cc _ mc a := h in MkWs cf cb d z ca ob oo m ib io r cc x mc a.
Definition set_messageCompressed x (h : WS) : WS :=
  let 'MkWs cf cb d z ca ob oo m ib io r cc cs _ a := h in MkWs cf cb d z ca ob oo m ib io r cc cs x a.
Definition set_app x (h : WS) : WS :=
  let 'MkWs cf cb d z ca ob oo m ib io r cc cs mc _ := h in MkWs cf cb d z ca ob oo m ib io r cc cs mc x.
End Setters.

(** [DeflateContext::compress] and [decompress], the latter with a limit of size; [None] is an
    error message. *)
Class Deflate (D : Type) := MkDeflate {
  compress : D -> bytes -> D * option bytes;
  decompress : D -> bytes -> Z -> D * option bytes
}.

(** The masking key and the next state of splitmix64. *)
Definition GenerateMaskingKey (rngState : Z) : Z * Z :=
  let rngState := u64 (rngState + 0x9e3779b97f4a7c15) in
  let val := rngState in
  let val := u64 (Z.lxor val (Z.shiftr val 30) * 0xbf58476d1ce4e5b9) in
  let val := u64 (Z.lxor val (Z.shiftr val 27) * 0x94d049bb133111eb) in
  let val := Z.lxor val (Z.shiftr val 31) in
  (u32 val, rngState).

Section Handler.
Context {A D : Type} {deflate : Deflate D} (simd : Simd) (path : Path).
Local Abbreviation WS := (WebSocketHandler A D).

(** ** Sending *)

Definition shouldMask (h : WS) : bool := negb (isServerSide (ws_config h)).

(** The key of the next frame. *)
Definition next_mask (h : WS) : Z * WS :=
  if shouldMask h then
    let '(mask, rng) := GenerateMaskingKey (ws_rngState h) in (mask, set_rngState rng h)
  else (0, h).

Definition append_output (frame : bytes) (h : WS) : WS :=
  set_output (ws_outputBuffer h ++ frame) (ws_outputOffset h) h.

Definition queueFrame (opcode : Opcode) (payload : bytes) (fin : bool) (h : WS) : WS :=
  let '(mask, h) := next_mask h in
  append_output (BuildFrame simd opcode payload fin (shouldMask h) mask false) h.

(** [_compressBuffer.clear()], then the bytes that are appended to it. *)
Definition refill (data : bytes) (h : WS) : WS :=
  let 'MkCompressBuffer _ viewed overwritten := ws_compressBuffer h in
  set_compressBuffer (MkCompressBuffer data viewed (overwritten || viewed)) h.

(** A callback that has a view of the buffer starts, or ends. *)
Definition set_viewed (viewed : bool) (h : WS) : WS :=
  let 'MkCompressBuffer data _ overwritten := ws_compressBuffer h in
  set_compressBuffer (MkCompressBuffer data viewed overwritten) h.

(** [_deflateContext && !shouldSkipCompression(size)], then [compress]: the compressed payload
    when it is smaller. *)
Definition try_compress (payload : bytes) (h : WS) : option bytes * WS :=
  match ws_deflateContext h with
  | None => (None, h)
  | Some d =>
      if zlen payload <? minCompressSize (ws_config h) then (None, h)
      else
        let '(d, r) := compress d payload in
        let h := set_deflateContext (Some d) (refill (default [] r) h) in
        match r with
        | Some out => if zlen out <? zlen payload then (Some out, h) else (None, h)
        | None => (None, h)
        end
  end.

Definition sendData (opcode : Opcode) (payload : bytes) (h : WS) : bool * WS :=
  if decide (ws_closeState h <> Open) then (false, h)
  else
    let '(compressed, h) := try_compress payload h in
    match compressed with
    | Some out =>
        let '(mask, h) := next_mask h in
        (true, append_output (BuildFrame simd opcode out true (shouldMask h) mask true) h)
    | None => (true, queueFrame opcode payload true h)
    end.

Definition sendText (text : bytes) := sendData Text text.
Definition sendBinary (data : bytes) := sendData Binary data.

Definition first_125 (payload : bytes) : bytes :=
  if kMaxControlFramePayload <? zlen payload then take (Z.to_nat kMaxControlFramePayload) payload
  else payload.

Definition sendPing (payload : bytes) (h : WS) : bool * WS :=
  if decide (ws_closeState h <> Open) then (false, h)
  else (true, queueFrame Ping (first_125 payload) true h).

Definition sendPong (payload : bytes) (h : WS) : bool * WS :=
  if decide (ws_closeState h = Closed) then (false, h)
  else (true, queueFrame Pong (first_125 payload) true h).

(** [now] is what the clock reads if it is read. *)
Definition sendClose (now : Z) (code : Z) (reason : bytes) (h : WS) : bool * WS :=
  if decide (ws_closeState h = CloseSent) then (false, h)
  else if decide (ws_closeState h = Closed) then (false, h)
  else
    let '(mask, h) := next_mask h in
    let h := append_output (BuildCloseFrame simd code reason (shouldMask h) mask) h in
    let h := if decide (ws_closeState h = Open)
             then set_closeInitiatedAt now (set_closeState CloseSent h) else h in
    (true, set_closeCode code h).

Definition isClosing (h : WS) : bool := bool_decide (ws_closeState h <> Open).
Definition isCloseComplete (h : WS) : bool := bool_decide (ws_closeState h = Closed).

(** ** Callbacks *)

Section Clock.
Context (now : Z).

Definition run_api (c : ApiCall) (h : WS) : bool * WS :=
  match c with
  | ApiSendText text => sendText text h
  | ApiSendBinary data => sendBinary data h
  | ApiSendPing payload => sendPing payload h
  | ApiSendPong payload => sendPong payload h
  | ApiSendClose code reason => sendClose now code reason h
  | ApiIsClosing => (isClosing h, h)
  | ApiIsCloseComplete => (isCloseComplete h, h)
  end.

Fixpoint run_app (p : App A) (h : WS) : WS :=
  match p with
  | Ret a => set_app a h
  | Call c k => let '(b, h) := run_api c h in run_app (k b) h
  end.

(** [if (callback) callback(...)]. *)
Definition invoke (callback : option (A -> App A)) (h : WS) : WS :=
  match callback with Some f => run_app (f (ws_app h)) h | None => h end.

Definition call_onMessage (payload : bytes) (isBinary : bool) (h : WS) : WS :=
  invoke (option_map (fun f => f payload isBinary) (onMessage (ws_callbacks h))) h.
Definition call_onPing (payload : bytes) (h : WS) : WS :=
  invoke (option_map (fun f => f payload) (onPing (ws_callbacks h))) h.
Definition call_onPong (payload : bytes) (h : WS) : WS :=
  invoke (option_map (fun f => f payload) (onPong (ws_callbacks h))) h.
Definition call_onClose (code : Z) (reason : bytes) (h : WS) : WS :=
  invoke (option_map (fun f => f code reason) (onClose (ws_callbacks h))) h.
Definition call_onError (code : Z) (message : bytes) (h : WS) : WS :=
  invoke (option_map (fun f => f code message) (onError (ws_callbacks h))) h.

(** The error branches: the callback, then the close frame. *)
Definition fail_with (code : Z) (message : bytes) (h : WS) : WS :=
  snd (sendClose now code message (call_onError code message h)).

(** ** Messages *)

Definition clear_message (h : WS) : WS :=
  set_message (MkMessage [] (ms_opcode (ws_message h)) false) h.

(** The bytes of the message, and whether they are those of [_compressBuffer]. *)
Definition messageData (h : WS) : option bytes * bool * WS :=
  match ws_deflateContext h with
  | Some d =>
      if ws_messageCompressed h then
        let '(d, r) := decompress d (ms_buffer (ws_message h)) (maxMessageSize (ws_config h)) in
        (r, true, set_deflateContext (Some d) (refill (default [] r) h))
      else (Some (ms_buffer (ws_message h)), false, h)
  | None => (Some (ms_buffer (ws_message h)), false, h)
  end.

Definition call_with_view (viewed : bool) (payload : bytes) (isBinary : bool) (h : WS) : WS :=
  if viewed then set_viewed false (call_onMessage payload isBinary (set_viewed true h))
  else call_onMessage payload isBinary h.

Definition completeMessage (h : WS) : WS * Action :=
  let '(data, viewed, h) := messageData h in
  match data with
  | None =>
      let h := fail_with CloseInvalidPayloadData (str "Decompression failed") h in
      (set_messageCompressed false (clear_message h), ActClose)
  | Some data =>
      if bool_decide (ms_opcode (ws_message h) = Text) && negb (ValidateUtf8 path data) then
        let h := fail_with CloseInvalidPayloadData (str "Invalid UTF-8 in text message") h in
        (set_messageCompressed false (clear_message h), ActClose)
      else
        let h := call_with_view viewed data (bool_decide (ms_opcode (ws_message h) = Binary)) h in
        (set_messageCompressed false (clear_message h), ActContinue)
  end.

(** [ApplyMask] when the frame is masked. *)
Definition unmask (header : FrameHeader) (payload : bytes) : bytes :=
  if fh_masked header && negb (Nat.eqb (length payload) 0)
  then ApplyMask simd (fh_maskingKey header) payload else payload.

Definition too_big (size : Z) (h : WS) : bool :=
  (0 <? maxMessageSize (ws_config h)) && (maxMessageSize (ws_config h) <? size).

(** The fragmented or compressed path of [handleDataFrame]: append, and complete on FIN. *)
Definition accumulate (header : FrameHeader) (payload : bytes) (h : WS) : WS * Action :=
  if too_big (zlen (ms_buffer (ws_message h)) + zlen payload) h then
    (clear_message (fail_with CloseMessageTooBig (str "Message too large") h), ActClose)
  else
    let h := set_message (MkMessage (ms_buffer (ws_message h) ++ unmask header payload)
                            (ms_opcode (ws_message h)) (ms_inProgress (ws_message h))) h in
    if fh_fin header then completeMessage h else (h, ActContinue).

Definition handleDataFrame (header : FrameHeader) (payload : bytes) (h : WS) : WS * Action :=
  if decide (fh_opcode header = Continuation) then
    if negb (ms_inProgress (ws_message h)) then
      (fail_with CloseProtocolError (str "Unexpected continuation frame") h, ActClose)
    else accumulate header payload h
  else if ms_inProgress (ws_message h) then
    (fail_with CloseProtocolError (str "Expected continuation frame") h, ActClose)
  else if fh_fin header && negb (bool_decide (is_Some (ws_deflateContext h))) then
    (* a complete message: no copy *)
    if too_big (zlen payload) h then
      (fail_with CloseMessageTooBig (str "Message too large") h, ActClose)
    else
      let payload := unmask header payload in
      if bool_decide (fh_opcode header = Text) && negb (ValidateUtf8 path payload) then
        (fail_with CloseInvalidPayloadData (str "Invalid UTF-8 in text message") h, ActClose)
      else (call_onMessage payload (bool_decide (fh_opcode header = Binary)) h, ActContinue)
  else
    let h := set_message (MkMessage [] (fh_opcode header) true) h in
    accumulate header payload (set_messageCompressed (fh_rsv1 header) h).

(** ** Control frames *)

Definition handleControlFrame (header : FrameHeader) (payload : bytes) (h : WS) : WS * Action :=
  match fh_opcode header with
  | Ping => (call_onPing payload (snd (sendPong payload h)), ActResponseReady)
  | Pong => (call_onPong payload h, ActContinue)
  | _ =>
      let closeInfo := ParseClosePayload payload in
      let '(h, action) :=
        match ws_closeState h with
        | Open =>
            let h := set_closeCode (cp_code closeInfo) (set_closeState CloseReceived h) in
            let h := snd (sendClose now (cp_code closeInfo) (cp_reason closeInfo) h) in
            (set_closeState Closed h, ActResponseReady)
        | CloseSent => (set_closeState Closed h, ActClose)
        | _ => (h, ActContinue)
        end in
      (call_onClose (cp_code closeInfo) (cp_reason closeInfo) h, action)
  end.

Definition processFrame (header : FrameHeader) (payload : bytes) (h : WS) : WS * Action :=
  if IsControlFrame (fh_opcode header)
  then handleControlFrame header (unmask header payload) h
  else handleDataFrame header payload h.

(** ** Input *)

(** [Need more data]: keep the remainder. *)
Definition save_remainder (data : bytes) (totalConsumed : nat) (h : WS) : WS :=
  if decide (ws_inputBuffer h = []) then set_input data 0%nat h
  else
    let offset := (ws_inputBufferOffset h + totalConsumed)%nat in
    if decide (length (ws_inputBuffer h) / 2 < offset)%nat
    then set_input (drop offset (ws_inputBuffer h)) 0%nat h
    else set_input (ws_inputBuffer h) offset h.

Record ProcessResult := MkResult { pr_handler : WS; pr_action : Action; pr_consumed : nat }.

(** The loop of [processInput]: every frame takes a byte at least, so as many steps as bytes. *)
Fixpoint process_frames (fuel : nat) (data : bytes) (totalConsumed : nat) (action : Action) (h : WS)
  : ProcessResult :=
  if Nat.eqb (length data) 0 then MkResult (set_input [] 0%nat h) action totalConsumed
  else
    match fuel with
    | O => MkResult h action totalConsumed
    | S fuel =>
        let allowRsv1 := bool_decide (is_Some (ws_deflateContext h)) in
        match ParseFrame data (maxFrameSize (ws_config h)) (isServerSide (ws_config h)) allowRsv1 with
        | FrameIncomplete => MkResult (save_remainder data totalConsumed h) action totalConsumed
        | FrameProtocolError errorMessage =>
            MkResult (fail_with CloseProtocolError (str errorMessage) h) ActClose totalConsumed
        | FramePayloadTooLarge =>
            MkResult (fail_with CloseMessageTooBig (str "Frame payload too large") h) ActClose
              totalConsumed
        | FrameComplete header payload bytesConsumed =>
            let '(h, frameAction) := processFrame header payload h in
            let totalConsumed := (totalConsumed + Z.to_nat bytesConsumed)%nat in
            let data := drop (Z.to_nat bytesConsumed) data in
            match frameAction with
            | ActClose => MkResult (set_input [] (ws_inputBufferOffset h) h) ActClose totalConsumed
            | ActResponseReady => process_frames fuel data totalConsumed ActResponseReady h
            | _ => process_frames fuel data totalConsumed action h
            end
        end
    end.

(** The bytes of the caller among those consumed. *)
Definition consumedFromCaller (carryOverBytes callerDataSize consumedTotal : nat) : nat :=
  if decide (consumedTotal <= carryOverBytes)%nat then 0%nat
  else Nat.min (consumedTotal - carryOverBytes) callerDataSize.

Definition processInput (data : bytes) (h : WS) : ProcessResult :=
  let callerDataSize := length data in
  let '(carryOverBytes, data, h) :=
    if decide (ws_inputBufferOffset h < length (ws_inputBuffer h))%nat then
      let carry := (length (ws_inputBuffer h) - ws_inputBufferOffset h)%nat in
      let h := set_input (ws_inputBuffer h ++ data) (ws_inputBufferOffset h) h in
      (carry, drop (ws_inputBufferOffset h) (ws_inputBuffer h), h)
    else (0%nat, data, h) in
  let r := process_frames (length data) data 0%nat ActContinue h in
  MkResult (pr_handler r) (pr_action r)
    (consumedFromCaller carryOverBytes callerDataSize (pr_consumed r)).

(** ** Output and life cycle *)

Definition getPendingOutput (h : WS) : bytes := drop (ws_outputOffset h) (ws_outputBuffer h).

Definition onOutputWritten (bytesWritten : nat) (h : WS) : WS :=
  let offset := (ws_outputOffset h + bytesWritten)%nat in
  if decide (length (ws_outputBuffer h) <= offset)%nat then set_output [] 0%nat h
  else set_output (ws_outputBuffer h) offset h.

(** [dest] with what was pending, and whether anything was. *)
Definition drainOutputBuffer (dest : bytes) (h : WS) : bool * bytes * WS :=
  if decide (length (ws_outputBuffer h) <= ws_outputOffset h)%nat then (false, dest, h)
  else if Nat.eqb (ws_outputOffset h) 0 && Nat.eqb (length dest) 0
  then (true, ws_outputBuffer h, set_output [] (ws_outputOffset h) h)
  else
    let pending := getPendingOutput h in
    (true, dest ++ pending, onOutputWritten (length pending) h).

Definition initiateClose (h : WS) : WS :=
  if decide (ws_closeState h = Open)
  then snd (sendClose now CloseGoingAway (str "Server shutting down") h) else h.

Definition onTransportClosing (h : WS) : WS :=
  set_input [] 0%nat (clear_message (set_closeState Closed h)).

Definition hasCloseTimedOut (h : WS) : bool :=
  if decide (ws_closeState h <> CloseSent) then false
  else closeTimeout (ws_config h) <? now - ws_closeInitiatedAt h.

Definition forceCloseOnTimeout (h : WS) : WS :=
  if decide (ws_closeState h = CloseSent) then set_closeState Closed h else h.

Definition setCallbacks (callbacks : WebSocketCallbacks A) (h : WS) : WS :=
  set_callbacks callbacks h.
End Clock.

(** The constructor; [seed] is the clock and the address that a client mixes. *)
Definition WebSocketHandler_new (config : WebSocketConfig) (callbacks : WebSocketCallbacks A)
  (deflateContext : option D) (seed : Z) (a : A) : WS :=
  MkWs config callbacks deflateContext (MkCompressBuffer [] false false) 0 [] 0%nat (MkMessage [] Text false) [] 0%nat
    (if isServerSide config then 0 else seed) CloseNormal Open false a.
End Handler.

Arguments MkResult {A D}.
Arguments pr_handler {A D}.
Arguments pr_action {A D}.
Arguments pr_consumed {A D}.
