(* ===== verification/WebSocketSends.v ===== *)
(** What every operation of a WebSocket connection sends, and what it leaves alone: the
    operations do not depend on the carry-over of input, and their output is a sequence of
    frames that follows the close handshake.  Shared by the theorems on input and on
    histories. *)

From S2P Require Import Prelude.
From S2P Require Import AsciiCase.
From S2P Require Import WebSocketFrame.
From S2P Require Import Utf8.
From S2P Require Import WebSocketHandler.
Local Open Scope Z_scope.

(** Unpacks a handler so that the setters compute. *)
Ltac ws_unpack h := destruct h; cbn in *.

(** An update of the message being assembled and of the carry-over. *)
Definition set_rest {A D} (fm : MessageState -> MessageState) (fi : bytes -> bytes) (fo : nat -> nat)
  (fc : bool -> bool) (h : WebSocketHandler A D) : WebSocketHandler A D :=
  let 'MkWs cf cb d z ca ob oo m ib io r cc cs mc a := h in
  MkWs cf cb d z ca ob oo (fm m) (fi ib) (fo io) r cc cs (fc mc) a.

Section Unobserved.
Context {A D : Type} {deflate : Deflate D} (simd : Simd) (path : Path) (now : Z).
Context (fm : MessageState -> MessageState) (fi : bytes -> bytes) (fo : nat -> nat) (fc : bool -> bool).
Local Abbreviation WS := (WebSocketHandler A D).
Implicit Types h : WS.

(** ** Sending and calling back look at neither the message nor the carry-over *)

Lemma next_mask_rest h :
  next_mask (set_rest fm fi fo fc h) = (fst (next_mask h), set_rest fm fi fo fc (snd (next_mask h))).
Proof.
  destruct h as [[] ?]; unfold next_mask, shouldMask; cbn. by case_match.
Qed.

Lemma append_output_rest f h :
  append_output f (set_rest fm fi fo fc h) = set_rest fm fi fo fc (append_output f h).
Proof. by destruct h. Qed.

Lemma queueFrame_rest op p fin h :
  queueFrame simd op p fin (set_rest fm fi fo fc h) = set_rest fm fi fo fc (queueFrame simd op p fin h).
Proof.
  unfold queueFrame. rewrite next_mask_rest. destruct (next_mask h) as [m h']. cbn.
  rewrite <- append_output_rest. by destruct h'.
Qed.

Lemma try_compress_rest p h :
  try_compress p (set_rest fm fi fo fc h) = (fst (try_compress p h), set_rest fm fi fo fc (snd (try_compress p h))).
Proof.
  destruct h as [? ? ? [] ?]; unfold try_compress; cbn. case_match; [|done]. case_match; [done|].
  case_match. case_match; [|done]. by case_match.
Qed.

Lemma sendData_rest op p h :
  sendData simd op p (set_rest fm fi fo fc h)
  = (fst (sendData simd op p h), set_rest fm fi fo fc (snd (sendData simd op p h))).
Proof.
  unfold sendData. replace (ws_closeState (set_rest fm fi fo fc h)) with (ws_closeState h) by by destruct h.
  case_decide; [done|]. rewrite try_compress_rest. destruct (try_compress p h) as [[out|] h']; cbn.
  - rewrite next_mask_rest. destruct (next_mask h') as [m h'']. cbn.
    rewrite <- append_output_rest. by destruct h''.
  - by rewrite queueFrame_rest.
Qed.

Lemma sendPing_rest p h :
  sendPing simd p (set_rest fm fi fo fc h) = (fst (sendPing simd p h), set_rest fm fi fo fc (snd (sendPing simd p h))).
Proof.
  unfold sendPing. replace (ws_closeState (set_rest fm fi fo fc h)) with (ws_closeState h) by by destruct h.
  case_decide; [done|]. by rewrite queueFrame_rest.
Qed.

Lemma sendPong_rest p h :
  sendPong simd p (set_rest fm fi fo fc h) = (fst (sendPong simd p h), set_rest fm fi fo fc (snd (sendPong simd p h))).
Proof.
  unfold sendPong. replace (ws_closeState (set_rest fm fi fo fc h)) with (ws_closeState h) by by destruct h.
  case_decide; [done|]. by rewrite queueFrame_rest.
Qed.

Lemma sendClose_rest code r h :
  sendClose simd now code r (set_rest fm fi fo fc h)
  = (fst (sendClose simd now code r h), set_rest fm fi fo fc (snd (sendClose simd now code r h))).
Proof.
  unfold sendClose. replace (ws_closeState (set_rest fm fi fo fc h)) with (ws_closeState h) by by destruct h.
  case_decide; [done|]. case_decide; [done|]. rewrite next_mask_rest.
  destruct (next_mask h) as [m h']. destruct h'; cbn. by case_decide.
Qed.

Lemma run_api_rest c h :
  run_api simd now c (set_rest fm fi fo fc h)
  = (fst (run_api simd now c h), set_rest fm fi fo fc (snd (run_api simd now c h))).
Proof.
  destruct c; cbn.
  - apply sendData_rest.
  - apply sendData_rest.
  - apply sendPing_rest.
  - apply sendPong_rest.
  - apply sendClose_rest.
  - by destruct h.
  - by destruct h.
Qed.

Lemma run_app_rest p h :
  run_app simd now p (set_rest fm fi fo fc h) = set_rest fm fi fo fc (run_app simd now p h).
Proof.
  revert h. induction p as [a|c k IH]; intros h; cbn; [by destruct h|].
  rewrite run_api_rest. destruct (run_api simd now c h). cbn. apply IH.
Qed.

Lemma invoke_rest f h :
  invoke simd now f (set_rest fm fi fo fc h) = set_rest fm fi fo fc (invoke simd now f h).
Proof. destruct f; cbn; [|done]. rewrite <- run_app_rest. by destruct h. Qed.

Lemma call_rest h :
  (forall p bin, call_onMessage simd now p bin (set_rest fm fi fo fc h) = set_rest fm fi fo fc (call_onMessage simd now p bin h))
  /\ (forall p, call_onPing simd now p (set_rest fm fi fo fc h) = set_rest fm fi fo fc (call_onPing simd now p h))
  /\ (forall p, call_onPong simd now p (set_rest fm fi fo fc h) = set_rest fm fi fo fc (call_onPong simd now p h))
  /\ (forall c r, call_onClose simd now c r (set_rest fm fi fo fc h) = set_rest fm fi fo fc (call_onClose simd now c r h))
  /\ (forall c r, call_onError simd now c r (set_rest fm fi fo fc h) = set_rest fm fi fo fc (call_onError simd now c r h)).
Proof.
  split_and!; intros;
    unfold call_onMessage, call_onPing, call_onPong, call_onClose, call_onError;
    rewrite <- invoke_rest; by destruct h.
Qed.

Lemma fail_with_rest c m h :
  fail_with simd now c m (set_rest fm fi fo fc h) = set_rest fm fi fo fc (fail_with simd now c m h).
Proof.
  unfold fail_with. destruct (call_rest h) as (_ & _ & _ & _ & ->). by rewrite sendClose_rest.
Qed.

End Unobserved.

Section Input.
Context {A D : Type} {deflate : Deflate D} (simd : Simd) (path : Path) (now : Z).
Context (b : bytes) (o : nat).
Local Abbreviation WS := (WebSocketHandler A D).
Implicit Types h : WS.

(** ** No operation looks at the carry-over *)

Lemma set_input_rest h : set_input b o h = set_rest id (fun _ => b) (fun _ => o) id h.
Proof. by destruct h. Qed.

Lemma sendPong_input p h :
  sendPong simd p (set_input b o h) = (fst (sendPong simd p h), set_input b o (snd (sendPong simd p h))).
Proof. rewrite !set_input_rest. apply sendPong_rest. Qed.

Lemma sendClose_input code r h :
  sendClose simd now code r (set_input b o h)
  = (fst (sendClose simd now code r h), set_input b o (snd (sendClose simd now code r h))).
Proof. rewrite !set_input_rest. apply sendClose_rest. Qed.

Lemma call_input h :
  (forall p bin, call_onMessage simd now p bin (set_input b o h) = set_input b o (call_onMessage simd now p bin h))
  /\ (forall p, call_onPing simd now p (set_input b o h) = set_input b o (call_onPing simd now p h))
  /\ (forall p, call_onPong simd now p (set_input b o h) = set_input b o (call_onPong simd now p h))
  /\ (forall c r, call_onClose simd now c r (set_input b o h) = set_input b o (call_onClose simd now c r h))
  /\ (forall c r, call_onError simd now c r (set_input b o h) = set_input b o (call_onError simd now c r h)).
Proof. split_and!; intros; rewrite !set_input_rest; apply call_rest. Qed.

Lemma fail_with_input c m h :
  fail_with simd now c m (set_input b o h) = set_input b o (fail_with simd now c m h).
Proof. rewrite !set_input_rest. apply fail_with_rest. Qed.

Lemma clear_message_input h : clear_message (set_input b o h) = set_input b o (clear_message h).
Proof. by destruct h. Qed.

Local Abbreviation lift r := (set_input b o (fst r), snd r) (only parsing).

Lemma refill_input d h : refill d (set_input b o h) = set_input b o (refill d h).
Proof. by destruct h as [? ? ? [] ?]. Qed.
Lemma set_viewed_input v h : set_viewed v (set_input b o h) = set_input b o (set_viewed v h).
Proof. by destruct h as [? ? ? [] ?]. Qed.

Lemma messageData_input h :
  messageData (set_input b o h) = let '(data, viewed, h) := messageData h in (data, viewed, set_input b o h).
Proof.
  unfold messageData.
  replace (ws_deflateContext (set_input b o h)) with (ws_deflateContext h) by by destruct h.
  replace (ws_messageCompressed (set_input b o h)) with (ws_messageCompressed h) by by destruct h.
  replace (ws_message (set_input b o h)) with (ws_message h) by by destruct h.
  replace (ws_config (set_input b o h)) with (ws_config h) by by destruct h.
  destruct (ws_deflateContext h) as [d|]; [|done]. destruct (ws_messageCompressed h); [|done].
  destruct (decompress _ _ _) as [d' r]. rewrite refill_input. by destruct (refill _ h).
Qed.

Lemma call_with_view_input v p bin h :
  call_with_view simd now v p bin (set_input b o h) = set_input b o (call_with_view simd now v p bin h).
Proof.
  unfold call_with_view. destruct v; [|apply call_input].
  rewrite set_viewed_input, (proj1 (call_input (set_viewed true h))). by rewrite set_viewed_input.
Qed.

Lemma completeMessage_input h :
  completeMessage simd path now (set_input b o h) = lift (completeMessage simd path now h).
Proof.
  unfold completeMessage. rewrite messageData_input. destruct (messageData h) as [[data v] h'].
  replace (ws_message (set_input b o h')) with (ws_message h') by by destruct h'.
  destruct data as [d|]; [case_match|]; cbn [fst snd];
    rewrite ?fail_with_input, ?call_with_view_input, clear_message_input; by destruct (clear_message _).
Qed.

Lemma accumulate_input hd p h :
  accumulate simd path now hd p (set_input b o h) = lift (accumulate simd path now hd p h).
Proof.
  unfold accumulate. replace (too_big _ (set_input b o h))
    with (too_big (zlen (ms_buffer (ws_message h)) + zlen p) h) by by destruct h.
  case_match.
  - by rewrite fail_with_input, clear_message_input.
  - replace (set_message _ (set_input b o h)) with
      (set_input b o (set_message (MkMessage (ms_buffer (ws_message h) ++ unmask simd hd p)
         (ms_opcode (ws_message h)) (ms_inProgress (ws_message h))) h)) by by destruct h.
    case_match; [apply completeMessage_input|done].
Qed.

Lemma handleDataFrame_input hd p h :
  handleDataFrame simd path now hd p (set_input b o h) = lift (handleDataFrame simd path now hd p h).
Proof.
  unfold handleDataFrame.
  replace (ws_message (set_input b o h)) with (ws_message h) by by destruct h.
  replace (ws_deflateContext (set_input b o h)) with (ws_deflateContext h) by by destruct h.
  replace (too_big (zlen p) (set_input b o h)) with (too_big (zlen p) h) by by destruct h.
  case_decide; [case_match; [by rewrite fail_with_input|apply accumulate_input]|].
  case_match; [by rewrite fail_with_input|]. case_match; [case_match|].
  - by rewrite fail_with_input.
  - case_match; [by rewrite fail_with_input|]. by destruct (call_input h) as (-> & _).
  - rewrite <- accumulate_input. by destruct h.
Qed.

Lemma handleControlFrame_input hd p h :
  handleControlFrame simd now hd p (set_input b o h) = lift (handleControlFrame simd now hd p h).
Proof.
  unfold handleControlFrame.
  assert (Hclose :
    (let closeInfo := ParseClosePayload p in
     let '(h, action) :=
        match ws_closeState (set_input b o h) with
        | Open =>
            let h := set_closeCode (cp_code closeInfo) (set_closeState CloseReceived (set_input b o h)) in
            let h := snd (sendClose simd now (cp_code closeInfo) (cp_reason closeInfo) h) in
            (set_closeState Closed h, ActResponseReady)
        | CloseSent => (set_closeState Closed (set_input b o h), ActClose)
        | _ => (set_input b o h, ActContinue)
        end in
      (call_onClose simd now (cp_code closeInfo) (cp_reason closeInfo) h, action))
    = lift (let closeInfo := ParseClosePayload p in
     let '(h, action) :=
        match ws_closeState h with
        | Open =>
            let h := set_closeCode (cp_code closeInfo) (set_closeState CloseReceived h) in
            let h := snd (sendClose simd now (cp_code closeInfo) (cp_reason closeInfo) h) in
            (set_closeState Closed h, ActResponseReady)
        | CloseSent => (set_closeState Closed h, ActClose)
        | _ => (h, ActContinue)
        end in
      (call_onClose simd now (cp_code closeInfo) (cp_reason closeInfo) h, action))).
  { cbv zeta. replace (ws_closeState (set_input b o h)) with (ws_closeState h) by by destruct h.
    destruct (ws_closeState h); cbn [fst snd].
    - replace (set_closeCode (cp_code (ParseClosePayload p)) (set_closeState CloseReceived (set_input b o h)))
        with (set_input b o (set_closeCode (cp_code (ParseClosePayload p)) (set_closeState CloseReceived h)))
        by by destruct h.
      rewrite sendClose_input. cbn [snd]. generalize (snd (sendClose simd now (cp_code (ParseClosePayload p))
        (cp_reason (ParseClosePayload p))
        (set_closeCode (cp_code (ParseClosePayload p)) (set_closeState CloseReceived h)))). intros h'.
      f_equal. destruct (call_input (set_closeState Closed h')) as (_ & _ & _ & <- & _). by destruct h'.
    - f_equal. destruct (call_input (set_closeState Closed h)) as (_ & _ & _ & <- & _). by destruct h.
    - f_equal. by destruct (call_input h) as (_ & _ & _ & <- & _).
    - f_equal. by destruct (call_input h) as (_ & _ & _ & <- & _). }
  destruct (fh_opcode hd); try exact Hclose; cbn [fst snd].
  - rewrite sendPong_input. cbn [snd]. by destruct (call_input (snd (sendPong simd p h))) as (_ & -> & _).
  - by destruct (call_input h) as (_ & _ & -> & _).
Qed.

Lemma processFrame_input hd p h :
  processFrame simd path now hd p (set_input b o h) = lift (processFrame simd path now hd p h).
Proof.
  unfold processFrame. case_match; [apply handleControlFrame_input|apply handleDataFrame_input].
Qed.
End Input.
