(* ===== verification/WebSocketInput.v ===== *)
(** The input of a WebSocket connection: what the transport cuts does not matter.  A frame is
    parsed the same way whatever follows it, and a connection that is fed a stream in pieces
    goes through the states of a connection that is fed it whole. *)

From S2P Require Import Prelude.
From S2P Require Import AsciiCase.
From S2P Require Import WebSocketFrame.
From S2P Require Import WebSocketFrameProofs.
From S2P Require Import Utf8.
From S2P Require Import WebSocketHandler.
From S2P Require Import WebSocketSends.
Local Open Scope Z_scope.

(** ** Frames are decided by their own bytes *)

Lemma read_be_bound l acc k :
  bytes_ok l -> 0 <= acc < 2 ^ k -> 0 <= k ->
  0 <= fold_left (fun acc b => Z.lor (u64 (Z.shiftl acc 8)) b) l acc.
Proof.
  revert acc k. induction l as [|b l IH]; intros acc k Hl Ha Hk; [cbn; lia|]. cbn [fold_left].
  apply Forall_cons_1 in Hl as [Hb Hl].
  assert (0 <= u64 (Z.shiftl acc 8)) by (apply Z.mod_pos_bound; lia).
  assert (0 <= Z.lor (u64 (Z.shiftl acc 8)) b)
    by (apply Z.lor_nonneg; unfold byte_ok in Hb; lia).
  eapply (IH _ (Z.log2 (Z.lor (u64 (Z.shiftl acc 8)) b) + 1)); [done| |].
  - split; [done|]. destruct (Z.eq_dec (Z.lor (u64 (Z.shiftl acc 8)) b) 0) as [E|].
    + rewrite E. cbn. lia.
    + apply Z.log2_spec. lia.
  - pose proof (Z.log2_nonneg (Z.lor (u64 (Z.shiftl acc 8)) b)). lia.
Qed.

Lemma bytes_ok_subspan off n d : bytes_ok d -> bytes_ok (subspan off n d).
Proof. intros. by apply Forall_take, Forall_drop. Qed.

Lemma read_be_nonneg l : bytes_ok l -> 0 <= read_be l.
Proof. intros. apply (read_be_bound l 0 1); [done|cbn; lia|lia]. Qed.

Lemma ParseLength_bounds d l7 n hs :
  bytes_ok d -> 0 <= l7 -> l7 < 128 -> ParseLength d l7 = inr (n, hs) ->
  0 <= n < 2 ^ 63 /\ 2 <= hs <= 10 /\ (hs <= zlen d \/ hs = 2).
Proof.
  intros Hd H0 H7. unfold ParseLength.
  destruct (Z.eqb_spec l7 kPayloadLen16).
  - destruct (Z.ltb_spec (zlen d) 4); [done|]. destruct (_ <? _); [done|]. intros [= <- <-].
    split; [|lia]. split; [by apply read_be_nonneg, bytes_ok_subspan|].
    assert (Hl : length (subspan 2 2 d) = 2%nat).
    { pose proof (subspan_length 2 2 d) as H'. unfold zlen in *. lia. }
    pose proof (bytes_ok_subspan 2 2 d Hd) as Hb.
    destruct (subspan 2 2 d) as [|x [|y [|]]]; try done.
    unfold bytes_ok in Hb. rewrite !Forall_cons in Hb. destruct Hb as (Hx & Hy & _). unfold byte_ok in *.
    unfold read_be. cbn [fold_left]. change (Z.shiftl 0 8) with 0. change (u64 0) with 0.
    rewrite Z.lor_0_l, u64_id by (rewrite Z.shiftl_mul_pow2 by lia; lia). rewrite be16_val by lia. lia.
  - destruct (Z.eqb_spec l7 kPayloadLen64); [|intros [= <- <-]; lia].
    destruct (Z.ltb_spec (zlen d) 10); [done|]. destruct (Z.eqb_spec (Z.shiftr (read_be (subspan 2 8 d)) 63) 0) as [E|];
      cbn [negb]; [|done].
    destruct (_ <=? _); [done|]. intros [= <- <-]. split; [|lia].
    pose proof (read_be_nonneg _ (bytes_ok_subspan 2 8 d Hd)). split; [done|].
    rewrite Z.shiftr_div_pow2 in E by lia. apply Z.div_small_iff in E; lia.
Qed.

Lemma ParseLength_app d x l7 :
  ParseLength d l7 <> inl FrameIncomplete -> ParseLength (d ++ x) l7 = ParseLength d l7.
Proof.
  unfold ParseLength. rewrite zlen_app. pose proof (zlen_nonneg x).
  destruct (_ =? kPayloadLen16).
  - destruct (Z.ltb_spec (zlen d) 4); [done|]. intros _. rewrite (proj2 (Z.ltb_ge _ 4)) by lia.
    by rewrite subspan_app_l by lia.
  - destruct (_ =? kPayloadLen64); [|done].
    destruct (Z.ltb_spec (zlen d) 10); [done|]. intros _. rewrite (proj2 (Z.ltb_ge _ 10)) by lia.
    by rewrite subspan_app_l by lia.
Qed.

Lemma ParseLength_error d l7 hd p n : ParseLength d l7 <> inl (FrameComplete hd p n).
Proof.
  unfold ParseLength. destruct (_ =? _); [|destruct (_ =? _); [|done]]; destruct (_ <? _); try done.
  - by destruct (_ <? _).
  - destruct (negb _); [done|]. by destruct (_ <=? _).
Qed.

(** [ParsePayload] on headers in range: what it reads and what it takes. *)
Lemma ParsePayload_complete d hd hs hd' p n :
  0 <= fh_payloadLength hd < 2 ^ 63 -> 2 <= hs <= 10 ->
  ParsePayload d hd hs = FrameComplete hd' p n ->
  2 <= n <= zlen d /\ zlen p = fh_payloadLength hd
  /\ fh_opcode hd' = fh_opcode hd /\ fh_fin hd' = fh_fin hd /\ fh_masked hd' = fh_masked hd
  /\ fh_rsv1 hd' = fh_rsv1 hd /\ forall x, ParsePayload (d ++ x) hd hs = FrameComplete hd' p n.
Proof.
  intros Hp Hh. unfold ParsePayload. set (hs' := if fh_masked hd then hs + kMaskingKeySize else hs).
  assert (Hhs : hs <= hs' <= 14) by (unfold hs', kMaskingKeySize; destruct (fh_masked hd); lia).
  destruct (Z.ltb_spec (zlen d) hs'); [done|].
  rewrite u64_id by (destruct (fh_masked hd); cbn; lia).
  replace (fh_payloadLength (if fh_masked hd then _ else hd)) with (fh_payloadLength hd)
    by by destruct (fh_masked hd).
  destruct (Z.ltb_spec (zlen d) (hs' + fh_payloadLength hd)); [done|].
  intros E. injection E as <- <- <-. split; [lia|]. split; [by apply subspan_length; lia|].
  split_and!; try (destruct (fh_masked hd) eqn:?; cbn; congruence).
  intros x. rewrite zlen_app. pose proof (zlen_nonneg x).
  rewrite (proj2 (Z.ltb_ge _ hs')) by lia.
  assert (Hk : (if fh_masked hd
    then MkFrameHeader (fh_opcode hd) (fh_fin hd) true (fh_rsv1 hd) (fh_rsv2 hd) (fh_rsv3 hd)
           (fh_payloadLength hd) (read_key (subspan hs 4 (d ++ x))) else hd)
   = (if fh_masked hd
    then MkFrameHeader (fh_opcode hd) (fh_fin hd) true (fh_rsv1 hd) (fh_rsv2 hd) (fh_rsv3 hd)
           (fh_payloadLength hd) (read_key (subspan hs 4 d)) else hd)).
  { destruct (fh_masked hd) eqn:Em; [|done]. unfold hs', kMaskingKeySize in *. by rewrite subspan_app_l by lia. }
  rewrite Hk. clear Hk. rewrite u64_id by (destruct (fh_masked hd); cbn; lia).
  replace (fh_payloadLength (if fh_masked hd then _ else hd)) with (fh_payloadLength hd)
    by by destruct (fh_masked hd).
  rewrite (proj2 (Z.ltb_ge _ (hs' + fh_payloadLength hd))) by lia.
  by rewrite subspan_app_l by lia.
Qed.

Lemma ParsePayload_cases d hd hs :
  ParsePayload d hd hs = FrameIncomplete \/ exists hd' p n, ParsePayload d hd hs = FrameComplete hd' p n.
Proof.
  unfold ParsePayload. cbv zeta. destruct (_ <? _); [by left|]. destruct (_ <? _); [by left|].
  right. by eexists _, _, _.
Qed.

Lemma land_127_bounds z : 0 <= Z.land z kPayloadLenMask < 128.
Proof. change kPayloadLenMask with 127. rewrite land_127. apply Z.mod_pos_bound. lia. Qed.

(** The verdict on a frame does not change with what follows. *)
Lemma ParseFrame_app d x max server rsv1 :
  bytes_ok d -> ParseFrame d max server rsv1 <> FrameIncomplete ->
  ParseFrame (d ++ x) max server rsv1 = ParseFrame d max server rsv1.
Proof.
  intros Hd. unfold ParseFrame. rewrite zlen_app. pose proof (zlen_nonneg x).
  destruct (Z.ltb_spec (zlen d) kMinFrameHeaderSize); [done|]. change kMinFrameHeaderSize with 2 in *.
  rewrite (proj2 (Z.ltb_ge _ 2)) by lia.
  rewrite !byte_at_app by (unfold zlen in *; lia). cbv zeta.
  do 4 (case_match; [done|]). case_match; [|done]. do 3 (case_match; [done|]).
  pose proof (land_127_bounds (byte_at d 1)).
  destruct (ParseLength d _) as [e|[n hs]] eqn:El.
  - intros Hne. assert (e <> FrameIncomplete) by done.
    rewrite ParseLength_app by (rewrite El; congruence). by rewrite El.
  - rewrite ParseLength_app by (by rewrite El). rewrite El.
    apply ParseLength_bounds in El as (? & ? & _); [|done|lia..].
    case_match; [done|]. case_match; [done|].
    match goal with |- ParsePayload ?d ?hd ?hs <> _ -> _ =>
      destruct (ParsePayload_cases d hd hs) as [->|(hd' & p & m & E)] end; [done|].
    intros _. rewrite E. by apply ParsePayload_complete in E as (_ & _ & _ & _ & _ & _ & ->).
Qed.

Lemma ParseFrame_complete d max server rsv1 hd p n :
  bytes_ok d -> ParseFrame d max server rsv1 = FrameComplete hd p n ->
  2 <= n <= zlen d /\ fh_masked hd = server /\ (fh_rsv1 hd = true -> rsv1 = true)
  /\ (IsControlFrame (fh_opcode hd) = true -> fh_fin hd = true /\ zlen p <= kMaxControlFramePayload)
  /\ (0 < max -> zlen p <= max).
Proof.
  intros Hd. unfold ParseFrame. destruct (_ <? kMinFrameHeaderSize); [done|]. cbv zeta.
  case_match; [done|]. case_match eqn:Hrsv; [done|]. case_match; [done|]. case_match; [done|].
  case_match; [|done]. case_match eqn:Hfin; [done|]. case_match eqn:Hm1; [done|]. case_match eqn:Hm2; [done|].
  pose proof (land_127_bounds (byte_at d 1)).
  destruct (ParseLength d _) as [e|[l hs]] eqn:El.
  { intros ->. by apply ParseLength_error in El. }
  apply ParseLength_bounds in El as (? & ? & _); [|done|lia..].
  case_match eqn:Hc; [done|]. case_match eqn:Hx; [done|].
  intros E. apply ParsePayload_complete in E as (? & Hp & -> & -> & -> & -> & _); [|done|done].
  cbn in Hp |- *. split_and!; [lia..| | | |].
  - clear -Hm1 Hm2. destruct server, (negb (Z.land _ kMaskBit =? 0)); naive_solver.
  - intros Hr. rewrite Hr in Hrsv. by destruct rsv1.
  - intros Hi. rewrite Hi in Hfin, Hc. cbn in Hfin, Hc. apply negb_false_iff in Hfin.
    apply Z.ltb_ge in Hc. split; [done|lia].
  - intros ?. apply andb_false_iff in Hx as [?%Z.ltb_ge|?%Z.ltb_ge]; lia.
Qed.

(** ** The loop without its buffers *)

Section Stream.
Context {A D : Type} {deflate : Deflate D} (simd : Simd) (path : Path) (now : Z).
Local Abbreviation WS := (WebSocketHandler A D).
Implicit Types h : WS.

(** A handler without its carry-over, and the carry-over. *)
Definition forget h : WS := set_input [] 0%nat h.
Definition carry h : bytes := drop (ws_inputBufferOffset h) (ws_inputBuffer h).

Definition input_ok h : Prop :=
  bytes_ok (ws_inputBuffer h)
  /\ (ws_inputBuffer h = [] \/ (ws_inputBufferOffset h < length (ws_inputBuffer h))%nat).

Definition parse_next h (data : bytes) : FrameParseResult :=
  ParseFrame data (maxFrameSize (ws_config h)) (isServerSide (ws_config h))
    (bool_decide (is_Some (ws_deflateContext h))).

(** The frames of [data], and what they leave. *)
Fixpoint frames (fuel : nat) (data : bytes) (action : Action) h : WS * Action * bytes :=
  if Nat.eqb (length data) 0 then (h, action, [])
  else
    match fuel with
    | O => (h, action, data)
    | S fuel =>
        match parse_next h data with
        | FrameIncomplete => (h, action, data)
        | FrameProtocolError e => (fail_with simd now CloseProtocolError (str e) h, ActClose, data)
        | FramePayloadTooLarge =>
            (fail_with simd now CloseMessageTooBig (str "Frame payload too large") h, ActClose, data)
        | FrameComplete hd p n =>
            let '(h, a) := processFrame simd path now hd p h in
            let data := drop (Z.to_nat n) data in
            match a with
            | ActClose => (h, ActClose, data)
            | ActResponseReady => frames fuel data ActResponseReady h
            | _ => frames fuel data action h
            end
        end
    end.

Lemma parse_next_input h b o data : parse_next (set_input b o h) data = parse_next h data.
Proof. by destruct h. Qed.

Lemma forget_input h b o : forget (set_input b o h) = forget h.
Proof. by destruct h. Qed.

Lemma unforget h : h = set_input (ws_inputBuffer h) (ws_inputBufferOffset h) (forget h).
Proof. by destruct h. Qed.

Lemma parse_next_size h data hd p n :
  bytes_ok data -> parse_next h data = FrameComplete hd p n ->
  (0 < Z.to_nat n)%nat /\ (Z.to_nat n <= length data)%nat.
Proof.
  intros Hd H. apply ParseFrame_complete in H as [? _]; [|done]. unfold zlen in *. lia.
Qed.

(** As many steps as bytes are enough. *)
Lemma frames_fuel fuel fuel' data action h :
  bytes_ok data -> (length data <= fuel)%nat -> (length data <= fuel')%nat ->
  frames fuel data action h = frames fuel' data action h.
Proof.
  revert fuel' data action h. induction fuel as [|fuel IH]; intros [|fuel'] data action h Hd Hf Hf'.
  1-3: by destruct data; cbn in Hf, Hf' |- *; [|lia..].
  cbn [frames]. destruct (Nat.eqb_spec (length data) 0) as [|Hne]; [done|].
  destruct (parse_next h data) as [hd p n| | |] eqn:E; try done.
  apply parse_next_size in E as [? ?]; [|done].
  assert (Hdrop : bytes_ok (drop (Z.to_nat n) data)) by by apply Forall_drop.
  destruct (processFrame _ _ _ _ _ _) as [h' []]; try apply IH; try done; rewrite length_drop; lia.
Qed.

Lemma processFrame_forget hd p h :
  exists h', processFrame simd path now hd p (forget h) = (h', snd (processFrame simd path now hd p h))
    /\ forget h' = h'
    /\ processFrame simd path now hd p h
       = (set_input (ws_inputBuffer h) (ws_inputBufferOffset h) h', snd (processFrame simd path now hd p h)).
Proof.
  unfold forget. rewrite processFrame_input. eexists. split; [reflexivity|]. split; [by destruct (fst _)|].
  rewrite (unforget h) at 1. unfold forget. rewrite !processFrame_input. cbn [snd]. f_equal.
Qed.

(** What the loop of the code leaves, in terms of the loop on the forgetful handler. *)
Definition same_outcome (h' : WS) (a : Action) (rest : bytes) (total : nat) (r : ProcessResult) : Prop :=
  pr_action r = a /\ forget (pr_handler r) = h' /\ pr_consumed r = total
  /\ (a <> ActClose -> carry (pr_handler r) = rest /\ input_ok (pr_handler r)).

Lemma save_remainder_spec data consumed h :
  bytes_ok data -> bytes_ok (ws_inputBuffer h) -> data <> [] ->
  (ws_inputBuffer h = [] \/ data = drop (ws_inputBufferOffset h + consumed) (ws_inputBuffer h)) ->
  carry (save_remainder data consumed h) = data /\ input_ok (save_remainder data consumed h)
  /\ forget (save_remainder data consumed h) = forget h.
Proof.
  intros Hd Hb Hne Hv. unfold save_remainder. destruct h; cbn in *.
  assert (0 < length data)%nat by (destruct data; [done|cbn; lia]).
  case_decide as He.
  - unfold carry, input_ok. cbn. split_and!; [done|done|by right|done].
  - destruct Hv as [|Hv]; [done|].
    assert (Hl := f_equal length Hv). rewrite length_drop in Hl. unfold carry, input_ok.
    case_decide; cbn; rewrite <- ?Hv; split_and!; try done; right; lia.
Qed.

Lemma process_frames_frames fuel data consumed action h :
  bytes_ok data -> bytes_ok (ws_inputBuffer h) ->
  (ws_inputBuffer h = [] \/ data = drop (ws_inputBufferOffset h + consumed) (ws_inputBuffer h)) ->
  (length data <= fuel)%nat -> action <> ActClose ->
  let '(h', a, rest) := frames fuel data action (forget h) in
  (length rest <= length data)%nat
  /\ same_outcome h' a rest (consumed + (length data - length rest))
       (process_frames simd path now fuel data consumed action h).
Proof.
  revert data consumed action h. induction fuel as [|fuel IH]; intros data consumed action h Hd Hb Hv Hf Ha;
    cbn [frames process_frames]; destruct (Nat.eqb_spec (length data) 0) as [E0|Hne]; try lia.
  1, 2: split; [cbn; lia|]; split_and!; cbn; [done|apply forget_input|lia|intros _];
      split; [by destruct h|]; destruct h; split; [constructor|by left].
  fold (parse_next h data). unfold forget at 1. rewrite parse_next_input.
  destruct (parse_next h data) as [hd p n| | |] eqn:E.
  - assert (Hn := parse_next_size h data hd p n Hd E).
    destruct (processFrame_forget hd p h) as (h' & -> & Hfg & ->).
    set (b := ws_inputBuffer h) in *. set (o := ws_inputBufferOffset h) in *.
    assert (Hstep : forall action', action' <> ActClose ->
      let '(h'', a, rest) := frames fuel (drop (Z.to_nat n) data) action' h' in
      (length rest <= length data)%nat
      /\ same_outcome h'' a rest (consumed + (length data - length rest))
           (process_frames simd path now fuel (drop (Z.to_nat n) data) (consumed + Z.to_nat n) action'
              (set_input b o h'))).
    { intros action' Ha'.
      specialize (IH (drop (Z.to_nat n) data) (consumed + Z.to_nat n)%nat action' (set_input b o h')).
      rewrite forget_input, Hfg in IH.
      destruct (frames fuel (drop (Z.to_nat n) data) action' h') as [[h'' a] rest].
      rewrite length_drop in IH. destruct IH as [Hl Ho]; [by apply Forall_drop|by destruct h'| |lia|done|].
      - destruct Hv as [Hv|Hv]; [left; by destruct h'|right].
        replace (ws_inputBufferOffset (set_input b o h')) with o by by destruct h'.
        replace (ws_inputBuffer (set_input b o h')) with b by by destruct h'.
        rewrite Hv, drop_drop. f_equal. lia.
      - split; [lia|]. by replace (consumed + (length data - length rest))%nat
          with (consumed + Z.to_nat n + (length data - Z.to_nat n - length rest))%nat by lia. }
    destruct (snd (processFrame simd path now hd p h)); try (by apply Hstep).
    cbn [snd]. rewrite length_drop. split; [lia|]. split_and!; cbn; [done|by rewrite forget_input, forget_input|lia|done].
  - split; [lia|]. destruct (save_remainder_spec data consumed h) as (? & ? & ?); try done.
    { by intros ->. }
    split_and!; cbn; [done|done|lia|done].
  - split; [lia|]. split_and!; cbn; [done| |lia|done]. unfold forget. by rewrite <- fail_with_input.
  - split; [lia|]. split_and!; cbn; [done| |lia|done]. unfold forget. by rewrite <- fail_with_input.
Qed.

(** [processInput] runs the loop on the carry-over and the new bytes. *)
Lemma processInput_frames data h :
  bytes_ok data -> input_ok h ->
  let whole := carry h ++ data in
  let '(h', a, rest) := frames (length whole) whole ActContinue (forget h) in
  let r := processInput simd path now data h in
  pr_action r = a /\ forget (pr_handler r) = h' /\ (length rest <= length whole)%nat
  /\ pr_consumed r = consumedFromCaller (length (carry h)) (length data) (length whole - length rest)
  /\ (a <> ActClose -> carry (pr_handler r) = rest /\ input_ok (pr_handler r)).
Proof.
  intros Hd [Hb Hi]. cbv zeta. unfold processInput, carry. case_decide as Ho.
  - rewrite <- drop_app_le by lia.
    set (h1 := set_input (ws_inputBuffer h ++ data) (ws_inputBufferOffset h) h).
    assert (Hib : ws_inputBuffer h1 = ws_inputBuffer h ++ data) by by destruct h.
    rewrite Hib. assert (Hio : ws_inputBufferOffset h1 = ws_inputBufferOffset h) by by destruct h. rewrite Hio.
    pose proof (process_frames_frames (length (drop (ws_inputBufferOffset h) (ws_inputBuffer h ++ data)))
      (drop (ws_inputBufferOffset h) (ws_inputBuffer h ++ data)) 0 ActContinue h1) as H.
    replace (forget h1) with (forget h) in H by by destruct h. rewrite Hib, Hio in H.
    destruct (frames _ _ _ _) as [[h' a] rest].
    assert (bytes_ok (ws_inputBuffer h ++ data)) by by apply Forall_app.
    destruct H as (Hl & Ha & Hfg & Hc & Hrest);
      [by apply Forall_drop|done|right; by rewrite Nat.add_0_r|lia|done|].
    cbn [pr_action pr_handler pr_consumed]. split_and!; [done|done|done| |done].
    rewrite Hc, Nat.add_0_l. f_equal. by rewrite length_drop.
  - destruct Hi as [Hi|]; [|done]. rewrite Hi, drop_nil. cbn [app length].
    pose proof (process_frames_frames (length data) data 0 ActContinue h) as H.
    destruct (frames _ _ _ _) as [[h' a] rest].
    destruct H as (Hl & Ha & Hfg & Hc & Hrest); [done|done|by left|lia|done|].
    cbn [pr_action pr_handler pr_consumed]. split_and!; [done|done|done| |done]. by rewrite Hc.
Qed.

(** ** Streams cut anywhere *)

(** The action of a run after one that ended with [a]. *)
Definition then_action (a b : Action) : Action := if decide (b = ActContinue) then a else b.

Lemma frames_action fuel data action h :
  action <> ActClose ->
  frames fuel data action h
  = let '(h', a, rest) := frames fuel data ActContinue h in (h', then_action action a, rest).
Proof.
  intros Ha.
  enough (H : forall base, base = ActContinue \/ base = ActResponseReady ->
    frames fuel data (then_action action base) h
    = let '(h', a, rest) := frames fuel data base h in (h', then_action action a, rest))
    by (apply (H ActContinue); by left).
  revert data h. induction fuel as [|fuel IH]; intros data h base Hb; cbn [frames];
    destruct (Nat.eqb (length data) 0); try done.
  destruct (parse_next h data) as [hd p n| | |]; try done.
  destruct (processFrame _ _ _ _ _ _) as [h' []]; try (by apply IH); [|done].
  apply (IH _ _ ActResponseReady). by right.
Qed.

Lemma then_action_l a : then_action ActContinue a = a.
Proof. unfold then_action. by case_decide. Qed.

Lemma then_action_assoc a b c : then_action (then_action a b) c = then_action a (then_action b c).
Proof. by destruct a, b, c. Qed.

Lemma then_action_Close a b : a <> ActClose -> then_action a b = ActClose <-> b = ActClose.
Proof. by destruct a, b. Qed.

(** A run on a stream is a run on its first part and a run on what that left. *)
Definition cut_run h d1 d2 fuel fuel2 : Prop :=
  let '(h1, a1, r1) := frames fuel d1 ActContinue h in
  (a1 <> ActClose ->
    frames fuel2 (d1 ++ d2) ActContinue h
    = let '(h2, a2, r2) := frames (length (r1 ++ d2)) (r1 ++ d2) ActContinue h1 in
      (h2, then_action a1 a2, r2))
  /\ (a1 = ActClose -> frames fuel2 (d1 ++ d2) ActContinue h = (h1, ActClose, r1 ++ d2))
  /\ bytes_ok r1.

Lemma frames_app fuel fuel2 d1 d2 h :
  bytes_ok d1 -> bytes_ok d2 -> (length d1 <= fuel)%nat -> (length (d1 ++ d2) <= fuel2)%nat ->
  cut_run h d1 d2 fuel fuel2.
Proof.
  unfold cut_run. revert fuel2 d1 h. induction fuel as [|fuel IH]; intros fuel2 d1 h Hd1 Hd2 Hf Hf2; cbn [frames].
  all: assert (Hd : bytes_ok (d1 ++ d2)) by by apply Forall_app.
  all: assert (Hsame : frames fuel2 (d1 ++ d2) ActContinue h
    = let '(h2, a2, r2) := frames (length (d1 ++ d2)) (d1 ++ d2) ActContinue h in (h2, then_action ActContinue a2, r2))
    by (rewrite (frames_fuel fuel2 (length (d1 ++ d2))) by done;
        destruct (frames _ (d1 ++ d2) _ _) as [[? ?] ?]; by rewrite then_action_l).
  all: destruct (Nat.eqb_spec (length d1) 0) as [E0|Hne]; [destruct d1; [by split_and!|done]|].
  1: lia.
  destruct (parse_next h d1) as [hd p n| | |] eqn:E; try by split_and!.
  - destruct (parse_next_size h d1 hd p n Hd1 E) as [Hn0 Hn].
    rewrite length_app in Hf2. destruct fuel2 as [|fuel2]; [lia|]. cbn [frames].
    destruct (Nat.eqb_spec (length (d1 ++ d2)) 0) as [E0|_]; [rewrite length_app in E0; lia|].
    unfold parse_next in *. rewrite ParseFrame_app, E by (done || by rewrite E).
    destruct (processFrame _ _ _ _ _ _) as [h' a'].
    rewrite drop_app_le by done.
    assert (Hdrop : bytes_ok (drop (Z.to_nat n) d1)) by by apply Forall_drop.
    specialize (IH fuel2 (drop (Z.to_nat n) d1) h' Hdrop Hd2).
    rewrite length_app, length_drop in IH. specialize (IH ltac:(lia) ltac:(lia)).
    assert (Hr : bytes_ok (drop (Z.to_nat n) d1)) by done.
    destruct a'; try exact IH; [|by split_and!].
    rewrite (frames_action fuel _ ActResponseReady), (frames_action fuel2 _ ActResponseReady) by done.
    destruct (frames fuel (drop (Z.to_nat n) d1) ActContinue h') as [[h1 a1] r1].
    destruct IH as (IH1 & IH2 & IH3). rewrite then_action_Close by done. split_and!; [|by intros H; rewrite IH2|done].
    intros Hc. rewrite IH1 by done.
    destruct (frames _ (r1 ++ d2) _ _) as [[h2 a2] r2]. by rewrite then_action_assoc.
  - split_and!; [done| |done]. intros _. destruct fuel2 as [|fuel2]; [rewrite length_app in Hf2; lia|].
    cbn [frames]. destruct (Nat.eqb_spec (length (d1 ++ d2)) 0) as [E0|_]; [rewrite length_app in E0; lia|].
    unfold parse_next in *. by rewrite ParseFrame_app, E by (done || by rewrite E).
  - split_and!; [done| |done]. intros _. destruct fuel2 as [|fuel2]; [rewrite length_app in Hf2; lia|].
    cbn [frames]. destruct (Nat.eqb_spec (length (d1 ++ d2)) 0) as [E0|_]; [rewrite length_app in E0; lia|].
    unfold parse_next in *. by rewrite ParseFrame_app, E by (done || by rewrite E).
Qed.

(** The calls of a transport that reads [chunks] one after the other and stops on a close;
    it passes each byte once. *)
Fixpoint feed (chunks : list bytes) h : WS * Action :=
  match chunks with
  | [] => (h, ActContinue)
  | data :: chunks =>
      let r := processInput simd path now data h in
      if decide (pr_action r = ActClose) then (pr_handler r, ActClose)
      else
        let '(h', a) := feed chunks (pr_handler r) in (h', then_action (pr_action r) a)
  end.

(** One reading, as [frames]. *)
Definition fed (data : bytes) h : WS * Action * bytes :=
  frames (length (carry h ++ data)) (carry h ++ data) ActContinue (forget h).

Lemma feed_frames d chunks h :
  Forall bytes_ok (d :: chunks) -> input_ok h ->
  let '(h', a, rest) := fed (d ++ concat chunks) h in
  let '(h2, a2) := feed (d :: chunks) h in
  forget h2 = h' /\ a2 = a /\ (a <> ActClose -> carry h2 = rest).
Proof.
  revert d h. induction chunks as [|d' chunks IH]; intros d h Hc Hi; apply Forall_cons_1 in Hc as [Hd Hc].
  - cbn [concat]. rewrite app_nil_r. pose proof (processInput_frames d h Hd Hi) as H. cbv zeta in H.
    unfold fed. destruct (frames _ _ _ _) as [[h' a] rest]. destruct H as (Ha & Hf & _ & _ & Hr).
    cbn [feed]. case_decide as Hclose; cbn [fst snd].
    + split_and!; [done|congruence|congruence].
    + split_and!; [done|exact Ha|by intros [? _]%Hr].
  - pose proof (processInput_frames d h Hd Hi) as H. cbv zeta in H.
    assert (Hcat : bytes_ok (concat (d' :: chunks))) by (apply Forall_concat; exact Hc).
    assert (Hcarry : bytes_ok (carry h)) by (apply Forall_drop; apply Hi).
    pose proof (frames_app (length (carry h ++ d)) (length ((carry h ++ d) ++ concat (d' :: chunks)))
      (carry h ++ d) (concat (d' :: chunks)) (forget h)) as Hcut.
    unfold cut_run in Hcut. unfold fed. rewrite app_assoc.
    destruct (frames (length (carry h ++ d)) _ _ _) as [[h1 a1] r1].
    destruct Hcut as (Hgo & Hstop & Hr1); [by apply Forall_app|done|lia|lia|].
    destruct H as (Ha & Hf & _ & _ & Hr). cbn [feed]. case_decide as Hclose.
    + rewrite Hstop by congruence. split_and!; [done|done|done].
    + assert (Hne : a1 <> ActClose) by congruence. rewrite Hgo by done. destruct (Hr Hne) as [Hcr Hin].
      specialize (IH d' (pr_handler (processInput simd path now d h)) Hc Hin). unfold fed in IH.
      rewrite Hcr, Hf in IH. cbn [concat].
      destruct (frames _ (r1 ++ d' ++ concat chunks) _ _) as [[h' a] rest].
      destruct (feed (d' :: chunks) _) as [h2 a2] eqn:E. cbn [feed] in E. rewrite E.
      destruct IH as (? & -> & ?). rewrite Ha. split_and!; [done|done|].
      intros Hn. apply H0. intros ->. by apply Hn, then_action_Close.
Qed.

(** C24: a connection that reads a stream in any pieces, each byte passed once, ends where a
    connection that reads it in one piece ends: same messages delivered, same output, same
    state of the close handshake, same action for the server and, as long as the connection
    lives, the same incomplete frame kept for later. *)
Theorem websocket_split_independent d chunks h
  (Hchunks : Forall bytes_ok (d :: chunks)) (Hinput : input_ok h) :
  let r := processInput simd path now (concat (d :: chunks)) h in
  let '(h', action) := feed (d :: chunks) h in
  action = pr_action r /\ forget h' = forget (pr_handler r)
  /\ (action <> ActClose -> carry h' = carry (pr_handler r)).
Proof.
  cbv zeta. pose proof (feed_frames d chunks h Hchunks Hinput) as H. unfold fed in H.
  assert (Hcat : bytes_ok (concat (d :: chunks))) by (apply Forall_concat; exact Hchunks).
  pose proof (processInput_frames (concat (d :: chunks)) h Hcat Hinput) as Hp. cbv zeta in Hp.
  cbn [concat] in *. destruct (frames _ _ _ _) as [[h1 a1] r1].
  destruct (feed (d :: chunks) h) as [h2 a2].
  destruct H as (Hf & -> & Hr). destruct Hp as (-> & -> & _ & _ & Hp). split_and!; [done|done|].
  intros Hn. rewrite Hr by done. symmetry. by apply Hp.
Qed.
End Stream.

(** ** An application that echoes text, and no compression *)

#[export] Instance no_deflate : Deflate unit :=
  {| compress d _ := (d, None); decompress d _ _ := (d, None) |}.

Definition echo_callbacks : WebSocketCallbacks (list (bytes * bool)) :=
  MkCallbacks
    (Some (fun (payload : bytes) (isBinary : bool) log =>
             if isBinary then Ret (log ++ [(payload, true)])
             else Call (ApiSendText payload) (fun _ => Ret (log ++ [(payload, false)]))))
    None None None None.

Definition echo_config (server : bool) : WebSocketConfig := MkWsConfig 1000 500 5000 256 server.

Definition echo_handler (server : bool) : WebSocketHandler (list (bytes * bool)) unit :=
  WebSocketHandler_new (echo_config server) echo_callbacks None 12345 [].

(** Two frames, a text message in two fragments, cut in the middle of each. *)
Lemma websocket_split_independent_witness :
  let f1 := BuildFrame Sse2 Text [104; 101] false true 0x01020304 false in
  let f2 := BuildFrame Sse2 Continuation [108; 108; 111] true true 0x7FFFFFFF false in
  let chunks := [take 3 f1; drop 3 f1 ++ take 7 f2; drop 7 f2] in
  let h := echo_handler true in
  (let r := processInput Sse2 Vector16 0 (concat chunks) h in
   let '(h', action) := feed Sse2 Vector16 0 chunks h in
   action = pr_action r /\ forget h' = forget (pr_handler r)
   /\ (action <> ActClose -> carry h' = carry (pr_handler r)))
  /\ ws_app (fst (feed Sse2 Vector16 0 chunks h)) = [([104; 101; 108; 108; 111], false)].
Proof.
  cbv zeta. split; [|vm_compute; reflexivity].
  apply websocket_split_independent.
  - apply (bool_decide_eq_true_1 _). vm_compute. reflexivity.
  - split; [constructor|by left].
Defined.
