(* ===== verification/ServerProtocolLoop.v ===== *)
(** The loop by which a server hands the bytes of a connection to the handler of its protocol
    ([SingleHttpServer::processSpecialProtocolHandler], server/single-http-server.cpp).

    [ProtocolHandler] is the interface [IProtocolHandler] (objects/protocol-handler.hpp), and
    [ProtocolHandlerLaws] what the loop relies on to end; the loop is proved to end against the
    interface, and WebSocket connections implement it. *)

From S2P Require Import Prelude.
From S2P Require Import AsciiCase.
From S2P Require Import WebSocketFrame.
From S2P Require Import WebSocketFrameProofs.
From S2P Require Import Utf8.
From S2P Require Import WebSocketHandler.
From S2P Require Import WebSocketSends.
From S2P Require Import WebSocketInput.
Local Open Scope Z_scope.

(** ** The interface *)

Class ProtocolHandler (H : Type) := {
  ph_processInput : bytes -> H -> H * Action * nat;
  ph_drainOutputBuffer : bytes -> H -> bool * bytes * H
}.

Class ProtocolHandlerLaws (H : Type) {P : ProtocolHandler H} := {
  ph_consumed : forall data h, (snd (ph_processInput data h) <= length data)%nat;
  ph_no_upgrade : forall data h, snd (fst (ph_processInput data h)) <> ActUpgrade
}.

(** ** The loop *)

Record ConnectionState (H : Type) := MkConnState {
  cs_inBuffer : bytes; cs_outBuffer : bytes; cs_closeRequested : bool; cs_handler : H
}.
Arguments MkConnState {H}.
Arguments cs_inBuffer {H}.
Arguments cs_outBuffer {H}.
Arguments cs_closeRequested {H}.
Arguments cs_handler {H}.

Section Loop.
Context {H : Type} {P : ProtocolHandler H}.
(** [flushOutbound] writes the output buffer to the transport. *)
Context (flushOutbound : ConnectionState H -> ConnectionState H).

Definition flush_if (accumulated : bool) (st : ConnectionState H) : ConnectionState H :=
  if accumulated then flushOutbound st else st.

Definition requestDrainAndClose (st : ConnectionState H) : ConnectionState H :=
  MkConnState (cs_inBuffer st) (cs_outBuffer st) true (cs_handler st).

(** One call of the handler: its input loses what was consumed, its output is queued. *)
Definition loop_round (st : ConnectionState H) : ConnectionState H * Action * nat * bool :=
  let '(h, action, consumed) := ph_processInput (cs_inBuffer st) (cs_handler st) in
  let inBuffer := drop consumed (cs_inBuffer st) in
  let '(drained, outBuffer, h) := ph_drainOutputBuffer (cs_outBuffer st) h in
  (MkConnState inBuffer outBuffer (cs_closeRequested st) h, action, consumed, drained).

(** The result of the function and the connection; [None] when the fuel runs out. *)
Fixpoint processSpecialProtocolHandler (fuel : nat) (hasAccumulatedOutput : bool)
  (st : ConnectionState H) : option (bool * ConnectionState H) :=
  if Nat.eqb (length (cs_inBuffer st)) 0 then
    let st := flush_if hasAccumulatedOutput st in Some (cs_closeRequested st, st)
  else
    match fuel with
    | O => None
    | S fuel =>
        let '(st, action, consumed, drained) := loop_round st in
        let hasAccumulatedOutput := hasAccumulatedOutput || drained in
        match action with
        | ActContinue | ActResponseReady =>
            if Nat.eqb consumed 0 then
              let st := flush_if hasAccumulatedOutput st in Some (cs_closeRequested st, st)
            else processSpecialProtocolHandler fuel hasAccumulatedOutput st
        | ActUpgrade => processSpecialProtocolHandler fuel hasAccumulatedOutput st
        | ActClose | ActCloseImmediate =>
            Some (true, requestDrainAndClose (flush_if hasAccumulatedOutput st))
        end
    end.

(** As many rounds as bytes are enough. *)
Lemma loop_ends {L : ProtocolHandlerLaws H} fuel acc st :
  (length (cs_inBuffer st) <= fuel)%nat ->
  exists r, processSpecialProtocolHandler fuel acc st = Some r.
Proof.
  revert acc st. induction fuel as [|fuel IH]; intros acc st Hf; cbn [processSpecialProtocolHandler];
    destruct (Nat.eqb_spec (length (cs_inBuffer st)) 0) as [|Hne]; try lia; try by eexists.
  pose proof (ph_consumed (cs_inBuffer st) (cs_handler st)) as Hc.
  pose proof (ph_no_upgrade (cs_inBuffer st) (cs_handler st)) as Hu. unfold loop_round.
  destruct (ph_processInput _ _) as [[h a] n]. cbn [fst snd] in *.
  destruct (ph_drainOutputBuffer _ _) as [[d o] h'].
  destruct a; try done; try by eexists.
  all: destruct (Nat.eqb_spec n 0); [by eexists|]; apply IH; cbn [cs_inBuffer]; rewrite length_drop; lia.
Qed.
End Loop.

(** ** WebSocket connections *)

Section WebSocket.
Context {A D : Type} {deflate : Deflate D} (simd : Simd) (path : Path) (now : Z).
Implicit Types h : WebSocketHandler A D.

#[export] Instance WebSocket_protocol : ProtocolHandler (WebSocketHandler A D) := {|
  ph_processInput data h :=
    let r := processInput simd path now data h in (pr_handler r, pr_action r, pr_consumed r);
  ph_drainOutputBuffer := drainOutputBuffer
|}.

(** Actions of a WebSocket connection. *)
Definition plain_action (a : Action) : Prop := a = ActContinue \/ a = ActResponseReady \/ a = ActClose.

Lemma completeMessage_action h : plain_action (snd (completeMessage simd path now h)).
Proof.
  unfold completeMessage, plain_action.
  destruct (messageData h) as [[[d|] v] h']; [case_match|]; cbn; auto.
Qed.

Lemma processFrame_action hd p h : plain_action (snd (processFrame simd path now hd p h)).
Proof.
  unfold processFrame. destruct (IsControlFrame _).
  - unfold handleControlFrame, plain_action.
    destruct (fh_opcode hd), (ws_closeState h); cbn [fst snd]; auto.
  - assert (Hacc : forall hd p (h : WebSocketHandler A D), plain_action (snd (accumulate simd path now hd p h))).
    { intros. unfold accumulate. case_match; [right; by right|]. case_match; [|by left].
      apply completeMessage_action. }
    unfold handleDataFrame. case_decide; [case_match; [right; by right|apply Hacc]|].
    case_match; [right; by right|]. case_match; [|apply Hacc].
    case_match; [right; by right|]. case_match; [right; by right|by left].
Qed.

Lemma process_frames_action fuel data consumed action h :
  plain_action action ->
  plain_action (pr_action (process_frames simd path now fuel data consumed action h)).
Proof.
  revert data consumed action h. induction fuel as [|fuel IH]; intros data consumed action h Ha;
    cbn [process_frames]; destruct (Nat.eqb _ 0); try done.
  destruct (ParseFrame _ _ _ _) as [hd p n| | |]; try done; [|right; by right..].
  pose proof (processFrame_action hd p h) as Hf. destruct (processFrame _ _ _ _ _ _) as [h' a].
  destruct a; try by apply IH. right; by right.
Qed.

#[export] Instance WebSocket_laws : ProtocolHandlerLaws (WebSocketHandler A D).
Proof.
  split; intros data h; cbn [ph_processInput WebSocket_protocol fst snd]; unfold processInput;
    case_decide; cbn [pr_consumed pr_action].
  1, 2: unfold consumedFromCaller; case_decide; lia.
  all: match goal with |- context [process_frames _ _ _ ?f ?d ?n ?a ?h] =>
         destruct (process_frames_action f d n a h) as [->|[->| ->]] end; try done; by left.
Qed.

(** C39: the loop of the server on a WebSocket connection returns, whatever the bytes received,
    the state of the connection, the application and the transport: every round that continues
    takes a byte at least from the input buffer. *)
Theorem websocket_server_loop_ends flushOutbound (st : ConnectionState (WebSocketHandler A D)) :
  exists closed st',
    processSpecialProtocolHandler flushOutbound (length (cs_inBuffer st)) false st
    = Some (closed, st').
Proof.
  destruct (loop_ends flushOutbound (length (cs_inBuffer st)) false st) as [[closed st'] E];
    [lia|by exists closed, st'].
Qed.
End WebSocket.

(** ** A frame in two reads

    On an incomplete frame [processInput] keeps the bytes in its carry-over and reports them
    as not consumed, so that the server keeps them too and passes them again. *)

Definition receive {H} (data : bytes) (st : ConnectionState H) : ConnectionState H :=
  MkConnState (cs_inBuffer st ++ data) (cs_outBuffer st) (cs_closeRequested st) (cs_handler st).

(** A client sends one text frame.  In one read the server delivers the message; in two reads
    it closes the connection with a protocol error. *)
Lemma split_frame_rejected :
  let frame := BuildFrame Sse2 Text [104; 101; 108; 108; 111] true true 0x01020304 false in
  let run data st :=
    option_map snd
      (processSpecialProtocolHandler (P := WebSocket_protocol Sse2 Vector16 0) (fun st => MkConnState (cs_inBuffer st) [] (cs_closeRequested st) (cs_handler st))
         (length (cs_inBuffer (receive data st))) false (receive data st)) in
  let start := MkConnState [] [] false (echo_handler true) in
  option_map (fun st => (cs_closeRequested st, ws_app (cs_handler st))) (run frame start)
    = Some (false, [([104; 101; 108; 108; 111], false)])
  /\ option_map (fun st => (cs_closeRequested st, ws_app (cs_handler st)))
       (match run (take 4 frame) start with Some st => run (drop 4 frame) st | None => None end)
     = Some (true, []).
Proof. vm_compute. split; reflexivity. Qed.
