(* ===== verification/WebSocketHistory.v ===== *)
(** Histories of WebSocket connections: whatever a peer sends, whatever the application calls
    and whatever its callbacks call back, what a connection writes is a sequence of frames
    that respects the close handshake. *)

From S2P Require Import Prelude.
From S2P Require Import AsciiCase.
From S2P Require Import WebSocketFrame.
From S2P Require Import WebSocketFrameProofs.
From S2P Require Import Utf8.
From S2P Require Import WebSocketHandler.
From S2P Require Import WebSocketSends.
From S2P Require Import WebSocketInput.
Local Open Scope Z_scope.

(** ** Sequences of frames *)

(** What a connection writes: it never fragments. *)
Record OutFrame := MkOut { of_op : Opcode; of_payload : bytes; of_key : Z; of_rsv1 : bool }.

Definition encode (simd : Simd) (mask : bool) (f : OutFrame) : bytes :=
  BuildFrame simd (of_op f) (of_payload f) true mask (of_key f) (of_rsv1 f).

Definition encode_all (simd : Simd) (mask : bool) (fs : list OutFrame) : bytes :=
  concat (map (encode simd mask) fs).

Lemma encode_all_app simd mask fs gs :
  encode_all simd mask (fs ++ gs) = encode_all simd mask fs ++ encode_all simd mask gs.
Proof. unfold encode_all. by rewrite map_app, concat_app. Qed.

(** Control frames are short and not compressed; keys have 32 bits. *)
Definition out_ok (f : OutFrame) : Prop :=
  (IsControlFrame (of_op f) = true -> zlen (of_payload f) <= kMaxControlFramePayload /\ of_rsv1 f = false)
  /\ 0 <= of_key f < 2 ^ 32.

Definition no_close (fs : list OutFrame) : Prop := Forall (fun f => of_op f <> Close) fs.

(** One Close frame, and nothing but Pong frames after it. *)
Definition closed_by (fs : list OutFrame) : Prop :=
  exists before close after, fs = before ++ close :: after
    /\ no_close before /\ of_op close = Close /\ Forall (fun f => of_op f = Pong) after.

(** What may have been written in a state between two calls; [CloseReceived] is transient. *)
Definition legal (s : CloseState) (fs : list OutFrame) : Prop :=
  match s with
  | Open => no_close fs
  | CloseReceived => False
  | CloseSent => closed_by fs
  | Closed => no_close fs \/ closed_by fs
  end.

Lemma no_close_snoc fs f : no_close fs -> of_op f <> Close -> no_close (fs ++ [f]).
Proof. intros. by apply Forall_app, conj, Forall_singleton. Qed.

Lemma closed_by_close fs f : no_close fs -> of_op f = Close -> closed_by (fs ++ [f]).
Proof. intros. exists fs, f, []. by split_and!. Qed.

Lemma closed_by_pong fs f : closed_by fs -> of_op f = Pong -> closed_by (fs ++ [f]).
Proof.
  intros (b & c & a & -> & Hb & Hc & Ha) Hf. exists b, c, (a ++ [f]). split_and!; [by app_simpl|done|done|].
  by apply Forall_app, conj, Forall_singleton.
Qed.

(** ** What the operations write *)

Create HintDb emits.

Section Sent.
Context {A D : Type} {deflate : Deflate D} (simd : Simd) (path : Path).
Local Abbreviation WS := (WebSocketHandler A D).
Implicit Types h : WS.

(** From [h] to [h'] the frames [fs] were queued. *)
Record sent (fs : list OutFrame) h h' : Prop := MkSent {
  sent_config : ws_config h' = ws_config h;
  sent_callbacks : ws_callbacks h' = ws_callbacks h;
  sent_deflate : is_Some (ws_deflateContext h') <-> is_Some (ws_deflateContext h);
  sent_offset : ws_outputOffset h' = ws_outputOffset h;
  sent_output : ws_outputBuffer h' = ws_outputBuffer h ++ encode_all simd (shouldMask h) fs;
  sent_frames : Forall out_ok fs
}.

(** ... and they follow whatever legal sequence was written before. *)
Definition emits h h' : Prop :=
  exists fs, sent fs h h' /\ forall past, legal (ws_closeState h) past -> legal (ws_closeState h') (past ++ fs).

Lemma sent_trans fs gs h1 h2 h3 : sent fs h1 h2 -> sent gs h2 h3 -> sent (fs ++ gs) h1 h3.
Proof.
  intros [] []. split; try congruence.
  - by rewrite sent_deflate1.
  - rewrite encode_all_app, app_assoc. unfold shouldMask in *. congruence.
  - by apply Forall_app.
Qed.

Lemma emits_trans h1 h2 h3 : emits h1 h2 -> emits h2 h3 -> emits h1 h3.
Proof.
  intros (fs & Hs & Hl) (gs & Hs' & Hl'). exists (fs ++ gs). split; [by eapply sent_trans|].
  intros past Hp. rewrite app_assoc. auto.
Qed.

(** Updates of the other members. *)
Lemma sent_nil h h' :
  ws_config h' = ws_config h -> ws_callbacks h' = ws_callbacks h ->
  (is_Some (ws_deflateContext h') <-> is_Some (ws_deflateContext h)) ->
  ws_outputOffset h' = ws_outputOffset h -> ws_outputBuffer h' = ws_outputBuffer h -> sent [] h h'.
Proof. intros. split; try done. by rewrite app_nil_r. Qed.

Lemma emits_same h h' :
  sent [] h h' -> ws_closeState h' = ws_closeState h -> emits h h'.
Proof. intros Hs E. exists []. split; [done|]. intros past. by rewrite app_nil_r, E. Qed.

Lemma emits_refl h : emits h h.
Proof. by apply emits_same; [apply sent_nil|]. Qed.

Lemma next_mask_fields h :
  sent [] h (snd (next_mask h)) /\ ws_closeState (snd (next_mask h)) = ws_closeState h
  /\ shouldMask (snd (next_mask h)) = shouldMask h /\ 0 <= fst (next_mask h) < 2 ^ 32.
Proof.
  unfold next_mask. destruct (shouldMask h) eqn:E; [|by split; [apply sent_nil|]].
  destruct (GenerateMaskingKey _) as [k r] eqn:Ek.
  assert (0 <= k < 2 ^ 32) by (injection Ek as <- _; apply Z.mod_pos_bound; lia).
  destruct h. by split; [apply sent_nil|].
Qed.

(** A frame is appended with the next key. *)
Lemma append_frame op payload rsv1 h :
  (IsControlFrame op = true -> zlen payload <= kMaxControlFramePayload /\ rsv1 = false) ->
  let '(mask, h') := next_mask h in
  let h'' := append_output (BuildFrame simd op payload true (shouldMask h') mask rsv1) h' in
  sent [MkOut op payload mask rsv1] h h'' /\ ws_closeState h'' = ws_closeState h.
Proof.
  intros Hc. destruct (next_mask_fields h) as (Hs & Hcs & Hm & Hk). destruct (next_mask h) as [mask h'].
  cbn [snd] in *. destruct Hs. split.
  - split; try by destruct h'.
    + cbn. rewrite Hm, app_nil_r in *. destruct h'; cbn in *. by rewrite sent_output0.
    + by apply Forall_singleton.
  - rewrite <- Hcs. by destruct h'.
Qed.

Lemma queueFrame_sent op payload h :
  (IsControlFrame op = true -> zlen payload <= kMaxControlFramePayload) ->
  exists k, sent [MkOut op payload k false] h (queueFrame simd op payload true h)
    /\ ws_closeState (queueFrame simd op payload true h) = ws_closeState h.
Proof.
  intros Hc. pose proof (append_frame op payload false h) as H. unfold queueFrame.
  destruct (next_mask h) as [mask h']. exists mask. apply H. by split; [apply Hc|].
Qed.

Lemma first_125_size payload : zlen (first_125 payload) <= kMaxControlFramePayload.
Proof.
  unfold first_125. destruct (Z.ltb_spec kMaxControlFramePayload (zlen payload)); [|done].
  unfold zlen. rewrite length_take. unfold kMaxControlFramePayload. lia.
Qed.

Lemma BuildCloseFrame_frame code reason mask k :
  BuildCloseFrame simd code reason mask k
  = BuildFrame simd Close (ClosePayloadBytes code reason) true mask k false.
Proof.
  unfold BuildCloseFrame, BuildFrame. f_equal. case_decide as E; [|done]. rewrite E.
  unfold AppendFramePayload. destruct mask; [|done]. by rewrite ApplyMask_spec.
Qed.

Lemma ClosePayload_size code reason : zlen (ClosePayloadBytes code reason) <= kMaxControlFramePayload.
Proof.
  unfold ClosePayloadBytes, kMaxControlFramePayload. destruct (_ =? _); [by vm_compute|].
  rewrite zlen_app. unfold zlen. rewrite length_take. cbn [length]. lia.
Qed.

Lemma try_compress_fields payload h :
  sent [] h (snd (try_compress payload h))
  /\ ws_closeState (snd (try_compress payload h)) = ws_closeState h.
Proof.
  unfold try_compress. destruct (ws_deflateContext h) as [d|] eqn:E; [|by split; [apply sent_nil|]].
  destruct (_ <? _); [by split; [apply sent_nil|]|]. destruct (compress d payload) as [d' r].
  assert (H : forall x, sent [] h (set_deflateContext (Some d') (refill x h))
    /\ ws_closeState (set_deflateContext (Some d') (refill x h)) = ws_closeState h).
  { intros x. destruct h as [? ? ? [] ?]; cbn in E |- *. subst. split; [|done]. by apply sent_nil. }
  destruct r as [out|]; [|apply H]. destruct (_ <? _); apply H.
Qed.

Lemma sendData_emits op payload h :
  IsControlFrame op = false -> emits h (snd (sendData simd op payload h)).
Proof.
  intros Hop. assert (Hno : op <> Close) by by intros ->.
  unfold sendData. case_decide as Ho; [apply emits_refl|].
  destruct (try_compress_fields payload h) as [Hs Hcs].
  destruct (try_compress payload h) as [c h']. cbn [snd] in *.
  assert (Hstate : ws_closeState h = Open) by (destruct (ws_closeState h); naive_solver).
  destruct c as [out|].
  - pose proof (append_frame op out true h') as H. destruct (next_mask h') as [k h'']. cbn [snd].
    destruct H as [H Hc]; [by rewrite Hop|]. eexists. split; [by eapply sent_trans|].
    intros past. rewrite Hc, Hcs, Hstate. intros. by apply no_close_snoc.
  - destruct (queueFrame_sent op payload h') as (k & H & Hc); [by rewrite Hop|]. cbn [snd].
    eexists. split; [by eapply sent_trans|].
    intros past. rewrite Hc, Hcs, Hstate. intros. by apply no_close_snoc.
Qed.

Lemma sendPing_emits payload h : emits h (snd (sendPing simd payload h)).
Proof.
  unfold sendPing. case_decide as Ho; [apply emits_refl|]. cbn [snd].
  destruct (queueFrame_sent Ping (first_125 payload) h) as (k & H & Hc); [intros _; apply first_125_size|].
  eexists. split; [done|]. intros past. rewrite Hc.
  destruct (ws_closeState h); try naive_solver. intros. by apply no_close_snoc.
Qed.

Lemma sendPong_emits payload h : emits h (snd (sendPong simd payload h)).
Proof.
  unfold sendPong. case_decide as Ho; [apply emits_refl|]. cbn [snd].
  destruct (queueFrame_sent Pong (first_125 payload) h) as (k & H & Hc); [intros _; apply first_125_size|].
  eexists. split; [done|]. intros past. rewrite Hc.
  destruct (ws_closeState h); cbn; intros; [by apply no_close_snoc|by apply closed_by_pong|done|done].
Qed.

Context (now : Z).

(** A Close frame is queued when none was. *)
Lemma sendClose_sent code reason h :
  ws_closeState h = Open \/ ws_closeState h = CloseReceived ->
  let h' := snd (sendClose simd now code reason h) in
  (exists k, sent [MkOut Close (ClosePayloadBytes code reason) k false] h h')
  /\ ws_closeState h' = (if decide (ws_closeState h = Open) then CloseSent else ws_closeState h).
Proof.
  intros Hst. unfold sendClose. rewrite decide_False by (destruct Hst; congruence).
  rewrite decide_False by (destruct Hst; congruence).
  pose proof (append_frame Close (ClosePayloadBytes code reason) false h) as H.
  destruct (next_mask h) as [k h']. cbn [snd]. rewrite BuildCloseFrame_frame.
  destruct H as [H Hc]; [intros _; by split; [apply ClosePayload_size|]|].
  set (h'' := append_output _ h') in *. rewrite Hc. split.
  - exists k. destruct H. case_decide; split; by destruct h''.
  - case_decide; [by destruct h''|]. rewrite <- Hc. by destruct h''.
Qed.

Lemma sendClose_emits code reason h : emits h (snd (sendClose simd now code reason h)).
Proof.
  destruct (ws_closeState h) eqn:E.
  - destruct (sendClose_sent code reason h (or_introl E)) as [(k & H) Hc]. eexists. split; [done|].
    intros past. rewrite Hc, E. cbn. intros. by apply closed_by_close.
  - unfold sendClose. rewrite decide_True by done. apply emits_refl.
  - destruct (sendClose_sent code reason h (or_intror E)) as [(k & H) Hc]. eexists. split; [done|].
    intros past. by rewrite E.
  - unfold sendClose. case_decide; [apply emits_refl|]. rewrite decide_True by done. apply emits_refl.
Qed.

(** ** Callbacks *)

Lemma run_api_emits c h : emits h (snd (run_api simd now c h)).
Proof.
  destruct c; cbn [run_api]; [by apply sendData_emits..| | | | |];
    [apply sendPing_emits|apply sendPong_emits|apply sendClose_emits|apply emits_refl..].
Qed.

Lemma run_app_emits p h : emits h (run_app simd now p h).
Proof.
  revert h. induction p as [a|c k IH]; intros h; cbn [run_app].
  - apply emits_same; [by apply sent_nil; destruct h|by destruct h].
  - pose proof (run_api_emits c h) as H. destruct (run_api simd now c h) as [b h'].
    by eapply emits_trans.
Qed.

Lemma invoke_emits f h : emits h (invoke simd now f h).
Proof. destruct f; [apply run_app_emits|apply emits_refl]. Qed.

Lemma fail_with_emits code m h : emits h (fail_with simd now code m h).
Proof. eapply emits_trans; [apply invoke_emits|apply sendClose_emits]. Qed.

(** ** Frames received *)

Lemma set_message_emits m h : emits h (set_message m h).
Proof. apply emits_same; [apply sent_nil|]; by destruct h. Qed.
Lemma set_messageCompressed_emits m h : emits h (set_messageCompressed m h).
Proof. apply emits_same; [apply sent_nil|]; by destruct h. Qed.
Lemma set_input_emits b o h : emits h (set_input b o h).
Proof. apply emits_same; [apply sent_nil|]; by destruct h. Qed.
Lemma set_deflateContext_emits d d' h :
  ws_deflateContext h = Some d -> emits h (set_deflateContext (Some d') h).
Proof.
  intros E. apply emits_same; [apply sent_nil|]; destruct h; cbn in *; subst; try done.
Qed.

Lemma set_compressBuffer_emits x h : emits h (set_compressBuffer x h).
Proof. apply emits_same; [apply sent_nil|]; by destruct h. Qed.
Lemma refill_emits d h : emits h (refill d h).
Proof. unfold refill. destruct (ws_compressBuffer h). apply set_compressBuffer_emits. Qed.
Lemma set_viewed_emits v h : emits h (set_viewed v h).
Proof. unfold set_viewed. destruct (ws_compressBuffer h). apply set_compressBuffer_emits. Qed.

Hint Resolve emits_refl set_viewed_emits invoke_emits fail_with_emits set_message_emits set_messageCompressed_emits
  set_input_emits sendPong_emits sendClose_emits : emits.

(** Runs the last update of the goal first. *)
Ltac emits :=
  unfold clear_message, call_onMessage, call_onPing, call_onPong, call_onClose;
  repeat (first [solve [auto with emits] | eapply emits_trans; [|solve [auto with emits]]]).

Lemma messageData_emits h : emits h (snd (messageData h)).
Proof.
  unfold messageData. destruct (ws_deflateContext h) as [d|] eqn:E; [|emits].
  destruct (ws_messageCompressed h); [|emits]. destruct (decompress _ _ _) as [d' r]. cbn [snd].
  eapply emits_trans; [apply refill_emits|]. eapply set_deflateContext_emits. rewrite <- E. by destruct h as [? ? ? [] ?].
Qed.

Lemma call_with_view_emits v p bin h : emits h (call_with_view simd now v p bin h).
Proof. unfold call_with_view. destruct v; emits. Qed.

Lemma completeMessage_emits h : emits h (fst (completeMessage simd path now h)).
Proof.
  unfold completeMessage. pose proof (messageData_emits h) as Hr. destruct (messageData h) as [[data v] h'].
  cbn [snd] in Hr. destruct data as [d|]; [case_match|]; cbn [fst]; (eapply emits_trans; [exact Hr|]).
  1,3: emits.
  eapply emits_trans; [apply call_with_view_emits|]. emits.
Qed.

Lemma accumulate_emits hd p h : emits h (fst (accumulate simd path now hd p h)).
Proof.
  unfold accumulate. case_match; cbn [fst]; [emits|].
  case_match; cbn [fst]; [|emits]. eapply emits_trans; [apply set_message_emits|apply completeMessage_emits].
Qed.

Lemma handleDataFrame_emits hd p h : emits h (fst (handleDataFrame simd path now hd p h)).
Proof.
  unfold handleDataFrame.
  case_decide; [case_match; cbn [fst]; [emits|apply accumulate_emits]|].
  case_match; cbn [fst]; [emits|]. case_match; [case_match; cbn [fst]; [emits|]; case_match; cbn [fst]; emits|].
  eapply emits_trans; [apply set_message_emits|]. eapply emits_trans; [apply set_messageCompressed_emits|].
  apply accumulate_emits.
Qed.

(** A Close frame answers the first Close of the peer, and only that one. *)
Lemma handleClose_emits p h :
  let closeInfo := ParseClosePayload p in
  emits h (match ws_closeState h with
    | Open =>
        let h := set_closeCode (cp_code closeInfo) (set_closeState CloseReceived h) in
        let h := snd (sendClose simd now (cp_code closeInfo) (cp_reason closeInfo) h) in
        set_closeState Closed h
    | CloseSent => set_closeState Closed h
    | _ => h
    end).
Proof.
  cbv zeta. destruct (ws_closeState h) eqn:E; [| |apply emits_refl..].
  - set (h1 := set_closeCode _ _).
    destruct (sendClose_sent (cp_code (ParseClosePayload p)) (cp_reason (ParseClosePayload p)) h1)
      as [(k & Hs) _]; [right; by destruct h|].
    assert (H1 : sent [] h h1) by (apply sent_nil; by destruct h).
    eexists. split; [eapply sent_trans; [exact H1|eapply sent_trans; [exact Hs|]]|].
    + by apply sent_nil; destruct (snd _).
    + intros past. rewrite E. cbn. intros.
      replace (ws_closeState (set_closeState Closed _)) with Closed by by destruct (snd _).
      right. by apply closed_by_close.
  - exists []. split; [by apply sent_nil; destruct h|]. intros past. rewrite E, app_nil_r.
    replace (ws_closeState (set_closeState Closed h)) with Closed by by destruct h. by right.
Qed.

Lemma handleControlFrame_emits hd p h : emits h (fst (handleControlFrame simd now hd p h)).
Proof.
  unfold handleControlFrame.
  assert (Hclose : emits h (fst (
      let closeInfo := ParseClosePayload p in
      let '(h, action) :=
        match ws_closeState h with
        | Open =>
            let h := set_closeCode (cp_code closeInfo) (set_closeState CloseReceived h) in
            let h := snd (sendClose simd now (cp_code closeInfo) (cp_reason closeInfo) h) in
            (set_closeState Closed h, ActResponseReady)
        | CloseSent => (set_closeState Closed h, ActClose)
        | _ => (h, ActContinue)
        end in
      (call_onClose simd now (cp_code closeInfo) (cp_reason closeInfo) h, action)))).
  { pose proof (handleClose_emits p h) as H. cbv zeta in *.
    destruct (ws_closeState h); cbn [fst]; (eapply emits_trans; [exact H|apply invoke_emits]). }
  destruct (fh_opcode hd); try exact Hclose; cbn [fst]; emits.
Qed.

Lemma processFrame_emits hd p h : emits h (fst (processFrame simd path now hd p h)).
Proof. unfold processFrame. case_match; [apply handleControlFrame_emits|apply handleDataFrame_emits]. Qed.

Lemma process_frames_emits fuel data consumed action h :
  emits h (pr_handler (process_frames simd path now fuel data consumed action h)).
Proof.
  revert data consumed action h. induction fuel as [|fuel IH]; intros data consumed action h;
    cbn [process_frames]; destruct (Nat.eqb _ 0); cbn [pr_handler]; [emits|emits|emits|].
  destruct (ParseFrame _ _ _ _) as [hd p n| | |]; cbn [pr_handler]; [|unfold save_remainder|emits|emits].
  - pose proof (processFrame_emits hd p h) as H. destruct (processFrame _ _ _ _ _ _) as [h' a].
    cbn [fst] in H. eapply emits_trans; [exact H|]. destruct a; cbn [pr_handler]; try apply IH. emits.
  - case_decide; [emits|]. case_decide; emits.
Qed.

Lemma processInput_emits data h : emits h (pr_handler (processInput simd path now data h)).
Proof.
  unfold processInput. case_decide; cbn [pr_handler]; [|apply process_frames_emits].
  eapply emits_trans; [apply set_input_emits|apply process_frames_emits].
Qed.
End Sent.

(** ** Histories *)

(** The public operations, with what the clock reads in each. *)
Inductive ws_call (A : Type) :=
| WsInput (now : Z) (data : bytes)
| WsApi (now : Z) (c : ApiCall)
| WsOutputWritten (n : nat)
| WsDrain (dest : bytes)
| WsInitiateClose (now : Z)
| WsTransportClosing
| WsForceCloseOnTimeout
| WsSetCallbacks (callbacks : WebSocketCallbacks A).
Arguments WsInput {A}.
Arguments WsApi {A}.
Arguments WsOutputWritten {A}.
Arguments WsDrain {A}.
Arguments WsInitiateClose {A}.
Arguments WsTransportClosing {A}.
Arguments WsForceCloseOnTimeout {A}.
Arguments WsSetCallbacks {A}.

Section History.
Context {A D : Type} {deflate : Deflate D} (simd : Simd) (path : Path).
Local Abbreviation WS := (WebSocketHandler A D).
Implicit Types h : WS.

(** The connection, and all that the transport took from it. *)
Definition run_call (c : ws_call A) (st : bytes * WS) : bytes * WS :=
  let '(taken, h) := st in
  match c with
  | WsInput now data => (taken, pr_handler (processInput simd path now data h))
  | WsApi now c => (taken, snd (run_api simd now c h))
  | WsOutputWritten n => (taken ++ take n (getPendingOutput h), onOutputWritten n h)
  | WsDrain dest =>
      let '(_, dest', h) := drainOutputBuffer dest h in (taken ++ drop (length dest) dest', h)
  | WsInitiateClose now => (taken, initiateClose simd now h)
  | WsTransportClosing => (taken, onTransportClosing h)
  | WsForceCloseOnTimeout => (taken, forceCloseOnTimeout h)
  | WsSetCallbacks callbacks => (taken, setCallbacks callbacks h)
  end.

Definition run_calls (calls : list (ws_call A)) (st : bytes * WS) : bytes * WS :=
  fold_left (fun st c => run_call c st) calls st.

(** The frames written so far. *)
Definition history_ok (server : bool) (st : bytes * WS) : Prop :=
  let '(taken, h) := st in
  isServerSide (ws_config h) = server
  /\ (ws_outputOffset h <= length (ws_outputBuffer h))%nat
  /\ exists fs, taken ++ getPendingOutput h = encode_all simd (negb server) fs
       /\ Forall out_ok fs /\ legal (ws_closeState h) fs.

Lemma history_emits server taken h h' :
  history_ok server (taken, h) -> emits simd h h' -> history_ok server (taken, h').
Proof.
  intros (Hsv & Hoff & fs & E & Hf & Hl) (gs & [] & Hl'). split_and!; [congruence| |].
  - rewrite sent_output0, sent_offset0, length_app. lia.
  - exists (fs ++ gs). split_and!; [|by apply Forall_app|by apply Hl'].
    rewrite encode_all_app, <- E. unfold getPendingOutput in *.
    rewrite sent_output0, sent_offset0, drop_app_le by done. unfold shouldMask. rewrite Hsv. by app_simpl.
Qed.

Lemma history_written server taken h n :
  history_ok server (taken, h) ->
  history_ok server (taken ++ take n (getPendingOutput h), onOutputWritten n h).
Proof.
  intros (Hsv & Hoff & fs & E & Hf & Hl). unfold onOutputWritten, getPendingOutput in *.
  case_decide as Hn; (split_and!; [by destruct h|destruct h; cbn in *; lia|exists fs; split_and!; [|done|by destruct h]]).
  - rewrite <- E, take_ge by (rewrite length_drop; lia). destruct h; cbn. by rewrite app_nil_r.
  - rewrite <- E, <- app_assoc. f_equal. destruct h; cbn. rewrite <- drop_drop. apply take_drop.
Qed.

(** Updates of the state of the close handshake alone. *)
Lemma history_closeState server taken h h' :
  history_ok server (taken, h) ->
  ws_config h' = ws_config h -> ws_outputOffset h' = ws_outputOffset h ->
  ws_outputBuffer h' = ws_outputBuffer h ->
  (forall fs, legal (ws_closeState h) fs -> legal (ws_closeState h') fs) -> history_ok server (taken, h').
Proof.
  intros (Hsv & Hoff & fs & E & Hf & Hl) E1 E2 E3 Hl'. unfold history_ok, getPendingOutput in *.
  rewrite E1, E2, E3. split_and!; [done|done|]. exists fs. split_and!; auto.
Qed.

Lemma run_call_ok server c st : history_ok server st -> history_ok server (run_call c st).
Proof.
  destruct st as [taken h]. intros H. destruct c; cbn [run_call].
  - eapply history_emits; [done|apply processInput_emits].
  - eapply history_emits; [done|apply run_api_emits].
  - by apply history_written.
  - unfold drainOutputBuffer. case_decide as Ho.
    { by rewrite drop_all, app_nil_r. }
    destruct (Nat.eqb_spec (ws_outputOffset h) 0) as [E0|]; [destruct (Nat.eqb_spec (length dest) 0) as [E1|]|];
      cbn [andb].
    + pose proof (history_written server taken h (length (ws_outputBuffer h)) H) as Hw.
      unfold onOutputWritten, getPendingOutput in Hw. rewrite decide_True in Hw by lia.
      rewrite E0, drop_0, take_ge in Hw by lia. rewrite E0, E1. by rewrite drop_0.
    + rewrite drop_app_length. pose proof (history_written server taken h (length (getPendingOutput h)) H) as Hw.
      by rewrite take_ge in Hw by done.
    + rewrite drop_app_length. pose proof (history_written server taken h (length (getPendingOutput h)) H) as Hw.
      by rewrite take_ge in Hw by done.
  - unfold initiateClose. case_decide; [|done]. eapply history_emits; [done|apply sendClose_emits].
  - eapply history_closeState; [done|by destruct h..|]. intros fs. unfold onTransportClosing.
    replace (ws_closeState (set_input [] 0%nat _)) with Closed by by destruct h.
    destruct (ws_closeState h); cbn; tauto.
  - unfold forceCloseOnTimeout. case_decide as Hc; [|done].
    eapply history_closeState; [done|by destruct h..|]. intros fs. rewrite Hc.
    replace (ws_closeState (set_closeState Closed h)) with Closed by by destruct h. cbn. tauto.
  - eapply history_closeState; [done|by destruct h..|]. by destruct h.
Qed.

(** C16: whatever a peer sends, however the application calls a connection, from wherever its
    callbacks call it back, and however the transport takes its output, the bytes it writes
    are whole frames, control frames short and unfragmented, with at most one Close frame
    and nothing but Pong frames after it; as long as the connection is open there is none,
    and after sending one there is one. *)
Theorem websocket_output_legal config callbacks deflateContext seed a calls :
  let '(taken, h) :=
    run_calls calls ([], WebSocketHandler_new config callbacks deflateContext seed a) in
  exists fs, taken ++ getPendingOutput h = encode_all simd (negb (isServerSide config)) fs
    /\ Forall out_ok fs /\ (no_close fs \/ closed_by fs)
    /\ (ws_closeState h = Open -> no_close fs) /\ (ws_closeState h = CloseSent -> closed_by fs)
    /\ ws_closeState h <> CloseReceived.
Proof.
  assert (H : forall calls st, history_ok (isServerSide config) st ->
    history_ok (isServerSide config) (run_calls calls st)).
  { clear calls. induction calls as [|c calls IH]; intros st Hst; [done|]. by apply IH, run_call_ok. }
  specialize (H calls ([], WebSocketHandler_new config callbacks deflateContext seed a)).
  destruct (run_calls _ _) as [taken h]. destruct H as (_ & _ & fs & E & Hf & Hl).
  { split_and!; [done|done|]. exists []. split_and!; [done|constructor|constructor]. }
  exists fs. destruct (ws_closeState h); cbn in Hl; split_and!; try done; tauto.
Qed.
End History.
