(* ===== verification/WebSocketBounds.v ===== *)
(** The state of a WebSocket connection stays well formed and bounded, whatever its peer sends
    and its application calls: the limits of the configuration bound the message, and the input
    kept while the connection is open; then two behaviours outside of these bounds. *)

From S2P Require Import Prelude.
From S2P Require Import AsciiCase.
From S2P Require Import WebSocketFrame.
From S2P Require Import WebSocketFrameProofs.
From S2P Require Import Utf8.
From S2P Require Import WebSocketHandler.
From S2P Require Import WebSocketSends.
From S2P Require Import WebSocketInput.
From S2P Require Import WebSocketHistory.
Local Open Scope Z_scope.

Lemma ParseLength_incomplete d l7 : ParseLength d l7 = inl FrameIncomplete -> zlen d < 10.
Proof.
  unfold ParseLength. cbv zeta. destruct (l7 =? kPayloadLen16).
  - destruct (Z.ltb_spec (zlen d) 4); [lia|]. case_match; discriminate.
  - destruct (l7 =? kPayloadLen64); [|discriminate]. destruct (Z.ltb_spec (zlen d) 10); [lia|].
    case_match; [discriminate|]. case_match; discriminate.
Qed.

(** An incomplete frame is shorter than the longest frame allowed. *)
Lemma ParseFrame_incomplete d max server rsv1 :
  bytes_ok d -> 0 < max < 2 ^ 62 -> ParseFrame d max server rsv1 = FrameIncomplete -> zlen d < max + 14.
Proof.
  intros Hd Hmax. unfold ParseFrame. change kMinFrameHeaderSize with 2.
  destruct (Z.ltb_spec (zlen d) 2); [lia|]. cbv zeta.
  do 4 (case_match; [done|]). case_match; [|done]. do 3 (case_match; [done|]).
  pose proof (land_127_bounds (byte_at d 1)).
  destruct (ParseLength d _) as [e|[n hs]] eqn:El.
  - intros ->. apply ParseLength_incomplete in El. lia.
  - apply ParseLength_bounds in El as (? & ? & _); [|done|lia..].
    case_match; [done|]. case_match eqn:Hx; [done|].
    assert (n <= max) by (apply andb_false_iff in Hx as [?%Z.ltb_ge|?%Z.ltb_ge]; lia).
    unfold ParsePayload. cbn [fh_masked]. match goal with |- context [if ?m then hs + _ else hs] => set (masked := m) end.
    set (hs' := if masked then hs + kMaskingKeySize else hs).
    assert (hs <= hs' <= 14) by (unfold hs', kMaskingKeySize; destruct masked; lia).
    destruct (Z.ltb_spec (zlen d) hs'); [lia|].
    rewrite u64_id by (destruct masked; cbn; lia).
    match goal with |- context [zlen d <? hs' + ?l] => replace l with n by by destruct masked end.
    destruct (Z.ltb_spec (zlen d) (hs' + n)); [lia|done].
Qed.

(** ** Well-formed states *)

Definition rng_ok (r : Z) : Prop := 0 <= r < 2 ^ 64.

Definition message_wf (max : Z) (m : MessageState) : Prop :=
  (if ms_inProgress m then ms_opcode m = Text \/ ms_opcode m = Binary else ms_buffer m = [])
  /\ (0 < max -> zlen (ms_buffer m) <= max).

Section Bounds.
Context {A D : Type} {deflate : Deflate D} (simd : Simd) (path : Path).
Local Abbreviation WS := (WebSocketHandler A D).
Implicit Types h : WS.

(** While the connection is open, what is kept of the input is part of one frame. *)
Definition carry_wf h : Prop :=
  ws_closeState h = Open -> 0 < maxFrameSize (ws_config h) -> zlen (carry h) < maxFrameSize (ws_config h) + 14.

Definition ws_wf h : Prop :=
  maxFrameSize (ws_config h) < 2 ^ 62 /\ rng_ok (ws_rngState h)
  /\ message_wf (maxMessageSize (ws_config h)) (ws_message h) /\ input_ok h /\ carry_wf h.

(** What sending and calling back leave alone. *)
Record steady h h' : Prop := MkSteady {
  st_config : ws_config h' = ws_config h;
  st_input : ws_inputBuffer h' = ws_inputBuffer h /\ ws_inputBufferOffset h' = ws_inputBufferOffset h;
  st_rng : rng_ok (ws_rngState h) -> rng_ok (ws_rngState h');
  st_open : ws_closeState h' = Open -> ws_closeState h = Open
}.

Lemma steady_refl h : steady h h.
Proof. by split. Qed.

Lemma steady_trans h1 h2 h3 : steady h1 h2 -> steady h2 h3 -> steady h1 h3.
Proof. intros [? [] ? ?] [? [] ? ?]. split; auto; try congruence. split; congruence. Qed.

Local Ltac by_fields h := split; [|split|..]; by destruct h.

Lemma steady_output buf off h : steady h (set_output buf off h).
Proof. by_fields h. Qed.
Lemma steady_message m h : steady h (set_message m h).
Proof. by_fields h. Qed.
Lemma steady_compressed m h : steady h (set_messageCompressed m h).
Proof. by_fields h. Qed.
Lemma steady_deflate d h : steady h (set_deflateContext d h).
Proof. by_fields h. Qed.
Lemma steady_refill d h : steady h (refill d h).
Proof. split; [|split|..]; by destruct h as [? ? ? [] ?]. Qed.
Lemma steady_viewed v h : steady h (set_viewed v h).
Proof. split; [|split|..]; by destruct h as [? ? ? [] ?]. Qed.
Lemma steady_app a h : steady h (set_app a h).
Proof. by_fields h. Qed.
Lemma steady_code c h : steady h (set_closeCode c h).
Proof. by_fields h. Qed.
Lemma steady_at t h : steady h (set_closeInitiatedAt t h).
Proof. by_fields h. Qed.
Lemma steady_state s h : s <> Open -> steady h (set_closeState s h).
Proof. intros Hs. destruct h. split; [done|done|done|]. cbn. congruence. Qed.

Lemma steady_mask h : steady h (snd (next_mask h)).
Proof.
  unfold next_mask. destruct (shouldMask h); [|apply steady_refl].
  destruct (GenerateMaskingKey _) as [k r] eqn:E. injection E as _ <-. destruct h. split; [done|done| |done].
  intros _. apply Z.mod_pos_bound. lia.
Qed.

Hint Resolve steady_refl steady_output steady_message steady_compressed steady_deflate steady_refill steady_viewed steady_app
  steady_code steady_at steady_state steady_mask : emits.
Local Ltac steady :=
  unfold append_output, clear_message;
  repeat (first [solve [eauto with emits] | eapply steady_trans; [|solve [eauto with emits]]]).

Lemma steady_queue op p fin h : steady h (queueFrame simd op p fin h).
Proof.
  unfold queueFrame. pose proof (steady_mask h) as H. destruct (next_mask h) as [k h']. cbn [snd] in H.
  eapply steady_trans; [exact H|]. steady.
Qed.

Lemma steady_compress p h : steady h (snd (try_compress p h)).
Proof.
  unfold try_compress. destruct (ws_deflateContext h); [|steady]. destruct (_ <? _); [steady|].
  destruct (compress _ _) as [d' r]. destruct r; [|steady]. destruct (_ <? _); steady.
Qed.

Lemma steady_data op p h : steady h (snd (sendData simd op p h)).
Proof.
  unfold sendData. case_decide as Ho; [steady|]. pose proof (steady_compress p h) as H.
  destruct (try_compress p h) as [[out|] h']; cbn [snd] in H.
  - pose proof (steady_mask h') as H'. destruct (next_mask h') as [k h'']. cbn [snd] in *.
    eapply steady_trans; [exact H|]. eapply steady_trans; [exact H'|]. steady.
  - cbn [snd]. eapply steady_trans; [exact H|apply steady_queue].
Qed.

Lemma steady_ping p h : steady h (snd (sendPing simd p h)).
Proof. unfold sendPing. case_decide; [steady|apply steady_queue]. Qed.
Lemma steady_pong p h : steady h (snd (sendPong simd p h)).
Proof. unfold sendPong. case_decide; [steady|apply steady_queue]. Qed.

Context (now : Z).

Lemma steady_close code r h : steady h (snd (sendClose simd now code r h)).
Proof.
  unfold sendClose. case_decide as Ho1; [steady|]. case_decide as Ho2; [steady|].
  pose proof (steady_mask h) as H. destruct (next_mask h) as [k h']. cbn [snd] in *.
  eapply steady_trans; [exact H|]. case_decide; [|steady].
  eapply steady_trans; [|apply steady_code]. eapply steady_trans; [|apply steady_at].
  eapply steady_trans; [|by apply steady_state]. steady.
Qed.

Lemma steady_run p h : steady h (run_app simd now p h).
Proof.
  revert h. induction p as [a|c k IH]; intros h; cbn [run_app]; [steady|].
  assert (H : steady h (snd (run_api simd now c h))).
  { destruct c; cbn [run_api]; [apply steady_data..|apply steady_ping|apply steady_pong|apply steady_close|steady|steady]. }
  destruct (run_api simd now c h) as [b h']. by eapply steady_trans.
Qed.

Lemma steady_invoke f h : steady h (invoke simd now f h).
Proof. destruct f; [apply steady_run|steady]. Qed.

Lemma steady_fail code m h : steady h (fail_with simd now code m h).
Proof. eapply steady_trans; [apply steady_invoke|apply steady_close]. Qed.

(** Neither do they touch the message. *)
Lemma message_same (f : WS -> WS) h :
  (forall fm fi fo fc h, f (set_rest fm fi fo fc h) = set_rest fm fi fo fc (f h)) ->
  ws_message (f h) = ws_message h.
Proof.
  intros Hf. specialize (Hf (fun _ => ws_message h) id id id h).
  replace (set_rest (fun _ => ws_message h) id id id h) with h in Hf by by destruct h.
  rewrite Hf. by destruct (f h).
Qed.

Lemma call_message h :
  (forall p bin, ws_message (call_onMessage simd now p bin h) = ws_message h)
  /\ (forall p, ws_message (call_onPing simd now p h) = ws_message h)
  /\ (forall p, ws_message (call_onPong simd now p h) = ws_message h)
  /\ (forall c r, ws_message (call_onClose simd now c r h) = ws_message h)
  /\ (forall c r, ws_message (fail_with simd now c r h) = ws_message h)
  /\ (forall p, ws_message (snd (sendPong simd p h)) = ws_message h)
  /\ (forall c r, ws_message (snd (sendClose simd now c r h)) = ws_message h).
Proof.
  split_and!; intros.
  - apply (message_same (call_onMessage simd now p bin)). intros. apply call_rest.
  - apply (message_same (call_onPing simd now p)). intros. apply call_rest.
  - apply (message_same (call_onPong simd now p)). intros. apply call_rest.
  - apply (message_same (call_onClose simd now c r)). intros. apply call_rest.
  - apply (message_same (fail_with simd now c r)). intros. apply fail_with_rest.
  - apply (message_same (fun h => snd (sendPong simd p h))). intros. by rewrite sendPong_rest.
  - apply (message_same (fun h => snd (sendClose simd now c r h))). intros. by rewrite sendClose_rest.
Qed.

(** ** Frames received *)

Definition after_frame h h' : Prop :=
  steady h h' /\ (message_wf (maxMessageSize (ws_config h)) (ws_message h) ->
                  message_wf (maxMessageSize (ws_config h)) (ws_message h')).

Lemma cleared_wf max h : message_wf max (ws_message (clear_message h)).
Proof. destruct h. split; [done|]. cbn. change (zlen (@nil Z)) with 0. lia. Qed.

Lemma message_compressed b h : ws_message (set_messageCompressed b h) = ws_message h.
Proof. by destruct h. Qed.

Lemma steady_messageData h : steady h (snd (messageData h)).
Proof.
  unfold messageData. destruct (ws_deflateContext h) as [d|]; [|steady]. destruct (ws_messageCompressed h); [|steady].
  destruct (decompress _ _ _) as [d' r]. cbn [snd]. steady.
Qed.

Lemma steady_call v p bin h : steady h (call_with_view simd now v p bin h).
Proof.
  unfold call_with_view. destruct v; [|apply steady_invoke].
  eapply steady_trans; [apply steady_viewed|]. eapply steady_trans; [apply steady_invoke|]. steady.
Qed.

Lemma completeMessage_after h : after_frame h (fst (completeMessage simd path now h)).
Proof.
  unfold completeMessage. pose proof (steady_messageData h) as Hr. destruct (messageData h) as [[data v] h'].
  cbn [snd] in Hr. destruct data as [d|]; [case_match|]; cbn [fst];
    (split; [|intros _; rewrite message_compressed; apply cleared_wf]);
    (eapply steady_trans; [exact Hr|]);
    (eapply steady_trans; [|apply steady_compressed]); (eapply steady_trans; [|apply steady_message]);
    first [apply steady_fail|apply steady_call].
Qed.

Lemma zlen_unmask hd p : zlen (unmask simd hd p) = zlen p.
Proof.
  unfold unmask. case_match; [|done]. rewrite ApplyMask_spec. unfold zlen, mask_spec. by rewrite length_mask_from.
Qed.

Lemma accumulate_after hd p h :
  ms_inProgress (ws_message h) = true -> after_frame h (fst (accumulate simd path now hd p h)).
Proof.
  intros Hp. unfold accumulate. destruct (too_big _ h) eqn:Hb; cbn [fst].
  - split; [|intros _; apply cleared_wf]. eapply steady_trans; [apply steady_fail|steady].
  - set (m := MkMessage _ _ _).
    assert (Hm : message_wf (maxMessageSize (ws_config h)) (ws_message h) ->
                 message_wf (maxMessageSize (ws_config h)) m).
    { unfold message_wf, m. rewrite Hp. cbn. intros [? _]. split; [done|]. intros Hmax.
      rewrite zlen_app, zlen_unmask. unfold too_big in Hb.
      apply andb_false_iff in Hb as [?%Z.ltb_ge|?%Z.ltb_ge]; lia. }
    destruct (fh_fin hd); cbn [fst].
    + destruct (completeMessage_after (set_message m h)) as [Hs Hc]. split; [eapply steady_trans; [apply steady_message|done]|].
      destruct h; cbn in *. auto.
    + split; [steady|]. destruct h; cbn in *. auto.
Qed.

Lemma handleDataFrame_after hd p h :
  IsControlFrame (fh_opcode hd) = false -> after_frame h (fst (handleDataFrame simd path now hd p h)).
Proof.
  intros Hop. destruct (call_message h) as (Hmsg & _ & _ & _ & Hfail & _).
  assert (Hf : forall c m, after_frame h (fail_with simd now c m h))
    by (intros; split; [apply steady_fail|by rewrite Hfail]).
  unfold handleDataFrame.
  case_decide as Hc; [destruct (ms_inProgress (ws_message h)) eqn:E; cbn [negb fst]; [by apply accumulate_after|done]|].
  destruct (ms_inProgress (ws_message h)) eqn:E; cbn [fst]; [done|].
  case_match; [case_match; cbn [fst]; [done|]; case_match; cbn [fst]; [done|]|].
  - split; [apply steady_invoke|by rewrite Hmsg].
  - set (h1 := set_messageCompressed _ _).
    destruct (accumulate_after hd p h1) as [Hs Hm]; [by destruct h|]. split.
    + eapply steady_trans; [|exact Hs]. unfold h1. steady.
    + intros _. replace (ws_config h1) with (ws_config h) in Hm by by destruct h. apply Hm.
      replace (ws_message h1) with (MkMessage [] (fh_opcode hd) true) by by destruct h.
      split; cbn; [|change (zlen (@nil Z)) with 0; lia]. destruct (fh_opcode hd); auto; done.
Qed.

Lemma handleControlFrame_after hd p h : after_frame h (fst (handleControlFrame simd now hd p h)).
Proof.
  unfold handleControlFrame.
  assert (Hclose : after_frame h (fst (
      let closeInfo := ParseClosePayload p in
      let '(h, action) :=
        match ws_closeState h with
        | Open =>
            let h := set_closeCode (cp_code closeInfo) (set_closeState CloseReceived h) in
            let h := snd (sendClose simd now (cp_code closeInfo) (cp_reason closeInfo) h) in
            (set_closeState Closed h, ActResponseReady)
        | CloseSent => (set_closeState Closed h, ActClose)
        | _ => (h, ActContinue)
        end in
      (call_onClose simd now (cp_code closeInfo) (cp_reason closeInfo) h, action)))).
  { cbv zeta.
    assert (Hst : forall s h, ws_message (set_closeState s h) = ws_message h) by by intros ? [].
    assert (Hcd : forall s h, ws_message (set_closeCode s h) = ws_message h) by by intros ? [].
    destruct (ws_closeState h); cbn [fst]; (split;
      [eapply steady_trans; [|apply steady_invoke]|
       match goal with |- context [call_onClose _ _ _ _ ?x] => destruct (call_message x) as (_ & _ & _ & -> & _) end]).
    - eapply steady_trans; [|by apply steady_state]. eapply steady_trans; [|apply steady_close].
      eapply steady_trans; [|apply steady_code]. by apply steady_state.
    - rewrite Hst. match goal with |- context [sendClose _ _ _ _ ?x] => destruct (call_message x) as (_ & _ & _ & _ & _ & _ & ->) end.
      by rewrite Hcd, Hst.
    - by apply steady_state.
    - by rewrite Hst.
    - steady.
    - done.
    - steady.
    - done. }
  destruct (fh_opcode hd); try exact Hclose; cbn [fst]; split.
  - eapply steady_trans; [apply steady_pong|apply steady_invoke].
  - match goal with |- context [call_onPing _ _ _ ?x] => destruct (call_message x) as (_ & -> & _) end.
    by destruct (call_message h) as (_ & _ & _ & _ & _ & -> & _).
  - apply steady_invoke.
  - by destruct (call_message h) as (_ & _ & -> & _).
Qed.

Lemma processFrame_after hd p h : after_frame h (fst (processFrame simd path now hd p h)).
Proof.
  unfold processFrame. destruct (IsControlFrame (fh_opcode hd)) eqn:E;
    [apply handleControlFrame_after|by apply handleDataFrame_after].
Qed.

(** ** Input *)

Lemma sendClose_closes code r h : ws_closeState (snd (sendClose simd now code r h)) <> Open.
Proof.
  unfold sendClose. case_decide as H1; [cbn; congruence|]. case_decide as H2; [cbn; congruence|].
  destruct (next_mask h) as [k h']. cbn [snd]. case_decide as Ho.
  - by destruct (append_output _ h').
  - by destruct (append_output _ h').
Qed.

(** What the loop keeps apart from the carry-over. *)
Definition loop_wf h : Prop :=
  maxFrameSize (ws_config h) < 2 ^ 62 /\ rng_ok (ws_rngState h)
  /\ message_wf (maxMessageSize (ws_config h)) (ws_message h) /\ input_ok h.

Lemma loop_wf_after h h' : loop_wf h -> after_frame h h' -> loop_wf h'.
Proof.
  intros (Hm & Hr & Hg & Hi) [[Hc [Hi1 Hi2] Hr' _] Hg']. unfold loop_wf, input_ok in *.
  rewrite Hc, Hi1, Hi2. split_and!; auto; apply Hi.
Qed.

Lemma loop_wf_input h b o :
  loop_wf h -> bytes_ok b -> (b = [] \/ (o < length b)%nat) -> loop_wf (set_input b o h).
Proof. intros (Hm & Hr & Hg & _) Hb Ho. destruct h. by split_and!. Qed.

Lemma empty_carry_wf h o : loop_wf h -> ws_wf (set_input [] o h).
Proof.
  intros H. assert (H' := loop_wf_input h [] o H ltac:(constructor) ltac:(by left)).
  destruct H' as (? & ? & ? & ?). split_and!; try done. intros _ Hmax.
  replace (carry (set_input [] o h)) with (@nil Z) by (destruct h; unfold carry; cbn; by rewrite drop_nil).
  change (zlen (@nil Z)) with 0. lia.
Qed.

Lemma failed_wf h code m : loop_wf h -> ws_wf (fail_with simd now code m h).
Proof.
  intros H. destruct (loop_wf_after h (fail_with simd now code m h) H) as (? & ? & ? & ?).
  { split; [apply steady_fail|]. by destruct (call_message h) as (_ & _ & _ & _ & -> & _). }
  split_and!; try done. intros Ho. by destruct (sendClose_closes code m (call_onError simd now code m h)).
Qed.

Lemma process_frames_wf fuel data consumed action h :
  loop_wf h -> bytes_ok data -> (length data <= fuel)%nat ->
  (ws_inputBuffer h = [] \/ data = drop (ws_inputBufferOffset h + consumed) (ws_inputBuffer h)) ->
  ws_wf (pr_handler (process_frames simd path now fuel data consumed action h)).
Proof.
  revert data consumed action h. induction fuel as [|fuel IH]; intros data consumed action h Hw Hd Hf Hv;
    cbn [process_frames]; destruct (Nat.eqb_spec (length data) 0) as [E0|Hne]; cbn [pr_handler]; try lia;
    try by apply empty_carry_wf.
  destruct (ParseFrame data _ _ _) as [hd p n| | |] eqn:E; cbn [pr_handler]; try by apply failed_wf.
  - assert (Hn := parse_next_size h data hd p n Hd E).
    pose proof (processFrame_after hd p h) as Ha.
    destruct (processFrame simd path now hd p h) as [h' a]. cbn [fst] in Ha.
    assert (Hw' := loop_wf_after h h' Hw Ha). destruct Ha as [[_ [Hi1 Hi2] _ _] _].
    assert (Hstep : forall action', ws_wf (pr_handler (process_frames simd path now fuel
      (drop (Z.to_nat n) data) (consumed + Z.to_nat n) action' h'))).
    { intros action'. apply IH; [done|by apply Forall_drop|rewrite length_drop; lia|].
      rewrite Hi1, Hi2. destruct Hv as [Hv|Hv]; [by left|right]. rewrite Hv, drop_drop. f_equal. lia. }
    destruct a; try apply Hstep. by apply empty_carry_wf.
  - destruct (save_remainder_spec data consumed h) as (Hc & Hi & Hfg); try done; [apply Hw|by intros ->|].
    destruct Hw as (Hm & Hr & Hg & _).
    assert (Hsave : exists b o, save_remainder data consumed h = set_input b o h)
      by (unfold save_remainder; case_decide; [by eexists _, _|]; case_decide; by eexists _, _).
    destruct Hsave as (b & o & Es). split; [|split; [|split; [|split]]]; try done; try (rewrite Es; by destruct h).
    intros _ Hmax. rewrite Hc. rewrite Es in Hmax |- *.
    replace (ws_config (set_input b o h)) with (ws_config h) in * by by destruct h.
    eapply ParseFrame_incomplete; [done| |exact E]. lia.
Qed.

Lemma processInput_wf data h :
  ws_wf h -> bytes_ok data -> ws_wf (pr_handler (processInput simd path now data h)).
Proof.
  intros (Hm & Hr & Hg & [Hb Hi] & _) Hd. unfold processInput. case_decide as Ho; cbn [pr_handler].
  - assert (Hcat : bytes_ok (ws_inputBuffer h ++ data)) by by apply Forall_app.
    set (h1 := set_input (ws_inputBuffer h ++ data) (ws_inputBufferOffset h) h).
    assert (E1 : ws_inputBuffer h1 = ws_inputBuffer h ++ data) by by destruct h.
    assert (E2 : ws_inputBufferOffset h1 = ws_inputBufferOffset h) by by destruct h.
    rewrite E1, E2. apply process_frames_wf; [| |lia|].
    + apply loop_wf_input; [by split_and!|done|right; rewrite length_app; lia].
    + by apply Forall_drop.
    + right. by rewrite E1, E2, Nat.add_0_r.
  - apply process_frames_wf; [by split_and!|done|lia|]. destruct Hi as [->|]; [by left|done].
Qed.

(** The operations of the application. *)
Lemma steady_wf h h' : ws_wf h -> steady h h' -> ws_message h' = ws_message h -> ws_wf h'.
Proof.
  intros (Hm & Hr & Hg & Hi & Hc) [Ec [E1 E2] Hr' Ho] Eg. unfold ws_wf, carry_wf, carry, input_ok in *.
  rewrite Ec, E1, E2, Eg. split_and!; auto; apply Hi.
Qed.

Lemma run_api_wf c h : ws_wf h -> ws_wf (snd (run_api simd now c h)).
Proof.
  intros H. apply (steady_wf h); [done| |].
  - destruct c; cbn [run_api]; [apply steady_data..|apply steady_ping|apply steady_pong|apply steady_close|
      apply steady_refl|apply steady_refl].
  - apply (message_same (fun h => snd (run_api simd now c h))). intros. by rewrite run_api_rest.
Qed.
End Bounds.

(** Calls whose bytes are bytes. *)
Definition call_bytes {A} (c : ws_call A) : Prop :=
  match c with WsInput _ data => bytes_ok data | _ => True end.

(** C26: in any history of a connection, whatever its peer sends, its application calls and its
    callbacks call back: a message being assembled is of text or binary frames and, with a limit on
    messages, never larger than it, no message leaves bytes behind, the offset into the carry-over
    stays inside it, and the state of the key generator is a 64-bit integer; and as long as the
    connection is open and there is a limit on frames, the incomplete frame kept from the input is
    shorter than this limit and the longest header together.  Once a Close frame was sent, what is
    kept of the input is not bounded. *)
Theorem websocket_state_bounded {A D} {deflate : Deflate D} simd path config callbacks
  (deflateContext : option D) seed (a : A) calls
  (Hconfig : maxFrameSize config < 2 ^ 62) (Hseed : rng_ok seed) (Hcalls : Forall call_bytes calls) :
  ws_wf (snd (run_calls simd path calls ([], WebSocketHandler_new config callbacks deflateContext seed a))).
Proof.
  assert (H : forall calls (st : bytes * WebSocketHandler A D), Forall call_bytes calls -> ws_wf (snd st) -> ws_wf (snd (run_calls simd path calls st))).
  { clear. induction calls as [|c calls IH]; intros [taken h] Hb Hw; [done|]. apply Forall_cons_1 in Hb as [Hc Hb].
    apply IH; [done|]. cbn [snd] in Hw. destruct c; cbn [run_call snd].
    - by apply processInput_wf.
    - by apply run_api_wf.
    - unfold onOutputWritten. case_decide; (apply (steady_wf h); [done|apply steady_output|by destruct h]).
    - unfold drainOutputBuffer. case_decide; [done|]. destruct (_ && _); cbn [snd].
      + apply (steady_wf h); [done|apply steady_output|by destruct h].
      + unfold onOutputWritten. case_decide; (apply (steady_wf h); [done|apply steady_output|by destruct h]).
    - unfold initiateClose. case_decide; [|done]. by apply (run_api_wf simd now (ApiSendClose CloseGoingAway (str "Server shutting down"))).
    - destruct Hw as (Hm & Hr & Hg & Hi & Hc'). unfold onTransportClosing. apply empty_carry_wf.
      split; [by destruct h|]. split; [by destruct h|]. split; [apply cleared_wf|by destruct h].
    - unfold forceCloseOnTimeout. case_decide; [|done].
      apply (steady_wf h); [done|by apply steady_state|by destruct h].
    - destruct Hw as (Hm & Hr & Hg & Hi & Hc'). destruct h. by split_and!. }
  apply H; [exact Hcalls|]. split; [exact Hconfig|]. split; [|split; [|split]].
  - unfold WebSocketHandler_new. cbn. destruct (isServerSide config); [split; [lia|reflexivity]|done].
  - split; [done|]. cbn. change (zlen (@nil Z)) with 0. lia.
  - split; [constructor|by left].
  - intros _ Hmax. cbn in *. change (zlen (@nil Z)) with 0. lia.
Qed.

(** A server that reads a fragment, part of a ping, and then the rest of it. *)
Lemma websocket_state_bounded_witness :
  let f1 := BuildFrame Sse2 Text [104; 101] false true 0x01020304 false in
  let f2 := BuildFrame Sse2 Ping [1; 2; 3] true true 0x7FFFFFFF false in
  let calls := [WsInput 0 (f1 ++ take 3 f2); WsApi 1 (ApiSendText [72]); WsInput 2 (drop 3 f2)] in
  let h := snd (run_calls Sse2 Vector16 calls
    ([], echo_handler true)) in
  ws_wf h /\ ms_inProgress (ws_message h) = true /\ ms_buffer (ws_message h) = [104; 101].
Proof.
  cbv zeta. split; [|vm_compute; split; reflexivity].
  apply websocket_state_bounded.
  - reflexivity.
  - split; [discriminate|reflexivity].
  - apply Forall_cons_2; [apply (bool_decide_eq_true_1 _); vm_compute; reflexivity|].
    apply Forall_cons_2; [exact I|].
    apply Forall_cons_2; [apply (bool_decide_eq_true_1 _); vm_compute; reflexivity|constructor].
Defined.

(** After the Close frame that answers a frame over the limit, the bytes that follow pile up. *)
Lemma carry_grows_after_close :
  let calls := [WsInput 0 [0x82; 0xFE; 0x03]; WsInput 1 (0xE8 :: repeat 0 2999)] in
  let h := snd (run_calls Sse2 Vector16 calls ([], echo_handler true)) in
  ws_closeState h = CloseSent /\ zlen (carry h) = 3003 /\ maxFrameSize (ws_config h) = 500.
Proof. vm_compute. repeat split; reflexivity. Qed.

(** A coding that compresses anything to a byte, and decompresses anything to 300. *)
Definition toy_deflate : Deflate unit :=
  {| compress d _ := (d, Some [0]); decompress d _ _ := (d, Some (repeat 65 300)) |}.

(** The payload that an echo is given is overwritten by the echo itself. *)
Lemma echo_overwrites_its_payload :
  let h := WebSocketHandler_new (echo_config true) echo_callbacks (Some tt) 0 [] in
  let frame := BuildFrame Sse2 Text [1; 2] true true 0x01020304 true in
  let h := pr_handler (processInput (deflate := toy_deflate) Sse2 Vector16 0 frame h) in
  map snd (ws_app h) = [false] /\ cb_overwritten (ws_compressBuffer h) = true /\ cb_data (ws_compressBuffer h) = [0].
Proof. vm_compute. repeat split; reflexivity. Qed.
