(* ===== verification/WebSocketDeliver.v ===== *)
(** Messages over a WebSocket connection: a receiver delivers the messages that the frames of
    its peer make up, in order and whole, and answers pings; what a handler sends, a handler
    at the other end delivers; and the close handshake completes. *)

From S2P Require Import Prelude.
From S2P Require Import AsciiCase.
From S2P Require Import WebSocketFrame.
From S2P Require Import WebSocketFrameProofs.
From S2P Require Import Utf8.
From S2P Require Import WebSocketHandler.
From S2P Require Import WebSocketSends.
From S2P Require Import WebSocketInput.
From S2P Require Import WebSocketHistory.
Local Open Scope Z_scope.

(** ** The protocol: messages made of frames (RFC 6455 5.4) *)

Record InFrame := MkIn { if_op : Opcode; if_fin : bool; if_payload : bytes; if_key : Z }.

Inductive Event :=
| EvMessage (payload : bytes) (isBinary : bool)
| EvPing (payload : bytes)
| EvPong (payload : bytes).

Definition data_op (isBinary : bool) : Opcode := if isBinary then Binary else Text.

(** Text is UTF-8. *)
Definition text_ok (isBinary : bool) (payload : bytes) : Prop := isBinary = false -> utf8_text payload.

(** A limit of zero is none. *)
Definition within (max n : Z) : Prop := max <= 0 \/ n <= max.

(** What one frame completes; the message begun, if any, before and after it. *)
Inductive assemble1 (max : Z) : option (bool * bytes) -> InFrame -> list Event ->
    option (bool * bytes) -> Prop :=
| as_ping c p k : assemble1 max c (MkIn Ping true p k) [EvPing p] c
| as_pong c p k : assemble1 max c (MkIn Pong true p k) [EvPong p] c
| as_whole bin p k :
    within max (zlen p) -> text_ok bin p ->
    assemble1 max None (MkIn (data_op bin) true p k) [EvMessage p bin] None
| as_first bin p k :
    within max (zlen p) -> assemble1 max None (MkIn (data_op bin) false p k) [] (Some (bin, p))
| as_more bin acc p k :
    within max (zlen acc + zlen p) ->
    assemble1 max (Some (bin, acc)) (MkIn Continuation false p k) [] (Some (bin, acc ++ p))
| as_last bin acc p k :
    within max (zlen acc + zlen p) -> text_ok bin (acc ++ p) ->
    assemble1 max (Some (bin, acc)) (MkIn Continuation true p k) [EvMessage (acc ++ p) bin] None.

Inductive assembles (max : Z) : option (bool * bytes) -> list InFrame -> list Event ->
    option (bool * bytes) -> Prop :=
| as_nil c : assembles max c [] [] c
| as_cons c f evs c' fs evs' c'' :
    assemble1 max c f evs c' -> assembles max c' fs evs' c'' ->
    assembles max c (f :: fs) (evs ++ evs') c''.

(** Frames as they travel. *)
Definition in_wire (simd : Simd) (masked : bool) (f : InFrame) : bytes :=
  BuildFrame simd (if_op f) (if_payload f) (if_fin f) masked (if_key f) false.

Definition in_ok (maxFrame : Z) (f : InFrame) : Prop :=
  frame_wf (if_op f) (zlen (if_payload f)) (if_fin f) false /\ 0 <= if_key f < 2 ^ 32
  /\ bytes_ok (if_payload f) /\ within maxFrame (zlen (if_payload f)).

Lemma both_none {X} (x y : option X) : (is_Some x <-> is_Some y) -> y = None -> x = None.
Proof. intros [H _] ->. destruct x; [|done]. by destruct (H (ex_intro _ _ eq_refl)). Qed.

Section Deliver.
Context {A D : Type} {deflate : Deflate D} (simd : Simd) (path : Path) (now : Z).
Local Abbreviation WS := (WebSocketHandler A D).
Implicit Types h : WS.

(** What the application sees and what the handler answers. *)
Definition deliver h (e : Event) : WS :=
  match e with
  | EvMessage p bin => call_onMessage simd now p bin h
  | EvPing p => call_onPing simd now p (snd (sendPong simd p h))
  | EvPong p => call_onPong simd now p h
  end.

Definition deliver_all (evs : list Event) h : WS := fold_left deliver evs h.

(** A handler without its message and its carry-over. *)
Definition core h : WS :=
  set_rest (fun _ => MkMessage [] Text false) (fun _ => []) (fun _ => 0%nat) (fun _ => false) h.

Definition message_is (c : option (bool * bytes)) (m : MessageState) : Prop :=
  match c with
  | None => ms_inProgress m = false
  | Some (bin, acc) => m = MkMessage acc (data_op bin) true
  end.

Lemma deliver_core h e : core (deliver h e) = deliver (core h) e.
Proof.
  unfold core. destruct e; cbn [deliver]; rewrite ?sendPong_rest; cbn [snd]; symmetry; apply call_rest.
Qed.

Lemma deliver_all_core evs h : core (deliver_all evs h) = deliver_all evs (core h).
Proof.
  revert h. induction evs as [|e evs IH]; intros h; [done|]. cbn [deliver_all fold_left].
  fold (deliver_all evs (deliver h e)). by rewrite IH, deliver_core.
Qed.

(** Calling back changes neither the message nor the configuration. *)
Lemma deliver_keeps h e :
  ws_message (deliver h e) = ws_message h /\ ws_config (deliver h e) = ws_config h
  /\ (ws_deflateContext h = None -> ws_deflateContext (deliver h e) = None).
Proof.
  split.
  - set (u := set_rest (A := A) (D := D) (fun _ => ws_message h) id id id).
    assert (Hu : u h = h) by by destruct h.
    assert (E : deliver h e = u (deliver h e)).
    { rewrite <- Hu at 1. unfold u. destruct e; cbn [deliver]; rewrite ?sendPong_rest; cbn [snd]; apply call_rest. }
    rewrite E. unfold u. by destruct (deliver h e).
  - assert (H : emits simd h (deliver h e)).
    { destruct e; cbn [deliver]; [apply invoke_emits|eapply emits_trans; [apply sendPong_emits|apply invoke_emits]|
        apply invoke_emits]. }
    destruct H as (fs & [Hc _ Hs _ _ _] & _). split; [done|]. by apply both_none.
Qed.

Lemma core_fields h h' :
  core h = core h' -> ws_config h = ws_config h' /\ ws_deflateContext h = ws_deflateContext h'
  /\ ws_closeState h = ws_closeState h' /\ ws_callbacks h = ws_callbacks h' /\ ws_app h = ws_app h'
  /\ ws_outputBuffer h = ws_outputBuffer h' /\ ws_outputOffset h = ws_outputOffset h'.
Proof. destruct h, h'; cbn. intros [=]; subst. by split_and!. Qed.

Lemma too_big_within n h : within (maxMessageSize (ws_config h)) n -> too_big n h = false.
Proof. unfold within, too_big. intros. apply andb_false_iff. rewrite !Z.ltb_ge. lia. Qed.

Lemma unmask_wire hd wire payload :
  wire = (if fh_masked hd then mask_spec (fh_maskingKey hd) payload else payload) ->
  unmask simd hd wire = payload.
Proof.
  intros ->. unfold unmask. destruct (fh_masked hd); [|done]. cbn [andb].
  destruct (Nat.eqb_spec (length (mask_spec (fh_maskingKey hd) payload)) 0) as [E|E]; cbn [negb].
  - unfold mask_spec in *. rewrite length_mask_from in E. by destruct payload.
  - rewrite ApplyMask_spec. apply mask_from_involutive.
Qed.

Lemma text_check (bin : bool) op p :
  op = data_op bin -> text_ok bin p -> bytes_ok p ->
  bool_decide (op = Text) && negb (ValidateUtf8 path p) = false
  /\ bool_decide (op = Binary) = bin.
Proof.
  intros -> Ht Hb. destruct bin; [done|]. split; [|done]. cbn.
  assert (H : ValidateUtf8 path p = true); [|by rewrite H].
  specialize (Ht eq_refl). destruct path; cbn [ValidateUtf8].
  - pose proof (utf8_blocks_exact (length p) p Hb) as H. destruct (utf8_blocks _ _); [|by destruct H].
    destruct H as [Hr H]. apply utf8_tail_exact; [done..|]. by apply H.
  - by apply utf8_tail_exact.
Qed.

Lemma data_op_plain bin : data_op bin <> Continuation /\ IsControlFrame (data_op bin) = false.
Proof. by destruct bin. Qed.

(** A message completed. *)
Lemma completeMessage_deliver bin acc h :
  ws_deflateContext h = None -> ws_message h = MkMessage acc (data_op bin) true ->
  text_ok bin acc -> bytes_ok acc ->
  exists h', completeMessage simd path now h = (h', ActContinue)
    /\ core h' = core (deliver h (EvMessage acc bin)) /\ message_is None (ws_message h').
Proof.
  intros Hd Hm Ht Hb. unfold completeMessage, messageData. rewrite Hd, Hm. cbn [ms_buffer ms_opcode call_with_view].
  destruct (text_check bin (data_op bin) acc eq_refl Ht Hb) as [-> ->].
  eexists. split; [done|]. cbn [deliver]. unfold clear_message.
  destruct (call_onMessage simd now acc bin h). by split.
Qed.

Lemma accumulate_deliver hd wire bin acc p h :
  ws_deflateContext h = None -> ws_message h = MkMessage acc (data_op bin) true ->
  within (maxMessageSize (ws_config h)) (zlen acc + zlen p) ->
  unmask simd hd wire = p -> zlen wire = zlen p -> bytes_ok (acc ++ p) ->
  (fh_fin hd = true -> text_ok bin (acc ++ p)) ->
  exists h', accumulate simd path now hd wire h = (h', ActContinue)
    /\ if fh_fin hd
       then core h' = core (deliver h (EvMessage (acc ++ p) bin)) /\ message_is None (ws_message h')
       else core h' = core h /\ message_is (Some (bin, acc ++ p)) (ws_message h').
Proof.
  intros Hd Hm Hw Hu Hz Hb Ht. unfold accumulate. rewrite Hm, Hu, Hz. cbn [ms_buffer ms_opcode ms_inProgress].
  rewrite too_big_within by done. set (h1 := set_message _ h).
  assert (Hc : core h1 = core h) by by destruct h.
  destruct (fh_fin hd).
  - destruct (completeMessage_deliver bin (acc ++ p) h1) as (h' & -> & Hh & Hm');
      [by destruct h|by destruct h|by apply Ht|done|].
    exists h'. split; [done|]. split; [|done]. by rewrite Hh, !deliver_core, Hc.
  - exists h1. split; [done|]. split; [done|]. by destruct h.
Qed.

(** One frame of the protocol. *)
Lemma processFrame_deliver (f : InFrame) hd wire c evs c' h :
  fh_opcode hd = if_op f -> fh_fin hd = if_fin f -> fh_rsv1 hd = false ->
  unmask simd hd wire = if_payload f -> zlen wire = zlen (if_payload f) ->
  bytes_ok (if_payload f) -> ws_deflateContext h = None ->
  message_is c (ws_message h) -> match c with Some (_, acc) => bytes_ok acc | None => True end ->
  assemble1 (maxMessageSize (ws_config h)) c f evs c' ->
  exists h' a, processFrame simd path now hd wire h = (h', a)
    /\ (a = ActContinue \/ a = ActResponseReady)
    /\ core h' = core (deliver_all evs h) /\ message_is c' (ws_message h')
    /\ match c' with Some (_, acc) => bytes_ok acc | None => True end.
Proof.
  intros Hop Hfin Hr Hu Hz Hb Hd Hm Hacc Has. unfold processFrame. rewrite Hop.
  destruct Has as [c p k|c p k|bin p k Hw Ht|bin p k Hw|bin acc p k Hw|bin acc p k Hw Ht];
    cbn [if_op if_fin if_payload deliver_all fold_left] in *.
  - cbn [IsControlFrame]. change (IsControlFrame Ping) with true. unfold handleControlFrame. rewrite Hop, Hu.
    eexists _, _. split; [done|]. split; [by right|]. split; [done|]. split; [|done].
    destruct (deliver_keeps h (EvPing p)) as [E _]. cbn [deliver] in E. by rewrite E.
  - change (IsControlFrame Pong) with true. unfold handleControlFrame. rewrite Hop, Hu.
    eexists _, _. split; [done|]. split; [by left|]. split; [done|]. split; [|done].
    destruct (deliver_keeps h (EvPong p)) as [E _]. cbn [deliver] in E. by rewrite E.
  - destruct (data_op_plain bin) as [Hnc ->]. unfold handleDataFrame. rewrite Hop, decide_False by done.
    cbn [message_is] in Hm. rewrite Hm, Hfin, Hd, Hz, Hu, too_big_within by done. cbn.
    destruct (text_check bin (data_op bin) p eq_refl Ht Hb) as [-> ->].
    eexists _, _. split; [done|]. split; [by left|]. split; [done|]. split; [|done].
    destruct (deliver_keeps h (EvMessage p bin)) as [E _]. cbn [deliver] in E. cbn [message_is]. by rewrite E.
  - destruct (data_op_plain bin) as [Hnc ->]. unfold handleDataFrame. rewrite Hop, decide_False by done.
    cbn [message_is] in Hm. rewrite Hm, Hfin. cbn [andb]. rewrite Hr.
    set (h1 := set_messageCompressed false _).
    destruct (accumulate_deliver hd wire bin [] p h1) as (h' & E & H');
      [by destruct h|by destruct h| |done|done|done|by rewrite Hfin|].
    { rewrite zlen_nil, Z.add_0_l. by destruct h. }
    rewrite Hfin in H'. destruct H' as [Hc Hm']. exists h', ActContinue. split; [done|]. split; [by left|].
    split; [|by split]. rewrite Hc. by destruct h.
  - change (IsControlFrame Continuation) with false. unfold handleDataFrame. rewrite Hop, decide_True by done.
    cbn [message_is] in Hm. rewrite Hm. cbn [negb ms_inProgress].
    destruct (accumulate_deliver hd wire bin acc p h) as (h' & E & H');
      [done|done|done|done|done|by apply Forall_app|by rewrite Hfin|].
    rewrite Hfin in H'. exists h', ActContinue. split; [done|]. split; [by left|]. destruct H'.
    split; [done|]. split; [done|]. by apply Forall_app.
  - change (IsControlFrame Continuation) with false. unfold handleDataFrame. rewrite Hop, decide_True by done.
    cbn [message_is] in Hm. rewrite Hm. cbn [negb ms_inProgress].
    destruct (accumulate_deliver hd wire bin acc p h) as (h' & E & H');
      [done|done|done|done|done|by apply Forall_app|done|].
    rewrite Hfin in H'. exists h', ActContinue. split; [done|]. split; [by left|]. destruct H'.
    by split.
Qed.

(** ** Streams of frames *)

Definition wire_of (server : bool) (fs : list InFrame) : bytes := concat (map (in_wire simd server) fs).

Definition carried (c : option (bool * bytes)) : Prop :=
  match c with Some (_, acc) => bytes_ok acc | None => True end.

Lemma deliver_all_keeps evs h :
  ws_message (deliver_all evs h) = ws_message h /\ ws_config (deliver_all evs h) = ws_config h
  /\ (ws_deflateContext h = None -> ws_deflateContext (deliver_all evs h) = None).
Proof.
  revert h. induction evs as [|e evs IH]; intros h; [done|]. cbn [deliver_all fold_left].
  fold (deliver_all evs (deliver h e)). destruct (IH (deliver h e)) as (-> & -> & Hd).
  destruct (deliver_keeps h e) as (-> & -> & Hd'). split_and!; auto.
Qed.

(** The header and the payload of a frame that arrives whole. *)
Lemma parse_in_frame (f : InFrame) rest h :
  ws_deflateContext h = None -> in_ok (maxFrameSize (ws_config h)) f ->
  exists hd wire,
    parse_next h (in_wire simd (isServerSide (ws_config h)) f ++ rest)
      = FrameComplete hd wire (zlen (in_wire simd (isServerSide (ws_config h)) f))
    /\ fh_opcode hd = if_op f /\ fh_fin hd = if_fin f /\ fh_rsv1 hd = false
    /\ unmask simd hd wire = if_payload f /\ zlen wire = zlen (if_payload f).
Proof.
  intros Hd (Hwf & Hk & _ & Hmax). unfold parse_next, in_wire. rewrite Hd.
  rewrite (parse_complete simd (if_op f) (if_payload f) (if_fin f) _ (if_key f) false) by done.
  replace ((0 <? _) && _) with false
    by (symmetry; apply andb_false_iff; rewrite !Z.ltb_ge; unfold within in Hmax; lia).
  eexists _, _. split; [done|]. cbn [fh_opcode fh_fin fh_rsv1]. split_and!; try done.
  - apply unmask_wire. cbn. by destruct (isServerSide _).
  - apply zlen_wire.
Qed.

Lemma in_wire_nonempty server f : in_wire simd server f <> [].
Proof. by unfold in_wire, BuildFrame, BuildFrameHeader. Qed.

Lemma frames_deliver fs evs c c' fuel action h :
  assembles (maxMessageSize (ws_config h)) c fs evs c' ->
  Forall (in_ok (maxFrameSize (ws_config h))) fs -> ws_deflateContext h = None ->
  message_is c (ws_message h) -> carried c -> action = ActContinue \/ action = ActResponseReady ->
  (length (wire_of (isServerSide (ws_config h)) fs) <= fuel)%nat ->
  exists h' a, frames simd path now fuel (wire_of (isServerSide (ws_config h)) fs) action h = (h', a, [])
    /\ (a = ActContinue \/ a = ActResponseReady) /\ core h' = core (deliver_all evs h)
    /\ message_is c' (ws_message h').
Proof.
  intros Has. remember (maxMessageSize (ws_config h)) as max eqn:Emax. revert fuel action h Emax.
  induction Has as [c|c f evs c1 fs evs' c2 H1 _ IH]; intros fuel action h Emax Hf Hd Hm Hc Ha Hfuel.
  { exists h, action. by destruct fuel. }
  apply Forall_cons_1 in Hf as [Hf Hfs]. set (server := isServerSide (ws_config h)) in *.
  assert (Hw : wire_of server (f :: fs) = in_wire simd server f ++ wire_of server fs) by done.
  assert (Hlen : (0 < length (in_wire simd server f))%nat)
    by (pose proof (in_wire_nonempty server f); destruct (in_wire simd server f); [done|cbn; lia]).
  rewrite Hw in Hfuel |- *. rewrite length_app in Hfuel. destruct fuel as [|fuel]; [lia|]. cbn [frames].
  destruct (Nat.eqb_spec (length (in_wire simd server f ++ wire_of server fs)) 0) as [E0|_];
    [rewrite length_app in E0; lia|].
  destruct (parse_in_frame f (wire_of server fs) h Hd Hf) as (hd & wire & E & Hop & Hfin & Hr & Hu & Hz).
  fold server in E. rewrite E.
  subst max. destruct (processFrame_deliver f hd wire c evs c1 h Hop Hfin Hr Hu Hz)
    as (h1 & a1 & -> & Ha1 & Hc1 & Hm1 & Hb1); try done; [apply Hf|].
  destruct (deliver_all_keeps evs h) as (_ & Ecf & Hdf). apply core_fields in Hc1 as Hfields.
  destruct Hfields as (Ecf1 & Ed1 & _). rewrite Ecf in Ecf1. rewrite (Hdf Hd) in Ed1.
  assert (Hrest : forall action', action' = ActContinue \/ action' = ActResponseReady ->
    exists h' a, frames simd path now fuel (drop (Z.to_nat (zlen (in_wire simd server f)))
        (in_wire simd server f ++ wire_of server fs)) action' h1 = (h', a, [])
      /\ (a = ActContinue \/ a = ActResponseReady) /\ core h' = core (deliver_all (evs ++ evs') h)
      /\ message_is c2 (ws_message h')).
  { intros action' Ha'. unfold zlen. rewrite Nat2Z.id, drop_app_length.
    specialize (IH fuel action' h1). rewrite Ecf1 in IH.
    destruct IH as (h' & a & E' & Hact & Hcore & Hmsg); try done; [fold server; lia|].
    exists h', a. split_and!; [done|done| |done].
    rewrite Hcore, deliver_all_core, Hc1, <- deliver_all_core. unfold deliver_all. by rewrite fold_left_app. }
  destruct Ha1 as [->| ->]; by apply Hrest; auto.
Qed.

Lemma core_forget h : core (forget h) = core h.
Proof. by destruct h. Qed.

(** A stream of frames read in pieces by a connection that holds no incomplete frame. *)
Lemma feed_deliver d chunks fs evs c c' h :
  Forall bytes_ok (d :: chunks) -> concat (d :: chunks) = wire_of (isServerSide (ws_config h)) fs ->
  assembles (maxMessageSize (ws_config h)) c fs evs c' ->
  Forall (in_ok (maxFrameSize (ws_config h))) fs ->
  input_ok h -> carry h = [] -> ws_deflateContext h = None ->
  message_is c (ws_message h) -> carried c ->
  let '(h', action) := feed simd path now (d :: chunks) h in
  (action = ActContinue \/ action = ActResponseReady)
  /\ core h' = core (deliver_all evs h) /\ message_is c' (ws_message h') /\ carry h' = []
  /\ ws_config h' = ws_config h /\ ws_deflateContext h' = None.
Proof.
  intros Hb Hcat Has Hf Hi Hcarry Hd Hm Hc.
  pose proof (feed_frames simd path now d chunks h Hb Hi) as H. unfold fed in H.
  change (d ++ concat chunks) with (concat (d :: chunks)) in H. rewrite Hcarry, Hcat in H. cbn [app] in H.
  assert (Hfc : ws_config (forget h) = ws_config h) by by destruct h.
  assert (Hfd : ws_deflateContext (forget h) = None) by by destruct h.
  assert (Hfm : ws_message (forget h) = ws_message h) by by destruct h.
  pose proof (frames_deliver fs evs c c' (length (wire_of (isServerSide (ws_config h)) fs)) ActContinue (forget h)) as Hfr.
  rewrite Hfc, Hfm in Hfr. destruct Hfr as (h1 & a & E & Ha & Hcore & Hmsg); try done; [by left|].
  rewrite E in H. destruct (feed _ _ _ _ _) as [h' action]. destruct H as (Hfg & -> & Hr).
  assert (Hcore' : core h' = core (deliver_all evs h))
    by (rewrite <- core_forget, Hfg, Hcore, !deliver_all_core; by rewrite core_forget).
  destruct (deliver_all_keeps evs h) as (_ & Ecf & Hdf). apply core_fields in Hcore' as Hfields.
  destruct Hfields as (Ecf1 & Ed1 & _).
  split_and!; [done|done| | |congruence|rewrite Ed1; by apply Hdf].
  - rewrite <- Hfg in Hmsg. by destruct h'.
  - apply Hr. by destruct Ha as [->| ->].
Qed.

(** ** Both ends *)

(** What the application may send with, and what the other end makes of it. *)
Definition event_of (c : ApiCall) : option Event :=
  match c with
  | ApiSendText text => Some (EvMessage text false)
  | ApiSendBinary data => Some (EvMessage data true)
  | ApiSendPing payload => Some (EvPing (first_125 payload))
  | ApiSendPong payload => Some (EvPong (first_125 payload))
  | _ => None
  end.

Definition run_sends (sends : list ApiCall) h : WS :=
  fold_left (fun h c => snd (run_api simd now c h)) sends h.

(** Messages that the receiver's limits allow. *)
Definition send_ok (config : WebSocketConfig) (c : ApiCall) : Prop :=
  match c with
  | ApiSendText payload | ApiSendBinary payload =>
      bytes_ok payload /\ zlen payload < 2 ^ 62 /\ within (maxMessageSize config) (zlen payload)
      /\ within (maxFrameSize config) (zlen payload)
      /\ match c with ApiSendText _ => utf8_text payload | _ => True end
  | ApiSendPing payload | ApiSendPong payload =>
      bytes_ok payload /\ within (maxFrameSize config) (zlen (first_125 payload))
  | _ => False
  end.

(** One call queues one frame, which the other end delivers. *)
Lemma send_frame config c h :
  send_ok config c -> ws_closeState h = Open -> ws_deflateContext h = None ->
  exists f e, event_of c = Some e /\ in_ok (maxFrameSize config) f
    /\ assemble1 (maxMessageSize config) None f [e] None
    /\ let h' := snd (run_api simd now c h) in
       ws_outputBuffer h' = ws_outputBuffer h ++ in_wire simd (shouldMask h) f
       /\ ws_outputOffset h' = ws_outputOffset h /\ ws_closeState h' = Open
       /\ ws_deflateContext h' = None /\ ws_config h' = ws_config h.
Proof.
  intros Hok Ho Hd.
  assert (Hq : forall op payload,
    (IsControlFrame op = true -> zlen payload <= kMaxControlFramePayload) ->
    exists k, 0 <= k < 2 ^ 32 /\ let h' := queueFrame simd op payload true h in
      ws_outputBuffer h' = ws_outputBuffer h ++ in_wire simd (shouldMask h) (MkIn op true payload k)
      /\ ws_outputOffset h' = ws_outputOffset h /\ ws_closeState h' = Open
      /\ ws_deflateContext h' = None /\ ws_config h' = ws_config h).
  { intros op payload Hc. destruct (queueFrame_sent simd op payload h Hc) as (k & [Hcf _ Hdf Hof Hout Hfs] & Hcs).
    exists k. apply Forall_singleton in Hfs as [_ Hk]. split; [done|]. cbv zeta.
    rewrite Hout, Hof, Hcs, Hcf. unfold encode_all. cbn [map concat]. rewrite app_nil_r. split_and!; try done.
    by eapply both_none. }
  assert (Hdata : forall op payload, IsControlFrame op = false ->
    snd (sendData simd op payload h) = queueFrame simd op payload true h).
  { intros op payload _. unfold sendData. rewrite decide_False by (intros Hn; by apply Hn).
    unfold try_compress. by rewrite Hd. }
  assert (H125 : forall payload, bytes_ok payload -> bytes_ok (first_125 payload)).
  { intros payload ?. unfold first_125. case_match; [by apply Forall_take|done]. }
  assert (Hwf : forall op (payload : bytes), zlen payload < 2 ^ 62 ->
    (IsControlFrame op = true -> zlen payload <= kMaxControlFramePayload) -> frame_wf op (zlen payload) true false).
  { intros op payload ? Hc. pose proof (zlen_nonneg payload). split; [lia|]. intros ?%Hc. by split_and!. }
  destruct c as [p|p|p|p|? ?| |]; cbn [send_ok] in Hok; try done.
  - destruct Hok as (Hb & Hs & Hm & Hf & Hu). destruct (Hq Text p) as (k & Hk & H); [done|].
    exists (MkIn Text true p k), (EvMessage p false). split_and!; [done| | |].
    + split; [by apply Hwf|]. by split_and!; try apply Hk.
    + apply (as_whole _ false); [done|]. by intros _.
    + cbn [run_api]. unfold sendText. by rewrite Hdata.
  - destruct Hok as (Hb & Hs & Hm & Hf & _). destruct (Hq Binary p) as (k & Hk & H); [done|].
    exists (MkIn Binary true p k), (EvMessage p true). split_and!; [done| | |].
    + split; [by apply Hwf|]. by split_and!; try apply Hk.
    + by apply (as_whole _ true).
    + cbn [run_api]. unfold sendBinary. by rewrite Hdata.
  - destruct Hok as (Hb & Hf). pose proof (first_125_size p) as Hs. destruct (Hq Ping (first_125 p)) as (k & Hk & H); [done|].
    exists (MkIn Ping true (first_125 p) k), (EvPing (first_125 p)). split_and!; [done| |constructor|].
    + split; [apply (Hwf Ping (first_125 p)); [unfold kMaxControlFramePayload in Hs; lia|done]|].
      split; [exact Hk|]. by split; [apply H125|].
    + cbn [run_api]. unfold sendPing. rewrite decide_False by (intros Hn; by apply Hn). exact H.
  - destruct Hok as (Hb & Hf). pose proof (first_125_size p) as Hs. destruct (Hq Pong (first_125 p)) as (k & Hk & H); [done|].
    exists (MkIn Pong true (first_125 p) k), (EvPong (first_125 p)). split_and!; [done| |constructor|].
    + split; [apply (Hwf Pong (first_125 p)); [unfold kMaxControlFramePayload in Hs; lia|done]|].
      split; [exact Hk|]. by split; [apply H125|].
    + cbn [run_api]. unfold sendPong. rewrite decide_False by congruence. exact H.
Qed.

Lemma run_sends_frames config sends h :
  Forall (send_ok config) sends -> ws_closeState h = Open -> ws_deflateContext h = None ->
  exists fs evs, map event_of sends = map Some evs /\ Forall (in_ok (maxFrameSize config)) fs
    /\ assembles (maxMessageSize config) None fs evs None
    /\ let h' := run_sends sends h in
       ws_outputBuffer h' = ws_outputBuffer h ++ wire_of (shouldMask h) fs
       /\ ws_outputOffset h' = ws_outputOffset h.
Proof.
  revert h. induction sends as [|c sends IH]; intros h Hok Ho Hd.
  { exists [], []. split; [done|]. split; [by apply Forall_nil|]. split; [apply as_nil|].
    split; [by rewrite app_nil_r|done]. }
  apply Forall_cons_1 in Hok as [Hc Hok].
  destruct (send_frame config c h Hc Ho Hd) as (f & e & Hev & Hf & Has & H1 & H2 & H3 & H4 & H5).
  destruct (IH (snd (run_api simd now c h)) Hok H3 H4) as (fs & evs & Hevs & Hfs & Hass & H6 & H7).
  exists (f :: fs), (e :: evs). split; [cbn [map]; by rewrite Hev, Hevs|].
  split; [by apply Forall_cons_2|]. split; [by apply (as_cons _ _ _ [e] None)|]. split.
  - cbn [run_sends fold_left]. fold (run_sends sends (snd (run_api simd now c h))). rewrite H6, H1.
    unfold wire_of. cbn [map concat]. unfold shouldMask. rewrite H5. by app_simpl.
  - cbn [run_sends fold_left]. fold (run_sends sends (snd (run_api simd now c h))). congruence.
Qed.
End Deliver.
