(* ===== verification/WebSocketDialogue.v ===== *)
(** Two WebSocket connections talking to each other: what one sends the other delivers, and
    the close handshake completes. *)

From S2P Require Import Prelude.
From S2P Require Import AsciiCase.
From S2P Require Import WebSocketFrame.
From S2P Require Import WebSocketFrameProofs.
From S2P Require Import Utf8.
From S2P Require Import WebSocketHandler.
From S2P Require Import WebSocketSends.
From S2P Require Import WebSocketInput.
From S2P Require Import WebSocketHistory.
From S2P Require Import WebSocketDeliver.
Local Open Scope Z_scope.

(** ** Frames are bytes *)

Lemma lxor_byte a b : byte_ok a -> byte_ok b -> byte_ok (Z.lxor a b).
Proof.
  unfold byte_ok. intros Ha Hb. assert (0 <= Z.lxor a b) by (apply Z.lxor_nonneg; lia).
  split; [done|]. destruct (Z.eq_dec (Z.lxor a b) 0) as [->|]; [lia|].
  change 256 with (2 ^ 8). apply Z.log2_lt_pow2; [lia|].
  assert (Hlog : forall x, 0 <= x < 256 -> Z.log2 x < 8).
  { intros x Hx. destruct (Z.eq_dec x 0) as [->|]; [done|]. apply Z.log2_lt_pow2; [lia|]. change (2 ^ 8) with 256. lia. }
  pose proof (Z.log2_lxor a b). pose proof (Hlog a Ha). pose proof (Hlog b Hb). lia.
Qed.

Lemma land_255_ok z : byte_ok (Z.land z 255).
Proof. rewrite land_255. apply Z.mod_pos_bound. lia. Qed.

Lemma write_be_ok n v : bytes_ok (write_be n v).
Proof. apply Forall_map, Forall_true. intros i. apply land_255_ok. Qed.

Lemma mask_ok key i l : bytes_ok l -> bytes_ok (mask_from key i l).
Proof.
  intros H. revert i. induction H as [|b l Hb _ IH]; intros i; cbn [mask_from]; [constructor|].
  apply Forall_cons_2; [|apply IH]. apply lxor_byte; [done|]. apply land_255_ok.
Qed.

Lemma in_wire_ok simd masked f :
  frame_wf (if_op f) (zlen (if_payload f)) (if_fin f) false -> bytes_ok (if_payload f) ->
  bytes_ok (in_wire simd masked f).
Proof.
  intros [Hn _] Hp. unfold in_wire. rewrite BuildFrame_bytes.
  pose proof (length_field_spec (zlen (if_payload f)) ltac:(lia)) as Hl.
  assert (He : bytes_ok (snd (length_field (zlen (if_payload f))))).
  { unfold length_field. destruct (_ <? _); [constructor|]. destruct (_ <=? _); apply write_be_ok. }
  destruct (length_field _) as [l7 ext]. destruct Hl as [Hl _]. cbn [snd] in He.
  apply Forall_cons_2; [destruct (if_op f), (if_fin f); vm_compute; split; congruence|].
  apply Forall_cons_2.
  { unfold second_byte, byte_ok. destruct masked; [|rewrite Z.lor_0_l; lia].
    change kMaskBit with (Z.shiftl 1 7). rewrite lor_shiftl_low by (change (2 ^ 7) with 128; lia). lia. }
  apply Forall_app; split; [done|]. apply Forall_app; split.
  - destruct masked; [|constructor]. apply Forall_map, Forall_true. intros i. apply land_255_ok.
  - destruct masked; [by apply mask_ok|done].
Qed.

Lemma wire_of_ok simd masked max fs : Forall (in_ok max) fs -> bytes_ok (wire_of simd masked fs).
Proof.
  induction 1 as [|f fs (Hwf & _ & Hp & _) _ IH]; [constructor|].
  unfold wire_of. cbn [map concat]. apply Forall_app; split; [by apply in_wire_ok|exact IH].
Qed.

Section Dialogue.
Context {A B D : Type} {deflate : Deflate D} (simd : Simd) (path : Path) (now : Z).

(** A connection between two frames, not compressed: nothing kept of the input. *)
Definition at_rest {X} (h : WebSocketHandler X D) : Prop :=
  input_ok h /\ carry h = [] /\ ws_deflateContext h = None.

Definition nothing_pending {X} (h : WebSocketHandler X D) : Prop :=
  ws_outputBuffer h = [] /\ ws_outputOffset h = 0%nat.

(** C17: a connection delivers to the application exactly the messages, pings and pongs that the
    frames of its peer make up by the rules of RFC 6455, fragments put together, in their
    order, and answers each ping, whatever the pieces the transport reads; it neither closes
    nor keeps anything but a message begun. *)
Theorem websocket_messages_delivered d chunks fs evs c c' (h : WebSocketHandler A D)
  (Hrest : at_rest h) (Hbegun : message_is c (ws_message h)) (Hcarried : carried c)
  (Hfs : Forall (in_ok (maxFrameSize (ws_config h))) fs)
  (Hevents : assembles (maxMessageSize (ws_config h)) c fs evs c')
  (Hwire : concat (d :: chunks) = wire_of simd (isServerSide (ws_config h)) fs) :
  let '(h', action) := feed simd path now (d :: chunks) h in
  action <> ActClose /\ core h' = core (deliver_all simd now evs h)
  /\ message_is c' (ws_message h') /\ carry h' = [].
Proof.
  destruct Hrest as (Hi & Hc & Hd).
  assert (Hb : Forall bytes_ok (d :: chunks)).
  { apply Forall_concat. rewrite Hwire. by eapply wire_of_ok. }
  pose proof (feed_deliver simd path now d chunks fs evs c c' h Hb Hwire Hevents Hfs Hi Hc Hd Hbegun Hcarried) as H.
  destruct (feed _ _ _ _ _) as [h' action]. destruct H as (Ha & ? & ? & ? & _).
  split_and!; try done. by destruct Ha as [->| ->].
Qed.

(** C4: what a connection sends is delivered at the other end: texts, binary messages, pings and
    pongs arrive once each, in order and unchanged (control payloads cut at 125 bytes), from
    a client to a server or from a server to a client, however the bytes are cut. *)
Theorem websocket_end_to_end sends evs d chunks (s : WebSocketHandler A D) (r : WebSocketHandler B D)
  (Hsides : isServerSide (ws_config s) = negb (isServerSide (ws_config r)))
  (Hopen : ws_closeState s = Open) (Hplain : ws_deflateContext s = None)
  (Hempty : nothing_pending s)
  (Hrest : at_rest r) (Hidle : message_is None (ws_message r))
  (Hsends : Forall (send_ok (ws_config r)) sends) (Hevs : map event_of sends = map Some evs)
  (Hbytes : concat (d :: chunks) = getPendingOutput (run_sends simd now sends s)) :
  let '(r', action) := feed simd path now (d :: chunks) r in
  action <> ActClose /\ core r' = core (deliver_all simd now evs r)
  /\ message_is None (ws_message r') /\ carry r' = [].
Proof.
  destruct (run_sends_frames simd now (ws_config r) sends s Hsends Hopen Hplain)
    as (fs & evs' & Hevs' & Hfs & Has & Hout & Hoff).
  assert (evs' = evs) as -> by (rewrite Hevs in Hevs'; by apply (inj (map Some)) in Hevs').
  destruct Hrest as (Hi & Hc & Hd).
  assert (Hwire : concat (d :: chunks) = wire_of simd (isServerSide (ws_config r)) fs).
  { rewrite Hbytes. unfold getPendingOutput. destruct Hempty as [Ho Hoff0].
    rewrite Hout, Hoff, Ho, Hoff0. unfold shouldMask. by rewrite Hsides, negb_involutive. }
  assert (Hb : Forall bytes_ok (d :: chunks)).
  { apply Forall_concat. rewrite Hwire. by eapply wire_of_ok. }
  pose proof (feed_deliver simd path now d chunks fs evs None None r Hb Hwire Has Hfs Hi Hc Hd Hidle I) as H.
  destruct (feed _ _ _ _ _) as [h' action]. destruct H as (Ha & ? & ? & ? & _).
  split_and!; try done. by destruct Ha as [->| ->].
Qed.

(** ** The close handshake *)

Lemma close_payload_roundtrip code reason :
  0 <= code < 65536 ->
  ParseClosePayload (ClosePayloadBytes code reason)
  = MkClosePayload code (if code =? CloseNoStatusReceived then [] else take 123 reason).
Proof.
  intros Hc. unfold ClosePayloadBytes. destruct (Z.eqb_spec code CloseNoStatusReceived) as [->|]; [done|].
  cbn [app ParseClosePayload]. change (Z.to_nat (kMaxControlFramePayload - 2)) with 123%nat. f_equal.
  rewrite shiftr_byte, land_255 by lia. rewrite be16_val by (apply Z.mod_pos_bound; lia). zlia.
Qed.

(** A closed connection sends nothing, whatever its callbacks try. *)
Lemma run_api_closed {X} c (h : WebSocketHandler X D) :
  ws_closeState h = Closed -> snd (run_api simd now c h) = h.
Proof.
  intros Hc. destruct c; cbn [run_api snd]; try done;
    unfold sendText, sendBinary, sendData, sendPing, sendPong, sendClose.
  1-3: by rewrite decide_True by congruence.
  - by rewrite decide_True.
  - rewrite decide_False by congruence. by rewrite decide_True.
Qed.

Lemma invoke_closed {X} f (h : WebSocketHandler X D) :
  ws_closeState h = Closed -> exists a, invoke simd now f h = set_app a h.
Proof.
  intros Hc. destruct f as [f|]; cbn [invoke]; [|exists (ws_app h); by destruct h].
  generalize (f (ws_app h)). intros p. revert h Hc. induction p as [a|c k IH]; intros h Hc; cbn [run_app]; [by exists a|].
  pose proof (run_api_closed c h Hc) as E. destruct (run_api simd now c h) as [b h']. cbn [snd] in E. subst. by apply IH.
Qed.

(** A Close frame as it travels. *)
Definition close_frame (code : Z) (reason : bytes) (k : Z) : InFrame :=
  MkIn Close true (ClosePayloadBytes code reason) k.

Lemma close_frame_ok max code reason k :
  bytes_ok reason -> within max kMaxControlFramePayload -> 0 <= k < 2 ^ 32 ->
  in_ok max (close_frame code reason k).
Proof.
  intros Hr Hm Hk. pose proof (ClosePayload_size code reason) as Hs.
  pose proof (zlen_nonneg (ClosePayloadBytes code reason)). unfold kMaxControlFramePayload in *.
  split; [split; cbn [close_frame if_payload]; [lia|done]|]. split; [done|]. split.
  - cbn [close_frame if_payload]. unfold ClosePayloadBytes. destruct (_ =? _); [constructor|].
    apply Forall_app; split; [|by apply Forall_take]. apply Forall_cons_2; [apply land_255_ok|].
    apply Forall_cons_2; [apply land_255_ok|constructor].
  - unfold within in *. cbn [close_frame if_payload]. lia.
Qed.

Lemma frames_nil {X} fuel a (h : WebSocketHandler X D) : frames simd path now fuel [] a h = (h, a, []).
Proof. by destruct fuel. Qed.

Lemma handleControl_action {X} hd p (h : WebSocketHandler X D) :
  snd (handleControlFrame simd now hd p h) <> ActUpgrade
  /\ snd (handleControlFrame simd now hd p h) <> ActCloseImmediate.
Proof. unfold handleControlFrame. by destruct (fh_opcode hd), (ws_closeState h). Qed.

(** Reading one Close frame. *)
Lemma processInput_close {X} code reason k (h : WebSocketHandler X D) :
  at_rest h -> 0 <= code < 65536 -> bytes_ok reason -> 0 <= k < 2 ^ 32 ->
  within (maxFrameSize (ws_config h)) kMaxControlFramePayload ->
  let hd := MkFrameHeader Close true false false false false 0 0 in
  let r := processInput simd path now
             (in_wire simd (isServerSide (ws_config h)) (close_frame code reason k)) h in
  let '(h', action) := handleControlFrame simd now hd (ClosePayloadBytes code reason) (forget h) in
  pr_action r = action /\ forget (pr_handler r) = forget h'.
Proof.
  intros (Hi & Hc & Hd) Hcode Hr Hk Hm hd.
  pose proof (close_frame_ok (maxFrameSize (ws_config h)) code reason k Hr Hm Hk) as Hok.
  set (server := isServerSide (ws_config h)). set (data := in_wire simd server (close_frame code reason k)).
  assert (Hb : bytes_ok data) by (apply in_wire_ok; apply Hok).
  pose proof (processInput_frames simd path now data h Hb Hi) as H. cbv zeta in H |- *.
  rewrite Hc in H. cbn [app] in H.
  assert (Hne : length data <> 0%nat).
  { pose proof (in_wire_nonempty simd server (close_frame code reason k)) as Hn. fold data in Hn. by destruct data. }
  destruct (length data) as [|fuel] eqn:El; [done|]. cbn [frames] in H.
  rewrite El in H. cbn [Nat.eqb] in H.
  destruct (parse_in_frame simd (close_frame code reason k) [] (forget h)) as (hd' & wire & E & Hop & _ & _ & Hu & _);
    [by destruct h|by destruct h|].
  rewrite app_nil_r in E. replace (isServerSide (ws_config (forget h))) with server in E by by destruct h.
  fold data in E. rewrite E in H. unfold processFrame in H. rewrite Hop, Hu in H.
  change (IsControlFrame (if_op (close_frame code reason k))) with true in H. cbv iota in H.
  assert (Hsame : handleControlFrame simd now hd' (ClosePayloadBytes code reason) (forget h)
    = handleControlFrame simd now hd (ClosePayloadBytes code reason) (forget h))
    by (unfold handleControlFrame; by rewrite Hop).
  cbn [close_frame if_payload] in H. rewrite Hsame in H.
  destruct (handleControlFrame simd now hd (ClosePayloadBytes code reason) (forget h)) as [h' action] eqn:Eh.
  assert (Hdrop : drop (Z.to_nat (zlen data)) data = []) by (unfold zlen; rewrite Nat2Z.id; apply drop_all).
  pose proof (handleControl_action hd (ClosePayloadBytes code reason) (forget h)) as [Hu1 Hu2].
  rewrite Eh in Hu1, Hu2. cbn [snd] in Hu1, Hu2. rewrite Hdrop, !frames_nil in H.
  assert (Hf : forall X (x : WebSocketHandler X D), forget (forget x) = forget x) by by intros ? [].
  destruct action; try done; destruct H as (Ha & Hf' & _); rewrite <- Hf'; rewrite Hf; by split.
Qed.

Lemma forget_state {X} (h h' : WebSocketHandler X D) :
  forget h = forget h' ->
  ws_closeState h = ws_closeState h' /\ ws_outputBuffer h = ws_outputBuffer h'
  /\ ws_outputOffset h = ws_outputOffset h'.
Proof. destruct h, h'. cbn. intros [=]. by split_and!. Qed.

(** An open connection answers a Close frame with one, and is closed. *)
Lemma close_answered {X} code reason k (r : WebSocketHandler X D) :
  at_rest r -> nothing_pending r -> ws_closeState r = Open ->
  0 <= code < 65536 -> bytes_ok reason -> 0 <= k < 2 ^ 32 ->
  within (maxFrameSize (ws_config r)) kMaxControlFramePayload ->
  let server := isServerSide (ws_config r) in
  let rr := processInput simd path now (in_wire simd server (close_frame code reason k)) r in
  ws_closeState (pr_handler rr) = Closed /\ pr_action rr = ActResponseReady
  /\ exists reason' k', bytes_ok reason' /\ 0 <= k' < 2 ^ 32
      /\ getPendingOutput (pr_handler rr) = in_wire simd (negb server) (close_frame code reason' k').
Proof.
  intros Hrest [Ho1 Ho2] Hr Hcode Hreason Hk Hmax server rr.
  pose proof (processInput_close code reason k r Hrest Hcode Hreason Hk Hmax) as Hc. cbv zeta in Hc.
  fold server rr in Hc. unfold handleControlFrame in Hc. cbn [fh_opcode] in Hc.
  replace (ws_closeState (forget r)) with Open in Hc by by destruct r.
  rewrite close_payload_roundtrip in Hc by done. cbn [cp_code cp_reason] in Hc.
  set (reason' := if code =? CloseNoStatusReceived then [] else take 123 reason) in *.
  set (r1 := set_closeCode code (set_closeState CloseReceived (forget r))) in *.
  destruct (sendClose_sent simd now code reason' r1) as [(k' & [Hcf _ _ Hof Hout Hfr]) _]; [right; by destruct r|].
  set (r2 := snd (sendClose simd now code reason' r1)) in *. unfold call_onClose in Hc.
  destruct (invoke_closed (option_map (fun f => f code reason') (onClose (ws_callbacks (set_closeState Closed r2))))
    (set_closeState Closed r2)) as [a Ha]; [by destruct r2|]. rewrite Ha in Hc. destruct Hc as [Hact Hfg].
  apply forget_state in Hfg as (Hst2 & Hout2 & Hoff2).
  split; [rewrite Hst2; by destruct r2|]. split; [done|]. exists reason', k'.
  apply Forall_singleton in Hfr as [_ Hk']. split; [|split; [done|]].
  { unfold reason'. destruct (_ =? _); [constructor|by apply Forall_take]. }
  unfold getPendingOutput. rewrite Hout2, Hoff2.
  replace (ws_outputBuffer (set_app a (set_closeState Closed r2))) with (ws_outputBuffer r2) by by destruct r2.
  replace (ws_outputOffset (set_app a (set_closeState Closed r2))) with (ws_outputOffset r2) by by destruct r2.
  rewrite Hout, Hof. replace (ws_outputBuffer r1) with (@nil Z) by by rewrite <- Ho1; destruct r.
  replace (ws_outputOffset r1) with 0%nat by by rewrite <- Ho2; destruct r.
  unfold encode_all, shouldMask. cbn [map concat]. rewrite app_nil_r.
  by replace (ws_config r1) with (ws_config r) by by destruct r.
Qed.

(** A connection that sent a Close frame is closed by the answer. *)
Lemma close_completed {X} code reason k (s : WebSocketHandler X D) :
  at_rest s -> ws_closeState s = CloseSent ->
  0 <= code < 65536 -> bytes_ok reason -> 0 <= k < 2 ^ 32 ->
  within (maxFrameSize (ws_config s)) kMaxControlFramePayload ->
  let ss := processInput simd path now
              (in_wire simd (isServerSide (ws_config s)) (close_frame code reason k)) s in
  ws_closeState (pr_handler ss) = Closed /\ pr_action ss = ActClose.
Proof.
  intros Hrest Hs Hcode Hreason Hk Hmax ss.
  pose proof (processInput_close code reason k s Hrest Hcode Hreason Hk Hmax) as Hc. cbv zeta in Hc.
  fold ss in Hc. unfold handleControlFrame in Hc. cbn [fh_opcode] in Hc.
  replace (ws_closeState (forget s)) with CloseSent in Hc by by destruct s.
  unfold call_onClose in Hc. set (s2 := set_closeState Closed (forget s)) in *.
  match type of Hc with context [invoke _ _ ?f s2] =>
    destruct (invoke_closed f s2) as [a Ha]; [by destruct s|] end.
  rewrite Ha in Hc. destruct Hc as [Hact Hfg]. apply forget_state in Hfg as (Hst & _).
  split; [rewrite Hst; by destruct s|done].
Qed.

(** Sending a Close frame leaves the input alone. *)
Lemma sendClose_at_rest {X} code reason (s : WebSocketHandler X D) :
  at_rest s -> at_rest (snd (sendClose simd now code reason s)).
Proof.
  intros (Hi & Hc & Hd).
  assert (E0 : set_input (ws_inputBuffer s) (ws_inputBufferOffset s) s = s) by by destruct s.
  pose proof (sendClose_input simd now (ws_inputBuffer s) (ws_inputBufferOffset s) code reason s) as E.
  rewrite E0 in E. apply (f_equal snd) in E. cbn [snd] in E.
  destruct (sendClose_emits simd now code reason s) as (fs & [_ _ Hdf _ _ _] & _).
  split; [|split]; [..|by eapply both_none]; rewrite E.
  - unfold input_ok in *. by destruct (snd _).
  - unfold carry in *. by destruct (snd _).
Qed.

(** C27: the close handshake takes one exchange: after one end sends a Close frame, the other,
    which was open, answers it, with the code it got, and is closed; and the answer closes
    the first end, which asks the server to close the connection. *)
Theorem websocket_close_handshake code reason (s : WebSocketHandler A D) (r : WebSocketHandler B D)
  (Hsides : isServerSide (ws_config s) = negb (isServerSide (ws_config r)))
  (Hs : ws_closeState s = Open) (Hr : ws_closeState r = Open)
  (Hspend : nothing_pending s) (Hrpend : nothing_pending r) (Hsrest : at_rest s) (Hrrest : at_rest r)
  (Hcode : 0 <= code < 65536) (Hreason : bytes_ok reason)
  (Hsmax : within (maxFrameSize (ws_config s)) kMaxControlFramePayload)
  (Hrmax : within (maxFrameSize (ws_config r)) kMaxControlFramePayload) :
  let s1 := snd (sendClose simd now code reason s) in
  let rr := processInput simd path now (getPendingOutput s1) r in
  let ss := processInput simd path now (getPendingOutput (pr_handler rr)) s1 in
  (ws_closeState s1 = CloseSent
   /\ ws_closeState (pr_handler rr) = Closed /\ pr_action rr = ActResponseReady)
  /\ ws_closeState (pr_handler ss) = Closed /\ pr_action ss = ActClose.
Proof.
  intros s1 rr ss.
  destruct (sendClose_sent simd now code reason s (or_introl Hs)) as [(k & [Hcf _ _ Hof Hout Hfr]) Hst].
  fold s1 in Hcf, Hof, Hout, Hst. rewrite Hs in Hst. cbn in Hst.
  apply Forall_singleton in Hfr as [_ Hk]. cbn [of_key] in Hk.
  assert (Hp : getPendingOutput s1 = in_wire simd (isServerSide (ws_config r)) (close_frame code reason k)).
  { unfold getPendingOutput. destruct Hspend as [E1 E2]. rewrite Hout, Hof, E1, E2.
    unfold encode_all, shouldMask. cbn [map concat]. by rewrite app_nil_r, Hsides, negb_involutive. }
  destruct (close_answered code reason k r Hrrest Hrpend Hr Hcode Hreason Hk Hrmax)
    as (H1 & H2 & reason' & k' & Hr' & Hk' & Hp').
  unfold ss. clear ss. unfold rr. clear rr. rewrite Hp. split; [done|]. rewrite Hp'.
  rewrite <- Hsides, <- Hcf. apply close_completed; try done; [by apply sendClose_at_rest|by rewrite Hcf].
Qed.
End Dialogue.

(** ** Concrete dialogues *)

Lemma echo_at_rest server : at_rest (echo_handler server).
Proof. split; [split; [constructor|by left]|done]. Qed.

Lemma small_text_ok l : forallb (fun b => (0 <=? b) && (b <? 128)) l = true -> utf8_text l.
Proof.
  rewrite forallb_forall. intros H. apply (utf8_tail_exact (length l)); [|done|].
  - apply Forall_forall. intros b Hb. apply list_elem_of_In, H in Hb. unfold byte_ok. lia.
  - revert H. induction l as [|b l IH]; intros H; [done|]. cbn [length utf8_tail].
    rewrite (proj2 (Z.leb_le b 0x7F)) by (specialize (H b (or_introl eq_refl)); lia).
    apply IH. intros x Hx. apply H. by right.
Qed.

(** A text in two fragments with a ping between them, then a binary message, in three reads. *)
Lemma websocket_messages_delivered_witness :
  let fs := [MkIn Text false [104; 105] 1; MkIn Ping true [7] 2; MkIn Continuation true [33] 3;
             MkIn Binary true [0; 255] 4] in
  let evs := [EvPing [7]; EvMessage [104; 105; 33] false; EvMessage [0; 255] true] in
  let wire := wire_of Sse2 true fs in
  let chunks := [take 5 wire; take 9 (drop 5 wire); drop 14 wire] in
  let h := echo_handler true in
  (let '(h', action) := feed Sse2 Vector16 0 chunks h in
   action <> ActClose /\ core h' = core (deliver_all Sse2 0 evs h)
   /\ message_is None (ws_message h') /\ carry h' = [])
  /\ ws_app (deliver_all Sse2 0 evs h) = [([104; 105; 33], false); ([0; 255], true)].
Proof.
  cbv zeta. split; [|vm_compute; reflexivity].
  eapply (websocket_messages_delivered Sse2 Vector16 0 _ _
    [MkIn Text false [104; 105] 1; MkIn Ping true [7] 2; MkIn Continuation true [33] 3; MkIn Binary true [0; 255] 4]
    _ None None).
  - apply echo_at_rest.
  - vm_compute. reflexivity.
  - exact I.
  - repeat (apply Forall_cons_2; [split; [vm_compute; split; [split; congruence|]; intros; done|];
      split; [cbn; lia|]; split; [apply (bool_decide_eq_true_1 _); vm_compute; reflexivity|right; vm_compute; congruence]|]).
    constructor.
  - apply (as_cons _ _ _ [] (Some (false, [104; 105]))); [apply (as_first _ false); right; vm_compute; congruence|].
    apply (as_cons _ _ _ [EvPing [7]] (Some (false, [104; 105]))); [constructor|].
    apply (as_cons _ _ _ [EvMessage [104; 105; 33] false] None).
    + apply (as_last _ false [104; 105] [33]); [right; vm_compute; congruence|]. intros _. by apply small_text_ok.
    + apply (as_cons _ _ _ [EvMessage [0; 255] true] None); [|constructor].
      apply (as_whole _ true); [right; vm_compute; congruence|done].
  - vm_compute. reflexivity.
Defined.

(** A client sends a text, a ping and a binary message to a server that reads twice. *)
Lemma websocket_end_to_end_witness :
  let sends := [ApiSendText [104; 105]; ApiSendPing [1; 2]; ApiSendBinary [200; 201]] in
  let evs := [EvMessage [104; 105] false; EvPing [1; 2]; EvMessage [200; 201] true] in
  let s := echo_handler false in
  let r := echo_handler true in
  let wire := getPendingOutput (run_sends Sse2 0 sends s) in
  let chunks := [take 10 wire; drop 10 wire] in
  let '(r', action) := feed Sse2 Vector16 0 chunks r in
  action <> ActClose /\ core r' = core (deliver_all Sse2 0 evs r)
  /\ message_is None (ws_message r') /\ carry r' = [].
Proof.
  cbv zeta.
  apply (websocket_end_to_end Sse2 Vector16 0
    [ApiSendText [104; 105]; ApiSendPing [1; 2]; ApiSendBinary [200; 201]] _ _ _ (echo_handler false)).
  - reflexivity.
  - reflexivity.
  - reflexivity.
  - by split.
  - apply echo_at_rest.
  - reflexivity.
  - repeat (apply Forall_cons_2; [split; [apply (bool_decide_eq_true_1 _); vm_compute; reflexivity|]; try (split; [done|]);
      cbn; repeat split; try done; try (right; vm_compute; congruence); by apply small_text_ok|]).
    constructor.
  - reflexivity.
  - vm_compute. reflexivity.
Defined.

Lemma websocket_close_handshake_witness :
  let s := echo_handler true in
  let r := echo_handler false in
  let s1 := snd (sendClose Sse2 0 CloseGoingAway [98; 121; 101] s) in
  let rr := processInput Sse2 Vector16 0 (getPendingOutput s1) r in
  let ss := processInput Sse2 Vector16 0 (getPendingOutput (pr_handler rr)) s1 in
  (ws_closeState s1 = CloseSent
   /\ ws_closeState (pr_handler rr) = Closed /\ pr_action rr = ActResponseReady)
  /\ ws_closeState (pr_handler ss) = Closed /\ pr_action ss = ActClose.
Proof.
  apply (websocket_close_handshake Sse2 Vector16 0 CloseGoingAway [98; 121; 101] (echo_handler true) (echo_handler false));
    try reflexivity; try (by split); try apply echo_at_rest; try (right; vm_compute; congruence).
  apply (bool_decide_eq_true_1 _). vm_compute. reflexivity.
Defined.
