(* ===== verification/RouteConstraint.v ===== *)
(** Constraints on route parameters (http/src/route-constraint.cpp): the compilation of the simple
    patterns ([0-9]+, \w{3,8}, .* ...) into a list of atoms and the backtracking matcher of those
    lists.  The other patterns are given to [std::regex], which is a parameter here: a function from
    a pattern to its matcher, [None] when the constructor throws [regex_error].

    A plain [char] is signed, as on x86-64.  A position of the pattern is a [nat]. *)
From Stdlib Require Import ZArith List Lia Bool Ascii String.
From stdpp Require Import base list decidable.
From S2P Require Import Prelude.
Local Open Scope Z_scope.

Definition UINT32_MAX : Z := 2 ^ 32 - 1.

(** The value of a [char]. *)
Definition schar (b : Z) : Z := if b <? 128 then b else b - 256.

Record CharRange := MkRange { lo : Z; hi : Z }.
Record CharClass := MkClass { ranges : list CharRange; negated : bool }.
Record Atom := MkAtom { charClass : CharClass; minRep : Z; maxRep : Z }.

Definition in_range (ch : Z) (r : CharRange) : bool :=
  (schar (lo r) <=? schar ch) && (schar ch <=? schar (hi r)).

Definition contains (cc : CharClass) (ch : Z) : bool :=
  xorb (negated cc) (existsb (in_range ch) (ranges cc)).

(** ** The matcher *)

Section Matcher.
Variable atoms : list Atom.
Variable value : bytes.

(** The greedy loop: how many of the bytes [l], from [count] on, the atom takes. *)
Fixpoint count_chars (atom : Atom) (count : nat) (l : bytes) : nat :=
  match l with
  | ch :: l =>
      if (Z.of_nat count <? maxRep atom) && contains (charClass atom) ch
      then count_chars atom (S count) l else count
  | [] => count
  end.

Inductive Phase := Forward | Backtrack | Done (result : bool).

Record MatchState := MkState {
  phase : Phase; atomIdx : nat; valuePos : nat; usedPerAtom : list nat
}.

(** One turn of the loop of [atoms] or of the loop of [backtrack]. *)
Definition match_step (st : MatchState) : MatchState :=
  match phase st with
  | Done _ => st
  | Forward =>
      match atoms !! atomIdx st with
      | Some atom =>
          let count := count_chars atom 0 (drop (valuePos st) value) in
          if minRep atom <=? Z.of_nat count
          then MkState Forward (S (atomIdx st)) (valuePos st + count)
                 (<[atomIdx st := count]> (usedPerAtom st))
          else MkState Backtrack (atomIdx st) (valuePos st) (usedPerAtom st)
      | None =>
          if Nat.eqb (valuePos st) (length value)
          then MkState (Done true) (atomIdx st) (valuePos st) (usedPerAtom st)
          else MkState Backtrack (atomIdx st) (valuePos st) (usedPerAtom st)
      end
  | Backtrack =>
      match atomIdx st with
      | O => MkState (Done false) 0 (valuePos st) (usedPerAtom st)
      | S atomIdx =>
          let used := nth atomIdx (usedPerAtom st) 0%nat in
          let valuePos := (valuePos st - used)%nat in
          let minRep := match atoms !! atomIdx with Some atom => minRep atom | None => 0 end in
          if minRep <? Z.of_nat used
          then MkState Forward (S atomIdx) (valuePos + pred used)
                 (<[atomIdx := pred used]> (usedPerAtom st))
          else MkState Backtrack atomIdx valuePos (usedPerAtom st)
      end
  end.

Definition is_done (st : MatchState) : bool := match phase st with Done _ => true | _ => false end.

(** At most [2 ^ n] steps, stopping at the end of the loops. *)
Fixpoint match_steps (n : nat) (st : MatchState) : MatchState :=
  match n with
  | O => match_step st
  | S n => let st := match_steps n st in if is_done st then st else match_steps n st
  end.

(** [resize]: the new elements are zero. *)
Definition resize (n : nat) (l : list nat) : list nat :=
  take n l ++ replicate (n - length l) 0%nat.

(** The logarithm of a number of steps that always suffices. *)
Definition steps_log : nat := (S (length atoms) * S (Nat.log2 (length value + 4)))%nat.

Definition FastPattern_matches (usedPerAtom : list nat) : option bool :=
  match phase (match_steps steps_log (MkState Forward 0 0 (resize (length atoms) usedPerAtom))) with
  | Done b => Some b
  | _ => None
  end.
End Matcher.

(** ** Compilation *)

Section Compile.
Variable pattern : bytes.
Definition psize : nat := length pattern.

Definition digit_range : CharRange := MkRange 48 57.
Definition word_ranges : list CharRange :=
  [MkRange 97 122; MkRange 65 90; MkRange 48 57; MkRange 95 95].
Definition space_ranges : list CharRange :=
  [MkRange 32 32; MkRange 9 9; MkRange 10 10; MkRange 13 13].

(** The loop of [ParseCharClass], up to the closing bracket; [None] throws [error_brack]. *)
Fixpoint class_loop (fuel : nat) (pos : nat) (ranges : list CharRange) : option (list CharRange * nat) :=
  match fuel with
  | O => None
  | S fuel =>
      if decide (pos < psize)%nat then
        if byte_at pattern pos =? 93 then Some (ranges, S pos)
        else
          let single_or_range pos ranges :=
            let ch := byte_at pattern pos in
            if decide (pos + 2 < psize)%nat then
              if (byte_at pattern (pos + 1) =? 45) && negb (byte_at pattern (pos + 2) =? 93) then
                if (byte_at pattern (pos + 2) =? 92) && bool_decide (pos + 3 < psize)%nat
                then class_loop fuel (pos + 4) (ranges ++ [MkRange ch (byte_at pattern (pos + 3))])
                else class_loop fuel (pos + 3) (ranges ++ [MkRange ch (byte_at pattern (pos + 2))])
              else class_loop fuel (S pos) (ranges ++ [MkRange ch ch])
            else class_loop fuel (S pos) (ranges ++ [MkRange ch ch]) in
          if (byte_at pattern pos =? 92) && bool_decide (pos + 1 < psize)%nat then
            let ch := byte_at pattern (S pos) in
            if ch =? 100 then class_loop fuel (pos + 2) (ranges ++ [digit_range])
            else if ch =? 119 then class_loop fuel (pos + 2) (ranges ++ word_ranges)
            else if ch =? 115 then class_loop fuel (pos + 2) (ranges ++ space_ranges)
            else single_or_range (S pos) ranges
          else single_or_range pos ranges
      else None
  end.

Definition ParseCharClass (pos : nat) : option (CharClass * nat) :=
  let negated := bool_decide (pos < psize)%nat && (byte_at pattern pos =? 94) in
  match class_loop (S psize) (if negated then S pos else pos) [] with
  | Some (ranges, pos) => Some (MkClass ranges negated, pos)
  | None => None
  end.

Definition is_digit_at (pos : nat) : bool :=
  bool_decide (pos < psize)%nat && (48 <=? byte_at pattern pos) && (byte_at pattern pos <=? 57).
Definition is_char_at (c : Z) (pos : nat) : bool :=
  bool_decide (pos < psize)%nat && (byte_at pattern pos =? c).

(** A decimal number on 32 bits, which wraps. *)
Fixpoint parse_number (fuel : nat) (v : Z) (pos : nat) : Z * nat :=
  match fuel with
  | O => (v, pos)
  | S fuel =>
      if is_digit_at pos then parse_number fuel (u32 (v * 10 + (byte_at pattern pos - 48))) (S pos)
      else (v, pos)
  end.

Definition ParseQuantifier (pos : nat) : Z * Z * nat :=
  if negb (bool_decide (pos < psize)%nat) then (1, 1, pos)
  else
    let c := byte_at pattern pos in
    if c =? 43 then (1, UINT32_MAX, S pos)
    else if c =? 42 then (0, UINT32_MAX, S pos)
    else if c =? 63 then (0, 1, S pos)
    else if c =? 123 then
      let '(minVal, pos) := parse_number psize 0 (S pos) in
      if is_char_at 125 pos then (minVal, minVal, S pos)
      else if is_char_at 44 pos then
        let pos := S pos in
        if is_char_at 125 pos then (minVal, UINT32_MAX, S pos)
        else
          let '(maxVal, pos) := parse_number psize 0 pos in
          if is_char_at 125 pos then (minVal, maxVal, S pos) else (0, 0, pos)
      else (0, 0, pos)
    else (1, 1, pos).

(** The class of the shorthand [\c]. *)
Definition shorthand (c : Z) : CharClass :=
  if c =? 100 then MkClass [digit_range] false
  else if c =? 68 then MkClass [digit_range] true
  else if c =? 119 then MkClass word_ranges false
  else if c =? 87 then MkClass word_ranges true
  else if c =? 115 then MkClass space_ranges false
  else if c =? 83 then MkClass space_ranges true
  else MkClass [MkRange c c] false.

Inductive Parsed := Throws | Fallback | Class (cc : CharClass) (pos : nat).

(** The class of the atom at [pos]. *)
Definition parse_atom_class (pos : nat) : Parsed :=
  let c := byte_at pattern pos in
  if c =? 91 then
    match ParseCharClass (S pos) with Some (cc, pos) => Class cc pos | None => Throws end
  else if c =? 46 then Class (MkClass [MkRange 10 10; MkRange 13 13] true) (S pos)
  else if c =? 92 then
    if decide (pos + 1 < psize)%nat then Class (shorthand (byte_at pattern (S pos))) (pos + 2)
    else Fallback
  else if (c =? 40) || (c =? 124) || (c =? 41) || (c =? 94) || (c =? 36) then Fallback
  else Class (MkClass [MkRange c c] false) (S pos).

Inductive Compiled := CompileThrows | NotFast | FastAtoms (atoms : list Atom).

Fixpoint compile_loop (fuel : nat) (pos : nat) (atoms : list Atom) : Compiled :=
  match fuel with
  | O => NotFast
  | S fuel =>
      if decide (pos < psize)%nat then
        match parse_atom_class pos with
        | Throws => CompileThrows
        | Fallback => NotFast
        | Class cc pos =>
            let '(minRep, maxRep, pos) := ParseQuantifier pos in
            if (minRep =? 0) && (maxRep =? 0) && negb (byte_at pattern (pos - 1) =? 125) then NotFast
            else compile_loop fuel pos (atoms ++ [MkAtom cc minRep maxRep])
        end
      else FastAtoms atoms
  end.

Definition TryCompileFast : Compiled := compile_loop (S psize) 0 [].
End Compile.

(** ** The constraint *)

Inductive RouteConstraint :=
| Empty
| Fast (patternStr : bytes) (atoms : list Atom)
| Regex (patternStr : bytes).

Definition constraint_empty (c : RouteConstraint) : bool :=
  match c with Empty => true | _ => false end.

(** [pattern()]. *)
Definition constraint_pattern (c : RouteConstraint) : bytes :=
  match c with Empty => [] | Fast p _ | Regex p => p end.

Section Constraint.
Variable std_regex : bytes -> option (bytes -> bool).

(** The constructor; [None] throws [regex_error]. *)
Definition RouteConstraint_new (pattern : bytes) : option RouteConstraint :=
  if Nat.eqb (length pattern) 0 then Some Empty
  else
    match TryCompileFast pattern with
    | CompileThrows => None
    | FastAtoms atoms => Some (Fast pattern atoms)
    | NotFast => match std_regex pattern with Some _ => Some (Regex pattern) | None => None end
    end.

Definition constraint_matches (c : RouteConstraint) (value : bytes) : bool :=
  match c with
  | Empty => true
  | Fast _ atoms => default false (FastPattern_matches atoms value [])
  | Regex pattern => match std_regex pattern with Some f => f value | None => false end
  end.
End Constraint.
