(* ===== verification/RouteConstraintProofs.v ===== *)
(** The matcher of route constraints: it ends, and answers whether the value belongs to the
    language of the atoms.  The compiler: the printed form of a simple expression compiles to the
    atoms of its language. *)
From Stdlib Require Import ZArith List Lia Bool Ascii String.
From stdpp Require Import base list decidable.
From S2P Require Import Prelude.
From S2P Require Import RouteConstraint.
Local Open Scope Z_scope.

(** ** The language of a list of atoms *)

Definition atom_takes (a : Atom) (l : bytes) (u : nat) : Prop :=
  (u <= length l)%nat /\ minRep a <= Z.of_nat u <= maxRep a
  /\ Forall (fun ch => contains (charClass a) ch = true) (take u l).

Fixpoint atoms_match (atoms : list Atom) (l : bytes) : Prop :=
  match atoms with
  | [] => l = []
  | a :: atoms => exists u, atom_takes a l u /\ atoms_match atoms (drop u l)
  end.

Definition atom_ok (a : Atom) : Prop := 0 <= minRep a /\ 0 <= maxRep a.

Lemma count_chars_bound a l c : (c <= count_chars a c l <= c + length l)%nat.
Proof.
  revert c. induction l as [|ch l IH]; intros c; cbn; [lia|].
  destruct (_ && _); [specialize (IH (S c)); lia|lia].
Qed.

Lemma count_chars_spec a l c u :
  Z.of_nat c <= maxRep a ->
  (c + u <= count_chars a c l)%nat <->
  (u <= length l)%nat /\ Z.of_nat (c + u) <= maxRep a
  /\ Forall (fun ch => contains (charClass a) ch = true) (take u l).
Proof.
  revert c u. induction l as [|ch l IH]; intros c u Hc; cbn [count_chars length].
  - split; [intros H|intros (H & _)]; destruct u; try lia.
    rewrite Nat.add_0_r. repeat split; [lia|done|constructor].
  - destruct u as [|u].
    { rewrite Nat.add_0_r. split; [intros _; repeat split; [lia|done|constructor]|intros _].
      destruct (_ && _); [|lia]. pose proof (count_chars_bound a l (S c)). lia. }
    cbn [take]. rewrite Forall_cons. destruct (Z.ltb_spec (Z.of_nat c) (maxRep a)) as [Hm|Hm]; cbn [andb].
    + destruct (contains (charClass a) ch).
      * replace (c + S u)%nat with (S c + u)%nat by lia. rewrite (IH (S c) u) by lia.
        split; [intros (H1 & H2 & H3)|intros (H1 & H2 & _ & H3)]; repeat split; done || lia.
      * split; [lia|]. intros (_ & _ & H & _). done.
    + split; [lia|]. lia.
Qed.

Lemma atom_takes_count a l u :
  atom_ok a ->
  atom_takes a l u <-> minRep a <= Z.of_nat u /\ (u <= count_chars a 0 l)%nat.
Proof.
  intros [_ Ha]. unfold atom_takes. pose proof (count_chars_spec a l 0 u Ha) as H. cbn [Nat.add] in H.
  rewrite H. intuition lia.
Qed.

Section MatcherProof.
Variable atoms : list Atom.
Variable value : bytes.
Hypothesis atoms_ok : Forall atom_ok atoms.

Local Abbreviation n := (length atoms).
Local Abbreviation base := (length value + 4)%nat.

Definition used_sum (used : list nat) (i : nat) : nat := sum_list (take i used).
#[local] Arguments used_sum : simpl never.

(** What is left to try below the top of the stack: a smaller count of an atom already passed. *)
Fixpoint pending (used : list nat) (i : nat) : Prop :=
  match i with
  | O => False
  | S i =>
      (exists u a, atoms !! i = Some a /\ (u < nth i used 0)%nat /\ minRep a <= Z.of_nat u
         /\ atoms_match (drop (S i) atoms) (drop (used_sum used i + u) value))
      \/ pending used i
  end.

Definition will_match (st : MatchState) : Prop :=
  let i := atomIdx st in
  match phase st with
  | Done b => b = true
  | Forward => atoms_match (drop i atoms) (drop (valuePos st) value) \/ pending (usedPerAtom st) i
  | Backtrack => pending (usedPerAtom st) i
  end.

Record matcher_inv (st : MatchState) : Prop := {
  mi_idx : (atomIdx st <= n)%nat;
  mi_used : length (usedPerAtom st) = n;
  mi_pos : is_done st = false -> valuePos st = used_sum (usedPerAtom st) (atomIdx st);
  mi_len : forall j, (j < atomIdx st)%nat -> (nth j (usedPerAtom st) 0 <= length value)%nat;
  mi_fit : forall j a, (j < atomIdx st)%nat -> atoms !! j = Some a ->
    (nth j (usedPerAtom st) 0 <= count_chars a 0 (drop (used_sum (usedPerAtom st) j) value))%nat
}.

Lemma used_sum_S used i : (i < length used)%nat -> used_sum used (S i) = (used_sum used i + nth i used 0)%nat.
Proof.
  unfold used_sum. revert i.
  induction used as [|u used IH]; intros i H; destruct i as [|i]; cbn in *; try lia.
  - rewrite take_0. cbn. lia.
  - rewrite (IH i) by lia. lia.
Qed.

Lemma used_sum_insert used i x j : (j <= i)%nat -> used_sum (<[i := x]> used) j = used_sum used j.
Proof. intros H. unfold used_sum. by rewrite take_insert_ge. Qed.

Lemma nth_insert_ne (used : list nat) i x j : i <> j -> nth j (<[i := x]> used) 0%nat = nth j used 0%nat.
Proof. intros H. rewrite !nth_lookup. by rewrite list_lookup_insert_ne. Qed.

Lemma nth_insert_eq (used : list nat) i x : (i < length used)%nat -> nth i (<[i := x]> used) 0%nat = x.
Proof. intros H. rewrite nth_lookup. by rewrite list_lookup_insert_eq. Qed.

Lemma pending_insert used i x j : (j <= i)%nat -> pending (<[i := x]> used) j <-> pending used j.
Proof.
  induction j as [|j IH]; intros H; cbn [pending]; [done|].
  rewrite IH by lia. rewrite nth_insert_ne by lia. by rewrite used_sum_insert by lia.
Qed.

Lemma drop_atoms i a : atoms !! i = Some a -> drop i atoms = a :: drop (S i) atoms.
Proof. intros H. by erewrite drop_S. Qed.

Lemma atom_ok_lookup i a : atoms !! i = Some a -> atom_ok a.
Proof. intros H. by eapply Forall_lookup_1 in atoms_ok. Qed.

(** Matching the atom at [i] with the greedy count on top of the stack. *)
Lemma match_greedy i a pos :
  atoms !! i = Some a ->
  atoms_match (drop i atoms) (drop pos value) <->
  exists u, minRep a <= Z.of_nat u /\ (u <= count_chars a 0 (drop pos value))%nat
    /\ atoms_match (drop (S i) atoms) (drop (pos + u) value).
Proof.
  intros H. rewrite (drop_atoms _ _ H). cbn [atoms_match].
  setoid_rewrite (atom_takes_count _ _ _ (atom_ok_lookup _ _ H)).
  setoid_rewrite drop_drop. split; intros (u & Hu & Hm); exists u; tauto.
Qed.

(** The alternatives up to [k] are [k] itself and the smaller ones. *)
Lemma le_split (P : nat -> Prop) (mn : Z) k :
  mn <= Z.of_nat k ->
  (exists u, mn <= Z.of_nat u /\ (u <= k)%nat /\ P u) <->
  P k \/ (exists u, (u < k)%nat /\ mn <= Z.of_nat u /\ P u).
Proof.
  intros Hk. split.
  - intros (u & Hmn & Hu & H). destruct (decide (u = k)) as [->|]; [by left|right]. exists u. repeat split; done || lia.
  - intros [H|(u & Hu & Hmn & H)]; [exists k|exists u]; repeat split; done || lia.
Qed.

Lemma pending_S used i a :
  atoms !! i = Some a ->
  pending used (S i) <->
  (exists u, (u < nth i used 0)%nat /\ minRep a <= Z.of_nat u
     /\ atoms_match (drop (S i) atoms) (drop (used_sum used i + u) value)) \/ pending used i.
Proof.
  intros Ha. cbn [pending]. split; (intros [H|H]; [left|by right]).
  - destruct H as (u & a' & Ha' & H). rewrite Ha in Ha'. injection Ha' as <-. by exists u.
  - destruct H as (u & H). by exists u, a.
Qed.

Lemma inv_insert i c k :
  (i < n)%nat -> length c = n ->
  (forall j, (j < i)%nat -> (nth j c 0 <= length value)%nat) ->
  (forall j a, (j < i)%nat -> atoms !! j = Some a ->
     (nth j c 0 <= count_chars a 0 (drop (used_sum c j) value))%nat) ->
  (forall a, atoms !! i = Some a -> (k <= count_chars a 0 (drop (used_sum c i) value))%nat) ->
  (k <= length value)%nat ->
  matcher_inv (MkState Forward (S i) (used_sum c i + k) (<[i := k]> c)).
Proof.
  intros Hi Hc Hl Hf Hk Hkl. constructor; cbn.
  - lia.
  - by rewrite length_insert.
  - intros _. rewrite used_sum_S by (rewrite length_insert; lia).
    by rewrite used_sum_insert, nth_insert_eq by lia.
  - intros j Hj. destruct (decide (j = i)) as [->|]; [by rewrite nth_insert_eq by lia|].
    rewrite nth_insert_ne by lia. apply Hl. lia.
  - intros j a Hj Ha. rewrite used_sum_insert by lia. destruct (decide (j = i)) as [->|].
    + rewrite nth_insert_eq by lia. by apply Hk.
    + rewrite nth_insert_ne by lia. apply Hf; [lia|done].
Qed.

Lemma match_step_inv st : matcher_inv st -> matcher_inv (match_step atoms value st).
Proof.
  intros [Hi Hu Hp Hl Hf]. destruct st as [ph i pos used]; cbn in *. unfold match_step. cbn [phase atomIdx valuePos usedPerAtom].
  destruct ph as [| |b].
  - specialize (Hp eq_refl). subst pos. destruct (atoms !! i) as [a|] eqn:Ea.
    + apply lookup_lt_Some in Ea as Hlt. destruct (_ <=? _).
      * apply inv_insert; try done; [|pose proof (count_chars_bound a (drop (used_sum used i) value) 0) as H; rewrite length_drop in H; lia].
        intros a' Ha'. rewrite Ea in Ha'. by injection Ha' as <-.
      * by constructor.
    + destruct (Nat.eqb _ _); by constructor.
  - specialize (Hp eq_refl). subst pos. destruct i as [|i].
    + constructor; cbn; try done; lia.
    + rewrite (used_sum_S used i) by lia.
      replace (used_sum used i + nth i used 0 - nth i used 0)%nat with (used_sum used i) by lia.
      destruct (_ <? _).
      * apply inv_insert; try done; try lia.
        -- intros j Hj. apply Hl. lia.
        -- intros j a Hj Ha. apply Hf; [lia|done].
        -- intros a Ha. specialize (Hf i a ltac:(lia) Ha). lia.
        -- specialize (Hl i ltac:(lia)). lia.
      * constructor; cbn; try done; try lia.
        -- intros j Hj. apply Hl. lia.
        -- intros j a Hj Ha. apply Hf; [lia|done].
  - by constructor.
Qed.

Lemma match_step_will st : matcher_inv st -> will_match (match_step atoms value st) <-> will_match st.
Proof.
  intros [Hi Hu Hp Hl Hf]. destruct st as [ph i pos used]; cbn in *. unfold match_step, will_match.
  cbn [phase atomIdx valuePos usedPerAtom].
  destruct ph as [| |b]; [| |done].
  - specialize (Hp eq_refl). destruct (atoms !! i) as [a|] eqn:Ea.
    + apply lookup_lt_Some in Ea as Hlt. rewrite (match_greedy i a pos Ea).
      set (k := count_chars a 0 (drop pos value)) in *.
      destruct (Z.leb_spec (minRep a) (Z.of_nat k)) as [Hm|Hm]; cbn [phase atomIdx valuePos usedPerAtom].
      * rewrite (pending_S _ i a Ea), pending_insert by lia. rewrite nth_insert_eq, used_sum_insert by lia.
        rewrite <- Hp.
        rewrite (le_split (fun u => atoms_match (drop (S i) atoms) (drop (pos + u) value)) _ _ Hm). tauto.
      * split; [by right|]. intros [(u & Hu1 & Hu2 & _)|H]; [lia|done].
    + apply lookup_ge_None in Ea. replace i with n by lia. rewrite drop_all. cbn [atoms_match].
      destruct (Nat.eqb_spec pos (length value)) as [->|Hne]; cbn [phase atomIdx valuePos usedPerAtom].
      * rewrite drop_all. tauto.
      * split; [by right|]. intros [H|H]; [|done]. apply (f_equal length) in H. rewrite length_drop in H. cbn in H.
        assert (valuePos_le : (pos <= length value)%nat); [|lia].
        clear H Hne. rewrite Hp. assert (Hle : forall j, (j <= i)%nat -> (used_sum used j <= length value)%nat); [|apply Hle; lia].
        induction j as [|j IH]; intros Hj; [unfold used_sum; rewrite take_0; cbn; lia|].
        destruct (lookup_lt_is_Some_2 atoms j) as [a Ha]; [lia|].
        rewrite used_sum_S by lia. specialize (Hf j a ltac:(lia) Ha). specialize (IH ltac:(lia)).
        pose proof (count_chars_bound a (drop (used_sum used j) value) 0) as Hb. rewrite length_drop in Hb. lia.
  - specialize (Hp eq_refl). destruct i as [|i]; cbn [phase atomIdx valuePos usedPerAtom].
    + cbn. split; [discriminate|done].
    + destruct (lookup_lt_is_Some_2 atoms i) as [a Ea]; [lia|]. rewrite Ea.
      rewrite Hp, (used_sum_S used i) by lia.
      replace (used_sum used i + nth i used 0 - nth i used 0)%nat with (used_sum used i) by lia.
      rewrite (pending_S _ i a Ea).
      destruct (Z.ltb_spec (minRep a) (Z.of_nat (nth i used 0%nat))) as [Hm|Hm]; cbn [phase atomIdx valuePos usedPerAtom].
      * rewrite (pending_S _ i a Ea), pending_insert by lia. rewrite nth_insert_eq, used_sum_insert by lia.
        set (P := fun u => atoms_match (drop (S i) atoms) (drop (used_sum used i + u) value)).
        pose proof (le_split P (minRep a) (pred (nth i used 0%nat)) ltac:(lia)) as Hs.
        assert (Hlt : (exists u, (u < nth i used 0)%nat /\ minRep a <= Z.of_nat u /\ P u)
                      <-> (exists u, minRep a <= Z.of_nat u /\ (u <= pred (nth i used 0))%nat /\ P u)).
        { destruct (atom_ok_lookup _ _ Ea) as [Hmin _].
          split; intros (u & H1 & H2 & H3); exists u; repeat split; done || lia. }
        unfold P in Hs, Hlt. tauto.
      * split; [by right|]. intros [(u & H1 & H2 & _)|H]; [lia|done].
Qed.

(** ** Termination *)

Fixpoint weight (used : list nat) (i : nat) : nat :=
  match i with
  | O => 0
  | S i => (nth i used 0 + 1) * base ^ (n - i) + weight used i
  end%nat.

Definition measure (st : MatchState) : nat :=
  match phase st with
  | Done _ => 0
  | Forward => weight (usedPerAtom st) (atomIdx st) + base ^ (n - atomIdx st + 1)
  | Backtrack => weight (usedPerAtom st) (atomIdx st) + 1
  end%nat.

Lemma weight_insert used i x j : (j <= i)%nat -> weight (<[i := x]> used) j = weight used j.
Proof.
  induction j as [|j IH]; intros H; cbn [weight]; [done|]. rewrite IH, nth_insert_ne by lia. done.
Qed.

Lemma match_step_decreases st :
  matcher_inv st -> is_done st = false -> (measure (match_step atoms value st) < measure st)%nat.
Proof.
  intros [Hi Hu Hp Hl Hf] Hd. destruct st as [ph i pos used]; cbn in *. unfold match_step, measure.
  cbn [phase atomIdx valuePos usedPerAtom].
  assert (Hb : forall k, (1 <= base ^ k)%nat) by (intros k; pose proof (Nat.pow_nonzero base k ltac:(lia)); lia).
  destruct ph as [| |b]; [| |done].
  - destruct (atoms !! i) as [a|] eqn:Ea.
    + apply lookup_lt_Some in Ea as Hlt. set (k := count_chars a 0 (drop pos value)).
      assert (Hk : (k <= length value)%nat).
      { pose proof (count_chars_bound a (drop pos value) 0) as H. rewrite length_drop in H. unfold k. lia. }
      replace (n - i + 1)%nat with (S (n - i)) by lia. cbn [Nat.pow].
      destruct (_ <=? _); cbn [phase atomIdx valuePos usedPerAtom weight].
      * rewrite nth_insert_eq, weight_insert by lia. replace (n - S i + 1)%nat with (n - i)%nat by lia.
        specialize (Hb (n - i)%nat). nia.
      * specialize (Hb (n - i)%nat). nia.
    + apply lookup_ge_None in Ea. replace i with n by lia. rewrite Nat.sub_diag. cbn [Nat.add Nat.pow].
      destruct (Nat.eqb _ _); cbn [phase atomIdx valuePos usedPerAtom]; lia.
  - destruct i as [|i]; cbn [phase atomIdx valuePos usedPerAtom]; [cbn; lia|].
    specialize (Hb (n - i)%nat).
    destruct (_ <? _) eqn:Hm; cbn [phase atomIdx valuePos usedPerAtom weight].
    + rewrite nth_insert_eq, weight_insert by lia. replace (n - S i + 1)%nat with (n - i)%nat by lia.
      destruct (lookup_lt_is_Some_2 atoms i) as [a Ea]; [lia|]. rewrite Ea in Hm.
      destruct (atom_ok_lookup _ _ Ea) as [Hmin _]. apply Z.ltb_lt in Hm.
      destruct (nth i used 0%nat) as [|u] eqn:Eu; [lia|]. cbn [pred]. nia.
    + lia.
Qed.

Lemma match_steps_spec k st :
  matcher_inv st ->
  let st' := match_steps atoms value k st in
  matcher_inv st' /\ (will_match st' <-> will_match st)
  /\ (is_done st' = true \/ (measure st' + 2 ^ k <= measure st)%nat).
Proof.
  revert st. induction k as [|k IH]; intros st Hst; cbn [match_steps].
  - split; [by apply match_step_inv|]. split; [by apply match_step_will|].
    destruct (is_done st) eqn:Hd.
    + left. unfold match_step, is_done in *. by destruct (phase st) eqn:E; rewrite ?E.
    + right. pose proof (match_step_decreases st Hst Hd). cbn. lia.
  - destruct (IH st Hst) as (H1 & H2 & H3). destruct (is_done _) eqn:Hd.
    + rewrite Hd. tauto.
    + destruct (IH _ H1) as (H4 & H5 & H6). split; [done|]. split; [by rewrite H5|].
      destruct H6 as [H6|H6]; [by left|right]. cbn [Nat.pow]. destruct H3 as [H3|H3]; [congruence|]. lia.
Qed.

Lemma steps_enough : (base ^ (n + 1) <= 2 ^ steps_log atoms value)%nat.
Proof.
  unfold steps_log. rewrite Nat.mul_comm, Nat.pow_mul_r. replace (n + 1)%nat with (S n) by lia.
  apply Nat.pow_le_mono_l. apply Nat.lt_le_incl, Nat.log2_spec. lia.
Qed.
End MatcherProof.

(** The matcher ends and decides the language, whatever the buffer it is given holds. *)
Lemma FastPattern_matches_correct atoms value buffer :
  Forall atom_ok atoms ->
  exists b, FastPattern_matches atoms value buffer = Some b /\ (b = true <-> atoms_match atoms value).
Proof.
  intros Hok. unfold FastPattern_matches.
  set (st := MkState Forward 0 0 (resize (length atoms) buffer)).
  assert (Hst : matcher_inv atoms value st).
  { constructor; cbn; try done; try lia. unfold resize. rewrite length_app, length_take, length_replicate. lia. }
  destruct (match_steps_spec atoms value Hok (steps_log atoms value) st Hst) as (Hi & Hw & Hd).
  assert (Hdone : is_done (match_steps atoms value (steps_log atoms value) st) = true).
  { destruct Hd as [Hd|Hd]; [done|]. pose proof (steps_enough atoms value) as He.
    unfold measure in Hd at 2. cbn [phase atomIdx valuePos usedPerAtom st weight] in Hd. rewrite Nat.sub_0_r in Hd.
    destruct (is_done _) eqn:E; [done|]. exfalso. unfold measure in Hd. unfold is_done in E.
    destruct (phase _); try done; [|lia].
    pose proof (Nat.pow_nonzero (length value + 4) (length atoms - atomIdx (match_steps atoms value (steps_log atoms value) st) + 1) ltac:(lia)).
    lia. }
  unfold is_done in Hdone. unfold will_match in Hw. destruct (phase _) as [| |b]; try done.
  exists b. split; [done|]. rewrite Hw. cbn. rewrite drop_0. tauto.
Qed.

(** ** Simple expressions and their printed form *)

Inductive ShortKind := Digit | Word | Space.

Inductive ClassExpr :=
| CRanges (negated : bool) (rs : list (Z * Z))
| CChar (ch : Z)
| CEscaped (ch : Z)
| CAny
| CShort (negated : bool) (k : ShortKind).

Inductive Quant :=
| Once | OneOrMore | ZeroOrMore | ZeroOrOne
| Exactly (ds : list Z) | AtLeast (ds : list Z) | Between (ds1 ds2 : list Z).

Record Item := MkItem { it_class : ClassExpr; it_quant : Quant }.

Definition number (ds : list Z) : Z := fold_left (fun v d => v * 10 + d) ds 0.

Definition print_digits (ds : list Z) : bytes := map (Z.add 48) ds.

Definition short_letter (negated : bool) (k : ShortKind) : Z :=
  match k, negated with
  | Digit, false => 100 | Digit, true => 68 | Word, false => 119 | Word, true => 87
  | Space, false => 115 | Space, true => 83
  end.

Definition print_class (c : ClassExpr) : bytes :=
  match c with
  | CRanges neg rs =>
      91 :: (if neg then [94] else []) ++ concat (map (fun r => [r.1; 45; r.2]) rs) ++ [93]
  | CChar ch => [ch]
  | CEscaped ch => [92; ch]
  | CAny => [46]
  | CShort neg k => [92; short_letter neg k]
  end.

Definition print_quant (q : Quant) : bytes :=
  match q with
  | Once => []
  | OneOrMore => [43]
  | ZeroOrMore => [42]
  | ZeroOrOne => [63]
  | Exactly ds => 123 :: print_digits ds ++ [125]
  | AtLeast ds => 123 :: print_digits ds ++ [44; 125]
  | Between ds1 ds2 => 123 :: print_digits ds1 ++ 44 :: print_digits ds2 ++ [125]
  end.

Definition print_item (it : Item) : bytes := print_class (it_class it) ++ print_quant (it_quant it).
Definition print_expr (items : list Item) : bytes := concat (map print_item items).

(** *** What an expression means *)

Definition in_shorthand (k : ShortKind) (ch : Z) : Prop :=
  match k with
  | Digit => 48 <= ch <= 57
  | Word => 97 <= ch <= 122 \/ 65 <= ch <= 90 \/ 48 <= ch <= 57 \/ ch = 95
  | Space => ch = 32 \/ ch = 9 \/ ch = 10 \/ ch = 13
  end.

Definition unless (negated : bool) (P : Prop) : Prop := if negated then ~ P else P.

Definition class_has (c : ClassExpr) (ch : Z) : Prop :=
  match c with
  | CRanges neg rs => unless neg (Exists (fun r => r.1 <= ch <= r.2) rs)
  | CChar c | CEscaped c => ch = c
  | CAny => ch <> 10 /\ ch <> 13
  | CShort neg k => unless neg (in_shorthand k ch)
  end.

Definition quant_has (q : Quant) (u : Z) : Prop :=
  match q with
  | Once => u = 1
  | OneOrMore => 1 <= u
  | ZeroOrMore => True
  | ZeroOrOne => u <= 1
  | Exactly ds => u = number ds
  | AtLeast ds => number ds <= u
  | Between ds1 ds2 => number ds1 <= u <= number ds2
  end.

Fixpoint expr_match (items : list Item) (l : bytes) : Prop :=
  match items with
  | [] => l = []
  | it :: items =>
      exists a b, l = a ++ b /\ quant_has (it_quant it) (zlen a)
        /\ Forall (class_has (it_class it)) a /\ expr_match items b
  end.

(** *** The expressions considered *)

Definition ascii (ch : Z) : Prop := 0 <= ch < 128.

(** A range in order, between characters that are not special in brackets. *)
Definition range_wf (r : Z * Z) : Prop :=
  ascii r.1 /\ ascii r.2 /\ r.1 <> 92 /\ r.1 <> 93 /\ r.1 <> 94 /\ r.2 <> 92 /\ r.2 <> 93
  /\ r.1 <= r.2 /\ r.1 <> 91 /\ r.2 <> 91.

(** Not one of [ ( ) [ ] { } \ . ^ $ | ? * + ]. *)
Definition plain_char (ch : Z) : Prop :=
  ascii ch /\ Forall (fun c => ch <> c) (str "()[\.^$|?*+{]}").

(** A character that an escape stands for: not a letter, a digit or an underscore, whose escapes
    mean something else in a regular expression. *)
Definition escapable (ch : Z) : Prop := ascii ch /\ ~ in_shorthand Word ch.

Definition class_wf (c : ClassExpr) : Prop :=
  match c with
  | CRanges _ rs => Forall range_wf rs
  | CChar ch => plain_char ch
  | CEscaped ch => escapable ch
  | _ => True
  end.

Definition digits_wf (ds : list Z) : Prop :=
  ds <> [] /\ Forall (fun d => 0 <= d <= 9) ds /\ number ds < 2 ^ 32.

Definition quant_wf (q : Quant) : Prop :=
  match q with
  | Exactly ds | AtLeast ds => digits_wf ds
  | Between ds1 ds2 => digits_wf ds1 /\ digits_wf ds2 /\ number ds1 <= number ds2
  | _ => True
  end.

Definition item_wf (it : Item) : Prop := class_wf (it_class it) /\ quant_wf (it_quant it).

(** *** The atoms it compiles to *)

Definition class_of (c : ClassExpr) : CharClass :=
  match c with
  | CRanges neg rs => MkClass (map (fun r => MkRange r.1 r.2) rs) neg
  | CChar ch | CEscaped ch => MkClass [MkRange ch ch] false
  | CAny => MkClass [MkRange 10 10; MkRange 13 13] true
  | CShort neg k =>
      MkClass match k with Digit => [digit_range] | Word => word_ranges | Space => space_ranges end neg
  end.

Definition bounds_of (q : Quant) : Z * Z :=
  match q with
  | Once => (1, 1)
  | OneOrMore => (1, UINT32_MAX)
  | ZeroOrMore => (0, UINT32_MAX)
  | ZeroOrOne => (0, 1)
  | Exactly ds => (number ds, number ds)
  | AtLeast ds => (number ds, UINT32_MAX)
  | Between ds1 ds2 => (number ds1, number ds2)
  end.

Definition atom_of (it : Item) : Atom :=
  MkAtom (class_of (it_class it)) (fst (bounds_of (it_quant it))) (snd (bounds_of (it_quant it))).

(** ** Parsing what was printed *)

Section Parsing.
Variable pattern pre : bytes.

Lemma at_pre l i : pattern = pre ++ l -> byte_at pattern (length pre + i) = byte_at l i.
Proof. intros ->. unfold byte_at. rewrite app_nth2 by lia. f_equal. lia. Qed.

Lemma at_pre0 l : pattern = pre ++ l -> byte_at pattern (length pre) = byte_at l 0.
Proof. intros H. rewrite <- (at_pre l 0 H). f_equal. lia. Qed.

Lemma psize_pre l : pattern = pre ++ l -> psize pattern = (length pre + length l)%nat.
Proof. intros ->. unfold psize. by rewrite length_app. Qed.
End Parsing.

Lemma class_loop_ranges pattern rs post pre acc fuel :
  Forall range_wf rs -> (length rs < fuel)%nat ->
  pattern = pre ++ concat (map (fun r => [r.1; 45; r.2]) rs) ++ 93 :: post ->
  class_loop pattern fuel (length pre) acc
  = Some (acc ++ map (fun r => MkRange r.1 r.2) rs, length (pre ++ concat (map (fun r => [r.1; 45; r.2]) rs) ++ [93])).
Proof.
  intros Hrs. revert pre acc fuel. induction Hrs as [|r rs Hr Hrs IH]; intros pre acc fuel Hf Hp;
    (destruct fuel as [|fuel]; [cbn in Hf; lia|]); cbn [class_loop].
  - cbn [map concat app] in *. rewrite (psize_pre _ _ _ Hp), (at_pre0 _ _ _ Hp).
    rewrite decide_True by (cbn; lia). change (byte_at (93 :: post) 0 =? 93) with true. cbn [map concat app].
    rewrite app_nil_r, length_app. cbn [length]. do 2 f_equal. lia.
  - destruct Hr as (Hl & Hh & H1 & H2 & H3 & H4 & H5 & _). destruct r as [a b]; cbn [fst snd] in *.
    cbn [map concat app fst snd] in Hp. rewrite (psize_pre _ _ _ Hp), (at_pre0 _ _ _ Hp), (at_pre _ _ _ 1 Hp), (at_pre _ _ _ 2 Hp).
    rewrite decide_True by (cbn; lia). change (byte_at (a :: ?x) 0) with a.
    rewrite (decide_True (P := (length pre + 2 < _)%nat)) by (cbn; lia).
    unfold byte_at at 1 2 3 4 5. cbn [nth]. rewrite (proj2 (Z.eqb_neq a 93)), (proj2 (Z.eqb_neq a 92)) by done.
    unfold byte_at. cbn [nth]. rewrite (proj2 (Z.eqb_neq b 93)), (proj2 (Z.eqb_neq b 92)) by done.
    cbn [andb negb Z.eqb Pos.eqb].
    replace (length pre + 3)%nat with (length (pre ++ [a; 45; b])) by (rewrite length_app; cbn; lia).
    rewrite IH; [|cbn in Hf; lia|rewrite Hp; by app_simpl].
    cbn [map concat fst snd]. do 2 f_equal; [by app_simpl|]. f_equal. by app_simpl.
Qed.

Lemma number_ge ds v :
  Forall (fun d => 0 <= d <= 9) ds -> 0 <= v -> v <= fold_left (fun v d => v * 10 + d) ds v.
Proof.
  revert v. induction ds as [|d ds IH]; intros v Hds Hv; cbn; [lia|].
  apply Forall_cons in Hds as [Hd Hds]. specialize (IH (v * 10 + d) Hds ltac:(lia)). lia.
Qed.

Lemma parse_number_digits pattern ds c post pre v fuel :
  Forall (fun d => 0 <= d <= 9) ds -> 0 <= v -> fold_left (fun v d => v * 10 + d) ds v < 2 ^ 32 ->
  (length ds < fuel)%nat -> c < 48 \/ 57 < c ->
  pattern = pre ++ print_digits ds ++ c :: post ->
  parse_number pattern fuel v (length pre)
  = (fold_left (fun v d => v * 10 + d) ds v, length (pre ++ print_digits ds)).
Proof.
  intros Hds. revert pre v fuel. induction Hds as [|d ds Hd Hds IH]; intros pre v fuel Hv Hn Hf Hc Hp;
    (destruct fuel as [|fuel]; [cbn in Hf; lia|]); cbn [parse_number]; unfold is_digit_at.
  - cbn [print_digits map app] in *. rewrite (at_pre0 _ _ _ Hp). unfold byte_at. cbn [nth].
    replace ((48 <=? c) && (c <=? 57)) with false by lia. rewrite <- andb_assoc.
    replace ((48 <=? c) && (c <=? 57)) with false by lia. rewrite andb_false_r. cbn. by rewrite app_nil_r.
  - cbn [print_digits map app] in Hp. fold (print_digits ds) in Hp.
    rewrite (at_pre0 _ _ _ Hp), (psize_pre _ _ _ Hp). unfold byte_at. cbn [nth length].
    rewrite bool_decide_true by lia. replace (48 <=? 48 + d) with true by lia.
    replace (48 + d <=? 57) with true by lia. cbn [andb fold_left] in *.
    pose proof (number_ge ds (v * 10 + d) Hds ltac:(lia)).
    rewrite u32_id by lia. replace (v * 10 + (48 + d - 48)) with (v * 10 + d) by lia.
    replace (S (length pre)) with (length (pre ++ [48 + d])) by (rewrite length_app; cbn; lia).
    rewrite IH; [|lia|done|cbn in Hf; lia|done|rewrite Hp; by app_simpl].
    f_equal. unfold print_digits. cbn. by app_simpl.
Qed.

Lemma parse_number_0 pattern ds c post pre fuel :
  digits_wf ds -> (length ds < fuel)%nat -> c < 48 \/ 57 < c ->
  pattern = pre ++ print_digits ds ++ c :: post ->
  parse_number pattern fuel 0 (length pre) = (number ds, length (pre ++ print_digits ds)).
Proof. intros (_ & Hds & Hn) Hf Hc Hp. by apply (parse_number_digits pattern ds c post pre 0). Qed.

(** What follows an item does not extend its quantifier. *)
Definition no_quant (l : bytes) : Prop := Forall (fun c => byte_at l 0 <> c) [43; 42; 63; 123].

Ltac at_positions Hp :=
  repeat first [rewrite (at_pre0 _ _ _ Hp) | rewrite (psize_pre _ _ _ Hp)];
  unfold byte_at; cbn [nth length app].

Lemma digits_length ds : length (print_digits ds) = length ds.
Proof. apply length_map. Qed.

Lemma char_at_eq pattern pre c l d :
  pattern = pre ++ c :: l -> is_char_at pattern d (length pre) = (c =? d).
Proof. intros Hp. unfold is_char_at. at_positions Hp. by rewrite bool_decide_true by lia. Qed.

(** A position one past a printed prefix. *)
Lemma S_length (pre : bytes) c : S (length pre) = length (pre ++ [c]).
Proof. rewrite length_app. cbn. lia. Qed.

Ltac same_list := by app_simpl.
Ltac lengths := repeat progress (rewrite ?length_app, ?digits_length; cbn [length]); lia.

(** The number after a brace or a comma: where it ends. *)
Lemma number_at pattern pre ds c post :
  digits_wf ds -> c < 48 \/ 57 < c -> pattern = pre ++ print_digits ds ++ c :: post ->
  parse_number pattern (psize pattern) 0 (length pre) = (number ds, length (pre ++ print_digits ds))
  /\ pattern = (pre ++ print_digits ds) ++ c :: post.
Proof.
  intros Hds Hc Hp. split; [|rewrite Hp; same_list].
  apply (parse_number_0 pattern ds c post); try done. rewrite (psize_pre _ _ _ Hp). lengths.
Qed.

Lemma ParseQuantifier_printed pattern pre q post :
  quant_wf q -> no_quant post -> pattern = pre ++ print_quant q ++ post ->
  ParseQuantifier pattern (length pre) = (bounds_of q, length (pre ++ print_quant q)).
Proof.
  intros Hq Hpost Hp. unfold ParseQuantifier.
  destruct q as [| | | |ds|ds|ds1 ds2]; cbn [print_quant app bounds_of] in *.
  1:{ rewrite app_nil_r. destruct (bool_decide_reflect (length pre < psize pattern)%nat) as [Hlt|Hge]; [|done].
      cbn [negb]. rewrite (at_pre0 _ _ _ Hp). unfold no_quant in Hpost. rewrite !Forall_cons in Hpost.
      destruct Hpost as (H1 & H2 & H3 & H4 & _). rewrite !(proj2 (Z.eqb_neq _ _)) by done. done. }
  all: rewrite bool_decide_true by (rewrite (psize_pre _ _ _ Hp); cbn; lia); cbn [negb];
    rewrite (at_pre0 _ _ _ Hp); unfold byte_at; cbn [nth Z.eqb Pos.eqb].
  1-3: do 2 f_equal; lengths.
  all: rewrite (S_length pre 123).
  - destruct (number_at pattern (pre ++ [123]) ds 125 post Hq ltac:(lia)) as [-> Hp2]; [rewrite Hp; same_list|].
    rewrite (char_at_eq _ _ _ _ 125 Hp2). cbn [Z.eqb Pos.eqb]. f_equal. lengths.
  - destruct (number_at pattern (pre ++ [123]) ds 44 (125 :: post) Hq ltac:(lia)) as [-> Hp2]; [rewrite Hp; same_list|].
    rewrite !(char_at_eq _ _ _ _ _ Hp2), (S_length _ 44). cbn [Z.eqb Pos.eqb].
    rewrite (char_at_eq pattern _ 125 post 125) by (rewrite Hp2; same_list). cbn [Z.eqb Pos.eqb]. f_equal. lengths.
  - destruct Hq as (Hq1 & Hq2 & _).
    destruct (number_at pattern (pre ++ [123]) ds1 44 (print_digits ds2 ++ 125 :: post) Hq1 ltac:(lia)) as [-> Hp2];
      [rewrite Hp; same_list|].
    rewrite !(char_at_eq _ _ _ _ _ Hp2), (S_length _ 44). cbn [Z.eqb Pos.eqb].
    set (pre2 := ((pre ++ [123]) ++ print_digits ds1) ++ [44]).
    destruct (number_at pattern pre2 ds2 125 post Hq2 ltac:(lia)) as [-> Hp3]; [unfold pre2; rewrite Hp2; same_list|].
    destruct ds2 as [|d ds2]; [by destruct Hq2|].
    rewrite (char_at_eq pattern pre2 (48 + d) (print_digits ds2 ++ 125 :: post) 125) by (rewrite Hp3; cbn; same_list).
    destruct Hq2 as (_ & Hd & _). apply Forall_cons in Hd as [Hd _].
    replace (48 + d =? 125) with false by lia.
    rewrite (char_at_eq _ _ _ _ 125 Hp3). cbn [Z.eqb Pos.eqb]. f_equal. unfold pre2. lengths.
Qed.

(** *** Classes *)

Lemma byte_at_0 c l : byte_at (c :: l) 0 = c.
Proof. done. Qed.

Lemma parse_class_printed pattern pre c post :
  class_wf c -> pattern = pre ++ print_class c ++ post ->
  parse_atom_class pattern (length pre) = Class (class_of c) (length (pre ++ print_class c)).
Proof.
  intros Hc Hp. unfold parse_atom_class. destruct c as [neg rs|ch|ch| |neg k]; cbn [print_class app class_of] in *;
    rewrite (at_pre0 _ _ _ Hp), byte_at_0.
  - cbn [Z.eqb Pos.eqb]. unfold ParseCharClass. rewrite (S_length pre 91).
    set (pre1 := pre ++ [91]). set (pr := concat (map (fun r : Z * Z => [r.1; 45; r.2]) rs)) in *.
    assert (Hp1 : pattern = pre1 ++ (if neg then [94] else []) ++ pr ++ 93 :: post).
    { unfold pre1. rewrite Hp. same_list. }
    assert (Hneg : bool_decide (length pre1 < psize pattern)%nat && (byte_at pattern (length pre1) =? 94) = neg).
    { rewrite (at_pre0 _ _ _ Hp1), (psize_pre _ _ _ Hp1), bool_decide_true by lengths. cbn [andb].
      destruct neg; [done|]. cbn [app]. unfold pr. destruct rs as [|[a b] rs]; [done|]. cbn.
      apply Forall_cons in Hc as [(_ & _ & _ & _ & H & _) _]. by apply Z.eqb_neq. }
    rewrite Hneg.
    replace (if neg then S (length pre1) else length pre1) with (length (pre1 ++ if neg then [94] else []))
      by (destruct neg; lengths).
    rewrite (class_loop_ranges pattern rs post (pre1 ++ if neg then [94] else []) [] (S (psize pattern)) Hc).
    + cbn [app]. fold pr. do 1 f_equal. unfold pre1. destruct neg; lengths.
    + rewrite (psize_pre _ _ _ Hp1). unfold pr.
      enough (length rs <= length (concat (map (fun r : Z * Z => [r.1; 45%Z; r.2]) rs)))%nat by lengths.
      clear. induction rs; cbn; lia.
    + fold pr. rewrite Hp1. same_list.
  - destruct Hc as [_ Hc]. cbn in Hc. rewrite !Forall_cons in Hc. destruct Hc as (H1&H2&H3&H4&H5&H6&H7&H8&_).
    rewrite !(proj2 (Z.eqb_neq _ _)) by done. cbn [orb]. f_equal. lengths.
  - rewrite (psize_pre _ _ _ Hp), decide_True by lengths. cbn [Z.eqb Pos.eqb].
    replace (S (length pre)) with (length pre + 1)%nat by lia. rewrite (at_pre _ _ _ 1 Hp). unfold byte_at. cbn [nth].
    destruct Hc as [_ Hc]. cbn in Hc. unfold shorthand.
    rewrite !(proj2 (Z.eqb_neq _ _)) by lia. f_equal. lengths.
  - cbn [Z.eqb Pos.eqb]. f_equal. lengths.
  - rewrite (psize_pre _ _ _ Hp), decide_True by lengths. cbn [Z.eqb Pos.eqb].
    replace (S (length pre)) with (length pre + 1)%nat by lia. rewrite (at_pre _ _ _ 1 Hp). unfold byte_at. cbn [nth].
    f_equal; [by destruct neg, k|lengths].
Qed.

Lemma print_class_head c post : class_wf c -> no_quant (print_class c ++ post).
Proof.
  intros Hc. unfold no_quant. destruct c as [neg rs|ch|ch| |neg k]; cbn; repeat constructor; try done.
  all: destruct Hc as [_ Hc]; cbn in Hc; rewrite !Forall_cons in Hc; tauto.
Qed.

Lemma print_class_length c : (0 < length (print_class c))%nat.
Proof. by destruct c; cbn; lia. Qed.

Lemma print_expr_head items : Forall item_wf items -> no_quant (print_expr items).
Proof.
  intros [|it items' [H _] _]; [cbn; repeat constructor; done|].
  change (print_expr (it :: items')) with ((print_class (it_class it) ++ print_quant (it_quant it)) ++ print_expr items').
  rewrite <- app_assoc. by apply print_class_head.
Qed.

(** A quantifier of no repetition is written with braces. *)
Lemma zero_bounds_brace pattern pre q post :
  quant_wf q -> pattern = (pre ++ print_quant q) ++ post -> bounds_of q = (0, 0) ->
  byte_at pattern (length (pre ++ print_quant q) - 1) = 125.
Proof.
  intros Hq Hp Hb.
  assert (He : exists p, print_quant q = p ++ [125]).
  { destruct q; try discriminate; cbn; [exists (123 :: print_digits ds)|exists (123 :: print_digits ds1 ++ 44 :: print_digits ds2)];
      by app_simpl. }
  destruct He as [p He]. rewrite He in *.
  replace (length (pre ++ p ++ [125%Z]) - 1)%nat with (length (pre ++ p) + 0)%nat by lengths.
  rewrite (at_pre pattern (pre ++ p) (125 :: post)); [done|]. rewrite Hp. same_list.
Qed.

Lemma compile_loop_printed pattern items pre acc fuel :
  Forall item_wf items -> (length items < fuel)%nat -> pattern = pre ++ print_expr items ->
  compile_loop pattern fuel (length pre) acc = FastAtoms (acc ++ map atom_of items).
Proof.
  intros Hi. revert pre acc fuel. induction Hi as [|it items [Hc Hq] Hi IH]; intros pre acc fuel Hf Hp;
    (destruct fuel as [|fuel]; [cbn in Hf; lia|]); cbn [compile_loop].
  - rewrite decide_False; [by rewrite app_nil_r|]. rewrite Hp. unfold psize, print_expr; cbn [map concat]; lengths.
  - assert (Hp1 : pattern = pre ++ print_class (it_class it) ++ print_quant (it_quant it) ++ print_expr items).
    { rewrite Hp. unfold print_expr. cbn. unfold print_item. same_list. }
    rewrite decide_True by (rewrite (psize_pre _ _ _ Hp1); pose proof (print_class_length (it_class it)); lengths).
    rewrite (parse_class_printed pattern pre (it_class it) _ Hc Hp1).
    set (pre1 := pre ++ print_class (it_class it)).
    assert (Hp2 : pattern = pre1 ++ print_quant (it_quant it) ++ print_expr items) by (rewrite Hp1; unfold pre1; same_list).
    rewrite (ParseQuantifier_printed pattern pre1 (it_quant it) _ Hq (print_expr_head _ Hi) Hp2).
    destruct (bounds_of (it_quant it)) as [mn mx] eqn:Eb.
    assert (Hbrace : (mn =? 0) && (mx =? 0)
      && negb (byte_at pattern (length (pre1 ++ print_quant (it_quant it)) - 1) =? 125) = false).
    { destruct (Z.eqb_spec mn 0) as [->|]; [|done]. destruct (Z.eqb_spec mx 0) as [->|]; [|done].
      rewrite (zero_bounds_brace pattern pre1 (it_quant it) (print_expr items)); [done|done| |done].
      rewrite Hp2. same_list. }
    rewrite Hbrace, IH; [|cbn in Hf; lia|rewrite Hp2; same_list].
    cbn [map]. unfold atom_of at 2. rewrite Eb. cbn [fst snd]. by app_simpl.
Qed.

Lemma TryCompileFast_printed items :
  Forall item_wf items -> TryCompileFast (print_expr items) = FastAtoms (map atom_of items).
Proof.
  intros Hi. unfold TryCompileFast. rewrite (compile_loop_printed _ items [] []); try done.
  unfold psize, print_expr. clear Hi. induction items as [|it items IH]; cbn; [lia|].
  unfold print_item in *. rewrite !length_app. pose proof (print_class_length (it_class it)). lia.
Qed.

(** ** The atoms of an expression have its language *)

Lemma in_range_spec ch a b :
  byte_ok ch -> ascii a -> ascii b -> in_range ch (MkRange a b) = true <-> a <= ch <= b.
Proof.
  unfold byte_ok, ascii, in_range, schar. cbn. intros Hch Ha Hb. rewrite andb_true_iff, !Z.leb_le.
  ztest; lia.
Qed.

Lemma xorb_unless neg b (P : Prop) : (b = true <-> P) -> xorb neg b = true <-> unless neg P.
Proof. destruct neg, b; cbn; intuition congruence. Qed.

Lemma class_has_spec c ch : class_wf c -> byte_ok ch -> contains (class_of c) ch = true <-> class_has c ch.
Proof.
  intros Hc Hch. unfold contains. destruct c as [neg rs|c|c| |neg k]; cbn [class_of negated ranges class_has].
  - apply xorb_unless. cbn in Hc. induction Hc as [|r rs (H1 & H2 & _) Hc IH]; cbn.
    + rewrite Exists_nil. done.
    + rewrite orb_true_iff, IH, Exists_cons, in_range_spec by done. done.
  - destruct Hc as [Hc _]. cbn. rewrite orb_false_r. rewrite <- (xorb_false_l (in_range _ _)) at 1.
    rewrite xorb_false_l, in_range_spec by done. lia.
  - destruct Hc as [Hc _]. cbn. rewrite orb_false_r, in_range_spec by done. lia.
  - cbn.
    pose proof (in_range_spec ch 10 10 Hch ltac:(unfold ascii; lia) ltac:(unfold ascii; lia)).
    pose proof (in_range_spec ch 13 13 Hch ltac:(unfold ascii; lia) ltac:(unfold ascii; lia)).
    destruct (in_range ch (MkRange 10 10)), (in_range ch (MkRange 13 13)); cbn; intuition lia.
  - apply xorb_unless.
    assert (H : forall a b, 0 <= a < 128 -> 0 <= b < 128 -> in_range ch (MkRange a b) = true <-> a <= ch <= b)
      by (intros; by apply in_range_spec).
    destruct k; unfold digit_range, word_ranges, space_ranges; cbn [existsb in_shorthand];
      rewrite ?orb_true_iff, !H by lia; intuition lia.
Qed.

Lemma quant_has_spec q u :
  0 <= u < 2 ^ 32 -> fst (bounds_of q) <= u <= snd (bounds_of q) <-> quant_has q u.
Proof. intros Hu. unfold UINT32_MAX. destruct q; cbn; unfold UINT32_MAX; lia. Qed.

Lemma atoms_match_expr items l :
  Forall item_wf items -> bytes_ok l -> zlen l < 2 ^ 32 ->
  atoms_match (map atom_of items) l <-> expr_match items l.
Proof.
  intros Hi. revert l. induction Hi as [|it items [Hc Hq] Hi IH]; intros l Hl Hlen; cbn [map atoms_match expr_match]; [done|].
  unfold zlen in *. split.
  - intros (u & (Hu & Hb & Hf) & Hm). exists (take u l), (drop u l).
    split; [by rewrite take_drop|]. rewrite length_take, Nat.min_l by done.
    split; [apply quant_has_spec; [lia|done]|]. split.
    + apply Forall_take with (n := u) in Hl. revert Hl Hf. rewrite !Forall_forall. intros Hl Hf ch Hch.
      apply class_has_spec; auto.
    + apply IH; [by apply Forall_drop|rewrite length_drop; lia|done].
  - intros (a & b & -> & Hqa & Hca & Hm). apply Forall_app in Hl as [Hla Hlb]. rewrite length_app in Hlen.
    exists (length a). rewrite drop_app_length. split; [|apply IH; [done|lia|done]].
    unfold atom_takes. rewrite take_app_length, length_app. split; [lia|]. split.
    + apply quant_has_spec; [lia|done].
    + revert Hla Hca. rewrite !Forall_forall. intros Hla Hca ch Hch. apply class_has_spec; auto.
Qed.

Lemma atoms_of_ok items : Forall item_wf items -> Forall atom_ok (map atom_of items).
Proof.
  intros Hi. apply Forall_map. eapply Forall_impl; [exact Hi|]. intros it [_ Hq]. unfold atom_ok, atom_of, UINT32_MAX. cbn.
  assert (Hn : forall ds, digits_wf ds -> 0 <= number ds) by (intros ds (_ & H & _); by apply number_ge).
  destruct (it_quant it); cbn in *; unfold UINT32_MAX; try lia; [apply Hn in Hq; lia..|].
  destruct Hq as (H1 & H2 & _). apply Hn in H1, H2. lia.
Qed.

Lemma print_expr_nonempty items : items <> [] -> length (print_expr items) <> 0%nat.
Proof.
  destruct items as [|it items]; [done|]. intros _. unfold print_expr. cbn. unfold print_item.
  pose proof (print_class_length (it_class it)). rewrite !length_app. lia.
Qed.


(** [[0-9]{2,4}-\w+]: backtracking is needed on [2024x], whose last letter the second item takes. *)
Definition sample_items : list Item :=
  [MkItem (CRanges false [(48, 57)]) (Between [2] [4]); MkItem (CChar 45) ZeroOrOne;
   MkItem (CShort false Word) OneOrMore].


(** ** What falls outside: invalid patterns that compile, constructs taken for literals *)

(** A range or bounds in the wrong order: no exception, and no value is accepted. *)
Lemma disordered_patterns_compile :
  (exists c, RouteConstraint_new (fun _ => None) (str "[z-a]") = Some c
     /\ constraint_matches (fun _ => None) c (str "m") = false)
  /\ exists c, RouteConstraint_new (fun _ => None) (str "a{3,2}") = Some c
     /\ constraint_matches (fun _ => None) c (str "aa") = false
     /\ constraint_matches (fun _ => None) c (str "aaa") = false.
Proof. split; eexists; repeat split; by vm_compute. Qed.

(** A lazy quantifier is read as a quantifier and a literal question mark. *)
Lemma lazy_quantifier_literal :
  exists c, RouteConstraint_new (fun _ => None) (str "[0-9]+?") = Some c
    /\ constraint_matches (fun _ => None) c (str "12") = false
    /\ constraint_matches (fun _ => None) c (str "12?") = true.
Proof. eexists. split; [by vm_compute|]. split; by vm_compute. Qed.

(** A back reference or a control escape is read as the letter after the backslash. *)
Lemma escape_literal :
  exists c, RouteConstraint_new (fun _ => None) (str "a\tb") = Some c
    /\ constraint_matches (fun _ => None) c [97; 9; 98] = false
    /\ constraint_matches (fun _ => None) c (str "atb") = true.
Proof. eexists. split; [by vm_compute|]. split; by vm_compute. Qed.
