(* ===== verification/Cors.v ===== *)
(** Cross-origin policies (http/src/cors-policy.cpp): the builder, and the decision taken on a
    request or on a preflight.  A [DynamicConcatenatedStrings] is the list of its parts. *)
From Stdlib Require Import ZArith List Lia Bool String.
From stdpp Require Import base list decidable.
From S2P Require Import Prelude.
From S2P Require Import AsciiCase.
From S2P Require Import HeadersView.
From S2P Require Import Http1Request.
Local Open Scope Z_scope.

(** ** Methods as bits *)

Definition kNbMethods : nat := 9.

Definition MethodToIdx (m : Method) : nat :=
  match m with
  | GET => 0 | HEAD => 1 | POST => 2 | PUT => 3 | DELETE => 4 | CONNECT => 5 | OPTIONS => 6
  | TRACE => 7 | PATCH => 8
  end%nat.

Definition method_bmp (m : Method) : Z := Z.shiftl 1 (Z.of_nat (MethodToIdx m)).
Definition IsMethodSet (mask : Z) (m : Method) : bool := negb (Z.land mask (method_bmp m) =? 0).
Definition IsMethodIdxSet (mask : Z) (methodIdx : nat) : bool :=
  negb (Z.land mask (Z.shiftl 1 (Z.of_nat methodIdx)) =? 0).
Definition MethodBmpFromIdx (methodIdx : nat) : Z := u16 (Z.shiftl 1 (Z.of_nat methodIdx)).
Definition all_methods : list Method := [GET; HEAD; POST; PUT; DELETE; CONNECT; OPTIONS; TRACE; PATCH].

(** ** Lists of strings *)

(** The position of the first occurrence of [needle]. *)
Fixpoint find_sub (needle hay : bytes) : option nat :=
  if bool_decide (needle `prefix_of` hay) then Some 0%nat
  else match hay with [] => None | _ :: hay => option_map S (find_sub needle hay) end.

(** [append], [None] when it throws. *)
Definition append_part (sep part : bytes) (l : list bytes) : option (list bytes) :=
  match find_sub sep part with Some _ => None | None => Some (l ++ [part]) end.

Definition contains_part (part : bytes) (l : list bytes) : bool := bool_decide (part ∈ l).
Definition containsCI (part : bytes) (l : list bytes) : bool :=
  existsb (fun p => CaseInsensitiveEqual p part) l.

Fixpoint fullString (sep : bytes) (l : list bytes) : bytes :=
  match l with [] => [] | [p] => p | p :: l => p ++ sep ++ fullString sep l end.

Definition kNullCharSep : bytes := [0].
Definition kHeaderValueSep : bytes := [44; 32].

(** ** The policy *)

Inductive OriginMode := AnyOrigin | Enumerated.

#[export] Instance OriginMode_eq_dec : EqDecision OriginMode.
Proof. solve_decision. Defined.

Record CorsPolicy := MkCors {
  cp_allowedOrigins : list bytes;
  cp_allowedRequestHeaders : list bytes;
  cp_exposedHeaders : list bytes;
  cp_maxAge : Z;
  cp_allowedMethods : Z;
  cp_originMode : OriginMode;
  cp_allowCredentials : bool;
  cp_allowPrivateNetwork : bool;
  cp_active : bool
}.

Definition CorsPolicy_default : CorsPolicy :=
  MkCors [] [] [] (-1) (Z.lor (Z.lor (method_bmp GET) (method_bmp HEAD)) (method_bmp POST)) AnyOrigin false false false.

Definition allowAnyOrigin (p : CorsPolicy) : CorsPolicy :=
  let 'MkCors o h e a m mode c n _ := p in MkCors [] h e a m AnyOrigin c n true.

(** The builders that append may throw; the policy changes before they do. *)
Definition allowOrigin (origin : bytes) (p : CorsPolicy) : CorsPolicy * bool :=
  let 'MkCors o h e a m _ c n _ := p in
  let p o := MkCors o h e a m Enumerated c n true in
  let origin := TrimOws origin in
  if negb (Nat.eqb (length origin) 0) && negb (containsCI origin o) then
    match append_part kNullCharSep origin o with Some o => (p o, false) | None => (p o, true) end
  else (p o, false).

Definition allowCredentials (enable : bool) (p : CorsPolicy) : CorsPolicy :=
  let 'MkCors o h e a m mode _ n _ := p in MkCors o h e a m mode enable n true.
Definition allowMethods (methods : Z) (p : CorsPolicy) : CorsPolicy :=
  let 'MkCors o h e a _ mode c n _ := p in MkCors o h e a methods mode c n true.
Definition allowAnyRequestHeaders (p : CorsPolicy) : CorsPolicy :=
  let 'MkCors o _ e a m mode c n _ := p in MkCors o [[42]] e a m mode c n true.
Definition allowRequestHeader (header : bytes) (p : CorsPolicy) : CorsPolicy * bool :=
  let 'MkCors o h e a m mode c n _ := p in
  let p h := MkCors o h e a m mode c n true in
  let header := TrimOws header in
  if negb (Nat.eqb (length header) 0) && negb (contains_part header h) then
    match append_part kHeaderValueSep header h with Some h => (p h, false) | None => (p h, true) end
  else (p h, false).
Definition exposeHeader (header : bytes) (p : CorsPolicy) : CorsPolicy * bool :=
  let 'MkCors o h e a m mode c n _ := p in
  let p e := MkCors o h e a m mode c n true in
  let header := TrimOws header in
  if negb (Nat.eqb (length header) 0) && negb (contains_part header e) then
    match append_part kHeaderValueSep header e with Some e => (p e, false) | None => (p e, true) end
  else (p e, false).
(** [None] is [invalid_argument]. *)
Definition maxAge (age : Z) (p : CorsPolicy) : option CorsPolicy :=
  let 'MkCors o h e _ m mode c n _ := p in
  if age <? 0 then None else Some (MkCors o h e age m mode c n true).
Definition allowPrivateNetwork (enable : bool) (p : CorsPolicy) : CorsPolicy :=
  let 'MkCors o h e a m mode c _ _ := p in MkCors o h e a m mode c enable true.

(** ** Requests *)

Record CorsRequest := MkCorsRequest { cr_method : Method; cr_headers : list (bytes * bytes) }.

Definition headerValue (r : CorsRequest) (key : bytes) : option bytes :=
  option_map snd (List.find (fun h => CaseInsensitiveEqual (fst h) key) (cr_headers r)).
Definition headerValueOrEmpty (r : CorsRequest) (key : bytes) : bytes := default [] (headerValue r key).

Definition Origin : bytes := str "origin".
Definition AccessControlRequestMethod : bytes := str "access-control-request-method".
Definition AccessControlRequestHeaders : bytes := str "access-control-request-headers".

Definition isPreflightRequest (r : CorsRequest) : bool :=
  bool_decide (cr_method r = OPTIONS)
  && negb (Nat.eqb (length (headerValueOrEmpty r Origin)) 0)
  && match headerValue r AccessControlRequestMethod with Some _ => true | None => false end.

Definition originAllowed (p : CorsPolicy) (origin : bytes) : bool :=
  bool_decide (cp_originMode p = AnyOrigin) || containsCI origin (cp_allowedOrigins p).

Inductive ApplyStatus := NotCors | Applied | OriginDenied.

Definition wouldApply (p : CorsPolicy) (r : CorsRequest) : ApplyStatus :=
  if negb (cp_active p) || isPreflightRequest r then NotCors
  else
    let origin := headerValueOrEmpty r Origin in
    if Nat.eqb (length origin) 0 then NotCors
    else if negb (originAllowed p origin) then OriginDenied
    else Applied.

Definition effectiveAllowedMethods (p : CorsPolicy) (routeMethods : Z) : Z :=
  Z.land (cp_allowedMethods p) routeMethods.

Definition methodAllowed (p : CorsPolicy) (methodToken : bytes) (routeMethods : Z) : bool :=
  let effectiveMask := effectiveAllowedMethods p routeMethods in
  if effectiveMask =? 0 then false
  else match MethodStrToOptEnum methodToken with Some m => IsMethodSet effectiveMask m | None => false end.

Fixpoint memchr_pos (c : Z) (l : bytes) : option nat :=
  match l with [] => None | x :: l => if x =? c then Some 0%nat else option_map S (memchr_pos c l) end.

(** The next element of a comma separated list, and what is left. *)
Definition NextCsvToken (csv : bytes) : bytes * bytes :=
  match memchr_pos 44 csv with
  | None => (TrimOws csv, [])
  | Some commaPos => (TrimOws (take commaPos csv), drop (S commaPos) csv)
  end.

Fixpoint request_headers_loop (fuel : nat) (p : CorsPolicy) (headerList : bytes) : bool :=
  match fuel with
  | O => true
  | S fuel =>
      let '(token, headerList) := NextCsvToken headerList in
      if negb (Nat.eqb (length token) 0) && negb (contains_part token (cp_allowedRequestHeaders p)) then false
      else if Nat.eqb (length headerList) 0 then true else request_headers_loop fuel p headerList
  end.

Definition requestHeadersAllowed (p : CorsPolicy) (headerList : bytes) : bool :=
  if bool_decide (fullString kHeaderValueSep (cp_allowedRequestHeaders p) = [42]) then true
  else if Nat.eqb (length (cp_allowedRequestHeaders p)) 0 then false
  else request_headers_loop (S (length headerList)) p headerList.

Inductive PreflightStatus := NotPreflight | Allowed | PreflightOriginDenied | MethodDenied | HeadersDenied.

(** [handlePreflight] up to the status. *)
Definition handlePreflight (p : CorsPolicy) (r : CorsRequest) (routeMethods : Z) : PreflightStatus :=
  if negb (cp_active p) || negb (isPreflightRequest r) then NotPreflight
  else if negb (originAllowed p (headerValueOrEmpty r Origin)) then PreflightOriginDenied
  else
    let effectiveMethods := effectiveAllowedMethods p routeMethods in
    if negb (methodAllowed p (headerValueOrEmpty r AccessControlRequestMethod) effectiveMethods)
    then MethodDenied
    else
      match headerValue r AccessControlRequestHeaders with
      | Some requestedHeaders =>
          let requestedHeaders := TrimOws requestedHeaders in
          if negb (Nat.eqb (length requestedHeaders) 0) && negb (requestHeadersAllowed p requestedHeaders)
          then HeadersDenied else Allowed
      | None => Allowed
      end.

(** ** The decision, as the fetch standard states it *)

(** The nonempty elements of a comma separated list. *)
Fixpoint csv_split (fuel : nat) (l : bytes) : list bytes :=
  match fuel with
  | O => []
  | S fuel => let '(token, rest) := NextCsvToken l in
              (if Nat.eqb (length token) 0 then [] else [token])
              ++ (if Nat.eqb (length rest) 0 then [] else csv_split fuel rest)
  end.
Definition csv_tokens (l : bytes) : list bytes := csv_split (S (length l)) l.

Lemma request_headers_loop_spec fuel p l :
  request_headers_loop fuel p l = forallb (fun t => contains_part t (cp_allowedRequestHeaders p)) (csv_split fuel l).
Proof.
  revert l. induction fuel as [|fuel IH]; intros l; [done|]. cbn [request_headers_loop csv_split].
  destruct (NextCsvToken l) as [token rest]. rewrite forallb_app.
  destruct (Nat.eqb (length token) 0); cbn [negb andb forallb]; [|rewrite andb_true_r; destruct (contains_part _ _); [|done]];
    cbn [negb andb]; (destruct (Nat.eqb (length rest) 0); [done|apply IH]).
Qed.

(** A browser lower-cases the names it asks for; the policy compares them as written. *)
Lemma request_header_case_sensitive :
  exists p r, p = fst (allowRequestHeader (str "Content-Type") (allowAnyOrigin CorsPolicy_default))
    /\ headerValue r AccessControlRequestHeaders = Some (str "content-type")
    /\ handlePreflight p r 511 = HeadersDenied.
Proof.
  eexists _, (MkCorsRequest OPTIONS [(str "Origin", str "https://a"); (str "Access-Control-Request-Method", str "POST");
    (str "Access-Control-Request-Headers", str "content-type")]).
  split; [reflexivity|]. split; by vm_compute.
Qed.
