(* ===== verification/PathHandlerEntry.v ===== *)
(** The handlers of a route (http/src/path-handler-entry.cpp): one storage cell per method, read
    with the type the three method bitmaps say.  The invariant is that a bitmap never lies about
    the type of a cell. *)
From Stdlib Require Import ZArith List Lia Bool String.
From stdpp Require Import base list decidable.
From S2P Require Import Prelude.
From S2P Require Import Http1Request.
From S2P Require Import Cors.
Local Open Scope Z_scope.

(** The callables and other values a server registers. *)
Class Callables := {
  RequestHandler : Type; StreamingHandler : Type; AsyncRequestHandler : Type;
  WebSocketEndpoint : Type; RequestMiddleware : Type; ResponseMiddleware : Type
}.

Inductive Http2Enable := H2Default | H2Enable | H2Disable.

Record PathEntryConfig := MkPathConfig {
  http2Enable : Http2Enable; maxHeaderBytes : Z; maxBodyBytes : Z; requestTimeout : Z
}.
Definition PathEntryConfig_default : PathEntryConfig :=
  MkPathConfig H2Default (2 ^ 32 - 1) (2 ^ 64 - 1) (2 ^ 63 - 1).

Section Entry.
Context `{Callables}.

(** A storage cell: raw bytes until a handler of some type is constructed in it. *)
Inductive HandlerStorage :=
| Raw
| NormalCell (h : RequestHandler)
| StreamingCell (h : StreamingHandler)
| AsyncCell (h : AsyncRequestHandler).

Record PathHandlerEntry := MkEntry {
  normalMethodBmp : Z; streamingMethodBmp : Z; asyncMethodBmp : Z;
  handlers : list HandlerStorage;
  websocketEndpoint : option WebSocketEndpoint;
  corsPolicy : CorsPolicy;
  preMiddleware : list RequestMiddleware; postMiddleware : list ResponseMiddleware;
  pathConfig : PathEntryConfig
}.

Definition PathHandlerEntry_new : PathHandlerEntry :=
  MkEntry 0 0 0 (replicate kNbMethods Raw) None CorsPolicy_default [] [] PathEntryConfig_default.

Definition set_cell (methodIdx : nat) (cell : HandlerStorage) (e : PathHandlerEntry) : PathHandlerEntry :=
  let 'MkEntry n s a h w c pre post cfg := e in MkEntry n s a (<[methodIdx := cell]> h) w c pre post cfg.

Definition hasNormalHandler (e : PathHandlerEntry) (i : nat) : bool := IsMethodIdxSet (normalMethodBmp e) i.
Definition hasStreamingHandler (e : PathHandlerEntry) (i : nat) : bool := IsMethodIdxSet (streamingMethodBmp e) i.
Definition hasAsyncHandler (e : PathHandlerEntry) (i : nat) : bool := IsMethodIdxSet (asyncMethodBmp e) i.
Definition hasWebSocketEndpoint (e : PathHandlerEntry) : bool :=
  match websocketEndpoint e with Some _ => true | None => false end.

Definition hasAnyHandler (e : PathHandlerEntry) : bool :=
  negb (normalMethodBmp e =? 0) || negb (streamingMethodBmp e =? 0) || negb (asyncMethodBmp e =? 0)
  || hasWebSocketEndpoint e.

(** The cell read as a handler of the type asked; [None] would be a cell of another type. *)
Definition requestHandlerPtr (e : PathHandlerEntry) (i : nat) : option RequestHandler :=
  match handlers e !! i with Some (NormalCell h) => Some h | _ => None end.
Definition streamingHandlerPtr (e : PathHandlerEntry) (i : nat) : option StreamingHandler :=
  match handlers e !! i with Some (StreamingCell h) => Some h | _ => None end.
Definition asyncHandlerPtr (e : PathHandlerEntry) (i : nat) : option AsyncRequestHandler :=
  match handlers e !! i with Some (AsyncCell h) => Some h | _ => None end.

(** *** Assignment: a loop over the methods, which throws [logic_error] on the first one that has
    a handler of another type; the methods before it are assigned.  The flag says it threw. *)
Section Assign.
Variables (own : PathHandlerEntry -> Z) (others : PathHandlerEntry -> Z)
  (add_own : Z -> PathHandlerEntry -> PathHandlerEntry) (cell : HandlerStorage).

Fixpoint assign_loop (methods : list nat) (methodBmp : Z) (e : PathHandlerEntry) : PathHandlerEntry * bool :=
  match methods with
  | [] => (e, false)
  | methodIdx :: methods =>
      if negb (IsMethodIdxSet methodBmp methodIdx) then assign_loop methods methodBmp e
      else
        let localMethodBmp := MethodBmpFromIdx methodIdx in
        if negb (Z.land localMethodBmp (own e) =? 0) then
          assign_loop methods methodBmp (set_cell methodIdx cell e)
        else if negb (Z.land localMethodBmp (others e) =? 0) then (e, true)
        else assign_loop methods methodBmp (set_cell methodIdx cell (add_own localMethodBmp e))
  end.
End Assign.

Definition add_normal (b : Z) (e : PathHandlerEntry) : PathHandlerEntry :=
  let 'MkEntry n s a h w c pre post cfg := e in MkEntry (Z.lor n b) s a h w c pre post cfg.
Definition add_streaming (b : Z) (e : PathHandlerEntry) : PathHandlerEntry :=
  let 'MkEntry n s a h w c pre post cfg := e in MkEntry n (Z.lor s b) a h w c pre post cfg.
Definition add_async (b : Z) (e : PathHandlerEntry) : PathHandlerEntry :=
  let 'MkEntry n s a h w c pre post cfg := e in MkEntry n s (Z.lor a b) h w c pre post cfg.

Definition assignNormalHandler (methodBmp : Z) (handler : RequestHandler) (e : PathHandlerEntry) :=
  assign_loop normalMethodBmp (fun e => Z.lor (streamingMethodBmp e) (asyncMethodBmp e)) add_normal
    (NormalCell handler) (seq 0 kNbMethods) methodBmp e.

Definition assignAsyncHandler (methodBmp : Z) (handler : AsyncRequestHandler) (e : PathHandlerEntry) :=
  assign_loop asyncMethodBmp (fun e => Z.lor (normalMethodBmp e) (streamingMethodBmp e)) add_async
    (AsyncCell handler) (seq 0 kNbMethods) methodBmp e.

Definition assignStreamingHandler (methodBmp : Z) (handler : StreamingHandler) (e : PathHandlerEntry) :=
  assign_loop streamingMethodBmp (fun e => Z.lor (normalMethodBmp e) (asyncMethodBmp e)) add_streaming
    (StreamingCell handler) (seq 0 kNbMethods) methodBmp e.

Definition assignWebSocketEndpoint (endpoint : WebSocketEndpoint) (e : PathHandlerEntry) : PathHandlerEntry :=
  let 'MkEntry n s a h _ c pre post cfg := e in MkEntry n s a h (Some endpoint) c pre post cfg.

Definition entry_cors (policy : CorsPolicy) (e : PathHandlerEntry) : PathHandlerEntry :=
  let 'MkEntry n s a h w _ pre post cfg := e in MkEntry n s a h w policy pre post cfg.
Definition entry_before (mw : RequestMiddleware) (e : PathHandlerEntry) : PathHandlerEntry :=
  let 'MkEntry n s a h w c pre post cfg := e in MkEntry n s a h w c (pre ++ [mw]) post cfg.
Definition entry_after (mw : ResponseMiddleware) (e : PathHandlerEntry) : PathHandlerEntry :=
  let 'MkEntry n s a h w c pre post cfg := e in MkEntry n s a h w c pre (post ++ [mw]) cfg.
End Entry.
