(* ===== verification/PathHandlerEntryProofs.v ===== *)
(** The invariant of the handlers of a route: for every method at most one of the three bitmaps
    has its bit, and it tells the type of the storage cell; every cell was assigned. *)
From Stdlib Require Import ZArith List Lia Bool String.
From stdpp Require Import base list decidable.
From S2P Require Import Prelude.
From S2P Require Import Http1Request.
From S2P Require Import Cors.
From S2P Require Import PathHandlerEntry.
Local Open Scope Z_scope.

(** ** Method bitmaps *)

Lemma IsMethodIdxSet_testbit mask i : IsMethodIdxSet mask i = Z.testbit mask (Z.of_nat i).
Proof.
  unfold IsMethodIdxSet. rewrite Z.shiftl_1_l. destruct (Z.testbit mask (Z.of_nat i)) eqn:E.
  - apply negb_true_iff, Z.eqb_neq. intros H. apply (f_equal (fun z => Z.testbit z (Z.of_nat i))) in H.
    rewrite Z.land_spec, E, Z.pow2_bits_true, Z.bits_0 in H by lia. done.
  - apply negb_false_iff, Z.eqb_eq, Z.bits_inj'. intros j Hj. rewrite Z.land_spec, Z.bits_0, Z.pow2_bits_eqb by lia.
    destruct (Z.eqb_spec (Z.of_nat i) j) as [<-|]; [by rewrite E|apply andb_false_r].
Qed.

Lemma IsMethodIdxSet_lor a b i : IsMethodIdxSet (Z.lor a b) i = IsMethodIdxSet a i || IsMethodIdxSet b i.
Proof. rewrite !IsMethodIdxSet_testbit. apply Z.lor_spec. Qed.

Lemma MethodBmpFromIdx_pow i : (i < kNbMethods)%nat -> MethodBmpFromIdx i = Z.shiftl 1 (Z.of_nat i).
Proof. intros H. do 9 (destruct i as [|i]; [done|]). unfold kNbMethods in H. lia. Qed.

Lemma IsMethodIdxSet_one i j : (i < kNbMethods)%nat -> IsMethodIdxSet (MethodBmpFromIdx i) j = Nat.eqb i j.
Proof.
  intros Hi. rewrite MethodBmpFromIdx_pow, IsMethodIdxSet_testbit, Z.shiftl_1_l, Z.pow2_bits_eqb by lia.
  destruct (Nat.eqb_spec i j) as [->|]; [apply Z.eqb_refl|apply Z.eqb_neq; lia].
Qed.

Lemma land_method mask i :
  (i < kNbMethods)%nat -> negb (Z.land (MethodBmpFromIdx i) mask =? 0) = IsMethodIdxSet mask i.
Proof. intros Hi. unfold IsMethodIdxSet. by rewrite MethodBmpFromIdx_pow, Z.land_comm by done. Qed.

Lemma IsMethodSet_idx mask m : IsMethodSet mask m = IsMethodIdxSet mask (MethodToIdx m).
Proof. done. Qed.

Lemma MethodToIdx_lt m : (MethodToIdx m < kNbMethods)%nat.
Proof. destruct m; cbn; unfold kNbMethods; lia. Qed.

Inductive Kind := KNormal | KStreaming | KAsync.
#[export] Instance Kind_eq_dec : EqDecision Kind.
Proof. solve_decision. Defined.

Section Entry.
Context `{C : Callables}.

Definition cell_kind (c : HandlerStorage) : option Kind :=
  match c with Raw => None | NormalCell _ => Some KNormal | StreamingCell _ => Some KStreaming | AsyncCell _ => Some KAsync end.

Definition bmp (k : Kind) (e : PathHandlerEntry) : Z :=
  match k with KNormal => normalMethodBmp e | KStreaming => streamingMethodBmp e | KAsync => asyncMethodBmp e end.

(** [P] says which handlers were assigned to which method. *)
Definition entry_ok (P : nat -> HandlerStorage -> Prop) (e : PathHandlerEntry) : Prop :=
  length (handlers e) = kNbMethods
  /\ forall i, (i < kNbMethods)%nat -> exists c, handlers e !! i = Some c
       /\ (forall k, IsMethodIdxSet (bmp k e) i = bool_decide (cell_kind c = Some k)) /\ (c = Raw \/ P i c).

Lemma entry_ok_new P : entry_ok P PathHandlerEntry_new.
Proof.
  split; [done|]. intros i Hi. exists Raw. split; [by apply lookup_replicate|]. split; [|by left].
  intros k. rewrite IsMethodIdxSet_testbit. destruct k; cbn; by rewrite Z.bits_0.
Qed.

Lemma entry_ok_weaken (P1 P2 : nat -> HandlerStorage -> Prop) e :
  (forall i c, P1 i c -> P2 i c) -> entry_ok P1 e -> entry_ok P2 e.
Proof.
  intros HP [Hl H]. split; [done|]. intros i Hi. destruct (H i Hi) as (c & Hc & Hk & Hr). exists c.
  split; [done|]. split; [done|]. destruct Hr; [by left|right; by apply HP].
Qed.

Lemma set_cell_handlers i c e : handlers (set_cell i c e) = <[i := c]> (handlers e).
Proof. by destruct e. Qed.
Lemma set_cell_bmp i c e k : bmp k (set_cell i c e) = bmp k e.
Proof. by destruct e, k. Qed.

(** A cell assigned, once its bit says its kind. *)
Lemma set_cell_ok (P : nat -> HandlerStorage -> Prop) i c e e' :
  entry_ok P e -> (i < kNbMethods)%nat -> P i c -> handlers e' = handlers e ->
  (forall j k, IsMethodIdxSet (bmp k e') j
     = if Nat.eqb i j then bool_decide (cell_kind c = Some k) else IsMethodIdxSet (bmp k e) j) ->
  entry_ok P (set_cell i c e').
Proof.
  intros [Hl H] Hi HP Hh Hb. split; [by rewrite set_cell_handlers, Hh, length_insert|]. intros j Hj.
  rewrite set_cell_handlers, Hh. destruct (decide (i = j)) as [<-|Hij].
  - exists c. split; [apply list_lookup_insert_eq; lia|]. split; [|by right].
    intros k. by rewrite set_cell_bmp, Hb, Nat.eqb_refl.
  - destruct (H j Hj) as (cj & Hc & Hk & Hr). exists cj. split; [by rewrite list_lookup_insert_ne|].
    split; [|done]. intros k. rewrite set_cell_bmp, Hb, (proj2 (Nat.eqb_neq i j)) by done. apply Hk.
Qed.

(** ** The assignment loops *)

Section Assign.
Variables (kind : Kind) (cell : HandlerStorage) (own others : PathHandlerEntry -> Z)
  (add_own : Z -> PathHandlerEntry -> PathHandlerEntry).
Hypothesis cell_own : cell_kind cell = Some kind.
Hypothesis own_bmp : forall e, own e = bmp kind e.
Hypothesis others_bmp : forall e i, IsMethodIdxSet (others e) i = true <-> exists k, k <> kind /\ IsMethodIdxSet (bmp k e) i = true.
Hypothesis add_handlers : forall b e, handlers (add_own b e) = handlers e.
Hypothesis add_bmp : forall b e k, bmp k (add_own b e) = if decide (k = kind) then Z.lor (bmp k e) b else bmp k e.

Lemma assign_loop_ok (P : nat -> HandlerStorage -> Prop) methods methodBmp e :
  entry_ok P e -> Forall (fun i => i < kNbMethods)%nat methods ->
  entry_ok (fun i c => P i c \/ IsMethodIdxSet methodBmp i = true /\ c = cell)
    (fst (assign_loop own others add_own cell methods methodBmp e)).
Proof.
  intros He Hm. assert (He' : entry_ok (fun i c => P i c \/ IsMethodIdxSet methodBmp i = true /\ c = cell) e)
    by (eapply entry_ok_weaken; [|exact He]; by left). clear He. revert e He'.
  induction Hm as [|i methods Hi Hm IH]; intros e He; [done|]. cbn [assign_loop].
  destruct (IsMethodIdxSet methodBmp i) eqn:Eb; cbn [negb]; [|by apply IH].
  rewrite !(land_method _ i Hi), own_bmp. destruct (IsMethodIdxSet (bmp kind e) i) eqn:Eown.
  - apply IH, (set_cell_ok _ _ _ e); [done|done|by right|done|]. intros j k. destruct (Nat.eqb_spec i j) as [<-|]; [|done].
    destruct He as [_ He]. destruct (He i Hi) as (c & _ & Hk & _). rewrite Hk in *. apply bool_decide_eq_true in Eown.
    by rewrite Eown, cell_own.
  - destruct (IsMethodIdxSet (others e) i) eqn:Eo; [done|].
    apply IH, (set_cell_ok _ _ _ e); [done|done|by right|apply add_handlers|]. intros j k. rewrite add_bmp, cell_own.
    assert (Hne : k <> kind -> IsMethodIdxSet (bmp k e) i = false).
    { intros Hk. destruct (IsMethodIdxSet (bmp k e) i) eqn:E; [|done]. rewrite <- Eo. symmetry. apply others_bmp. by exists k. }
    destruct (decide (k = kind)) as [->|Hk].
    + rewrite IsMethodIdxSet_lor, IsMethodIdxSet_one by done.
      destruct (Nat.eqb i j); [by rewrite bool_decide_true, orb_true_r|apply orb_false_r].
    + destruct (Nat.eqb_spec i j) as [<-|]; [|done]. rewrite Hne, bool_decide_false by congruence. done.
Qed.

(** Without exception every method asked gets the cell. *)
Lemma assign_loop_assigns (P : nat -> HandlerStorage -> Prop) methods methodBmp e e' i :
  entry_ok P e -> NoDup methods -> Forall (fun i => i < kNbMethods)%nat methods ->
  assign_loop own others add_own cell methods methodBmp e = (e', false) ->
  (IsMethodIdxSet methodBmp i = true -> i ∈ methods -> handlers e' !! i = Some cell)
  /\ (i ∉ methods -> handlers e' !! i = handlers e !! i).
Proof using add_handlers.
  intros He Hnd Hm. assert (Hl : length (handlers e) = kNbMethods) by apply He. clear He. revert e Hl.
  induction Hm as [|j methods Hj Hm IH]; intros e Hl H; cbn [assign_loop] in H.
  { injection H as <-. split; [intros _ Hin; by apply elem_of_nil in Hin|done]. }
  apply NoDup_cons in Hnd as [Hnot Hnd]. specialize (IH Hnd).
  destruct (IsMethodIdxSet methodBmp j) eqn:Ej; cbn [negb] in H.
  2:{ destruct (IH e Hl H) as [H1 H2]. split.
      - intros Hi Hin. apply elem_of_cons in Hin as [->|Hin]; [congruence|by apply H1].
      - intros Hin. apply H2. by apply not_elem_of_cons in Hin as [_ Hin]. }
  assert (Hset : forall e0, handlers e0 = handlers e ->
    assign_loop own others add_own cell methods methodBmp (set_cell j cell e0) = (e', false) ->
    (IsMethodIdxSet methodBmp i = true -> i ∈ j :: methods -> handlers e' !! i = Some cell)
    /\ (i ∉ j :: methods -> handlers e' !! i = handlers e !! i)).
  { intros e0 E0 H0. destruct (IH (set_cell j cell e0)) as [H1 H2]; [by rewrite set_cell_handlers, E0, length_insert|done|].
    rewrite set_cell_handlers, E0 in H2. split.
    - intros Hi Hin. apply elem_of_cons in Hin as [->|Hin]; [|by apply H1].
      rewrite H2 by done. apply list_lookup_insert_eq. lia.
    - intros Hin. apply not_elem_of_cons in Hin as [Hij Hin]. rewrite H2 by done. by rewrite list_lookup_insert_ne. }
  destruct (negb (Z.land (MethodBmpFromIdx j) (own e) =? 0)); [by apply (Hset e)|].
  destruct (negb _); [done|]. eapply Hset; [apply add_handlers|exact H].
Qed.
End Assign.

Lemma all_methods_lt : Forall (fun i => i < kNbMethods)%nat (seq 0 kNbMethods).
Proof. apply Forall_forall. intros i Hi. apply elem_of_seq in Hi. lia. Qed.


Lemma assignNormalHandler_ok (P : nat -> HandlerStorage -> Prop) methods h e :
  entry_ok P e ->
  entry_ok (fun i c => P i c \/ IsMethodIdxSet methods i = true /\ c = NormalCell h) (fst (assignNormalHandler methods h e)).
Proof.
  intros He. apply (assign_loop_ok KNormal); try done; try apply all_methods_lt.
  - intros e' i. rewrite IsMethodIdxSet_lor, orb_true_iff. split.
    + intros [H|H]; [by exists KStreaming|by exists KAsync].
    + intros ([] & Hne & H); [done|by left|by right].
  - by intros b [].
  - by intros b [] [].
Qed.

Lemma assignStreamingHandler_ok (P : nat -> HandlerStorage -> Prop) methods h e :
  entry_ok P e ->
  entry_ok (fun i c => P i c \/ IsMethodIdxSet methods i = true /\ c = StreamingCell h) (fst (assignStreamingHandler methods h e)).
Proof.
  intros He. apply (assign_loop_ok KStreaming); try done; try apply all_methods_lt.
  - intros e' i. rewrite IsMethodIdxSet_lor, orb_true_iff. split.
    + intros [H|H]; [by exists KNormal|by exists KAsync].
    + intros ([] & Hne & H); [by left|done|by right].
  - by intros b [].
  - by intros b [] [].
Qed.

Lemma assignAsyncHandler_ok (P : nat -> HandlerStorage -> Prop) methods h e :
  entry_ok P e ->
  entry_ok (fun i c => P i c \/ IsMethodIdxSet methods i = true /\ c = AsyncCell h) (fst (assignAsyncHandler methods h e)).
Proof.
  intros He. apply (assign_loop_ok KAsync); try done; try apply all_methods_lt.
  - intros e' i. rewrite IsMethodIdxSet_lor, orb_true_iff. split.
    + intros [H|H]; [by exists KNormal|by exists KStreaming].
    + intros ([] & Hne & H); [by left|by right|done].
  - by intros b [].
  - by intros b [] [].
Qed.

Lemma assignWebSocketEndpoint_ok P w e : entry_ok P e -> entry_ok P (assignWebSocketEndpoint w e).
Proof.
  intros [Hl H]. destruct e. split; [done|]. intros i Hi. destruct (H i Hi) as (c & Hc & Hk & Hr). exists c.
  split; [done|]. split; [|done]. intros k. rewrite <- Hk. by destruct k.
Qed.

(** What the readers give. *)
Lemma read_cell P e i :
  entry_ok P e -> (i < kNbMethods)%nat ->
  (hasNormalHandler e i = true -> exists h, requestHandlerPtr e i = Some h /\ P i (NormalCell h))
  /\ (hasStreamingHandler e i = true -> exists h, streamingHandlerPtr e i = Some h /\ P i (StreamingCell h))
  /\ (hasAsyncHandler e i = true -> exists h, asyncHandlerPtr e i = Some h /\ P i (AsyncCell h)).
Proof.
  intros [_ H] Hi. destruct (H i Hi) as (c & Hc & Hk & Hr).
  unfold hasNormalHandler, hasStreamingHandler, hasAsyncHandler, requestHandlerPtr, streamingHandlerPtr, asyncHandlerPtr.
  rewrite Hc. pose proof (Hk KNormal) as H1. pose proof (Hk KStreaming) as H2. pose proof (Hk KAsync) as H3. cbn [bmp] in *.
  rewrite H1, H2, H3.
  repeat split; intros E; apply bool_decide_eq_true in E; destruct c; try done; eexists; (split; [done|]); by destruct Hr.
Qed.
End Entry.
