(* ===== verification/RoutePattern.v ===== *)
(** Route patterns (http/src/router.cpp): braces, escapes, wildcards, and the compilation of a
    pattern into its parameter names and constraints. *)
From Stdlib Require Import ZArith List Lia Bool String.
From stdpp Require Import base list decidable.
From S2P Require Import Prelude.
From S2P Require Import UrlCodec.
From S2P Require Import Cors.
From S2P Require Import RouteConstraint.
Local Open Scope Z_scope.

(** The value of a function that may throw. *)
Inductive Outcome (A : Type) := Ret (a : A) | Throw (what : string).
Arguments Ret {A}.
Arguments Throw {A}.

(** [sv.find(c, pos)]. *)
Definition find_char (c : Z) (l : bytes) (pos : nat) : option nat :=
  option_map (Nat.add pos) (memchr_pos c (drop pos l)).

Definition kEscapedOpenBrace : bytes := [123; 123].
Definition kEscapedCloseBrace : bytes := [125; 125].

(** [sv.compare(idx, size, s) == 0]. *)
Definition compare_at (l : bytes) (idx : nat) (s : bytes) : bool := bool_decide (s `prefix_of` drop idx l).

Definition substr (l : bytes) (pos n : nat) : bytes := take n (drop pos l).

Definition LongestCommonPrefix : bytes -> bytes -> nat :=
  fix lcp pathA pathB :=
    match pathA, pathB with
    | a :: pathA, b :: pathB => if a =? b then S (lcp pathA pathB) else 0%nat
    | _, _ => 0%nat
    end.

(** The brace that closes the one before [pos], counting the nested ones from [depth]. *)
Fixpoint matching_brace (fuel : nat) (l : bytes) (depth : Z) (pos : nat) : nat :=
  match fuel with
  | O => pos
  | S fuel =>
      if decide (pos < length l)%nat then
        if byte_at l pos =? 123 then matching_brace fuel l (depth + 1) (S pos)
        else if byte_at l pos =? 125 then
          if depth - 1 =? 0 then pos else matching_brace fuel l (depth - 1) (S pos)
        else matching_brace fuel l depth (S pos)
      else pos
  end.

Definition ExtractConstraintPattern (segPath : bytes) : bytes :=
  match find_char 58 segPath 0 with
  | None => []
  | Some colonPos =>
      let closePos := matching_brace (length segPath) segPath 1 1 in
      substr segPath (colonPos + 1) (closePos - colonPos - 1)
  end.

(** The first parameter segment, from its brace to its end, or the final [*]. *)
Fixpoint find_wildcard_loop (fuel : nat) (path : bytes) (pos : nat) : option (nat * nat) :=
  match fuel with
  | O => None
  | S fuel =>
      if decide (pos < length path - 1)%nat then
        if negb (byte_at path pos =? 123) then find_wildcard_loop fuel path (S pos)
        else if byte_at path (S pos) =? 123 then find_wildcard_loop fuel path (pos + 2)
        else Some (pos, default (length path) (find_char 47 path (pos + 1)))
      else None
  end.

Definition ends_with_slash_star (path : bytes) : bool :=
  match rev path with 42 :: 47 :: _ => true | _ => false end.

Definition FindWildcard (path : bytes) : option (nat * nat) :=
  match find_wildcard_loop (length path) path 0 with
  | Some w => Some w
  | None => if ends_with_slash_star path then Some (length path - 1, length path)%nat else None
  end.

(** [unescapeAndAllocate]. *)
Fixpoint unescape (input : bytes) : bytes :=
  match input with
  | [] => []
  | c :: rest =>
      match rest with
      | d :: rest' => if ((c =? 123) || (c =? 125)) && (d =? c) then c :: unescape rest' else c :: unescape rest
      | [] => [c]
      end
  end.

(** ** [ParsePattern] *)

Record Route := MkRoute {
  paramNames : list bytes; paramConstraints : list RouteConstraint; hasWildcard : bool;
  hasNoSlashRegistered : bool; hasWithSlashRegistered : bool
}.
Definition Route_empty : Route := MkRoute [] [] false false false.

Section Parse.
Variable std_regex : bytes -> option (bytes -> bool).

(** The scan from the opening brace: the closing brace when there is no constraint, and the colon. *)
Fixpoint scan_param (fuel : nat) (segment : bytes) (sp : nat) : option nat * option nat :=
  match fuel with
  | O => (None, None)
  | S fuel =>
      if decide (sp < length segment)%nat then
        if byte_at segment sp =? 58 then (None, Some sp)
        else if byte_at segment sp =? 125 then
          if bool_decide (sp + 1 < length segment)%nat && (byte_at segment (sp + 1) =? 125)
          then scan_param fuel segment (sp + 2)
          else (Some sp, None)
        else scan_param fuel segment (S sp)
      else (None, None)
  end.

(** The brace that closes the parameter opened at [idx]: with a constraint, by counting. *)
Definition close_brace (segment : bytes) (idx : nat) : option nat :=
  match scan_param (length segment) segment (S idx) with
  | (closePos, None) => closePos
  | (_, Some _) =>
      let p := matching_brace (length segment) segment 1 (S idx) in
      if decide (p < length segment)%nat then Some p else None
  end.

Record ParseState := MkParse {
  ps_route : Route; ps_sawNamed : bool; ps_sawUnnamed : bool; ps_paramIdx : Z
}.

(** One parameter: its name and its constraint go to the route. *)
Definition parse_param (paramContent : bytes) (st : ParseState) : Outcome ParseState :=
  let '(paramName, constraintPattern) :=
    match find_char 58 paramContent 0 with
    | Some colonPos => (take colonPos paramContent, drop (colonPos + 1) paramContent)
    | None => (paramContent, [])
    end in
  let 'MkParse (MkRoute names constraints w n s) named unnamed paramIdx := st in
  if existsb (Z.eqb 123) paramName then Throw "Invalid character in parameter name"
  else
    let with_name name named unnamed :=
      match append_part kNullCharSep name names with
      | None => Throw "DynamicConcatenatedStrings::append: part contains separator"
      | Some names =>
          match RouteConstraint_new std_regex constraintPattern with
          | None => Throw "regex_error"
          | Some c => Ret (MkParse (MkRoute names (constraints ++ [c]) w n s) named unnamed (u32 (paramIdx + 1)))
          end
      end in
    if Nat.eqb (length paramName) 0 then with_name (decimal paramIdx) named true
    else with_name paramName true unnamed.

Fixpoint parse_segment (fuel : nat) (segment : bytes) (idx : nat) (previousWasParam : bool)
    (st : ParseState) : Outcome ParseState :=
  match fuel with
  | O => Ret st
  | S fuel =>
      if decide (idx < length segment)%nat then
        if compare_at segment idx kEscapedOpenBrace then parse_segment fuel segment (idx + 2) false st
        else if compare_at segment idx kEscapedCloseBrace then
          parse_segment fuel segment (idx + 2) previousWasParam st
        else if negb (byte_at segment idx =? 123) then parse_segment fuel segment (S idx) false st
        else
          match close_brace segment idx with
          | None => Throw "Unterminated '{' in router pattern"
          | Some closePos =>
              if previousWasParam then Throw "Consecutive parameters without separator are not allowed"
              else
                match parse_param (substr segment (S idx) (closePos - idx - 1)) st with
                | Throw e => Throw e
                | Ret st => parse_segment fuel segment (S closePos) true st
                end
          end
      else Ret st
  end.

Fixpoint parse_segments (fuel : nat) (path : bytes) (pos : nat) (st : ParseState) : Outcome ParseState :=
  match fuel with
  | O => Ret st
  | S fuel =>
      if decide (pos < length path)%nat then
        let nextSlash := find_char 47 path pos in
        let segment := match nextSlash with None => drop pos path | Some e => substr path pos (e - pos) end in
        if Nat.eqb (length segment) 0 then Throw "Router path contains empty segment"
        else if bool_decide (segment = [42]) && match nextSlash with None => true | Some _ => false end then
          let 'MkParse (MkRoute names constraints _ n s) named unnamed idx := st in
          Ret (MkParse (MkRoute names constraints true n s) named unnamed idx)
        else
          match parse_segment (S (length segment)) segment 0 false st with
          | Throw e => Throw e
          | Ret st => match nextSlash with None => Ret st | Some e => parse_segments fuel path (S e) st end
          end
      else Ret st
  end.

Definition ParsePattern (path : bytes) : Outcome Route :=
  if negb (byte_at path 0 =? 47) then Throw "Router paths must begin with '/'"
  else
    match parse_segments (S (length path)) path 1 (MkParse Route_empty false false 0) with
    | Throw e => Throw e
    | Ret st =>
        if ps_sawNamed st && ps_sawUnnamed st
        then Throw "Cannot mix named and unnamed parameters in a single path pattern"
        else Ret (ps_route st)
    end.
End Parse.

(** ** The parts of a parameter segment *)

(** A literal, or a parameter when empty. *)
Abbreviation SegmentPart := bytes.
Definition is_param (part : SegmentPart) : bool := Nat.eqb (length part) 0.

(** [find_first_of(":}", pos)]. *)
Definition find_colon_or_close (l : bytes) (pos : nat) : option nat :=
  match find_char 58 l pos, find_char 125 l pos with
  | Some a, Some b => Some (Nat.min a b)
  | Some a, None => Some a
  | None, b => b
  end.

(** The unescaped closing brace from [closePos]; past the end when there is none. *)
Fixpoint unescaped_close (fuel : nat) (l : bytes) (closePos : nat) : nat :=
  match fuel with
  | O => closePos
  | S fuel =>
      if decide (closePos < length l)%nat then
        if byte_at l closePos =? 125 then
          if bool_decide (closePos + 1 < length l)%nat && (byte_at l (closePos + 1) =? 125)
          then unescaped_close fuel l (closePos + 2) else closePos
        else unescaped_close fuel l (S closePos)
      else closePos
  end.

(** The closing brace of the parameter at [idx]; [None] is an access past the end, which the code
    only excludes by an assertion. *)
Definition param_close (l : bytes) (idx : nat) : option nat :=
  match find_colon_or_close l (S idx) with
  | None => None
  | Some delimiterPos =>
      let closePos :=
        if byte_at l delimiterPos =? 58 then matching_brace (length l) l 1 (S idx)
        else unescaped_close (length l) l (S idx) in
      if decide (closePos < length l)%nat then Some closePos else None
  end.

Definition flush_literal (literal : bytes) (parts : list SegmentPart) : list SegmentPart :=
  if Nat.eqb (length literal) 0 then parts else parts ++ [literal].

(** The parts of the segment from [idx], the constraint of every parameter, taken from those of
    the route, and the next parameter of the route. *)
Fixpoint segment_parts (fuel : nat) (constraints : list RouteConstraint) (l : bytes) (idx : nat)
    (literal : bytes) (parts : list SegmentPart) (used : list RouteConstraint) (paramIdx : nat)
  : option (list SegmentPart * list RouteConstraint * nat) :=
  match fuel with
  | O => None
  | S fuel =>
      if decide (idx < length l)%nat then
        if compare_at l idx kEscapedOpenBrace then
          segment_parts fuel constraints l (idx + 2) (literal ++ [123]) parts used paramIdx
        else if compare_at l idx kEscapedCloseBrace then
          segment_parts fuel constraints l (idx + 2) (literal ++ [125]) parts used paramIdx
        else if negb (byte_at l idx =? 123) then
          segment_parts fuel constraints l (S idx) (literal ++ [byte_at l idx]) parts used paramIdx
        else
          match param_close l idx, constraints !! paramIdx with
          | Some closePos, Some c =>
              segment_parts fuel constraints l (S closePos) [] (flush_literal literal parts ++ [[]])
                (used ++ [c]) (S paramIdx)
          | _, _ => None
          end
      else Some (flush_literal literal parts, used, paramIdx)
  end.
