(* ===== verification/RoutePatternProofs.v ===== *)
(** What a route pattern means: its tokens, the parts and constraints of its parameter segments,
    and the paths that are instances of it; and that the parsers of the code agree with it on the
    patterns without doubled braces. *)
From Stdlib Require Import ZArith List Lia Bool String.
From stdpp Require Import base list decidable.
From S2P Require Import Prelude.
From S2P Require Import Cors.
From S2P Require Import RouteConstraint.
From S2P Require Import RoutePattern.
Local Open Scope Z_scope.

(** ** Searches *)

Lemma memchr_pos_Some c l k :
  memchr_pos c l = Some k ->
  exists a b, l = a ++ c :: b /\ length a = k /\ Forall (fun x => x <> c) a.
Proof.
  revert k. induction l as [|x l IH]; intros k; cbn; [done|].
  destruct (Z.eqb_spec x c) as [->|Hx].
  - intros [= <-]. by exists [], l.
  - destruct (memchr_pos c l) as [j|]; [|done]. intros [= <-]. destruct (IH j eq_refl) as (a & b & -> & <- & Ha).
    exists (x :: a), b. split; [done|]. split; [done|]. by constructor.
Qed.

Lemma memchr_pos_None c l : memchr_pos c l = None <-> Forall (fun x => x <> c) l.
Proof.
  induction l as [|x l IH]; cbn; [done|]. destruct (Z.eqb_spec x c) as [->|Hx].
  - split; [done|]. intros H. by apply Forall_cons in H as [H _].
  - rewrite Forall_cons, <- IH. destruct (memchr_pos c l); cbn; intuition congruence.
Qed.

Lemma memchr_pos_app c a b : Forall (fun x => x <> c) a -> memchr_pos c (a ++ c :: b) = Some (length a).
Proof.
  induction 1 as [|x a Hx Ha IH]; cbn; [by rewrite Z.eqb_refl|]. rewrite (proj2 (Z.eqb_neq x c) Hx). by rewrite IH.
Qed.

Lemma find_sub_Some needle hay k :
  find_sub needle hay = Some k -> (k <= length hay)%nat /\ needle `prefix_of` drop k hay.
Proof.
  revert k. induction hay as [|x hay IH]; intros k; cbn [find_sub].
  - destruct (bool_decide_reflect (needle `prefix_of` [])); [|done]. intros [= <-]. by split; [cbn; lia|].
  - destruct (bool_decide_reflect (needle `prefix_of` x :: hay)) as [Hp|Hp].
    + intros [= <-]. by split; [lia|].
    + destruct (find_sub needle hay) as [j|]; [|done]. intros [= <-]. destruct (IH j eq_refl). cbn. split; [lia|done].
Qed.

(** ** Tokens *)

Inductive Tok := TChar (c : Z) | TSeg (raw : bytes) | TAny.

(** The length of a segment. *)
Definition seg_len (l : bytes) : nat := default (length l) (memchr_pos 47 l).

Fixpoint tokens (fuel : nat) (l : bytes) : list Tok :=
  match fuel with
  | O => []
  | S fuel =>
      match l with
      | [] => []
      | c :: r =>
          if bool_decide (l = [47; 42]) then [TAny]
          else if c =? 123 then TSeg (take (seg_len l) l) :: tokens fuel (drop (seg_len l) l)
          else TChar c :: tokens fuel r
      end
  end.

Definition pattern_tokens (l : bytes) : list Tok := tokens (length l) l.

(** No doubled brace, so no escape. *)
Fixpoint no_escape (l : bytes) : Prop :=
  match l with
  | c :: ((d :: _) as r) => ~ (c = d /\ (c = 123 \/ c = 125)) /\ no_escape r
  | _ => True
  end.

(** No escape, and no [*] outside braces except as the last segment. *)
Definition plain_pattern (l : bytes) : Prop := no_escape l /\ TChar 42 ∉ pattern_tokens l.

#[export] Instance Tok_eq_dec : EqDecision Tok.
Proof. solve_decision. Defined.
#[export] Instance no_escape_dec l : Decision (no_escape l).
Proof. induction l as [|c [|d l] IH]; cbn; [left; done..|]. cbn in IH. apply _. Defined.
#[export] Instance plain_pattern_dec l : Decision (plain_pattern l).
Proof. unfold plain_pattern. apply _. Defined.

Lemma no_escape_cons c l : no_escape (c :: l) -> no_escape l.
Proof. destruct l; [done|]. cbn. by intros [_ H]. Qed.

Lemma no_escape_app a b : no_escape (a ++ b) -> no_escape a /\ no_escape b.
Proof.
  induction a as [|c a IH]; [done|]. intros H. pose proof (no_escape_cons _ _ H) as H2. apply IH in H2 as [Ha Hb].
  split; [|done]. destruct a as [|d a]; [done|]. cbn in *. tauto.
Qed.

Lemma no_escape_drop n l : no_escape l -> no_escape (drop n l).
Proof. intros H. rewrite <- (take_drop n l) in H. by apply no_escape_app in H as [_ H]. Qed.
Lemma no_escape_take n l : no_escape l -> no_escape (take n l).
Proof. intros H. rewrite <- (take_drop n l) in H. by apply no_escape_app in H as [H _]. Qed.

Lemma seg_len_le l : (seg_len l <= length l)%nat.
Proof.
  unfold seg_len. destruct (memchr_pos 47 l) as [k|] eqn:E; cbn; [|lia].
  apply memchr_pos_Some in E as (a & b & -> & <- & _). rewrite length_app. lia.
Qed.

Lemma seg_len_pos c l : c <> 47 -> (0 < seg_len (c :: l))%nat.
Proof.
  intros Hc. unfold seg_len. cbn. rewrite (proj2 (Z.eqb_neq c 47) Hc).
  destruct (memchr_pos 47 l); cbn; lia.
Qed.

Lemma drop_seg_length l : (length (drop (seg_len (123%Z :: l)) (123%Z :: l)) <= length l)%nat.
Proof.
  rewrite length_drop. pose proof (seg_len_pos 123 l ltac:(done)) as H.
  revert H. generalize (seg_len (123 :: l)). cbn. lia.
Qed.

Lemma tokens_fuel f1 f2 l : (length l <= f1)%nat -> (length l <= f2)%nat -> tokens f1 l = tokens f2 l.
Proof.
  revert f2 l. induction f1 as [|f1 IH]; intros f2 l H1 H2; destruct l as [|c l].
  - by destruct f2.
  - cbn in H1. lia.
  - by destruct f2.
  - destruct f2 as [|f2]; [cbn in H2; lia|]. cbn [tokens]. destruct (bool_decide _); [done|].
    destruct (Z.eqb_spec c 123) as [->|Hc].
    + f_equal. pose proof (drop_seg_length l). apply IH; cbn [length] in *; lia.
    + f_equal. apply IH; cbn in *; lia.
Qed.

Lemma tokens_any : pattern_tokens [47; 42] = [TAny].
Proof. done. Qed.

Lemma tokens_seg l : pattern_tokens (123 :: l)
  = TSeg (take (seg_len (123 :: l)) (123 :: l)) :: pattern_tokens (drop (seg_len (123 :: l)) (123 :: l)).
Proof.
  unfold pattern_tokens at 1. cbn [length tokens]. rewrite bool_decide_false by done. cbn [Z.eqb Pos.eqb]. f_equal.
  apply tokens_fuel; [apply drop_seg_length|done].
Qed.

Lemma tokens_char c l : c <> 123 -> c :: l <> [47; 42] -> pattern_tokens (c :: l) = TChar c :: pattern_tokens l.
Proof.
  intros Hc Hl. unfold pattern_tokens at 1. cbn [length tokens]. rewrite bool_decide_false by done.
  by rewrite (proj2 (Z.eqb_neq c 123) Hc).
Qed.

(** Literal characters are tokens, except that [/*] at the end is one. *)
Lemma tokens_literal a l :
  Forall (fun c => c <> 123) a -> (forall b, a ++ l <> b ++ [47; 42] \/ (length l >= 2)%nat) ->
  pattern_tokens (a ++ l) = map TChar a ++ pattern_tokens l.
Proof.
  intros Ha Hl. induction Ha as [|c a Hc Ha IH]; [done|]. cbn [app map].
  rewrite tokens_char; [|done|].
  - f_equal. apply IH. intros b. destruct (Hl (c :: b)) as [H|H]; [left|by right]. intros E. apply H. by rewrite <- app_comm_cons, E.
  - intros E. destruct (Hl []) as [H|H]; [by apply H|]. apply (f_equal length) in E. cbn in E. rewrite length_app in E. cbn in E. lia.
Qed.

(** ** Parameter segments *)

(** After an opening brace: the position of the brace that closes it. *)
Fixpoint brace_end (depth : Z) (l : bytes) : option nat :=
  match l with
  | [] => None
  | c :: l =>
      if c =? 123 then option_map S (brace_end (depth + 1) l)
      else if c =? 125 then if depth - 1 =? 0 then Some 0%nat else option_map S (brace_end (depth - 1) l)
      else option_map S (brace_end depth l)
  end.

(** The first colon or closing brace. *)
Fixpoint first_delim (l : bytes) : option nat :=
  match l with
  | [] => None
  | c :: l => if (c =? 58) || (c =? 125) then Some 0%nat else option_map S (first_delim l)
  end.

Definition param_end (l : bytes) : option nat :=
  match first_delim l with
  | None => None
  | Some k => if byte_at l k =? 58 then brace_end 1 l else Some k
  end.

Definition constraint_text (content : bytes) : bytes :=
  match memchr_pos 58 content with Some k => drop (S k) content | None => [] end.

Section Segment.
Variable std_regex : bytes -> option (bytes -> bool).

(** The parts of a segment (an empty part is a parameter) and the constraints of its parameters. *)
Fixpoint seg_parse (fuel : nat) (l literal : bytes) (parts : list SegmentPart) (cs : list RouteConstraint)
  : option (list SegmentPart * list RouteConstraint) :=
  match fuel with
  | O => None
  | S fuel =>
      match l with
      | [] => Some (flush_literal literal parts, cs)
      | c :: r =>
          if c =? 123 then
            match param_end r with
            | None => None
            | Some k =>
                match RouteConstraint_new std_regex (constraint_text (take k r)) with
                | None => None
                | Some con => seg_parse fuel (drop (S k) r) [] (flush_literal literal parts ++ [[]]) (cs ++ [con])
                end
            end
          else seg_parse fuel r (literal ++ [c]) parts cs
      end
  end.

Definition seg_spec (raw : bytes) : option (list SegmentPart * list RouteConstraint) :=
  seg_parse (S (length raw)) raw [] [] [].

(** A segment made of the parts, with the values of the parameters. *)
Inductive parts_inst : list SegmentPart -> list RouteConstraint -> bytes -> list bytes -> Prop :=
| pi_nil : parts_inst [] [] [] []
| pi_literal part parts cs l caps :
    is_param part = false -> parts_inst parts cs l caps -> parts_inst (part :: parts) cs (part ++ l) caps
| pi_param part parts c cs cap l caps :
    is_param part = true -> constraint_matches std_regex c cap = true -> parts_inst parts cs l caps ->
    parts_inst (part :: parts) (c :: cs) (cap ++ l) (cap :: caps).

(** The end of a path, or the slash of the next segment. *)
Definition boundary (l : bytes) : Prop := match l with [] => True | c :: _ => c = 47 end.

(** The paths that are instances of a pattern, with the values of its parameters: [/*] stands for
    any remaining segments, possibly none. *)
Inductive inst : list Tok -> bytes -> list bytes -> Prop :=
| inst_nil : inst [] [] []
| inst_char c ts l caps : inst ts l caps -> inst (TChar c :: ts) (c :: l) caps
| inst_seg raw ts parts cs segment l caps caps' :
    seg_spec raw = Some (parts, cs) -> Forall (fun c => c <> 47) segment ->
    parts_inst parts cs segment caps -> inst ts l caps' ->
    inst (TSeg raw :: ts) (segment ++ l) (caps ++ caps')
| inst_any l : boundary l -> inst [TAny] l [].

Lemma inst_app ts1 l1 c1 ts2 l2 c2 :
  inst ts1 l1 c1 -> TAny ∉ ts1 -> inst ts2 l2 c2 -> inst (ts1 ++ ts2) (l1 ++ l2) (c1 ++ c2).
Proof.
  intros H1 Hn H2. induction H1 as [|c ts l caps H IH|raw ts parts cs seg l caps caps' Hp Hs Hi H IH|l Hl]; cbn.
  - done.
  - constructor. apply IH. set_solver.
  - rewrite <- !app_assoc. econstructor; [done..|]. apply IH. set_solver.
  - set_solver.
Qed.

Lemma inst_chars l : inst (map TChar l) l [].
Proof. induction l; by constructor. Qed.

(** The tokens [ts] do not end with a parameter segment. *)
Definition text_end (ts : list Tok) : Prop := forall t raw, ts <> t ++ [TSeg raw].

Lemma text_end_chars ts l : l <> [] \/ text_end ts -> text_end (ts ++ map TChar l).
Proof.
  intros H t raw. destruct l as [|c l _] using rev_ind; cbn; [rewrite app_nil_r; by destruct H|].
  rewrite map_app, app_assoc. cbn. intros E. by apply app_inj_tail in E as [_ E].
Qed.

(** The path goes on after the text that the star of the pattern comes after, whether or not it
    goes on with a slash. *)
Definition continues (ts : list Tok) (path : bytes) (caps : list bytes) : Prop :=
  exists t pre rest, ts = t ++ [TAny] /\ TAny ∉ t /\ text_end t /\ inst t pre caps /\ path = pre ++ rest.

(** The path goes on without the slash: [/staticfoo] for [/static/*]. *)
Definition overruns (ts : list Tok) (path : bytes) (caps : list bytes) : Prop :=
  exists t pre rest, ts = t ++ [TAny] /\ TAny ∉ t /\ text_end t /\ inst t pre caps /\ path = pre ++ rest
    /\ ~ boundary rest.

Lemma inst_boundary t pre rest caps :
  inst t pre caps -> TAny ∉ t -> boundary rest -> inst (t ++ [TAny]) (pre ++ rest) caps.
Proof. intros Hi Ha Hb. rewrite <- (app_nil_r caps). apply inst_app; [done|done|by constructor]. Qed.

#[export] Instance boundary_dec l : Decision (boundary l).
Proof. destruct l; cbn; apply _. Defined.

Lemma continues_cases ts path caps : continues ts path caps -> inst ts path caps \/ overruns ts path caps.
Proof.
  intros (t & pre & rest & -> & Ha & He & Hi & ->). destruct (decide (boundary rest)).
  - left. by apply inst_boundary.
  - right. by exists t, pre, rest.
Qed.

Lemma parts_inst_count parts cs l caps :
  parts_inst parts cs l caps -> length caps = length cs.
Proof. induction 1; cbn; congruence. Qed.
End Segment.

(** ** The scanners of the code *)

Lemma drop_byte (l : bytes) i : (i < length l)%nat -> drop i l = byte_at l i :: drop (S i) l.
Proof.
  revert i. induction l as [|c l IH]; intros i Hi; [cbn in Hi; lia|].
  destruct i as [|i]; [done|]. cbn. apply IH. cbn in Hi. lia.
Qed.

Lemma byte_at_drop (l : bytes) i j : byte_at (drop i l) j = byte_at l (i + j).
Proof. unfold byte_at. by rewrite nth_skipn. Qed.

Lemma matching_brace_spec fuel l depth pos :
  (pos <= length l)%nat -> (length l - pos <= fuel)%nat ->
  matching_brace fuel l depth pos
  = match brace_end depth (drop pos l) with Some k => pos + k | None => length l end%nat.
Proof.
  revert depth pos. induction fuel as [|fuel IH]; intros depth pos Hp Hf; cbn [matching_brace].
  - rewrite drop_ge by lia. cbn. lia.
  - destruct (decide (pos < length l)%nat) as [Hlt|Hge]; [|rewrite drop_ge by lia; cbn; lia].
    rewrite (drop_byte l pos Hlt). cbn [brace_end].
    assert (Hnext : forall d, match brace_end d (drop (S pos) l) with Some k => S pos + k | None => length l end%nat
      = match option_map S (brace_end d (drop (S pos) l)) with Some k => pos + k | None => length l end%nat)
      by (intros d; destruct (brace_end d (drop (S pos) l)); cbn; lia).
    destruct (byte_at l pos =? 123); [rewrite IH by lia; apply Hnext|].
    destruct (byte_at l pos =? 125); [|rewrite IH by lia; apply Hnext].
    destruct (depth - 1 =? 0); [lia|rewrite IH by lia; apply Hnext].
Qed.

Lemma no_escape_at l i c :
  no_escape l -> c = 123 \/ c = 125 -> byte_at l i = c -> (S i < length l)%nat -> byte_at l (S i) <> c.
Proof.
  intros Hn Hc Hi Hl E. apply no_escape_drop with (n := i) in Hn.
  rewrite (drop_byte l i), (drop_byte l (S i)) in Hn by lia. destruct Hn as [Hn _]. apply Hn. split; congruence.
Qed.

Lemma scan_param_spec fuel l sp :
  no_escape l -> (sp <= length l)%nat -> (length l - sp <= fuel)%nat ->
  scan_param fuel l sp
  = match first_delim (drop sp l) with
    | None => (None, None)
    | Some k => if byte_at l (sp + k) =? 58 then (None, Some (sp + k)%nat) else (Some (sp + k)%nat, None)
    end.
Proof.
  intros Hn. revert sp. induction fuel as [|fuel IH]; intros sp Hp Hf; cbn [scan_param].
  - by rewrite drop_ge by lia.
  - destruct (decide (sp < length l)%nat) as [Hlt|Hge]; [|by rewrite drop_ge by lia].
    rewrite (drop_byte l sp Hlt). cbn [first_delim].
    destruct (Z.eqb_spec (byte_at l sp) 58) as [E|E]; cbn [orb].
    + by rewrite Nat.add_0_r, E.
    + destruct (Z.eqb_spec (byte_at l sp) 125) as [E2|E2].
      * rewrite Nat.add_0_r, E2. cbn [Z.eqb Pos.eqb].
        destruct (bool_decide_reflect (sp + 1 < length l)%nat) as [H1|H1]; [|done]. cbn [andb].
        rewrite Nat.add_1_r in *. pose proof (no_escape_at l sp 125 Hn ltac:(by right) E2 H1) as H.
        by rewrite (proj2 (Z.eqb_neq _ _) H).
      * rewrite IH by lia. destruct (first_delim (drop (S sp) l)) as [k|]; cbn [option_map]; [|done].
        replace (S sp + k)%nat with (sp + S k)%nat by lia. done.
Qed.

Lemma first_delim_bound l k : first_delim l = Some k -> (k < length l)%nat /\ (byte_at l k = 58 \/ byte_at l k = 125).
Proof.
  revert k. induction l as [|c l IH]; intros k; cbn [first_delim]; [done|].
  destruct (Z.eqb_spec c 58) as [->|H1]; cbn [orb]; [intros [= <-]; cbn; split; [lia|by left]|].
  destruct (Z.eqb_spec c 125) as [->|H2]; [intros [= <-]; cbn; split; [lia|by right]|].
  destruct (first_delim l) as [j|]; [|done]. intros [= <-]. destruct (IH j eq_refl). cbn [length]. split; [lia|done].
Qed.

Lemma brace_end_bound d l k : brace_end d l = Some k -> (k < length l)%nat.
Proof.
  revert d k. induction l as [|c l IH]; intros d k; cbn [brace_end]; [done|].
  destruct (c =? 123); [|destruct (c =? 125); [destruct (d - 1 =? 0)|]].
  2: intros [= <-]; cbn; lia.
  all: destruct (brace_end _ l) as [j|] eqn:E; [|done]; intros [= <-]; apply IH in E; cbn; lia.
Qed.

Lemma param_end_bound l k : param_end l = Some k -> (k < length l)%nat.
Proof.
  unfold param_end. destruct (first_delim l) as [j|] eqn:E; [|done]. destruct (_ =? 58).
  - apply brace_end_bound.
  - intros [= <-]. by apply first_delim_bound in E as [E _].
Qed.

Lemma close_brace_spec l idx :
  no_escape l -> (idx < length l)%nat ->
  close_brace l idx = option_map (Nat.add (S idx)) (param_end (drop (S idx) l)).
Proof.
  intros Hn Hi. unfold close_brace, param_end. rewrite scan_param_spec by (done || lia).
  destruct (first_delim (drop (S idx) l)) as [k|] eqn:E; [|done]. rewrite byte_at_drop.
  destruct (_ =? 58); [|done]. rewrite matching_brace_spec by lia.
  destruct (brace_end 1 (drop (S idx) l)) as [j|] eqn:Eb.
  - apply brace_end_bound in Eb. rewrite length_drop in Eb. by rewrite decide_True by lia.
  - rewrite decide_False by lia. done.
Qed.

Lemma find_colon_or_close_spec l pos :
  find_colon_or_close l pos = option_map (Nat.add pos) (first_delim (drop pos l)).
Proof.
  unfold find_colon_or_close, find_char. generalize (drop pos l). clear l. intros l.
  assert (H : match memchr_pos 58 l, memchr_pos 125 l with
    | Some a, Some b => Some (Nat.min a b) | Some a, None => Some a | None, b => b end = first_delim l).
  { induction l as [|c l IH]; [done|]. cbn [memchr_pos first_delim]. rewrite <- IH.
    destruct (Z.eqb_spec c 58) as [->|H1]; cbn [orb Z.eqb Pos.eqb].
    - by destruct (memchr_pos 125 l).
    - destruct (c =? 125); destruct (memchr_pos 58 l), (memchr_pos 125 l); done. }
  rewrite <- H. destruct (memchr_pos 58 l), (memchr_pos 125 l); cbn; f_equal; lia.
Qed.

Lemma unescaped_close_spec fuel l pos k :
  no_escape l -> (pos <= length l)%nat -> (length l - pos <= fuel)%nat ->
  first_delim (drop pos l) = Some k -> byte_at l (pos + k) <> 58 ->
  unescaped_close fuel l pos = (pos + k)%nat.
Proof.
  intros Hn. revert pos k. induction fuel as [|fuel IH]; intros pos k Hp Hf Hk Hb; cbn [unescaped_close].
  - by rewrite drop_ge in Hk by lia.
  - destruct (decide (pos < length l)%nat) as [Hlt|Hge]; [|by rewrite drop_ge in Hk by lia].
    rewrite (drop_byte l pos Hlt) in Hk. cbn [first_delim] in Hk.
    destruct (Z.eqb_spec (byte_at l pos) 125) as [E|E].
    + rewrite E in Hk. injection Hk as <-. rewrite Nat.add_0_r.
      destruct (bool_decide_reflect (pos + 1 < length l)%nat) as [H1|H1]; [|done]. cbn [andb].
      rewrite Nat.add_1_r in *. pose proof (no_escape_at l pos 125 Hn ltac:(by right) E H1) as H.
      by rewrite (proj2 (Z.eqb_neq _ _) H).
    + destruct (Z.eqb_spec (byte_at l pos) 58) as [E2|E2].
      * injection Hk as <-. rewrite Nat.add_0_r in Hb. done.
      * cbn [orb] in Hk. destruct (first_delim (drop (S pos) l)) as [j|] eqn:Ej; [|done]. injection Hk as <-.
        rewrite (IH (S pos) j); [lia|lia|lia|done|]. by replace (S pos + j)%nat with (pos + S j)%nat by lia.
Qed.

Lemma param_close_spec l idx :
  no_escape l -> (idx < length l)%nat ->
  param_close l idx = option_map (Nat.add (S idx)) (param_end (drop (S idx) l)).
Proof.
  intros Hn Hi. unfold param_close, param_end. rewrite find_colon_or_close_spec.
  destruct (first_delim (drop (S idx) l)) as [k|] eqn:E; cbn [option_map]; [|done]. rewrite byte_at_drop.
  pose proof (first_delim_bound _ _ E) as [Hk _]. rewrite length_drop in Hk.
  destruct (Z.eqb_spec (byte_at l (S idx + k)) 58) as [H|H].
  - rewrite matching_brace_spec by lia. destruct (brace_end 1 (drop (S idx) l)) as [j|] eqn:Eb.
    + apply brace_end_bound in Eb. rewrite length_drop in Eb. by rewrite decide_True by lia.
    + by rewrite decide_False by lia.
  - rewrite (unescaped_close_spec _ _ _ k) by (done || lia). by rewrite decide_True by lia.
Qed.

Lemma compare_escape l idx c :
  no_escape l -> c = 123 \/ c = 125 -> compare_at l idx [c; c] = false.
Proof.
  intros Hn Hc. unfold compare_at. apply bool_decide_false. intros [r Hr].
  apply no_escape_drop with (n := idx) in Hn. rewrite Hr in Hn. destruct Hn as [Hn _]. by apply Hn.
Qed.

Lemma compare_open l idx : no_escape l -> compare_at l idx kEscapedOpenBrace = false.
Proof. intros Hn. apply (compare_escape l idx 123); [done|by left]. Qed.
Lemma compare_close l idx : no_escape l -> compare_at l idx kEscapedCloseBrace = false.
Proof. intros Hn. apply (compare_escape l idx 125); [done|by right]. Qed.

(** ** Segments *)

(** Parameters and literals alternate, a parameter first when [b]. *)
Fixpoint parts_from (b : bool) (ps : list SegmentPart) : Prop :=
  match ps with [] => True | p :: ps => is_param p = b /\ parts_from (negb b) ps end.

Definition param_count (ps : list SegmentPart) : nat := length (filter (fun p => is_param p) ps).

Lemma parts_from_snoc b ps x :
  parts_from b (ps ++ [x]) <-> parts_from b ps /\ is_param x = xorb b (Nat.odd (length ps)).
Proof.
  revert b. induction ps as [|p ps IH]; intros b; cbn [app parts_from length].
  - cbn. rewrite xorb_false_r. tauto.
  - rewrite IH, Nat.odd_succ, <- Nat.negb_odd.
    assert (H : xorb (negb b) (Nat.odd (length ps)) = xorb b (negb (Nat.odd (length ps)))) by (by destruct b, (Nat.odd (length ps))).
    rewrite H. tauto.
Qed.

Lemma param_count_snoc ps x : param_count (ps ++ [x]) = (param_count ps + if is_param x then 1 else 0)%nat.
Proof.
  unfold param_count. rewrite filter_app, length_app. f_equal. rewrite filter_cons, filter_nil.
  case_decide as Hd; destruct (is_param x); cbn in Hd; done.
Qed.

Lemma flush_literal_shape literal ps :
  parts_from true ps -> (literal <> [] -> Nat.odd (length ps) = true) ->
  parts_from true (flush_literal literal ps)
  /\ param_count (flush_literal literal ps) = param_count ps
  /\ (literal <> [] -> Nat.odd (length (flush_literal literal ps)) = false)
  /\ (literal = [] -> flush_literal literal ps = ps).
Proof.
  intros Hp Hl. unfold flush_literal. destruct literal as [|c literal]; cbn [length Nat.eqb]; [done|].
  specialize (Hl ltac:(done)). rewrite parts_from_snoc, param_count_snoc, length_app, Nat.add_1_r, Nat.odd_succ, <- Nat.negb_odd, Hl.
  cbn. repeat split; done || lia.
Qed.

(** The state of the parsers inside a segment. *)
Definition seg_state (prev : bool) (literal : bytes) (parts : list SegmentPart) (rest : bytes) : Prop :=
  parts_from true parts /\ (literal <> [] -> Nat.odd (length parts) = true /\ prev = false)
  /\ (prev = true -> Nat.odd (length parts) = true)
  /\ (prev = false -> literal = [] -> Nat.odd (length parts) = false /\ exists r, rest = 123 :: r).

Lemma constraints_new regex content names cs w n s named unnamed k st' :
  parse_param regex content (MkParse (MkRoute names cs w n s) named unnamed k) = Ret st' ->
  exists c, RouteConstraint_new regex (constraint_text content) = Some c
    /\ paramConstraints (ps_route st') = cs ++ [c]
    /\ length (paramNames (ps_route st')) = S (length names)
    /\ hasWildcard (ps_route st') = w.
Proof.
  unfold parse_param, constraint_text, find_char. rewrite drop_0.
  destruct (memchr_pos 58 content) as [kk|]; cbn [option_map Nat.add]; rewrite ?Nat.add_1_r.
  all: destruct (existsb _ _); [done|]; destruct (Nat.eqb _ _); unfold append_part;
    (destruct (find_sub _ _); [done|]); (destruct (RouteConstraint_new regex _) as [c|]; [|done]);
    intros [= <-]; exists c; cbn; rewrite length_app; cbn; repeat split; done || lia.
Qed.

Section Parsers.
Variable regex : bytes -> option (bytes -> bool).

Lemma parse_segment_spec fuel sg idx prev st st' :
  no_escape sg -> (idx <= length sg)%nat -> (length sg - idx < fuel)%nat ->
  parse_segment regex fuel sg idx prev st = Ret st' ->
  forall f literal parts used, (length sg - idx < f)%nat -> seg_state prev literal parts (drop idx sg) ->
  exists ps cs, seg_parse regex f (drop idx sg) literal parts used = Some (ps, used ++ cs)
    /\ paramConstraints (ps_route st') = paramConstraints (ps_route st) ++ cs
    /\ length (paramNames (ps_route st')) = (length (paramNames (ps_route st)) + length cs)%nat
    /\ hasWildcard (ps_route st') = hasWildcard (ps_route st)
    /\ parts_from true ps /\ param_count ps = (param_count parts + length cs)%nat.
Proof.
  intros Hn. revert idx prev st. induction fuel as [|fuel IH]; intros idx prev st Hi Hf H f literal parts used Hff Hst;
    [lia|]. cbn [parse_segment] in H. destruct f as [|f]; [lia|].
  destruct (decide (idx < length sg)%nat) as [Hlt|Hge].
  - rewrite (compare_open sg idx Hn), (compare_close sg idx Hn) in H.
    rewrite (drop_byte sg idx Hlt) in *. cbn [seg_parse].
    destruct (Z.eqb_spec (byte_at sg idx) 123) as [E|E]; cbn [negb] in H.
    + rewrite close_brace_spec in H by done. destruct (param_end (drop (S idx) sg)) as [k|] eqn:Ek; [|done].
      cbn [option_map] in H. destruct prev; [done|].
      pose proof (param_end_bound _ _ Ek) as Hk. rewrite length_drop in Hk.
      replace (S idx + k - idx - 1)%nat with k in H by lia.
      destruct (parse_param _ _ st) as [st1|] eqn:Ep; [|done].
      destruct st as [[names cs0 w n s] named unnamed pk].
      destruct (constraints_new _ _ _ _ _ _ _ _ _ _ _ Ep) as (c & Hc & Hcs & Hnames & Hw).
      unfold substr in Hc. rewrite Hc.
      destruct Hst as (Hp & Hlit & _ & Hstart).
      destruct (flush_literal_shape literal parts Hp ltac:(intros Hl; by apply Hlit)) as (Hfp & Hfc & Hfo & Hfe).
      assert (Hodd : Nat.odd (length (flush_literal literal parts)) = false).
      { destruct literal as [|l0 literal]; [|by apply Hfo]. rewrite Hfe by done. by apply Hstart. }
      rewrite drop_drop. replace (S idx + S k)%nat with (S (S idx + k)) by lia.
      destruct (IH (S (S idx + k)) true st1 ltac:(lia) ltac:(lia) H f [] (flush_literal literal parts ++ [[]]) (used ++ [c]))
        as (ps & cs & H1 & H2 & H3 & H4 & H5 & H6); [lia| |].
      * split; [|split; [done|split; [|done]]].
        -- apply parts_from_snoc. split; [done|]. by rewrite Hodd.
        -- intros _. by rewrite length_app, Nat.add_1_r, Nat.odd_succ, <- Nat.negb_odd, Hodd.
      * exists ps, (c :: cs). rewrite H1, H2, H3, H4, H6, Hcs, Hnames, Hw, param_count_snoc, Hfc. cbn [length].
        rewrite <- !app_assoc. cbn. repeat split; done || lia.
    + destruct (IH (S idx) false st ltac:(lia) ltac:(lia) H f (literal ++ [byte_at sg idx]) parts used) as (ps & cs & H1 & Hrest);
        [lia| |by exists ps, cs].
      destruct Hst as (Hp & Hlit & Hprev & Hstart). split; [done|]. split; [|split; [done|]].
      * intros _. split; [|done]. destruct prev; [by apply Hprev|]. destruct literal; [|by apply Hlit].
        destruct (Hstart eq_refl eq_refl) as (_ & r & Hr). congruence.
      * intros _ Hl. by apply app_nil in Hl as [_ Hl].
  - injection H as <-. rewrite drop_ge by lia. cbn [seg_parse]. exists (flush_literal literal parts), [].
    rewrite !app_nil_r. destruct Hst as (Hp & Hlit & _).
    destruct (flush_literal_shape literal parts Hp ltac:(intros Hl; by apply Hlit)) as (Hfp & Hfc & _).
    cbn. repeat split; done || lia.
Qed.

Lemma seg_parse_segment_parts fuel r literal parts used ps cs' :
  seg_parse regex fuel r literal parts used = Some (ps, cs') ->
  exists cs, cs' = used ++ cs /\
  forall raw idx f before after used2,
    drop idx raw = r -> (idx <= length raw)%nat -> no_escape raw -> (length raw - idx < f)%nat ->
    segment_parts f (before ++ cs ++ after) raw idx literal parts used2 (length before)
    = Some (ps, used2 ++ cs, (length before + length cs)%nat).
Proof.
  revert r literal parts used. induction fuel as [|fuel IH]; intros r literal parts used; cbn [seg_parse]; [done|].
  destruct r as [|c r].
  - intros [= <- <-]. exists []. split; [by rewrite app_nil_r|]. intros raw idx f before after used2 Hr Hi Hn Hf.
    destruct f as [|f]; [lia|]. cbn [segment_parts]. apply (f_equal length) in Hr. rewrite length_drop in Hr. cbn in Hr.
    rewrite decide_False by lia. rewrite app_nil_r. cbn. by rewrite Nat.add_0_r.
  - destruct (Z.eqb_spec c 123) as [->|Hc].
    + destruct (param_end r) as [k|] eqn:Ek; [|done]. destruct (RouteConstraint_new _ _) as [con|] eqn:Ec; [|done].
      intros H. destruct (IH _ _ _ _ H) as (cs & -> & Hs). exists (con :: cs). split; [by app_simpl|].
      intros raw idx f before after used2 Hr Hi Hn Hf. destruct f as [|f]; [lia|]. cbn [segment_parts].
      assert (Hlt : (idx < length raw)%nat).
      { apply (f_equal length) in Hr. rewrite length_drop in Hr. cbn in Hr. lia. }
      rewrite (drop_byte raw idx Hlt) in Hr. injection Hr as Hb Hr.
      rewrite decide_True by done. rewrite (compare_open raw idx Hn), (compare_close raw idx Hn).
      rewrite Hb. cbn [Z.eqb Pos.eqb negb]. rewrite param_close_spec by done. rewrite Hr, Ek. cbn [option_map].
      pose proof (param_end_bound _ _ Ek) as Hk. rewrite <- Hr, length_drop in Hk.
      cbn [app]. rewrite list_lookup_middle by done.
      specialize (Hs raw (S (S idx + k)) f (before ++ [con]) after (used2 ++ [con])).
      rewrite length_app, Nat.add_1_r in Hs. rewrite <- app_assoc in Hs. cbn [app] in Hs. rewrite Hs; try done.
      * cbn [length]. f_equal. f_equal; [|lia]. f_equal. by app_simpl.
      * rewrite <- Hr, drop_drop. f_equal. lia.
      * lia.
      * lia.
    + intros H. destruct (IH _ _ _ _ H) as (cs & -> & Hs). exists cs. split; [done|].
      intros raw idx f before after used2 Hr Hi Hn Hf. destruct f as [|f]; [lia|]. cbn [segment_parts].
      assert (Hlt : (idx < length raw)%nat).
      { apply (f_equal length) in Hr. rewrite length_drop in Hr. cbn in Hr. lia. }
      rewrite (drop_byte raw idx Hlt) in Hr. injection Hr as Hb Hr.
      rewrite decide_True by done. rewrite (compare_open raw idx Hn), (compare_close raw idx Hn).
      rewrite Hb, (proj2 (Z.eqb_neq c 123) Hc). cbn [negb]. apply Hs; done || lia.
Qed.
End Parsers.

(** ** Patterns *)

Section Patterns.
Variable regex : bytes -> option (bytes -> bool).

Definition tok_cs (t : Tok) : list RouteConstraint :=
  match t with TSeg raw => match seg_spec regex raw with Some (_, cs) => cs | None => [] end | _ => [] end.
Definition cs_of (ts : list Tok) : list RouteConstraint := concat (map tok_cs ts).

Definition tok_ok (t : Tok) : Prop :=
  match t with
  | TSeg raw => exists ps cs r, seg_spec regex raw = Some (ps, cs) /\ parts_from true ps
      /\ param_count ps = length cs /\ no_escape raw /\ raw = 123 :: r
  | _ => True
  end.

Lemma cs_of_app a b : cs_of (a ++ b) = cs_of a ++ cs_of b.
Proof. unfold cs_of. by rewrite map_app, concat_app. Qed.

Lemma cs_of_chars l : cs_of (map TChar l) = [].
Proof. induction l; [done|]. done. Qed.

Lemma tok_ok_chars l : Forall tok_ok (map TChar l).
Proof. induction l; by constructor. Qed.

Lemma parse_segment_skip fuel sg idx lit rest st :
  no_escape sg -> drop idx sg = lit ++ rest -> (idx <= length sg)%nat -> Forall (fun c => c <> 123) lit ->
  parse_segment regex (length lit + fuel) sg idx false st = parse_segment regex fuel sg (idx + length lit) false st.
Proof.
  intros Hn Hd Hi Hl. revert idx Hd Hi. induction Hl as [|c lit Hc Hl IH]; intros idx Hd Hi; cbn [length].
  - by rewrite Nat.add_0_r.
  - cbn [Nat.add parse_segment].
    assert (Hlt : (idx < length sg)%nat) by (apply (f_equal length) in Hd; rewrite length_drop in Hd; cbn in Hd; lia).
    rewrite (drop_byte sg idx Hlt) in Hd. injection Hd as Hb Hd.
    rewrite decide_True by done. rewrite (compare_open sg idx Hn), (compare_close sg idx Hn), Hb, (proj2 (Z.eqb_neq c 123) Hc).
    cbn [negb]. rewrite (IH (S idx)) by (done || lia). f_equal. lia.
Qed.

(** A segment cut at its first parameter. *)
Lemma cut_segment (sg : bytes) :
  exists lit raw, sg = lit ++ raw /\ Forall (fun c => c <> 123) lit /\ (raw = [] \/ exists r, raw = 123 :: r).
Proof.
  destruct (memchr_pos 123 sg) as [k|] eqn:E.
  - apply memchr_pos_Some in E as (a & b & -> & _ & Ha). exists a, (123 :: b). split; [done|]. split; [done|]. right. by exists b.
  - apply memchr_pos_None in E. exists sg, []. rewrite app_nil_r. split; [done|]. split; [done|by left].
Qed.

(** What the tokens [ts] add to the state of the parser. *)
Definition advances (st : ParseState) (ts : list Tok) (st' : ParseState) : Prop :=
  Forall tok_ok ts
  /\ paramConstraints (ps_route st') = paramConstraints (ps_route st) ++ cs_of ts
  /\ length (paramNames (ps_route st')) = (length (paramNames (ps_route st)) + length (cs_of ts))%nat
  /\ hasWildcard (ps_route st') = hasWildcard (ps_route st) || bool_decide (TAny ∈ ts).

Lemma advances_app st1 a st2 b st3 : advances st1 a st2 -> advances st2 b st3 -> advances st1 (a ++ b) st3.
Proof.
  intros (A1 & A2 & A3 & A4) (B1 & B2 & B3 & B4). split; [by apply Forall_app|]. rewrite cs_of_app, B2, A2, length_app.
  split; [by rewrite app_assoc|]. split; [lia|]. rewrite B4, A4, <- orb_assoc. f_equal.
  case_bool_decide; case_bool_decide; symmetry; (apply bool_decide_true || apply bool_decide_false); set_solver.
Qed.

(** The tokens of the segment [lit ++ raw], whose first parameter starts [raw]. *)
Definition seg_toks (lit raw : bytes) : list Tok :=
  TChar 47 :: map TChar lit ++ if decide (raw = []) then [] else [TSeg raw].

Lemma seg_toks_any lit raw : TAny ∉ seg_toks lit raw.
Proof.
  unfold seg_toks. rewrite elem_of_cons, elem_of_app, list_elem_of_fmap. intros [?|[(?&?&_)|Hx]]; try done.
  case_decide; [by apply elem_of_nil in Hx|by apply list_elem_of_singleton in Hx].
Qed.

Lemma seg_toks_cs lit raw : cs_of (seg_toks lit raw) = if decide (raw = []) then [] else tok_cs (TSeg raw).
Proof.
  unfold seg_toks. change (TChar 47 :: ?x) with ([TChar 47] ++ x). rewrite !cs_of_app, cs_of_chars.
  case_decide; [done|]. unfold cs_of. cbn. by rewrite app_nil_r.
Qed.

Lemma seg_toks_ok lit raw : raw = [] \/ tok_ok (TSeg raw) -> Forall tok_ok (seg_toks lit raw).
Proof.
  intros Hr. constructor; [done|]. apply Forall_app. split; [apply tok_ok_chars|].
  case_decide; [constructor|]. constructor; [|constructor]. by destruct Hr.
Qed.

Lemma segment_spec sg st st' :
  no_escape sg -> parse_segment regex (S (length sg)) sg 0 false st = Ret st' ->
  exists lit raw, sg = lit ++ raw /\ Forall (fun c => c <> 123) lit
    /\ (raw = [] \/ exists r, raw = 123 :: r) /\ advances st (seg_toks lit raw) st'.
Proof.
  intros Hn H. destruct (cut_segment sg) as (lit & raw & -> & Hl & Hr). exists lit, raw.
  split; [done|]. split; [done|]. split; [done|].
  replace (S (length (lit ++ raw))) with (length lit + S (length raw))%nat in H by (rewrite length_app; lia).
  rewrite (parse_segment_skip _ (lit ++ raw) 0 lit raw st Hn) in H; [|by rewrite drop_0|lia|done]. cbn [Nat.add] in H.
  unfold advances. rewrite seg_toks_cs, bool_decide_false, orb_false_r by apply seg_toks_any.
  destruct Hr as [->|[r ->]].
  - cbn [parse_segment] in H. rewrite decide_False in H by (rewrite app_nil_r; lia). injection H as <-.
    rewrite decide_True, app_nil_r by done. repeat split; [apply seg_toks_ok; by left|cbn; lia].
  - assert (Hst : seg_state false [] [] (drop (length lit) (lit ++ 123 :: r))).
    { rewrite drop_app_length. split; [done|]. split; [done|]. split; [done|]. intros _ _. split; [done|]. by exists r. }
    assert (Hlen : length (lit ++ 123 :: r) = (length lit + S (length r))%nat) by (rewrite length_app; cbn; lia).
    destruct (parse_segment_spec regex (S (length (123 :: r))) (lit ++ 123 :: r) (length lit) false st st' Hn
      ltac:(lia) ltac:(cbn; lia) H (S (length (123 :: r))) [] [] [] ltac:(cbn; lia) Hst) as (ps & cs & H1 & H2 & H3 & H4 & H5 & H6).
    rewrite drop_app_length in H1. cbn [app] in H1.
    assert (Hs : seg_spec regex (123 :: r) = Some (ps, cs)) by exact H1.
    rewrite decide_False by done. cbn [tok_cs]. rewrite Hs. split; [|done].
    apply seg_toks_ok. right. exists ps, cs, r. apply no_escape_app in Hn as [_ Hn]. done.
Qed.

(** The tokens of a segment and what follows it. *)
Lemma tokens_segment lit raw rest :
  Forall (fun c => c <> 47) (lit ++ raw) -> Forall (fun c => c <> 123) lit ->
  raw = [] \/ (exists r, raw = 123 :: r) -> rest = [] \/ (exists r, rest = 47 :: r) ->
  pattern_tokens (lit ++ raw ++ rest)
  = map TChar lit ++ (if decide (raw = []) then [] else [TSeg raw]) ++ pattern_tokens rest.
Proof.
  intros Hs Hl Hr Hrest. apply Forall_app in Hs as [Hs1 Hs2].
  rewrite tokens_literal; [|done|].
  - f_equal. destruct Hr as [->|[r ->]]; [by rewrite decide_True|]. rewrite decide_False by done.
    change ((123 :: r) ++ rest) with (123 :: r ++ rest). rewrite tokens_seg.
    assert (Hlen : seg_len (123 :: r ++ rest) = length (123 :: r)).
    { unfold seg_len. change (123 :: r ++ rest) with ((123 :: r) ++ rest). destruct Hrest as [->|[q ->]].
      - rewrite app_nil_r, (proj2 (memchr_pos_None 47 (123 :: r)) Hs2). done.
      - by rewrite (memchr_pos_app 47 (123 :: r) q Hs2). }
    rewrite Hlen. change (123 :: r ++ rest) with ((123 :: r) ++ rest). by rewrite take_app_length, drop_app_length.
  - intros b. destruct (decide (2 <= length (raw ++ rest))%nat) as [|Hlen]; [by right|left]. intros E.
    assert (Hin : 47 ∈ lit).
    { destruct (raw ++ rest) as [|x [|y z]]; [| |cbn in Hlen; lia].
      - rewrite app_nil_r in E. rewrite E. set_solver.
      - change (b ++ [47; 42]) with (b ++ [47] ++ [42]) in E. rewrite app_assoc in E. apply app_inj_tail in E as [-> _]. set_solver. }
    rewrite Forall_forall in Hs1. by apply (Hs1 47).
Qed.

Lemma take_memchr (l : bytes) k :
  memchr_pos 47 l = Some k -> l = take k l ++ 47 :: drop (S k) l /\ Forall (fun c => c <> 47) (take k l) /\ (k < length l)%nat.
Proof.
  intros E. apply memchr_pos_Some in E as (a & b & -> & <- & Ha). rewrite take_app_length.
  replace (S (length a)) with (length a + 1)%nat by lia. rewrite <- drop_drop, drop_app_length.
  split; [done|]. split; [done|]. rewrite length_app. cbn. lia.
Qed.

(** The first segment after a slash, and the tokens of the rest. *)
Lemma tokens_next l lit raw rest :
  l = lit ++ raw ++ rest -> l <> [42] -> Forall (fun c => c <> 47) (lit ++ raw) -> Forall (fun c => c <> 123) lit ->
  raw = [] \/ (exists r, raw = 123 :: r) -> rest = [] \/ (exists r, rest = 47 :: r) ->
  pattern_tokens (47 :: l) = seg_toks lit raw ++ pattern_tokens rest.
Proof.
  intros -> Hl Hs Hlit Hr Hrest. rewrite tokens_char; [|done|intros E; by injection E as E].
  unfold seg_toks. cbn [app]. f_equal. rewrite <- app_assoc. by apply tokens_segment.
Qed.

Lemma parse_segments_spec fuel path pre l st st' :
  no_escape path -> path = pre ++ 47 :: l -> l <> [] -> (length l < fuel)%nat ->
  parse_segments regex fuel path (S (length pre)) st = Ret st' ->
  advances st (pattern_tokens (47 :: l)) st'.
Proof.
  intros Hn. revert pre l st. induction fuel as [|fuel IH]; intros pre l st Hp Hl Hf H; [lia|].
  cbn [parse_segments] in H.
  assert (Hdrop : drop (S (length pre)) path = l).
  { rewrite Hp. replace (S (length pre)) with (length pre + 1)%nat by lia. by rewrite <- drop_drop, drop_app_length. }
  assert (Hlen : length path = (S (length pre) + length l)%nat) by (rewrite Hp, length_app; cbn; lia).
  assert (Hnl : no_escape l) by (rewrite <- Hdrop; by apply no_escape_drop).
  rewrite decide_True in H by (destruct l; [done|cbn in *; lia]).
  unfold find_char, substr in H. rewrite Hdrop in H.
  destruct (memchr_pos 47 l) as [k|] eqn:Ek; cbn [option_map] in H.
  - destruct (take_memchr _ _ Ek) as (Hcut & Hsg & Hk).
    replace (S (length pre) + k - S (length pre))%nat with k in H by lia. rewrite andb_false_r in H.
    destruct (Nat.eqb_spec (length (take k l)) 0) as [|Hne]; [done|].
    destruct (parse_segment _ _ (take k l) 0 false st) as [st1|] eqn:Es; [|done].
    destruct (segment_spec _ _ _ (no_escape_take k l Hnl) Es) as (lit & raw & Hsplit & Hlit & Hraw & Hadv).
    rewrite (tokens_next l lit raw (47 :: drop (S k) l)).
    2:{ rewrite app_assoc, <- Hsplit. exact Hcut. }
    2:{ intros ->. done. }
    2:{ by rewrite <- Hsplit. }
    2:{ done. } 2:{ done. } 2:{ right. by eexists. }
    eapply advances_app; [exact Hadv|]. destruct (decide (drop (S k) l = [])) as [Hend|Hend].
    + (* the trailing slash of a strict pattern *)
      rewrite Hend. destruct fuel as [|fuel]; [lia|]. cbn [parse_segments] in H.
      apply (f_equal length) in Hend. rewrite length_drop in Hend. cbn in Hend.
      rewrite decide_False in H by lia. injection H as <-.
      change (pattern_tokens [47]) with (seg_toks [] []). unfold advances. rewrite seg_toks_cs, decide_True, app_nil_r by done.
      rewrite bool_decide_false, orb_false_r by apply seg_toks_any. repeat split; [by repeat constructor|cbn; lia].
    + apply (IH (pre ++ 47 :: take k l)); [rewrite Hp, Hcut at 1; by app_simpl|done|rewrite length_drop; lia|].
      rewrite <- H. f_equal. rewrite length_app. cbn. rewrite length_take. lia.
  - apply memchr_pos_None in Ek. rewrite andb_true_r in H.
    destruct (Nat.eqb_spec (length l) 0) as [|Hne]; [done|].
    destruct (bool_decide_reflect (l = [42])) as [->|Hstar].
    + destruct st as [[names cs w n s] named unnamed pk]. injection H as <-. rewrite tokens_any. unfold advances. cbn.
      rewrite app_nil_r, orb_true_r. repeat split; [by repeat constructor|lia].
    + destruct (parse_segment _ _ l 0 false st) as [st1|] eqn:Es; [|done]. injection H as <-.
      destruct (segment_spec _ _ _ Hnl Es) as (lit & raw & Hsplit & Hlit & Hraw & Hadv).
      rewrite (tokens_next l lit raw []), app_nil_r; [done|by rewrite app_nil_r|done|by rewrite <- Hsplit|done|done|by left].
Qed.

(** What [ParsePattern] gives for the patterns considered. *)
Lemma ParsePattern_spec path route :
  no_escape path -> path <> [47] -> ParsePattern regex path = Ret route ->
  let ts := pattern_tokens path in
  (exists l, path = 47 :: l) /\ Forall tok_ok ts /\ paramConstraints route = cs_of ts
  /\ length (paramNames route) = length (cs_of ts) /\ hasWildcard route = bool_decide (TAny ∈ ts).
Proof.
  intros Hn Hp H ts. unfold ParsePattern in H. destruct path as [|c l]; [done|]. unfold byte_at in H. cbn [nth] in H.
  destruct (Z.eqb_spec c 47) as [->|]; cbn [negb] in H; [|done].
  destruct (parse_segments _ _ _ 1 _) as [st|] eqn:E; [|done]. destruct (_ && _); [done|]. injection H as <-.
  destruct (parse_segments_spec (S (length (47%Z :: l))) (47 :: l) [] l _ st Hn eq_refl ltac:(intros ->; done) ltac:(cbn; lia) E) as (A1 & A2 & A3 & A4).
  cbn in A2, A3, A4. split; [by eexists|]. done.
Qed.
End Patterns.
