(* ===== verification/RadixTree.v ===== *)
(** The radix tree of the router (http/src/router.cpp): insertion and matching.  A node owns its
    children, so the tree is a value; the node an insertion returns is the one [finish] is applied
    to, with the route's metadata and its handlers. *)
From Stdlib Require Import ZArith List Lia Bool String.
From stdpp Require Import base list decidable.
From S2P Require Import Prelude.
From S2P Require Import Http1Request.
From S2P Require Import Cors.
From S2P Require Import RouteConstraint.
From S2P Require Import RoutePattern.
From S2P Require Import PathHandlerEntry.
Local Open Scope Z_scope.

Inductive NodeType := Static | Param | CatchAll.
#[export] Instance NodeType_eq_dec : EqDecision NodeType.
Proof. solve_decision. Defined.

Section Tree.
Context `{Callables}.

Record NodeData := MkNodeData {
  n_path : bytes; n_indices : bytes; n_route : option Route; n_priority : Z; n_type : NodeType;
  n_hasWildChild : bool; n_parts : list SegmentPart; n_constraint : RouteConstraint;
  n_segmentConstraints : list RouteConstraint; n_handlers : PathHandlerEntry
}.

(** Static children first, as many as indices, then the wildcard children. *)
#[local] Unset Elimination Schemes.
Inductive RadixNode := Node (d : NodeData) (children : list RadixNode).
#[local] Set Elimination Schemes.

Definition data (n : RadixNode) : NodeData := match n with Node d _ => d end.
Definition children (n : RadixNode) : list RadixNode := match n with Node _ cs => cs end.

Definition NodeData_empty : NodeData :=
  MkNodeData [] [] None 0 Static false [] Empty [] PathHandlerEntry_new.

Definition set_path (path : bytes) (d : NodeData) : NodeData :=
  let 'MkNodeData _ i r pr t w ps c sc h := d in MkNodeData path i r pr t w ps c sc h.
Definition set_indices (indices : bytes) (d : NodeData) : NodeData :=
  let 'MkNodeData p _ r pr t w ps c sc h := d in MkNodeData p indices r pr t w ps c sc h.
Definition set_route (route : option Route) (d : NodeData) : NodeData :=
  let 'MkNodeData p i _ pr t w ps c sc h := d in MkNodeData p i route pr t w ps c sc h.
Definition set_priority (priority : Z) (d : NodeData) : NodeData :=
  let 'MkNodeData p i r _ t w ps c sc h := d in MkNodeData p i r priority t w ps c sc h.
Definition set_hasWildChild (d : NodeData) : NodeData :=
  let 'MkNodeData p i r pr t _ ps c sc h := d in MkNodeData p i r pr t true ps c sc h.
Definition set_handlers (handlers : PathHandlerEntry) (d : NodeData) : NodeData :=
  let 'MkNodeData p i r pr t w ps c sc _ := d in MkNodeData p i r pr t w ps c sc handlers.

Definition map_data (f : NodeData -> NodeData) (n : RadixNode) : RadixNode := Node (f (data n)) (children n).
Definition incr_priority (n : RadixNode) : RadixNode :=
  map_data (fun d => set_priority (u32 (n_priority d + 1)) d) n.

Definition n_priority_of (n : RadixNode) : Z := n_priority (data n).

(** ** [incrementChildPrio] *)

(** Where the child at [pos] moves: before the children of a lower priority. *)
Fixpoint new_position (prio : Z) (cs : list RadixNode) (pos : nat) : nat :=
  match pos with
  | O => 0%nat
  | S p =>
      match cs !! p with
      | Some prev => if n_priority_of prev <? prio then new_position prio cs p else S p
      | None => S p
      end
  end.

(** The element at [pos] moved to [newPos] at most [pos], the ones between shifted right. *)
Definition rotate {A} (newPos pos : nat) (l : list A) : list A :=
  match l !! pos with
  | Some x => take newPos l ++ [x] ++ drop newPos (take pos l) ++ drop (S pos) l
  | None => l
  end.

Definition incrementChildPrio (pos : nat) (n : RadixNode) : RadixNode * nat :=
  match children n !! pos with
  | None => (n, pos)
  | Some child =>
      let cs := <[pos := incr_priority child]> (children n) in
      let newPos := new_position (n_priority_of (incr_priority child)) cs pos in
      (Node (set_indices (rotate newPos pos (n_indices (data n))) (data n)) (rotate newPos pos cs), newPos)
  end.

(** ** Insertion *)

(** [Broken] is an access out of bounds, which the code only excludes by an assertion; [Conflict]
    is the exception "Path conflicts with existing wildcard route", with the tree it leaves.
    [Done] comes with the exception that the assignment of the handlers threw, if any. *)
Abbreviation Exception := (option string).
Inductive Inserted := Done (n : RadixNode) (thrown : Exception) | Conflict (n : RadixNode) | Broken.

Definition map_inserted (f : RadixNode -> RadixNode) (r : Inserted) : Inserted :=
  match r with Done n e => Done (f n) e | Conflict n => Conflict (f n) | Broken => Broken end.

Definition inserted (r : RadixNode * Exception) : Inserted := Done (fst r) (snd r).

Definition insert_at {A} (pos : nat) (x : A) (l : list A) : list A := take pos l ++ x :: drop pos l.

(** How many of the elements of [l] precede the first one that [f] accepts. *)
Fixpoint find_pos {A} (f : A -> bool) (l : list A) : nat :=
  match l with [] => 0 | x :: l => if f x then 0 else S (find_pos f l) end%nat.

Definition kCatchAllPath : bytes := [47; 42].
Definition catch_all_node : RadixNode :=
  Node (MkNodeData kCatchAllPath [] None 0 CatchAll false [] Empty [] PathHandlerEntry_new) [].

(** Where a new parameter child goes, among the wildcard children. *)
Definition wildcard_position (constraint : RouteConstraint) (wildcards : list RadixNode) : nat :=
  if negb (constraint_empty constraint) then
    find_pos (fun c => negb (bool_decide (n_type (data c) = Param)) || constraint_empty (n_constraint (data c))) wildcards
  else find_pos (fun c => bool_decide (n_type (data c) = CatchAll)) wildcards.

Section Insert.
Variable route : Route.
(** What is done to the node: [created] when the insertion made it. *)
Variable finish : bool -> RadixNode -> RadixNode * Exception.

(** Give [node] the path and the children that the rest of the pattern asks for. *)
Fixpoint insertChild (fuel : nat) (node : RadixNode) (path : bytes) (paramIdx : nat) : Inserted :=
  match fuel with
  | O => Broken
  | S fuel =>
      match FindWildcard path with
      | None => inserted (finish true (map_data (set_path (unescape path)) node))
      | Some (first, last) =>
          if byte_at path first =? 123 then
            let node := if Nat.eqb first 0 then node else map_data (set_path (unescape (take first path))) node in
            let path := drop first path in
            let segEnd := find_char 47 path 0 in
            let paramSegment := match segEnd with None => path | Some e => take e path end in
            match segment_parts (S (length paramSegment)) (paramConstraints route) paramSegment 0 [] [] [] paramIdx with
            | None => Broken
            | Some (parts, constraints, paramIdx) =>
                let constraint :=
                  if Nat.eqb (length parts) 1 then nth (pred paramIdx) (paramConstraints route) Empty else Empty in
                let child := MkNodeData (unescape paramSegment) [] None 1 Param false parts constraint constraints
                               PathHandlerEntry_new in
                let nbStatic := length (n_indices (data node)) in
                let add child :=
                  let pos := (nbStatic + wildcard_position constraint (drop nbStatic (children node)))%nat in
                  Node (set_hasWildChild (data node)) (insert_at pos child (children node)) in
                match segEnd with
                | None => map_inserted add (inserted (finish true (Node child [])))
                | Some e =>
                    map_inserted (fun next => add (Node (set_indices [47] child) [next]))
                      (insertChild fuel (Node (set_priority 1 NodeData_empty) []) (drop e path) paramIdx)
                end
            end
          else
            let add child :=
              Node (set_hasWildChild (set_path (unescape (take (first - 1) path)) (data node)))
                (children node ++ [child]) in
            map_inserted add (inserted (finish true catch_all_node))
      end
  end.

(** A node cut after [len] bytes of its path: what is left of the path becomes its only child. *)
Definition split_node (len : nat) (node : RadixNode) : RadixNode :=
  let d := data node in
  let child :=
    Node (MkNodeData (drop len (n_path d)) (n_indices d) (n_route d) (u32 (n_priority d - 1)) Static
            (n_hasWildChild d) (n_parts d) Empty [] (n_handlers d)) (children node) in
  Node (MkNodeData (take len (n_path d)) [byte_at (n_path d) len] None (n_priority d) (n_type d) false []
          (n_constraint d) (n_segmentConstraints d) PathHandlerEntry_new) [child].

Definition is_catch_all_path (path : bytes) : bool :=
  bool_decide (path = [42]) || bool_decide (path = kCatchAllPath).

Definition count_params (parts : list SegmentPart) : nat := length (filter (fun p => is_param p) parts).

(** The wildcard child the rest of the pattern goes through, from position [pos]. *)
Fixpoint find_wildcard_child (path : bytes) (cs : list RadixNode) (pos : nat) : option nat :=
  match cs with
  | [] => None
  | c :: cs =>
      let next := find_wildcard_child path cs (S pos) in
      match n_type (data c) with
      | CatchAll => if is_catch_all_path path then Some pos else next
      | _ =>
          let nodePath := n_path (data c) in
          if negb (bool_decide (nodePath `prefix_of` path)) then next
          else if bool_decide (length nodePath < length path)%nat
                  && negb (byte_at path (length nodePath) =? 47) then next
          else Some pos
      end
  end.

(** A parameter child with the constraint of the new one, under another text. *)
Definition wildcard_conflict (path : bytes) (wildcards : list RadixNode) : bool :=
  let newConstraintPattern := ExtractConstraintPattern path in
  existsb (fun c => bool_decide (n_type (data c) = Param)
                    && bool_decide (ExtractConstraintPattern (n_path (data c)) = newConstraintPattern)) wildcards.

(** No child has the next byte: new ones for the rest of the pattern. *)
Definition insert_new (node : RadixNode) (path : bytes) (paramIdx : nat) : Inserted :=
  let firstChar := byte_at path 0 in
  let nbStatic := length (n_indices (data node)) in
  if is_catch_all_path path then
    map_inserted (fun child => Node (set_hasWildChild (data node)) (children node ++ [child]))
      (inserted (finish true catch_all_node))
  else if firstChar =? 123 then insertChild (S (length path)) node path paramIdx
  else
    let fresh := Node NodeData_empty [] in
    let cs := if n_hasWildChild (data node) then insert_at nbStatic fresh (children node)
              else children node ++ [fresh] in
    let node := Node (set_indices (n_indices (data node) ++ [firstChar]) (data node)) cs in
    let '(node, newPos) := incrementChildPrio nbStatic node in
    match children node !! newPos with
    | None => Broken
    | Some child =>
        map_inserted (fun child => Node (data node) (<[newPos := child]> (children node)))
          (insertChild (S (length path)) child path paramIdx)
    end.

(** The walk of [insertRoute], after the test of the empty tree. *)
Fixpoint insert_walk (fuel : nat) (node : RadixNode) (path : bytes) (paramIdx : nat) : Inserted :=
  match fuel with
  | O => Broken
  | S fuel =>
      let commonPrefixLen := LongestCommonPrefix path (n_path (data node)) in
      let node :=
        if decide (commonPrefixLen < length (n_path (data node)))%nat then split_node commonPrefixLen node
        else node in
      if decide (commonPrefixLen < length path)%nat then
        let path := drop commonPrefixLen path in
        let firstChar := byte_at path 0 in
        match memchr_pos firstChar (n_indices (data node)) with
        | Some foundPos =>
            let '(node, newPos) := incrementChildPrio foundPos node in
            match children node !! newPos with
            | None => Broken
            | Some child =>
                map_inserted (fun child => Node (data node) (<[newPos := child]> (children node)))
                  (insert_walk fuel child path paramIdx)
            end
        | None =>
            let nbStatic := length (n_indices (data node)) in
            if n_hasWildChild (data node) && ((firstChar =? 123) || is_catch_all_path path) then
              let wildcards := drop nbStatic (children node) in
              match find_wildcard_child path wildcards nbStatic with
              | Some pos =>
                  match children node !! pos with
                  | None => Broken
                  | Some child =>
                      match n_type (data child) with
                      | CatchAll =>
                          map_inserted (fun child => Node (data node) (<[pos := child]> (children node)))
                            (inserted (finish false child))
                      | _ =>
                          map_inserted (fun child => Node (data node) (<[pos := child]> (children node)))
                            (insert_walk fuel (incr_priority child) path
                               (paramIdx + count_params (n_parts (data child))))
                      end
                  end
              | None =>
                  if (firstChar =? 123) && wildcard_conflict path wildcards then Conflict node
                  else insert_new node path paramIdx
              end
            else insert_new node path paramIdx
        end
      else inserted (finish false node)
  end.
End Insert.

Fixpoint height (n : RadixNode) : nat :=
  match n with Node _ cs => S (list_max (map height cs)) end.

(** The end of [insertRoute]: a new node gets the metadata, another one unless it has some; then
    the variant of the slash is noted and the handlers are assigned. *)
Definition finish_route (route : Route) (pathHasTrailingSlash : bool)
    (assign : PathHandlerEntry -> PathHandlerEntry * Exception) (created : bool) (n : RadixNode)
  : RadixNode * Exception :=
  let fresh := MkRoute (paramNames route) (paramConstraints route) (hasWildcard route) false false in
  let r := if created then fresh else default fresh (n_route (data n)) in
  let 'MkRoute names cs w no withSlash := r in
  let r := if pathHasTrailingSlash then MkRoute names cs w no true else MkRoute names cs w true withSlash in
  let '(handlers, thrown) := assign (n_handlers (data n)) in
  (map_data (fun d => set_handlers handlers (set_route (Some r) d)) n, thrown).

Definition insertRoute (root : option RadixNode) (path : bytes) (route : Route) (pathHasTrailingSlash : bool)
    (assign : PathHandlerEntry -> PathHandlerEntry * Exception) : Inserted :=
  let root := incr_priority (default (Node NodeData_empty []) root) in
  let finish := finish_route route pathHasTrailingSlash assign in
  if Nat.eqb (length (n_path (data root))) 0 then
    insertChild route finish (S (length path)) root path 0
  else insert_walk route finish (S (height root)) root path 0.

(** ** Matching *)

Section Match.
Variable std_regex : bytes -> option (bytes -> bool).

(** [matchParamParts]: the captured values, if the segment is made of the parts; [None] is an
    assertion that fails: a literal that is not where the previous capture ended, two parameters in
    a row, or a constraint past the end of the array. *)
Fixpoint match_parts (parts : list SegmentPart) (segment : bytes) (constraints : list RouteConstraint)
    (pos : nat) : option (option (list bytes)) :=
  match parts with
  | [] => Some (if Nat.eqb pos (length segment) then Some [] else None)
  | part :: parts =>
      if negb (is_param part) then
        if bool_decide (part `prefix_of` drop pos segment)
        then match_parts parts segment constraints (pos + length part) else None
      else
        match parts with
        | next :: _ => if is_param next then None else Some (option_map (Nat.add pos) (find_sub next (drop pos segment)))
        | [] => Some (Some (length segment))
        end ≫= fun found =>
        match found with
        | None => Some None
        | Some captureEnd =>
            let captured := substr segment pos (captureEnd - pos) in
            match constraints with
            | [] => None
            | c :: constraints =>
                if constraint_matches std_regex c captured then
                  option_map (option_map (cons captured)) (match_parts parts segment constraints captureEnd)
                else Some None
            end
        end
  end.

Variable strict : bool.
Variable requestHasTrailingSlash : bool.

(** The catch-all child of [node], which is its last child. *)
Definition catch_all_child (node : RadixNode) : option RadixNode :=
  if decide (length (n_indices (data node)) < length (children node))%nat then
    match List.last (map Some (children node)) None with
    | Some c => if bool_decide (n_type (data c) = CatchAll) then Some c else None
    | None => None
    end
  else None.

(** The node matched and the captured values; the outcome of the walk is [None] when an assertion
    fails. *)
Abbreviation Matched := (option (RadixNode * list bytes)).

(** A catch-all taken as the match, which must have a route. *)
Definition take_catch_all (c : RadixNode) (m : Matched) : option Matched :=
  match n_route (data c) with Some _ => Some m | None => None end.

Definition fallbackToCatchAll (fallback : Matched) : option Matched :=
  match fallback with
  | Some (c, buffer) =>
      if strict && requestHasTrailingSlash then Some None else take_catch_all c (Some (c, buffer))
  | None => Some None
  end.

(** What the wildcard children give: a result, or the node to go on with, the rest of the path and
    the values captured; [NextChild] when none of them fits. *)
Inductive WildcardStep :=
| Return (m : option Matched) | Descend (n : RadixNode) (path : bytes) (buffer : list bytes) | NextChild.

Fixpoint try_wildcards (cs : list RadixNode) (path : bytes) (buffer : list bytes) : WildcardStep :=
  match cs with
  | [] => NextChild
  | c :: cs =>
      let next := try_wildcards cs path buffer in
      let segEnd := find_char 47 path 0 in
      let segment := match segEnd with None => path | Some e => take e path end in
      let d := data c in
      match n_type d with
      | Param =>
          if negb (constraint_empty (n_constraint d)) && negb (constraint_matches std_regex (n_constraint d) segment)
          then next
          else if bool_decide (n_parts d = []) then Return None
          else
            match match_parts (n_parts d) segment (n_segmentConstraints d) 0 with
            | None => Return None
            | Some None => next
            | Some (Some captured) =>
                match segEnd with
                | Some e =>
                    match children c with
                    | first :: _ => Descend first (drop e path) (buffer ++ captured)
                    | [] => next
                    end
                | None =>
                    match n_route d with
                    | Some _ => Return (Some (Some (c, buffer ++ captured)))
                    | None => next
                    end
                end
            end
      | CatchAll =>
          Return (take_catch_all c (if strict && requestHasTrailingSlash then None else Some (c, buffer)))
      | Static => Return None
      end
  end.

(** The static child whose path starts the rest. *)
Fixpoint find_static (indices : bytes) (cs : list RadixNode) (path : bytes) : option RadixNode :=
  match indices, cs with
  | i :: indices, c :: cs =>
      if (i =? byte_at path 0) && bool_decide (n_path (data c) `prefix_of` path) then Some c
      else find_static indices cs path
  | _, _ => None
  end.

(** [rememberCatchAllFallback] *)
Definition rememberCatchAllFallback (node : RadixNode) (buffer : list bytes) (fallback : Matched) : option Matched :=
  match catch_all_child node with
  | Some c => take_catch_all c (Some (c, buffer))
  | None => Some fallback
  end.

(** The walk of [matchImpl]. *)
Fixpoint match_walk (fuel : nat) (node : RadixNode) (path : bytes) (buffer : list bytes) (fallback : Matched)
  : option Matched :=
  match fuel with
  | O => None
  | S fuel =>
      let prefix := n_path (data node) in
      if decide (length prefix < length path)%nat then
        if bool_decide (prefix `prefix_of` path) then
          let path := drop (length prefix) path in
          match find_static (n_indices (data node)) (children node) path with
          | Some child => rememberCatchAllFallback node buffer fallback ≫= match_walk fuel child path buffer
          | None =>
              match (if n_hasWildChild (data node)
                     then try_wildcards (drop (length (n_indices (data node))) (children node)) path buffer
                     else NextChild) with
              | Return m => m
              | Descend child path buffer => match_walk fuel child path buffer fallback
              | NextChild => fallbackToCatchAll fallback
              end
          end
        else fallbackToCatchAll fallback
      else if bool_decide (path = prefix) then
        match n_route (data node) with
        | Some _ => Some (Some (node, buffer))
        | None =>
            match catch_all_child node with
            | Some c =>
                take_catch_all c (Some (c, buffer)) ≫= fun m =>
                if negb strict || negb requestHasTrailingSlash then Some m else fallbackToCatchAll fallback
            | None => fallbackToCatchAll fallback
            end
        end
      else fallbackToCatchAll fallback
  end.

Definition matchImpl (root : option RadixNode) (path : bytes) : option Matched :=
  match root with
  | None => Some None
  | Some root => match_walk (height root) root path [] None
  end.
End Match.
End Tree.
