(* ===== verification/RadixTreeProofs.v ===== *)
(** The invariant of the radix tree, and the soundness of matching: what it returns is a node whose
    route was registered there, under a pattern that the path is an instance of or whose last static
    text it continues, with the values of the parameters; and no assertion of the match fails. *)
From Stdlib Require Import ZArith List Lia Bool String.
From stdpp Require Import base list decidable.
From S2P Require Import Prelude.
From S2P Require Import Cors.
From S2P Require Import RouteConstraint.
From S2P Require Import RoutePattern.
From S2P Require Import RoutePatternProofs.
From S2P Require Import PathHandlerEntry.
From S2P Require Import RadixTree.
Local Open Scope Z_scope.

Section Invariant.
Context `{C : Callables}.
Variable regex : bytes -> option (bytes -> bool).

(** What a node adds to the pattern. *)
Definition own (d : NodeData) : list Tok :=
  match n_type d with
  | Static => map TChar (n_path d)
  | Param => [TSeg (n_path d)]
  | CatchAll => [TAny]
  end.

Definition segment_ok (d : NodeData) : Prop :=
  exists ps cs r, n_parts d = ps /\ n_segmentConstraints d = cs
    /\ seg_spec regex (n_path d) = Some (ps, cs) /\ parts_from true ps /\ param_count ps = length cs
    /\ no_escape (n_path d) /\ n_path d = 123 :: r /\ Forall (fun c => c <> 47) (n_path d).

Definition data_ok (d : NodeData) : Prop :=
  match n_type d with
  | Static => Forall (fun c => c <> 123 /\ c <> 42) (n_path d)
  | Param => segment_ok d
  | CatchAll => n_path d = kCatchAllPath /\ n_route d <> None
  end.

Definition type_of (n : RadixNode) : NodeType := n_type (data n).

(** The static children, as many as indices, then the wildcard ones; below a parameter the only
    wildcard is a catch-all, which has no child. *)
Definition shape_ok (d : NodeData) (cs : list RadixNode) : Prop :=
  let k := length (n_indices d) in
  (k <= length cs)%nat
  /\ Forall (fun c => type_of c = Static) (take k cs)
  /\ Forall (fun c => type_of c <> Static /\ (n_type d = Param -> type_of c = CatchAll)) (drop k cs)
  /\ (n_type d = CatchAll -> cs = [])
  /\ (n_hasWildChild d = false -> drop k cs = []).

(** [Q] says which names of parameters and which handlers are registered under which pattern; a
    node without route has no handler. *)
Definition Registrations : Type := list Tok -> list bytes -> PathHandlerEntry -> Prop.

Definition node_reg (Q : Registrations) (ts : list Tok) (d : NodeData) : Prop :=
  match n_route d with
  | Some r => Q ts (paramNames r) (n_handlers d)
  | None => n_handlers d = PathHandlerEntry_new
  end.

Lemma node_reg_some Q ts d r : node_reg Q ts d -> n_route d = Some r -> Q ts (paramNames r) (n_handlers d).
Proof. unfold node_reg. intros H E. by rewrite E in H. Qed.

Lemma node_reg_weaken Q1 Q2 ts d :
  (forall ts names h, Q1 ts names h -> Q2 ts names h) -> node_reg Q1 ts d -> node_reg Q2 ts d.
Proof. unfold node_reg. intros Hq. destruct (n_route d); [apply Hq|done]. Qed.

Inductive node_ok (Q : Registrations) : list Tok -> RadixNode -> Prop :=
| node_ok_intro ts d cs :
    node_reg Q (ts ++ own d) d ->
    data_ok d -> shape_ok d cs -> Forall (node_ok Q (ts ++ own d)) cs ->
    node_ok Q ts (Node d cs).

Lemma node_ok_weaken Q1 Q2 (Hq : forall ts names h, Q1 ts names h -> Q2 ts names h) ts n :
  node_ok Q1 ts n -> node_ok Q2 ts n.
Proof.
  revert ts n. fix IH 3. intros ts n [ts' d cs Hr Hd Hs Hc].
  constructor; [by eapply node_reg_weaken|done|done|]. clear Hs Hd Hr.
  induction Hc as [|c cs Hc Hcs IHc]; constructor; [by apply IH|exact IHc].
Qed.

Lemma node_ok_inv Q ts n :
  node_ok Q ts n ->
  node_reg Q (ts ++ own (data n)) (data n)
  /\ data_ok (data n) /\ shape_ok (data n) (children n) /\ Forall (node_ok Q (ts ++ own (data n))) (children n).
Proof. by intros [ts' d cs H1 H2 H3 H4]. Qed.

Lemma height_incr n : height (incr_priority n) = height n.
Proof. by destruct n. Qed.

Lemma height_child d cs c : c ∈ cs -> (height c < height (Node d cs))%nat.
Proof.
  intros Hc. cbn [height]. pose proof (proj1 (list_max_le _ _) (le_n (list_max (map height cs)))) as H.
  rewrite Forall_forall in H. specialize (H (height c)). rewrite list_elem_of_fmap in H.
  enough (height c <= list_max (map height cs))%nat by lia. apply H. by exists c.
Qed.

(** ** Parts *)

Lemma seg_parse_parts fuel l literal parts cs ps cs' :
  seg_parse regex fuel l literal parts cs = Some (ps, cs') -> exists ps', ps = parts ++ ps'.
Proof.
  assert (Hflush : forall literal parts, exists more, flush_literal literal parts = parts ++ more).
  { intros lit qs. unfold flush_literal. destruct (Nat.eqb _ _); [exists []; by rewrite app_nil_r|by exists [lit]]. }
  revert l literal parts cs. induction fuel as [|fuel IH]; intros l literal parts cs; cbn [seg_parse]; [done|].
  destruct (Hflush literal parts) as [more Hmore]. destruct l as [|c r]; [intros [= <- _]; by exists more|].
  destruct (c =? 123); [|apply IH].
  destruct (param_end r) as [k|]; [|done]. destruct (RouteConstraint_new _ _); [|done].
  intros H. apply IH in H as [ps' ->]. rewrite Hmore. exists ((more ++ [[]]) ++ ps'). by app_simpl.
Qed.

Lemma seg_spec_nonempty r ps cs : seg_spec regex (123 :: r) = Some (ps, cs) -> ps <> [].
Proof.
  unfold seg_spec. generalize (length (123 :: r)). intros n. cbn [seg_parse]. cbn [Z.eqb Pos.eqb].
  destruct (param_end r) as [k|]; [|done]. destruct (RouteConstraint_new _ _); [|done].
  intros H. apply seg_parse_parts in H as [ps' ->]. done.
Qed.

(** No assertion of [matchParamParts] fails, and what it captures makes the segment. *)
Lemma match_parts_inst parts cs segment pos :
  (pos <= length segment)%nat -> param_count parts = length cs ->
  (exists b, parts_from b parts
     /\ (b = false -> match parts with [] => True | p :: _ => p `prefix_of` drop pos segment end)) ->
  exists m, match_parts regex parts segment cs pos = Some m
    /\ forall caps, m = Some caps -> parts_inst regex parts cs (drop pos segment) caps.
Proof.
  revert cs pos. induction parts as [|p parts IH]; intros cs pos Hpos Hcount (b & Hb & Hlit); cbn [match_parts].
  - eexists. split; [done|]. intros caps H. destruct (Nat.eqb_spec pos (length segment)) as [->|]; [|done].
    injection H as <-. destruct cs; [|done]. rewrite drop_all. constructor.
  - destruct Hb as [Hpb Hb]. unfold param_count in Hcount. rewrite filter_cons in Hcount.
    destruct (is_param p) eqn:Ep; cbn [negb].
    + subst b. cbn [negb] in Hb. rewrite decide_True in Hcount by done. destruct cs as [|c cs]; [done|]. injection Hcount as Hcount.
      assert (Hfound : exists found,
        match parts with
        | next :: _ => if is_param next then None else Some (option_map (Nat.add pos) (find_sub next (drop pos segment)))
        | [] => Some (Some (length segment))
        end = Some found
        /\ forall e, found = Some e -> (pos <= e <= length segment)%nat
             /\ match parts with [] => True | q :: _ => q `prefix_of` drop e segment end).
      { destruct parts as [|q parts]; [eexists; split; [done|]; intros e [= <-]; by split; [lia|]|].
        destruct Hb as [-> _]. eexists. split; [done|]. intros e He.
        destruct (find_sub q (drop pos segment)) as [k|] eqn:Ek; [|done]. injection He as <-.
        apply find_sub_Some in Ek as [Hk Hq]. rewrite length_drop in Hk. rewrite drop_drop in Hq. split; [lia|done]. }
      destruct Hfound as (found & -> & He). cbn [mbind option_bind].
      destruct found as [e|]; [|by exists None]. destruct (He e eq_refl) as [Hle Hpre].
      destruct (constraint_matches regex c _) eqn:Ec; [|by exists None].
      destruct (IH cs e ltac:(lia) Hcount) as (m & -> & Hm); [by exists false|].
      eexists. split; [done|]. intros caps H. destruct m as [caps'|]; [|done]. injection H as <-.
      assert (Hd : drop pos segment = substr segment pos (e - pos) ++ drop e segment).
      { unfold substr. replace e with (pos + (e - pos))%nat at 2 by lia. by rewrite <- drop_drop, take_drop. }
      rewrite Hd. constructor; [done|done|by apply Hm].
    + subst b. cbn [negb] in Hb. rewrite decide_False in Hcount by (cbn; tauto).
      pose proof (Hlit eq_refl) as Hp. rewrite bool_decide_true by done. destruct Hp as [k Hk].
      assert (Hd : drop (pos + length p) segment = k) by (by rewrite <- drop_drop, Hk, drop_app_length).
      assert (Hlen : (pos + length p <= length segment)%nat).
      { apply (f_equal length) in Hk. rewrite length_drop, length_app in Hk. destruct p; [done|]. cbn in *. lia. }
      destruct (IH cs (pos + length p)%nat Hlen Hcount) as (m & -> & Hm); [by exists true|].
      eexists. split; [done|]. intros caps H. rewrite Hk. constructor; [done|]. rewrite <- Hd. by apply Hm.
Qed.

(** ** Matching *)

Section Match.
Variable Q : Registrations.
Variables (strict slash : bool).
Variable path : bytes.

(** What a match promises: no assertion fails, and the node matched has a route, registered under
    a pattern that the path is an instance of, or whose text it continues. *)
Definition sound (m : option (option (RadixNode * list bytes))) : Prop :=
  match m with
  | None => False
  | Some None => True
  | Some (Some (n, caps)) => exists r ts, n_route (data n) = Some r
      /\ Q ts (paramNames r) (n_handlers (data n))
      /\ (inst regex ts path caps \/ continues regex ts path caps)
  end.

Lemma own_any d : n_type d <> CatchAll -> TAny ∉ own d.
Proof.
  unfold own. destruct (n_type d); intros Ht; [|set_solver|done].
  rewrite list_elem_of_fmap. by intros (? & ? & _).
Qed.

(** A node whose text is consumed. *)
Definition consumed (ts : list Tok) (pre : bytes) (buffer : list bytes) (rest : bytes) : Prop :=
  path = pre ++ rest /\ (TAny ∉ ts) /\ inst regex ts pre buffer /\ (text_end ts \/ boundary rest).

Lemma consumed_any ts pre buffer rest :
  consumed ts pre buffer rest -> inst regex (ts ++ [TAny]) path buffer \/ continues regex (ts ++ [TAny]) path buffer.
Proof.
  intros (-> & Ha & Hi & [Ht|Hb]); [right; by exists ts, pre, rest|left; by apply inst_boundary].
Qed.

(** A fallback that was remembered. *)
Definition fallback_ok (m : option (RadixNode * list bytes)) : Prop := sound (Some m).

Lemma take_catch_all_sound n buffer m : sound (Some (Some (n, buffer))) -> fallback_ok m -> sound (take_catch_all n m).
Proof. intros (r & ts & Hr & _) Hm. unfold take_catch_all. by rewrite Hr. Qed.

Lemma fallbackToCatchAll_sound fb : fallback_ok fb -> sound (fallbackToCatchAll strict slash fb).
Proof.
  intros H. destruct fb as [[c buffer]|]; [|done]. cbn. destruct (_ && _); [done|]. by eapply take_catch_all_sound.
Qed.

(** The catch-all child of a node whose text is consumed. *)
Lemma catch_all_consumed ts pre buffer rest c :
  node_ok Q ts c -> type_of c = CatchAll -> consumed ts pre buffer rest -> sound (Some (Some (c, buffer))).
Proof.
  intros Hc Ht Hcon. apply node_ok_inv in Hc as (Hr & Hd & _ & _). unfold type_of in Ht.
  unfold data_ok in Hd. unfold own in Hr. rewrite Ht in Hd, Hr. destruct Hd as [_ Hd].
  destruct (n_route (data c)) as [r|] eqn:Er; [|done]. exists r, (ts ++ [TAny]). split; [done|].
  split; [by eapply node_reg_some|by eapply consumed_any].
Qed.

Lemma catch_all_child_sound ts n buffer pre rest c :
  Forall (node_ok Q ts) (children n) -> consumed ts pre buffer rest ->
  catch_all_child n = Some c -> sound (Some (Some (c, buffer))).
Proof.
  intros Hc Hcon H. unfold catch_all_child in H. destruct (decide _); [|done].
  destruct (List.last _ None) as [c'|] eqn:El; [|done]. destruct (bool_decide_reflect (n_type (data c') = CatchAll)) as [Ht|]; [|done].
  injection H as ->.
  assert (Hin : c ∈ children n).
  { clear -El. induction (children n) as [|x l IH]; [done|]. destruct l as [|y l]; [injection El as ->; set_solver|].
    right. by apply IH. }
  rewrite Forall_forall in Hc. by eapply catch_all_consumed; [apply Hc|..].
Qed.

(** The segment that the parameters are tried on. *)
Lemma segment_cut rest :
  let e := find_char 47 rest 0 in
  let segment := match e with Some e => take e rest | None => rest end in
  let next := match e with Some e => drop e rest | None => [] end in
  Forall (fun x => x <> 47) segment /\ rest = segment ++ next /\ boundary next.
Proof.
  unfold find_char. rewrite drop_0. cbn zeta. destruct (memchr_pos 47 rest) as [e|] eqn:E; cbn [option_map Nat.add].
  - destruct (take_memchr _ _ E) as (_ & H & _). split; [done|]. split; [by rewrite take_drop|].
    apply memchr_pos_Some in E as (a & b & -> & <- & _). by rewrite drop_app_length.
  - apply memchr_pos_None in E. by rewrite app_nil_r.
Qed.

(** A parameter child: its parts, on the segment. *)
Lemma param_consumed ts c pre buffer rest :
  node_ok Q ts c -> type_of c = Param -> consumed ts pre buffer rest ->
  let e := find_char 47 rest 0 in
  let segment := match e with Some e => take e rest | None => rest end in
  let next := match e with Some e => drop e rest | None => [] end in
  n_parts (data c) <> []
  /\ exists m, match_parts regex (n_parts (data c)) segment (n_segmentConstraints (data c)) 0 = Some m
    /\ forall caps, m = Some caps -> consumed (ts ++ [TSeg (n_path (data c))]) (pre ++ segment) (buffer ++ caps) next.
Proof.
  intros Hc Ht (Hp & Ha & Hi & _) e segment next. apply node_ok_inv in Hc as (_ & Hd & _ & _).
  unfold data_ok, type_of in *. rewrite Ht in Hd.
  destruct Hd as (ps & kcs & r & -> & -> & Hspec & Hfrom & Hcount & _ & Hraw & _).
  split; [rewrite Hraw in Hspec; by eapply seg_spec_nonempty|].
  destruct (match_parts_inst ps kcs segment 0 ltac:(lia) Hcount ltac:(by exists true)) as (m & -> & Hm).
  exists m. split; [done|]. intros caps E. specialize (Hm caps E). rewrite drop_0 in Hm.
  destruct (segment_cut rest) as (Hno & Hrest & Hb). fold e segment next in Hno, Hrest, Hb.
  split; [by rewrite Hp, Hrest, app_assoc|]. split; [set_solver|]. split; [|by right].
  apply inst_app; [done..|]. rewrite <- (app_nil_r segment), <- (app_nil_r caps). econstructor; [done..|constructor].
Qed.

Lemma try_wildcards_sound ts cs rest buffer pre :
  Forall (node_ok Q ts) cs -> Forall (fun c => type_of c <> Static) cs -> consumed ts pre buffer rest ->
  match try_wildcards regex strict slash cs rest buffer with
  | Return m => sound m
  | Descend n rest' buffer' =>
      exists c ts' pre', c ∈ cs /\ n ∈ children c /\ node_ok Q ts' n /\ type_of n <> Param /\ consumed ts' pre' buffer' rest'
  | NextChild => True
  end.
Proof.
  intros Hc Ht Hcon. induction Hc as [|c cs Hc Hcs IH]; [done|]. apply Forall_cons in Ht as [Htc Ht].
  assert (IH' : match try_wildcards regex strict slash cs rest buffer with
    | Return m => sound m
    | Descend n rest' buffer' =>
        exists c' ts' pre', c' ∈ c :: cs /\ n ∈ children c' /\ node_ok Q ts' n /\ type_of n <> Param /\ consumed ts' pre' buffer' rest'
    | NextChild => True
    end).
  { specialize (IH Ht). destruct (try_wildcards _ _ _ cs rest buffer); [done| |done].
    destruct IH as (c' & ts' & pre' & Hin & H). exists c', ts', pre'. split; [by right|done]. }
  clear IH. cbn [try_wildcards]. unfold type_of in Htc. destruct (n_type (data c)) eqn:Ety; [done| |].
  - destruct (negb _ && negb _); [done|].
    destruct (param_consumed ts c pre buffer rest Hc Ety Hcon) as (Hne & m & -> & Hm).
    rewrite bool_decide_false by done. destruct m as [caps|]; [|done]. specialize (Hm caps eq_refl).
    apply node_ok_inv in Hc as (Hr & _ & Hs & Hch). unfold own in Hr, Hch. rewrite Ety in Hr, Hch.
    destruct (find_char 47 rest 0) as [e|].
    + destruct (children c) as [|first more] eqn:Ech; [done|].
      exists c, (ts ++ [TSeg (n_path (data c))]), (pre ++ take e rest). split; [by left|]. split; [rewrite Ech; by left|].
      apply Forall_cons in Hch as [Hf _]. split; [done|]. split; [|done].
      destruct Hs as (Hk & Hs1 & Hs2 & _). rewrite Ety in *. destruct (length (n_indices (data c))) as [|k]; cbn in *.
      * apply Forall_cons in Hs2 as [[_ Hs2] _]. by rewrite (Hs2 eq_refl).
      * apply Forall_cons in Hs1 as [Hs1 _]. by rewrite Hs1.
    + destruct (n_route (data c)) as [r0|] eqn:Er; [|done]. exists r0, (ts ++ [TSeg (n_path (data c))]).
      split; [done|]. split; [by eapply node_reg_some|]. left.
      destruct Hm as (Hp' & _ & Hi' & _). by rewrite Hp', app_nil_r.
  - pose proof (catch_all_consumed _ _ _ _ _ Hc Ety Hcon) as Hm. eapply take_catch_all_sound; [exact Hm|].
    by destruct (strict && slash).
Qed.

Lemma find_static_in indices cs rest c :
  find_static indices cs rest = Some c -> c ∈ take (length indices) cs.
Proof.
  revert cs. induction indices as [|i indices IH]; intros [|x cs]; cbn; try done.
  destruct (_ && _); [intros [= ->]; by left|]. intros H. right. by apply IH.
Qed.

(** The text of a static node. *)
Lemma static_consumed ts n pre buffer rest r' :
  type_of n = Static -> consumed ts pre buffer rest -> rest = n_path (data n) ++ r' ->
  consumed (ts ++ own (data n)) (pre ++ n_path (data n)) buffer r'.
Proof.
  intros Ht (Hp & Ha & Hi & Hb) ->. unfold own, type_of in *. rewrite Ht.
  split; [by rewrite Hp, app_assoc|]. split.
  { rewrite elem_of_app, list_elem_of_fmap. intros [?|(? & ? & _)]; done. }
  split; [rewrite <- (app_nil_r buffer); apply inst_app; [done|done|apply inst_chars]|].
  destruct (n_path (data n)) as [|c l]; [by rewrite app_nil_r|]. left. apply text_end_chars. by left.
Qed.

Lemma match_walk_sound fuel n rest buffer fallback ts pre :
  (height n <= fuel)%nat ->
  node_ok Q ts n -> type_of n <> Param -> consumed ts pre buffer rest -> fallback_ok fallback ->
  sound (match_walk regex strict slash fuel n rest buffer fallback).
Proof.
  revert n rest buffer fallback ts pre.
  induction fuel as [|fuel IH]; intros n rest buffer fallback ts pre Hfuel Hn Ht Hcon Hfb.
  { destruct n as [d cs]. cbn in Hfuel. lia. }
  cbn [match_walk]. pose proof (fallbackToCatchAll_sound _ Hfb) as Hfall. pose proof Hn as Hnode.
  apply node_ok_inv in Hn as (Hr & Hd & Hs & Hch). unfold type_of in Ht.
  destruct (decide (n_type (data n) = CatchAll)) as [Hcatch|Hcatch].
  - (* a catch-all below a parameter, taken for a literal *)
    destruct Hs as (Hk & _ & _ & Hnil & _). specialize (Hnil Hcatch). rewrite Hnil in *. cbn in Hk.
    pose proof (catch_all_consumed _ _ _ _ _ Hnode Hcatch Hcon) as Hm.
    destruct (n_indices (data n)); [|cbn in Hk; lia]. cbn [find_static length drop].
    destruct (decide _); [destruct (bool_decide _); [destruct (n_hasWildChild _)|]; done|].
    destruct (bool_decide _); [|done]. pose proof Hm as (r0 & ts0 & Hr0 & _).
    rewrite Hr0. exact Hm.
  - assert (Hty : type_of n = Static) by (unfold type_of; destruct (n_type (data n)); congruence).
    pose proof (fun r' => static_consumed ts n pre buffer rest r' Hty Hcon) as Hnext.
    destruct Hs as (Hk & Hs1 & Hs2 & _ & _).
    destruct (decide _) as [Hlt|Hge].
    + destruct (bool_decide_reflect (n_path (data n) `prefix_of` rest)) as [[r' Hr']|]; [|done].
      rewrite Hr', drop_app_length. specialize (Hnext r' Hr').
      destruct (find_static _ _ _) as [c|] eqn:Ef.
      * apply find_static_in in Ef. rewrite Forall_forall in Hs1, Hch. specialize (Hs1 c Ef).
        assert (Hin : c ∈ children n) by (by eapply subseteq_take in Ef).
        assert (Hfb' : sound (rememberCatchAllFallback n buffer fallback)).
        { unfold rememberCatchAllFallback. destruct (catch_all_child n) eqn:Eca; [|done].
          assert (Hm : sound (Some (Some (r, buffer)))) by (eapply catch_all_child_sound; [|exact Hnext|exact Eca]; by apply Forall_forall).
          by eapply take_catch_all_sound. }
        destruct (rememberCatchAllFallback n buffer fallback) as [fb|]; [|done]. cbn [mbind option_bind].
        eapply IH; [|by apply Hch|by rewrite Hs1|exact Hnext|exact Hfb'].
        destruct n as [d cs]. pose proof (height_child d cs c Hin). lia.
      * destruct (n_hasWildChild (data n)); [|done].
        pose proof (try_wildcards_sound _ (drop (length (n_indices (data n))) (children n)) r' buffer _
          ltac:(by apply Forall_drop) ltac:(eapply Forall_impl; [exact Hs2|]; by intros ? [? _]) Hnext) as Hw.
        destruct (try_wildcards _ _ _ _ _ _) as [m|c rest' buffer'|]; [done| |done].
        destruct Hw as (w & ts' & pre' & Hw & Hcw & Hok & Hnp & Hc'). eapply IH; [|done..].
        apply (subseteq_drop (length (n_indices (data n)))) in Hw. destruct n as [d cs], w as [dw csw].
        pose proof (height_child d cs _ Hw). pose proof (height_child dw csw _ Hcw). lia.
    + destruct (bool_decide_reflect (rest = n_path (data n))) as [E|]; [|done].
      specialize (Hnext [] ltac:(by rewrite app_nil_r)).
      destruct (n_route (data n)) as [r|] eqn:Er.
      * exists r, (ts ++ own (data n)). split; [done|]. split; [by eapply node_reg_some|]. left.
        destruct Hnext as (-> & _ & Hi' & _). by rewrite app_nil_r.
      * destruct (catch_all_child n) as [c|] eqn:Eca; [|done].
        pose proof (catch_all_child_sound _ _ _ _ _ _ Hch Hnext Eca) as Hm.
        pose proof (take_catch_all_sound _ _ _ Hm Hm) as Htk. destruct (take_catch_all _ _) as [m|]; [|done].
        cbn [mbind option_bind]. by destruct (_ || _).
Qed.
End Match.

(** What the whole match promises. *)
Lemma matchImpl_sound Q strict slash root path :
  node_ok Q [] root -> type_of root = Static ->
  sound Q path (matchImpl regex strict slash (Some root) path).
Proof.
  intros Hn Ht. apply match_walk_sound with (ts := []) (pre := []); [done|done|by rewrite Ht| |done].
  split; [done|]. split; [set_solver|]. split; [constructor|]. left. intros t raw E. by destruct t.
Qed.
End Invariant.
