(* ===== verification/RadixTreeInsert.v ===== *)
(** Insertion in the radix tree keeps its invariant, reads nothing out of bounds, and adds the
    pattern it is given under the names of its parameters. *)
From Stdlib Require Import ZArith List Lia Bool String.
From stdpp Require Import base list decidable.
From S2P Require Import Prelude.
From S2P Require Import Cors.
From S2P Require Import RouteConstraint.
From S2P Require Import RoutePattern.
From S2P Require Import RoutePatternProofs.
From S2P Require Import PathHandlerEntry.
From S2P Require Import RadixTree.
From S2P Require Import RadixTreeProofs.
Local Open Scope Z_scope.

(** ** Text without parameters *)

Lemma unescape_id l : no_escape l -> unescape l = l.
Proof.
  induction l as [|c l IH]; [done|]. intros Hn. pose proof (no_escape_cons _ _ Hn) as Hn2. cbn [unescape].
  destruct l as [|d l]; [done|]. rewrite IH by done. destruct Hn as [Hn _].
  destruct (_ && _) eqn:E; [|done]. exfalso. apply Hn. lia.
Qed.

Lemma ends_with_slash_star_spec path : ends_with_slash_star path = true <-> exists l, path = l ++ [47; 42].
Proof.
  unfold ends_with_slash_star. split.
  - intros H. destruct (rev path) as [|x [|y r]] eqn:E; [done| |].
    + destruct x as [|x|]; try done. repeat (destruct x; try done).
    + assert (x = 42 /\ y = 47) as [-> ->].
      { destruct (Z.eqb_spec x 42) as [->|Hx]; [destruct (Z.eqb_spec y 47) as [->|Hy]; [done|]|].
        - exfalso. destruct y as [|y|]; try done. do 6 (destruct y; try done).
        - exfalso. destruct x as [|x|]; try done. do 6 (destruct x; try done). }
      exists (rev r). apply (f_equal (@rev Z)) in E. rewrite rev_involutive in E. cbn in E. rewrite E. by app_simpl.
  - intros [l ->]. rewrite rev_app_distr. done.
Qed.

(** The tokens of a text without parameter. *)
Lemma tokens_free l :
  Forall (fun c => c <> 123) l ->
  pattern_tokens l = match ends_with_slash_star l with
                     | true => map TChar (take (length l - 2) l) ++ [TAny]
                     | false => map TChar l end.
Proof.
  intros Hl. destruct (ends_with_slash_star l) eqn:E.
  - apply ends_with_slash_star_spec in E as [a ->]. rewrite length_app. cbn [length].
    replace (length a + 2 - 2)%nat with (length a) by lia. rewrite take_app_length.
    rewrite tokens_literal; [done|by apply Forall_app in Hl as [Hl _]|]. intros b. right. cbn. lia.
  - rewrite <- (app_nil_r l) at 1. rewrite tokens_literal; [by rewrite app_nil_r|done|]. intros b. left.
    rewrite app_nil_r. intros ->. assert (H : ends_with_slash_star (b ++ [47; 42]) = true) by (apply ends_with_slash_star_spec; by exists b).
    congruence.
Qed.

Lemma find_wildcard_loop_skip fuel a b :
  Forall (fun c => c <> 123) b -> (length b <= fuel)%nat ->
  find_wildcard_loop fuel (a ++ b) (length a) = None.
Proof.
  revert a b. induction fuel as [|fuel IH]; intros a b Hb Hf; cbn [find_wildcard_loop]; [done|].
  destruct (decide _) as [Hlt|]; [|done]. destruct b as [|c b]; [rewrite app_nil_r in Hlt; lia|].
  apply Forall_cons in Hb as [Hc Hb]. assert (Hat : byte_at (a ++ c :: b) (length a) = c).
  { unfold byte_at. rewrite app_nth2 by lia. by rewrite Nat.sub_diag. }
  rewrite Hat, (proj2 (Z.eqb_neq c 123) Hc). cbn [negb].
  specialize (IH (a ++ [c]) b Hb ltac:(cbn in Hf; lia)). rewrite <- app_assoc, length_app, Nat.add_1_r in IH. exact IH.
Qed.

Lemma find_wildcard_loop_found fuel a lit r :
  Forall (fun c => c <> 123) lit -> r <> [] -> byte_at r 0 <> 123 -> (length lit < fuel)%nat ->
  exists last, find_wildcard_loop fuel (a ++ lit ++ 123 :: r) (length a) = Some ((length a + length lit)%nat, last).
Proof.
  intros Hl Hr Hb. revert a fuel. induction Hl as [|c lit Hc Hl IH]; intros a fuel Hf; (destruct fuel as [|fuel]; [cbn in Hf; lia|]);
    cbn [find_wildcard_loop app length].
  - rewrite decide_True by (rewrite length_app; destruct r; [done|cbn; lia]).
    assert (Hat : byte_at (a ++ 123 :: r) (length a) = 123) by (unfold byte_at; rewrite app_nth2 by lia; by rewrite Nat.sub_diag).
    assert (Hat2 : byte_at (a ++ 123 :: r) (S (length a)) = byte_at r 0).
    { unfold byte_at. rewrite app_nth2 by lia. by replace (S (length a) - length a)%nat with 1%nat by lia. }
    rewrite Hat, Hat2, (proj2 (Z.eqb_neq _ 123) Hb). cbn. eexists. by rewrite Nat.add_0_r.
  - rewrite decide_True by (rewrite length_app; cbn; rewrite length_app; cbn; lia).
    assert (Hat : byte_at (a ++ c :: lit ++ 123 :: r) (length a) = c) by (unfold byte_at; rewrite app_nth2 by lia; by rewrite Nat.sub_diag).
    rewrite Hat, (proj2 (Z.eqb_neq c 123) Hc). cbn [negb].
    destruct (IH (a ++ [c]) fuel ltac:(cbn in Hf; lia)) as [last H]. exists last.
    rewrite <- app_assoc, length_app, Nat.add_1_r in H. cbn [app] in H. rewrite H. do 2 f_equal. lia.
Qed.

Section Insert.
Context `{C : Callables}.
Variable regex : bytes -> option (bytes -> bool).

(** The three cases of [FindWildcard] on a pattern without escapes. *)
Lemma FindWildcard_cases path :
  path <> [] -> no_escape path -> Forall (tok_ok regex) (pattern_tokens path) ->
  (FindWildcard path = None /\ Forall (fun c => c <> 123) path /\ pattern_tokens path = map TChar path)
  \/ (exists lit r last, path = lit ++ 123 :: r /\ Forall (fun c => c <> 123) lit
        /\ FindWildcard path = Some (length lit, last)
        /\ pattern_tokens path = map TChar lit ++ pattern_tokens (123 :: r))
  \/ (exists lit, path = lit ++ [47; 42] /\ Forall (fun c => c <> 123) lit
        /\ FindWildcard path = Some (S (length lit), length path)
        /\ pattern_tokens path = map TChar lit ++ [TAny]).
Proof.
  intros Hne Hn Hok. unfold FindWildcard. destruct (memchr_pos 123 path) as [k|] eqn:E.
  - right. left. apply memchr_pos_Some in E as (lit & r & -> & _ & Hlit).
    assert (Htok : pattern_tokens (lit ++ 123 :: r) = map TChar lit ++ pattern_tokens (123 :: r)).
    { apply tokens_literal; [done|]. intros b. destruct r as [|x r]; [left|right; cbn; lia]. intros Eb.
      change (b ++ [47; 42]) with (b ++ [47] ++ [42]) in Eb. rewrite app_assoc in Eb. by apply app_inj_tail in Eb as [_ Eb]. }
    rewrite Htok in Hok. apply Forall_app in Hok as [_ Hok]. rewrite tokens_seg in Hok. apply Forall_cons in Hok as [Hseg _].
    assert (Hr : r <> []).
    { intros ->. destruct Hseg as (ps & cs & q & Hs & _). by vm_compute in Hs. }
    assert (Hb : byte_at r 0 <> 123).
    { apply no_escape_app in Hn as [_ Hn]. destruct r as [|x r]; [done|]. destruct Hn as [Hn _]. intros Hx.
      cbn in Hx. apply Hn. split; [done|by left]. }
    destruct (find_wildcard_loop_found (length (lit ++ 123 :: r)) [] lit r Hlit Hr Hb) as [last Hf]; [rewrite length_app; cbn; lia|].
    exists lit, r, last. cbn [app length Nat.add] in Hf. by rewrite Hf.
  - apply memchr_pos_None in E. rewrite (find_wildcard_loop_skip _ [] path E) by done.
    rewrite (tokens_free path E). destruct (ends_with_slash_star path) eqn:Es; [right; right|by left].
    apply ends_with_slash_star_spec in Es as [lit ->]. exists lit. apply Forall_app in E as [E _].
    rewrite length_app. cbn [length]. replace (length lit + 2 - 2)%nat with (length lit) by lia. rewrite take_app_length.
    replace (length lit + 2 - 1)%nat with (S (length lit)) by lia. done.
Qed.

(** ** The children of a node *)

Lemma shape_split d cs :
  shape_ok d cs <-> exists S W, cs = S ++ W /\ length S = length (n_indices d)
    /\ Forall (fun c => type_of c = Static) S
    /\ Forall (fun c => type_of c <> Static /\ (n_type d = Param -> type_of c = CatchAll)) W
    /\ (n_type d = CatchAll -> S = [] /\ W = []) /\ (n_hasWildChild d = false -> W = []).
Proof.
  unfold shape_ok. split.
  - intros (Hk & H1 & H2 & H3 & H4). exists (take (length (n_indices d)) cs), (drop (length (n_indices d)) cs).
    rewrite take_drop, length_take, Nat.min_l by done. repeat split; try done; [by rewrite H3; [rewrite take_nil|]|by rewrite H3; [rewrite drop_nil|]].
  - intros (S & W & -> & Hk & H1 & H2 & H3 & H4). rewrite <- Hk, take_app_length, drop_app_length, length_app.
    repeat split; try done; [lia|]. intros Ht. by destruct (H3 Ht) as [-> ->].
Qed.

Lemma rotate_split {A} (a b c : list A) x newPos pos :
  length a = newPos -> (length a + length b = pos)%nat ->
  rotate newPos pos (a ++ b ++ x :: c) = a ++ x :: b ++ c.
Proof.
  intros <- <-. unfold rotate. rewrite app_assoc.
  rewrite list_lookup_middle by (by rewrite length_app).
  rewrite <- app_assoc, take_app_length. f_equal. cbn [app]. f_equal.
  rewrite <- (length_app a b), app_assoc, take_app_length, drop_app_length. f_equal.
  replace (S (length (a ++ b))) with (length (a ++ b) + 1)%nat by lia. by rewrite <- drop_drop, drop_app_length.
Qed.

Lemma new_position_le prio cs pos : (new_position prio cs pos <= pos)%nat.
Proof.
  induction pos as [|pos IH]; cbn; [lia|]. destruct (cs !! pos); [|lia]. destruct (_ <? _); lia.
Qed.

Lemma rotate_length {A} newPos pos (l : list A) : (newPos <= pos)%nat -> length (rotate newPos pos l) = length l.
Proof.
  intros Hle. unfold rotate. destruct (l !! pos) as [x|] eqn:E; [|done]. apply lookup_lt_Some in E.
  rewrite !length_app, length_drop, length_take, length_take, length_drop. cbn. lia.
Qed.

(** The child whose priority grows moves left, among the static children. *)
Lemma incrementChildPrio_split d S1 c S2 W :
  length (S1 ++ c :: S2) = length (n_indices d) ->
  exists d' a b newPos, incrementChildPrio (length S1) (Node d ((S1 ++ c :: S2) ++ W))
      = (Node d' (a ++ incr_priority c :: b ++ S2 ++ W), newPos)
    /\ S1 = a ++ b /\ length a = newPos
    /\ d' = set_indices (n_indices d') d /\ length (n_indices d') = length (n_indices d).
Proof.
  intros Hlen. unfold incrementChildPrio. cbn [children data]. rewrite <- app_assoc. cbn [app].
  rewrite list_lookup_middle by done.
  rewrite insert_app_r_alt by lia. rewrite Nat.sub_diag. cbn [insert list_insert].
  set (newPos := new_position _ _ _). pose proof (new_position_le (n_priority_of (incr_priority c)) (S1 ++ incr_priority c :: S2 ++ W) (length S1)) as Hle.
  fold newPos in Hle. exists (set_indices (rotate newPos (length S1) (n_indices d)) d), (take newPos S1), (drop newPos S1), newPos.
  rewrite take_drop, length_take, Nat.min_l by done. split; [|split; [done|split; [done|split; [by destruct d|]]]].
  - f_equal. f_equal. rewrite <- (take_drop newPos S1) at 2. rewrite <- app_assoc.
    apply rotate_split; [rewrite length_take; lia|rewrite length_take, length_drop; lia].
  - destruct d. cbn. by apply rotate_length.
Qed.

Lemma own_incr n : own (data (incr_priority n)) = own (data n).
Proof. by destruct n as [[]]. Qed.
Lemma type_incr n : type_of (incr_priority n) = type_of n.
Proof. by destruct n as [[]]. Qed.
Lemma path_incr n : n_path (data (incr_priority n)) = n_path (data n).
Proof. by destruct n as [[]]. Qed.

Lemma node_ok_incr Q ts n : node_ok regex Q ts n -> node_ok regex Q ts (incr_priority n).
Proof. intros Hn. apply node_ok_inv in Hn as (H1 & H2 & H3 & H4). destruct n as [[] cs]. by constructor. Qed.

(** The parameters of a parameter node, as the insertion counts them. *)
Lemma count_params_own Q ts n :
  node_ok regex Q ts n -> n_type (data n) = Param -> count_params (n_parts (data n)) = length (cs_of regex (own (data n))).
Proof.
  intros Hn Ht. apply node_ok_inv in Hn as (_ & Hd & _ & _). unfold data_ok, own in *. rewrite Ht in *.
  destruct Hd as (ps & cs & r & -> & _ & Hs & _ & Hcount & _). unfold cs_of. cbn [map concat tok_cs]. rewrite Hs, app_nil_r.
  by rewrite <- Hcount.
Qed.

Lemma elem_of_mid {A} (a b c : list A) x : x ∈ a ++ b ++ x :: c.
Proof. rewrite !elem_of_app. right. right. by left. Qed.

(** ** The pattern inserted *)

Section Pattern.
Variable Q : Registrations.
Variable pattern : bytes.
Variable route : Route.
Variable finish : bool -> RadixNode -> RadixNode * option string.
Abbreviation full := (pattern_tokens pattern).
Hypothesis star_free : TChar 42 ∉ full.
Hypothesis tokens_ok : Forall (tok_ok regex) full.
Hypothesis route_constraints : paramConstraints route = cs_of regex full.
(** What the registration does to the handlers of a route. *)
Variable assigned : PathHandlerEntry -> PathHandlerEntry.
Hypothesis finish_spec : forall created n, exists r,
  fst (finish created n) = map_data (fun d => set_handlers (assigned (n_handlers d)) (set_route (Some r) d)) n
  /\ (paramNames r = paramNames route /\ (created = true \/ n_route (data n) = None)
      \/ exists r0, created = false /\ n_route (data n) = Some r0 /\ paramNames r = paramNames r0).

(** The tokens of a node that the pattern ends at: a catch-all may come after its slash. *)
Definition ends_at (ts : list Tok) : Prop :=
  ts = full \/ exists t, full = t ++ [TAny] /\ ts = t ++ [TChar 47; TAny].

(** What is registered afterwards. *)
Definition added (ts : list Tok) (names : list bytes) (h : PathHandlerEntry) : Prop :=
  Q ts names h
  \/ ends_at ts /\ exists h0, h = assigned h0
       /\ (h0 = PathHandlerEntry_new /\ names = paramNames route \/ Q ts names h0).

(** What is left of the pattern, [path], after the tokens [ts]. *)
Definition remains (ts : list Tok) (path : bytes) : Prop :=
  no_escape path
  /\ (ts ++ pattern_tokens path = full
      \/ path = [42] /\ exists t, ts = t ++ [TChar 47] /\ full = t ++ [TAny]).

Lemma remains_ends ts : remains ts [] -> ends_at ts.
Proof. intros [_ [H|[H _]]]; [|done]. left. by rewrite <- H, app_nil_r. Qed.

Lemma remains_catch_all ts path : remains ts path -> is_catch_all_path path = true -> ends_at (ts ++ [TAny]).
Proof.
  unfold is_catch_all_path, kCatchAllPath. intros [_ [H|[-> (t & -> & Hf)]]] Hp.
  - destruct (bool_decide_reflect (path = [42])) as [->|_].
    + exfalso. apply star_free. rewrite <- H. change (pattern_tokens [42]) with [TChar 42]. set_solver.
    + destruct (bool_decide_reflect (path = [47; 42])) as [->|]; [|done]. left. by rewrite <- H.
  - right. exists t. split; [done|]. by app_simpl.
Qed.

Lemma remains_full ts path : remains ts path -> path <> [42] -> ts ++ pattern_tokens path = full.
Proof. by intros [_ [H|[-> _]]]. Qed.

Lemma remains_ok ts path : remains ts path -> path <> [42] ->
  Forall (tok_ok regex) (pattern_tokens path) /\ TChar 42 ∉ pattern_tokens path.
Proof.
  intros H Hp. pose proof (remains_full _ _ H Hp) as E. rewrite <- E in tokens_ok, star_free.
  apply Forall_app in tokens_ok as [_ ?]. split; [done|set_solver].
Qed.

(** Static text of the tree has no brace and no star. *)
Definition plain_text (l : bytes) : Prop := Forall (fun c => c <> 123 /\ c <> 42) l.

Lemma plain_text_free l : plain_text l -> Forall (fun c => c <> 123) l.
Proof. intros H. eapply Forall_impl; [exact H|]. by intros ? [? _]. Qed.

Lemma tokens_plain l : plain_text l -> pattern_tokens l = map TChar l.
Proof.
  intros H. rewrite tokens_free by by apply plain_text_free. destruct (ends_with_slash_star l) eqn:E; [|done].
  apply ends_with_slash_star_spec in E as [a ->]. apply Forall_app in H as [_ H].
  rewrite !Forall_cons in H. tauto.
Qed.

Lemma remains_text ts a path : plain_text a -> remains ts (a ++ path) -> remains (ts ++ map TChar a) path.
Proof.
  intros Ha [Hn H]. apply no_escape_app in Hn as [_ Hn]. split; [done|]. destruct H as [H|[E (t & -> & Hf)]].
  - destruct (decide (2 <= length path)%nat) as [Hlen|Hlen].
    { left. rewrite <- H, tokens_literal, app_assoc; [done|by apply plain_text_free|by right]. }
    destruct (ends_with_slash_star (a ++ path)) eqn:E.
    + apply ends_with_slash_star_spec in E as [b Eb]. destruct path as [|x path].
      { exfalso. rewrite app_nil_r in Eb. rewrite Eb in Ha. apply Forall_app in Ha as [_ Ha].
        rewrite !Forall_cons in Ha. tauto. }
      destruct path; [|cbn in Hlen; lia]. right.
      change (b ++ [47; 42]) with (b ++ [47] ++ [42]) in Eb. rewrite app_assoc in Eb. apply app_inj_tail in Eb as [-> ->].
      split; [done|]. exists (ts ++ map TChar b). rewrite map_app, app_assoc. split; [done|].
      apply Forall_app in Ha as [Hb _]. rewrite <- H, <- app_assoc, <- app_assoc. f_equal. cbn [app].
      rewrite tokens_literal; [done|by apply plain_text_free|]. intros. right. cbn. lia.
    + left. rewrite <- H, tokens_literal, app_assoc; [done|by apply plain_text_free|]. intros b. left. intros Eb.
      rewrite (proj2 (ends_with_slash_star_spec _)) in E by (by exists b). done.
  - destruct a as [|y a]; [cbn in E; subst path; right; split; [done|]; exists t; by rewrite app_nil_r|].
    injection E as -> E. apply Forall_cons in Ha as [[_ Ha] _]. done.
Qed.

Lemma remains_segment ts raw path r :
  raw = 123 :: r -> Forall (fun c => c <> 47) raw -> path = [] \/ (exists q, path = 47 :: q) ->
  remains ts (raw ++ path) -> remains (ts ++ [TSeg raw]) path.
Proof.
  intros -> Hraw Hpath [Hn [H|[E _]]]; [|done]. apply no_escape_app in Hn as [_ Hn]. split; [done|]. left.
  rewrite <- H, <- app_assoc. f_equal. symmetry.
  apply (tokens_segment regex [] (123 :: r) path); [done|done|right; by eexists|done].
Qed.

(** ** The node the pattern ends at *)

Lemma node_ok_added ts n : node_ok regex Q ts n -> node_ok regex added ts n.
Proof. apply node_ok_weaken. intros. by left. Qed.

(** Everything but the route of a catch-all that is being made. *)
Definition data_pre (d : NodeData) : Prop :=
  match n_type d with CatchAll => n_path d = kCatchAllPath | _ => data_ok regex d end.

Lemma node_reg_added ts d : node_reg Q ts d -> node_reg added ts d.
Proof. apply node_reg_weaken. intros. by left. Qed.

Lemma finish_ok created ts d cs :
  (created = true -> n_route d = None) ->
  node_reg Q (ts ++ own d) d ->
  data_pre d -> shape_ok d cs -> Forall (node_ok regex added (ts ++ own d)) cs -> ends_at (ts ++ own d) ->
  node_ok regex added ts (fst (finish created (Node d cs))) /\ type_of (fst (finish created (Node d cs))) = n_type d.
Proof.
  intros Hnew Hr Hd Hs Hc He. destruct (finish_spec created (Node d cs)) as (r & -> & Hnames).
  destruct d as [p i r0 pr ty w ps con sc h0]. cbn in *. split; [|done]. constructor; cbn.
  - unfold own, node_reg in *. cbn in *. right. split; [done|]. exists h0. split; [done|].
    destruct Hnames as [[-> Hn]|(r1 & _ & E & ->)]; [left|right; by rewrite E in Hr].
    assert (E : r0 = None) by (destruct Hn; [by apply Hnew|done]). by rewrite E in Hr.
  - unfold data_pre, data_ok in *. cbn in *. destruct ty; done.
  - done.
  - done.
Qed.

Lemma catch_all_ok ts : ends_at (ts ++ [TAny]) ->
  node_ok regex added ts (fst (finish true catch_all_node)) /\ type_of (fst (finish true catch_all_node)) = CatchAll.
Proof.
  intros He. apply (finish_ok true ts (MkNodeData kCatchAllPath [] None 0 CatchAll false [] Empty [] PathHandlerEntry_new) []); try done.
Qed.

(** What an insertion below [ts] gives. *)
Definition inserted_ok (ts : list Tok) (ty : NodeType) (may_conflict : bool) (r : Inserted) : Prop :=
  match r with
  | Done n _ => node_ok regex added ts n /\ type_of n = ty
  | Conflict n => may_conflict = true /\ node_ok regex added ts n /\ type_of n = ty
  | Broken => False
  end.

Lemma map_inserted_ok f r ts ty ts' ty' b :
  inserted_ok ts ty b r ->
  (forall n, node_ok regex added ts n -> type_of n = ty -> node_ok regex added ts' (f n) /\ type_of (f n) = ty') ->
  inserted_ok ts' ty' b (map_inserted f r).
Proof.
  destruct r as [n e|n|]; cbn; [intros [H1 H2] Hf; by apply Hf|intros (-> & H1 & H2) Hf; split; [done|by apply Hf]|done].
Qed.

Lemma inserted_finish_ok r ts ty b : node_ok regex added ts (fst r) /\ type_of (fst r) = ty -> inserted_ok ts ty b (inserted r).
Proof. done. Qed.

(** A parameter child among the wildcard ones. *)
Lemma insert_at_shape (d : NodeData) (S W : list RadixNode) (c : RadixNode) pos :
  length S = length (n_indices d) -> (pos <= length W)%nat ->
  exists W1 W2, W = W1 ++ W2 /\ insert_at (length (n_indices d) + pos) c (S ++ W) = S ++ W1 ++ c :: W2.
Proof.
  intros Hk Hp. exists (take pos W), (drop pos W). split; [by rewrite take_drop|]. unfold insert_at. rewrite <- Hk.
  rewrite take_app_add, drop_app_add. by rewrite <- app_assoc.
Qed.

Lemma find_pos_le {A} (f : A -> bool) l : (find_pos f l <= length l)%nat.
Proof. induction l as [|x l IH]; cbn; [lia|]. destruct (f x); lia. Qed.

Lemma wildcard_position_le con ws : (wildcard_position con ws <= length ws)%nat.
Proof. unfold wildcard_position. destruct (negb _); apply find_pos_le. Qed.

(** ** [insertChild] *)

Lemma segment_ok_of (raw : bytes) ps cs (r : bytes) con :
  seg_spec regex raw = Some (ps, cs) -> parts_from true ps -> param_count ps = length cs -> no_escape raw ->
  raw = 123 :: r -> Forall (fun c => c <> 47) raw ->
  segment_ok regex (MkNodeData (unescape raw) [] None 1 Param false ps con cs PathHandlerEntry_new).
Proof. intros. unfold segment_ok. cbn. rewrite unescape_id by done. by exists ps, cs, r. Qed.

Lemma plain_of_tokens a l b : a ++ map TChar l ++ b = full -> Forall (fun c => c <> 123) l -> plain_text l.
Proof.
  unfold plain_text. rewrite !Forall_forall. intros H Hl c Hc. split; [by apply Hl|]. intros ->.
  apply star_free. rewrite <- H, !elem_of_app, list_elem_of_fmap. right. left. by exists 42.
Qed.

(** A node about to take the rest of the pattern: a new one, or one that keeps its text. *)
Definition takes_text (n : RadixNode) (path : bytes) : Prop :=
  (n_path (data n) = [] /\ n_indices (data n) = [] /\ children n = [] /\ n_route (data n) = None)
  \/ exists r, path = 123 :: r.

(** The node with its text, before a parameter. *)
Lemma text_before_param ts n lit r :
  node_ok regex Q ts n -> type_of n = Static -> takes_text n (lit ++ 123 :: r) ->
  plain_text lit -> no_escape lit ->
  let n1 := if Nat.eqb (length lit) 0 then n else map_data (set_path (unescape lit)) n in
  node_ok regex Q ts n1 /\ type_of n1 = Static /\ own (data n1) = own (data n) ++ map TChar lit.
Proof.
  intros Hn Ht Htake Hl Hne n1. destruct lit as [|c lit]; [unfold n1; cbn; by rewrite app_nil_r|].
  destruct Htake as [(Hp & Hi & Hc & Hr)|[q E]].
  - unfold n1. cbn [length Nat.eqb]. rewrite unescape_id by done. destruct n as [d cs]. cbn in *. subst cs.
    apply node_ok_inv in Hn as (Hreg & _). destruct d as [p i r0 pr ty w ps con sc h]. unfold type_of in Ht. cbn in *. subst.
    split; [|split; [done|done]]. constructor; cbn; [exact Hreg|exact Hl| |constructor]. by apply shape_split; exists [], [].
  - injection E as -> _. apply Forall_cons in Hl as [[Hl _] _]. done.
Qed.

(** One more wildcard child. *)
Lemma add_wild_ok ts d cs c p :
  node_ok regex Q ts (Node d cs) -> n_type d <> CatchAll -> node_ok regex added (ts ++ own d) c ->
  type_of c <> Static -> (n_type d = Param -> type_of c = CatchAll) ->
  (length (n_indices d) + p <= length cs)%nat ->
  let n := Node (set_hasWildChild d) (insert_at (length (n_indices d) + p) c cs) in
  node_ok regex added ts n /\ type_of n = n_type d.
Proof.
  intros Hn Ht Hc Htc Hcp Hp n. apply node_ok_inv in Hn as (Hr & Hd & Hs & Hch). cbn [data children] in *.
  apply shape_split in Hs as (S & W & -> & Hk & H1 & H2 & H3 & _). rewrite length_app, Hk in Hp.
  destruct (insert_at_shape d S W c p Hk ltac:(lia)) as (W1 & W2 & -> & E).
  unfold n. rewrite E. apply Forall_app in Hch as [HS HW]. apply Forall_app in HW as [HW1 HW2].
  apply Forall_app in H2 as [H21 H22].
  destruct d as [pp i r0 pr ty w ps con sc h]. cbn in *. split; [|done]. constructor; cbn.
  - by apply node_reg_added in Hr.
  - exact Hd.
  - apply shape_split. exists S, (W1 ++ c :: W2). cbn. split; [done|]. split; [done|]. split; [done|]. split; [|done].
    apply Forall_app. split; [done|]. by constructor.
  - unfold own in *. cbn in *. apply Forall_app. split; [eapply Forall_impl; [exact HS|]; intros; by apply node_ok_added|].
    apply Forall_app. split; [eapply Forall_impl; [exact HW1|]; intros; by apply node_ok_added|].
    constructor; [done|]. eapply Forall_impl; [exact HW2|]. intros. by apply node_ok_added.
Qed.

(** A catch-all at the end of the children. *)
Lemma add_catch_all_ok ts d cs :
  node_ok regex Q ts (Node d cs) -> n_type d <> CatchAll -> ends_at ((ts ++ own d) ++ [TAny]) ->
  inserted_ok ts (n_type d) false
    (map_inserted (fun child => Node (set_hasWildChild d) (cs ++ [child])) (inserted (finish true catch_all_node))).
Proof.
  intros Hn Ht He. destruct (catch_all_ok _ He) as [Hc Htc]. eapply map_inserted_ok; [by apply inserted_finish_ok|].
  intros c Hok Htype. pose proof Hn as Hn2. apply node_ok_inv in Hn2 as (_ & _ & (Hk & _) & _). cbn in Hk.
  pose proof (add_wild_ok ts d cs c (length cs - length (n_indices d)) Hn Ht Hok) as H.
  rewrite Htype in H. specialize (H ltac:(done) ltac:(done) ltac:(lia)). unfold insert_at in H.
  replace (length (n_indices d) + (length cs - length (n_indices d)))%nat with (length cs) in H by lia.
  by rewrite take_ge, drop_ge in H.
Qed.

Lemma find_slash l : find_char 47 l 0 = memchr_pos 47 l.
Proof. unfold find_char. rewrite drop_0. by destruct (memchr_pos 47 l). Qed.

Lemma takes_text_nil n (path : bytes) : takes_text n path -> (forall r : bytes, path <> 123 :: r) -> n_path (data n) = [] /\ n_indices (data n) = [] /\ children n = [] /\ n_route (data n) = None.
Proof. intros [H|[r H]] Hp; [done|]. by apply Hp in H. Qed.

(** A new node with its text. *)
Lemma new_text_ok ts n lit (path : bytes) :
  node_ok regex Q ts n -> type_of n = Static -> takes_text n path -> (forall r : bytes, path <> 123 :: r) ->
  plain_text lit ->
  node_ok regex Q ts (Node (set_path lit (data n)) []) /\ children n = []
  /\ n_type (set_path lit (data n)) = Static /\ n_route (set_path lit (data n)) = None
  /\ own (set_path lit (data n)) = map TChar lit /\ own (data n) = [] /\ n_indices (set_path lit (data n)) = [].
Proof.
  intros Hn Ht Htake Hp Hl. destruct (takes_text_nil n path Htake Hp) as (Hpath & Hi & Hc & Hr).
  apply node_ok_inv in Hn as (Hreg & _).
  destruct n as [d cs]. unfold type_of in Ht. destruct d as [p i r0 pr ty w ps con sc h]. cbn in *. subst.
  split; [|done]. constructor; cbn; [exact Hreg|exact Hl| |constructor]. by apply shape_split; exists [], [].
Qed.

Lemma no_brace_text (lit : bytes) : Forall (fun c => c <> 123) lit -> forall r : bytes, lit <> 123 :: r.
Proof. intros H r ->. by apply Forall_cons in H as [H _]. Qed.

Lemma text_ends_ok ts n path :
  node_ok regex Q ts n -> type_of n = Static -> takes_text n path -> no_escape path ->
  Forall (fun c => c <> 123) path -> (ts ++ own (data n)) ++ map TChar path = full ->
  inserted_ok ts Static false (inserted (finish true (map_data (set_path (unescape path)) n))).
Proof.
  intros Hn Ht Htake Hesc Hfree Hfull. rewrite unescape_id by done.
  destruct (new_text_ok ts n path path Hn Ht Htake (no_brace_text _ Hfree)
    (plain_of_tokens _ path [] ltac:(by rewrite app_nil_r) Hfree))
    as (Hok & Hc & Hty & Hr & Hown & Hown0 & _).
  apply inserted_finish_ok. unfold map_data. rewrite Hc. apply node_ok_inv in Hok as (H1 & H2 & H3 & H4). cbn [data children] in *.
  rewrite <- Hty. apply finish_ok; [done|done|unfold data_pre; by rewrite Hty|done|constructor|].
  rewrite Hown. left. rewrite Hown0, app_nil_r in Hfull. done.
Qed.

Lemma catch_all_text_ok ts n lit :
  node_ok regex Q ts n -> type_of n = Static -> takes_text n (lit ++ [47; 42]) -> no_escape lit ->
  Forall (fun c => c <> 123) lit -> (ts ++ own (data n)) ++ map TChar lit ++ [TAny] = full ->
  inserted_ok ts Static false
    (map_inserted (fun child => Node (set_hasWildChild (set_path (unescape lit) (data n))) (children n ++ [child]))
       (inserted (finish true catch_all_node))).
Proof.
  intros Hn Ht Htake Hesc Hfree Hfull. rewrite unescape_id by done.
  pose proof (plain_of_tokens _ _ _ Hfull Hfree) as Hl.
  destruct (new_text_ok ts n lit (lit ++ [47; 42]) Hn Ht Htake) as (Hok & Hc & Hty & Hr & Hown & Hown0 & Hi); [|done|].
  { intros r E. destruct lit as [|c lit]; [done|]. injection E as -> _. by apply Forall_cons in Hfree as [Hfree _]. }
  rewrite Hc. rewrite <- Hty. apply add_catch_all_ok; [done|by rewrite Hty|]. left. rewrite Hown.
  rewrite Hown0, app_nil_r in Hfull. by rewrite <- app_assoc.
Qed.

Lemma length_snoc {A} (l : list A) x : length (l ++ [x]) = S (length l).
Proof. rewrite length_app. cbn. lia. Qed.

Lemma byte_at_after a c b : byte_at (a ++ c :: b) (length a) = c.
Proof. unfold byte_at. rewrite app_nth2 by lia. by rewrite Nat.sub_diag. Qed.

(** The segment of a parameter in the pattern: its parts, with the constraints of the route. *)
Lemma segment_parts_ok before raw ps cs after :
  seg_spec regex raw = Some (ps, cs) -> no_escape raw ->
  before ++ TSeg raw :: after = full ->
  segment_parts (S (length raw)) (paramConstraints route) raw 0 [] [] [] (length (cs_of regex before))
  = Some (ps, cs, length (cs_of regex (before ++ [TSeg raw]))).
Proof.
  intros Hs Hn Hfull. destruct (seg_parse_segment_parts regex _ _ _ _ _ _ _ Hs) as (cs' & E & H). cbn [app] in E. subst cs'.
  assert (Hcs : cs_of regex [TSeg raw] = cs) by (unfold cs_of; cbn [map concat tok_cs]; rewrite Hs; apply app_nil_r).
  rewrite route_constraints, <- Hfull. change (TSeg raw :: after) with ([TSeg raw] ++ after). rewrite !cs_of_app, Hcs.
  rewrite (H raw 0%nat (S (length raw)) (cs_of regex before) (cs_of regex after) []); [|by rewrite drop_0|lia|done|lia].
  by rewrite length_app.
Qed.

Lemma param_child_ok ts d next :
  n_type d = Param -> segment_ok regex d -> n_route d = None -> n_handlers d = PathHandlerEntry_new ->
  n_hasWildChild d = false ->
  node_ok regex added (ts ++ [TSeg (n_path d)]) next -> type_of next = Static ->
  node_ok regex added ts (Node (set_indices [47] d) [next]) /\ type_of (Node (set_indices [47] d) [next]) = Param.
Proof.
  intros Ht Hs Hr Hh Hw Hn Hty. destruct d as [p i r0 pr ty w ps con sc h]. cbn in *. subst. split; [|done].
  constructor; cbn; [done|exact Hs| |by constructor]. apply shape_split. exists [next], []. cbn.
  split; [done|]. split; [done|]. split; [by constructor|]. by split.
Qed.

(** The parameter branch, given what the rest of the pattern makes below the parameter. *)
Lemma param_branch_ok fuel ts n1 r paramIdx :
  node_ok regex Q ts n1 -> type_of n1 = Static -> no_escape (123 :: r) -> Forall (tok_ok regex) (pattern_tokens (123 :: r)) ->
  (ts ++ own (data n1)) ++ pattern_tokens (123 :: r) = full ->
  paramIdx = length (cs_of regex (ts ++ own (data n1))) ->
  (forall node path paramIdx ts,
     node_ok regex Q ts node -> type_of node = Static -> takes_text node path ->
     path <> [] -> path <> [42] -> (length path <= length r)%nat ->
     remains (ts ++ own (data node)) path -> paramIdx = length (cs_of regex (ts ++ own (data node))) ->
     inserted_ok ts Static false (insertChild route finish fuel node path paramIdx)) ->
  let segEnd := memchr_pos 47 (123 :: r) in
  let paramSegment := match segEnd with None => 123 :: r | Some e => take e (123 :: r) end in
  inserted_ok ts Static false
    match segment_parts (S (length paramSegment)) (paramConstraints route) paramSegment 0 [] [] [] paramIdx with
    | None => Broken
    | Some (parts, constraints, paramIdx) =>
        let constraint :=
          if Nat.eqb (length parts) 1 then nth (pred paramIdx) (paramConstraints route) Empty else Empty in
        let child := MkNodeData (unescape paramSegment) [] None 1 Param false parts constraint constraints
                       PathHandlerEntry_new in
        let nbStatic := length (n_indices (data n1)) in
        let add child :=
          let pos := (nbStatic + wildcard_position constraint (drop nbStatic (children n1)))%nat in
          Node (set_hasWildChild (data n1)) (insert_at pos child (children n1)) in
        match segEnd with
        | None => map_inserted add (inserted (finish true (Node child [])))
        | Some e =>
            map_inserted (fun next => add (Node (set_indices [47] child) [next]))
              (insertChild route finish fuel (Node (set_priority 1 NodeData_empty) []) (drop e (123 :: r)) paramIdx)
        end
    end.
Proof.
  intros Hn Ht Hesc Hok Hfull -> IH segEnd paramSegment.
  rewrite tokens_seg in Hok, Hfull. apply Forall_cons in Hok as [Hseg _].
  assert (Hraw : paramSegment = take (seg_len (123 :: r)) (123 :: r)).
  { unfold paramSegment, segEnd, seg_len. destruct (memchr_pos 47 (123 :: r)); cbn [default]; [done|]. by rewrite take_ge by done. }
  rewrite <- Hraw in Hseg, Hfull. destruct Hseg as (ps & cs & q & Hspec & Hfrom & Hcount & Hn1 & Eraw).
  assert (Hno : Forall (fun c => c <> 47) paramSegment).
  { unfold paramSegment, segEnd. destruct (memchr_pos 47 (123 :: r)) as [e|] eqn:Ee; [by apply take_memchr in Ee as (_ & ? & _)|by apply memchr_pos_None]. }
  rewrite (segment_parts_ok _ _ _ _ _ Hspec Hn1 Hfull).
  set (con := if Nat.eqb (length ps) 1 then _ else _). cbv zeta.
  set (child := MkNodeData (unescape paramSegment) [] None 1 Param false ps con cs PathHandlerEntry_new).
  assert (Hchild : segment_ok regex child) by (by eapply segment_ok_of).
  assert (Hadd : forall c, node_ok regex added (ts ++ own (data n1)) c -> type_of c = Param ->
    let n := Node (set_hasWildChild (data n1))
      (insert_at (length (n_indices (data n1)) + wildcard_position con (drop (length (n_indices (data n1))) (children n1))) c (children n1)) in
    node_ok regex added ts n /\ type_of n = Static).
  { intros c Hc Htc. rewrite <- Ht. destruct n1 as [d1 cs1]. unfold type_of in Ht. cbn [data] in *.
    apply add_wild_ok; [done|by rewrite Ht|done|by rewrite Htc|by rewrite Ht|].
    apply node_ok_inv in Hn as (_ & _ & (Hk & _) & _). cbn [data children] in *.
    pose proof (wildcard_position_le con (drop (length (n_indices d1)) cs1)) as Hw. rewrite length_drop in Hw. lia. }
  assert (Hpath : n_path child = paramSegment) by (unfold child; cbn; by rewrite unescape_id).
  destruct segEnd as [e|] eqn:Ee.
  - destruct (take_memchr _ _ Ee) as (Hcut & _ & He).
    assert (Hrest : drop e (123 :: r) = drop (seg_len (123 :: r)) (123 :: r)).
    { unfold seg_len. fold segEnd. by rewrite Ee. }
    assert (Hslash : exists q, drop e (123 :: r) = 47 :: q).
    { rewrite Hcut. unfold paramSegment. rewrite drop_app_length'; [by eexists|]. rewrite length_take. lia. }
    destruct Hslash as [q' Hq'].
    assert (Hpos : (0 < e)%nat).
    { destruct e; [|lia]. by injection Hq'. }
    assert (Htl : ts ++ own (data n1) ++ [TSeg paramSegment] ++ pattern_tokens (drop e (123 :: r)) = full).
    { rewrite Hrest, <- Hfull. by app_simpl. }
    assert (Hnew : forall l, node_ok regex Q l (Node (set_priority 1 NodeData_empty) [])).
    { intros l. constructor; [done|constructor| |constructor]. by apply shape_split; exists [], []. }
    eapply map_inserted_ok.
    + apply (IH _ (drop e (123 :: r)) _ ((ts ++ own (data n1)) ++ [TSeg paramSegment])); try done.
      * by left.
      * rewrite Hq'. done.
      * rewrite Hq'. done.
      * rewrite length_drop. cbn. lia.
      * change (own (data (Node (set_priority 1 NodeData_empty) []))) with (@nil Tok). rewrite app_nil_r.
        split; [by apply no_escape_drop|]. left. rewrite <- Htl. by app_simpl.
      * change (own (data (Node (set_priority 1 NodeData_empty) []))) with (@nil Tok). by rewrite app_nil_r.
    + intros next Hnext Htn. rewrite <- Hpath in Hnext.
      destruct (param_child_ok _ child next eq_refl Hchild eq_refl eq_refl eq_refl Hnext Htn) as [H1 H2]. by apply Hadd.
  - eapply map_inserted_ok; [apply inserted_finish_ok, (finish_ok true _ child [])|]; [done|done|exact Hchild| |constructor| |].
    + by apply shape_split; exists [], [].
    + left. unfold own. cbn [n_type child]. rewrite Hpath. rewrite <- Hfull.
      replace (drop (seg_len (123 :: r)) (123 :: r)) with (@nil Z); [done|].
      unfold seg_len. fold segEnd. rewrite Ee. cbn [default]. by rewrite drop_ge by done.
    + intros c Hc Htc. by apply Hadd.
Qed.

Lemma insertChild_ok fuel node path paramIdx ts :
  node_ok regex Q ts node -> type_of node = Static -> takes_text node path ->
  path <> [] -> path <> [42] -> (length path < fuel)%nat ->
  remains (ts ++ own (data node)) path -> paramIdx = length (cs_of regex (ts ++ own (data node))) ->
  inserted_ok ts Static false (insertChild route finish fuel node path paramIdx).
Proof.
  revert node path paramIdx ts. induction fuel as [|fuel IH]; intros node path paramIdx ts Hn Ht Htake Hne Hstar Hf Hrem Hidx; [lia|].
  cbn [insertChild]. pose proof (remains_full _ _ Hrem Hstar) as Hfull. destruct (remains_ok _ _ Hrem Hstar) as [Hok Hst].
  destruct Hrem as [Hesc _].
  destruct (FindWildcard_cases path Hne Hesc Hok)
    as [(-> & Hfree & E)|[(lit & r & last & Ep & Hlit & -> & E)|(lit & Ep & Hlit & -> & E)]].
  - apply text_ends_ok; try done. by rewrite <- E.
  - subst path. rewrite byte_at_after. cbn [Z.eqb Pos.eqb]. rewrite take_app_length, drop_app_length, find_slash.
    rewrite E in Hfull. apply no_escape_app in Hesc as [Hesc1 Hesc2].
    destruct (text_before_param ts node lit r Hn Ht Htake (plain_of_tokens _ _ _ Hfull Hlit) Hesc1) as (Hn1 & Ht1 & Hown1).
    set (n1 := if Nat.eqb (length lit) 0 then node else map_data (set_path (unescape lit)) node) in *.
    rewrite app_assoc, <- (app_assoc ts), <- Hown1 in Hfull.
    assert (Hidx1 : paramIdx = length (cs_of regex (ts ++ own (data n1)))).
    { rewrite Hown1, app_assoc, cs_of_app, cs_of_chars, app_nil_r. exact Hidx. }
    apply param_branch_ok; try done; [rewrite E in Hok; by apply Forall_app in Hok as [_ Hok]|].
    intros. apply IH; try done. rewrite length_app in Hf. cbn in Hf. lia.
  - subst path.
    assert (Hb : byte_at (lit ++ [47; 42]) (S (length lit)) = 42).
    { change [47; 42] with ([47] ++ [42]). rewrite app_assoc, <- (length_snoc lit 47). apply byte_at_after. }
    rewrite Hb.
    cbn [Z.eqb Pos.eqb]. replace (S (length lit) - 1)%nat with (length lit) by lia. rewrite take_app_length.
    apply catch_all_text_ok; try done; [by apply no_escape_app in Hesc as [Hesc _]|by rewrite <- E].
Qed.

(** ** [insertRoute] *)

(** A node whose static children changed. *)
Lemma rebuilt_ok ts d i' S W :
  node_reg Q (ts ++ own d) d -> data_ok regex d -> n_type d <> CatchAll ->
  length S = length i' -> Forall (fun c => type_of c = Static) S ->
  Forall (fun c => type_of c <> Static /\ (n_type d = Param -> type_of c = CatchAll)) W ->
  (n_hasWildChild d = false -> W = []) -> Forall (node_ok regex added (ts ++ own d)) (S ++ W) ->
  node_ok regex added ts (Node (set_indices i' d) (S ++ W)) /\ type_of (Node (set_indices i' d) (S ++ W)) = n_type d.
Proof.
  intros Hr Hd Ht Hk HS HW Hw Hc. destruct d as [p i r0 pr ty w ps con sc h]. cbn in *. split; [|done].
  constructor; cbn; [by apply node_reg_added in Hr|exact Hd| |exact Hc].
  apply shape_split. exists S, W. cbn. repeat split; try done; by intros.
Qed.

Lemma node_parts ts d cs :
  node_ok regex Q ts (Node d cs) ->
  exists S W, cs = S ++ W /\ length S = length (n_indices d) /\ Forall (fun c => type_of c = Static) S
    /\ Forall (fun c => type_of c <> Static /\ (n_type d = Param -> type_of c = CatchAll)) W
    /\ (n_hasWildChild d = false -> W = [])
    /\ Forall (node_ok regex Q (ts ++ own d)) S /\ Forall (node_ok regex Q (ts ++ own d)) W
    /\ node_reg Q (ts ++ own d) d /\ data_ok regex d.
Proof.
  intros Hn. apply node_ok_inv in Hn as (Hr & Hd & Hs & Hch). cbn [data children] in *.
  apply shape_split in Hs as (S & W & -> & Hk & H1 & H2 & _ & H4). apply Forall_app in Hch as [HS HW].
  by exists S, W.
Qed.

Lemma Forall_added ts l : Forall (node_ok regex Q ts) l -> Forall (node_ok regex added ts) l.
Proof. intros H. eapply Forall_impl; [exact H|]. intros. by apply node_ok_added. Qed.

(** The static child [c], whose priority grew, replaced by what an insertion made of it. *)
Lemma replace_static_ok ts d d' a c b W r bc :
  node_reg Q (ts ++ own d) d -> data_ok regex d -> n_type d <> CatchAll ->
  d' = set_indices (n_indices d') d -> length (n_indices d') = S (length (a ++ b)) ->
  Forall (fun c => type_of c = Static) (a ++ b) -> Forall (node_ok regex Q (ts ++ own d)) (a ++ b) ->
  Forall (fun c => type_of c <> Static /\ (n_type d = Param -> type_of c = CatchAll)) W ->
  (n_hasWildChild d = false -> W = []) -> Forall (node_ok regex Q (ts ++ own d)) W ->
  inserted_ok (ts ++ own d) Static bc r ->
  inserted_ok ts (n_type d) bc
    (map_inserted (fun child => Node (data (Node d' (a ++ c :: b ++ W))) (<[length a := child]> (a ++ c :: b ++ W))) r).
Proof.
  intros Hr Hd Ht Hd' Hk HS1 HS HW1 Hw HW Hres. eapply map_inserted_ok; [exact Hres|]. intros n Hn Htn. cbn [data].
  rewrite insert_app_r_alt by lia. rewrite Nat.sub_diag. cbn [insert list_insert].
  replace (a ++ n :: b ++ W) with ((a ++ n :: b) ++ W) by by app_simpl. rewrite Hd'.
  apply Forall_app in HS1 as [HSa HSb]. apply Forall_app in HS as [HSa' HSb'].
  apply rebuilt_ok; try done.
  - rewrite Hk, !length_app. cbn. lia.
  - apply Forall_app. split; [done|]. by constructor.
  - apply Forall_app. split; [|by apply Forall_added]. apply Forall_app. split; [by apply Forall_added|].
    constructor; [done|by apply Forall_added].
Qed.

Lemma insert_new_ok ts node path paramIdx :
  node_ok regex Q ts node -> type_of node <> CatchAll -> path <> [] ->
  remains (ts ++ own (data node)) path -> (type_of node = Param -> exists q, path = 47 :: q) ->
  paramIdx = length (cs_of regex (ts ++ own (data node))) ->
  inserted_ok ts (type_of node) false (insert_new route finish node path paramIdx).
Proof.
  intros Hn Ht Hne Hrem Hparam Hidx. unfold insert_new. destruct node as [d cs]. unfold type_of in *. cbn [data children] in *.
  destruct (is_catch_all_path path) eqn:Eca.
  { apply add_catch_all_ok; [done|done|]. by eapply remains_catch_all. }
  assert (Hstar : path <> [42]).
  { intros ->. done. }
  destruct path as [|c0 path]; [done|]. change (byte_at (c0 :: path) 0) with c0.
  destruct (Z.eqb_spec c0 123) as [->|Hc0].
  { assert (Hst : n_type d = Static).
    { destruct (n_type d); [done| |done]. by destruct (Hparam eq_refl) as [q Hq]. }
    rewrite Hst. apply insertChild_ok; try done; [right; by eexists|cbn; lia]. }
  destruct (node_parts _ _ _ Hn) as (S & W & -> & Hk & HS1 & HW1 & Hw & HS & HW & Hr & Hd).
  assert (Hcs : (if n_hasWildChild d then insert_at (length (n_indices d)) (Node NodeData_empty []) (S ++ W)
                 else (S ++ W) ++ [Node NodeData_empty []]) = (S ++ [Node NodeData_empty []]) ++ W).
  { rewrite <- Hk. destruct (n_hasWildChild d).
    - unfold insert_at. rewrite take_app_length, drop_app_length. by app_simpl.
    - rewrite Hw by done. by rewrite !app_nil_r. }
  rewrite Hcs. set (d1 := set_indices (n_indices d ++ [c0]) d).
  destruct (incrementChildPrio_split d1 S (Node NodeData_empty []) [] W) as (d' & a & b & newPos & E & HSab & Ha & Hd' & Hlen).
  { unfold d1. destruct d. cbn in *. rewrite !length_app, Hk. done. }
  rewrite <- Hk, E. cbn [children app]. subst newPos.
  rewrite list_lookup_middle by done. subst S.
  apply replace_static_ok; try done.
  - rewrite Hd'. unfold d1. by destruct d.
  - rewrite Hlen. unfold d1. destruct d. cbn in *. rewrite length_app, <- Hk. cbn. lia.
  - apply insertChild_ok; try done.
    + constructor; [done|constructor| |constructor]. by apply shape_split; exists [], [].
    + by left.
    + cbn. lia.
    + change (own (data (incr_priority (Node NodeData_empty [])))) with (@nil Tok). by rewrite app_nil_r.
    + change (own (data (incr_priority (Node NodeData_empty [])))) with (@nil Tok). by rewrite app_nil_r.
Qed.

Lemma lcp_split a b :
  exists p a' b', a = p ++ a' /\ b = p ++ b' /\ length p = LongestCommonPrefix a b
    /\ (a' = [] \/ b' = [] \/ byte_at a' 0 <> byte_at b' 0).
Proof.
  revert b. induction a as [|x a IH]; intros b; [exists [], [], b; by repeat split; left|].
  destruct b as [|y b]; [exists [], (x :: a), []; by repeat split; right; left|]. cbn [LongestCommonPrefix].
  destruct (Z.eqb_spec x y) as [->|Hxy].
  - destruct (IH b) as (p & a' & b' & -> & -> & Hp & H). exists (y :: p), a', b'. cbn. repeat split; [by rewrite Hp|done].
  - exists [], (x :: a), (y :: b). repeat split. right. right. done.
Qed.

(** The nodes that the walk enters. *)
Definition enters (n : RadixNode) (path : bytes) : Prop :=
  type_of n = Static
  \/ type_of n = Param /\ exists rest, path = n_path (data n) ++ rest /\ (rest = [] \/ exists q, rest = 47 :: q).

Lemma split_ok ts d cs p q :
  node_ok regex Q ts (Node d cs) -> n_type d = Static -> n_path d = p ++ q -> q <> [] ->
  let n := split_node (length p) (Node d cs) in
  node_ok regex Q ts n /\ type_of n = Static /\ own (data n) = map TChar p
  /\ n_hasWildChild (data n) = false /\ n_indices (data n) = [byte_at q 0].
Proof.
  intros Hn Ht Hp Hq n. apply node_ok_inv in Hn as (Hr & Hd & Hs & Hch). cbn [data children] in *.
  assert (Hown : own (data n) = map TChar p).
  { unfold n, split_node, own. cbn. by rewrite Ht, Hp, take_app_length. }
  unfold data_ok in Hd. rewrite Ht, Hp in Hd. apply Forall_app in Hd as [Hdp Hdq].
  assert (Hb : byte_at (n_path d) (length p) = byte_at q 0).
  { rewrite Hp. destruct q; [done|]. by rewrite byte_at_after. }
  split; [|split; [done|split; [done|split; [done|]]]]; [|cbn; by rewrite Hb].
  unfold n, split_node in *. cbn [data children] in *. constructor; cbn [n_route n_type].
  - done.
  - unfold data_ok. cbn. by rewrite Ht, Hp, take_app_length.
  - apply shape_split. exists [Node (MkNodeData (drop (length p) (n_path d)) (n_indices d) (n_route d) (u32 (n_priority d - 1)) Static
            (n_hasWildChild d) (n_parts d) Empty [] (n_handlers d)) cs], []. cbn.
    split; [done|]. split; [done|]. split; [by constructor|]. split; [done|]. split; [|done]. by rewrite Ht.
  - rewrite Hown. constructor; [|constructor].
    assert (Hown2 : ts ++ own d = (ts ++ map TChar p) ++ map TChar (drop (length p) (n_path d))).
    { unfold own. by rewrite Ht, Hp, drop_app_length, map_app, app_assoc. }
    constructor; cbn [n_route n_type].
    + unfold own, node_reg. cbn. rewrite <- Hown2. exact Hr.
    + unfold data_ok. cbn. by rewrite Hp, drop_app_length.
    + destruct Hs as (H1 & H2 & H3 & H4 & H5). unfold shape_ok. cbn. rewrite Ht in H3. repeat split; done.
    + unfold own. cbn. by rewrite <- Hown2.
Qed.

(** The first half of a turn of the walk: the node loses what the pattern does not share. *)
Definition walk_node (path : bytes) (n : RadixNode) : RadixNode :=
  let k := LongestCommonPrefix path (n_path (data n)) in
  if decide (k < length (n_path (data n)))%nat then split_node k n else n.

Lemma enters_param_prefix n path :
  type_of n = Param -> enters n path ->
  exists rest, path = n_path (data n) ++ rest /\ (rest = [] \/ exists q, rest = 47 :: q).
Proof. intros Ht [E|[_ H]]; [congruence|done]. Qed.

Lemma walk_node_ok ts n path :
  node_ok regex Q ts n -> enters n path -> remains ts path ->
  let k := LongestCommonPrefix path (n_path (data n)) in
  let n' := walk_node path n in
  let rest := drop k path in
  node_ok regex Q ts n' /\ type_of n' = type_of n /\ remains (ts ++ own (data n')) rest
  /\ (type_of n = Param -> rest = [] \/ exists q, rest = 47 :: q)
  /\ cs_of regex (ts ++ own (data n')) = cs_of regex (ts ++ own (data n))
  /\ (n' = n \/ n_hasWildChild (data n') = false
        /\ (rest <> [] -> memchr_pos (byte_at rest 0) (n_indices (data n')) = None)).
Proof.
  intros Hn He Hrem k n' rest. destruct (lcp_split path (n_path (data n))) as (p & a' & b' & Ep & En & Hp & Hd).
  fold k in Hp. assert (Hrest : rest = a') by (unfold rest; rewrite Ep, <- Hp; apply drop_app_length).
  unfold n', walk_node. fold k. rewrite <- Hp, En, length_app, Hrest. clear n' rest Hrest.
  pose proof (node_ok_inv _ _ _ _ Hn) as (_ & Hdata & _ & _).
  destruct (type_of n) eqn:Ety.
  - assert (Hown : own (data n) = map TChar (p ++ b')) by (unfold own, type_of in *; by rewrite Ety, En).
    unfold data_ok, type_of in *. rewrite Ety, En in Hdata. apply Forall_app in Hdata as [Hpl _].
    assert (Hrem' : remains (ts ++ map TChar p) a') by (apply remains_text; [done|by rewrite <- Ep]).
    destruct (decide (length p < length p + length b')%nat) as [Hlt|Hge].
    + destruct n as [d cs]. cbn [data] in *.
      destruct (split_ok ts d cs p b' Hn Ety En ltac:(intros ->; cbn [length] in Hlt; lia)) as (H1 & H2 & H3 & H4 & H5).
      split; [done|]. split; [done|]. split; [by rewrite H3|]. split; [done|].
      split; [by rewrite H3, Hown, !cs_of_app, !cs_of_chars|]. right. split; [done|]. intros Ha. rewrite H5. cbn.
      destruct Hd as [?|[->|Hd]]; [done|cbn [length] in Hlt; lia|]. by rewrite (proj2 (Z.eqb_neq _ _)) by congruence.
    + destruct b'; [|cbn [length] in Hge; lia]. rewrite app_nil_r in *. split; [done|]. split; [done|].
      split; [by rewrite Hown|]. split; [done|]. split; [done|by left].
  - destruct (enters_param_prefix n path Ety He) as (rest & Er & Hr).
    assert (Hfull : b' = [] /\ a' = rest).
    { rewrite Er, En, <- app_assoc in Ep. apply app_inv_head in Ep. destruct b' as [|y b']; [done|]. exfalso.
      subst a'. destruct Hd as [?|[?|Hd]]; done. }
    destruct Hfull as [-> ->]. rewrite app_nil_r in *. rewrite decide_False by (cbn [length]; lia).
    split; [done|]. split; [done|]. unfold type_of, data_ok in *. rewrite Ety in Hdata.
    destruct Hdata as (ps & cs & r & _ & _ & _ & _ & _ & Hesc & Eraw & Hno).
    split; [|split; [done|split; [done|by left]]]. unfold own. rewrite Ety. eapply remains_segment; [exact Eraw|done|done|].
    by rewrite <- Er.
  - exfalso. destruct He as [?|[? _]]; congruence.
Qed.

Lemma find_wildcard_child_spec path cs k pos :
  find_wildcard_child path cs k = Some pos ->
  exists a c b, cs = a ++ c :: b /\ pos = (k + length a)%nat
    /\ (type_of c = CatchAll /\ is_catch_all_path path = true
        \/ type_of c <> CatchAll /\ exists rest, path = n_path (data c) ++ rest /\ (rest = [] \/ exists q, rest = 47 :: q)).
Proof.
  revert k. induction cs as [|c cs IH]; intros k; cbn [find_wildcard_child]; [done|].
  assert (Hnext : find_wildcard_child path cs (S k) = Some pos ->
    exists a c' b, c :: cs = a ++ c' :: b /\ pos = (k + length a)%nat
    /\ (type_of c' = CatchAll /\ is_catch_all_path path = true
        \/ type_of c' <> CatchAll /\ exists rest, path = n_path (data c') ++ rest /\ (rest = [] \/ exists q, rest = 47 :: q))).
  { intros H. destruct (IH _ H) as (a & c' & b & -> & -> & Hc). exists (c :: a), c', b. split; [done|]. cbn. split; [lia|done]. }
  assert (Hhere : n_type (data c) <> CatchAll ->
    (if negb (bool_decide (n_path (data c) `prefix_of` path)) then find_wildcard_child path cs (S k)
     else if bool_decide (length (n_path (data c)) < length path)%nat && negb (byte_at path (length (n_path (data c))) =? 47)
     then find_wildcard_child path cs (S k) else Some k) = Some pos ->
    exists a c' b, c :: cs = a ++ c' :: b /\ pos = (k + length a)%nat
    /\ (type_of c' = CatchAll /\ is_catch_all_path path = true
        \/ type_of c' <> CatchAll /\ exists rest, path = n_path (data c') ++ rest /\ (rest = [] \/ exists q, rest = 47 :: q))).
  { intros Ht H. destruct (bool_decide_reflect (n_path (data c) `prefix_of` path)) as [[rest Hr]|]; cbn [negb] in H; [|by apply Hnext].
    destruct (_ && _) eqn:E; [by apply Hnext|]. injection H as <-. exists [], c, cs. split; [done|]. split; [cbn; lia|].
    right. split; [done|]. exists rest. split; [done|]. rewrite Hr in E. destruct rest as [|x rest]; [by left|right].
    rewrite byte_at_after, bool_decide_true in E by (rewrite length_app; cbn; lia). cbn [andb] in E.
    destruct (Z.eqb_spec x 47) as [->|]; [by eexists|done]. }
  destruct (n_type (data c)) eqn:Ety.
  - by apply Hhere.
  - by apply Hhere.
  - destruct (is_catch_all_path path) eqn:E; [|done]. intros [= <-]. exists [], c, cs. split; [done|]. split; [cbn; lia|by left].
Qed.

(** A wildcard child replaced by what an insertion made of it. *)
Lemma replace_wild_ok ts d S W1 c W2 r bc :
  node_ok regex Q ts (Node d (S ++ W1 ++ c :: W2)) -> length S = length (n_indices d) ->
  inserted_ok (ts ++ own d) (type_of c) bc r -> n_hasWildChild d = true ->
  inserted_ok ts (n_type d) bc
    (map_inserted (fun child => Node d (<[(length (n_indices d) + length W1)%nat := child]> (S ++ W1 ++ c :: W2))) r).
Proof.
  intros Hn Hk Hres Hw. pose proof Hn as Hn2. apply node_ok_inv in Hn2 as (Hr & Hd & Hs & Hch). cbn [data children] in *.
  assert (Ht : n_type d <> CatchAll).
  { intros Ht. destruct Hs as (_ & _ & _ & H & _). specialize (H Ht). by destruct S, W1. }
  apply Forall_app in Hch as [HS HW]. apply Forall_app in HW as [HW1 HW2]. apply Forall_cons in HW2 as [_ HW2].
  destruct Hs as (_ & H2 & H3 & _ & _). rewrite <- Hk, take_app_length in H2. rewrite <- Hk, drop_app_length in H3.
  apply Forall_app in H3 as [H31 H32]. apply Forall_cons in H32 as [Hc H32].
  eapply map_inserted_ok; [exact Hres|]. intros n Hok Htn.
  rewrite <- Hk, app_assoc, <- (length_app S W1), insert_app_r_alt by lia. rewrite Nat.sub_diag. cbn [insert list_insert].
  rewrite <- app_assoc. replace (Node d (S ++ W1 ++ n :: W2)) with (Node (set_indices (n_indices d) d) (S ++ W1 ++ n :: W2)) by (by destruct d).
  apply rebuilt_ok; try done.
  - apply Forall_app. split; [done|]. constructor; [|done]. by rewrite Htn.
  - by rewrite Hw.
  - apply Forall_app. split; [by apply Forall_added|]. apply Forall_app. split; [by apply Forall_added|].
    constructor; [done|by apply Forall_added].
Qed.
Lemma inserted_ok_weaken ts ty r : inserted_ok ts ty false r -> inserted_ok ts ty true r.
Proof. destruct r; cbn; [done|by intros [? _]|done]. Qed.

Lemma finish_old_ok ts n :
  node_ok regex Q ts n -> ends_at (ts ++ own (data n)) -> inserted_ok ts (type_of n) false (inserted (finish false n)).
Proof.
  intros Hn He. pose proof (node_ok_inv _ _ _ _ Hn) as (Hr & Hd & Hs & Hch). destruct n as [d cs]. cbn [data children] in *.
  apply inserted_finish_ok, finish_ok; [done|exact Hr| |exact Hs|by apply Forall_added|exact He].
  unfold data_pre, data_ok in *. destruct (n_type d); [done..|]. by destruct Hd.
Qed.

(** The static child the walk goes to, once its priority grew. *)
Lemma static_child_ok ts d cs pos (walk : RadixNode -> Inserted) :
  node_ok regex Q ts (Node d cs) -> n_type d <> CatchAll -> (pos < length (n_indices d))%nat ->
  (forall c, c ∈ cs -> type_of c = Static -> node_ok regex Q (ts ++ own d) c ->
     inserted_ok (ts ++ own d) Static true (walk (incr_priority c))) ->
  inserted_ok ts (n_type d) true
    (let '(node, newPos) := incrementChildPrio pos (Node d cs) in
     match children node !! newPos with
     | None => Broken
     | Some child =>
         map_inserted (fun child => Node (data node) (<[newPos := child]> (children node))) (walk child)
     end).
Proof.
  intros Hn Ht Hpos Hwalk. destruct (node_parts _ _ _ Hn) as (S & W & -> & Hk & HS1 & HW1 & Hw & HS & HW & Hr & Hd).
  destruct (lookup_lt_is_Some_2 S pos ltac:(lia)) as [c Hc].
  apply list_elem_of_split_length in Hc as (S1 & S2 & -> & ->).
  destruct (incrementChildPrio_split d S1 c S2 W ltac:(done)) as (d' & a & b & newPos & E & -> & <- & Hd' & Hlen).
  rewrite E. cbn [children]. rewrite list_lookup_middle by done.
  apply Forall_app in HS1 as [HS1 HS2]. apply Forall_cons in HS2 as [Hct HS2].
  apply Forall_app in HS as [HS HS2']. apply Forall_cons in HS2' as [Hcok HS2'].
  specialize (Hwalk c ltac:(set_solver) Hct Hcok).
  apply Forall_app in HS1 as [HSa HSb]. apply Forall_app in HS as [HSa' HSb'].
  rewrite (app_assoc b). apply replace_static_ok; try done.
  - rewrite Hlen, <- Hk, !length_app. cbn. lia.
  - rewrite !Forall_app. done.
  - rewrite !Forall_app. done.
Qed.

Lemma memchr_pos_lt c l k : memchr_pos c l = Some k -> (k < length l)%nat.
Proof. intros H. apply memchr_pos_Some in H as (a & b & -> & <- & _). rewrite length_app. cbn. lia. Qed.

Lemma insert_walk_ok fuel node path paramIdx ts :
  node_ok regex Q ts node -> enters node path -> (height node <= fuel)%nat -> remains ts path ->
  paramIdx = length (cs_of regex (ts ++ own (data node))) ->
  inserted_ok ts (type_of node) true (insert_walk route finish fuel node path paramIdx).
Proof.
  revert node path paramIdx ts. induction fuel as [|fuel IH]; intros node path paramIdx ts Hn He Hf Hrem Hidx.
  { destruct node. cbn in Hf. lia. }
  cbn [insert_walk]. destruct (walk_node_ok ts node path Hn He Hrem) as (Hn' & Hty & Hrem' & Hparam & Hcs & Hsame).
  set (k := LongestCommonPrefix path (n_path (data node))) in *.
  change (if decide (k < length (n_path (data node)))%nat then split_node k node else node) with (walk_node path node).
  set (node' := walk_node path node) in *. set (rest := drop k path) in *. rewrite <- Hcs in Hidx. rewrite <- Hty.
  assert (Ht : type_of node' <> CatchAll) by (rewrite Hty; destruct He as [->|[-> _]]; done).
  destruct (decide (k < length path)%nat) as [Hlt|Hge].
  2: { assert (rest = []) as Hnil by (unfold rest; by rewrite drop_ge by lia). rewrite Hnil in Hrem'.
       apply inserted_ok_weaken, finish_old_ok; [done|by apply remains_ends]. }
  assert (Hne : rest <> []) by (intros E; apply (f_equal length) in E; unfold rest in E; rewrite length_drop in E; cbn in E; lia).
  assert (Hnew : inserted_ok ts (type_of node') true (insert_new route finish node' rest paramIdx)).
  { apply inserted_ok_weaken, insert_new_ok; try done. rewrite Hty. intros Hp. by destruct (Hparam Hp). }
  destruct (memchr_pos (byte_at rest 0) (n_indices (data node'))) as [foundPos|] eqn:Em.
  - destruct Hsame as [Hsame|[_ Hsame]]; [|by specialize (Hsame Hne)]. rewrite Hsame in *.
    destruct node as [d cs]. unfold type_of in *. cbn [data] in *.
    apply (static_child_ok ts d cs foundPos (fun c => insert_walk route finish fuel c rest paramIdx));
      [done|done|by eapply memchr_pos_lt|]. intros c Hc Hct Hcok. rewrite <- Hct, <- type_incr.
    apply IH; [by apply node_ok_incr|left; by rewrite type_incr| |done|].
    + rewrite height_incr. pose proof (height_child d cs c Hc). lia.
    + rewrite own_incr. unfold own, type_of in *. rewrite Hct. by rewrite (cs_of_app _ (_ ++ _)), cs_of_chars, app_nil_r.
  - destruct (n_hasWildChild (data node') && _) eqn:Ew; [|done]. apply andb_true_iff in Ew as [Hw _].
    destruct Hsame as [Hsame|[Hsame _]]; [|by rewrite Hsame in Hw]. rewrite Hsame in *.
    destruct node as [d cs]. unfold type_of in Hty, Ht, Hnew, Hparam |- *. cbn [data children] in *.
    destruct (find_wildcard_child rest _ _) as [pos|] eqn:Ef.
    + destruct (node_parts _ _ _ Hn) as (S & W & -> & Hk & HS1 & HW1 & _ & HS & HW & Hr & Hd).
      rewrite <- Hk, drop_app_length in Ef. apply find_wildcard_child_spec in Ef as (W1 & c & W2 & -> & -> & Hc).
      rewrite app_assoc, list_lookup_middle, <- app_assoc by (by rewrite length_app). rewrite Hk.
      apply Forall_app in HW as [_ HW]. apply Forall_cons in HW as [Hcok _].
      apply Forall_app in HW1 as [_ HW1]. apply Forall_cons in HW1 as [[Hcs1 _] _].
      destruct Hc as [[Hct Hca]|[Hct Hprefix]].
      * unfold type_of in Hct. rewrite Hct. apply replace_wild_ok; try done. apply inserted_ok_weaken, finish_old_ok; [done|].
        unfold own at 2. rewrite Hct. by eapply remains_catch_all.
      * destruct (n_type (data c)) eqn:Ect; [done| |done]. apply replace_wild_ok; try done. rewrite <- type_incr.
        apply IH; [by apply node_ok_incr| | |done|].
        -- right. by rewrite type_incr, path_incr.
        -- rewrite height_incr. pose proof (height_child d (S ++ W1 ++ c :: W2) c (elem_of_mid _ _ _ _)). lia.
        -- rewrite own_incr, Hidx, (cs_of_app _ (_ ++ _)), length_app. f_equal. by eapply count_params_own.
    + destruct ((byte_at rest 0 =? 123) && _); [|done]. cbn. split; [done|]. split; [by apply node_ok_added|done].
Qed.
End Pattern.
End Insert.
