(* ===== verification/RadixTreeRoot.v ===== *)
(** Registration of a route from the root of the radix tree: the root keeps a text that starts with
    a slash, and the tree keeps its invariant. *)
From Stdlib Require Import ZArith List Lia Bool String.
From stdpp Require Import base list decidable.
From S2P Require Import Prelude.
From S2P Require Import Cors.
From S2P Require Import RouteConstraint.
From S2P Require Import RoutePattern.
From S2P Require Import RoutePatternProofs.
From S2P Require Import PathHandlerEntry.
From S2P Require Import RadixTree.
From S2P Require Import RadixTreeProofs.
From S2P Require Import RadixTreeInsert.
Local Open Scope Z_scope.

Section Root.
Context `{C : Callables}.
Variable regex : bytes -> option (bytes -> bool).
Variable Q : Registrations.
Variable pattern : bytes.
Variable route : Route.
Variable slash : bool.
Variable assign : PathHandlerEntry -> PathHandlerEntry * option string.
Abbreviation full := (pattern_tokens pattern).
Hypothesis star_free : TChar 42 ∉ full.
Hypothesis tokens_ok : Forall (tok_ok regex) full.
Hypothesis route_constraints : paramConstraints route = cs_of regex full.
Abbreviation finish := (finish_route route slash assign).
Definition assigned (h : PathHandlerEntry) : PathHandlerEntry := fst (assign h).

(** ** What is done to the node the pattern ends at *)

Lemma finish_route_spec created n : exists r,
  fst (finish created n) = map_data (fun d => set_handlers (assigned (n_handlers d)) (set_route (Some r) d)) n
  /\ (paramNames r = paramNames route /\ (created = true \/ n_route (data n) = None)
      \/ exists r0, created = false /\ n_route (data n) = Some r0 /\ paramNames r = paramNames r0).
Proof.
  unfold finish_route, assigned. destruct n as [d cs]. unfold map_data. cbn [data children].
  set (r := if created then _ else _). destruct r as [names con w no withSlash] eqn:Er.
  destruct (assign (n_handlers d)) as [h e]. eexists. split; [reflexivity|].
  assert (Hnames : paramNames (if slash then MkRoute names con w no true else MkRoute names con w true withSlash) = names)
    by (by destruct slash).
  rewrite Hnames. unfold r in Er. destruct created; [injection Er as <-; by left; split; [|left]|].
  destruct (n_route d) as [r0|] eqn:E; cbn in Er; [|injection Er as <-; by left; split; [|right]].
  right. exists r0. by rewrite Er.
Qed.

Lemma finish_path created n : n_path (data (fst (finish created n))) = n_path (data n).
Proof. destruct (finish_route_spec created n) as (r & -> & _). by destruct n as [[]]. Qed.

(** ** The text of the node an insertion starts from *)

Definition has_path (p : bytes) (r : Inserted) : Prop :=
  match r with Done n _ | Conflict n => n_path (data n) = p | Broken => True end.

Lemma map_inserted_path f r p : (forall n, n_path (data (f n)) = p) -> has_path p (map_inserted f r).
Proof. intros H. destruct r; cbn; done. Qed.

Lemma path_set_indices i d : n_path (set_indices i d) = n_path d.
Proof. by destruct d. Qed.
Lemma path_set_wild d : n_path (set_hasWildChild d) = n_path d.
Proof. by destruct d. Qed.
Lemma path_set_path p d : n_path (set_path p d) = p.
Proof. by destruct d. Qed.

Lemma increment_path pos n : n_path (data (fst (incrementChildPrio pos n))) = n_path (data n).
Proof.
  unfold incrementChildPrio. destruct (children n !! pos); [|done]. cbn [fst data]. apply path_set_indices.
Qed.

(** The branches that replace one child of a node. *)
Lemma replaced_path (p : RadixNode * nat) path (walk : RadixNode -> Inserted) :
  n_path (data (fst p)) = path ->
  has_path path
    (let '(node, newPos) := p in
     match children node !! newPos with
     | None => Broken
     | Some child =>
         map_inserted (fun child => Node (data node) (<[newPos := child]> (children node))) (walk child)
     end).
Proof.
  destruct p as [n newPos]. cbn [fst]. intros <-. destruct (children n !! newPos); [|done]. by apply map_inserted_path.
Qed.

Lemma insertChild_path fuel node (path : bytes) idx first last :
  FindWildcard path = Some (first, last) -> byte_at path first = 123 ->
  has_path (if Nat.eqb first 0 then n_path (data node) else unescape (take first path))
    (insertChild route finish (S fuel) node path idx).
Proof.
  intros Hf Hb. cbn [insertChild]. rewrite Hf, Hb. cbn [Z.eqb Pos.eqb].
  destruct (segment_parts _ _ _ _ _ _ _ _) as [[[parts cs] k]|]; [|done].
  assert (Hadd : n_path (set_hasWildChild (data (if Nat.eqb first 0 then node
      else map_data (set_path (unescape (take first path))) node)))
      = if Nat.eqb first 0 then n_path (data node) else unescape (take first path)).
  { rewrite path_set_wild. destruct (Nat.eqb first 0); [done|]. apply path_set_path. }
  destruct (find_char 47 _ 0); apply map_inserted_path; intros c; exact Hadd.
Qed.

Lemma find_brace (r : bytes) :
  no_escape (123 :: r) -> Forall (tok_ok regex) (pattern_tokens (123 :: r)) ->
  exists last, FindWildcard (123 :: r) = Some (0%nat, last).
Proof.
  intros Hn Hok. destruct (FindWildcard_cases regex (123 :: r) ltac:(done) Hn Hok)
    as [(_ & H & _)|[(lit & q & last & E & Hl & -> & _)|(lit & E & Hl & _)]].
  - by apply Forall_cons in H as [H _].
  - destruct lit as [|x lit]; [by exists last|]. injection E as <- _. by apply Forall_cons in Hl as [Hl _].
  - destruct lit as [|x lit]; [done|]. injection E as <- _. by apply Forall_cons in Hl as [Hl _].
Qed.

Lemma insert_new_path node (path : bytes) idx :
  path <> [] -> no_escape path -> (is_catch_all_path path = false -> Forall (tok_ok regex) (pattern_tokens path)) ->
  has_path (n_path (data node)) (insert_new route finish node path idx).
Proof.
  intros Hne Hn Hok. unfold insert_new. destruct (is_catch_all_path path).
  { apply map_inserted_path. intros n. cbn. apply path_set_wild. }
  destruct path as [|c path]; [done|]. change (byte_at (c :: path) 0) with c. destruct (Z.eqb_spec c 123) as [->|Hc].
  - destruct (find_brace path Hn (Hok eq_refl)) as [last Hf].
    apply (insertChild_path _ _ _ _ _ _ Hf eq_refl).
  - apply (replaced_path (incrementChildPrio _ _) _ (fun child => insertChild route finish _ child (c :: path) idx)).
    rewrite increment_path. cbn. apply path_set_indices.
Qed.

Lemma insert_walk_path fuel node (path : bytes) idx ts :
  node_ok regex Q ts node -> enters node path -> remains pattern ts path ->
  has_path (n_path (data (walk_node path node))) (insert_walk route finish fuel node path idx).
Proof.
  intros Hn He Hrem. destruct fuel as [|fuel]; [done|]. cbn [insert_walk].
  destruct (walk_node_ok regex Q pattern ts node path Hn He Hrem) as (_ & _ & Hrem' & _).
  set (k := LongestCommonPrefix path (n_path (data node))) in *.
  change (if decide (k < length (n_path (data node)))%nat then split_node k node else node) with (walk_node path node).
  set (node' := walk_node path node) in *. set (rest := drop k path) in *.
  destruct (decide (k < length path)%nat) as [Hlt|Hge]; [|apply finish_path].
  assert (Hne : rest <> []) by (intros E; apply (f_equal length) in E; unfold rest in E; rewrite length_drop in E; cbn in E; lia).
  assert (Hnew : has_path (n_path (data node')) (insert_new route finish node' rest idx)).
  { apply insert_new_path; [done|apply Hrem'|]. intros Hca.
    eapply remains_ok; [exact star_free|exact tokens_ok|exact route_constraints|exact finish_route_spec|exact Hrem'|]. by intros E; rewrite E in Hca. }
  destruct (memchr_pos _ _) as [foundPos|].
  - apply (replaced_path (incrementChildPrio _ _) _ (fun child => insert_walk route finish fuel child rest idx)), increment_path.
  - destruct (_ && _); [|done]. destruct (find_wildcard_child _ _ _) as [pos|].
    + destruct (children node' !! pos) as [c|]; [|done]. destruct (n_type (data c)); by apply map_inserted_path.
    + destruct (_ && _); done.
Qed.

(** ** [insertRoute] *)

(** The tree of a router: its root is static and its text starts with a slash. *)
Definition root_ok (Q : Registrations) (n : RadixNode) : Prop :=
  node_ok regex Q [] n /\ type_of n = Static /\ exists l, n_path (data n) = 47 :: l.

Definition route_inserted (r : Inserted) : Prop :=
  match r with
  | Done n _ | Conflict n => root_ok (added Q pattern route assigned) n
  | Broken => False
  end.

Lemma route_inserted_of r b l :
  inserted_ok regex Q pattern route assigned [] Static b r -> has_path (47 :: l) r -> route_inserted r.
Proof.
  destruct r as [n e|n|]; cbn; [intros [H1 H2] H3|intros (_ & H1 & H2) H3|done]; split; [done|split; [done|by eexists]|done|split; [done|by eexists]].
Qed.

Hypothesis pattern_slash : exists l, pattern = 47 :: l.
Hypothesis pattern_no_escape : no_escape pattern.

Lemma remains_all : remains pattern [] pattern.
Proof. split; [done|by left]. Qed.

Lemma insertRoute_first_ok :
  pattern <> [47; 42] -> route_inserted (insertRoute None pattern route slash assign).
Proof.
  intros Hp. unfold insertRoute. cbn [default].
  set (root := incr_priority (Node NodeData_empty [])). change (Nat.eqb (length (n_path (data root))) 0) with true. cbv iota.
  assert (Hok : inserted_ok regex Q pattern route assigned [] Static false
    (insertChild route finish (S (length pattern)) root pattern 0)).
  { destruct pattern_slash as [l Hl]. apply insertChild_ok; try done.
    - apply finish_route_spec.
    - constructor; [done|constructor| |constructor]. by apply shape_split; exists [], [].
    - by left.
    - by rewrite Hl.
    - by rewrite Hl.
    - lia.
    - apply remains_all. }
  destruct pattern_slash as [l Hl].
  destruct (FindWildcard_cases regex pattern ltac:(by rewrite Hl) pattern_no_escape tokens_ok)
    as [(Hf & _ & _)|[(lit & q & last & E & Hlit & Hf & _)|(lit & E & Hlit & Hf & _)]].
  - cbn [insertChild] in *. rewrite Hf in *. eapply (route_inserted_of _ _ l); [exact Hok|]. cbn -[finish_route].
    rewrite finish_path. cbn. by rewrite unescape_id, Hl.
  - assert (Hb : byte_at pattern (length lit) = 123) by (rewrite E; apply byte_at_after).
    pose proof (insertChild_path (length pattern) root pattern 0 _ _ Hf Hb) as Hpath.
    rewrite E, take_app_length, <- E in Hpath. destruct lit as [|x lit]; [by rewrite E in Hl|].
    rewrite E in Hl. injection Hl as -> _. eapply route_inserted_of; [exact Hok|]. cbn [length Nat.eqb] in Hpath.
    rewrite unescape_id in Hpath; [exact Hpath|]. rewrite E in pattern_no_escape. by apply no_escape_app in pattern_no_escape as [H _].
  - cbn [insertChild] in *. rewrite Hf in *.
    assert (Hb : byte_at pattern (S (length lit)) = 42).
    { rewrite E. change [47; 42] with ([47] ++ [42]). rewrite app_assoc, <- (length_snoc lit 47). apply byte_at_after. }
    rewrite Hb in *. cbn [Z.eqb Pos.eqb] in *. destruct lit as [|x lit]; [done|].
    assert (Ht : take (S (length (x :: lit)) - 1) pattern = x :: lit).
    { rewrite Nat.sub_succ, Nat.sub_0_r. rewrite E. apply take_app_length. }
    rewrite Ht in *. pose proof pattern_no_escape as Hn. rewrite E in Hl, Hn. injection Hl as -> _.
    apply no_escape_app in Hn as [Hn _]. eapply (route_inserted_of _ _ lit); [exact Hok|].
    apply map_inserted_path. intros n. cbn [data]. by rewrite path_set_wild, path_set_path, unescape_id.
Qed.

Lemma insertRoute_next_ok root :
  root_ok Q root -> route_inserted (insertRoute (Some root) pattern route slash assign).
Proof.
  intros (Hn & Ht & l & Hp). unfold insertRoute. change (default (Node NodeData_empty []) (Some root)) with root.
  assert (Hn' : node_ok regex Q [] (incr_priority root)) by (by apply node_ok_incr).
  assert (Hp' : n_path (data (incr_priority root)) = 47 :: l) by (by rewrite path_incr).
  rewrite <- type_incr in Ht. rewrite Hp'. cbn [length Nat.eqb].
  set (node := incr_priority root) in *. destruct pattern_slash as [q Hq].
  assert (Hk : exists k, LongestCommonPrefix pattern (n_path (data node)) = S k) by (rewrite Hq, Hp'; cbn; by eexists).
  destruct Hk as [k Hk].
  assert (Hw : exists l', n_path (data (walk_node pattern node)) = 47 :: l').
  { unfold walk_node. rewrite Hk. destruct (decide _); [|by eexists]. unfold split_node. cbn [data n_path]. rewrite Hp'. by eexists. }
  destruct Hw as [l' Hw]. eapply (route_inserted_of _ true l').
  - rewrite <- Ht. eapply insert_walk_ok; try done; [apply finish_route_spec|by left|lia|apply remains_all|].
    unfold own, type_of in *. rewrite Ht. by rewrite app_nil_l, cs_of_chars.
  - rewrite <- Hw. eapply insert_walk_path; [done|by left|apply remains_all].
Qed.
End Root.
