(* ===== verification/Router.v ===== *)
(** The router (http/src/router.cpp): registration of handlers, matching of a request, redirections
    of trailing slashes, methods allowed.  The paths without parameter nor wildcard live in a map,
    the others in the radix tree. *)
From Stdlib Require Import ZArith List Lia Bool String.
From stdpp Require Import base list decidable gmap.
From S2P Require Import Prelude.
From S2P Require Import Http1Request.
From S2P Require Import Cors.
From S2P Require Import RouteConstraint.
From S2P Require Import RoutePattern.
From S2P Require Import PathHandlerEntry.
From S2P Require Import RadixTree.
Local Open Scope Z_scope.

Inductive TrailingSlashPolicy := Strict | Normalize | Redirect.
#[export] Instance TrailingSlashPolicy_eq_dec : EqDecision TrailingSlashPolicy.
Proof. solve_decision. Defined.

Record RouterConfig := MkRouterConfig { trailingSlashPolicy : TrailingSlashPolicy; defaultCorsPolicy : CorsPolicy }.

Inductive RedirectSlashMode := NoRedirect | AddSlash | RemoveSlash.

(** A lookup throws on the empty path; [OutOfBounds] is an assertion of the match that fails. *)
Inductive Lookup (A : Type) := Found (a : A) | EmptyPath | OutOfBounds.
Arguments Found {A} a.
Arguments EmptyPath {A}.
Arguments OutOfBounds {A}.

Section Router.
Context `{C : Callables}.
Variable std_regex : bytes -> option (bytes -> bool).

Record LiteralRouteEntry := MkLiteral {
  le_handlers : PathHandlerEntry; le_hasNoSlashRegistered : bool; le_hasWithSlashRegistered : bool
}.

(** A [std::function] is [None] when empty. *)
Record Router := MkRouter {
  r_config : RouterConfig;
  r_handler : option RequestHandler;
  r_asyncHandler : option AsyncRequestHandler;
  r_streamingHandler : option StreamingHandler;
  r_defaultPathConfig : PathEntryConfig;
  r_globalPre : list RequestMiddleware;
  r_globalPost : list ResponseMiddleware;
  r_root : option RadixNode;
  r_literals : gmap bytes LiteralRouteEntry
}.

Definition Router_new (config : RouterConfig) : Router :=
  MkRouter config None None None PathEntryConfig_default [] [] None ∅.

Definition addRequestMiddleware (mw : RequestMiddleware) (r : Router) : Router :=
  let 'MkRouter cfg h a s d pre post root lit := r in MkRouter cfg h a s d (pre ++ [mw]) post root lit.
Definition addResponseMiddleware (mw : ResponseMiddleware) (r : Router) : Router :=
  let 'MkRouter cfg h a s d pre post root lit := r in MkRouter cfg h a s d pre (post ++ [mw]) root lit.

Definition setDefault (handler : option RequestHandler) (r : Router) : Router :=
  let 'MkRouter cfg _ a _ d pre post root lit := r in MkRouter cfg handler a None d pre post root lit.
Definition setDefaultStreaming (handler : option StreamingHandler) (r : Router) : Router :=
  let 'MkRouter cfg _ a _ d pre post root lit := r in MkRouter cfg None a handler d pre post root lit.
Definition setDefaultAsync (handler : option AsyncRequestHandler) (r : Router) : Router :=
  let 'MkRouter cfg h _ s d pre post root lit := r in MkRouter cfg h handler s d pre post root lit.

Definition router_clear (r : Router) : Router :=
  let 'MkRouter cfg _ _ _ d _ _ _ _ := r in MkRouter cfg None None None d [] [] None ∅.

Definition set_root (root : option RadixNode) (r : Router) : Router :=
  let 'MkRouter cfg h a s d pre post _ lit := r in MkRouter cfg h a s d pre post root lit.
Definition set_literals (lit : gmap bytes LiteralRouteEntry) (r : Router) : Router :=
  let 'MkRouter cfg h a s d pre post root _ := r in MkRouter cfg h a s d pre post root lit.

(** The path without its trailing slash, which is kept in strict mode, and whether it had one;
    [None] throws on the empty path. *)
Definition MayNormalizeHasTrailingSlash (policy : TrailingSlashPolicy) (path : bytes) : option (bytes * bool) :=
  if Nat.eqb (length path) 0 then None
  else
    let pathHasTrailingSlash := bool_decide (1 < length path)%nat && (List.last path 0 =? 47) in
    if decide (policy = Strict) then Some (path, pathHasTrailingSlash)
    else Some (if pathHasTrailingSlash then removelast path else path, pathHasTrailingSlash).

(** ** Registration *)

Inductive HandlerVariant :=
| VRequest (h : option RequestHandler) | VStreaming (h : option StreamingHandler)
| VAsync (h : option AsyncRequestHandler) | VWebSocket (e : WebSocketEndpoint).

(** The visitor of [setPathInternal] and the exception it throws. *)
Definition assign_variant (methods : Z) (v : HandlerVariant) (e : PathHandlerEntry) : PathHandlerEntry * option string :=
  let thrown (r : PathHandlerEntry * bool) :=
    (fst r, if snd r then Some "Cannot register handler: another kind of handler already present for path+method"%string else None) in
  match v with
  | VRequest None => (e, Some "Cannot set empty RequestHandler"%string)
  | VRequest (Some h) => thrown (assignNormalHandler methods h e)
  | VStreaming None => (e, Some "Cannot set empty StreamingHandler"%string)
  | VStreaming (Some h) => thrown (assignStreamingHandler methods h e)
  | VAsync None => (e, Some "Cannot set empty AsyncRequestHandler"%string)
  | VAsync (Some h) => thrown (assignAsyncHandler methods h e)
  | VWebSocket w => (assignWebSocketEndpoint w e, None)
  end.

(** The router after a registration, and the exception; [Undefined] is an access out of bounds. *)
Inductive Registered := Registration (r : Router) (thrown : option string) | Undefined.

Definition literal_key_entry (key : bytes) (r : Router) : LiteralRouteEntry :=
  default (MkLiteral PathHandlerEntry_new false false) (r_literals r !! key).

Definition setPathInternal (methods : Z) (path : bytes) (v : HandlerVariant) (r : Router) : Registered :=
  match MayNormalizeHasTrailingSlash (trailingSlashPolicy (r_config r)) path with
  | None => Registration r (Some "Path cannot be empty"%string)
  | Some (path, pathHasTrailingSlash) =>
      match ParsePattern std_regex path with
      | Throw e => Registration r (Some e)
      | Ret route =>
          if Nat.eqb (length (paramNames route)) 0 && negb (hasWildcard route) then
            let key := unescape path in
            let 'MkLiteral handlers no withSlash := literal_key_entry key r in
            let '(handlers, thrown) := assign_variant methods v handlers in
            let entry := if pathHasTrailingSlash then MkLiteral handlers no true else MkLiteral handlers true withSlash in
            Registration (set_literals (<[key := entry]> (r_literals r)) r) thrown
          else
            match insertRoute (r_root r) path route pathHasTrailingSlash (assign_variant methods v) with
            | Done root thrown => Registration (set_root (Some root) r) thrown
            | Conflict root =>
                Registration (set_root (Some root) r) (Some "Path conflicts with existing wildcard route"%string)
            | Broken => Undefined
            end
      end
  end.

(** ** Matching *)

(** [Misread] would be a storage cell read with a type it does not hold. *)
Inductive Handler :=
| NoHandler | RequestH (h : RequestHandler) | StreamingH (h : StreamingHandler)
| AsyncH (h : AsyncRequestHandler) | Misread.

Record RoutingResult := MkResult {
  rr_handler : Handler; rr_redirect : RedirectSlashMode; rr_methodNotAllowed : bool;
  rr_pathConfig : PathEntryConfig; rr_pathParams : list (bytes * bytes);
  rr_pre : list RequestMiddleware; rr_post : list ResponseMiddleware;
  rr_cors : option CorsPolicy; rr_websocket : option WebSocketEndpoint
}.
Definition RoutingResult_new : RoutingResult :=
  MkResult NoHandler NoRedirect false PathEntryConfig_default [] [] [] None None.

Definition set_redirect (m : RedirectSlashMode) (r : RoutingResult) : RoutingResult :=
  let 'MkResult h _ na c ps pre post co w := r in MkResult h m na c ps pre post co w.
Definition set_params (ps : list (bytes * bytes)) (r : RoutingResult) : RoutingResult :=
  let 'MkResult h m na c _ pre post co w := r in MkResult h m na c ps pre post co w.
Definition set_default_handler (h : Handler) (cfg : PathEntryConfig) (r : RoutingResult) : RoutingResult :=
  let 'MkResult _ m na _ ps pre post co w := r in MkResult h m na cfg ps pre post co w.

Definition hasHandlerIdx (e : PathHandlerEntry) (i : nat) : bool :=
  hasNormalHandler e i || hasStreamingHandler e i || hasAsyncHandler e i.

(** HEAD is answered by the handler of GET when it has none of its own. *)
Definition effective_method (method : Method) (e : PathHandlerEntry) : Method :=
  if decide (method = HEAD) then
    if negb (hasHandlerIdx e (MethodToIdx HEAD)) && hasHandlerIdx e (MethodToIdx GET) then GET else method
  else method.

Definition setMatchedHandler (config : RouterConfig) (method : Method) (e : PathHandlerEntry)
    (result : RoutingResult) : RoutingResult :=
  let method := effective_method method e in
  let i := MethodToIdx method in
  let read {A} (f : A -> Handler) (h : option A) := match h with Some h => f h | None => Misread end in
  let '(handler, methodNotAllowed) :=
    if hasStreamingHandler e i then (read StreamingH (streamingHandlerPtr e i), rr_methodNotAllowed result)
    else if hasAsyncHandler e i then (read AsyncH (asyncHandlerPtr e i), rr_methodNotAllowed result)
    else if hasNormalHandler e i then (read RequestH (requestHandlerPtr e i), rr_methodNotAllowed result)
    else if hasWebSocketEndpoint e && bool_decide (method = GET) then (rr_handler result, rr_methodNotAllowed result)
    else (rr_handler result, true) in
  MkResult handler (rr_redirect result) methodNotAllowed (pathConfig e) (rr_pathParams result)
    (preMiddleware e) (postMiddleware e)
    (if cp_active (corsPolicy e) then Some (corsPolicy e)
     else if cp_active (defaultCorsPolicy config) then Some (defaultCorsPolicy config) else rr_cors result)
    (websocketEndpoint e).

(** The entry to serve, or the redirection. *)
Definition slash_variant (pathHasTrailingSlash no withSlash : bool) (e : PathHandlerEntry)
  : option PathHandlerEntry * RedirectSlashMode :=
  if pathHasTrailingSlash then if withSlash then (Some e, NoRedirect) else (None, RemoveSlash)
  else if no then (Some e, NoRedirect) else (None, AddSlash).

Definition computePathHandlerEntry (policy : TrailingSlashPolicy) (n : RadixNode) (pathHasTrailingSlash : bool)
  : option PathHandlerEntry * RedirectSlashMode :=
  let e := n_handlers (data n) in
  match policy with
  | Normalize => (if hasAnyHandler e then Some e else None, NoRedirect)
  | Redirect =>
      match n_route (data n) with
      | Some r => slash_variant pathHasTrailingSlash (hasNoSlashRegistered r) (hasWithSlashRegistered r) e
      | None => (None, NoRedirect)
      end
  | Strict => (Some e, NoRedirect)
  end.

Definition literal_entry (policy : TrailingSlashPolicy) (l : LiteralRouteEntry) (pathHasTrailingSlash : bool)
  : option PathHandlerEntry * RedirectSlashMode :=
  match policy with
  | Strict => (Some (le_handlers l), NoRedirect)
  | Normalize => (if hasAnyHandler (le_handlers l) then Some (le_handlers l) else None, NoRedirect)
  | Redirect => slash_variant pathHasTrailingSlash (le_hasNoSlashRegistered l) (le_hasWithSlashRegistered l) (le_handlers l)
  end.

Definition is_strict (r : Router) : bool := bool_decide (trailingSlashPolicy (r_config r) = Strict).

(** The default handlers. *)
Definition default_handler (r : Router) : Handler :=
  match r_streamingHandler r, r_asyncHandler r, r_handler r with
  | Some h, _, _ => StreamingH h
  | None, Some h, _ => AsyncH h
  | None, None, Some h => RequestH h
  | _, _, _ => NoHandler
  end.

Definition match_route (r : Router) (method : Method) (path : bytes) : Lookup RoutingResult :=
  let policy := trailingSlashPolicy (r_config r) in
  match MayNormalizeHasTrailingSlash policy path with
  | None => EmptyPath
  | Some (path, slash) =>
      let serve (res : option PathHandlerEntry * RedirectSlashMode) :=
        let result := set_redirect (snd res) RoutingResult_new in
        match fst res with Some e => setMatchedHandler (r_config r) method e result | None => result end in
      match r_literals r !! path with
      | Some l => Found (serve (literal_entry policy l slash))
      | None =>
          match matchImpl std_regex (is_strict r) slash (r_root r) path with
          | None => OutOfBounds
          | Some None => Found (set_default_handler (default_handler r) (r_defaultPathConfig r) RoutingResult_new)
          | Some (Some (n, captured)) =>
              let res := computePathHandlerEntry policy n slash in
              match fst res, n_route (data n) with
              | Some _, Some route => Found (set_params (zip (paramNames route) captured) (serve res))
              | _, _ => Found (serve res)
              end
          end
      end
  end.

Definition entry_methods (e : PathHandlerEntry) : Z :=
  Z.lor (Z.lor (normalMethodBmp e) (streamingMethodBmp e)) (asyncMethodBmp e).

Definition allowedMethods (r : Router) (path : bytes) : Lookup Z :=
  let policy := trailingSlashPolicy (r_config r) in
  match MayNormalizeHasTrailingSlash policy path with
  | None => EmptyPath
  | Some (path, slash) =>
      match r_literals r !! path with
      | Some l =>
          if negb (bool_decide (policy = Normalize))
             && (if slash then negb (le_hasWithSlashRegistered l) else negb (le_hasNoSlashRegistered l))
          then Found 0
          else Found (entry_methods (le_handlers l))
      | None =>
          match matchImpl std_regex (is_strict r) slash (r_root r) path with
          | None => OutOfBounds
          | Some (Some (n, _)) => Found (entry_methods (n_handlers (data n)))
          | Some None =>
              match default_handler r with NoHandler => Found 0 | _ => Found (2 ^ Z.of_nat kNbMethods - 1) end
          end
      end
  end.
End Router.
