(* ===== verification/RouterProofs.v ===== *)
(** What the router serves: after any sequence of registrations of [plain_op]s, the handler given
    for a request was registered for its method under a pattern that the path is an instance of, or
    whose text before a final star it goes on from without a slash ([overrun]). *)

From S2P Require Import Prelude.
From Stdlib Require Import ZArith List Lia Bool String.
From stdpp Require Import base list decidable gmap.
From S2P Require Import Http1Request.
From S2P Require Import RouteConstraint.
From S2P Require Import Cors.
From S2P Require Import PathHandlerEntry.
From S2P Require Import PathHandlerEntryProofs.
From S2P Require Import RoutePattern.
From S2P Require Import RoutePatternProofs.
From S2P Require Import RadixTree.
From S2P Require Import RadixTreeProofs.
From S2P Require Import RadixTreeInsert.
From S2P Require Import RadixTreeRoot.
From S2P Require Import Router.
Local Open Scope Z_scope.

Section History.
Context `{C : Callables}.
Variable regex : bytes -> option (bytes -> bool).

(** The calls that configure a router. *)
Inductive RouterOp :=
| SetPath (methods : Z) (path : bytes) (v : HandlerVariant)
| SetDefault (h : option RequestHandler) | SetDefaultStreaming (h : option StreamingHandler)
| SetDefaultAsync (h : option AsyncRequestHandler)
| AddRequestMiddleware (mw : RequestMiddleware) | AddResponseMiddleware (mw : ResponseMiddleware).

(** [None] when the call accesses memory out of bounds; a call that throws leaves its effects. *)
Definition run_op (op : RouterOp) (r : Router) : option Router :=
  match op with
  | SetPath methods path v => match setPathInternal regex methods path v r with Registration r _ => Some r | Undefined => None end
  | SetDefault h => Some (setDefault h r)
  | SetDefaultStreaming h => Some (setDefaultStreaming h r)
  | SetDefaultAsync h => Some (setDefaultAsync h r)
  | AddRequestMiddleware mw => Some (addRequestMiddleware mw r)
  | AddResponseMiddleware mw => Some (addResponseMiddleware mw r)
  end.

Definition run_ops (ops : list RouterOp) (r : Router) : option Router :=
  fold_left (fun r op => match r with Some r => run_op op r | None => None end) ops (Some r).

Section Policy.
Variable policy : TrailingSlashPolicy.

Definition normalized (path : bytes) : bytes :=
  match MayNormalizeHasTrailingSlash policy path with Some (p, _) => p | None => [] end.

(** A pattern with parameters or a wildcard. *)
Definition radix_pattern (pattern : bytes) : bool :=
  match ParsePattern regex pattern with
  | Ret route => negb (Nat.eqb (length (paramNames route)) 0 && negb (hasWildcard route))
  | Throw _ => false
  end.
Definition radix_op (op : RouterOp) : bool :=
  match op with SetPath _ path _ => radix_pattern (normalized path) | _ => false end.

Definition plain_op (op : RouterOp) : Prop :=
  match op with SetPath _ path _ => plain_pattern (normalized path) | _ => True end.

(** The tree does not begin with the pattern [/*]. *)
Definition starts_well (ops : list RouterOp) : Prop :=
  match List.find radix_op ops with Some (SetPath _ path _) => normalized path <> [47; 42] | _ => True end.

Definition variant_cell (v : HandlerVariant) : option HandlerStorage :=
  match v with
  | VRequest (Some h) => Some (NormalCell h)
  | VStreaming (Some h) => Some (StreamingCell h)
  | VAsync (Some h) => Some (AsyncCell h)
  | _ => None
  end.

Definition handler_cell (h : Handler) : option HandlerStorage :=
  match h with
  | RequestH h => Some (NormalCell h)
  | StreamingH h => Some (StreamingCell h)
  | AsyncH h => Some (AsyncCell h)
  | _ => None
  end.

(** The handler [c] was registered under [pattern] for the method of index [i]. *)
Definition registered (ops : list RouterOp) (pattern : bytes) (i : nat) (c : HandlerStorage) : Prop :=
  exists methods path v, SetPath methods path v ∈ ops /\ normalized path = pattern
    /\ IsMethodIdxSet methods i = true /\ variant_cell v = Some c.

Lemma assign_variant_ok (P : nat -> HandlerStorage -> Prop) methods v e :
  entry_ok P e ->
  entry_ok (fun i c => P i c \/ IsMethodIdxSet methods i = true /\ variant_cell v = Some c)
    (fst (assign_variant methods v e)).
Proof.
  intros He. assert (Hsame : entry_ok (fun i c => P i c \/ IsMethodIdxSet methods i = true /\ variant_cell v = Some c) e)
    by (eapply entry_ok_weaken; [|exact He]; by left).
  destruct v as [[h|]|[h|]|[h|]|w]; cbn [assign_variant fst variant_cell] in *; try done.
  - eapply entry_ok_weaken; [|by apply assignNormalHandler_ok]. cbn. intuition congruence.
  - eapply entry_ok_weaken; [|by apply assignStreamingHandler_ok]. cbn. intuition congruence.
  - eapply entry_ok_weaken; [|by apply assignAsyncHandler_ok]. cbn. intuition congruence.
  - by apply assignWebSocketEndpoint_ok.
Qed.

(** ** The invariant of a router *)

(** The registrations that end at the tokens [ts]. *)
Definition registrations (ops : list RouterOp) : Registrations := fun ts names h =>
  (exists pattern route methods path v, SetPath methods path v ∈ ops /\ normalized path = pattern /\ no_escape pattern
     /\ pattern <> [47] /\ ParsePattern regex pattern = Ret route /\ ends_at pattern ts /\ names = paramNames route)
  /\ entry_ok (fun i c => exists pattern, registered ops pattern i c /\ ends_at pattern ts) h.

Definition literals_ok (ops : list RouterOp) (r : Router) : Prop :=
  forall key l, r_literals r !! key = Some l ->
    entry_ok (fun i c => exists pattern, registered ops pattern i c /\ key = unescape pattern) (le_handlers l).

Definition root_state (ops : list RouterOp) (root : option RadixNode) : Prop :=
  match root with
  | None => Forall (fun op => radix_op op = false) ops
  | Some n => root_ok regex (registrations ops) n
  end.

Definition router_ok (ops : list RouterOp) (r : Router) : Prop :=
  trailingSlashPolicy (r_config r) = policy /\ literals_ok ops r /\ root_state ops (r_root r).

Lemma in_before {A} (x y : A) l : x ∈ l -> x ∈ l ++ [y].
Proof. intros H. apply elem_of_app. by left. Qed.
Lemma in_last {A} (x : A) l : x ∈ l ++ [x].
Proof. apply elem_of_app. right. by left. Qed.

Lemma registered_more ops op pattern i c : registered ops pattern i c -> registered (ops ++ [op]) pattern i c.
Proof. intros (m & p & v & H & Hr). exists m, p, v. split; [by apply in_before|done]. Qed.

Lemma literals_ok_more ops op r r' :
  literals_ok ops r -> r_literals r' = r_literals r -> literals_ok (ops ++ [op]) r'.
Proof.
  intros H E key l Hl. rewrite E in Hl. eapply entry_ok_weaken; [|by eapply H].
  cbn. intros i c (p & Hp & Hk). exists p. split; [by apply registered_more|done].
Qed.

Lemma registrations_more ops op ts names h :
  registrations ops ts names h -> registrations (ops ++ [op]) ts names h.
Proof.
  intros [(p & r & m & q & v & H & Hr) He]. split; [exists p, r, m, q, v; split; [by apply in_before|done]|].
  eapply entry_ok_weaken; [|exact He]. cbn. intros i c (p' & Hp & Hk). exists p'. split; [by apply registered_more|done].
Qed.

Lemma root_ok_weaken Q1 Q2 n :
  (forall ts names h, Q1 ts names h -> Q2 ts names h) -> root_ok regex Q1 n -> root_ok regex Q2 n.
Proof. intros H (Hn & Ht). split; [by eapply node_ok_weaken|done]. Qed.

Lemma root_state_more ops op root :
  radix_op op = false -> root_state ops root -> root_state (ops ++ [op]) root.
Proof.
  intros Hop. destruct root as [n|]; cbn.
  - apply root_ok_weaken, registrations_more.
  - intros H. apply Forall_app. split; [done|]. by constructor.
Qed.

Lemma router_ok_more ops op r r' :
  radix_op op = false -> r_config r' = r_config r -> r_literals r' = r_literals r -> r_root r' = r_root r ->
  router_ok ops r -> router_ok (ops ++ [op]) r'.
Proof.
  intros Hop Hc Hl Hr (H1 & H2 & H3). split; [by rewrite Hc|]. split; [by eapply literals_ok_more|].
  rewrite Hr. by apply root_state_more.
Qed.

Lemma router_ok_new config : trailingSlashPolicy config = policy -> router_ok [] (Router_new config).
Proof. intros H. split; [done|]. split; [|by constructor]. intros key l Hl. cbn in Hl. by rewrite lookup_empty in Hl. Qed.

(** What an insertion of a registered pattern adds. *)
Lemma added_registrations ops methods path v pattern route ts names h :
  normalized path = pattern -> no_escape pattern -> pattern <> [47] -> ParsePattern regex pattern = Ret route ->
  added (registrations ops) pattern route (assigned (assign_variant methods v)) ts names h ->
  registrations (ops ++ [SetPath methods path v]) ts names h.
Proof.
  intros Hp Hesc Hne Hparse [H|(He & h0 & -> & Hh)]; [by apply registrations_more|].
  unfold assigned. assert (Hin : SetPath methods path v ∈ ops ++ [SetPath methods path v]) by apply in_last.
  revert Hin. generalize (SetPath methods path v) at 2 3. intros op Hin.
  assert (H0 : entry_ok (fun i c => exists pattern, registered (ops ++ [op]) pattern i c /\ ends_at pattern ts) h0).
  { destruct Hh as [[-> _]|H]; [apply entry_ok_new|]. by destruct (registrations_more _ op _ _ _ H). }
  split.
  - destruct Hh as [[_ ->]|H]; [|by destruct (registrations_more _ op _ _ _ H)].
    exists pattern, route, methods, path, v. split; [exact Hin|done].
  - eapply entry_ok_weaken; [|by apply assign_variant_ok]. cbn. intros i c [H|[Hm Hv]]; [done|].
    exists pattern. split; [|done]. exists methods, path, v. split; [exact Hin|done].
Qed.

Lemma radix_insert_ok ops methods path v slash root route :
  let op := SetPath methods path v in
  let pattern := normalized path in
  plain_pattern pattern -> ParsePattern regex pattern = Ret route -> radix_op op = true ->
  (root = None -> pattern <> [47; 42]) -> root_state ops root ->
  match insertRoute root pattern route slash (assign_variant methods v) with
  | Done n _ | Conflict n => root_ok regex (registrations (ops ++ [op])) n
  | Broken => False
  end.
Proof.
  intros op pattern [Hesc Hstar] Hparse Hrad Hfirst Hroot.
  assert (Hne : pattern <> [47]).
  { intros E. unfold radix_op, op, radix_pattern in Hrad. fold pattern in Hrad. rewrite E in Hrad. by vm_compute in Hrad. }
  destruct (ParsePattern_spec regex pattern route Hesc Hne Hparse) as (Hsl & Htok & Hcs & _).
  assert (Hins : route_inserted regex (registrations ops) pattern route (assign_variant methods v)
    (insertRoute root pattern route slash (assign_variant methods v))).
  { destruct root as [n|]; [by apply insertRoute_next_ok|]. apply insertRoute_first_ok; try done. by apply Hfirst. }
  unfold route_inserted in Hins.
  destruct (insertRoute _ _ _ _ _) as [n thrown|n|]; [| |done];
    (eapply root_ok_weaken; [|exact Hins]; intros ts names h; by apply added_registrations).
Qed.

Lemma set_path_ok ops methods path v r :
  let op := SetPath methods path v in
  router_ok ops r -> plain_pattern (normalized path) ->
  (r_root r = None -> radix_op op = true -> normalized path <> [47; 42]) ->
  exists r' thrown, setPathInternal regex methods path v r = Registration r' thrown /\ router_ok (ops ++ [op]) r'.
Proof.
  intros op Hok Hplain Hfirst. pose proof Hok as (Hpol & Hlit & Hroot).
  unfold setPathInternal. rewrite Hpol.
  destruct (MayNormalizeHasTrailingSlash policy path) as [[pattern slash]|] eqn:En.
  2:{ do 2 eexists. split; [done|]. apply (router_ok_more ops op r); try done. unfold radix_op, op, normalized. by rewrite En. }
  assert (Enorm : normalized path = pattern) by (unfold normalized; by rewrite En).
  destruct (ParsePattern regex pattern) as [route|e] eqn:Ep.
  2:{ do 2 eexists. split; [done|]. apply (router_ok_more ops op r); try done. unfold radix_op, op, radix_pattern.
      by rewrite Enorm, Ep. }
  assert (Hrad : radix_op op = negb (Nat.eqb (length (paramNames route)) 0 && negb (hasWildcard route))).
  { unfold radix_op, op, radix_pattern. by rewrite Enorm, Ep. }
  destruct (Nat.eqb _ 0 && _) eqn:El; cbn [negb] in Hrad.
  - destruct (literal_key_entry (unescape pattern) r) as [h no withSlash] eqn:Ek.
    destruct (assign_variant methods v h) as [h' thrown] eqn:Ea. do 2 eexists. split; [done|].
    split; [by destruct r|]. split; [|destruct r; by apply root_state_more].
    assert (Hh : entry_ok (fun i c => exists pattern', registered (ops ++ [op]) pattern' i c /\ unescape pattern = unescape pattern') h').
    { replace h' with (fst (assign_variant methods v h)) by (by rewrite Ea).
      assert (Hold : entry_ok (fun i c => exists pattern', registered ops pattern' i c /\ unescape pattern = unescape pattern') h).
      { unfold literal_key_entry in Ek. destruct (r_literals r !! unescape pattern) as [l|] eqn:E; cbn in Ek.
        - specialize (Hlit _ _ E). by rewrite Ek in Hlit.
        - injection Ek as <- _ _. apply entry_ok_new. }
      eapply entry_ok_weaken; [|by apply assign_variant_ok]. cbn. intros i c [(p & Hp & Eq)|[Hm Hv]].
      - exists p. split; [by apply registered_more|done].
      - exists pattern. split; [|done]. exists methods, path, v. split; [apply in_last|done]. }
    intros key l Hl.
    assert (Hlits : r_literals (set_literals (<[unescape pattern := if slash then MkLiteral h' no true else MkLiteral h' true withSlash]> (r_literals r)) r)
      = <[unescape pattern := if slash then MkLiteral h' no true else MkLiteral h' true withSlash]> (r_literals r)) by (by destruct r).
    rewrite Hlits in Hl. destruct (decide (key = unescape pattern)) as [->|Hk].
    + rewrite lookup_insert_eq in Hl. injection Hl as <-. by destruct slash.
    + rewrite lookup_insert_ne in Hl by done. by eapply (literals_ok_more ops op r r).
  - rewrite <- Enorm in *.
    pose proof (radix_insert_ok ops methods path v slash (r_root r) route Hplain Ep Hrad
      ltac:(intros E; by apply Hfirst) Hroot) as Hins.
    destruct (insertRoute _ _ _ _ _) as [n thrown|n|]; [| |done];
      (do 2 eexists; split; [done|]; split; [by destruct r|]; split; [eapply literals_ok_more; [done|by destruct r]|by destruct r]).
Qed.

Lemma find_snoc {A} (f : A -> bool) l x :
  List.find f (l ++ [x]) = match List.find f l with Some y => Some y | None => if f x then Some x else None end.
Proof. induction l as [|y l IH]; cbn; [done|]. by destruct (f y). Qed.

Lemma run_ok config ops :
  trailingSlashPolicy config = policy -> Forall plain_op ops -> starts_well ops ->
  exists r, run_ops ops (Router_new config) = Some r /\ router_ok ops r.
Proof.
  intros Hc. induction ops as [|op ops IH] using rev_ind; intros Hplain Hfirst.
  { exists (Router_new config). split; [done|by apply router_ok_new]. }
  apply Forall_app in Hplain as [Hplain Hop]. apply Forall_cons in Hop as [Hop _].
  unfold starts_well in Hfirst. rewrite find_snoc in Hfirst.
  destruct IH as (r & Hrun & Hok); [done|unfold starts_well; by destruct (List.find radix_op ops)|].
  unfold run_ops in *. rewrite fold_left_app, Hrun. cbn [fold_left].
  destruct op as [methods path v|h|h|h|mw|mw]; cbn [run_op].
  2-6: eexists; (split; [done|]); by eapply router_ok_more; [done|destruct r..|exact Hok].
  destruct (set_path_ok ops methods path v r Hok Hop) as (r' & thrown & -> & Hok'); [|by exists r'].
  intros Hnone Hrad. destruct Hok as (_ & _ & Hroot). rewrite Hnone in Hroot. cbn in Hroot.
  assert (Hfind : List.find radix_op ops = None).
  { clear -Hroot. induction Hroot as [|op ops Hop Hops IH]; [done|]. cbn. by rewrite Hop. }
  by rewrite Hfind, Hrad in Hfirst.
Qed.

(** ** Matching *)

Lemma inst_count ts l caps : inst regex ts l caps -> length caps = length (cs_of regex ts).
Proof.
  induction 1 as [|c ts l caps _ IH|raw ts parts cs seg l caps caps' Hp _ Hi _ IH|l]; [done|done| |done].
  change (TSeg raw :: ts) with ([TSeg raw] ++ ts). rewrite cs_of_app, !length_app, <- IH. f_equal.
  unfold cs_of. cbn [map concat tok_cs]. rewrite Hp, app_nil_r. by eapply parts_inst_count.
Qed.

Lemma inst_any_slash t l caps : inst regex (t ++ [TChar 47; TAny]) l caps -> inst regex (t ++ [TAny]) l caps.
Proof.
  revert l caps. induction t as [|x t IH]; intros l caps H; cbn in *.
  - inversion H as [|? ? l' ? H'| |]; subst. inversion H'; subst. by constructor.
  - inversion H; subst.
    + constructor. by apply IH.
    + econstructor; [done..|]. by apply IH.
    + destruct t; done.
Qed.

Lemma inst_snoc_char t c l caps :
  inst regex (t ++ [TChar c]) l caps -> exists l', l = l' ++ [c] /\ inst regex t l' caps.
Proof.
  revert l caps. induction t as [|x t IH]; intros l caps H; cbn in *.
  - inversion H as [|? ? l' ? H'| |]; subst. inversion H'; subst. exists []. split; [done|constructor].
  - inversion H as [|c' ts l1 caps1 H1 E1 E2 E3|raw ts parts cs seg l1 caps1 caps2 Hs Hno Hp H1 E1 E2 E3|l1 H1 E1 E2 E3]; subst.
    + apply IH in H1 as (l' & -> & H1). exists (c' :: l'). split; [done|]. by constructor.
    + apply IH in H1 as (l' & -> & H1). exists (seg ++ l'). split; [by app_simpl|]. by econstructor.
    + destruct t; done.
Qed.

(** The star of a pattern that the path goes past without a slash. *)
Definition overrun (pattern path : bytes) : Prop := exists caps, overruns regex (pattern_tokens pattern) path caps.

Lemma ends_at_inst pattern ts l caps :
  ends_at pattern ts -> inst regex ts l caps \/ continues regex ts l caps ->
  length caps = length (cs_of regex (pattern_tokens pattern))
  /\ (inst regex (pattern_tokens pattern) l caps \/ overrun pattern l).
Proof.
  intros [-> | (t & Hp & ->)] H.
  - assert (Hc : inst regex (pattern_tokens pattern) l caps \/ overruns regex (pattern_tokens pattern) l caps)
      by (destruct H as [H|H]; [by left|by apply continues_cases]).
    destruct Hc as [Hc|Hc]; [split; [by apply inst_count in Hc|by left]|].
    split; [|right; by exists caps]. destruct Hc as (t & pre & rest & -> & _ & _ & Hi & _).
    rewrite cs_of_app, app_nil_r. by apply inst_count in Hi.
  - assert (Hc : inst regex (pattern_tokens pattern) l caps).
    { rewrite Hp. destruct H as [H|(t' & pre & rest & E & Ha & _ & Hi & ->)]; [by apply inst_any_slash|].
      change (t ++ [TChar 47; TAny]) with (t ++ [TChar 47] ++ [TAny]) in E. rewrite app_assoc in E.
      apply app_inj_tail in E as [<- _]. apply inst_snoc_char in Hi as (pre' & -> & Hi). rewrite <- app_assoc.
      apply inst_boundary; [done|set_solver|done]. }
    split; [by apply inst_count in Hc|by left].
Qed.

(** The names of a registered pattern. *)
Definition registered_names (ops : list RouterOp) (names : list bytes) : Prop :=
  exists methods path v route, SetPath methods path v ∈ ops
    /\ ParsePattern regex (normalized path) = Ret route /\ names = paramNames route.

(** The path is the pattern, or one of its instances with the values of the parameters. *)
Definition matches (ops : list RouterOp) (pattern path : bytes) (params : list (bytes * bytes)) : Prop :=
  path = unescape pattern /\ params = []
  \/ inst regex (pattern_tokens pattern) path (map snd params) /\ registered_names ops (map fst params).

(** What a result owes to the registrations. *)
Definition served (ops : list RouterOp) (method : Method) (path : bytes) (h : Handler) (params : list (bytes * bytes)) : Prop :=
  exists pattern c, handler_cell h = Some c
    /\ (registered ops pattern (MethodToIdx method) c \/ method = HEAD /\ registered ops pattern (MethodToIdx GET) c)
    /\ (~ overrun pattern path -> matches ops pattern path params).

(** The handler read from an entry. *)
Lemma matched_handler config method e result P :
  entry_ok P e -> rr_handler result = NoHandler ->
  let h := rr_handler (setMatchedHandler config method e result) in
  h = NoHandler
  \/ exists c, handler_cell h = Some c /\ (P (MethodToIdx method) c \/ method = HEAD /\ P (MethodToIdx GET) c).
Proof.
  intros He Hr h. set (m := effective_method method e).
  assert (Hm : m = method \/ method = HEAD /\ m = GET).
  { unfold m, effective_method. destruct (decide (method = HEAD)); [|by left]. destruct (_ && _); [by right|by left]. }
  destruct (read_cell P e (MethodToIdx m) He (MethodToIdx_lt m)) as (Hn & Hs & Ha).
  assert (Hgive : forall c, P (MethodToIdx m) c -> P (MethodToIdx method) c \/ method = HEAD /\ P (MethodToIdx GET) c).
  { intros c Hc. destruct Hm as [->|[-> ->]]; [by left|by right]. }
  unfold h, setMatchedHandler. fold m.
  destruct (hasStreamingHandler e (MethodToIdx m)).
  { destruct (Hs eq_refl) as (x & -> & Hx). right. exists (StreamingCell x). split; [done|by apply Hgive]. }
  destruct (hasAsyncHandler e (MethodToIdx m)).
  { destruct (Ha eq_refl) as (x & -> & Hx). right. exists (AsyncCell x). split; [done|by apply Hgive]. }
  destruct (hasNormalHandler e (MethodToIdx m)).
  { destruct (Hn eq_refl) as (x & -> & Hx). right. exists (NormalCell x). split; [done|by apply Hgive]. }
  left. by destruct (_ && _).
Qed.

Lemma params_set_matched config method e result :
  rr_pathParams (setMatchedHandler config method e result) = rr_pathParams result.
Proof.
  unfold setMatchedHandler. destruct (if hasStreamingHandler e _ then _ else _); done.
Qed.

Lemma fst_zip {A B} (l : list A) (k : list B) : length l = length k -> map fst (zip l k) = l.
Proof. revert k. induction l as [|x l IH]; intros [|y k] H; try done. cbn. f_equal. apply IH. by injection H. Qed.
Lemma snd_zip {A B} (l : list A) (k : list B) : length l = length k -> map snd (zip l k) = k.
Proof. revert k. induction l as [|x l IH]; intros [|y k] H; try done. cbn. f_equal. apply IH. by injection H. Qed.

Lemma served_entry ops method p config e (P : nat -> HandlerStorage -> Prop) redirect params :
  entry_ok P e ->
  (forall i c, P i c -> exists pattern, registered ops pattern i c
     /\ (~ overrun pattern p -> matches ops pattern p params)) ->
  let h := rr_handler (setMatchedHandler config method e (set_redirect redirect RoutingResult_new)) in
  h = NoHandler \/ served ops method p h params.
Proof.
  intros He HP h. destruct (matched_handler config method e (set_redirect redirect RoutingResult_new) P He eq_refl)
    as [H|(c & Hc & Hm)]; [by left|right].
  destruct Hm as [Hm|[Hhead Hm]]; destruct (HP _ _ Hm) as (pattern & Hreg & Hp); exists pattern, c; split; try done;
    (split; [|done]); [by left|by right].
Qed.

Lemma literal_entry_cases l slash :
  fst (literal_entry policy l slash) = None \/ fst (literal_entry policy l slash) = Some (le_handlers l).
Proof.
  unfold literal_entry, slash_variant. destruct policy; [by right|destruct (hasAnyHandler _); [by right|by left]|].
  destruct slash, (le_hasWithSlashRegistered l), (le_hasNoSlashRegistered l); (by left) || (by right).
Qed.

Lemma node_entry_cases n slash :
  fst (computePathHandlerEntry policy n slash) = None
  \/ fst (computePathHandlerEntry policy n slash) = Some (n_handlers (data n)).
Proof.
  unfold computePathHandlerEntry, slash_variant. destruct policy; [by right|destruct (hasAnyHandler _); [by right|by left]|].
  destruct (n_route (data n)) as [r|]; [|by left].
  destruct slash, (hasWithSlashRegistered r), (hasNoSlashRegistered r); (by left) || (by right).
Qed.

(** The names and the values of the parameters of a match are as many. *)
Lemma registrations_names ops ts names h l caps :
  registrations ops ts names h -> inst regex ts l caps \/ continues regex ts l caps -> length names = length caps.
Proof.
  intros [(pattern & route & m & q & v & _ & _ & Hesc & Hne & Hparse & He & ->) _] Hi.
  destruct (ParsePattern_spec regex pattern route Hesc Hne Hparse) as (_ & _ & _ & -> & _).
  by apply (ends_at_inst _ _ _ _ He) in Hi as [-> _].
Qed.

Lemma handler_set_params ps r : rr_handler (set_params ps r) = rr_handler r.
Proof. by destruct r. Qed.
Lemma params_set_params ps r : rr_pathParams (set_params ps r) = ps.
Proof. by destruct r. Qed.

Lemma normalize_None path : MayNormalizeHasTrailingSlash policy path = None -> path = [].
Proof. unfold MayNormalizeHasTrailingSlash. destruct path; [done|]. cbn. by destruct (decide _). Qed.


(** ** A literal route that was just registered *)

Lemma assign_variant_cells (P : nat -> HandlerStorage -> Prop) methods v e e' c i :
  entry_ok P e -> variant_cell v = Some c -> assign_variant methods v e = (e', None) ->
  (i < kNbMethods)%nat -> IsMethodIdxSet methods i = true -> handlers e' !! i = Some c.
Proof.
  intros He Hv H Hi Hset. assert (Hin : i ∈ seq 0 kNbMethods) by (apply elem_of_seq; lia).
  destruct v as [[h|]|[h|]|[h|]|w]; try done; cbn [variant_cell assign_variant] in *; injection Hv as <-.
  - destruct (assignNormalHandler methods h e) as [e1 []] eqn:E; [done|]. injection H as <-.
    unfold assignNormalHandler in E. eapply assign_loop_assigns in E as [E _];
      [by apply E| |exact He|apply NoDup_seq|apply all_methods_lt]. by intros b [].
  - destruct (assignStreamingHandler methods h e) as [e1 []] eqn:E; [done|]. injection H as <-.
    unfold assignStreamingHandler in E. eapply assign_loop_assigns in E as [E _];
      [by apply E| |exact He|apply NoDup_seq|apply all_methods_lt]. by intros b [].
  - destruct (assignAsyncHandler methods h e) as [e1 []] eqn:E; [done|]. injection H as <-.
    unfold assignAsyncHandler in E. eapply assign_loop_assigns in E as [E _];
      [by apply E| |exact He|apply NoDup_seq|apply all_methods_lt]. by intros b [].
Qed.

Lemma cell_bits P e i c k :
  entry_ok P e -> (i < kNbMethods)%nat -> handlers e !! i = Some c ->
  IsMethodIdxSet (bmp k e) i = bool_decide (cell_kind c = Some k).
Proof. intros [_ H] Hi Hc. destruct (H i Hi) as (c' & Hc' & Hk & _). rewrite Hc in Hc'. injection Hc' as <-. apply Hk. Qed.

Lemma matched_cell config method e result P c :
  entry_ok P e -> handlers e !! MethodToIdx method = Some c -> c <> Raw ->
  let r := setMatchedHandler config method e result in
  handler_cell (rr_handler r) = Some c /\ rr_methodNotAllowed r = rr_methodNotAllowed result
  /\ rr_redirect r = rr_redirect result.
Proof.
  intros He Hc Hraw r. pose proof (MethodToIdx_lt method) as Hi.
  pose proof (cell_bits _ _ _ _ KNormal He Hi Hc) as H1. pose proof (cell_bits _ _ _ _ KStreaming He Hi Hc) as H2.
  pose proof (cell_bits _ _ _ _ KAsync He Hi Hc) as H3. cbn [bmp] in *.
  assert (Heff : effective_method method e = method).
  { unfold effective_method, hasHandlerIdx, hasNormalHandler, hasStreamingHandler, hasAsyncHandler.
    destruct (decide (method = HEAD)) as [->|]; [|done]. rewrite H1, H2, H3. by destruct c. }
  unfold r, setMatchedHandler. rewrite Heff.
  unfold hasNormalHandler, hasStreamingHandler, hasAsyncHandler, requestHandlerPtr, streamingHandlerPtr, asyncHandlerPtr.
  rewrite H1, H2, H3, Hc. by destruct c.
Qed.

Lemma entry_has_handler P e i c :
  entry_ok P e -> (i < kNbMethods)%nat -> handlers e !! i = Some c -> c <> Raw -> hasAnyHandler e = true.
Proof.
  intros He Hi Hc Hraw. unfold hasAnyHandler.
  assert (Hset : forall b, IsMethodIdxSet b i = true -> negb (b =? 0) = true).
  { intros b Hb. apply negb_true_iff, Z.eqb_neq. intros ->. rewrite IsMethodIdxSet_testbit, Z.bits_0 in Hb. done. }
  pose proof (cell_bits _ _ _ _ KNormal He Hi Hc) as H1. pose proof (cell_bits _ _ _ _ KStreaming He Hi Hc) as H2.
  pose proof (cell_bits _ _ _ _ KAsync He Hi Hc) as H3. cbn [bmp] in *.
  destruct c; [done|rewrite (Hset _ H1)|rewrite (Hset _ H2)|rewrite (Hset _ H3)]; by rewrite ?orb_true_r.
Qed.

(** No registration is for the other form of the path, with or without its last slash. *)
Definition one_form (ops : list RouterOp) (path : bytes) : Prop :=
  forall methods p v, SetPath methods p v ∈ ops -> normalized p = normalized path -> p = path.

(** C37: a handler that was registered without exception under a path that has neither parameter,
    wildcard nor doubled brace is the one given to the next request for this path and one of its
    methods, without redirection, whatever the policy, after any registrations that are within the
    limits of [router_match_sound] and, unless the policy is strict, none of which was for the other
    form of the path, with or without its last slash. *)
Theorem literal_registered_found config ops r methods path v c thrown r' method :
  trailingSlashPolicy config = policy -> Forall plain_op ops -> starts_well ops ->
  run_ops ops (Router_new config) = Some r -> (policy = Strict \/ one_form ops path) ->
  radix_pattern (normalized path) = false -> no_escape (normalized path) ->
  setPathInternal regex methods path v r = Registration r' thrown -> thrown = None -> variant_cell v = Some c ->
  IsMethodSet methods method = true ->
  exists result, match_route regex r' method path = Found result /\ handler_cell (rr_handler result) = Some c
    /\ rr_redirect result = NoRedirect /\ rr_methodNotAllowed result = false.
Proof.
  intros Hc Hplain Hfirst Hrun _ Hrad Hesc Hset -> Hv Hm.
  destruct (run_ok config ops Hc Hplain Hfirst) as (r0 & Hrun0 & Hpol & Hlit & _).
  rewrite Hrun in Hrun0. injection Hrun0 as <-.
  unfold setPathInternal in Hset. unfold match_route. unfold radix_pattern, normalized in *. rewrite Hpol in Hset.
  destruct (MayNormalizeHasTrailingSlash policy path) as [[p slash]|] eqn:En; [|done].
  destruct (ParsePattern regex p) as [route|e]; [|done]. apply negb_false_iff in Hrad. rewrite Hrad in Hset.
  rewrite unescape_id in Hset by done. destruct (literal_key_entry p r) as [h no withSlash] eqn:Ek.
  destruct (assign_variant methods v h) as [h' e] eqn:Ea. injection Hset as <- ->.
  set (entry := if slash then MkLiteral h' no true else MkLiteral h' true withSlash).
  assert (Hr' : r_config (set_literals (<[p := entry]> (r_literals r)) r) = r_config r
    /\ r_literals (set_literals (<[p := entry]> (r_literals r)) r) = <[p := entry]> (r_literals r)) by (by destruct r).
  destruct Hr' as [-> ->]. rewrite Hpol, En, lookup_insert_eq.
  assert (Hold : exists P, entry_ok P h).
  { unfold literal_key_entry in Ek. destruct (r_literals r !! p) as [l|] eqn:E; cbn in Ek.
    - eexists. specialize (Hlit _ _ E). by rewrite Ek in Hlit.
    - exists (fun _ _ => True). injection Ek as <- _ _. apply entry_ok_new. }
  destruct Hold as [P Hold]. rewrite IsMethodSet_idx in Hm. pose proof (MethodToIdx_lt method) as Hi.
  pose proof (assign_variant_cells P methods v h h' c _ Hold Hv Ea Hi Hm) as Hcell.
  pose proof (assign_variant_ok P methods v h Hold) as Hok. rewrite Ea in Hok. cbn [fst] in Hok.
  assert (Hraw : c <> Raw) by (intros ->; by destruct v as [[]|[]|[]|]).
  assert (Hent : literal_entry policy entry slash = (Some h', NoRedirect)).
  { unfold entry, literal_entry, slash_variant. destruct policy; [by destruct slash| |by destruct slash].
    destruct slash; cbn [le_handlers]; by rewrite (entry_has_handler _ _ _ _ Hok Hi Hcell Hraw). }
  rewrite Hent. cbn [fst snd]. eexists. split; [done|].
  by destruct (matched_cell (r_config r) method h' (set_redirect NoRedirect RoutingResult_new) _ c Hok Hcell Hraw) as (H1 & H2 & H3).
Qed.
End Policy.
End History.

(** ** Examples, with numbers for the callables and no [std::regex] *)

Definition NatCallables : Callables :=
  {| RequestHandler := nat; StreamingHandler := nat; AsyncRequestHandler := nat;
     WebSocketEndpoint := nat; RequestMiddleware := nat; ResponseMiddleware := nat |}.
#[local] Existing Instance NatCallables.

Definition no_regex : bytes -> option (bytes -> bool) := fun _ => None.

Definition on_request (h : nat) : HandlerVariant (C := NatCallables) := VRequest (C := NatCallables) (Some h).

(** GET routes, numbered handlers; the router, or [None] after an access out of bounds. *)
Definition get_routes (policy : TrailingSlashPolicy) (patterns : list string) : option Router :=
  run_ops no_regex
    (zip_with (fun p h => SetPath (method_bmp GET) (str p) (on_request h)) patterns (seq 1 (length patterns)))
    (Router_new (MkRouterConfig policy CorsPolicy_default)).

(** The handler and the parameters of a GET request. *)
Definition get (r : option Router) (path : string) : option (Handler * list (bytes * bytes)) :=
  match r with
  | Some r =>
      match match_route no_regex r GET (str path) with
      | Found x => Some (rr_handler x, rr_pathParams x)
      | _ => None
      end
  | None => None
  end.

Definition example_ops : list RouterOp :=
  [SetPath (method_bmp GET) (str "/users/{id}") (on_request 7);
   SetPath (method_bmp GET) (str "/files/*") (VAsync (C := NatCallables) (Some 8%nat));
   SetPath (method_bmp GET) (str "/about/") (VStreaming (C := NatCallables) (Some 9%nat))].
Definition example_config : RouterConfig := MkRouterConfig Normalize CorsPolicy_default.
Definition example_router : Router := default (Router_new example_config) (run_ops no_regex example_ops (Router_new example_config)).


Lemma literal_registered_found_witness :
  exists result, match_route no_regex
      (match setPathInternal no_regex 3 (str "/contact") (on_request 5) example_router with
       | Registration r _ => r | Undefined => example_router end) HEAD (str "/contact") = Found result
    /\ handler_cell (rr_handler result) = Some (NormalCell (H := NatCallables) 5%nat)
    /\ rr_redirect result = NoRedirect /\ rr_methodNotAllowed result = false.
Proof.
  eapply (literal_registered_found no_regex Normalize example_config example_ops example_router 3 (str "/contact")
    (on_request 5) (NormalCell (H := NatCallables) 5%nat) None); try (vm_compute; reflexivity).
  - repeat constructor; apply (bool_decide_unpack _); vm_compute; exact I.
  - vm_compute; discriminate.
  - right. intros methods p v Hin. unfold example_ops in Hin. rewrite !elem_of_cons, elem_of_nil in Hin.
    destruct Hin as [[= _ -> _]|[[= _ -> _]|[[= _ -> _]|[]]]]; vm_compute; discriminate.
  - apply (bool_decide_unpack _); vm_compute; exact I.
Defined.

(** What the router does with patterns that its documentation and its tests do not foresee, on
    concrete registrations. *)

#[local] Existing Instance NatCallables.

Definition nothing : option (Handler * list (bytes * bytes)) := Some (NoHandler, []).
Definition handled (h : nat) (params : list (string * string)) : option (Handler * list (bytes * bytes)) :=
  Some (RequestH h, map (fun p => (str (fst p), str (snd p))) params).

(** The children of a node share a prefix: the static one is followed, then fails, and the
    parameter is never tried. *)
Lemma static_prefix_hides_parameter :
  let r := get_routes Normalize ["/users/me/{x}"; "/users/mo/{x}"; "/users/{id}"] in
  get r "/users/zed" = handled 3 [("id", "zed")] /\ get r "/users/mary" = nothing.
Proof. vm_compute. split; reflexivity. Qed.

(** A router whose first pattern is [/*] forgets it with the next one. *)
Lemma root_catch_all_forgotten :
  get (get_routes Normalize ["/*"]) "/foo" = handled 1 []
  /\ get (get_routes Normalize ["/*"; "/users/{x}"]) "/foo" = nothing.
Proof. vm_compute. split; reflexivity. Qed.

(** The catch-all after a parameter that is itself a route is never reached. *)
Lemma catch_all_after_parameter_unreachable :
  get (get_routes Normalize ["/a/{x}"; "/a/{x}/*"]) "/a/b/c" = nothing.
Proof. vm_compute. reflexivity. Qed.

(** A catch-all also takes what continues the segment before it: the path overruns the pattern. *)
Lemma catch_all_without_slash : get (get_routes Normalize ["/static/*"]) "/staticfoo" = handled 1 [].
Proof. vm_compute. reflexivity. Qed.

(** Of the two forms of a path, the one registered last is served. *)
Lemma last_form_served :
  get (get_routes Normalize ["/foo"; "/foo/"]) "/foo" = handled 2 []
  /\ get (get_routes Redirect ["/foo"; "/foo/"]) "/foo" = handled 2 [].
Proof. vm_compute. split; reflexivity. Qed.

(** A pattern with doubled braces registered twice: the parameter that is read does not exist. *)
Lemma escaped_pattern_twice_out_of_bounds : get_routes Normalize ["/a{{b/{x}"; "/a{{b/{x}"] = None.
Proof. vm_compute. reflexivity. Qed.

(** The catch-all beside a parameter is forgotten once the parameter is entered. *)
Lemma parameter_forgets_catch_all :
  get (get_routes Normalize ["/a/{x}/b"; "/a/*"]) "/a/v/zzz" = nothing.
Proof. vm_compute. reflexivity. Qed.

(** A constraint that ends with two braces cannot be registered for a second method. *)
Lemma repetition_constraint_conflicts :
  match get_routes Normalize ["/x/{id:[0-9]{2}}"] with
  | Some r => match setPathInternal no_regex (method_bmp POST) (str "/x/{id:[0-9]{2}}") (on_request 9) r with
              | Registration _ thrown => thrown | Undefined => None end
  | None => None
  end = Some "Path conflicts with existing wildcard route"%string.
Proof. vm_compute. reflexivity. Qed.
