(* ===== verification/KeepAliveQueue.v ===== *)
(** The queue of keep-alive deadlines (server/src/keep-alive-deadline-queue.cpp and its header):
    a binary heap in a vector, whose entries point to the states of the connections, each of
    which holds the index of its entry.

    The states are a store: a [ConnectionState*] is a [positive], and the queue carries the
    member [keepAliveDeadlineIndex] of every state.  [None] is an access out of the vector, a
    failed assertion or an exhausted loop. *)

From S2P Require Import Prelude.
Local Open Scope Z_scope.

(** ** Data *)

Definition kNoKeepAliveDeadlineIndex : Z := u32 (-1).

Record Entry := MkEntry { e_expiresAt : Z; e_pState : positive; e_fd : Z }.

#[export] Instance Entry_eq_dec : EqDecision Entry.
Proof. solve_decision. Defined.

Record KeepAliveDeadlineQueue := MkQueue {
  q_heap : list Entry;
  q_index : gmap positive Z (* [keepAliveDeadlineIndex] of the states, its initializer elsewhere *)
}.

Definition empty_queue : KeepAliveDeadlineQueue := MkQueue [] ∅.

Definition keepAliveDeadlineIndex (q : KeepAliveDeadlineQueue) (p : positive) : Z :=
  default kNoKeepAliveDeadlineIndex (q_index q !! p).

Definition set_index (p : positive) (i : Z) (q : KeepAliveDeadlineQueue) : KeepAliveDeadlineQueue :=
  MkQueue (q_heap q) (<[p := i]> (q_index q)).

Definition set_heap (h : list Entry) (q : KeepAliveDeadlineQueue) : KeepAliveDeadlineQueue :=
  MkQueue h (q_index q).

Definition heap_at (q : KeepAliveDeadlineQueue) (idx : Z) : option Entry := q_heap q !! Z.to_nat idx.

(** [std::uint32_t] arithmetic. *)
Definition ParentIndex (idx : Z) : Z := u32 (idx - 1) / 2.
Definition LeftChildIndex (idx : Z) : Z := u32 (u32 (idx * 2) + 1).

Definition entry_ltb (lhs rhs : Entry) : bool :=
  if e_expiresAt lhs =? e_expiresAt rhs then e_fd lhs <? e_fd rhs
  else e_expiresAt lhs <? e_expiresAt rhs.

(** ** Operations *)

Definition swapEntries (lhsIdx rhsIdx : Z) (q : KeepAliveDeadlineQueue) : option KeepAliveDeadlineQueue :=
  l ← heap_at q lhsIdx; r ← heap_at q rhsIdx;
  let q := set_heap (<[Z.to_nat rhsIdx := l]> (<[Z.to_nat lhsIdx := r]> (q_heap q))) q in
  l ← heap_at q lhsIdx; r ← heap_at q rhsIdx;
  Some (set_index (e_pState r) rhsIdx (set_index (e_pState l) lhsIdx q)).

Fixpoint siftUp (fuel : nat) (idx : Z) (q : KeepAliveDeadlineQueue) : option KeepAliveDeadlineQueue :=
  match fuel with
  | O => None
  | S fuel =>
      if 0 <? idx then
        let parentIdx := ParentIndex idx in
        e ← heap_at q idx; p ← heap_at q parentIdx;
        if entry_ltb e p then q ← swapEntries idx parentIdx q; siftUp fuel parentIdx q
        else Some q
      else Some q
  end.

(** The child to compare with: the smaller one. *)
Definition smallest_child (heapSize leftIdx : Z) (q : KeepAliveDeadlineQueue) : option Z :=
  let rightIdx := u32 (leftIdx + 1) in
  if rightIdx <? heapSize then
    r ← heap_at q rightIdx; l ← heap_at q leftIdx;
    Some (if entry_ltb r l then rightIdx else leftIdx)
  else Some leftIdx.

Fixpoint siftDown (fuel : nat) (heapSize idx : Z) (q : KeepAliveDeadlineQueue)
  : option KeepAliveDeadlineQueue :=
  match fuel with
  | O => None
  | S fuel =>
      let leftIdx := LeftChildIndex idx in
      if heapSize <=? leftIdx then Some q
      else
        smallestIdx ← smallest_child heapSize leftIdx q;
        s ← heap_at q smallestIdx; e ← heap_at q idx;
        if entry_ltb s e then q ← swapEntries idx smallestIdx q; siftDown fuel heapSize smallestIdx q
        else Some q
  end.

(** The loops move along a branch of the heap: its size bounds their rounds. *)
Definition sift_fuel (q : KeepAliveDeadlineQueue) : nat := S (length (q_heap q)).

Definition restoreHeapAt (idx : Z) (q : KeepAliveDeadlineQueue) : option KeepAliveDeadlineQueue :=
  up ← (if 0 <? idx then
          e ← heap_at q idx; p ← heap_at q (ParentIndex idx); Some (entry_ltb e p)
        else Some false);
  if up : bool then siftUp (sift_fuel q) idx q
  else siftDown (sift_fuel q) (u32 (zlen (q_heap q))) idx q.

Definition upsert (state : positive) (fd expiresAt : Z) (q : KeepAliveDeadlineQueue)
  : option KeepAliveDeadlineQueue :=
  if keepAliveDeadlineIndex q state =? kNoKeepAliveDeadlineIndex then
    let idx := u32 (zlen (q_heap q)) in
    let q := set_index state idx q in
    let q := set_heap (q_heap q ++ [MkEntry expiresAt state fd]) q in
    siftUp (sift_fuel q) idx q
  else
    let idx := keepAliveDeadlineIndex q state in
    e ← heap_at q idx;
    if decide (e_pState e = state) then
      restoreHeapAt idx (set_heap (<[Z.to_nat idx := MkEntry expiresAt (e_pState e) fd]> (q_heap q)) q)
    else None.

Definition remove (state : positive) (q : KeepAliveDeadlineQueue) : option KeepAliveDeadlineQueue :=
  if keepAliveDeadlineIndex q state =? kNoKeepAliveDeadlineIndex then Some q
  else
    let idx := keepAliveDeadlineIndex q state in
    e ← heap_at q idx;
    if decide (e_pState e = state) then
      let lastIdx := u32 (zlen (q_heap q) - 1) in
      q ← (if idx =? lastIdx then Some q else swapEntries idx lastIdx q);
      back ← last (q_heap q);
      let q := set_index (e_pState back) kNoKeepAliveDeadlineIndex q in
      let q := set_heap (removelast (q_heap q)) q in
      if idx <? zlen (q_heap q) then restoreHeapAt idx q else Some q
    else None.

Definition top (q : KeepAliveDeadlineQueue) : option Entry := head (q_heap q).

Definition pop (q : KeepAliveDeadlineQueue) : option (Entry * KeepAliveDeadlineQueue) :=
  entry ← head (q_heap q);
  q ← remove (e_pState entry) q;
  Some (entry, q).

Definition queue_clear (q : KeepAliveDeadlineQueue) : KeepAliveDeadlineQueue :=
  MkQueue [] (foldl (fun m e => <[e_pState e := kNoKeepAliveDeadlineIndex]> m) (q_index q) (q_heap q)).

Definition queue_empty (q : KeepAliveDeadlineQueue) : bool := bool_decide (q_heap q = []).

(** Three connections, one moved to the front, come out by deadline. *)
Example deadlines_in_order :
  (q ← upsert 1 10 30 empty_queue; q ← upsert 2 11 10 q; q ← upsert 3 12 20 q;
   q ← upsert 1 10 5 q; '(a, q) ← pop q; q ← remove 3 q; '(b, q) ← pop q;
   Some (e_fd a, e_fd b, queue_empty q, keepAliveDeadlineIndex q 3))
  = Some (10, 11, true, kNoKeepAliveDeadlineIndex).
Proof. vm_compute. reflexivity. Qed.
