(* ===== verification/KeepAliveQueueProofs.v ===== *)
(** The queue of keep-alive deadlines refines a finite map from connections to deadlines, whose
    [pop] takes the earliest: the order of the heap, and the indices held by the states. *)

From S2P Require Import Prelude.
From S2P Require Import KeepAliveQueue.
Local Open Scope Z_scope.

(** ** The order of entries *)

Definition entry_le (a b : Entry) : Prop :=
  e_expiresAt a < e_expiresAt b \/ (e_expiresAt a = e_expiresAt b /\ e_fd a <= e_fd b).

Lemma entry_ltb_true a b : entry_ltb a b = true -> entry_le a b.
Proof. unfold entry_ltb, entry_le. ztest; try done; lia. Qed.
Lemma entry_ltb_false a b : entry_ltb a b = false -> entry_le b a.
Proof. unfold entry_ltb, entry_le. ztest; try done; lia. Qed.
Lemma entry_le_trans a b c : entry_le a b -> entry_le b c -> entry_le a c.
Proof. unfold entry_le. lia. Qed.
Lemma entry_le_refl a : entry_le a a.
Proof. unfold entry_le. lia. Qed.
Create HintDb keepalive.
#[local] Hint Resolve entry_ltb_true entry_ltb_false entry_le_refl : keepalive.

(** ** Heaps with a hole *)

Definition par (i : nat) : nat := ((i - 1) / 2)%nat.

Lemma par_lt i : (0 < i -> par i < i)%nat.
Proof. unfold par. intros. apply Nat.Div0.div_lt_upper_bound. lia. Qed.
Lemma par_eq i k : (0 < i)%nat -> (par i = k <-> i = 2 * k + 1 \/ i = 2 * k + 2)%nat.
Proof. unfold par. intros. pose proof (Nat.div_mod_eq (i - 1) 2). pose proof (Nat.mod_upper_bound (i - 1) 2). lia. Qed.

(** The entry at [i] is not before its parent. *)
Definition child_ok (h : list Entry) (i : nat) : Prop :=
  forall e p, h !! i = Some e -> h !! par i = Some p -> entry_le p e.
Definition ordered (h : list Entry) : Prop := forall i, (0 < i)%nat -> child_ok h i.

(** Everything is in order but the entry at [k]; its children are not before its parent. *)
Definition hole_ok (h : list Entry) (k : nat) : Prop :=
  (forall i, (0 < i)%nat -> i <> k -> par i <> k -> child_ok h i) /\
  (forall i e g, (0 < k)%nat -> (0 < i)%nat -> par i = k -> h !! i = Some e -> h !! par k = Some g ->
                 entry_le g e).
Definition up_ok (h : list Entry) (k : nat) : Prop :=
  hole_ok h k /\ forall i, (0 < i)%nat -> par i = k -> child_ok h i.
Definition down_ok (h : list Entry) (k : nat) : Prop := hole_ok h k /\ ((0 < k)%nat -> child_ok h k).

Lemma up_down_ordered h k : up_ok h k -> down_ok h k -> ordered h.
Proof.
  intros [[H1 _] Hc] [_ Hk] i Hi. destruct (decide (i = k)) as [->|]; [by apply Hk|].
  destruct (decide (par i = k)); [by apply Hc|by apply H1].
Qed.

(** An entry of an ordered heap may be replaced. *)
Lemma ordered_hole h k e : ordered h -> hole_ok (<[k := e]> h) k.
Proof.
  intros Ho. split.
  - intros i Hi Hik Hpk a p Ha Hp. rewrite list_lookup_insert_ne in Ha, Hp by done. by apply (Ho i).
  - intros i a g Hk Hi Hp Ha Hg. pose proof (par_lt i Hi). pose proof (par_lt k Hk).
    rewrite list_lookup_insert_ne in Ha, Hg by lia.
    destruct (h !! k) as [b|] eqn:Hb.
    + eapply entry_le_trans; [by apply (Ho k Hk)|]. apply (Ho i Hi); [done|by rewrite Hp].
    + apply lookup_ge_None in Hb. apply lookup_lt_Some in Ha. lia.
Qed.

(** The first entry of an ordered heap is the least. *)
Lemma ordered_min h m e i : ordered h -> h !! O = Some m -> h !! i = Some e -> entry_le m e.
Proof.
  intros Ho Hm. revert e. induction i as [i IH] using lt_wf_ind. intros e He.
  destruct (decide (i = O)) as [->|]; [replace e with m by congruence; auto with keepalive|].
  pose proof (par_lt i ltac:(lia)). destruct (lookup_lt_is_Some_2 h (par i)) as [p Hp].
  { apply lookup_lt_Some in He. lia. }
  eapply entry_le_trans; [by apply (IH (par i))|]. by apply (Ho i); [lia|..].
Qed.

Lemma ordered_take h n : ordered h -> ordered (take n h).
Proof.
  intros Ho i Hi e p He Hp. apply lookup_take_Some in He as [He _]. apply lookup_take_Some in Hp as [Hp _].
  by apply (Ho i).
Qed.

Definition exchange (h : list Entry) (i j : nat) (a b : Entry) : list Entry := <[j := a]> (<[i := b]> h).

Lemma exchange_lookup h i j a b m :
  h !! i = Some a -> h !! j = Some b ->
  exchange h i j a b !! m
  = if decide (m = j) then Some a else if decide (m = i) then Some b else h !! m.
Proof.
  intros Hi Hj. apply lookup_lt_Some in Hi, Hj. unfold exchange.
  destruct (decide (m = j)) as [->|]; [rewrite list_lookup_insert_eq; rewrite ?length_insert; done|].
  rewrite list_lookup_insert_ne by done.
  destruct (decide (m = i)) as [->|]; [by rewrite list_lookup_insert_eq|by rewrite list_lookup_insert_ne].
Qed.

Lemma exchange_elem h i j a b e :
  h !! i = Some a -> h !! j = Some b -> e ∈ exchange h i j a b <-> e ∈ h.
Proof.
  intros Hi Hj. rewrite !list_elem_of_lookup. split; intros [m Hm].
  - rewrite (exchange_lookup h i j a b) in Hm by done. repeat case_decide; simplify_eq; eauto.
  - destruct (decide (m = i)) as [->|]; [exists j|destruct (decide (m = j)) as [->|]; [exists i|exists m]];
      rewrite (exchange_lookup h i j a b) by done; repeat case_decide; congruence.
Qed.

(** One round of each loop moves the hole. *)
Lemma exchange_up h k a b :
  (0 < k)%nat -> h !! k = Some a -> h !! par k = Some b -> entry_le a b ->
  up_ok h k -> up_ok (exchange h k (par k) a b) (par k).
Proof.
  intros Hk Ha Hb Hab [[H1 H2] Hc]. pose proof (par_lt k Hk) as Hpk.
  assert (Hsib : forall i e, (0 < i)%nat -> i <> k -> par i = par k -> h !! i = Some e -> entry_le b e).
  { intros i e Hi Hik Hp He. apply (H1 i); [done|done|lia|done|by rewrite Hp]. }
  split; [split|].
  - intros i Hi Hip Hpp e p. rewrite !(exchange_lookup h k (par k) a b) by done. intros He Hp.
    assert (i <> k) by congruence. rewrite !decide_False in He by done. rewrite decide_False in Hp by done.
    case_decide as Hik; simplify_eq; [by apply (H2 i)|by apply (H1 i)].
  - intros i e g Hp0 Hi Hpp. rewrite !(exchange_lookup h k (par k) a b) by done.
    pose proof (par_lt (par k) Hp0) as Hppk. rewrite !(decide_False (P := par (par k) = _)) by lia.
    intros He Hg. assert (Hbg : entry_le g b) by (apply (H1 (par k)); [done|lia|lia|done|done]).
    rewrite decide_False in He by (rewrite <- Hpp; pose proof (par_lt i Hi); lia).
    case_decide; simplify_eq; [done|]. eapply entry_le_trans; [done|by apply (Hsib i)].
  - intros i Hi Hpp e p. rewrite !(exchange_lookup h k (par k) a b) by done.
    rewrite (decide_True (P := par i = par k)) by done. intros He [= <-].
    rewrite decide_False in He by (rewrite <- Hpp; pose proof (par_lt i Hi); lia).
    case_decide; simplify_eq; [done|]. eapply entry_le_trans; [done|by apply (Hsib i)].
Qed.

Lemma exchange_down h k c a b :
  (0 < c)%nat -> par c = k -> h !! k = Some a -> h !! c = Some b -> entry_le b a ->
  (forall i e, (0 < i)%nat -> par i = k -> h !! i = Some e -> entry_le b e) ->
  down_ok h k -> down_ok (exchange h k c a b) c.
Proof.
  intros Hc Hp Ha Hb Hba Hmin [[H1 H2] Hk]. pose proof (par_lt c Hc) as Hkc.
  split; [split|].
  - intros i Hi Hic Hpc e p. rewrite !(exchange_lookup h k c a b) by done.
    rewrite !(decide_False (P := i = c)), !(decide_False (P := par i = c)) by done. intros He Hpe.
    destruct (decide (i = k)) as [->|].
    + pose proof (par_lt k Hi). rewrite decide_False in Hpe by lia. simplify_eq. by apply (H2 c).
    + case_decide; simplify_eq; [by apply (Hmin i)|by apply (H1 i)].
  - intros i e g _ Hi Hpi. pose proof (par_lt i Hi). rewrite !(exchange_lookup h k c a b) by done.
    rewrite Hp, (decide_False (P := k = c)), (decide_True (P := k = k)) by lia. intros He [= <-].
    rewrite !decide_False in He by lia. apply (H1 i); [done|lia|lia|done|by rewrite Hpi].
  - intros _ e p. rewrite !(exchange_lookup h k c a b) by done.
    rewrite Hp, decide_True, (decide_False (P := k = c)), (decide_True (P := k = k)) by lia.
    by intros [= <-] [= <-].
Qed.

(** ** Indices *)

(** The state of an entry holds its index, and only those states hold one. *)
Record tracked (q : KeepAliveDeadlineQueue) : Prop := {
  tr_index : forall i e, q_heap q !! i = Some e -> keepAliveDeadlineIndex q (e_pState e) = Z.of_nat i;
  tr_entry : forall p, keepAliveDeadlineIndex q p <> kNoKeepAliveDeadlineIndex ->
             exists i e, q_heap q !! i = Some e /\ e_pState e = p;
  tr_size : zlen (q_heap q) <= 2 ^ 31
}.

Definition queue_ok (q : KeepAliveDeadlineQueue) : Prop := tracked q /\ ordered (q_heap q).

Definition same_entries (q q' : KeepAliveDeadlineQueue) : Prop :=
  length (q_heap q) = length (q_heap q') /\ forall e, e ∈ q_heap q' <-> e ∈ q_heap q.

Lemma same_entries_refl q : same_entries q q.
Proof. by split. Qed.
Lemma same_entries_trans q r s : same_entries q r -> same_entries r s -> same_entries q s.
Proof. intros [L1 E1] [L2 E2]. split; [congruence|]. intros e. by rewrite E2. Qed.

Lemma index_set q p i p' :
  keepAliveDeadlineIndex (set_index p i q) p' = if decide (p' = p) then i else keepAliveDeadlineIndex q p'.
Proof.
  unfold keepAliveDeadlineIndex, set_index. cbn [q_index].
  case_decide as H; [subst; by rewrite lookup_insert_eq|by rewrite lookup_insert_ne].
Qed.

Lemma index_set_heap q h p : keepAliveDeadlineIndex (set_heap h q) p = keepAliveDeadlineIndex q p.
Proof. done. Qed.

Lemma heap_at_nat q i : heap_at q (Z.of_nat i) = q_heap q !! i.
Proof. unfold heap_at. by rewrite Nat2Z.id. Qed.

Lemma tracked_inj q i j a b :
  tracked q -> q_heap q !! i = Some a -> q_heap q !! j = Some b -> e_pState a = e_pState b -> i = j.
Proof.
  intros T Ha Hb E. pose proof (tr_index q T i a Ha) as Hi. pose proof (tr_index q T j b Hb) as Hj.
  rewrite E in Hi. lia.
Qed.

Lemma tracked_length q i e : tracked q -> q_heap q !! i = Some e -> Z.of_nat i < 2 ^ 31.
Proof. intros T H. apply lookup_lt_Some in H. pose proof (tr_size q T). unfold zlen in *. lia. Qed.

Lemma index_none_notin q p e :
  tracked q -> keepAliveDeadlineIndex q p = kNoKeepAliveDeadlineIndex -> e ∈ q_heap q -> e_pState e <> p.
Proof.
  intros T Hp [i Hi]%list_elem_of_lookup E. pose proof (tr_index q T i e Hi) as H. rewrite E, Hp in H.
  pose proof (tracked_length q i e T Hi). unfold kNoKeepAliveDeadlineIndex, u32 in H. zlia.
Qed.

Lemma swapEntries_ok q i j a b :
  tracked q -> q_heap q !! i = Some a -> q_heap q !! j = Some b -> i <> j ->
  exists q', swapEntries (Z.of_nat i) (Z.of_nat j) q = Some q'
    /\ q_heap q' = exchange (q_heap q) i j a b /\ tracked q' /\ same_entries q q'.
Proof.
  intros T Ha Hb Hij. unfold swapEntries. rewrite !heap_at_nat, Ha, Hb. cbn [mbind option_bind].
  rewrite !Nat2Z.id. fold (exchange (q_heap q) i j a b). rewrite !heap_at_nat. cbn [set_heap q_heap].
  rewrite !(exchange_lookup (q_heap q) i j a b) by done.
  rewrite (decide_False (P := i = j)), (decide_True (P := i = i)), (decide_True (P := j = j)) by done.
  cbn [mbind option_bind]. eexists; split; [done|]. split; [done|].
  assert (Hse : length (q_heap q) = length (exchange (q_heap q) i j a b)
                /\ forall e, e ∈ exchange (q_heap q) i j a b <-> e ∈ q_heap q).
  { split; [unfold exchange; by rewrite !length_insert|]. intros e. by apply exchange_elem. }
  split; [|exact Hse]. destruct Hse as [Hlen Hel].
  split; cbn [set_index set_heap q_heap].
  - intros m e. rewrite (exchange_lookup (q_heap q) i j a b) by done. rewrite !index_set.
    intros He. case_decide as Hm; [subst; injection He as <-; by rewrite decide_True|].
    case_decide as Hm'; [subst; injection He as <-|].
    + rewrite decide_False by (intros E; apply Hij; by eapply tracked_inj). by rewrite decide_True.
    + rewrite !decide_False by (intros E; (apply Hm + apply Hm'); by eapply tracked_inj).
      by apply (tr_index q T).
  - intros p. rewrite !index_set. intros Hp.
    assert (exists e, e ∈ q_heap q /\ e_pState e = p) as (e & He & <-).
    { case_decide; [exists a; split; [by apply (list_elem_of_lookup_2 _ i)|done]|].
      case_decide; [exists b; split; [by apply (list_elem_of_lookup_2 _ j)|done]|].
      destruct (tr_entry q T p Hp) as (m & e & He & E). exists e. split; [by apply (list_elem_of_lookup_2 _ m)|done]. }
    apply Hel, list_elem_of_lookup in He as [m Hm]. by exists m, e.
  - unfold zlen. rewrite <- Hlen. exact (tr_size q T).
Qed.

(** ** The loops *)

Lemma ParentIndex_nat i : (0 < i)%nat -> Z.of_nat i < 2 ^ 31 -> ParentIndex (Z.of_nat i) = Z.of_nat (par i).
Proof.
  intros Hi Hb. unfold ParentIndex, par. rewrite u32_id by lia. rewrite Nat2Z.inj_div. f_equal. lia.
Qed.

Lemma LeftChildIndex_nat i : Z.of_nat i < 2 ^ 31 -> LeftChildIndex (Z.of_nat i) = Z.of_nat (2 * i + 1).
Proof. intros. unfold LeftChildIndex. rewrite (u32_id (_ * 2)), u32_id by lia. lia. Qed.

(** The result of an operation on [q]. *)
Definition restored (q : KeepAliveDeadlineQueue) (r : option KeepAliveDeadlineQueue) : Prop :=
  exists q', r = Some q' /\ queue_ok q' /\ same_entries q q'.

Lemma restored_swap q q1 r : same_entries q q1 -> restored q1 r -> restored q r.
Proof. intros S (q' & -> & Hq & S'). exists q'. split_and!; [done|done|by eapply same_entries_trans]. Qed.

Lemma restored_self q : tracked q -> ordered (q_heap q) -> restored q (Some q).
Proof. intros T O. by exists q. Qed.

Lemma siftUp_ok fuel i q :
  tracked q -> up_ok (q_heap q) i -> (i < length (q_heap q))%nat -> (i < fuel)%nat ->
  restored q (siftUp fuel (Z.of_nat i) q).
Proof.
  revert i q. induction fuel as [|fuel IH]; intros i q T Hup Hi Hf; [lia|]. cbn [siftUp].
  destruct (Z.ltb_spec 0 (Z.of_nat i)) as [Hpos|Hz].
  2: { apply restored_self; [done|]. apply (up_down_ordered _ i); [done|split; [apply Hup|lia]]. }
  destruct (lookup_lt_is_Some_2 _ _ Hi) as [a Ha]. pose proof (tracked_length q i a T Ha).
  pose proof (par_lt i ltac:(lia)). destruct (lookup_lt_is_Some_2 (q_heap q) (par i)) as [b Hb]; [lia|].
  rewrite ParentIndex_nat by lia. rewrite !heap_at_nat, Ha, Hb. cbn [mbind option_bind].
  destruct (entry_ltb a b) eqn:E.
  - destruct (swapEntries_ok q i (par i) a b) as (q1 & -> & Hh & T1 & S1); [done|done|done|lia|].
    cbn [mbind option_bind]. eapply restored_swap; [done|]. pose proof (proj1 S1). apply IH; [done| |lia|lia].
    rewrite Hh. apply exchange_up; [lia|done|done|by apply entry_ltb_true|done].
  - apply restored_self; [done|]. apply (up_down_ordered _ i); [done|]. split; [apply Hup|].
    intros _ e p He Hp. simplify_eq. by apply entry_ltb_false.
Qed.

Lemma smallest_child_ok q i c :
  tracked q -> q_heap q !! (2 * i + 1)%nat = Some c ->
  exists k s, smallest_child (zlen (q_heap q)) (Z.of_nat (2 * i + 1)) q = Some (Z.of_nat k)
    /\ (0 < k)%nat /\ par k = i /\ q_heap q !! k = Some s
    /\ forall j e, (0 < j)%nat -> par j = i -> q_heap q !! j = Some e -> entry_le s e.
Proof.
  intros T Hc. unfold smallest_child. pose proof (tracked_length _ _ _ T Hc).
  rewrite u32_id by lia. replace (Z.of_nat (2 * i + 1) + 1) with (Z.of_nat (2 * i + 2)) by lia.
  rewrite !heap_at_nat, Hc. destruct (Z.ltb_spec (Z.of_nat (2 * i + 2)) (zlen (q_heap q))) as [Hr|Hr].
  - destruct (lookup_lt_is_Some_2 (q_heap q) (2 * i + 2)) as [r Hr']; [unfold zlen in Hr; lia|].
    rewrite Hr'. cbn [mbind option_bind].
    destruct (entry_ltb r c) eqn:E; [exists (2 * i + 2)%nat, r|exists (2 * i + 1)%nat, c];
      (split_and!; [done|lia|apply par_eq; lia|done|]);
      intros j e Hj Hp He; apply par_eq in Hp as [-> | ->]; try lia; simplify_eq; auto with keepalive.
  - exists (2 * i + 1)%nat, c. split_and!; [done|lia|apply par_eq; lia|done|].
    intros j e Hj Hp He. apply par_eq in Hp as [-> | ->]; [|apply lookup_lt_Some in He; unfold zlen in Hr; lia|lia].
    simplify_eq. apply entry_le_refl.
Qed.

Lemma siftDown_ok fuel i q :
  tracked q -> down_ok (q_heap q) i -> (i < length (q_heap q))%nat -> (length (q_heap q) < i + fuel)%nat ->
  restored q (siftDown fuel (zlen (q_heap q)) (Z.of_nat i) q).
Proof.
  revert i q. induction fuel as [|fuel IH]; intros i q T Hd Hi Hf; [lia|]. cbn [siftDown].
  destruct (lookup_lt_is_Some_2 _ _ Hi) as [a Ha]. pose proof (tracked_length q i a T Ha).
  rewrite LeftChildIndex_nat by done. destruct (Z.leb_spec (zlen (q_heap q)) (Z.of_nat (2 * i + 1))) as [Hl|Hl].
  - apply restored_self; [done|]. apply (up_down_ordered _ i); [|done]. split; [apply Hd|].
    intros j Hj Hp e p He. apply par_eq in Hp; [|done]. apply lookup_lt_Some in He. unfold zlen in Hl. lia.
  - destruct (lookup_lt_is_Some_2 (q_heap q) (2 * i + 1)) as [c Hc]; [unfold zlen in Hl; lia|].
    destruct (smallest_child_ok q i c) as (k & s & -> & Hk & Hp & Hs & Hmin); [done|done|].
    cbn [mbind option_bind]. rewrite !heap_at_nat, Hs, Ha. cbn [mbind option_bind].
    destruct (entry_ltb s a) eqn:E.
    + pose proof (par_lt k Hk). destruct (swapEntries_ok q i k a s) as (q1 & -> & Hh & T1 & S1); [done|done|done|lia|].
      cbn [mbind option_bind]. eapply restored_swap; [done|]. pose proof (proj1 S1).
      replace (zlen (q_heap q)) with (zlen (q_heap q1)) by (unfold zlen; lia).
      apply IH; [done| | |lia].
      * rewrite Hh. apply exchange_down; [done|done|done|done|by apply entry_ltb_true|done|by rewrite Hp in *].
      * apply lookup_lt_Some in Hs. lia.
    + apply restored_self; [done|]. apply (up_down_ordered _ i); [|done]. split; [apply Hd|].
      intros j Hj Hpj e p He Hpe. rewrite Hpj in Hpe. simplify_eq.
      eapply entry_le_trans; [by apply entry_ltb_false|by eapply Hmin].
Qed.

(** The heap is restored around an entry that was replaced. *)
Lemma restoreHeapAt_ok i q :
  tracked q -> hole_ok (q_heap q) i -> (i < length (q_heap q))%nat ->
  restored q (restoreHeapAt (Z.of_nat i) q).
Proof.
  intros T Hh Hi. unfold restoreHeapAt, sift_fuel. pose proof (tr_size q T) as Hsz.
  rewrite u32_id by (unfold zlen in *; lia).
  destruct (lookup_lt_is_Some_2 _ _ Hi) as [a Ha]. pose proof (tracked_length q i a T Ha).
  destruct (Z.ltb_spec 0 (Z.of_nat i)) as [Hpos|Hz].
  - pose proof (par_lt i ltac:(lia)). destruct (lookup_lt_is_Some_2 (q_heap q) (par i)) as [b Hb]; [lia|].
    rewrite ParentIndex_nat by lia. rewrite !heap_at_nat, Ha, Hb. cbn [mbind option_bind].
    destruct (entry_ltb a b) eqn:E.
    + apply siftUp_ok; [done| |done|lia]. split; [done|]. intros j Hj Hp e p He Hpe. rewrite Hp in Hpe.
      simplify_eq. eapply entry_le_trans; [by apply entry_ltb_true|]. by eapply (proj2 Hh); [lia|..].
    + apply siftDown_ok; [done| |done|lia]. split; [done|]. intros _ e p He Hp. simplify_eq.
      by apply entry_ltb_false.
  - cbn [mbind option_bind]. apply siftDown_ok; [done| |done|lia]. split; [done|lia].
Qed.

(** ** The map of deadlines *)

Definition deadlines (q : KeepAliveDeadlineQueue) : gmap positive (Z * Z) :=
  list_to_map ((fun e => (e_pState e, (e_expiresAt e, e_fd e))) <$> q_heap q).

Lemma tracked_NoDup q :
  tracked q -> NoDup ((fun e => (e_pState e, (e_expiresAt e, e_fd e))) <$> q_heap q).*1.
Proof.
  intros T. rewrite <- list_fmap_compose. apply NoDup_alt. intros i j p' Hi Hj.
  apply list_lookup_fmap_Some in Hi as (a & -> & Ha). apply list_lookup_fmap_Some in Hj as (b & E & Hb).
  by eapply tracked_inj.
Qed.

Lemma deadlines_spec q p x f :
  tracked q -> deadlines q !! p = Some (x, f) <-> MkEntry x p f ∈ q_heap q.
Proof.
  intros T. unfold deadlines. rewrite <- elem_of_list_to_map.
  - rewrite list_elem_of_fmap. split.
    + intros ([x' p' f'] & E & H). by injection E as -> -> ->.
    + intros H. by exists (MkEntry x p f).
  - by apply tracked_NoDup.
Qed.

(** Maps are compared through the entries. *)
Lemma deadlines_ext q (m : gmap positive (Z * Z)) :
  tracked q -> (forall p x f, MkEntry x p f ∈ q_heap q <-> m !! p = Some (x, f)) -> deadlines q = m.
Proof.
  intros T H. apply map_eq. intros p. apply option_eq. intros [x f].
  by rewrite deadlines_spec, H.
Qed.

Lemma deadlines_same q q' : tracked q -> tracked q' -> same_entries q q' -> deadlines q' = deadlines q.
Proof. intros T T' [_ H]. apply deadlines_ext; [done|]. intros p x f. by rewrite H, deadlines_spec. Qed.

Lemma index_registered q p :
  tracked q -> keepAliveDeadlineIndex q p = kNoKeepAliveDeadlineIndex <-> deadlines q !! p = None.
Proof.
  intros T. split; intros H.
  - destruct (deadlines q !! p) as [[x f]|] eqn:E; [|done]. apply deadlines_spec in E; [|done].
    by apply index_none_notin with (1 := T) (2 := H) in E.
  - destruct (decide (keepAliveDeadlineIndex q p = kNoKeepAliveDeadlineIndex)) as [|Hne]; [done|].
    destruct (tr_entry q T p Hne) as (i & [x p' f] & Hi & <-).
    apply list_elem_of_lookup_2, deadlines_spec in Hi; [|done]. cbn [e_pState] in H. congruence.
Qed.

Lemma registered_entry q p :
  tracked q -> deadlines q !! p <> None ->
  exists i e, keepAliveDeadlineIndex q p = Z.of_nat i /\ q_heap q !! i = Some e /\ e_pState e = p
    /\ keepAliveDeadlineIndex q p <> kNoKeepAliveDeadlineIndex.
Proof.
  intros T H. assert (Hne : keepAliveDeadlineIndex q p <> kNoKeepAliveDeadlineIndex) by (by rewrite index_registered).
  destruct (tr_entry q T p Hne) as (i & e & Hi & E). exists i, e. split_and!; try done.
  rewrite <- E. by apply (tr_index q T).
Qed.

Definition updated (q : KeepAliveDeadlineQueue) (m : gmap positive (Z * Z))
  (r : option KeepAliveDeadlineQueue) : Prop :=
  exists q', r = Some q' /\ queue_ok q' /\ deadlines q' = m.

Lemma updated_restored q1 m r : tracked q1 -> deadlines q1 = m -> restored q1 r -> updated q1 m r.
Proof. intros T <- (q' & -> & Hq & S). exists q'. split_and!; [done|done|]. by apply deadlines_same; [|apply Hq|]. Qed.

(** A state that is not registered gets the last place. *)
Lemma tracked_push q p x f :
  tracked q -> keepAliveDeadlineIndex q p = kNoKeepAliveDeadlineIndex -> zlen (q_heap q) < 2 ^ 31 ->
  let q1 := set_heap (q_heap q ++ [MkEntry x p f]) (set_index p (zlen (q_heap q)) q) in
  tracked q1 /\ deadlines q1 = <[p := (x, f)]> (deadlines q).
Proof.
  intros T Hp Hsz q1. assert (T1 : tracked q1).
  { split; subst q1; cbn [set_heap set_index q_heap].
    - intros i e He. rewrite index_set_heap, index_set.
      apply lookup_app_Some in He as [He|[Hi He]].
      + rewrite decide_False by (eapply index_none_notin; [done|done|by eapply list_elem_of_lookup_2]).
        by apply (tr_index q T).
      + apply list_lookup_singleton_Some in He as [Hi0 <-]. cbn [e_pState]. rewrite decide_True by done.
        unfold zlen. lia.
    - intros p'. rewrite index_set_heap, index_set. case_decide as H; intros Hne.
      + exists (length (q_heap q)), (MkEntry x p f). split; [|done].
        by rewrite lookup_app_r, Nat.sub_diag by lia.
      + destruct (tr_entry q T p' Hne) as (i & e & He & E). exists i, e. split; [by apply lookup_app_l_Some|done].
    - rewrite zlen_app. unfold zlen at 2. cbn [length]. lia. }
  split; [done|]. apply deadlines_ext; [done|]. intros p' x' f'. subst q1. cbn [set_heap set_index q_heap].
  rewrite elem_of_app, list_elem_of_singleton, <- deadlines_spec by done.
  rewrite lookup_insert_Some. split.
  - intros [H|E]; [right|left; by injection E as -> -> ->]. split; [|done]. intros <-.
    apply index_registered in Hp; [|done]. congruence.
  - intros [[-> E]|[_ H]]; [right; by injection E as -> ->|by left].
Qed.

(** An entry keeps its place with another deadline. *)
Lemma tracked_replace q i e x f :
  tracked q -> q_heap q !! i = Some e ->
  let q1 := set_heap (<[i := MkEntry x (e_pState e) f]> (q_heap q)) q in
  tracked q1 /\ deadlines q1 = <[e_pState e := (x, f)]> (deadlines q).
Proof.
  intros T He q1. pose proof (lookup_lt_Some _ _ _ He) as Hi. assert (T1 : tracked q1).
  { split; subst q1; cbn [set_heap q_heap].
    - intros j a Ha. rewrite index_set_heap. apply list_lookup_insert_Some in Ha as [(-> & <- & _)|[_ Ha]].
      + exact (tr_index q T _ e He).
      + by apply (tr_index q T).
    - intros p Hp. rewrite index_set_heap in Hp. destruct (tr_entry q T p Hp) as (j & a & Ha & E).
      destruct (decide (i = j)) as [->|].
      + exists j. eexists. split; [by apply list_lookup_insert_eq|]. cbn [e_pState]. congruence.
      + exists j, a. by rewrite list_lookup_insert_ne.
    - unfold zlen. rewrite length_insert. apply (tr_size q T). }
  split; [done|]. apply deadlines_ext; [done|]. intros p x' f'. subst q1. cbn [set_heap q_heap].
  rewrite lookup_insert_Some, deadlines_spec by done. split.
  - intros [j Hj]%list_elem_of_lookup. apply list_lookup_insert_Some in Hj as [(-> & E & _)|[Hne Hj]].
    + injection E as <- <- <-. by left.
    + right. split; [|by eapply list_elem_of_lookup_2]. intros E. apply Hne. exact (tracked_inj q _ _ _ _ T He Hj E).
  - intros [[<- E]|[Hne [j Hj]%list_elem_of_lookup]].
    + injection E as <- <-. by apply (list_elem_of_lookup_2 _ i), list_lookup_insert_eq.
    + apply (list_elem_of_lookup_2 _ j). rewrite list_lookup_insert_ne; [done|]. intros ->. simplify_eq.
Qed.

(** The last entry goes. *)
Lemma tracked_drop q e :
  tracked q -> last (q_heap q) = Some e ->
  let q1 := set_heap (removelast (q_heap q)) (set_index (e_pState e) kNoKeepAliveDeadlineIndex q) in
  tracked q1 /\ deadlines q1 = delete (e_pState e) (deadlines q).
Proof.
  intros T [h Hh]%last_Some q1. subst q1. rewrite Hh, removelast_last.
  assert (He : q_heap q !! length h = Some e) by (rewrite Hh, lookup_app_r, Nat.sub_diag by lia; done).
  assert (Hother : forall i a, h !! i = Some a -> q_heap q !! i = Some a /\ e_pState a <> e_pState e).
  { intros i a Ha. pose proof (lookup_lt_Some _ _ _ Ha). assert (Ha' : q_heap q !! i = Some a).
    { rewrite Hh. by apply lookup_app_l_Some. }
    split; [done|]. intros E. pose proof (tracked_inj q i (length h) a e T Ha' He E). lia. }
  set (q1 := set_heap h _). assert (T1 : tracked q1).
  { split; subst q1; cbn [set_heap set_index q_heap].
    - intros i a Ha. apply Hother in Ha as [Ha Hne]. rewrite index_set_heap, index_set, decide_False by done.
      by apply (tr_index q T).
    - intros p. rewrite index_set_heap, index_set. case_decide as Hd; [done|]. intros Hp.
      destruct (tr_entry q T p Hp) as (i & a & Ha & E). exists i, a. split; [|done].
      rewrite Hh in Ha. apply lookup_app_Some in Ha as [Ha|[_ Ha]]; [done|].
      apply list_lookup_singleton_Some in Ha as [_ <-]. congruence.
    - pose proof (tr_size q T) as Hs. rewrite Hh, zlen_app in Hs. pose proof (zlen_nonneg [e]). lia. }
  split; [done|]. apply deadlines_ext; [done|]. intros p x f. subst q1. cbn [set_heap q_heap].
  rewrite lookup_delete_Some, deadlines_spec by done. rewrite Hh, elem_of_app, list_elem_of_singleton. split.
  - intros Hin. split; [|by left]. apply list_elem_of_lookup in Hin as [i Hi]. apply Hother in Hi as [_ Hne].
    by apply not_eq_sym.
  - intros [Hne [H|H]]; [done|]. by subst e.
Qed.

(** ** The operations *)

Lemma upsert_ok q p fd x :
  queue_ok q -> zlen (q_heap q) < 2 ^ 31 -> updated q (<[p := (x, fd)]> (deadlines q)) (upsert p fd x q).
Proof.
  intros [T O] Hsz. unfold upsert. pose proof (zlen_nonneg (q_heap q)).
  destruct (Z.eqb_spec (keepAliveDeadlineIndex q p) kNoKeepAliveDeadlineIndex) as [Hp|Hp].
  - rewrite u32_id by lia. destruct (tracked_push q p x fd T Hp Hsz) as [T1 D1].
    apply (updated_restored _ _ _ T1 D1). apply siftUp_ok; [done| | |].
    + assert (Hlast : forall i e, (q_heap q ++ [MkEntry x p fd]) !! i = Some e -> (i <= length (q_heap q))%nat).
      { intros i e Hi%lookup_lt_Some. rewrite length_app in Hi. cbn [length] in Hi. lia. }
      split; [split|]; cbn [set_heap set_index q_heap].
      * intros i Hi Hne _ a b Ha Hb. pose proof (Hlast i a Ha). pose proof (par_lt i Hi).
        rewrite lookup_app_l in Ha, Hb by lia. by apply (O i).
      * intros i a g _ Hi Hpi Ha%Hlast _. pose proof (par_lt i Hi). lia.
      * intros i Hi Hpi a b Ha%Hlast _. pose proof (par_lt i Hi). lia.
    + cbn [set_heap set_index q_heap]. rewrite length_app. cbn [length]. lia.
    + unfold sift_fuel. cbn [set_heap set_index q_heap]. rewrite length_app. cbn [length]. lia.
  - destruct (registered_entry q p T) as (i & e & -> & He & <- & _); [by rewrite <- index_registered|].
    rewrite heap_at_nat, He. cbn [mbind option_bind]. rewrite decide_True, Nat2Z.id by done.
    destruct (tracked_replace q i e x fd T He) as [T1 D1]. apply (updated_restored _ _ _ T1 D1).
    apply restoreHeapAt_ok; [done|by apply ordered_hole|]. cbn [set_heap q_heap]. rewrite length_insert.
    by eapply lookup_lt_Some.
Qed.

Lemma remove_ok q p : queue_ok q -> updated q (delete p (deadlines q)) (remove p q).
Proof.
  intros [T O]. unfold remove.
  destruct (Z.eqb_spec (keepAliveDeadlineIndex q p) kNoKeepAliveDeadlineIndex) as [Hp|Hp].
  { exists q. split_and!; [done|done|]. by rewrite delete_id by (by apply index_registered). }
  destruct (registered_entry q p T) as (i & e & -> & He & <- & _); [by rewrite <- index_registered|].
  rewrite heap_at_nat, He. cbn [mbind option_bind]. rewrite decide_True by done.
  pose proof (lookup_lt_Some _ _ _ He) as Hi. pose proof (tr_size q T) as Hsz. remember (length (q_heap q) - 1)%nat as n eqn:En.
  assert (Hn : u32 (zlen (q_heap q) - 1) = Z.of_nat n) by (unfold zlen in *; rewrite u32_id; lia).
  destruct (lookup_lt_is_Some_2 (q_heap q) n) as [b Hb]; [lia|].
  rewrite Hn. destruct (Z.eqb_spec (Z.of_nat i) (Z.of_nat n)) as [E|E].
  - assert (i = n) by lia. subst i. cbn [mbind option_bind].
    assert (Hl : last (q_heap q) = Some e) by (rewrite last_lookup, <- Nat.sub_1_r, <- En; done).
    rewrite Hl. cbn [mbind option_bind]. destruct (tracked_drop q e T Hl) as [T1 D1].
    cbn [set_heap set_index q_heap] in *. rewrite removelast_firstn_len in *.
    destruct (Z.ltb_spec (Z.of_nat n) (zlen (take (pred (length (q_heap q))) (q_heap q)))) as [Hc|_].
    { unfold zlen in Hc. rewrite length_take in Hc. lia. }
    apply (updated_restored _ _ _ T1 D1), restored_self; [done|]. by apply ordered_take.
  - destruct (swapEntries_ok q i n e b) as (q1 & -> & Hh & T1 & S1); [done|done|done|lia|].
    cbn [mbind option_bind]. assert (Hl : last (q_heap q1) = Some e).
    { rewrite last_lookup, <- (proj1 S1), <- Nat.sub_1_r, <- En, Hh, (exchange_lookup _ i n e b) by done. by rewrite decide_True. }
    rewrite Hl. cbn [mbind option_bind]. destruct (tracked_drop q1 e T1 Hl) as [T2 D2].
    rewrite (deadlines_same q q1 T T1 S1) in D2. apply (updated_restored _ _ _ T2 D2).
    cbn [set_heap set_index q_heap] in *. rewrite removelast_firstn_len in *.
    assert (Hcut : take (pred (length (q_heap q1))) (q_heap q1) = <[i := b]> (take n (q_heap q))).
    { rewrite <- (proj1 S1), <- Nat.sub_1_r, <- En, Hh. unfold exchange. by rewrite take_insert_ge, take_insert_lt by lia. }
    rewrite Hcut in *. destruct (Z.ltb_spec (Z.of_nat i) (zlen (<[i := b]> (take n (q_heap q))))) as [Hc|Hc].
    + apply restoreHeapAt_ok; [done|by apply ordered_hole, ordered_take|]. cbn [set_heap q_heap]. unfold zlen in Hc. lia.
    + unfold zlen in Hc. rewrite length_insert, length_take in Hc. lia.
Qed.

(** The entry of [m] with the earliest deadline, then the lowest descriptor. *)
Definition earliest (m : gmap positive (Z * Z)) (e : Entry) : Prop :=
  m !! e_pState e = Some (e_expiresAt e, e_fd e) /\
  forall p x f, m !! p = Some (x, f) -> entry_le e (MkEntry x p f).

Lemma top_ok q e : queue_ok q -> top q = Some e -> earliest (deadlines q) e.
Proof.
  intros [T O] He. unfold top in He. rewrite head_lookup in He. split.
  - apply deadlines_spec; [done|]. destruct e. by eapply list_elem_of_lookup_2.
  - intros p x f H. apply deadlines_spec, list_elem_of_lookup in H as [i Hi]; [|done]. by eapply ordered_min.
Qed.

Lemma queue_empty_map q : tracked q -> queue_empty q = true <-> deadlines q = ∅.
Proof.
  intros T. unfold queue_empty. rewrite bool_decide_eq_true. split; intros H.
  - apply deadlines_ext; [done|]. intros p x f. by rewrite H, lookup_empty, elem_of_nil.
  - destruct (q_heap q) as [|[x p f] h] eqn:E; [done|]. exfalso.
    assert (Hin : MkEntry x p f ∈ q_heap q) by (rewrite E; by left).
    apply deadlines_spec in Hin; [|done]. by rewrite H in Hin.
Qed.

Lemma pop_ok q :
  queue_ok q -> queue_empty q = false ->
  exists e q', pop q = Some (e, q') /\ top q = Some e /\ queue_ok q' /\ earliest (deadlines q) e
    /\ deadlines q' = delete (e_pState e) (deadlines q).
Proof.
  intros Hq Hne. unfold pop, queue_empty in *. apply bool_decide_eq_false in Hne.
  destruct (head (q_heap q)) as [e|] eqn:He; [|by apply head_None in He]. cbn [mbind option_bind].
  destruct (remove_ok q (e_pState e) Hq) as (q' & -> & Hq' & D). exists e, q'.
  split_and!; [done|done|done|by apply top_ok|done].
Qed.

Lemma clear_index es (m : gmap positive Z) p :
  default kNoKeepAliveDeadlineIndex
    (foldl (fun m e => <[e_pState e := kNoKeepAliveDeadlineIndex]> m) m es !! p)
  = if decide (p ∈ e_pState <$> es) then kNoKeepAliveDeadlineIndex
    else default kNoKeepAliveDeadlineIndex (m !! p).
Proof.
  revert m. induction es as [|e es IH]; intros m; cbn [foldl]; [done|]. rewrite IH. cbn [fmap list_fmap].
  destruct (decide (p ∈ e_pState <$> es)); [by rewrite decide_True by (by right)|].
  destruct (decide (p = e_pState e)) as [->|].
  - rewrite lookup_insert_eq, decide_True by (by left). done.
  - rewrite lookup_insert_ne, decide_False by (try done; by intros [?|?]%elem_of_cons). done.
Qed.

Lemma clear_ok q : queue_ok q -> queue_ok (queue_clear q) /\ deadlines (queue_clear q) = ∅.
Proof.
  intros [T O]. split; [|done]. split; [|by intros i Hi e p H]. split; [done| |by cbn].
  intros p. unfold keepAliveDeadlineIndex, queue_clear. cbn [q_index q_heap]. rewrite clear_index.
  case_decide as Hp; [done|]. intros Hne. destruct (tr_entry q T p Hne) as (i & e & Hi & <-).
  exfalso. apply Hp, list_elem_of_fmap. exists e. split; [done|by eapply list_elem_of_lookup_2].
Qed.

(** ** Histories *)

(** [OpPop] as the server calls it, after a test of [empty]. *)
Inductive QueueOp := OpUpsert (p : positive) (fd x : Z) | OpRemove (p : positive) | OpPop | OpClear.

Definition apply_op (op : QueueOp) (q : KeepAliveDeadlineQueue)
  : option (option Entry * KeepAliveDeadlineQueue) :=
  match op with
  | OpUpsert p fd x => q ← upsert p fd x q; Some (None, q)
  | OpRemove p => q ← remove p q; Some (None, q)
  | OpPop => if queue_empty q then Some (None, q) else '(e, q) ← pop q; Some (Some e, q)
  | OpClear => Some (None, queue_clear q)
  end.

Fixpoint run_queue (ops : list QueueOp) (q : KeepAliveDeadlineQueue)
  : option (list (option Entry) * KeepAliveDeadlineQueue) :=
  match ops with
  | [] => Some ([], q)
  | op :: ops => '(r, q) ← apply_op op q; '(rs, q) ← run_queue ops q; Some (r :: rs, q)
  end.

(** The specification: a map of deadlines. *)
Inductive spec_op : QueueOp -> gmap positive (Z * Z) -> option Entry -> gmap positive (Z * Z) -> Prop :=
| Spec_upsert p fd x m : spec_op (OpUpsert p fd x) m None (<[p := (x, fd)]> m)
| Spec_remove p m : spec_op (OpRemove p) m None (delete p m)
| Spec_pop_none : spec_op OpPop ∅ None ∅
| Spec_pop e m : earliest m e -> spec_op OpPop m (Some e) (delete (e_pState e) m)
| Spec_clear m : spec_op OpClear m None ∅.

Inductive spec_run : list QueueOp -> gmap positive (Z * Z) -> list (option Entry) -> gmap positive (Z * Z) -> Prop :=
| Spec_done m : spec_run [] m [] m
| Spec_step op ops m r m1 rs m2 :
    spec_op op m r m1 -> spec_run ops m1 rs m2 -> spec_run (op :: ops) m (r :: rs) m2.

Lemma spec_op_size op m r m1 : spec_op op m r m1 -> (size m1 <= S (size m))%nat.
Proof.
  intros H. inversion H; subst; try lia.
  - destruct (m !! p) eqn:E; [rewrite map_size_insert_Some by eauto|rewrite map_size_insert_None by done]; lia.
  - rewrite map_size_delete. case_match; unfold id; lia.
  - rewrite map_size_delete. case_match; unfold id; lia.
  - rewrite map_size_empty. lia.
Qed.

Lemma heap_size q : tracked q -> length (q_heap q) = size (deadlines q).
Proof.
  intros T. unfold deadlines. rewrite map_size_list_to_map, length_fmap; [done|]. by apply tracked_NoDup.
Qed.

Lemma apply_op_ok op q :
  queue_ok q -> zlen (q_heap q) < 2 ^ 31 ->
  exists r q', apply_op op q = Some (r, q') /\ queue_ok q' /\ spec_op op (deadlines q) r (deadlines q').
Proof.
  intros Hq Hsz. destruct op as [p fd x|p| |]; cbn [apply_op].
  - destruct (upsert_ok q p fd x Hq Hsz) as (q' & -> & Hq' & D). exists None, q'. rewrite D. split_and!; [done|done|constructor].
  - destruct (remove_ok q p Hq) as (q' & -> & Hq' & D). exists None, q'. rewrite D. split_and!; [done|done|constructor].
  - destruct (queue_empty q) eqn:E.
    + exists None, q. split_and!; [done|done|]. apply queue_empty_map in E; [|apply Hq]. rewrite E. constructor.
    + destruct (pop_ok q Hq E) as (e & q' & -> & _ & Hq' & He & D). exists (Some e), q'.
      rewrite D. split_and!; [done|done|by constructor].
  - destruct (clear_ok q Hq) as [Hq' D]. exists None, (queue_clear q). rewrite D. split_and!; [done|done|constructor].
Qed.

Lemma run_queue_ok ops q :
  queue_ok q -> zlen (q_heap q) + zlen ops <= 2 ^ 31 ->
  exists rs q', run_queue ops q = Some (rs, q') /\ queue_ok q' /\ spec_run ops (deadlines q) rs (deadlines q').
Proof.
  revert q. induction ops as [|op ops IH]; intros q Hq Hsz; cbn [run_queue].
  - exists [], q. split_and!; [done|done|constructor].
  - rewrite zlen_cons in Hsz. pose proof (zlen_nonneg ops).
    destruct (apply_op_ok op q Hq) as (r & q1 & -> & Hq1 & S1); [lia|]. cbn [mbind option_bind].
    destruct (IH q1 Hq1) as (rs & q' & -> & Hq' & S').
    { pose proof (spec_op_size _ _ _ _ S1) as Hs.
      rewrite <- (heap_size q), <- (heap_size q1) in Hs by (apply Hq || apply Hq1).
      unfold zlen in *. lia. }
    cbn [mbind option_bind]. exists (r :: rs), q'. split_and!; [done|done|by econstructor].
Qed.

Lemma empty_queue_ok : queue_ok empty_queue.
Proof.
  split; [split|by intros i Hi e p H]; [done| |done].
  intros p. unfold keepAliveDeadlineIndex, empty_queue. cbn [q_index]. by rewrite lookup_empty.
Qed.

(** C18: any history of at most 2{^31} insertions, updates, removals, pops and clears leaves the
    vector and the states without an access out of bounds or a failed assertion, and does what
    a map from connections to deadlines would: an update replaces the deadline of a
    connection, a pop takes the earliest deadline (the lowest descriptor among equals), and a
    state says that it is unscheduled exactly when the map does not have it. *)
Theorem keepalive_queue_refines_map ops :
  zlen ops <= 2 ^ 31 ->
  exists popped q m, run_queue ops empty_queue = Some (popped, q) /\ spec_run ops ∅ popped m
    /\ deadlines q = m
    /\ forall p, keepAliveDeadlineIndex q p = kNoKeepAliveDeadlineIndex <-> m !! p = None.
Proof.
  intros Hsz. destruct (run_queue_ok ops empty_queue empty_queue_ok) as (rs & q & E & Hq & S); [done|].
  exists rs, q, (deadlines q). split_and!; [done|done|done|]. intros p. by apply index_registered, Hq.
Qed.

Lemma keepalive_queue_refines_map_witness :
  let ops := [OpUpsert 1 10 30; OpUpsert 2 11 10; OpUpsert 3 12 20; OpUpsert 1 10 5; OpRemove 2; OpPop; OpPop; OpPop] in
  option_map (fun r => map (option_map e_fd) (fst r)) (run_queue ops empty_queue)
    = Some [None; None; None; None; None; Some 10; Some 12; None]
  /\ exists popped q m, run_queue ops empty_queue = Some (popped, q) /\ spec_run ops ∅ popped m
    /\ deadlines q = m
    /\ forall p, keepAliveDeadlineIndex q p = kNoKeepAliveDeadlineIndex <-> m !! p = None.
Proof. split; [vm_compute; reflexivity|]. apply keepalive_queue_refines_map. vm_compute. discriminate. Defined.
