(* ===== verification/KeepAliveSweep.v ===== *)
(** Closing idle connections: the part of SingleHttpServer (server/src/connection-manager.cpp)
    that schedules keep-alive deadlines and closes what they expire, on the table of the
    connections (server/include/aeronet/internal/connection-storage.hpp, as on Linux).

    The table is the two vectors of the code as one: at [fd - 1] the state of the open
    connection [fd].  Of a state, the members read here.  [None] is undefined behaviour, or a
    loop that did not end in the given rounds. *)

From S2P Require Import Prelude.
From S2P Require Import KeepAliveQueue.
From S2P Require Import KeepAliveQueueProofs.
Local Open Scope Z_scope.

(** ** Connections *)

Definition kInvalidHandle : Z := -1.

Record ConnectionState := MkConnection {
  cn_lastActivity : Z;
  cn_peerFd : Z;
  cn_peerStreamId : Z;
  cn_fileSendActive : bool;
  cn_tunnelUpstreamFds : list Z (* of its HTTP/2 handler *)
}.

Definition isTunneling (c : ConnectionState) : bool := negb (cn_peerFd c =? kInvalidHandle).
Definition isSendingFile (c : ConnectionState) : bool := cn_fileSendActive c.

Definition set_peer (peerFd peerStreamId : Z) (c : ConnectionState) : ConnectionState :=
  MkConnection (cn_lastActivity c) peerFd peerStreamId (cn_fileSendActive c) (cn_tunnelUpstreamFds c).

Definition drain_upstreams (c : ConnectionState) : ConnectionState :=
  MkConnection (cn_lastActivity c) (cn_peerFd c) (cn_peerStreamId c) (cn_fileSendActive c) [].

Record Connections := MkConnections {
  cs_deadlines : KeepAliveDeadlineQueue;
  cs_active : list (option positive);
  cs_states : gmap positive ConnectionState
}.

Definition set_deadlines (q : KeepAliveDeadlineQueue) (s : Connections) : Connections :=
  MkConnections q (cs_active s) (cs_states s).
Definition set_state (p : positive) (c : ConnectionState) (s : Connections) : Connections :=
  MkConnections (cs_deadlines s) (cs_active s) (<[p := c]> (cs_states s)).
Definition set_slot (fd : Z) (o : option positive) (s : Connections) : Connections :=
  MkConnections (cs_deadlines s) (<[Z.to_nat (fd - 1) := o]> (cs_active s)) (cs_states s).

(** [iterator(fd)], then [IsValid] and [connectionState]. *)
Definition slot_at (s : Connections) (fd : Z) : option (option positive) :=
  if 0 <? fd then cs_active s !! Z.to_nat (fd - 1) else None.

Definition recycleOrRelease (fd : Z) (s : Connections) : Connections := set_slot fd None s.

Definition forgetConnectionMaintenance (p : positive) (s : Connections) : option Connections :=
  q ← remove p (cs_deadlines s); Some (set_deadlines q s).

(** The other end of a tunnel.  That of an HTTP/2 stream is only told of the end. *)
Definition close_peer (cfd : Z) (c : ConnectionState) (s : Connections) : option Connections :=
  if negb (isTunneling c) then Some s
  else
    slot ← slot_at s (cn_peerFd c);
    match slot with
    | None => Some s
    | Some peer =>
        pc ← cs_states s !! peer;
        if negb (cn_peerStreamId c =? 0) then Some s
        else if cn_peerFd pc =? cfd then
          s ← forgetConnectionMaintenance peer s; Some (recycleOrRelease (cn_peerFd c) s)
        else Some s
    end.

(** The tunnels of an HTTP/2 connection. *)
Fixpoint close_upstreams (fds : list Z) (s : Connections) : option Connections :=
  match fds with
  | [] => Some s
  | upFd :: fds =>
      slot ← slot_at s upFd;
      match slot with
      | None => close_upstreams fds s
      | Some up =>
          c ← cs_states s !! up;
          s ← forgetConnectionMaintenance up (set_state up (set_peer kInvalidHandle 0 c) s);
          close_upstreams fds (recycleOrRelease upFd s)
      end
  end.

Definition closeConnection (cfd : Z) (s : Connections) : option Connections :=
  slot ← slot_at s cfd; p ← slot; c ← cs_states s !! p;
  s ← forgetConnectionMaintenance p s;
  s ← close_peer cfd c s;
  let s := recycleOrRelease cfd (set_state p (drain_upstreams c) s) in
  close_upstreams (cn_tunnelUpstreamFds c) s.

Section Sweep.
(** The configuration and the time of the connections. *)
Context (enableKeepAlive : bool) (keepAliveTimeout now : Z).

Definition refreshKeepAliveDeadline (fd : Z) (s : Connections) : option Connections :=
  slot ← slot_at s fd; p ← slot; c ← cs_states s !! p;
  q ← (if negb enableKeepAlive || isTunneling c then remove p (cs_deadlines s)
       else upsert p fd (cn_lastActivity c + keepAliveTimeout) (cs_deadlines s));
  Some (set_deadlines q s).

(** What to do with an entry that has expired, already out of the queue. *)
Definition expire (expired : Entry) (s : Connections) : option (bool * Connections) :=
  let p := e_pState expired in
  let fd := e_fd expired in
  slot ← slot_at s fd;
  if negb (bool_decide (slot = Some p)) then Some (false, s)
  else
    c ← cs_states s !! p;
    if negb enableKeepAlive || isTunneling c then Some (false, s)
    else if isSendingFile c then
      q ← upsert p fd (now + keepAliveTimeout) (cs_deadlines s); Some (false, set_deadlines q s)
    else
      let currentExpiry := cn_lastActivity c + keepAliveTimeout in
      if now <? currentExpiry then
        q ← upsert p fd currentExpiry (cs_deadlines s); Some (false, set_deadlines q s)
      else s ← closeConnection fd s; Some (true, s).

Fixpoint closeExpiredKeepAliveConnections (fuel : nat) (closedAny : bool) (s : Connections)
  : option (bool * Connections) :=
  match fuel with
  | O => None
  | S fuel =>
      if queue_empty (cs_deadlines s) then Some (closedAny, s)
      else
        next ← top (cs_deadlines s);
        if now <? e_expiresAt next then Some (closedAny, s)
        else
          '(expired, q) ← pop (cs_deadlines s);
          '(closed, s) ← expire expired (set_deadlines q s);
          closeExpiredKeepAliveConnections fuel (closedAny || closed) s
  end.

Fixpoint rebuild_loop (fd : Z) (slots : list (option positive)) (s : Connections) : option Connections :=
  match slots with
  | [] => Some s
  | None :: slots => rebuild_loop (fd + 1) slots s
  | Some _ :: slots => s ← refreshKeepAliveDeadline fd s; rebuild_loop (fd + 1) slots s
  end.

Definition rebuildKeepAliveDeadlines (s : Connections) : option Connections :=
  let s := set_deadlines (queue_clear (cs_deadlines s)) s in
  if negb enableKeepAlive then Some s else rebuild_loop 1 (cs_active s) s.
End Sweep.

(** With the timeout 0, which the configuration accepts, a connection that sends a file is put
    back with a deadline that has passed already: the loop never ends. *)
Lemma sweep_zero_timeout_diverges fuel closedAny :
  let sending := MkConnection 0 kInvalidHandle 0 true [] in
  exists s0 s, refreshKeepAliveDeadline true 0 1 s0 = Some s
    /\ s0 = MkConnections empty_queue [Some 1%positive] {[ 1%positive := sending ]}
    /\ closeExpiredKeepAliveConnections true 0 5 fuel closedAny s = None.
Proof.
  intros sending. eexists _, _. split; [|split; [reflexivity|]]; [vm_compute; reflexivity|].
  match goal with |- closeExpiredKeepAliveConnections _ _ _ _ _ ?s = _ => set (s0 := s) end.
  set (s5 := set_deadlines (MkQueue [MkEntry 5 1 1] {[ 1%positive := 0 ]}) s0).
  assert (H5 : forall fuel c, closeExpiredKeepAliveConnections true 0 5 fuel c s5 = None).
  { clear. intros fuel. induction fuel as [|fuel IH]; intros c; [done|]. exact (IH (c || false)). }
  destruct fuel as [|fuel]; [done|]. exact (H5 fuel (closedAny || false)).
Qed.
