(* ===== verification/KeepAliveSweepProofs.v ===== *)
(** The sweep of idle connections ends, closes the connections that have been idle for the
    keep-alive timeout (with the tunnels they carry) and no other, and leaves no deadline due. *)

From S2P Require Import Prelude.
From S2P Require Import KeepAliveQueue.
From S2P Require Import KeepAliveQueueProofs.
From S2P Require Import KeepAliveSweep.
Local Open Scope Z_scope.

(** ** The table *)

(** The entries of the queue are open connections under their own descriptor; states are not
    shared; the tunnels of a connection are descriptors of the table. *)
Record table_ok (s : Connections) : Prop := {
  to_queue : queue_ok (cs_deadlines s);
  to_entry : forall p x fd, deadlines (cs_deadlines s) !! p = Some (x, fd) -> slot_at s fd = Some (Some p);
  to_inj : forall fd fd' p, slot_at s fd = Some (Some p) -> slot_at s fd' = Some (Some p) -> fd = fd';
  to_state : forall fd p, slot_at s fd = Some (Some p) -> is_Some (cs_states s !! p);
  to_upstream : forall p c u, cs_states s !! p = Some c -> u ∈ cn_tunnelUpstreamFds c -> is_Some (slot_at s u)
}.

Lemma slot_at_set s fd o fd' :
  is_Some (slot_at s fd) -> slot_at (set_slot fd o s) fd' = if decide (fd' = fd) then Some o else slot_at s fd'.
Proof.
  unfold slot_at, set_slot. cbn [cs_active]. destruct (Z.ltb_spec 0 fd) as [Hfd|]; [|by intros [? ?]].
  intros Hi%lookup_lt_is_Some. case_decide as E.
  - subst. destruct (Z.ltb_spec 0 fd); [by apply list_lookup_insert_eq|lia].
  - destruct (Z.ltb_spec 0 fd'); [|done]. apply list_lookup_insert_ne. lia.
Qed.

Lemma slot_at_defined s fd o fd' :
  is_Some (slot_at s fd) -> is_Some (slot_at s fd') -> is_Some (slot_at (set_slot fd o s) fd').
Proof. intros H H'. rewrite slot_at_set by done. case_decide; [by eexists|done]. Qed.

(** A connection that is not in the queue may be released. *)
Lemma release_ok s fd p :
  table_ok s -> slot_at s fd = Some (Some p) -> deadlines (cs_deadlines s) !! p = None ->
  table_ok (recycleOrRelease fd s).
Proof.
  intros T Hs Hp. assert (Hd : is_Some (slot_at s fd)) by by eexists.
  assert (Hsub : forall fd' p', slot_at (recycleOrRelease fd s) fd' = Some (Some p') -> slot_at s fd' = Some (Some p')).
  { intros fd' p'. unfold recycleOrRelease. rewrite slot_at_set by done. by case_decide. }
  split.
  - apply (to_queue s T).
  - intros p' x fd' H. unfold recycleOrRelease. rewrite slot_at_set by done.
    pose proof (to_entry s T p' x fd' H) as H'. rewrite decide_False; [done|]. intros ->.
    cbn [recycleOrRelease set_slot cs_deadlines] in H. congruence.
  - intros fd1 fd2 p' H1%Hsub H2%Hsub. by eapply (to_inj s T).
  - intros fd' p' H%Hsub. by eapply (to_state s T).
  - intros p' c u Hc Hu. apply slot_at_defined; [done|]. by eapply (to_upstream s T).
Qed.

(** Changes of the queue alone. *)
Lemma set_deadlines_ok s q :
  table_ok s -> queue_ok q ->
  (forall p x fd, deadlines q !! p = Some (x, fd) -> slot_at s fd = Some (Some p)) ->
  table_ok (set_deadlines q s).
Proof. intros T Q E. split; [done|done|apply (to_inj s T)|apply (to_state s T)|apply (to_upstream s T)]. Qed.

Lemma set_state_ok s p c :
  table_ok s -> (forall u, u ∈ cn_tunnelUpstreamFds c -> is_Some (slot_at s u)) -> table_ok (set_state p c s).
Proof.
  intros T Hc. split; [apply (to_queue s T)|apply (to_entry s T)|apply (to_inj s T)| |]; cbn [set_state cs_states].
  - intros fd p' H. destruct (decide (p' = p)) as [->|]; [by rewrite lookup_insert_eq|rewrite lookup_insert_ne by done].
    by eapply (to_state s T).
  - intros p' c' u. destruct (decide (p' = p)) as [->|]; [rewrite lookup_insert_eq; by intros [= <-] Hu; apply Hc|].
    rewrite lookup_insert_ne by done. apply (to_upstream s T).
Qed.

Lemma forget_ok s p :
  table_ok s ->
  exists q, forgetConnectionMaintenance p s = Some (set_deadlines q s) /\ table_ok (set_deadlines q s)
    /\ deadlines q = delete p (deadlines (cs_deadlines s)).
Proof.
  intros T. destruct (remove_ok (cs_deadlines s) p (to_queue s T)) as (q & E & Q & D). exists q.
  unfold forgetConnectionMaintenance. rewrite E. split_and!; [done| |done]. apply set_deadlines_ok; [done|done|].
  intros p' x fd. rewrite D. intros [_ H]%lookup_delete_Some. by eapply (to_entry s T).
Qed.

(** ** What closing may change *)

(** Between [s] and [s1] the connections [closable] may have been closed; the others have kept
    their slots, and the entries that are left are those of open connections whose states are
    unchanged. *)
Record shrinks (closable : Z -> Prop) (s s1 : Connections) : Prop := {
  sh_entry : forall p d, deadlines (cs_deadlines s1) !! p = Some d ->
             deadlines (cs_deadlines s) !! p = Some d /\ cs_states s1 !! p = cs_states s !! p;
  sh_kept : forall p x fd, deadlines (cs_deadlines s) !! p = Some (x, fd) ->
            deadlines (cs_deadlines s1) !! p = Some (x, fd) \/ slot_at s1 fd = Some None;
  sh_slot : forall fd, slot_at s1 fd = slot_at s fd \/ (slot_at s1 fd = Some None /\ closable fd)
}.

Lemma shrinks_refl P s : shrinks P s s.
Proof. split; auto. Qed.

Lemma shrinks_trans P s s1 s2 : shrinks P s s1 -> shrinks P s1 s2 -> shrinks P s s2.
Proof.
  intros A B. split.
  - intros p d H. destruct (sh_entry _ _ _ B p d H) as [H1 E1]. destruct (sh_entry _ _ _ A p d H1) as [H2 E2].
    split; [done|congruence].
  - intros p x fd H. destruct (sh_kept _ _ _ A p x fd H) as [H1|H1]; [by apply (sh_kept _ _ _ B)|]. right.
    destruct (sh_slot _ _ _ B fd) as [->|[-> _]]; done.
  - intros fd. destruct (sh_slot _ _ _ B fd) as [->|[-> ?]]; [apply (sh_slot _ _ _ A)|by right].
Qed.

Lemma shrinks_defined P s s1 fd : shrinks P s s1 -> is_Some (slot_at s fd) -> is_Some (slot_at s1 fd).
Proof. intros A H. by destruct (sh_slot _ _ _ A fd) as [->|[-> _]]. Qed.

(** One connection closed: its entry forgotten, its state changed, its slot released. *)
Lemma close_one (P : Z -> Prop) s fd p c :
  table_ok s -> slot_at s fd = Some (Some p) -> P fd ->
  (forall u, u ∈ cn_tunnelUpstreamFds c -> is_Some (slot_at s u)) ->
  exists q, forgetConnectionMaintenance p s = Some (set_deadlines q s)
    /\ let s1 := recycleOrRelease fd (set_state p c (set_deadlines q s)) in
       table_ok s1 /\ shrinks P s s1 /\ slot_at s1 fd = Some None.
Proof.
  intros T Hs HP Hc. destruct (forget_ok s p T) as (q & E & Tq & D). exists q. split; [done|].
  assert (T1 : table_ok (set_state p c (set_deadlines q s))) by by apply set_state_ok.
  assert (Hd : is_Some (slot_at s fd)) by by eexists.
  assert (Hslot : forall fd', slot_at (recycleOrRelease fd (set_state p c (set_deadlines q s))) fd'
                  = if decide (fd' = fd) then Some None else slot_at s fd').
  { intros fd'. unfold recycleOrRelease. by rewrite slot_at_set. }
  split_and!.
  - apply (release_ok _ fd p); [done|done|]. cbn [set_state set_deadlines cs_deadlines].
    rewrite D. by rewrite lookup_delete_eq.
  - split.
    + intros p' d. cbn [recycleOrRelease set_slot set_state set_deadlines cs_deadlines cs_states]. rewrite D.
      intros [Hne H]%lookup_delete_Some. split; [done|]. by rewrite lookup_insert_ne.
    + intros p' x fd' H. cbn [recycleOrRelease set_slot set_state set_deadlines cs_deadlines]. rewrite D.
      destruct (decide (p' = p)) as [->|]; [right|left; by rewrite lookup_delete_ne].
      pose proof (to_entry s T p x fd' H) as H'. rewrite (to_inj s T fd' fd p H' Hs), Hslot. by rewrite decide_True.
    + intros fd'. rewrite Hslot. case_decide; [subst; by right|by left].
  - rewrite Hslot. by rewrite decide_True.
Qed.

Lemma close_upstreams_ok (P : Z -> Prop) fds s :
  table_ok s -> (forall u, u ∈ fds -> is_Some (slot_at s u) /\ P u) ->
  exists s1, close_upstreams fds s = Some s1 /\ table_ok s1 /\ shrinks P s s1.
Proof.
  revert s. induction fds as [|u fds IH]; intros s T Hf; cbn [close_upstreams].
  { exists s. split_and!; [done|done|apply shrinks_refl]. }
  destruct (Hf u) as [[slot Hs] Hu]; [by left|]. rewrite Hs. cbn [mbind option_bind].
  destruct slot as [up|]; [|apply IH; [done|]; intros v Hv; apply Hf; by right].
  destruct (to_state s T u up Hs) as [c Hc]. rewrite Hc. cbn [mbind option_bind].
  destruct (close_one P s u up (set_peer kInvalidHandle 0 c) T Hs Hu) as (q & E & T1 & S1 & _).
  { intros v. by apply (to_upstream s T up c). }
  unfold forgetConnectionMaintenance in *. cbn [set_state cs_deadlines].
  destruct (remove up (cs_deadlines s)) as [q'|]; [|done]. cbn [mbind option_bind] in *. injection E as ->.
  destruct (IH _ T1) as (s2 & E2 & T2 & S2).
  - intros v Hv. destruct (Hf v) as [Hd Hp]; [by right|]. split; [by eapply shrinks_defined|done].
  - exists s2. split_and!; [exact E2|done|by eapply shrinks_trans].
Qed.

Lemma closeConnection_ok (P : Z -> Prop) s fd p c :
  table_ok s -> slot_at s fd = Some (Some p) -> cs_states s !! p = Some c -> isTunneling c = false ->
  P fd -> (forall u, u ∈ cn_tunnelUpstreamFds c -> P u) ->
  exists s1, closeConnection fd s = Some s1 /\ table_ok s1 /\ shrinks P s s1 /\ slot_at s1 fd = Some None.
Proof.
  intros T Hs Hc Ht HP Hup. unfold closeConnection. rewrite Hs. cbn [mbind option_bind]. rewrite Hc.
  cbn [mbind option_bind]. destruct (close_one P s fd p (drain_upstreams c) T Hs HP) as (q & -> & T1 & S1 & N1).
  { by intros u ?%elem_of_nil. }
  cbn [mbind option_bind]. unfold close_peer. rewrite Ht. cbn [negb mbind option_bind].
  destruct (close_upstreams_ok P (cn_tunnelUpstreamFds c) _ T1) as (s2 & -> & T2 & S2).
  { intros u Hu. split; [|by apply Hup]. eapply shrinks_defined; [done|]. by eapply (to_upstream s T). }
  exists s2. split_and!; [done|done|by eapply shrinks_trans|].
  destruct (sh_slot _ _ _ S2 fd) as [->|[-> _]]; done.
Qed.

Section Sweep.
Context (enableKeepAlive : bool) (keepAliveTimeout now : Z).

(** The connection [fd] is to be closed. *)
Definition idle (s : Connections) (fd : Z) : Prop :=
  exists p x c, deadlines (cs_deadlines s) !! p = Some (x, fd) /\ x <= now /\ cs_states s !! p = Some c
    /\ enableKeepAlive = true /\ isTunneling c = false /\ isSendingFile c = false
    /\ cn_lastActivity c + keepAliveTimeout <= now.

(** It is, or it is a tunnel of such a connection. *)
Definition closable (s : Connections) (fd : Z) : Prop :=
  idle s fd \/ exists fd' p c, idle s fd' /\ slot_at s fd' = Some (Some p) /\ cs_states s !! p = Some c
                               /\ fd ∈ cn_tunnelUpstreamFds c.

(** What the rounds of the sweep preserve: entries that are due have not changed. *)
Record swept (s s1 : Connections) : Prop := {
  sw_entry : forall p x fd, deadlines (cs_deadlines s1) !! p = Some (x, fd) -> x <= now ->
             deadlines (cs_deadlines s) !! p = Some (x, fd) /\ cs_states s1 !! p = cs_states s !! p;
  sw_idle : forall fd, idle s fd -> idle s1 fd \/ slot_at s1 fd = Some None;
  sw_slot : forall fd, slot_at s1 fd = slot_at s fd \/ (slot_at s1 fd = Some None /\ closable s fd)
}.

Lemma swept_refl s : swept s s.
Proof. split; auto. Qed.

Lemma swept_idle s s1 fd : swept s s1 -> idle s1 fd -> idle s fd.
Proof.
  intros A (p & x & c & Hd & Hx & Hc & Hr). destruct (sw_entry _ _ A p x fd Hd Hx) as [Hd' E].
  exists p, x, c. split_and!; [done|done|congruence|apply Hr..].
Qed.

Lemma swept_trans s s1 s2 : table_ok s -> table_ok s1 -> swept s s1 -> swept s1 s2 -> swept s s2.
Proof.
  intros T T1 A B.
  assert (Hclosable : forall fd, closable s1 fd -> closable s fd).
  { intros fd [H|(fd' & p & c & H & Hs & Hc & Hu)]; [left; by eapply swept_idle|].
    right. pose proof (swept_idle _ _ _ A H) as Hi. destruct H as (p' & x & c' & Hd & Hx & Hc' & _).
    pose proof (to_entry s1 T1 p' x fd' Hd) as Hs'. assert (p' = p) as -> by congruence.
    destruct (sw_entry _ _ A p x fd' Hd Hx) as [Hd' E]. exists fd', p, c.
    split_and!; [done|by eapply (to_entry s T)|congruence|done]. }
  split.
  - intros p x fd H Hx. destruct (sw_entry _ _ B p x fd H Hx) as [H1 E1].
    destruct (sw_entry _ _ A p x fd H1 Hx) as [H2 E2]. split; [done|congruence].
  - intros fd H. destruct (sw_idle _ _ A fd H) as [H1|H1]; [by apply (sw_idle _ _ B)|]. right.
    destruct (sw_slot _ _ B fd) as [->|[-> _]]; done.
  - intros fd. destruct (sw_slot _ _ B fd) as [->|[-> ?]]; [apply (sw_slot _ _ A)|right; auto].
Qed.

(** The popped entry [e] left the queue or came back with a deadline to come. *)
Lemma requeue_ok s e q q2 (x : Z) :
  table_ok s -> deadlines (cs_deadlines s) !! e_pState e = Some (e_expiresAt e, e_fd e) ->
  deadlines q = delete (e_pState e) (deadlines (cs_deadlines s)) -> queue_ok q2 ->
  (deadlines q2 = deadlines q \/ (now < x /\ deadlines q2 = <[e_pState e := (x, e_fd e)]> (deadlines q))) ->
  (e_expiresAt e <= now -> ~ idle s (e_fd e)) ->
  table_ok (set_deadlines q2 s) /\ swept s (set_deadlines q2 s).
Proof.
  intros T He Dq Q2 D2 Hidle.
  assert (Hback : forall p x' fd, deadlines q2 !! p = Some (x', fd) ->
            deadlines (cs_deadlines s) !! p = Some (x', fd) \/ (p = e_pState e /\ now < x' /\ fd = e_fd e)).
  { intros p x' fd H. destruct D2 as [D2|[Hx D2]]; rewrite D2, Dq in H.
    - apply lookup_delete_Some in H as [_ H]. by left.
    - apply lookup_insert_Some in H as [[<- E]|[_ [_ H]%lookup_delete_Some]]; [right|by left].
      injection E as <- <-. done. }
  split; [|split].
  - apply set_deadlines_ok; [done|done|]. intros p x' fd [H|(-> & _ & ->)]%Hback; by eapply (to_entry s T).
  - intros p x' fd [H|(_ & H & _)]%Hback Hx; [done|lia].
  - intros fd (p & x' & c & Hd & Hx & Hr). left. exists p, x', c. split; [|done].
    destruct (decide (p = e_pState e)) as [->|Hne].
    + rewrite He in Hd. injection Hd as <- <-. exfalso. apply Hidle; [done|]. by exists (e_pState e), (e_expiresAt e), c.
    + cbn [set_deadlines cs_deadlines]. destruct D2 as [D2|[_ D2]]; rewrite D2, ?lookup_insert_ne, Dq by done;
        by rewrite lookup_delete_ne.
  - by left.
Qed.

(** The rest of the sweep starts from a queue without [e]. *)
Definition popped (s : Connections) (e : Entry) (q : KeepAliveDeadlineQueue) : Prop :=
  deadlines (cs_deadlines s) !! e_pState e = Some (e_expiresAt e, e_fd e)
  /\ deadlines q = delete (e_pState e) (deadlines (cs_deadlines s)) /\ queue_ok q.

(** What a round does with it. *)
Definition round_ok (s : Connections) (e : Entry) (r : option (bool * Connections)) : Prop :=
  exists b s1, r = Some (b, s1) /\ table_ok s1 /\ swept s s1
    /\ forall x fd, deadlines (cs_deadlines s1) !! e_pState e = Some (x, fd) -> now < x.

Lemma popped_size s e q : table_ok s -> popped s e q -> zlen (q_heap q) < 2 ^ 31.
Proof.
  intros T (He & Dq & Q). pose proof (tr_size _ (proj1 (to_queue s T))) as Hz. unfold zlen in *.
  rewrite (heap_size q), Dq, map_size_delete_Some by (apply Q || by eexists).
  rewrite (heap_size (cs_deadlines s)) in Hz by apply (to_queue s T).
  enough (size (deadlines (cs_deadlines s)) <> O) by lia.
  intros E. apply map_size_empty_iff in E. by rewrite E in He.
Qed.

Lemma requeue_round s e q x :
  table_ok s -> popped s e q -> now < x -> ~ idle s (e_fd e) ->
  round_ok s e (q2 ← upsert (e_pState e) (e_fd e) x q; Some (false, set_deadlines q2 (set_deadlines q s))).
Proof.
  intros T Hp Hx Hni. pose proof (popped_size s e q T Hp) as Hsize. destruct Hp as (He & Dq & Q).
  destruct (upsert_ok q (e_pState e) (e_fd e) x Q Hsize) as (q2 & -> & Q2 & D2).
  destruct (requeue_ok s e q q2 x T He Dq Q2) as [T1 S1]; [by right|done|].
  exists false, (set_deadlines q2 s). split_and!; [done|done|done|]. intros x' fd.
  cbn [set_deadlines cs_deadlines]. rewrite D2, lookup_insert_eq. by intros [= <- _].
Qed.

Lemma drop_round s e q :
  table_ok s -> popped s e q -> ~ idle s (e_fd e) -> round_ok s e (Some (false, set_deadlines q s)).
Proof.
  intros T (He & Dq & Q) Hni. destruct (requeue_ok s e q q 0 T He Dq Q) as [T1 S1]; [by left|done|].
  exists false, (set_deadlines q s). split_and!; [done|done|done|]. intros x fd.
  cbn [set_deadlines cs_deadlines]. by rewrite Dq, lookup_delete_eq.
Qed.

Lemma close_round s e q c :
  table_ok s -> popped s e q -> e_expiresAt e <= now -> cs_states s !! e_pState e = Some c ->
  isTunneling c = false -> idle s (e_fd e) ->
  round_ok s e (s1 ← closeConnection (e_fd e) (set_deadlines q s); Some (true, s1)).
Proof.
  intros T (He & Dq & Q) Hx Hc Ht Hi. pose proof (to_entry s T _ _ _ He) as Hs.
  assert (Tq : table_ok (set_deadlines q s)).
  { apply set_deadlines_ok; [done|done|]. intros p x fd. rewrite Dq. intros [_ H]%lookup_delete_Some.
    by eapply (to_entry s T). }
  destruct (closeConnection_ok (closable s) (set_deadlines q s) (e_fd e) (e_pState e) c Tq) as (s1 & -> & T1 & S1 & N1);
    [done|done|done|by left| |].
  { intros u Hu. right. by exists (e_fd e), (e_pState e), c. }
  assert (Hsub : forall p d, deadlines (cs_deadlines s1) !! p = Some d ->
            deadlines q !! p = Some d /\ cs_states s1 !! p = cs_states s !! p)
    by (intros p d; apply (sh_entry _ _ _ S1)).
  exists true, s1. split_and!; [done|done|split|].
  - intros p x fd H _. destruct (Hsub p _ H) as [H1 E1]. rewrite Dq in H1.
    by apply lookup_delete_Some in H1 as [_ H1].
  - intros fd (p & x & c' & Hd & Hx' & Hc' & Hr). destruct (decide (p = e_pState e)) as [->|Hne].
    { rewrite He in Hd. injection Hd as <- <-. by right. }
    assert (Hq : deadlines (cs_deadlines (set_deadlines q s)) !! p = Some (x, fd))
      by (cbn [set_deadlines cs_deadlines]; by rewrite Dq, lookup_delete_ne).
    destruct (sh_kept _ _ _ S1 p x fd Hq) as [Hk1|Hk1]; [left|by right]. exists p, x, c'.
    destruct (Hsub p _ Hk1) as [_ E1]. split_and!; [done|done|by rewrite E1|apply Hr..].
  - intros fd. apply (sh_slot _ _ _ S1).
  - intros x fd H. destruct (Hsub _ _ H) as [H1 _]. by rewrite Dq, lookup_delete_eq in H1.
Qed.

Lemma expire_ok s e q :
  0 < keepAliveTimeout -> table_ok s -> popped s e q -> e_expiresAt e <= now ->
  round_ok s e (expire enableKeepAlive keepAliveTimeout now e (set_deadlines q s)).
Proof.
  intros HT T Hp Hx. pose proof (to_entry s T _ _ _ (proj1 Hp)) as Hs.
  destruct (to_state s T _ _ Hs) as [c Hc].
  assert (Hidle : idle s (e_fd e) -> isTunneling c = false /\ enableKeepAlive = true /\ isSendingFile c = false
                    /\ cn_lastActivity c + keepAliveTimeout <= now).
  { intros (p' & x' & c' & Hd & _ & Hc' & H1 & H2 & H3 & H4).
    pose proof (to_entry s T p' x' (e_fd e) Hd) as Hs'. assert (p' = e_pState e) as -> by congruence.
    by simplify_eq. }
  unfold expire. replace (slot_at (set_deadlines q s) (e_fd e)) with (Some (Some (e_pState e))) by (rewrite <- Hs; done).
  cbn [mbind option_bind]. rewrite bool_decide_true by done. cbn [negb set_deadlines cs_states].
  rewrite Hc. cbn [mbind option_bind].
  destruct (negb enableKeepAlive || isTunneling c) eqn:Eg.
  { apply drop_round; [done|done|]. intros (Ht & Hk & _)%Hidle. by rewrite Ht, Hk in Eg. }
  apply orb_false_iff in Eg as [Hk Ht]. apply negb_false_iff in Hk.
  destruct (isSendingFile c) eqn:Ef.
  { apply requeue_round; [done|done|lia|]. by intros (_ & _ & ? & _)%Hidle. }
  destruct (Z.ltb_spec now (cn_lastActivity c + keepAliveTimeout)) as [Hl|Hl].
  { apply requeue_round; [done|done|lia|]. intros (_ & _ & _ & ?)%Hidle. lia. }
  apply (close_round s e q c); try done. exists (e_pState e), (e_expiresAt e), c.
  by destruct Hp.
Qed.

(** Fuel above the number of entries that may be due is enough. *)
Lemma sweep_loop_ok fuel (due : gset positive) closedAny s :
  0 < keepAliveTimeout -> table_ok s ->
  (forall p x fd, deadlines (cs_deadlines s) !! p = Some (x, fd) -> x <= now -> p ∈ due) ->
  (size due < fuel)%nat ->
  exists b s1, closeExpiredKeepAliveConnections enableKeepAlive keepAliveTimeout now fuel closedAny s = Some (b, s1)
    /\ table_ok s1 /\ swept s s1
    /\ forall p x fd, deadlines (cs_deadlines s1) !! p = Some (x, fd) -> now < x.
Proof.
  intros HT. revert due closedAny s. induction fuel as [|fuel IH]; intros due closedAny s T Hdue Hf; [lia|].
  cbn [closeExpiredKeepAliveConnections]. pose proof (to_queue s T) as Q.
  destruct (queue_empty (cs_deadlines s)) eqn:Ee.
  { exists closedAny, s. split_and!; [done|done|apply swept_refl|]. intros p x fd.
    apply queue_empty_map in Ee; [|apply Q]. by rewrite Ee. }
  destruct (pop_ok (cs_deadlines s) Q Ee) as (e & q & Epop & Etop & Q' & [He Hmin] & Dq).
  rewrite Etop. cbn [mbind option_bind]. destruct (Z.ltb_spec now (e_expiresAt e)) as [Hl|Hl].
  { exists closedAny, s. split_and!; [done|done|apply swept_refl|]. intros p x fd H.
    specialize (Hmin p x fd H). unfold entry_le in Hmin. cbn [e_expiresAt e_fd] in Hmin. lia. }
  rewrite Epop. cbn [mbind option_bind].
  destruct (expire_ok s e q HT T (conj He (conj Dq Q')) Hl) as (b & s1 & -> & T1 & S1 & N1).
  cbn [mbind option_bind]. destruct (IH (due ∖ {[e_pState e]}) (closedAny || b) s1 T1) as (b' & s2 & -> & T2 & S2 & N2).
  - intros p x fd H Hx. destruct (sw_entry _ _ S1 p x fd H Hx) as [H' _]. apply elem_of_difference.
    split; [by eapply Hdue|]. intros ->%elem_of_singleton. specialize (N1 x fd H). lia.
  - assert (Hin : e_pState e ∈ due) by by eapply Hdue. rewrite size_difference by by apply singleton_subseteq_l.
    rewrite size_singleton. assert (size due <> O) by by apply size_non_empty_iff; intros E; rewrite E in Hin. lia.
  - exists b', s2. split_and!; [done|done|by eapply (swept_trans s s1)|done].
Qed.

(** C19: with a positive keep-alive timeout, the sweep of a server's connections ends within one
    round per scheduled connection and one more, without an access out of the tables.  It
    closes every connection whose deadline has passed and that has been idle for the timeout,
    is not a tunnel and sends no file; it closes nothing else but the tunnels that these
    connections carry; and the deadlines it leaves are to come. *)
Theorem idle_connections_closed s :
  0 < keepAliveTimeout -> table_ok s ->
  exists closedAny s',
    closeExpiredKeepAliveConnections enableKeepAlive keepAliveTimeout now
      (S (length (q_heap (cs_deadlines s)))) false s = Some (closedAny, s')
    /\ table_ok s'
    /\ (forall fd, idle s fd -> slot_at s' fd = Some None)
    /\ (forall fd, slot_at s' fd = slot_at s fd \/ (slot_at s' fd = Some None /\ closable s fd))
    /\ (forall p x fd, deadlines (cs_deadlines s') !! p = Some (x, fd) -> now < x).
Proof.
  intros HT T. destruct (sweep_loop_ok (S (length (q_heap (cs_deadlines s)))) (dom (deadlines (cs_deadlines s))) false s)
    as (b & s1 & E & T1 & S1 & N1); [done|done| | |].
  - intros p x fd H _. by apply elem_of_dom_2 in H.
  - rewrite size_dom, heap_size by apply (to_queue s T). lia.
  - exists b, s1. split_and!; [done|done| |apply (sw_slot _ _ S1)|done]. intros fd Hi.
    destruct (sw_idle _ _ S1 fd Hi) as [(p & x & c & Hd & Hx & _)|H]; [|done]. specialize (N1 p x fd Hd). lia.
Qed.
End Sweep.

(** ** Scheduling *)

Lemma refresh_ok enableKeepAlive keepAliveTimeout s fd p c :
  table_ok s -> slot_at s fd = Some (Some p) -> cs_states s !! p = Some c -> zlen (q_heap (cs_deadlines s)) < 2 ^ 31 ->
  exists q, refreshKeepAliveDeadline enableKeepAlive keepAliveTimeout fd s = Some (set_deadlines q s)
    /\ table_ok (set_deadlines q s)
    /\ deadlines q = if negb enableKeepAlive || isTunneling c then delete p (deadlines (cs_deadlines s))
                     else <[p := (cn_lastActivity c + keepAliveTimeout, fd)]> (deadlines (cs_deadlines s)).
Proof.
  intros T Hs Hc Hz. unfold refreshKeepAliveDeadline. rewrite Hs. cbn [mbind option_bind]. rewrite Hc.
  cbn [mbind option_bind]. destruct (negb enableKeepAlive || isTunneling c).
  - destruct (remove_ok (cs_deadlines s) p (to_queue s T)) as (q & -> & Q & D). exists q. split_and!; [done| |done].
    apply set_deadlines_ok; [done|done|]. intros p' x f. rewrite D. intros [_ H]%lookup_delete_Some.
    by eapply (to_entry s T).
  - destruct (upsert_ok (cs_deadlines s) p fd (cn_lastActivity c + keepAliveTimeout) (to_queue s T) Hz) as (q & -> & Q & D).
    exists q. split_and!; [done| |done]. apply set_deadlines_ok; [done|done|]. intros p' x f. rewrite D.
    intros [[<- E]|[_ H]]%lookup_insert_Some; [by injection E as _ <-|by eapply (to_entry s T)].
Qed.

(** A table in which nothing is scheduled. *)
Lemma unscheduled_ok active states :
  let s := MkConnections empty_queue active states in
  (forall fd fd' p, slot_at s fd = Some (Some p) -> slot_at s fd' = Some (Some p) -> fd = fd') ->
  (forall fd p, slot_at s fd = Some (Some p) -> is_Some (states !! p)) ->
  (forall p c u, states !! p = Some c -> u ∈ cn_tunnelUpstreamFds c -> is_Some (slot_at s u)) ->
  table_ok s.
Proof. intros s H1 H2 H3. by split; [apply empty_queue_ok| | | |]. Qed.

(** The entries for the first [n] slots. *)
Definition rebuilt (keepAliveTimeout : Z) (s0 : Connections) (n : Z) (s : Connections) : Prop :=
  table_ok s /\ cs_active s = cs_active s0 /\ cs_states s = cs_states s0
  /\ (length (q_heap (cs_deadlines s)) <= Z.to_nat n)%nat
  /\ forall p x fd, deadlines (cs_deadlines s) !! p = Some (x, fd) <->
       fd <= n /\ slot_at s0 fd = Some (Some p) /\ exists c, cs_states s0 !! p = Some c
       /\ isTunneling c = false /\ x = cn_lastActivity c + keepAliveTimeout.

(** An entry for slot [n + 1]. *)
Lemma rebuilt_step keepAliveTimeout s0 s q n p c p' x fd :
  table_ok s0 -> slot_at s0 (n + 1) = Some (Some p) -> cs_states s0 !! p = Some c ->
  (forall p x fd, deadlines (cs_deadlines s) !! p = Some (x, fd) <->
     fd <= n /\ slot_at s0 fd = Some (Some p) /\ exists c, cs_states s0 !! p = Some c
     /\ isTunneling c = false /\ x = cn_lastActivity c + keepAliveTimeout) ->
  deadlines q = (if isTunneling c then delete p (deadlines (cs_deadlines s))
                 else <[p := (cn_lastActivity c + keepAliveTimeout, n + 1)]> (deadlines (cs_deadlines s))) ->
  deadlines q !! p' = Some (x, fd) <->
    fd <= n + 1 /\ slot_at s0 fd = Some (Some p') /\ exists c, cs_states s0 !! p' = Some c
    /\ isTunneling c = false /\ x = cn_lastActivity c + keepAliveTimeout.
Proof.
  intros T0 Hs Hc HD ->. destruct (decide (p' = p)) as [->|Hne].
  - assert (Hf : slot_at s0 fd = Some (Some p) <-> fd = n + 1).
    { split; [|by intros ->]. intros H. by eapply (to_inj s0 T0). }
    rewrite Hf. destruct (isTunneling c) eqn:Et.
    + rewrite lookup_delete_eq. split; [done|]. intros (_ & _ & c' & Hc' & Ht & _). congruence.
    + rewrite lookup_insert_eq. split; [intros [= <- <-]; split_and!; [lia|done|by exists c]|].
      intros (_ & -> & c' & Hc' & _ & ->). by simplify_eq.
  - replace ((if isTunneling c then _ else _) !! p') with (deadlines (cs_deadlines s) !! p')
      by (destruct (isTunneling c); [by rewrite lookup_delete_ne|by rewrite lookup_insert_ne]).
    rewrite HD. split; intros (H1 & H2 & H3); split_and!; try done; [lia|].
    assert (fd <> n + 1) by congruence. lia.
Qed.

Lemma rebuild_loop_ok keepAliveTimeout s0 slots n s :
  table_ok s0 -> zlen (cs_active s0) <= 2 ^ 31 -> rebuilt keepAliveTimeout s0 n s ->
  0 <= n -> slots = drop (Z.to_nat n) (cs_active s0) ->
  exists s', rebuild_loop true keepAliveTimeout (n + 1) slots s = Some s'
    /\ rebuilt keepAliveTimeout s0 (Z.max n (zlen (cs_active s0))) s'.
Proof.
  intros T0 Hz. revert n s. induction slots as [|o slots IH]; intros n s R Hn E; cbn [rebuild_loop].
  { exists s. split; [done|]. assert (zlen (cs_active s0) <= n) by (unfold zlen; apply (f_equal length) in E;
      rewrite length_drop in E; cbn in E; lia). by rewrite Z.max_l. }
  assert (Ho : cs_active s0 !! Z.to_nat n = Some o).
  { rewrite <- (Nat.add_0_r (Z.to_nat n)), <- lookup_drop, <- E. done. }
  assert (Hs : slot_at s0 (n + 1) = Some o).
  { unfold slot_at. destruct (Z.ltb_spec 0 (n + 1)); [|lia]. by replace (n + 1 - 1) with n by lia. }
  assert (Hrest : slots = drop (Z.to_nat (n + 1)) (cs_active s0)).
  { rewrite (drop_S _ _ _ Ho) in E. injection E as ->. f_equal. lia. }
  assert (Hlen : n < zlen (cs_active s0)) by (apply lookup_lt_Some in Ho; unfold zlen; lia).
  replace (Z.max n (zlen (cs_active s0))) with (Z.max (n + 1) (zlen (cs_active s0))) by lia.
  destruct R as (T & EA & ES & Hl & HD).
  destruct o as [p|].
  2: { apply IH; [|lia|done]. split_and!; [done|done|done|lia|]. intros p x fd. rewrite HD. split; intros (H1 & H2 & H3).
       - split_and!; [lia|done|done].
       - assert (fd <> n + 1) by congruence. split_and!; [lia|done|done]. }
  destruct (to_state s0 T0 _ _ Hs) as [c Hc].
  assert (Hs' : slot_at s (n + 1) = Some (Some p)) by (unfold slot_at in *; by rewrite EA).
  destruct (refresh_ok true keepAliveTimeout s (n + 1) p c T Hs') as (q & -> & Tq & D);
    [by rewrite ES|unfold zlen in *; lia|].
  cbn [mbind option_bind]. apply IH; [|lia|done]. cbn [negb orb] in D.
  split_and!; [done|done|done| |intros p' x fd; by apply (rebuilt_step keepAliveTimeout s0 s q n p c)].
  cbn [set_deadlines cs_deadlines].
  rewrite heap_size, D by apply (to_queue _ Tq). rewrite heap_size in Hl by apply (to_queue _ T).
  assert (Hdel : forall m : gmap positive (Z * Z), (size (delete p m) <= size m)%nat).
  { intros m. destruct (m !! p) eqn:Em; [rewrite map_size_delete_Some by eauto|rewrite map_size_delete_None by done]; lia. }
  destruct (isTunneling c); [specialize (Hdel (deadlines (cs_deadlines s))); lia|].
  destruct (deadlines (cs_deadlines s) !! p) eqn:E0;
    [rewrite map_size_insert_Some by eauto|rewrite map_size_insert_None by done]; lia.
Qed.

(** After a change of the configuration, every open connection but the tunnels is scheduled. *)
Lemma rebuild_ok enableKeepAlive keepAliveTimeout s :
  table_ok s -> zlen (cs_active s) <= 2 ^ 31 ->
  exists s', rebuildKeepAliveDeadlines enableKeepAlive keepAliveTimeout s = Some s' /\ table_ok s'
    /\ forall p x fd, deadlines (cs_deadlines s') !! p = Some (x, fd) <->
         enableKeepAlive = true /\ slot_at s fd = Some (Some p) /\ exists c, cs_states s !! p = Some c
         /\ isTunneling c = false /\ x = cn_lastActivity c + keepAliveTimeout.
Proof.
  intros T Hz. unfold rebuildKeepAliveDeadlines. destruct (clear_ok _ (to_queue s T)) as [Q D].
  assert (T1 : table_ok (set_deadlines (queue_clear (cs_deadlines s)) s)).
  { apply set_deadlines_ok; [done|done|]. intros p x fd. by rewrite D. }
  assert (Hrange : forall fd, is_Some (slot_at s fd) -> 1 <= fd <= zlen (cs_active s)).
  { intros fd. unfold slot_at. destruct (Z.ltb_spec 0 fd); [|by intros [? ?]].
    intros Hl%lookup_lt_is_Some. unfold zlen. lia. }
  destruct enableKeepAlive; cbn [negb].
  2: { eexists. split_and!; [done|done|]. intros p x fd. cbn [set_deadlines cs_deadlines]. rewrite D.
       split; [done|by intros [? _]]. }
  destruct (rebuild_loop_ok keepAliveTimeout s (cs_active s) 0 (set_deadlines (queue_clear (cs_deadlines s)) s))
    as (s' & E & R); [done|done| |lia|done|].
  - split_and!; [done|done|done|cbn; lia|]. intros p x fd. cbn [set_deadlines cs_deadlines]. rewrite D.
    split; [done|]. intros (H & Hs & _). pose proof (Hrange fd ltac:(by rewrite Hs)). lia.
  - exists s'. split_and!; [exact E|apply R|]. intros p x fd. destruct R as (_ & _ & _ & _ & HD). rewrite HD.
    split; intros (H1 & H2 & H3); split_and!; try done. pose proof (Hrange fd ltac:(by rewrite H2)). lia.
Qed.

(** Three connections: one idle, which carries the tunnel of descriptor 3, and one that is not. *)
Definition three_connections : Connections :=
  MkConnections empty_queue [Some 1%positive; Some 2%positive; Some 3%positive]
    (list_to_map [(1%positive, MkConnection 0 kInvalidHandle 0 false [3]);
                  (2%positive, MkConnection 90 kInvalidHandle 0 false []);
                  (3%positive, MkConnection 0 1 5 false [])]).

Lemma three_connections_ok : table_ok three_connections.
Proof.
  assert (Hslot : forall fd o, slot_at three_connections fd = Some o -> (fd = 1 /\ o = Some 1%positive)
            \/ (fd = 2 /\ o = Some 2%positive) \/ (fd = 3 /\ o = Some 3%positive)).
  { intros fd o. unfold slot_at. destruct (Z.ltb_spec 0 fd) as [H|]; [|done].
    destruct (Z.to_nat (fd - 1)) as [|[|[|n]]] eqn:E; cbn [three_connections cs_active lookup list_lookup]; intros [= <-];
      [left|right; left|right; right]; split; try done; lia. }
  apply unscheduled_ok.
  - intros fd fd' p H1%Hslot H2%Hslot. intuition (subst; congruence).
  - intros fd p H%Hslot. intuition (simplify_eq; by eexists).
  - intros p c u Hc. apply elem_of_list_to_map_2 in Hc. repeat setoid_rewrite list_elem_of_In in Hc. cbn in Hc.
    intuition simplify_eq; cbn in *; repeat match goal with H : _ ∈ [_] |- _ => apply list_elem_of_singleton in H; subst
      | H : _ ∈ [] |- _ => by apply elem_of_nil in H end. by eexists.
Qed.

Definition three_scheduled : Connections :=
  default three_connections (rebuildKeepAliveDeadlines true 50 three_connections).

Lemma three_scheduled_ok : table_ok three_scheduled.
Proof.
  destruct (rebuild_ok true 50 three_connections three_connections_ok) as (s & E & T & _); [done|].
  unfold three_scheduled. by rewrite E.
Qed.

Lemma idle_connections_closed_witness :
  option_map (fun r => (fst r, cs_active (snd r), map e_fd (q_heap (cs_deadlines (snd r)))))
    (closeExpiredKeepAliveConnections true 50 100 3 false three_scheduled)
  = Some (true, [None; Some 2%positive; None], [2])
  /\ exists closedAny s',
    closeExpiredKeepAliveConnections true 50 100 (S (length (q_heap (cs_deadlines three_scheduled)))) false three_scheduled
      = Some (closedAny, s')
    /\ table_ok s'
    /\ (forall fd, idle true 50 100 three_scheduled fd -> slot_at s' fd = Some None)
    /\ (forall fd, slot_at s' fd = slot_at three_scheduled fd \/ (slot_at s' fd = Some None /\ closable true 50 100 three_scheduled fd))
    /\ (forall p x fd, deadlines (cs_deadlines s') !! p = Some (x, fd) -> 100 < x).
Proof.
  split; [vm_compute; reflexivity|]. apply idle_connections_closed; [lia|exact three_scheduled_ok].
Defined.
