(* ===== verification/ResponseParser.v ===== *)
(** The HTTP/1 client's incremental parser of responses (client/src/response-parser.cpp, .hpp)
    and the loop that feeds it (exchangeForHttp11 in client/src/http11-connection.cpp).

    The buffer holds every byte received so far and the parser keeps offsets into it.  A
    response is what its setters have been given; [body] may throw, as
    HttpMessage::setBodyHeaders does.  Decompression is a parameter. *)

From S2P Require Import Prelude.
From S2P Require Import AsciiCase.
From S2P Require Import HeadersView.
From S2P Require Import UrlCodec.
From S2P Require Import Http1Request.
From S2P Require Import Http1Body.
From S2P Require Import Cors.
From S2P Require Import RoutePattern.
Local Open Scope Z_scope.

(** ** The response *)

Definition kMaxReasonLength : nat := Z.to_nat (Z.shiftl 1 24 - 1 - 13 - (4 + 29 + 4)).
Definition ContentTypeMinLen : nat := 7.
Definition ContentTypeApplicationOctetStream : bytes := str "application/octet-stream".

Definition header_char (ch : Z) : bool :=
  if (ch =? 13) || (ch =? 10) then false else if ch =? 9 then true else (0x20 <=? ch) && (ch <=? 0x7E).
Definition IsValidHeaderValue (value : bytes) : bool := forallb header_char value.

Record HttpResponse := MkResponse {
  rs_status : Z;
  rs_reason : bytes;
  rs_headers : list (bytes * bytes);
  rs_body : option (bytes * bytes) (* and its content type *)
}.

(** [HttpResponse resp;] *)
Definition new_response : HttpResponse := MkResponse 200 [] [] None.

Definition rs_set_status (code : Z) (r : HttpResponse) : HttpResponse :=
  MkResponse code (rs_reason r) (rs_headers r) (rs_body r).
Definition rs_set_reason (newReason : bytes) (r : HttpResponse) : HttpResponse :=
  MkResponse (rs_status r) (take kMaxReasonLength newReason) (rs_headers r) (rs_body r).
Definition headerAddLineUnchecked (name value : bytes) (r : HttpResponse) : HttpResponse :=
  MkResponse (rs_status r) (rs_reason r) (rs_headers r ++ [(name, value)]) (rs_body r).

Definition rs_headerValueOrEmpty (r : HttpResponse) (name : bytes) : bytes :=
  default [] (option_map snd (List.find (fun h => CaseInsensitiveEqual (fst h) name) (rs_headers r))).

(** The last line of that name goes. *)
Fixpoint remove_first (name : bytes) (l : list (bytes * bytes)) : list (bytes * bytes) :=
  match l with
  | [] => []
  | h :: l => if CaseInsensitiveEqual (fst h) name then l else h :: remove_first name l
  end.
Definition headerRemoveLine (name : bytes) (r : HttpResponse) : HttpResponse :=
  MkResponse (rs_status r) (rs_reason r) (rev (remove_first name (rev (rs_headers r)))) (rs_body r).

Definition CheckContentType (isBodyEmpty : bool) (contentType : bytes) : Outcome bytes :=
  let contentType := TrimOws contentType in
  if negb isBodyEmpty && ((length contentType <? ContentTypeMinLen)%nat || negb (IsValidHeaderValue contentType))
  then Throw "HTTP content-type header value is invalid" else Ret contentType.

Definition rs_set_body (body contentType : bytes) (r : HttpResponse) : Outcome HttpResponse :=
  match CheckContentType (bool_decide (body = [])) contentType with
  | Throw what => Throw what
  | Ret contentType =>
      Ret (MkResponse (rs_status r) (rs_reason r) (rs_headers r)
             (if bool_decide (body = []) then None else Some (body, contentType)))
  end.

(** ** The parser *)

Inductive ParseStatus := SNeedMore | SComplete | SError | SThrows (what : string).

Inductive State := StatusLine | Headers | BodyLength | BodyChunkSize | BodyChunkData | BodyChunkCrlf
  | BodyChunkTrailers | BodyUntilClose | Done.
Inductive Framing := FNone | FLength | FChunked | FUntilClose.

#[export] Instance ParseStatus_eq_dec : EqDecision ParseStatus.
Proof. solve_decision. Defined.
#[export] Instance State_eq_dec : EqDecision State.
Proof. solve_decision. Defined.
#[export] Instance Framing_eq_dec : EqDecision Framing.
Proof. solve_decision. Defined.

Record ResponseParser := MkParser {
  rp_bodyBuf : bytes;
  rp_pos : nat;
  rp_bodyStart : nat;
  rp_contentTypeOff : nat;
  rp_contentTypeLen : nat;
  rp_bodyRemaining : Z;
  rp_framing : Framing;
  rp_state : State;
  rp_statusCode : Z;
  rp_headRequest : bool;
  rp_keepAlive : bool;
  rp_http11 : bool;
  rp_connectionCloseSeen : bool;
  rp_connectionKeepAliveSeen : bool;
  rp_hasContentLength : bool;
  rp_chunked : bool
}.

Definition parser_reset (headRequest : bool) : ResponseParser :=
  MkParser [] 0 0 0 0 0 FNone StatusLine 0 headRequest false false false false false false.

(** Assignments to members. *)
Definition set_pos (pos : nat) (p : ResponseParser) : ResponseParser :=
  MkParser (rp_bodyBuf p) pos (rp_bodyStart p) (rp_contentTypeOff p) (rp_contentTypeLen p) (rp_bodyRemaining p)
    (rp_framing p) (rp_state p) (rp_statusCode p) (rp_headRequest p) (rp_keepAlive p) (rp_http11 p)
    (rp_connectionCloseSeen p) (rp_connectionKeepAliveSeen p) (rp_hasContentLength p) (rp_chunked p).
Definition set_rp_state (s : State) (p : ResponseParser) : ResponseParser :=
  MkParser (rp_bodyBuf p) (rp_pos p) (rp_bodyStart p) (rp_contentTypeOff p) (rp_contentTypeLen p) (rp_bodyRemaining p)
    (rp_framing p) s (rp_statusCode p) (rp_headRequest p) (rp_keepAlive p) (rp_http11 p)
    (rp_connectionCloseSeen p) (rp_connectionKeepAliveSeen p) (rp_hasContentLength p) (rp_chunked p).
Definition set_remaining (n : Z) (p : ResponseParser) : ResponseParser :=
  MkParser (rp_bodyBuf p) (rp_pos p) (rp_bodyStart p) (rp_contentTypeOff p) (rp_contentTypeLen p) n
    (rp_framing p) (rp_state p) (rp_statusCode p) (rp_headRequest p) (rp_keepAlive p) (rp_http11 p)
    (rp_connectionCloseSeen p) (rp_connectionKeepAliveSeen p) (rp_hasContentLength p) (rp_chunked p).
Definition append_body (data : bytes) (p : ResponseParser) : ResponseParser :=
  MkParser (rp_bodyBuf p ++ data) (rp_pos p) (rp_bodyStart p) (rp_contentTypeOff p) (rp_contentTypeLen p)
    (rp_bodyRemaining p) (rp_framing p) (rp_state p) (rp_statusCode p) (rp_headRequest p) (rp_keepAlive p)
    (rp_http11 p) (rp_connectionCloseSeen p) (rp_connectionKeepAliveSeen p) (rp_hasContentLength p) (rp_chunked p).
Definition set_code (code : Z) (http11 : bool) (p : ResponseParser) : ResponseParser :=
  MkParser (rp_bodyBuf p) (rp_pos p) (rp_bodyStart p) (rp_contentTypeOff p) (rp_contentTypeLen p) (rp_bodyRemaining p)
    (rp_framing p) (rp_state p) code (rp_headRequest p) (rp_keepAlive p) http11
    (rp_connectionCloseSeen p) (rp_connectionKeepAliveSeen p) (rp_hasContentLength p) (rp_chunked p).
Definition set_content_type (off len : nat) (p : ResponseParser) : ResponseParser :=
  MkParser (rp_bodyBuf p) (rp_pos p) (rp_bodyStart p) off len (rp_bodyRemaining p)
    (rp_framing p) (rp_state p) (rp_statusCode p) (rp_headRequest p) (rp_keepAlive p) (rp_http11 p)
    (rp_connectionCloseSeen p) (rp_connectionKeepAliveSeen p) (rp_hasContentLength p) (rp_chunked p).
Definition set_content_length (len : Z) (p : ResponseParser) : ResponseParser :=
  MkParser (rp_bodyBuf p) (rp_pos p) (rp_bodyStart p) (rp_contentTypeOff p) (rp_contentTypeLen p) len
    (rp_framing p) (rp_state p) (rp_statusCode p) (rp_headRequest p) (rp_keepAlive p) (rp_http11 p)
    (rp_connectionCloseSeen p) (rp_connectionKeepAliveSeen p) true (rp_chunked p).
Definition set_chunked (b : bool) (p : ResponseParser) : ResponseParser :=
  MkParser (rp_bodyBuf p) (rp_pos p) (rp_bodyStart p) (rp_contentTypeOff p) (rp_contentTypeLen p) (rp_bodyRemaining p)
    (rp_framing p) (rp_state p) (rp_statusCode p) (rp_headRequest p) (rp_keepAlive p) (rp_http11 p)
    (rp_connectionCloseSeen p) (rp_connectionKeepAliveSeen p) (rp_hasContentLength p) b.
Definition set_seen (close keepAlive : bool) (p : ResponseParser) : ResponseParser :=
  MkParser (rp_bodyBuf p) (rp_pos p) (rp_bodyStart p) (rp_contentTypeOff p) (rp_contentTypeLen p) (rp_bodyRemaining p)
    (rp_framing p) (rp_state p) (rp_statusCode p) (rp_headRequest p) (rp_keepAlive p) (rp_http11 p)
    close keepAlive (rp_hasContentLength p) (rp_chunked p).
(** After an interim response. *)
Definition restart (p : ResponseParser) : ResponseParser :=
  MkParser (rp_bodyBuf p) (rp_pos p) (rp_bodyStart p) (rp_contentTypeOff p) 0 (rp_bodyRemaining p)
    (rp_framing p) StatusLine (rp_statusCode p) (rp_headRequest p) (rp_keepAlive p) (rp_http11 p)
    false false false false.
(** The decision on the body. *)
Definition framed (f : Framing) (s : State) (keepAlive : bool) (p : ResponseParser) : ResponseParser :=
  MkParser (rp_bodyBuf p) (rp_pos p) (rp_pos p) (rp_contentTypeOff p) (rp_contentTypeLen p) (rp_bodyRemaining p)
    f s (rp_statusCode p) (rp_headRequest p) keepAlive (rp_http11 p)
    (rp_connectionCloseSeen p) (rp_connectionKeepAliveSeen p) (rp_hasContentLength p) (rp_chunked p).

(** ** Values of headers *)

Definition LastTransferEncodingIsChunked (value : bytes) : bool :=
  let last := match memchr_pos 44 (rev value) with
              | None => value
              | Some n => drop (length value - n) value
              end in
  CaseInsensitiveEqual (TrimOws last) (str "chunked").

Fixpoint ScanConnectionTokens (fuel : nat) (value : bytes) (closeSeen keepAliveSeen : bool) : bool * bool :=
  match fuel, value with
  | O, _ | _, [] => (closeSeen, keepAliveSeen)
  | S fuel, _ =>
      let comma := memchr_pos 44 value in
      let token := TrimOws (match comma with Some n => take n value | None => value end) in
      let '(closeSeen, keepAliveSeen) :=
        if CaseInsensitiveEqual token (str "close") then (true, keepAliveSeen)
        else if CaseInsensitiveEqual token (str "keep-alive") then (closeSeen, true)
        else (closeSeen, keepAliveSeen) in
      match comma with
      | None => (closeSeen, keepAliveSeen)
      | Some n => ScanConnectionTokens fuel (drop (S n) value) closeSeen keepAliveSeen
      end
  end.

(** [std::from_chars] on the whole text: an [int16_t], and a [size_t] in base 16. *)
Definition from_chars_int16 (l : bytes) : option Z :=
  let '(neg, digits) := match l with 45 :: l => (true, l) | _ => (false, l) end in
  match digits with
  | [] => None
  | _ =>
      match digits_value 0 digits with
      | Some v => let v := if neg : bool then - v else v in
                  if (-32768 <=? v) && (v <=? 32767) then Some v else None
      | None => None
      end
  end.

Fixpoint hex_value (acc : Z) (l : bytes) : option Z :=
  match l with
  | [] => Some acc
  | c :: l => if from_hex_digit c <? 0 then None else hex_value (acc * 16 + from_hex_digit c) l
  end.

Definition from_chars_hex (l : bytes) : option Z :=
  match l with
  | [] => None
  | _ => match hex_value 0 l with Some v => if v <? 2 ^ 64 then Some v else None | None => None end
  end.

(** ** The head *)

Definition strip_cr (line : bytes) : bytes :=
  match last line with Some 13 => take (length line - 1) line | _ => line end.

Definition decideFraming (p : ResponseParser) : ParseStatus * ResponseParser :=
  let keepAlive := if rp_connectionCloseSeen p then false
                   else if rp_connectionKeepAliveSeen p then true else rp_http11 p in
  if rp_headRequest p || (rp_statusCode p =? 204) || (rp_statusCode p =? 304) then
    (SComplete, framed FNone Done keepAlive p)
  else if rp_chunked p then (SNeedMore, framed FChunked BodyChunkSize keepAlive p)
  else if rp_hasContentLength p then
    if rp_bodyRemaining p =? 0 then (SComplete, framed FLength Done keepAlive p)
    else (SNeedMore, framed FLength BodyLength keepAlive p)
  else (SNeedMore, framed FUntilClose BodyUntilClose false p).

(** What follows the version in a status line; [None] is an error. *)
Definition parse_status (afterVersion : bytes) (http11 : bool) (p : ResponseParser) (resp : HttpResponse)
  : option (ResponseParser * HttpResponse) :=
  let sp2 := memchr_pos 32 afterVersion in
  let codeTok := match sp2 with None => afterVersion | Some n => take n afterVersion end in
  code ← from_chars_int16 codeTok;
  if (code <? 100) || (599 <? code) then None
  else
    let resp := rs_set_status code resp in
    let resp := match sp2 with
                | None => resp
                | Some n => rs_set_reason (TrimOws (drop (S n) afterVersion)) resp
                end in
    Some (set_rp_state Headers (set_code code http11 p), resp).

Definition parse_status_line (line : bytes) (p : ResponseParser) (resp : HttpResponse)
  : option (ResponseParser * HttpResponse) :=
  sp1 ← memchr_pos 32 line;
  let version := Version_of (take sp1 line) in
  if negb (isValid version) then None
  else parse_status (drop (S sp1) line) (version =? HTTP_1_1) p resp.

(** A header line, which starts at [lineStart] in the buffer. *)
Definition parse_header (line : bytes) (lineStart : nat) (p : ResponseParser) (resp : HttpResponse)
  : option (ResponseParser * HttpResponse) :=
  colon ← memchr_pos 58 line;
  if Nat.eqb colon 0 then None
  else
    let name := take colon line in
    let raw := drop (S colon) line in
    let value := TrimOws raw in
    if CaseInsensitiveEqual name (str "content-type") then
      (* an empty value is never read: its offset is not kept *)
      let valueOff := (lineStart + S colon + (length raw - length (trim_left raw)))%nat in
      Some (set_content_type (if bool_decide (value = []) then 0 else valueOff)%nat (length value) p, resp)
    else if CaseInsensitiveEqual name (str "content-length") then
      len ← from_chars_size value; Some (set_content_length len p, resp)
    else if CaseInsensitiveEqual name (str "transfer-encoding") then
      Some (set_chunked (LastTransferEncodingIsChunked value) p, resp)
    else
      let p :=
        if CaseInsensitiveEqual name (str "connection") then
          let '(close, keepAlive) := ScanConnectionTokens (S (length value)) value
                                       (rp_connectionCloseSeen p) (rp_connectionKeepAliveSeen p) in
          set_seen close keepAlive p
        else p in
      Some (p, headerAddLineUnchecked name value resp).

Section Parse.
(** The decompression of a body, when it is enabled: the coding, then the bytes. *)
Context (decompress : option (bytes -> bytes -> option bytes)).

Definition of_outcome (resp : HttpResponse) (o : Outcome HttpResponse) : ParseStatus * HttpResponse :=
  match o with Ret resp => (SComplete, resp) | Throw what => (SThrows what, resp) end.

Definition installBody (p : ResponseParser) (buffer : bytes) (resp : HttpResponse) : ParseStatus * HttpResponse :=
  if bool_decide (rp_framing p = FNone) then (SComplete, resp)
  else
    let contentType := if Nat.eqb (rp_contentTypeLen p) 0 then ContentTypeApplicationOctetStream
                       else substr buffer (rp_contentTypeOff p) (rp_contentTypeLen p) in
    let body := if bool_decide (rp_framing p = FChunked) then rp_bodyBuf p
                else substr buffer (rp_bodyStart p) (rp_pos p - rp_bodyStart p) in
    match decompress with
    | Some decode =>
        let contentEncoding := rs_headerValueOrEmpty resp (str "content-encoding") in
        if bool_decide (contentEncoding = []) then of_outcome resp (rs_set_body body contentType resp)
        else
          match decode contentEncoding body with
          | None => (SError, resp)
          | Some decoded =>
              let resp := headerRemoveLine (str "content-encoding") resp in
              of_outcome resp (rs_set_body decoded contentType resp)
          end
    | None => of_outcome resp (rs_set_body body contentType resp)
    end.

(** What an iteration does: go on, return, or leave the loop. *)
Inductive HeadStep := HContinue | HReturn (s : ParseStatus) | HBreak.
Definition head_result : Type := HeadStep * ResponseParser * HttpResponse.

Definition head_line (buffer : bytes) (eof : bool) (maxResponseBytes : Z) (p : ResponseParser)
  (resp : HttpResponse) : head_result :=
  match find_char 10 buffer (rp_pos p) with
  | None =>
      if maxResponseBytes <? zlen buffer then (HReturn SError, p, resp)
      else (HReturn (if eof then SError else SNeedMore), p, resp)
  | Some nl =>
      let lineStart := rp_pos p in
      let line := strip_cr (substr buffer lineStart (nl - lineStart)) in
      let p := set_pos (S nl) p in
      if maxResponseBytes <? Z.of_nat (S nl) then (HReturn SError, p, resp)
      else if bool_decide (rp_state p = StatusLine) then
        match parse_status_line line p resp with
        | None => (HReturn SError, p, resp)
        | Some (p, resp) => (HContinue, p, resp)
        end
      else if bool_decide (line = []) then
        if rp_statusCode p <? 200 then (HContinue, restart p, resp)
        else
          let '(s, p) := decideFraming p in
          if bool_decide (s = SComplete) then
            let '(s, resp) := installBody p buffer resp in (HReturn s, p, resp)
          else (HBreak, p, resp)
      else
        match parse_header line lineStart p resp with
        | None => (HReturn SError, p, resp)
        | Some (p, resp) => (HContinue, p, resp)
        end
  end.

Fixpoint head_loop (fuel : nat) (buffer : bytes) (eof : bool) (maxResponseBytes : Z) (p : ResponseParser)
  (resp : HttpResponse) : option head_result :=
  if bool_decide (rp_state p = StatusLine) || bool_decide (rp_state p = Headers) then
    match fuel with
    | O => None
    | S fuel =>
        match head_line buffer eof maxResponseBytes p resp with
        | (HContinue, p, resp) => head_loop fuel buffer eof maxResponseBytes p resp
        | r => Some r
        end
    end
  else Some (HBreak, p, resp).

(** ** The body *)

Definition eof_status (eof : bool) : ParseStatus := if eof then SError else SNeedMore.
Definition available (buffer : bytes) (p : ResponseParser) : Z := zlen buffer - Z.of_nat (rp_pos p).

Fixpoint trailer_loop (fuel : nat) (buffer : bytes) (eof : bool) (p : ResponseParser)
  : option (ParseStatus * ResponseParser) :=
  match fuel with
  | O => None
  | S fuel =>
      match find_char 10 buffer (rp_pos p) with
      | None => Some (eof_status eof, p)
      | Some nl =>
          let line := substr buffer (rp_pos p) (nl - rp_pos p) in
          let emptyLine := bool_decide (line = []) || bool_decide (line = [13]) in
          let p := set_pos (S nl) p in
          if emptyLine then Some (SComplete, set_rp_state Done p) else trailer_loop fuel buffer eof p
      end
  end.

(** One round of the loop on chunks, before the trailers: [inl] goes on. *)
Definition chunk_round (buffer : bytes) (eof : bool) (maxResponseBytes : Z) (p : ResponseParser)
  : ResponseParser + ParseStatus * ResponseParser :=
  match rp_state p with
  | BodyChunkSize =>
      match find_char 10 buffer (rp_pos p) with
      | None => inr (eof_status eof, p)
      | Some nl =>
          let line := strip_cr (substr buffer (rp_pos p) (nl - rp_pos p)) in
          let line := match memchr_pos 59 line with Some semi => take semi line | None => line end in
          match from_chars_hex (TrimOws line) with
          | None => inr (SError, p)
          | Some chunkSize =>
              let p := set_pos (S nl) p in
              inl (if chunkSize =? 0 then set_rp_state BodyChunkTrailers p
                   else set_rp_state BodyChunkData (set_remaining chunkSize p))
          end
      end
  | BodyChunkData =>
      let take_ := Z.min (available buffer p) (rp_bodyRemaining p) in
      if maxResponseBytes <? zlen (rp_bodyBuf p) + take_ then inr (SError, p)
      else
        let p := append_body (substr buffer (rp_pos p) (Z.to_nat take_)) p in
        let p := set_pos (rp_pos p + Z.to_nat take_) p in
        let p := set_remaining (rp_bodyRemaining p - take_) p in
        if negb (rp_bodyRemaining p =? 0) then inr (eof_status eof, p)
        else inl (set_rp_state BodyChunkCrlf p)
  | _ => (* BodyChunkCrlf *)
      match find_char 10 buffer (rp_pos p) with
      | None => inr (eof_status eof, p)
      | Some nl => inl (set_rp_state BodyChunkSize (set_pos (S nl) p))
      end
  end.

Fixpoint chunk_rounds (fuel : nat) (buffer : bytes) (eof : bool) (maxResponseBytes : Z) (p : ResponseParser)
  : option (ParseStatus * ResponseParser) :=
  if bool_decide (rp_state p = BodyChunkTrailers) then trailer_loop (S (length buffer)) buffer eof p
  else
    match fuel with
    | O => None
    | S fuel =>
        match chunk_round buffer eof maxResponseBytes p with
        | inl p => chunk_rounds fuel buffer eof maxResponseBytes p
        | inr r => Some r
        end
    end.

Definition parseBody (buffer : bytes) (eof : bool) (maxResponseBytes : Z) (p : ResponseParser)
  : option (ParseStatus * ResponseParser) :=
  match rp_framing p with
  | FLength =>
      let take_ := Z.min (available buffer p) (rp_bodyRemaining p) in
      if maxResponseBytes <? Z.of_nat (rp_pos p) - Z.of_nat (rp_bodyStart p) + take_ then Some (SError, p)
      else
        let p := set_remaining (rp_bodyRemaining p - take_) (set_pos (rp_pos p + Z.to_nat take_) p) in
        if rp_bodyRemaining p =? 0 then Some (SComplete, set_rp_state Done p)
        else Some (eof_status eof, p)
  | FUntilClose =>
      if maxResponseBytes <? Z.of_nat (rp_pos p) - Z.of_nat (rp_bodyStart p) + available buffer p
      then Some (SError, p)
      else
        let p := set_pos (rp_pos p + Z.to_nat (available buffer p)) p in
        if eof then Some (SComplete, set_rp_state Done p) else Some (SNeedMore, p)
  | _ => chunk_rounds (S (S (2 * length buffer))) buffer eof maxResponseBytes p
  end.

Definition finish_body (buffer : bytes) (resp : HttpResponse) (r : ParseStatus * ResponseParser)
  : ParseStatus * ResponseParser * HttpResponse :=
  let '(s, p) := r in
  if bool_decide (s = SComplete) then let '(s, resp) := installBody p buffer resp in (s, p, resp)
  else (s, p, resp).

Definition parse (buffer : bytes) (eof : bool) (maxResponseBytes : Z) (p : ResponseParser)
  (resp : HttpResponse) : option (ParseStatus * ResponseParser * HttpResponse) :=
  match head_loop (S (length buffer)) buffer eof maxResponseBytes p resp with
  | None => None
  | Some (HReturn s, p, resp) => Some (s, p, resp)
  | Some (_, p, resp) =>
      if bool_decide (rp_state p = Done) then Some (SComplete, p, resp)
      else option_map (finish_body buffer resp) (parseBody buffer eof maxResponseBytes p)
  end.

(** ** The exchange *)

(** The reads of the transport, then the end of the stream.  The result is that of the last
    call, or [None] when the loop would call the parser again after the end. *)
Fixpoint exchange (reads : list bytes) (responseBuffer : bytes) (maxResponseBytes : Z) (p : ResponseParser)
  (resp : HttpResponse) : option (ParseStatus * ResponseParser * HttpResponse) :=
  match parse responseBuffer false maxResponseBytes p resp with
  | Some (SNeedMore, p, resp) =>
      match reads with
      | [] => parse responseBuffer true maxResponseBytes p resp
      | data :: reads => exchange reads (responseBuffer ++ data) maxResponseBytes p resp
      end
  | r => r
  end.
End Parse.

(** ** Findings *)

(** The headers of an interim response, and its reason, stay in the final one. *)
Lemma interim_response_leaks :
  option_map (fun r => (fst (fst r), snd r))
    (exchange None [str "HTTP/1.1 103 Early Hints" ++ CRLF ++ str "Link: </a.css>" ++ CRLF ++ CRLF
                    ++ str "HTTP/1.1 200" ++ CRLF ++ str "Content-Length: 2" ++ CRLF ++ CRLF ++ str "ok"]
       [] 1000 (parser_reset false) new_response)
  = Some (SComplete, MkResponse 200 (str "Early Hints") [(str "Link", str "</a.css>")]
                       (Some (str "ok", ContentTypeApplicationOctetStream))).
Proof. vm_compute. reflexivity. Qed.

(** A short content type makes the parser throw, although errors of the peer should not. *)
Lemma short_content_type_throws :
  exists p resp, exchange None [str "HTTP/1.1 200 OK" ++ CRLF ++ str "Content-Type: a/b" ++ CRLF
                 ++ str "Content-Length: 2" ++ CRLF ++ CRLF ++ str "ok"]
    [] 1000 (parser_reset false) new_response
  = Some (SThrows "HTTP content-type header value is invalid", p, resp).
Proof. eexists _, _. vm_compute. reflexivity. Qed.

(** Two different lengths: the last one counts. *)
Lemma conflicting_lengths_accepted :
  option_map (fun r => (fst (fst r), rs_body (snd r)))
    (exchange None [str "HTTP/1.1 200 OK" ++ CRLF ++ str "Content-Length: 5" ++ CRLF
                    ++ str "Content-Length: 2" ++ CRLF ++ CRLF ++ str "ok123"]
       [] 1000 (parser_reset false) new_response)
  = Some (SComplete, Some (str "ok", ContentTypeApplicationOctetStream)).
Proof. vm_compute. reflexivity. Qed.
