(* ===== verification/ResponseParserProofs.v ===== *)
(** How the transport cuts a response does not matter: the exchange gives what one call of the
    parser gives on all the bytes at the end of the stream, and always gives something. *)

From S2P Require Import Prelude.
From S2P Require Import AsciiCase.
From S2P Require Import HeadersView.
From S2P Require Import Http1Request.
From S2P Require Import Http1Body.
From S2P Require Import Cors.
From S2P Require Import RoutePattern.
From S2P Require Import RoutePatternProofs.
From S2P Require Import ResponseParser.
Local Open Scope Z_scope.

(** ** Searches in a buffer that grows *)

Lemma find_char_lt c b pos nl : find_char c b pos = Some nl -> (pos <= nl < length b)%nat.
Proof.
  unfold find_char. destruct (memchr_pos c (drop pos b)) as [k|] eqn:E; [|done]. cbn. intros [= <-].
  apply memchr_pos_Some in E as (x & y & E & <- & _). apply (f_equal length) in E.
  rewrite length_drop, length_app in E. cbn in E. lia.
Qed.

Lemma find_char_app c b d pos nl : find_char c b pos = Some nl -> find_char c (b ++ d) pos = Some nl.
Proof.
  intros H. pose proof (find_char_lt _ _ _ _ H). unfold find_char in *.
  destruct (memchr_pos c (drop pos b)) as [k|] eqn:E; [|done]. rewrite drop_app_le by lia.
  apply memchr_pos_Some in E as (x & y & -> & <- & Hx). rewrite <- app_assoc. cbn [app].
  by rewrite memchr_pos_app.
Qed.

Lemma find_char_app_none c b d pos nl :
  find_char c b pos = None -> (pos <= length b)%nat -> find_char c (b ++ d) pos = Some nl -> (length b <= nl)%nat.
Proof.
  intros H Hp H'. destruct (decide (length b <= nl)%nat) as [|Hlt]; [done|exfalso].
  unfold find_char in *. destruct (memchr_pos c (drop pos b)) eqn:E; [done|].
  apply memchr_pos_None in E. rewrite drop_app_le in H' by done.
  destruct (memchr_pos c (drop pos b ++ d)) as [k|] eqn:E'; [|done]. cbn in H'. injection H' as <-.
  apply memchr_pos_Some in E' as (x & y & E' & <- & _).
  assert (Hin : drop pos b !! length x = Some c).
  { rewrite <- (lookup_app_l _ d) by (rewrite length_drop; lia). rewrite E'. by rewrite lookup_app_r, Nat.sub_diag by lia. }
  apply list_elem_of_lookup_2 in Hin. rewrite Forall_forall in E. by apply (E c).
Qed.

Lemma substr_app b d pos n : (pos + n <= length b)%nat -> substr (b ++ d) pos n = substr b pos n.
Proof. intros H. unfold substr. by rewrite drop_app_le, take_app_le by (rewrite ?length_drop; lia). Qed.

Lemma length_substr b pos n : (pos + n <= length b)%nat -> length (substr b pos n) = n.
Proof. intros H. unfold substr. rewrite length_take, length_drop. lia. Qed.

Lemma length_strip_cr line : (length (strip_cr line) <= length line)%nat.
Proof.
  assert (H : (length (take (length line - 1) line) <= length line)%nat) by (rewrite length_take; lia).
  unfold strip_cr. destruct (last line) as [c|]; [|lia]. by repeat (case_match; try lia).
Qed.

Lemma length_trim_left l : (length (trim_left l) <= length l)%nat.
Proof. induction l as [|c l IH]; cbn; [lia|]. destruct (isWhitespace c); cbn; lia. Qed.

Lemma length_TrimOws l : (length (TrimOws l) <= length (trim_left l))%nat.
Proof.
  unfold TrimOws. destruct l as [|c l]; [done|]. destruct (negb (isWhitespace c) && _) eqn:E.
  - apply andb_true_iff in E as [E _]. apply negb_true_iff in E. cbn [trim_left]. by rewrite E.
  - rewrite length_rev. etrans; [apply length_trim_left|]. by rewrite length_rev.
Qed.

(** ** What the parser maintains *)

Definition framing_of (s : State) (f : Framing) : Prop :=
  match s with
  | BodyLength => f = FLength
  | BodyUntilClose => f = FUntilClose
  | BodyChunkSize | BodyChunkData | BodyChunkCrlf | BodyChunkTrailers => f = FChunked
  | StatusLine | Headers | Done => True
  end.

(** The offsets are within what has been read. *)
Record parser_ok (b : bytes) (p : ResponseParser) : Prop := {
  po_pos : (rp_pos p <= length b)%nat;
  po_start : (rp_bodyStart p <= rp_pos p)%nat;
  po_type : (rp_contentTypeOff p + rp_contentTypeLen p <= rp_pos p)%nat;
  po_remaining : 0 <= rp_bodyRemaining p;
  po_framing : framing_of (rp_state p) (rp_framing p)
}.

Lemma parser_ok_app b d p : parser_ok b p -> parser_ok (b ++ d) p.
Proof. intros [? ? ? ? ?]. split; try done. rewrite length_app. lia. Qed.

Lemma parser_ok_reset head b : parser_ok b (parser_reset head).
Proof. split; cbn; try lia; done. Qed.

Lemma set_pos_ok b p n : parser_ok b p -> (rp_pos p <= n <= length b)%nat -> parser_ok b (set_pos n p).
Proof. intros [? ? ? ? ?] Hn. split; cbn; try done; lia. Qed.

Lemma set_rp_state_ok b p s : parser_ok b p -> framing_of s (rp_framing p) -> parser_ok b (set_rp_state s p).
Proof. intros [? ? ? ? ?] Hs. by split. Qed.

Lemma digits_value_nonneg l acc v : 0 <= acc -> digits_value acc l = Some v -> 0 <= v.
Proof.
  revert acc. induction l as [|c l IH]; intros acc Ha; cbn; [by intros [= <-]|].
  destruct (Z.leb_spec 48 c); [|done]. destruct (Z.leb_spec c 57); [|done]. apply IH. lia.
Qed.

Lemma from_chars_size_nonneg l v : from_chars_size l = Some v -> 0 <= v.
Proof.
  unfold from_chars_size. destruct l; [done|]. destruct (digits_value 0 _) as [w|] eqn:E; [|done].
  apply digits_value_nonneg in E; [|lia]. ztest; [|done]. by intros [= <-].
Qed.

Lemma hex_value_nonneg l acc v : 0 <= acc -> hex_value acc l = Some v -> 0 <= v.
Proof.
  revert acc. induction l as [|c l IH]; intros acc Ha; cbn; [by intros [= <-]|].
  destruct (Z.ltb_spec (UrlCodec.from_hex_digit c) 0); [done|]. apply IH. lia.
Qed.

Lemma from_chars_hex_nonneg l v : from_chars_hex l = Some v -> 0 <= v.
Proof.
  unfold from_chars_hex. destruct l; [done|]. destruct (hex_value 0 _) as [w|] eqn:E; [|done].
  apply hex_value_nonneg in E; [|lia]. ztest; [|done]. by intros [= <-].
Qed.

Lemma parse_status_line_ok b line p resp p' resp' :
  parser_ok b p -> parse_status_line line p resp = Some (p', resp') ->
  parser_ok b p' /\ rp_pos p' = rp_pos p /\ rp_state p' = Headers.
Proof.
  intros H. unfold parse_status_line, parse_status. destruct (memchr_pos 32 line) as [n|]; [|done]. cbn [mbind option_bind].
  destruct (negb _); [done|]. destruct (from_chars_int16 _) as [c|]; [|done]. cbn [mbind option_bind].
  destruct (_ || _); [done|]. intros [= <- _]. destruct H. by repeat split.
Qed.

Lemma parse_header_ok b line start p resp p' resp' :
  parser_ok b p -> (start + length line <= rp_pos p)%nat -> parse_header line start p resp = Some (p', resp') ->
  parser_ok b p' /\ rp_pos p' = rp_pos p /\ rp_state p' = rp_state p.
Proof.
  intros H Hl. unfold parse_header. destruct (memchr_pos 58 line) as [n|] eqn:En; [|done]. cbn [mbind option_bind].
  destruct (Nat.eqb n 0); [done|]. apply memchr_pos_Some in En as (x & y & -> & <- & _).
  rewrite length_app in Hl. cbn [length] in Hl.
  replace (drop (S (length x)) (x ++ 58 :: y)) with y
    by (rewrite drop_app_ge by lia; replace (S (length x) - length x)%nat with 1%nat by lia; done).
  destruct (CaseInsensitiveEqual _ (str "content-type")).
  { intros [= <- _]. destruct H as [? ? ? ? ?]. split; [|done]. split; cbn; try done.
    pose proof (length_TrimOws y). pose proof (length_trim_left y). case_bool_decide as Ev; [rewrite Ev; cbn; lia|lia]. }
  destruct (CaseInsensitiveEqual _ (str "content-length")).
  { destruct (from_chars_size _) as [v|] eqn:Ev; [|done]. cbn [mbind option_bind]. intros [= <- _].
    apply from_chars_size_nonneg in Ev. destruct H. by repeat split. }
  destruct (CaseInsensitiveEqual _ (str "transfer-encoding")).
  { intros [= <- _]. destruct H. by repeat split. }
  destruct (CaseInsensitiveEqual _ (str "connection")); [destruct (ScanConnectionTokens _ _ _ _)|];
    intros [= <- _]; destruct H; by repeat split.
Qed.

Lemma decideFraming_ok b p s p' :
  parser_ok b p -> decideFraming p = (s, p') ->
  parser_ok b p' /\ rp_pos p' = rp_pos p /\ (s = SComplete \/ (s = SNeedMore /\ rp_state p' <> Done /\ rp_state p' <> StatusLine /\ rp_state p' <> Headers)).
Proof.
  intros [? ? ? ? ?] E. unfold decideFraming in E.
  repeat match type of E with context [if ?c then _ else _] => destruct c end;
    injection E as <- <-; (split; [split; cbn; try done; lia|]); (split; [done|]); auto; right; by split_and!.
Qed.

Section Split.
Context (decompress : option (bytes -> bytes -> option bytes)) (maxResponseBytes : Z).
Local Abbreviation head_line := (head_line decompress).
Local Abbreviation head_loop := (head_loop decompress).
Local Abbreviation parse := (parse decompress).
Local Abbreviation installBody := (installBody decompress).

Definition in_head (p : ResponseParser) : Prop := rp_state p = StatusLine \/ rp_state p = Headers.

Lemma in_head_test p :
  bool_decide (rp_state p = StatusLine) || bool_decide (rp_state p = Headers) = bool_decide (in_head p).
Proof. unfold in_head. repeat case_bool_decide; try done; tauto. Qed.

Lemma installBody_app b d p resp : parser_ok b p -> installBody p (b ++ d) resp = installBody p b resp.
Proof.
  intros [? ? ? ? ?]. unfold ResponseParser.installBody.
  rewrite (substr_app b d (rp_contentTypeOff p)), (substr_app b d (rp_bodyStart p)) by lia. done.
Qed.

(** ** The head *)

(** A line that is there is treated alike when more follows. *)
Lemma head_line_app b d eof nl p resp :
  parser_ok b p -> find_char 10 b (rp_pos p) = Some nl ->
  head_line (b ++ d) eof maxResponseBytes p resp = head_line b false maxResponseBytes p resp.
Proof.
  intros H E. unfold ResponseParser.head_line. rewrite (find_char_app _ _ d _ _ E), E.
  apply find_char_lt in E. rewrite substr_app by lia.
  destruct (maxResponseBytes <? _); [done|]. destruct (bool_decide _); [done|]. destruct (bool_decide _); [|done].
  destruct (rp_statusCode _ <? _); [done|].
  destruct (decideFraming _) as [s p'] eqn:Ed. apply (decideFraming_ok b) in Ed as (H' & _); [|apply set_pos_ok; [done|lia]].
  by rewrite installBody_app.
Qed.

Lemma head_line_ok b eof p resp x p' resp' :
  parser_ok b p -> in_head p -> head_line b eof maxResponseBytes p resp = (x, p', resp') ->
  parser_ok b p' /\
  match x with
  | HContinue => in_head p' /\ (rp_pos p < rp_pos p')%nat
  | HReturn SNeedMore => p' = p /\ resp' = resp /\ find_char 10 b (rp_pos p) = None
  | HReturn _ => True
  | HBreak => ~ in_head p' /\ rp_state p' <> Done
  end.
Proof.
  intros H Hs. unfold ResponseParser.head_line. destruct (find_char 10 b (rp_pos p)) as [nl|] eqn:E.
  2: { destruct (maxResponseBytes <? _), eof; intros [= <- <- <-]; by split. }
  apply find_char_lt in E. assert (Hp : parser_ok b (set_pos (S nl) p)) by (apply set_pos_ok; [done|lia]).
  destruct (maxResponseBytes <? _); [by intros [= <- <- <-]|].
  set (line := strip_cr _). assert (Hlen : (rp_pos p + length line <= S nl)%nat).
  { pose proof (length_strip_cr (substr b (rp_pos p) (nl - rp_pos p))) as Hl.
    rewrite length_substr in Hl by lia. subst line. lia. }
  destruct (bool_decide _) eqn:Est.
  { destruct (parse_status_line _ _ _) as [[p1 r1]|] eqn:Ep; [|by intros [= <- <- <-]].
    apply (parse_status_line_ok b) in Ep as (H1 & Hp1 & Hs1); [|done]. intros [= <- <- <-].
    split; [done|]. split; [by right|]. rewrite Hp1. cbn. lia. }
  destruct (bool_decide (line = [])).
  - destruct (_ <? 200).
    { intros [= <- <- <-]. destruct Hp. split; [split; cbn in *; try done; lia|]. split; [by left|cbn; lia]. }
    destruct (decideFraming _) as [s p1] eqn:Ed. apply (decideFraming_ok b) in Ed as (H1 & Hp1 & [->|(-> & Hd & Hn1 & Hn2)]); [| |done].
    + rewrite bool_decide_true by done. unfold ResponseParser.installBody, of_outcome.
      repeat case_match; intros; simplify_eq; by split.
    + cbn. intros [= <- <- <-]. split; [done|]. split; [|done]. by intros [?|?].
  - destruct (parse_header _ _ _ _) as [[p1 r1]|] eqn:Ep; [|by intros [= <- <- <-]].
    apply (parse_header_ok b) in Ep as (H1 & Hp1 & Hs1); [|done|cbn; lia]. intros [= <- <- <-].
    split; [done|]. unfold in_head. rewrite Hs1, Hp1. split; [done|cbn; lia].
Qed.

Lemma head_loop_more f f' b eof p resp r :
  head_loop f b eof maxResponseBytes p resp = Some r -> (f <= f')%nat ->
  head_loop f' b eof maxResponseBytes p resp = Some r.
Proof.
  revert f' p resp. induction f as [|f IH]; intros f' p resp; cbn [ResponseParser.head_loop].
  - intros E _. destruct f'; cbn [ResponseParser.head_loop]; by destruct (_ || _).
  - intros E Hf. destruct f' as [|f']; [lia|]. cbn [ResponseParser.head_loop]. destruct (_ || _); [|done].
    destruct (head_line _ _ _ _ _) as [[x p1] r1]. destruct x; [|done..]. apply IH; [done|lia].
Qed.

Lemma head_loop_total f b eof p resp :
  parser_ok b p -> (length b - rp_pos p < f)%nat ->
  exists x p' resp', head_loop f b eof maxResponseBytes p resp = Some (x, p', resp') /\ parser_ok b p'
    /\ match x with
       | HContinue => False
       | HReturn s => in_head p /\ (s = SNeedMore -> in_head p' /\ find_char 10 b (rp_pos p') = None)
       | HBreak => ~ in_head p' /\ (rp_state p' = Done -> p' = p /\ resp' = resp)
       end.
Proof.
  revert p resp. induction f as [|f IH]; intros p resp H Hf; [lia|]. cbn [ResponseParser.head_loop].
  rewrite in_head_test. case_bool_decide as Hh; [|by exists HBreak, p, resp].
  destruct (head_line b eof maxResponseBytes p resp) as [[x p1] r1] eqn:E.
  pose proof E as E'. apply head_line_ok in E' as [H1 Hx]; [|done|done]. destruct x as [|s|].
  - destruct Hx as [Hh1 Hlt]. pose proof (po_pos _ _ H1).
    destruct (IH p1 r1 H1) as (x & p' & r' & -> & H' & Hx); [lia|]. exists x, p', r'. split_and!; [done|done|].
    destruct x; [done| |]; [by split; [|apply Hx]|]. split; [apply Hx|]. intros Hd. destruct Hx as [_ Hx].
    destruct (Hx Hd) as [-> _]. destruct Hh1; congruence.
  - exists (HReturn s), p1, r1. split_and!; [done|done|done|]. intros ->. destruct Hx as (-> & -> & Hn). by split.
  - exists HBreak, p1, r1. split_and!; [done|done|apply Hx|]. intros Hd. by destruct (proj2 Hx).
Qed.

Definition head_runs (b : bytes) (eof : bool) (p : ResponseParser) (resp : HttpResponse) (r : head_result) : Prop :=
  exists f, head_loop f b eof maxResponseBytes p resp = Some r.

Lemma head_runs_det b eof p resp r r' : head_runs b eof p resp r -> head_runs b eof p resp r' -> r = r'.
Proof.
  intros [f E] [f' E']. apply (head_loop_more _ (f + f')) in E; [|lia]. apply (head_loop_more _ (f + f')) in E'; [|lia].
  congruence.
Qed.

Lemma head_runs_step b eof p resp p1 r1 r :
  in_head p -> head_line b eof maxResponseBytes p resp = (HContinue, p1, r1) ->
  head_runs b eof p1 r1 r -> head_runs b eof p resp r.
Proof.
  intros Hh E [f Ef]. exists (S f). cbn [ResponseParser.head_loop]. rewrite in_head_test, bool_decide_true by done.
  by rewrite E.
Qed.

Lemma head_runs_stop b eof p resp x p1 r1 :
  in_head p -> head_line b eof maxResponseBytes p resp = (x, p1, r1) -> x <> HContinue ->
  head_runs b eof p resp (x, p1, r1).
Proof.
  intros Hh E Hx. exists 1%nat. cbn [ResponseParser.head_loop]. rewrite in_head_test, bool_decide_true by done.
  rewrite E. by destruct x.
Qed.

(** What a call on a prefix of the bytes says of a call on all of them. *)
Lemma head_extends f b d eof p resp x p1 r1 :
  parser_ok b p -> head_loop f b false maxResponseBytes p resp = Some (x, p1, r1) ->
  match x with
  | HReturn SNeedMore => forall r, head_runs (b ++ d) eof p1 r1 r -> head_runs (b ++ d) eof p resp r
  | HReturn SError => exists p2, head_runs (b ++ d) eof p resp (HReturn SError, p2, r1)
  | _ => head_runs (b ++ d) eof p resp (x, p1, r1)
  end.
Proof.
  revert p resp. induction f as [|f IH]; intros p resp H; cbn [ResponseParser.head_loop]; rewrite in_head_test;
    case_bool_decide as Hh; try done.
  1, 3: intros [= <- <- <-]; exists 0%nat; cbn [ResponseParser.head_loop]; by rewrite in_head_test, bool_decide_false.
  destruct (head_line b false maxResponseBytes p resp) as [[y p'] r'] eqn:E.
  destruct (find_char 10 b (rp_pos p)) as [nl|] eqn:En.
  - pose proof E as Eok. apply head_line_ok in Eok as [H' Hy]; [|done|done].
    rewrite <- (head_line_app b d eof nl) in E by done. destruct y as [|s|].
    + intros Hr. specialize (IH p' r' H' Hr). destruct x as [|[]|]; try (by eapply head_runs_step).
      * intros r Hrr. eapply head_runs_step; [done|done|by apply IH].
      * destruct IH as [p2 IH]. exists p2. by eapply head_runs_step.
    + intros [= <- <- <-]. destruct s; [|by apply head_runs_stop|exists p'; by apply head_runs_stop|by apply head_runs_stop].
      destruct Hy as (-> & -> & Hy). congruence.
    + intros [= <- <- <-]. by apply head_runs_stop.
  - unfold ResponseParser.head_line in E. rewrite En in E. destruct (Z.ltb_spec maxResponseBytes (zlen b)) as [Hz|Hz].
    + injection E as <- <- <-. intros [= <- <- <-].
      assert (Hl : exists p2, head_line (b ++ d) eof maxResponseBytes p resp = (HReturn SError, p2, resp)).
      { unfold ResponseParser.head_line. destruct (find_char 10 (b ++ d) (rp_pos p)) as [nl|] eqn:En'.
        - apply find_char_app_none in En'; [|done|apply H]. unfold zlen in Hz.
          destruct (Z.ltb_spec maxResponseBytes (Z.of_nat (S nl))); [by eexists|lia].
        - rewrite zlen_app. pose proof (zlen_nonneg d).
          destruct (Z.ltb_spec maxResponseBytes (zlen b + zlen d)); [by eexists|lia]. }
      destruct Hl as [p2 Hl]. exists p2. by apply head_runs_stop.
    + injection E as <- <- <-. by intros [= <- <- <-].
Qed.

(** ** The body *)

Definition body_result : Type := ParseStatus * ResponseParser.

Lemma trailer_more f f' b eof p r :
  trailer_loop f b eof p = Some r -> (f <= f')%nat -> trailer_loop f' b eof p = Some r.
Proof.
  revert f' p. induction f as [|f IH]; intros f' p; [done|]. intros E Hf. destruct f' as [|f']; [lia|].
  cbn [trailer_loop] in *. destruct (find_char 10 b (rp_pos p)) as [nl|]; [|done].
  destruct (_ || _); [done|]. apply IH; [done|lia].
Qed.

Lemma trailer_total f b eof p :
  parser_ok b p -> rp_state p = BodyChunkTrailers -> (length b - rp_pos p < f)%nat ->
  exists s p', trailer_loop f b eof p = Some (s, p') /\ parser_ok b p'
    /\ (s = SComplete \/ (s = eof_status eof /\ rp_state p' = BodyChunkTrailers)).
Proof.
  revert p. induction f as [|f IH]; intros p H Hs Hf; [lia|]. cbn [trailer_loop].
  destruct (find_char 10 b (rp_pos p)) as [nl|] eqn:E.
  - apply find_char_lt in E. assert (Hp : parser_ok b (set_pos (S nl) p)) by (apply set_pos_ok; [done|lia]).
    destruct (_ || _).
    + eexists _, _. split_and!; [done| |by left]. by apply set_rp_state_ok.
    + apply IH; [done|done|cbn; lia].
  - exists (eof_status eof), p. split_and!; [done|done|right; by split].
Qed.

Definition trailer_runs (b : bytes) (eof : bool) (p : ResponseParser) (r : body_result) : Prop :=
  exists f, trailer_loop f b eof p = Some r.

Lemma trailer_runs_enough b eof p r :
  parser_ok b p -> rp_state p = BodyChunkTrailers ->
  trailer_runs b eof p r <-> trailer_loop (S (length b)) b eof p = Some r.
Proof.
  intros H Hs. split; [|by eexists]. intros [f E].
  destruct (trailer_total (S (length b)) b eof p H Hs) as (s & p' & E' & _); [lia|].
  apply (trailer_more _ (f + S (length b))) in E; [|lia]. pose proof E' as E2.
  apply (trailer_more _ (f + S (length b))) in E2; [|lia]. rewrite E', <- E2. exact E.
Qed.

Lemma trailer_extends f b d eof p s p1 :
  parser_ok b p -> rp_state p = BodyChunkTrailers -> trailer_loop f b false p = Some (s, p1) ->
  if bool_decide (s = SNeedMore) then forall r, trailer_runs (b ++ d) eof p1 r -> trailer_runs (b ++ d) eof p r
  else trailer_runs (b ++ d) eof p (s, p1).
Proof.
  revert p. induction f as [|f IH]; intros p H Hs; [done|]. cbn [trailer_loop]. intros E.
  destruct (find_char 10 b (rp_pos p)) as [nl|] eqn:En; [|injection E as <- <-; by rewrite bool_decide_true].
  pose proof En as En'. apply find_char_lt in En'.
  assert (Hp : parser_ok b (set_pos (S nl) p)) by (apply set_pos_ok; [done|lia]).
  assert (Hstep : forall f, trailer_loop (S f) (b ++ d) eof p
    = if bool_decide (substr b (rp_pos p) (nl - rp_pos p) = []) || bool_decide (substr b (rp_pos p) (nl - rp_pos p) = [13])
      then Some (SComplete, set_rp_state Done (set_pos (S nl) p)) else trailer_loop f (b ++ d) eof (set_pos (S nl) p)).
  { intros g. cbn [trailer_loop]. rewrite (find_char_app _ _ d _ _ En), substr_app by lia. done. }
  destruct (bool_decide (substr b _ _ = []) || _) eqn:Et.
  - injection E as <- <-. rewrite bool_decide_false by done. exists 1%nat. by rewrite Hstep.
  - specialize (IH _ Hp Hs E). destruct (bool_decide (s = SNeedMore)); [intros r Hr; destruct (IH r Hr) as [g Eg]|destruct IH as [g Eg]];
      exists (S g); by rewrite Hstep.
Qed.

(** ** Chunks *)

Definition in_chunks (p : ResponseParser) : Prop :=
  rp_state p = BodyChunkSize \/ rp_state p = BodyChunkData \/ rp_state p = BodyChunkCrlf
  \/ rp_state p = BodyChunkTrailers.

Definition chunk_measure (b : bytes) (p : ResponseParser) : nat :=
  (2 * (length b - rp_pos p) + match rp_state p with BodyChunkData => 1 | _ => 0 end)%nat.

Lemma append_body_ok b p data : parser_ok b p -> parser_ok b (append_body data p).
Proof. intros [? ? ? ? ?]. by split. Qed.
Lemma set_remaining_ok b p n : parser_ok b p -> 0 <= n -> parser_ok b (set_remaining n p).
Proof. intros [? ? ? ? ?] Hn. by split. Qed.

Lemma chunk_round_ok b eof p :
  parser_ok b p -> in_chunks p -> rp_state p <> BodyChunkTrailers ->
  match chunk_round b eof maxResponseBytes p with
  | inl p' => parser_ok b p' /\ in_chunks p' /\ (chunk_measure b p' < chunk_measure b p)%nat
  | inr (s, p') => parser_ok b p' /\ in_chunks p' /\ (s = SError \/ s = eof_status eof)
  end.
Proof.
  intros H Hc Ht. pose proof (po_pos _ _ H). pose proof (po_framing _ _ H) as Hf. unfold chunk_measure.
  unfold chunk_round. destruct (rp_state p) eqn:Hs; try (by destruct Hc as [?|[?|[?|?]]]; congruence); cbn in Hf.
  - destruct (find_char 10 b (rp_pos p)) as [nl|] eqn:E; [|split_and!; auto]. apply find_char_lt in E.
    destruct (from_chars_hex _) as [n|] eqn:En; [|split_and!; auto]. apply from_chars_hex_nonneg in En.
    assert (Hp : parser_ok b (set_pos (S nl) p)) by (apply set_pos_ok; [done|lia]).
    destruct (n =? 0); (split_and!; [|unfold in_chunks; cbn; auto|cbn; lia]).
    + by apply set_rp_state_ok.
    + apply set_rp_state_ok; [by apply set_remaining_ok|done].
  - pose proof (po_remaining _ _ H). unfold available. set (t := Z.min _ _).
    assert (Ht0 : 0 <= t <= zlen b - Z.of_nat (rp_pos p)) by (subst t; unfold zlen in *; lia).
    destruct (maxResponseBytes <? _); [split_and!; auto|].
    cbn [append_body set_pos rp_bodyRemaining rp_pos].
    set (p1 := set_remaining _ _). assert (Hp : parser_ok b p1).
    { apply set_remaining_ok; [|subst t; lia]. apply set_pos_ok; [by apply append_body_ok|]. cbn. unfold zlen in Ht0. lia. }
    destruct (negb _).
    + split_and!; [done| |auto]. unfold in_chunks. cbn. rewrite Hs. auto.
    + split_and!; [by apply set_rp_state_ok|unfold in_chunks; cbn; auto|cbn; lia].
  - destruct (find_char 10 b (rp_pos p)) as [nl|] eqn:E; [|split_and!; auto]. apply find_char_lt in E.
    split_and!; [|unfold in_chunks; cbn; auto|cbn; lia].
    apply set_rp_state_ok; [|done]. apply set_pos_ok; [done|lia].
Qed.

(** Two results that the caller cannot tell apart: the parser is not used after an error. *)
Definition same_body (r r' : body_result) : Prop := fst r = fst r' /\ (fst r <> SError -> r = r').

Lemma same_body_refl r : same_body r r.
Proof. by split. Qed.

Definition same_round (r r' : ResponseParser + body_result) : Prop :=
  r = r' \/ exists p p', r = inr (SError, p) /\ r' = inr (SError, p').

Lemma chunk_round_app b d eof p p1 :
  parser_ok b p -> in_chunks p -> rp_state p <> BodyChunkTrailers ->
  chunk_round b false maxResponseBytes p = inl p1 -> chunk_round (b ++ d) eof maxResponseBytes p = inl p1.
Proof.
  intros H Hc Ht. pose proof (po_pos _ _ H). unfold chunk_round.
  destruct (rp_state p) eqn:Hs; try (by destruct Hc as [?|[?|[?|?]]]; congruence).
  - destruct (find_char 10 b (rp_pos p)) as [nl|] eqn:E; [|done]. rewrite (find_char_app _ _ d _ _ E).
    apply find_char_lt in E. by rewrite substr_app by lia.
  - pose proof (po_remaining _ _ H). cbn [append_body set_pos rp_bodyRemaining rp_pos]. intros E.
    assert (Hfull : rp_bodyRemaining p <= available b p).
    { unfold set_remaining in E. cbn [rp_bodyRemaining] in E.
      destruct (maxResponseBytes <? _); [done|]. destruct (Z.eqb_spec (rp_bodyRemaining p - Z.min (available b p) (rp_bodyRemaining p)) 0); [lia|done]. }
    assert (Hfull' : available b p <= available (b ++ d) p).
    { unfold available. rewrite zlen_app. pose proof (zlen_nonneg d). lia. }
    rewrite (Z.min_r (available (b ++ d) p)) by lia. rewrite (Z.min_r (available b p)) in E by lia.
    rewrite substr_app by (unfold available, zlen in Hfull; lia).
    destruct (maxResponseBytes <? _); [done|]. destruct (negb _); [done|]. exact E.
  - destruct (find_char 10 b (rp_pos p)) as [nl|] eqn:E; [|done]. by rewrite (find_char_app _ _ d _ _ E).
Qed.

Lemma chunk_round_error b d eof p p1 :
  parser_ok b p -> in_chunks p -> rp_state p <> BodyChunkTrailers ->
  chunk_round b false maxResponseBytes p = inr (SError, p1) ->
  exists p2, chunk_round (b ++ d) eof maxResponseBytes p = inr (SError, p2).
Proof.
  intros H Hc Ht. pose proof (po_pos _ _ H). unfold chunk_round.
  destruct (rp_state p) eqn:Hs; try (by destruct Hc as [?|[?|[?|?]]]; congruence).
  - destruct (find_char 10 b (rp_pos p)) as [nl|] eqn:E; [|done]. rewrite (find_char_app _ _ d _ _ E).
    apply find_char_lt in E. rewrite substr_app by lia. destruct (from_chars_hex _); [done|by eexists].
  - assert (Hmin : Z.min (available b p) (rp_bodyRemaining p) <= Z.min (available (b ++ d) p) (rp_bodyRemaining p)).
    { unfold available. rewrite zlen_app. pose proof (zlen_nonneg d). lia. }
    destruct (Z.ltb_spec maxResponseBytes (zlen (rp_bodyBuf p) + Z.min (available b p) (rp_bodyRemaining p))).
    + intros _. rewrite (proj2 (Z.ltb_lt _ _)) by lia. by eexists.
    + destruct (negb _); done.
  - destruct (find_char 10 b (rp_pos p)) as [nl|] eqn:E; done.
Qed.

Lemma substr_split b pos n m : substr b pos (n + m) = substr b pos n ++ substr b (pos + n) m.
Proof.
  unfold substr. rewrite <- drop_drop. rewrite <- (take_drop n (take (n + m) (drop pos b))) at 1.
  rewrite take_take, Nat.min_l by lia. f_equal. by rewrite skipn_firstn_comm, Nat.add_comm, Nat.add_sub.
Qed.

(** A round that waits for bytes may be taken up later. *)
Lemma chunk_round_resume b d eof p p1 :
  parser_ok b p -> in_chunks p -> rp_state p <> BodyChunkTrailers ->
  chunk_round b false maxResponseBytes p = inr (SNeedMore, p1) ->
  rp_state p1 <> BodyChunkTrailers /\
  same_round (chunk_round (b ++ d) eof maxResponseBytes p) (chunk_round (b ++ d) eof maxResponseBytes p1).
Proof.
  intros H Hc Ht. pose proof (po_pos _ _ H). unfold chunk_round at 1.
  destruct (rp_state p) eqn:Hs; try (by destruct Hc as [?|[?|[?|?]]]; congruence).
  1, 3: destruct (find_char 10 b (rp_pos p)) as [nl|] eqn:E;
    [destruct (from_chars_hex _) || idtac; done|]; intros [= <-]; (split; [congruence|by left]).
  cbn [append_body set_pos rp_bodyRemaining rp_pos]. pose proof (po_remaining _ _ H).
  destruct (Z.ltb_spec maxResponseBytes (zlen (rp_bodyBuf p) + Z.min (available b p) (rp_bodyRemaining p))) as [|Hmax]; [done|].
  destruct (Z.eqb_spec (rp_bodyRemaining p - Z.min (available b p) (rp_bodyRemaining p)) 0) as [Hz|Hz];
    cbn [negb set_remaining rp_bodyRemaining]; [by rewrite Hz|].
  destruct (negb _) eqn:En; [|apply negb_false_iff, Z.eqb_eq in En; cbn in En; lia]. intros [= <-].
  assert (Hmin : Z.min (available b p) (rp_bodyRemaining p) = available b p) by lia. rewrite Hmin in *.
  set (a := available b p) in *. assert (Ha : 0 <= a /\ Z.of_nat (rp_pos p) + a = zlen b) by (subst a; unfold available, zlen in *; lia).
  set (p1 := set_remaining _ _). split; [cbn; rewrite Hs; done|].
  assert (Hs1 : rp_state p1 = BodyChunkData) by (cbn; exact Hs).
  unfold chunk_round. rewrite Hs, Hs1.
  assert (Ha' : available (b ++ d) p1 = available (b ++ d) p - a).
  { unfold available, p1. cbn [set_remaining set_pos append_body rp_pos]. lia. }
  set (t := Z.min (available (b ++ d) p) (rp_bodyRemaining p)). assert (Ht' : a <= t).
  { subst t. unfold available. rewrite zlen_app. pose proof (zlen_nonneg d). unfold a, available. lia. }
  assert (Hr1 : rp_bodyRemaining p1 = rp_bodyRemaining p - a) by done.
  assert (Hp1 : rp_pos p1 = (rp_pos p + Z.to_nat a)%nat) by done.
  replace (Z.min (available (b ++ d) p1) (rp_bodyRemaining p1)) with (t - a) by (rewrite Ha', Hr1; subst t; lia).
  assert (Hb1 : rp_bodyBuf p1 = rp_bodyBuf p ++ substr (b ++ d) (rp_pos p) (Z.to_nat a)).
  { cbn. by rewrite substr_app by (unfold zlen in Ha; lia). }
  assert (Hlen : zlen (rp_bodyBuf p1) = zlen (rp_bodyBuf p) + a).
  { rewrite Hb1, zlen_app. f_equal. unfold zlen. rewrite length_substr; [lia|]. rewrite length_app. unfold zlen in Ha. lia. }
  replace (zlen (rp_bodyBuf p1) + (t - a)) with (zlen (rp_bodyBuf p) + t) by lia.
  destruct (maxResponseBytes <? _); [right; by eexists _, _|left].
  assert (Heq : set_remaining (rp_bodyRemaining p1 - (t - a)) (set_pos (rp_pos p1 + Z.to_nat (t - a)) (append_body (substr (b ++ d) (rp_pos p1) (Z.to_nat (t - a))) p1))
    = set_remaining (rp_bodyRemaining p - t) (set_pos (rp_pos p + Z.to_nat t) (append_body (substr (b ++ d) (rp_pos p) (Z.to_nat t)) p))).
  { rewrite Hr1, Hp1. unfold set_remaining, set_pos, append_body.
    cbn [rp_bodyBuf rp_pos rp_bodyStart rp_contentTypeOff rp_contentTypeLen rp_bodyRemaining rp_framing rp_state
         rp_statusCode rp_headRequest rp_keepAlive rp_http11 rp_connectionCloseSeen rp_connectionKeepAliveSeen
         rp_hasContentLength rp_chunked].
    rewrite Hb1. f_equal; [|lia|lia]. rewrite <- app_assoc. f_equal.
    replace (Z.to_nat t) with (Z.to_nat a + Z.to_nat (t - a))%nat by lia. by rewrite substr_split. }
  cbn [append_body set_pos rp_bodyRemaining rp_pos] in Heq |- *. rewrite Heq.
  cbn [set_remaining rp_bodyRemaining]. done.
Qed.

Lemma chunk_more f f' b eof p r :
  chunk_rounds f b eof maxResponseBytes p = Some r -> (f <= f')%nat ->
  chunk_rounds f' b eof maxResponseBytes p = Some r.
Proof.
  revert f' p. induction f as [|f IH]; intros f' p; cbn [chunk_rounds].
  - intros E _. destruct f'; cbn [chunk_rounds]; by destruct (bool_decide _).
  - intros E Hf. destruct f' as [|f']; [lia|]. cbn [chunk_rounds]. destruct (bool_decide _); [done|].
    destruct (chunk_round _ _ _ _) as [p1|r1]; [|done]. apply IH; [done|lia].
Qed.

Lemma chunk_total f b eof p :
  parser_ok b p -> in_chunks p -> (chunk_measure b p < f)%nat ->
  exists s p', chunk_rounds f b eof maxResponseBytes p = Some (s, p') /\ parser_ok b p'
    /\ (s = SComplete \/ ((s = SError \/ s = eof_status eof) /\ in_chunks p')).
Proof.
  revert p. induction f as [|f IH]; intros p H Hc Hf; [lia|]. cbn [chunk_rounds]. case_bool_decide as Ht.
  - destruct (trailer_total (S (length b)) b eof p H Ht) as (s & p' & -> & H' & Hs); [lia|].
    exists s, p'. split_and!; [done|done|]. destruct Hs as [->|[-> Hs]]; [by left|right].
    split; [by right|]. unfold in_chunks. auto.
  - pose proof (chunk_round_ok b eof p H Hc Ht) as Hr. destruct (chunk_round _ _ _ _) as [p1|[s p1]].
    + destruct Hr as (H1 & Hc1 & Hm). apply IH; [done|done|lia].
    + exists s, p1. destruct Hr as (H1 & Hc1 & Hs). split_and!; [done|done|right; by split].
Qed.

Definition chunk_runs (b : bytes) (eof : bool) (p : ResponseParser) (r : body_result) : Prop :=
  exists f, chunk_rounds f b eof maxResponseBytes p = Some r.

Lemma chunk_runs_enough b eof p r :
  parser_ok b p -> in_chunks p ->
  chunk_runs b eof p r <-> chunk_rounds (S (S (2 * length b))) b eof maxResponseBytes p = Some r.
Proof.
  intros H Hc. split; [|by eexists]. intros [f E]. set (g := S (S (2 * length b))).
  destruct (chunk_total g b eof p H Hc) as (s & p' & E' & _).
  { unfold chunk_measure. subst g. case_match; lia. }
  apply (chunk_more _ (f + g)) in E; [|lia]. pose proof E' as E2. apply (chunk_more _ (f + g)) in E2; [|lia].
  rewrite E', <- E2. exact E.
Qed.

Lemma chunk_runs_step b eof p p1 r :
  rp_state p <> BodyChunkTrailers -> chunk_round b eof maxResponseBytes p = inl p1 ->
  chunk_runs b eof p1 r -> chunk_runs b eof p r.
Proof. intros Ht E [f Ef]. exists (S f). cbn [chunk_rounds]. by rewrite bool_decide_false, E. Qed.

Lemma chunk_runs_stop b eof p r :
  rp_state p <> BodyChunkTrailers -> chunk_round b eof maxResponseBytes p = inr r -> chunk_runs b eof p r.
Proof. intros Ht E. exists 1%nat. cbn [chunk_rounds]. by rewrite bool_decide_false, E. Qed.

Lemma chunk_runs_inv b eof p r :
  rp_state p <> BodyChunkTrailers -> chunk_runs b eof p r ->
  chunk_round b eof maxResponseBytes p = inr r
  \/ exists p1, chunk_round b eof maxResponseBytes p = inl p1 /\ chunk_runs b eof p1 r.
Proof.
  intros Ht [f E]. destruct f as [|f]; cbn [chunk_rounds] in E; rewrite bool_decide_false in E by done; [done|].
  destruct (chunk_round _ _ _ _) as [p1|r1]; [right; exists p1; split; [done|by exists f]|left; by injection E as ->].
Qed.

Lemma chunk_runs_trailers b eof p r :
  parser_ok b p -> rp_state p = BodyChunkTrailers -> chunk_runs b eof p r <-> trailer_runs b eof p r.
Proof.
  intros H Ht. rewrite trailer_runs_enough by done. split.
  - intros [f E]. destruct f; cbn [chunk_rounds] in E; by rewrite bool_decide_true in E.
  - intros E. exists 0%nat. cbn [chunk_rounds]. by rewrite bool_decide_true.
Qed.

Lemma chunk_extends f b d eof p s p1 :
  parser_ok b p -> in_chunks p -> chunk_rounds f b false maxResponseBytes p = Some (s, p1) ->
  match s with
  | SNeedMore => forall r, chunk_runs (b ++ d) eof p1 r -> exists r', chunk_runs (b ++ d) eof p r' /\ same_body r' r
  | SError => exists p2, chunk_runs (b ++ d) eof p (SError, p2)
  | _ => chunk_runs (b ++ d) eof p (s, p1)
  end.
Proof.
  revert p. induction f as [|f IH]; intros p H Hc; cbn [chunk_rounds]; case_bool_decide as Ht; try done.
  1, 2: intros E; pose proof E as E'; apply (trailer_extends _ _ d eof) in E; [|done|done];
    destruct (trailer_total (S (length b)) b false p H Ht) as (s' & p' & Et & H1 & Hs); [lia|];
    rewrite E' in Et; injection Et as <- <-;
    pose proof (parser_ok_app b d p H) as Hd; pose proof (parser_ok_app b d p1 H1) as Hd1;
    destruct Hs as [->|[-> Hs]]; [by apply chunk_runs_trailers|];
    intros r Hr; exists r; (split; [|apply same_body_refl]);
    apply chunk_runs_trailers; [done|done|]; apply E; by apply chunk_runs_trailers.
  pose proof (chunk_round_ok b false p H Hc Ht) as Hok.
  destruct (chunk_round b false maxResponseBytes p) as [p'|[s' p']] eqn:Er.
  - apply (chunk_round_app _ d eof) in Er; [|done..]. destruct Hok as (H' & Hc' & _). intros E.
    specialize (IH p' H' Hc' E). destruct s.
    + intros r Hr. destruct (IH r Hr) as (r' & Hr' & Hs). exists r'. split; [by eapply chunk_runs_step|done].
    + by eapply chunk_runs_step.
    + destruct IH as [p2 IH]. exists p2. by eapply chunk_runs_step.
    + by eapply chunk_runs_step.
  - intros [= <- <-]. destruct Hok as (H' & Hc' & [->| ->]).
    + apply (chunk_round_error _ d eof) in Er as [p2 Er]; [|done..]. exists p2. by apply chunk_runs_stop.
    + apply (chunk_round_resume _ d eof) in Er as [Ht' Hs]; [|done..]. intros r Hr.
      apply chunk_runs_inv in Hr; [|done]. destruct Hs as [Hs|(q & q' & Hq & Hq')].
      * destruct Hr as [Hr|(p2 & Hr & Hr2)]; rewrite <- Hs in Hr; exists r; (split; [|apply same_body_refl]).
        -- by apply chunk_runs_stop.
        -- by eapply chunk_runs_step.
      * exists (SError, q). split; [by apply chunk_runs_stop|].
        destruct Hr as [Hr|(p2 & Hr & _)]; rewrite Hq' in Hr; [|done]. injection Hr as <-. by split.
Qed.

(** ** Bodies of every framing *)

Definition in_body (p : ResponseParser) : Prop := ~ in_head p /\ rp_state p <> Done.

Lemma in_body_cases b p :
  parser_ok b p -> in_body p ->
  (rp_state p = BodyLength /\ rp_framing p = FLength) \/ (rp_state p = BodyUntilClose /\ rp_framing p = FUntilClose)
  \/ (in_chunks p /\ rp_framing p = FChunked).
Proof.
  intros H [Hh Hd]. pose proof (po_framing _ _ H) as Hf. unfold in_head, in_chunks in *.
  destruct (rp_state p) eqn:Hs; cbn in Hf; auto 8; try done; exfalso; auto.
Qed.

Lemma in_chunks_body p : in_chunks p -> in_body p.
Proof. unfold in_chunks, in_body, in_head. intros [H|[H|[H|H]]]; rewrite H; (split; [by intros [?|?]|done]). Qed.

Lemma parseBody_chunks b eof p :
  rp_framing p = FChunked ->
  parseBody b eof maxResponseBytes p = chunk_rounds (S (S (2 * length b))) b eof maxResponseBytes p.
Proof. intros Hf. unfold parseBody. by rewrite Hf. Qed.

Lemma parseBody_total b eof p :
  parser_ok b p -> in_body p ->
  exists s p', parseBody b eof maxResponseBytes p = Some (s, p') /\ parser_ok b p'
    /\ (s = SComplete \/ ((s = SError \/ s = eof_status eof) /\ in_body p')).
Proof.
  intros H Hb. pose proof (po_pos _ _ H). pose proof (po_remaining _ _ H).
  destruct (in_body_cases b p H Hb) as [[Hs Hf]|[[Hs Hf]|[Hc Hf]]].
  - unfold parseBody. rewrite Hf. set (t := Z.min _ _).
    assert (Ht : 0 <= t <= available b p) by (subst t; unfold available, zlen; lia).
    destruct (maxResponseBytes <? _); [exists SError, p; split_and!; auto|].
    set (p1 := set_remaining _ _). assert (Hp1 : parser_ok b p1).
    { apply set_remaining_ok; [|subst t; lia]. apply set_pos_ok; [done|]. unfold available, zlen in Ht. lia. }
    destruct (_ =? 0); eexists _, _; (split; [done|]).
    + split; [by apply set_rp_state_ok|by left].
    + split; [done|]. right. split; [by right|]. unfold in_body, in_head. cbn. rewrite Hs. split; [by intros [?|?]|done].
  - unfold parseBody. rewrite Hf. destruct (maxResponseBytes <? _); [exists SError, p; split_and!; auto|].
    assert (Hp1 : parser_ok b (set_pos (rp_pos p + Z.to_nat (available b p)) p)).
    { apply set_pos_ok; [done|]. unfold available, zlen. lia. }
    destruct eof; eexists _, _; (split; [done|]); (split; [done || by apply set_rp_state_ok|]); [by left|right].
    split; [by right|]. unfold in_body, in_head. cbn. rewrite Hs. split; [by intros [?|?]|done].
  - rewrite parseBody_chunks by done. destruct (chunk_total (S (S (2 * length b))) b eof p H Hc) as (s & p' & -> & H' & Hs).
    { unfold chunk_measure. case_match; lia. }
    exists s, p'. split_and!; [done|done|]. destruct Hs as [->|[Hs Hc']]; [by left|right]. split; [done|by apply in_chunks_body].
Qed.

(** The three ways in which a call on a prefix tells about a call on everything. *)
Definition body_extends (b : bytes) (d : bytes) (eof : bool) (p : ResponseParser) (s : ParseStatus) (p1 : ResponseParser) : Prop :=
  match s with
  | SNeedMore => forall r, parseBody (b ++ d) eof maxResponseBytes p1 = Some r ->
                   exists r', parseBody (b ++ d) eof maxResponseBytes p = Some r' /\ same_body r' r
  | SError => exists p2, parseBody (b ++ d) eof maxResponseBytes p = Some (SError, p2)
  | _ => parseBody (b ++ d) eof maxResponseBytes p = Some (s, p1)
  end.

Lemma chunked_extends b d eof p s p1 :
  parser_ok b p -> in_chunks p -> rp_framing p = FChunked -> rp_framing p1 = FChunked \/ s <> SNeedMore ->
  parser_ok b p1 -> in_chunks p1 \/ s <> SNeedMore ->
  parseBody b false maxResponseBytes p = Some (s, p1) -> body_extends b d eof p s p1.
Proof.
  intros H Hc Hf Hf1 H1 Hc1. rewrite parseBody_chunks by done. intros E.
  apply (chunk_extends _ _ d eof) in E; [|done|done]. pose proof (parser_ok_app b d p H) as Hd.
  pose proof (parser_ok_app b d p1 H1) as Hd1. unfold body_extends. rewrite (parseBody_chunks (b ++ d) eof p Hf).
  destruct s; [| |destruct E as [p2 E]; exists p2|]; try (by apply chunk_runs_enough).
  destruct Hf1 as [Hf1|]; [|done]. destruct Hc1 as [Hc1|]; [|done]. intros r. rewrite parseBody_chunks by done. intros Hr.
  destruct (E r) as (r' & Hr' & Hs); [by eexists|]. exists r'. split; [by apply chunk_runs_enough|done].
Qed.

Lemma length_extends b d eof p s p1 :
  parser_ok b p -> rp_framing p = FLength ->
  parseBody b false maxResponseBytes p = Some (s, p1) -> body_extends b d eof p s p1.
Proof.
  intros H Hf. pose proof (po_pos _ _ H). pose proof (po_remaining _ _ H). unfold body_extends, parseBody. rewrite Hf.
  pose proof (zlen_nonneg d).
  assert (Ha : available (b ++ d) p = available b p + zlen d) by (unfold available; rewrite zlen_app; lia).
  assert (Ha0 : 0 <= available b p) by (unfold available, zlen; lia).
  set (t := Z.min (available b p) (rp_bodyRemaining p)). set (t' := Z.min (available (b ++ d) p) (rp_bodyRemaining p)).
  destruct (Z.ltb_spec maxResponseBytes (Z.of_nat (rp_pos p) - Z.of_nat (rp_bodyStart p) + t)) as [Hm|Hm].
  { intros [= <- <-]. rewrite (proj2 (Z.ltb_lt _ _)) by lia. by eexists. }
  cbn [set_remaining set_pos rp_bodyRemaining rp_pos]. destruct (Z.eqb_spec (rp_bodyRemaining p - t) 0) as [Hz|Hz].
  { intros [= <- <-]. assert (Ht : t' = t) by (subst t t'; lia). rewrite Ht. rewrite (proj2 (Z.ltb_ge _ _)) by lia.
    by rewrite Hz. }
  intros [= <- <-]. intros r. cbn [set_remaining set_pos rp_framing rp_bodyRemaining rp_pos rp_bodyStart]. rewrite Hf.
  set (p1 := set_remaining (rp_bodyRemaining p - t) (set_pos (rp_pos p + Z.to_nat t) p)).
  assert (Ht : t = available b p) by (subst t; lia).
  assert (Ha1 : available (b ++ d) p1 = available (b ++ d) p - t) by (unfold available, p1; cbn; lia).
  rewrite Ha1. replace (Z.min (available (b ++ d) p - t) (rp_bodyRemaining p - t)) with (t' - t) by (subst t'; lia).
  replace (Z.of_nat (rp_pos p + Z.to_nat t) - Z.of_nat (rp_bodyStart p) + (t' - t))
    with (Z.of_nat (rp_pos p) - Z.of_nat (rp_bodyStart p) + t') by lia.
  destruct (maxResponseBytes <? _); [intros [= <-]; eexists; (split; [done|]); by split|].
  replace (rp_bodyRemaining p - t - (t' - t)) with (rp_bodyRemaining p - t') by lia.
  replace (rp_pos p + Z.to_nat t + Z.to_nat (t' - t))%nat with (rp_pos p + Z.to_nat t')%nat by lia.
  intros Hr. exists r. split; [exact Hr|apply same_body_refl].
Qed.

Lemma until_close_extends b d eof p s p1 :
  parser_ok b p -> rp_framing p = FUntilClose ->
  parseBody b false maxResponseBytes p = Some (s, p1) -> body_extends b d eof p s p1.
Proof.
  intros H Hf. pose proof (po_pos _ _ H). unfold body_extends, parseBody. rewrite Hf. pose proof (zlen_nonneg d).
  assert (Ha : available (b ++ d) p = available b p + zlen d) by (unfold available; rewrite zlen_app; lia).
  assert (Ha0 : 0 <= available b p) by (unfold available, zlen; lia).
  destruct (Z.ltb_spec maxResponseBytes (Z.of_nat (rp_pos p) - Z.of_nat (rp_bodyStart p) + available b p)) as [Hm|Hm].
  { intros [= <- <-]. rewrite (proj2 (Z.ltb_lt _ _)) by lia. by eexists. }
  intros [= <- <-]. intros r. cbn [set_pos rp_framing rp_pos rp_bodyStart]. rewrite Hf.
  set (t := available b p) in *. set (p1 := set_pos (rp_pos p + Z.to_nat t) p).
  assert (Ha1 : available (b ++ d) p1 = available (b ++ d) p - t) by (unfold available, p1; cbn; lia).
  rewrite Ha1. replace (Z.of_nat (rp_pos p + Z.to_nat t) - Z.of_nat (rp_bodyStart p) + (available (b ++ d) p - t))
    with (Z.of_nat (rp_pos p) - Z.of_nat (rp_bodyStart p) + available (b ++ d) p) by lia.
  destruct (maxResponseBytes <? _); [intros [= <-]; eexists; (split; [done|]); by split|].
  replace (rp_pos p + Z.to_nat t + Z.to_nat (available (b ++ d) p - t))%nat
    with (rp_pos p + Z.to_nat (available (b ++ d) p))%nat by lia.
  intros Hr. exists r. split; [exact Hr|apply same_body_refl].
Qed.

Lemma parseBody_extends b d eof p s p1 :
  parser_ok b p -> in_body p -> parseBody b false maxResponseBytes p = Some (s, p1) -> body_extends b d eof p s p1.
Proof.
  intros H Hb E. destruct (in_body_cases b p H Hb) as [[_ Hf]|[[_ Hf]|[Hc Hf]]];
    [by apply length_extends|by apply until_close_extends|].
  pose proof E as E'. rewrite parseBody_chunks in E' by done.
  destruct (chunk_total (S (S (2 * length b))) b false p H Hc) as (s' & p' & Et & H1 & Hs).
  { unfold chunk_measure. case_match; lia. }
  rewrite E' in Et. injection Et as <- <-. apply chunked_extends; try done.
  - destruct Hs as [->|[_ Hc1]]; [by right|left]. pose proof (po_framing _ _ H1) as Hf1.
    destruct Hc1 as [Hc1|[Hc1|[Hc1|Hc1]]]; by rewrite Hc1 in Hf1.
  - destruct Hs as [->|[_ Hc1]]; [by right|by left].
Qed.

(** ** Calls *)

(** Two results of [parse] that the exchange cannot tell apart. *)
Definition same_result (r r' : ParseStatus * ResponseParser * HttpResponse) : Prop :=
  fst (fst r) = fst (fst r') /\ snd r = snd r' /\ (fst (fst r) <> SError -> r = r').

Lemma same_result_refl r : same_result r r.
Proof. by split_and!. Qed.
Lemma same_result_trans r s t : same_result r s -> same_result s t -> same_result r t.
Proof.
  intros (E1 & E2 & E3) (F1 & F2 & F3). split_and!; [congruence|congruence|]. intros H.
  rewrite E3 by done. apply F3. congruence.
Qed.

Lemma finish_same b resp r r' : same_body r r' -> same_result (finish_body decompress b resp r) (finish_body decompress b resp r').
Proof.
  destruct r as [s p], r' as [s' p']. intros [E1 E2]. cbn [fst] in *. subst s'.
  destruct (decide (s = SError)) as [->|Hs]; [|injection (E2 Hs) as ->; apply same_result_refl].
  by split_and!.
Qed.

Lemma finish_body_app b d p resp s :
  parser_ok b p -> finish_body decompress (b ++ d) resp (s, p) = finish_body decompress b resp (s, p).
Proof. intros H. unfold finish_body. case_bool_decide; [|done]. by rewrite installBody_app. Qed.

Lemma finish_status b p resp s : s <> SComplete -> finish_body decompress b resp (s, p) = (s, p, resp).
Proof. intros Hs. unfold finish_body. by rewrite bool_decide_false. Qed.

Lemma finish_complete b p resp s p1 r1 :
  finish_body decompress b resp (SComplete, p) = (s, p1, r1) -> p1 = p /\ s <> SNeedMore.
Proof.
  unfold finish_body, ResponseParser.installBody, of_outcome. rewrite bool_decide_true by done.
  repeat case_match; intros; simplify_eq; done.
Qed.

Lemma parse_head_runs b eof p resp x p1 r1 :
  parser_ok b p -> head_runs b eof p resp (x, p1, r1) ->
  head_loop (S (length b)) b eof maxResponseBytes p resp = Some (x, p1, r1).
Proof.
  intros H Hr. destruct (head_loop_total (S (length b)) b eof p resp H) as (y & p' & r' & E & _); [lia|].
  rewrite E. f_equal. eapply head_runs_det; [by eexists|done].
Qed.

(** A call always returns, and its parser may be used again if it asks for more. *)
Lemma parse_total b eof p resp :
  parser_ok b p ->
  exists s p1 r1, parse b eof maxResponseBytes p resp = Some (s, p1, r1)
    /\ (s = SNeedMore -> parser_ok b p1 /\ eof = false).
Proof.
  intros H. unfold ResponseParser.parse.
  destruct (head_loop_total (S (length b)) b eof p resp H) as (x & p' & r' & E & H' & Hx); [lia|]. rewrite E.
  destruct x as [|s|]; [done| |].
  - exists s, p', r'. split; [done|]. intros ->. split; [done|]. destruct Hx as [_ Hx]. destruct (Hx eq_refl) as [Hh Hn].
    destruct eof; [exfalso|done].
    assert (Hr : exists f, head_loop f b true maxResponseBytes p resp = Some (HReturn SNeedMore, p', r')) by (by eexists).
    destruct Hr as [f Ef]. clear -Ef. revert p resp Ef. induction f as [|f IH]; intros p resp; cbn [ResponseParser.head_loop];
      destruct (_ || _); try done.
    destruct (head_line b true maxResponseBytes p resp) as [[x q] rq] eqn:El. destruct x; [apply IH| |done].
    intros [= -> -> ->]. unfold ResponseParser.head_line in El.
    repeat first [case_match | progress simplify_eq]; try done.
    all: match goal with H : ResponseParser.installBody _ _ _ _ = _ |- _ => unfold ResponseParser.installBody, of_outcome in H end;
      repeat first [case_match | progress simplify_eq]; done.
  - case_bool_decide as Hd; [exists SComplete, p', r'; by split|].
    destruct (parseBody_total b eof p' H') as (s & p2 & -> & H2 & Hs); [split; [apply Hx|done]|]. cbn [option_map].
    destruct (finish_body decompress b r' (s, p2)) as [[s3 p3] r3] eqn:Ef. exists s3, p3, r3. split; [done|]. intros ->.
    destruct (decide (s = SComplete)) as [->|Hne].
    + by apply finish_complete in Ef as [_ ?].
    + rewrite finish_status in Ef by done. injection Ef as -> -> ->. split; [done|].
      destruct Hs as [?|[[?|Hs] _]]; [done|done|]. by destruct eof.
Qed.

Lemma parse_body_eq b eof p resp :
  in_body p -> parse b eof maxResponseBytes p resp = option_map (finish_body decompress b resp) (parseBody b eof maxResponseBytes p).
Proof.
  intros [Hh Hd]. unfold ResponseParser.parse. cbn [ResponseParser.head_loop].
  rewrite in_head_test, bool_decide_false by done. by rewrite bool_decide_false.
Qed.

(** After its head, a response goes on with its body. *)
Lemma parse_break b eof p resp p1 r1 :
  parser_ok b p -> head_runs b eof p resp (HBreak, p1, r1) -> rp_state p1 <> Done ->
  parse b eof maxResponseBytes p resp = option_map (finish_body decompress b r1) (parseBody b eof maxResponseBytes p1).
Proof.
  intros H Hr Hd. unfold ResponseParser.parse. rewrite (parse_head_runs b eof p resp HBreak p1 r1) by done.
  by rewrite bool_decide_false.
Qed.

Lemma parse_return b eof p resp s p1 r1 :
  parser_ok b p -> head_runs b eof p resp (HReturn s, p1, r1) -> parse b eof maxResponseBytes p resp = Some (s, p1, r1).
Proof. intros H Hr. unfold ResponseParser.parse. by rewrite (parse_head_runs b eof p resp (HReturn s) p1 r1). Qed.

(** What a call on a prefix of the bytes returns is what the call on all of them returns, or
    the same parser may go on with all of them. *)
Definition parse_extends (b d : bytes) (eof : bool) (p : ResponseParser) (resp : HttpResponse)
  (s : ParseStatus) (p1 : ResponseParser) (r1 : HttpResponse) : Prop :=
  exists r r', parse (b ++ d) eof maxResponseBytes p resp = Some r /\ same_result r r'
    /\ if bool_decide (s = SNeedMore) then parse (b ++ d) eof maxResponseBytes p1 r1 = Some r'
       else r' = (s, p1, r1).

Lemma parse_extends_body b d eof p resp r0 p0 s p2 p1 r1 :
  parser_ok b p -> head_runs (b ++ d) eof p resp (HBreak, p0, r0) -> parser_ok b p0 -> in_body p0 ->
  parseBody b false maxResponseBytes p0 = Some (s, p2) -> finish_body decompress b r0 (s, p2) = (p1, r1) ->
  parse_extends b d eof p resp (fst p1) (snd p1) r1.
Proof.
  intros H Hr H0 Hb E Ef. unfold parse_extends.
  rewrite (parse_break (b ++ d) eof p resp p0 r0); [|by apply parser_ok_app|done|apply Hb].
  pose proof (parseBody_extends b d eof p0 s p2 H0 Hb E) as Hx.
  destruct (parseBody_total b false p0 H0 Hb) as (s' & p' & E' & H2 & Hs). rewrite E in E'. injection E' as <- <-.
  unfold body_extends in Hx. destruct (decide (s = SComplete)) as [->|Hc].
  - rewrite Hx. cbn [option_map]. rewrite finish_body_app, Ef by done. destruct p1 as [s1 q1]. cbn [fst snd].
    apply finish_complete in Ef as [_ Hn]. exists (s1, q1, r1), (s1, q1, r1).
    rewrite bool_decide_false by done. split_and!; [done|apply same_result_refl|done].
  - rewrite finish_status in Ef by done. injection Ef as <- <-. cbn [fst snd].
    destruct Hs as [?|[[->| ->] Hb2]]; [done| |].
    + destruct Hx as [p3 Hx]. rewrite Hx. cbn [option_map]. rewrite finish_status by done.
      exists (SError, p3, r0), (SError, p2, r0). rewrite bool_decide_false by done. by split_and!.
    + cbn [eof_status] in *. rewrite bool_decide_true by done.
      destruct (parseBody_total (b ++ d) eof p2) as (s3 & p3 & E3 & _); [by apply parser_ok_app|done|].
      destruct (Hx _ E3) as (r' & Hr' & Hsame). rewrite Hr'. cbn [option_map].
      exists (finish_body decompress (b ++ d) r0 r'), (finish_body decompress (b ++ d) r0 (s3, p3)).
      split_and!; [done|by apply finish_same|]. rewrite parse_body_eq by done. by rewrite E3.
Qed.

Lemma parse_extends_ok b d eof p resp s p1 r1 :
  parser_ok b p -> parse b false maxResponseBytes p resp = Some (s, p1, r1) -> parse_extends b d eof p resp s p1 r1.
Proof.
  intros H E. unfold ResponseParser.parse in E.
  destruct (head_loop_total (S (length b)) b false p resp H) as (x & p' & r' & El & H' & Hx); [lia|]. rewrite El in E.
  pose proof (head_extends _ b d eof _ _ _ _ _ H El) as Hext. pose proof (parser_ok_app b d p H) as Hd.
  destruct x as [|x|]; [done| |].
  - injection E as -> -> ->. unfold parse_extends. destruct (decide (s = SNeedMore)) as [->|Hn].
    + rewrite bool_decide_true by done. pose proof (parser_ok_app b d p1 H') as Hd1.
      destruct (head_loop_total (S (length (b ++ d))) (b ++ d) eof p1 r1 Hd1) as (y & q & rq & Eq & _); [lia|].
      assert (Hrun : head_runs (b ++ d) eof p1 r1 (y, q, rq)) by (by eexists). pose proof (Hext _ Hrun) as Hrun'.
      destruct (parse_total (b ++ d) eof p1 r1 Hd1) as (s2 & p2 & r2 & E2 & _). exists (s2, p2, r2), (s2, p2, r2).
      split_and!; [|apply same_result_refl|done]. rewrite <- E2. unfold ResponseParser.parse. rewrite Eq.
      by rewrite (parse_head_runs (b ++ d) eof p resp y q rq).
    + rewrite bool_decide_false by done. destruct (decide (s = SError)) as [->|He].
      * destruct Hext as [p2 Hext]. rewrite (parse_return _ _ _ _ SError p2 r1) by done.
        exists (SError, p2, r1), (SError, p1, r1). by split_and!.
      * exists (s, p1, r1), (s, p1, r1). split_and!; [|apply same_result_refl|done].
        apply parse_return; [done|]. by destruct s.
  - destruct Hx as [Hh Hdone]. case_bool_decide as Hst.
    + injection E as <- <- <-. exists (SComplete, p', r'), (SComplete, p', r').
      split_and!; [|apply same_result_refl|by rewrite bool_decide_false]. unfold ResponseParser.parse.
      rewrite (parse_head_runs (b ++ d) eof p resp HBreak p' r') by done. by rewrite bool_decide_true.
    + destruct (parseBody b false maxResponseBytes p') as [[s2 p2]|] eqn:Eb; [|done]. cbn [option_map] in E.
      injection E as E. by eapply (parse_extends_body b d eof p resp r' p' s2 p2 (s, p1) r1).
Qed.

(** ** The exchange *)

Lemma exchange_ok reads b p resp :
  parser_ok b p ->
  exists r r', exchange decompress reads b maxResponseBytes p resp = Some r
    /\ parse (b ++ concat reads) true maxResponseBytes p resp = Some r' /\ same_result r' r.
Proof.
  revert b p resp. induction reads as [|data reads IH]; intros b p resp H; cbn [exchange].
  all: destruct (parse_total b false p resp H) as (s & p1 & r1 & E & Hs); rewrite E.
  - pose proof (parse_extends_ok b [] true p resp s p1 r1 H E) as (r & r' & Er & Hsame & Hr').
    cbn [concat]. exists r', r. destruct s; cbn in Hr'; try (by rewrite Hr' in *).
    rewrite app_nil_r in *. by split_and!.
  - cbn [concat]. pose proof (parse_extends_ok b (data ++ concat reads) true p resp s p1 r1 H E) as (r & r' & Er & Hsame & Hr').
    rewrite Er. destruct s; cbn in Hr'; try (exists r', r; by rewrite Hr' in *).
    destruct (IH (b ++ data) p1 r1) as (q & q' & Eq & Eq' & Hq); [apply parser_ok_app, Hs; done|].
    rewrite <- app_assoc, Hr' in Eq'. injection Eq' as <-. exists q, r. split_and!; [done|done|by eapply same_result_trans].
Qed.
End Split.

(** C25: however the transport cuts the bytes of a connection, the client's exchange ends with what
    one call of the parser gives on all the bytes received at the end of the stream: the same
    status, the same response, and, unless it is an error, the same parser, hence the same
    decision to keep the connection and the same number of bytes consumed.  In particular every
    call returns, without an access out of the buffer, and none asks for more after the end. *)
Theorem response_split_independent decompress maxResponseBytes headRequest reads :
  exists s p resp p',
    exchange decompress reads [] maxResponseBytes (parser_reset headRequest) new_response = Some (s, p, resp)
    /\ parse decompress (concat reads) true maxResponseBytes (parser_reset headRequest) new_response = Some (s, p', resp)
    /\ s <> SNeedMore /\ (s <> SError -> p' = p).
Proof.
  destruct (exchange_ok decompress maxResponseBytes reads [] (parser_reset headRequest) new_response)
    as ([[s p] resp] & [[s' p'] resp'] & E & E' & E1 & E2 & E3); [apply parser_ok_reset|].
  cbn [fst snd] in *. subst s' resp'. exists s, p, resp, p'. split_and!; [done|done| |intros Hs; by injection (E3 Hs)].
  intros ->. destruct (parse_total decompress maxResponseBytes (concat reads) true (parser_reset headRequest) new_response)
    as (s & q & r & Eq & Hq); [apply parser_ok_reset|]. cbn [app] in E'. rewrite E' in Eq. injection Eq as <- _ _. by destruct (Hq eq_refl).
Qed.
