(* ===== verification/ResponseRoundtrip.v ===== *)
(** A well-formed HTTP/1.1 response is received as it was sent, whatever the reads of the
    transport: status, reason, fields, body of a given length or in chunks, and exactly its bytes
    are consumed. *)

From S2P Require Import Prelude.
From S2P Require Import AsciiCase.
From S2P Require Import HeadersView.
From S2P Require Import UrlCodec.
From S2P Require Import Http1Request.
From S2P Require Import Http1Body.
From S2P Require Import Http1BodyProofs.
From S2P Require Import Cors.
From S2P Require Import RoutePattern.
From S2P Require Import RoutePatternProofs.
From S2P Require Import ResponseParser.
From S2P Require Import ResponseParserProofs.
Local Open Scope Z_scope.

(** ** Texts *)

Definition no_lf (l : bytes) : Prop := Forall (fun b => b <> 10) l.

#[export] Instance no_lf_dec l : Decision (no_lf l).
Proof. unfold no_lf. apply _. Defined.

Lemma trim_left_id v : v <> [] -> TrimOws v = v -> trim_left v = v.
Proof.
  intros Hne H. destruct v as [|c v]; [done|]. cbn [trim_left]. destruct (isWhitespace c) eqn:Ec; [exfalso|done].
  assert (Hl : (length (trim_left (c :: v)) <= length v)%nat) by (cbn [trim_left]; rewrite Ec; apply length_trim_left).
  pose proof (length_TrimOws (c :: v)) as Ht. rewrite H in Ht. cbn [length] in Ht. lia.
Qed.

(** A value after its separator. *)
Lemma TrimOws_space v : TrimOws v = v -> TrimOws (32 :: v) = v.
Proof.
  intros H. destruct (decide (v = [])) as [->|Hne]; [done|].
  unfold TrimOws at 1. cbn [isWhitespace Z.eqb Pos.eqb orb negb andb trim_left].
  pose proof (trim_left_id v Hne H) as Hl. rewrite Hl. destruct v as [|c v]; [done|]. revert H. unfold TrimOws.
  destruct (negb (isWhitespace c) && negb (isWhitespace (List.last (c :: v) 0))) eqn:E.
  - intros _. apply andb_true_iff in E as [_ E]. apply negb_true_iff in E.
    destruct (exists_last (l := c :: v)) as (w & z & Ew); [done|]. rewrite Ew in *. rewrite last_last in E.
    rewrite rev_app_distr. cbn [rev app trim_left]. rewrite E. cbn [rev]. by rewrite rev_involutive.
  - by rewrite Hl.
Qed.

Lemma strip_cr_own line : strip_cr (line ++ [13]) = line.
Proof.
  unfold strip_cr. rewrite last_snoc, length_app. cbn [length].
  replace (length line + 1 - 1)%nat with (length line) by lia. by rewrite take_app_length.
Qed.

(** A line in the buffer. *)
Lemma line_at pre line post :
  no_lf line ->
  let b := pre ++ line ++ CRLF ++ post in
  find_char 10 b (length pre) = Some (length pre + length line + 1)%nat
  /\ substr b (length pre) (length line + 1) = line ++ [13].
Proof.
  intros Hl b. subst b. split.
  - unfold find_char. rewrite drop_app_length.
    change (CRLF ++ post) with ([13] ++ 10 :: post). rewrite app_assoc, memchr_pos_app.
    + cbn. rewrite length_app. cbn. f_equal. lia.
    + apply Forall_app. split; [done|]. by repeat constructor.
  - unfold substr. rewrite drop_app_length. change (CRLF ++ post) with ([13] ++ 10 :: post).
    rewrite app_assoc. replace (length line + 1)%nat with (length (line ++ [13])) by (rewrite length_app; cbn; lia).
    by rewrite take_app_length.
Qed.

(** ** Messages *)

Definition field_line (f : bytes * bytes) : bytes := fst f ++ HeaderSep ++ snd f ++ CRLF.

(** Names that the parser takes for itself. *)
Definition framing_name (name : bytes) : bool :=
  CaseInsensitiveEqual name (str "content-type") || CaseInsensitiveEqual name (str "content-length")
  || CaseInsensitiveEqual name (str "transfer-encoding").

Definition field_wf (f : bytes * bytes) : Prop :=
  fst f <> [] /\ no_lf (fst f) /\ Forall (fun b => b <> 58) (fst f) /\ no_lf (snd f) /\ TrimOws (snd f) = snd f.

(** A field that is kept; codings are left to decompression. *)
Definition plain_field (f : bytes * bytes) : Prop :=
  field_wf f /\ framing_name (fst f) = false /\ CaseInsensitiveEqual (fst f) (str "content-encoding") = false.

Inductive Payload :=
| ByLength (text body : bytes)
| ByChunks (cs : list Chunk) (trailers : list bytes).

(** The fields that the receiver keeps come before the content type, after it and after the
    field that delimits the body; the names of these two are written in any case. *)
Record ResponseMessage := MkMessage {
  ms_code : Z;
  ms_reason : bytes;
  ms_fields : list (bytes * bytes);
  ms_type : option (bytes * bytes);
  ms_middle : list (bytes * bytes);
  ms_framing : bytes;
  ms_after : list (bytes * bytes);
  ms_payload : Payload
}.
Definition kept_fields (m : ResponseMessage) : list (bytes * bytes) := ms_fields m ++ ms_middle m ++ ms_after m.

Definition code_text (c : Z) : bytes := [48 + c / 100; 48 + c / 10 mod 10; 48 + c mod 10].
Definition status_text (m : ResponseMessage) : bytes :=
  str "HTTP/1.1 " ++ code_text (ms_code m) ++ [32] ++ ms_reason m.
Definition type_fields (m : ResponseMessage) : list (bytes * bytes) :=
  match ms_type m with Some f => [f] | None => [] end.
Definition framing_field (m : ResponseMessage) : bytes * bytes :=
  (ms_framing m, match ms_payload m with ByLength text _ => text | ByChunks _ _ => str "chunked" end).
Definition body_text (m : ResponseMessage) : bytes :=
  match ms_payload m with
  | ByLength _ body => body
  | ByChunks cs trailers => encode_chunks cs ++ str "0" ++ CRLF ++ concat (map (fun t => t ++ CRLF) trailers) ++ CRLF
  end.
Definition message_body (m : ResponseMessage) : bytes :=
  match ms_payload m with ByLength _ body => body | ByChunks cs _ => chunks_data cs end.

Definition encode_response (m : ResponseMessage) : bytes :=
  (status_text m ++ CRLF) ++ concat (map field_line (ms_fields m ++ type_fields m ++ ms_middle m ++ [framing_field m] ++ ms_after m)) ++ CRLF
  ++ body_text m.

(** What the receiver gets. *)
Definition message_type (m : ResponseMessage) : bytes := default ContentTypeApplicationOctetStream (option_map snd (ms_type m)).
Definition received (m : ResponseMessage) : HttpResponse :=
  MkResponse (ms_code m) (ms_reason m) (kept_fields m)
    (if bool_decide (message_body m = []) then None else Some (message_body m, message_type m)).

(** The options of every Connection field, in order. *)
Definition scan_field (seen : bool * bool) (f : bytes * bytes) : bool * bool :=
  if CaseInsensitiveEqual (fst f) (str "connection")
  then ScanConnectionTokens (S (length (snd f))) (snd f) (fst seen) (snd seen) else seen.
Definition connection_seen (fields : list (bytes * bytes)) : bool * bool := foldl scan_field (false, false) fields.
Definition keeps_alive (m : ResponseMessage) : bool := negb (fst (connection_seen (kept_fields m))).

Definition payload_wf (p : Payload) : Prop :=
  match p with
  | ByLength text body => from_chars_size text = Some (zlen body)
  | ByChunks cs trailers =>
      Forall chunk_wf cs /\ Forall (fun t => no_lf t /\ t <> []) trailers
  end.

(** A name, and the one that the parser takes it for. *)
Definition named_as (name which : bytes) : Prop :=
  name <> [] /\ no_lf name /\ Forall (fun b => b <> 58) name
  /\ CaseInsensitiveEqual name (str "content-type") = bool_decide (which = str "content-type")
  /\ CaseInsensitiveEqual name (str "content-length") = bool_decide (which = str "content-length")
  /\ CaseInsensitiveEqual name (str "transfer-encoding") = bool_decide (which = str "transfer-encoding").

Definition message_wf (m : ResponseMessage) : Prop :=
  200 <= ms_code m <= 599 /\ ms_code m <> 204 /\ ms_code m <> 304
  /\ no_lf (ms_reason m) /\ TrimOws (ms_reason m) = ms_reason m /\ (length (ms_reason m) <= kMaxReasonLength)%nat
  /\ Forall plain_field (kept_fields m)
  /\ (forall name ct, ms_type m = Some (name, ct) -> named_as name (str "content-type")
        /\ no_lf ct /\ TrimOws ct = ct /\ (ContentTypeMinLen <= length ct)%nat /\ IsValidHeaderValue ct = true)
  /\ named_as (ms_framing m) (match ms_payload m with ByLength _ _ => str "content-length" | _ => str "transfer-encoding" end)
  /\ payload_wf (ms_payload m).

(** ** Lines of the head *)

Section Receive.
Context (decompress : option (bytes -> bytes -> option bytes)) (maxResponseBytes : Z) (eof : bool).
Local Abbreviation head_runs := (head_runs decompress maxResponseBytes).

Lemma head_line_at pre line post p resp :
  no_lf line -> rp_pos p = length pre -> Z.of_nat (length pre + length line + 2) <= maxResponseBytes ->
  let p1 := set_pos (length pre + length line + 2) p in
  let b := pre ++ line ++ CRLF ++ post in
  head_line decompress b eof maxResponseBytes p resp =
    if bool_decide (rp_state p1 = StatusLine) then
      match parse_status_line line p1 resp with
      | None => (HReturn SError, p1, resp) | Some (p, resp) => (HContinue, p, resp)
      end
    else if bool_decide (line = []) then
      if rp_statusCode p1 <? 200 then (HContinue, restart p1, resp)
      else let '(s, p) := decideFraming p1 in
           if bool_decide (s = SComplete) then
             let '(s, resp) := installBody decompress p b resp in (HReturn s, p, resp)
           else (HBreak, p, resp)
    else match parse_header line (length pre) p1 resp with
         | None => (HReturn SError, p1, resp) | Some (p, resp) => (HContinue, p, resp)
         end.
Proof.
  intros Hl Hp Hm p1 b. destruct (line_at pre line post Hl) as [Hf Hs]. fold b in Hf, Hs.
  unfold head_line. rewrite Hp, Hf. replace (length pre + length line + 1 - length pre)%nat with (length line + 1)%nat by lia.
  rewrite Hs, strip_cr_own. replace (S (length pre + length line + 1)) with (length pre + length line + 2)%nat by lia.
  by rewrite (proj2 (Z.ltb_ge _ _)) by lia.
Qed.

Lemma code_text_ok c :
  200 <= c <= 599 -> from_chars_int16 (code_text c) = Some c /\ Forall (fun b => b <> 32 /\ b <> 10) (code_text c).
Proof.
  intros Hc.
  assert (H : forallb (fun n => bool_decide (from_chars_int16 (code_text n) = Some n
                                 /\ Forall (fun b => b <> 32 /\ b <> 10) (code_text n))) (seqZ 200 400) = true)
    by (vm_compute; reflexivity).
  rewrite forallb_forall in H. specialize (H c). rewrite bool_decide_eq_true in H. apply H.
  apply list_elem_of_In, elem_of_seqZ. lia.
Qed.

Lemma parse_status_text m p resp :
  message_wf m ->
  no_lf (status_text m) /\
  parse_status_line (status_text m) p resp
  = Some (set_rp_state Headers (set_code (ms_code m) true p), rs_set_reason (ms_reason m) (rs_set_status (ms_code m) resp)).
Proof.
  intros (Hc & _ & _ & Hr & Ht & _). destruct (code_text_ok (ms_code m) Hc) as [Ecode Hcode].
  assert (Hlf : no_lf (code_text (ms_code m))) by (eapply Forall_impl; [exact Hcode|]; by intros ? [_ ?]).
  split.
  - unfold status_text. repeat (apply Forall_app; split); try done; [vm_compute; by repeat constructor|by repeat constructor].
  - unfold parse_status_line. change (status_text m) with (str "HTTP/1.1" ++ 32 :: code_text (ms_code m) ++ 32 :: ms_reason m).
    rewrite memchr_pos_app by (vm_compute; by repeat constructor). cbn [mbind option_bind].
    rewrite take_app_length. replace (drop (S (length (str "HTTP/1.1"))) _) with (code_text (ms_code m) ++ 32 :: ms_reason m) by done.
    replace (isValid (Version_of (str "HTTP/1.1"))) with true by (vm_compute; reflexivity).
    replace (Version_of (str "HTTP/1.1") =? HTTP_1_1) with true by (vm_compute; reflexivity). cbn [negb].
    unfold parse_status. rewrite memchr_pos_app by (eapply Forall_impl; [exact Hcode|]; by intros ? [? _]).
    rewrite take_app_length, Ecode. cbn [mbind option_bind].
    rewrite (proj2 (Z.ltb_ge _ _)), (proj2 (Z.ltb_ge 599 _)) by lia. cbn [orb].
    rewrite drop_app_ge by lia. replace (S (length (code_text (ms_code m))) - length (code_text (ms_code m)))%nat with 1%nat by lia.
    rewrite skipn_cons, drop_0. by rewrite Ht.
Qed.

(** A field line without its end. *)
Definition field_text (f : bytes * bytes) : bytes := fst f ++ HeaderSep ++ snd f.

Lemma field_text_ok f : field_wf f -> no_lf (field_text f) /\ field_text f <> [].
Proof.
  intros (Hn & Hl & _ & Hv & _). split; [|unfold field_text; by destruct (fst f)].
  repeat (apply Forall_app; split); try done. by repeat constructor.
Qed.

(** The name and the value of a field line. *)
Lemma parse_header_text f start p resp :
  field_wf f ->
  parse_header (field_text f) start p resp =
    let name := fst f in
    let value := snd f in
    if CaseInsensitiveEqual name (str "content-type") then
      Some (set_content_type (if bool_decide (value = []) then 0 else start + length name + 2)%nat (length value) p, resp)
    else if CaseInsensitiveEqual name (str "content-length") then
      len ← from_chars_size value; Some (set_content_length len p, resp)
    else if CaseInsensitiveEqual name (str "transfer-encoding") then
      Some (set_chunked (LastTransferEncodingIsChunked value) p, resp)
    else
      let p :=
        if CaseInsensitiveEqual name (str "connection") then
          let '(close, keepAlive) := ScanConnectionTokens (S (length value)) value
                                       (rp_connectionCloseSeen p) (rp_connectionKeepAliveSeen p) in
          set_seen close keepAlive p
        else p in
      Some (p, headerAddLineUnchecked name value resp).
Proof.
  intros (Hn & _ & Hc & _ & Ht). unfold parse_header, field_text.
  change (fst f ++ HeaderSep ++ snd f) with (fst f ++ 58 :: 32 :: snd f).
  rewrite memchr_pos_app by done. cbn [mbind option_bind]. rewrite take_app_length.
  replace (drop (S (length (fst f))) (fst f ++ 58 :: 32 :: snd f)) with (32 :: snd f)
    by (rewrite drop_app_ge by lia; replace (S (length (fst f)) - length (fst f))%nat with 1%nat by lia; done).
  rewrite (proj2 (Nat.eqb_neq _ _)) by (destruct (fst f); [done|cbn; lia]).
  rewrite TrimOws_space by done. cbv zeta. destruct (CaseInsensitiveEqual _ (str "content-type")); [|done].
  repeat f_equal. case_bool_decide as Hv; [done|]. cbn [trim_left isWhitespace Z.eqb Pos.eqb orb].
  rewrite trim_left_id by done. cbn [length]. lia.
Qed.

Definition seen (p : ResponseParser) : bool * bool := (rp_connectionCloseSeen p, rp_connectionKeepAliveSeen p).
Definition advance (n : nat) (sn : bool * bool) (p : ResponseParser) : ResponseParser :=
  set_seen (fst sn) (snd sn) (set_pos n p).
Definition add_fields (fields : list (bytes * bytes)) (r : HttpResponse) : HttpResponse :=
  MkResponse (rs_status r) (rs_reason r) (rs_headers r ++ fields) (rs_body r).

Lemma field_line_split f post : field_line f ++ post = field_text f ++ CRLF ++ post.
Proof. unfold field_line, field_text. by rewrite <- !app_assoc. Qed.

Lemma length_field_line f : length (field_line f) = (length (field_text f) + 2)%nat.
Proof. unfold field_line, field_text. rewrite !length_app. cbn. lia. Qed.

(** One field line, whatever the parser makes of it. *)
Lemma field_step pre f post p resp p' resp' r :
  field_wf f -> rp_state p = Headers -> rp_pos p = length pre ->
  Z.of_nat (length (pre ++ field_line f)) <= maxResponseBytes ->
  parse_header (field_text f) (length pre) (set_pos (length (pre ++ field_line f)) p) resp = Some (p', resp') ->
  head_runs (pre ++ field_line f ++ post) eof p' resp' r -> head_runs (pre ++ field_line f ++ post) eof p resp r.
Proof.
  intros Hf Hs Hp Hm Ep. destruct (field_text_ok f Hf) as [Hl Hne]. rewrite field_line_split.
  rewrite length_app, length_field_line in Hm, Ep. rewrite Nat.add_assoc in Ep, Hm.
  apply head_runs_step; [by right|]. rewrite head_line_at by done.
  rewrite bool_decide_false by (cbn; rewrite Hs; done). rewrite bool_decide_false by done. by rewrite Ep.
Qed.

Lemma plain_step pre f post p resp r :
  plain_field f -> rp_state p = Headers -> rp_pos p = length pre ->
  Z.of_nat (length (pre ++ field_line f)) <= maxResponseBytes ->
  head_runs (pre ++ field_line f ++ post) eof
    (advance (length (pre ++ field_line f)) (scan_field (seen p) f) p) (add_fields [f] resp) r ->
  head_runs (pre ++ field_line f ++ post) eof p resp r.
Proof.
  intros (Hf & Hn & _) Hs Hp Hm. apply field_step; [done..|]. rewrite parse_header_text by done. cbv zeta.
  unfold framing_name in Hn. apply orb_false_iff in Hn as [Hn ->]. apply orb_false_iff in Hn as [-> ->].
  unfold scan_field, seen. destruct (CaseInsensitiveEqual (fst f) (str "connection")).
  - cbn [fst snd set_pos rp_connectionCloseSeen rp_connectionKeepAliveSeen].
    destruct (ScanConnectionTokens _ _ _ _) as [c k]. by destruct f.
  - by destruct f.
Qed.

Lemma plain_steps fields pre post p resp r :
  Forall plain_field fields -> rp_state p = Headers -> rp_pos p = length pre ->
  Z.of_nat (length (pre ++ concat (map field_line fields))) <= maxResponseBytes ->
  head_runs (pre ++ concat (map field_line fields) ++ post) eof
    (advance (length (pre ++ concat (map field_line fields))) (foldl scan_field (seen p) fields) p)
    (add_fields fields resp) r ->
  head_runs (pre ++ concat (map field_line fields) ++ post) eof p resp r.
Proof.
  intros Hf. revert pre p resp. induction Hf as [|f fields Hf Hfs IH]; intros pre p resp Hs Hp Hm Hr; cbn [map concat] in *.
  - rewrite app_nil_r, <- Hp in Hr. destruct p, resp. unfold add_fields in Hr. cbn in *. by rewrite app_nil_r in Hr.
  - rewrite app_assoc in Hm. rewrite <- app_assoc. apply plain_step; [done|done|done| |].
    { rewrite !length_app in *. lia. }
    set (p1 := advance (length (pre ++ field_line f)) (scan_field (seen p) f) p).
    assert (Hseen : seen p1 = scan_field (seen p) f) by (symmetry; apply surjective_pairing).
    assert (Hadd : add_fields fields (add_fields [f] resp) = add_fields (f :: fields) resp)
      by (unfold add_fields; cbn; by rewrite <- app_assoc).
    specialize (IH (pre ++ field_line f) p1 (add_fields [f] resp)). rewrite Hseen, Hadd in IH.
    assert (E : pre ++ field_line f ++ concat (map field_line fields) ++ post
                = (pre ++ field_line f) ++ concat (map field_line fields) ++ post) by by rewrite <- app_assoc.
    rewrite <- (app_assoc (field_line f)), E in Hr. rewrite (app_assoc pre (field_line f) (concat _)) in Hr.
    rewrite E. by apply IH.
Qed.

(** The end of the head. *)
Lemma blank_step pre post p resp p' :
  rp_state p = Headers -> rp_pos p = length pre -> Z.of_nat (length pre + 2) <= maxResponseBytes ->
  200 <= rp_statusCode p ->
  decideFraming (set_pos (length pre + 2) p) = (SNeedMore, p') ->
  head_runs (pre ++ CRLF ++ post) eof p resp (HBreak, p', resp).
Proof.
  intros Hs Hp Hm Hc Ed. apply head_runs_stop; [by right| |done].
  rewrite (head_line_at pre [] post) by (done || (cbn [length]; lia) || constructor).
  rewrite bool_decide_false by (cbn; rewrite Hs; done). rewrite bool_decide_true by done.
  rewrite (proj2 (Z.ltb_ge _ _)) by done. cbn [length]. rewrite Nat.add_0_r, Ed. by rewrite bool_decide_false.
Qed.

Lemma blank_step_empty pre post p resp p' s resp' :
  rp_state p = Headers -> rp_pos p = length pre -> Z.of_nat (length pre + 2) <= maxResponseBytes ->
  200 <= rp_statusCode p ->
  decideFraming (set_pos (length pre + 2) p) = (SComplete, p') ->
  installBody decompress p' (pre ++ CRLF ++ post) resp = (s, resp') ->
  head_runs (pre ++ CRLF ++ post) eof p resp (HReturn s, p', resp').
Proof.
  intros Hs Hp Hm Hc Ed Ei. apply head_runs_stop; [by right| |done].
  rewrite (head_line_at pre [] post) by (done || (cbn [length]; lia) || constructor).
  rewrite bool_decide_false by (cbn; rewrite Hs; done). rewrite bool_decide_true by done.
  rewrite (proj2 (Z.ltb_ge _ _)) by done. cbn [length app] in *. rewrite Nat.add_0_r, Ed.
  rewrite bool_decide_true by done. by rewrite Ei.
Qed.

(** ** The head of a message *)

Definition status_line (m : ResponseMessage) : bytes := status_text m ++ CRLF.
Definition lines (fs : list (bytes * bytes)) : bytes := concat (map field_line fs).
Definition plain_text (m : ResponseMessage) : bytes := status_line m ++ lines (ms_fields m).
Definition typed_text (m : ResponseMessage) : bytes := plain_text m ++ lines (type_fields m).
Definition framed_text (m : ResponseMessage) : bytes := (typed_text m ++ lines (ms_middle m)) ++ field_line (framing_field m).
Definition head_text (m : ResponseMessage) : bytes := framed_text m ++ lines (ms_after m).

Lemma encode_response_split m rest :
  encode_response m ++ rest = head_text m ++ CRLF ++ body_text m ++ rest.
Proof.
  unfold encode_response, head_text, framed_text, typed_text, plain_text, status_line, lines.
  rewrite !map_app, !concat_app. cbn [map concat]. by rewrite app_nil_r, <- !app_assoc.
Qed.

(** The parser when the head has been read but for its last line. *)
Definition with_type (m : ResponseMessage) (p : ResponseParser) : ResponseParser :=
  match ms_type m with
  | Some f => set_content_type (length (plain_text m) + length (fst f) + 2) (length (snd f)) p
  | None => p
  end.
Definition with_framing (m : ResponseMessage) (p : ResponseParser) : ResponseParser :=
  match ms_payload m with
  | ByLength _ body => set_content_length (zlen body) p
  | ByChunks _ _ => set_chunked true p
  end.
Definition started_with (fields : list (bytes * bytes)) (m : ResponseMessage) (n : nat) (p : ResponseParser) : ResponseParser :=
  advance n (connection_seen fields) (set_rp_state Headers (set_code (ms_code m) true p)).
Definition parser_started (m : ResponseMessage) : nat -> ResponseParser -> ResponseParser := started_with (kept_fields m) m.
Definition response_with (fields : list (bytes * bytes)) (m : ResponseMessage) : HttpResponse :=
  MkResponse (ms_code m) (ms_reason m) fields None.
Definition response_started (m : ResponseMessage) : HttpResponse := response_with (kept_fields m) m.
Definition start : ResponseParser := parser_reset false.

Lemma connection_seen_app f g : connection_seen (f ++ g) = foldl scan_field (connection_seen f) g.
Proof. unfold connection_seen. by rewrite foldl_app. Qed.

Lemma status_run m post r :
  message_wf m -> zlen (plain_text m) <= maxResponseBytes ->
  head_runs (plain_text m ++ post) eof (started_with (ms_fields m) m (length (plain_text m)) start) (response_with (ms_fields m) m) r ->
  head_runs (plain_text m ++ post) eof start new_response r.
Proof.
  intros Hm Hz Hr. pose proof (parse_status_text m (set_pos (length (status_line m)) start) new_response Hm) as [Hl Ep].
  destruct Hm as (_ & _ & _ & _ & _ & Hlen & Hf & _). unfold kept_fields in Hf. apply Forall_app in Hf as [Hf _].
  unfold plain_text, lines in *. rewrite <- app_assoc in *.
  rewrite zlen_app in Hz. pose proof (zlen_nonneg (concat (map field_line (ms_fields m)))).
  assert (Hn : length (status_line m) = (length (status_text m) + 2)%nat)
    by (unfold status_line; rewrite length_app; reflexivity).
  assert (Es : head_line decompress (status_line m ++ concat (map field_line (ms_fields m)) ++ post) eof maxResponseBytes start new_response
    = (HContinue, set_rp_state Headers (set_code (ms_code m) true (set_pos (length (status_line m)) start)),
       rs_set_reason (ms_reason m) (rs_set_status (ms_code m) new_response))).
  { unfold status_line. rewrite <- app_assoc.
    rewrite (head_line_at [] (status_text m) (concat (map field_line (ms_fields m)) ++ post)); [|done|done|].
    - rewrite bool_decide_true by done. cbn [length Nat.add]. rewrite <- Hn. by rewrite Ep.
    - cbn [length]. unfold zlen in Hz. lia. }
  eapply head_runs_step; [by left|exact Es|]. apply plain_steps; [done|done|done| |].
  - rewrite length_app. unfold zlen in *. lia.
  - assert (E : add_fields (ms_fields m) (rs_set_reason (ms_reason m) (rs_set_status (ms_code m) new_response)) = response_with (ms_fields m) m).
    { unfold add_fields, rs_set_reason, rs_set_status, new_response, response_with. cbn. by rewrite take_ge. }
    rewrite E. exact Hr.
Qed.

Lemma named_field_wf name which v : named_as name which -> no_lf v -> TrimOws v = v -> field_wf (name, v).
Proof. intros (H1 & H2 & H3 & _) Hv Ht. by split_and!. Qed.

Lemma typed_run m post r :
  message_wf m -> zlen (typed_text m) <= maxResponseBytes ->
  head_runs (typed_text m ++ post) eof (with_type m (started_with (ms_fields m) m (length (typed_text m)) start)) (response_with (ms_fields m) m) r ->
  head_runs (typed_text m ++ post) eof start new_response r.
Proof.
  intros Hm Hz Hr. unfold typed_text in *. rewrite zlen_app in Hz. rewrite <- app_assoc in *.
  pose proof (zlen_nonneg (lines (type_fields m))).
  apply status_run; [done|lia|]. destruct Hm as (_ & _ & _ & _ & _ & _ & _ & Ht & _).
  unfold with_type, type_fields, lines in *. destruct (ms_type m) as [[name ct]|]; cbn [map concat] in *.
  2: { by rewrite app_nil_r in Hr. }
  destruct (Ht name ct eq_refl) as (Hn & Hl & Hw & Hlen & _). rewrite app_nil_r in *.
  pose proof (named_field_wf _ _ _ Hn Hl Hw) as Hf.
  eapply field_step; [exact Hf|done|done| | |exact Hr].
  - rewrite length_app. unfold zlen in Hz. lia.
  - rewrite parse_header_text by done. destruct Hn as (_ & _ & _ & En & _). cbv zeta. cbn [fst snd]. rewrite En, bool_decide_true by done.
    rewrite bool_decide_false by (intros ->; unfold ContentTypeMinLen in Hlen; cbn in Hlen; lia). done.
Qed.

Lemma middle_run m post r :
  message_wf m -> zlen (typed_text m ++ lines (ms_middle m)) <= maxResponseBytes ->
  head_runs ((typed_text m ++ lines (ms_middle m)) ++ post) eof
    (with_type m (started_with (ms_fields m ++ ms_middle m) m (length (typed_text m ++ lines (ms_middle m))) start))
    (response_with (ms_fields m ++ ms_middle m) m) r ->
  head_runs ((typed_text m ++ lines (ms_middle m)) ++ post) eof start new_response r.
Proof.
  intros Hm Hz Hr. rewrite zlen_app in Hz. pose proof (zlen_nonneg (lines (ms_middle m))). rewrite <- app_assoc in *.
  apply typed_run; [done|lia|]. destruct Hm as (_ & _ & _ & _ & _ & _ & Hf & _). unfold kept_fields in Hf.
  apply Forall_app in Hf as [_ Hf]. apply Forall_app in Hf as [Hf _]. set (p := with_type m _).
  apply (plain_steps (ms_middle m) (typed_text m) post p); [done|subst p; unfold with_type; by destruct (ms_type m)|subst p; unfold with_type; by destruct (ms_type m)| |].
  - fold (lines (ms_middle m)). rewrite length_app. unfold zlen in Hz. lia.
  - assert (Es : seen p = connection_seen (ms_fields m)) by (subst p; unfold with_type; destruct (ms_type m); symmetry; apply surjective_pairing).
    rewrite Es, <- connection_seen_app. unfold add_fields. cbn [response_with rs_status rs_reason rs_headers rs_body].
    fold (response_with (ms_fields m ++ ms_middle m) m) (lines (ms_middle m)). subst p. unfold with_type in *. by destruct (ms_type m).
Qed.

Lemma digits_ok l acc v :
  digits_value acc l = Some v -> Forall (fun c => 48 <= c <= 57) l.
Proof.
  revert acc. induction l as [|c l IH]; intros acc; cbn; [constructor|].
  destruct (Z.leb_spec 48 c); [|done]. destruct (Z.leb_spec c 57); [|done]. intros E. constructor; [lia|exact (IH _ E)].
Qed.

Lemma length_text_ok l v : from_chars_size l = Some v -> no_lf l /\ TrimOws l = l.
Proof.
  intros E. assert (Hd : Forall (fun c => 48 <= c <= 57) l).
  { unfold from_chars_size in E. destruct l as [|c l]; [done|]. destruct (digits_value 0 (c :: l)) eqn:Ed; [|done].
    by eapply digits_ok. }
  split; [eapply Forall_impl; [exact Hd|]; cbn; lia|].
  unfold TrimOws. destruct l as [|c l]; [done|].
  assert (Hn : forall x, 48 <= x <= 57 -> isWhitespace x = false) by (intros x Hx; unfold isWhitespace; ztest; lia || done).
  destruct (exists_last (l := c :: l)) as (w & z & Ew); [done|]. assert (Hc : 48 <= c <= 57) by by inversion Hd.
  rewrite (Hn c Hc). rewrite Ew in *. rewrite last_last. apply Forall_app in Hd as [_ Hd]. inversion Hd. by rewrite Hn.
Qed.

Lemma framing_run m post r :
  message_wf m -> zlen (framed_text m) <= maxResponseBytes ->
  head_runs (framed_text m ++ post) eof
    (with_framing m (with_type m (started_with (ms_fields m ++ ms_middle m) m (length (framed_text m)) start)))
    (response_with (ms_fields m ++ ms_middle m) m) r ->
  head_runs (framed_text m ++ post) eof start new_response r.
Proof.
  intros Hm Hz Hr. unfold framed_text in *. set (before := typed_text m ++ lines (ms_middle m)) in *.
  rewrite zlen_app in Hz. rewrite <- app_assoc in *.
  pose proof (zlen_nonneg (field_line (framing_field m))). apply middle_run; [done|fold before; lia|]. fold before.
  destruct Hm as (_ & _ & _ & _ & _ & _ & _ & _ & Hn & Hp).
  assert (Hf : field_wf (framing_field m)).
  { unfold framing_field. destruct (ms_payload m) as [text body|cs ts]; cbn in Hp.
    - apply length_text_ok in Hp as [Hl Hw]. by apply (named_field_wf _ _ _ Hn).
    - apply (named_field_wf _ _ _ Hn); [vm_compute; by repeat constructor|vm_compute; reflexivity]. }
  eapply field_step; [done|unfold with_type; by destruct (ms_type m)|unfold with_type; by destruct (ms_type m)| | |exact Hr].
  { rewrite length_app. unfold zlen in Hz. lia. }
  rewrite parse_header_text by done. destruct Hn as (_ & _ & _ & E1 & E2 & E3). unfold framing_field, with_framing in *. cbv zeta. cbn [fst snd].
  rewrite E1, E2, E3. destruct (ms_payload m) as [text body|cs ts]; cbn in Hp.
  - rewrite bool_decide_false, bool_decide_true by done. rewrite Hp. cbn [mbind option_bind]. unfold with_type. by destruct (ms_type m).
  - rewrite !bool_decide_false, bool_decide_true by done.
    replace (LastTransferEncodingIsChunked (str "chunked")) with true by (vm_compute; reflexivity).
    unfold with_type. by destruct (ms_type m).
Qed.

Lemma head_run m post r :
  message_wf m -> zlen (head_text m) <= maxResponseBytes ->
  head_runs (head_text m ++ post) eof (with_framing m (with_type m (parser_started m (length (head_text m)) start))) (response_started m) r ->
  head_runs (head_text m ++ post) eof start new_response r.
Proof.
  intros Hm Hz Hr. unfold head_text in *. rewrite zlen_app in Hz. pose proof (zlen_nonneg (lines (ms_after m))). rewrite <- app_assoc in *.
  apply framing_run; [done|lia|]. destruct Hm as (_ & _ & _ & _ & _ & _ & Hf & _). unfold kept_fields in Hf.
  apply Forall_app in Hf as [_ Hf]. apply Forall_app in Hf as [_ Hf]. set (p := with_framing m _).
  assert (Hp : rp_state p = Headers /\ rp_pos p = length (framed_text m) /\ seen p = connection_seen (ms_fields m ++ ms_middle m)).
  { subst p. unfold with_framing, with_type. destruct (ms_payload m), (ms_type m); split_and!; try done; symmetry; apply surjective_pairing. }
  destruct Hp as (Hs & Hpos & Es). apply (plain_steps (ms_after m) (framed_text m) post p); [done|done|done| |].
  - fold (lines (ms_after m)). rewrite length_app. unfold zlen in Hz. lia.
  - rewrite Es, <- connection_seen_app. unfold add_fields. cbn [response_with rs_status rs_reason rs_headers rs_body]. rewrite <- app_assoc.
    fold (kept_fields m). fold (response_started m) (lines (ms_after m)). subst p. unfold with_framing, with_type, parser_started in *.
    by destruct (ms_payload m), (ms_type m).
Qed.

(** ** Chunks *)

Lemma hex_value_app a b acc : hex_value acc (a ++ b) = (x ← hex_value acc a; hex_value x b).
Proof. revert acc. induction a as [|c a IH]; intros acc; cbn; [done|]. destruct (from_hex_digit c <? 0); [done|apply IH]. Qed.

Lemma hex_loop_value fuel v rest :
  fuel <> 0%nat -> 0 <= v < 16 ^ Z.of_nat fuel ->
  exists h, lower_hex_loop fuel v rest = h ++ rest /\ h <> [] /\ hex_value 0 h = Some v
    /\ Forall (fun b => 0 <= from_hex_digit b) h.
Proof.
  revert v rest. induction fuel as [|fuel IH]; intros v rest Hf Hv; [done|]. cbn [lower_hex_loop].
  rewrite land_15, Z.shiftr_div_pow2 by lia. change (2 ^ 4) with 16.
  assert (Hmod : 0 <= v mod 16 < 16) by (apply Z.mod_pos_bound; lia).
  destruct (hexit_ok (v mod 16) Hmod) as (Ed & _).
  destruct (Z.eqb_spec (v / 16) 0) as [E|E].
  - exists [hexit 97 (v mod 16)]. split_and!; [done|done| |by (constructor; [rewrite Ed; lia|constructor])].
    cbn [hex_value]. rewrite Ed, (proj2 (Z.ltb_ge _ _)) by lia. f_equal. zlia.
  - rewrite Nat2Z.inj_succ, Z.pow_succ_r in Hv by lia.
    assert (Hfuel : fuel <> 0%nat) by (intros ->; cbn in Hv; zlia).
    destruct (IH (v / 16) (hexit 97 (v mod 16) :: rest) Hfuel) as (h & E1 & Hne & E2 & Hh).
    { split; [zlia|]. apply Z.div_lt_upper_bound; lia. }
    exists (h ++ [hexit 97 (v mod 16)]). rewrite E1. split_and!; [by rewrite <- app_assoc|by destruct h| |].
    + rewrite hex_value_app, E2. cbn [mbind option_bind hex_value]. rewrite Ed, (proj2 (Z.ltb_ge _ _)) by lia. f_equal. zlia.
    + apply Forall_app. split; [done|]. constructor; [rewrite Ed; lia|constructor].
Qed.

Lemma hex_char_ok b : 0 <= from_hex_digit b -> b <> 10 /\ b <> 59 /\ isWhitespace b = false.
Proof.
  unfold from_hex_digit, isWhitespace. intros H.
  assert (48 <= b) by (revert H; ztest; cbn [andb]; lia).
  split_and!; [lia|intros ->; revert H; cbn; lia|]. apply orb_false_iff. split; apply Z.eqb_neq; lia.
Qed.

(** The size of a chunk, with its extension. *)
Lemma size_text_ok n ext :
  0 <= n < 2 ^ 64 -> no_lf ext -> (ext = [] \/ exists e, ext = 59 :: e) ->
  let line := to_lower_hex n ++ ext in
  no_lf line /\ from_chars_hex (TrimOws (match memchr_pos 59 line with Some semi => take semi line | None => line end)) = Some n.
Proof.
  intros Hn Hl He line. destruct (hex_loop_value 16 n [] ltac:(done) ltac:(change (16 ^ Z.of_nat 16) with (2 ^ 64); lia)) as (h & Eh & Hne & Ev & Hh).
  assert (Eline : line = h ++ ext) by (subst line; unfold to_lower_hex; by rewrite Eh, app_nil_r).
  assert (Hchars : Forall (fun b => b <> 10 /\ b <> 59 /\ isWhitespace b = false) h).
  { eapply Forall_impl; [exact Hh|]. intros b. apply hex_char_ok. }
  split.
  - rewrite Eline. apply Forall_app. split; [|done]. eapply Forall_impl; [exact Hchars|]. by intros ? [? _].
  - assert (Hcut : match memchr_pos 59 line with Some semi => take semi line | None => line end = h).
    { assert (H59 : Forall (fun b => b <> 59) h) by (eapply Forall_impl; [exact Hchars|]; by intros ? (_ & ? & _)).
      rewrite Eline. destruct He as [->|[e ->]].
      - rewrite app_nil_r. by rewrite (proj2 (memchr_pos_None 59 h)).
      - rewrite memchr_pos_app by done. by rewrite take_app_length. }
    assert (Htrim : TrimOws h = h).
    { unfold TrimOws. destruct h as [|c h']; [done|]. destruct (exists_last (l := c :: h')) as (w & z & Ew); [done|].
      assert (Hc : isWhitespace c = false) by (by inversion Hchars as [|? ? (_ & _ & ?)]).
      rewrite Hc, Ew, last_last. rewrite Ew in Hchars. apply Forall_app in Hchars as [_ Hz].
      inversion Hz as [|? ? (_ & _ & Hz') _]. by rewrite Hz'. }
    rewrite Hcut, Htrim. unfold from_chars_hex. destruct h; [done|]. rewrite Ev. by rewrite (proj2 (Z.ltb_lt _ _)) by lia.
Qed.

Local Abbreviation chunk_runs := (chunk_runs maxResponseBytes).

Lemma chunk_step a c post b p r :
  b = a ++ encode_chunk c ++ post -> chunk_wf c -> maxResponseBytes < 2 ^ 64 -> rp_state p = BodyChunkSize -> rp_pos p = length a ->
  zlen (rp_bodyBuf p) + zlen (ck_data c) <= maxResponseBytes ->
  chunk_runs b eof (set_rp_state BodyChunkSize (set_remaining 0 (set_pos (length (a ++ encode_chunk c)) (append_body (ck_data c) p)))) r ->
  chunk_runs b eof p r.
Proof.
  intros Eb (Hd & Hl & He) Hmax Hs Hp Hz Hr. pose proof (zlen_nonneg (rp_bodyBuf p)) as Hb0. pose proof (zlen_nonneg (ck_data c)) as Hd0.
  set (n := zlen (ck_data c)) in *. set (line := to_lower_hex n ++ ck_extension c).
  destruct (size_text_ok n (ck_extension c)) as [Hline Esize]; [lia|done|done|]. fold line in Hline, Esize.
  assert (Eb1 : b = a ++ line ++ CRLF ++ (ck_data c ++ CRLF ++ post))
    by (rewrite Eb; subst line; unfold encode_chunk; by rewrite <- !app_assoc).
  set (a1 := a ++ line ++ CRLF). assert (Eb2 : b = a1 ++ ck_data c ++ CRLF ++ post) by (rewrite Eb1; subst a1; by rewrite <- !app_assoc).
  assert (La1 : length a1 = (length a + length line + 2)%nat) by (subst a1; rewrite !length_app; cbn; lia).
  set (a2 := a1 ++ ck_data c). assert (Eb3 : b = a2 ++ [] ++ CRLF ++ post) by (rewrite Eb2; subst a2; by rewrite <- app_assoc).
  assert (La2 : length a2 = (length a1 + length (ck_data c))%nat) by (subst a2; by rewrite length_app).
  assert (Hn : n <> 0) by (intros E; apply Hd; by apply zlen_0).
  destruct (line_at a line (ck_data c ++ CRLF ++ post) Hline) as [Hf1 Hs1]. rewrite <- Eb1 in Hf1, Hs1.
  destruct (line_at a2 [] post) as [Hf3 Hs3]; [constructor|]. rewrite <- Eb3 in Hf3, Hs3.
  set (p1 := set_rp_state BodyChunkData (set_remaining n (set_pos (length a1) p))).
  set (p2 := set_rp_state BodyChunkCrlf (set_remaining 0 (set_pos (length a2) (append_body (ck_data c) p1)))).
  apply (chunk_runs_step _ _ _ _ p1); [by rewrite Hs| |].
  { unfold chunk_round. rewrite Hs, Hp, Hf1. replace (length a + length line + 1 - length a)%nat with (length line + 1)%nat by lia.
    rewrite Hs1, strip_cr_own, Esize. rewrite (proj2 (Z.eqb_neq n 0)) by done. subst p1. do 4 f_equal. lia. }
  apply (chunk_runs_step _ _ _ _ p2); [done| |].
  { unfold chunk_round. cbn [p1 rp_state set_rp_state set_remaining set_pos rp_bodyRemaining rp_bodyBuf rp_pos].
    assert (Ha : n <= available b p1).
    { assert (Hlen : length b = (length a1 + (length (ck_data c) + (2 + length post)))%nat) by (rewrite Eb2, !length_app; reflexivity).
      unfold available. change (rp_pos p1) with (length a1). unfold n, zlen. lia. }
    fold p1. rewrite Z.min_r by done. rewrite (proj2 (Z.ltb_ge _ _)) by done.
    assert (Esub : substr b (length a1) (Z.to_nat n) = ck_data c).
    { unfold substr. rewrite Eb2, drop_app_length. unfold n, zlen. by rewrite Nat2Z.id, take_app_length. }
    assert (Er : rp_bodyRemaining (append_body (ck_data c) p1) - n = 0)
      by (change (rp_bodyRemaining (append_body (ck_data c) p1)) with n; lia).
    assert (Epos : (rp_pos (append_body (ck_data c) p1) + Z.to_nat n)%nat = length a2)
      by (change (rp_pos (append_body (ck_data c) p1)) with (length a1); unfold n, zlen; lia).
    rewrite Esub. change (rp_bodyRemaining (set_pos _ (append_body (ck_data c) p1))) with (rp_bodyRemaining (append_body (ck_data c) p1)).
    rewrite Er, Epos. done. }
  apply (chunk_runs_step _ _ _ _ (set_rp_state BodyChunkSize (set_pos (length a2 + 2) p2))); [done| |].
  { unfold chunk_round. cbn [p2 rp_state set_rp_state set_remaining set_pos append_body rp_pos]. fold p2. rewrite Hf3.
    do 3 f_equal. cbn [length]. lia. }
  replace (length a2 + 2)%nat with (length (a ++ encode_chunk c)); [exact Hr|].
  rewrite La2, La1. subst line. unfold encode_chunk. rewrite !length_app. cbn [length CRLF]. fold n. lia.
Qed.

(** The parser has taken [data] and everything up to [n]. *)
Definition taken (n : nat) (data : bytes) (s : State) (p p' : ResponseParser) : Prop :=
  exists rem, 0 <= rem /\ p' = set_rp_state s (set_remaining rem (set_pos n (append_body data p))).

Lemma take_more s1 r1 n1 d1 s2 r2 n2 d2 p :
  set_rp_state s2 (set_remaining r2 (set_pos n2 (append_body d2
    (set_rp_state s1 (set_remaining r1 (set_pos n1 (append_body d1 p)))))))
  = set_rp_state s2 (set_remaining r2 (set_pos n2 (append_body (d1 ++ d2) p))).
Proof. destruct p. cbv -[app]. by rewrite <- app_assoc. Qed.

Lemma chunk_steps cs a post b p :
  b = a ++ encode_chunks cs ++ post -> Forall chunk_wf cs -> maxResponseBytes < 2 ^ 64 ->
  rp_state p = BodyChunkSize -> rp_pos p = length a -> 0 <= rp_bodyRemaining p ->
  zlen (rp_bodyBuf p) + zlen (chunks_data cs) <= maxResponseBytes ->
  exists p', taken (length (a ++ encode_chunks cs)) (chunks_data cs) BodyChunkSize p p'
    /\ forall r, chunk_runs b eof p' r -> chunk_runs b eof p r.
Proof.
  intros Eb Hcs Hmax. revert a p Eb. induction Hcs as [|c cs Hc Hcs IH]; intros a p Eb Hs Hp H0 Hz.
  - exists p. split; [|done]. exists (rp_bodyRemaining p). split; [done|]. cbn [encode_chunks chunks_data map concat].
    rewrite app_nil_r, <- Hp. destruct p. cbn in Hs, Hp |- *. subst. cbv -[app length]. by rewrite app_nil_r.
  - change (encode_chunks (c :: cs)) with (encode_chunk c ++ encode_chunks cs) in *.
    change (chunks_data (c :: cs)) with (ck_data c ++ chunks_data cs) in *. rewrite zlen_app in Hz. pose proof (zlen_nonneg (chunks_data cs)).
    set (t := encode_chunk c) in *. set (ts := encode_chunks cs) in *.
    assert (Eb1 : b = a ++ t ++ (ts ++ post)) by (rewrite Eb; by rewrite <- (app_assoc t)).
    assert (Eb2 : b = (a ++ t) ++ ts ++ post) by (rewrite Eb1; apply app_assoc).
    set (p1 := set_rp_state BodyChunkSize (set_remaining 0 (set_pos (length (a ++ t)) (append_body (ck_data c) p)))).
    destruct (IH (a ++ t) p1 Eb2) as (p' & (rem & H0' & Ep') & Hr); [done|done|done| |].
    { change (rp_bodyBuf p1) with (rp_bodyBuf p ++ ck_data c). rewrite zlen_app. lia. }
    exists p'. split.
    + exists rem. split; [done|]. rewrite Ep', <- (app_assoc a). apply take_more.
    + intros r Hr'. apply (chunk_step a c (ts ++ post) b p r Eb1 Hc Hmax Hs Hp); [lia|]. apply Hr, Hr'.
Qed.

Definition trailer_lines (ts : list bytes) : bytes := concat (map (fun t => t ++ CRLF) ts) ++ CRLF.

Lemma trailers_run ts a post b p :
  b = a ++ trailer_lines ts ++ post -> Forall (fun t => no_lf t /\ t <> []) ts -> rp_pos p = length a ->
  trailer_runs b eof p (SComplete, set_rp_state Done (set_pos (length (a ++ trailer_lines ts)) p)).
Proof.
  intros Eb Ht. revert a p Eb. induction Ht as [|t ts [Hl Hne] Ht IH]; intros a p Eb Hp.
  - destruct (line_at a [] post) as [Hf Hs]; [constructor|]. change (trailer_lines []) with CRLF in *.
    change ([] ++ CRLF ++ post) with (CRLF ++ post) in Hf, Hs. rewrite <- Eb in Hf, Hs.
    exists 1%nat. cbn [trailer_loop]. rewrite Hp, Hf.
    replace (length a + length (@nil Z) + 1 - length a)%nat with (length (@nil Z) + 1)%nat by lia. rewrite Hs.
    rewrite (bool_decide_true ([] ++ [13] = [13])) by done. rewrite orb_true_r. do 4 f_equal. rewrite length_app. cbn. lia.
  - change (trailer_lines (t :: ts)) with (((t ++ CRLF) ++ concat (map (fun t => t ++ CRLF) ts)) ++ CRLF) in *.
    assert (E : ((t ++ CRLF) ++ concat (map (fun t => t ++ CRLF) ts)) ++ CRLF = t ++ CRLF ++ trailer_lines ts)
      by (unfold trailer_lines; by rewrite <- !app_assoc).
    rewrite E in *. set (text := trailer_lines ts) in *.
    assert (Eb1 : b = a ++ t ++ CRLF ++ (text ++ post)) by (rewrite Eb; by rewrite <- !app_assoc).
    assert (Eb2 : b = (a ++ t ++ CRLF) ++ text ++ post) by (rewrite Eb1; by rewrite <- !app_assoc).
    destruct (line_at a t (text ++ post)) as [Hf Hs]; [done|]. rewrite <- Eb1 in Hf, Hs.
    destruct (IH (a ++ t ++ CRLF) (set_pos (length (a ++ t ++ CRLF)) p) Eb2 eq_refl) as [f Ef].
    exists (S f). cbn [trailer_loop]. rewrite Hp, Hf.
    replace (length a + length t + 1 - length a)%nat with (length t + 1)%nat by lia. rewrite Hs.
    rewrite !bool_decide_false; [|by destruct t as [|? []]|by destruct t]. cbn [orb].
    replace (S (length a + length t + 1)) with (length (a ++ t ++ CRLF)) by (rewrite !length_app; cbn; lia).
    rewrite <- !app_assoc in Ef. exact Ef.
Qed.

(** A whole chunked body. *)
Lemma chunked_body_run cs ts a rest b p :
  b = a ++ (encode_chunks cs ++ str "0" ++ CRLF ++ trailer_lines ts) ++ rest ->
  Forall chunk_wf cs -> Forall (fun t => no_lf t /\ t <> []) ts -> maxResponseBytes < 2 ^ 64 ->
  rp_framing p = FChunked -> rp_state p = BodyChunkSize -> rp_pos p = length a ->
  parser_ok a p -> zlen (rp_bodyBuf p) + zlen (chunks_data cs) <= maxResponseBytes ->
  exists p', taken (length (a ++ (encode_chunks cs ++ str "0" ++ CRLF ++ trailer_lines ts))) (chunks_data cs) Done p p'
    /\ parseBody b eof maxResponseBytes p = Some (SComplete, p').
Proof.
  intros Eb Hcs Hts Hmax Hf Hs Hp Hok Hz.
  set (a1 := a ++ encode_chunks cs). set (a2 := a1 ++ str "0" ++ CRLF).
  assert (Eb1 : b = a ++ encode_chunks cs ++ (str "0" ++ CRLF ++ trailer_lines ts ++ rest))
    by (rewrite Eb; by rewrite <- !app_assoc).
  destruct (chunk_steps cs a _ b p Eb1 Hcs Hmax Hs Hp (po_remaining _ _ Hok) Hz) as (p1 & (rem & H0 & Ep1) & Hrun).
  assert (Eb2 : b = a1 ++ str "0" ++ CRLF ++ (trailer_lines ts ++ rest)) by (rewrite Eb1; apply app_assoc).
  assert (Eb3 : b = a2 ++ trailer_lines ts ++ rest) by (rewrite Eb2; subst a2; by rewrite <- !app_assoc).
  assert (Ea2 : a ++ (encode_chunks cs ++ str "0" ++ CRLF ++ trailer_lines ts) = a2 ++ trailer_lines ts)
    by (subst a2 a1; by rewrite <- !app_assoc).
  destruct (line_at a1 (str "0") (trailer_lines ts ++ rest)) as [Hf1 Hsub]; [vm_compute; by repeat constructor|].
  rewrite <- Eb2 in Hf1, Hsub. rewrite Ea2.
  assert (La1 : (length a <= length a1)%nat) by (subst a1; rewrite length_app; lia).
  assert (La2 : length a2 = (length a1 + 3)%nat) by (subst a2; rewrite length_app; done).
  assert (Lb : (length a2 <= length b)%nat) by (rewrite Eb3, length_app; lia).
  set (p2 := set_rp_state BodyChunkTrailers (set_pos (length a2) p1)).
  destruct (trailers_run ts a2 rest b p2 Eb3 Hts eq_refl) as [g Eg].
  exists (set_rp_state Done (set_pos (length (a2 ++ trailer_lines ts)) p2)). split.
  { exists rem. split; [done|]. subst p2 p1. done. }
  assert (Hok2 : parser_ok b p2).
  { destruct Hok as [? ? ? ? ?]. subst p2 p1. split; cbn; try done; lia. }
  assert (Hokb : parser_ok b p) by (rewrite Eb; by apply parser_ok_app).
  rewrite parseBody_chunks by done. apply chunk_runs_enough; [done|by left|]. apply Hrun.
  fold a1 in Ep1. assert (Hs1 : rp_state p1 = BodyChunkSize) by (by rewrite Ep1). assert (Hp1 : rp_pos p1 = length a1) by (by rewrite Ep1).
  apply (chunk_runs_step _ _ _ _ p2); [by rewrite Hs1| |].
  - unfold chunk_round. rewrite Hs1, Hp1, Hf1.
    replace (length a1 + length (str "0") + 1 - length a1)%nat with (length (str "0") + 1)%nat by lia.
    rewrite Hsub, strip_cr_own. subst p2. rewrite La2. change (length (str "0")) with 1%nat.
    replace (S (length a1 + 1 + 1)) with (length a1 + 3)%nat by lia. done.
  - apply chunk_runs_trailers; [done|done|]. by exists g.
Qed.

(** A body of a given length. *)
Lemma length_body_run body a rest b p :
  b = a ++ body ++ rest -> rp_framing p = FLength -> rp_pos p = length a -> rp_bodyStart p = length a ->
  rp_bodyRemaining p = zlen body -> zlen body <= maxResponseBytes ->
  parseBody b eof maxResponseBytes p
  = Some (SComplete, set_rp_state Done (set_remaining 0 (set_pos (length (a ++ body)) p))).
Proof.
  intros Eb Hf Hp Hst Hr Hz. unfold parseBody. rewrite Hf.
  assert (Ha : available b p = zlen body + zlen rest)
    by (unfold available; rewrite Hp, Eb, !zlen_app; unfold zlen; lia).
  rewrite Ha, Hr, Hp, Hst. pose proof (zlen_nonneg rest). rewrite Z.min_r by lia.
  rewrite (proj2 (Z.ltb_ge _ _)) by lia.
  cbv zeta. rewrite Z.sub_diag.
  replace (length a + Z.to_nat (zlen body))%nat with (length (a ++ body)); [done|].
  rewrite length_app. unfold zlen. lia.
Qed.

(** ** The whole response *)

(** The body that is installed: with the type of the head, and no coding to undo. *)
Lemma plain_no_coding fields : Forall plain_field fields ->
  List.find (fun h => CaseInsensitiveEqual (fst h) (str "content-encoding")) fields = None.
Proof. induction 1 as [|f fields (_ & _ & Hc) Hf IH]; cbn [List.find]; [done|]. by rewrite Hc. Qed.

Lemma install_message m b p body :
  message_wf m -> rp_framing p <> FNone ->
  (if bool_decide (rp_framing p = FChunked) then rp_bodyBuf p else substr b (rp_bodyStart p) (rp_pos p - rp_bodyStart p)) = body ->
  body = message_body m ->
  (if Nat.eqb (rp_contentTypeLen p) 0 then ContentTypeApplicationOctetStream
   else substr b (rp_contentTypeOff p) (rp_contentTypeLen p)) = message_type m ->
  installBody decompress p b (response_started m) = (SComplete, received m).
Proof.
  intros (_ & _ & _ & _ & _ & _ & Hf & Ht & _) Hfr Hb -> Htype. unfold installBody.
  rewrite bool_decide_false by done. rewrite Htype, Hb.
  assert (Hset : of_outcome (response_started m) (rs_set_body (message_body m) (message_type m) (response_started m))
                 = (SComplete, received m)).
  { unfold rs_set_body, CheckContentType, received.
    assert (Hct : TrimOws (message_type m) = message_type m /\ (ContentTypeMinLen <= length (message_type m))%nat
                  /\ IsValidHeaderValue (message_type m) = true).
    { unfold message_type. destruct (ms_type m) as [[name ct]|]; cbn [option_map default snd].
      - destruct (Ht name ct eq_refl) as (_ & _ & ? & ? & ?). by split_and!.
      - vm_compute. split_and!; [done|lia|done]. }
    destruct Hct as (Hw & Hl & Hv). rewrite Hw, Hv, (proj2 (Nat.ltb_ge _ _)) by done. cbn [orb negb]. rewrite andb_false_r.
    done. }
  destruct decompress as [decode|]; [|exact Hset].
  unfold rs_headerValueOrEmpty. cbn [rs_headers response_started]. rewrite plain_no_coding by done. cbn [option_map default].
  rewrite bool_decide_true by done. exact Hset.
Qed.

(** The type of the message, read at its offset. *)
Lemma type_at m post p :
  message_wf m -> rp_contentTypeLen p = 0%nat ->
  let p' := with_type m p in
  (if Nat.eqb (rp_contentTypeLen p') 0 then ContentTypeApplicationOctetStream
   else substr (typed_text m ++ post) (rp_contentTypeOff p') (rp_contentTypeLen p')) = message_type m.
Proof.
  intros (_ & _ & _ & _ & _ & _ & _ & Ht & _) Hp p'. subst p'. unfold with_type, message_type, typed_text, type_fields, lines.
  destruct (ms_type m) as [[name ct]|]; cbn [option_map default snd fst]; [|by rewrite Hp]. destruct (Ht name ct eq_refl) as (_ & _ & _ & Hl & _).
  cbn [set_content_type rp_contentTypeLen rp_contentTypeOff map concat]. rewrite (proj2 (Nat.eqb_neq _ _))
    by (unfold ContentTypeMinLen in Hl; lia).
  unfold field_line. cbn [fst snd]. rewrite app_nil_r.
  set (pre := plain_text m ++ name ++ HeaderSep).
  replace ((plain_text m ++ name ++ HeaderSep ++ ct ++ CRLF) ++ post) with (pre ++ ct ++ CRLF ++ post)
    by (subst pre; by rewrite <- !app_assoc).
  replace (length (plain_text m) + length name + 2)%nat with (length pre)
    by (subst pre; rewrite !length_app; cbn [length HeaderSep]; lia).
  unfold substr. by rewrite drop_app_length, take_app_length.
Qed.

(** The parser after the head. *)
Definition head_parser (m : ResponseMessage) : ResponseParser :=
  with_framing m (with_type m (parser_started m (length (head_text m)) start)).
Definition body_parser (m : ResponseMessage) : ResponseParser :=
  set_pos (length (head_text m) + 2) (head_parser m).

Lemma head_parser_fields m :
  let p := body_parser m in
  rp_headRequest p = false /\ rp_statusCode p = ms_code m /\ rp_http11 p = true
  /\ rp_connectionCloseSeen p = fst (connection_seen (kept_fields m)) /\ rp_bodyBuf p = [] /\ rp_state p = Headers
  /\ rp_chunked p = match ms_payload m with ByLength _ _ => false | _ => true end
  /\ rp_hasContentLength p = match ms_payload m with ByLength _ _ => true | _ => false end
  /\ rp_bodyRemaining p = match ms_payload m with ByLength _ body => zlen body | _ => 0 end
  /\ rp_contentTypeLen p = rp_contentTypeLen (with_type m start)
  /\ rp_contentTypeOff p = rp_contentTypeOff (with_type m start).
Proof.
  unfold body_parser, head_parser, with_framing, with_type. destruct (ms_payload m), (ms_type m); by split_and!.
Qed.

Lemma decide_message m :
  message_wf m ->
  decideFraming (body_parser m) =
  match ms_payload m with
  | ByLength _ body =>
      if bool_decide (body = []) then (SComplete, framed FLength Done (keeps_alive m) (body_parser m))
      else (SNeedMore, framed FLength BodyLength (keeps_alive m) (body_parser m))
  | ByChunks _ _ => (SNeedMore, framed FChunked BodyChunkSize (keeps_alive m) (body_parser m))
  end.
Proof.
  intros (Hc & H204 & H304 & _). pose proof (head_parser_fields m) as (E1 & E2 & E3 & E4 & _ & _ & E6 & E7 & E8 & _).
  set (p := body_parser m) in *. unfold decideFraming. rewrite E1, E2, E3, E4, E6, E7, E8.
  rewrite (proj2 (Z.eqb_neq _ 204)), (proj2 (Z.eqb_neq _ 304)) by done. cbn [orb].
  assert (Ek : (if fst (connection_seen (kept_fields m)) then false else if rp_connectionKeepAliveSeen p then true else true)
               = keeps_alive m)
    by (unfold keeps_alive; destruct (fst _), (rp_connectionKeepAliveSeen p); done).
  rewrite Ek. destruct (ms_payload m) as [text body|cs ts]; [|done].
  case_bool_decide as Hb; [by subst body|]. rewrite (proj2 (Z.eqb_neq _ 0)); [done|].
  intros Hz. apply Hb. by apply zlen_0.
Qed.

Lemma zlen_chunks_data cs : zlen (chunks_data cs) <= zlen (encode_chunks cs).
Proof.
  induction cs as [|c cs IH]; [done|]. change (chunks_data (c :: cs)) with (ck_data c ++ chunks_data cs).
  change (encode_chunks (c :: cs)) with (encode_chunk c ++ encode_chunks cs). unfold encode_chunk.
  rewrite !zlen_app. pose proof (zlen_nonneg (to_lower_hex (zlen (ck_data c)))). pose proof (zlen_nonneg (ck_extension c)).
  pose proof (zlen_nonneg CRLF). lia.
Qed.

Lemma response_parsed m rest :
  message_wf m -> zlen (encode_response m) <= maxResponseBytes -> maxResponseBytes < 2 ^ 64 ->
  exists p, parse decompress (encode_response m ++ rest) eof maxResponseBytes start new_response
            = Some (SComplete, p, received m)
    /\ rp_pos p = length (encode_response m) /\ rp_keepAlive p = keeps_alive m.
Proof.
  intros Hm Hz Hmax. pose proof (encode_response_split m []) as E0. rewrite !app_nil_r in E0.
  pose proof (encode_response_split m rest) as Eb. set (b := encode_response m ++ rest) in *.
  pose proof (decide_message m Hm) as Ed. pose proof (head_parser_fields m) as (_ & Ecode & _ & _ & Ebuf & _ & _ & _ & Erem & Elen & Eoff).
  rewrite E0, !zlen_app in Hz. pose proof (zlen_nonneg (body_text m)).
  assert (H2 : zlen CRLF = 2) by done. pose proof (zlen_nonneg (head_text m)).
  assert (Hlen : Z.of_nat (length (head_text m) + 2) <= maxResponseBytes) by (unfold zlen in *; lia).
  assert (Htype : (if Nat.eqb (rp_contentTypeLen (body_parser m)) 0 then ContentTypeApplicationOctetStream
                   else substr b (rp_contentTypeOff (body_parser m)) (rp_contentTypeLen (body_parser m))) = message_type m).
  { rewrite Elen, Eoff, Eb. unfold head_text, framed_text. rewrite <- !app_assoc. by apply type_at. }
  assert (Hok0 : parser_ok b start) by apply parser_ok_reset.
  set (a := head_text m ++ CRLF). assert (La : length a = (length (head_text m) + 2)%nat) by (subst a; by rewrite length_app).
  assert (Eb1 : b = a ++ body_text m ++ rest) by (rewrite Eb; subst a; by rewrite <- app_assoc).
  assert (Ee : length (encode_response m) = length (a ++ body_text m)) by (rewrite E0, app_assoc; done).
  assert (Hhead : forall r, head_runs b eof (head_parser m) (response_started m) r ->
                            head_runs b eof start new_response r).
  { intros r Hr. rewrite Eb in *. apply head_run; [done| |exact Hr]. unfold zlen in *. lia. }
  assert (Hs : rp_state (head_parser m) = Headers /\ rp_pos (head_parser m) = length (head_text m)
               /\ rp_statusCode (head_parser m) = ms_code m).
  { unfold head_parser, with_framing, with_type. destruct (ms_payload m), (ms_type m); by split_and!. }
  destruct Hs as (Hs & Hp & Hcode). assert (Hc200 : 200 <= rp_statusCode (head_parser m)) by (rewrite Hcode; apply Hm).
  destruct (ms_payload m) as [text body|cs ts] eqn:Epl.
  - destruct (decide (body = [])) as [->|Hb].
    + rewrite bool_decide_true in Ed by done. set (p := framed FLength Done (keeps_alive m) (body_parser m)) in *.
      assert (Ei : installBody decompress p (head_text m ++ CRLF ++ body_text m ++ rest) (response_started m) = (SComplete, received m)).
      { rewrite <- Eb. apply (install_message m b p []); [done|done| | |exact Htype].
        - change (rp_bodyStart p) with (rp_pos p). by rewrite Nat.sub_diag.
        - unfold message_body. by rewrite Epl. }
      pose proof (blank_step_empty _ _ _ _ _ _ _ Hs Hp Hlen Hc200 Ed Ei) as Hr. rewrite <- Eb in Hr.
      exists p. split_and!; [by apply parse_return, Hhead| |done].
      change (rp_pos p) with (length (head_text m) + 2)%nat. rewrite Ee. unfold body_text. by rewrite Epl, app_nil_r, La.
    + rewrite bool_decide_false in Ed by done. set (p := framed FLength BodyLength (keeps_alive m) (body_parser m)) in *.
      pose proof (blank_step _ (body_text m ++ rest) _ (response_started m) _ Hs Hp Hlen Hc200 Ed) as Hr. rewrite <- Eb in Hr.
      rewrite (parse_break decompress maxResponseBytes b eof start new_response p (response_started m)) by (try done; by apply Hhead).
      assert (Et : body_text m = body) by (unfold body_text; by rewrite Epl). rewrite Et in *.
      rewrite (length_body_run body a rest b p); [|done|done|done|done|done|lia]. cbn [option_map].
      set (p' := set_rp_state Done _). exists p'. unfold finish_body. rewrite bool_decide_true by done.
      rewrite (install_message m b p' body); [by split_and!|done|done| | |exact Htype].
      * change (rp_bodyStart p') with (length (head_text m) + 2)%nat. change (rp_pos p') with (length (a ++ body)).
        rewrite <- La, length_app, Nat.add_comm, Nat.add_sub. cbn [rp_framing]. rewrite bool_decide_false by done.
        unfold substr. by rewrite Eb1, drop_app_length, take_app_length.
      * unfold message_body. by rewrite Epl.
  - set (p := framed FChunked BodyChunkSize (keeps_alive m) (body_parser m)) in *.
    pose proof (blank_step _ (body_text m ++ rest) _ (response_started m) _ Hs Hp Hlen Hc200 Ed) as Hr. rewrite <- Eb in Hr.
    rewrite (parse_break decompress maxResponseBytes b eof start new_response p (response_started m)) by (try done; by apply Hhead).
    assert (Et : body_text m = encode_chunks cs ++ str "0" ++ CRLF ++ trailer_lines ts) by (unfold body_text; by rewrite Epl).
    pose proof Hm as (_ & _ & _ & _ & _ & _ & _ & _ & _ & Hpl). rewrite Epl in Hpl. destruct Hpl as [Hcs Hts].
    pose proof (zlen_chunks_data cs) as Hd.
    destruct (chunked_body_run cs ts a rest b p) as (p' & (rem & _ & Ep') & E); try done.
    + by rewrite <- Et.
    + split.
      * change (rp_pos p) with (length (head_text m) + 2)%nat. lia.
      * done.
      * change (rp_contentTypeOff p) with (rp_contentTypeOff (body_parser m)).
        change (rp_contentTypeLen p) with (rp_contentTypeLen (body_parser m)). rewrite Elen, Eoff.
        change (rp_pos p) with (length (head_text m) + 2)%nat. unfold with_type, head_text, framed_text, typed_text, type_fields, lines.
        destruct (ms_type m) as [[name ct]|]; cbn [set_content_type rp_contentTypeLen rp_contentTypeOff]; [|cbn; lia].
        cbn [map concat]. rewrite !length_app. unfold field_line at 1. cbn [fst snd]. rewrite !length_app. cbn. lia.
      * change (rp_bodyRemaining p) with (rp_bodyRemaining (body_parser m)). by rewrite Erem.
      * done.
    + change (rp_bodyBuf p) with (rp_bodyBuf (body_parser m)). rewrite Ebuf. rewrite Et, !zlen_app in Hz.
      pose proof (zlen_nonneg (trailer_lines ts)). pose proof (zlen_nonneg (str "0")).
      change (zlen []) with 0. lia.
    + rewrite E. cbn [option_map]. exists p'. unfold finish_body. rewrite bool_decide_true by done.
      rewrite (install_message m b p' (chunks_data cs)).
      * split_and!; [done| |by rewrite Ep']. rewrite Ep', Ee, Et. done.
      * done.
      * by rewrite Ep'.
      * rewrite Ep'. rewrite bool_decide_true by done.
        change (rp_bodyBuf (body_parser m) ++ chunks_data cs = chunks_data cs). by rewrite Ebuf.
      * unfold message_body. by rewrite Epl.
      * rewrite Ep'. exact Htype.
Qed.
End Receive.

Lemma response_received decompress maxResponseBytes m rest reads :
  message_wf m -> zlen (encode_response m) <= maxResponseBytes < 2 ^ 64 ->
  concat reads = encode_response m ++ rest ->
  exists p, exchange decompress reads [] maxResponseBytes (parser_reset false) new_response
            = Some (SComplete, p, received m)
    /\ rp_pos p = length (encode_response m) /\ rp_keepAlive p = keeps_alive m.
Proof.
  intros Hm [Hz Hmax] Er.
  destruct (response_parsed decompress maxResponseBytes true m rest Hm Hz Hmax) as (p & E & Hp & Hk).
  destruct (exchange_ok decompress maxResponseBytes reads [] (parser_reset false) new_response)
    as (r & r' & Ex & Ep & (E1 & E2 & E3)); [apply parser_ok_reset|].
  unfold start in E. cbn [app] in Ep. rewrite Er, E in Ep. injection Ep as <-. exists p. split_and!; [|done|done].
  rewrite Ex. f_equal. symmetry. by apply E3.
Qed.

(** C6: a well-formed response - any final status but 204 and 304, a trimmed reason, fields that
    are not for the framing of the body before and after it, at most one content type, and a body
    sent with its length or in chunks with extensions and trailers - is received as it was sent, however the
    transport cuts its bytes and whatever follows them on the connection: the exchange completes
    with its status, reason, fields, body and content type, it has consumed the bytes of the
    response and no more, and the connection is kept unless a Connection field said close.  Only
    the limit on the size of responses and the width of sizes are assumed; decompression may be
    enabled or not. *)
Theorem response_roundtrip decompress maxResponseBytes m rest reads :
  message_wf m -> zlen (encode_response m) <= maxResponseBytes < 2 ^ 64 ->
  concat reads = encode_response m ++ rest ->
  exists p, exchange decompress reads [] maxResponseBytes (parser_reset false) new_response
            = Some (SComplete, p, received m)
    /\ rp_pos p = length (encode_response m) /\ rp_keepAlive p = keeps_alive m.
Proof. apply response_received. Qed.

Definition sample_message : ResponseMessage :=
  MkMessage 404 (str "Not Found") [(str "Server", str "aeronet"); (str "Connection", str "x, Close")]
    (Some (str "Content-Type", str "text/plain")) [] (str "Transfer-Encoding") [(str "Age", str "1")]
    (ByChunks [MkChunk (str ";q=1") (str "hello "); MkChunk [] (str "world")] [str "Checksum: 12"]).

#[export] Instance field_wf_dec f : Decision (field_wf f).
Proof. unfold field_wf. apply _. Defined.

Lemma short_reason (l : bytes) : zlen l <= 1000 -> (length l <= kMaxReasonLength)%nat.
Proof.
  unfold kMaxReasonLength, zlen. replace (Z.shiftl 1 24 - 1 - 13 - (4 + 29 + 4)) with 16777165 by reflexivity. lia.
Qed.

Lemma sample_message_wf : message_wf sample_message.
Proof.
  split; [cbn; lia|]. split; [done|]. split; [done|]. split; [apply (bool_decide_unpack _); vm_compute; exact I|].
  split; [vm_compute; reflexivity|]. split; [apply short_reason; vm_compute; congruence|]. split; [|split].
  - by repeat (constructor; [split; [apply (bool_decide_unpack _); vm_compute; exact I|by vm_compute]|]).
  - intros name ct [= <- <-]. split; [split_and!; [discriminate|apply (bool_decide_unpack _); vm_compute; exact I|apply (bool_decide_unpack _); vm_compute; exact I|vm_compute; reflexivity..]|]. split_and!; [apply (bool_decide_unpack _); vm_compute; exact I|reflexivity|vm_compute; lia|reflexivity].
  - split; [split_and!; [discriminate|apply (bool_decide_unpack _); vm_compute; exact I|apply (bool_decide_unpack _); vm_compute; exact I|vm_compute; reflexivity..]|]. split.
    + constructor; [|constructor; [|constructor]]; (split; [done|]); (split; [by repeat constructor|]); [right; by eexists|by left].
    + by repeat (constructor; [split; [apply (bool_decide_unpack _); vm_compute; exact I|done]|]).
Qed.

Lemma response_roundtrip_witness :
  exists p, exchange None [take 30 (encode_response sample_message); [];
                           drop 30 (encode_response sample_message) ++ str "HTTP/1.1 200"]
              [] 1000 (parser_reset false) new_response
    = Some (SComplete, p, MkResponse 404 (str "Not Found") (kept_fields sample_message)
                            (Some (str "hello world", str "text/plain")))
    /\ rp_pos p = length (encode_response sample_message) /\ rp_keepAlive p = false.
Proof.
  apply (response_roundtrip None 1000 sample_message (str "HTTP/1.1 200")).
  - exact sample_message_wf.
  - vm_compute. split; congruence.
  - vm_compute. reflexivity.
Defined.
