(* ===== verification/TimeString.v ===== *)
(** Dates of HTTP messages (tech/include/aeronet/timestring.hpp, tech/src/timestring.cpp): the
    IMF-fixdate of RFC 9110, written and parsed.

    A time point counts the nanoseconds of the system clock in an [int64_t].  The calendar of
    std::chrono is the proleptic Gregorian one.  [None] is undefined behaviour: a two-digit
    field beyond its table, or an overflow of the clock. *)

From S2P Require Import Prelude.
Local Open Scope Z_scope.

(** ** The calendar *)

(** The day of a date, counted from 1970-01-01. *)
Definition days_from_civil (y m d : Z) : Z :=
  let y := if m <=? 2 then y - 1 else y in
  let era := y / 400 in
  let yoe := y mod 400 in
  let doy := (153 * (if 2 <? m then m - 3 else m + 9) + 2) / 5 + d - 1 in
  era * 146097 + (yoe * 365 + yoe / 4 - yoe / 100 + doy) - 719468.

(** [year_month_day{sys_days}]: the year of the era and of the date within it. *)
Definition year_of_era (doe : Z) : Z := (doe - doe / 1460 + doe / 36524 - doe / 146096) / 365.
Definition civil_from_days (z : Z) : Z * Z * Z :=
  let z := z + 719468 in
  let era := z / 146097 in
  let doe := z mod 146097 in
  let yoe := year_of_era doe in
  let doy := doe - (365 * yoe + yoe / 4 - yoe / 100) in
  let mp := (5 * doy + 2) / 153 in
  let d := doy - (153 * mp + 2) / 5 + 1 in
  let m := if mp <? 10 then mp + 3 else mp - 9 in
  (yoe + era * 400 + (if m <=? 2 then 1 else 0), m, d).

Definition is_leap (y : Z) : bool := (y mod 4 =? 0) && (negb (y mod 100 =? 0) || (y mod 400 =? 0)).
Definition last_day (y m : Z) : Z :=
  if m =? 2 then (if is_leap y then 29 else 28)
  else if (m =? 4) || (m =? 6) || (m =? 9) || (m =? 11) then 30 else 31.

(** [year_month_day::ok] *)
Definition ymd_ok (y m d : Z) : bool :=
  (-32767 <=? y) && (y <=? 32767) && (1 <=? m) && (m <=? 12) && (1 <=? d) && (d <=? last_day y m).

(** [weekday{sys_days}.c_encoding()]: the epoch was a Thursday. *)
Definition weekday (days : Z) : Z := (days + 4) mod 7.

(** ** Digits (simple-charconv.hpp) *)

Definition write2 (value : Z) : option bytes :=
  if (0 <=? value) && (value <? 100) then Some [48 + value / 10; 48 + value mod 10] else None.
Definition write4 (value : Z) : option bytes :=
  hi ← write2 (u32 (Z.quot value 100)); lo ← write2 (u32 (Z.rem value 100)); Some (hi ++ lo).

(** [char] is signed. *)
Definition char_at (l : bytes) (i : nat) : Z := let b := byte_at l i in if b <? 128 then b else b - 256.
Definition read2 (l : bytes) (i : nat) : Z := u8 ((char_at l i - 48) * 10 + (char_at l (i + 1) - 48)).
Definition read3 (l : bytes) (i : nat) : Z :=
  u16 ((char_at l i - 48) * 100 + (char_at l (i + 1) - 48) * 10 + (char_at l (i + 2) - 48)).
Definition read4 (l : bytes) (i : nat) : Z :=
  (char_at l i - 48) * 1000 + (char_at l (i + 1) - 48) * 100 + (char_at l (i + 2) - 48) * 10 + (char_at l (i + 3) - 48).

Definition isdigit (ch : Z) : bool := (48 <=? ch) && (ch <=? 57).
Definition isspace (ch : Z) : bool := (ch =? 32) || ((9 <=? ch) && (ch <=? 13)).

(** ** Writing *)

Definition RFC7231DateStrLen : nat := 29.
Definition kWeekdays : list bytes := map str ["Sun"; "Mon"; "Tue"; "Wed"; "Thu"; "Fri"; "Sat"]%string.
Definition kMonths : list bytes :=
  map str ["Jan"; "Feb"; "Mar"; "Apr"; "May"; "Jun"; "Jul"; "Aug"; "Sep"; "Oct"; "Nov"; "Dec"]%string.

Definition ns_per_s : Z := 1000000000.

Definition TimeToStringRFC7231 (tp : Z) : option bytes :=
  let secTp := Z.quot tp ns_per_s in
  let day_point := secTp / 86400 in
  let '(y, m, d) := civil_from_days day_point in
  let tod := u32 (secTp - day_point * 86400) in
  let hour := tod / 3600 in
  let rem := u32 (tod - hour * 3600) in
  let min := rem / 60 in
  let sec := u32 (rem - min * 60) in
  wd ← kWeekdays !! Z.to_nat (weekday day_point);
  dd ← write2 d;
  mon ← kMonths !! Z.to_nat (m - 1);
  yyyy ← write4 y;
  hh ← write2 hour; mm ← write2 min; ss ← write2 sec;
  Some (wd ++ str ", " ++ dd ++ str " " ++ mon ++ str " " ++ yyyy ++ str " "
        ++ hh ++ str ":" ++ mm ++ str ":" ++ ss ++ str " GMT").

(** ** Parsing *)

Definition kInvalidTimePoint : Z := 2 ^ 63 - 1.

(** Seconds as a time point. *)
Definition to_time_point (secs : Z) : option Z :=
  let ns := secs * ns_per_s in
  if (- 2 ^ 63 <=? ns) && (ns <? 2 ^ 63) then Some ns else None.

Fixpoint skip_spaces (l : bytes) : bytes :=
  match l with c :: l' => if isspace c then skip_spaces l' else l | [] => [] end.
Definition trim_spaces (l : bytes) : bytes := rev (skip_spaces (rev (skip_spaces l))).

Fixpoint index_of (v : Z) (l : list Z) : option Z :=
  match l with [] => None | x :: l => if x =? v then Some 0 else option_map Z.succ (index_of v l) end.

Definition kGMTRep : Z := read3 (str "GMT") 0.
Definition kMonthsRep : list Z := map (fun m => read3 m 0) kMonths.
Definition kWeekdaysRep : list Z := map (fun d => read3 d 0) kWeekdays.

(** The separators and the digits are where they should be. *)
Definition date_shape (l : bytes) : bool :=
  (byte_at l 3 =? 44) && (byte_at l 4 =? 32) && (byte_at l 7 =? 32) && (byte_at l 11 =? 32) && (byte_at l 16 =? 32)
  && (byte_at l 19 =? 58) && (byte_at l 22 =? 58) && (byte_at l 25 =? 32)
  && forallb (fun i => isdigit (byte_at l i)) [5; 6; 12; 13; 14; 15; 17; 18; 20; 21; 23; 24]%nat.

Definition TryParseTimeRFC7231 (text : bytes) : option Z :=
  let l := trim_spaces text in
  if negb (Nat.eqb (length l) RFC7231DateStrLen) then Some kInvalidTimePoint
  else if negb (date_shape l) then Some kInvalidTimePoint
  else if negb (read3 l 26 =? kGMTRep) then Some kInvalidTimePoint
  else
    match index_of (read3 l 8) kMonthsRep with
    | None => Some kInvalidTimePoint
    | Some monthIdx =>
        let dayValue := read2 l 5 in
        let yearValue := read4 l 12 in
        let hourValue := read2 l 17 in
        let minuteValue := read2 l 20 in
        let secondValue := read2 l 23 in
        if (dayValue =? 0) || (23 <? hourValue) || (59 <? minuteValue) || (60 <? secondValue)
        then Some kInvalidTimePoint
        else
          let monthField := monthIdx + 1 in
          match index_of (read3 l 0) kWeekdaysRep with
          | None => Some kInvalidTimePoint
          | Some weekdayIdx =>
              if negb (ymd_ok yearValue monthField dayValue) then Some kInvalidTimePoint
              else
                let dayPoint := days_from_civil yearValue monthField dayValue in
                if negb (weekdayIdx =? weekday dayPoint) then Some kInvalidTimePoint
                else to_time_point (dayPoint * 86400 + hourValue * 3600 + minuteValue * 60 + secondValue)
          end
    end.

(** ** Findings *)

(** A date of the far future overflows the clock. *)
Lemma far_date_overflows : TryParseTimeRFC7231 (str "Fri, 31 Dec 9999 23:59:59 GMT") = None.
Proof. vm_compute. reflexivity. Qed.

(** Names are compared by a number that others share. *)
Lemma names_collide :
  TryParseTimeRFC7231 (str "Tkn, 06 Npl 1994 08:49:37 GL^") = TryParseTimeRFC7231 (str "Sun, 06 Nov 1994 08:49:37 GMT").
Proof. vm_compute. reflexivity. Qed.

(** Dates are read as they were written; the calendar of days is one to one. *)

(** ** The calendar *)

(** The days of an era before the year [yoe], and the numerator of its formula. *)
Definition first_day (yoe : Z) : Z := 365 * yoe + yoe / 4 - yoe / 100.
Definition era_numerator (doe : Z) : Z := doe - doe / 1460 + doe / 36524 - doe / 146096.

Lemma era_numerator_mono a b : a <= b -> era_numerator a <= era_numerator b.
Proof.
  intros H. unfold era_numerator. assert (Ha : a / 146096 = a / 36524 / 4) by (rewrite Z.div_div; done).
  assert (Hb : b / 146096 = b / 36524 / 4) by (rewrite Z.div_div; done). rewrite Ha, Hb.
  assert (a / 36524 <= b / 36524) by (apply Z.div_le_mono; lia). zlia.
Qed.

Fixpoint all_from (P : Z -> bool) (n : nat) (z : Z) : bool :=
  match n with O => true | S n => P z && all_from P n (z + 1) end.

Lemma all_from_ok P n z x : all_from P n z = true -> z <= x < z + Z.of_nat n -> P x = true.
Proof.
  revert z. induction n as [|n IH]; intros z; cbn [all_from]; [lia|]. rewrite andb_true_iff. intros [Hz Hn] H.
  destruct (Z.eq_dec x z) as [->|Hne]; [done|]. apply (IH (z + 1)); [done|lia].
Qed.

(** What is checked of each year of an era, and of each day of a year that starts in March. *)
Definition era_year_ok (yoe : Z) : bool :=
  (365 * yoe <=? era_numerator (first_day yoe)) && (era_numerator (first_day (yoe + 1) - 1) <? 365 * (yoe + 1))
  && ((first_day (yoe + 1) - first_day yoe <=? 365) || (is_leap (yoe + 1) && (first_day (yoe + 1) - first_day yoe =? 366))
      || (yoe =? 399)).

Definition month_of (doy : Z) : Z := let mp := (5 * doy + 2) / 153 in if mp <? 10 then mp + 3 else mp - 9.
Definition day_of (doy : Z) : Z := doy - (153 * ((5 * doy + 2) / 153) + 2) / 5 + 1.
Definition year_day_ok (doy : Z) : bool :=
  let m := month_of doy in
  let d := day_of doy in
  (1 <=? m) && (m <=? 12) && (1 <=? d) && (d <=? (if doy =? 365 then 29 else last_day 1 m))
  && (negb (doy =? 365) || (m =? 2)) && ((153 * (if 2 <? m then m - 3 else m + 9) + 2) / 5 + d - 1 =? doy).

Lemma era_years_ok : all_from era_year_ok 400 0 = true.
Proof. vm_compute. reflexivity. Qed.
Lemma year_days_ok : all_from year_day_ok 366 0 = true.
Proof. vm_compute. reflexivity. Qed.

Ltac booleans :=
  repeat match goal with H : (_ && _) = true |- _ => apply andb_true_iff in H as [? ?] end;
  repeat match goal with H : (_ <=? _) = true |- _ => apply Z.leb_le in H
    | H : (_ <? _) = true |- _ => apply Z.ltb_lt in H | H : (_ =? _) = true |- _ => apply Z.eqb_eq in H end.

(** A day of the era is in its year. *)
Lemma era_day doe :
  0 <= doe < 146097 ->
  let yoe := year_of_era doe in
  0 <= yoe < 400 /\ 0 <= doe - first_day yoe <= 365 /\ (doe - first_day yoe = 365 -> is_leap (yoe + 1) = true).
Proof.
  intros H yoe. assert (Hy : 365 * yoe <= era_numerator doe < 365 * (yoe + 1)).
  { subst yoe. unfold year_of_era. fold (era_numerator doe). zlia. }
  clearbody yoe. pose proof (era_numerator_mono 0 doe ltac:(lia)) as H0. pose proof (era_numerator_mono doe 146096 ltac:(lia)) as H1.
  change (era_numerator 0) with 0 in H0. change (era_numerator 146096) with 145999 in H1.
  assert (Hy4 : 0 <= yoe < 400) by lia.
  assert (Hlow : first_day yoe <= doe).
  { destruct (Z.le_gt_cases (first_day yoe) doe) as [|Hlt]; [done|exfalso].
    pose proof (era_numerator_mono doe (first_day yoe - 1) ltac:(lia)). destruct (Z.eq_dec yoe 0) as [->|Hne]; [change (first_day 0) with 0 in *; lia|].
    pose proof (all_from_ok _ _ _ (yoe - 1) era_years_ok ltac:(lia)) as E. unfold era_year_ok in E.
    replace (yoe - 1 + 1) with yoe in E by lia. booleans. lia. }
  pose proof (all_from_ok _ _ _ yoe era_years_ok ltac:(lia)) as E. unfold era_year_ok in E.
  apply andb_true_iff in E as [_ E].
  assert (Hhigh : doe < first_day (yoe + 1) \/ yoe = 399).
  { destruct (Z.eq_dec yoe 399) as [|Hne]; [by right|left]. destruct (Z.lt_ge_cases doe (first_day (yoe + 1))) as [|Hge]; [done|exfalso].
    pose proof (era_numerator_mono (first_day (yoe + 1)) doe ltac:(lia)).
    pose proof (all_from_ok _ _ _ (yoe + 1) era_years_ok ltac:(lia)) as E'. unfold era_year_ok in E'. booleans. lia. }
  split; [done|]. destruct Hhigh as [Hhigh| ->].
  - apply orb_true_iff in E as [E|E].
    + apply orb_true_iff in E as [E|E]; booleans; (split; [lia|]); [lia|done].
    + booleans. subst yoe. change (first_day 399) with 145731 in *. change (first_day (399 + 1)) with 146096 in *. split; [lia|done].
  - change (first_day 399) with 145731 in *. split; [lia|done].
Qed.

Lemma last_day_era y era m : last_day (y + era * 400) m = last_day y m.
Proof.
  unfold last_day, is_leap. replace ((y + era * 400) mod 4) with (y mod 4) by zlia.
  replace ((y + era * 400) mod 100) with (y mod 100) by zlia. by rewrite Z.mod_add.
Qed.

(** A day is the day of its date, and the date exists. *)
Lemma civil_roundtrip z y m d :
  civil_from_days z = (y, m, d) -> days_from_civil y m d = z /\ 1 <= m <= 12 /\ 1 <= d <= last_day y m.
Proof.
  unfold civil_from_days. set (doe := (z + 719468) mod 146097). set (era := (z + 719468) / 146097).
  assert (Hdoe : 0 <= doe < 146097) by (apply Z.mod_pos_bound; lia).
  assert (Hz : z = era * 146097 + doe - 719468) by (subst era doe; zlia). clearbody era doe.
  destruct (era_day doe Hdoe) as (Hyoe & Hdoy & Hleap). set (yoe := year_of_era doe) in *. clearbody yoe.
  fold (first_day yoe). set (doy := doe - first_day yoe) in *. fold (month_of doy) (day_of doy).
  pose proof (all_from_ok _ _ _ doy year_days_ok ltac:(lia)) as H. unfold year_day_ok in H. booleans.
  set (m' := month_of doy) in *. set (d' := day_of doy) in *. clearbody m' d'.
  intros [= <- <- <-].
  replace (yoe + era * 400 + (if m' <=? 2 then 1 else 0)) with
    (yoe + (if m' <=? 2 then 1 else 0) + era * 400) by lia. rewrite last_day_era. split.
  - unfold days_from_civil.
    replace (if m' <=? 2 then yoe + (if m' <=? 2 then 1 else 0) + era * 400 - 1 else yoe + (if m' <=? 2 then 1 else 0) + era * 400)
      with (yoe + era * 400) by (destruct (m' <=? 2); lia).
    rewrite Z.div_add, Z.mod_add, Z.div_small, Z.mod_small by lia. fold (first_day yoe). unfold first_day in *. lia.
  - split; [lia|]. split; [lia|]. destruct (Z.eqb_spec doy 365) as [E|E].
    + cbn [negb orb] in *. booleans. subst m'. cbn. unfold last_day. cbn. rewrite (Hleap E). lia.
    + etrans; [eassumption|]. unfold last_day. change (is_leap 1) with false. destruct (m' =? 2); [|done]. match goal with |- context [if ?b then 29 else _] => destruct b; lia end.
Qed.

(** The years of the clock. *)
Lemma civil_year z y m d :
  civil_from_days z = (y, m, d) -> -200000 <= z <= 200000 -> 1400 <= y <= 2600.
Proof.
  intros E%civil_roundtrip Hz. destruct E as (E & Hm & Hd). unfold days_from_civil in E.
  assert (Hl : last_day y m <= 31) by (unfold last_day; repeat case_match; lia).
  set (y' := if m <=? 2 then y - 1 else y) in *. assert (Hy : y' <= y <= y' + 1) by (subst y'; destruct (m <=? 2); lia).
  clearbody y'. assert (Hdoy : 0 <= (153 * (if 2 <? m then m - 3 else m + 9) + 2) / 5 + d - 1 <= 400)
    by (destruct (Z.ltb_spec 2 m); zlia).
  set (doy := (153 * _ + 2) / 5 + d - 1) in *. clearbody doy. zlia.
Qed.

(** ** Digits *)

Lemma write2_some v : 0 <= v < 100 -> write2 v = Some [48 + v / 10; 48 + v mod 10].
Proof. intros H. unfold write2. by rewrite (proj2 (Z.leb_le _ _)), (proj2 (Z.ltb_lt _ _)) by lia. Qed.

Lemma write4_some v :
  0 <= v < 10000 -> write4 v = Some [48 + v / 1000; 48 + v / 100 mod 10; 48 + v / 10 mod 10; 48 + v mod 10].
Proof.
  intros H. unfold write4. rewrite Z.quot_div_nonneg, Z.rem_mod_nonneg, !u32_id by zlia.
  rewrite !write2_some by zlia. cbn [mbind option_bind app].
  replace (v / 100 / 10) with (v / 1000) by zlia. replace (v mod 100 / 10) with (v / 10 mod 10) by zlia.
  by replace ((v mod 100) mod 10) with (v mod 10) by zlia.
Qed.

Lemma char_at_ascii l i : byte_at l i < 128 -> char_at l i = byte_at l i.
Proof. intros H. unfold char_at. cbv zeta. by rewrite (proj2 (Z.ltb_lt _ _)). Qed.

Lemma isdigit_digit d : 0 <= d <= 9 -> isdigit (48 + d) = true.
Proof. intros H. unfold isdigit. by rewrite !(proj2 (Z.leb_le _ _)) by lia. Qed.

(** Names are found at their place. *)
Definition name_ok (rep : list Z) (i : Z) (name : bytes) : Prop :=
  exists a b c, name = [a; b; c] /\ isspace a = false /\ 0 <= a < 128 /\ 0 <= b < 128 /\ 0 <= c < 128
    /\ index_of (u16 ((a - 48) * 100 + (b - 48) * 10 + (c - 48))) rep = Some i.

Lemma weekday_name w : 0 <= w < 7 -> exists name, kWeekdays !! Z.to_nat w = Some name /\ name_ok kWeekdaysRep w name.
Proof.
  intros H. assert (E : w = 0 \/ w = 1 \/ w = 2 \/ w = 3 \/ w = 4 \/ w = 5 \/ w = 6) by lia.
  repeat destruct E as [->|E]; [..|subst w]; eexists; (split; [reflexivity|]); eexists _, _, _; (split; [reflexivity|]);
    (split_and!; vm_compute; (reflexivity || congruence)).
Qed.

Lemma month_name m : 1 <= m <= 12 -> exists name, kMonths !! Z.to_nat (m - 1) = Some name /\ name_ok kMonthsRep (m - 1) name.
Proof.
  intros H. assert (E : m = 1 \/ m = 2 \/ m = 3 \/ m = 4 \/ m = 5 \/ m = 6 \/ m = 7 \/ m = 8 \/ m = 9 \/ m = 10 \/ m = 11 \/ m = 12) by lia.
  repeat destruct E as [->|E]; [..|subst m]; eexists; (split; [reflexivity|]); eexists _, _, _; (split; [reflexivity|]);
    (split_and!; vm_compute; (reflexivity || congruence)).
Qed.

(** ** The text of a date *)

Section Text.
Context (w y m d hh mm ss : Z).
Context (Hm : 1 <= m <= 12) (Hd : 1 <= d <= last_day y m) (Hy : 0 <= y < 10000).
Context (Hhh : 0 <= hh < 24) (Hmm : 0 <= mm < 60) (Hss : 0 <= ss < 60).
Context (a b c e f g : Z).
Context (Hw : index_of (u16 ((a - 48) * 100 + (b - 48) * 10 + (c - 48))) kWeekdaysRep = Some w).
Context (Hmon : index_of (u16 ((e - 48) * 100 + (f - 48) * 10 + (g - 48))) kMonthsRep = Some (m - 1)).
Context (Ha : isspace a = false) (Ha' : 0 <= a < 128) (Hb' : 0 <= b < 128) (Hc' : 0 <= c < 128)
  (He' : 0 <= e < 128) (Hf' : 0 <= f < 128) (Hg' : 0 <= g < 128).

Definition date_text : bytes :=
  [a; b; c; 44; 32; 48 + d / 10; 48 + d mod 10; 32; e; f; g; 32;
   48 + y / 1000; 48 + y / 100 mod 10; 48 + y / 10 mod 10; 48 + y mod 10; 32;
   48 + hh / 10; 48 + hh mod 10; 58; 48 + mm / 10; 48 + mm mod 10; 58; 48 + ss / 10; 48 + ss mod 10; 32; 71; 77; 84].

Lemma parse_date_text :
  TryParseTimeRFC7231 date_text =
    if w =? weekday (days_from_civil y m d)
    then to_time_point (days_from_civil y m d * 86400 + hh * 3600 + mm * 60 + ss) else Some kInvalidTimePoint.
Proof.
  assert (Hd31 : d <= 31) by (unfold last_day in Hd; repeat case_match; lia).
  unfold TryParseTimeRFC7231. assert (Et : trim_spaces date_text = date_text).
  { unfold trim_spaces, date_text. cbn [skip_spaces]. rewrite Ha. reflexivity. }
  rewrite Et. cbn [length date_text Nat.eqb RFC7231DateStrLen negb].
  assert (Es : date_shape date_text = true).
  { unfold date_shape, date_text. cbn [byte_at nth forallb Z.eqb Pos.eqb andb].
    rewrite !isdigit_digit by zlia. done. }
  rewrite Es. cbn [negb].
  assert (E2 : forall i v, byte_at date_text i = 48 + v / 10 -> byte_at date_text (i + 1) = 48 + v mod 10 -> 0 <= v < 100 ->
    read2 date_text i = v).
  { intros i v E1 E2 Hv. unfold read2. rewrite !char_at_ascii by (rewrite ?E1, ?E2; zlia). rewrite E1, E2. unfold u8. zlia. }
  assert (E3 : forall i u v x, byte_at date_text i = u -> byte_at date_text (i + 1) = v -> byte_at date_text (i + 2) = x ->
    0 <= u < 128 -> 0 <= v < 128 -> 0 <= x < 128 -> read3 date_text i = u16 ((u - 48) * 100 + (v - 48) * 10 + (x - 48))).
  { intros i u v x <- <- <- Hu Hv Hx. unfold read3. by rewrite !char_at_ascii by lia. }
  rewrite (E3 26%nat 71 77 84), (E3 8%nat e f g), (E3 0%nat a b c) by (reflexivity || lia).
  replace (u16 _ =? kGMTRep) with true by (vm_compute; reflexivity). cbn [negb]. rewrite Hmon, Hw. cbv zeta.
  rewrite (E2 5%nat d), (E2 17%nat hh), (E2 20%nat mm), (E2 23%nat ss) by (reflexivity || lia).
  assert (E4 : read4 date_text 12 = y).
  { unfold read4. rewrite !char_at_ascii by (cbn [byte_at nth date_text Nat.add]; zlia). cbn [byte_at nth date_text Nat.add]. zlia. }
  rewrite E4. rewrite (proj2 (Z.eqb_neq d 0)), !(proj2 (Z.ltb_ge _ _)) by lia. cbn [orb].
  replace (m - 1 + 1) with m by lia.
  replace (ymd_ok y m d) with true by (unfold ymd_ok; by rewrite !(proj2 (Z.leb_le _ _)) by lia).
  cbn [negb]. by destruct (_ =? _).
Qed.
End Text.

Lemma date_written_read tp :
  - 2 ^ 63 <= tp < 2 ^ 63 ->
  exists text, TimeToStringRFC7231 tp = Some text /\ length text = RFC7231DateStrLen
    /\ TryParseTimeRFC7231 text = Some (Z.quot tp ns_per_s * ns_per_s).
Proof.
  intros Htp. unfold TimeToStringRFC7231. set (secTp := Z.quot tp ns_per_s). set (day := secTp / 86400).
  assert (Hsec : - 2 ^ 63 <= secTp * ns_per_s < 2 ^ 63) by (subst secTp; unfold ns_per_s; zlia).
  assert (Hday : -200000 <= day <= 200000) by (subst day; unfold ns_per_s in Hsec; zlia).
  destruct (civil_from_days day) as [[y m] d] eqn:Ed. pose proof (civil_year day y m d Ed Hday) as Hy.
  apply civil_roundtrip in Ed as (Ed & Hm & Hd). assert (Hd31 : d <= 31) by (unfold last_day in Hd; repeat case_match; lia).
  assert (Htod : 0 <= secTp - day * 86400 < 86400) by (subst day; zlia).
  rewrite (u32_id (secTp - day * 86400)) by lia. set (tod := secTp - day * 86400) in *.
  rewrite (u32_id (tod - tod / 3600 * 3600)) by zlia. set (rem := tod - tod / 3600 * 3600).
  rewrite (u32_id (rem - rem / 60 * 60)) by (subst rem; zlia).
  destruct (weekday_name (weekday day)) as (wd & -> & a & b & c & -> & Ha & Ha' & Hb' & Hc' & Hw); [unfold weekday; zlia|].
  destruct (month_name m Hm) as (mon & -> & e & f & g & -> & _ & He' & Hf' & Hg' & Hmon).
  cbn [mbind option_bind]. rewrite write4_some by lia. rewrite !write2_some by (subst rem; zlia). cbn [mbind option_bind].
  eexists. split; [reflexivity|]. split; [reflexivity|].
  etrans; [apply (parse_date_text (weekday day) y m d (tod / 3600) (rem / 60) (rem - rem / 60 * 60) Hm Hd)|]; try done; try (subst rem; zlia).
  rewrite Ed, Z.eqb_refl. unfold to_time_point.
  replace (day * 86400 + tod / 3600 * 3600 + rem / 60 * 60 + (rem - rem / 60 * 60)) with secTp by (subst rem tod; lia).
  rewrite (proj2 (Z.leb_le _ _)), (proj2 (Z.ltb_lt _ _)) by lia. done.
Qed.

(** C33: every time point of the clock is written without an access out of a table, as 29 bytes
    that are no white space at either end, and read back as the same second. *)
Theorem imf_date_roundtrip tp :
  - 2 ^ 63 <= tp < 2 ^ 63 ->
  exists text, TimeToStringRFC7231 tp = Some text /\ length text = RFC7231DateStrLen
    /\ TryParseTimeRFC7231 text = Some (Z.quot tp ns_per_s * ns_per_s).
Proof. apply date_written_read. Qed.

Lemma imf_date_roundtrip_witness :
  exists text, TimeToStringRFC7231 784111777500000000 = Some text /\ length text = 29%nat
    /\ text = str "Sun, 06 Nov 1994 08:49:37 GMT" /\ TryParseTimeRFC7231 text = Some 784111777000000000.
Proof.
  destruct (imf_date_roundtrip 784111777500000000) as (text & E & Hl & Hp); [split; vm_compute; congruence|].
  exists text. split; [exact E|]. split; [exact Hl|]. split; [|exact Hp].
  vm_compute in E. injection E as <-. reflexivity.
Defined.
