(* ===== verification/RawChars.v ===== *)
(** Byte buffers with a capacity (tech/include/aeronet/internal/raw-bytes-base.hpp,
    tech/src/raw-bytes.cpp), and the ways in which the message classes move bytes in them.

    The memory is the whole allocation; its bytes beyond the size are indeterminate after a
    reallocation.  [None] is an access out of the allocation.  A buffer that cannot be
    allocated is not modelled. *)

From S2P Require Import Prelude.
Local Open Scope Z_scope.

Record RawChars := MkRawChars { rc_buf : bytes; rc_size : nat }.

Definition capacity (r : RawChars) : nat := length (rc_buf r).
Definition content (r : RawChars) : bytes := take (rc_size r) (rc_buf r).

(** [char* p = data() + pos], then bytes written from [p]. *)
Definition poke (pos : nat) (data : bytes) (r : RawChars) : option RawChars :=
  if (pos + length data <=? capacity r)%nat
  then Some (MkRawChars (take pos (rc_buf r) ++ data ++ drop (pos + length data) (rc_buf r)) (rc_size r))
  else None.

(** [std::memmove] within the buffer. *)
Definition memmove (dst src n : nat) (r : RawChars) : option RawChars :=
  if (src + n <=? capacity r)%nat then poke dst (take n (drop src (rc_buf r))) r else None.

Definition peek (pos : nat) (r : RawChars) : option Z := rc_buf r !! pos.

Definition setSize (newSize : nat) (r : RawChars) : option RawChars :=
  if (newSize <=? capacity r)%nat then Some (MkRawChars (rc_buf r) newSize) else None.
Definition addSize (delta : nat) (r : RawChars) : option RawChars := setSize (rc_size r + delta) r.

(** By a signed amount. *)
Definition moved_by (n : nat) (diff : Z) : option nat :=
  let m := Z.of_nat n + diff in if 0 <=? m then Some (Z.to_nat m) else None.
Definition adjustSize (delta : Z) (r : RawChars) : option RawChars :=
  n ← moved_by (rc_size r) delta; setSize n r.

Section Allocation.
(** What an allocation contains. *)
Context (garbage : Z).

Definition RawBytesBase_new (n : nat) : RawChars := MkRawChars (replicate n garbage) 0.

Definition reallocUp (newCapacity : nat) (r : RawChars) : RawChars :=
  MkRawChars (content r ++ replicate (newCapacity - rc_size r) garbage) (rc_size r).

Definition reserve (newCapacity : nat) (r : RawChars) : RawChars :=
  if (capacity r <? newCapacity)%nat then reallocUp newCapacity r else r.

Definition ensureAvailableCapacity (availableCapacity : nat) (r : RawChars) : RawChars :=
  reserve (availableCapacity + rc_size r) r.

Definition ensureAvailableCapacityExponential (availableCapacity : nat) (r : RawChars) : RawChars :=
  let required := (availableCapacity + rc_size r)%nat in
  if (capacity r <? required)%nat then
    let doubled := (2 * capacity r)%nat in reallocUp (if (required <? doubled)%nat then doubled else required) r
  else r.

(** The overloads on signed amounts. *)
Definition ensureAvailableCapacity_signed (capa : Z) (r : RawChars) : RawChars :=
  if 0 <? capa then ensureAvailableCapacity (Z.to_nat capa) r else r.
Definition ensureAvailableCapacityExponential_signed (capa : Z) (r : RawChars) : RawChars :=
  if 0 <? capa then ensureAvailableCapacityExponential (Z.to_nat capa) r else r.

(** [unchecked_append], [append], [push_back], [assign], [erase_front], [shrink_to_fit], [==]. *)
Definition unchecked_append (data : bytes) (r : RawChars) : option RawChars :=
  r ← poke (rc_size r) data r; addSize (length data) r.
Definition append (data : bytes) (r : RawChars) : option RawChars :=
  unchecked_append data (ensureAvailableCapacityExponential (length data) r).
Definition push_back (byte : Z) (r : RawChars) : option RawChars :=
  unchecked_append [byte] (ensureAvailableCapacityExponential 1 r).
Definition assign (data : bytes) (r : RawChars) : option RawChars :=
  r ← poke 0 data (reserve (length data) r); setSize (length data) r.
Definition buffer_clear (r : RawChars) : option RawChars := setSize 0 r.
Definition erase_front (n : nat) (r : RawChars) : option RawChars :=
  if Nat.eqb n (rc_size r) then setSize 0 r
  else if negb (Nat.eqb n 0) then
    if (n <=? rc_size r)%nat
    then let newSize := (rc_size r - n)%nat in memmove 0 n newSize (MkRawChars (rc_buf r) newSize)
    else None
  else Some r.
Definition shrink_to_fit (r : RawChars) : RawChars :=
  if (1024 <? capacity r)%nat && (4 * rc_size r <? capacity r)%nat
  then MkRawChars (take (capacity r / 2) (rc_buf r)) (rc_size r) else r.
Definition buffer_eqb (lhs rhs : RawChars) : bool :=
  Nat.eqb (rc_size lhs) (rc_size rhs) && (Nat.eqb (rc_size lhs) 0 || bool_decide (content lhs = content rhs)).

(** ** Buffers and their contents *)

Definition holds (r : RawChars) (l : bytes) : Prop :=
  exists spare, rc_buf r = l ++ spare /\ rc_size r = length l.

(** So many bytes may follow the content. *)
Definition room (n : nat) (r : RawChars) : Prop := (rc_size r + n <= capacity r)%nat.

Lemma holds_content r l : holds r l -> content r = l.
Proof. intros (spare & E & Es). unfold content. by rewrite E, Es, take_app_length. Qed.

Lemma holds_size r l : holds r l -> rc_size r = length l.
Proof. by intros (? & _ & ?). Qed.

Lemma holds_peek r l pos : holds r l -> (pos < length l)%nat -> peek pos r = l !! pos.
Proof. intros (spare & E & _) Hp. unfold peek. by rewrite E, lookup_app_l. Qed.

Lemma reallocUp_holds n r l :
  holds r l -> (length l <= n)%nat -> holds (reallocUp n r) l /\ capacity (reallocUp n r) = n.
Proof.
  intros H Hn. pose proof (holds_content _ _ H) as Ec. pose proof (holds_size _ _ H) as Es.
  unfold reallocUp, capacity. cbn [rc_buf]. rewrite Ec, Es. split.
  - eexists. by split.
  - rewrite length_app, length_replicate. lia.
Qed.

Lemma ensure_holds n r l :
  holds r l -> holds (ensureAvailableCapacity n r) l /\ room n (ensureAvailableCapacity n r).
Proof.
  intros H. pose proof (holds_size _ _ H) as Es. unfold ensureAvailableCapacity, reserve, room.
  destruct (Nat.ltb_spec (capacity r) (n + rc_size r)) as [Hc|Hc]; [|split; [done|lia]].
  destruct (reallocUp_holds (n + rc_size r) r l H) as [H' Hcap]; [lia|]. split; [done|].
  rewrite Hcap. cbn [reallocUp rc_size]. lia.
Qed.

Lemma ensure_exp_holds n r l :
  holds r l -> holds (ensureAvailableCapacityExponential n r) l /\ room n (ensureAvailableCapacityExponential n r).
Proof.
  intros H. pose proof (holds_size _ _ H) as Es. unfold ensureAvailableCapacityExponential, room. cbv zeta.
  destruct (Nat.ltb_spec (capacity r) (n + rc_size r)) as [Hc|Hc]; [|split; [done|lia]].
  set (c := if (_ <? _)%nat then _ else _). assert (Hc' : (n + rc_size r <= c)%nat)
    by (subst c; destruct (Nat.ltb_spec (n + rc_size r) (2 * capacity r)); lia).
  destruct (reallocUp_holds c r l H) as [H' Hcap]; [lia|]. split; [done|]. rewrite Hcap. cbn [reallocUp rc_size]. lia.
Qed.

Lemma ensure_signed_holds capa r l :
  holds r l -> holds (ensureAvailableCapacity_signed capa r) l /\ room (Z.to_nat capa) (ensureAvailableCapacity_signed capa r).
Proof.
  intros H. unfold ensureAvailableCapacity_signed. destruct (Z.ltb_spec 0 capa) as [Hc|Hc]; [by apply ensure_holds|].
  split; [done|]. destruct H as (spare & E & Es). unfold room, capacity. rewrite E, Es, length_app. lia.
Qed.

Lemma ensure_exp_signed_holds capa r l :
  holds r l ->
  holds (ensureAvailableCapacityExponential_signed capa r) l
  /\ room (Z.to_nat capa) (ensureAvailableCapacityExponential_signed capa r).
Proof.
  intros H. unfold ensureAvailableCapacityExponential_signed. destruct (Z.ltb_spec 0 capa) as [Hc|Hc]; [by apply ensure_exp_holds|].
  split; [done|]. destruct H as (spare & E & Es). unfold room, capacity. rewrite E, Es, length_app. lia.
Qed.
End Allocation.

(** Memory written piece by piece, whatever the size says. *)
Definition memory (r : RawChars) (l : bytes) : Prop := rc_buf r = l.

Lemma poke_memory r a x y c :
  rc_buf r = a ++ x ++ c -> length x = length y -> poke (length a) y r = Some (MkRawChars (a ++ y ++ c) (rc_size r)).
Proof.
  intros E Hl. unfold poke, capacity. rewrite E, !length_app, <- Hl.
  rewrite (proj2 (Nat.leb_le _ _)) by lia. rewrite take_app_length. do 4 f_equal.
  rewrite app_assoc, drop_app_ge by (rewrite length_app; lia). rewrite length_app, Nat.sub_diag. by rewrite drop_0.
Qed.

(** A write over the end of a known prefix, into the spare bytes. *)
Lemma poke_end r a x y spare :
  rc_buf r = a ++ x ++ spare -> (length y <= length x + length spare)%nat -> (length x <= length y)%nat ->
  poke (length a) y r = Some (MkRawChars (a ++ y ++ drop (length y - length x) spare) (rc_size r)).
Proof.
  intros E Hl Hx. apply (poke_memory r a (x ++ take (length y - length x) spare) y).
  - by rewrite E, <- app_assoc, take_drop.
  - rewrite length_app, length_take. lia.
Qed.

Lemma memmove_memory r dst src n x rest pre :
  rc_buf r = pre ++ x ++ rest -> length pre = src -> length x = n ->
  memmove dst src n r = poke dst x r.
Proof.
  intros E <- <-. unfold memmove, capacity. rewrite E, !length_app. rewrite (proj2 (Nat.leb_le _ _)) by lia.
  by rewrite drop_app_length, take_app_length.
Qed.

Lemma setSize_holds r l spare n : rc_buf r = l ++ spare -> n = length l -> exists r', setSize n r = Some r' /\ holds r' l /\ rc_buf r' = rc_buf r.
Proof.
  intros E ->. unfold setSize, capacity. rewrite E, length_app. rewrite (proj2 (Nat.leb_le _ _)) by lia.
  eexists. split; [done|]. split; [by exists spare|done].
Qed.

(** The middle of the content is replaced: the rest is moved, then the new bytes are written. *)
Lemma replace_middle r a x b y :
  holds r (a ++ x ++ b) -> (length a + length y + length b <= capacity r)%nat ->
  exists r1, memmove (length a + length y) (length a + length x) (length b) r = Some r1
    /\ rc_size r1 = rc_size r
    /\ (exists w spare, length w = length y /\ rc_buf r1 = a ++ w ++ b ++ spare)
    /\ exists r2, poke (length a) y r1 = Some r2 /\ rc_size r2 = rc_size r
    /\ exists spare, rc_buf r2 = (a ++ y ++ b) ++ spare.
Proof.
  intros (spare & E & Es) Hc. rewrite <- !app_assoc in E.
  assert (Hlen : capacity r = (length a + length x + length b + length spare)%nat)
    by (unfold capacity; rewrite E, !length_app; lia).
  set (w := take (length y) (x ++ b ++ spare)).
  assert (Hw : length w = length y) by (subst w; rewrite length_take, !length_app; lia).
  assert (Hm : exists spare', memmove (length a + length y) (length a + length x) (length b) r
                              = Some (MkRawChars (a ++ w ++ b ++ spare') (rc_size r))).
  { rewrite (memmove_memory r _ _ _ b spare (a ++ x)); [|by rewrite E, <- app_assoc|by rewrite length_app|done].
    unfold poke. rewrite (proj2 (Nat.leb_le _ _)) by lia. eexists. do 2 f_equal.
    rewrite E, take_app_ge by lia. replace (length a + length y - length a)%nat with (length y) by lia.
    rewrite <- app_assoc. reflexivity. }
  destruct Hm as [spare' Hm]. eexists. split; [exact Hm|]. split; [done|]. split; [by exists w, spare'|].
  eexists. split; [by apply (poke_memory _ a w y (b ++ spare'))|]. split; [done|].
  exists spare'. by rewrite <- !app_assoc.
Qed.

(** A byte buffer is a list of bytes with spare room: any history of its operations does what
    it does to the list, within the allocation. *)

(** ** Histories *)

Inductive BufferOp :=
  | BAppend (data : bytes) | BPush (byte : Z) | BAssign (data : bytes) | BClear | BErase (n : nat)
  | BReserve (n : nat) | BEnsure (n : nat) | BShrink.

Section Buffer.
Context (garbage : Z).

Definition buffer_op (op : BufferOp) (r : RawChars) : option RawChars :=
  match op with
  | BAppend data => append garbage data r
  | BPush byte => push_back garbage byte r
  | BAssign data => assign garbage data r
  | BClear => buffer_clear r
  | BErase n => erase_front n r
  | BReserve n => Some (reserve garbage n r)
  | BEnsure n => Some (ensureAvailableCapacity garbage n r)
  | BShrink => Some (shrink_to_fit r)
  end.

Definition buffer_run (ops : list BufferOp) (r : RawChars) : option RawChars :=
  foldl (fun r op => r ← r; buffer_op op r) (Some r) ops.

Definition list_op (op : BufferOp) (l : bytes) : bytes :=
  match op with
  | BAppend data => l ++ data
  | BPush byte => l ++ [byte]
  | BAssign data => data
  | BClear => []
  | BErase n => drop n l
  | _ => l
  end.
Definition list_run (ops : list BufferOp) (l : bytes) : bytes := foldl (fun l op => list_op op l) l ops.

(** No more is erased than there is. *)
Fixpoint erases_ok (ops : list BufferOp) (l : bytes) : Prop :=
  match ops with
  | [] => True
  | op :: ops => match op with BErase n => (n <= length l)%nat | _ => True end /\ erases_ok ops (list_op op l)
  end.

Lemma unchecked_append_holds r l data :
  holds r l -> room (length data) r -> exists r', unchecked_append data r = Some r' /\ holds r' (l ++ data).
Proof.
  intros (spare & E & Es) Hroom. unfold unchecked_append, room, capacity in *. rewrite Es, E, length_app in Hroom. rewrite Es.
  rewrite (poke_end r l [] data spare) by (done || (cbn; lia)). cbn [mbind option_bind length]. rewrite Nat.sub_0_r.
  unfold addSize. cbn [rc_size]. rewrite Es.
  destruct (setSize_holds (MkRawChars (l ++ data ++ drop (length data) spare) (length l)) (l ++ data) (drop (length data) spare) (length l + length data))
    as (r' & -> & H & _); [by rewrite <- app_assoc|by rewrite length_app|]. by exists r'.
Qed.

Lemma reserve_holds n r l : holds r l -> holds (reserve garbage n r) l /\ (n <= capacity (reserve garbage n r))%nat.
Proof.
  intros H. unfold reserve. destruct (Nat.ltb_spec (capacity r) n) as [Hc|Hc]; [|by split].
  destruct (reallocUp_holds garbage n r l H) as [H' ->]; [|by split]. destruct H as (spare & E & Es). unfold capacity in Hc. rewrite E, length_app in Hc. lia.
Qed.

Lemma assign_holds r l data : holds r l -> exists r', assign garbage data r = Some r' /\ holds r' data.
Proof.
  intros H. destruct (reserve_holds (length data) r l H) as [(spare & E & Es) Hc]. unfold assign.
  pose proof (poke_end (reserve garbage (length data) r) [] [] data (l ++ spare) E) as Ep. unfold capacity in Hc. rewrite E in Hc.
  cbn [length app Nat.add] in Ep. rewrite Ep by lia. cbn [mbind option_bind]. rewrite Nat.sub_0_r.
  destruct (setSize_holds (MkRawChars (data ++ drop (length data) (l ++ spare)) (rc_size (reserve garbage (length data) r))) data
    (drop (length data) (l ++ spare)) (length data)) as (r' & -> & H' & _); [done|done|]. by exists r'.
Qed.

Lemma erase_front_holds n r l : holds r l -> (n <= length l)%nat -> exists r', erase_front n r = Some r' /\ holds r' (drop n l).
Proof.
  intros H Hn. pose proof (holds_size _ _ H) as Es. unfold erase_front. rewrite Es. destruct (Nat.eqb_spec n (length l)) as [->|Hne].
  - rewrite drop_all. destruct (setSize_holds r [] (rc_buf r) 0) as (r' & -> & H' & _); [done|done|]. by exists r'.
  - destruct (Nat.eqb_spec n 0) as [->|Hn0]; cbn [negb]; [by exists r|]. rewrite (proj2 (Nat.leb_le _ _)) by lia. cbv zeta.
    destruct H as (spare & E & _).
    assert (E' : rc_buf (MkRawChars (rc_buf r) (length l - n)) = take n l ++ drop n l ++ spare) by (cbn; by rewrite app_assoc, take_drop).
    rewrite (memmove_memory _ 0 n (length l - n) (drop n l) spare (take n l)); [|done|rewrite length_take; lia|by rewrite length_drop].
    pose proof (poke_end (MkRawChars (rc_buf r) (length l - n)) [] [] (drop n l) (rc_buf r) eq_refl) as Ep.
    cbn [length app Nat.add] in Ep. rewrite Ep; [|rewrite E, length_app, length_drop; lia|lia]. eexists. split; [done|].
    exists (drop (length (drop n l) - 0) (rc_buf r)). cbn [rc_buf rc_size]. split; [done|by rewrite length_drop].
Qed.

Lemma shrink_holds r l : holds r l -> holds (shrink_to_fit r) l.
Proof.
  intros H. unfold shrink_to_fit. destruct (_ && _) eqn:E; [|done]. apply andb_true_iff in E as [E1 E2]. apply Nat.ltb_lt in E1, E2.
  destruct H as (spare & Eb & Es). rewrite Es in E2. assert (Hh : (length l <= capacity r / 2)%nat) by (pose proof (Nat.div_mod_eq (capacity r) 2); pose proof (Nat.mod_upper_bound (capacity r) 2); lia).
  exists (take (capacity r / 2 - length l) spare). cbn [rc_buf rc_size]. split; [|done]. by rewrite Eb, take_app_ge.
Qed.

Lemma buffer_op_holds op r l :
  holds r l -> match op with BErase n => (n <= length l)%nat | _ => True end ->
  exists r', buffer_op op r = Some r' /\ holds r' (list_op op l).
Proof.
  intros H Hok. destruct op as [data|b|data| |n|n|n|]; cbn [buffer_op list_op].
  - destruct (ensure_exp_holds garbage (length data) r l H) as [H' Hr]. by apply unchecked_append_holds.
  - destruct (ensure_exp_holds garbage 1 r l H) as [H' Hr]. by apply unchecked_append_holds.
  - by apply (assign_holds r l).
  - destruct (setSize_holds r [] (rc_buf r) 0) as (r' & E & H' & _); [done|done|]. by exists r'.
  - by apply erase_front_holds.
  - eexists. split; [done|]. by apply reserve_holds.
  - eexists. split; [done|]. by apply ensure_holds.
  - eexists. split; [done|]. by apply shrink_holds.
Qed.

(** C34: Any history of appends, assignments, erasures, reservations and shrinkings of a buffer
    stays within its allocation and leaves the bytes that the same history leaves in a list. *)
Theorem buffer_refines_list capa ops :
  erases_ok ops [] ->
  exists r, buffer_run ops (RawBytesBase_new garbage capa) = Some r /\ content r = list_run ops [] /\ (rc_size r <= capacity r)%nat.
Proof.
  assert (Hrun : forall l r, holds r l -> erases_ok ops l -> exists r', buffer_run ops r = Some r' /\ holds r' (list_run ops l)).
  { induction ops as [|op ops IH]; intros l r H Hok; [by exists r|]. destruct Hok as [Hop Hok].
    destruct (buffer_op_holds op r l H Hop) as (r1 & E & H1). destruct (IH _ _ H1 Hok) as (r' & E' & H').
    exists r'. split; [|done]. unfold buffer_run in *. cbn [foldl mbind option_bind]. by rewrite E. }
  intros Hok. destruct (Hrun [] (RawBytesBase_new garbage capa)) as (r & E & H); [by exists (replicate capa garbage)|done|].
  exists r. split; [done|]. split; [by apply holds_content|]. destruct H as (spare & Eb & Es). unfold capacity. rewrite Es, Eb, length_app. lia.
Qed.
End Buffer.

Lemma buffer_refines_list_witness :
  let ops := [BAppend [1; 2; 3]; BErase 1; BPush 4; BShrink; BReserve 9; BErase 2; BAppend [5]] in
  erases_ok ops [] /\ exists r, buffer_run 0 ops (RawBytesBase_new 0 2) = Some r /\ content r = [4; 5] /\ (rc_size r <= capacity r)%nat.
Proof. split; [cbn; lia|]. apply (buffer_refines_list 0 2 [BAppend [1; 2; 3]; BErase 1; BPush 4; BShrink; BReserve 9; BErase 2; BAppend [5]]). cbn. lia. Defined.
