(* ===== verification/HttpMessage.v ===== *)
(** HTTP messages under construction (http/include/aeronet/http-message.hpp, http-response.hpp,
    http/src/http-message.cpp, http-response.cpp): one buffer with the status line, the header
    lines, the body and the trailers, edited in place.

    The build is the one without compression codecs.  An operation returns, throws with the
    message as it is then, or is undefined ([None]): an access out of the buffer, a failed
    assertion, a search that leaves the bytes it was given. *)

From S2P Require Import Prelude.
From S2P Require Import AsciiCase.
From S2P Require Import HeadersView.
From S2P Require Import UrlCodec.
From S2P Require Import Cors.
From S2P Require Import RoutePattern.
From S2P Require Import ResponseParser.
From S2P Require Import TimeString.
From S2P Require Import RawChars.
Local Open Scope Z_scope.

(** ** Names and numbers *)

Definition DoubleCRLF : bytes := [13; 10; 13; 10].
Definition HeaderSize (nameLen valueLen : nat) : nat := (2 + nameLen + 2 + valueLen)%nat.
Definition n_content_type : bytes := str "content-type".
Definition n_content_length : bytes := str "content-length".
Definition n_content_encoding : bytes := str "content-encoding".
Definition ContentTypeTextPlain : bytes := str "text/plain".

Definition tchar_low : Z :=
  fold_right Z.lor 0 (map (fun c => Z.shiftl 1 c) [33; 35; 36; 37; 38; 39; 42; 43; 45; 46] ++ [Z.shiftl 0x3FF 48]).
Definition tchar_high : Z :=
  fold_right Z.lor 0 [Z.shiftl 0x3FFFFFF 1; Z.shiftl 1 30; Z.shiftl 1 31; Z.shiftl 0x3FFFFFF 33; Z.shiftl 1 32;
                      Z.shiftl 1 60; Z.shiftl 1 62].
Definition is_tchar (uc : Z) : bool :=
  (uc <? 128) && Z.testbit (if uc <? 64 then tchar_low else tchar_high) (uc mod 64).
Definition IsValidHeaderName (name : bytes) : bool := negb (bool_decide (name = [])) && forallb is_tchar name.

(** [pow10]: powers of ten less one, then the maximum. *)
Definition pow10 : list Z := map (fun i => 10 ^ (i + 1) - 1) (seqZ 0 19) ++ [2 ^ 64 - 1].
Definition ndigits (n : Z) : Z :=
  if n <? 10 then 1
  else
    let floorLog2 := Z.log2 n in
    let estimate := Z.shiftr (u32 (floorLog2 * 1233)) 12 in
    let estimate := if nth (Z.to_nat estimate) pow10 0 <? n then estimate + 1 else estimate in
    estimate + 1.
Definition nchars (n : nat) : nat := Z.to_nat (ndigits (Z.of_nat n)).

(** The headers that the user of a response may not set. *)
Definition IsReservedResponseHeader (name : bytes) : bool :=
  existsb (fun candidate => CaseInsensitiveEqual name candidate)
    (map str ["connection"; "content-length"; "content-type"; "date"; "te"; "trailer"; "transfer-encoding"; "upgrade"]%string).
Definition IsReservedOrForbiddenRequestHeader (name : bytes) : bool :=
  existsb (fun candidate => CaseInsensitiveEqual name candidate)
    (map str ["content-length"; "content-type"; "expect"; "host"; "te"; "trailer"; "transfer-encoding"; "upgrade"]%string).

Definition CheckContentTypeLengthEncoding (headerName : bytes) (hasBody : bool) : option string :=
  if negb ((byte_at headerName 0 =? 99) || (byte_at headerName 0 =? 67)) then None
  else if negb (Nat.eqb (length headerName) (length n_content_type)) && negb (Nat.eqb (length headerName) (length n_content_length))
  then if hasBody && CaseInsensitiveEqual headerName n_content_encoding
       then Some "content-encoding cannot be changed with body already set"%string else None
  else if CaseInsensitiveEqual headerName n_content_type
  then Some "content-type header should be set with the body"%string
  else if CaseInsensitiveEqual headerName n_content_length
  then Some "content-length header should be set with the body"%string
  else None.

(** ** The message *)

(** [HttpPayload]: nothing, the length of a file, bytes captured from the caller, or a size
    without bytes. *)
Inductive Payload := PNone | PFile (len : nat) | PCaptured (data : bytes) | PSizeOnly (size : nat).

Definition payload_empty (p : Payload) : bool := match p with PNone => true | _ => false end.
Definition isFilePayload (p : Payload) : bool := match p with PFile _ => true | _ => false end.
Definition isSizeOnly (p : Payload) : bool := match p with PSizeOnly _ => true | _ => false end.
Definition hasCapturedBody (p : Payload) : bool := match p with PCaptured _ | PSizeOnly _ => true | _ => false end.
Definition payload_size (p : Payload) : nat :=
  match p with PCaptured data => length data | PSizeOnly n => n | _ => 0 end.
Definition payload_view (p : Payload) : bytes := match p with PCaptured data => data | _ => [] end.
Definition payload_append (data : bytes) (p : Payload) : option Payload :=
  match p with PNone => Some (PCaptured data) | PCaptured l => Some (PCaptured (l ++ data)) | _ => None end.
Definition payload_insert (pos : nat) (data : bytes) (p : Payload) : option Payload :=
  match p with
  | PCaptured l => if (pos <=? length l)%nat then Some (PCaptured (take pos l ++ data ++ drop pos l)) else None
  | _ => None
  end.

Record Options := MkOptions {
  op_close : bool;
  op_addTrailerHeader : bool;
  op_headMethod : bool;
  op_prepared : bool;
  op_hasContentEncoding : bool;
  op_streamingBody : bool;
  op_httpRequest : bool;
  op_trailerLen : nat
}.

Record HttpMessage := MkMessage {
  hm_data : RawChars;
  hm_posBitmap : Z;
  hm_payload : Payload;
  hm_opts : Options
}.

Definition set_data (d : RawChars) (m : HttpMessage) : HttpMessage :=
  MkMessage d (hm_posBitmap m) (hm_payload m) (hm_opts m).
Definition set_bitmap (b : Z) (m : HttpMessage) : HttpMessage :=
  MkMessage (hm_data m) b (hm_payload m) (hm_opts m).
Definition set_payload (p : Payload) (m : HttpMessage) : HttpMessage :=
  MkMessage (hm_data m) (hm_posBitmap m) p (hm_opts m).
Definition set_opts (o : Options) (m : HttpMessage) : HttpMessage :=
  MkMessage (hm_data m) (hm_posBitmap m) (hm_payload m) o.
Definition set_hasContentEncoding (b : bool) (m : HttpMessage) : HttpMessage :=
  let o := hm_opts m in
  set_opts (MkOptions (op_close o) (op_addTrailerHeader o) (op_headMethod o) (op_prepared o) b
              (op_streamingBody o) (op_httpRequest o) (op_trailerLen o)) m.
Definition set_trailerLen (n : nat) (m : HttpMessage) : HttpMessage :=
  let o := hm_opts m in
  set_opts (MkOptions (op_close o) (op_addTrailerHeader o) (op_headMethod o) (op_prepared o)
              (op_hasContentEncoding o) (op_streamingBody o) (op_httpRequest o) n) m.

(** The two positions in one word: 24 bits for the headers, 40 for the body. *)
Definition kHeaderPosNbBits : Z := 24.
Definition kBodyPosNbBits : Z := 40.
Definition kHeadersStartMask : Z := Z.shiftl 1 kHeaderPosNbBits - 1.
Definition kBodyStartMask : Z := Z.shiftl 1 kBodyPosNbBits - 1.

Definition headersStartPos (m : HttpMessage) : nat := Z.to_nat (u32 (Z.land (hm_posBitmap m) kHeadersStartMask)).
Definition bodyStartPos (m : HttpMessage) : nat :=
  Z.to_nat (Z.land (Z.shiftr (hm_posBitmap m) kHeaderPosNbBits) kBodyStartMask).

Definition setHeadersStartPosNoCheck (pos : nat) (m : HttpMessage) : option HttpMessage :=
  if Z.of_nat pos <=? kHeadersStartMask
  then Some (set_bitmap (Z.lor (Z.land (hm_posBitmap m) (Z.shiftl kBodyStartMask kHeaderPosNbBits)) (Z.of_nat pos)) m)
  else None.
Definition setBodyStartPosNoCheck (pos : nat) (m : HttpMessage) : HttpMessage :=
  set_bitmap (Z.lor (Z.land (hm_posBitmap m) kHeadersStartMask) (u64 (Z.shiftl (Z.of_nat pos) kHeaderPosNbBits))) m.
Definition setBodyStartPos (pos : nat) (m : HttpMessage) : option HttpMessage :=
  if Z.of_nat pos <=? kBodyStartMask then Some (setBodyStartPosNoCheck pos m) else None.
Definition adjustBodyStartNoCheck (diff : Z) (m : HttpMessage) : HttpMessage :=
  set_bitmap (u64 (hm_posBitmap m + u64 (Z.shiftl (u64 diff) kHeaderPosNbBits))) m.
Definition adjustBodyStart (diff : Z) (m : HttpMessage) : option HttpMessage :=
  let body := Z.of_nat (bodyStartPos m) in
  if (- body <=? diff) && ((diff <? 0) || (diff <=? kBodyStartMask - body))
  then Some (adjustBodyStartNoCheck diff m) else None.
Definition adjustHeadersAndBodyStart (diff : Z) (m : HttpMessage) : HttpMessage :=
  adjustBodyStartNoCheck diff (set_bitmap (u64 (hm_posBitmap m + u64 diff)) m).

(** ** Queries *)

Definition msize (m : HttpMessage) : nat := rc_size (hm_data m).
Definition trailersSize (m : HttpMessage) : nat := op_trailerLen (hm_opts m).
Definition isHead (m : HttpMessage) : bool := op_headMethod (hm_opts m).
Definition hasContentEncoding (m : HttpMessage) : bool := op_hasContentEncoding (hm_opts m).
Definition hasBodyInlined (m : HttpMessage) : bool := (bodyStartPos m <? msize m)%nat.
Definition hasBodyCaptured (m : HttpMessage) : bool := hasCapturedBody (hm_payload m).
Definition hasBodyFile (m : HttpMessage) : bool := isFilePayload (hm_payload m).
Definition hasBody (m : HttpMessage) : bool := negb (payload_empty (hm_payload m)) || hasBodyInlined m.
Definition hasBodyInMemory (m : HttpMessage) : bool := hasBodyCaptured m || hasBodyInlined m.
(** The lengths do not underflow in a well-formed message. *)
Definition bodyInlinedLength (m : HttpMessage) : nat := (msize m - bodyStartPos m - trailersSize m)%nat.
Definition bodyInMemoryLength (m : HttpMessage) : nat :=
  if hasBodyCaptured m then (payload_size (hm_payload m) - trailersSize m)%nat else bodyInlinedLength m.
Definition bodyLength (m : HttpMessage) : nat :=
  match hm_payload m with PFile n => n | _ => bodyInMemoryLength m end.
Definition internalBodyAndTrailersLen (m : HttpMessage) : nat := (msize m - bodyStartPos m)%nat.

(** [for (; *ptr != c; --ptr) {}] *)
Fixpoint scan_back (c : Z) (p : nat) (buf : bytes) : option nat :=
  b ← buf !! p;
  if b =? c then Some p else match p with O => None | S p => scan_back c p buf end.
Definition back (p n : nat) : option nat := if (n <=? p)%nat then Some (p - n)%nat else None.

Definition mem (m : HttpMessage) : bytes := rc_buf (hm_data m).

Definition getContentLengthValueEndPtr (m : HttpMessage) : option nat := back (bodyStartPos m) 4.
Definition getContentLengthValuePtr (m : HttpMessage) : option nat :=
  e ← getContentLengthValueEndPtr m; p ← back e 3; p ← scan_back 58 p (mem m); Some (p + 2)%nat.
Definition getContentLengthHeaderLinePtr (m : HttpMessage) : option nat :=
  e ← getContentLengthValueEndPtr m; p ← back e (2 + length n_content_length + 2 + 1); scan_back 13 p (mem m).
Definition getContentTypeHeaderLinePtr (m : HttpMessage) : option nat :=
  l ← getContentLengthHeaderLinePtr m;
  p ← back l (HeaderSize (length n_content_type) ContentTypeMinLen); scan_back 13 p (mem m).
Definition getContentTypeValuePtr (m : HttpMessage) : option nat :=
  l ← getContentLengthHeaderLinePtr m; p ← back l (2 + ContentTypeMinLen); p ← scan_back 58 p (mem m); Some (p + 2)%nat.

(** ** Searching header lines *)

(** The bytes of [cur] that match the key, and the rest of the key. *)
Fixpoint name_match (cur key : bytes) : nat * bytes :=
  match cur, key with
  | c :: cur, k :: key' =>
      if negb (c =? 58) && (tolower c =? tolower k)
      then let '(n, unmatched) := name_match cur key' in (S n, unmatched) else (0%nat, key)
  | _, _ => (0%nat, key)
  end.

(** [SearchCRLF(begin, end)] in the buffer. *)
Definition search_crlf_in (buf : bytes) (beg last : nat) : nat :=
  (beg + SearchCRLF (take (last - beg) (drop beg buf)))%nat.

Fixpoint HeadersLinearSearch (fuel : nat) (buf : bytes) (headersBeg headersEnd : nat) (key : bytes)
  : option (option (nat * nat)) :=
  if (headersBeg <? headersEnd)%nat then
    match fuel with
    | O => None
    | S fuel =>
        let '(n, unmatched) := name_match (drop headersBeg buf) key in
        let headersBeg := (headersBeg + n)%nat in
        c ← buf !! headersBeg;
        let nextCRLF := search_crlf_in buf (headersBeg + 2) headersEnd in
        if (c =? 58) && bool_decide (unmatched = []) then Some (Some ((headersBeg + 2)%nat, nextCRLF))
        else HeadersLinearSearch fuel buf (nextCRLF + 2) headersEnd key
    end
  else Some None.

Fixpoint reverse_search (fuel : nat) (buf : bytes) (first last : nat) (key : bytes)
  : option (option (nat * nat)) :=
  if (first <? last)%nat then
    match fuel with
    | O => None
    | S fuel =>
        endValue ← back last 2;
        lf ← scan_back 10 endValue buf;
        let currentBegKey := S lf in
        colon ← memchr_pos 58 (substr buf currentBegKey (endValue - currentBegKey));
        if CaseInsensitiveEqual (substr buf currentBegKey colon) key
        then Some (Some ((currentBegKey + colon + 2)%nat, endValue))
        else reverse_search fuel buf first currentBegKey key
    end
  else Some None.
Definition HeadersReverseLinearSearch (buf : bytes) (first last : nat) (key : bytes) : option (option (nat * nat)) :=
  if bool_decide (key = []) then Some None else reverse_search (S (length buf)) buf first last key.

(** The bounds of [headersFlatView] and of [headersFlatViewWithoutCTCL]. *)
Definition headersFlatView (m : HttpMessage) : nat * nat := ((headersStartPos m + 2)%nat, (bodyStartPos m - 2)%nat).
Definition headersFlatViewWithoutCTCL (m : HttpMessage) : option (nat * nat) :=
  p ← getContentTypeHeaderLinePtr m; Some ((headersStartPos m + 2)%nat, (p + 2)%nat).

Definition find_header (key : bytes) (m : HttpMessage) : option (option (nat * nat)) :=
  let '(first, last) := headersFlatView m in HeadersLinearSearch (S (length (mem m))) (mem m) first last key.

Definition headerValue (key : bytes) (m : HttpMessage) : option (option bytes) :=
  found ← find_header key m;
  Some (option_map (fun '(first, last) => substr (mem m) first (last - first)) found).
Definition hasHeader (key : bytes) (m : HttpMessage) : option bool :=
  found ← find_header key m; Some (bool_decide (found <> None)).

(** [internalTrailers] and [externalTrailers]. *)
Definition trailersFlatView (m : HttpMessage) : bytes :=
  if hasBodyCaptured m
  then drop (length (payload_view (hm_payload m)) - trailersSize m) (payload_view (hm_payload m))
  else drop (length (content (hm_data m)) - trailersSize m) (content (hm_data m)).
Definition trailerValue (key : bytes) (m : HttpMessage) : option (option bytes) :=
  let flat := trailersFlatView m in
  found ← HeadersLinearSearch (S (length flat)) flat 0 (length flat) key;
  Some (option_map (fun '(first, last) => substr flat first (last - first)) found).
Definition bodyInMemory (m : HttpMessage) : bytes :=
  let ret := if hasBodyCaptured m then payload_view (hm_payload m) else drop (bodyStartPos m) (content (hm_data m)) in
  take (length ret - trailersSize m) ret.

(** ** Results *)

Inductive Effect := Returns (m : HttpMessage) | Throws (what : string) (m : HttpMessage).
Definition and_then (e : option Effect) (f : HttpMessage -> option Effect) : option Effect :=
  r ← e; match r with Returns m => f m | Throws what m => Some (Throws what m) end.
Definition returns (m : option HttpMessage) : option Effect := option_map Returns m.

(** Accesses to the buffer of a message. *)
Definition on_data (f : RawChars -> option RawChars) (m : HttpMessage) : option HttpMessage :=
  d ← f (hm_data m); Some (set_data d m).
Definition mpoke (pos : nat) (data : bytes) : HttpMessage -> option HttpMessage := on_data (poke pos data).
Definition mmove (dst src n : nat) : HttpMessage -> option HttpMessage := on_data (memmove dst src n).
Definition msetSize (n : nat) : HttpMessage -> option HttpMessage := on_data (setSize n).
Definition maddSize (n : nat) : HttpMessage -> option HttpMessage := on_data (addSize n).
Definition madjustSize (diff : Z) : HttpMessage -> option HttpMessage := on_data (adjustSize diff).

(** [WriteHeader] and its variants. *)
Definition WriteHeader (key value : bytes) : bytes := key ++ HeaderSep ++ value.
Definition WriteCRLFHeader (key value : bytes) : bytes := CRLF ++ WriteHeader key value.
Definition WriteHeaderCRLF (key value : bytes) : bytes := WriteHeader key value ++ CRLF.

Section Message.
Context (garbage : Z).

Definition mensure (n : nat) (m : HttpMessage) : HttpMessage :=
  set_data (ensureAvailableCapacity garbage n (hm_data m)) m.
Definition mensure_exp (n : nat) (m : HttpMessage) : HttpMessage :=
  set_data (ensureAvailableCapacityExponential garbage n (hm_data m)) m.
Definition mensure_exp_signed (n : Z) (m : HttpMessage) : HttpMessage :=
  set_data (ensureAvailableCapacityExponential_signed garbage n (hm_data m)) m.

(** ** Header lines *)

Definition headerAddLineUnchecked (key value : bytes) (m : HttpMessage) : option HttpMessage :=
  let headerLineSize := HeaderSize (length key) (length value) in
  let m := mensure_exp headerLineSize m in
  insertPtr ← back (bodyStartPos m) 4;
  '(insertPtr, m) ←
    (if Nat.eqb (bodyLength m) 0 then
       m ← mpoke (insertPtr + headerLineSize) DoubleCRLF m; Some (insertPtr, m)
     else
       insertPtr ← getContentTypeHeaderLinePtr m;
       m ← mmove (insertPtr + headerLineSize) insertPtr (msize m - insertPtr) m; Some (insertPtr, m));
  m ← mpoke insertPtr (WriteCRLFHeader key value) m;
  m ← maddSize headerLineSize m;
  adjustBodyStart (Z.of_nat headerLineSize) m.

Definition headerAddLine (key value : bytes) (m : HttpMessage) : option Effect :=
  if negb (op_httpRequest (hm_opts m)) && CaseInsensitiveEqual key (str "date") then None
  else if op_httpRequest (hm_opts m) && CaseInsensitiveEqual key (str "server") then None
  else if negb (IsValidHeaderName key) then Some (Throws "HTTP header name is invalid" m)
  else if op_httpRequest (hm_opts m) && IsReservedOrForbiddenRequestHeader key
  then Some (Throws "Cannot add reserved or forbidden header to HTTP request" m)
  else
    let value := TrimOws value in
    if negb (IsValidHeaderValue value) then Some (Throws "HTTP header value is invalid" m)
    else
      match CheckContentTypeLengthEncoding key (hasBody m) with
      | Some what => Some (Throws what m)
      | None =>
          m ← headerAddLineUnchecked key value m;
          Some (Returns (if CaseInsensitiveEqual key n_content_encoding then set_hasContentEncoding true m else m))
      end.

Definition overrideHeaderUnchecked (first last : nat) (newValue : bytes) (m : HttpMessage) : option HttpMessage :=
  let newValue := TrimOws newValue in
  let oldHeaderValueSz := (last - first)%nat in
  let diff := Z.of_nat (length newValue) - Z.of_nat oldHeaderValueSz in
  if diff =? 0 then mpoke first newValue m
  else
    let m := if 0 <? diff then mensure_exp (Z.to_nat diff) m else m in
    m ← mmove (first + length newValue) (first + oldHeaderValueSz) (msize m - first - oldHeaderValueSz) m;
    m ← mpoke first newValue m;
    m ← madjustSize diff m;
    adjustBodyStart diff m.

Definition header (key value : bytes) (m : HttpMessage) : option Effect :=
  found ← find_header key m;
  match found with
  | None => headerAddLine key value m
  | Some (first, last) =>
      match CheckContentTypeLengthEncoding key (hasBody m) with
      | Some what => Some (Throws what m)
      | None => returns (overrideHeaderUnchecked first last value m)
      end
  end.

Definition headerAppendValue (key value sep : bytes) (m : HttpMessage) : option Effect :=
  found ← find_header key m;
  match found with
  | None => headerAddLine key value m
  | Some (_, last) =>
      let value := TrimOws value in
      let extraLen := (length sep + length value)%nat in
      if Nat.eqb extraLen 0 then Some (Returns m)
      else
        let tailLen := (msize m - last)%nat in
        let m := mensure_exp extraLen m in
        returns (m ← mmove (last + extraLen) last tailLen m;
                 m ← mpoke last (sep ++ value) m;
                 m ← maddSize extraLen m;
                 adjustBodyStart (Z.of_nat extraLen) m)
  end.

(** Bytes are taken out of the header section. *)
Definition erase_range (first last : nat) (m : HttpMessage) : option HttpMessage :=
  m ← mmove first last (msize m - last) m;
  m ← msetSize (msize m - (last - first)) m;
  Some (adjustBodyStartNoCheck (- Z.of_nat (last - first)) m).

Definition headerRemoveLine (key : bytes) (m : HttpMessage) : option Effect :=
  '(beg, fin) ← (if hasBody m then headersFlatViewWithoutCTCL m else Some (headersFlatView m));
  found ← HeadersReverseLinearSearch (mem m) beg fin key;
  match found with
  | None => Some (Returns m)
  | Some (first, last) =>
      let encoding := CaseInsensitiveEqual key n_content_encoding in
      if encoding && hasBody m then Some (Throws "Cannot remove Content-Encoding header when response has body" m)
      else
        let m := if encoding then set_hasContentEncoding false m else m in
        if op_httpRequest (hm_opts m) && CaseInsensitiveEqual key (str "host")
        then Some (Throws "Cannot remove Host header from HTTP request" m)
        else dest ← back first (length key + 2); returns (erase_range dest (last + 2) m)
  end.

(** [std::search] in [first, last): the place of [occ], or [last]. *)
Fixpoint search_occ (fuel : nat) (buf : bytes) (first last : nat) (occ : bytes) : nat :=
  match fuel with
  | O => last
  | S fuel =>
      if (first + length occ <=? last)%nat then
        if bool_decide (substr buf first (length occ) = occ) then first else search_occ fuel buf (S first) last occ
      else last
  end.

(** The loop of [headerRemoveValue] over the occurrences: the bytes to take out. *)
Fixpoint remove_value_loop (fuel : nat) (buf : bytes) (first last valueIt : nat) (value sep : bytes)
  : option (option (nat * nat)) :=
  match fuel with
  | O => None
  | S fuel =>
      let occ := if bool_decide (value = []) then sep else value in
      let hasValue := negb (bool_decide (value = [])) in
      let valueIt := search_occ (S (last - valueIt)) buf valueIt last occ in
      let after := (valueIt + length occ)%nat in
      if Nat.eqb valueIt last then Some None
      else if negb (Nat.eqb valueIt first) && hasValue
              && ((valueIt <? first + length sep)%nat
                  || negb (bool_decide (substr buf (valueIt - length sep) (length sep) = sep)))
      then remove_value_loop fuel buf first last after value sep
      else if negb (Nat.eqb after last) && hasValue
              && ((last <? after + length sep)%nat || negb (bool_decide (substr buf after (length sep) = sep)))
      then remove_value_loop fuel buf first last after value sep
      else if negb hasValue then Some (Some (valueIt, after))
      else if negb (Nat.eqb valueIt first) then Some (Some ((valueIt - length sep)%nat, after))
      else if Nat.eqb after last then None
      else Some (Some (valueIt, (after + length sep)%nat))
  end.

Definition headerRemoveValue (key value sep : bytes) (m : HttpMessage) : option Effect :=
  if bool_decide (sep = []) then Some (Throws "Separator cannot be empty when removing a header value" m)
  else
    let '(beg, fin) := headersFlatView m in
    found ← HeadersReverseLinearSearch (mem m) beg fin key;
    match found with
    | None => Some (Returns m)
    | Some (first, last) =>
        if op_httpRequest (hm_opts m) && CaseInsensitiveEqual key (str "host")
        then Some (Throws "Cannot remove Host header value from HTTP request" m)
        else if bool_decide (value = substr (mem m) first (last - first))
        then dest ← back first (length key + 2); returns (erase_range dest (last + 2) m)
        else
          range ← remove_value_loop (S (last - first)) (mem m) first last first value sep;
          match range with
          | None => Some (Returns m)
          | Some (toRemoveFirst, toRemoveLast) => returns (erase_range toRemoveFirst toRemoveLast m)
          end
    end.

(** ** Bodies *)

Inductive BodySetContext := Inline | Captured.

Definition setHeadSize (size : nat) (m : HttpMessage) : HttpMessage := set_payload (PSizeOnly size) m.

Definition removeBodyAndItsHeaders (m : HttpMessage) : option Effect :=
  p ← getContentTypeHeaderLinePtr m;
  if negb (bool_decide (substr (mem m) (p + 2) (length n_content_type) = n_content_type)) then None
  else
    m ← msetSize (p + 4) m;
    m ← mpoke (msize m - 2) CRLF m;
    let m := setBodyStartPosNoCheck (msize m) m in
    if hasContentEncoding m then
      and_then (headerRemoveLine n_content_encoding m)
        (fun m => if hasContentEncoding m then None else Some (Returns m))
    else Some (Returns m).

Definition setBodyHeaders (contentTypeValue : bytes) (newBodySize : nat) (context : BodySetContext) (m : HttpMessage)
  : option Effect :=
  if negb (Nat.eqb (trailersSize m) 0) then Some (Throws "Cannot set body after the first trailer" m)
  else
    match CheckContentType (Nat.eqb newBodySize 0) contentTypeValue with
    | Throw what => Some (Throws what m)
    | Ret contentTypeValue =>
        let hadBody := negb (Nat.eqb (bodyLength m) 0) in
        if Nat.eqb newBodySize 0 then
          if hadBody then removeBodyAndItsHeaders m else Some (Returns m)
        else
          let newContentTypeHeaderSize := HeaderSize (length n_content_type) (length contentTypeValue) in
          let newContentLengthHeaderSize := HeaderSize (length n_content_length) (nchars newBodySize) in
          let setInlineBody := match context with Inline => negb (isHead m) | Captured => false end in
          let neededNewSize := (newContentTypeHeaderSize + newContentLengthHeaderSize
                                + if setInlineBody then newBodySize else 0)%nat in
          returns (
            '(insertPtr, m) ←
              (if negb hadBody then
                 let m := mensure_exp neededNewSize m in
                 p ← back (bodyStartPos m) 2;
                 m ← mpoke p (WriteHeader n_content_type contentTypeValue) m;
                 Some ((p + length (WriteHeader n_content_type contentTypeValue))%nat, m)
               else
                 line ← getContentTypeHeaderLinePtr m;
                 old ← back (bodyStartPos m) (line + 4);
                 let old := (old + internalBodyAndTrailersLen m)%nat in
                 let m := if (old <? neededNewSize)%nat then mensure_exp (neededNewSize - old) m else m in
                 p ← getContentTypeValuePtr m;
                 m ← mpoke p contentTypeValue m;
                 Some ((p + length contentTypeValue)%nat, m));
            let text := WriteCRLFHeader n_content_length (decimal (Z.of_nat newBodySize)) ++ DoubleCRLF in
            m ← mpoke insertPtr text m;
            let newBodyStartPos := (insertPtr + length text)%nat in
            m ← setBodyStartPos newBodyStartPos m;
            msetSize newBodyStartPos m)
    end.

Definition setBodyInternal (newBody : bytes) (m : HttpMessage) : option HttpMessage :=
  if isHead m then Some m
  else
    let diff := Z.of_nat (length newBody) - Z.of_nat (internalBodyAndTrailersLen m) in
    let newSize := Z.of_nat (msize m) + diff in
    if (newSize <? 0) || (Z.of_nat (capacity (hm_data m)) <? newSize) then None
    else m ← madjustSize diff m; mpoke (bodyStartPos m) newBody m.

Definition body (newBody contentType : bytes) (m : HttpMessage) : option Effect :=
  and_then (setBodyHeaders contentType (length newBody) Inline m) (fun m =>
    m ← setBodyInternal newBody m;
    Some (Returns (if isHead m then setHeadSize (length newBody) m else set_payload PNone m))).

(** [setCapturedPayload], and the overloads of [body] that take the bytes over, [bodyStatic]
    included. *)
Definition setCapturedPayload (payload : bytes) (m : HttpMessage) : HttpMessage :=
  if bool_decide (payload = []) then set_payload PNone m
  else if isHead m then setHeadSize (length payload) m
  else set_payload (PCaptured payload) m.
Definition body_captured (newBody contentType : bytes) (m : HttpMessage) : option Effect :=
  and_then (setBodyHeaders contentType (length newBody) Captured m) (fun m =>
    m ← setBodyInternal [] m; Some (Returns (setCapturedPayload newBody m))).

(** [file] on an opened file of that size. *)
Definition file (fileSize offset len : nat) (detectedContentType contentType : bytes) (m : HttpMessage) : option Effect :=
  if (fileSize <? offset)%nat then Some (Throws "file offset exceeds file size" m)
  else
    let resolvedLength := if Nat.eqb len 0 then (fileSize - offset)%nat else len in
    if (fileSize <? offset + resolvedLength)%nat then Some (Throws "file length exceeds file size" m)
    else
      let contentType := if bool_decide (contentType = []) then detectedContentType else contentType in
      and_then (setBodyHeaders contentType (Nat.max 1 resolvedLength) Captured m) (fun m =>
        m ← (if Nat.eqb resolvedLength 0 then p ← getContentLengthValuePtr m; mpoke p [48] m else Some m);
        m ← setBodyInternal [] m;
        Some (Returns (set_payload (PFile resolvedLength) m))).

(** [resizeHeaderValue], then the new value. *)
Definition replaceHeaderValueNoRealloc (first : nat) (newValue : bytes) (m : HttpMessage) : option HttpMessage :=
  oldValueLen ← memchr_pos 13 (drop first (mem m));
  let last := (first + oldValueLen)%nat in
  m ← (if Nat.eqb (length newValue) oldValueLen then Some m
       else
         let diff := Z.of_nat (length newValue) - Z.of_nat oldValueLen in
         m ← mmove (first + length newValue) last (msize m - last) m;
         m ← madjustSize diff m;
         adjustBodyStart diff m);
  mpoke first newValue m.

Definition bodyPrecheckContentType (contentType : bytes) (m : HttpMessage) : Outcome bytes :=
  if negb (Nat.eqb (trailersSize m) 0) then Throw "Cannot set body after trailers have been added"
  else
    let contentType := TrimOws contentType in
    if negb (bool_decide (contentType = [])) && negb (IsValidHeaderValue contentType)
    then Throw "Invalid Content-Type header value" else Ret contentType.

Definition bodyAppend (data contentType : bytes) (m : HttpMessage) : option Effect :=
  if bool_decide (data = []) then Some (Returns m)
  else if hasBodyFile m then Some (Throws "Cannot append to a captured file body" m)
  else
    let oldBodyLen := bodyLength m in
    if Nat.eqb oldBodyLen 0 then
      body data (if bool_decide (contentType = []) then ContentTypeTextPlain else contentType) m
    else
      match bodyPrecheckContentType contentType m with
      | Throw what => Some (Throws what m)
      | Ret contentType =>
          let newBodyLen := (oldBodyLen + length data)%nat in
          let capturedBody := hasBodyCaptured m in
          let neededCapacity := Z.of_nat (nchars newBodyLen) - Z.of_nat (nchars oldBodyLen)
                                + (if capturedBody then 0 else zlen data) in
          returns (
            neededCapacity ←
              (if bool_decide (contentType = []) then Some neededCapacity
               else
                 p ← getContentTypeValuePtr m;
                 let it := search_crlf_in (mem m) p (msize m) in
                 if Nat.eqb it (msize m) then None
                 else Some (neededCapacity + zlen contentType - (Z.of_nat it - Z.of_nat p)));
            let m := mensure_exp_signed neededCapacity m in
            m ← (if bool_decide (contentType = []) then Some m
                 else p ← getContentTypeValuePtr m; replaceHeaderValueNoRealloc p contentType m);
            p ← getContentLengthValuePtr m;
            m ← replaceHeaderValueNoRealloc p (decimal (Z.of_nat newBodyLen)) m;
            if isHead m then
              if capturedBody && negb (isSizeOnly (hm_payload m)) then None else Some (setHeadSize newBodyLen m)
            else if capturedBody then p ← payload_append data (hm_payload m); Some (set_payload p m)
            else m ← mpoke (msize m) data m; maddSize (length data) m)
      end.

(** ** Bodies written in place *)

(** What a writer puts at its pointer and the number of bytes it returns; a writer of [std::byte]
    or of [char]. *)
Record Writer := MkWriter { wr_bytes : bool; wr_text : bytes; wr_written : nat }.
Definition defaultContentType (w : Writer) : bytes :=
  if wr_bytes w then ContentTypeApplicationOctetStream else ContentTypeTextPlain.

Definition mreserve (n : nat) (m : HttpMessage) : HttpMessage := set_data (reserve garbage n (hm_data m)) m.

(** The lines of a body and the blank line. *)
Definition WriteContentTypeContentLengthDoubleCRLF (contentType : bytes) (bodySize : nat) : bytes :=
  WriteHeader n_content_type contentType ++ WriteCRLFHeader n_content_length (decimal (Z.of_nat bodySize)) ++ DoubleCRLF.

Definition addContentTypeAndContentLengthHeaders (contentType : bytes) (bodySize : nat) (m : HttpMessage)
  : option (nat * HttpMessage) :=
  p ← back (bodyStartPos m) 2;
  let text := WriteContentTypeContentLengthDoubleCRLF contentType bodySize in
  m ← mpoke p text m;
  let bodyStart := (p + length text)%nat in
  m ← setBodyStartPos bodyStart m;
  m ← msetSize bodyStart m;
  Some (bodyStart, m).

Definition bodyInlineSet (maxLen : nat) (w : Writer) (contentType : bytes) (m : HttpMessage) : option Effect :=
  match bodyPrecheckContentType contentType m with
  | Throw what => Some (Throws what m)
  | Ret contentType =>
      let contentType := if bool_decide (contentType = []) then defaultContentType w else contentType in
      and_then (if negb (Nat.eqb (bodyLength m) 0)
                then and_then (removeBodyAndItsHeaders m) (fun m => Some (Returns (set_payload PNone m)))
                else Some (Returns m)) (fun m => returns (
        let contentTypeHeaderSize := HeaderSize (length n_content_type) (length contentType) in
        let contentLengthHeaderSize := HeaderSize (length n_content_length) (nchars maxLen) in
        let m := mreserve (msize m + contentTypeHeaderSize + contentLengthHeaderSize + maxLen) m in
        '(pData, m) ← addContentTypeAndContentLengthHeaders contentType maxLen m;
        m ← mpoke pData (wr_text w) m;
        if Nat.eqb (wr_written w) 0 then
          n ← back (msize m) (contentLengthHeaderSize + contentTypeHeaderSize + internalBodyAndTrailersLen m);
          m ← msetSize n m;
          p ← back (msize m) 2;
          m ← mpoke p CRLF m;
          setBodyStartPos (msize m) m
        else
          m ← (if isHead m then Some (setHeadSize (wr_written w) m) else msetSize (pData + wr_written w) m);
          p ← getContentLengthValuePtr m;
          replaceHeaderValueNoRealloc p (decimal (Z.of_nat (wr_written w))) m))
  end.

Definition bodyAppendUpdateHeaders (givenContentType defaultType : bytes) (totalBodyLen : nat) (m : HttpMessage)
  : option HttpMessage :=
  if Nat.eqb (bodyLength m) 0 then
    '(_, m) ← addContentTypeAndContentLengthHeaders
                (if bool_decide (givenContentType = []) then defaultType else givenContentType) totalBodyLen m;
    Some m
  else
    m ← (if bool_decide (givenContentType = []) then Some m
         else p ← getContentTypeValuePtr m; replaceHeaderValueNoRealloc p givenContentType m);
    p ← getContentLengthValuePtr m;
    replaceHeaderValueNoRealloc p (decimal (Z.of_nat totalBodyLen)) m.

Definition bodyInlineAppend (maxLen : nat) (w : Writer) (contentType : bytes) (m : HttpMessage) : option Effect :=
  if negb (payload_empty (hm_payload m)) && negb (isSizeOnly (hm_payload m))
  then Some (Throws "bodyInlineAppend can only be used with inline body responses" m)
  else
    match bodyPrecheckContentType contentType m with
    | Throw what => Some (Throws what m)
    | Ret contentType => returns (
        let contentTypeValueSize := length (if bool_decide (contentType = []) then defaultContentType w else contentType) in
        let contentTypeHeaderSize := HeaderSize (length n_content_type) contentTypeValueSize in
        let oldBodyLen := if isSizeOnly (hm_payload m) then payload_size (hm_payload m) else internalBodyAndTrailersLen m in
        let maxBodyLen := (oldBodyLen + maxLen)%nat in
        let contentLengthHeaderSize := HeaderSize (length n_content_length) (nchars maxBodyLen) in
        let m := mensure_exp (contentTypeHeaderSize + contentLengthHeaderSize + maxLen) m in
        m ← bodyAppendUpdateHeaders contentType (defaultContentType w) maxBodyLen m;
        m ← mpoke (msize m) (wr_text w) m;
        if Nat.eqb (wr_written w) 0 then
          if Nat.eqb oldBodyLen 0 then
            n ← back (msize m) (contentLengthHeaderSize + contentTypeHeaderSize);
            m ← msetSize n m;
            p ← back (msize m) 2;
            m ← mpoke p CRLF m;
            Some (adjustBodyStartNoCheck (- Z.of_nat contentLengthHeaderSize - Z.of_nat contentTypeHeaderSize) m)
          else
            p ← getContentLengthValuePtr m;
            replaceHeaderValueNoRealloc p (decimal (Z.of_nat (maxBodyLen - (maxLen - wr_written w)))) m
        else
          m ← (if isHead m then Some (setHeadSize (wr_written w + oldBodyLen) m) else maddSize (wr_written w) m);
          p ← getContentLengthValuePtr m;
          replaceHeaderValueNoRealloc p (decimal (Z.of_nat (maxBodyLen - (maxLen - wr_written w)))) m)
    end.

(** ** Trailers *)

Definition kTrailerValueSep : bytes := str ", ".
Definition kTransferEncodingChunkedCRLF : bytes := str "transfer-encoding" ++ HeaderSep ++ str "chunked" ++ CRLF.
Definition TransferEncodingHeaderSizeDiff (nCharsBodyLen : nat) : Z :=
  zlen kTransferEncodingChunkedCRLF - Z.of_nat (HeaderSize (length n_content_length) nCharsBodyLen).

Definition IsForbiddenTrailerHeader (name : bytes) : bool :=
  existsb (fun candidate => CaseInsensitiveEqual name candidate)
    (map str ["authorization"; "cache-control"; "content-encoding"; "content-length"; "content-range"; "content-type";
              "cookie"; "expect"; "expires"; "host"; "if-match"; "if-modified-since"; "if-none-match";
              "if-unmodified-since"; "pragma"; "range"; "set-cookie"; "te"; "trailer"; "transfer-encoding"; "vary"]%string).

Definition trailerAddLine (name value : bytes) (m : HttpMessage) : option Effect :=
  if IsForbiddenTrailerHeader name then None
  else if negb (IsValidHeaderName name) then Some (Throws "Invalid trailer header name" m)
  else if negb (IsValidHeaderValue value) then Some (Throws "HTTP header value is invalid" m)
  else if negb (hasBodyInMemory m) then Some (Throws "Trailers must be added after a non empty body is set" m)
  else
    let value := TrimOws value in
    if isHead m then
      if op_addTrailerHeader (hm_opts m) then headerAppendValue (str "trailer") name kTrailerValueSep m
      else Some (Returns m)
    else
      let lineSize := HeaderSize (length name) (length value) in
      let newTrailerLen := (lineSize + trailersSize m)%nat in
      if 2 ^ 32 <=? Z.of_nat newTrailerLen then Some (Throws "value exceeds target type maximum" m)
      else
        let addTrailerHeader := negb (op_prepared (hm_opts m)) || op_addTrailerHeader (hm_opts m) in
        let neededCapacity :=
          Z.of_nat (lineSize + 2)
          + (if Nat.eqb (trailersSize m) 0
             then (if addTrailerHeader then Z.of_nat (HeaderSize 7 (length name)) else 0)
                  + TransferEncodingHeaderSizeDiff (nchars (bodyInMemoryLength m))
             else if addTrailerHeader then zlen name + zlen kTrailerValueSep else 0) in
        let line := WriteHeaderCRLF name value in
        returns (
          m ← (if hasBodyCaptured m then p ← payload_append line (hm_payload m); Some (set_payload p m)
               else
                 let m := mensure_exp_signed neededCapacity m in
                 let insertPtr := msize m in
                 m ← maddSize lineSize m; mpoke insertPtr line m);
          Some (set_trailerLen newTrailerLen m)).

(** ** Responses *)

Definition kStatusCodeBeg : nat := 9.
Definition kReasonBeg : nat := 13.
Definition kDateHeaderLenWithCRLF : nat := HeaderSize 4 RFC7231DateStrLen.
Definition kHttpResponseInitialSize : nat := (kReasonBeg + kDateHeaderLenWithCRLF + 4)%nat.
Definition kHttpResponseMinInitialCapacity : nat := 71.

(** [InitData] of a release build. *)
Definition InitData (m : HttpMessage) : option HttpMessage :=
  m ← mpoke 8 [32] m; m ← mpoke (kReasonBeg - 1) [32] m; mpoke kReasonBeg [10] m.

Definition writeStatusCode (status : Z) : option bytes :=
  rest ← write2 (Z.rem status 100); Some (u8 (49 + Z.quot (status - 100) 100) :: rest).

Definition status (statusCode : Z) (m : HttpMessage) : option Effect :=
  if (statusCode <? 100) || (999 <? statusCode) then Some (Throws "Invalid HTTP status code, should be 3 digits" m)
  else text ← writeStatusCode statusCode; returns (mpoke kStatusCodeBeg text m).

Definition no_options : Options := MkOptions false false false false false false false 0.

(** [HttpResponse(additionalCapacity, code)]; an exception leaves no message. *)
Definition HttpResponse_new (additionalCapacity : nat) (code : Z) : option Effect :=
  let m := MkMessage (RawBytesBase_new garbage (kHttpResponseInitialSize + additionalCapacity)) 0 PNone no_options in
  m ← InitData m;
  and_then (status code m) (fun m => returns (
    m ← setHeadersStartPosNoCheck (kReasonBeg + kDateHeaderLenWithCRLF) m;
    let m := setBodyStartPosNoCheck kHttpResponseInitialSize m in
    m ← mpoke (kHttpResponseInitialSize - 4) DoubleCRLF m;
    msetSize kHttpResponseInitialSize m)).

(** The constructors with a body, and with header lines that are already joined. *)
Definition NeededBodyHeadersSize (bodySize contentTypeSize : nat) : nat :=
  if Nat.eqb bodySize 0 then 0
  else (HeaderSize (length n_content_type) contentTypeSize + HeaderSize (length n_content_length) (nchars bodySize))%nat.

Definition new_message (capa : nat) : HttpMessage := MkMessage (RawBytesBase_new garbage capa) 0 PNone no_options.

Definition HttpResponse_body (code : Z) (newBody contentType : bytes) : option Effect :=
  match CheckContentType (bool_decide (newBody = [])) contentType with
  | Throw what => Some (Throws what (new_message 0))
  | Ret contentType =>
      let m := new_message (kHttpResponseInitialSize + NeededBodyHeadersSize (length newBody) (length contentType) + length newBody) in
      m ← InitData m;
      and_then (status code m) (fun m => returns (
        m ← setHeadersStartPosNoCheck (kReasonBeg + kDateHeaderLenWithCRLF) m;
        if bool_decide (newBody = []) then
          let m := setBodyStartPosNoCheck kHttpResponseInitialSize m in
          m ← mpoke (kHttpResponseInitialSize - 4) DoubleCRLF m;
          msetSize kHttpResponseInitialSize m
        else
          let pData := (kReasonBeg + kDateHeaderLenWithCRLF)%nat in
          m ← mpoke pData CRLF m;
          let pData := (pData + 2)%nat in
          let text := WriteContentTypeContentLengthDoubleCRLF contentType (length newBody) in
          m ← mpoke pData text m;
          let bodyStart := (pData + length text)%nat in
          m ← setBodyStartPos bodyStart m;
          m ← mpoke bodyStart newBody m;
          msetSize (bodyStart + length newBody) m))
  end.

(** [CheckConcatenatedHeaders]: the exception it throws, if any. *)
Fixpoint concatenated_loop (fuel : nat) (l : bytes) : option (option string) :=
  match fuel with
  | O => None
  | S fuel =>
      if bool_decide (l = []) then Some None
      else
        match find_sub HeaderSep l with
        | None => Some (Some "header missing http::HeaderSep separator in concatenated headers")
        | Some n =>
            if negb (IsValidHeaderName (take n l)) then Some (Some "Invalid header name in concatenated headers")
            else
              let rest := drop (n + 2) l in
              let endLine := search_crlf_in rest 0 (length rest) in
              if Nat.eqb endLine (length rest) then Some (Some "header missing CRLF terminator in concatenated headers")
              else if negb (IsValidHeaderValue (take endLine rest)) then Some (Some "Invalid header value in concatenated headers")
              else concatenated_loop fuel (drop (endLine + 2) rest)
        end
  end.
Definition CheckConcatenatedHeaders (concatenatedHeaders : bytes) : option (option string) :=
  concatenated_loop (S (length concatenatedHeaders)) concatenatedHeaders.

Definition HttpResponse_full
    (additionalCapacity : nat) (code : Z) (concatenatedHeaders newBody contentType : bytes) (check : bool) : option Effect :=
  match CheckContentType (bool_decide (newBody = [])) contentType with
  | Throw what => Some (Throws what (new_message 0))
  | Ret contentType =>
      let m := new_message (kHttpResponseInitialSize + length concatenatedHeaders
                            + NeededBodyHeadersSize (length newBody) (length contentType) + length newBody + additionalCapacity) in
      thrown ← (if check then CheckConcatenatedHeaders concatenatedHeaders else Some None);
      match thrown with
      | Some what => Some (Throws what m)
      | None =>
          m ← InitData m;
          and_then (status code m) (fun m => returns (
            m ← setHeadersStartPosNoCheck (kReasonBeg + kDateHeaderLenWithCRLF) m;
            let start := (kHttpResponseInitialSize - 2)%nat in
            '(start, m) ←
              (if bool_decide (concatenatedHeaders = []) then Some (start, m)
               else
                 m ← mpoke (kHttpResponseInitialSize - 4) CRLF m;
                 m ← mpoke (kHttpResponseInitialSize - 4 + 2) concatenatedHeaders m;
                 Some ((start + length concatenatedHeaders)%nat, m));
            '(start, m) ←
              (if bool_decide (newBody = []) then
                 m ← mpoke (start + 2 - 4) DoubleCRLF m; Some ((start + 2)%nat, m)
               else
                 m ← mpoke (start - 2) CRLF m;
                 let text := WriteContentTypeContentLengthDoubleCRLF contentType (length newBody) in
                 m ← mpoke start text m;
                 m ← mpoke (start + length text) newBody m;
                 Some ((start + length text)%nat, m));
            m ← setBodyStartPos start m;
            msetSize (start + length newBody) m))
      end
  end.

Definition dateHeaderStartPos (m : HttpMessage) : option nat := back (headersStartPos m) kDateHeaderLenWithCRLF.
Definition hasReason (m : HttpMessage) : option bool := b ← peek kReasonBeg (hm_data m); Some (negb (b =? 10)).
Definition reasonLength (m : HttpMessage) : option nat :=
  d ← dateHeaderStartPos m; n ← back d kReasonBeg; h ← hasReason m; Some (if h : bool then n else 0%nat).

(** The getters of the status and of the reason. *)
Definition get_status (m : HttpMessage) : Z := read3 (mem m) kStatusCodeBeg.
Definition get_reason (m : HttpMessage) : option bytes := n ← reasonLength m; Some (substr (mem m) kReasonBeg n).

Definition reason (newReason : bytes) (m : HttpMessage) : option HttpMessage :=
  let newReason := take kMaxReasonLength newReason in
  oldReasonSz ← reasonLength m;
  if Nat.eqb (length newReason) oldReasonSz then mpoke kReasonBeg newReason m
  else
    let diff := zlen newReason - Z.of_nat oldReasonSz in
    let m := mensure_exp_signed diff m in
    let reasonEnd := (kReasonBeg + oldReasonSz)%nat in
    m ← mmove (kReasonBeg + length newReason) reasonEnd (msize m - reasonEnd) m;
    let m := adjustHeadersAndBodyStart diff m in
    m ← (if bool_decide (newReason = []) then mpoke kReasonBeg [10] m else mpoke kReasonBeg newReason m);
    madjustSize diff m.
End Message.
