(* ===== verification/HttpMessageSpec.v ===== *)
(** The abstract responses, and the readings of the buffer they rest on: the two searches of
    header lines find the first and the last line of that name, in any case, and the numbers
    of digits are those of the digits written. *)

From S2P Require Import Prelude.
From S2P Require Import AsciiCase.
From S2P Require Import HeadersView.
From S2P Require Import UrlCodec.
From S2P Require Import Cors.
From S2P Require Import RoutePattern.
From S2P Require Import RoutePatternProofs.
From S2P Require Import ResponseParser.
From S2P Require Import TimeString.
From S2P Require Import RawChars.
From S2P Require Import HttpMessage.
Local Open Scope Z_scope.

(** ** Digits *)

(** The digits that [decimal] writes. *)
Lemma decimal_loop_length fuel v acc : (length (decimal_loop fuel v acc) <= fuel + length acc)%nat.
Proof.
  revert v acc. induction fuel as [|fuel IH]; intros v acc; [done|]. cbn [decimal_loop]. destruct (v <? 10); [cbn; lia|].
  specialize (IH (v / 10) (48 + v mod 10 :: acc)). cbn [length] in IH. lia.
Qed.

Lemma length_decimal_loop fuel n acc :
  fuel <> 0%nat -> 0 <= n < 10 ^ Z.of_nat fuel ->
  forall k, 0 < k -> 10 ^ (k - 1) <= n < 10 ^ k \/ (k = 1 /\ n < 10) ->
  zlen (decimal_loop fuel n acc) = k + zlen acc.
Proof.
  revert n acc. induction fuel as [|fuel IH]; intros n acc Hfuel Hn k Hk0 Hk; [done|].
  - cbn [decimal_loop]. rewrite Nat2Z.inj_succ, Z.pow_succ_r in Hn by lia. destruct (Z.ltb_spec n 10) as [Hlt|Hge].
    + assert (k = 1) as ->; [|by rewrite zlen_cons].
      destruct Hk as [[Hk Hk']|[? _]]; [|done]. destruct (Z.le_gt_cases k 1); [lia|exfalso].
      assert (10 ^ 1 <= 10 ^ (k - 1)) by (apply Z.pow_le_mono_r; lia). lia.
    + destruct Hk as [[Hk Hk']|[_ ?]]; [|lia].
      assert (Hk1 : 1 < k). { destruct (Z.le_gt_cases k 1); [exfalso|lia]. assert (10 ^ k <= 10 ^ 1) by (apply Z.pow_le_mono_r; lia). lia. }
      rewrite (IH (n / 10) (48 + n mod 10 :: acc)) with (k := k - 1); [rewrite zlen_cons; lia|intros ->; cbn in Hn; lia| |lia|].
      * split; [zlia|]. apply Z.div_lt_upper_bound; lia.
      * destruct (Z.eq_dec k 2) as [->|Hk2]; [right; split; [lia|zlia]|left].
        replace k with (1 + (k - 1)) in Hk' by lia. rewrite Z.pow_add_r in Hk' by lia.
        replace (k - 1) with (1 + (k - 1 - 1)) in Hk by lia. rewrite Z.pow_add_r in Hk by lia. zlia.
Qed.

Definition estimate (n : Z) : Z := Z.shiftr (u32 (Z.log2 n * 1233)) 12.

(** The estimate is right for all numbers with that many bits, or one short. *)
Definition estimate_ok (k : Z) : bool :=
  let e := Z.shiftr (u32 (k * 1233)) 12 in
  (0 <=? e) && (e <=? 19) && ((10 ^ e <=? 2 ^ k) || (e =? 0)) && (2 ^ (k + 1) <=? 10 ^ (e + 2))
  && (if e <? 19 then nth (Z.to_nat e) pow10 0 =? 10 ^ (e + 1) - 1 else nth (Z.to_nat e) pow10 0 =? 2 ^ 64 - 1).

Lemma estimates_ok : forallb estimate_ok (seqZ 0 64) = true.
Proof. vm_compute. reflexivity. Qed.

Lemma nchars_decimal n : Z.of_nat n < 2 ^ 64 -> nchars n = length (decimal (Z.of_nat n)).
Proof.
  set (z := Z.of_nat n). intros Hz. assert (H0 : 0 <= z) by lia.
  assert (E : zlen (decimal z) = ndigits z); [|unfold nchars; fold z; rewrite <- E; unfold zlen; lia].
  unfold decimal. assert (Hf : 0 <= z < 10 ^ Z.of_nat 20) by (change (10 ^ Z.of_nat 20) with 100000000000000000000; lia).
  unfold ndigits. destruct (Z.ltb_spec z 10) as [Hlt|Hge].
  - rewrite (length_decimal_loop 20 z [] ltac:(done) Hf 1); [done|lia|by right].
  - fold (estimate z). pose proof (Z.log2_spec z ltac:(lia)) as [Hl Hl']. set (k := Z.log2 z) in *.
    assert (Hk : 0 <= k < 64).
    { split; [apply Z.log2_nonneg|]. apply Z.log2_lt_pow2; lia. }
    assert (Hok : estimate_ok k = true).
    { pose proof estimates_ok as H. rewrite forallb_forall in H. apply H, list_elem_of_In, elem_of_seqZ. lia. }
    unfold estimate_ok in Hok. change (Z.shiftr (u32 (k * 1233)) 12) with (estimate z) in Hok. set (e := estimate z) in *.
    apply andb_true_iff in Hok as [Hok Hnth]. apply andb_true_iff in Hok as [Hok Hhigh]. apply andb_true_iff in Hok as [Hok Hlow0].
    apply andb_true_iff in Hok as [He0 He19]. apply Z.leb_le in Hhigh, He0, He19.
    assert (Hpow : 0 < 10 ^ (e + 1)) by (apply Z.pow_pos_nonneg; lia).
    assert (Hpe : 10 ^ (e + 2) = 10 * 10 ^ (e + 1)) by (rewrite <- Z.pow_succ_r by lia; f_equal; lia).
    assert (Hpe' : 10 ^ (e + 1) = 10 * 10 ^ e) by (rewrite <- Z.pow_succ_r by lia; f_equal; lia).
    change (Z.succ k) with (k + 1) in Hl'.
    assert (Hlow : 10 ^ e <= z) by (apply orb_true_iff in Hlow0 as [H|H];
      [apply Z.leb_le in H; lia|apply Z.eqb_eq in H; rewrite H; change (10 ^ 0) with 1; lia]).
    assert (Htest : (nth (Z.to_nat e) pow10 0 <? z) = (10 ^ (e + 1) <=? z)).
    { destruct (Z.ltb_spec e 19) as [He|He]; apply Z.eqb_eq in Hnth; rewrite Hnth.
      - destruct (Z.ltb_spec (10 ^ (e + 1) - 1) z), (Z.leb_spec (10 ^ (e + 1)) z); lia || done.
      - assert (e = 19) as -> by lia. rewrite (proj2 (Z.ltb_ge _ _)) by lia. symmetry. apply Z.leb_gt.
        change (10 ^ (19 + 1)) with 100000000000000000000. lia. }
    rewrite Htest. destruct (Z.leb_spec (10 ^ (e + 1)) z) as [Hd|Hd].
    + rewrite (length_decimal_loop 20 z [] ltac:(done) Hf (e + 1 + 1)); [change (zlen []) with 0; lia|lia|]. left.
      replace (e + 1 + 1 - 1) with (e + 1) by lia. replace (e + 1 + 1) with (e + 2) by lia. lia.
    + rewrite (length_decimal_loop 20 z [] ltac:(done) Hf (e + 1)); [change (zlen []) with 0; lia|lia|]. left.
      replace (e + 1 - 1) with e by lia. lia.
Qed.

(** ** Lines *)

Abbreviation field := (bytes * bytes)%type.

Definition field_line (f : field) : bytes := WriteHeaderCRLF (fst f) (snd f).
Definition crlf_line (f : field) : bytes := WriteCRLFHeader (fst f) (snd f).
Definition flat_lines (fs : list field) : bytes := concat (map field_line fs).
Definition crlf_lines (fs : list field) : bytes := concat (map crlf_line fs).

Lemma lines_shift fs : crlf_lines fs ++ CRLF = CRLF ++ flat_lines fs.
Proof.
  induction fs as [|f fs IH]; [done|]. unfold crlf_lines, flat_lines in *. cbn [map concat].
  rewrite <- app_assoc, IH. unfold crlf_line, field_line, WriteCRLFHeader, WriteHeaderCRLF. by rewrite <- !app_assoc.
Qed.

Lemma flat_lines_app fs gs : flat_lines (fs ++ gs) = flat_lines fs ++ flat_lines gs.
Proof. unfold flat_lines. by rewrite map_app, concat_app. Qed.
Lemma crlf_lines_app fs gs : crlf_lines (fs ++ gs) = crlf_lines fs ++ crlf_lines gs.
Proof. unfold crlf_lines. by rewrite map_app, concat_app. Qed.

(** A line that the searches can read. *)
Definition readable (f : field) : Prop :=
  fst f <> [] /\ bytes_ok (fst f) /\ Forall (fun b => b <> 58) (fst f) /\ no_crlf (fst f) /\ no_crlf (snd f).
Definition named (key : bytes) (f : field) : bool := CaseInsensitiveEqual (fst f) key.

Lemma size_of_field_line f : length (field_line f) = (length (fst f) + length (snd f) + 4)%nat.
Proof. unfold field_line, WriteHeaderCRLF, WriteHeader. rewrite !length_app. cbn. lia. Qed.

Lemma flat_lines_length (l : list field) : (length l <= length (flat_lines l))%nat.
Proof.
  induction l as [|h l IH]; [done|]. change (flat_lines (h :: l)) with (field_line h ++ flat_lines l).
  rewrite length_app, size_of_field_line. cbn. lia.
Qed.

(** ** The search from the front *)

Lemma name_match_split name key rest :
  Forall (fun b => b <> 58) name ->
  exists n unmatched, name_match (name ++ 58 :: rest) key = (n, unmatched) /\ (n <= length name)%nat
    /\ ((n = length name /\ unmatched = []) <-> lower name = lower key).
Proof.
  intros Hn. revert key. induction Hn as [|c name Hc Hn IH]; intros key.
  - exists 0%nat, key. split; [by destruct key|]. split; [lia|]. split; [by intros [_ ->]|].
    intros E. split; [done|]. by destruct key.
  - destruct key as [|k key].
    + exists 0%nat, []. split; [done|]. split; [lia|]. split; [intros [E _]; cbn in E; lia|done].
    + cbn [app name_match]. rewrite (proj2 (Z.eqb_neq c 58) Hc). cbn [negb andb].
      destruct (Z.eqb_spec (tolower c) (tolower k)) as [E|E].
      * destruct (IH key) as (n & unmatched & -> & Hle & Hiff). exists (S n), unmatched. split; [done|]. cbn [length].
        split; [lia|]. unfold lower in *. cbn [map]. split.
        -- intros [[= H1] H2]. f_equal; [done|]. apply Hiff. by split.
        -- intros [= _ H]. apply Hiff in H as [-> ->]. by split.
      * exists 0%nat, (k :: key). split; [done|]. split; [lia|]. split; [intros [H _]; cbn in H; lia|].
        unfold lower. cbn [map]. intros [= H _]. congruence.
Qed.

Lemma no_crlf_drop n l : no_crlf l -> no_crlf (drop n l).
Proof. intros H. by apply Forall_drop. Qed.

(** One line: found, or the search goes on after it. *)
Lemma linear_search_line fuel buf pre f post last key :
  readable f -> bytes_ok key -> buf = pre ++ field_line f ++ post -> (length (pre ++ field_line f) <= last)%nat ->
  HeadersLinearSearch (S fuel) buf (length pre) last key =
    if named key f
    then Some (Some ((length pre + length (fst f) + 2)%nat, (length pre + length (fst f) + 2 + length (snd f))%nat))
    else HeadersLinearSearch fuel buf (length (pre ++ field_line f)) last key.
Proof.
  intros (Hne & Hok & H58 & Hn & Hv) Hkey Eb Hlast. cbn [HeadersLinearSearch].
  assert (Hlen : length (pre ++ field_line f) = (length pre + length (fst f) + length (snd f) + 4)%nat)
    by (rewrite length_app, size_of_field_line; lia).
  rewrite Hlen in *. rewrite (proj2 (Nat.ltb_lt _ _)) by lia.
  set (tail := 32 :: snd f ++ CRLF ++ post).
  assert (Eb1 : buf = pre ++ fst f ++ 58 :: tail).
  { rewrite Eb. unfold field_line, WriteHeaderCRLF, WriteHeader, tail. by rewrite <- !app_assoc. }
  rewrite Eb1 at 1. rewrite drop_app_length.
  destruct (name_match_split (fst f) key tail H58) as (n & unmatched & Em & Hle & Hiff). rewrite Em.
  assert (Hc : exists c, buf !! (length pre + n)%nat = Some c /\ ((c = 58) <-> n = length (fst f))).
  { rewrite Eb1, lookup_app_r by lia. replace (length pre + n - length pre)%nat with n by lia.
    destruct (decide (n = length (fst f))) as [->|Hlt].
    - exists 58. split; [|done]. by rewrite lookup_app_r, Nat.sub_diag by lia.
    - destruct (lookup_lt_is_Some_2 (fst f) n) as [c Ec]; [lia|]. exists c. rewrite lookup_app_l by lia. split; [done|].
      split; [|done]. intros ->. exfalso. eapply Forall_lookup in Ec; [|exact H58]. done. }
  destruct Hc as (c & -> & Hc). cbn [mbind option_bind].
  assert (Es : search_crlf_in buf (length pre + n + 2) last = (length pre + length (fst f) + 2 + length (snd f))%nat).
  { unfold search_crlf_in. set (line := (fst f ++ HeaderSep ++ snd f)).
    assert (Eline : length line = (length (fst f) + 2 + length (snd f))%nat) by (subst line; rewrite !length_app; cbn; lia).
    assert (Eb2 : buf = pre ++ line ++ CRLF ++ post).
    { rewrite Eb. subst line. unfold field_line, WriteHeaderCRLF, WriteHeader. by rewrite <- !app_assoc. }
    assert (Ed : drop (length pre + n + 2) buf = drop (n + 2) line ++ CRLF ++ post).
    { rewrite Eb2, drop_app_ge by lia. replace (length pre + n + 2 - length pre)%nat with (n + 2)%nat by lia.
      rewrite drop_app_le by lia. done. }
    rewrite Ed. set (u := drop (n + 2) line). assert (Hu : no_crlf u).
    { apply no_crlf_drop. subst line. repeat (apply Forall_app; split); try done. by repeat constructor. }
    assert (Lu : length u = (length line - (n + 2))%nat) by (subst u; apply length_drop).
    assert (Et : exists post', take (last - (length pre + n + 2)) (u ++ CRLF ++ post) = u ++ CRLF ++ post').
    { exists (take (last - (length pre + n + 2) - length u - 2) post).
      rewrite take_app_ge by lia. f_equal. rewrite take_app_ge by (cbn; lia). f_equal. }
    destruct Et as [post' ->]. rewrite SearchCRLF_app by done. lia. }
  rewrite Es. unfold named.
  assert (Htest : (c =? 58) && bool_decide (unmatched = []) = CaseInsensitiveEqual (fst f) key).
  { apply Bool.eq_iff_eq_true. rewrite CaseInsensitiveEqual_iff, andb_true_iff, Z.eqb_eq, bool_decide_eq_true by done.
    rewrite Hc. exact Hiff. }
  rewrite Htest. destruct (CaseInsensitiveEqual (fst f) key) eqn:Ec.
  - apply CaseInsensitiveEqual_iff in Ec; [|done..]. apply Hiff in Ec as [-> _]. done.
  - f_equal. lia.
Qed.

Lemma linear_search_skip fuel buf pre fs post last key :
  Forall readable fs -> bytes_ok key -> buf = pre ++ flat_lines fs ++ post -> (length (pre ++ flat_lines fs) <= last)%nat ->
  Forall (fun f => named key f = false) fs -> (length fs <= fuel)%nat ->
  HeadersLinearSearch fuel buf (length pre) last key
  = HeadersLinearSearch (fuel - length fs) buf (length (pre ++ flat_lines fs)) last key.
Proof.
  intros Hfs Hkey. revert fuel pre. induction Hfs as [|f fs Hf Hfs IH]; intros fuel pre Eb Hlast Hno Hfuel.
  - cbn [length flat_lines map concat]. by rewrite app_nil_r, Nat.sub_0_r.
  - apply Forall_cons in Hno as [Hf' Hno]. destruct fuel as [|fuel]; [cbn in Hfuel; lia|].
    change (flat_lines (f :: fs)) with (field_line f ++ flat_lines fs) in *. rewrite <- app_assoc in Eb.
    rewrite (linear_search_line fuel buf pre f (flat_lines fs ++ post)); [|done|done|done|].
    + rewrite Hf'. rewrite app_assoc in Hlast |- *. apply IH; [by rewrite <- app_assoc|done|done|cbn in Hfuel; lia].
    + rewrite app_assoc, length_app in Hlast. lia.
Qed.

(** The first line of that name. *)
Lemma linear_search_found fuel buf pre fs f gs post last key :
  Forall readable (fs ++ f :: gs) -> bytes_ok key -> buf = pre ++ flat_lines (fs ++ f :: gs) ++ post ->
  last = length (pre ++ flat_lines (fs ++ f :: gs)) -> Forall (fun f => named key f = false) fs -> named key f = true ->
  (length fs < fuel)%nat ->
  let p := (length pre + length (flat_lines fs) + length (fst f) + 2)%nat in
  HeadersLinearSearch fuel buf (length pre) last key = Some (Some (p, (p + length (snd f))%nat)).
Proof.
  intros Hfs Hkey Eb -> Hno Hf Hfuel p. apply Forall_app in Hfs as [Hfs Hgs]. apply Forall_cons in Hgs as [Hrf _].
  assert (Efl : flat_lines (fs ++ f :: gs) = flat_lines fs ++ field_line f ++ flat_lines gs)
    by (rewrite flat_lines_app; done).
  rewrite Efl in Eb |- *.
  rewrite (linear_search_skip fuel buf pre fs (field_line f ++ flat_lines gs ++ post));
    [|done|done|by rewrite Eb, <- !app_assoc|rewrite !length_app; lia|done|lia].
  destruct (fuel - length fs)%nat as [|fuel'] eqn:Ef; [lia|].
  rewrite (linear_search_line fuel' buf (pre ++ flat_lines fs) f (flat_lines gs ++ post));
    [|done|done|by rewrite Eb, <- !app_assoc|rewrite !length_app; lia].
  rewrite Hf. subst p. rewrite length_app. done.
Qed.

Lemma linear_search_none fuel buf pre fs post last key :
  Forall readable fs -> bytes_ok key -> buf = pre ++ flat_lines fs ++ post -> last = length (pre ++ flat_lines fs) ->
  Forall (fun f => named key f = false) fs -> (length fs <= fuel)%nat ->
  HeadersLinearSearch fuel buf (length pre) last key = Some None.
Proof.
  intros Hfs Hkey Eb -> Hno Hfuel. rewrite (linear_search_skip fuel buf pre fs post); try done.
  destruct (fuel - length fs)%nat; cbn [HeadersLinearSearch]; by rewrite Nat.ltb_irrefl.
Qed.

(** ** The search from the end *)

Lemma scan_back_found c a u rest p :
  Forall (fun b => b <> c) u -> (length a <= p <= length a + length u)%nat ->
  scan_back c p (a ++ c :: u ++ rest) = Some (length a).
Proof.
  intros Hu. induction p as [|p IH]; intros Hp.
  - destruct a; [|cbn in Hp; lia]. cbn. by rewrite Z.eqb_refl.
  - cbn [scan_back]. destruct (decide (S p = length a)) as [E|Hne].
    + rewrite E, lookup_app_r, Nat.sub_diag by lia. cbn. by rewrite Z.eqb_refl.
    + assert (Hl : exists b, (a ++ c :: u ++ rest) !! S p = Some b /\ b <> c).
      { rewrite lookup_app_r by lia. replace (S p - length a)%nat with (S (p - length a)) by lia.
        destruct (lookup_lt_is_Some_2 u (p - length a)) as [b Eb]; [lia|]. exists b. split.
        - change ((u ++ rest) !! (p - length a)%nat = Some b). by rewrite lookup_app_l by lia.
        - eapply Forall_lookup in Eb; [|exact Hu]. done. }
      destruct Hl as (b & -> & Hb). cbn [mbind option_bind]. rewrite (proj2 (Z.eqb_neq b c) Hb). apply IH. lia.
Qed.

Lemma substr_at a x rest pos n : pos = length a -> n = length x -> substr (a ++ x ++ rest) pos n = x.
Proof. intros -> ->. unfold substr. by rewrite drop_app_length, take_app_length. Qed.

(** One line, the last one. *)
Lemma reverse_search_line fuel buf first pre f post key :
  readable f -> bytes_ok key -> buf = (pre ++ [10]) ++ field_line f ++ post -> (first <= S (length pre))%nat ->
  reverse_search (S fuel) buf first (length ((pre ++ [10]) ++ field_line f)) key =
    if named key f
    then Some (Some ((S (length pre) + length (fst f) + 2)%nat, (S (length pre) + length (fst f) + 2 + length (snd f))%nat))
    else reverse_search fuel buf first (S (length pre)) key.
Proof.
  intros (Hne & Hok & H58 & Hn & Hv) Hkey Eb Hfirst. cbn [reverse_search].
  assert (Hlen : length ((pre ++ [10]) ++ field_line f) = (S (length pre) + length (fst f) + length (snd f) + 4)%nat)
    by (rewrite !length_app, size_of_field_line; cbn; lia).
  rewrite Hlen. rewrite (proj2 (Nat.ltb_lt _ _)) by lia. unfold back. rewrite (proj2 (Nat.leb_le _ _)) by lia.
  cbn [mbind option_bind]. set (line := fst f ++ HeaderSep ++ snd f).
  assert (Eline : length line = (length (fst f) + 2 + length (snd f))%nat) by (subst line; rewrite !length_app; cbn; lia).
  assert (Eb2 : buf = pre ++ 10 :: (line ++ [13]) ++ 10 :: post).
  { rewrite Eb. subst line. unfold field_line, WriteHeaderCRLF, WriteHeader. rewrite <- !app_assoc. done. }
  rewrite Eb2 at 1. rewrite scan_back_found; [|apply Forall_app; split; [|by repeat constructor];
    subst line; repeat (apply Forall_app; split); try done; by repeat constructor|rewrite length_app; cbn; lia].
  cbn [mbind option_bind]. set (e := (S (length pre) + length (fst f) + length (snd f) + 4 - 2)%nat).
  assert (Ee : (e - S (length pre))%nat = length line) by (subst e; lia).
  assert (Esub : substr buf (S (length pre)) (e - S (length pre)) = line).
  { rewrite Eb2. change (pre ++ 10 :: (line ++ [13]) ++ 10 :: post) with (pre ++ [10] ++ (line ++ [13]) ++ 10 :: post).
    rewrite app_assoc, <- (app_assoc line). apply substr_at; [rewrite length_app; cbn; lia|done]. }
  rewrite Esub. subst line. change (fst f ++ HeaderSep ++ snd f) with (fst f ++ 58 :: 32 :: snd f).
  rewrite memchr_pos_app by done. cbn [mbind option_bind].
  assert (Ename : substr buf (S (length pre)) (length (fst f)) = fst f).
  { rewrite Eb. unfold field_line, WriteHeaderCRLF, WriteHeader. rewrite <- (app_assoc (fst f ++ _)), <- (app_assoc (fst f)).
    apply substr_at; [rewrite length_app; cbn; lia|done]. }
  rewrite Ename. unfold named. destruct (CaseInsensitiveEqual (fst f) key); [|done]. subst e.
  do 3 f_equal; lia.
Qed.

Lemma flat_lines_end pre fs :
  exists pre', (pre ++ [10]) ++ flat_lines fs = pre' ++ [10].
Proof.
  destruct (list_eq_nil_dec fs) as [->|Hne]; [exists pre; by rewrite app_nil_r|].
  destruct (exists_last Hne) as (gs & f & ->). rewrite flat_lines_app. change (flat_lines [f]) with (field_line f ++ []).
  rewrite app_nil_r. unfold field_line, WriteHeaderCRLF. change CRLF with ([13] ++ [10]).
  exists ((pre ++ [10]) ++ flat_lines gs ++ WriteHeader (fst f) (snd f) ++ [13]). by rewrite <- !app_assoc.
Qed.

Lemma reverse_search_skip fuel buf pre fs gs post first last key :
  Forall readable gs -> bytes_ok key -> buf = (pre ++ [10]) ++ flat_lines (fs ++ gs) ++ post ->
  last = length ((pre ++ [10]) ++ flat_lines (fs ++ gs)) -> first = S (length pre) ->
  Forall (fun f => named key f = false) gs -> (length gs <= fuel)%nat ->
  reverse_search fuel buf first last key
  = reverse_search (fuel - length gs) buf first (length ((pre ++ [10]) ++ flat_lines fs)) key.
Proof.
  intros Hgs Hkey. revert fuel post last. induction gs as [|g gs IH] using rev_ind; intros fuel post last Eb -> -> Hno Hfuel.
  - by rewrite app_nil_r, Nat.sub_0_r.
  - apply Forall_app in Hgs as [Hgs Hg], Hno as [Hno Hgno]. rewrite length_app in Hfuel. cbn in Hfuel.
    destruct fuel as [|fuel]; [lia|]. assert (Ef : flat_lines (fs ++ gs ++ [g]) = flat_lines (fs ++ gs) ++ field_line g).
    { rewrite app_assoc, flat_lines_app. change (flat_lines [g]) with (field_line g ++ []). by rewrite app_nil_r. }
    rewrite Ef in *. destruct (flat_lines_end pre (fs ++ gs)) as [pre' Epre].
    assert (Lpre : S (length pre') = length ((pre ++ [10]) ++ flat_lines (fs ++ gs))) by (rewrite Epre, length_app; cbn; lia).
    rewrite app_assoc, Epre. rewrite (reverse_search_line fuel buf _ pre' g post);
      [|by inversion Hg|done|by rewrite Eb, <- Epre, <- !app_assoc|rewrite Lpre, !length_app; cbn; lia].
    inversion Hgno as [|? ? Hg' _]. rewrite Hg'. rewrite Lpre.
    rewrite (IH Hgs fuel (field_line g ++ post) _); [|by rewrite Eb, <- !app_assoc|done|done|done|lia].
    replace (S fuel - length (gs ++ [g]))%nat with (fuel - length gs)%nat by (rewrite length_app; cbn; lia). done.
Qed.

(** The last line of that name. *)
Lemma reverse_search_found buf pre fs f gs post first last key :
  Forall readable (f :: gs) -> bytes_ok key -> key <> [] -> buf = (pre ++ [10]) ++ flat_lines (fs ++ f :: gs) ++ post ->
  last = length ((pre ++ [10]) ++ flat_lines (fs ++ f :: gs)) -> first = S (length pre) ->
  Forall (fun f => named key f = false) gs -> named key f = true ->
  let p := (S (length pre) + length (flat_lines fs) + length (fst f) + 2)%nat in
  HeadersReverseLinearSearch buf first last key = Some (Some (p, (p + length (snd f))%nat)).
Proof.
  intros Hfs Hkey Hkne Eb -> -> Hno Hf p. apply Forall_cons in Hfs as [Hrf Hgs].
  assert (Hbuf : (length gs < length buf)%nat).
  { rewrite Eb, !length_app. pose proof (flat_lines_length (fs ++ f :: gs)) as H. rewrite length_app in H. cbn [length] in *. lia. }
  unfold HeadersReverseLinearSearch. rewrite bool_decide_false by done.
  assert (Eg : fs ++ f :: gs = (fs ++ [f]) ++ gs) by by rewrite <- app_assoc.
  rewrite Eg in *. rewrite (reverse_search_skip _ _ pre (fs ++ [f]) gs post) by (done || lia).
  destruct (S (length buf) - length gs)%nat as [|fuel] eqn:Efuel; [lia|].
  assert (Ef : flat_lines (fs ++ [f]) = flat_lines fs ++ field_line f).
  { rewrite flat_lines_app. change (flat_lines [f]) with (field_line f ++ []). by rewrite app_nil_r. }
  destruct (flat_lines_end pre fs) as [pre' Epre].
  assert (Lpre : S (length pre') = (S (length pre) + length (flat_lines fs))%nat).
  { apply (f_equal length) in Epre. rewrite !length_app in Epre. cbn in Epre. lia. }
  rewrite Ef, app_assoc, Epre. rewrite (reverse_search_line fuel buf _ pre' f (flat_lines gs ++ post)).
  - rewrite Hf, Lpre. done.
  - done.
  - done.
  - rewrite Eb, flat_lines_app, Ef, <- Epre. by rewrite <- !app_assoc.
  - rewrite Lpre. lia.
Qed.

Lemma reverse_search_none buf pre fs post first last key :
  Forall readable fs -> bytes_ok key -> buf = (pre ++ [10]) ++ flat_lines fs ++ post ->
  last = length ((pre ++ [10]) ++ flat_lines fs) -> first = S (length pre) ->
  Forall (fun f => named key f = false) fs -> HeadersReverseLinearSearch buf first last key = Some None.
Proof.
  intros Hfs Hkey Eb -> -> Hno. unfold HeadersReverseLinearSearch. case_bool_decide; [done|].
  assert (Hbuf : (length fs < length buf)%nat) by (rewrite Eb, !length_app; pose proof (flat_lines_length fs); cbn; lia).
  rewrite (reverse_search_skip _ buf pre [] fs post) by (done || lia).
  change (flat_lines []) with (@nil Z). rewrite app_nil_r, length_app. cbn [length]. rewrite Nat.add_1_r.
  destruct (S (length buf) - length fs)%nat; cbn [reverse_search]; by rewrite Nat.ltb_irrefl.
Qed.

(** The responses that HTTP messages stand for, and what each operation of a message does to
    them: a status, a reason, fields, a body with its content type, trailers. *)

(** ** Responses *)

(** The content type comes with the body. *)
Inductive Body := NoBody | InlineBody (ct data : bytes) | CapturedBody (ct data : bytes) | FileBody (ct : bytes) (len : nat).

Record Response := MkAbstract {
  a_code : Z;
  a_reason : bytes;
  a_fields : list field;
  a_encoded : bool; (* a content-encoding has been given *)
  a_body : Body;
  a_trailers : list field
}.

Definition body_type (b : Body) : bytes :=
  match b with NoBody => [] | InlineBody ct _ => ct | CapturedBody ct _ => ct | FileBody ct _ => ct end.
Definition body_data (b : Body) : bytes := match b with InlineBody _ d => d | CapturedBody _ d => d | _ => [] end.
Definition body_len (b : Body) : nat := match b with FileBody _ n => n | _ => length (body_data b) end.
Definition has_body (b : Body) : bool := match b with NoBody => false | _ => true end.

Definition length_fields (ct : bytes) (n : nat) : list field :=
  [(n_content_type, ct); (n_content_length, decimal (Z.of_nat n))].
Definition body_fields (b : Body) : list field :=
  if has_body b then length_fields (body_type b) (body_len b) else [].
Definition all_fields (a : Response) : list field := a_fields a ++ body_fields (a_body a).

(** ** Well-formed responses *)

Definition trailer_text (a : Response) : bytes := flat_lines (a_trailers a).
Definition header_text (fs : list field) : bytes := crlf_lines fs ++ DoubleCRLF.

Definition type_ok (ct : bytes) : Prop :=
  (ContentTypeMinLen <= length ct)%nat /\ Forall (fun b => b <> 58 /\ b <> 13 /\ b <> 10) ct.
Definition not_framing (f : field) : Prop :=
  named n_content_type f = false /\ named n_content_length f = false.
Definition body_wf (a : Response) : Prop :=
  match a_body a with
  | NoBody => a_trailers a = []
  | InlineBody ct d | CapturedBody ct d => type_ok ct /\ d <> []
  | FileBody ct n => type_ok ct /\ n <> 0%nat /\ Z.of_nat n < 2 ^ 64 /\ a_trailers a = []
  end.

(** The whole response is shorter than 2^39 bytes. *)
Definition size_ok (a : Response) : Prop :=
  zlen (a_reason a) + zlen (header_text (all_fields a)) + zlen (body_data (a_body a)) + zlen (trailer_text a) < 2 ^ 39.

Definition wf (a : Response) : Prop :=
  (100 <= a_code a <= 999) /\ (length (a_reason a) <= kMaxReasonLength)%nat /\ head (a_reason a) <> Some 10
  /\ Forall (fun f => readable f /\ not_framing f) (a_fields a)
  /\ (a_encoded a = true -> Exists (fun f => named n_content_encoding f = true) (a_fields a))
  /\ body_wf a /\ Forall readable (a_trailers a) /\ zlen (trailer_text a) < 2 ^ 32 /\ size_ok a.

(** ** Operations *)

Definition with_fields (fs : list field) (encoded : bool) (a : Response) : Response :=
  MkAbstract (a_code a) (a_reason a) fs encoded (a_body a) (a_trailers a).
Definition with_body (b : Body) (a : Response) : Response :=
  MkAbstract (a_code a) (a_reason a) (a_fields a) (a_encoded a) b (a_trailers a).
Definition with_trailers (ts : list field) (a : Response) : Response :=
  MkAbstract (a_code a) (a_reason a) (a_fields a) (a_encoded a) (a_body a) ts.

Definition set_status (code : Z) (a : Response) : Outcome Response :=
  if (code <? 100) || (999 <? code) then Throw "Invalid HTTP status code, should be 3 digits"
  else Ret (MkAbstract code (a_reason a) (a_fields a) (a_encoded a) (a_body a) (a_trailers a)).
Definition set_reason (r : bytes) (a : Response) : Outcome Response :=
  Ret (MkAbstract (a_code a) (take kMaxReasonLength r) (a_fields a) (a_encoded a) (a_body a) (a_trailers a)).

Definition add_line (key value : bytes) (a : Response) : Outcome Response :=
  if negb (IsValidHeaderName key) then Throw "HTTP header name is invalid"
  else if negb (IsValidHeaderValue (TrimOws value)) then Throw "HTTP header value is invalid"
  else
    match CheckContentTypeLengthEncoding key (has_body (a_body a)) with
    | Some what => Throw what
    | None => Ret (with_fields (a_fields a ++ [(key, TrimOws value)])
                     (a_encoded a || CaseInsensitiveEqual key n_content_encoding) a)
    end.

(** The first line of that name gets another value. *)
Fixpoint change_first (key : bytes) (change : bytes -> bytes) (l : list field) : list field :=
  match l with
  | [] => []
  | f :: l => if named key f then (fst f, change (snd f)) :: l else f :: change_first key change l
  end.

Definition set_header (key value : bytes) (a : Response) : Outcome Response :=
  if existsb (named key) (all_fields a) then
    match CheckContentTypeLengthEncoding key (has_body (a_body a)) with
    | Some what => Throw what
    | None => Ret (with_fields (change_first key (fun _ => TrimOws value) (a_fields a)) (a_encoded a) a)
    end
  else add_line key value a.

Definition append_value (key value sep : bytes) (a : Response) : Outcome Response :=
  if existsb (named key) (a_fields a)
  then Ret (with_fields (change_first key (fun old => old ++ sep ++ TrimOws value) (a_fields a)) (a_encoded a) a)
  else add_line key value a.

(** The last line of that name goes. *)
Definition remove_last (key : bytes) (l : list field) : list field := rev (remove_first key (rev l)).

Definition remove_line (key : bytes) (a : Response) : Outcome Response :=
  if existsb (named key) (a_fields a) then
    let encoding := CaseInsensitiveEqual key n_content_encoding in
    if encoding && has_body (a_body a) then Throw "Cannot remove Content-Encoding header when response has body"
    else Ret (with_fields (remove_last key (a_fields a)) (a_encoded a && negb encoding) a)
  else Ret a.

(** Without its body, and without the coding it was given with. *)
Definition drop_body (a : Response) : Response :=
  with_body NoBody
    (if has_body (a_body a) && a_encoded a then with_fields (remove_last n_content_encoding (a_fields a)) false a else a).

(** [make] builds the body from its content type. *)
Definition replace_body (make : bytes -> Body) (empty : bool) (contentType : bytes) (a : Response) : Outcome Response :=
  if negb (bool_decide (a_trailers a = [])) then Throw "Cannot set body after the first trailer"
  else
    match CheckContentType empty contentType with
    | Throw what => Throw what
    | Ret ct => Ret (if empty then drop_body a else with_body (make ct) a)
    end.
Definition set_body (d contentType : bytes) : Response -> Outcome Response :=
  replace_body (fun ct => InlineBody ct d) (bool_decide (d = [])) contentType.
Definition set_body_captured (d contentType : bytes) : Response -> Outcome Response :=
  replace_body (fun ct => CapturedBody ct d) (bool_decide (d = [])) contentType.

Definition file_length (fileSize offset len : nat) : nat := if Nat.eqb len 0 then (fileSize - offset)%nat else len.
Definition set_file (fileSize offset len : nat) (detected contentType : bytes) (a : Response) : Outcome Response :=
  if (fileSize <? offset)%nat then Throw "file offset exceeds file size"
  else if (fileSize <? offset + file_length fileSize offset len)%nat then Throw "file length exceeds file size"
  else replace_body (fun ct => FileBody ct (file_length fileSize offset len)) false
         (if bool_decide (contentType = []) then detected else contentType) a.

Definition in_memory (b : Body) : bool := match b with InlineBody _ _ | CapturedBody _ _ => true | _ => false end.
Definition with_data (b : Body) (ct d : bytes) : Body :=
  match b with CapturedBody _ _ => CapturedBody ct d | _ => InlineBody ct d end.

(** To a body in memory; the content type changes when one is given. *)
Definition append_to (b : Body) (d contentType : bytes) (a : Response) : Outcome Response :=
  if negb (bool_decide (a_trailers a = [])) then Throw "Cannot set body after trailers have been added"
  else
    let given := TrimOws contentType in
    if negb (bool_decide (given = [])) && negb (IsValidHeaderValue given) then Throw "Invalid Content-Type header value"
    else Ret (with_body (with_data b (if bool_decide (given = []) then body_type b else given) (body_data b ++ d)) a).

Definition append_body (d contentType : bytes) (a : Response) : Outcome Response :=
  if bool_decide (d = []) then Ret a
  else
    match a_body a with
    | FileBody _ _ => Throw "Cannot append to a captured file body"
    | NoBody => set_body d (if bool_decide (contentType = []) then ContentTypeTextPlain else contentType) a
    | b => append_to b d contentType a
    end.

(** A body written in place: what the writer says it wrote. *)
Definition written (w : Writer) : bytes := take (wr_written w) (wr_text w).
Definition given_type (contentType : bytes) (default : bytes) : bytes :=
  if bool_decide (TrimOws contentType = []) then default else TrimOws contentType.
Definition check_type (contentType : bytes) (a : Response) (next : Outcome Response) : Outcome Response :=
  if negb (bool_decide (a_trailers a = [])) then Throw "Cannot set body after trailers have been added"
  else if negb (bool_decide (TrimOws contentType = [])) && negb (IsValidHeaderValue (TrimOws contentType))
  then Throw "Invalid Content-Type header value" else next.

Definition inline_set (w : Writer) (contentType : bytes) (a : Response) : Outcome Response :=
  check_type contentType a
    (Ret (if bool_decide (written w = []) then drop_body a
          else with_body (InlineBody (given_type contentType (defaultContentType w)) (written w)) (drop_body a))).

Definition inline_append (w : Writer) (contentType : bytes) (a : Response) : Outcome Response :=
  match a_body a with
  | CapturedBody _ _ | FileBody _ _ => Throw "bodyInlineAppend can only be used with inline body responses"
  | NoBody =>
      check_type contentType a
        (Ret (if bool_decide (written w = []) then a
              else with_body (InlineBody (given_type contentType (defaultContentType w)) (written w)) a))
  | InlineBody ct d =>
      check_type contentType a (Ret (with_body (InlineBody (given_type contentType ct) (d ++ written w)) a))
  end.

Definition add_trailer (name value : bytes) (a : Response) : Outcome Response :=
  if negb (IsValidHeaderName name) then Throw "Invalid trailer header name"
  else if negb (IsValidHeaderValue value) then Throw "HTTP header value is invalid"
  else if negb (in_memory (a_body a)) then Throw "Trailers must be added after a non empty body is set"
  else if 2 ^ 32 <=? Z.of_nat (HeaderSize (length name) (length (TrimOws value)) + length (trailer_text a))
  then Throw "value exceeds target type maximum"
  else Ret (with_trailers (a_trailers a ++ [(name, TrimOws value)]) a).
