(* ===== verification/HttpMessageRepr.v ===== *)
(** How the buffer of a message represents a response: its parts, the positions packed in one
    word, what moving and writing bytes does to them, and the pointers into them. *)

From S2P Require Import Prelude.
From S2P Require Import AsciiCase.
From S2P Require Import HeadersView.
From S2P Require Import UrlCodec.
From S2P Require Import Cors.
From S2P Require Import Http1Request.
From S2P Require Import Http1Body.
From S2P Require Import RoutePattern.
From S2P Require Import ResponseParser.
From S2P Require Import TimeString.
From S2P Require Import RawChars.
From S2P Require Import HttpMessage.
From S2P Require Import HttpMessageSpec.
Local Open Scope Z_scope.

(** ** Positions *)

Definition bitmap (hs bs : nat) : Z := Z.of_nat hs + Z.of_nat bs * 2 ^ 24.
Definition pos_ok (hs bs : nat) : Prop := Z.of_nat hs < 2 ^ 24 /\ Z.of_nat bs < 2 ^ 40.

Lemma headersStartPos_bitmap m hs bs : hm_posBitmap m = bitmap hs bs -> pos_ok hs bs -> headersStartPos m = hs.
Proof.
  intros E [Hh Hb]. unfold headersStartPos. rewrite E. change kHeadersStartMask with (Z.ones 24).
  rewrite land_ones_mod by lia. unfold bitmap. rewrite Z_mod_plus_full, (Z.mod_small (Z.of_nat hs)), u32_id by lia. lia.
Qed.

Lemma bodyStartPos_bitmap m hs bs : hm_posBitmap m = bitmap hs bs -> pos_ok hs bs -> bodyStartPos m = bs.
Proof.
  intros E [Hh Hb]. unfold bodyStartPos. rewrite E. change kHeaderPosNbBits with 24. change kBodyStartMask with (Z.ones 40).
  rewrite land_ones_mod, Z.shiftr_div_pow2 by lia. unfold bitmap. rewrite Z_div_plus_full by lia.
  rewrite (Z.div_small (Z.of_nat hs)) by lia. rewrite Z.mod_small by lia. lia.
Qed.

Lemma setBodyStart_bitmap m hs bs bs' :
  hm_posBitmap m = bitmap hs bs -> pos_ok hs bs -> pos_ok hs bs' ->
  setBodyStartPosNoCheck bs' m = set_bitmap (bitmap hs bs') m.
Proof.
  intros E [Hh Hb] [_ Hb']. unfold setBodyStartPosNoCheck. rewrite E. change kHeaderPosNbBits with 24.
  change kHeadersStartMask with (Z.ones 24). rewrite land_ones_mod by lia. unfold bitmap at 1.
  rewrite Z_mod_plus_full, (Z.mod_small (Z.of_nat hs)) by lia. f_equal. rewrite u64_id; [|rewrite Z.shiftl_mul_pow2; lia].
  rewrite Z.lor_comm, lor_shiftl_low by lia. unfold bitmap. lia.
Qed.

Lemma setBodyStartPos_bitmap m hs bs bs' :
  hm_posBitmap m = bitmap hs bs -> pos_ok hs bs -> pos_ok hs bs' ->
  setBodyStartPos bs' m = Some (set_bitmap (bitmap hs bs') m).
Proof.
  intros E H H'. unfold setBodyStartPos. change kBodyStartMask with (2 ^ 40 - 1). rewrite (proj2 (Z.leb_le _ _)) by (destruct H'; lia).
  by rewrite (setBodyStart_bitmap m hs bs bs').
Qed.

Lemma adjustNoCheck_bitmap m hs bs diff bs' :
  hm_posBitmap m = bitmap hs bs -> pos_ok hs bs -> pos_ok hs bs' -> Z.of_nat bs' = Z.of_nat bs + diff ->
  adjustBodyStartNoCheck diff m = set_bitmap (bitmap hs bs') m.
Proof.
  intros E [Hh Hb] [_ Hb'] Ed. unfold adjustBodyStartNoCheck. rewrite E. change kHeaderPosNbBits with 24. f_equal.
  unfold u64. rewrite Z.shiftl_mul_pow2 by lia. rewrite Zplus_mod_idemp_r, <- Zplus_mod_idemp_r, Zmult_mod_idemp_l, Zplus_mod_idemp_r.
  unfold bitmap. rewrite Ed, Z.mod_small; lia.
Qed.

Lemma adjustBodyStart_bitmap m hs bs diff bs' :
  hm_posBitmap m = bitmap hs bs -> pos_ok hs bs -> pos_ok hs bs' -> Z.of_nat bs' = Z.of_nat bs + diff ->
  adjustBodyStart diff m = Some (set_bitmap (bitmap hs bs') m).
Proof.
  intros E H H' Ed. unfold adjustBodyStart. rewrite (bodyStartPos_bitmap m hs bs) by done.
  rewrite (adjustNoCheck_bitmap m hs bs diff bs') by done. change kBodyStartMask with (2 ^ 40 - 1). destruct H'.
  rewrite (proj2 (Z.leb_le (- Z.of_nat bs) diff)) by lia. rewrite (proj2 (Z.leb_le diff _)) by lia. by rewrite orb_true_r.
Qed.

Lemma adjustBoth_bitmap m hs bs diff hs' bs' :
  hm_posBitmap m = bitmap hs bs -> pos_ok hs bs -> pos_ok hs' bs' -> Z.of_nat bs' = Z.of_nat bs + diff ->
  Z.of_nat hs' = Z.of_nat hs + diff -> adjustHeadersAndBodyStart diff m = set_bitmap (bitmap hs' bs') m.
Proof.
  intros E [Hh Hb] [Hh' Hb'] Ed Ed'. unfold adjustHeadersAndBodyStart, adjustBodyStartNoCheck. cbn [set_bitmap hm_posBitmap].
  rewrite E. change kHeaderPosNbBits with 24. unfold set_bitmap at 1 3. cbn [hm_data hm_payload hm_opts set_bitmap]. f_equal.
  unfold u64. rewrite Z.shiftl_mul_pow2 by lia. rewrite Zplus_mod_idemp_r, Zplus_mod_idemp_l.
  rewrite <- Zplus_mod_idemp_r, Zmult_mod_idemp_l, Zplus_mod_idemp_r.
  rewrite <- Z.add_assoc, (Z.add_comm (diff mod _)), Z.add_assoc, Zplus_mod_idemp_r.
  unfold bitmap. rewrite Ed, Ed', Z.mod_small; lia.
Qed.

(** ** Pieces of memory *)

Lemma poke_rest r a rest y :
  rc_buf r = a ++ rest -> (length y <= length rest)%nat ->
  poke (length a) y r = Some (MkRawChars (a ++ y ++ drop (length y) rest) (rc_size r)).
Proof.
  intros E Hl. apply (poke_memory r a (take (length y) rest) y); [by rewrite take_drop|rewrite length_take; lia].
Qed.

Lemma poke_nil pos r : (pos <= capacity r)%nat -> poke pos [] r = Some r.
Proof.
  intros H. unfold poke. cbn [length]. rewrite (proj2 (Nat.leb_le _ _)) by lia. rewrite Nat.add_0_r. cbn [app].
  rewrite take_drop. by destruct r.
Qed.

Lemma poke_capacity pos y r r' : poke pos y r = Some r' -> capacity r' = capacity r /\ rc_size r' = rc_size r.
Proof.
  unfold poke, capacity. destruct (Nat.leb_spec (pos + length y) (length (rc_buf r))) as [H|H]; [|done].
  intros [= <-]. cbn [rc_buf rc_size]. rewrite !length_app, length_take, length_drop. split; [lia|done].
Qed.

Lemma setSize_poke n pos y r r1 r2 :
  poke pos y r = Some r1 -> setSize n r1 = Some r2 -> exists r1', setSize n r = Some r1' /\ poke pos y r1' = Some r2.
Proof.
  intros E1 E2. pose proof (poke_capacity _ _ _ _ E1) as [Ec _]. unfold setSize in *. rewrite Ec in E2.
  destruct (n <=? capacity r)%nat; [|done]. injection E2 as <-. eexists. split; [done|].
  unfold poke, capacity in *. cbn [rc_buf rc_size]. destruct (_ <=? _)%nat; [|done]. by injection E1 as <-.
Qed.

(** The bytes [x] between [a] and [b] become [y]. *)
Lemma splice_data r a x b y :
  holds r (a ++ x ++ b) -> (length a + length y + length b <= capacity r)%nat ->
  exists r1 r2 r3,
    memmove (length a + length y) (length a + length x) (length b) r = Some r1 /\ rc_size r1 = rc_size r
    /\ capacity r1 = capacity r /\ poke (length a) y r1 = Some r2 /\ rc_size r2 = rc_size r
    /\ setSize (length (a ++ y ++ b)) r2 = Some r3 /\ holds r3 (a ++ y ++ b) /\ capacity r3 = capacity r.
Proof.
  intros H Hc. destruct (replace_middle r a x b y H Hc) as (r1 & E1 & S1 & _ & r2 & E2 & S2 & spare & E3).
  destruct (setSize_holds r2 (a ++ y ++ b) spare _ E3 eq_refl) as (r3 & E4 & H3 & E5).
  assert (C1 : capacity r1 = capacity r).
  { revert E1. unfold memmove. destruct (_ <=? _)%nat; [|done]. intros E1. by apply poke_capacity in E1 as [-> _]. }
  exists r1, r2, r3. repeat split; try done.
  unfold capacity in *. rewrite E5. apply poke_capacity in E2 as [E2 _]. unfold capacity in E2. congruence.
Qed.

(** ** The parts of a message *)

(** Before the header lines, the header lines up to the blank one, the rest. *)
Definition Parts (m : HttpMessage) (start hdr tail : bytes) : Prop :=
  holds (hm_data m) (start ++ hdr ++ tail) /\ hm_posBitmap m = bitmap (length start) (length (start ++ hdr))
  /\ pos_ok (length start) (length (start ++ hdr)).

(** The payload and the options stay. *)
Definition same_rest (m m' : HttpMessage) : Prop := hm_payload m' = hm_payload m /\ hm_opts m' = hm_opts m.

Lemma same_rest_refl m : same_rest m m.
Proof. done. Qed.
Lemma same_rest_trans m1 m2 m3 : same_rest m1 m2 -> same_rest m2 m3 -> same_rest m1 m3.
Proof. intros [E1 E2] [E3 E4]. split; congruence. Qed.

Section Edits.
Context (garbage : Z).

Lemma parts_positions m start hdr tail :
  Parts m start hdr tail ->
  headersStartPos m = length start /\ bodyStartPos m = length (start ++ hdr) /\ msize m = length (start ++ hdr ++ tail)
  /\ (msize m <= capacity (hm_data m))%nat /\ exists spare, mem m = start ++ hdr ++ tail ++ spare.
Proof.
  intros (H & E & Hp). split; [by eapply headersStartPos_bitmap|]. split; [by eapply bodyStartPos_bitmap|].
  split; [by apply holds_size|]. destruct H as (spare & Eb & Es). split.
  - unfold msize, capacity. rewrite Es, Eb, !length_app. lia.
  - exists spare. unfold mem. by rewrite Eb, <- !app_assoc.
Qed.

Lemma mensure_exp_parts n m start hdr tail :
  Parts m start hdr tail ->
  Parts (mensure_exp garbage n m) start hdr tail /\ same_rest m (mensure_exp garbage n m)
  /\ (length (start ++ hdr ++ tail) + n <= capacity (hm_data (mensure_exp garbage n m)))%nat.
Proof.
  intros (H & E & Hp). destruct (ensure_exp_holds garbage n _ _ H) as [H' Hr]. unfold mensure_exp. split; [done|]. split; [done|].
  unfold room in Hr. by rewrite (holds_size _ _ H') in Hr.
Qed.

Lemma mensure_exp_signed_parts n m start hdr tail :
  Parts m start hdr tail ->
  Parts (mensure_exp_signed garbage n m) start hdr tail /\ same_rest m (mensure_exp_signed garbage n m)
  /\ (length (start ++ hdr ++ tail) + Z.to_nat n <= capacity (hm_data (mensure_exp_signed garbage n m)))%nat.
Proof.
  intros (H & E & Hp). destruct (ensure_exp_signed_holds garbage n _ _ H) as [H' Hr]. unfold mensure_exp_signed. split; [done|]. split; [done|].
  unfold room in Hr. by rewrite (holds_size _ _ H') in Hr.
Qed.

Definition edited (m m' : HttpMessage) (start hdr tail : bytes) : Prop :=
  Parts m' start hdr tail /\ same_rest m m' /\ capacity (hm_data m') = capacity (hm_data m).

Lemma splice_parts m start h1 x h2 tail y :
  Parts m start (h1 ++ x ++ h2) tail ->
  (length (start ++ h1) + length y + length (h2 ++ tail) <= capacity (hm_data m))%nat ->
  pos_ok (length start) (length (start ++ h1 ++ y ++ h2)) ->
  exists r1 r2 r3,
    memmove (length (start ++ h1) + length y) (length (start ++ h1) + length x) (length (h2 ++ tail)) (hm_data m) = Some r1
    /\ rc_size r1 = msize m /\ poke (length (start ++ h1)) y r1 = Some r2 /\ rc_size r2 = msize m
    /\ setSize (length (start ++ h1 ++ y ++ h2 ++ tail)) r2 = Some r3 /\ capacity r3 = capacity (hm_data m)
    /\ Parts (set_data r3 (set_bitmap (bitmap (length start) (length (start ++ h1 ++ y ++ h2))) m)) start (h1 ++ y ++ h2) tail.
Proof.
  intros (H & E & Hp) Hc Hp'. assert (H0 : holds (hm_data m) ((start ++ h1) ++ x ++ (h2 ++ tail))) by (revert H; by rewrite <- !app_assoc).
  destruct (splice_data _ _ x _ y H0 Hc) as (r1 & r2 & r3 & E1 & S1 & _ & E2 & S2 & E3 & H3 & C3).
  rewrite <- app_assoc in E3, H3. exists r1, r2, r3. unfold msize. do 4 (split; [done|]). split; [done|]. split; [done|].
  split; [|by split]. cbn [set_data hm_data]. by rewrite <- !app_assoc.
Qed.

(** The amount by which the size and the position of the body change. *)
Definition grown (x y : bytes) : Z := Z.of_nat (length y) - Z.of_nat (length x).

Lemma adjust_sizes m start h1 x h2 tail y :
  Parts m start (h1 ++ x ++ h2) tail ->
  moved_by (msize m) (grown x y) = Some (length (start ++ h1 ++ y ++ h2 ++ tail))
  /\ Z.of_nat (length (start ++ h1 ++ y ++ h2)) = Z.of_nat (length (start ++ h1 ++ x ++ h2)) + grown x y
  /\ (length x <= length y -> msize m + (length y - length x) = length (start ++ h1 ++ y ++ h2 ++ tail))%nat.
Proof.
  intros H. pose proof (parts_positions _ _ _ _ H) as (_ & _ & Hs & _). rewrite Hs. unfold moved_by, grown.
  rewrite !length_app. split; [|split; lia]. rewrite (proj2 (Z.leb_le _ _)) by lia. f_equal. lia.
Qed.

(** [overrideHeaderUnchecked] *)
Lemma splice_write m start h1 x h2 tail y :
  Parts m start (h1 ++ x ++ h2) tail ->
  (length (start ++ h1) + length y + length (h2 ++ tail) <= capacity (hm_data m))%nat ->
  pos_ok (length start) (length (start ++ h1 ++ y ++ h2)) ->
  exists m', (m1 ← mmove (length (start ++ h1) + length y) (length (start ++ h1) + length x) (length (h2 ++ tail)) m;
              m2 ← mpoke (length (start ++ h1)) y m1; m3 ← madjustSize (grown x y) m2; adjustBodyStart (grown x y) m3) = Some m'
    /\ edited m m' start (h1 ++ y ++ h2) tail.
Proof.
  intros H Hc Hp. destruct (splice_parts _ _ _ _ _ _ y H Hc Hp) as (r1 & r2 & r3 & E1 & S1 & E2 & S2 & E3 & C3 & H3).
  destruct (adjust_sizes _ _ _ _ _ _ y H) as (Ed & Eb & _). destruct H as (_ & E & Hp0).
  eexists. split; [|by split].
  unfold mmove, mpoke, madjustSize, on_data. rewrite E1. cbn [mbind option_bind set_data hm_data]. rewrite E2.
  cbn [mbind option_bind set_data hm_data]. unfold adjustSize. rewrite S2, Ed. cbn [mbind option_bind]. rewrite E3.
  cbn [mbind option_bind].
  by rewrite (adjustBodyStart_bitmap _ (length start) (length (start ++ h1 ++ x ++ h2)) _ (length (start ++ h1 ++ y ++ h2))).
Qed.

(** [replaceHeaderValueNoRealloc]: the size is changed before the bytes are written. *)
Lemma splice_resize m start h1 x h2 tail y :
  Parts m start (h1 ++ x ++ h2) tail ->
  (length (start ++ h1) + length y + length (h2 ++ tail) <= capacity (hm_data m))%nat ->
  pos_ok (length start) (length (start ++ h1 ++ y ++ h2)) ->
  exists m', (m1 ← mmove (length (start ++ h1) + length y) (length (start ++ h1) + length x) (length (h2 ++ tail)) m;
              m2 ← madjustSize (grown x y) m1; m3 ← adjustBodyStart (grown x y) m2; mpoke (length (start ++ h1)) y m3) = Some m'
    /\ edited m m' start (h1 ++ y ++ h2) tail.
Proof.
  intros H Hc Hp. destruct (splice_parts _ _ _ _ _ _ y H Hc Hp) as (r1 & r2 & r3 & E1 & S1 & E2 & S2 & E3 & C3 & H3).
  destruct (setSize_poke _ _ _ _ _ _ E2 E3) as (r1' & E3' & E2').
  destruct (adjust_sizes _ _ _ _ _ _ y H) as (Ed & Eb & _). destruct H as (_ & E & Hp0).
  eexists. split; [|by split].
  unfold mmove, mpoke, madjustSize, on_data. rewrite E1. cbn [mbind option_bind set_data hm_data]. unfold adjustSize.
  rewrite S1, Ed. cbn [mbind option_bind]. rewrite E3'. cbn [mbind option_bind].
  rewrite (adjustBodyStart_bitmap _ (length start) (length (start ++ h1 ++ x ++ h2)) (grown x y) (length (start ++ h1 ++ y ++ h2))) by done.
  cbn [mbind option_bind set_bitmap set_data hm_data]. by rewrite E2'.
Qed.

(** Nothing is replaced: [headerAddLineUnchecked], [headerAppendValue]. *)
Lemma splice_insert m start h1 h2 tail y n :
  Parts m start (h1 ++ h2) tail -> n = length y ->
  (length (start ++ h1) + n + length (h2 ++ tail) <= capacity (hm_data m))%nat ->
  pos_ok (length start) (length (start ++ h1 ++ y ++ h2)) ->
  exists m', (m1 ← mmove (length (start ++ h1) + n) (length (start ++ h1)) (length (h2 ++ tail)) m;
              m2 ← mpoke (length (start ++ h1)) y m1; m3 ← maddSize n m2; adjustBodyStart (Z.of_nat n) m3) = Some m'
    /\ edited m m' start (h1 ++ y ++ h2) tail.
Proof.
  intros H -> Hc Hp. destruct (splice_parts m start h1 [] h2 tail y H Hc Hp) as (r1 & r2 & r3 & E1 & S1 & E2 & S2 & E3 & C3 & H3).
  destruct (adjust_sizes m start h1 [] h2 tail y H) as (_ & Eb & Ed). destruct H as (_ & E & Hp0).
  eexists. split; [|by split].
  cbn [length] in E1, Ed. rewrite Nat.add_0_r in E1. rewrite Nat.sub_0_r in Ed. unfold mmove, mpoke, maddSize, on_data. rewrite E1. cbn [mbind option_bind set_data hm_data]. rewrite E2.
  cbn [mbind option_bind set_data hm_data]. unfold addSize. rewrite S2, Ed by lia. rewrite E3.
  cbn [mbind option_bind]. unfold grown in Eb. cbn [length] in Eb.
  rewrite (adjustBodyStart_bitmap _ (length start) (length (start ++ h1 ++ h2)) _ (length (start ++ h1 ++ y ++ h2)));
    [done|done|done|done|]. cbn [app] in Eb. lia.
Qed.

(** Nothing is written: [erase_range]. *)
Lemma splice_erase m start h1 x h2 tail first last :
  Parts m start (h1 ++ x ++ h2) tail -> first = length (start ++ h1) -> last = (first + length x)%nat ->
  exists m', erase_range first last m = Some m' /\ edited m m' start (h1 ++ h2) tail.
Proof.
  intros H -> ->. pose proof (parts_positions _ _ _ _ H) as (_ & _ & Hs & Hle & _).
  assert (Hp : pos_ok (length start) (length (start ++ h1 ++ h2))).
  { destruct H as (_ & _ & [? Hb]). split; [done|]. rewrite !length_app in *. lia. }
  destruct (splice_parts m start h1 x h2 tail [] H) as (r1 & r2 & r3 & E1 & S1 & E2 & S2 & E3 & C3 & H3);
    [rewrite Hs, !length_app in *; cbn; lia|done|].
  assert (C1 : (length (start ++ h1) <= capacity r1)%nat).
  { apply poke_capacity in E2 as [<- _]. unfold setSize in E3. rewrite !length_app in *.
    destruct (Nat.leb_spec (length start + (length h1 + (length (@nil Z) + (length h2 + length tail)))) (capacity r2)); [lia|done]. }
  rewrite poke_nil in E2 by done. injection E2 as <-.
  eexists. split; [|by split]. unfold erase_range.
  assert (En : (msize m - (length (start ++ h1) + length x) = length (h2 ++ tail))%nat) by (rewrite Hs, !length_app; lia).
  rewrite En. cbn [length] in E1. rewrite Nat.add_0_r in E1. unfold mmove, msetSize, on_data. rewrite E1.
  cbn [mbind option_bind]. change (msize (set_data r1 m)) with (rc_size r1). change (hm_data (set_data r1 m)) with r1.
  rewrite S1.
  assert (Es : (msize m - (length (start ++ h1) + length x - length (start ++ h1)))%nat = length (start ++ h1 ++ [] ++ h2 ++ tail))
    by (rewrite Hs, !length_app; cbn; lia).
  rewrite Es, E3. cbn [mbind option_bind].
  destruct H as (_ & E & Hp0). rewrite (adjustNoCheck_bitmap _ (length start) (length (start ++ h1 ++ x ++ h2)) _ (length (start ++ h1 ++ h2)));
    [done|done|done|done|]. rewrite !length_app. cbn. lia.
Qed.

(** Bytes are overwritten. *)
Lemma overwrite_parts m start h1 x h2 tail y :
  Parts m start (h1 ++ x ++ h2) tail -> length y = length x ->
  exists m', mpoke (length (start ++ h1)) y m = Some m' /\ edited m m' start (h1 ++ y ++ h2) tail.
Proof.
  intros ((spare & Eb & Es) & E & Hp) Hl. unfold mpoke, on_data.
  rewrite (poke_memory _ (start ++ h1) x y (h2 ++ tail ++ spare)); [|by rewrite Eb, <- !app_assoc|done].
  cbn [mbind option_bind]. eexists. split; [done|]. split; [|split; [done|]].
  - split; [exists spare; cbn [set_data hm_data rc_buf rc_size]; split; [by rewrite <- !app_assoc|rewrite Es, !length_app; lia]|].
    cbn [set_data hm_posBitmap]. assert (El : length (start ++ h1 ++ y ++ h2) = length (start ++ h1 ++ x ++ h2)) by (rewrite !length_app; lia).
    by rewrite El.
  - unfold capacity. cbn [set_data hm_data rc_buf]. rewrite Eb, !length_app. lia.
Qed.
End Edits.

(** How a message represents a response: its buffer is the text of it, and the pointers and
    searches of the code find their lines there. *)

(** ** How a message holds them *)

Definition code_digits (c : Z) : bytes := [48 + c / 100; 48 + c / 10 mod 10; 48 + c mod 10].
Definition inline_text (a : Response) : bytes :=
  match a_body a with InlineBody _ d => d ++ trailer_text a | _ => [] end.
Definition payload_of (a : Response) : Payload :=
  match a_body a with CapturedBody _ d => PCaptured (d ++ trailer_text a) | FileBody _ n => PFile n | _ => PNone end.

(** The options that do not change; neither a request nor an answer to HEAD. *)
Definition options_of (o : Options) (a : Response) : Options :=
  MkOptions (op_close o) (op_addTrailerHeader o) false (op_prepared o) (a_encoded a) (op_streamingBody o) false
    (length (trailer_text a)).

(** Room for the version, the status, the reason, room for the date. *)
Definition start_of (a : Response) (start : bytes) : Prop :=
  exists v date, start = (v ++ [32] ++ code_digits (a_code a) ++ [32]) ++ a_reason a ++ date
    /\ length v = 8%nat /\ length date = kDateHeaderLenWithCRLF
    /\ (a_reason a = [] -> exists d, date = 10 :: d).

Definition Repr (o : Options) (m : HttpMessage) (a : Response) : Prop :=
  exists start, Parts m start (header_text (all_fields a)) (inline_text a) /\ start_of a start
    /\ hm_payload m = payload_of a /\ hm_opts m = options_of o a /\ wf a.

(** ** Trimmed values *)

Lemma trim_left_head l c r : trim_left l = c :: r -> isWhitespace c = false.
Proof. induction l as [|x l IH]; [done|]. cbn [trim_left]. destruct (isWhitespace x) eqn:E; [done|]. by intros [= <- _]. Qed.

Definition solid_ends (l : bytes) : Prop :=
  exists c r, l = c :: r /\ isWhitespace c = false /\ isWhitespace (List.last l 0) = false.

Lemma solid_trimmed l : solid_ends l -> TrimOws l = l.
Proof. intros (c & r & -> & Hc & Hl). unfold TrimOws. by rewrite Hc, Hl. Qed.

Lemma TrimOws_idem l : TrimOws (TrimOws l) = TrimOws l.
Proof.
  destruct l as [|a l]; [done|]. destruct (negb (isWhitespace a) && negb (isWhitespace (List.last (a :: l) 0))) eqn:E.
  { assert (Et : TrimOws (a :: l) = a :: l) by (unfold TrimOws; by rewrite E). by rewrite !Et. }
  assert (Et : TrimOws (a :: l) = rev (trim_left (rev (trim_left (a :: l))))) by (unfold TrimOws; by rewrite E).
  rewrite Et. set (u := trim_left (a :: l)). destruct (trim_left (rev u)) as [|c r] eqn:Ev; [done|].
  apply solid_trimmed. destruct (trim_left_suffix (rev u)) as [q Hq]. rewrite Ev in Hq.
  assert (Hu : u = rev (c :: r) ++ rev q) by (rewrite <- rev_app_distr, <- Hq; by rewrite rev_involutive).
  destruct (rev (c :: r)) as [|x y] eqn:Er; [by apply (f_equal length) in Er; rewrite length_rev in Er|].
  exists x, y. split; [done|]. split; [by eapply (trim_left_head (a :: l))|].
  assert (El : x :: y = rev r ++ [c]) by (rewrite <- Er; done). rewrite El, last_last. by eapply trim_left_head.
Qed.

(** ** Digits and names *)

Lemma decimal_loop_digits fuel v acc :
  0 <= v -> Forall (fun b => 48 <= b <= 57) acc -> Forall (fun b => 48 <= b <= 57) (decimal_loop fuel v acc).
Proof.
  revert v acc. induction fuel as [|fuel IH]; intros v acc Hv Ha; [done|]. cbn [decimal_loop].
  assert (H : Forall (fun b => 48 <= b <= 57) (48 + v mod 10 :: acc)) by (constructor; [zlia|done]).
  destruct (v <? 10); [done|]. apply IH; [zlia|done].
Qed.

Lemma decimal_digits n : Forall (fun b => 48 <= b <= 57) (decimal (Z.of_nat n)).
Proof. apply decimal_loop_digits; [lia|constructor]. Qed.

Lemma decimal_loop_nonempty fuel v acc : acc <> [] \/ fuel <> 0%nat -> decimal_loop fuel v acc <> [].
Proof.
  revert v acc. induction fuel as [|fuel IH]; intros v acc H; [by destruct H|]. cbn [decimal_loop].
  destruct (v <? 10); [done|]. apply IH. by left.
Qed.

Lemma decimal_nonempty n : decimal (Z.of_nat n) <> [].
Proof. apply decimal_loop_nonempty. by right. Qed.

Lemma digits_value_loop fuel v acc :
  0 <= v < 10 ^ Z.of_nat fuel -> digits_value 0 (decimal_loop fuel v acc) = digits_value v acc.
Proof.
  revert v acc. induction fuel as [|fuel IH]; intros v acc Hv.
  { change (10 ^ Z.of_nat 0) with 1 in Hv. by replace v with 0 by lia. }
  cbn [decimal_loop]. rewrite Nat2Z.inj_succ, Z.pow_succ_r in Hv by lia.
  assert (Hd : forall k, digits_value k (48 + v mod 10 :: acc) = digits_value (k * 10 + v mod 10) acc).
  { intros k. cbn [digits_value]. rewrite (proj2 (Z.leb_le _ _)), (proj2 (Z.leb_le _ _)) by zlia. cbn [andb]. f_equal. lia. }
  destruct (Z.ltb_spec v 10) as [Hlt|Hge]; [|rewrite IH by (split; [zlia|apply Z.div_lt_upper_bound; lia])]; rewrite Hd; f_equal; zlia.
Qed.

Lemma decimal_read n : Z.of_nat n < 2 ^ 64 -> from_chars_size (decimal (Z.of_nat n)) = Some (Z.of_nat n).
Proof.
  intros Hn. unfold from_chars_size. pose proof (decimal_nonempty n) as Hne. unfold decimal in *.
  destruct (decimal_loop 20 (Z.of_nat n) []) eqn:E; [done|]. rewrite <- E.
  rewrite digits_value_loop by (change (Z.of_nat 20) with 20; lia). cbn [digits_value]. by rewrite (proj2 (Z.ltb_lt _ _)).
Qed.

Lemma length_fields_readable ct n : type_ok ct -> Forall readable (length_fields ct n).
Proof.
  intros [_ Hct]. repeat constructor; cbn [fst snd]; try discriminate; try (vm_compute; intuition discriminate).
  - eapply Forall_impl; [exact Hct|]. by intros b (_ & _ & ?).
  - eapply Forall_impl; [apply decimal_digits|]. cbn. lia.
Qed.

Lemma body_fields_readable a : wf a -> Forall readable (body_fields (a_body a)).
Proof.
  intros (_ & _ & _ & _ & _ & Hb & _). unfold body_wf in Hb. unfold body_fields.
  destruct (a_body a); cbn [has_body]; try (apply length_fields_readable; tauto). constructor.
Qed.

Lemma all_fields_readable a : wf a -> Forall readable (all_fields a).
Proof.
  intros H. apply Forall_app. split; [|by apply body_fields_readable]. destruct H as (_ & _ & _ & H & _).
  eapply Forall_impl; [exact H|]. by intros f [? _].
Qed.

(** ** Queries of a represented message *)

Lemma repr_start_ok o m a : Repr o m a -> exists start hdr tail, Parts m start hdr tail.
Proof. intros (start & H & _). by eexists _, _, _. Qed.

Lemma body_data_nonempty a : wf a -> has_body (a_body a) = true -> body_len (a_body a) <> 0%nat.
Proof.
  intros (_ & _ & _ & _ & _ & Hb & _) H. unfold body_wf in Hb. destruct (a_body a) as [|ct d|ct d|ct n]; cbn in *; [done| | |].
  - destruct Hb as [_ Hd]. by destruct d.
  - destruct Hb as [_ Hd]. by destruct d.
  - tauto.
Qed.

Lemma repr_payload_empty o m a : Repr o m a ->
  payload_empty (hm_payload m) = match a_body a with CapturedBody _ _ | FileBody _ _ => false | _ => true end.
Proof. intros (start & _ & _ & -> & _). unfold payload_of. by destruct (a_body a). Qed.

Lemma repr_captured o m a : Repr o m a ->
  hasBodyCaptured m = match a_body a with CapturedBody _ _ => true | _ => false end.
Proof. intros (start & _ & _ & E & _). unfold hasBodyCaptured. rewrite E. unfold payload_of. by destruct (a_body a). Qed.

Lemma repr_inlined o m a : Repr o m a ->
  hasBodyInlined m = match a_body a with InlineBody _ _ => true | _ => false end.
Proof.
  intros (start & H & _ & _ & _ & Hw). destruct (parts_positions _ _ _ _ H) as (_ & Eb & Es & _).
  unfold hasBodyInlined. rewrite Eb, Es. unfold inline_text. destruct Hw as (_ & _ & _ & _ & _ & Hb & _). unfold body_wf in Hb.
  destruct (a_body a) as [|ct d|ct d|ct n]; rewrite ?app_nil_r, ?Nat.ltb_irrefl; try done.
  destruct Hb as [_ Hd]. apply Nat.ltb_lt. rewrite !length_app. destruct d; [done|]. cbn. lia.
Qed.

Lemma repr_hasBody o m a : Repr o m a -> hasBody m = has_body (a_body a).
Proof.
  intros H. unfold hasBody. rewrite (repr_payload_empty _ _ _ H), (repr_inlined _ _ _ H). by destruct (a_body a).
Qed.

Lemma repr_bodyLength o m a : Repr o m a -> bodyLength m = body_len (a_body a).
Proof.
  intros H. pose proof (repr_captured _ _ _ H) as Hc. destruct H as (start & H & _ & Ep & Eo & Hw).
  destruct (parts_positions _ _ _ _ H) as (_ & Eb & Es & _).
  unfold bodyLength, bodyInMemoryLength, bodyInlinedLength, trailersSize. rewrite Hc, Ep, Eo, Eb, Es.
  unfold payload_of, inline_text, options_of. cbn [op_trailerLen]. destruct Hw as (_ & _ & _ & _ & _ & Hb & _). unfold body_wf in Hb.
  destruct (a_body a) as [|ct d|ct d|ct n]; cbn [body_len body_data payload_size]; try done.
  - rewrite !length_app. cbn. lia.
  - rewrite !length_app. lia.
  - rewrite length_app. lia.
Qed.

Lemma repr_opts o m a : Repr o m a -> hm_opts m = options_of o a.
Proof. by intros (start & _ & _ & _ & ? & _). Qed.
Lemma repr_isHead o m a : Repr o m a -> isHead m = false.
Proof. intros H. unfold isHead. by rewrite (repr_opts _ _ _ H). Qed.
Lemma repr_httpRequest o m a : Repr o m a -> op_httpRequest (hm_opts m) = false.
Proof. intros H. by rewrite (repr_opts _ _ _ H). Qed.
Lemma repr_encoded o m a : Repr o m a -> hasContentEncoding m = a_encoded a.
Proof. intros H. unfold hasContentEncoding. by rewrite (repr_opts _ _ _ H). Qed.
Lemma repr_trailersSize o m a : Repr o m a -> trailersSize m = length (trailer_text a).
Proof. intros H. unfold trailersSize. by rewrite (repr_opts _ _ _ H). Qed.

(** Lengths of texts. *)
Ltac lens :=
  repeat progress (rewrite ?length_app; cbn [length]);
  change (length n_content_type) with 12%nat in *; change (length n_content_length) with 14%nat in *.

(** ** Pointers to the content type and the content length *)

Lemma back_sub p n : (n <= p)%nat -> back p n = Some (p - n)%nat.
Proof. intros H. unfold back. by rewrite (proj2 (Nat.leb_le _ _)). Qed.

Lemma not_digit c n : (c < 48 \/ 57 < c) -> Forall (fun b => b <> c) (decimal (Z.of_nat n)).
Proof. intros H. eapply Forall_impl; [apply decimal_digits|]. cbn. lia. Qed.

(** The header lines of a body, in the buffer. *)
Lemma ctcl_text fs ct n :
  crlf_lines (fs ++ length_fields ct n) = (crlf_lines fs ++ CRLF ++ n_content_type) ++ 58 :: 32 :: ct
    ++ CRLF ++ n_content_length ++ 58 :: 32 :: decimal (Z.of_nat n).
Proof.
  rewrite crlf_lines_app. unfold crlf_lines at 2. unfold length_fields. cbn [map concat]. rewrite app_nil_r.
  unfold crlf_line, WriteCRLFHeader, WriteHeader. cbn [fst snd]. change HeaderSep with [58; 32]. app_simpl. done.
Qed.

Section Pointers.
Context (m : HttpMessage) (start : bytes) (fs : list field) (ct : bytes) (n : nat) (tail : bytes).
Hypothesis (Hparts : Parts m start (header_text (fs ++ length_fields ct n)) tail).
Hypothesis (Hct : type_ok ct).

(** Where the lines start. *)
Definition type_at : nat := length (start ++ crlf_lines fs).
Definition length_at : nat := (type_at + length ct + 16)%nat.
Definition lines_end : nat := (length_at + length (decimal (Z.of_nat n)) + 18)%nat.

Lemma lines_end_body : bodyStartPos m = (lines_end + 4)%nat.
Proof using Hparts.
  destruct (parts_positions _ _ _ _ Hparts) as (_ & -> & _). unfold lines_end, length_at, type_at, header_text.
  rewrite ctcl_text. lens. cbn. lia.
Qed.

Lemma buffer_text : exists post, mem m = (start ++ crlf_lines fs) ++ 13 :: ((10 :: n_content_type) ++ 58 :: (32 :: ct)
  ++ 13 :: ((10 :: n_content_length) ++ 58 :: (32 :: decimal (Z.of_nat n)) ++ DoubleCRLF ++ post)).
Proof using Hparts.
  destruct (parts_positions _ _ _ _ Hparts) as (_ & _ & _ & _ & spare & ->). unfold header_text. rewrite ctcl_text.
  exists (tail ++ spare). change CRLF with [13; 10]. app_simpl. done.
Qed.

Lemma end_ptr : getContentLengthValueEndPtr m = Some lines_end.
Proof using Hparts. unfold getContentLengthValueEndPtr. rewrite lines_end_body, back_sub by lia. f_equal. lia. Qed.

Lemma length_value_ptr : getContentLengthValuePtr m = Some (length_at + 18)%nat.
Proof using Hparts.
  unfold getContentLengthValuePtr. rewrite end_ptr. cbn [mbind option_bind]. unfold lines_end.
  assert (Hd : (1 <= length (decimal (Z.of_nat n)))%nat)
    by (pose proof (decimal_nonempty n); destruct (decimal (Z.of_nat n)); [done|cbn; lia]).
  rewrite back_sub by lia. cbn [mbind option_bind]. destruct buffer_text as [post ->].
  set (a := ((start ++ crlf_lines fs) ++ 13 :: (10 :: n_content_type) ++ 58 :: (32 :: ct) ++ 13 :: (10 :: n_content_length))).
  replace ((start ++ crlf_lines fs) ++ _) with (a ++ 58 :: (32 :: decimal (Z.of_nat n)) ++ DoubleCRLF ++ post)
    by (subst a; app_simpl; done).
  assert (La : length a = (length_at + 16)%nat).
  { subst a. unfold length_at, type_at. lens. lia. }
  rewrite scan_back_found.
  - cbn [mbind option_bind]. f_equal. lia.
  - constructor; [done|]. apply not_digit. lia.
  - cbn [length]. lia.
Qed.

Lemma length_line_ptr : getContentLengthHeaderLinePtr m = Some length_at.
Proof using Hparts.
  unfold getContentLengthHeaderLinePtr. rewrite end_ptr. cbn [mbind option_bind]. unfold lines_end.
  assert (Hd : (1 <= length (decimal (Z.of_nat n)))%nat)
    by (pose proof (decimal_nonempty n); destruct (decimal (Z.of_nat n)); [done|cbn; lia]).
  change (2 + length n_content_length + 2 + 1)%nat with 19%nat.
  rewrite back_sub by lia. cbn [mbind option_bind]. destruct buffer_text as [post ->].
  set (a := ((start ++ crlf_lines fs) ++ 13 :: (10 :: n_content_type) ++ 58 :: (32 :: ct))).
  replace ((start ++ crlf_lines fs) ++ _)
    with (a ++ 13 :: ((10 :: n_content_length) ++ 58 :: (32 :: decimal (Z.of_nat n))) ++ DoubleCRLF ++ post)
    by (subst a; app_simpl; done).
  assert (La : length a = length_at).
  { subst a. unfold length_at, type_at. lens. lia. }
  rewrite scan_back_found; [by rewrite La| |].
  - apply Forall_app. split; [by repeat constructor|]. constructor; [done|]. constructor; [done|]. apply not_digit. lia.
  - rewrite La. lens. lia.
Qed.

Lemma type_line_ptr : getContentTypeHeaderLinePtr m = Some type_at.
Proof using Hparts Hct.
  unfold getContentTypeHeaderLinePtr. rewrite length_line_ptr. cbn [mbind option_bind]. unfold length_at.
  destruct Hct as [Hlen Hbytes]. change ContentTypeMinLen with 7%nat in *.
  change (HeaderSize (length n_content_type) 7) with 23%nat.
  rewrite back_sub by lia. cbn [mbind option_bind]. destruct buffer_text as [post ->].
  replace ((start ++ crlf_lines fs) ++ _)
    with ((start ++ crlf_lines fs) ++ 13 :: ((10 :: n_content_type) ++ 58 :: (32 :: ct))
          ++ 13 :: ((10 :: n_content_length) ++ 58 :: (32 :: decimal (Z.of_nat n)) ++ DoubleCRLF ++ post)) by (app_simpl; done).
  rewrite scan_back_found; [done| |].
  - apply Forall_app. split; [by repeat constructor|]. constructor; [done|]. constructor; [done|].
    eapply Forall_impl; [exact Hbytes|]. by intros b (_ & ? & _).
  - unfold type_at. lens. lia.
Qed.

Lemma type_value_ptr : getContentTypeValuePtr m = Some (type_at + 16)%nat.
Proof using Hparts Hct.
  unfold getContentTypeValuePtr. rewrite length_line_ptr. cbn [mbind option_bind]. unfold length_at.
  destruct Hct as [Hlen Hbytes]. change ContentTypeMinLen with 7%nat in *.
  rewrite back_sub by lia. cbn [mbind option_bind]. destruct buffer_text as [post ->].
  set (a := ((start ++ crlf_lines fs) ++ 13 :: (10 :: n_content_type))).
  replace ((start ++ crlf_lines fs) ++ _)
    with (a ++ 58 :: (32 :: ct) ++ 13 :: ((10 :: n_content_length) ++ 58 :: (32 :: decimal (Z.of_nat n)) ++ DoubleCRLF ++ post))
    by (subst a; app_simpl; done).
  assert (La : length a = (type_at + 14)%nat).
  { subst a. unfold type_at. lens. lia. }
  rewrite scan_back_found; [cbn [mbind option_bind]; f_equal; lia| |].
  - constructor; [done|]. eapply Forall_impl; [exact Hbytes|]. by intros b (? & _).
  - cbn [length]. lia.
Qed.
End Pointers.

(** ** The header lines in the buffer *)

Lemma header_text_flat fs : header_text fs = CRLF ++ flat_lines fs ++ CRLF.
Proof. unfold header_text. change DoubleCRLF with (CRLF ++ CRLF). by rewrite app_assoc, lines_shift, <- app_assoc. Qed.

Lemma header_text_value a f b :
  header_text (a ++ f :: b) = (crlf_lines a ++ CRLF ++ fst f ++ HeaderSep) ++ snd f ++ header_text b.
Proof.
  unfold header_text. rewrite crlf_lines_app. change (crlf_lines (f :: b)) with (crlf_line f ++ crlf_lines b).
  unfold crlf_line, WriteCRLFHeader, WriteHeader. app_simpl. done.
Qed.

Lemma header_text_app a b : header_text (a ++ b) = crlf_lines a ++ header_text b.
Proof. unfold header_text. by rewrite crlf_lines_app, <- app_assoc. Qed.

Lemma first_named key (l : list field) :
  (exists a f b, l = a ++ f :: b /\ Forall (fun f => named key f = false) a /\ named key f = true)
  \/ Forall (fun f => named key f = false) l.
Proof.
  induction l as [|f l IH]; [by right|]. destruct (named key f) eqn:E; [left; by exists [], f, l|].
  destruct IH as [(a & g & b & -> & Ha & Hg)|H]; [left|right; by constructor]. exists (f :: a), g, b. split; [done|]. split; [by constructor|done].
Qed.

Lemma last_named key (l : list field) :
  (exists a f b, l = a ++ f :: b /\ Forall (fun f => named key f = false) b /\ named key f = true)
  \/ Forall (fun f => named key f = false) l.
Proof.
  destruct (first_named key (rev l)) as [(a & f & b & E & Ha & Hf)|H].
  - left. exists (rev b), f, (rev a). split; [|split; [by apply Forall_rev|done]].
    rewrite <- (rev_involutive l), E, rev_app_distr. cbn. by rewrite <- app_assoc.
  - right. rewrite <- (rev_involutive l). by apply Forall_rev.
Qed.

Section Lines.
Context (m : HttpMessage) (start : bytes) (fs : list field) (tail : bytes).
Hypothesis (Hparts : Parts m start (header_text fs) tail).

Lemma flat_view : headersFlatView m = (length (start ++ CRLF), length ((start ++ CRLF) ++ flat_lines fs)).
Proof using Hparts.
  destruct (parts_positions _ _ _ _ Hparts) as (E1 & E2 & _). unfold headersFlatView. rewrite E1, E2, header_text_flat.
  rewrite !length_app. cbn. f_equal; lia.
Qed.

Lemma lines_memory : exists post, mem m = (start ++ CRLF) ++ flat_lines fs ++ CRLF ++ post.
Proof using Hparts.
  destruct (parts_positions _ _ _ _ Hparts) as (_ & _ & _ & _ & spare & ->). rewrite header_text_flat.
  exists (tail ++ spare). by rewrite <- !app_assoc.
Qed.

Lemma find_header_found a f b key :
  fs = a ++ f :: b -> Forall readable fs -> bytes_ok key -> Forall (fun f => named key f = false) a -> named key f = true ->
  let p := (length (start ++ crlf_lines a) + length (fst f) + 4)%nat in
  find_header key m = Some (Some (p, (p + length (snd f))%nat)).
Proof using Hparts.
  intros E Hr Hk Ha Hf p. unfold find_header. rewrite flat_view. destruct lines_memory as [post Em]. rewrite Em, E in *.
  rewrite (linear_search_found _ _ (start ++ CRLF) a f b (CRLF ++ post)) by
    (done || (rewrite !length_app; pose proof (flat_lines_length (a ++ f :: b)) as H; rewrite !length_app in H; cbn in *; lia)).
  assert (El : length (flat_lines a) = length (crlf_lines a))
    by (pose proof (f_equal length (lines_shift a)) as El; rewrite !length_app in El; cbn in El; lia).
  subst p. rewrite !length_app, El. cbn. do 3 f_equal; lia.
Qed.

Lemma find_header_none key :
  Forall readable fs -> bytes_ok key -> Forall (fun f => named key f = false) fs -> find_header key m = Some None.
Proof using Hparts.
  intros Hr Hk Hno. unfold find_header. rewrite flat_view. destruct lines_memory as [post Em]. rewrite Em.
  apply (linear_search_none _ _ (start ++ CRLF) fs (CRLF ++ post)); try done.
  rewrite !length_app. pose proof (flat_lines_length fs). lia.
Qed.
End Lines.

(** The operations on the status line and on the header lines of a message do to its buffer
    what they do to the response it represents. *)

(** ** Names and values *)

Definition all_bytes (f : Z -> bool) : bool := forallb f (seqZ 0 256).

Lemma all_bytes_spec f c : all_bytes f = true -> byte_ok c -> f c = true.
Proof. unfold all_bytes. rewrite forallb_forall. intros H Hc. apply H, list_elem_of_In, elem_of_seqZ. unfold byte_ok in Hc. lia. Qed.

Lemma tchar_plain c : byte_ok c -> is_tchar c = true -> c <> 58 /\ c <> 10 /\ c <> 13 /\ c <> 32.
Proof.
  intros Hc Ht. assert (H : all_bytes (fun c => negb (is_tchar c) || negb ((c =? 58) || (c =? 10) || (c =? 13) || (c =? 32))) = true)
    by (vm_compute; reflexivity).
  pose proof (all_bytes_spec _ c H Hc) as H'. cbv beta in H'. rewrite Ht in H'. cbn [negb orb] in H'. lia.
Qed.

Lemma valid_name_readable k v :
  IsValidHeaderName k = true -> bytes_ok k -> IsValidHeaderValue v = true -> readable (k, v).
Proof.
  unfold IsValidHeaderName, IsValidHeaderValue. rewrite andb_true_iff, negb_true_iff, bool_decide_eq_false, !forallb_forall.
  intros [Hne Ht] Hk Hv. assert (Hp : Forall (fun c => c <> 58 /\ c <> 10 /\ c <> 13 /\ c <> 32) k).
  { apply Forall_forall. intros c Hc. apply tchar_plain.
    - unfold bytes_ok in Hk. rewrite Forall_forall in Hk. by apply Hk.
    - by apply Ht, list_elem_of_In. }
  split; [done|]. split; [done|]. cbn [fst snd]. split; [|split].
  - eapply Forall_impl; [exact Hp|]. cbn. tauto.
  - eapply Forall_impl; [exact Hp|]. cbn. tauto.
  - apply Forall_forall. intros c Hc ->. specialize (Hv 10). by discriminate Hv; apply list_elem_of_In.
Qed.

Lemma tolower_c c : tolower c = 99 -> c = 99 \/ c = 67.
Proof.
  unfold tolower. destruct ((65 <=? c) && (c <=? 90)) eqn:E; [|by left]. intros H.
  assert (Hc : byte_ok c) by (unfold byte_ok; lia).
  assert (Hall : all_bytes (fun c => negb (Z.lor c 32 =? 99) || (c =? 99) || (c =? 67)) = true) by (vm_compute; reflexivity).
  pose proof (all_bytes_spec _ c Hall Hc) as H'. cbv beta in H'. rewrite H in H'. cbn in H'. lia.
Qed.

Lemma check_none_not_framing key v b :
  bytes_ok key -> CheckContentTypeLengthEncoding key b = None -> not_framing (key, v).
Proof.
  intros Hk. unfold CheckContentTypeLengthEncoding, not_framing, named. cbn [fst].
  assert (Hc : forall name rest, name = 99 :: rest -> bytes_ok name -> CaseInsensitiveEqual key name = true ->
             (byte_at key 0 =? 99) || (byte_at key 0 =? 67) = true /\ length key = length name).
  { intros name rest -> Hn H. apply CaseInsensitiveEqual_iff in H; [|done..]. pose proof (f_equal (@length Z) H) as Hlen.
    rewrite !length_map in Hlen. split; [|done]. destruct key as [|c key]; [done|].
    injection H as Hc _. change (tolower 99) with 99 in Hc. apply tolower_c in Hc. unfold byte_at. cbn [nth].
    apply orb_true_iff. rewrite !Z.eqb_eq. exact Hc. }
  destruct (CaseInsensitiveEqual key n_content_type) eqn:E1.
  { destruct (Hc n_content_type _ eq_refl ltac:(by vm_compute; repeat constructor) E1) as [-> ->]. rewrite Nat.eqb_refl. done. }
  destruct (CaseInsensitiveEqual key n_content_length) eqn:E2; [|done].
  destruct (Hc n_content_length _ eq_refl ltac:(by vm_compute; repeat constructor) E2) as [-> ->]. done.
Qed.

(** ** Lines in the buffer *)

Section Lines.
Context (garbage : Z).

Lemma override_parts m start fs tail a f b key value :
  Parts m start (header_text fs) tail -> fs = a ++ f :: b -> Forall readable fs -> bytes_ok key ->
  Forall (fun f => named key f = false) a -> named key f = true ->
  pos_ok (length start) (length (start ++ header_text (a ++ (fst f, TrimOws value) :: b))) ->
  exists first last m', find_header key m = Some (Some (first, last))
    /\ overrideHeaderUnchecked garbage first last value m = Some m'
    /\ Parts m' start (header_text (a ++ (fst f, TrimOws value) :: b)) tail /\ same_rest m m'.
Proof.
  intros H E Hr Hk Ha Hf Hp.
  pose proof (find_header_found m start fs tail H a f b key E Hr Hk Ha Hf) as Efind. cbv zeta in Efind.
  do 2 eexists. set (y := TrimOws value) in *. subst fs. rewrite header_text_value in H.
  rewrite header_text_value in Hp |- *. cbn [fst snd] in *. set (h1 := crlf_lines a ++ CRLF ++ fst f ++ HeaderSep) in *.
  assert (Ep : length (start ++ h1) = (length (start ++ crlf_lines a) + length (fst f) + 4)%nat)
    by (subst h1; lens; cbn; lia).
  rewrite <- Ep in Efind.
  cut (exists m1 m', same_rest m m1
         /\ overrideHeaderUnchecked garbage (length (start ++ h1)) (length (start ++ h1) + length (snd f)) value m = Some m'
         /\ edited m1 m' start (h1 ++ y ++ header_text b) tail).
  { intros (m1 & m' & Hs1 & Eo & Hp' & Hs & _). exists m'. repeat (split; [done|]). by eapply same_rest_trans. }
  unfold overrideHeaderUnchecked. fold y. replace (length (start ++ h1) + length (snd f) - length (start ++ h1))%nat with (length (snd f)) by lia.
  change (Z.of_nat (length y) - Z.of_nat (length (snd f))) with (grown (snd f) y).
  destruct (Z.eqb_spec (grown (snd f) y) 0) as [Ed|Ed].
  - destruct (overwrite_parts m start h1 (snd f) (header_text b) tail y H) as (m' & Em & He); [unfold grown in Ed; lia|].
    by exists m, m'.
  - set (m1 := if 0 <? grown (snd f) y then mensure_exp garbage (Z.to_nat (grown (snd f) y)) m else m).
    assert (Hm1 : Parts m1 start (h1 ++ snd f ++ header_text b) tail /\ same_rest m m1
                  /\ (length (start ++ h1) + length y + length (header_text b ++ tail) <= capacity (hm_data m1))%nat).
    { subst m1. destruct (Z.ltb_spec 0 (grown (snd f) y)) as [Hg|Hg].
      - destruct (mensure_exp_parts garbage (Z.to_nat (grown (snd f) y)) m _ _ _ H) as (H1 & Hs & Hc). split; [done|]. split; [done|].
        unfold grown in *. rewrite !length_app in *. lia.
      - split; [done|]. split; [done|]. destruct (parts_positions _ _ _ _ H) as (_ & _ & Es & Hle & _).
        unfold grown in *. rewrite Es, !length_app in *. lia. }
    destruct Hm1 as (H1 & Hs1 & Hc). destruct (splice_write m1 start h1 (snd f) (header_text b) tail y H1 Hc Hp) as (m' & Em & He).
    exists m1, m'. split; [done|]. split; [|done]. rewrite <- Em. destruct (parts_positions _ _ _ _ H1) as (_ & _ & Es & _).
    do 2 f_equal. rewrite Es, !length_app. lia.
Qed.

Lemma append_parts m start fs tail a f b key value sep :
  Parts m start (header_text fs) tail -> fs = a ++ f :: b -> Forall readable fs -> bytes_ok key ->
  Forall (fun f => named key f = false) a -> named key f = true ->
  pos_ok (length start) (length (start ++ header_text (a ++ (fst f, snd f ++ sep ++ TrimOws value) :: b))) ->
  exists m', headerAppendValue garbage key value sep m = Some (Returns m')
    /\ Parts m' start (header_text (a ++ (fst f, snd f ++ sep ++ TrimOws value) :: b)) tail /\ same_rest m m'.
Proof.
  intros H E Hr Hk Ha Hf Hp. unfold headerAppendValue.
  rewrite (find_header_found m start fs tail H a f b key E Hr Hk Ha Hf). cbn [mbind option_bind].
  set (y := sep ++ TrimOws value) in *. rewrite <- length_app. fold y. subst fs. rewrite header_text_value in H.
  rewrite header_text_value in Hp |- *. cbn [fst snd] in *. set (h0 := crlf_lines a ++ CRLF ++ fst f ++ HeaderSep) in *.
  assert (Ep : (length (start ++ crlf_lines a) + length (fst f) + 4 + length (snd f))%nat = length (start ++ h0 ++ snd f))
    by (subst h0; lens; cbn; lia).
  rewrite Ep. destruct (Nat.eqb_spec (length y) 0) as [Ey|Ey].
  - exists m. split; [done|]. split; [|done]. apply nil_length_inv in Ey. by rewrite Ey, app_nil_r.
  - assert (H0 : Parts m start ((h0 ++ snd f) ++ header_text b) tail) by by rewrite <- app_assoc.
    destruct (mensure_exp_parts garbage (length y) m _ _ _ H0) as (H1 & Hs & Hc).
    assert (Hp1 : pos_ok (length start) (length (start ++ (h0 ++ snd f) ++ y ++ header_text b))) by (revert Hp; by rewrite <- !app_assoc).
    destruct (splice_insert _ start (h0 ++ snd f) (header_text b) tail y (length y) H1 eq_refl) as (m' & Em & Hp' & Hs' & _);
      [rewrite !length_app in *; lia|done|].
    exists m'. split.
    + rewrite app_assoc. destruct (parts_positions _ _ _ _ H0) as (_ & _ & Es & _).
      replace (msize m - length ((start ++ h0) ++ snd f))%nat with (length (header_text b ++ tail)) by (rewrite Es, !length_app; lia).
      rewrite <- app_assoc. by rewrite Em.
    + split; [|by eapply same_rest_trans]. revert Hp'. by rewrite <- !app_assoc.
Qed.

Lemma length_crlf_line key value : length (WriteCRLFHeader key value) = HeaderSize (length key) (length value).
Proof. unfold WriteCRLFHeader, WriteHeader, HeaderSize. lens. cbn. lia. Qed.

Lemma header_text_insert a f b : header_text (a ++ f :: b) = crlf_lines a ++ crlf_line f ++ header_text b.
Proof. rewrite header_text_app. change (f :: b) with ([f] ++ b). rewrite header_text_app. cbn [crlf_lines map concat]. by rewrite app_nil_r. Qed.

(** The line goes before the header lines of the body. *)
Lemma add_line_parts m start fs bf tail key value :
  Parts m start (header_text (fs ++ bf)) tail ->
  (if Nat.eqb (bodyLength m) 0 then bf = [] /\ tail = [] else exists ct n, bf = length_fields ct n /\ type_ok ct) ->
  pos_ok (length start) (length (start ++ header_text (fs ++ (key, value) :: bf))) ->
  exists m', headerAddLineUnchecked garbage key value m = Some m'
    /\ Parts m' start (header_text (fs ++ (key, value) :: bf)) tail /\ same_rest m m'.
Proof.
  intros H Hb Hp. unfold headerAddLineUnchecked. cbv zeta. set (line := crlf_line (key, value)).
  assert (El : HeaderSize (length key) (length value) = length line) by (symmetry; apply length_crlf_line).
  rewrite El. change (WriteCRLFHeader key value) with line. rewrite header_text_insert in Hp |- *. fold line in Hp |- *.
  rewrite header_text_app in H. destruct (mensure_exp_parts garbage (length line) m _ _ _ H) as (H1 & Hs1 & Hc).
  set (m1 := mensure_exp garbage (length line) m) in *.
  assert (Ebl : bodyLength m1 = bodyLength m).
  { destruct (parts_positions _ _ _ _ H) as (_ & E1 & E2 & _). destruct (parts_positions _ _ _ _ H1) as (_ & E3 & E4 & _).
    unfold bodyLength, bodyInMemoryLength, hasBodyCaptured, bodyInlinedLength, trailersSize. destruct Hs1 as [-> ->]. by rewrite E1, E2, E3, E4. }
  rewrite Ebl. destruct (parts_positions _ _ _ _ H1) as (_ & Eb & Es & _ & spare & Em).
  rewrite Eb, back_sub by (rewrite !length_app; unfold header_text; rewrite length_app; cbn; lia). cbn [mbind option_bind].
  destruct (splice_insert m1 start (crlf_lines fs) (header_text bf) tail line (length line) H1 eq_refl) as (m' & Em' & Hp' & Hs' & _);
    [rewrite !length_app in *; lia|done|].
  exists m'. split; [|split; [done|by eapply same_rest_trans]]. rewrite <- Em'. destruct (Nat.eqb_spec (bodyLength m) 0) as [E0|E0].
  - destruct Hb as [-> ->]. change (header_text []) with DoubleCRLF in *. rewrite app_nil_r in *.
    replace (length (start ++ crlf_lines fs ++ DoubleCRLF) - 4)%nat with (length (start ++ crlf_lines fs)) by (rewrite !length_app; cbn; lia).
    unfold mmove, mpoke, on_data. rewrite (memmove_memory _ _ _ _ DoubleCRLF spare (start ++ crlf_lines fs));
      [|unfold mem in Em; by rewrite Em, <- !app_assoc|done|done].
    destruct (poke _ _ _); done.
  - destruct Hb as (ct & n & -> & Hct). rewrite <- header_text_app in H1.
    rewrite (type_line_ptr m1 start fs ct n tail H1 Hct). cbn [mbind option_bind]. unfold type_at.
    replace (msize m1 - length (start ++ crlf_lines fs))%nat with (length (header_text (length_fields ct n) ++ tail))
      by (rewrite Es, !length_app; lia).
    destruct (mmove _ _ _ _); done.
Qed.

(** A line is taken out, with the blank after its name and the end of line. *)
Lemma erase_parts m (start : bytes) a (f : field) b tail (key : bytes) first :
  Parts m start (header_text (a ++ f :: b)) tail -> length key = length (fst f) ->
  first = (length (start ++ CRLF) + length (flat_lines a) + length (fst f) + 2)%nat ->
  exists dest m', back first (length key + 2) = Some dest
    /\ erase_range dest (first + length (snd f) + 2) m = Some m'
    /\ Parts m' start (header_text (a ++ b)) tail /\ same_rest m m'.
Proof.
  intros H Ek ->. rewrite header_text_flat, flat_lines_app in H. change (flat_lines (f :: b)) with (field_line f ++ flat_lines b) in H.
  assert (H0 : Parts m start ((CRLF ++ flat_lines a) ++ field_line f ++ (flat_lines b ++ CRLF)) tail) by (revert H; by rewrite <- !app_assoc).
  rewrite back_sub by lia. eexists _. edestruct (splice_erase m start _ _ _ _ _ _ H0 eq_refl eq_refl) as (m' & Em & Hp' & Hs & _).
  exists m'. split; [done|]. split; [|split; [|done]].
  - rewrite <- Em. rewrite size_of_field_line. f_equal; rewrite !length_app; lia.
  - rewrite header_text_flat, flat_lines_app. revert Hp'. by rewrite <- !app_assoc.
Qed.
End Lines.
