(* ===== verification/HttpMessageFields.v ===== *)
(** The operations on the header lines, then those on the status line, refine those on
    responses. *)

From S2P Require Import Prelude.
From S2P Require Import AsciiCase.
From S2P Require Import HeadersView.
From S2P Require Import UrlCodec.
From S2P Require Import Cors.
From S2P Require Import RoutePattern.
From S2P Require Import ResponseParser.
From S2P Require Import TimeString.
From S2P Require Import RawChars.
From S2P Require Import HttpMessage.
From S2P Require Import HttpMessageSpec.
From S2P Require Import HttpMessageRepr.
Local Open Scope Z_scope.

(** ** Refinement *)

(** The operation returns a message of the response, as long as it is not too big, or throws
    the same exception and leaves the message. *)
Definition refines (o : Options) (m : HttpMessage) (effect : option Effect) (r : Outcome Response) : Prop :=
  match r with
  | Ret a => size_ok a -> exists m', effect = Some (Returns m') /\ Repr o m' a
  | Throw what => effect = Some (Throws what m)
  end.

Lemma start_length a start : start_of a start -> length start = (length (a_reason a) + 50)%nat.
Proof.
  intros (v & date & -> & Lv & Ld & _). rewrite !length_app, Lv, Ld. change kDateHeaderLenWithCRLF with 37%nat.
  cbn [length code_digits]. lia.
Qed.

Lemma size_pos_ok a start :
  wf a -> start_of a start -> pos_ok (length start) (length (start ++ header_text (all_fields a))).
Proof.
  intros (_ & Hr & _ & _ & _ & _ & _ & _ & Hs) Hst. unfold pos_ok. rewrite length_app, (start_length a) by done.
  unfold size_ok, zlen in Hs.
  assert (Hk : Z.of_nat kMaxReasonLength = 2 ^ 24 - 51) by (unfold kMaxReasonLength; rewrite Z2Nat.id; vm_compute; congruence).
  split; lia.
Qed.

Lemma with_fields_wf fs enc a :
  wf a -> Forall (fun f => readable f /\ not_framing f) fs ->
  (enc = true -> Exists (fun f => named n_content_encoding f = true) fs) ->
  size_ok (with_fields fs enc a) -> wf (with_fields fs enc a).
Proof. intros (H1 & H2 & H3 & _ & _ & H6 & H7 & H8 & _) Hf He Hs. by do 8 (split; [done|]). Qed.

(** The header lines have changed, the rest of the message has not. *)
Lemma fields_repr o m m' a fs enc start :
  hm_payload m = payload_of a -> hm_opts m = options_of o a -> start_of a start -> wf (with_fields fs enc a) ->
  Parts m' start (header_text (fs ++ body_fields (a_body a))) (inline_text a) -> same_rest m m' ->
  Repr o (if Bool.eqb enc (a_encoded a) then m' else set_hasContentEncoding enc m') (with_fields fs enc a).
Proof.
  intros Ep Eo Hs Hw Hp [Sp So]. exists start. rewrite Ep in Sp. rewrite Eo in So. destruct (Bool.eqb_spec enc (a_encoded a)) as [->|Hne].
  - by repeat (split; [done|]).
  - split; [done|]. split; [done|]. split; [done|]. split; [|done]. unfold set_hasContentEncoding. cbn [set_opts hm_opts].
    by rewrite So.
Qed.

Section Fields.
Context (garbage : Z) (o : Options).

Lemma add_line_refines m a key value :
  Repr o m a -> bytes_ok key -> CaseInsensitiveEqual key (str "date") = false ->
  refines o m (headerAddLine garbage key value m) (add_line key value a).
Proof.
  intros H Hk Hd. unfold headerAddLine, add_line. rewrite (repr_httpRequest _ _ _ H), Hd, (repr_hasBody _ _ _ H). cbn [negb andb].
  destruct (IsValidHeaderName key) eqn:En; [|done]. cbn [negb]. destruct (IsValidHeaderValue (TrimOws value)) eqn:Ev; [|done]. cbn [negb].
  destruct (CheckContentTypeLengthEncoding _ _) eqn:Ec; [done|]. intros Hsz.
  pose proof (repr_bodyLength _ _ _ H) as Hbl. destruct H as (start & Hp & Hs & Epay & Eo & Hw).
  set (v := TrimOws value) in *. set (enc := a_encoded a || CaseInsensitiveEqual key n_content_encoding) in *.
  assert (Hw' : wf (with_fields (a_fields a ++ [(key, v)]) enc a)).
  { apply with_fields_wf; [done| | |done].
    - apply Forall_app. split; [apply Hw|]. constructor; [|done]. split; [by apply valid_name_readable|by eapply check_none_not_framing].
    - intros He. apply Exists_app. subst enc. apply orb_true_iff in He as [He|He]; [left|right; by constructor].
      destruct Hw as (_ & _ & _ & _ & Hw & _). by apply Hw. }
  pose proof (size_pos_ok _ start Hw' Hs) as Hpos. unfold all_fields in Hp, Hpos. cbn [with_fields a_fields a_body] in Hpos.
  rewrite <- app_assoc in Hpos.
  destruct (add_line_parts garbage m start (a_fields a) (body_fields (a_body a)) (inline_text a) key v Hp) as (m' & Em & Hp' & Hs').
  - rewrite Hbl. pose proof (body_data_nonempty _ Hw) as Hne. destruct Hw as (_ & _ & _ & _ & _ & Hb & _). unfold body_wf in Hb.
    unfold body_fields, inline_text. destruct (a_body a) as [|ct d|ct d|ct n]; [done|..];
      (rewrite (proj2 (Nat.eqb_neq _ _)) by (by apply Hne)); cbn [has_body]; do 2 eexists; (split; [done|tauto]).
  - exact Hpos.
  - rewrite Em. cbn [mbind option_bind]. eexists. split; [done|].
    pose proof (fields_repr o m m' a (a_fields a ++ [(key, v)]) enc start Epay Eo Hs Hw') as Hf. rewrite <- app_assoc in Hf.
    specialize (Hf Hp' Hs'). subst enc. destruct (CaseInsensitiveEqual key n_content_encoding).
    + rewrite orb_true_r in *. destruct (a_encoded a) eqn:Ee; [|done]. cbn [Bool.eqb] in Hf.
      assert (Es : set_hasContentEncoding true m' = m'); [|by rewrite Es].
      destruct Hs' as [_ So]. rewrite Eo in So. unfold set_hasContentEncoding. destruct m' as [d b p op]. cbn in So. rewrite So.
      unfold options_of. cbn. by rewrite Ee.
    + rewrite orb_false_r in *. by rewrite Bool.eqb_reflx in Hf.
Qed.

Lemma change_first_found key change a f b :
  Forall (fun f => named key f = false) a -> named key f = true ->
  change_first key change (a ++ f :: b) = a ++ (fst f, change (snd f)) :: b.
Proof. induction 1 as [|g a Hg Ha IH]; intros Hf; cbn [app change_first]; [by rewrite Hf|]. rewrite Hg. f_equal. by apply IH. Qed.

Lemma existsb_none key l : Forall (fun f => named key f = false) l -> existsb (named key) l = false.
Proof. induction 1 as [|f l Hf Hl IH]; [done|]. cbn. by rewrite Hf. Qed.

Lemma existsb_found key a f b : named key f = true -> existsb (named key) (a ++ f :: b) = true.
Proof. intros H. rewrite existsb_app. cbn. rewrite H. by rewrite orb_true_r. Qed.

(** Another value under the same name changes nothing else. *)
Lemma change_value_wf a x f y v :
  wf a -> a_fields a = x ++ f :: y -> no_crlf v -> size_ok (with_fields (x ++ (fst f, v) :: y) (a_encoded a) a) ->
  wf (with_fields (x ++ (fst f, v) :: y) (a_encoded a) a).
Proof.
  intros Hw E Hv Hs. apply with_fields_wf; [done| | |done].
  - destruct Hw as (_ & _ & _ & Hf & _). rewrite E in Hf. apply Forall_app in Hf as [Hx Hy]. apply Forall_cons in Hy as [[Hr Hn] Hy].
    apply Forall_app. split; [done|]. constructor; [|done]. split; [|exact Hn]. by destruct Hr as (? & ? & ? & ? & _).
  - intros He. destruct Hw as (_ & _ & _ & _ & Hw & _). specialize (Hw He). rewrite E in Hw. apply Exists_app in Hw as [Hx|Hy].
    + apply Exists_app. by left.
    + apply Exists_app. right. inversion Hy; subst; [by left|by right].
Qed.

Lemma valid_value_no_crlf v : IsValidHeaderValue v = true -> no_crlf v.
Proof.
  unfold IsValidHeaderValue. rewrite forallb_forall. intros H. apply Forall_forall. intros c Hc ->.
  specialize (H 10). by discriminate H; apply list_elem_of_In.
Qed.

(** A name that finds a line of the body is refused. *)
Lemma framing_refused key ct n f b :
  In f (length_fields ct n) -> bytes_ok key -> named key f = true -> CheckContentTypeLengthEncoding key b <> None.
Proof.
  intros Hin Hk Hf Hc. apply (check_none_not_framing key []) in Hc; [|done]. unfold not_framing, named in *. cbn [fst] in Hc.
  destruct Hc as [H1 H2]. destruct Hin as [<-|[<-|[]]]; cbn [fst] in Hf.
  - apply CaseInsensitiveEqual_iff in Hf; [|by vm_compute; repeat constructor|done]. symmetry in Hf.
    apply CaseInsensitiveEqual_iff in Hf; [congruence|done|by vm_compute; repeat constructor].
  - apply CaseInsensitiveEqual_iff in Hf; [|by vm_compute; repeat constructor|done]. symmetry in Hf.
    apply CaseInsensitiveEqual_iff in Hf; [congruence|done|by vm_compute; repeat constructor].
Qed.

Lemma set_header_refines m a key value :
  Repr o m a -> bytes_ok key -> CaseInsensitiveEqual key (str "date") = false ->
  (existsb (named key) (a_fields a) = true -> IsValidHeaderValue (TrimOws value) = true) ->
  refines o m (header garbage key value m) (set_header key value a).
Proof.
  intros H Hk Hd Hv. pose proof H as HR. pose proof (repr_hasBody _ _ _ H) as Hb. destruct H as (start & Hp & Hs & Epay & Eo & Hw).
  pose proof (all_fields_readable a Hw) as Hr. unfold header, set_header.
  destruct (first_named key (all_fields a)) as [(x & f & y & E & Hx & Hf)|Hno].
  - pose proof (find_header_found m start _ _ Hp x f y key E Hr Hk Hx Hf) as Efind. cbv zeta in Efind. rewrite Efind.
    cbn [mbind option_bind]. rewrite Hb. rewrite E, existsb_found by done.
    destruct (CheckContentTypeLengthEncoding key _) eqn:Ec; [done|]. intros Hsz.
    assert (Hin : exists y', a_fields a = x ++ f :: y' /\ y = y' ++ body_fields (a_body a)).
    { unfold all_fields in E. apply app_eq_inv in E as [(k & Ex & Ey)|(k & Ex & Ey)].
      - destruct k as [|g k]; [exfalso|].
        + unfold body_fields in Ey. destruct (has_body (a_body a)) eqn:Eh; [|done].
          eapply (framing_refused key _ _ f); [cbn [app] in Ey; rewrite <- Ey; by left|done|done|exact Ec].
        + injection Ey as <- Ey. by exists k.
      - exfalso. unfold body_fields in Ey. destruct (has_body (a_body a)) eqn:Eh; [|by destruct k].
        eapply (framing_refused key _ _ f); [rewrite Ey; apply in_app_iff; right; by left|done|done|exact Ec]. }
    destruct Hin as (y' & Ef & ->). rewrite Ef in *. rewrite change_first_found in * by done.
    rewrite existsb_found in Hv by done. specialize (Hv eq_refl).
    assert (Hw' : wf (with_fields (x ++ (fst f, TrimOws value) :: y') (a_encoded a) a))
      by (apply change_value_wf; [done|done|by apply valid_value_no_crlf|done]).
    pose proof (size_pos_ok _ start Hw' Hs) as Hpos. unfold all_fields in Hpos. cbn [with_fields a_fields a_body] in Hpos.
    rewrite <- app_assoc in Hpos.
    destruct (override_parts garbage m start _ _ x f _ key value Hp E Hr Hk Hx Hf Hpos) as (first & last & m' & Efind' & Em & Hp' & Hs').
    rewrite Efind in Efind'. injection Efind' as <- <-. rewrite Em. cbn [returns option_map].
    eexists. split; [done|].
    pose proof (fields_repr o m m' a _ (a_encoded a) start Epay Eo Hs Hw') as Hfr. rewrite Bool.eqb_reflx, <- app_assoc in Hfr. by apply Hfr.
  - rewrite (find_header_none m start _ _ Hp key Hr Hk Hno). rewrite existsb_none by done. by apply add_line_refines.
Qed.

Lemma CaseInsensitiveEqual_sym x y : bytes_ok x -> bytes_ok y -> CaseInsensitiveEqual x y = CaseInsensitiveEqual y x.
Proof. intros Hx Hy. apply Bool.eq_iff_eq_true. by rewrite !CaseInsensitiveEqual_iff by done. Qed.

Lemma CaseInsensitiveEqual_trans x y z :
  bytes_ok x -> bytes_ok y -> bytes_ok z -> CaseInsensitiveEqual x y = true ->
  CaseInsensitiveEqual x z = CaseInsensitiveEqual y z.
Proof.
  intros Hx Hy Hz H. apply Bool.eq_iff_eq_true. rewrite CaseInsensitiveEqual_iff in H by done. rewrite !CaseInsensitiveEqual_iff by done.
  by rewrite H.
Qed.

(** A name that is none of the body's. *)
Definition plain_name (key : bytes) : Prop :=
  CaseInsensitiveEqual key n_content_type = false /\ CaseInsensitiveEqual key n_content_length = false.

Lemma plain_name_body key b : bytes_ok key -> plain_name key -> Forall (fun f => named key f = false) (body_fields b).
Proof.
  intros Hk [H1 H2]. unfold body_fields, length_fields. destruct (has_body b); [|constructor].
  repeat constructor; unfold named; cbn [fst]; (rewrite CaseInsensitiveEqual_sym; [done|by vm_compute; repeat constructor|done]).
Qed.

Lemma append_value_refines m a key value sep :
  Repr o m a -> bytes_ok key -> CaseInsensitiveEqual key (str "date") = false -> plain_name key ->
  (existsb (named key) (a_fields a) = true -> IsValidHeaderValue (sep ++ TrimOws value) = true) ->
  refines o m (headerAppendValue garbage key value sep m) (append_value key value sep a).
Proof.
  intros H Hk Hd Hpl Hv. pose proof H as HR. destruct H as (start & Hp & Hs & Epay & Eo & Hw).
  pose proof (all_fields_readable a Hw) as Hr. pose proof (plain_name_body key (a_body a) Hk Hpl) as Hnb. unfold append_value.
  destruct (first_named key (a_fields a)) as [(x & f & y & E & Hx & Hf)|Hno].
  - rewrite E in Hv |- *. rewrite existsb_found in * by done. specialize (Hv eq_refl). rewrite change_first_found by done. intros Hsz.
    apply valid_value_no_crlf in Hv. set (v := snd f ++ sep ++ TrimOws value) in *.
    assert (Hfv : no_crlf (snd f)).
    { destruct Hw as (_ & _ & _ & Hfs & _). rewrite E in Hfs. apply Forall_app in Hfs as [_ Hfs]. inversion Hfs as [|? ? [(_ & _ & _ & _ & ?) _] _]. done. }
    assert (Hw' : wf (with_fields (x ++ (fst f, v) :: y) (a_encoded a) a))
      by (apply change_value_wf; [done|done|by apply Forall_app|done]).
    pose proof (size_pos_ok _ start Hw' Hs) as Hpos. unfold all_fields in Hpos. cbn [with_fields a_fields a_body] in Hpos.
    rewrite <- app_assoc in Hpos. assert (E' : all_fields a = x ++ f :: y ++ body_fields (a_body a))
      by (unfold all_fields; by rewrite E, <- app_assoc).
    destruct (append_parts garbage m start _ _ x f _ key value sep Hp E' Hr Hk Hx Hf Hpos) as (m' & Em & Hp' & Hs').
    rewrite Em. eexists. split; [done|].
    pose proof (fields_repr o m m' a _ (a_encoded a) start Epay Eo Hs Hw') as Hfr. rewrite Bool.eqb_reflx, <- app_assoc in Hfr. by apply Hfr.
  - unfold headerAppendValue. rewrite (find_header_none m start _ _ Hp key Hr Hk) by by apply Forall_app.
    cbn [mbind option_bind]. rewrite existsb_none by done. by apply add_line_refines.
Qed.

Lemma remove_last_found key a f b :
  Forall (fun f => named key f = false) b -> named key f = true -> remove_last key (a ++ f :: b) = a ++ b.
Proof.
  intros Hb Hf. unfold remove_last. rewrite rev_app_distr. cbn [rev]. rewrite <- app_assoc. cbn [app].
  assert (E : remove_first key (rev b ++ f :: rev a) = rev b ++ rev a).
  { apply Forall_rev in Hb. induction Hb as [|g l Hg Hl IH]; cbn [app remove_first]; [unfold named in Hf; by rewrite Hf|].
    unfold named in Hg. rewrite Hg. by f_equal. }
  rewrite E, rev_app_distr. by rewrite !rev_involutive.
Qed.

(** The last line of a name that is not there is nothing. *)
Lemma reverse_lookup m start fs bf tail key :
  Parts m start (header_text (fs ++ bf)) tail -> Forall readable fs -> bytes_ok key ->
  let first := (length start + 2)%nat in let last := length ((start ++ CRLF) ++ flat_lines fs) in
  (exists a f b, fs = a ++ f :: b /\ Forall (fun f => named key f = false) b /\ named key f = true
     /\ HeadersReverseLinearSearch (mem m) first last key
        = let p := (length (start ++ CRLF) + length (flat_lines a) + length (fst f) + 2)%nat in Some (Some (p, (p + length (snd f))%nat)))
  \/ Forall (fun f => named key f = false) fs /\ HeadersReverseLinearSearch (mem m) first last key = Some None.
Proof.
  intros H Hr Hk first last. destruct (lines_memory m start _ tail H) as [post Em]. rewrite flat_lines_app in Em.
  assert (Ec : start ++ CRLF = (start ++ [13]) ++ [10]) by by rewrite <- app_assoc.
  assert (Ef : first = S (length (start ++ [13]))) by (subst first; rewrite length_app; cbn; lia).
  assert (Em' : mem m = ((start ++ [13]) ++ [10]) ++ flat_lines fs ++ (flat_lines bf ++ CRLF ++ post)) by (rewrite Em, Ec; by rewrite <- !app_assoc).
  destruct (last_named key fs) as [(x & f & y & E & Hy & Hf)|Hno]; [left; exists x, f, y|right].
  - split; [done|]. split; [done|]. split; [done|]. subst last. rewrite E in Em', Hr |- *. apply Forall_app in Hr as [_ Hr].
    rewrite (reverse_search_found _ (start ++ [13]) x f y (flat_lines bf ++ CRLF ++ post)); try done.
    + rewrite !length_app. cbn [length]. do 3 f_equal; cbn; lia.
    + intros ->. inversion Hr as [|? ? (Hne & _) _]. unfold named in Hf. destruct (fst f) as [|c w] eqn:Efst; [done|].
      apply CaseInsensitiveEqual_iff in Hf; [done| |constructor]. inversion Hr as [|? ? (_ & Hok & _) _]. by rewrite <- Efst.
    + by rewrite Ec.
  - split; [done|]. eapply (reverse_search_none _ (start ++ [13]) fs (flat_lines bf ++ CRLF ++ post)); try done.
    subst last. by rewrite Ec.
Qed.

Lemma remove_wf x f y a key :
  wf a -> a_fields a = x ++ f :: y -> bytes_ok key -> named key f = true ->
  size_ok (with_fields (x ++ y) (a_encoded a && negb (CaseInsensitiveEqual key n_content_encoding)) a) ->
  wf (with_fields (x ++ y) (a_encoded a && negb (CaseInsensitiveEqual key n_content_encoding)) a).
Proof.
  intros Hw E Hk Hf Hs. pose proof Hw as (_ & _ & _ & Hr & He & _). rewrite E in Hr, He. apply Forall_app in Hr as [Hx Hr].
  apply Forall_cons in Hr as [[(_ & Hok & _) _] Hy]. apply with_fields_wf; [done|by apply Forall_app| |done].
  rewrite andb_true_iff, negb_true_iff. intros [He' Hne]. specialize (He He'). apply Exists_app in He as [He|He].
  - apply Exists_app. by left.
  - apply Exists_app. right. inversion He as [? ? Hn|? ? Hn]; subst; [exfalso|done]. unfold named in *.
    rewrite (CaseInsensitiveEqual_trans _ key) in Hn; [congruence|done|done|by vm_compute; repeat constructor|done].
Qed.

Lemma remove_line_refines m a key :
  Repr o m a -> bytes_ok key -> refines o m (headerRemoveLine key m) (remove_line key a).
Proof.
  intros H Hk. pose proof (repr_hasBody _ _ _ H) as Hb. pose proof (repr_httpRequest _ _ _ H) as Hq.
  destruct H as (start & Hp & Hs & Epay & Eo & Hw). pose proof (all_fields_readable a Hw) as Hr.
  apply Forall_app in Hr as [Hr _]. pose proof Hw as (_ & _ & _ & _ & _ & Hbw & _). unfold headerRemoveLine.
  set (view := if hasBody m then headersFlatViewWithoutCTCL m else Some (headersFlatView m)).
  assert (Ev : view = Some ((length start + 2)%nat, length ((start ++ CRLF) ++ flat_lines (a_fields a)))).
  { subst view. rewrite Hb. unfold all_fields, body_fields in Hp. destruct (has_body (a_body a)) eqn:Eh.
    - unfold headersFlatViewWithoutCTCL. rewrite (type_line_ptr m start _ _ _ _ Hp); [|unfold body_wf in Hbw; destruct (a_body a); [done|tauto..]].
      cbn [mbind option_bind]. destruct (parts_positions _ _ _ _ Hp) as (-> & _). do 2 f_equal. unfold type_at.
      assert (El : length (crlf_lines (a_fields a) ++ CRLF) = length (CRLF ++ flat_lines (a_fields a))) by by rewrite lines_shift.
      rewrite !length_app in El |- *. rewrite ?length_app. cbn [length CRLF] in *. lia.
    - rewrite (flat_view m start _ _ Hp), app_nil_r. do 2 f_equal. rewrite length_app. cbn. lia. }
  rewrite Ev. cbn [mbind option_bind]. unfold remove_line.
  destruct (reverse_lookup m start _ _ _ key Hp Hr Hk) as [(x & f & y & E & Hy & Hf & Es)|[Hno Es]]; cbv zeta in Es; rewrite Es; cbn [mbind option_bind].
  - rewrite E at 1. rewrite existsb_found by done. rewrite Hb.
    destruct (CaseInsensitiveEqual key n_content_encoding && has_body (a_body a)) eqn:Eb; [done|]. intros Hsz.
    rewrite E in Hsz |- *. rewrite remove_last_found in * by done. set (enc := a_encoded a && _) in *.
    set (m0 := if CaseInsensitiveEqual key n_content_encoding then set_hasContentEncoding false m else m).
    assert (Eq0 : op_httpRequest (hm_opts m0) = false) by (subst m0; by destruct (CaseInsensitiveEqual key n_content_encoding)).
    rewrite Eq0. cbn [andb].
    assert (Hp0 : Parts m0 start (header_text (x ++ f :: y ++ body_fields (a_body a))) (inline_text a)).
    { unfold all_fields in Hp. rewrite E, <- app_assoc in Hp. subst m0. by destruct (CaseInsensitiveEqual key n_content_encoding). }
    assert (Hw' : wf (with_fields (x ++ y) enc a)) by by eapply remove_wf.
    assert (Ek : length key = length (fst f)).
    { unfold named in Hf. apply CaseInsensitiveEqual_iff in Hf; [|rewrite E in Hr; apply Forall_app in Hr as [_ Hr]; inversion Hr as [|? ? (_ & Hok & _) _]; done|done].
      apply (f_equal (@length Z)) in Hf. by rewrite !length_map in Hf. }
    edestruct (erase_parts m0 start x f _ _ key _ Hp0 Ek eq_refl) as (dest & m' & Ed & Em & Hp' & [Sp So]).
    rewrite Ed. cbn [mbind option_bind]. rewrite Em. cbn [returns option_map]. exists m'. split; [done|]. exists start.
    split; [unfold all_fields; cbn [with_fields a_fields a_body]; by rewrite <- app_assoc|]. split; [done|].
    split; [rewrite Sp; subst m0; by destruct (CaseInsensitiveEqual key n_content_encoding)|]. split; [|done]. rewrite So. subst m0 enc.
    destruct (CaseInsensitiveEqual key n_content_encoding); cbn [set_hasContentEncoding set_opts hm_opts]; rewrite Eo;
      unfold options_of; cbn; by rewrite ?andb_true_r, ?andb_false_r.
  - rewrite existsb_none by done. intros Hsz. exists m. split; [done|]. by exists start.
Qed.
End Fields.

(** The construction of a message and the operations on its status line. *)

(** ** The status *)

Lemma writeStatusCode_digits c : 100 <= c <= 999 -> writeStatusCode c = Some (code_digits c).
Proof.
  intros Hc. unfold writeStatusCode, write2, u8. rewrite Z.rem_mod_nonneg by lia.
  assert (H : (0 <=? c mod 100) && (c mod 100 <? 100) = true) by zlia. rewrite H. cbn [mbind option_bind]. unfold code_digits.
  rewrite Z.quot_div_nonneg by lia. do 2 f_equal; [|f_equal; [|f_equal]]; zlia.
Qed.

Lemma poke_start m a x b hdr tail y :
  Parts m (a ++ x ++ b) hdr tail -> length y = length x ->
  exists m', mpoke (length a) y m = Some m' /\ Parts m' (a ++ y ++ b) hdr tail /\ same_rest m m'.
Proof.
  intros ((spare & Eb & Es) & E & Hp) Hl. unfold mpoke, on_data.
  rewrite (poke_memory _ a x y (b ++ hdr ++ tail ++ spare)); [|by rewrite Eb, <- !app_assoc|done].
  cbn [mbind option_bind]. eexists. split; [done|]. split; [|done].
  assert (El : length (a ++ y ++ b) = length (a ++ x ++ b)) by (rewrite !length_app; lia).
  assert (El' : length ((a ++ y ++ b) ++ hdr) = length ((a ++ x ++ b) ++ hdr)) by (rewrite !length_app; lia).
  split; [|split; cbn [set_data hm_posBitmap]; by rewrite El, El'].
  exists spare. cbn [set_data hm_data rc_buf rc_size]. split; [by rewrite <- !app_assoc|rewrite Es, !length_app; lia].
Qed.

Section Start.
Context (garbage : Z) (o : Options).

Lemma status_refines m a c : Repr o m a -> refines o m (status c m) (set_status c a).
Proof.
  intros (start & Hp & Hs & Epay & Eo & Hw). unfold status, set_status.
  destruct ((c <? 100) || (999 <? c)) eqn:Ec; [done|]. intros Hsz. apply orb_false_iff in Ec as [E1 E2].
  apply Z.ltb_ge in E1, E2. rewrite writeStatusCode_digits by lia. cbn [mbind option_bind].
  destruct Hs as (v & date & -> & Lv & Ld & Hd).
  assert (Est : (v ++ [32] ++ code_digits (a_code a) ++ [32]) ++ a_reason a ++ date
                = (v ++ [32]) ++ code_digits (a_code a) ++ ([32] ++ a_reason a ++ date)) by by rewrite <- !app_assoc.
  rewrite Est in Hp. destruct (poke_start m _ _ _ _ _ (code_digits c) Hp eq_refl) as (m' & Em & Hp' & [Sp So]).
  assert (El : length (v ++ [32]) = kStatusCodeBeg) by (rewrite length_app, Lv; done).
  rewrite El in Em. rewrite Em. cbn [returns option_map]. exists m'. split; [done|]. eexists. split; [exact Hp'|].
  split; [exists v, date; by rewrite <- !app_assoc|]. split; [by rewrite Sp|]. split; [by rewrite So|].
  destruct Hw as (_ & W2 & W3 & W4 & W5 & W6 & W7 & W8 & _). split; [cbn; lia|]. by do 7 (split; [done|]).
Qed.

(** ** The reason *)

Lemma reason_length m a start tail hdr :
  Parts m start hdr tail -> start_of a start -> head (a_reason a) <> Some 10 ->
  reasonLength m = Some (length (a_reason a)) /\ dateHeaderStartPos m = Some (13 + length (a_reason a))%nat.
Proof.
  intros Hp Hs Hr. destruct (parts_positions _ _ _ _ Hp) as (Eh & _). pose proof (start_length a start Hs) as El.
  assert (Ed : dateHeaderStartPos m = Some (13 + length (a_reason a))%nat).
  { unfold dateHeaderStartPos. rewrite Eh, El. change kDateHeaderLenWithCRLF with 37%nat. rewrite back_sub by lia. f_equal. lia. }
  split; [|done]. unfold reasonLength. rewrite Ed. cbn [mbind option_bind]. change kReasonBeg with 13%nat. rewrite back_sub by lia.
  cbn [mbind option_bind]. replace (13 + length (a_reason a) - 13)%nat with (length (a_reason a)) by lia.
  unfold hasReason, peek. destruct Hp as ((spare & Eb & _) & _). rewrite Eb.
  destruct Hs as (v & date & -> & Lv & Ld & Hd).
  set (w := v ++ [32] ++ code_digits (a_code a) ++ [32]). assert (Lw : length w = 13%nat) by (subst w; rewrite !length_app, Lv; done).
  rewrite <- !app_assoc. rewrite lookup_app_r by (change kReasonBeg with 13%nat; lia). rewrite Lw.
  change (kReasonBeg - 13)%nat with 0%nat. destruct (a_reason a) as [|c r] eqn:Er.
  - destruct (Hd eq_refl) as [d ->]. done.
  - change (((c :: r) ++ date ++ hdr ++ tail ++ spare) !! 0%nat) with (Some c). cbn [mbind option_bind].
    destruct (Z.eqb_spec c 10) as [->|Hc]; [done|]. done.
Qed.

Lemma reason_refines m a r :
  Repr o m a -> head r <> Some 10 ->
  refines o m (returns (reason garbage r m)) (set_reason r a).
Proof.
  intros (start & Hp & Hs & Epay & Eo & Hw) Hr. unfold set_reason, refines. intros Hsz.
  set (a' := MkAbstract (a_code a) (take kMaxReasonLength r) (a_fields a) (a_encoded a) (a_body a) (a_trailers a)) in *.
  assert (Hh : head (take kMaxReasonLength r) <> Some 10) by (destruct r; [by rewrite take_nil|]; destruct kMaxReasonLength; done).
  assert (Hw' : wf a').
  { destruct Hw as (W1 & _ & _ & W4 & W5 & W6 & W7 & W8 & _). split; [done|]. split; [cbn [a_reason a']; rewrite length_take; lia|].
    by do 6 (split; [done|]). }
  destruct (reason_length m a start _ _ Hp Hs ltac:(apply Hw)) as [Erl _]. unfold reason. rewrite Erl. cbn [mbind option_bind].
  destruct Hs as (v & date & Est & Lv & Ld & Hd). set (w := v ++ [32] ++ code_digits (a_code a) ++ [32]) in *.
  assert (Lw : length w = 13%nat) by (subst w; rewrite !length_app, Lv; done). change kReasonBeg with 13%nat.
  set (r' := take kMaxReasonLength r) in *. rewrite <- Lw.
  cut (exists m' date', (if Nat.eqb (length r') (length (a_reason a)) then mpoke (length w) r' m else
     (let m0 := mensure_exp_signed garbage (zlen r' - Z.of_nat (length (a_reason a))) m in
      m1 ← mmove (length w + length r') (length w + length (a_reason a)) (msize m0 - (length w + length (a_reason a))) m0;
      let m2 := adjustHeadersAndBodyStart (zlen r' - Z.of_nat (length (a_reason a))) m1 in
      m3 ← (if bool_decide (r' = []) then mpoke (length w) [10] m2 else mpoke (length w) r' m2);
      madjustSize (zlen r' - Z.of_nat (length (a_reason a))) m3)) = Some m'
    /\ Parts m' (w ++ r' ++ date') (header_text (all_fields a)) (inline_text a) /\ same_rest m m'
    /\ length date' = length date /\ (r' = [] -> exists d, date' = 10 :: d)).
  { intros (m' & date' & Em & Hp' & [Sp So] & Hl & Hd'). cbv zeta in Em. rewrite Em. exists m'. split; [done|]. exists (w ++ r' ++ date').
    split; [done|]. split; [exists v, date'; split; [done|]; split; [done|]; split; [by rewrite Hl|done]|].
    split; [by rewrite Sp|]. split; [by rewrite So|done]. }
  destruct (Nat.eqb_spec (length r') (length (a_reason a))) as [El|El].
  - rewrite Est in Hp. destruct (poke_start m w (a_reason a) date _ _ r' Hp El) as (m' & Em & Hp' & Hsr).
    exists m', date. repeat (split; [done|]). intros E. apply Hd. rewrite E in El. by apply nil_length_inv.
  - cbv zeta. change (zlen r' - Z.of_nat (length (a_reason a))) with (grown (a_reason a) r').
    set (m0 := mensure_exp_signed garbage (grown (a_reason a) r') m).
    destruct (mensure_exp_signed_parts garbage (grown (a_reason a) r') m _ _ _ Hp) as (Hp0 & Hs0 & Hc). fold m0 in Hp0, Hs0, Hc.
    destruct (parts_positions _ _ _ _ Hp0) as (_ & _ & Es & _). set (hdr := header_text (all_fields a)) in *. set (tail := inline_text a) in *.
    assert (Hpos : pos_ok (length (w ++ r' ++ date)) (length ((w ++ r' ++ date) ++ hdr))).
    { destruct date as [|c d]; [done|]. pose proof (size_pos_ok a' (w ++ r' ++ 10 :: d) Hw') as Hq.
      assert (L : length (w ++ r' ++ c :: d) = length (w ++ r' ++ 10 :: d)) by (rewrite !length_app; done).
      unfold pos_ok in *. rewrite (length_app (w ++ r' ++ c :: d)), L, <- length_app. apply Hq. exists v, (10 :: d).
      repeat (split; [done|]). by exists d. }
    destruct Hp0 as (Hh0 & Ebm & Hpos0).
    assert (Hhold : holds (hm_data m0) (w ++ a_reason a ++ (date ++ hdr ++ tail))) by (revert Hh0; rewrite Est; by rewrite <- !app_assoc).
    assert (Hcap : (length w + length r' + length (date ++ hdr ++ tail) <= capacity (hm_data m0))%nat).
    { rewrite Est in Hc. unfold grown in *. rewrite !length_app in *. lia. }
    destruct (replace_middle _ w (a_reason a) _ r' Hhold Hcap) as (r1 & E1 & S1 & (u & spare1 & Lu & Eb1) & r2 & E2 & S2 & spare & E3).
    assert (En : (msize m0 - (length w + length (a_reason a)))%nat = length (date ++ hdr ++ tail)).
    { rewrite Es, Est, !length_app. lia. }
    rewrite En. unfold mmove at 1, on_data. rewrite E1. cbn [mbind option_bind].
    assert (Elen1 : length (start ++ hdr) = length (w ++ a_reason a ++ date ++ hdr)) by (rewrite Est; rewrite <- !app_assoc; done).
    rewrite (adjustBoth_bitmap (set_data r1 m0) (length start) (length (start ++ hdr)) _ (length (w ++ r' ++ date)) (length ((w ++ r' ++ date) ++ hdr)));
      [|done|done|done|rewrite Est; unfold grown; rewrite !length_app; lia|rewrite Est; unfold grown; rewrite !length_app; lia].
    assert (Emv : moved_by (rc_size r1) (grown (a_reason a) r') = Some (length (w ++ r' ++ date ++ hdr ++ tail))).
    { rewrite S1. unfold msize in Es. rewrite Es, Est. unfold moved_by, grown. rewrite !length_app.
      rewrite (proj2 (Z.leb_le _ _)) by lia. f_equal. lia. }
    set (bm := bitmap (length (w ++ r' ++ date)) (length ((w ++ r' ++ date) ++ hdr))) in *.
    case_bool_decide as Er.
    + rewrite Er in *. apply nil_length_inv in Lu. rewrite Lu in Eb1. destruct date as [|c d]; [done|].
      unfold mpoke, on_data. cbn [set_bitmap set_data hm_data].
      rewrite (poke_memory r1 w [c] [10] (d ++ hdr ++ tail ++ spare1)); [|by rewrite Eb1; cbn [app]; rewrite <- !app_assoc|done].
      cbn [mbind option_bind]. unfold madjustSize, on_data, adjustSize. cbn [set_data set_bitmap hm_data rc_size]. rewrite Emv.
      cbn [mbind option_bind]. edestruct (setSize_holds (MkRawChars (w ++ [10] ++ d ++ hdr ++ tail ++ spare1) (rc_size r1))
        (w ++ [10] ++ d ++ hdr ++ tail) spare1) as (r3 & E4 & H3 & _); [cbn [rc_buf]; by rewrite <- !app_assoc|done|].
      assert (Eln : length (w ++ [] ++ (c :: d) ++ hdr ++ tail) = length (w ++ [10] ++ d ++ hdr ++ tail)) by (rewrite !length_app; cbn [length]; rewrite ?length_app; lia).
      rewrite Eln, E4. cbn [mbind option_bind]. eexists _, (10 :: d). split; [done|]. split; [|split; [done|split; [done|by exists d]]].
      split; [cbn [set_data hm_data]; revert H3; cbn [app]; by rewrite <- !app_assoc|]. split.
      * cbn [set_data set_bitmap hm_posBitmap]. subst bm. rewrite Er. f_equal; rewrite !length_app; cbn [length]; lia.
      * revert Hpos. unfold pos_ok. rewrite !length_app. cbn [length]. lia.
    + unfold mpoke, on_data. cbn [set_bitmap set_data hm_data]. rewrite E2.
      cbn [mbind option_bind]. unfold madjustSize, on_data, adjustSize. cbn [set_data set_bitmap hm_data]. rewrite S2, <- S1, Emv.
      cbn [mbind option_bind]. edestruct (setSize_holds r2 (w ++ r' ++ date ++ hdr ++ tail) spare) as (r3 & E4 & H3 & _);
        [by rewrite E3, <- !app_assoc|done|].
      rewrite E4. cbn [mbind option_bind]. eexists _, date. split; [done|]. split; [|by repeat (split; [done|])].
      split; [cbn [set_data hm_data]; revert H3; by rewrite <- !app_assoc|done].
Qed.

(** ** A new message *)

Definition new_reply (c : Z) : Response := MkAbstract c [] [] false NoBody [].

Lemma new_reply_wf c : 100 <= c <= 999 -> wf (new_reply c).
Proof.
  intros Hc. split; [done|]. split; [cbn; lia|]. split; [done|]. split; [constructor|]. split; [done|]. split; [done|].
  split; [constructor|]. split; [done|]. done.
Qed.

Lemma HttpResponse_new_repr capa c :
  100 <= c <= 999 -> exists m, HttpResponse_new garbage capa c = Some (Returns m) /\ Repr no_options m (new_reply c).
Proof.
  intros Hc. unfold HttpResponse_new, RawBytesBase_new. change kHttpResponseInitialSize with 54%nat. set (g := garbage).
  assert (Er : replicate (54 + capa) g = replicate 54 g ++ replicate capa g) by by rewrite replicate_add.
  rewrite Er. set (rest := replicate capa g).
  unfold InitData, mpoke, on_data. cbn [hm_data]. change (kReasonBeg - 1)%nat with 12%nat. change kReasonBeg with 13%nat.
  rewrite (poke_memory _ (replicate 8 g) [g] [32] (replicate 45 g ++ rest)) by done. cbn [mbind option_bind set_data hm_data].
  rewrite (poke_memory _ (replicate 8 g ++ [32] ++ replicate 3 g) [g] [32] (replicate 41 g ++ rest)) by done.
  cbn [mbind option_bind set_data hm_data].
  rewrite (poke_memory _ (replicate 8 g ++ [32] ++ replicate 3 g ++ [32]) [g] [10] (replicate 40 g ++ rest)) by done.
  cbn [mbind option_bind]. unfold status. rewrite (proj2 (Z.ltb_ge c 100)), (proj2 (Z.ltb_ge 999 c)) by lia. cbn [orb].
  rewrite writeStatusCode_digits by done. cbn [mbind option_bind]. unfold mpoke, on_data. cbn [set_data hm_data].
  change kStatusCodeBeg with 9%nat.
  rewrite (poke_memory _ (replicate 8 g ++ [32]) (replicate 3 g) (code_digits c) ([32; 10] ++ replicate 40 g ++ rest)) by done.
  cbn [mbind option_bind returns option_map and_then]. change (13 + kDateHeaderLenWithCRLF)%nat with 50%nat.
  change (setHeadersStartPosNoCheck 50 _) with (Some (MkMessage (MkRawChars ((replicate 8 g ++ [32]) ++ code_digits c ++ [32; 10] ++ replicate 40 g ++ rest) 0) 50 PNone no_options)).
  cbn [mbind option_bind]. change (54 - 4)%nat with 50%nat.
  rewrite (setBodyStart_bitmap _ 50 0 54) by done. cbn [set_bitmap hm_data].
  rewrite (poke_memory _ (replicate 8 g ++ [32] ++ code_digits c ++ [32] ++ [10] ++ replicate 36 g) (replicate 4 g) DoubleCRLF rest) by done.
  cbn [mbind option_bind]. unfold msetSize, on_data. cbn [set_data set_bitmap hm_data rc_size].
  edestruct (setSize_holds (MkRawChars ((replicate 8 g ++ [32] ++ code_digits c ++ [32] ++ [10] ++ replicate 36 g) ++ DoubleCRLF ++ rest) 0)
    ((replicate 8 g ++ [32] ++ code_digits c ++ [32] ++ [10] ++ replicate 36 g) ++ DoubleCRLF) rest 54) as (r & E & Hh & _); [done|done|].
  rewrite E. cbn [mbind option_bind]. eexists. split; [done|].
  exists (replicate 8 g ++ [32] ++ code_digits c ++ [32] ++ [10] ++ replicate 36 g). split; [|split; [|split; [done|split; [done|by apply new_reply_wf]]]].
  - split; [exact Hh|]. split; [done|]. done.
  - exists (replicate 8 g), ([10] ++ replicate 36 g). split; [done|]. split; [done|]. split; [done|]. intros _. by eexists.
Qed.
End Start.
