(* ===== verification/HttpMessageBodies.v ===== *)
(** The operations that give a message its body, append to it or add trailers refine those on
    responses. *)

From S2P Require Import Prelude.
From S2P Require Import AsciiCase.
From S2P Require Import HeadersView.
From S2P Require Import UrlCodec.
From S2P Require Import Cors.
From S2P Require Import RoutePattern.
From S2P Require Import RoutePatternProofs.
From S2P Require Import ResponseParser.
From S2P Require Import TimeString.
From S2P Require Import RawChars.
From S2P Require Import HttpMessage.
From S2P Require Import HttpMessageSpec.
From S2P Require Import HttpMessageRepr.
From S2P Require Import HttpMessageFields.
Local Open Scope Z_scope.

(** ** Writing the end of the header section *)

(** Two texts are written after [p], and the body starts behind them. *)
Lemma write_headers m start hdr p rest y1 y2 bs spare_size :
  mem m = p ++ rest -> (length y1 + length y2 + spare_size <= length rest)%nat -> p ++ y1 ++ y2 = start ++ hdr ->
  hm_posBitmap m = bitmap (length start) bs -> pos_ok (length start) bs -> pos_ok (length start) (length (start ++ hdr)) ->
  exists m', (m1 ← mpoke (length p) y1 m; m2 ← mpoke (length p + length y1) y2 m1;
              m3 ← setBodyStartPos (length p + length y1 + length y2) m2; msetSize (length p + length y1 + length y2) m3) = Some m'
    /\ Parts m' start hdr [] /\ same_rest m m' /\ (length (start ++ hdr) + spare_size <= capacity (hm_data m'))%nat.
Proof.
  intros Em Hl Ep Eb Hp Hp'. unfold mpoke, on_data, mem in *.
  rewrite (poke_rest _ p rest y1) by (done || lia). cbn [mbind option_bind set_data hm_data].
  rewrite <- (length_app p y1). rewrite (poke_rest _ (p ++ y1) (drop (length y1) rest) y2);
    [|cbn [rc_buf]; by rewrite <- app_assoc|rewrite length_drop; lia].
  cbn [mbind option_bind set_data hm_data]. rewrite drop_drop.
  assert (El : (length (p ++ y1) + length y2)%nat = length (start ++ hdr)) by (rewrite <- Ep, !length_app; lia).
  rewrite El. rewrite (setBodyStartPos_bitmap _ (length start) bs) by done.
  cbn [mbind option_bind]. unfold msetSize, on_data. cbn [set_bitmap set_data hm_data rc_size].
  destruct (setSize_holds (MkRawChars ((p ++ y1) ++ y2 ++ drop (length y1 + length y2) rest) (rc_size (hm_data m))) (start ++ hdr)
    (drop (length y1 + length y2) rest) (length (start ++ hdr))) as (r & E & Hh & Er); [cbn [rc_buf]; rewrite <- Ep, <- !app_assoc; done|done|].
  rewrite E. cbn [mbind option_bind]. eexists. split; [done|].
  split; [split; [cbn [set_data hm_data]; by rewrite app_nil_r|done]|]. split; [done|]. cbn [set_data hm_data]. unfold capacity. rewrite Er. cbn [rc_buf].
  rewrite <- El, !length_app, length_drop. lia.
Qed.

(** The body is written after the headers, into the spare bytes. *)
Lemma set_body_parts m start hdr newBody :
  Parts m start hdr [] -> isHead m = false -> (length (start ++ hdr) + length newBody <= capacity (hm_data m))%nat ->
  exists m', setBodyInternal newBody m = Some m' /\ Parts m' start hdr newBody /\ same_rest m m'.
Proof.
  intros H Hh Hc. destruct (parts_positions _ _ _ _ H) as (_ & Eb & Es & _). rewrite app_nil_r in Es.
  unfold setBodyInternal. rewrite Hh. unfold internalBodyAndTrailersLen. rewrite Eb, Es, Nat.sub_diag.
  cbv zeta. rewrite (proj2 (Z.ltb_ge _ _)), (proj2 (Z.ltb_ge _ _)) by lia. cbn [orb].
  destruct H as ((spare & Em & Esz) & Ebm & Hp). rewrite app_nil_r in Em, Esz. unfold madjustSize, on_data, adjustSize, moved_by.
  unfold msize in Es. rewrite Es. rewrite (proj2 (Z.leb_le _ _)) by lia. cbn [mbind option_bind].
  replace (Z.to_nat (Z.of_nat (length (start ++ hdr)) + (Z.of_nat (length newBody) - Z.of_nat 0))) with (length (start ++ hdr ++ newBody))
    by (rewrite !length_app; lia).
  unfold setSize at 1. rewrite (proj2 (Nat.leb_le _ _)) by (rewrite !length_app in *; lia). cbn [mbind option_bind set_data hm_data].
  unfold capacity in Hc. rewrite Em, !length_app in Hc.
  unfold mpoke, on_data. cbn [hm_data].
  assert (Ebs : bodyStartPos (MkMessage (MkRawChars (rc_buf (hm_data m)) (length (start ++ hdr ++ newBody))) (hm_posBitmap m) (hm_payload m) (hm_opts m)) = length (start ++ hdr))
    by by apply (bodyStartPos_bitmap _ (length start)).
  unfold set_data. cbn [hm_data hm_posBitmap hm_payload hm_opts]. rewrite Ebs.
  rewrite (poke_rest _ (start ++ hdr) spare newBody) by (done || lia). cbn [mbind option_bind]. eexists. split; [done|].
  split; [|done]. split; [|done]. eexists. cbn [hm_data rc_buf rc_size]. split; [by rewrite <- !app_assoc|done].
Qed.

Lemma CheckContentType_ok ct0 ct :
  CheckContentType false ct0 = Ret ct -> ct = TrimOws ct0 /\ (Forall (fun b => b <> 58) ct -> type_ok ct).
Proof.
  unfold CheckContentType. cbn [negb andb]. destruct (_ || _) eqn:E; [done|]. intros [= <-]. split; [done|]. intros H58.
  apply orb_false_iff in E as [E1 E2]. apply Nat.ltb_ge in E1. apply negb_false_iff in E2. split; [done|].
  unfold IsValidHeaderValue in E2. rewrite forallb_forall in E2. rewrite Forall_forall in *. intros b Hb. split; [by apply H58|].
  assert (Hc : header_char b = true) by by apply E2, list_elem_of_In.
  split; intros ->; done.
Qed.

(** ** Setting a body *)

Section Bodies.
Context (garbage : Z) (o : Options).

Lemma with_body_wf a b :
  wf a -> body_wf (with_body b a) -> size_ok (with_body b a) -> wf (with_body b a).
Proof. intros (H1 & H2 & H3 & H4 & H5 & _ & H7 & H8 & _) Hb Hs. by do 8 (split; [done|]). Qed.

Lemma header_text_end fs ct n : header_text (fs ++ length_fields ct n)
  = (crlf_lines fs ++ CRLF) ++ WriteHeader n_content_type ct
    ++ WriteCRLFHeader n_content_length (decimal (Z.of_nat n)) ++ DoubleCRLF.
Proof.
  unfold header_text. rewrite ctcl_text. unfold WriteHeader, WriteCRLFHeader, WriteHeader. change HeaderSep with [58; 32]. app_simpl. done.
Qed.

Lemma setBodyHeaders_some m a start ct0 ct n context :
  Parts m start (header_text (all_fields a)) (inline_text a) -> Repr o m a -> a_trailers a = [] ->
  CheckContentType false ct0 = Ret ct -> n <> 0%nat -> Z.of_nat n < 2 ^ 64 ->
  pos_ok (length start) (length (start ++ header_text (a_fields a ++ length_fields ct n))) ->
  exists m', setBodyHeaders garbage ct0 n context m = Some (Returns m')
    /\ Parts m' start (header_text (a_fields a ++ length_fields ct n)) [] /\ same_rest m m'
    /\ (length (start ++ header_text (a_fields a ++ length_fields ct n)) + (match context with Inline => n | Captured => 0 end)
        <= capacity (hm_data m'))%nat.
Proof.
  intros Hp HR Ht Hct Hn Hn64 Hpos. unfold setBodyHeaders. rewrite (repr_trailersSize _ _ _ HR). unfold trailer_text. rewrite Ht.
  change (length (flat_lines [])) with 0%nat. cbn [Nat.eqb negb]. rewrite (proj2 (Nat.eqb_neq n 0)), Hct by done.
  rewrite (repr_bodyLength _ _ _ HR), (repr_isHead _ _ _ HR). cbn [negb]. cbv zeta.
  pose proof HR as (_ & _ & _ & _ & _ & Hw). pose proof (body_data_nonempty a Hw) as Hne. pose proof Hw as (_ & _ & _ & _ & _ & Hbw & _).
  set (k := match context with Inline => true | Captured => false end).
  assert (Ek : (if k then n else 0%nat) = match context with Inline => n | Captured => 0%nat end) by by destruct context. rewrite <- Ek. clear Ek.
  set (text := WriteCRLFHeader n_content_length (decimal (Z.of_nat n)) ++ DoubleCRLF).
  assert (Ltext : length text = (HeaderSize (length n_content_length) (nchars n) + 4)%nat)
    by (subst text; rewrite length_app, length_crlf_line, nchars_decimal by done; done).
  set (needed := (HeaderSize (length n_content_type) (length ct) + _ + _)%nat).
  assert (Eneed : needed = (length ct + 16 + length text - 4 + if k then n else 0)%nat) by (subst needed; rewrite Ltext; cbn; lia).
  rewrite header_text_end in Hpos |- *. fold text in Hpos |- *. destruct (has_body (a_body a)) eqn:Eh.
  - rewrite (proj2 (Nat.eqb_neq _ 0)) by by apply Hne. cbn [negb].
    unfold all_fields, body_fields in Hp. rewrite Eh in Hp. set (oct := body_type (a_body a)) in *. set (on := body_len (a_body a)) in *.
    assert (Hoct : type_ok oct) by (subst oct; unfold body_wf in Hbw; destruct (a_body a); [done|tauto..]).
    rewrite (type_line_ptr m start _ _ _ _ Hp Hoct). cbn [mbind option_bind].
    destruct (parts_positions _ _ _ _ Hp) as (_ & Eb & Es & Hcap & _).
    assert (Hlen : length (start ++ header_text (a_fields a ++ length_fields oct on))
      = (type_at start (a_fields a) + length oct + 16 + length (decimal (Z.of_nat on)) + 18 + 4)%nat).
    { rewrite <- Eb. rewrite (lines_end_body m start _ _ _ _ Hp). unfold lines_end, length_at. lia. }
    rewrite Eb, Hlen, back_sub by lia. cbn [mbind option_bind]. set (old := (_ + internalBodyAndTrailersLen m)%nat).
    assert (Eold : (type_at start (a_fields a) + 4 + old = msize m)%nat).
    { subst old. unfold internalBodyAndTrailersLen. rewrite Eb, Es, app_assoc, length_app, Hlen. lia. }
    set (m1 := if (old <? needed)%nat then mensure_exp garbage (needed - old) m else m).
    assert (Hm1 : Parts m1 start (header_text (a_fields a ++ length_fields oct on)) (inline_text a) /\ same_rest m m1
                  /\ (type_at start (a_fields a) + 4 + needed <= capacity (hm_data m1))%nat).
    { subst m1. destruct (Nat.ltb_spec old needed) as [Hlt|Hge].
      - destruct (mensure_exp_parts garbage (needed - old) m _ _ _ Hp) as (H1 & Hs & Hc). split; [done|]. split; [done|].
        rewrite <- Es in Hc. lia.
      - split; [done|]. split; [done|]. lia. }
    destruct Hm1 as (Hp1 & Hs1 & Hc1). rewrite (type_value_ptr m1 start _ _ _ _ Hp1 Hoct). cbn [mbind option_bind].
    destruct (buffer_text m1 start _ _ _ _ Hp1) as [post Em1].
    set (p := (start ++ crlf_lines (a_fields a)) ++ CRLF ++ n_content_type ++ HeaderSep).
    assert (Lp : (type_at start (a_fields a) + 16)%nat = length p) by (subst p; unfold type_at; rewrite !length_app; cbn; lia).
    assert (Em : exists rest, mem m1 = p ++ rest).
    { eexists. rewrite Em1. subst p. change CRLF with [13; 10]. change HeaderSep with [58; 32]. app_simpl. done. }
    destruct Em as [rest Em]. destruct Hp1 as (_ & Ebm & Hpos1).
    destruct (write_headers m1 start (header_text (a_fields a ++ length_fields ct n)) p rest ct text
      (length (start ++ header_text (a_fields a ++ length_fields oct on))) (if k then n else 0%nat) Em)
      as (m' & Ew & Hp' & Hs' & Hc').
    + unfold capacity in Hc1. unfold mem in Em. rewrite Em, length_app, <- Lp in Hc1. lia.
    + subst p. rewrite header_text_end. fold text. unfold WriteHeader. by rewrite <- !app_assoc.
    + exact Ebm.
    + exact Hpos1.
    + by rewrite header_text_end.
    + exists m'. rewrite header_text_end in Hp', Hc'. fold text in Hp', Hc'. split; [|split; [done|split; [by eapply same_rest_trans|done]]].
      rewrite Lp. destruct (mpoke (length p) ct m1) as [m2|]; [|done]. cbn [mbind option_bind] in Ew |- *. by rewrite Ew.
  - destruct (a_body a) eqn:Eab; try done. cbn [body_len body_data length Nat.eqb negb].
    unfold all_fields, inline_text, body_fields in Hp. rewrite Eab in Hp. cbn [has_body] in Hp. rewrite app_nil_r in Hp.
    destruct (mensure_exp_parts garbage needed m _ _ _ Hp) as (Hp1 & Hs1 & Hc1). set (m1 := mensure_exp garbage needed m) in *.
    destruct (parts_positions _ _ _ _ Hp1) as (_ & Eb & _ & _ & spare & Em). set (p := start ++ crlf_lines (a_fields a) ++ CRLF).
    assert (Lp : (length (start ++ header_text (a_fields a)) = length p + 2)%nat) by (subst p; unfold header_text; rewrite !length_app; cbn; lia).
    rewrite Eb, Lp, back_sub by lia. replace (length p + 2 - 2)%nat with (length p) by lia. cbn [mbind option_bind].
    assert (Em1 : mem m1 = p ++ CRLF ++ spare).
    { rewrite Em. subst p. unfold header_text. change DoubleCRLF with (CRLF ++ CRLF). by rewrite <- !app_assoc. }
    destruct Hp1 as (_ & Ebm & Hpos1).
    destruct (write_headers m1 start (header_text (a_fields a ++ length_fields ct n)) p (CRLF ++ spare) (WriteHeader n_content_type ct) text
      (length (start ++ header_text (a_fields a))) (if k then n else 0%nat) Em1)
      as (m' & Ew & Hp' & Hs' & Hc').
    + unfold capacity in Hc1. unfold mem in Em1. rewrite Em1, app_nil_r, Lp in Hc1. unfold WriteHeader. rewrite !length_app in *.
      change (length CRLF) with 2%nat in *. change (length HeaderSep) with 2%nat. change (length n_content_type) with 12%nat. lia.
    + subst p. rewrite header_text_end. fold text. by rewrite <- !app_assoc.
    + exact Ebm.
    + exact Hpos1.
    + by rewrite header_text_end.
    + exists m'. rewrite header_text_end in Hp', Hc'. fold text in Hp', Hc'. split; [|split; [done|split; [by eapply same_rest_trans|done]]].
      destruct (mpoke (length p) _ m1) as [m2|]; [|done]. cbn [mbind option_bind] in Ew |- *. by rewrite Ew.
Qed.

(** The represented response has another body. *)
Lemma body_repr m a start b :
  Parts m start (header_text (a_fields a ++ body_fields b)) (inline_text (with_body b a)) -> start_of a start ->
  hm_payload m = payload_of (with_body b a) -> hm_opts m = options_of o a -> wf (with_body b a) -> Repr o m (with_body b a).
Proof. intros Hp Hs Ep Eo Hw. by exists start. Qed.

Lemma inline_no_trailers a ct d : a_trailers a = [] -> inline_text (with_body (InlineBody ct d) a) = d.
Proof. intros E. unfold inline_text, trailer_text. cbn [with_body a_body a_trailers]. rewrite E. apply app_nil_r. Qed.
Lemma captured_no_trailers a ct d : a_trailers a = [] -> payload_of (with_body (CapturedBody ct d) a) = PCaptured d.
Proof. intros E. unfold payload_of, trailer_text. cbn [with_body a_body a_trailers]. rewrite E. f_equal. apply app_nil_r. Qed.

Lemma same_head m m' : same_rest m m' -> isHead m' = isHead m.
Proof. intros [_ E]. unfold isHead. by rewrite E. Qed.

(** The text of the content type that is given has no colon. *)
Definition no_colon (ct : bytes) : Prop := Forall (fun b => b <> 58) (TrimOws ct).

(** Whatever is done with the headers of a new body. *)
Lemma replace_body_refines m a ct0 n context make k :
  Repr o m a -> no_colon ct0 -> n <> 0%nat ->
  (forall ct, size_ok (with_body (make ct) a) -> Z.of_nat n < 2 ^ 64) ->
  (forall ct, a_trailers a = [] -> type_ok ct -> body_fields (make ct) = length_fields ct n /\ body_wf (with_body (make ct) a)) ->
  (forall ct start m1, a_trailers a = [] -> Parts m1 start (header_text (a_fields a ++ length_fields ct n)) [] -> isHead m1 = false ->
     (length (start ++ header_text (a_fields a ++ length_fields ct n)) + (match context with Inline => n | Captured => 0 end)
      <= capacity (hm_data m1))%nat ->
     exists m', k m1 = Some (Returns m') /\ Parts m' start (header_text (a_fields a ++ length_fields ct n)) (inline_text (with_body (make ct) a))
       /\ hm_payload m' = payload_of (with_body (make ct) a) /\ hm_opts m' = hm_opts m1) ->
  refines o m (and_then (setBodyHeaders garbage ct0 n context m) k) (replace_body make false ct0 a).
Proof.
  intros HR Hcol Hn Hn64 Hmake Hk. unfold replace_body. destruct (bool_decide_reflect (a_trailers a = [])) as [Ht|Ht]; cbn [negb].
  - destruct (CheckContentType false ct0) as [ct|what] eqn:Ect.
    + intros Hsz. pose proof HR as (start & Hp & Hs & Epay & Eo & Hw). destruct (CheckContentType_ok _ _ Ect) as [Ec Hty].
      unfold no_colon in Hcol. rewrite <- Ec in Hcol. specialize (Hty Hcol). destruct (Hmake ct Ht Hty) as [Ebf Hbw].
      assert (Hw' : wf (with_body (make ct) a)) by by apply with_body_wf.
      pose proof (size_pos_ok _ start Hw' Hs) as Hpos. unfold all_fields in Hpos. cbn [with_body a_fields a_body] in Hpos. rewrite Ebf in Hpos.
      destruct (setBodyHeaders_some m a start ct0 ct n context Hp HR Ht Ect Hn ltac:(by eapply Hn64) Hpos) as (m1 & E1 & Hp1 & Hs1 & Hc1).
      rewrite E1. cbn [and_then mbind option_bind].
      assert (Hh1 : isHead m1 = false) by by rewrite (same_head _ _ Hs1), (repr_isHead _ _ _ HR).
      destruct (Hk ct start m1 Ht Hp1 Hh1 Hc1) as (m' & E' & Hp' & Ep' & Eo'). exists m'. split; [done|].
      apply (body_repr _ a start); [by rewrite Ebf|done|done| |done]. rewrite Eo'. destruct Hs1 as [_ ->]. exact Eo.
    + unfold setBodyHeaders. rewrite (repr_trailersSize _ _ _ HR). unfold trailer_text. rewrite Ht.
      change (length (flat_lines [])) with 0%nat. cbn [Nat.eqb negb]. rewrite (proj2 (Nat.eqb_neq n 0)) by done.
      by rewrite Ect.
  - unfold setBodyHeaders. rewrite (repr_trailersSize _ _ _ HR). unfold trailer_text.
    destruct (a_trailers a) as [|t ts] eqn:Et; [done|]. rewrite (proj2 (Nat.eqb_neq _ 0)); [done|].
    pose proof (flat_lines_length (t :: ts)) as H. cbn [length] in H. lia.
Qed.

Lemma data_small a b : size_ok (with_body b a) -> Z.of_nat (length (body_data b)) < 2 ^ 64.
Proof.
  unfold size_ok. cbn [with_body a_body a_reason]. intros H. pose proof (zlen_nonneg (a_reason a)).
  pose proof (zlen_nonneg (header_text (all_fields (with_body b a)))). pose proof (zlen_nonneg (trailer_text (with_body b a))). unfold zlen in *. lia.
Qed.

Lemma set_body_nonempty m a d ct0 :
  Repr o m a -> no_colon ct0 -> d <> [] -> refines o m (body garbage d ct0 m) (set_body d ct0 a).
Proof.
  intros HR Hcol Hd. unfold set_body. rewrite (bool_decide_false (d = [])) by done. apply replace_body_refines; [done|done|by destruct d| | |].
  - intros ct Hsz. by apply data_small in Hsz.
  - intros ct _ Hct. done.
  - intros ct start m1 Ht Hp1 Hh1 Hc1. destruct (set_body_parts m1 start _ d Hp1 Hh1 Hc1) as (m2 & E2 & Hp2 & Hs2). rewrite E2.
    cbn [mbind option_bind]. rewrite (same_head _ _ Hs2), Hh1. eexists. split; [done|]. rewrite inline_no_trailers by done.
    split; [exact Hp2|]. split; [done|]. by destruct Hs2 as [_ ?].
Qed.

(** The bytes are not in the buffer. *)
Lemma set_body_away m1 start hdr :
  Parts m1 start hdr [] -> isHead m1 = false -> exists m2, setBodyInternal [] m1 = Some m2 /\ Parts m2 start hdr [] /\ same_rest m1 m2.
Proof.
  intros Hp Hh. apply set_body_parts; [done|done|]. destruct (parts_positions _ _ _ _ Hp) as (_ & _ & Es & Hc & _).
  rewrite Es, app_nil_r in Hc. cbn [length]. lia.
Qed.

Lemma set_body_captured_nonempty m a d ct0 :
  Repr o m a -> no_colon ct0 -> d <> [] -> refines o m (body_captured garbage d ct0 m) (set_body_captured d ct0 a).
Proof.
  intros HR Hcol Hd. unfold set_body_captured. rewrite (bool_decide_false (d = [])) by done.
  apply replace_body_refines; [done|done|by destruct d| | |].
  - intros ct Hsz. by apply data_small in Hsz.
  - intros ct _ Hct. done.
  - intros ct start m1 Ht Hp1 Hh1 _. destruct (set_body_away m1 start _ Hp1 Hh1) as (m2 & E2 & Hp2 & Hs2). rewrite E2.
    cbn [mbind option_bind]. unfold setCapturedPayload. rewrite bool_decide_false, (same_head _ _ Hs2), Hh1 by done.
    eexists. split; [done|]. rewrite captured_no_trailers by done. split; [exact Hp2|]. split; [done|]. by destruct Hs2 as [_ ?].
Qed.

Lemma set_file_refines m a fileSize offset len detected contentType :
  Repr o m a -> no_colon (if bool_decide (contentType = []) then detected else contentType) ->
  file_length fileSize offset len <> 0%nat -> Z.of_nat (file_length fileSize offset len) < 2 ^ 64 ->
  refines o m (file garbage fileSize offset len detected contentType m) (set_file fileSize offset len detected contentType a).
Proof.
  intros HR Hcol Hn Hn64. unfold file, set_file. destruct (fileSize <? offset)%nat; [done|]. cbv zeta.
  fold (file_length fileSize offset len). set (n := file_length fileSize offset len) in *. destruct (fileSize <? offset + n)%nat; [done|].
  replace (Nat.max 1 n) with n by lia. apply replace_body_refines; [done|done|done|done| |].
  - intros ct Ht Hct. split; [done|]. by repeat (split; [done|]).
  - intros ct start m1 Ht Hp1 Hh1 _. rewrite (proj2 (Nat.eqb_neq n 0)) by done. cbn [mbind option_bind].
    destruct (set_body_away m1 start _ Hp1 Hh1) as (m2 & E2 & Hp2 & Hs2). rewrite E2. cbn [mbind option_bind].
    eexists. split; [done|]. split; [exact Hp2|]. split; [done|]. by destruct Hs2 as [_ ?].
Qed.

(** ** Taking the body away *)

(** The header lines of the body and the body are cut off. *)
Lemma cut_body m start fs ct n tail :
  Parts m start (header_text (fs ++ length_fields ct n)) tail -> type_ok ct ->
  getContentTypeHeaderLinePtr m = Some (type_at start fs)
  /\ substr (mem m) (type_at start fs + 2) (length n_content_type) = n_content_type
  /\ exists m1 m2, msetSize (type_at start fs + 4) m = Some m1 /\ mpoke (msize m1 - 2) CRLF m1 = Some m2
    /\ Parts (setBodyStartPosNoCheck (msize m2) m2) start (header_text fs) []
    /\ same_rest m (setBodyStartPosNoCheck (msize m2) m2).
Proof.
  intros Hp Hct. split; [by eapply type_line_ptr|]. destruct (buffer_text m start _ _ _ _ Hp) as [post Em].
  set (a := (start ++ crlf_lines fs) ++ CRLF).
  assert (La : length a = (type_at start fs + 2)%nat) by (subst a; unfold type_at; rewrite !length_app; cbn; lia).
  assert (Em' : exists rest, mem m = a ++ n_content_type ++ rest).
  { eexists. rewrite Em. subst a. change CRLF with [13; 10]. app_simpl. done. }
  destruct Em' as [rest Em']. split; [rewrite Em'; by apply substr_at|].
  destruct (parts_positions _ _ _ _ Hp) as (_ & _ & Es & Hcap & _). destruct Hp as (_ & Ebm & Hpos).
  assert (L2 : (type_at start fs + 4)%nat = length (start ++ header_text fs))
    by (unfold type_at, header_text; rewrite !length_app; cbn; lia).
  unfold msetSize, mpoke, on_data. unfold setSize at 1. unfold capacity, mem in *.
  rewrite (proj2 (Nat.leb_le _ _)) by (rewrite Em', !length_app, La; cbn; lia). cbn [mbind option_bind].
  eexists _, _. split; [done|]. change (msize (set_data (MkRawChars ?b ?k) m)) with k. cbn [set_data hm_data].
  replace (type_at start fs + 4 - 2)%nat with (length a) by lia.
  rewrite (poke_memory _ a (take 2 n_content_type) CRLF (drop 2 n_content_type ++ rest)) by (cbn [rc_buf]; rewrite ?Em'; done).
  cbn [mbind option_bind]. split; [done|]. change (msize (set_data (MkRawChars ?b ?k) ?x)) with k. cbn [rc_size].
  assert (Hpos' : pos_ok (length start) (length (start ++ header_text fs))).
  { destruct Hpos as [? Hb]. split; [done|]. unfold header_text in Hb |- *. rewrite crlf_lines_app in Hb. rewrite !length_app in *. lia. }
  rewrite (setBodyStart_bitmap _ (length start) (length (start ++ header_text (fs ++ length_fields ct n))) (type_at start fs + 4));
    [|done|done|by rewrite L2].
  split; [|done]. split; [|split; cbn [set_bitmap set_data hm_posBitmap]; [by rewrite L2|done]].
  exists (drop 2 n_content_type ++ rest). cbn [set_bitmap set_data hm_data rc_buf rc_size]. split; [|by rewrite app_nil_r].
  rewrite app_nil_r. subst a. unfold header_text. change DoubleCRLF with (CRLF ++ CRLF). by rewrite <- !app_assoc.
Qed.

(** A coding given with a body that is not in the buffer would be taken away while the message
    still has the body. *)
Definition removable (a : Response) : Prop :=
  a_encoded a = true -> match a_body a with CapturedBody _ _ | FileBody _ _ => False | _ => True end.

Lemma no_body_wf a : wf a -> a_trailers a = [] -> wf (with_body NoBody a).
Proof.
  intros Hw Ht. apply with_body_wf; [done|done|]. destruct Hw as (_ & _ & _ & _ & _ & _ & _ & _ & Hs). unfold size_ok in *.
  unfold all_fields in *. cbn [with_body a_reason a_fields a_body body_data]. change (body_fields NoBody) with (@nil field).
  rewrite header_text_app in Hs |- *. rewrite !zlen_app in *. pose proof (zlen_nonneg (body_data (a_body a))). change (zlen []) with 0.
  unfold header_text in Hs |- *. rewrite !zlen_app in *. pose proof (zlen_nonneg (crlf_lines (body_fields (a_body a)))).
  change (crlf_lines []) with (@nil Z). change (zlen []) with 0. unfold trailer_text in *. cbn [with_body a_trailers]. lia.
Qed.

Lemma existsb_encoding a : wf a -> a_encoded a = true -> existsb (named n_content_encoding) (a_fields a) = true.
Proof.
  intros (_ & _ & _ & _ & He & _) E. specialize (He E). apply Exists_exists in He as (f & Hin & Hf). apply existsb_exists.
  exists f. split; [by apply list_elem_of_In|done].
Qed.

Lemma removeBody_refines m a :
  Repr o m a -> a_trailers a = [] -> has_body (a_body a) = true -> removable a -> size_ok (drop_body a) ->
  exists m', removeBodyAndItsHeaders m = Some (Returns m') /\ Repr o (set_payload PNone m') (drop_body a) /\ isHead m' = false.
Proof.
  intros HR Ht Hb Hrem Hsz. pose proof HR as (start & Hp & Hs & Epay & Eo & Hw). pose proof Hw as (_ & _ & _ & _ & _ & Hbw & _).
  unfold all_fields, body_fields in Hp. rewrite Hb in Hp.
  assert (Hct : type_ok (body_type (a_body a))) by (unfold body_wf in Hbw; destruct (a_body a); [done|tauto..]).
  destruct (cut_body m start _ _ _ _ Hp Hct) as (E1 & E2 & m1 & m2 & E3 & E4 & Hp' & [Sp So]).
  unfold removeBodyAndItsHeaders. rewrite E1. cbn [mbind option_bind]. rewrite E2, bool_decide_true by done. cbn [negb].
  rewrite E3. cbn [mbind option_bind]. rewrite E4. cbn [mbind option_bind]. set (m3 := setBodyStartPosNoCheck (msize m2) m2) in *.
  assert (HR3 : Repr o (set_payload PNone m3) (with_body NoBody a)).
  { exists start. split; [unfold all_fields; cbn [with_body a_fields a_body]; change (body_fields NoBody) with (@nil field); by rewrite app_nil_r|].
    split; [done|]. split; [done|]. split; [cbn [set_payload hm_opts]; by rewrite So|by apply no_body_wf]. }
  assert (Hh3 : isHead m3 = false) by (unfold isHead; rewrite So, Eo; done).
  assert (He3 : hasContentEncoding m3 = a_encoded a) by (unfold hasContentEncoding; rewrite So, Eo; done).
  rewrite He3. unfold drop_body in *. rewrite Hb in *. cbn [andb] in *. destruct (a_encoded a) eqn:Ee; [|by exists m3].
  assert (Epn : set_payload PNone m3 = m3).
  { assert (Epm : hm_payload m3 = PNone) by (rewrite Sp, Epay; unfold payload_of; specialize (Hrem Ee); by destruct (a_body a)).
    unfold set_payload. rewrite <- Epm. by destruct m3. }
  rewrite Epn in HR3. pose proof (remove_line_refines o m3 _ n_content_encoding HR3 ltac:(by vm_compute; repeat constructor)) as Hr.
  unfold remove_line in Hr. cbn [with_body a_fields a_body a_encoded] in Hr. rewrite existsb_encoding in Hr by done.
  change (CaseInsensitiveEqual n_content_encoding n_content_encoding) with true in Hr. cbn [andb has_body refines negb] in Hr.
  rewrite Ee in Hr. cbn [andb] in Hr.
  destruct (Hr Hsz) as (m' & Em & HR'). rewrite Em. cbn [and_then mbind option_bind]. rewrite (repr_encoded _ _ _ HR'). cbn [with_fields a_encoded].
  exists m'. split; [done|]. split; [|by apply (repr_isHead _ _ _ HR')].
  assert (Epn' : set_payload PNone m' = m').
  { destruct HR' as (_ & _ & _ & Epm & _). cbn in Epm. unfold set_payload. rewrite <- Epm. by destruct m'. }
  rewrite Epn'. exact HR'.
Qed.

(** An empty body, of any kind. *)
Lemma empty_body_refines m a ct0 context make k :
  Repr o m a -> (a_trailers a = [] -> removable a) ->
  (forall m1, isHead m1 = false -> k m1 = (m2 ← setBodyInternal [] m1; Some (Returns (set_payload PNone m2)))) ->
  refines o m (and_then (setBodyHeaders garbage ct0 0 context m) k) (replace_body make true ct0 a).
Proof.
  intros HR Hrem Hk. unfold replace_body, setBodyHeaders. rewrite (repr_trailersSize _ _ _ HR), (repr_bodyLength _ _ _ HR).
  unfold trailer_text. destruct (bool_decide_reflect (a_trailers a = [])) as [Ht|Ht]; cbn [negb].
  - rewrite Ht. change (length (flat_lines [])) with 0%nat. cbn [Nat.eqb negb]. change (CheckContentType true ct0) with (Ret (TrimOws ct0)).
    cbn iota. intros Hsz. pose proof HR as (_ & _ & _ & _ & _ & Hw).
    assert (Hend : forall m1, isHead m1 = false -> Repr o (set_payload PNone m1) (drop_body a) ->
      exists m2, k m1 = Some (Returns m2) /\ Repr o m2 (drop_body a)).
    { intros m1 Hh1 (start1 & Hp1 & Hs1 & Epay1 & Eo1 & Hw1). change (inline_text (drop_body a)) with (@nil Z) in Hp1.
      destruct (set_body_away m1 start1 _ Hp1 Hh1) as (m2 & E2 & Hp2 & [Sp So]). rewrite Hk, E2 by done. cbn [mbind option_bind].
      eexists. split; [done|]. exists start1. split; [exact Hp2|]. split; [done|]. split; [done|]. split; [|done].
      cbn [set_payload hm_opts] in Eo1 |- *. by rewrite So. }
    destruct (has_body (a_body a)) eqn:Hb.
    + rewrite (proj2 (Nat.eqb_neq _ 0)) by by apply body_data_nonempty. cbn [negb].
      destruct (removeBody_refines m a HR Ht Hb (Hrem Ht) Hsz) as (m1 & E1 & HR1 & Hh1). rewrite E1. cbn [and_then mbind option_bind].
      by apply Hend.
    + assert (Eab : a_body a = NoBody) by by destruct (a_body a). rewrite Eab. cbn [body_len body_data length Nat.eqb negb and_then mbind option_bind].
      apply Hend; [by apply (repr_isHead _ _ _ HR)|]. destruct HR as (start & Hp & Hs & Epay & Eo & _).
      assert (Ed : drop_body a = a) by (unfold drop_body; rewrite Hb; cbn [andb]; destruct a; cbn in Eab; by subst).
      rewrite Ed. exists start. split; [done|]. split; [done|]. split; [|done]. cbn [set_payload hm_payload]. unfold payload_of. by rewrite Eab.
  - destruct (a_trailers a) as [|t ts] eqn:Et; [done|]. rewrite (proj2 (Nat.eqb_neq _ 0)); [done|].
    pose proof (flat_lines_length (t :: ts)) as H. cbn [length] in H. lia.
Qed.

Lemma setBodyInternal_head newBody m m' : setBodyInternal newBody m = Some m' -> isHead m' = isHead m.
Proof.
  unfold setBodyInternal. destruct (isHead m) eqn:Eh; [by intros [= <-]|]. cbv zeta. destruct (_ || _); [done|].
  unfold madjustSize, mpoke, on_data. destruct (adjustSize _ _) as [d1|]; [|done]. cbn [mbind option_bind].
  destruct (poke _ _ _) as [d2|]; [|done]. intros [= <-]. exact Eh.
Qed.

Lemma set_body_refines m a d ct0 :
  Repr o m a -> no_colon ct0 -> (d = [] -> a_trailers a = [] -> removable a) ->
  refines o m (body garbage d ct0 m) (set_body d ct0 a).
Proof.
  intros HR Hcol Hrem. destruct (list_eq_nil_dec d) as [->|Hd]; [|by apply set_body_nonempty].
  apply empty_body_refines; [done|by apply Hrem|]. intros m1 Hh1. destruct (setBodyInternal [] m1) as [m2|] eqn:E; [|done].
  cbn [mbind option_bind]. by rewrite (setBodyInternal_head _ _ _ E), Hh1.
Qed.

Lemma set_body_captured_refines m a d ct0 :
  Repr o m a -> no_colon ct0 -> (d = [] -> a_trailers a = [] -> removable a) ->
  refines o m (body_captured garbage d ct0 m) (set_body_captured d ct0 a).
Proof.
  intros HR Hcol Hrem. destruct (list_eq_nil_dec d) as [->|Hd]; [|by apply set_body_captured_nonempty].
  apply empty_body_refines; [done|by apply Hrem|]. intros m1 Hh1. by destruct (setBodyInternal [] m1).
Qed.
End Bodies.

(** Appending to the body of a message and adding trailers refine the same on responses. *)

(** ** Digits *)

Lemma digits_exist fuel n :
  0 <= n < 10 ^ Z.of_nat fuel -> fuel <> 0%nat -> exists k, 0 < k <= Z.of_nat fuel /\ (10 ^ (k - 1) <= n < 10 ^ k \/ (k = 1 /\ n < 10)).
Proof.
  induction fuel as [|fuel IH]; [done|]. intros Hn _. destruct (Z.lt_ge_cases n (10 ^ Z.of_nat fuel)) as [H|H].
  - destruct fuel as [|fuel]; [exists 1; cbn in *; lia|]. destruct IH as (k & Hk & H'); [lia|done|]. exists k. split; [lia|done].
  - exists (Z.of_nat (S fuel)). split; [lia|]. left. replace (Z.of_nat (S fuel) - 1) with (Z.of_nat fuel) by lia. lia.
Qed.

Lemma nchars_mono n n' : (n <= n')%nat -> Z.of_nat n' < 2 ^ 64 -> (nchars n <= nchars n')%nat.
Proof.
  intros Hle Hn'. rewrite !nchars_decimal by lia. unfold decimal.
  assert (Hf : forall z, (z <= n')%nat -> 0 <= Z.of_nat z < 10 ^ Z.of_nat 20)
    by (intros z Hz; change (10 ^ Z.of_nat 20) with 100000000000000000000; lia).
  destruct (digits_exist 20 (Z.of_nat n) (Hf n Hle) ltac:(done)) as (k & [Hk0 _] & Hk).
  destruct (digits_exist 20 (Z.of_nat n') (Hf n' (le_n _)) ltac:(done)) as (k' & [Hk0' _] & Hk').
  pose proof (length_decimal_loop 20 _ [] ltac:(done) (Hf n Hle) k Hk0 Hk) as E.
  pose proof (length_decimal_loop 20 _ [] ltac:(done) (Hf n' (le_n _)) k' Hk0' Hk') as E'.
  assert (k <= k'); [|unfold zlen in E, E'; cbn [length] in E, E'; lia].
  destruct Hk as [Hk|[-> _]]; [|lia]. destruct Hk' as [Hk'|[-> Hk']].
  - destruct (Z.le_gt_cases k k') as [|Hgt]; [done|exfalso]. assert (10 ^ k' <= 10 ^ (k - 1)) by (apply Z.pow_le_mono_r; lia). lia.
  - destruct (Z.le_gt_cases k 1) as [|Hgt]; [done|exfalso]. assert (10 ^ 1 <= 10 ^ (k - 1)) by (apply Z.pow_le_mono_r; lia). lia.
Qed.

Lemma nchars_small n : Z.of_nat n < 2 ^ 39 -> (nchars n <= 12)%nat.
Proof.
  intros Hn. rewrite nchars_decimal by lia. unfold decimal.
  destruct (digits_exist 12 (Z.of_nat n)) as (k & [Hk0 Hk12] & Hk); [change (10 ^ Z.of_nat 12) with 1000000000000; lia|done|].
  assert (Hf : 0 <= Z.of_nat n < 10 ^ Z.of_nat 20) by (change (10 ^ Z.of_nat 20) with 100000000000000000000; lia).
  pose proof (length_decimal_loop 20 _ [] ltac:(done) Hf k Hk0 Hk) as E. unfold zlen in E. cbn [length] in E. lia.
Qed.

(** ** Values replaced where there is room *)

Lemma replace_value_parts m start a f b tail y first :
  Parts m start (header_text (a ++ f :: b)) tail -> Forall (fun c => c <> 13) (snd f) ->
  first = (length (start ++ crlf_lines a) + length (fst f) + 4)%nat ->
  (msize m + length y <= capacity (hm_data m) + length (snd f))%nat ->
  pos_ok (length start) (length (start ++ header_text (a ++ (fst f, y) :: b))) ->
  exists m', replaceHeaderValueNoRealloc first y m = Some m' /\ edited m m' start (header_text (a ++ (fst f, y) :: b)) tail.
Proof.
  intros Hp H13 -> Hc Hpos. rewrite header_text_value in Hp, Hpos |- *. cbn [fst snd] in *.
  set (h1 := crlf_lines a ++ CRLF ++ fst f ++ HeaderSep) in *.
  assert (Ef : (length (start ++ crlf_lines a) + length (fst f) + 4)%nat = length (start ++ h1)) by (subst h1; rewrite !length_app; cbn; lia).
  rewrite Ef. destruct (parts_positions _ _ _ _ Hp) as (_ & _ & Es & _ & spare & Em).
  assert (Em' : exists post, drop (length (start ++ h1)) (mem m) = snd f ++ 13 :: post).
  { eexists. rewrite Em. replace (start ++ (h1 ++ snd f ++ header_text b) ++ tail ++ spare)
      with ((start ++ h1) ++ snd f ++ header_text b ++ tail ++ spare) by by rewrite <- !app_assoc.
    rewrite drop_app_length, header_text_flat. done. }
  destruct Em' as [post Em']. unfold replaceHeaderValueNoRealloc. rewrite Em', memchr_pos_app by done. cbn [mbind option_bind].
  destruct (Nat.eqb_spec (length y) (length (snd f))) as [El|El].
  - cbn [mbind option_bind]. apply (overwrite_parts m start h1 (snd f)); [done|done].
  - destruct (splice_resize m start h1 (snd f) (header_text b) tail y Hp) as (m' & E & He);
      [rewrite Es, !length_app in *; lia|done|].
    exists m'. split; [|done]. rewrite <- E. unfold grown.
    replace (msize m - (length (start ++ h1) + length (snd f)))%nat with (length (header_text b ++ tail)) by (rewrite Es, !length_app; lia).
    destruct (mmove _ _ _ _) as [m1|]; [|done]. cbn [mbind option_bind]. by destruct (madjustSize _ _).
Qed.

(** Bytes after the end, before or after the size says so. *)
Lemma grow_tail m start hdr tail y :
  Parts m start hdr tail -> (msize m + length y <= capacity (hm_data m))%nat ->
  exists m1 m1' m2, mpoke (msize m) y m = Some m1 /\ maddSize (length y) m1 = Some m2
    /\ maddSize (length y) m = Some m1' /\ mpoke (msize m) y m1' = Some m2
    /\ Parts m2 start hdr (tail ++ y) /\ same_rest m m2.
Proof.
  intros Hp Hc. destruct (parts_positions _ _ _ _ Hp) as (_ & _ & Es & _). destruct Hp as ((spare & Em & Esz) & Ebm & Hpos).
  unfold mpoke, maddSize, on_data. rewrite Es. unfold capacity in Hc. rewrite Es, Em, !length_app in Hc.
  set (text := start ++ hdr ++ tail) in *.
  pose proof (poke_rest (hm_data m) text spare y ltac:(by subst text; rewrite Em, <- !app_assoc) ltac:(lia)) as Ep.
  set (r1 := MkRawChars (text ++ y ++ drop (length y) spare) (rc_size (hm_data m))) in *.
  destruct (setSize_holds r1 (text ++ y) (drop (length y) spare) (length text + length y)) as (r & E & Hh & _);
    [subst r1; cbn [rc_buf]; by rewrite <- !app_assoc|by rewrite (length_app text)|].
  destruct (setSize_poke _ _ _ _ _ _ Ep E) as (r1' & E' & Ep').
  exists (set_data r1 m), (set_data r1' m), (set_data r m). rewrite Ep. split; [done|].
  unfold addSize. cbn [set_data hm_data]. subst r1. cbn [rc_size]. rewrite Esz in E, Ep |- *. rewrite E, E'. cbn [mbind option_bind].
  split; [done|]. split; [done|]. cbn [hm_data]. rewrite Ep'. split; [done|]. split; [|done]. split; [|done]. cbn [set_data hm_data].
  revert Hh. subst text. by rewrite <- !app_assoc.
Qed.

(** ** Appending to a body *)

Section Append.
Context (garbage : Z) (o : Options).

(** The content type and the content length of a body are replaced, in this order. *)
Lemma replace_both_parts m start fs ct n tail ct' n' :
  Parts m start (header_text (fs ++ length_fields ct n)) tail -> type_ok ct -> type_ok ct' -> (n <= n')%nat -> Z.of_nat n' < 2 ^ 64 ->
  (Z.of_nat (msize m) + Z.of_nat (nchars n') - Z.of_nat (nchars n) + zlen ct' - zlen ct <= Z.of_nat (capacity (hm_data m))) ->
  pos_ok (length start) (length (start ++ header_text (fs ++ length_fields ct' n'))) ->
  exists m1 p1 p2 m2, getContentTypeValuePtr m = Some p1 /\ replaceHeaderValueNoRealloc p1 ct' m = Some m1
    /\ getContentLengthValuePtr m1 = Some p2 /\ replaceHeaderValueNoRealloc p2 (decimal (Z.of_nat n')) m1 = Some m2
    /\ edited m m2 start (header_text (fs ++ length_fields ct' n')) tail.
Proof.
  intros Hp Hct Hct' Hn Hn64 Hc Hpos.
  assert (Hd : nchars n = length (decimal (Z.of_nat n))) by (apply nchars_decimal; lia).
  assert (Hd' : nchars n' = length (decimal (Z.of_nat n'))) by (apply nchars_decimal; lia).
  pose proof (nchars_mono n n' Hn Hn64) as Hmono.
  assert (Hpos1 : pos_ok (length start) (length (start ++ header_text (fs ++ length_fields ct' n)))).
  { destruct Hpos as [? Hb]. split; [done|]. revert Hb. rewrite !header_text_app, !length_app. unfold length_fields, header_text, crlf_lines.
    cbn [map concat]. unfold crlf_line. cbn [fst snd]. rewrite !length_app, !length_crlf_line, <- Hd, <- Hd'. unfold HeaderSize. lia. }
  unfold zlen in Hc. unfold length_fields in Hp at 1, Hpos1 at 1.
  destruct (replace_value_parts m start fs (n_content_type, ct) [(n_content_length, decimal (Z.of_nat n))] tail ct' (type_at start fs + 16) Hp)
    as (m1 & E1 & Hp1 & Hs1 & Hc1); [|unfold type_at; cbn; lia|cbn [snd]; lia|done|].
  { cbn [snd]. eapply Forall_impl; [apply Hct|]. by intros c (_ & ? & _). }
  cbn [fst] in Hp1. change [(n_content_type, ct'); (n_content_length, decimal (Z.of_nat n))] with (length_fields ct' n) in Hp1.
  exists m1, (type_at start fs + 16)%nat, (length_at start fs ct' + 18)%nat.
  pose proof (length_value_ptr m1 start fs ct' n tail Hp1) as Eptr.
  assert (Esz : (msize m1 + length ct = msize m + length ct')%nat).
  { destruct (parts_positions _ _ _ _ Hp) as (_ & _ & -> & _). destruct (parts_positions _ _ _ _ Hp1) as (_ & _ & -> & _).
    change ((n_content_type, ct) :: [(n_content_length, decimal (Z.of_nat n))]) with (length_fields ct n).
    rewrite !header_text_end, !length_app. unfold WriteHeader. rewrite !length_app. lia. }
  assert (Esplit : forall k, fs ++ length_fields ct' k = (fs ++ [(n_content_type, ct')]) ++ [(n_content_length, decimal (Z.of_nat k))])
    by (intros k; by rewrite <- app_assoc).
  rewrite Esplit in Hp1.
  destruct (replace_value_parts m1 start _ _ [] tail (decimal (Z.of_nat n')) (length_at start fs ct' + 18) Hp1) as (m2 & E2 & Hp2 & Hs2 & Hc2).
  - cbn [snd]. apply not_digit. lia.
  - rewrite crlf_lines_app. unfold length_at, type_at. cbn [crlf_lines map concat]. rewrite app_nil_r. unfold crlf_line. cbn [fst snd].
    rewrite !length_app, length_crlf_line. unfold HeaderSize. cbn [fst]. lens. lia.
  - cbn [snd]. rewrite <- Hd, <- Hd'. lia.
  - cbn [fst]. by rewrite <- Esplit.
  - exists m2. rewrite (type_value_ptr m start fs ct n tail Hp Hct). repeat (split; [done|]). cbn [fst] in Hp2. rewrite <- Esplit in Hp2.
    split; [done|]. split; [by eapply same_rest_trans|by rewrite Hc2].
Qed.

(** Only the content length is. *)
Lemma replace_length_parts m start fs ct n tail n' :
  Parts m start (header_text (fs ++ length_fields ct n)) tail -> Z.of_nat n < 2 ^ 64 -> Z.of_nat n' < 2 ^ 64 ->
  (Z.of_nat (msize m) + Z.of_nat (nchars n') - Z.of_nat (nchars n) <= Z.of_nat (capacity (hm_data m))) ->
  pos_ok (length start) (length (start ++ header_text (fs ++ length_fields ct n'))) ->
  exists p2 m2, getContentLengthValuePtr m = Some p2 /\ replaceHeaderValueNoRealloc p2 (decimal (Z.of_nat n')) m = Some m2
    /\ edited m m2 start (header_text (fs ++ length_fields ct n')) tail.
Proof.
  intros Hp Hn64 Hn64' Hc Hpos.
  assert (Hd : nchars n = length (decimal (Z.of_nat n))) by (apply nchars_decimal; lia).
  assert (Hd' : nchars n' = length (decimal (Z.of_nat n'))) by (apply nchars_decimal; lia).
  exists (length_at start fs ct + 18)%nat. rewrite (length_value_ptr m start fs ct n tail Hp).
  assert (Esplit : forall k, fs ++ length_fields ct k = (fs ++ [(n_content_type, ct)]) ++ [(n_content_length, decimal (Z.of_nat k))])
    by (intros k; by rewrite <- app_assoc).
  rewrite Esplit in Hp.
  destruct (replace_value_parts m start _ _ [] tail (decimal (Z.of_nat n')) (length_at start fs ct + 18) Hp) as (m2 & E2 & He2).
  - cbn [snd]. apply not_digit. lia.
  - rewrite crlf_lines_app. unfold length_at, type_at. cbn [crlf_lines map concat]. rewrite app_nil_r. unfold crlf_line. cbn [fst snd].
    rewrite !length_app, length_crlf_line. unfold HeaderSize. cbn [fst]. lens. lia.
  - cbn [snd]. rewrite <- Hd, <- Hd'. lia.
  - cbn [fst]. by rewrite <- Esplit.
  - exists m2. repeat (split; [done|]). cbn [fst] in He2. by rewrite <- Esplit in He2.
Qed.

(** The capacity, the content type if one is given, the content length. *)
Lemma append_headers m start fs ct n tail given ct' n' extra :
  Parts m start (header_text (fs ++ length_fields ct n)) tail -> type_ok ct -> ct' = (if bool_decide (given = []) then ct else given) ->
  type_ok ct' -> (n <= n')%nat -> Z.of_nat n' < 2 ^ 64 ->
  pos_ok (length start) (length (start ++ header_text (fs ++ length_fields ct' n'))) ->
  let base := Z.of_nat (nchars n') - Z.of_nat (nchars n) + Z.of_nat extra in
  exists needed m1 p2 m2,
    (if bool_decide (given = []) then Some base
     else p ← getContentTypeValuePtr m; let it := search_crlf_in (mem m) p (msize m) in
          if Nat.eqb it (msize m) then None else Some (base + zlen given - (Z.of_nat it - Z.of_nat p))) = Some needed
    /\ (if bool_decide (given = []) then Some (mensure_exp_signed garbage needed m)
        else p ← getContentTypeValuePtr (mensure_exp_signed garbage needed m);
             replaceHeaderValueNoRealloc p given (mensure_exp_signed garbage needed m)) = Some m1
    /\ getContentLengthValuePtr m1 = Some p2 /\ replaceHeaderValueNoRealloc p2 (decimal (Z.of_nat n')) m1 = Some m2
    /\ Parts m2 start (header_text (fs ++ length_fields ct' n')) tail /\ same_rest m m2
    /\ (msize m2 + extra <= capacity (hm_data m2))%nat.
Proof.
  intros Hp Hct Ect Hct' Hn Hn64 Hpos base. pose proof (nchars_mono n n' Hn Hn64) as Hmono.
  assert (Hd : nchars n = length (decimal (Z.of_nat n))) by (apply nchars_decimal; lia).
  assert (Hd' : nchars n' = length (decimal (Z.of_nat n'))) by (apply nchars_decimal; lia).
  destruct (parts_positions _ _ _ _ Hp) as (_ & _ & Es & Hcap & _).
  assert (Esz : forall m2, Parts m2 start (header_text (fs ++ length_fields ct' n')) tail ->
    Z.of_nat (msize m2) = Z.of_nat (msize m) + zlen ct' - zlen ct + Z.of_nat (nchars n') - Z.of_nat (nchars n)).
  { intros m2 Hp2. destruct (parts_positions _ _ _ _ Hp2) as (_ & _ & E2 & _). rewrite Es, E2. unfold zlen.
    rewrite !header_text_end, !length_app, !length_crlf_line. unfold WriteHeader, HeaderSize. rewrite !length_app. lia. }
  assert (Hroom : forall needed, needed = base + zlen ct' - zlen ct ->
    Parts (mensure_exp_signed garbage needed m) start (header_text (fs ++ length_fields ct n)) tail
    /\ same_rest m (mensure_exp_signed garbage needed m)
    /\ Z.of_nat (msize m) + needed <= Z.of_nat (capacity (hm_data (mensure_exp_signed garbage needed m)))
    /\ msize (mensure_exp_signed garbage needed m) = msize m).
  { intros needed ->. destruct (mensure_exp_signed_parts garbage (base + zlen ct' - zlen ct) m _ _ _ Hp) as (H1 & H2 & H3).
    split; [done|]. split; [done|]. split; [rewrite Es; lia|]. destruct (parts_positions _ _ _ _ H1) as (_ & _ & -> & _). by rewrite Es. }
  case_bool_decide as Eg.
  - rewrite Ect in *. destruct (Hroom base ltac:(lia)) as (Hp1 & Hs1 & Hc1 & Em1). set (m1 := mensure_exp_signed garbage base m) in *.
    destruct (replace_length_parts m1 start fs ct n tail n' Hp1) as (p2 & m2 & E1 & E2 & Hp2 & Hs2 & Hc2); [lia|done|rewrite Em1; lia|done|].
    exists base, m1, p2, m2. do 5 (split; [done|]). split; [by eapply same_rest_trans|]. specialize (Esz m2 Hp2). rewrite Hc2. lia.
  - rewrite (type_value_ptr m start fs ct n tail Hp Hct). cbn [mbind option_bind].
    assert (Eit : search_crlf_in (mem m) (type_at start fs + 16) (msize m) = (type_at start fs + 16 + length ct)%nat
                  /\ (type_at start fs + 16 + length ct < msize m)%nat).
    { destruct (parts_positions _ _ _ _ Hp) as (_ & _ & _ & _ & spare & Em). rewrite header_text_end in Em, Es.
      set (a := start ++ crlf_lines fs ++ CRLF ++ n_content_type ++ HeaderSep).
      assert (La : (type_at start fs + 16)%nat = length a) by (subst a; unfold type_at; lens; cbn; lia).
      rewrite La. set (rest := n_content_length ++ HeaderSep ++ decimal (Z.of_nat n) ++ DoubleCRLF ++ tail) in *.
      assert (Em' : mem m = a ++ ct ++ CRLF ++ rest ++ spare).
      { rewrite Em. subst a rest. unfold WriteHeader, WriteCRLFHeader, WriteHeader. by rewrite <- !app_assoc. }
      assert (Es' : msize m = (length a + length ct + 2 + length rest)%nat).
      { rewrite Es. subst a rest. unfold WriteHeader, WriteCRLFHeader, WriteHeader. rewrite !length_app. change (length CRLF) with 2%nat. lia. }
      split; [|lia]. unfold search_crlf_in. rewrite Em', drop_app_length. rewrite Es'.
      replace (length a + length ct + 2 + length rest - length a)%nat with (length ct + (2 + length rest))%nat by lia.
      rewrite take_app_add. change (2 + length rest)%nat with (length CRLF + length rest)%nat. rewrite take_app_add, SearchCRLF_app; [done|].
      eapply Forall_impl; [apply Hct|]. by intros c (_ & _ & ?). }
    destruct Eit as [-> Hlt]. cbv zeta. rewrite (proj2 (Nat.eqb_neq _ _)) by lia. rewrite Ect in *.
    set (needed := base + zlen given - _). destruct (Hroom needed) as (Hp1 & Hs1 & Hc1 & Em1); [subst needed; unfold zlen; lia|].
    set (m0 := mensure_exp_signed garbage needed m) in *.
    destruct (replace_both_parts m0 start fs ct n tail given n' Hp1 Hct Hct' Hn Hn64) as (m1 & p1 & p2 & m2 & E1 & E2 & E3 & E4 & Hp2 & Hs2 & Hc2);
      [rewrite Em1; subst needed base; unfold zlen in *; lia|done|].
    exists needed, m1, p2, m2. split; [done|]. split; [fold m0; rewrite E1; exact E2|]. do 3 (split; [done|]).
    split; [by eapply same_rest_trans|]. specialize (Esz m2 Hp2). rewrite Hc2. subst needed. unfold zlen in *. lia.
Qed.

Lemma given_type_ok ct : no_colon ct -> IsValidHeaderValue (TrimOws ct) = true -> (7 <= length (TrimOws ct))%nat -> type_ok (TrimOws ct).
Proof.
  intros H58 Hv Hl. split; [exact Hl|]. unfold IsValidHeaderValue in Hv. rewrite forallb_forall in Hv. unfold no_colon in H58.
  rewrite Forall_forall in *. intros b Hb. split; [by apply H58|]. assert (Hc : header_char b = true) by by apply Hv, list_elem_of_In.
  split; intros ->; done.
Qed.

(** What is known of a body in memory. *)
Lemma in_memory_facts m a :
  Repr o m a -> in_memory (a_body a) = true ->
  hasBodyFile m = false /\ bodyLength m = length (body_data (a_body a)) /\ length (body_data (a_body a)) <> 0%nat
  /\ hasBodyCaptured m = (match a_body a with CapturedBody _ _ => true | _ => false end)
  /\ type_ok (body_type (a_body a)) /\ body_fields (a_body a) = length_fields (body_type (a_body a)) (length (body_data (a_body a))).
Proof.
  intros HR Hm. pose proof (repr_bodyLength _ _ _ HR) as Hbl. pose proof (repr_captured _ _ _ HR) as Hcap.
  destruct HR as (_ & _ & _ & Epay & _ & Hw). pose proof (body_data_nonempty a Hw) as Hne. pose proof Hw as (_ & _ & _ & _ & _ & Hbw & _).
  unfold hasBodyFile. rewrite Epay. unfold payload_of, body_wf in *. rewrite Hbl, Hcap.
  destruct (a_body a) as [|ct d|ct d|ct n]; try done; (split; [done|]; split; [done|]; split; [by apply Hne|]; split; [done|]; split; [tauto|done]).
Qed.

Lemma append_to_refines m a d contentType :
  Repr o m a -> in_memory (a_body a) = true -> d <> [] -> no_colon contentType ->
  (TrimOws contentType = [] \/ 7 <= length (TrimOws contentType))%nat ->
  refines o m (bodyAppend garbage d contentType m) (append_to (a_body a) d contentType a).
Proof.
  intros HR Hm Hd Hcol Hgl. destruct (in_memory_facts m a HR Hm) as (Hfile & Hbl & Hne & Hcap & Hct & Hbf).
  unfold bodyAppend, append_to. rewrite (bool_decide_false (d = [])) by done. rewrite Hfile, Hbl, (proj2 (Nat.eqb_neq _ 0)) by done.
  unfold bodyPrecheckContentType. rewrite (repr_trailersSize _ _ _ HR). unfold trailer_text.
  set (old := body_data (a_body a)) in *. set (ct := body_type (a_body a)) in *. set (given := TrimOws contentType) in *.
  destruct (bool_decide_reflect (a_trailers a = [])) as [Ht|Ht]; cbn [negb].
  2: { destruct (a_trailers a) as [|t ts] eqn:Et; [done|]. rewrite (proj2 (Nat.eqb_neq _ 0)); [done|].
       pose proof (flat_lines_length (t :: ts)) as H. cbn [length] in H. lia. }
  rewrite Ht. change (length (flat_lines [])) with 0%nat. cbn [Nat.eqb negb].
  destruct (negb (bool_decide (given = [])) && negb (IsValidHeaderValue given)) eqn:Eg; [done|].
  set (ct' := if bool_decide (given = []) then ct else given). set (b' := with_data (a_body a) ct' (old ++ d)). intros Hsz. cbv zeta.
  assert (Hct' : type_ok ct').
  { subst ct'. case_bool_decide as E; [done|]. cbn [negb andb] in Eg. apply negb_false_iff in Eg. apply given_type_ok; [done|done|].
    by destruct Hgl as [?|?]. }
  assert (Ebd : body_data b' = old ++ d) by (subst b'; unfold with_data; by destruct (a_body a)).
  assert (Ebf : body_fields b' = length_fields ct' (length old + length d)) by
    (subst b'; unfold with_data, body_fields; destruct (a_body a); cbn [has_body body_type body_len body_data]; by rewrite length_app).
  assert (Hn64 : Z.of_nat (length old + length d) < 2 ^ 64) by (apply data_small in Hsz; rewrite Ebd, length_app in Hsz; done).
  pose proof HR as (start & Hp & Hs & Epay & Eo & Hw).
  assert (Hw' : wf (with_body b' a)).
  { apply with_body_wf; [done| |done]. unfold body_wf. cbn [with_body a_body a_trailers]. subst b'. unfold with_data.
    assert (old ++ d <> []) by by destruct old. destruct (a_body a); try done. }
  pose proof (size_pos_ok _ start Hw' Hs) as Hpos. unfold all_fields in Hp, Hpos. cbn [with_body a_fields a_body] in Hpos.
  rewrite Hbf in Hp. rewrite Ebf in Hpos.
  assert (Eextra : exists extra, Z.of_nat extra = (if hasBodyCaptured m then 0 else zlen d)).
  { destruct (hasBodyCaptured m); [by exists 0%nat|]. by exists (length d). }
  destruct Eextra as [extra Eextra].
  destruct (append_headers m start _ ct _ _ given ct' (length old + length d) extra Hp Hct eq_refl Hct' ltac:(lia) Hn64 Hpos)
    as (needed & m1 & p2 & m2 & E1 & E2 & E3 & E4 & Hp2 & [Sp So] & Hc2).
  cbv zeta in E1. rewrite Eextra in E1. rewrite E1. cbn [mbind option_bind]. rewrite E2. cbn [mbind option_bind]. rewrite E3. cbn [mbind option_bind].
  rewrite E4. cbn [mbind option_bind].
  assert (Hh2 : isHead m2 = false) by (unfold isHead; rewrite So, Eo; done). rewrite Hh2.
  rewrite Hcap in *. destruct (a_body a) as [|ct0 d0|ct0 d0|ct0 n0] eqn:Eab; try done.
  - assert (extra = length d) as -> by (unfold zlen in Eextra; lia).
    destruct (grow_tail m2 start _ _ d Hp2 Hc2) as (m3 & _ & m4 & E5 & E6 & _ & _ & Hp4 & [Sp4 So4]). rewrite E5. cbn [mbind option_bind]. rewrite E6.
    cbn [returns option_map]. exists m4. split; [done|]. apply (body_repr o _ a start); [|done| | |done].
    + rewrite Ebf. subst b'. cbn [with_data]. rewrite inline_no_trailers by done. unfold inline_text in Hp4. rewrite Eab in Hp4.
      unfold trailer_text in Hp4. rewrite Ht in Hp4. change (flat_lines []) with (@nil Z) in Hp4. by rewrite app_nil_r in Hp4.
    + rewrite Sp4, Sp, Epay. unfold payload_of. by rewrite Eab.
    + by rewrite So4, So.
  - rewrite Sp, Epay. unfold payload_of. rewrite Eab. cbn [payload_append mbind option_bind returns option_map]. eexists. split; [done|].
    apply (body_repr o _ a start); [|done| | |done].
    + rewrite Ebf. unfold inline_text in Hp2. rewrite Eab in Hp2. exact Hp2.
    + cbn [set_payload hm_payload]. subst b'. cbn [with_data]. rewrite captured_no_trailers by done. unfold trailer_text.
      rewrite Ht. change (flat_lines []) with (@nil Z). by rewrite app_nil_r.
    + cbn [set_payload hm_opts]. by rewrite So.
Qed.

(** What an application must respect when it appends. *)
Definition append_ok (a : Response) (contentType : bytes) : Prop :=
  no_colon contentType
  /\ (in_memory (a_body a) = true -> TrimOws contentType = [] \/ 7 <= length (TrimOws contentType))%nat.

Lemma append_body_refines m a d contentType :
  Repr o m a -> append_ok a contentType -> refines o m (bodyAppend garbage d contentType m) (append_body d contentType a).
Proof.
  intros HR [Hcol Hgl]. unfold append_body. destruct (list_eq_nil_dec d) as [->|Hd].
  { unfold bodyAppend. rewrite !(bool_decide_true ([] = [])) by done. intros _. by exists m. }
  rewrite (bool_decide_false (d = [])) by done. destruct (a_body a) as [|ct0 d0|ct0 d0|ct0 n0] eqn:Eab.
  - unfold bodyAppend. rewrite (bool_decide_false (d = [])) by done.
    assert (Hf : hasBodyFile m = false) by (destruct HR as (_ & _ & _ & Epay & _); unfold hasBodyFile; rewrite Epay; unfold payload_of; by rewrite Eab).
    rewrite Hf, (repr_bodyLength _ _ _ HR), Eab. cbn [body_len body_data length Nat.eqb]. apply set_body_refines; [done| |done].
    case_bool_decide; [|done]. unfold no_colon. vm_compute. repeat constructor; discriminate.
  - rewrite <- Eab. apply append_to_refines; [done|by rewrite Eab|done|done|apply Hgl; by rewrite ?Eab].
  - rewrite <- Eab. apply append_to_refines; [done|by rewrite Eab|done|done|apply Hgl; by rewrite ?Eab].
  - unfold bodyAppend. rewrite (bool_decide_false (d = [])) by done.
    assert (Hf : hasBodyFile m = true) by (destruct HR as (_ & _ & _ & Epay & _); unfold hasBodyFile; rewrite Epay; unfold payload_of; by rewrite Eab).
    by rewrite Hf.
Qed.

(** ** Trailers *)

Lemma add_trailer_refines m a name value :
  Repr o m a -> bytes_ok name -> IsForbiddenTrailerHeader name = false ->
  refines o m (trailerAddLine garbage name value m) (add_trailer name value a).
Proof.
  intros HR Hk Hforb. unfold trailerAddLine, add_trailer. rewrite Hforb.
  destruct (IsValidHeaderName name) eqn:En; [|done]. destruct (IsValidHeaderValue value) eqn:Ev; [|done]. cbn [negb].
  assert (Em : hasBodyInMemory m = in_memory (a_body a)).
  { unfold hasBodyInMemory. rewrite (repr_captured _ _ _ HR), (repr_inlined _ _ _ HR). by destruct (a_body a). }
  rewrite Em. destruct (in_memory (a_body a)) eqn:Hm; [|done]. cbn [negb]. cbv zeta.
  rewrite (repr_isHead _ _ _ HR), (repr_trailersSize _ _ _ HR). set (v := TrimOws value). set (lineSize := HeaderSize (length name) (length v)).
  destruct (Z.leb_spec (2 ^ 32) (Z.of_nat (lineSize + length (trailer_text a)))) as [Hbig|Hbig]; [done|]. intros Hsz.
  set (line := WriteHeaderCRLF name v).
  assert (Lline : length line = lineSize) by (subst line lineSize; unfold WriteHeaderCRLF, WriteHeader, HeaderSize; lens; cbn; lia).
  assert (Hvalid : IsValidHeaderValue v = true).
  { subst v. unfold IsValidHeaderValue in *. rewrite forallb_forall in *. intros c Hc. apply Ev.
    destruct (TrimOws_infix value) as (x & y & E). rewrite E. apply in_app_iff. right. apply in_app_iff. by left. }
  set (a' := with_trailers (a_trailers a ++ [(name, v)]) a) in *.
  assert (Ett : trailer_text a' = trailer_text a ++ line).
  { unfold trailer_text, a'. cbn [with_trailers a_trailers]. rewrite flat_lines_app. f_equal. change (flat_lines [(name, v)]) with (line ++ []). apply app_nil_r. }
  pose proof HR as (start & Hp & Hs & Epay & Eo & Hw).
  assert (Hw' : wf a').
  { destruct Hw as (W1 & W2 & W3 & W4 & W5 & W6 & W7 & W8 & _). split; [done|]. split; [done|]. split; [done|]. split; [done|]. split; [done|].
    split; [unfold body_wf in *; cbn [a' with_trailers a_body]; by destruct (a_body a)|]. split; [apply Forall_app; split; [done|]; constructor; [by apply valid_name_readable|done]|].
    split; [rewrite Ett, zlen_app; unfold zlen; lia|done]. }
  destruct (in_memory_facts m a HR Hm) as (_ & _ & _ & Hcap & Hct & Hbf). rewrite Hcap.
  assert (Eopt : forall m2, hm_opts m2 = hm_opts m -> hm_opts (set_trailerLen (lineSize + length (trailer_text a)) m2) = options_of o a').
  { intros m2 E2. unfold set_trailerLen. cbn [set_opts hm_opts]. rewrite E2, Eo. unfold options_of. rewrite Ett, length_app, Lline. cbn. f_equal; [done..|]. lia. }
  destruct (a_body a) as [|ct0 d0|ct0 d0|ct0 n0] eqn:Eab; try done.
  - set (needed := Z.of_nat (lineSize + 2) + _).
    assert (Hneeded : Z.of_nat lineSize <= needed).
    { assert (Hlen : (bodyInMemoryLength m = length d0)%nat).
      { pose proof (repr_bodyLength _ _ _ HR) as Hbl. unfold bodyLength in Hbl. rewrite Epay in Hbl. unfold payload_of in Hbl. by rewrite Eab in Hbl. }
      assert (Hsmall : (nchars (length d0) <= 12)%nat).
      { apply nchars_small. unfold size_ok in Hsz. cbn [a' with_trailers a_body] in Hsz. rewrite Eab in Hsz. cbn [body_data] in Hsz.
        pose proof (zlen_nonneg (a_reason a')). pose proof (zlen_nonneg (header_text (all_fields a'))). pose proof (zlen_nonneg (trailer_text a')).
        unfold zlen in *. lia. }
      subst needed. rewrite Hlen. unfold TransferEncodingHeaderSizeDiff, HeaderSize.
      change (zlen kTransferEncodingChunkedCRLF) with 28. change (length n_content_length) with 14%nat. pose proof (zlen_nonneg name).
      pose proof (zlen_nonneg kTrailerValueSep). destruct (Nat.eqb _ 0), (_ || _); lia. }
    destruct (mensure_exp_signed_parts garbage needed m _ _ _ Hp) as (Hp1 & [Sp1 So1] & Hc1). set (m1 := mensure_exp_signed garbage needed m) in *.
    destruct (parts_positions _ _ _ _ Hp1) as (_ & _ & Es1 & _).
    destruct (grow_tail m1 start _ _ line Hp1) as (_ & m2 & m3 & _ & _ & E2 & E3 & Hp3 & [Sp3 So3]); [rewrite Es1, Lline; lia|].
    rewrite Lline in E2. rewrite E2. cbn [mbind option_bind]. rewrite E3. cbn [mbind option_bind returns option_map].
    eexists. split; [done|]. exists start. split; [|split; [done|split; [|split; [by apply Eopt; rewrite So3|done]]]].
    + unfold all_fields, inline_text in *. cbn [a' with_trailers a_fields a_body]. rewrite Ett, Eab in *. rewrite app_assoc. exact Hp3.
    + unfold set_trailerLen. cbn [set_opts hm_payload]. rewrite Sp3, Sp1, Epay. unfold payload_of. cbn [a' with_trailers a_body]. by rewrite Eab.
  - rewrite Epay. unfold payload_of. rewrite Eab. cbn [payload_append mbind option_bind returns option_map]. eexists. split; [done|].
    exists start. split; [|split; [done|split; [|split; [by apply Eopt|done]]]].
    + unfold all_fields, inline_text in *. cbn [a' with_trailers a_fields a_body]. rewrite Eab in *. exact Hp.
    + unfold set_trailerLen. cbn [set_opts set_payload hm_payload]. unfold payload_of. cbn [a' with_trailers a_body]. rewrite Eab. by rewrite Ett, app_assoc.
Qed.
End Append.
