(* ===== verification/HttpMessageInline.v ===== *)
(** Bodies that a writer puts in the buffer of a message, and the constructors with a body:
    they refine the operations on responses. *)

From S2P Require Import Prelude.
From S2P Require Import AsciiCase.
From S2P Require Import HeadersView.
From S2P Require Import UrlCodec.
From S2P Require Import Cors.
From S2P Require Import RoutePattern.
From S2P Require Import RoutePatternProofs.
From S2P Require Import ResponseParser.
From S2P Require Import TimeString.
From S2P Require Import RawChars.
From S2P Require Import HttpMessage.
From S2P Require Import HttpMessageSpec.
From S2P Require Import HttpMessageRepr.
From S2P Require Import HttpMessageFields.
From S2P Require Import HttpMessageBodies.
From S2P Require Import Http1Safety.
Local Open Scope Z_scope.

(** ** Bytes beyond the size *)

(** They are written, and some of them become the end of the message. *)
Lemma spare_written m start hdr tail text :
  Parts m start hdr tail -> (msize m + length text <= capacity (hm_data m))%nat ->
  exists m1, mpoke (msize m) text m = Some m1 /\ edited m m1 start hdr tail /\ msize m1 = msize m
    /\ forall w, (w <= length text)%nat -> exists m2, msetSize (msize m + w) m1 = Some m2 /\ edited m m2 start hdr (tail ++ take w text).
Proof.
  intros Hp Hc. destruct (parts_positions _ _ _ _ Hp) as (_ & _ & Es & _). destruct Hp as ((spare & Em & Esz) & Ebm & Hpos).
  unfold capacity in Hc. rewrite Es, Em, !length_app in Hc. unfold mpoke, on_data. rewrite Es. set (all := start ++ hdr ++ tail) in *.
  rewrite (poke_rest (hm_data m) all spare text) by (done || lia). cbn [mbind option_bind].
  set (r1 := MkRawChars (all ++ text ++ drop (length text) spare) (rc_size (hm_data m))).
  assert (Hcap : capacity r1 = capacity (hm_data m)).
  { unfold capacity. subst r1. cbn [rc_buf]. rewrite Em, !length_app, length_drop. subst all. rewrite !length_app in *. lia. }
  exists (set_data r1 m). split; [done|]. split.
  { split; [|by split]. split; [|by split]. by exists (text ++ drop (length text) spare). }
  split; [exact Es|]. intros w Hw. unfold msetSize, on_data. cbn [set_data hm_data].
  destruct (setSize_holds r1 (all ++ take w text) (drop w text ++ drop (length text) spare) (length all + w)) as (r2 & E & Hh & Er).
  - subst r1. cbn [rc_buf]. rewrite <- app_assoc. f_equal. by rewrite app_assoc, take_drop.
  - rewrite length_app, length_take. lia.
  - rewrite E. cbn [mbind option_bind]. eexists. split; [done|]. split; [|split; [done|]].
    + split; [|by split]. cbn [set_data hm_data]. subst all. by rewrite <- !app_assoc in Hh.
    + cbn [set_data hm_data]. rewrite <- Hcap. unfold capacity. by rewrite Er.
Qed.

Lemma mreserve_parts garbage n m start hdr tail :
  Parts m start hdr tail ->
  Parts (mreserve garbage n m) start hdr tail /\ same_rest m (mreserve garbage n m) /\ (n <= capacity (hm_data (mreserve garbage n m)))%nat
  /\ msize (mreserve garbage n m) = msize m.
Proof.
  intros Hp. pose proof Hp as (H & E & Hpos). destruct (reserve_holds garbage n _ _ H) as [H' Hr]. split; [done|]. split; [done|]. split; [done|].
  unfold msize. cbn [mreserve set_data hm_data]. by rewrite (holds_size _ _ H'), (holds_size _ _ H).
Qed.

Lemma write_lines_text ct n : header_text (length_fields ct n) = CRLF ++ WriteContentTypeContentLengthDoubleCRLF ct n.
Proof. unfold header_text, length_fields, crlf_lines. cbn [map concat]. rewrite app_nil_r. unfold crlf_line, WriteCRLFHeader at 1. by rewrite <- !app_assoc. Qed.

(** The lines of a new body replace the blank line. *)
Lemma lines_added m start fs ct n k :
  Parts m start (header_text fs) [] -> (length (start ++ header_text (fs ++ length_fields ct n)) + k <= capacity (hm_data m))%nat ->
  pos_ok (length start) (length (start ++ header_text (fs ++ length_fields ct n))) ->
  exists m', addContentTypeAndContentLengthHeaders ct n m = Some (length (start ++ header_text (fs ++ length_fields ct n)), m')
    /\ Parts m' start (header_text (fs ++ length_fields ct n)) [] /\ same_rest m m'
    /\ (length (start ++ header_text (fs ++ length_fields ct n)) + k <= capacity (hm_data m'))%nat
    /\ msize m' = length (start ++ header_text (fs ++ length_fields ct n)).
Proof.
  intros Hp Hc Hpos. destruct (parts_positions _ _ _ _ Hp) as (_ & Eb & Es & _ & spare & Em).
  set (p := start ++ crlf_lines fs ++ CRLF). set (text := WriteContentTypeContentLengthDoubleCRLF ct n).
  assert (Lp : (length (start ++ header_text fs) = length p + 2)%nat) by (subst p; unfold header_text; rewrite !length_app; cbn; lia).
  assert (Em1 : mem m = p ++ CRLF ++ spare).
  { rewrite Em. subst p. unfold header_text. change DoubleCRLF with (CRLF ++ CRLF). by rewrite <- !app_assoc. }
  assert (Ehdr : start ++ header_text (fs ++ length_fields ct n) = p ++ text).
  { rewrite header_text_app, write_lines_text. subst p text. by rewrite <- !app_assoc. }
  rewrite Ehdr in *. destruct Hp as (_ & Ebm & Hpos0).
  destruct (write_headers m start (header_text (fs ++ length_fields ct n)) p (CRLF ++ spare) text [] (length (start ++ header_text fs)) k Em1)
    as (m' & Ew & Hp' & Hs' & Hc').
  - unfold capacity in Hc. unfold mem in Em1. rewrite Em1, !length_app in Hc. rewrite length_app. cbn [length] in *. lia.
  - by rewrite app_nil_r.
  - exact Ebm.
  - exact Hpos0.
  - by rewrite Ehdr.
  - unfold addContentTypeAndContentLengthHeaders. rewrite Eb, Lp, back_sub by lia. replace (length p + 2 - 2)%nat with (length p) by lia.
    cbn [mbind option_bind]. fold text. destruct (mpoke (length p) text m) as [m1|] eqn:E1; [|done]. cbn [mbind option_bind] in Ew |- *.
    assert (E2 : mpoke (length p + length text) [] m1 = Some m1).
    { unfold mpoke, on_data. rewrite poke_nil; [cbn [mbind option_bind]; f_equal; by destruct m1|]. revert E1. unfold mpoke, on_data.
      destruct (poke (length p) text (hm_data m)) as [r|] eqn:Ep; [|done]. intros [= <-]. cbn [set_data hm_data].
      apply poke_capacity in Ep as [-> _]. rewrite length_app in Hc. lia. }
    rewrite E2 in Ew. cbn [mbind option_bind length] in Ew. rewrite Nat.add_0_r in Ew. rewrite Ehdr, length_app in Hc'. rewrite length_app.
    destruct (setBodyStartPos (length p + length text) m1) as [m2|]; [|done]. cbn [mbind option_bind] in Ew |- *. rewrite Ew. cbn [mbind option_bind].
    exists m'. split; [done|]. split; [done|]. split; [done|]. split; [done|].
    destruct (parts_positions _ _ _ _ Hp') as (_ & _ & -> & _). by rewrite app_nil_r, Ehdr, length_app.
Qed.

(** ** Sizes *)

Lemma length_fields_text ct n : Z.of_nat n < 2 ^ 64 ->
  length (crlf_lines (length_fields ct n)) = (HeaderSize (length n_content_type) (length ct) + HeaderSize (length n_content_length) (nchars n))%nat.
Proof.
  intros Hn. unfold length_fields, crlf_lines. cbn [map concat]. rewrite app_nil_r, length_app. unfold crlf_line. cbn [fst snd].
  by rewrite !length_crlf_line, nchars_decimal.
Qed.

Lemma header_text_length fs gs : length (header_text (fs ++ gs)) = (length (crlf_lines fs) + length (crlf_lines gs) + 4)%nat.
Proof. unfold header_text. rewrite crlf_lines_app, !length_app. done. Qed.

Lemma nchars_max n : Z.of_nat n < 2 ^ 64 -> (nchars n <= 20)%nat.
Proof. intros Hn. rewrite nchars_decimal by done. unfold decimal. pose proof (decimal_loop_length 20 (Z.of_nat n) []). cbn [length] in *. lia. Qed.

(** ** A body set by a writer *)

(** It returns at most what it wrote, and writes at most the room it has. *)
Definition writer_ok (maxLen : nat) (w : Writer) : Prop :=
  (wr_written w <= length (wr_text w) <= maxLen)%nat /\ Z.of_nat maxLen < 2 ^ 63.
Definition inline_type_ok (contentType : bytes) : Prop :=
  no_colon contentType /\ (TrimOws contentType = [] \/ 7 <= length (TrimOws contentType))%nat /\ zlen (TrimOws contentType) < 2 ^ 38.

Lemma written_nil w maxLen : writer_ok maxLen w -> bool_decide (written w = []) = Nat.eqb (wr_written w) 0.
Proof.
  intros [[Hw _] _]. unfold written. destruct (Nat.eqb_spec (wr_written w) 0) as [->|Hne]; [by rewrite take_0|].
  apply bool_decide_false. intros E. apply (f_equal length) in E. rewrite length_take in E. cbn in E. lia.
Qed.
Lemma written_length w maxLen : writer_ok maxLen w -> length (written w) = wr_written w.
Proof. intros [[Hw _] _]. unfold written. rewrite length_take. lia. Qed.

Lemma default_type_ok w : type_ok (defaultContentType w) /\ zlen (defaultContentType w) < 2 ^ 38.
Proof.
  unfold defaultContentType. destruct (wr_bytes w); (split; [|by vm_compute]); (split; [vm_compute; lia|]);
  apply Forall_forall; intros c Hc; repeat (apply elem_of_cons in Hc as [->|Hc]; [done|]); by apply not_elem_of_nil in Hc.
Qed.

Lemma given_or_ok contentType default :
  inline_type_ok contentType -> negb (bool_decide (TrimOws contentType = [])) && negb (IsValidHeaderValue (TrimOws contentType)) = false ->
  type_ok default -> zlen default < 2 ^ 38 ->
  type_ok (given_type contentType default) /\ zlen (given_type contentType default) < 2 ^ 38.
Proof.
  intros (Hc & Hl & Hz) Hv Hd Hdz. unfold given_type. case_bool_decide as E; [done|]. split; [|done]. cbn [negb andb] in Hv.
  apply negb_false_iff in Hv. apply given_type_ok; [done|done|]. by destruct Hl.
Qed.

Lemma fields_pos_ok a start ct n :
  wf a -> start_of a start -> zlen ct < 2 ^ 38 -> Z.of_nat n < 2 ^ 64 ->
  pos_ok (length start) (length (start ++ header_text (a_fields a ++ length_fields ct n))).
Proof.
  intros Hw Hst Hz Hn. pose proof (size_pos_ok _ _ Hw Hst) as [H1 _]. split; [done|]. destruct Hw as (_ & _ & _ & _ & _ & _ & _ & _ & Hs).
  rewrite length_app, header_text_length, length_fields_text, (start_length a) by done. pose proof (nchars_max n Hn).
  unfold size_ok, all_fields, zlen in *. rewrite header_text_length in Hs. unfold HeaderSize.
  change (length n_content_type) with 12%nat. change (length n_content_length) with 14%nat. lia.
Qed.

Lemma size_ok_no_body b c : a_body c = NoBody -> size_ok (with_body b c) -> size_ok c.
Proof.
  intros E H. unfold size_ok, all_fields, zlen in *. cbn [with_body a_reason a_fields a_body a_trailers] in H. rewrite E.
  change (body_fields NoBody) with (@nil field). rewrite header_text_length in *. change (trailer_text (with_body b c)) with (trailer_text c) in H.
  change (length (crlf_lines [])) with 0%nat. change (length (body_data NoBody)) with 0%nat. lia.
Qed.

Section Inline.
Context (garbage : Z) (o : Options).

Lemma precheck_refines m a contentType next k :
  Repr o m a ->
  (a_trailers a = [] -> negb (bool_decide (TrimOws contentType = [])) && negb (IsValidHeaderValue (TrimOws contentType)) = false ->
   refines o m (k (TrimOws contentType)) next) ->
  refines o m (match bodyPrecheckContentType contentType m with Throw what => Some (Throws what m) | Ret ct => k ct end)
    (check_type contentType a next).
Proof.
  intros HR H. unfold bodyPrecheckContentType, check_type. rewrite (repr_trailersSize _ _ _ HR). unfold trailer_text.
  destruct (bool_decide_reflect (a_trailers a = [])) as [Ht|Ht]; cbn [negb].
  2: { destruct (a_trailers a) as [|t ts] eqn:Et; [done|]. rewrite (proj2 (Nat.eqb_neq _ 0)); [done|].
       pose proof (flat_lines_length (t :: ts)) as Hl. cbn [length] in Hl. lia. }
  rewrite Ht. change (length (flat_lines [])) with 0%nat. cbn [Nat.eqb negb]. destruct (negb _ && negb _); [done|]. by apply H.
Qed.

(** From the reservation to the end of [bodyInlineSet]. *)
Definition inline_body (maxLen : nat) (w : Writer) (contentType : bytes) (m : HttpMessage) : option HttpMessage :=
  let contentTypeHeaderSize := HeaderSize (length n_content_type) (length contentType) in
  let contentLengthHeaderSize := HeaderSize (length n_content_length) (nchars maxLen) in
  let m := mreserve garbage (msize m + contentTypeHeaderSize + contentLengthHeaderSize + maxLen) m in
  '(pData, m) ← addContentTypeAndContentLengthHeaders contentType maxLen m;
  m ← mpoke pData (wr_text w) m;
  if Nat.eqb (wr_written w) 0 then
    n ← back (msize m) (contentLengthHeaderSize + contentTypeHeaderSize + internalBodyAndTrailersLen m);
    m ← msetSize n m;
    p ← back (msize m) 2;
    m ← mpoke p CRLF m;
    setBodyStartPos (msize m) m
  else
    m ← (if isHead m then Some (setHeadSize (wr_written w) m) else msetSize (pData + wr_written w) m);
    p ← getContentLengthValuePtr m;
    replaceHeaderValueNoRealloc p (decimal (Z.of_nat (wr_written w))) m.

Lemma no_body_tail b : wf b -> a_body b = NoBody -> a_trailers b = [] /\ all_fields b = a_fields b /\ inline_text b = [].
Proof.
  intros (_ & _ & _ & _ & _ & Hb & _) E. unfold body_wf in Hb. rewrite E in Hb. split; [done|]. unfold all_fields, inline_text. rewrite E.
  change (body_fields NoBody) with (@nil field). by rewrite app_nil_r.
Qed.

Lemma with_inline_repr m b start ct d :
  Repr o m b -> a_body b = NoBody -> type_ok ct -> d <> [] -> size_ok (with_body (InlineBody ct d) b) -> start_of b start ->
  forall m', Parts m' start (header_text (a_fields b ++ length_fields ct (length d))) d -> same_rest m m' ->
  Repr o m' (with_body (InlineBody ct d) b).
Proof.
  intros HR E Hct Hd Hsz Hs m' Hp [Sp So]. destruct HR as (_ & _ & _ & Epay & Eo & Hw). destruct (no_body_tail _ Hw E) as (Ht & _ & _).
  apply (body_repr o m' b start); [by rewrite inline_no_trailers|done| |by rewrite So|by apply with_body_wf].
  rewrite Sp, Epay. unfold payload_of. by rewrite E.
Qed.

(** Nothing was written: the lines are taken away. *)
Lemma uncut_lines m b start ct n :
  Repr o m b -> a_body b = NoBody -> type_ok ct -> Z.of_nat n < 2 ^ 64 -> start_of b start ->
  forall m', Parts m' start (header_text (a_fields b ++ length_fields ct n)) [] -> same_rest m m' ->
  exists m1 m2, (HeaderSize (length n_content_length) (nchars n) + HeaderSize (length n_content_type) (length ct)
                   + length (start ++ header_text (a_fields b)))%nat = msize m'
    /\ internalBodyAndTrailersLen m' = 0%nat /\ msetSize (length (start ++ header_text (a_fields b))) m' = Some m1
    /\ mpoke (msize m1 - 2) CRLF m1 = Some m2 /\ (2 <= msize m1)%nat
    /\ msize m2 = length (start ++ header_text (a_fields b)) /\ bodyStartPos m2 = bodyStartPos m'
    /\ hm_posBitmap m2 = hm_posBitmap m'
    /\ Repr o (set_bitmap (bitmap (length start) (length (start ++ header_text (a_fields b)))) m2) b.
Proof.
  intros HR E Hct Hn Hs m' Hp [Sp So]. destruct HR as (start' & Hp0 & _ & Epay & Eo & Hw). destruct (no_body_tail _ Hw E) as (Ht & Ef & Ei).
  destruct (cut_body m' start _ _ _ _ Hp Hct) as (_ & _ & m1 & m2 & E3 & E4 & Hp2 & [Sp2 So2]).
  destruct (parts_positions _ _ _ _ Hp) as (_ & Eb & Es & _). rewrite app_nil_r in Es.
  assert (Eat : (type_at start (a_fields b) + 4)%nat = length (start ++ header_text (a_fields b)))
    by (unfold type_at, header_text; rewrite !length_app; cbn; lia).
  rewrite Eat in E3. exists m1, m2. split; [|split; [|split; [done|split; [done|]]]].
  - rewrite Es, !length_app, header_text_length, length_fields_text by done. unfold header_text. rewrite length_app. change (length DoubleCRLF) with 4%nat. lia.
  - unfold internalBodyAndTrailersLen. rewrite Eb, Es. lia.
  - assert (Es1 : msize m1 = length (start ++ header_text (a_fields b))).
    { revert E3. unfold msetSize, on_data. unfold setSize. destruct (_ <=? _)%nat; [|done]. by intros [= <-]. }
    assert (Es2 : msize m2 = msize m1 /\ hm_posBitmap m2 = hm_posBitmap m1).
    { revert E4. unfold mpoke, on_data. destruct (poke _ _ _) as [r|] eqn:Er; [|done]. intros [= <-]. by apply poke_capacity in Er as [_ Er]. }
    assert (Ebm : hm_posBitmap m1 = hm_posBitmap m').
    { revert E3. unfold msetSize, on_data. destruct (setSize _ _); [|done]. by intros [= <-]. }
    destruct Es2 as [Es2 Eb2]. rewrite Es2, Es1. split; [unfold header_text; rewrite !length_app; cbn; lia|]. split; [done|].
    split; [unfold bodyStartPos; by rewrite Eb2, Ebm|]. split; [by rewrite Eb2|].
    destruct Hp as (_ & Ebmp & Hpos). pose proof (size_pos_ok _ _ Hw Hs) as Hpos'. rewrite Ef in Hpos'.
    rewrite Es2, Es1 in Hp2, Sp2, So2.
    rewrite (setBodyStart_bitmap m2 (length start) (length (start ++ header_text (a_fields b ++ length_fields ct n)))) in Hp2, Sp2, So2
      by (done || by rewrite Eb2, Ebm).
    exists start. rewrite Ef, Ei. split; [done|]. split; [done|]. split; [|split; [|done]].
    + by rewrite Sp2, Sp, Epay.
    + by rewrite So2, So, Eo.
Qed.

Lemma inline_body_holds m b maxLen w ct :
  Repr o m b -> a_body b = NoBody -> type_ok ct -> zlen ct < 2 ^ 38 -> writer_ok maxLen w ->
  let b' := if bool_decide (written w = []) then b else with_body (InlineBody ct (written w)) b in
  size_ok b' -> exists m', inline_body maxLen w ct m = Some m' /\ Repr o m' b'.
Proof.
  intros HR E Hct Hz Hwr b' Hsz. pose proof HR as (start & Hp & Hs & _ & Eo & Hw). destruct (no_body_tail _ Hw E) as (Ht & Ef & Ei).
  rewrite Ef, Ei in Hp. pose proof Hwr as [Hlen Hn63]. assert (Hn : Z.of_nat maxLen < 2 ^ 64) by lia.
  destruct (parts_positions _ _ _ _ Hp) as (_ & _ & Es & _). rewrite app_nil_r in Es.
  unfold inline_body. set (hct := HeaderSize _ (length ct)). set (hcl := HeaderSize _ (nchars maxLen)). cbv zeta.
  destruct (mreserve_parts garbage (msize m + hct + hcl + maxLen) m _ _ _ Hp) as (Hp1 & Hs1 & Hc1 & Es1).
  set (m1 := mreserve garbage _ m) in *.
  assert (Elen : length (start ++ header_text (a_fields b ++ length_fields ct maxLen)) = (msize m + hct + hcl)%nat).
  { rewrite Es, !length_app, header_text_length, length_fields_text by done. subst hct hcl. unfold header_text. rewrite length_app. change (length DoubleCRLF) with 4%nat. lia. }
  pose proof (fields_pos_ok b start ct maxLen Hw Hs Hz Hn) as Hpos.
  destruct (lines_added m1 start _ ct maxLen maxLen Hp1 ltac:(lia) Hpos) as (m2 & -> & Hp2 & Hs2 & Hc2 & Es2). cbn [mbind option_bind].
  destruct (spare_written m2 start _ _ (wr_text w) Hp2 ltac:(lia)) as (m3 & E3 & [Hp3 [Hs3 Hcap3]] & Es3 & Hgrow).
  rewrite <- Es2, E3. cbn [mbind option_bind]. assert (Hsame3 : same_rest m m3) by eauto using same_rest_trans.
  subst b'. rewrite (written_nil w maxLen) in * by done. destruct (Nat.eqb_spec (wr_written w) 0) as [E0|Hne].
  - destruct (uncut_lines m b start ct maxLen HR E Hct Hn Hs m3 Hp3 Hsame3) as (m4 & m5 & El & -> & E4 & E5 & Hle & Es5 & _ & Ebm5 & HR5).
    fold hcl hct in El. rewrite back_sub by lia. cbn [mbind option_bind].
    replace (msize m3 - (hcl + hct + 0))%nat with (length (start ++ header_text (a_fields b))) by lia. rewrite E4. cbn [mbind option_bind].
    rewrite back_sub by done. cbn [mbind option_bind]. rewrite E5. cbn [mbind option_bind]. rewrite Es5.
    destruct Hp3 as (_ & Ebm3 & Hpos3). pose proof (size_pos_ok _ _ Hw Hs) as Hpos5. rewrite Ef in Hpos5.
    rewrite (setBodyStartPos_bitmap m5 (length start) _ _) by (done || (rewrite Ebm5; exact Ebm3) || exact Hpos3). by eexists.
  - assert (Hh3 : isHead m3 = false) by (destruct Hsame3 as [_ So3]; unfold isHead; by rewrite So3, Eo). rewrite Hh3.
    destruct (Hgrow (wr_written w)) as (m4 & E4 & Hp4 & Hs4 & Hcap4); [lia|]. rewrite E4. cbn [mbind option_bind].
    pose proof (written_length w maxLen Hwr) as Lw. change (take (wr_written w) (wr_text w)) with (written w) in Hp4. cbn [app] in Hp4.
    assert (Hnw : Z.of_nat (wr_written w) < 2 ^ 64) by lia.
    destruct (replace_length_parts m4 start _ ct maxLen _ (wr_written w) Hp4 Hn Hnw) as (p2 & m5 & E5 & E6 & [Hp5 [Hs5 _]]).
    + pose proof (nchars_mono (wr_written w) maxLen ltac:(lia) Hn). destruct (parts_positions _ _ _ _ Hp4) as (_ & _ & _ & Hc4 & _). lia.
    + apply fields_pos_ok; done.
    + rewrite E5. cbn [mbind option_bind]. rewrite E6. exists m5. split; [done|]. rewrite <- Lw in Hp5.
      apply (with_inline_repr m b start ct (written w) HR E Hct); [|done|done|done|by eauto using same_rest_trans].
      intros E'. rewrite E' in Lw. cbn in Lw. lia.
Qed.

Lemma bodyInlineSet_refines m a maxLen w contentType :
  Repr o m a -> writer_ok maxLen w -> inline_type_ok contentType -> removable a ->
  refines o m (bodyInlineSet garbage maxLen w contentType m) (inline_set w contentType a).
Proof.
  intros HR Hwr Hct Hrem. unfold bodyInlineSet, inline_set. apply (precheck_refines m a); [done|]. intros Ht Hv.
  change (if bool_decide (TrimOws contentType = []) then defaultContentType w else TrimOws contentType)
    with (given_type contentType (defaultContentType w)).
  destruct (default_type_ok w) as [Hd Hdz]. destruct (given_or_ok _ _ Hct Hv Hd Hdz) as [Hgt Hgz].
  set (ct := given_type contentType (defaultContentType w)) in *.
  intros Hsz. pose proof HR as (_ & _ & _ & _ & _ & Hw).
  assert (Hfin : forall m1, Repr o m1 (drop_body a) ->
    exists m', returns (inline_body maxLen w ct m1) = Some (Returns m')
      /\ Repr o m' (if bool_decide (written w = []) then drop_body a else with_body (InlineBody ct (written w)) (drop_body a))).
  { intros m1 HR1. destruct (inline_body_holds m1 (drop_body a) maxLen w ct HR1 eq_refl Hgt Hgz Hwr Hsz) as (m' & -> & HR'). by exists m'. }
  rewrite (repr_bodyLength _ _ _ HR). destruct (has_body (a_body a)) eqn:Eh.
  - rewrite (proj2 (Nat.eqb_neq _ 0)) by by apply body_data_nonempty. cbn [negb].
    destruct (removeBody_refines o m a HR Ht Eh Hrem) as (m1 & E1 & HR1 & _).
    { case_bool_decide; [done|]. by eapply (size_ok_no_body _ (drop_body a)). }
    rewrite E1. cbn [and_then mbind option_bind]. by apply Hfin.
  - assert (Eb : a_body a = NoBody) by by destruct (a_body a). rewrite Eb. cbn [body_len body_data length Nat.eqb negb and_then mbind option_bind].
    apply Hfin. unfold drop_body. rewrite Eb. cbn [has_body andb]. replace (with_body NoBody a) with a by (rewrite <- Eb; by destruct a). done.
Qed.

(** ** A body extended by a writer *)

(** The text is written, part of it joins the body, and the length says how much. *)
Lemma finish_append m start fs ct tail old maxLen w :
  Parts m start (header_text (fs ++ length_fields ct (old + maxLen))) tail -> writer_ok maxLen w ->
  Z.of_nat (old + maxLen) < 2 ^ 64 -> (msize m + maxLen <= capacity (hm_data m))%nat ->
  pos_ok (length start) (length (start ++ header_text (fs ++ length_fields ct (old + wr_written w)))) ->
  exists m1 m2 p2 m3, mpoke (msize m) (wr_text w) m = Some m1 /\ same_rest m m1
    /\ Parts m1 start (header_text (fs ++ length_fields ct (old + maxLen))) tail
    /\ (if Nat.eqb (wr_written w) 0 then Some m1 else maddSize (wr_written w) m1) = Some m2
    /\ getContentLengthValuePtr m2 = Some p2 /\ replaceHeaderValueNoRealloc p2 (decimal (Z.of_nat (old + wr_written w))) m2 = Some m3
    /\ Parts m3 start (header_text (fs ++ length_fields ct (old + wr_written w))) (tail ++ written w) /\ same_rest m m3.
Proof.
  intros Hp [Hlen Hn63] Hn Hc Hpos. destruct (spare_written m start _ _ (wr_text w) Hp ltac:(lia)) as (m1 & E1 & [Hp1 [Hs1 _]] & Es1 & Hgrow).
  destruct (Hgrow (wr_written w) ltac:(lia)) as (m2 & E2 & Hp2 & Hs2 & _). fold (written w) in Hp2.
  assert (Hm2 : exists m2, (if Nat.eqb (wr_written w) 0 then Some m1 else maddSize (wr_written w) m1) = Some m2
    /\ Parts m2 start (header_text (fs ++ length_fields ct (old + maxLen))) (tail ++ written w) /\ same_rest m m2).
  { destruct (Nat.eqb_spec (wr_written w) 0) as [E0|_].
    - exists m1. unfold written. by rewrite E0, take_0, app_nil_r.
    - exists m2. split; [|done]. change (maddSize (wr_written w) m1) with (msetSize (msize m1 + wr_written w) m1). by rewrite Es1. }
  destruct Hm2 as (m2' & E2' & Hp2' & Hs2').
  destruct (replace_length_parts m2' start fs ct _ _ (old + wr_written w) Hp2' Hn ltac:(lia)) as (p2 & m3 & E3 & E4 & Hp3 & Hs3 & _); [|done|].
  - pose proof (nchars_mono (old + wr_written w) (old + maxLen) ltac:(lia) Hn). destruct (parts_positions _ _ _ _ Hp2') as (_ & _ & _ & Hc2 & _). lia.
  - exists m1, m2', p2, m3. exact (conj E1 (conj Hs1 (conj Hp1 (conj E2' (conj E3 (conj E4 (conj Hp3 (same_rest_trans _ _ _ Hs2' Hs3)))))))).
Qed.

(** The lines of a body that is already there. *)
Lemma update_headers_parts m start fs ct n tail given default n' :
  Parts m start (header_text (fs ++ length_fields ct n)) tail -> bodyLength m <> 0%nat -> type_ok ct ->
  type_ok (if bool_decide (given = []) then ct else given) -> (n <= n')%nat -> Z.of_nat n' < 2 ^ 64 ->
  (msize m + nchars n' + length given <= capacity (hm_data m))%nat ->
  pos_ok (length start) (length (start ++ header_text (fs ++ length_fields (if bool_decide (given = []) then ct else given) n'))) ->
  exists m', bodyAppendUpdateHeaders given default n' m = Some m'
    /\ edited m m' start (header_text (fs ++ length_fields (if bool_decide (given = []) then ct else given) n')) tail
    /\ Z.of_nat (msize m') <= Z.of_nat (msize m) + Z.of_nat (nchars n') + Z.of_nat (length given).
Proof.
  intros Hp Hb Hct Hgt Hle Hn Hc Hpos. unfold bodyAppendUpdateHeaders. rewrite (proj2 (Nat.eqb_neq _ 0)) by done.
  destruct (parts_positions _ _ _ _ Hp) as (_ & _ & Es & _).
  assert (Hsz : forall m', edited m m' start (header_text (fs ++ length_fields (if bool_decide (given = []) then ct else given) n')) tail ->
    Z.of_nat (msize m') <= Z.of_nat (msize m) + Z.of_nat (nchars n') + Z.of_nat (length given)).
  { intros m' [Hp' _]. destruct (parts_positions _ _ _ _ Hp') as (_ & _ & Es' & _).
    rewrite Es, Es', !length_app, !header_text_length, !length_fields_text by lia. unfold HeaderSize. case_bool_decide as E; [rewrite E; cbn|]; lia. }
  case_bool_decide as E.
  - cbn [mbind option_bind]. destruct (replace_length_parts m start fs ct n tail n' Hp ltac:(lia) Hn) as (p2 & m2 & -> & E2 & He); [lia|done|].
    cbn [mbind option_bind]. exists m2. split; [exact E2|]. split; [done|]. by apply Hsz.
  - destruct (replace_both_parts m start fs ct n tail given n' Hp Hct Hgt Hle Hn) as (m1 & p1 & p2 & m2 & -> & E2 & E3 & E4 & He).
    + unfold zlen. lia.
    + done.
    + cbn [mbind option_bind]. rewrite E2. cbn [mbind option_bind]. rewrite E3. cbn [mbind option_bind]. exists m2. split; [exact E4|]. split; [done|]. by apply Hsz.
Qed.

Lemma bodyInlineAppend_empty m a maxLen w contentType :
  Repr o m a -> a_body a = NoBody -> writer_ok maxLen w -> inline_type_ok contentType ->
  refines o m (bodyInlineAppend garbage maxLen w contentType m) (inline_append w contentType a).
Proof.
  intros HR E Hwr Hct. pose proof HR as (start & Hp & Hs & Epay & Eo & Hw). destruct (no_body_tail _ Hw E) as (Ht & Ef & Ei).
  rewrite Ef, Ei in Hp. pose proof Hwr as [Hlen Hn63]. assert (Hn : Z.of_nat maxLen < 2 ^ 64) by lia.
  destruct (parts_positions _ _ _ _ Hp) as (_ & Eb0 & Es & _). rewrite app_nil_r in Es.
  unfold bodyInlineAppend, inline_append. rewrite E, Epay. unfold payload_of. rewrite E. cbn [payload_empty negb andb].
  apply (precheck_refines m a); [done|]. intros _ Hv. cbn [isSizeOnly].
  destruct (default_type_ok w) as [Hd Hdz]. destruct (given_or_ok _ _ Hct Hv Hd Hdz) as [Hgt Hgz]. intros Hsz.
  fold (given_type contentType (defaultContentType w)). set (ct := given_type contentType (defaultContentType w)) in *.
  assert (Eold : internalBodyAndTrailersLen m = 0%nat) by (unfold internalBodyAndTrailersLen; lia). rewrite Eold. cbv zeta. cbn [Nat.add Nat.eqb].
  set (hct := HeaderSize _ (length ct)). set (hcl := HeaderSize _ (nchars maxLen)).
  destruct (mensure_exp_parts garbage (hct + hcl + maxLen) m _ _ _ Hp) as (Hp1 & Hs1 & Hc1). rewrite app_nil_r in Hc1.
  set (m1 := mensure_exp garbage _ m) in *.
  assert (Elen : length (start ++ header_text (a_fields a ++ length_fields ct maxLen)) = (msize m + hct + hcl)%nat).
  { rewrite Es, !length_app, header_text_length, length_fields_text by done. subst hct hcl. unfold header_text. rewrite length_app. change (length DoubleCRLF) with 4%nat. lia. }
  assert (Hbl : bodyLength m1 = 0%nat).
  { assert (HR1 : Repr o m1 a).
    { destruct Hs1 as [Sp So]. exists start. rewrite Ef, Ei. split; [done|]. split; [done|]. split; [by rewrite Sp|]. split; [by rewrite So|done]. }
    rewrite (repr_bodyLength _ _ _ HR1). by rewrite E. }
  unfold bodyAppendUpdateHeaders. rewrite Hbl. cbn [Nat.eqb]. fold (given_type contentType (defaultContentType w)). fold ct.
  pose proof (fields_pos_ok a start ct maxLen Hw Hs Hgz Hn) as Hpos.
  destruct (lines_added m1 start _ ct maxLen maxLen Hp1 ltac:(lia) Hpos) as (m2 & -> & Hp2 & Hs2 & Hc2 & Es2). cbn [mbind option_bind].
  assert (Hpos' : pos_ok (length start) (length (start ++ header_text (a_fields a ++ length_fields ct (0 + wr_written w))))) by (apply fields_pos_ok; done || lia).
  destruct (finish_append m2 start _ ct [] 0 maxLen w Hp2 Hwr Hn ltac:(lia) Hpos') as (m3 & m4 & p & m5 & E3 & Hs3 & Hp3 & E4 & E5 & E6 & Hp5 & Hs5).
  rewrite E3. cbn [mbind option_bind]. assert (Hsame3 : same_rest m m3) by eauto using same_rest_trans.
  rewrite (written_nil w maxLen) in * by done. destruct (Nat.eqb_spec (wr_written w) 0) as [E0|Hne].
  - destruct (uncut_lines m a start ct maxLen HR E Hgt Hn Hs m3 Hp3 Hsame3) as (m6 & m7 & El & _ & E7 & E8 & Hle & _ & _ & Ebm7 & HR7).
    fold hcl hct in El. rewrite back_sub by lia. cbn [mbind option_bind].
    replace (msize m3 - (hcl + hct))%nat with (length (start ++ header_text (a_fields a))) by lia. rewrite E7. cbn [mbind option_bind].
    rewrite back_sub by done. cbn [mbind option_bind]. rewrite E8. cbn [mbind option_bind].
    destruct Hp3 as (Hh3 & Ebm3 & Hpos3). pose proof (size_pos_ok _ _ Hw Hs) as Hpos5. rewrite Ef in Hpos5.
    rewrite (adjustNoCheck_bitmap m7 (length start) _ _ (length (start ++ header_text (a_fields a)))
      ltac:(rewrite Ebm7; exact Ebm3) Hpos3 Hpos5) by (change (0 + maxLen)%nat with maxLen; rewrite Elen; lia). by eexists.
  - assert (Hh3 : isHead m3 = false) by (destruct Hsame3 as [_ So3]; unfold isHead; by rewrite So3, Eo). rewrite Hh3.
    rewrite E4. cbn [mbind option_bind]. rewrite E5. cbn [mbind option_bind].
    replace (maxLen - (maxLen - wr_written w))%nat with (wr_written w) by lia. cbn [Nat.add] in E6. rewrite E6. eexists. split; [done|].
    cbn [app Nat.add] in Hp5. pose proof (written_length w maxLen Hwr) as Lw. rewrite <- Lw in Hp5.
    apply (with_inline_repr m a start ct (written w) HR E Hgt); [|done|done|done|by eauto using same_rest_trans].
    intros E'. rewrite E' in Lw. cbn in Lw. lia.
Qed.

Lemma other_length_pos_ok a start ct d n :
  wf (with_body (InlineBody ct d) a) -> start_of a start -> Z.of_nat n < 2 ^ 64 ->
  pos_ok (length start) (length (start ++ header_text (a_fields a ++ length_fields ct n))).
Proof.
  intros Hw Hst Hn. assert (Hst' : start_of (with_body (InlineBody ct d) a) start) by done.
  pose proof (size_pos_ok _ _ Hw Hst') as [H1 _]. split; [done|]. destruct Hw as (_ & _ & _ & _ & _ & _ & _ & _ & Hs).
  pose proof (data_small _ _ Hs) as Hd. cbn [body_data] in Hd.
  rewrite length_app, header_text_length, length_fields_text, (start_length a) by done. pose proof (nchars_max n Hn).
  unfold size_ok, all_fields, zlen in Hs. cbn [with_body a_reason a_fields a_body] in Hs.
  change (body_fields (InlineBody ct d)) with (length_fields ct (length d)) in Hs.
  rewrite header_text_length, length_fields_text in Hs by done. unfold HeaderSize in *. lia.
Qed.

Lemma bodyInlineAppend_some m a ct d maxLen w contentType :
  Repr o m a -> a_body a = InlineBody ct d -> writer_ok maxLen w -> inline_type_ok contentType ->
  refines o m (bodyInlineAppend garbage maxLen w contentType m) (inline_append w contentType a).
Proof.
  intros HR E Hwr Hct. pose proof HR as (start & Hp & Hs & Epay & Eo & Hw). pose proof Hwr as [Hlen Hn63].
  pose proof Hw as (_ & _ & _ & _ & _ & Hbw & _). unfold body_wf in Hbw. rewrite E in Hbw. destruct Hbw as [Hty Hd].
  unfold bodyInlineAppend, inline_append. rewrite E, Epay. unfold payload_of. rewrite E. cbn [payload_empty negb andb].
  apply (precheck_refines m a); [done|]. intros Ht Hv Hsz. cbn [isSizeOnly].
  unfold all_fields, inline_text, trailer_text in Hp. rewrite E, Ht in Hp. change (flat_lines []) with (@nil Z) in Hp. rewrite app_nil_r in Hp.
  change (body_fields (InlineBody ct d)) with (length_fields ct (length d)) in Hp.
  destruct (parts_positions _ _ _ _ Hp) as (_ & Eb0 & Es & _). rewrite app_assoc, length_app in Es.
  assert (Eold : internalBodyAndTrailersLen m = length d) by (unfold internalBodyAndTrailersLen; lia). rewrite Eold. cbv zeta.
  set (given := TrimOws contentType) in *. set (ct' := given_type contentType ct) in *.
  assert (Hct' : type_ok ct').
  { subst ct'. unfold given_type. fold given. case_bool_decide as Eg; [done|]. cbn [negb andb] in Hv. apply negb_false_iff in Hv.
    destruct Hct as (Hc & Hl & _). apply given_type_ok; [done|done|]. by destruct Hl. }
  assert (Hw' : wf (with_body (InlineBody ct' (d ++ written w)) a)).
  { apply with_body_wf; [done| |done]. split; [done|]. by destruct d. }
  assert (Hd63 : Z.of_nat (length d) < 2 ^ 39).
  { destruct Hw as (_ & _ & _ & _ & _ & _ & _ & _ & Hs9). unfold size_ok in Hs9. rewrite E in Hs9. cbn [body_data] in Hs9.
    pose proof (zlen_nonneg (a_reason a)). pose proof (zlen_nonneg (header_text (all_fields a))). pose proof (zlen_nonneg (trailer_text a)). unfold zlen in *. lia. }
  assert (Hn : Z.of_nat (length d + maxLen) < 2 ^ 64) by lia.
  set (hct := HeaderSize (length n_content_type) _). set (hcl := HeaderSize (length n_content_length) (nchars (length d + maxLen))).
  assert (Hhct : (length given <= hct)%nat) by (subst hct; unfold HeaderSize; case_bool_decide as Eg; [rewrite Eg; cbn|]; lia).
  assert (Hhcl : (nchars (length d + maxLen) <= hcl)%nat) by (subst hcl; unfold HeaderSize; lia).
  clearbody hct hcl. destruct (mensure_exp_parts garbage (hct + hcl + maxLen) m _ _ _ Hp) as (Hp1 & Hs1 & Hc1).
  set (m1 := mensure_exp garbage _ m) in *.
  assert (Hbl : bodyLength m1 <> 0%nat).
  { assert (HR1 : Repr o m1 a).
    { destruct Hs1 as [Sp So]. exists start. unfold all_fields, inline_text, trailer_text. rewrite E, Ht. change (flat_lines []) with (@nil Z).
      rewrite app_nil_r. split; [done|]. split; [done|]. split; [by rewrite Sp|]. split; [by rewrite So|done]. }
    rewrite (repr_bodyLength _ _ _ HR1), E. by destruct d. }
  destruct (parts_positions _ _ _ _ Hp1) as (_ & _ & Es1 & _).
  destruct (update_headers_parts m1 start (a_fields a) ct (length d) d given (defaultContentType w) (length d + maxLen) Hp1 Hbl Hty Hct' ltac:(lia) Hn)
    as (m2 & E2 & [Hp2 [Hs2 Hcap2]] & Hsz2); [lia|by apply (other_length_pos_ok _ _ _ (d ++ written w))|].
  rewrite E2. cbn [mbind option_bind]. change (if bool_decide (given = []) then ct else given) with ct' in Hp2.
  destruct (finish_append m2 start _ ct' d (length d) maxLen w Hp2 Hwr Hn) as (m3 & m4 & p & m5 & E3 & Hs3 & Hp3 & E4 & E5 & E6 & Hp5 & Hs5).
  - rewrite <- Es1 in Hc1. lia.
  - apply (other_length_pos_ok _ _ _ (d ++ written w)); [done|done|lia].
  - rewrite E3. cbn [mbind option_bind]. assert (Hsame3 : same_rest m m3) by eauto using same_rest_trans.
    assert (Hh3 : isHead m3 = false) by (destruct Hsame3 as [_ So3]; unfold isHead; by rewrite So3, Eo). rewrite Hh3.
    rewrite (proj2 (Nat.eqb_neq (length d) 0)) by by destruct d.
    replace (length d + maxLen - (maxLen - wr_written w))%nat with (length d + wr_written w)%nat by lia.
    assert (Hfin : Repr o m5 (with_body (InlineBody ct' (d ++ written w)) a)).
    { assert (Hsame : same_rest m m5) by eauto using same_rest_trans. destruct Hsame as [Sp So].
      apply (body_repr o m5 a start); [|done| |by rewrite So|done].
      - rewrite inline_no_trailers by done. change (body_fields (InlineBody ct' (d ++ written w))) with (length_fields ct' (length (d ++ written w))).
        by rewrite length_app, (written_length w maxLen).
      - rewrite Sp, Epay. unfold payload_of. by rewrite E. }
    destruct (Nat.eqb_spec (wr_written w) 0) as [E0|Hne].
    + injection E4 as <-. rewrite E5. cbn [mbind option_bind]. rewrite E6. by eexists.
    + rewrite E4. cbn [mbind option_bind]. rewrite E5. cbn [mbind option_bind]. rewrite E6. by eexists.
Qed.

Lemma bodyInlineAppend_refines m a maxLen w contentType :
  Repr o m a -> writer_ok maxLen w -> inline_type_ok contentType ->
  refines o m (bodyInlineAppend garbage maxLen w contentType m) (inline_append w contentType a).
Proof.
  intros HR Hwr Hct. destruct (a_body a) as [|ct d|ct d|ct n] eqn:E.
  - by apply bodyInlineAppend_empty.
  - by eapply bodyInlineAppend_some.
  - unfold bodyInlineAppend, inline_append. destruct HR as (_ & _ & _ & Epay & _). by rewrite Epay; unfold payload_of; rewrite E.
  - unfold bodyInlineAppend, inline_append. destruct HR as (_ & _ & _ & Epay & _). by rewrite Epay; unfold payload_of; rewrite E.
Qed.
End Inline.

(** ** Header lines that are given joined *)

Definition valid_field (f : field) : Prop := IsValidHeaderName (fst f) = true /\ IsValidHeaderValue (snd f) = true.

Lemma find_separator u r : Forall (fun b => b <> 58) u -> find_sub HeaderSep (u ++ HeaderSep ++ r) = Some (length u).
Proof.
  induction 1 as [|c u Hc Hu IH]; [done|]. change ((c :: u) ++ HeaderSep ++ r) with (c :: (u ++ HeaderSep ++ r)). cbn [find_sub length].
  rewrite bool_decide_false; [by rewrite IH|]. intros [k E]. by injection E as -> _.
Qed.

Lemma value_no_crlf v : IsValidHeaderValue v = true -> no_crlf v.
Proof.
  intros H. unfold IsValidHeaderValue in H. rewrite forallb_forall in H. apply Forall_forall. intros c Hc ->.
  by specialize (H 10 (proj1 (list_elem_of_In _ _) Hc)).
Qed.
Lemma valid_name_no_colon k : IsValidHeaderName k = true -> Forall (fun b => b <> 58) k.
Proof.
  unfold IsValidHeaderName. intros [_ H]%andb_true_iff. rewrite forallb_forall in H. apply Forall_forall. intros c Hc ->.
  by specialize (H 58 (proj1 (list_elem_of_In _ _) Hc)).
Qed.

Lemma search_all l : search_crlf_in l 0 (length l) = SearchCRLF l.
Proof. unfold search_crlf_in. by rewrite drop_0, Nat.sub_0_r, firstn_all. Qed.

(** The check decides, and accepts the lines of valid fields and nothing else. *)
Lemma concatenated_accepts fuel fs :
  (length (flat_lines fs) < fuel)%nat -> Forall valid_field fs -> concatenated_loop fuel (flat_lines fs) = Some None.
Proof.
  revert fuel. induction fs as [|f fs IH]; intros [|fuel] Hf Hfs; try (cbn in Hf; lia); [done|].
  apply Forall_cons in Hfs as [[Hk Hv] Hfs]. change (flat_lines (f :: fs)) with (field_line f ++ flat_lines fs) in *. rewrite length_app, size_of_field_line in Hf.
  cbn [concatenated_loop]. assert (Ef : field_line f ++ flat_lines fs = fst f ++ HeaderSep ++ (snd f ++ CRLF ++ flat_lines fs)).
  { unfold field_line, WriteHeaderCRLF, WriteHeader. by rewrite <- !app_assoc. }
  rewrite Ef. rewrite bool_decide_false by (by destruct (fst f)). rewrite find_separator by by apply valid_name_no_colon.
  rewrite take_app_length, Hk. cbn [negb]. rewrite <- drop_drop, drop_app_length. change (drop 2 (HeaderSep ++ ?x)) with x. rewrite search_all.
  rewrite SearchCRLF_app by by apply value_no_crlf. rewrite (proj2 (Nat.eqb_neq _ _)) by (rewrite !length_app; cbn; lia).
  rewrite take_app_length, Hv. cbn [negb]. rewrite <- drop_drop, drop_app_length. change (drop 2 (CRLF ++ ?x)) with x. apply IH; [lia|done].
Qed.

Lemma concatenated_exact fuel l :
  (length l < fuel)%nat -> exists r, concatenated_loop fuel l = Some r /\ (r = None -> exists fs, l = flat_lines fs /\ Forall valid_field fs).
Proof.
  revert l. induction fuel as [|fuel IH]; intros l Hf; [lia|]. cbn [concatenated_loop]. case_bool_decide as El.
  { exists None. split; [done|]. intros _. exists []. split; [by rewrite El|constructor]. }
  destruct (find_sub HeaderSep l) as [n|] eqn:En; [|by eexists]. destruct (IsValidHeaderName (take n l)) eqn:Ek; cbn [negb]; [|by eexists].
  cbv zeta. rewrite search_all. apply find_sub_Some in En as [Hn [rest Hrest]]. rewrite <- drop_drop, Hrest. change (drop 2 (HeaderSep ++ rest)) with rest.
  destruct (Nat.eqb_spec (SearchCRLF rest) (length rest)) as [|Hne]; [by eexists|].
  destruct (IsValidHeaderValue (take (SearchCRLF rest) rest)) eqn:Ev; cbn [negb]; [|by eexists].
  pose proof (SearchCRLF_le rest). destruct (SearchCRLF_found rest ltac:(lia)) as [H2 E2].
  assert (Er : rest = take (SearchCRLF rest) rest ++ CRLF ++ drop (SearchCRLF rest + 2) rest).
  { rewrite <- E2, <- drop_drop. by rewrite !take_drop. }
  assert (Ell : l = take n l ++ HeaderSep ++ rest) by (rewrite <- Hrest; by rewrite take_drop).
  destruct (IH (drop (SearchCRLF rest + 2) rest)) as (r & E & Hr).
  { rewrite length_drop. apply (f_equal length) in Ell. rewrite !length_app in Ell. change (length HeaderSep) with 2%nat in Ell. lia. }
  exists r. split; [done|]. intros Er0. destruct (Hr Er0) as (fs & Efs & Hfs). exists ((take n l, take (SearchCRLF rest) rest) :: fs).
  split; [|by constructor]. change (flat_lines (?f :: fs)) with (field_line f ++ flat_lines fs). rewrite <- Efs. unfold field_line, WriteHeaderCRLF, WriteHeader.
  cbn [fst snd]. rewrite <- !app_assoc, <- Er. exact Ell.
Qed.

(** ** The constructors with a body *)

Section Constructors.
Context (garbage : Z).

(** The bytes before the headers. *)
Definition start_bytes (c : Z) : bytes := replicate 8 garbage ++ [32] ++ code_digits c ++ [32] ++ [10] ++ replicate 36 garbage.

Lemma construct_start capa c F :
  100 <= c <= 999 -> (50 <= capa)%nat ->
  (m ← InitData (new_message garbage capa);
   and_then (status c m) (fun m => returns (m ← setHeadersStartPosNoCheck (kReasonBeg + kDateHeaderLenWithCRLF) m; F m)))
  = returns (F (MkMessage (MkRawChars (start_bytes c ++ replicate (capa - 50) garbage) 0) 50 PNone no_options)).
Proof.
  intros Hc Hcapa. unfold new_message, RawBytesBase_new. set (g := garbage).
  assert (Er : replicate capa g = replicate 50 g ++ replicate (capa - 50) g) by (rewrite <- replicate_add; f_equal; lia).
  rewrite Er. set (rest := replicate (capa - 50) g).
  unfold InitData, mpoke, on_data. cbn [hm_data]. change (kReasonBeg - 1)%nat with 12%nat. change kReasonBeg with 13%nat.
  rewrite (poke_memory _ (replicate 8 g) [g] [32] (replicate 41 g ++ rest)) by done. cbn [mbind option_bind set_data hm_data].
  rewrite (poke_memory _ (replicate 8 g ++ [32] ++ replicate 3 g) [g] [32] (replicate 37 g ++ rest)) by done.
  cbn [mbind option_bind set_data hm_data].
  rewrite (poke_memory _ (replicate 8 g ++ [32] ++ replicate 3 g ++ [32]) [g] [10] (replicate 36 g ++ rest)) by done.
  cbn [mbind option_bind]. unfold status. rewrite (proj2 (Z.ltb_ge c 100)), (proj2 (Z.ltb_ge 999 c)) by lia. cbn [orb].
  rewrite writeStatusCode_digits by done. cbn [mbind option_bind]. unfold mpoke, on_data. cbn [set_data hm_data].
  change kStatusCodeBeg with 9%nat.
  rewrite (poke_memory _ (replicate 8 g ++ [32]) (replicate 3 g) (code_digits c) ([32; 10] ++ replicate 36 g ++ rest)) by done.
  cbn [mbind option_bind returns option_map and_then]. change (13 + kDateHeaderLenWithCRLF)%nat with 50%nat.
  change (setHeadersStartPosNoCheck 50 _) with
    (Some (MkMessage (MkRawChars ((replicate 8 g ++ [32]) ++ code_digits c ++ [32; 10] ++ replicate 36 g ++ rest) 0) 50 PNone no_options)).
  cbn [mbind option_bind]. unfold start_bytes. fold g. by rewrite <- !app_assoc.
Qed.

Lemma start_bytes_length c : length (start_bytes c) = 50%nat.
Proof. done. Qed.
Lemma start_bytes_start c fs e b ts : start_of (MkAbstract c [] fs e b ts) (start_bytes c).
Proof. exists (replicate 8 garbage), ([10] ++ replicate 36 garbage). split; [done|]. split; [done|]. split; [done|]. intros _. by eexists. Qed.

(** The next bytes are written. *)
Lemma mpoke_next p rest sz b pl o pos y :
  pos = length p -> (length y <= length rest)%nat ->
  mpoke pos y (MkMessage (MkRawChars (p ++ rest) sz) b pl o) = Some (MkMessage (MkRawChars ((p ++ y) ++ drop (length y) rest) sz) b pl o).
Proof. intros -> Hl. unfold mpoke, on_data. cbn [hm_data]. rewrite (poke_rest _ p rest y) by done. cbn [mbind option_bind]. by rewrite app_assoc. Qed.

Definition built (mem : bytes) (bodyStart : nat) : HttpMessage := MkMessage (MkRawChars mem 0) (bitmap 50 bodyStart) PNone no_options.

(** What the constructors make: no reason, the lines, the body. *)
Definition full_reply (c : Z) (fs : list field) (d ct : bytes) : Response :=
  MkAbstract c [] fs false (if bool_decide (d = []) then NoBody else InlineBody ct d) [].
Definition full_text (fs : list field) (d ct : bytes) : bytes :=
  header_text (fs ++ if bool_decide (d = []) then [] else length_fields ct (length d)).

Lemma full_reply_wf c fs d ct :
  100 <= c <= 999 -> Forall (fun f => readable f /\ not_framing f) fs -> (d <> [] -> type_ok ct) -> size_ok (full_reply c fs d ct) ->
  wf (full_reply c fs d ct).
Proof.
  intros Hc Hfs Hct Hsz. split; [done|]. split; [cbn; lia|]. split; [done|]. split; [done|]. split; [done|].
  split; [|split; [constructor|by split]]. unfold body_wf. cbn [full_reply a_body a_trailers]. case_bool_decide; [done|]. by split; [apply Hct|].
Qed.

Lemma full_reply_text c fs d ct :
  header_text (all_fields (full_reply c fs d ct)) = full_text fs d ct /\ inline_text (full_reply c fs d ct) = d
  /\ payload_of (full_reply c fs d ct) = PNone.
Proof.
  unfold full_text, all_fields, inline_text, payload_of, trailer_text. cbn [full_reply a_fields a_body a_trailers].
  case_bool_decide as E; [by rewrite E|]. split; [done|]. split; [apply app_nil_r|done].
Qed.

(** The message that is built when the text after the start has been written. *)
Lemma built_repr c fs d ct spare size :
  wf (full_reply c fs d ct) -> size = length (start_bytes c ++ full_text fs d ct ++ d) ->
  pos_ok 50 (length (start_bytes c ++ full_text fs d ct))
  /\ exists m', msetSize size (built (start_bytes c ++ full_text fs d ct ++ d ++ spare) (length (start_bytes c ++ full_text fs d ct))) = Some m'
       /\ Repr no_options m' (full_reply c fs d ct).
Proof.
  intros Hw ->. set (a := full_reply c fs d ct) in *. destruct (full_reply_text c fs d ct) as (Et & Ei & Ep). fold a in Et, Ei, Ep.
  pose proof (start_bytes_start c fs false (a_body a) [] : start_of a _) as Hst. pose proof (size_pos_ok _ _ Hw Hst) as Hpos.
  rewrite Et in Hpos. split; [exact Hpos|]. unfold msetSize, on_data, built. cbn [hm_data].
  destruct (setSize_holds (MkRawChars (start_bytes c ++ full_text fs d ct ++ d ++ spare) 0)
    (start_bytes c ++ full_text fs d ct ++ d) spare (length (start_bytes c ++ full_text fs d ct ++ d)))
    as (r & E & Hh & _); [cbn [rc_buf]; by rewrite <- !app_assoc|done|].
  rewrite E. cbn [mbind option_bind]. eexists. split; [done|]. exists (start_bytes c). rewrite Et, Ei. split; [|split; [done|split; [by rewrite Ep|split; [|done]]]].
  - split; [exact Hh|]. by split.
  - done.
Qed.

Lemma check_given ct0 (d ct : bytes) :
  CheckContentType (bool_decide (d = [])) ct0 = Ret ct -> no_colon ct0 -> d <> [] -> type_ok ct.
Proof. intros E Hc Hd. rewrite bool_decide_false in E by done. destruct (CheckContentType_ok _ _ E) as [-> H]. by apply H. Qed.

Lemma reply_data_small c fs d ct : size_ok (full_reply c fs d ct) -> Z.of_nat (length d) < 2 ^ 64.
Proof.
  intros H. unfold full_reply in H. case_bool_decide as E; [by rewrite E|].
  by apply (data_small (MkAbstract c [] fs false NoBody []) (InlineBody ct d)).
Qed.

Lemma full_text_length fs d ct :
  Z.of_nat (length d) < 2 ^ 64 ->
  length (full_text fs d ct) = (length (crlf_lines fs) + NeededBodyHeadersSize (length d) (length ct) + 4)%nat.
Proof.
  intros Hd. unfold full_text, NeededBodyHeadersSize. rewrite header_text_length. case_bool_decide as E; [by rewrite E|].
  rewrite (proj2 (Nat.eqb_neq _ 0)), length_fields_text by (done || by destruct d). done.
Qed.

Lemma HttpResponse_body_repr c d ct0 :
  100 <= c <= 999 -> no_colon ct0 ->
  match CheckContentType (bool_decide (d = [])) ct0 with
  | Throw what => exists m, HttpResponse_body garbage c d ct0 = Some (Throws what m)
  | Ret ct => size_ok (full_reply c [] d ct) ->
      exists m, HttpResponse_body garbage c d ct0 = Some (Returns m) /\ Repr no_options m (full_reply c [] d ct)
  end.
Proof.
  intros Hc Hcol. unfold HttpResponse_body. destruct (CheckContentType _ ct0) as [ct|what] eqn:Ect; [|by eexists]. intros Hsz.
  pose proof (check_given _ _ _ Ect Hcol) as Hct. pose proof (full_reply_wf c [] d ct Hc ltac:(constructor) Hct Hsz) as Hw.
  pose proof (reply_data_small _ _ _ _ Hsz) as Hsmall. pose proof (full_text_length [] d ct Hsmall) as Ltext. change (length (crlf_lines [])) with 0%nat in Ltext.
  cbv zeta. set (capa := (kHttpResponseInitialSize + _ + _)%nat).
  assert (Hcapa : capa = (50 + length (full_text [] d ct) + length d)%nat) by (subst capa; rewrite Ltext; change kHttpResponseInitialSize with 54%nat; lia).
  rewrite construct_start by (done || lia). change (kReasonBeg + kDateHeaderLenWithCRLF)%nat with 50%nat. change kHttpResponseInitialSize with 54%nat.
  set (rest := replicate (capa - 50) garbage). assert (Lrest : length rest = (length (full_text [] d ct) + length d)%nat) by (subst rest; rewrite length_replicate; lia).
  clearbody rest. unfold full_text in *. cbn [app] in *. destruct (bool_decide_reflect (d = [])) as [->|Ed].
  - destruct (built_repr c [] [] ct (drop 4 rest) 54 Hw eq_refl) as (Hpos & m' & E & HR). exists m'. split; [|done].
    rewrite (setBodyStart_bitmap _ 50 0) by done. unfold set_bitmap. cbn [hm_data hm_posBitmap hm_payload hm_opts].
    rewrite (mpoke_next (start_bytes c) rest) by (done || (rewrite Lrest; cbn; lia)). cbn [mbind option_bind]. rewrite <- app_assoc.
    exact (f_equal (option_map Returns) E).
  - set (text := WriteContentTypeContentLengthDoubleCRLF ct (length d)) in *.
    assert (Etext : header_text (length_fields ct (length d)) = CRLF ++ text) by apply write_lines_text.
    rewrite Etext, length_app in *. change (length CRLF) with 2%nat in *.
    destruct (built_repr c [] d ct [] (50 + 2 + length text + length d) Hw) as (Hpos & m' & E & HR).
    { unfold full_text. rewrite bool_decide_false by done. cbn [app]. rewrite Etext, !length_app. cbn. lia. }
    unfold full_text in Hpos, E. rewrite bool_decide_false in Hpos, E by done. cbn [app] in Hpos, E. rewrite Etext in Hpos, E.
    exists m'. split; [|done]. rewrite (mpoke_next (start_bytes c) rest) by (done || (cbn; lia)). cbn [mbind option_bind].
    rewrite (mpoke_next (start_bytes c ++ CRLF)) by (done || (rewrite length_drop; cbn [length CRLF]; lia)). cbn [mbind option_bind].
    assert (El : length (start_bytes c ++ CRLF ++ text) = (50 + 2 + length text)%nat) by (rewrite !length_app; done).
    rewrite El in Hpos, E. rewrite (setBodyStartPos_bitmap _ 50 0) by done. unfold set_bitmap. cbn [mbind option_bind hm_data hm_posBitmap hm_payload hm_opts].
    rewrite mpoke_next; [|rewrite !length_app; done|rewrite !length_drop; change (length CRLF) with 2%nat; lia]. cbn [mbind option_bind].
    rewrite !drop_drop. rewrite (drop_ge rest) by (change (length CRLF) with 2%nat; lia).
    rewrite <- !app_assoc in E |- *. exact (f_equal (option_map Returns) E).
Qed.

(** The header lines follow the start, without the last line end. *)
Lemma lines_written c fs rest :
  (length (crlf_lines fs) + 2 <= length rest)%nat ->
  exists rest', (m ← mpoke 50 CRLF (built (start_bytes c ++ rest) 0); mpoke 52 (flat_lines fs) m) = Some (built ((start_bytes c ++ crlf_lines fs) ++ rest') 0)
    /\ (length (crlf_lines fs) + length rest' = length rest)%nat.
Proof.
  intros Hl. pose proof (f_equal length (lines_shift fs)) as El. rewrite !length_app in El. change (length CRLF) with 2%nat in El. unfold built.
  rewrite (mpoke_next (start_bytes c) rest) by (done || (cbn; lia)). cbn [mbind option_bind].
  rewrite (mpoke_next (start_bytes c ++ CRLF)) by (done || (rewrite length_drop; change (length CRLF) with 2%nat; lia)).
  exists (CRLF ++ drop (length (flat_lines fs)) (drop (length CRLF) rest)). split.
  - do 3 f_equal. rewrite <- !app_assoc. f_equal. by rewrite !app_assoc, lines_shift.
  - rewrite length_app, !length_drop. change (length CRLF) with 2%nat. lia.
Qed.

Lemma HttpResponse_full_repr additional c fs d ct0 check :
  100 <= c <= 999 -> no_colon ct0 -> Forall (fun f => readable f /\ not_framing f) fs -> (check = true -> Forall valid_field fs) ->
  match CheckContentType (bool_decide (d = [])) ct0 with
  | Throw what => exists m, HttpResponse_full garbage additional c (flat_lines fs) d ct0 check = Some (Throws what m)
  | Ret ct => size_ok (full_reply c fs d ct) ->
      exists m, HttpResponse_full garbage additional c (flat_lines fs) d ct0 check = Some (Returns m) /\ Repr no_options m (full_reply c fs d ct)
  end.
Proof.
  intros Hc Hcol Hfs Hcheck. unfold HttpResponse_full. destruct (CheckContentType _ ct0) as [ct|what] eqn:Ect; [|by eexists]. intros Hsz.
  pose proof (check_given _ _ _ Ect Hcol) as Hct. pose proof (full_reply_wf c fs d ct Hc Hfs Hct Hsz) as Hw.
  pose proof (reply_data_small _ _ _ _ Hsz) as Hsmall. pose proof (full_text_length fs d ct Hsmall) as Ltext. cbv zeta.
  assert (Ethrown : (if check then CheckConcatenatedHeaders (flat_lines fs) else Some None) = Some None).
  { destruct check; [|done]. apply concatenated_accepts; [lia|by apply Hcheck]. }
  rewrite Ethrown. cbn [mbind option_bind]. pose proof (f_equal length (lines_shift fs)) as El. rewrite !length_app in El. change (length CRLF) with 2%nat in El.
  set (capa := (_ + additional)%nat).
  assert (Hcapa : capa = (50 + length (full_text fs d ct) + length d + additional)%nat)
    by (subst capa; rewrite Ltext; change kHttpResponseInitialSize with 54%nat; lia).
  rewrite construct_start by (done || lia). change kHttpResponseInitialSize with 54%nat.
  change (54 - 2)%nat with 52%nat. change (54 - 4 + 2)%nat with 52%nat. change (54 - 4)%nat with 50%nat.
  set (rest := replicate (capa - 50) garbage).
  assert (Lrest : length rest = (length (full_text fs d ct) + length d + additional)%nat) by (subst rest; rewrite length_replicate; lia).
  clearbody rest. change (MkMessage (MkRawChars (start_bytes c ++ rest) 0) 50 PNone no_options) with (built (start_bytes c ++ rest) 0).
  assert (Hlines : exists rest', (if bool_decide (flat_lines fs = []) then Some (52%nat, built (start_bytes c ++ rest) 0)
      else m ← mpoke 50 CRLF (built (start_bytes c ++ rest) 0); m ← mpoke 52 (flat_lines fs) m; Some ((52 + length (flat_lines fs))%nat, m))
    = Some ((52 + length (crlf_lines fs))%nat, built ((start_bytes c ++ crlf_lines fs) ++ rest') 0)
    /\ (length (crlf_lines fs) + length rest' = length rest)%nat).
  { destruct (bool_decide_reflect (flat_lines fs = [])) as [Enil|Enil].
    - destruct fs as [|f fs]; [|exfalso; pose proof (flat_lines_length (f :: fs)) as Hx; rewrite Enil in Hx; cbn in Hx; lia].
      exists rest. change (crlf_lines []) with (@nil Z). by rewrite app_nil_r.
    - destruct (lines_written c fs rest) as (rest' & E & Lr); [lia|]. exists rest'. split; [|done]. revert E.
      destruct (mpoke 50 _ _) as [m|]; [|done]. cbn [mbind option_bind]. intros ->. cbn [mbind option_bind]. do 3 f_equal. lia. }
  destruct Hlines as (rest' & Elines & Lr).   match goal with |- exists m, returns ?e = _ /\ _ => assert (Ebody : exists m', e = Some m' /\ Repr no_options m' (full_reply c fs d ct)) end; [|destruct Ebody as (m' & -> & HR); by exists m'].
  rewrite Elines. cbn [mbind option_bind]. clear Elines. set (p := start_bytes c ++ crlf_lines fs) in *.
  assert (Lp : length p = (50 + length (crlf_lines fs))%nat) by (subst p; rewrite length_app; done).
  assert (Hmem : start_bytes c ++ full_text fs d ct = p ++ full_text [] d ct).
  { unfold full_text. rewrite header_text_app. change ([] ++ ?x) with x. subst p. by rewrite <- app_assoc. }
  pose proof (full_text_length [] d ct Hsmall) as Ltext0. change (length (crlf_lines [])) with 0%nat in Ltext0.
  assert (Eend : length (start_bytes c ++ full_text fs d ct ++ d) = (length (p ++ full_text [] d ct) + length d)%nat)
    by (rewrite app_assoc, Hmem; apply length_app).
  destruct (built_repr c fs d ct (drop (length (full_text [] d ct) + length d) rest') _ Hw eq_refl) as (Hpos & m' & E & HR).
  rewrite Eend in E. rewrite (app_assoc (start_bytes c)), Hmem in E. rewrite Hmem in Hpos. exists m'. split; [|done].
  destruct (bool_decide_reflect (d = [])) as [->|Ed].
  - change (full_text [] [] ct) with DoubleCRLF in *. unfold built in *. rewrite (mpoke_next p rest') by (lia || (change (length DoubleCRLF) with 4%nat in *; lia)).
    cbn [mbind option_bind]. assert (Epos : (52 + length (crlf_lines fs) + 2)%nat = length (p ++ DoubleCRLF)) by (rewrite length_app, Lp; cbn; lia).
    rewrite Epos, (setBodyStartPos_bitmap _ 50 0) by done. cbn [mbind option_bind]. exact E.
  - set (text := WriteContentTypeContentLengthDoubleCRLF ct (length d)) in *.
    assert (Etext : full_text [] d ct = CRLF ++ text) by (unfold full_text; rewrite bool_decide_false by done; apply write_lines_text).
    assert (Lt : length (full_text [] d ct) = (2 + length text)%nat) by (rewrite Etext, length_app; done).
    assert (Lt' : length (full_text fs d ct) = (length (crlf_lines fs) + (2 + length text))%nat) by lia.
    unfold built in *. rewrite (mpoke_next p rest') by (lia || (change (length CRLF) with 2%nat; lia)). cbn [mbind option_bind].
    rewrite (mpoke_next (p ++ CRLF)) by (rewrite ?length_app, ?length_drop; change (length CRLF) with 2%nat; lia). cbn [mbind option_bind].
    rewrite mpoke_next by (rewrite ?length_app, ?length_drop; change (length CRLF) with 2%nat; lia). cbn [mbind option_bind].
    assert (Epos : (52 + length (crlf_lines fs) + length text)%nat = length (p ++ full_text [] d ct)) by (rewrite length_app, Lp, Lt; lia).
    rewrite Epos, (setBodyStartPos_bitmap _ 50 0) by done. cbn [mbind option_bind]. unfold set_bitmap. cbn [hm_data hm_posBitmap hm_payload hm_opts].
    rewrite !drop_drop. change (length CRLF) with 2%nat. rewrite Etext in E |- *.
    replace (length (CRLF ++ text) + length d)%nat with (2 + length text + length d)%nat in E by (rewrite length_app; done).
    rewrite <- !app_assoc in E |- *. rewrite Nat.add_assoc, <- (app_assoc p). exact E.
Qed.
End Constructors.
