(* ===== verification/HttpMessageHistory.v ===== *)
(** Any history of operations on a message does what it says: the message represents the
    response that the operations describe, and its readers find that response.  The conditions
    ([op_ok]) are what the documentation asks of the callers, that no reserved header is set
    among them; then what the operations do outside of those conditions. *)

From S2P Require Import Prelude.
From S2P Require Import AsciiCase.
From S2P Require Import HeadersView.
From S2P Require Import UrlCodec.
From S2P Require Import Cors.
From S2P Require Import RoutePattern.
From S2P Require Import ResponseParser.
From S2P Require Import TimeString.
From S2P Require Import RawChars.
From S2P Require Import HttpMessage.
From S2P Require Import HttpMessageSpec.
From S2P Require Import HttpMessageRepr.
From S2P Require Import HttpMessageFields.
From S2P Require Import HttpMessageBodies.
From S2P Require Import HttpMessageInline.
Local Open Scope Z_scope.

(** ** Histories *)

Inductive Operation :=
  | OpStatus (code : Z) | OpReason (r : bytes)
  | OpHeader (key value : bytes) | OpAddLine (key value : bytes) | OpAppendValue (key value sep : bytes) | OpRemoveLine (key : bytes)
  | OpBody (d contentType : bytes) | OpBodyCaptured (d contentType : bytes) | OpBodyAppend (d contentType : bytes)
  | OpFile (fileSize offset len : nat) (detected contentType : bytes)
  | OpInlineSet (maxLen : nat) (w : Writer) (contentType : bytes) | OpInlineAppend (maxLen : nat) (w : Writer) (contentType : bytes)
  | OpTrailer (name value : bytes).

Section History.
Context (garbage : Z).

Definition run_op (op : Operation) (m : HttpMessage) : option Effect :=
  match op with
  | OpStatus code => status code m
  | OpReason r => returns (reason garbage r m)
  | OpHeader key value => header garbage key value m
  | OpAddLine key value => headerAddLine garbage key value m
  | OpAppendValue key value sep => headerAppendValue garbage key value sep m
  | OpRemoveLine key => headerRemoveLine key m
  | OpBody d contentType => body garbage d contentType m
  | OpBodyCaptured d contentType => body_captured garbage d contentType m
  | OpBodyAppend d contentType => bodyAppend garbage d contentType m
  | OpFile fileSize offset len detected contentType => file garbage fileSize offset len detected contentType m
  | OpInlineSet maxLen w contentType => bodyInlineSet garbage maxLen w contentType m
  | OpInlineAppend maxLen w contentType => bodyInlineAppend garbage maxLen w contentType m
  | OpTrailer name value => trailerAddLine garbage name value m
  end.

(** The exceptions are caught, and the next operation comes. *)
Fixpoint run (ops : list Operation) (m : HttpMessage) : option (HttpMessage * list (option string)) :=
  match ops with
  | [] => Some (m, [])
  | op :: ops =>
      r ← run_op op m;
      let '(m, thrown) := match r with Returns m => (m, None) | Throws what m => (m, Some what) end in
      '(m, rest) ← run ops m; Some (m, thrown :: rest)
  end.

Definition apply_op (op : Operation) : Response -> Outcome Response :=
  match op with
  | OpStatus code => set_status code
  | OpReason r => set_reason r
  | OpHeader key value => set_header key value
  | OpAddLine key value => add_line key value
  | OpAppendValue key value sep => append_value key value sep
  | OpRemoveLine key => remove_line key
  | OpBody d contentType => set_body d contentType
  | OpBodyCaptured d contentType => set_body_captured d contentType
  | OpBodyAppend d contentType => append_body d contentType
  | OpFile fileSize offset len detected contentType => set_file fileSize offset len detected contentType
  | OpInlineSet _ w contentType => inline_set w contentType
  | OpInlineAppend _ w contentType => inline_append w contentType
  | OpTrailer name value => add_trailer name value
  end.

Fixpoint apply_ops (ops : list Operation) (a : Response) : Response * list (option string) :=
  match ops with
  | [] => (a, [])
  | op :: ops =>
      let '(a, thrown) := match apply_op op a with Ret a => (a, None) | Throw what => (a, Some what) end in
      let '(a, rest) := apply_ops ops a in (a, thrown :: rest)
  end.

(** ** What callers must respect

    Besides the conditions under which the operations are defined, callers keep to the documented
    use: no reserved header is set, and a content type or a writer of [std::byte] comes with the
    first bytes that are appended in place. *)

(** A header that the user may set. *)
Definition user_header (key : bytes) : Prop := bytes_ok key /\ IsReservedResponseHeader key = false.

Lemma user_header_not_date key : user_header key -> bytes_ok key /\ CaseInsensitiveEqual key (str "date") = false.
Proof.
  unfold user_header, IsReservedResponseHeader. cbn [map existsb]. rewrite !orb_false_iff. tauto.
Qed.

Definition op_ok (op : Operation) (a : Response) : Prop :=
  match op with
  | OpStatus _ => True
  | OpReason r => head r <> Some 10
  | OpHeader key value => user_header key /\ (existsb (named key) (a_fields a) = true -> IsValidHeaderValue (TrimOws value) = true)
  | OpAddLine key value => user_header key
  | OpAppendValue key value sep =>
      user_header key /\ plain_name key
      /\ (existsb (named key) (a_fields a) = true -> IsValidHeaderValue (sep ++ TrimOws value) = true)
  | OpRemoveLine key => bytes_ok key
  | OpBody d contentType | OpBodyCaptured d contentType =>
      no_colon contentType /\ (d = [] -> a_trailers a = [] -> removable a)
  | OpBodyAppend d contentType => append_ok a contentType
  | OpFile fileSize offset len detected contentType =>
      no_colon (if bool_decide (contentType = []) then detected else contentType)
      /\ file_length fileSize offset len <> 0%nat /\ Z.of_nat (file_length fileSize offset len) < 2 ^ 64
  | OpInlineSet maxLen w contentType => writer_ok maxLen w /\ inline_type_ok contentType /\ removable a
  | OpInlineAppend maxLen w contentType =>
      writer_ok maxLen w /\ inline_type_ok contentType
      /\ (a_body a = NoBody -> TrimOws contentType = [] -> wr_bytes w = true)
  | OpTrailer name value => bytes_ok name /\ IsForbiddenTrailerHeader name = false
  end.

Fixpoint history_ok (ops : list Operation) (a : Response) : Prop :=
  match ops with
  | [] => True
  | op :: ops =>
      op_ok op a /\ match apply_op op a with Ret a' => size_ok a' /\ history_ok ops a' | Throw _ => history_ok ops a end
  end.

Lemma op_refines o op m a : Repr o m a -> op_ok op a -> refines o m (run_op op m) (apply_op op a).
Proof.
  intros HR. destruct op; cbn [op_ok run_op apply_op].
  - intros _. by apply status_refines.
  - intros H. by apply reason_refines.
  - intros [[H1 H2]%user_header_not_date H3]. by apply set_header_refines.
  - intros [H1 H2]%user_header_not_date. by apply add_line_refines.
  - intros ([H1 H2]%user_header_not_date & H3 & H4). by apply append_value_refines.
  - intros H. by apply remove_line_refines.
  - intros [H1 H2]. by apply set_body_refines.
  - intros [H1 H2]. by apply set_body_captured_refines.
  - intros H. by apply append_body_refines.
  - intros (H1 & H2 & H3). by apply set_file_refines.
  - intros (H1 & H2 & H3). by apply bodyInlineSet_refines.
  - intros (H1 & H2 & _). by apply bodyInlineAppend_refines.
  - intros [H1 H2]. by apply add_trailer_refines.
Qed.

Lemma run_refines o ops m a :
  Repr o m a -> history_ok ops a ->
  exists m', run ops m = Some (m', snd (apply_ops ops a)) /\ Repr o m' (fst (apply_ops ops a)).
Proof.
  revert m a. induction ops as [|op ops IH]; intros m a HR H; [by exists m|]. destruct H as [Hop H].
  pose proof (op_refines o op m a HR Hop) as Hr. cbn [run apply_ops]. destruct (apply_op op a) as [a'|what]; cbn [refines] in Hr.
  - destruct H as [Hsz H]. destruct (Hr Hsz) as (m1 & E & HR1). rewrite E. cbn [mbind option_bind].
    destruct (IH m1 a' HR1 H) as (m' & E' & HR'). rewrite E'. cbn [mbind option_bind]. exists m'.
    destruct (apply_ops ops a') as [a2 rest]. by split.
  - rewrite Hr. cbn [mbind option_bind]. destruct (IH m a HR H) as (m' & E' & HR'). rewrite E'. cbn [mbind option_bind]. exists m'.
    destruct (apply_ops ops a) as [a2 rest]. by split.
Qed.

(** The constructors. *)
Inductive Start :=
  | StartEmpty (additionalCapacity : nat) (code : Z)
  | StartBody (code : Z) (d contentType : bytes)
  | StartFull (additionalCapacity : nat) (code : Z) (fs : list field) (d contentType : bytes) (check : bool).

Definition build (st : Start) : option Effect :=
  match st with
  | StartEmpty additionalCapacity code => HttpResponse_new garbage additionalCapacity code
  | StartBody code d contentType => HttpResponse_body garbage code d contentType
  | StartFull additionalCapacity code fs d contentType check =>
      HttpResponse_full garbage additionalCapacity code (flat_lines fs) d contentType check
  end.
Definition start_reply (st : Start) : Response :=
  match st with
  | StartEmpty _ code => new_reply code
  | StartBody code d contentType => full_reply code [] d (TrimOws contentType)
  | StartFull _ code fs d contentType _ => full_reply code fs d (TrimOws contentType)
  end.

(** A content type that the constructors accept; header lines that are well formed. *)
Definition start_type_ok (d contentType : bytes) : Prop :=
  no_colon contentType /\ (d <> [] -> CheckContentType false contentType = Ret (TrimOws contentType)).
Definition start_ok (st : Start) : Prop :=
  match st with
  | StartEmpty _ code => 100 <= code <= 999
  | StartBody code d contentType =>
      100 <= code <= 999 /\ start_type_ok d contentType /\ size_ok (full_reply code [] d (TrimOws contentType))
  | StartFull _ code fs d contentType check =>
      100 <= code <= 999 /\ start_type_ok d contentType /\ size_ok (full_reply code fs d (TrimOws contentType))
      /\ Forall (fun f => readable f /\ not_framing f) fs /\ (check = true -> Forall valid_field fs)
      /\ Forall (fun f => IsReservedResponseHeader (fst f) = false) fs
  end.

Lemma start_type d contentType :
  start_type_ok d contentType -> CheckContentType (bool_decide (d = [])) contentType = Ret (TrimOws contentType).
Proof. intros [_ H]. case_bool_decide as E; [done|by apply H]. Qed.

Lemma build_repr st : start_ok st -> exists m, build st = Some (Returns m) /\ Repr no_options m (start_reply st).
Proof.
  destruct st as [capa c|c d ct|capa c fs d ct check]; cbn [start_ok build start_reply].
  - apply HttpResponse_new_repr.
  - intros (Hc & Ht & Hs). pose proof (HttpResponse_body_repr garbage c d ct Hc (proj1 Ht)) as H. rewrite (start_type _ _ Ht) in H. by apply H.
  - intros (Hc & Ht & Hs & Hf & Hcheck & _). pose proof (HttpResponse_full_repr garbage capa c fs d ct check Hc (proj1 Ht) Hf Hcheck) as H.
    rewrite (start_type _ _ Ht) in H. by apply H.
Qed.

(** ** The readers *)

(** The first value of that name. *)
Definition value_of (key : bytes) (l : list field) : option bytes := option_map snd (List.find (named key) l).

Lemma value_of_found key a f b :
  Forall (fun f => named key f = false) a -> named key f = true -> value_of key (a ++ f :: b) = Some (snd f).
Proof. intros Ha Hf. unfold value_of. induction Ha as [|g a Hg Ha IH]; cbn; [by rewrite Hf|]. by rewrite Hg. Qed.

Lemma value_of_none key l : Forall (fun f => named key f = false) l -> value_of key l = None.
Proof. intros Hl. unfold value_of. induction Hl as [|g l Hg Hl IH]; cbn; [done|]. by rewrite Hg. Qed.

Lemma headerValue_repr o m a key : Repr o m a -> bytes_ok key -> headerValue key m = Some (value_of key (all_fields a)).
Proof.
  intros (start & Hp & _ & _ & _ & Hw) Hk. pose proof (all_fields_readable a Hw) as Hr. unfold headerValue.
  destruct (first_named key (all_fields a)) as [(x & f & y & E & Hx & Hf)|Hno].
  - rewrite (find_header_found m start _ _ Hp x f y key E Hr Hk Hx Hf). cbn [mbind option_bind option_map].
    rewrite E, value_of_found by done. do 2 f_equal. destruct (parts_positions _ _ _ _ Hp) as (_ & _ & _ & _ & spare & Em).
    rewrite Em, E, header_text_value.
    set (h := crlf_lines x ++ CRLF ++ fst f ++ HeaderSep).
    replace (start ++ (h ++ snd f ++ header_text y) ++ inline_text a ++ spare)
      with ((start ++ h) ++ snd f ++ (header_text y ++ inline_text a ++ spare)) by by rewrite <- !app_assoc.
    apply substr_at; [subst h; rewrite !length_app; cbn; lia|lia].
  - rewrite (find_header_none m start _ _ Hp key Hr Hk Hno). cbn [mbind option_bind option_map]. by rewrite value_of_none.
Qed.

Lemma parts_content m start hdr tail : Parts m start hdr tail -> content (hm_data m) = (start ++ hdr) ++ tail.
Proof. intros (Hh & _). rewrite (holds_content _ _ Hh). by rewrite app_assoc. Qed.

Lemma in_memory_text o m a :
  Repr o m a ->
  (if hasBodyCaptured m then payload_view (hm_payload m) else drop (bodyStartPos m) (content (hm_data m)))
  = if in_memory (a_body a) then body_data (a_body a) ++ trailer_text a else [].
Proof.
  intros HR. rewrite (repr_captured _ _ _ HR). destruct HR as (start & Hp & _ & Epay & _ & _).
  rewrite (parts_content _ _ _ _ Hp). destruct (parts_positions _ _ _ _ Hp) as (_ & -> & _). rewrite drop_app_length, Epay.
  unfold payload_of, inline_text. by destruct (a_body a).
Qed.

Lemma trailers_none a : wf a -> in_memory (a_body a) = false -> trailer_text a = [].
Proof.
  intros (_ & _ & _ & _ & _ & Hb & _) Hm. unfold body_wf in Hb. unfold trailer_text. destruct (a_body a); try done.
  - by rewrite Hb.
  - destruct Hb as (_ & _ & _ & ->). done.
Qed.

Lemma bodyInMemory_repr o m a : Repr o m a -> bodyInMemory m = body_data (a_body a).
Proof.
  intros HR. unfold bodyInMemory. rewrite (in_memory_text o m a HR), (repr_trailersSize _ _ _ HR).
  destruct HR as (_ & _ & _ & _ & _ & Hw). destruct (in_memory (a_body a)) eqn:Hm.
  - rewrite length_app. replace (length (body_data (a_body a)) + _ - _)%nat with (length (body_data (a_body a))) by lia.
    by rewrite take_app_length.
  - cbn. by destruct (a_body a).
Qed.

Lemma trailersFlatView_repr o m a : Repr o m a -> trailersFlatView m = trailer_text a.
Proof.
  intros HR. unfold trailersFlatView. rewrite (repr_trailersSize _ _ _ HR). pose proof (in_memory_text o m a HR) as Et.
  assert (Hdrop : forall l : bytes, drop (length (l ++ trailer_text a) - length (trailer_text a)) (l ++ trailer_text a) = trailer_text a).
  { intros l. rewrite length_app. replace (length l + _ - _)%nat with (length l) by lia. by rewrite drop_app_length. }
  pose proof HR as (start & Hp & _ & _ & _ & Hw). pose proof (parts_content _ _ _ _ Hp) as Ec.
  pose proof (repr_captured _ _ _ HR) as Hcap. destruct (hasBodyCaptured m) eqn:Eh.
  - rewrite Et. destruct (a_body a); try done. cbn [in_memory body_data]. apply Hdrop.
  - rewrite Ec. destruct (in_memory (a_body a)) eqn:Hm.
    + unfold inline_text. destruct (a_body a) as [|ct d|ct d|ct n]; try done. rewrite app_assoc. apply Hdrop.
    + rewrite (trailers_none a Hw Hm). cbn [length]. by rewrite Nat.sub_0_r, drop_all.
Qed.

Lemma trailerValue_repr o m a key : Repr o m a -> bytes_ok key -> trailerValue key m = Some (value_of key (a_trailers a)).
Proof.
  intros HR Hk. unfold trailerValue. rewrite (trailersFlatView_repr o m a HR). destruct HR as (_ & _ & _ & _ & _ & Hw).
  destruct Hw as (_ & _ & _ & _ & _ & _ & Hr & _). unfold trailer_text. pose proof (flat_lines_length (a_trailers a)) as Hfuel.
  destruct (first_named key (a_trailers a)) as [(x & f & y & E & Hx & Hf)|Hno].
  - rewrite E in *. assert (E0 : flat_lines (x ++ f :: y) = [] ++ flat_lines (x ++ f :: y) ++ []) by by rewrite app_nil_r.
    pose proof (linear_search_found (S (length (flat_lines (x ++ f :: y)))) _ [] x f y [] (length (flat_lines (x ++ f :: y))) key
      Hr Hk E0 eq_refl Hx Hf) as Es. cbv zeta in Es. cbn [length] in Es. rewrite Es; [|rewrite !length_app in *; cbn in *; lia].
    cbn [mbind option_bind option_map]. rewrite value_of_found by done. do 2 f_equal.
    rewrite flat_lines_app. change (flat_lines (f :: y)) with (field_line f ++ flat_lines y). unfold field_line, WriteHeaderCRLF, WriteHeader.
    replace (flat_lines x ++ _) with ((flat_lines x ++ fst f ++ HeaderSep) ++ snd f ++ (CRLF ++ flat_lines y)) by by rewrite <- !app_assoc.
    apply substr_at; [rewrite !length_app; cbn; lia|lia].
  - pose proof (linear_search_none (S (length (flat_lines (a_trailers a)))) (flat_lines (a_trailers a)) [] (a_trailers a) [] (length (flat_lines (a_trailers a))) key
      Hr Hk ltac:(by rewrite app_nil_r) eq_refl Hno ltac:(lia)) as Es. cbn [length] in Es. rewrite Es. cbn [mbind option_bind option_map].
    by rewrite value_of_none.
Qed.

Lemma status_repr o m a : Repr o m a -> get_status m = a_code a /\ get_reason m = Some (a_reason a).
Proof.
  intros (start & Hp & Hs & _ & _ & Hw). destruct (reason_length m a start _ _ Hp Hs ltac:(apply Hw)) as [Erl _].
  destruct (parts_positions _ _ _ _ Hp) as (_ & _ & _ & _ & spare & Em). destruct Hs as (v & date & -> & Lv & Ld & _).
  destruct Hw as (Hc & _). unfold get_status, get_reason. rewrite Erl, Em. cbn [mbind option_bind]. split.
  - set (rest := ([32] ++ a_reason a ++ date) ++ header_text (all_fields a) ++ inline_text a ++ spare).
    set (w := v ++ [32]). assert (Lw : length w = 9%nat) by (subst w; rewrite length_app, Lv; done).
    replace (_ ++ _) with (w ++ code_digits (a_code a) ++ rest) by (subst w rest; by rewrite <- !app_assoc).
    unfold read3, char_at, byte_at. change kStatusCodeBeg with 9%nat.
    assert (Hn : forall i, nth (9 + i) (w ++ code_digits (a_code a) ++ rest) 0 = nth i (code_digits (a_code a) ++ rest) 0)
      by (intros i; rewrite <- Lw; apply app_nth2_plus).
    rewrite (Hn 1%nat), (Hn 2%nat), (Hn 0%nat : nth 9 _ 0 = _). unfold code_digits. cbn [app nth].
    assert (H1 : 48 + a_code a / 100 < 128) by zlia. assert (H2 : 48 + a_code a / 10 mod 10 < 128) by zlia. assert (H3 : 48 + a_code a mod 10 < 128) by zlia.
    rewrite !(proj2 (Z.ltb_lt _ 128)) by done. set (z := _ + _ + _). assert (Ez : z = a_code a) by (subst z; zlia).
    rewrite Ez. unfold u16. rewrite Z.mod_small; lia.
  - set (w := v ++ [32] ++ code_digits (a_code a) ++ [32]).
    replace (_ ++ _) with (w ++ a_reason a ++ (date ++ header_text (all_fields a) ++ inline_text a ++ spare)) by (subst w; by rewrite <- !app_assoc).
    f_equal. apply substr_at; [|done]. subst w. rewrite !length_app, Lv. done.
Qed.

(** ** The theorem *)

End History.

(** A response is edited: a header of another length, a body grown in place, trailers, and two
    operations that throw. *)
Definition sample_start : Start := StartFull 0 200 [(str "X-Old", str "1")] (str "hi") (str " text/plain") true.
Definition sample_history : list Operation :=
  [OpStatus 404; OpHeader (str "X-Id") (str "1"); OpAddLine (str "Vary") (str " accept "); OpHeader (str "x-id") (str "long value");
   OpInlineSet 7 (MkWriter false (str "hello..") 5) (str "text/html"); OpBodyAppend (str " world") []; OpInlineAppend 4 (MkWriter false (str "!..") 1) [];
   OpAddLine (str "Content-Encoding") (str "gzip");
   OpAppendValue (str "vary") (str "origin") (str ", "); OpTrailer (str "X-Sum") (str "42"); OpRemoveLine (str "X-ID"); OpRemoveLine (str "x-old");
   OpStatus 99].
Definition sample_reply : Response :=
  MkAbstract 404 [] [(str "Vary", str "accept, origin")] false (InlineBody (str "text/html") (str "hello world!")) [(str "X-Sum", str "42")].

Lemma history_returns op ops a a' :
  apply_op op a = Ret a' -> op_ok op a -> size_ok a' -> history_ok ops a' -> history_ok (op :: ops) a.
Proof. intros E H Hs Hh. split; [done|]. by rewrite E. Qed.
Lemma history_throws op ops a what : apply_op op a = Throw what -> op_ok op a -> history_ok ops a -> history_ok (op :: ops) a.
Proof. intros E H Hh. split; [done|]. by rewrite E. Qed.

(** Conditions on concrete values. *)
Ltac concrete_ok :=
  repeat first [apply conj | apply Forall_nil_2 | apply Forall_cons_2 | reflexivity | discriminate | lia | tauto | intros ?
               | (vm_compute; first [reflexivity | discriminate | lia | tauto])].
Ltac history_step := first [eapply history_returns; [vm_compute; reflexivity| | |] | eapply history_throws; [vm_compute; reflexivity| |]].

Lemma sample_ok : start_ok sample_start /\ history_ok sample_history (start_reply sample_start).
Proof.
  split.
  - unfold sample_start, start_ok, start_type_ok. concrete_ok.
  - unfold sample_history.
    repeat (history_step; [by concrete_ok|first [vm_compute; reflexivity|idtac]..]).
Qed.


(** What the operations on HTTP messages do outside the conditions of the refinement. *)

(** A new message after some operations. *)
Definition after (ops : list Operation) : option (HttpMessage * list (option string)) :=
  match HttpResponse_new 0 0 200 with Some (Returns m) => run 0 ops m | _ => None end.
Definition value_after (ops : list Operation) (key : string) : option (option bytes) :=
  '(m, _) ← after ops; headerValue (str key) m.
Definition thrown_after (ops : list Operation) : option (list (option string)) := option_map snd (after ops).

(** A reserved header is stored like another one: the assertion is only about [date]. *)
Lemma reserved_header_stored :
  map (fun key => value_after [OpAddLine (str key) (str "x")] key) ["connection"; "transfer-encoding"; "trailer"; "te"; "upgrade"]
  = repeat (Some (Some (str "x"))) 5
  /\ after [OpAddLine (str "date") (str "x")] = None.
Proof. split; vm_compute; reflexivity. Qed.

(** The first bytes appended in place by a writer of [char] are text. *)
Lemma char_writer_is_text :
  value_after [OpInlineAppend 4 (MkWriter false (str "abcd") 4) []] "content-type" = Some (Some (str "text/plain")).
Proof. vm_compute. reflexivity. Qed.

(** A colon in the old content type, nine bytes or more before its end, is taken for the one
    after the name when the body is replaced. *)
Lemma content_type_corrupted :
  value_after [OpBody (str "a") (str "application/ld+json; profile=urn:x-example-profile"); OpBody (str "b") (str "text/plain")]
    "content-type"
  = Some (Some (str "application/ld+json; profile=urn:xtext/plain")).
Proof. vm_compute. reflexivity. Qed.

(** The header lines of an empty file stay when a body follows. *)
Lemma empty_file_keeps_lines :
  option_map (fun p => drop 50 (content (hm_data (fst p))))
    (after [OpFile 0 0 0 [] (str "text/plain"); OpBody (str "b") (str "text/plain")])
  = Some (CRLF ++ str "content-type: text/plain" ++ CRLF ++ str "content-length: 0" ++ CRLF
          ++ str "content-type: text/plain" ++ CRLF ++ str "content-length: 1" ++ CRLF ++ CRLF ++ str "b").
Proof. vm_compute. reflexivity. Qed.

(** The value of an existing header is replaced without the validation of a new one. *)
Lemma header_injected :
  value_after [OpAddLine (str "x") (str "1"); OpHeader (str "x") (str "2" ++ CRLF ++ str "set-cookie: b")] "set-cookie"
  = Some (Some (str "b"))
  /\ thrown_after [OpHeader (str "x") (str "2" ++ CRLF ++ str "set-cookie: b")] = Some [Some "HTTP header value is invalid"%string].
Proof. split; vm_compute; reflexivity. Qed.

(** So is the reason. *)
Lemma reason_injected :
  option_map (fun p => take 14 (drop 13 (content (hm_data (fst p))))) (after [OpReason (str "OK" ++ CRLF ++ str "a: b" ++ CRLF ++ str "c: d")])
  = Some (str "OK" ++ CRLF ++ str "a: b" ++ CRLF ++ str "c: d").
Proof. vm_compute. reflexivity. Qed.

(** With a coding, the body that is not in the buffer is still there when its lines are gone. *)
Lemma encoded_body_emptied :
  after [OpAddLine n_content_encoding (str "gzip"); OpBodyCaptured (str "abc") (str "text/plain"); OpBodyCaptured [] []] = None.
Proof. vm_compute. reflexivity. Qed.

(** A content type that [body] refuses is accepted with appended bytes, and is then not found. *)
Lemma short_type_appended :
  thrown_after [OpBody (str "a") (str "a/b")] = Some [Some "HTTP content-type header value is invalid"%string]
  /\ thrown_after [OpBody (str "a") (str "text/plain"); OpBodyAppend (str "b") (str "a/b")] = Some [None; None]
  /\ after [OpBody (str "a") (str "text/plain"); OpBodyAppend (str "b") (str "a/b"); OpBodyAppend (str "c") (str "text/html")] = None.
Proof. split; [|split]; vm_compute; reflexivity. Qed.

(** The lines of the body can be changed as values of headers. *)
Lemma content_length_altered :
  value_after [OpBody (str "a") (str "text/plain"); OpAppendValue n_content_length (str "7") []] "content-length" = Some (Some (str "17"))
  /\ ('(m, _) ← after [OpBody (str "a") (str "text/plain")];
      match headerRemoveValue n_content_length (str "1") (str ",") m with Some (Returns m) => hasHeader n_content_length m | _ => None end)
     = Some false.
Proof. split; vm_compute; reflexivity. Qed.
