(* ===== verification/HttpFinalize.v ===== *)
(** The final text of a response (http/src/http-message.cpp, [finalizeForHttp1], and the
    function of the same name in http-response.hpp): version and date are written in the room
    kept for them, the headers of the server and of the connection are inserted before the
    blank line, and a body with trailers is put in one chunk.  Everything happens in the
    buffer of the message, from the back to the front; pointers are positions, a null pointer
    is [None], and so is a failed assertion.

    The names of the trailers are read from the buffer while it is written, as the code does. *)

From S2P Require Import Prelude.
From S2P Require Import AsciiCase.
From S2P Require Import HpackTables.
From S2P Require Import Hpack.
From S2P Require Import HeadersView.
From S2P Require Import UrlCodec.
From S2P Require Import Cors.
From S2P Require Import Http1Request.
From S2P Require Import RoutePattern.
From S2P Require Import ResponseParser.
From S2P Require Import TimeString.
From S2P Require Import RawChars.
From S2P Require Import HttpMessage.
Local Open Scope Z_scope.

(** ** Numbers and constants *)

Definition hex_digits (value : Z) : nat := if value =? 0 then 1%nat else Z.to_nat (u32 (u32 (bit_width value) + 3) / 4).

Definition n_connection : bytes := str "connection".
Definition n_trailer : bytes := str "trailer".
Definition v_close : bytes := str "close".
Definition v_keepalive : bytes := str "keep-alive".
Definition kEndChunkedBody : bytes := CRLF ++ str "0" ++ CRLF.
Definition kMaxGlobalHeaders : nat := 256.
Definition writeFull (version : Z) : bytes := str "HTTP/" ++ [48 + version_major version; 46; 48 + version_minor version].

(** The headers of the server: parts that end with CRLF each. *)
Definition ConcatenatedHeaders : Type := list bytes.
Definition fullString (globals : ConcatenatedHeaders) : bytes :=
  let full := concat (map (fun g => g ++ CRLF) globals) in take (length full - 2) full.
(** [substr(0, find(':'))] *)
Definition global_key (g : bytes) : bytes := match memchr_pos 58 g with Some i => take i g | None => g end.

(** ** Writing at a pointer *)

(** [Append]: the pointer after the text. *)
Definition emit (data : bytes) (ptr : nat) (m : HttpMessage) : option (nat * HttpMessage) :=
  m ← mpoke ptr data m; Some ((ptr + length data)%nat, m).
(** The digits are written backwards from their end. *)
Definition emit_lower_hex (value : Z) (ptr : nat) (m : HttpMessage) : option (nat * HttpMessage) :=
  let digits := to_lower_hex value in
  let last := (ptr + hex_digits value)%nat in
  first ← back last (length digits); m ← mpoke first digits m; Some (last, m).

(** The size of the value of the header that lists the trailers. *)
Definition names_size (flat : bytes) : option nat :=
  hs ← headers_of flat; back (sum_list (map (fun h => (length (hv_name h) + length kTrailerValueSep)%nat) hs)) (length kTrailerValueSep).

(** [for (const auto& [name, value] : HeadersView(view))], from the offset [cur]. *)
Fixpoint append_names (fuel : nat) (view : HttpMessage -> bytes) (isFirst : bool) (cur ptr : nat) (m : HttpMessage)
  : option (nat * HttpMessage) :=
  if Nat.eqb cur (length (view m)) then Some (ptr, m)
  else
    match fuel with
    | O => None
    | S fuel =>
        '(nameLen, valueLen) ← setLen (drop cur (view m));
        '(ptr, m) ← (if isFirst then Some (ptr, m) else emit kTrailerValueSep ptr m);
        '(ptr, m) ← emit (take nameLen (drop cur (view m))) ptr m;
        let next := (cur + nameLen + 2 + valueLen + 2)%nat in
        if (next <=? length (view m))%nat then append_names fuel view false next ptr m else None
    end.
Definition emit_names (view : HttpMessage -> bytes) (ptr : nat) (m : HttpMessage) : option (nat * HttpMessage) :=
  append_names (length (view m)) view true 0 ptr m.

(** The header that lists the trailers, up to its CRLF; the code has it twice. *)
Definition emit_trailer_header (view : HttpMessage -> bytes) (insertPtr : nat) (m : HttpMessage) : option (nat * HttpMessage) :=
  '(insertPtr, m) ← emit n_trailer insertPtr m;
  '(insertPtr, m) ← emit HeaderSep insertPtr m;
  '(insertPtr, m) ← emit_names view insertPtr m;
  emit CRLF insertPtr m.

Definition StatusAllowsSynthesizedContentLengthZero (isHttpRequest : bool) (m : HttpMessage) : bool :=
  if isHttpRequest then false
  else
    let code := substr (mem m) 9 3 in
    (50 <=? byte_at code 0) && negb (bool_decide (code = str "204")) && negb (bool_decide (code = str "304")).

Definition ReplaceContentLengthWithTransferEncoding
    (insertPtr : nat) (newTrailersFlatView : HttpMessage -> bytes) (addTrailerHeader : bool) (m : HttpMessage)
  : option (nat * HttpMessage) :=
  let insertPtr := (insertPtr + 2)%nat in
  '(insertPtr, m) ←
    (if addTrailerHeader then emit_trailer_header newTrailersFlatView insertPtr m else Some (insertPtr, m));
  '(insertPtr, m) ← emit kTransferEncodingChunkedCRLF insertPtr m;
  insertPtr ← back insertPtr 2; Some (insertPtr, m).

(** ** The headers of the server *)

(** Which of them the message already has, and the bytes of the others; the bitset throws
    beyond its size, which no configuration reaches. *)
Fixpoint globals_to_skip (hasHeaders : bool) (pos : nat) (globals : ConcatenatedHeaders) (m : HttpMessage)
  : option (list bool * nat) :=
  match globals with
  | [] => Some ([], 0%nat)
  | g :: globals =>
      found ← (if hasHeaders then hasHeader (global_key g) m else Some false);
      if found && (kMaxGlobalHeaders <=? pos)%nat then None
      else
        '(skips, size) ← globals_to_skip hasHeaders (S pos) globals m;
        Some (found :: skips, if found : bool then size else (length g + 2 + size)%nat)
  end.

Fixpoint write_globals (pos : nat) (globals : ConcatenatedHeaders) (skips : list bool) (ptr : option nat) (m : HttpMessage)
  : option (option nat * HttpMessage) :=
  match globals, skips with
  | [], _ => Some (ptr, m)
  | g :: globals, skip :: skips =>
      if (kMaxGlobalHeaders <=? pos)%nat then None
      else if skip : bool then write_globals (S pos) globals skips ptr m
      else
        p ← ptr; '(p, m) ← emit CRLF p m; '(p, m) ← emit g p m; write_globals (S pos) globals skips (Some p) m
  | _, [] => None
  end.

Section Finalize.
Context (garbage : Z).

Definition mensure_capacity (n : nat) (m : HttpMessage) : HttpMessage :=
  set_data (ensureAvailableCapacity garbage n (hm_data m)) m.

(** ** The branches *)

Definition drop_payload (m : HttpMessage) : HttpMessage := set_payload PNone m.

(** A HEAD request for a message with trailers whose names are listed: the content length comes
    after the list. *)
Definition head_with_trailers (bodySz totalNewHeadersSize : nat) (m : HttpMessage) : option HttpMessage :=
  valueSize ← names_size (trailersFlatView m);
  let neededCapacity := (totalNewHeadersSize + HeaderSize (length n_trailer) valueSize)%nat in
  let m := mensure_capacity neededCapacity m in
  '(view, m) ←
    (if hasBodyInlined m then
       let old := (msize m - trailersSize m)%nat in
       let size := trailersSize m in
       m ← mmove (old + neededCapacity) old size m;
       Some (fun m => substr (mem m) (old + neededCapacity) size, m)
     else Some (trailersFlatView, m));
  l ← getContentLengthHeaderLinePtr m;
  '(insertPtr, m) ← emit_trailer_header view (l + 2) m;
  '(insertPtr, m) ← emit n_content_length insertPtr m;
  '(insertPtr, m) ← emit HeaderSep insertPtr m;
  '(insertPtr, m) ← emit (decimal (Z.of_nat bodySz)) insertPtr m;
  '(newBodyStartPos, m) ← emit DoubleCRLF insertPtr m;
  m ← msetSize newBodyStartPos m;
  setBodyStartPos newBodyStartPos m.

(** No body is sent from the buffer. *)
Definition finalize_empty (isHeadMethod addTrailerHeader : bool) (bodySz totalNewHeadersSize : nat) (m : HttpMessage)
  : option (option nat * HttpMessage) :=
  m ← (if isHeadMethod && negb (hasBodyFile m) then
         m ← (if negb (Nat.eqb (trailersSize m) 0) && addTrailerHeader then head_with_trailers bodySz totalNewHeadersSize m
              else if hasBodyInlined m then n ← back (msize m) (bodySz + trailersSize m); msetSize n m
              else Some m);
         Some (drop_payload (set_trailerLen 0 m))
       else Some m);
  if negb (Nat.eqb totalNewHeadersSize 0) then
    let m := mensure_capacity totalNewHeadersSize m in
    headersInsertPtr ← back (bodyStartPos m) 4;
    m ← mpoke (headersInsertPtr + totalNewHeadersSize) DoubleCRLF m;
    Some (Some headersInsertPtr, m)
  else Some (None, m).

(** A body without trailers. *)
Definition finalize_body (moveBodyInline : bool) (bodySz totalNewHeadersSize : nat) (m : HttpMessage)
  : option (option nat * HttpMessage) :=
  let m := mensure_capacity ((if moveBodyInline then bodySz else 0) + totalNewHeadersSize) m in
  let oldBodyStart := bodyStartPos m in
  headersInsertPtr ← back oldBodyStart 4;
  m ← (if moveBodyInline then
         m ← (if negb (Nat.eqb totalNewHeadersSize 0) then mpoke (headersInsertPtr + totalNewHeadersSize) DoubleCRLF m else Some m);
         m ← mpoke (oldBodyStart + totalNewHeadersSize) (payload_view (hm_payload m)) m;
         m ← maddSize bodySz m;
         Some (drop_payload m)
       else if negb (Nat.eqb totalNewHeadersSize 0) then
         m ← (if negb (hasBodyCaptured m) then mmove (oldBodyStart + totalNewHeadersSize) oldBodyStart bodySz m else Some m);
         mpoke (headersInsertPtr + totalNewHeadersSize) DoubleCRLF m
       else Some m);
  Some (Some headersInsertPtr, m).

(** The growth of the header section when the content length becomes a transfer coding. *)
Definition chunked_diff (addTrailerHeader : bool) (bodySz : nat) (m : HttpMessage) : option Z :=
  let headerSizeDiff := TransferEncodingHeaderSizeDiff (nchars bodySz) in
  if addTrailerHeader then
    valueSize ← names_size (trailersFlatView m); Some (headerSizeDiff + Z.of_nat (HeaderSize (length n_trailer) valueSize))
  else Some headerSizeDiff.

(** The payload holds the body and the trailers. *)
Definition finalize_captured_chunk (moveBodyInline addTrailerHeader : bool) (bodySz totalNewHeadersSize : nat) (m : HttpMessage)
  : option (option nat * HttpMessage) :=
  headerSizeDiff ← chunked_diff addTrailerHeader bodySz m;
  neededSize ← moved_by (2 + hex_digits (Z.of_nat bodySz) + (if moveBodyInline then payload_size (hm_payload m) + length kEndChunkedBody + 2 else 0)) headerSizeDiff;
  let m := mensure_capacity (neededSize + totalNewHeadersSize) m in
  oldDoubleCRLFPtr ← back (bodyStartPos m) 4;
  newDoubleCRLFPtr ← moved_by (oldDoubleCRLFPtr + totalNewHeadersSize) headerSizeDiff;
  l ← getContentLengthHeaderLinePtr m;
  '(headersInsertPtr, m) ← ReplaceContentLengthWithTransferEncoding l trailersFlatView addTrailerHeader m;
  '(insertPtr, m) ← emit_lower_hex (Z.of_nat bodySz) (headersInsertPtr + totalNewHeadersSize + 4) m;
  '(insertPtr, m) ← emit CRLF insertPtr m;
  m ← mpoke newDoubleCRLFPtr DoubleCRLF m;
  m ← (if moveBodyInline then
         let view := payload_view (hm_payload m) in
         '(insertPtr, m) ← emit (take bodySz view) insertPtr m;
         '(insertPtr, m) ← emit kEndChunkedBody insertPtr m;
         '(insertPtr, m) ← emit (substr view bodySz (trailersSize m)) insertPtr m;
         m ← mpoke insertPtr CRLF m;
         Some (drop_payload m)
       else
         p ← payload_insert bodySz kEndChunkedBody (hm_payload m);
         p ← payload_append CRLF p;
         Some (set_payload p m));
  m ← maddSize neededSize m;
  Some (Some headersInsertPtr, m).

(** The buffer holds them. *)
Definition finalize_inline_chunk (addTrailerHeader : bool) (bodySz totalNewHeadersSize : nat) (m : HttpMessage)
  : option (option nat * HttpMessage) :=
  headerSizeDiff ← chunked_diff addTrailerHeader bodySz m;
  let hexDigits := hex_digits (Z.of_nat bodySz) in
  diffSz ← moved_by (hexDigits + length kEndChunkedBody + 4) headerSizeDiff;
  let m := mensure_capacity (diffSz + totalNewHeadersSize) m in
  let oldBodyStart := bodyStartPos m in
  let oldTrailerStart := (oldBodyStart + bodySz)%nat in
  newHexStart ← moved_by (oldBodyStart + totalNewHeadersSize) headerSizeDiff;
  let newBodyDataStart := (newHexStart + hexDigits + 2)%nat in
  let newLastChunkStart := (newBodyDataStart + bodySz + 2)%nat in
  let newTrailersStart := (newLastChunkStart + 1 + 2)%nat in
  let size := trailersSize m in
  m ← mpoke (newTrailersStart + size) CRLF m;
  m ← mmove newTrailersStart oldTrailerStart size m;
  m ← mpoke (newLastChunkStart - 2) kEndChunkedBody m;
  m ← mmove newBodyDataStart oldBodyStart bodySz m;
  '(ptr, m) ← emit_lower_hex (Z.of_nat bodySz) newHexStart m;
  m ← mpoke ptr CRLF m;
  l ← getContentLengthHeaderLinePtr m;
  '(headersInsertPtr, m) ← ReplaceContentLengthWithTransferEncoding l (fun m => substr (mem m) newTrailersStart size) addTrailerHeader m;
  m ← mpoke (headersInsertPtr + totalNewHeadersSize) DoubleCRLF m;
  m ← maddSize diffSz m;
  let m := setBodyStartPosNoCheck newBodyDataStart m in
  Some (Some headersInsertPtr, set_trailerLen (trailersSize m + length kEndChunkedBody + 2) m).

(** ** finalizeForHttp1 *)

Definition message_finalizeForHttp1
    (version : Z) (opts : Options) (globals : ConcatenatedHeaders) (minCapturedBodySize : nat) (m : HttpMessage)
  : option HttpMessage :=
  let bodySz := bodyLength m in
  let connectionValue := if op_close opts then v_close else v_keepalive in
  let addConnectionHeader :=
    (op_close opts && (version =? HTTP_1_1)) || (negb (op_close opts) && (version =? HTTP_1_0)) in
  let hasHeaders := negb (Nat.eqb (fst (headersFlatView m)) (snd (headersFlatView m))) in
  let isHeadMethod := op_headMethod opts in
  let addTrailerHeader := negb (Nat.eqb (trailersSize m) 0) && op_addTrailerHeader opts in
  let addContentLengthZero :=
    Nat.eqb bodySz 0 && negb isHeadMethod && negb (hasBodyFile m) && negb (op_streamingBody opts)
    && StatusAllowsSynthesizedContentLengthZero (op_httpRequest opts) m in
  let ownSize :=
    ((if addConnectionHeader then HeaderSize (length n_connection) (length connectionValue) else 0)
     + (if addContentLengthZero then HeaderSize (length n_content_length) 1 else 0))%nat in
  '(skips, globalsSize) ←
    (if op_prepared (hm_opts m) then Some ([], 0%nat) else globals_to_skip hasHeaders 0 globals m);
  let writeAllGlobalHeaders := negb (op_prepared (hm_opts m)) && forallb negb skips in
  let totalNewHeadersSize := (ownSize + globalsSize)%nat in
  if kBodyStartMask <? Z.of_nat (totalNewHeadersSize + bodyStartPos m) then None
  else
    '(headersInsertPtr, m) ←
      (if Nat.eqb bodySz 0 || isHeadMethod || hasBodyFile m
       then finalize_empty isHeadMethod addTrailerHeader bodySz totalNewHeadersSize m
       else
         let moveBodyInline := hasBodyCaptured m && (bodySz + trailersSize m <=? minCapturedBodySize)%nat in
         if Nat.eqb (trailersSize m) 0 then finalize_body moveBodyInline bodySz totalNewHeadersSize m
         else if hasBodyCaptured m then finalize_captured_chunk moveBodyInline addTrailerHeader bodySz totalNewHeadersSize m
         else finalize_inline_chunk addTrailerHeader bodySz totalNewHeadersSize m);
    '(headersInsertPtr, m) ←
      (if op_prepared (hm_opts m) || bool_decide (globals = []) then Some (headersInsertPtr, m)
       else if writeAllGlobalHeaders then
         p ← headersInsertPtr; '(p, m) ← emit CRLF p m; '(p, m) ← emit (fullString globals) p m; Some (Some p, m)
       else write_globals 0 globals skips headersInsertPtr m);
    '(headersInsertPtr, m) ←
      (if addConnectionHeader
       then p ← headersInsertPtr; '(p, m) ← emit (WriteCRLFHeader n_connection connectionValue) p m; Some (Some p, m)
       else Some (headersInsertPtr, m));
    m ← (if addContentLengthZero
         then p ← headersInsertPtr; '(_, m) ← emit (CRLF ++ str "content-length: 0") p m; Some m
         else Some m);
    m ← maddSize totalNewHeadersSize m;
    if isSizeOnly (hm_payload m) then None else Some m.

(** [HttpResponse::finalizeForHttp1]: the buffer and the payload of the answer. *)
Definition finalizeForHttp1
    (tp version : Z) (opts : Options) (globals : ConcatenatedHeaders) (minCapturedBodySize : nat) (m : HttpMessage)
  : option (RawChars * Payload) :=
  m ← mpoke 0 (writeFull version) m;
  datePos ← dateHeaderStartPos m;
  date ← TimeToStringRFC7231 tp;
  m ← mpoke datePos (CRLF ++ str "date: ") m;
  m ← mpoke (datePos + length (CRLF ++ str "date: ")) date m;
  m ← message_finalizeForHttp1 version opts globals minCapturedBodySize m;
  let payload := hm_payload m in
  Some (hm_data m, if op_headMethod opts then match payload with PFile _ => PFile 0 | p => p end else payload).
End Finalize.

(** The bytes that are sent from memory. *)
Definition sent (p : RawChars * Payload) : bytes := content (fst p) ++ payload_view (snd p).
