(* ===== verification/HttpFinalizeSpec.v ===== *)
(** The text that a response becomes on the wire, from its abstract description; then writing
    in the buffer of a message without changing its size. *)

From S2P Require Import Prelude.
From S2P Require Import HpackTables.
From S2P Require Import AsciiCase.
From S2P Require Import Hpack.
From S2P Require Import HeadersView.
From S2P Require Import UrlCodec.
From S2P Require Import Http1Request.
From S2P Require Import Cors.
From S2P Require Import RoutePattern.
From S2P Require Import ResponseParser.
From S2P Require Import TimeString.
From S2P Require Import RawChars.
From S2P Require Import HttpMessage.
From S2P Require Import HttpMessageSpec.
From S2P Require Import HttpMessageRepr.
From S2P Require Import HttpFinalize.
Local Open Scope Z_scope.

(** ** Headers *)

(** The names of the trailers, separated. *)
Fixpoint names_text (first : bool) (ts : list field) : bytes :=
  match ts with
  | [] => []
  | f :: ts => (if first then [] else kTrailerValueSep) ++ fst f ++ names_text false ts
  end.
Definition names_field (ts : list field) : field := (n_trailer, names_text true ts).
Definition length_field (a : Response) : field := (n_content_length, decimal (Z.of_nat (body_len (a_body a)))).
Definition type_field (a : Response) : field := (n_content_type, body_type (a_body a)).
Definition chunked_field : field := (str "transfer-encoding", str "chunked").

Definition has_trailers (a : Response) : bool := negb (bool_decide (a_trailers a = [])).

(** How the body is delimited; the answer to HEAD tells the length. *)
Definition framing_fields (head addTrailer : bool) (a : Response) : list field :=
  if has_body (a_body a) then
    type_field a :: (if has_trailers a && addTrailer then [names_field (a_trailers a)] else [])
    ++ [if has_trailers a && negb head then chunked_field else length_field a]
  else [].

(** The headers of the server that the response does not have. *)
Definition is_missing (a : Response) (g : bytes) : bool := negb (existsb (named (global_key g)) (all_fields a)).
Definition server_headers (prepared : bool) (a : Response) (globals : ConcatenatedHeaders) : list bytes :=
  if prepared then [] else List.filter (is_missing a) globals.

Definition connection_text (opts : Options) (version : Z) : bytes :=
  if op_close opts then (if version =? HTTP_1_1 then WriteCRLFHeader n_connection v_close else [])
  else if version =? HTTP_1_0 then WriteCRLFHeader n_connection v_keepalive else [].

(** A response without a body says so, unless its status or its request already does. *)
Definition status_has_length (c : Z) : bool := (200 <=? c) && negb (c =? 204) && negb (c =? 304).
Definition no_length_text (opts : Options) (a : Response) : bytes :=
  if negb (has_body (a_body a)) && negb (op_headMethod opts) && negb (op_streamingBody opts) && status_has_length (a_code a)
  then CRLF ++ str "content-length: 0" else [].

Definition server_text (gs : list bytes) : bytes := concat (map (fun g => CRLF ++ g) gs).
Definition added_text (prepared : bool) (opts : Options) (version : Z) (globals : ConcatenatedHeaders) (a : Response) : bytes :=
  server_text (server_headers prepared a globals) ++ connection_text opts version ++ no_length_text opts a.

Definition start_text (version : Z) (date : bytes) (a : Response) : bytes :=
  writeFull version ++ [32] ++ code_digits (a_code a) ++ [32] ++ a_reason a ++ CRLF ++ str "date: " ++ date.
Definition wire_head (prepared : bool) (version : Z) (date : bytes) (opts : Options) (globals : ConcatenatedHeaders) (a : Response) : bytes :=
  start_text version date a ++ crlf_lines (a_fields a ++ framing_fields (op_headMethod opts) (op_addTrailerHeader opts) a)
  ++ added_text prepared opts version globals a ++ DoubleCRLF.

(** ** Body *)

(** One chunk, the empty one, the trailers. *)
Definition chunk_head (n : nat) : bytes := to_lower_hex (Z.of_nat n) ++ CRLF.
Definition chunk_tail (ts : list field) : bytes := kEndChunkedBody ++ flat_lines ts ++ CRLF.
Definition sent_body (head : bool) (a : Response) : bytes :=
  if head then []
  else if has_trailers a then chunk_head (body_len (a_body a)) ++ body_data (a_body a) ++ chunk_tail (a_trailers a)
  else body_data (a_body a).

Definition wire_text (prepared : bool) (version : Z) (date : bytes) (opts : Options) (globals : ConcatenatedHeaders) (a : Response) : bytes :=
  wire_head prepared version date opts globals a ++ sent_body (op_headMethod opts) a.

(** A file is left to the transport. *)
Definition file_left (head : bool) (a : Response) : option nat :=
  match a_body a with FileBody _ n => Some (if head then 0%nat else n) | _ => None end.
Definition file_of (p : Payload) : option nat := match p with PFile n => Some n | _ => None end.

(** Writing in the buffer of a message without changing its size: the text before a pointer
    is done, a hole follows that is filled from its front or from its back. *)

(** ** Everything but the bytes stays *)

Definition kept (m m' : HttpMessage) : Prop :=
  msize m' = msize m /\ hm_posBitmap m' = hm_posBitmap m /\ hm_payload m' = hm_payload m /\ hm_opts m' = hm_opts m.

Lemma kept_refl m : kept m m.
Proof. done. Qed.
Lemma kept_trans m1 m2 m3 : kept m1 m2 -> kept m2 m3 -> kept m1 m3.
Proof. unfold kept. intuition congruence. Qed.
Lemma kept_body m m' : kept m m' -> bodyStartPos m' = bodyStartPos m.
Proof. intros (_ & E & _). unfold bodyStartPos. by rewrite E. Qed.
#[local] Hint Resolve kept_refl kept_trans : core.

Lemma list_split {A} (l : list A) k : (k <= length l)%nat -> exists a b, l = a ++ b /\ length a = k.
Proof. intros H. exists (take k l), (drop k l). rewrite take_drop, length_take. split; [done|lia]. Qed.

Lemma moved_by_exact a b g : Z.of_nat b = Z.of_nat a + g -> moved_by a g = Some b.
Proof. intros E. unfold moved_by. rewrite <- E, (proj2 (Z.leb_le _ _)) by lia. by rewrite Nat2Z.id. Qed.

(** ** Writing at the front and at the back of a hole *)

Lemma mpoke_hole m x hole z data :
  mem m = x ++ hole ++ z -> (length data <= length hole)%nat ->
  exists m', mpoke (length x) data m = Some m' /\ mem m' = (x ++ data) ++ drop (length data) hole ++ z /\ kept m m'.
Proof.
  intros E Hl. unfold mpoke, on_data. rewrite (poke_rest _ x (hole ++ z) data) by (done || (rewrite length_app; lia)).
  cbn [mbind option_bind]. eexists. split; [done|]. split; [|done]. unfold mem. cbn [set_data hm_data rc_buf].
  by rewrite drop_app_le, <- app_assoc.
Qed.

Lemma emit_hole m x hole z data p :
  mem m = x ++ hole ++ z -> p = length x -> (length data <= length hole)%nat ->
  exists m', emit data p m = Some (length (x ++ data), m') /\ mem m' = (x ++ data) ++ drop (length data) hole ++ z /\ kept m m'.
Proof.
  intros E -> Hl. destruct (mpoke_hole m x hole z data E Hl) as (m' & Ep & Em & Hk). exists m'. unfold emit. rewrite Ep.
  cbn [mbind option_bind]. by rewrite length_app.
Qed.

(** At the end of the hole. *)
Lemma mpoke_back m x hole z data p :
  mem m = x ++ hole ++ z -> (length data <= length hole)%nat -> (p + length data = length (x ++ hole))%nat ->
  exists m', mpoke p data m = Some m' /\ mem m' = x ++ take (length hole - length data) hole ++ data ++ z /\ kept m m'.
Proof.
  intros E Hl Hp. set (k := (length hole - length data)%nat) in *.
  assert (E' : mem m = (x ++ take k hole) ++ drop k hole ++ z) by (rewrite E, <- app_assoc; f_equal; by rewrite (app_assoc (take k hole)), take_drop).
  destruct (mpoke_hole m _ _ _ data E') as (m' & Ep & Em & Hk); [rewrite length_drop; lia|].
  assert (Ex : length (x ++ take k hole) = p) by (rewrite length_app, length_take in *; lia).
  rewrite Ex in Ep. exists m'. split; [done|]. split; [|done]. rewrite Em, drop_drop.
  rewrite (drop_ge hole) by lia. by rewrite <- !app_assoc.
Qed.

(** Bytes moved to the right, to the end of the hole that follows them. *)
Lemma mmove_back m x y hole z src dst n :
  mem m = x ++ y ++ hole ++ z -> src = length x -> n = length y -> (dst + n = length (x ++ y ++ hole))%nat ->
  exists m' hole', mmove dst src n m = Some m' /\ mem m' = x ++ hole' ++ y ++ z /\ length hole' = length hole /\ kept m m'.
Proof.
  intros E -> -> Hd. unfold mmove, on_data, memmove.
  assert (Hc : (length x + length y <= capacity (hm_data m))%nat).
  { unfold capacity. change (rc_buf (hm_data m)) with (mem m). rewrite E, !length_app. lia. }
  rewrite (proj2 (Nat.leb_le _ _) Hc). change (rc_buf (hm_data m)) with (mem m). rewrite E, drop_app_length, take_app_length.
  change (exists m' hole', mpoke dst y m = Some m' /\ mem m' = x ++ hole' ++ y ++ z /\ length hole' = length hole /\ kept m m').
  rewrite (app_assoc y) in E. destruct (mpoke_back m x (y ++ hole) z y dst E) as (m' & Ep & Em & Hk); [rewrite length_app; lia|done|].
  exists m', (take (length (y ++ hole) - length y) (y ++ hole)). split; [done|]. split; [done|]. split; [|done].
  rewrite length_take, length_app. lia.
Qed.

(** ** Digits *)

Lemma lower_hex_length fuel v (acc : bytes) : 0 <= v < 16 ^ Z.of_nat fuel -> fuel <> 0%nat ->
  length (lower_hex_loop fuel v acc) = (Z.to_nat ((bit_width v + 3) / 4) + length acc + (if (v =? 0)%Z then 1 else 0))%nat.
Proof.
  revert v acc. induction fuel as [|fuel IH]; intros v acc Hv Hf; [done|]. cbn [lower_hex_loop].
  rewrite Z.shiftr_div_pow2 by lia. change (2 ^ 4) with 16. destruct (Z.eqb_spec (v / 16) 0) as [E|E].
  - cbn [length]. assert (H : v < 16) by (apply Z.div_small_iff in E; lia). unfold bit_width.
    destruct (Z.eqb_spec v 0) as [->|Hne]; [change (Z.to_nat ((0 + 3) / 4)) with 0%nat; lia|].
    assert (Hlog : 0 <= Z.log2 v < 4) by (split; [apply Z.log2_nonneg|apply Z.log2_lt_pow2; lia]).
    assert (E1 : (Z.log2 v + 1 + 3) / 4 = 1) by zlia. rewrite E1. change (Z.to_nat 1) with 1%nat. lia.
  - assert (H16 : 16 <= v) by zlia. rewrite Nat2Z.inj_succ, Z.pow_succ_r in Hv by lia.
    assert (Hfuel : fuel <> 0%nat) by (intros ->; cbn in Hv; lia).
    rewrite IH; [|split; [zlia|apply Z.div_lt_upper_bound; lia]|done]. cbn [length].
    rewrite (proj2 (Z.eqb_neq v 0)), (proj2 (Z.eqb_neq (v / 16) 0)) by lia. unfold bit_width.
    rewrite (proj2 (Z.eqb_neq v 0)), (proj2 (Z.eqb_neq (v / 16) 0)) by lia.
    assert (El : Z.log2 v = Z.log2 (v / 16) + 4).
    { change 16 with (2 ^ 4). rewrite <- Z.shiftr_div_pow2, Z.log2_shiftr by lia.
      assert (4 <= Z.log2 v) by (apply Z.log2_le_pow2; lia). lia. }
    rewrite El. pose proof (Z.log2_nonneg (v / 16)).
    replace (Z.log2 (v / 16) + 4 + 1 + 3) with (Z.log2 (v / 16) + 1 + 3 + 1 * 4) by lia.
    rewrite Z.div_add by lia. rewrite Z2Nat.inj_add by zlia. change (Z.to_nat 1) with 1%nat. lia.
Qed.

Lemma hex_digits_length v : 0 <= v < 2 ^ 64 -> hex_digits v = length (to_lower_hex v).
Proof.
  intros Hv. unfold to_lower_hex. rewrite lower_hex_length by (done || (change (16 ^ Z.of_nat 16) with (2 ^ 64); lia)).
  unfold hex_digits. destruct (Z.eqb_spec v 0) as [->|Hne]; [done|]. cbn [length].
  assert (H : 0 <= bit_width v <= 64).
  { unfold bit_width. rewrite (proj2 (Z.eqb_neq v 0)) by done. pose proof (Z.log2_nonneg v).
    assert (Z.log2 v < 64) by (apply Z.log2_lt_pow2; lia). lia. }
  rewrite !u32_id by (rewrite ?u32_id; lia). lia.
Qed.

Lemma emit_lower_hex_hole m x hole z v :
  mem m = x ++ hole ++ z -> 0 <= v < 2 ^ 64 -> (length (to_lower_hex v) <= length hole)%nat ->
  exists m', emit_lower_hex v (length x) m = Some (length (x ++ to_lower_hex v), m')
    /\ mem m' = (x ++ to_lower_hex v) ++ drop (length (to_lower_hex v)) hole ++ z /\ kept m m'.
Proof.
  intros E Hv Hl. destruct (mpoke_hole m x hole z _ E Hl) as (m' & Ep & Em & Hk). exists m'.
  unfold emit_lower_hex. rewrite hex_digits_length by done. rewrite back_sub by lia. cbn [mbind option_bind].
  rewrite Nat.add_sub, Ep. cbn [mbind option_bind]. by rewrite length_app.
Qed.

(** ** The list of the trailers *)

Definition view_of_field (f : field) : HeaderView := MkHeaderView (fst f) (snd f).

Lemma readable_header f : readable f -> header_wf (view_of_field f).
Proof.
  intros (Hne & _ & Hcol & Hn & Hv). split; [|done]. cbn [view_of_field hv_name]. destruct (fst f) as [|c r]; [done|].
  exists c, r. split; [done|]. by inversion Hcol.
Qed.

Lemma flat_lines_headers ts : flat_lines ts = flatten_headers (map view_of_field ts).
Proof.
  unfold flat_lines, flatten_headers. rewrite map_map. f_equal. apply map_ext. intros f.
  unfold field_line, WriteHeaderCRLF, WriteHeader, line_of. cbn. by rewrite <- !app_assoc.
Qed.

Lemma names_size_text ts : Forall readable ts -> ts <> [] -> names_size (flat_lines ts) = Some (length (names_text true ts)).
Proof.
  intros Hr Hne. unfold names_size. unfold headers_of. rewrite flat_lines_headers, walk_flatten; [|apply Forall_map; eapply Forall_impl; [exact Hr|]; apply readable_header|done].
  cbn [mbind option_bind]. rewrite map_map.
  assert (Ef : forall l, sum_list (map (fun x => (length (hv_name (view_of_field x)) + length kTrailerValueSep)%nat) l) = length (names_text false l)).
  { induction l as [|f l IH]; [done|]. cbn [map sum_list]. rewrite IH. cbn [names_text]. rewrite !length_app. cbn. lia. }
  rewrite Ef. destruct ts as [|f ts]; [done|]. cbn [names_text]. rewrite !length_app. change (length kTrailerValueSep) with 2%nat.
  rewrite back_sub by lia. f_equal. cbn. lia.
Qed.

(** The loop that writes it, whose view of the trailers is not touched by the writing. *)
Lemma append_names_hole view ts z n fuel : forall done m x hole,
  (forall m' l, kept m m' -> mem m' = l ++ z -> length l = n -> view m' = flat_lines (done ++ ts)) ->
  Forall readable ts -> mem m = x ++ hole ++ z -> n = length (x ++ hole) -> (length ts <= fuel)%nat ->
  let text := names_text (bool_decide (done = [])) ts in
  (length text <= length hole)%nat ->
  exists m', append_names fuel view (bool_decide (done = [])) (length (flat_lines done)) (length x) m = Some (length (x ++ text), m')
    /\ mem m' = (x ++ text) ++ drop (length text) hole ++ z /\ kept m m'.
Proof.
  revert ts. induction fuel as [|fuel IH]; intros ts dn m x hole Hview Hr E Hn Hfuel text Hl;
    (assert (Ev : view m = flat_lines (dn ++ ts)) by (apply (Hview m (x ++ hole)); [done|by rewrite <- app_assoc|done]));
    destruct ts as [|f ts]; cbn [length] in Hfuel; try lia.
  1,2: exists m; subst text; cbn [append_names names_text]; rewrite Ev, app_nil_r, Nat.eqb_refl, app_nil_r; done.
  cbn [append_names]. rewrite Ev, flat_lines_app. inversion Hr as [|? ? Hf Hr']; subst.
  change (flat_lines (f :: ts)) with (field_line f ++ flat_lines ts). rewrite (proj2 (Nat.eqb_neq _ _)) by (rewrite !length_app, size_of_field_line; lia).
  rewrite drop_app_length. assert (El : field_line f = line_of (view_of_field f)) by (unfold field_line, WriteHeaderCRLF, WriteHeader, line_of; cbn; by rewrite <- !app_assoc).
  assert (Es : setLen (field_line f ++ flat_lines ts) = Some (length (fst f), length (snd f)))
    by (rewrite El; apply (setLen_line (view_of_field f)); by apply readable_header).
  rewrite Es. cbn [mbind option_bind].
  subst text. cbn [names_text] in Hl |- *. set (sep := if bool_decide (dn = []) then [] else kTrailerValueSep) in *.
  assert (Hsep : exists m1, (if bool_decide (dn = []) then Some (length x, m) else emit kTrailerValueSep (length x) m) = Some (length (x ++ sep), m1)
    /\ mem m1 = (x ++ sep) ++ drop (length sep) hole ++ z /\ kept m m1).
  { subst sep. case_bool_decide; [exists m; by rewrite !app_nil_r|]. rewrite length_app in Hl. apply emit_hole; [done|done|lia]. }
  destruct Hsep as (m1 & -> & E1 & K1). cbn [mbind option_bind].
  assert (Hview1 : forall m' l, kept m1 m' -> mem m' = l ++ z -> length l = length (x ++ hole) -> view m' = flat_lines (dn ++ f :: ts)).
  { intros m' l Hk. apply Hview. eauto. }
  rewrite (Hview1 m1 ((x ++ sep) ++ drop (length sep) hole)); [|done|by rewrite <- app_assoc|rewrite !length_app in *; rewrite length_drop; lia].
  rewrite flat_lines_app, drop_app_length. change (flat_lines (f :: ts)) with (field_line f ++ flat_lines ts).
  assert (Et : take (length (fst f)) (field_line f ++ flat_lines ts) = fst f).
  { unfold field_line, WriteHeaderCRLF, WriteHeader. rewrite <- !app_assoc. apply take_app_length. }
  rewrite Et. rewrite !length_app in Hl.
  destruct (emit_hole m1 (x ++ sep) _ z (fst f) _ E1 eq_refl) as (m2 & -> & E2 & K2); [rewrite length_drop; lia|]. cbn [mbind option_bind].
  rewrite (Hview1 m2 (((x ++ sep) ++ fst f) ++ drop (length (fst f)) (drop (length sep) hole))); [|done|by rewrite <- app_assoc|rewrite !length_app, !length_drop; lia].
  rewrite (proj2 (Nat.leb_le _ _)) by (rewrite flat_lines_app, !length_app; change (flat_lines (f :: ts)) with (field_line f ++ flat_lines ts); rewrite length_app, size_of_field_line; lia).
  assert (Ecur : (length (flat_lines dn) + length (fst f) + 2 + length (snd f) + 2)%nat = length (flat_lines (dn ++ [f]))).
  { rewrite flat_lines_app. change (flat_lines [f]) with (field_line f ++ []). rewrite !length_app, size_of_field_line. cbn. lia. }
  rewrite Ecur. assert (Eb : false = bool_decide (dn ++ [f] = [])) by (symmetry; apply bool_decide_false; by destruct dn).
  rewrite Eb. destruct (IH ts (dn ++ [f]) m2 ((x ++ sep) ++ fst f) (drop (length (fst f)) (drop (length sep) hole))) as (m3 & E3 & M3 & K3).
  - intros m' l Hk Em Hlen. rewrite <- app_assoc. apply (Hview1 m' l); [eauto|done|done].
  - done.
  - exact E2.
  - rewrite !length_app, !length_drop. lia.
  - lia.
  - rewrite <- Eb. rewrite !length_drop. lia.
  - exists m3. rewrite E3, <- Eb. split; [by rewrite <- !app_assoc|]. split; [|eauto]. rewrite M3, <- Eb, !drop_drop.
    rewrite !length_app. rewrite <- !app_assoc. by do 5 f_equal.
Qed.
