(* ===== verification/HttpFinalizeBranches.v ===== *)
(** Where the text of the message and the room for the headers of the server are when a branch
    of [finalizeForHttp1] is done, and that each branch gets there. *)

From S2P Require Import Prelude.
From S2P Require Import HpackTables.
From S2P Require Import AsciiCase.
From S2P Require Import Hpack.
From S2P Require Import HeadersView.
From S2P Require Import UrlCodec.
From S2P Require Import Http1Request.
From S2P Require Import Cors.
From S2P Require Import RoutePattern.
From S2P Require Import ResponseParser.
From S2P Require Import TimeString.
From S2P Require Import RawChars.
From S2P Require Import HttpMessage.
From S2P Require Import HttpMessageSpec.
From S2P Require Import HttpMessageRepr.
From S2P Require Import HttpFinalize.
From S2P Require Import HttpFinalizeSpec.
Local Open Scope Z_scope.

#[local] Hint Resolve kept_refl kept_trans : core.

Section Branches.
Context (garbage : Z).

Lemma mensure_capacity_mem n m c :
  holds (hm_data m) c ->
  exists spare, mem (mensure_capacity garbage n m) = c ++ spare /\ (n <= length spare)%nat /\ kept m (mensure_capacity garbage n m).
Proof.
  intros H. destruct (ensure_holds garbage n _ _ H) as [(spare & E & Es) Hr]. exists spare. split; [done|].
  unfold room in Hr. unfold capacity in Hr. rewrite E, Es, length_app in Hr. split; [lia|]. split; [|done].
  unfold msize, mensure_capacity. cbn [set_data hm_data]. by rewrite Es, (holds_size _ _ H).
Qed.

Lemma msetSize_holds m c junk n :
  mem m = c ++ junk -> n = length c ->
  exists m', msetSize n m = Some m' /\ holds (hm_data m') c /\ mem m' = mem m /\ same_rest m m' /\ hm_posBitmap m' = hm_posBitmap m.
Proof.
  intros E En. destruct (setSize_holds (hm_data m) c junk n E En) as (r & Er & Hr & Eb). unfold msetSize, on_data.
  rewrite Er. cbn [mbind option_bind]. eexists. split; [done|]. done.
Qed.

(** Within the allocation. *)
Lemma maddSize_room m n :
  (msize m + n <= length (mem m))%nat ->
  exists m', maddSize n m = Some m' /\ mem m' = mem m /\ msize m' = (msize m + n)%nat /\ same_rest m m' /\ hm_posBitmap m' = hm_posBitmap m.
Proof.
  intros Hc. unfold maddSize, on_data, addSize, setSize. change (rc_size (hm_data m)) with (msize m).
  change (capacity (hm_data m)) with (length (mem m)). rewrite (proj2 (Nat.leb_le _ _) Hc). cbn [mbind option_bind]. by eexists.
Qed.

(** ** The text, room for more headers, the blank line, what follows it *)

Definition Placed (m : HttpMessage) (hip : option nat) (total : nat) (head tail : bytes) : Prop :=
  exists hole junk, mem m = head ++ hole ++ DoubleCRLF ++ tail ++ junk /\ length hole = total
    /\ msize m = length (head ++ DoubleCRLF ++ tail) /\ (hip = Some (length head) \/ total = 0%nat).

(** The blank line is written again after the room. *)
Lemma place_blank m head total z :
  mem m = head ++ DoubleCRLF ++ z -> (total <= length z)%nat ->
  exists m' hole, (if negb (Nat.eqb total 0) then mpoke (length head + total) DoubleCRLF m else Some m) = Some m'
    /\ mem m' = head ++ hole ++ DoubleCRLF ++ drop total z /\ length hole = total /\ kept m m'.
Proof.
  intros E Hl. destruct (Nat.eqb_spec total 0) as [->|Hne]; cbn [negb]; [by exists m, []|].
  assert (E' : mem m = head ++ (DoubleCRLF ++ take total z) ++ drop total z) by (by rewrite E, <- app_assoc, take_drop).
  destruct (mpoke_back m head _ _ DoubleCRLF (length head + total) E') as (m' & Ep & Em & Hk);
    [rewrite length_app; lia|rewrite !length_app, length_take; change (length DoubleCRLF) with 4%nat; lia|].
  eexists m', _. split; [done|]. split; [exact Em|]. split; [|done]. rewrite length_take, length_app, length_take.
  change (length DoubleCRLF) with 4%nat. lia.
Qed.

Lemma place_empty m head total :
  holds (hm_data m) (head ++ DoubleCRLF) -> bodyStartPos m = length (head ++ DoubleCRLF) ->
  exists hip m',
    (if negb (Nat.eqb total 0) then
       let m := mensure_capacity garbage total m in
       headersInsertPtr ← back (bodyStartPos m) 4;
       m ← mpoke (headersInsertPtr + total) DoubleCRLF m;
       Some (Some headersInsertPtr, m)
     else Some (None, m)) = Some (hip, m')
    /\ Placed m' hip total head [] /\ same_rest m m'.
Proof.
  intros H Eb. destruct (Nat.eqb_spec total 0) as [->|Hne]; cbn [negb].
  - exists None, m. split; [done|]. split; [|done]. destruct H as (spare & E & Es). exists [], spare.
    split; [unfold mem; by rewrite E, <- app_assoc|]. split; [done|]. split; [unfold msize; by rewrite app_nil_r|by right].
  - destruct (mensure_capacity_mem total m _ H) as (spare & E & Hsp & K). cbv zeta.
    set (m1 := mensure_capacity garbage total m) in *. rewrite (kept_body _ _ K), Eb, length_app.
    change (length DoubleCRLF) with 4%nat. rewrite back_sub by lia. cbn [mbind option_bind]. rewrite Nat.add_sub.
    rewrite <- app_assoc in E. destruct (place_blank m1 head total spare E Hsp) as (m2 & hole & E2 & M2 & Hh & K2).
    rewrite (proj2 (Nat.eqb_neq _ _)) in E2 by done. cbn [negb] in E2. rewrite E2. cbn [mbind option_bind].
    exists (Some (length head)), m2. split; [done|]. assert (K3 : kept m m2) by eauto. split.
    + exists hole, (drop total spare). split; [done|]. split; [done|]. split; [|by left].
      destruct K3 as (-> & _). unfold msize. rewrite (holds_size _ _ H). by rewrite app_nil_r.
    + by destruct K3 as (_ & _ & ? & ?).
Qed.

(** ** A body with its length *)

Lemma finalize_body_placed mv m head d total p :
  holds (hm_data m) (head ++ DoubleCRLF ++ (match p with PNone => d | _ => [] end)) ->
  bodyStartPos m = length (head ++ DoubleCRLF) ->
  hm_payload m = p -> (p = PNone /\ mv = false \/ p = PCaptured d) ->
  exists m', finalize_body garbage mv (length d) total m = Some (Some (length head), m')
    /\ Placed m' (Some (length head)) total head (if mv then d else match p with PNone => d | _ => [] end)
    /\ hm_payload m' = (if mv then PNone else p) /\ hm_opts m' = hm_opts m.
Proof.
  intros H Eb Ep Hp. unfold finalize_body. cbv zeta.
  destruct (mensure_capacity_mem ((if mv then length d else 0) + total) m _ H) as (spare & E & Hsp & K).
  set (m1 := mensure_capacity garbage _ m) in *. rewrite (kept_body _ _ K), Eb, length_app. change (length DoubleCRLF) with 4%nat.
  rewrite back_sub by lia. cbn [mbind option_bind]. rewrite Nat.add_sub. rewrite <- !app_assoc in E.
  assert (Hsz : msize m = length (head ++ DoubleCRLF ++ match p with PNone => d | _ => [] end)) by (unfold msize; by apply holds_size).
  assert (Epay : hm_payload m1 = p) by (by destruct K as (_ & _ & -> & _)).
  destruct mv.
  - destruct Hp as [[_ ?]| ->]; [done|]. cbn [app] in E.
    destruct (place_blank m1 head total spare E ltac:(lia)) as (m2 & hole & E2 & M2 & Hh & K2). rewrite E2. cbn [mbind option_bind].
    assert (Epay2 : hm_payload m2 = PCaptured d) by (by destruct K2 as (_ & _ & -> & _)). rewrite Epay2. cbn [payload_view].
    rewrite !app_assoc in M2. rewrite <- (app_nil_r (drop total spare)) in M2.
    destruct (mpoke_hole m2 ((head ++ hole) ++ DoubleCRLF) (drop total spare) [] d M2) as (m3 & E3 & M3 & K3); [rewrite length_drop; lia|].
    assert (Ex : (length head + 4 + total)%nat = length ((head ++ hole) ++ DoubleCRLF)) by (rewrite !length_app; change (length DoubleCRLF) with 4%nat; lia).
    rewrite Ex, E3. cbn [mbind option_bind]. rewrite app_nil_r in M3. rewrite <- !app_assoc in M3.
    assert (Es3 : msize m3 = (length head + 4)%nat) by (destruct K3 as (-> & _), K2 as (-> & _), K as (-> & _); rewrite Hsz, !length_app; cbn; lia).
    destruct (maddSize_room m3 (length d)) as (m4 & E4 & M4 & S4 & R4 & _);
      [rewrite Es3, M3, !length_app; change (length DoubleCRLF) with 4%nat; lia|]. rewrite E4. cbn [mbind option_bind].
    eexists. split; [done|]. split; [|split; [done|]].
    + exists hole, (drop (length d) (drop total spare)). change (mem (drop_payload m4)) with (mem m4). rewrite M4. split; [exact M3|]. split; [done|].
      split; [|by left]. change (msize (drop_payload m4)) with (msize m4). rewrite S4, Es3, !length_app. change (length DoubleCRLF) with 4%nat. lia.
    + change (hm_opts (drop_payload m4)) with (hm_opts m4). destruct R4 as [_ ->], K3 as (_ & _ & _ & ->), K2 as (_ & _ & _ & ->). by destruct K as (_ & _ & _ & ->).
  - assert (Ecap : hasBodyCaptured m1 = match p with PNone => false | _ => true end).
    { unfold hasBodyCaptured. rewrite Epay. by destruct Hp as [[-> _]| ->]. }
    rewrite Ecap. set (inl := match p with PNone => d | _ => [] end) in *.
    assert (Hmove : exists m2 hole, (if negb (match p with PNone => false | _ => true end)
               then if negb (Nat.eqb total 0) then mmove (length head + 4 + total) (length head + 4) (length d) m1 else Some m1 else Some m1) = Some m2
             /\ mem m2 = head ++ DoubleCRLF ++ (if Nat.eqb total 0 then [] else hole) ++ inl ++ drop total spare /\ length hole = total /\ kept m1 m2).
    { destruct (Nat.eqb_spec total 0) as [Et|Hne]; cbn [negb].
      - exists m1, []. rewrite Et, E. by destruct p.
      - destruct Hp as [[-> _]| ->]; cbn [negb].
        + assert (E' : mem m1 = (head ++ DoubleCRLF) ++ d ++ take total spare ++ drop total spare)
            by (rewrite E, <- !app_assoc; by rewrite take_drop).
          destruct (mmove_back m1 _ _ _ _ (length head + 4) (length head + 4 + total) (length d) E') as (m2 & hole & E2 & M2 & Hh & K2);
            [rewrite length_app; done|done|rewrite !length_app, length_take; change (length DoubleCRLF) with 4%nat; lia|].
          exists m2, hole. split; [done|]. split; [by rewrite M2, <- !app_assoc|]. split; [|done]. rewrite Hh, length_take. lia.
        + exists m1, (take total spare). split; [done|]. split; [by rewrite E; subst inl; cbn [app]; rewrite take_drop|]. split; [|done].
          rewrite length_take. lia. }
    destruct Hmove as (m2 & hole & E2 & M2 & Hh & K2).
    destruct (place_blank m2 head total ((if Nat.eqb total 0 then [] else hole) ++ inl ++ drop total spare)) as (m3 & hole3 & E3 & M3 & Hh3 & K3);
      [exact M2|destruct (Nat.eqb_spec total 0); rewrite length_app; lia|].
    assert (Eres : (if negb (Nat.eqb total 0)
                    then m ← (if negb (match p with PNone => false | _ => true end) then mmove (length head + 4 + total) (length head + 4) (length d) m1 else Some m1);
                         mpoke (length head + total) DoubleCRLF m
                    else Some m1) = Some m3).
    { destruct (Nat.eqb total 0); cbn [negb] in *; [destruct (match p with PNone => false | _ => true end); cbn [negb] in E2; injection E2 as ->; by injection E3 as ->|].
      rewrite E2. cbn [mbind option_bind]. exact E3. }
    rewrite Eres. cbn [mbind option_bind]. exists m3. split; [done|]. assert (K4 : kept m m3) by eauto.
    assert (Ed : drop total ((if Nat.eqb total 0 then [] else hole) ++ inl ++ drop total spare) = inl ++ drop total spare).
    { destruct (Nat.eqb_spec total 0) as [Et|]; [by rewrite Et|]. rewrite drop_app_le, drop_ge by lia. done. }
    rewrite Ed in M3. split; [|destruct K4 as (_ & _ & E4 & E5); by rewrite E4, E5].
    exists hole3, (drop total spare). split; [exact M3|]. split; [done|]. split; [|by left]. by destruct K4 as (-> & _).
Qed.
End Branches.

(** The branches of [finalizeForHttp1] that replace the content length: the answer to HEAD for
    a message with trailers, and a body in one chunk, in the payload or in the buffer. *)

#[local] Hint Resolve kept_refl kept_trans : core.

Lemma flat_crlf_length fs : length (flat_lines fs) = length (crlf_lines fs).
Proof. pose proof (f_equal length (lines_shift fs)) as E. rewrite !length_app in E. cbn in E. lia. Qed.

(** The pointer to the line of the content length, whatever follows it. *)
Definition cl_line (n : nat) : bytes := crlf_line (n_content_length, decimal (Z.of_nat n)).

Lemma cl_line_length n : length (cl_line n) = (length (decimal (Z.of_nat n)) + 18)%nat.
Proof. unfold cl_line, crlf_line, WriteCRLFHeader, WriteHeader. cbn [fst snd]. rewrite !length_app. cbn. lia. Qed.

Lemma length_line_at m h n post :
  mem m = h ++ cl_line n ++ post -> bodyStartPos m = (length (h ++ cl_line n) + 4)%nat ->
  getContentLengthHeaderLinePtr m = Some (length h).
Proof.
  intros E Eb. unfold getContentLengthHeaderLinePtr, getContentLengthValueEndPtr. rewrite Eb, back_sub by lia. cbn [mbind option_bind].
  rewrite Nat.add_sub, length_app, cl_line_length.
  assert (Hd : (1 <= length (decimal (Z.of_nat n)))%nat)
    by (pose proof (decimal_nonempty n); destruct (decimal (Z.of_nat n)); [done|cbn; lia]).
  change (2 + length n_content_length + 2 + 1)%nat with 19%nat. rewrite back_sub by lia. cbn [mbind option_bind]. rewrite E.
  replace (h ++ cl_line n ++ post) with (h ++ 13 :: ((10 :: n_content_length) ++ 58 :: (32 :: decimal (Z.of_nat n))) ++ post)
    by (unfold cl_line, crlf_line, WriteCRLFHeader, WriteHeader; cbn [fst snd]; change HeaderSep with [58; 32]; change CRLF with [13; 10]; app_simpl; done).
  rewrite scan_back_found; [done| |].
  - constructor; [done|]. apply Forall_app. split; [by repeat constructor|]. constructor; [done|]. constructor; [done|]. apply not_digit. lia.
  - rewrite length_app. change (length (10 :: n_content_length)) with 15%nat. cbn [length]. lia.
Qed.

(** ** The list of the trailers, and the transfer coding *)

(** A view that the writing before [z] does not touch. *)
Definition steady (view : HttpMessage -> bytes) (m : HttpMessage) (n : nat) (z : bytes) (ts : list field) : Prop :=
  forall m' l, kept m m' -> mem m' = l ++ z -> length l = n -> view m' = flat_lines ts.

Lemma steady_kept view m m' n z ts : steady view m n z ts -> kept m m' -> steady view m' n z ts.
Proof. intros H K m2 l K2. apply H. eauto. Qed.

Lemma emit_names_hole view ts z n m x hole :
  steady view m n z ts -> Forall readable ts -> mem m = x ++ hole ++ z -> n = length (x ++ hole) ->
  let text := names_text true ts in
  (length text <= length hole)%nat ->
  exists m', emit_names view (length x) m = Some (length (x ++ text), m')
    /\ mem m' = (x ++ text) ++ drop (length text) hole ++ z /\ kept m m'.
Proof.
  intros Hv Hr E Hn text Hl. unfold emit_names. rewrite (Hv m (x ++ hole)) by (done || by rewrite <- app_assoc).
  apply (append_names_hole view ts z n _ [] m x hole Hv Hr E Hn); [apply flat_lines_length|done].
Qed.

(** The line of the trailers. *)
Lemma emit_names_line view ts z n m x hole :
  steady view m n z ts -> Forall readable ts -> mem m = x ++ hole ++ z -> n = length (x ++ hole) ->
  let line := field_line (names_field ts) in
  (length line <= length hole)%nat ->
  exists m', emit_trailer_header view (length x) m = Some (length (x ++ line), m')
    /\ mem m' = (x ++ line) ++ drop (length line) hole ++ z /\ kept m m'.
Proof.
  intros Hv Hr E Hn line Hl. subst line. unfold emit_trailer_header.
  assert (El : field_line (names_field ts) = n_trailer ++ HeaderSep ++ names_text true ts ++ CRLF)
    by (unfold field_line, WriteHeaderCRLF, WriteHeader, names_field; cbn [fst snd]; by rewrite <- !app_assoc).
  rewrite El in *. rewrite !length_app in Hl.
  destruct (emit_hole m x hole z n_trailer _ E eq_refl) as (m1 & -> & E1 & K1); [lia|]. cbn [mbind option_bind].
  destruct (emit_hole m1 _ _ z HeaderSep _ E1 eq_refl) as (m2 & -> & E2 & K2); [rewrite length_drop; lia|]. cbn [mbind option_bind].
  destruct (emit_names_hole view ts z n m2 _ _ (steady_kept _ _ _ _ _ _ Hv (kept_trans _ _ _ K1 K2)) Hr E2) as (m3 & E3 & M3 & K3);
    [rewrite !length_app, !length_drop in *; lia|rewrite !length_drop; lia|]. rewrite E3. cbn [mbind option_bind].
  destruct (emit_hole m3 _ _ z CRLF _ M3 eq_refl) as (m4 & E4 & M4 & K4); [rewrite !length_drop; lia|]. rewrite E4.
  exists m4. split; [by rewrite <- !app_assoc|]. split; [|eauto 6]. rewrite M4, !drop_drop, !length_app, <- !app_assoc. by do 6 f_equal; lia.
Qed.

Definition coding_fields (add : bool) (ts : list field) : list field := (if add then [names_field ts] else []) ++ [chunked_field].

Lemma replace_hole view ts add z n m h hole :
  steady view m n z ts -> Forall readable ts -> mem m = (h ++ CRLF) ++ hole ++ z -> n = length ((h ++ CRLF) ++ hole) ->
  let new := coding_fields add ts in
  (length (crlf_lines new) <= length hole)%nat ->
  exists m', ReplaceContentLengthWithTransferEncoding (length h) view add m = Some (length (h ++ crlf_lines new), m')
    /\ mem m' = (h ++ crlf_lines new) ++ (CRLF ++ drop (length (crlf_lines new)) hole) ++ z /\ kept m m'.
Proof.
  intros Hv Hr E Hn new Hl. unfold ReplaceContentLengthWithTransferEncoding. rewrite <- flat_crlf_length in *.
  set (first := if add then [names_field ts] else []).
  assert (Enew : flat_lines new = flat_lines first ++ kTransferEncodingChunkedCRLF) by (subst new; unfold coding_fields; by rewrite flat_lines_app).
  rewrite Enew in Hl. rewrite length_app in Hl. assert (Eh : (length h + 2)%nat = length (h ++ CRLF)) by (rewrite length_app; cbn; lia). rewrite Eh.
  assert (Hfirst : exists m1, (if add then emit_trailer_header view (length (h ++ CRLF)) m else Some (length (h ++ CRLF), m)) = Some (length ((h ++ CRLF) ++ flat_lines first), m1)
             /\ mem m1 = ((h ++ CRLF) ++ flat_lines first) ++ drop (length (flat_lines first)) hole ++ z /\ kept m m1).
  { subst first. destruct add; [|exists m; cbn; by rewrite app_nil_r].
    change (flat_lines [names_field ts]) with (field_line (names_field ts) ++ []) in *. rewrite app_nil_r in *.
    apply (emit_names_line view ts z n); [done|done|done|done|lia]. }
  destruct Hfirst as (m1 & E1 & M1 & K1). rewrite E1. cbn [mbind option_bind].
  destruct (emit_hole m1 _ _ z kTransferEncodingChunkedCRLF _ M1 eq_refl) as (m2 & E2 & M2 & K2); [rewrite length_drop; lia|].
  rewrite E2. cbn [mbind option_bind]. rewrite back_sub by (rewrite !length_app; cbn; lia). cbn [mbind option_bind].
  assert (Etext : ((h ++ CRLF) ++ flat_lines first) ++ kTransferEncodingChunkedCRLF = (h ++ crlf_lines new) ++ CRLF).
  { rewrite <- (app_assoc h (crlf_lines new)), lines_shift, Enew. by rewrite <- !app_assoc. }
  exists m2. rewrite Etext, length_app. change (length CRLF) with 2%nat. rewrite Nat.add_sub. split; [done|]. split; [|eauto].
  rewrite M2, Etext, drop_drop, Enew, length_app. by rewrite <- !app_assoc.
Qed.

(** The amount by which the headers grow. *)
Lemma chunked_diff_growth add ts m n :
  trailersFlatView m = flat_lines ts -> Forall readable ts -> ts <> [] -> Z.of_nat n < 2 ^ 64 ->
  chunked_diff add n m = Some (zlen (crlf_lines (coding_fields add ts)) - zlen (cl_line n)).
Proof.
  intros Ev Hr Hne Hn. unfold chunked_diff. rewrite nchars_decimal by done. unfold TransferEncodingHeaderSizeDiff, zlen. rewrite cl_line_length.
  unfold HeaderSize. change (length kTransferEncodingChunkedCRLF) with 28%nat. change (length n_content_length) with 14%nat.
  unfold coding_fields. destruct add.
  - rewrite Ev, names_size_text by done. cbn [mbind option_bind]. f_equal. rewrite crlf_lines_app, length_app.
    change (length (crlf_lines [chunked_field])) with 28%nat. change (crlf_lines [names_field ts]) with (crlf_line (names_field ts) ++ []).
    unfold crlf_line, WriteCRLFHeader, WriteHeader, names_field. rewrite !length_app. cbn. lia.
  - cbn [app]. change (length (crlf_lines [chunked_field])) with 28%nat. f_equal. lia.
Qed.

(** ** A body in one chunk *)

Lemma decimal_loop_short fuel k z (acc : bytes) :
  0 <= z < 10 ^ Z.of_nat (S k) -> (length (decimal_loop fuel z acc) <= S k + length acc)%nat.
Proof.
  revert k z acc. induction fuel as [|fuel IH]; intros k z acc Hz; cbn [decimal_loop]; [lia|].
  destruct (Z.ltb_spec z 10) as [|Hge]; [cbn; lia|]. destruct k as [|k]; [cbn in Hz; lia|].
  rewrite (Nat2Z.inj_succ (S k)), Z.pow_succ_r in Hz by lia.
  etrans; [apply (IH k); split; [zlia|apply Z.div_lt_upper_bound; lia]|cbn; lia].
Qed.
Lemma decimal_length_13 n : Z.of_nat n < 2 ^ 40 -> (length (decimal (Z.of_nat n)) <= 13)%nat.
Proof.
  intros Hn. unfold decimal. etrans; [apply (decimal_loop_short 20 12)|cbn; lia]. change (10 ^ Z.of_nat 13) with 10000000000000. lia.
Qed.

Lemma coding_length add ts : (28 <= length (crlf_lines (coding_fields add ts)))%nat.
Proof. unfold coding_fields. rewrite crlf_lines_app, length_app. change (length (crlf_lines [chunked_field])) with 28%nat. lia. Qed.

Lemma chunk_head_length n : length (chunk_head n) = (length (to_lower_hex (Z.of_nat n)) + 2)%nat.
Proof. unfold chunk_head. rewrite length_app. done. Qed.
Lemma to_lower_hex_nonempty n : Z.of_nat n < 2 ^ 64 -> (1 <= length (to_lower_hex (Z.of_nat n)))%nat.
Proof.
  intros H. rewrite <- hex_digits_length by lia. unfold hex_digits. destruct (Z.eqb_spec (Z.of_nat n) 0) as [|Hne]; [lia|].
  assert (Hb : 1 <= bit_width (Z.of_nat n) <= 64).
  { unfold bit_width. rewrite (proj2 (Z.eqb_neq _ 0)) by done. pose proof (Z.log2_nonneg (Z.of_nat n)).
    assert (Z.log2 (Z.of_nat n) < 64) by (apply Z.log2_lt_pow2; lia). lia. }
  rewrite !u32_id by (rewrite ?u32_id; lia). assert (1 <= (bit_width (Z.of_nat n) + 3) / 4) by zlia. lia.
Qed.

Section Chunk.
Context (garbage : Z) (add : bool) (h d : bytes) (ts : list field) (total : nat).
Hypothesis (Hts : Forall readable ts) (Hne : ts <> []) (Hd : Z.of_nat (length d) < 2 ^ 40).

Abbreviation n := (length d).
Abbreviation new := (crlf_lines (coding_fields add ts)).
Abbreviation head := (h ++ new).
Abbreviation hex := (to_lower_hex (Z.of_nat n)).
Abbreviation growth := (zlen new - zlen (cl_line n)).

Lemma growth_bounds : - 3 <= growth /\ Z.of_nat (length (cl_line n)) <= 31.
Proof using Hd. unfold zlen. pose proof (coding_length add ts). pose proof (decimal_length_13 n Hd). rewrite cl_line_length. lia. Qed.

(** The size of the chunk, behind the room for the headers; then the blank line. *)
Lemma write_chunk_size m R :
  mem m = head ++ R -> (total + 4 + length hex + 2 <= length R)%nat ->
  exists p1 m1 p m2 m' hole R',
    emit_lower_hex (Z.of_nat n) (length head + total + 4) m = Some (p1, m1) /\ emit CRLF p1 m1 = Some (p, m2)
    /\ mpoke (length head + total) DoubleCRLF m2 = Some m' /\ p = length (head ++ hole ++ DoubleCRLF ++ chunk_head n)
    /\ mem m' = head ++ hole ++ DoubleCRLF ++ chunk_head n ++ R' /\ length hole = total
    /\ (length R' = length R - (total + 4 + length hex + 2))%nat /\ kept m m'.
Proof using Hd.
  intros E Hl. destruct (list_split R (total + 4)) as (r1 & r2 & -> & Lr); [lia|]. rewrite length_app in Hl.
  assert (E' : mem m = (head ++ r1) ++ r2 ++ []) by (by rewrite E, app_nil_r, <- !app_assoc).
  destruct (emit_lower_hex_hole m _ _ _ (Z.of_nat n) E') as (m1 & E1 & M1 & K1); [lia|lia|].
  assert (Ep : (length head + total + 4)%nat = length (head ++ r1)) by (rewrite (length_app (h ++ _)), Lr; lia). rewrite Ep.
  destruct (emit_hole m1 _ _ _ CRLF _ M1 eq_refl) as (m2 & E2 & M2 & K2); [rewrite length_drop; change (length CRLF) with 2%nat; lia|].
  assert (M2' : mem m2 = head ++ r1 ++ (chunk_head n ++ drop 2 (drop (length hex) r2))) by (rewrite M2, app_nil_r; unfold chunk_head; by rewrite <- !app_assoc).
  destruct (mpoke_back m2 head r1 _ DoubleCRLF (length head + total) M2') as (m3 & E3 & M3 & K3);
    [rewrite Lr; change (length DoubleCRLF) with 4%nat; lia|rewrite (length_app (h ++ _)), Lr; change (length DoubleCRLF) with 4%nat; lia|].
  eexists _, m1, _, m2, m3, (take (length r1 - length DoubleCRLF) r1), (drop 2 (drop (length hex) r2)).
  split; [exact E1|]. split; [exact E2|]. split; [exact E3|].
  assert (Lt : length (take (length r1 - length DoubleCRLF) r1) = total) by (rewrite length_take, Lr; change (length DoubleCRLF) with 4%nat; lia).
  split; [rewrite !length_app, Lt, chunk_head_length, Lr; change (length DoubleCRLF) with 4%nat; change (length CRLF) with 2%nat; lia|].
  split; [exact M3|]. split; [done|]. split; [rewrite !length_drop, length_app; lia|eauto].
Qed.

(** The bytes of the payload follow. *)
Lemma append_payload m x R :
  mem m = x ++ R -> hm_payload m = PCaptured (d ++ flat_lines ts) -> trailersSize m = length (flat_lines ts) ->
  (length (d ++ chunk_tail ts) <= length R)%nat ->
  exists m' R', (let view := payload_view (hm_payload m) in
                 '(insertPtr, m) ← emit (take n view) (length x) m;
                 '(insertPtr, m) ← emit kEndChunkedBody insertPtr m;
                 '(insertPtr, m) ← emit (substr view n (trailersSize m)) insertPtr m;
                 m ← mpoke insertPtr CRLF m;
                 Some (drop_payload m)) = Some m'
    /\ mem m' = x ++ (d ++ chunk_tail ts) ++ R' /\ msize m' = msize m /\ hm_payload m' = PNone /\ hm_opts m' = hm_opts m.
Proof using Type.
  intros E Ep Et Hl. cbv zeta. rewrite Ep. cbn [payload_view]. rewrite take_app_length. unfold chunk_tail in *.
  change (length (d ++ kEndChunkedBody ++ flat_lines ts ++ CRLF)) with (length (d ++ (kEndChunkedBody ++ (flat_lines ts ++ CRLF)))) in Hl.
  rewrite !length_app in Hl. rewrite <- (app_nil_r R) in E.
  destruct (emit_hole m x R [] d _ E eq_refl) as (m1 & E1 & M1 & K1); [lia|]. rewrite E1. cbn [mbind option_bind].
  destruct (emit_hole m1 _ _ _ kEndChunkedBody _ M1 eq_refl) as (m2 & E2 & M2 & K2); [rewrite length_drop; lia|]. rewrite E2. cbn [mbind option_bind].
  assert (K3 : kept m m2) by eauto. assert (Et2 : trailersSize m2 = length (flat_lines ts)) by (destruct K3 as (_ & _ & _ & Eo); unfold trailersSize in *; by rewrite Eo).
  rewrite Et2. unfold substr. rewrite drop_app_length, firstn_all.
  destruct (emit_hole m2 _ _ _ (flat_lines ts) _ M2 eq_refl) as (m3 & E3 & M3 & K4); [rewrite !length_drop; lia|]. rewrite E3. cbn [mbind option_bind].
  destruct (mpoke_hole m3 _ _ _ CRLF M3) as (m4 & E4 & M4 & K5); [rewrite !length_drop; lia|]. rewrite E4. cbn [mbind option_bind].
  eexists _, _. split; [done|]. split; [|destruct (kept_trans _ _ _ K3 (kept_trans _ _ _ K4 K5)) as (K6 & _ & _ & K7); done].
  change (mem (drop_payload m4)) with (mem m4). rewrite M4, app_nil_r, <- !app_assoc. reflexivity.
Qed.

(** The payload holds the body and the trailers. *)
Lemma captured_chunk_placed mv m :
  holds (hm_data m) ((h ++ cl_line n) ++ DoubleCRLF) -> bodyStartPos m = length ((h ++ cl_line n) ++ DoubleCRLF) ->
  hm_payload m = PCaptured (d ++ flat_lines ts) -> trailersSize m = length (flat_lines ts) ->
  exists m', finalize_captured_chunk garbage mv add n total m = Some (Some (length head), m')
    /\ Placed m' (Some (length head)) total head (chunk_head n ++ (if mv then d ++ chunk_tail ts else []))
    /\ hm_payload m' = (if mv then PNone else PCaptured (d ++ chunk_tail ts)) /\ hm_opts m' = hm_opts m.
Proof using Hts Hne Hd.
  intros H Eb Ep Et. pose proof growth_bounds as [Hg Hcl]. pose proof (to_lower_hex_nonempty n ltac:(lia)) as Hhex.
  assert (Hview : forall m', hm_payload m' = hm_payload m -> hm_opts m' = hm_opts m -> trailersFlatView m' = flat_lines ts).
  { intros m' E1 E2. unfold trailersFlatView, hasBodyCaptured, trailersSize in *. rewrite E1, E2, Ep, Et. cbn [hasCapturedBody payload_view].
    rewrite length_app, Nat.add_sub. apply drop_app_length. }
  unfold finalize_captured_chunk. rewrite (chunked_diff_growth add ts m n) by (done || lia || by apply Hview). cbn [mbind option_bind].
  set (more := if mv then _ else 0%nat). rewrite hex_digits_length by lia.
  set (needed := Z.to_nat (Z.of_nat (2 + length hex + more) + growth)).
  rewrite (moved_by_exact _ needed) by (subst needed; lia). cbn [mbind option_bind]. cbv zeta.
  destruct (mensure_capacity_mem garbage (needed + total) m _ H) as (spare & E & Hsp & K). set (m1 := mensure_capacity garbage _ m) in *.
  rewrite (kept_body _ _ K), Eb. rewrite (length_app _ DoubleCRLF). change (length DoubleCRLF) with 4%nat. rewrite back_sub by lia. cbn [mbind option_bind].
  rewrite Nat.add_sub, (moved_by_exact _ (length head + total)) by (unfold zlen; rewrite !length_app; lia). cbn [mbind option_bind].
  rewrite (length_line_at m1 h n (DoubleCRLF ++ spare)); [|by rewrite E, <- !app_assoc|by rewrite (kept_body _ _ K), Eb, (length_app _ DoubleCRLF)].
  cbn [mbind option_bind]. set (cl' := n_content_length ++ HeaderSep ++ decimal (Z.of_nat n)).
  assert (Ecl : cl_line n = CRLF ++ cl') by done. pose proof (f_equal length Ecl) as Lcl. rewrite length_app in Lcl. change (length CRLF) with 2%nat in Lcl.
  assert (E' : mem m1 = (h ++ CRLF) ++ (cl' ++ DoubleCRLF ++ spare) ++ []) by (rewrite E, Ecl, app_nil_r, <- !app_assoc; done).
  assert (Lhole : (length new + 4 + 2 + length hex + more + total <= length (cl' ++ DoubleCRLF ++ spare) + 2)%nat).
  { rewrite !length_app. change (length DoubleCRLF) with 4%nat. subst needed. unfold zlen in *. lia. }
  assert (Hsteady : steady trailersFlatView m1 (length ((h ++ CRLF) ++ cl' ++ DoubleCRLF ++ spare)) [] ts).
  { intros m' l K' _ _. destruct K as (_ & _ & E1 & E2), K' as (_ & _ & E3 & E4). apply Hview; congruence. }
  destruct (replace_hole trailersFlatView ts add [] _ m1 h _ Hsteady Hts E' eq_refl) as (m2 & E2 & M2 & K2); [lia|].
  rewrite E2. cbn [mbind option_bind]. rewrite app_nil_r in M2. set (R := CRLF ++ drop _ _) in M2.
  assert (LR : (total + 4 + length hex + 2 + more <= length R)%nat) by (subst R; rewrite length_app, length_drop; change (length CRLF) with 2%nat; lia).
  destruct (write_chunk_size m2 R M2) as (p1 & m3 & p & m4 & m5 & hole & R' & E3 & E4 & E5 & Hp & M5 & Hhole & LR' & K5); [lia|].
  rewrite E3. cbn [mbind option_bind]. rewrite E4. cbn [mbind option_bind]. rewrite E5. cbn [mbind option_bind].
  assert (K6 : kept m m5) by eauto. assert (Esz : msize m5 = (length h + length (cl_line n) + 4)%nat).
  { destruct K6 as (-> & _). unfold msize. rewrite (holds_size _ _ H), !length_app. change (length DoubleCRLF) with 4%nat. lia. }
  assert (Epay : hm_payload m5 = PCaptured (d ++ flat_lines ts)) by (destruct K6 as (_ & _ & -> & _); done).
  assert (Eopt : hm_opts m5 = hm_opts m) by (by destruct K6 as (_ & _ & _ & ->)).
  assert (Hend : forall m6 tail R6 payload, mem m6 = (head ++ hole ++ DoubleCRLF ++ chunk_head n) ++ tail ++ R6 ->
            msize m6 = msize m5 -> hm_payload m6 = payload -> hm_opts m6 = hm_opts m -> length tail = more ->
            exists m', (m ← maddSize needed m6; Some (Some (length head), m)) = Some (Some (length head), m')
              /\ Placed m' (Some (length head)) total head (chunk_head n ++ tail) /\ hm_payload m' = payload /\ hm_opts m' = hm_opts m).
  { intros m6 tail R6 payload E6 Es6 Ep6 Eo6 Ltail. assert (Lsz : (msize m6 + needed)%nat = length (head ++ DoubleCRLF ++ chunk_head n ++ tail)).
    { rewrite Es6, Esz, !length_app, chunk_head_length, Ltail. change (length DoubleCRLF) with 4%nat. subst needed. unfold zlen in *. lia. }
    destruct (maddSize_room m6 needed) as (m7 & E7 & M7 & S7 & [P7 O7] & _).
    { rewrite Lsz, E6. rewrite !length_app. lia. }
    rewrite E7. cbn [mbind option_bind]. exists m7. split; [done|]. split; [|by rewrite P7, O7].
    exists hole, R6. rewrite M7, E6, S7, Lsz, <- !app_assoc. split; [done|]. split; [done|]. split; [done|by left]. }
  subst more. destruct mv.
  - rewrite Hp. rewrite Ep in LR. cbn [payload_size] in LR. change (length kEndChunkedBody) with 5%nat in LR.
    assert (M5' : mem m5 = (head ++ hole ++ DoubleCRLF ++ chunk_head n) ++ R') by (by rewrite M5, <- !app_assoc).
    assert (Lt : length (d ++ chunk_tail ts) = (length (d ++ flat_lines ts) + 7)%nat).
    { unfold chunk_tail. rewrite !length_app. change (length kEndChunkedBody) with 5%nat. change (length CRLF) with 2%nat. lia. }
    destruct (append_payload m5 _ R' M5' Epay) as (m6 & R6 & E6 & M6 & S6 & P6 & O6); [unfold trailersSize in *; by rewrite Eopt|rewrite LR', Lt; lia|].
    cbv zeta in E6. rewrite E6. cbn [mbind option_bind]. apply (Hend m6 (d ++ chunk_tail ts) R6); [done|done|done|congruence|].
    rewrite Ep. cbn [payload_size]. rewrite Lt. change (length kEndChunkedBody) with 5%nat. lia.
  - rewrite Epay. cbn [payload_insert]. rewrite (proj2 (Nat.leb_le n _)) by (rewrite length_app; lia). cbn [mbind option_bind payload_append].
    rewrite take_app_length, drop_app_length. apply (Hend _ [] R'); [change (mem (set_payload _ m5)) with (mem m5); rewrite M5; cbn [app]; by rewrite <- !app_assoc|done| |done|done].
    cbn [set_payload hm_payload]. unfold chunk_tail. by rewrite <- !app_assoc.
Qed.

(** The buffer holds the body and the trailers: from the back to the front, they are moved to
    their places and the lines of the chunks are written between them. *)
Lemma move_to_chunk m B spare ext :
  mem m = B ++ DoubleCRLF ++ d ++ flat_lines ts ++ spare -> (ext + length hex + 5 <= length spare)%nat -> (2 <= ext + length hex)%nat ->
  let newHexStart := (length B + ext)%nat in
  let newBodyDataStart := (newHexStart + length hex + 2)%nat in
  let newLastChunkStart := (newBodyDataStart + n + 2)%nat in
  let newTrailersStart := (newLastChunkStart + 1 + 2)%nat in
  let size := length (flat_lines ts) in
  exists m1 m2 m3 m4 p m5 m6 hole rest,
    mpoke (newTrailersStart + size) CRLF m = Some m1 /\ mmove newTrailersStart (length B + 4 + n) size m1 = Some m2
    /\ mpoke (newLastChunkStart - 2) kEndChunkedBody m2 = Some m3 /\ mmove newBodyDataStart (length B + 4) n m3 = Some m4
    /\ emit_lower_hex (Z.of_nat n) newHexStart m4 = Some (p, m5) /\ mpoke p CRLF m5 = Some m6
    /\ mem m6 = B ++ hole ++ chunk_head n ++ d ++ chunk_tail ts ++ rest /\ length hole = ext
    /\ (length hole + length (chunk_head n) + 7 + length rest = 4 + length spare)%nat /\ kept m m6.
Proof using Hd.
  intros E Hl H2 newHexStart newBodyDataStart newLastChunkStart newTrailersStart size.
  destruct (list_split spare (ext + length hex + 5)) as (s1 & rest & -> & L1); [done|].
  assert (E0 : mem m = (B ++ DoubleCRLF ++ d ++ flat_lines ts) ++ s1 ++ rest) by (by rewrite E, <- !app_assoc).
  assert (Hpos : forall l : bytes, l = B ++ DoubleCRLF ++ d ++ flat_lines ts -> length l = (length B + 4 + n + size)%nat) by (intros l ->; rewrite !length_app; change (length DoubleCRLF) with 4%nat; lia).
  destruct (mpoke_back m _ s1 rest CRLF (newTrailersStart + size) E0) as (m1 & F1 & M1 & K1);
    [change (length CRLF) with 2%nat; lia|rewrite length_app, (Hpos _ eq_refl); change (length CRLF) with 2%nat; lia|].
  set (s2 := take _ s1) in M1. assert (L2 : length s2 = (ext + length hex + 3)%nat) by (subst s2; rewrite length_take, L1; change (length CRLF) with 2%nat; lia).
  assert (E1 : mem m1 = (B ++ DoubleCRLF ++ d) ++ flat_lines ts ++ s2 ++ (CRLF ++ rest)) by (by rewrite M1, <- !app_assoc).
  destruct (mmove_back m1 _ _ s2 _ (length B + 4 + n) newTrailersStart size E1) as (m2 & s3 & F2 & M2 & L3 & K2);
    [rewrite !length_app; change (length DoubleCRLF) with 4%nat; lia|done|rewrite !length_app; change (length DoubleCRLF) with 4%nat; fold size; lia|].
  assert (Z2 : mem m2 = (B ++ DoubleCRLF ++ d) ++ s3 ++ (flat_lines ts ++ CRLF ++ rest)) by (by rewrite M2).
  destruct (mpoke_back m2 _ s3 _ kEndChunkedBody (newLastChunkStart - 2) Z2) as (m3 & F3 & M3 & K3);
    [change (length kEndChunkedBody) with 5%nat; lia|rewrite !length_app; change (length DoubleCRLF) with 4%nat; change (length kEndChunkedBody) with 5%nat; lia|].
  set (s4 := take _ s3) in M3. assert (L4 : (length s4 + 2 = ext + length hex)%nat) by (subst s4; rewrite length_take, L3, L2; change (length kEndChunkedBody) with 5%nat; lia).
  assert (E3 : mem m3 = (B ++ DoubleCRLF) ++ d ++ s4 ++ (kEndChunkedBody ++ flat_lines ts ++ CRLF ++ rest)) by (by rewrite M3, <- !app_assoc).
  destruct (mmove_back m3 _ _ s4 _ (length B + 4) newBodyDataStart n E3) as (m4 & s5 & F4 & M4 & L5 & K4);
    [rewrite length_app; change (length DoubleCRLF) with 4%nat; lia|done|rewrite !length_app; change (length DoubleCRLF) with 4%nat; lia|].
  destruct (list_split (DoubleCRLF ++ s5) ext) as (hole & s6 & E6 & L6); [rewrite length_app; change (length DoubleCRLF) with 4%nat; lia|].
  pose proof (f_equal length E6) as L56. rewrite !length_app in L56. change (length DoubleCRLF) with 4%nat in L56.
  assert (E4 : mem m4 = (B ++ hole) ++ s6 ++ (d ++ kEndChunkedBody ++ flat_lines ts ++ CRLF ++ rest)).
  { rewrite M4, <- !app_assoc. f_equal. rewrite (app_assoc DoubleCRLF), E6. by rewrite <- !app_assoc. }
  destruct (emit_lower_hex_hole m4 _ s6 _ (Z.of_nat n) E4) as (m5 & F5 & M5 & K5); [lia|lia|].
  assert (Ex : length (B ++ hole) = newHexStart) by (rewrite length_app; lia). rewrite Ex in F5.
  destruct (mpoke_hole m5 _ _ _ CRLF M5) as (m6 & F6 & M6 & K6); [rewrite length_drop; change (length CRLF) with 2%nat; lia|].
  exists m1, m2, m3, m4, (length ((B ++ hole) ++ hex)), m5, m6, hole, rest. do 6 (split; [done|]). split; [|split; [done|split; [|eauto 7]]].
  - rewrite M6, drop_drop, drop_ge by (change (length CRLF) with 2%nat; lia). unfold chunk_head, chunk_tail. by rewrite <- !app_assoc.
  - rewrite chunk_head_length, !length_app. lia.
Qed.

Lemma inline_chunk_placed m :
  holds (hm_data m) ((h ++ cl_line n) ++ DoubleCRLF ++ d ++ flat_lines ts) -> bodyStartPos m = length ((h ++ cl_line n) ++ DoubleCRLF) ->
  hm_payload m = PNone -> trailersSize m = length (flat_lines ts) ->
  exists m', finalize_inline_chunk garbage add n total m = Some (Some (length head), m')
    /\ Placed m' (Some (length head)) total head (chunk_head n ++ d ++ chunk_tail ts)
    /\ hm_payload m' = PNone /\ op_prepared (hm_opts m') = op_prepared (hm_opts m).
Proof using Hts Hne Hd.
  intros H Eb Ep Et. pose proof growth_bounds as [Hg Hcl]. pose proof (to_lower_hex_nonempty n ltac:(lia)) as Hhex.
  assert (Hview : trailersFlatView m = flat_lines ts).
  { unfold trailersFlatView, hasBodyCaptured. rewrite Ep, Et, (holds_content _ _ H). cbn [hasCapturedBody]. rewrite !app_assoc, length_app, Nat.add_sub. apply drop_app_length. }
  unfold finalize_inline_chunk. rewrite (chunked_diff_growth add ts m n) by (done || lia). cbn [mbind option_bind]. cbv zeta.
  rewrite hex_digits_length by lia. set (B := h ++ cl_line n) in *. set (ext := Z.to_nat (4 + Z.of_nat total + growth)).
  change (length kEndChunkedBody) with 5%nat. set (diffSz := Z.to_nat (Z.of_nat (length hex + 5 + 4) + growth)).
  rewrite (moved_by_exact _ diffSz) by (subst diffSz; lia). cbn [mbind option_bind].
  destruct (mensure_capacity_mem garbage (diffSz + total) m _ H) as (spare & E & Hsp & K). set (m0 := mensure_capacity garbage _ m) in *.
  rewrite (kept_body _ _ K), Eb, length_app. change (length DoubleCRLF) with 4%nat.
  rewrite (moved_by_exact _ (length B + ext)) by (subst ext; lia). cbn [mbind option_bind].
  assert (Et0 : trailersSize m0 = length (flat_lines ts)) by (destruct K as (_ & _ & _ & Eo); unfold trailersSize in *; by rewrite Eo).
  rewrite Et0. rewrite <- !app_assoc in E.
  destruct (move_to_chunk m0 B spare ext E) as (m1 & m2 & m3 & m4 & p & m5 & m6 & hole & rest & F1 & F2 & F3 & F4 & F5 & F6 & M6 & Lh & Lr & K6);
    [subst diffSz ext; lia|subst ext; lia|].
  rewrite F1. cbn [mbind option_bind]. rewrite F2. cbn [mbind option_bind]. rewrite F3. cbn [mbind option_bind]. rewrite F4. cbn [mbind option_bind].
  rewrite F5. cbn [mbind option_bind]. rewrite F6. cbn [mbind option_bind].
  assert (Eb6 : bodyStartPos m6 = (length B + 4)%nat) by (rewrite (kept_body _ _ K6), (kept_body _ _ K), Eb, length_app; done).
  rewrite (length_line_at m6 h n (hole ++ chunk_head n ++ d ++ chunk_tail ts ++ rest)) by (done || (rewrite M6; subst B; by rewrite <- app_assoc)). cbn [mbind option_bind].
  set (cl' := n_content_length ++ HeaderSep ++ decimal (Z.of_nat n)).
  assert (Ecl : cl_line n = CRLF ++ cl') by done. pose proof (f_equal length Ecl) as Lcl. rewrite length_app in Lcl. change (length CRLF) with 2%nat in Lcl.
  set (z := chunk_head n ++ d ++ chunk_tail ts ++ rest) in *.
  assert (M6' : mem m6 = (h ++ CRLF) ++ (cl' ++ hole) ++ z) by (rewrite M6; subst B; by rewrite Ecl, <- !app_assoc).
  assert (Hsteady : steady (fun m => substr (mem m) (length B + ext + length hex + 2 + n + 2 + 1 + 2) (length (flat_lines ts))) m6 (length ((h ++ CRLF) ++ cl' ++ hole)) z ts).
  { intros m' l _ El Ll. rewrite El. subst z. unfold chunk_tail. rewrite <- !app_assoc.
    replace (l ++ _) with ((l ++ chunk_head n ++ d ++ kEndChunkedBody) ++ flat_lines ts ++ (CRLF ++ rest)) by (by rewrite <- !app_assoc).
    apply substr_at; [|done]. subst B. rewrite !length_app, Ll, chunk_head_length, !length_app, Lcl. change (length kEndChunkedBody) with 5%nat. change (length CRLF) with 2%nat. lia. }
  destruct (replace_hole _ ts add z _ m6 h _ Hsteady Hts M6' eq_refl) as (m7 & F7 & M7 & K7); [rewrite length_app; unfold zlen in *; lia|].
  rewrite F7. cbn [mbind option_bind]. set (R := CRLF ++ drop _ _) in M7.
  assert (LR : length R = (total + 4)%nat) by (subst R; rewrite length_app, length_drop, length_app; change (length CRLF) with 2%nat; unfold zlen in *; lia).
  destruct (mpoke_back m7 head R z DoubleCRLF (length head + total) M7) as (m8 & F8 & M8 & K8);
    [rewrite LR; change (length DoubleCRLF) with 4%nat; lia|rewrite (length_app (h ++ _)), LR; change (length DoubleCRLF) with 4%nat; lia|].
  rewrite F8. cbn [mbind option_bind]. set (hole' := take _ R) in M8. assert (Lh' : length hole' = total) by (subst hole'; rewrite length_take, LR; change (length DoubleCRLF) with 4%nat; lia).
  assert (K9 : kept m m8) by eauto 6.
  assert (Esz : (msize m8 + diffSz)%nat = length (head ++ DoubleCRLF ++ chunk_head n ++ d ++ chunk_tail ts)).
  { destruct K9 as (-> & _). unfold msize. rewrite (holds_size _ _ H). subst B. unfold chunk_tail. rewrite !length_app, chunk_head_length.
    change (length DoubleCRLF) with 4%nat. change (length kEndChunkedBody) with 5%nat. change (length CRLF) with 2%nat. subst diffSz. unfold zlen in *. lia. }
  destruct (maddSize_room m8 diffSz) as (m9 & F9 & M9 & S9 & [P9 O9] & _); [rewrite Esz, M8; subst z; rewrite !length_app; lia|].
  rewrite F9. cbn [mbind option_bind]. eexists. split; [done|]. destruct K9 as (_ & _ & E9 & O8).
  split; [|split; [by change (hm_payload (set_trailerLen _ _)) with (hm_payload m9); rewrite P9, E9|cbn; by rewrite O9, O8]].
  exists hole', rest. change (mem (set_trailerLen _ _)) with (mem m9). change (msize (set_trailerLen _ _)) with (msize m9).
  rewrite M9, M8, S9, Esz. subst z. rewrite <- !app_assoc. split; [done|]. split; [done|]. split; [done|by left].
Qed.
End Chunk.

(** The branch of [finalizeForHttp1] that sends no body from the buffer. *)

#[local] Hint Resolve kept_refl kept_trans : core.

Lemma set_body_at m hs bs bs' : hm_posBitmap m = bitmap hs bs -> pos_ok hs bs -> pos_ok hs bs' ->
  exists m', setBodyStartPos bs' m = Some m' /\ bodyStartPos m' = bs' /\ hm_data m' = hm_data m /\ same_rest m m'.
Proof.
  intros E H H'. exists (set_bitmap (bitmap hs bs') m). split; [by eapply setBodyStartPos_bitmap|]. split; [by eapply bodyStartPos_bitmap|]. done.
Qed.

Section Empty.
Context (garbage : Z) (h d : bytes) (ts : list field) (total : nat).
Hypothesis (Hts : Forall readable ts) (Hne : ts <> []).

Abbreviation n := (length d).
Abbreviation line := (field_line (names_field ts)).

(** The room that the list of the trailers needs, with the trailers out of its way. *)
Lemma trailers_aside m :
  let B := h ++ cl_line n in
  (holds (hm_data m) (B ++ DoubleCRLF ++ d ++ flat_lines ts) /\ hm_payload m = PNone
   \/ holds (hm_data m) (B ++ DoubleCRLF) /\ hm_payload m = PCaptured (d ++ flat_lines ts)) ->
  bodyStartPos m = length (B ++ DoubleCRLF) -> trailersSize m = length (flat_lines ts) ->
  let needed := (total + length line)%nat in
  let m0 := mensure_capacity garbage needed m in
  exists view m1 hole z,
    (if hasBodyInlined m0 then
       let old := (msize m0 - trailersSize m0)%nat in
       let size := trailersSize m0 in
       m ← mmove (old + needed) old size m0;
       Some (fun m => substr (mem m) (old + needed) size, m)
     else Some (trailersFlatView, m0)) = Some (view, m1)
    /\ mem m1 = B ++ hole ++ z /\ steady view m1 (length (B ++ hole)) z ts /\ (length line + 4 <= length hole)%nat /\ kept m m1.
Proof using Hts Hne.
  intros B Hm Eb Et needed m0. assert (Hflat : (1 <= length (flat_lines ts))%nat).
  { pose proof (flat_lines_length ts). destruct ts; [done|cbn in *; lia]. }
  destruct Hm as [[H Ep]|[H Ep]].
  - destruct (mensure_capacity_mem garbage needed m _ H) as (spare & E & Hsp & K). fold m0 in E, K.
    assert (Es : msize m0 = length (B ++ DoubleCRLF ++ d ++ flat_lines ts)) by (destruct K as (-> & _); by apply holds_size).
    assert (Et0 : trailersSize m0 = length (flat_lines ts)) by (destruct K as (_ & _ & _ & Eo); unfold trailersSize in *; by rewrite Eo).
    assert (Hin : hasBodyInlined m0 = true).
    { unfold hasBodyInlined. rewrite (kept_body _ _ K), Eb, Es. apply Nat.ltb_lt. rewrite !length_app. lia. }
    rewrite Hin. cbv zeta. rewrite Et0, Es.
    assert (Eold : (length (B ++ DoubleCRLF ++ d ++ flat_lines ts) - length (flat_lines ts))%nat = length (B ++ DoubleCRLF ++ d)) by (rewrite !length_app; lia).
    rewrite Eold. destruct (list_split spare needed Hsp) as (s1 & rest & -> & L1).
    assert (E' : mem m0 = (B ++ DoubleCRLF ++ d) ++ flat_lines ts ++ s1 ++ rest) by (by rewrite E, <- !app_assoc).
    destruct (mmove_back m0 _ _ s1 rest _ (length (B ++ DoubleCRLF ++ d) + needed) _ E' eq_refl eq_refl) as (m1 & s2 & F1 & M1 & L2 & K1);
      [rewrite !length_app; lia|]. rewrite F1. cbn [mbind option_bind].
    eexists _, m1, (DoubleCRLF ++ d ++ s2), (flat_lines ts ++ rest). split; [done|]. split; [by rewrite M1, <- !app_assoc|].
    split; [|split; [rewrite !length_app, L2, L1; change (length DoubleCRLF) with 4%nat; subst needed; lia|eauto]].
    intros m' l _ El Ll. rewrite El. apply substr_at; [|done]. rewrite Ll, !length_app, L2, L1. lia.
  - destruct (mensure_capacity_mem garbage needed m _ H) as (spare & E & Hsp & K). fold m0 in E, K.
    assert (Es : msize m0 = length (B ++ DoubleCRLF)) by (destruct K as (-> & _); by apply holds_size).
    assert (Hin : hasBodyInlined m0 = false) by (unfold hasBodyInlined; rewrite (kept_body _ _ K), Eb, Es; apply Nat.ltb_irrefl).
    rewrite Hin. exists trailersFlatView, m0, (DoubleCRLF ++ spare), []. split; [done|]. split; [by rewrite E, app_nil_r, <- !app_assoc|].
    split; [|split; [rewrite length_app; change (length DoubleCRLF) with 4%nat; subst needed; lia|done]].
    intros m' l K' _ _. destruct (kept_trans _ _ _ K K') as (_ & _ & E1 & E2). unfold trailersFlatView, hasBodyCaptured, trailersSize in *.
    rewrite E1, E2, Ep, Et. cbn [hasCapturedBody payload_view]. rewrite length_app, Nat.add_sub. apply drop_app_length.
Qed.

Lemma head_with_trailers_holds m hs bs :
  let B := h ++ cl_line n in
  let head := h ++ crlf_lines [names_field ts] ++ cl_line n in
  (holds (hm_data m) (B ++ DoubleCRLF ++ d ++ flat_lines ts) /\ hm_payload m = PNone
   \/ holds (hm_data m) (B ++ DoubleCRLF) /\ hm_payload m = PCaptured (d ++ flat_lines ts)) ->
  bodyStartPos m = length (B ++ DoubleCRLF) -> trailersSize m = length (flat_lines ts) ->
  hm_posBitmap m = bitmap hs bs -> pos_ok hs bs -> pos_ok hs (length (head ++ DoubleCRLF)) ->
  exists m', head_with_trailers garbage n total m = Some m' /\ holds (hm_data m') (head ++ DoubleCRLF)
    /\ bodyStartPos m' = length (head ++ DoubleCRLF) /\ same_rest m m'.
Proof using Hts Hne.
  intros B head Hm Eb Et Ebit Hp Hp'.
  assert (Hview : trailersFlatView m = flat_lines ts).
  { unfold trailersFlatView, hasBodyCaptured. destruct Hm as [[H Ep]|[_ Ep]]; rewrite Ep, Et; cbn [hasCapturedBody payload_view].
    - rewrite (holds_content _ _ H), !app_assoc, length_app, Nat.add_sub. apply drop_app_length.
    - rewrite length_app, Nat.add_sub. apply drop_app_length. }
  unfold head_with_trailers. rewrite Hview, names_size_text by done. cbn [mbind option_bind]. cbv zeta.
  replace (HeaderSize (length n_trailer) (length (names_text true ts))) with (length line)
    by (rewrite size_of_field_line; unfold HeaderSize, names_field; cbn [fst snd]; change (length HeaderSep) with 2%nat; change (length CRLF) with 2%nat; lia).
  destruct (trailers_aside m Hm Eb Et) as (view & m1 & hole & z & E1 & M1 & Hst & Lh & K1). cbv zeta in E1. rewrite E1. cbn [mbind option_bind].
  rewrite (length_line_at m1 h n (hole ++ z)); [|by rewrite M1; subst B; rewrite <- app_assoc|by rewrite (kept_body _ _ K1), Eb, length_app].
  cbn [mbind option_bind]. set (cl' := n_content_length ++ HeaderSep ++ decimal (Z.of_nat n)).
  assert (Ecl : cl_line n = CRLF ++ cl') by done. pose proof (f_equal length Ecl) as Lcl. rewrite length_app in Lcl. change (length CRLF) with 2%nat in Lcl.
  assert (Eh : (length h + 2)%nat = length (h ++ CRLF)) by (rewrite length_app; cbn; lia). rewrite Eh.
  assert (M1' : mem m1 = (h ++ CRLF) ++ (cl' ++ hole) ++ z) by (rewrite M1; subst B; by rewrite Ecl, <- !app_assoc).
  destruct (emit_names_line view ts z (length (B ++ hole)) m1 (h ++ CRLF) (cl' ++ hole) Hst Hts M1') as (m2 & E2 & M2 & K2);
    [subst B; by rewrite Ecl, <- !app_assoc|rewrite length_app; lia|]. rewrite E2. cbn [mbind option_bind].
  assert (Lrest : (length cl' + 4 <= length (drop (length line) (cl' ++ hole)))%nat) by (rewrite length_drop, length_app; lia).
  assert (Lc : length cl' = (length n_content_length + length HeaderSep + length (decimal (Z.of_nat n)))%nat) by (subst cl'; rewrite !length_app; lia).
  set (rest := drop (length line) (cl' ++ hole)) in *.
  destruct (emit_hole m2 _ rest z n_content_length _ M2 eq_refl) as (m3 & E3 & M3 & K3); [lia|]. rewrite E3. cbn [mbind option_bind].
  destruct (emit_hole m3 _ _ z HeaderSep _ M3 eq_refl) as (m4 & E4 & M4 & K4); [rewrite length_drop; lia|]. rewrite E4. cbn [mbind option_bind].
  destruct (emit_hole m4 _ _ z (decimal (Z.of_nat n)) _ M4 eq_refl) as (m5 & E5 & M5 & K5); [rewrite !length_drop; lia|]. rewrite E5. cbn [mbind option_bind].
  destruct (emit_hole m5 _ _ z DoubleCRLF _ M5 eq_refl) as (m6 & E6 & M6 & K6); [rewrite !length_drop; change (length DoubleCRLF) with 4%nat; lia|]. rewrite E6. cbn [mbind option_bind].
  set (text := (((((h ++ CRLF) ++ line) ++ n_content_length) ++ HeaderSep) ++ decimal (Z.of_nat n)) ++ DoubleCRLF) in *.
  assert (Etext : text = head ++ DoubleCRLF).
  { subst text head. rewrite Ecl. unfold cl'. rewrite <- !app_assoc. f_equal. rewrite (app_assoc (crlf_lines _) CRLF), lines_shift.
    change (flat_lines [names_field ts]) with (line ++ []). rewrite app_nil_r, <- !app_assoc. done. }
  rewrite Etext in *. destruct (msetSize_holds m6 (head ++ DoubleCRLF) _ _ M6 eq_refl) as (m7 & E7 & H7 & _ & R7 & B7). rewrite E7. cbn [mbind option_bind].
  assert (K8 : kept m m6) by eauto 8. destruct K8 as (_ & Eb8 & Ep8 & Eo8).
  destruct (set_body_at m7 hs bs _ (eq_trans B7 (eq_trans Eb8 Ebit)) Hp Hp') as (m8 & E8 & Ebs & Ed8 & R8).
  exists m8. split; [done|]. split; [by rewrite Ed8|]. split; [done|]. destruct R7 as [? ?], R8 as [? ?]. split; congruence.
Qed.
End Empty.
