(* ===== verification/HttpFinalizeProofs.v ===== *)
(** The text of a response is the one of its abstract description, whatever history made it and
    whichever way the buffer is rearranged. *)

From S2P Require Import Prelude.
From S2P Require Import HpackTables.
From S2P Require Import AsciiCase.
From S2P Require Import Hpack.
From S2P Require Import HeadersView.
From S2P Require Import UrlCodec.
From S2P Require Import Http1Request.
From S2P Require Import Cors.
From S2P Require Import RoutePattern.
From S2P Require Import ResponseParser.
From S2P Require Import TimeString.
From S2P Require Import RawChars.
From S2P Require Import HttpMessage.
From S2P Require Import HttpMessageSpec.
From S2P Require Import HttpMessageRepr.
From S2P Require Import HttpMessageFields.
From S2P Require Import HttpMessageHistory.
From S2P Require Import HttpFinalize.
From S2P Require Import HttpFinalizeSpec.
From S2P Require Import HttpFinalizeBranches.
Local Open Scope Z_scope.

#[local] Hint Resolve kept_refl kept_trans : core.

Lemma mpoke_kept p l m m' : mpoke p l m = Some m' -> kept m m'.
Proof.
  unfold mpoke, on_data. destruct (poke p l (hm_data m)) as [r|] eqn:E; cbn [mbind option_bind]; [|done]. intros [= <-].
  apply poke_capacity in E as [_ E]. by split.
Qed.

Lemma kept_bodyLength m m' : kept m m' -> bodyLength m' = bodyLength m.
Proof.
  intros K. unfold bodyLength, bodyInMemoryLength, bodyInlinedLength, hasBodyCaptured, trailersSize. rewrite (kept_body _ _ K).
  destruct K as (-> & _ & -> & ->). done.
Qed.

(** ** The start line and the date *)

(** The message with its start written. *)
Definition Started (o : Options) (m : HttpMessage) (start : bytes) (a : Response) : Prop :=
  Parts m start (header_text (all_fields a)) (inline_text a) /\ hm_payload m = payload_of a /\ hm_opts m = options_of o a
  /\ bodyLength m = body_len (a_body a) /\ wf a.

Lemma start_written o m a tp version :
  Repr o m a -> - 2 ^ 63 <= tp < 2 ^ 63 ->
  exists date m1 m2 m3 p,
    mpoke 0 (writeFull version) m = Some m1 /\ dateHeaderStartPos m1 = Some p /\ TimeToStringRFC7231 tp = Some date
    /\ mpoke p (CRLF ++ str "date: ") m1 = Some m2 /\ mpoke (p + 8) date m2 = Some m3
    /\ Started o m3 (start_text version date a) a.
Proof.
  intros HR Htp. destruct (date_written_read tp Htp) as (date & Ed & Ld & _). pose proof (repr_bodyLength _ _ _ HR) as Hlen.
  destruct HR as (start & Hp & (v & room & -> & Lv & Lr & _) & Ep & Eo & Hw).
  set (rest := [32] ++ code_digits (a_code a) ++ [32] ++ a_reason a) in *.
  assert (E0 : (v ++ [32] ++ code_digits (a_code a) ++ [32]) ++ a_reason a ++ room = [] ++ v ++ (rest ++ room)) by (subst rest; by rewrite <- !app_assoc).
  rewrite E0 in Hp. destruct (poke_start m [] v (rest ++ room) _ _ (writeFull version) Hp) as (m1 & F1 & H1 & R1); [by rewrite Lv|].
  change (length (@nil Z)) with 0%nat in F1. cbn [app] in H1.
  change kDateHeaderLenWithCRLF with 37%nat in Lr. destruct (list_split room 8) as (r1 & r2 & -> & L1); [lia|]. rewrite length_app in Lr.
  assert (H1' : Parts m1 ((writeFull version ++ rest) ++ r1 ++ r2) (header_text (all_fields a)) (inline_text a)) by (by rewrite <- app_assoc).
  destruct (poke_start m1 _ r1 r2 _ _ (CRLF ++ str "date: ") H1') as (m2 & F2 & H2 & R2); [by rewrite L1|].
  assert (H2' : Parts m2 (((writeFull version ++ rest) ++ CRLF ++ str "date: ") ++ r2 ++ []) (header_text (all_fields a)) (inline_text a)) by (by rewrite app_nil_r, <- !app_assoc in *).
  destruct (poke_start m2 _ r2 [] _ _ date H2') as (m3 & F3 & H3 & R3); [rewrite Ld; change RFC7231DateStrLen with 29%nat; lia|].
  exists date, m1, m2, m3, (length (writeFull version ++ rest)). split; [done|]. split.
  { unfold dateHeaderStartPos. destruct (parts_positions _ _ _ _ H1') as (-> & _). rewrite !length_app.
    change kDateHeaderLenWithCRLF with 37%nat. rewrite back_sub by lia. f_equal. lia. }
  split; [done|]. split; [done|]. split; [by rewrite length_app in F3|]. destruct (same_rest_trans _ _ _ R1 (same_rest_trans _ _ _ R2 R3)) as [Sp So].
  split; [|split; [by rewrite Sp|split; [by rewrite So|split; [|done]]]].
  - assert (Et : start_text version date a = ((writeFull version ++ rest) ++ CRLF ++ str "date: ") ++ date ++ []) by (unfold start_text; subst rest; by rewrite app_nil_r, <- !app_assoc).
    by rewrite Et.
  - assert (K : kept m m3) by (eapply kept_trans; [|eapply kept_trans]; eapply mpoke_kept; [exact F1|exact F2|exact F3]). by rewrite (kept_bodyLength _ _ K).
Qed.

(** ** The branches on a response *)

Lemma no_trailers_size ts : Nat.eqb (length (flat_lines ts)) 0 = bool_decide (ts = []).
Proof.
  destruct ts as [|f ts]; [done|]. rewrite (bool_decide_false (f :: ts = [])) by done. apply Nat.eqb_neq.
  pose proof (flat_lines_length (f :: ts)) as H. cbn [length] in H. lia.
Qed.

(** The lines before the content length. *)
Definition before_length (start : bytes) (a : Response) : bytes := start ++ crlf_lines (a_fields a ++ [type_field a]).

Lemma lines_with_body start a gs : has_body (a_body a) = true ->
  start ++ header_text (all_fields a) = (before_length start a ++ cl_line (body_len (a_body a))) ++ DoubleCRLF
  /\ start ++ crlf_lines (a_fields a ++ type_field a :: gs) = before_length start a ++ crlf_lines gs.
Proof.
  intros Hb. unfold all_fields, body_fields, header_text, before_length. rewrite Hb. unfold length_fields.
  replace (a_fields a ++ type_field a :: gs) with ((a_fields a ++ [type_field a]) ++ gs) by (by rewrite <- app_assoc).
  fold (type_field a). change [type_field a; ?x] with ([type_field a] ++ [x]). rewrite (app_assoc (a_fields a)), !crlf_lines_app.
  unfold cl_line. change (crlf_lines [?x]) with (crlf_line x ++ []). rewrite !app_nil_r, <- !app_assoc. done.
Qed.

Lemma framing_no_body hd add a : has_body (a_body a) = false -> framing_fields hd add a = body_fields (a_body a).
Proof. intros Hb. unfold framing_fields, body_fields. by rewrite Hb. Qed.
Lemma framing_no_trailers hd add a : has_trailers a && add = false -> has_trailers a && negb hd = false -> framing_fields hd add a = body_fields (a_body a).
Proof. intros H1 H2. unfold framing_fields, body_fields. rewrite H1, H2. by destruct (has_body (a_body a)). Qed.

(** What a branch leaves for the end of [finalizeForHttp1]. *)
Definition Laid (m' : HttpMessage) (hip : option nat) (total : nat) (head : bytes) (hd prepared : bool) (a : Response) : Prop :=
  exists tail, Placed m' hip total head tail /\ tail ++ payload_view (hm_payload m') = sent_body hd a
    /\ file_of (hm_payload m') = match a_body a with FileBody _ n => Some n | _ => None end
    /\ isSizeOnly (hm_payload m') = false /\ op_prepared (hm_opts m') = prepared.

Section Branch.
Context (garbage : Z) (o : Options) (start : bytes) (a : Response) (total : nat).

Lemma started_trailers m : Started o m start a -> trailersSize m = length (flat_lines (a_trailers a)).
Proof. intros (_ & _ & Eo & _). unfold trailersSize. by rewrite Eo. Qed.
Lemma started_file m : Started o m start a -> hasBodyFile m = match a_body a with FileBody _ _ => true | _ => false end.
Proof. intros (_ & Ep & _). unfold hasBodyFile. rewrite Ep. unfold payload_of. by destruct (a_body a). Qed.
Lemma started_captured m : Started o m start a -> hasBodyCaptured m = match a_body a with CapturedBody _ _ => true | _ => false end.
Proof. intros (_ & Ep & _). unfold hasBodyCaptured. rewrite Ep. unfold payload_of. by destruct (a_body a). Qed.
Lemma started_holds m : Started o m start a ->
  holds (hm_data m) ((start ++ header_text (all_fields a)) ++ inline_text a) /\ bodyStartPos m = length (start ++ header_text (all_fields a)).
Proof. intros (Hp & _). destruct (parts_positions _ _ _ _ Hp) as (_ & Eb & _). destruct Hp as (H & _). split; [by rewrite <- app_assoc|done]. Qed.

(** A response without a body, or with a file. *)
Lemma empty_laid m hd :
  Started o m start a -> in_memory (a_body a) = false ->
  exists hip m', finalize_empty garbage hd false (body_len (a_body a)) total m = Some (hip, m')
    /\ forall add, Laid m' hip total (start ++ crlf_lines (a_fields a ++ framing_fields hd add a)) hd (op_prepared o) a.
Proof.
  intros Hs Hb. destruct (started_holds m Hs) as [H Eb]. destruct Hs as (Hp & Ep & Eo & _ & Hw).
  assert (Ht : a_trailers a = []) by (destruct Hw as (_ & _ & _ & _ & _ & Hbw & _); unfold body_wf in Hbw; destruct (a_body a); tauto || done).
  assert (Ein : inline_text a = []) by (unfold inline_text; by destruct (a_body a)). rewrite Ein, app_nil_r in H.
  assert (Hfr : forall add, framing_fields hd add a = body_fields (a_body a)).
  { intros add. apply framing_no_trailers; unfold has_trailers; by rewrite Ht. }
  assert (Hsame : exists m1, (if hd && negb (hasBodyFile m) then
       m ← (if negb (Nat.eqb (trailersSize m) 0) && false then head_with_trailers garbage (body_len (a_body a)) total m
            else if hasBodyInlined m then n ← back (msize m) (body_len (a_body a) + trailersSize m); msetSize n m else Some m);
       Some (drop_payload (set_trailerLen 0 m)) else Some m) = Some m1
     /\ hm_data m1 = hm_data m /\ bodyStartPos m1 = bodyStartPos m /\ hm_payload m1 = payload_of a /\ op_prepared (hm_opts m1) = op_prepared o).
  { rewrite andb_false_r. destruct (hd && negb (hasBodyFile m)) eqn:Eh; [|exists m; rewrite Eo; done].
    unfold hasBodyInlined. rewrite Eb. destruct (parts_positions _ _ _ _ Hp) as (_ & _ & -> & _). rewrite Ein, app_nil_r, Nat.ltb_irrefl.
    cbn [mbind option_bind]. eexists. split; [done|]. apply andb_true_iff in Eh as [_ Eh]. unfold hasBodyFile in Eh. rewrite Ep in Eh.
    cbn. rewrite Eo. unfold payload_of in *. by destruct (a_body a). }
  destruct Hsame as (m1 & E1 & Ed & Eb1 & Ep1 & Eo1). unfold finalize_empty. rewrite E1. cbn [mbind option_bind].
  set (head := start ++ crlf_lines (all_fields a)). assert (Ehead : start ++ header_text (all_fields a) = head ++ DoubleCRLF) by (unfold header_text, head; by rewrite app_assoc).
  rewrite Ehead in *. destruct (place_empty garbage m1 head total) as (hip & m2 & E2 & Hpl & [Sp So]); [by rewrite Ed|by rewrite Eb1|].
  exists hip, m2. split; [exact E2|]. intros add. rewrite Hfr. exists []. split; [exact Hpl|]. rewrite Sp, So, Ep1. cbn [app].
  unfold sent_body, has_trailers. rewrite Ht. cbn [bool_decide negb]. rewrite (bool_decide_true ([] = [])) by done. cbn [negb].
  unfold payload_of. destruct (a_body a); cbn [in_memory] in Hb; try done; by destruct hd.
Qed.

(** The answer to HEAD. *)
Lemma head_laid m add :
  Started o m start a -> in_memory (a_body a) = true ->
  pos_ok (length start) (length ((start ++ crlf_lines (a_fields a ++ framing_fields true add a)) ++ DoubleCRLF)) ->
  exists hip m', finalize_empty garbage true (has_trailers a && add) (body_len (a_body a)) total m = Some (hip, m')
    /\ Laid m' hip total (start ++ crlf_lines (a_fields a ++ framing_fields true add a)) true (op_prepared o) a.
Proof.
  intros Hs Hb Hpos. destruct (started_holds m Hs) as [H Eb]. pose proof (started_trailers m Hs) as Et. pose proof (started_file m Hs) as Ef.
  destruct Hs as (Hp & Ep & Eo & _ & Hw). assert (Hhas : has_body (a_body a) = true) by (by destruct (a_body a)).
  set (head := start ++ crlf_lines (a_fields a ++ framing_fields true add a)) in *.
  assert (Hdone : forall m1, holds (hm_data m1) (head ++ DoubleCRLF) -> bodyStartPos m1 = length (head ++ DoubleCRLF) ->
            op_prepared (hm_opts m1) = op_prepared o ->
            exists hip m', (let m := drop_payload (set_trailerLen 0 m1) in
              if negb (Nat.eqb total 0) then let m := mensure_capacity garbage total m in
                headersInsertPtr ← back (bodyStartPos m) 4; m ← mpoke (headersInsertPtr + total) DoubleCRLF m; Some (Some headersInsertPtr, m)
              else Some (None, m)) = Some (hip, m') /\ Laid m' hip total head true (op_prepared o) a).
  { intros m1 H1 B1 O1. destruct (place_empty garbage (drop_payload (set_trailerLen 0 m1)) head total H1 B1) as (hip & m2 & E2 & Hpl & [Sp So]).
    exists hip, m2. split; [exact E2|]. exists []. split; [done|]. rewrite Sp, So. cbn. unfold sent_body. by destruct (a_body a). }
  unfold finalize_empty. replace (negb (hasBodyFile m)) with true by (rewrite Ef; by destruct (a_body a)). cbn [andb].
  rewrite Et, no_trailers_size. fold (has_trailers a). destruct (lines_with_body start a [length_field a] Hhas) as [El1 El2]. fold (cl_line (body_len (a_body a))) in El1.
  destruct (has_trailers a && add) eqn:Eadd.
  - apply andb_true_iff in Eadd as [Eh Eadd]. rewrite Eh. cbn [andb]. destruct Hw as (_ & _ & _ & _ & _ & _ & Hr & _).
    assert (Hne : a_trailers a <> []) by (unfold has_trailers in Eh; apply negb_true_iff in Eh; by apply bool_decide_eq_false in Eh).
    destruct (lines_with_body start a [names_field (a_trailers a); length_field a] Hhas) as [_ El3].
    assert (Ehead : head = before_length start a ++ crlf_lines [names_field (a_trailers a)] ++ cl_line (body_len (a_body a))).
    { subst head. unfold framing_fields. rewrite Hhas, Eh, Eadd. cbn [andb negb app]. etrans; [exact El3|]. f_equal.
      change [?x; ?y] with ([x] ++ [y]). rewrite crlf_lines_app. unfold cl_line. change (crlf_lines [length_field a]) with (crlf_line (length_field a) ++ []). by rewrite app_nil_r. }
    rewrite Ehead in *. rewrite El1 in *. assert (En : body_len (a_body a) = length (body_data (a_body a))) by (by destruct (a_body a)). rewrite En in *.
    destruct Hp as (_ & Ebit & Hp0). rewrite El1 in Ebit, Hp0.
    destruct (head_with_trailers_holds garbage (before_length start a) (body_data (a_body a)) (a_trailers a) total Hr Hne m (length start)
      (length ((before_length start a ++ cl_line (length (body_data (a_body a)))) ++ DoubleCRLF))) as (m1 & E1 & H1 & B1 & [_ So]);
      [|exact Eb|exact Et|exact Ebit|exact Hp0|by rewrite <- !app_assoc in *|].
    { rewrite Ep. unfold payload_of, inline_text, trailer_text in *. destruct (a_body a); try done; [left|right]; split; try done.
      - by rewrite <- !app_assoc in *.
      - by rewrite app_nil_r in H. }
    rewrite E1. cbn [mbind option_bind]. apply Hdone; [by rewrite <- !app_assoc in *|by rewrite <- !app_assoc in *|]. rewrite So, Eo. done.
  - assert (Ehead : head ++ DoubleCRLF = start ++ header_text (all_fields a)).
    { subst head. rewrite framing_no_trailers by (done || by rewrite andb_false_r). unfold header_text. by rewrite app_assoc. }
    rewrite andb_false_r. unfold hasBodyInlined. rewrite Eb. unfold msize. rewrite (holds_size _ _ H).
    set (whole := start ++ header_text (all_fields a)) in *.
    assert (Hcut : exists m1, (if (length whole <? length (whole ++ inline_text a))%nat
               then n ← back (length (whole ++ inline_text a)) (body_len (a_body a) + length (flat_lines (a_trailers a))); msetSize n m
               else Some m) = Some m1 /\ holds (hm_data m1) whole /\ bodyStartPos m1 = bodyStartPos m /\ hm_opts m1 = hm_opts m).
    { rewrite length_app. destruct (Nat.ltb_spec (length whole) (length whole + length (inline_text a))) as [Hlt|Hge].
      - assert (Ein : inline_text a = body_data (a_body a) ++ flat_lines (a_trailers a) /\ body_len (a_body a) = length (body_data (a_body a)))
          by (unfold inline_text in *; destruct (a_body a); cbn in *; done || lia).
        destruct Ein as [Ein En]. rewrite Ein, En, (length_app (body_data _)), back_sub by lia. cbn [mbind option_bind]. destruct H as (spare & E & Es).
        destruct (msetSize_holds m whole (inline_text a ++ spare)
          (length whole + (length (body_data (a_body a)) + length (flat_lines (a_trailers a))) - (length (body_data (a_body a)) + length (flat_lines (a_trailers a)))))
          as (m1 & E1 & H1 & _ & [_ R1] & B1); [unfold mem; by rewrite E, <- app_assoc|lia|].
        exists m1. split; [exact E1|]. split; [done|]. split; [|done]. unfold bodyStartPos. by rewrite B1.
      - exists m. assert (Ein : inline_text a = []) by (destruct (inline_text a); [done|cbn in Hge; lia]). by rewrite Ein, app_nil_r in H. }
    destruct Hcut as (m1 & E1 & H1 & B1 & O1). rewrite E1. cbn [mbind option_bind]. apply Hdone; [by rewrite Ehead|by rewrite B1, Eb, Ehead|by rewrite O1, Eo].
Qed.

(** A body. *)
Lemma body_laid m add min :
  Started o m start a -> in_memory (a_body a) = true -> Z.of_nat (body_len (a_body a)) < 2 ^ 40 ->
  exists hip m',
    (let moveBodyInline := hasBodyCaptured m && (body_len (a_body a) + trailersSize m <=? min)%nat in
     if Nat.eqb (trailersSize m) 0 then finalize_body garbage moveBodyInline (body_len (a_body a)) total m
     else if hasBodyCaptured m then finalize_captured_chunk garbage moveBodyInline (has_trailers a && add) (body_len (a_body a)) total m
     else finalize_inline_chunk garbage (has_trailers a && add) (body_len (a_body a)) total m) = Some (hip, m')
    /\ Laid m' hip total (start ++ crlf_lines (a_fields a ++ framing_fields false add a)) false (op_prepared o) a.
Proof.
  intros Hs Hb Hlen. destruct (started_holds m Hs) as [H Eb]. pose proof (started_trailers m Hs) as Et. pose proof (started_captured m Hs) as Ec.
  destruct Hs as (Hp & Ep & Eo & _ & Hw). assert (Hhas : has_body (a_body a) = true) by (by destruct (a_body a)).
  assert (En : body_len (a_body a) = length (body_data (a_body a))) by (by destruct (a_body a)).
  destruct (lines_with_body start a [length_field a] Hhas) as [El1 El2]. cbv zeta. rewrite Et, no_trailers_size.
  set (mv := hasBodyCaptured m && _). assert (Hmv : mv = true -> exists ct d, a_body a = CapturedBody ct d).
  { subst mv. rewrite Ec. destruct (a_body a) as [| |ct d|]; try done. intros _. by eexists _, _. }
  assert (Efile : match a_body a with FileBody _ k => Some k | _ => None end = None) by (by destruct (a_body a)).
  set (head := start ++ crlf_lines _). case_bool_decide as Hts.
  - assert (Eh : has_trailers a = false) by (unfold has_trailers; by rewrite (bool_decide_true (a_trailers a = []))).
    assert (Ehead : start ++ header_text (all_fields a) = head ++ DoubleCRLF).
    { subst head. rewrite framing_no_trailers by (by rewrite Eh). unfold header_text. by rewrite app_assoc. }
    rewrite Ehead, En in *. rewrite <- app_assoc in H.
    destruct (finalize_body_placed garbage mv m head (body_data (a_body a)) total (payload_of a)) as (m1 & E1 & Hpl & P1 & O1).
    + revert H. unfold payload_of, inline_text, trailer_text. destruct (a_body a); try done; rewrite Hts; cbn [flat_lines map concat body_data]; by rewrite app_nil_r.
    + done.
    + done.
    + unfold payload_of, trailer_text. rewrite Hts. destruct (a_body a) as [|ct d|ct d|ct k]; try done; [left|right; cbn; by rewrite app_nil_r].
      split; [done|]. destruct mv eqn:Emv; [|done]. by destruct (Hmv eq_refl) as (? & ? & ?).
    + exists (Some (length head)), m1. split; [exact E1|]. eexists. split; [exact Hpl|]. rewrite P1, O1, Eo, Efile. unfold sent_body. rewrite Eh.
      unfold payload_of, trailer_text. rewrite Hts. destruct mv eqn:Emv.
      * cbn. by rewrite app_nil_r.
      * destruct (a_body a); try done; cbn; by rewrite ?app_nil_r.
  - assert (Eh : has_trailers a = true) by (unfold has_trailers; by rewrite (bool_decide_false (a_trailers a = []))). rewrite Eh. cbn [andb].
    set (h := before_length start a). destruct (lines_with_body start a (coding_fields add (a_trailers a)) Hhas) as [_ El3].
    assert (Ehead : head = h ++ crlf_lines (coding_fields add (a_trailers a))).
    { subst head. unfold framing_fields. rewrite Hhas, Eh. cbn [andb negb]. exact El3. }
    rewrite Ehead. rewrite El1, En in *. fold h in H, Eb. assert (Hr : Forall readable (a_trailers a)) by apply Hw. rewrite Ec.
    unfold payload_of, inline_text, trailer_text in *. unfold Laid. rewrite Efile. unfold sent_body. rewrite Eh. cbn [negb].
    destruct (a_body a) as [|ct d|ct d|ct k]; try done; cbn [body_data body_len] in *.
    + assert (H' : holds (hm_data m) ((h ++ cl_line (length d)) ++ DoubleCRLF ++ d ++ flat_lines (a_trailers a))) by (by rewrite <- !app_assoc in *).
      destruct (inline_chunk_placed garbage add h d (a_trailers a) total Hr Hts Hlen m H' Eb Ep Et) as (m1 & E1 & Hpl & P1 & O1).
      eexists _, m1. split; [exact E1|]. eexists. split; [exact Hpl|]. rewrite P1, O1, Eo. cbn. split; [by rewrite app_nil_r|done].
    + rewrite app_nil_r in H.
      destruct (captured_chunk_placed garbage add h d (a_trailers a) total Hr Hts Hlen mv m H Eb Ep Et) as (m1 & E1 & Hpl & P1 & O1).
      eexists _, m1. split; [exact E1|]. eexists. split; [exact Hpl|]. rewrite P1, O1, Eo. destruct mv; cbn; rewrite ?app_nil_r; done || by rewrite <- ?app_assoc.
Qed.
End Branch.

(** The end of [finalizeForHttp1]: the headers of the server and of the connection fill the room
    before the blank line, and the text of the response is complete. *)

#[local] Hint Resolve kept_refl kept_trans : core.

(** ** Filling the room *)

Definition Room (m : HttpMessage) (ptr : option nat) (done hole z : bytes) : Prop :=
  mem m = done ++ hole ++ z /\ (ptr = Some (length done) \/ hole = []).

Lemma emit_room m ptr dn hole z text :
  Room m ptr dn hole z -> text <> [] -> (length text <= length hole)%nat ->
  exists m', ptr = Some (length dn) /\ emit text (length dn) m = Some (length (dn ++ text), m')
    /\ Room m' (Some (length (dn ++ text))) (dn ++ text) (drop (length text) hole) z /\ kept m m'.
Proof.
  intros [E Hp] Hne Hl. destruct Hp as [->| ->]; [|destruct text; [done|cbn in Hl; lia]].
  destruct (emit_hole m dn hole z text _ E eq_refl Hl) as (m' & Ee & Em & K). exists m'. split; [done|]. split; [done|]. split; [|done].
  split; [done|by left].
Qed.

Lemma server_text_cons g gs : server_text (g :: gs) = CRLF ++ g ++ server_text gs.
Proof. unfold server_text. cbn [map concat]. by rewrite <- app_assoc. Qed.

Lemma full_string globals : globals <> [] -> CRLF ++ fullString globals = server_text globals.
Proof.
  intros Hne. unfold fullString. set (full := concat _).
  assert (E : CRLF ++ full = server_text globals ++ CRLF).
  { subst full. clear Hne. induction globals as [|g gs IH]; [done|]. rewrite server_text_cons. cbn [map concat]. rewrite <- !app_assoc, IH. done. }
  destruct globals as [|g gs]; [done|]. rewrite server_text_cons in *. set (rest := g ++ server_text gs) in *.
  rewrite <- app_assoc in E. apply (inj (app CRLF)) in E. rewrite E, length_app. change (length CRLF) with 2%nat.
  by rewrite Nat.add_sub, take_app_length.
Qed.

(** ** The headers of the server *)

Section Globals.
Context (a : Response).

Definition skips_of (globals : ConcatenatedHeaders) : list bool := map (fun g => negb (is_missing a g)) globals.
Definition missing_text (globals : ConcatenatedHeaders) : bytes := server_text (List.filter (is_missing a) globals).

Lemma globals_to_skip_exact m hasHeaders globals pos :
  (forall key, bytes_ok key -> hasHeader key m = Some (existsb (named key) (all_fields a))) ->
  (hasHeaders = false -> all_fields a = []) -> Forall (fun g => bytes_ok (global_key g)) globals ->
  (pos + length globals <= kMaxGlobalHeaders)%nat ->
  globals_to_skip hasHeaders pos globals m = Some (skips_of globals, length (missing_text globals)).
Proof.
  intros Hfind Hno Hk. revert pos. induction Hk as [|g gs Hg Hgs IH]; intros pos Hpos; [done|]. cbn [globals_to_skip length] in *.
  assert (Ef : (if hasHeaders then hasHeader (global_key g) m else Some false) = Some (negb (is_missing a g))).
  { unfold is_missing. rewrite negb_involutive. destruct hasHeaders; [by apply Hfind|]. by rewrite Hno. }
  rewrite Ef. cbn [mbind option_bind]. rewrite (proj2 (Nat.leb_gt _ _)) by lia. rewrite andb_false_r, IH by lia. cbn [mbind option_bind].
  unfold skips_of, missing_text. cbn [map List.filter]. destruct (is_missing a g); cbn [negb]; [|done].
  rewrite server_text_cons, !length_app. do 2 f_equal. change (length CRLF) with 2%nat. lia.
Qed.

Lemma write_globals_room globals pos ptr m dn hole z :
  (pos + length globals <= kMaxGlobalHeaders)%nat -> Room m ptr dn hole z -> (length (missing_text globals) <= length hole)%nat ->
  exists ptr' m', write_globals pos globals (skips_of globals) ptr m = Some (ptr', m')
    /\ Room m' ptr' (dn ++ missing_text globals) (drop (length (missing_text globals)) hole) z /\ kept m m'.
Proof.
  revert pos ptr m dn hole. induction globals as [|g gs IH]; intros pos ptr m dn hole Hpos HR Hl.
  { exists ptr, m. rewrite app_nil_r. done. }
  cbn [write_globals skips_of map length] in *. rewrite (proj2 (Nat.leb_gt _ _)) by lia. fold (skips_of gs).
  unfold missing_text in *. cbn [List.filter] in *. destruct (is_missing a g); cbn [negb]; [|apply IH; done || lia].
  rewrite server_text_cons, !length_app in Hl. change (length CRLF) with 2%nat in Hl.
  destruct (emit_room m ptr dn hole z CRLF HR) as (m1 & -> & E1 & R1 & K1); [done|cbn; lia|]. cbn [mbind option_bind]. rewrite E1. cbn [mbind option_bind].
  assert (Eg : exists m2, emit g (length (dn ++ CRLF)) m1 = Some (length ((dn ++ CRLF) ++ g), m2)
                 /\ Room m2 (Some (length ((dn ++ CRLF) ++ g))) ((dn ++ CRLF) ++ g) (drop (length g) (drop 2 hole)) z /\ kept m1 m2).
  { destruct R1 as [M1 _]. destruct (emit_hole m1 _ _ z g _ M1 eq_refl) as (m2 & E2 & M2 & K2); [rewrite length_drop; change (length CRLF) with 2%nat; lia|].
    exists m2. split; [done|]. split; [|done]. split; [done|by left]. }
  destruct Eg as (m2 & E2 & R2 & K2). rewrite E2. cbn [mbind option_bind].
  destruct (IH (S pos) _ m2 _ _ ltac:(lia) R2) as (ptr' & m3 & E3 & R3 & K3); [rewrite !length_drop; lia|].
  exists ptr', m3. split; [done|]. split; [|eauto]. rewrite server_text_cons. revert R3. rewrite !drop_drop, <- !app_assoc, !length_app.
  by change (length CRLF) with 2%nat.
Qed.

(** In one copy or in several. *)
Lemma server_headers_room (prepared : bool) (globals : ConcatenatedHeaders) ptr m dn hole z :
  (length globals <= kMaxGlobalHeaders)%nat -> Room m ptr dn hole z ->
  let text := server_text (server_headers prepared a globals) in
  (length text <= length hole)%nat ->
  exists ptr' m',
    (if prepared || bool_decide (globals = []) then Some (ptr, m)
     else if negb prepared && forallb negb (if prepared then [] else skips_of globals) then
       p ← ptr; '(p, m) ← emit CRLF p m; '(p, m) ← emit (fullString globals) p m; Some (Some p, m)
     else write_globals 0 globals (if prepared then [] else skips_of globals) ptr m) = Some (ptr', m')
    /\ Room m' ptr' (dn ++ text) (drop (length text) hole) z /\ kept m m'.
Proof.
  intros Hlen HR text Hl. subst text. unfold server_headers in *. destruct prepared; cbn [orb negb andb] in *.
  { exists ptr, m. rewrite app_nil_r. done. }
  case_bool_decide as Hg; [subst globals; exists ptr, m; cbn; by rewrite app_nil_r|].
  destruct (forallb negb (skips_of globals)) eqn:Eall; [|by apply write_globals_room].
  assert (Ef : List.filter (is_missing a) globals = globals).
  { clear -Eall. induction globals as [|g gs IH]; [done|]. cbn in *. apply andb_true_iff in Eall as [E1 E2]. rewrite negb_involutive in E1.
    by rewrite E1, IH. }
  rewrite Ef in *. rewrite <- (full_string globals Hg) in *. rewrite length_app in Hl. change (length CRLF) with 2%nat in Hl.
  destruct (emit_room m ptr dn hole z CRLF HR) as (m1 & -> & E1 & [M1 _] & K1); [done|cbn; lia|]. cbn [mbind option_bind]. rewrite E1. cbn [mbind option_bind].
  destruct (emit_hole m1 _ _ z (fullString globals) _ M1 eq_refl) as (m2 & E2 & M2 & K2); [rewrite length_drop; change (length CRLF) with 2%nat; lia|].
  rewrite E2. cbn [mbind option_bind]. eexists _, m2. split; [done|]. split; [|eauto]. split; [|left; by rewrite <- !app_assoc].
  rewrite M2, drop_drop, length_app, <- !app_assoc. done.
Qed.
End Globals.

(** ** What the message already has *)

Lemma started_hasHeader o m start a key :
  Started o m start a -> bytes_ok key -> hasHeader key m = Some (existsb (named key) (all_fields a)).
Proof.
  intros (Hp & _ & _ & _ & Hw) Hk. pose proof (all_fields_readable a Hw) as Hr. unfold hasHeader.
  destruct (first_named key (all_fields a)) as [(x & f & y & E & Hx & Hf)|Hno].
  - rewrite (find_header_found m start _ _ Hp x f y key E Hr Hk Hx Hf). cbn [mbind option_bind]. rewrite E, existsb_found by done.
    by rewrite bool_decide_true.
  - rewrite (find_header_none m start _ _ Hp key Hr Hk Hno). cbn [mbind option_bind]. by rewrite existsb_none.
Qed.

Lemma started_no_headers o m start a :
  Started o m start a -> negb (Nat.eqb (fst (headersFlatView m)) (snd (headersFlatView m))) = false -> all_fields a = [].
Proof.
  intros (Hp & _) E. rewrite (flat_view m start _ _ Hp) in E. cbn [fst snd] in E. apply negb_false_iff, Nat.eqb_eq in E.
  rewrite !length_app in E. destruct (all_fields a) as [|f l]; [done|]. pose proof (flat_lines_length (f :: l)) as H. cbn [length] in H. lia.
Qed.

Lemma code_digits_eq c d : 100 <= c <= 999 -> 100 <= d <= 999 -> code_digits c = code_digits d -> c = d.
Proof. intros Hc Hd [= E1 E2 E3]. zlia. Qed.

Lemma status_allows o m version date a :
  Started o m (start_text version date a) a -> StatusAllowsSynthesizedContentLengthZero false m = status_has_length (a_code a).
Proof.
  intros (Hp & _ & _ & _ & Hw). destruct Hw as (Hc & _). destruct (parts_positions _ _ _ _ Hp) as (_ & _ & _ & _ & spare & Em).
  unfold StatusAllowsSynthesizedContentLengthZero.
  assert (Ecode : substr (mem m) 9 3 = code_digits (a_code a)).
  { rewrite Em. unfold start_text. set (after := [32] ++ a_reason a ++ CRLF ++ str "date: " ++ date).
    replace ((writeFull version ++ [32] ++ code_digits (a_code a) ++ after) ++ _)
      with ((writeFull version ++ [32]) ++ code_digits (a_code a) ++ (after ++ header_text (all_fields a) ++ inline_text a ++ spare)) by (by rewrite <- !app_assoc).
    by apply substr_at. }
  rewrite Ecode. unfold status_has_length.
  assert (Edec : forall k, 100 <= k <= 999 -> bool_decide (code_digits (a_code a) = code_digits k) = (a_code a =? k)).
  { intros k Hk. case_bool_decide as E; symmetry; [apply Z.eqb_eq; by apply code_digits_eq|apply Z.eqb_neq; intros Ek; by rewrite Ek in E]. }
  change (str "204") with (code_digits 204). change (str "304") with (code_digits 304). rewrite !Edec by lia.
  change (byte_at (code_digits (a_code a)) 0) with (48 + a_code a / 100). do 2 f_equal.
  destruct (Z.leb_spec 200 (a_code a)); [apply Z.leb_le; zlia|apply Z.leb_gt; zlia].
Qed.

(** ** finalizeForHttp1 *)

(** The headers of the server are checked when it is configured, which refuses the reserved ones;
    their buffer has 32-bit sizes. *)
Definition globals_ok (globals : ConcatenatedHeaders) : Prop :=
  (length globals <= kMaxGlobalHeaders)%nat /\ Forall (fun g => bytes_ok (global_key g)) globals /\ zlen (server_text globals) < 2 ^ 32
  /\ Forall (fun g => IsReservedResponseHeader (global_key g) = false) globals.

Lemma filter_text_length P globals : (length (server_text (List.filter P globals)) <= length (server_text globals))%nat.
Proof.
  induction globals as [|g gs IH]; [done|]. cbn [List.filter]. destruct (P g); rewrite ?server_text_cons, ?length_app; lia.
Qed.

Lemma names_text_length first ts : (length (names_text first ts) <= length (flat_lines ts))%nat.
Proof.
  revert first. induction ts as [|f ts IH]; intros first; [done|]. cbn [names_text]. change (flat_lines (f :: ts)) with (field_line f ++ flat_lines ts).
  rewrite !length_app, size_of_field_line. specialize (IH false). destruct first; cbn [length]; [lia|]. change (length kTrailerValueSep) with 2%nat. lia.
Qed.

(** The head stays within 40 bits. *)
Lemma head_pos_ok o m start a hd add :
  Started o m start a -> (length start <= length (a_reason a) + 50)%nat ->
  Z.of_nat (length ((start ++ crlf_lines (a_fields a ++ framing_fields hd add a)) ++ DoubleCRLF)) < 2 ^ 39 + 2 ^ 33
  /\ Z.of_nat (body_len (a_body a)) < 2 ^ 64 /\ (in_memory (a_body a) = true -> Z.of_nat (body_len (a_body a)) < 2 ^ 40).
Proof.
  intros (_ & _ & _ & _ & Hw) Hst. destruct Hw as (_ & _ & _ & _ & _ & Hb & _ & Ht & Hs). unfold size_ok, header_text, zlen in Hs.
  rewrite !length_app in *. rewrite crlf_lines_app, length_app. unfold all_fields in Hs. rewrite crlf_lines_app, length_app in Hs.
  change (length DoubleCRLF) with 4%nat in *.
  assert (Hf : (length (crlf_lines (framing_fields hd add a)) <= length (crlf_lines (body_fields (a_body a))) + length (trailer_text a) + 60)%nat).
  { unfold framing_fields, body_fields. destruct (has_body (a_body a)); [|cbn; lia].
    change (type_field a :: ?l) with ([type_field a] ++ l). unfold length_fields. change [?x; ?y] with ([x] ++ [y]).
    rewrite !crlf_lines_app, !length_app. fold (type_field a) (length_field a).
    assert (Hn : (length (crlf_lines (if has_trailers a && add then [names_field (a_trailers a)] else [])) <= length (trailer_text a) + 11)%nat).
    { destruct (has_trailers a && add); [|cbn; lia]. change (crlf_lines [?x]) with (crlf_line x ++ []). rewrite app_nil_r.
      unfold crlf_line, names_field. rewrite length_crlf_line. unfold HeaderSize. cbn [fst snd]. pose proof (names_text_length true (a_trailers a)) as Hn.
      unfold trailer_text. change (length n_trailer) with 7%nat. change (length HeaderSep) with 2%nat. change (length CRLF) with 2%nat. lia. }
    destruct (has_trailers a && negb hd); [change (length (crlf_lines [chunked_field])) with 28%nat|]; lia. }
  unfold zlen in Ht. split; [lia|]. unfold body_wf in Hb. destruct (a_body a) as [|ct d|ct d|ct k]; cbn [body_len body_data in_memory length] in *; split; try lia; try done; tauto || lia.
Qed.

Section Finalized.
Context (garbage : Z) (o opts : Options) (version : Z) (globals : ConcatenatedHeaders) (a : Response).
Hypothesis (Hglobals : globals_ok globals) (Hanswer : op_httpRequest opts = false).

Abbreviation hd := (op_headMethod opts).
Abbreviation add := (op_addTrailerHeader opts).
Abbreviation prepared := (op_prepared o).

(** The two headers that the code computes for itself. *)
Definition addConnectionHeader : bool := (op_close opts && (version =? HTTP_1_1)) || (negb (op_close opts) && (version =? HTTP_1_0)).
Definition connectionValue : bytes := if op_close opts then v_close else v_keepalive.

Lemma connection_text_flag :
  connection_text opts version = if addConnectionHeader then WriteCRLFHeader n_connection connectionValue else [].
Proof using Type. unfold connection_text, addConnectionHeader, connectionValue. destruct (op_close opts), (version =? HTTP_1_1), (version =? HTTP_1_0); done. Qed.

Lemma own_sizes (zero : bool) :
  ((if addConnectionHeader then HeaderSize (length n_connection) (length connectionValue) else 0)
   + (if zero then HeaderSize (length n_content_length) 1 else 0))%nat
  = length (connection_text opts version ++ if zero then CRLF ++ str "content-length: 0" else []).
Proof using Type.
  rewrite connection_text_flag, length_app. f_equal; [|by destruct zero]. destruct addConnectionHeader; [|done]. by rewrite length_crlf_line.
Qed.

(** The last two texts. *)
Lemma own_headers_room (zero : bool) ptr m dn hole z :
  Room m ptr dn hole z ->
  let text := connection_text opts version ++ (if zero then CRLF ++ str "content-length: 0" else []) in
  length hole = length text ->
  exists m1 ptr1 m2,
    (if addConnectionHeader
     then p ← ptr; '(p, m) ← emit (WriteCRLFHeader n_connection connectionValue) p m; Some (Some p, m)
     else Some (ptr, m)) = Some (ptr1, m1)
    /\ (if zero then p ← ptr1; '(_, m) ← emit (CRLF ++ str "content-length: 0") p m1; Some m else Some m1) = Some m2
    /\ mem m2 = (dn ++ text) ++ z /\ kept m m2.
Proof using Type.
  intros HR text Hl. subst text. rewrite connection_text_flag in *. set (conn := WriteCRLFHeader n_connection connectionValue) in *.
  assert (H1 : exists m1 ptr1, (if addConnectionHeader then p ← ptr; '(p, m) ← emit conn p m; Some (Some p, m) else Some (ptr, m)) = Some (ptr1, m1)
            /\ Room m1 ptr1 (dn ++ (if addConnectionHeader then conn else [])) (drop (length (if addConnectionHeader then conn else [])) hole) z /\ kept m m1).
  { destruct addConnectionHeader; [|exists m, ptr; rewrite app_nil_r; done]. rewrite length_app in Hl.
    destruct (emit_room m ptr dn hole z conn HR) as (m1 & -> & E1 & R1 & K1); [done|lia|]. cbn [mbind option_bind]. rewrite E1. by eexists m1, _. }
  destruct H1 as (m1 & ptr1 & E1 & R1 & K1). exists m1, ptr1. rewrite E1. rewrite length_app in Hl. destruct zero.
  - destruct (emit_room m1 ptr1 _ _ z (CRLF ++ str "content-length: 0") R1) as (m2 & -> & E2 & [M2 _] & K2); [done|rewrite length_drop; lia|].
    cbn [mbind option_bind]. rewrite E2. exists m2. split; [done|]. split; [done|]. split; [|eauto].
    rewrite M2, drop_drop, drop_ge by lia. by rewrite <- !app_assoc.
  - destruct R1 as [M1 _]. exists m1. split; [done|]. split; [done|]. split; [|done]. rewrite M1, drop_ge by (cbn [length] in Hl; lia).
    by rewrite <- !app_assoc.
Qed.

(** Every branch. *)
Lemma branch_laid m start min total :
  Started o m start a -> (length start <= length (a_reason a) + 50)%nat ->
  exists hip m',
    (if Nat.eqb (body_len (a_body a)) 0 || hd || hasBodyFile m
     then finalize_empty garbage hd (has_trailers a && add) (body_len (a_body a)) total m
     else
       let moveBodyInline := hasBodyCaptured m && (body_len (a_body a) + trailersSize m <=? min)%nat in
       if Nat.eqb (trailersSize m) 0 then finalize_body garbage moveBodyInline (body_len (a_body a)) total m
       else if hasBodyCaptured m then finalize_captured_chunk garbage moveBodyInline (has_trailers a && add) (body_len (a_body a)) total m
       else finalize_inline_chunk garbage (has_trailers a && add) (body_len (a_body a)) total m) = Some (hip, m')
    /\ Laid m' hip total (start ++ crlf_lines (a_fields a ++ framing_fields hd add a)) hd prepared a.
Proof using Type.
  intros Hs Hst. destruct (head_pos_ok o m start a hd add Hs Hst) as (Hhead & _ & Hdata). rewrite (started_file o start a m Hs).
  assert (Hw : wf a) by apply Hs. destruct (in_memory (a_body a)) eqn:Em.
  - assert (Hn : Nat.eqb (body_len (a_body a)) 0 = false) by (apply Nat.eqb_neq, body_data_nonempty; [done|by destruct (a_body a)]).
    assert (Hf : match a_body a with FileBody _ _ => true | _ => false end = false) by (by destruct (a_body a)). rewrite Hn, Hf, orb_false_r. cbn [orb].
    destruct hd eqn:Ehd.
    + apply (head_laid garbage o start a total m add Hs Em). destruct Hs as ((_ & _ & [Hp0 _]) & _). split; [done|lia].
    + by apply body_laid; [|done|apply Hdata].
  - assert (Hg : Nat.eqb (body_len (a_body a)) 0 || hd || match a_body a with FileBody _ _ => true | _ => false end = true).
    { destruct (a_body a); try done. cbn. apply orb_true_r. }
    rewrite Hg. assert (Ht : has_trailers a = false).
    { destruct Hw as (_ & _ & _ & _ & _ & Hb & _). unfold body_wf in Hb. unfold has_trailers. apply negb_false_iff, bool_decide_eq_true. destruct (a_body a); tauto || done. }
    rewrite Ht. destruct (empty_laid garbage o start a total m hd Hs Em) as (hip & m' & E & HL). exists hip, m'. split; [exact E|apply HL].
Qed.

Lemma message_finalized m date min :
  Started o m (start_text version date a) a -> length date = RFC7231DateStrLen ->
  exists m', message_finalizeForHttp1 garbage version opts globals min m = Some m'
    /\ content (hm_data m') ++ payload_view (hm_payload m') = wire_text prepared version date opts globals a
    /\ file_of (hm_payload m') = match a_body a with FileBody _ n => Some n | _ => None end.
Proof using Hglobals Hanswer.
  intros Hs Hdate. set (start := start_text version date a) in *.
  assert (Hstart : (length start <= length (a_reason a) + 50)%nat).
  { subst start. unfold start_text. rewrite !length_app, Hdate. change (length (writeFull version)) with 8%nat. change (length (str "date: ")) with 6%nat.
    change (length CRLF) with 2%nat. change RFC7231DateStrLen with 29%nat. cbn [length code_digits]. lia. }
  destruct (head_pos_ok o m start a hd add Hs Hstart) as (Hhead & _ & Hdata).
  pose proof (started_trailers o start a m Hs) as Et. pose proof (started_file o start a m Hs) as Ef. pose proof (started_captured o start a m Hs) as Ec.
  destruct Hglobals as (Hgn & Hgk & Hgs & _). assert (Hlen : bodyLength m = body_len (a_body a)) by apply Hs.
  assert (Hprep : op_prepared (hm_opts m) = prepared) by (destruct Hs as (_ & _ & -> & _); done).
  unfold message_finalizeForHttp1. cbv zeta. rewrite Hlen, Et, no_trailers_size, Hprep, Hanswer. fold (has_trailers a).
  rewrite (status_allows o m version date a Hs).
  set (zero := Nat.eqb (body_len (a_body a)) 0 && negb hd && negb (hasBodyFile m) && negb (op_streamingBody opts) && status_has_length (a_code a)).
  assert (Ezero : (if zero then CRLF ++ str "content-length: 0" else []) = no_length_text opts a).
  { unfold no_length_text. subst zero. rewrite Ef. assert (Hw : wf a) by apply Hs.
    destruct (has_body (a_body a)) eqn:Eb.
    - rewrite (proj2 (Nat.eqb_neq _ _)) by (by apply body_data_nonempty). done.
    - destruct (a_body a); done || (cbn [body_len body_data length Nat.eqb negb andb]; by rewrite andb_true_r). }
  rewrite own_sizes, Ezero.
  assert (Hskip : (if prepared then Some ([], 0%nat) else globals_to_skip (negb (Nat.eqb (fst (headersFlatView m)) (snd (headersFlatView m)))) 0 globals m)
                  = Some (if prepared then [] else skips_of a globals, length (server_text (server_headers prepared a globals)))).
  { unfold server_headers. destruct prepared; [done|]. rewrite (globals_to_skip_exact a); [done| |by eapply started_no_headers|done|lia].
    intros key Hk. by eapply started_hasHeader. }
  rewrite Hskip. cbn [mbind option_bind]. set (own := connection_text opts version ++ no_length_text opts a).
  set (added := server_text (server_headers prepared a globals)).
  assert (Hadded : (length added <= length (server_text globals))%nat).
  { subst added. unfold server_headers. destruct prepared; [cbn; lia|apply filter_text_length]. }
  assert (Hown : (length own <= 60)%nat).
  { subst own. rewrite <- Ezero, <- own_sizes. unfold addConnectionHeader, connectionValue. destruct (op_close opts), zero, (_ =? _), (_ =? _); cbn; lia. }
  unfold zlen in Hgs. set (total := (length own + length added)%nat).
  destruct (started_holds o start a m Hs) as [_ Eb].
  assert (Hassert : (kBodyStartMask <? Z.of_nat (total + bodyStartPos m)) = false).
  { apply Z.ltb_ge. change kBodyStartMask with (2 ^ 40 - 1). destruct Hs as (Hp & _ & _ & _ & Hw). destruct Hw as (_ & _ & _ & _ & _ & _ & _ & _ & Hsz).
    unfold size_ok, zlen in Hsz. rewrite Eb, length_app. subst total. lia. }
  rewrite Hassert. set (head := start ++ crlf_lines (a_fields a ++ framing_fields hd add a)) in *.
  destruct (branch_laid m start min total Hs Hstart) as (hip & m1 & E1 & (tail & (hole & junk & M1 & Lh & S1 & Hhip) & Hsent & Hfile & Hso & Hp1)).
  cbv zeta in E1. rewrite Et, no_trailers_size in E1. fold (has_trailers a) in E1. rewrite E1. cbn [mbind option_bind]. rewrite Hp1.
  assert (R1 : Room m1 hip head hole (DoubleCRLF ++ tail ++ junk)).
  { split; [exact M1|]. destruct Hhip as [->|Htot]; [by left|right]. destruct hole; [done|cbn in Lh; lia]. }
  destruct (server_headers_room a prepared globals hip m1 head hole _ Hgn R1) as (p2 & m2 & E2 & R2 & K2); [subst total; fold added; lia|].
  rewrite E2. cbn [mbind option_bind]. fold added in R2.
  destruct (own_headers_room zero p2 m2 _ _ _ R2) as (m3 & p3 & m4 & E3 & E4 & M4 & K4); [rewrite Ezero; fold own; rewrite length_drop; lia|].
  unfold addConnectionHeader, connectionValue in E3. rewrite E3. cbn [mbind option_bind]. rewrite E4. cbn [mbind option_bind].
  rewrite Ezero in M4. fold own in M4. assert (K5 : kept m1 m4) by eauto. destruct K5 as (S5 & _ & P5 & _).
  assert (M4' : mem m4 = (head ++ (added ++ own ++ DoubleCRLF) ++ tail) ++ junk) by (rewrite M4; by rewrite <- !app_assoc).
  destruct (msetSize_holds m4 _ junk (msize m4 + total) M4') as (m5 & E5 & H5 & _ & [P6 _] & _); [rewrite S5, S1; subst total head; rewrite !length_app; lia|].
  change (maddSize total m4) with (msetSize (msize m4 + total) m4). rewrite E5. cbn [mbind option_bind]. rewrite P6, P5, Hso. exists m5. split; [done|]. rewrite P6, P5. split; [|done].
  rewrite (holds_content _ _ H5). unfold wire_text, wire_head, added_text. fold start added own. rewrite <- Hsent. subst head own. by rewrite <- !app_assoc.
Qed.
End Finalized.

(** ** The theorem *)

Lemma finalized_repr garbage o opts version globals m a tp min :
  Repr o m a -> - 2 ^ 63 <= tp < 2 ^ 63 -> globals_ok globals -> op_httpRequest opts = false ->
  exists date p, TimeToStringRFC7231 tp = Some date /\ finalizeForHttp1 garbage tp version opts globals min m = Some p
    /\ sent p = wire_text (op_prepared o) version date opts globals a /\ file_of (snd p) = file_left (op_headMethod opts) a.
Proof.
  intros HR Htp Hg Ha. destruct (start_written o m a tp version HR Htp) as (date & m1 & m2 & m3 & q & E1 & E2 & Ed & E3 & E4 & Hs).
  destruct (date_written_read tp Htp) as (date' & Ed' & Ld & _). rewrite Ed in Ed'. injection Ed' as <-.
  destruct (message_finalized garbage o opts version globals a Hg Ha m3 date min Hs Ld) as (m4 & E5 & Hsent & Hfile).
  exists date. unfold finalizeForHttp1. rewrite E1. cbn [mbind option_bind]. rewrite E2. cbn [mbind option_bind]. rewrite Ed. cbn [mbind option_bind].
  rewrite E3. cbn [mbind option_bind]. change (length (CRLF ++ str "date: ")) with 8%nat. rewrite E4. cbn [mbind option_bind]. rewrite E5. cbn [mbind option_bind].
  eexists. split; [done|]. split; [done|]. unfold sent, file_left. cbn [fst snd]. split.
  - rewrite <- Hsent. f_equal. destruct (op_headMethod opts); [|done]. by destruct (hm_payload m4).
  - destruct (op_headMethod opts); [|by rewrite Hfile; destruct (a_body a)]. destruct (hm_payload m4), (a_body a); cbn in Hfile; done || (by injection Hfile).
Qed.

(** C9: The bytes that are sent for a response are the text of the response that its history
    describes: version, status, reason, date, its headers, its framing, the headers of the
    server that it does not have, those of the connection, the body, in one chunk with its
    trailers if it has some, and no body for HEAD.  Whether the body is in the buffer, is
    captured, or is copied into the buffer at the end makes no difference.  The histories are those
    of [message_refines_response], in which no reserved header is given, neither by the application
    nor by the configuration of the server: the framing and the connection headers are the
    library's own. *)
Theorem response_written_exact garbage st ops tp version opts globals min :
  start_ok st -> history_ok ops (start_reply st) -> - 2 ^ 63 <= tp < 2 ^ 63 -> globals_ok globals ->
  op_httpRequest opts = false ->
  let a := fst (apply_ops ops (start_reply st)) in
  exists m0 m date p, build garbage st = Some (Returns m0)
    /\ run garbage ops m0 = Some (m, snd (apply_ops ops (start_reply st)))
    /\ TimeToStringRFC7231 tp = Some date /\ finalizeForHttp1 garbage tp version opts globals min m = Some p
    /\ sent p = wire_text false version date opts globals a /\ file_of (snd p) = file_left (op_headMethod opts) a.
Proof.
  intros Hc Hok Htp Hg Ha a. destruct (build_repr garbage st Hc) as (m0 & E0 & HR0).
  destruct (run_refines garbage no_options ops m0 _ HR0 Hok) as (m & E & HR). exists m0, m. fold a in HR.
  destruct (finalized_repr garbage no_options opts version globals m a tp min HR Htp Hg Ha) as (date & p & Ed & Ef & Es & Efile).
  by exists date, p.
Qed.

Definition sample_options : Options := MkOptions true true false false false false false 0.
Definition sample_globals : ConcatenatedHeaders := [str "server: aeronet"; str "vary: *"].

Lemma response_written_exact_witness :
  let a := fst (apply_ops sample_history (start_reply sample_start)) in
  (start_ok sample_start /\ history_ok sample_history (start_reply sample_start) /\ globals_ok sample_globals)
  /\ (exists m0 m date p, build 0 sample_start = Some (Returns m0)
      /\ run 0 sample_history m0 = Some (m, snd (apply_ops sample_history (start_reply sample_start)))
      /\ TimeToStringRFC7231 784111777000000000 = Some date
      /\ finalizeForHttp1 0 784111777000000000 HTTP_1_1 sample_options sample_globals 4096 m = Some p
      /\ sent p = wire_text false HTTP_1_1 date sample_options sample_globals a /\ file_of (snd p) = None)
  /\ wire_text false HTTP_1_1 (str "Sun, 06 Nov 1994 08:49:37 GMT") sample_options sample_globals a
     = str "HTTP/1.1 404 " ++ CRLF ++ str "date: Sun, 06 Nov 1994 08:49:37 GMT" ++ CRLF ++ str "Vary: accept, origin" ++ CRLF
       ++ str "content-type: text/html" ++ CRLF ++ str "trailer: X-Sum" ++ CRLF ++ str "transfer-encoding: chunked" ++ CRLF
       ++ str "server: aeronet" ++ CRLF ++ str "connection: close" ++ CRLF ++ CRLF
       ++ str "c" ++ CRLF ++ str "hello world!" ++ CRLF ++ str "0" ++ CRLF ++ str "X-Sum: 42" ++ CRLF ++ CRLF.
Proof.
  destruct sample_ok as [Hst Hok].
  assert (Hg : globals_ok sample_globals).
  { split; [vm_compute; lia|]. split; [|split; [done|repeat constructor]]. repeat constructor; vm_compute; intuition discriminate. }
  split; [done|]. split; [|vm_compute; reflexivity].
  apply (response_written_exact 0 sample_start sample_history 784111777000000000 HTTP_1_1 sample_options sample_globals 4096); done || (split; done).
Defined.
