(* ===== verification/HttpEndToEnd.v ===== *)
(** A response from the application of the server to the client: the text that
    [finalizeForHttp1] makes is a well-formed message of ResponseRoundtrip, which the parser of
    the client receives as it was described. *)

From S2P Require Import Prelude.
From S2P Require Import AsciiCase.
From S2P Require Import HeadersView.
From S2P Require Import UrlCodec.
From S2P Require Import Cors.
From S2P Require Import Http1Request.
From S2P Require Import Http1Body.
From S2P Require Import Http1BodyProofs.
From S2P Require Import RoutePattern.
From S2P Require Import ResponseParser.
From S2P Require Import ResponseParserProofs.
From S2P Require Import ResponseRoundtrip.
From S2P Require Import TimeString.
From S2P Require Import RawChars.
From S2P Require Import HttpMessage.
From S2P Require Import HttpMessageSpec.
From S2P Require Import HttpMessageRepr.
From S2P Require Import HttpMessageFields.
From S2P Require Import HttpMessageInline.
From S2P Require Import HttpMessageHistory.
From S2P Require Import HttpFinalize.
From S2P Require Import HttpFinalizeSpec.
From S2P Require Import HttpFinalizeBranches.
From S2P Require Import HttpFinalizeProofs.
Local Open Scope Z_scope.

(** ** What the operations keep *)

(** The content type has been trimmed and validated, and so have the names of the trailers. *)
Definition tidy (a : Response) : Prop :=
  (has_body (a_body a) = true -> TrimOws (body_type (a_body a)) = body_type (a_body a) /\ IsValidHeaderValue (body_type (a_body a)) = true)
  /\ Forall (fun f => IsValidHeaderName (fst f) = true /\ bytes_ok (fst f)) (a_trailers a).

Lemma type_checked ct0 ct : CheckContentType false ct0 = Ret ct -> TrimOws ct = ct /\ IsValidHeaderValue ct = true.
Proof.
  unfold CheckContentType. cbn [negb andb]. destruct (_ || _) eqn:E; [done|]. intros [= <-]. split; [apply TrimOws_idem|].
  apply orb_false_iff in E as [_ E]. by apply negb_false_iff in E.
Qed.

Lemma tidy_replace make empty ct0 a a' :
  (forall ct, body_type (make ct) = ct) -> tidy a -> replace_body make empty ct0 a = Ret a' -> tidy a'.
Proof.
  intros Hmake [Ht Hn]. unfold replace_body. destruct (negb _); [done|]. destruct (CheckContentType empty ct0) as [ct|] eqn:Ec; [|done].
  intros [= <-]. destruct empty.
  - split; [done|]. unfold drop_body. by destruct (_ && _).
  - apply type_checked in Ec as [E1 E2]. split; [|done]. cbn [with_body a_body]. intros _. by rewrite Hmake.
Qed.

Lemma default_tidy w : TrimOws (defaultContentType w) = defaultContentType w /\ IsValidHeaderValue (defaultContentType w) = true.
Proof. unfold defaultContentType. by destruct (wr_bytes w). Qed.

Lemma tidy_check_type contentType a default next a' :
  TrimOws default = default /\ IsValidHeaderValue default = true ->
  check_type contentType a (Ret next) = Ret a' ->
  a' = next /\ TrimOws (given_type contentType default) = given_type contentType default
  /\ IsValidHeaderValue (given_type contentType default) = true.
Proof.
  intros [D1 D2]. unfold check_type, given_type. destruct (negb _); [done|]. destruct (_ && _) eqn:Eg; [done|]. intros [= <-]. split; [done|].
  case_bool_decide as Hg; [done|]. split; [apply TrimOws_idem|]. by apply andb_false_iff in Eg as [Eg|Eg]; [|apply negb_false_iff in Eg].
Qed.

Lemma tidy_inline_set w contentType a a' : tidy a -> inline_set w contentType a = Ret a' -> tidy a'.
Proof.
  intros [_ Hn] E. apply (tidy_check_type _ _ _ _ _ (default_tidy w)) in E as (-> & E1 & E2).
  assert (Hd : a_trailers (drop_body a) = a_trailers a) by (unfold drop_body; by destruct (_ && _)).
  case_bool_decide; (split; [done|]); [by rewrite Hd|]. change (a_trailers (with_body ?b ?c)) with (a_trailers c). by rewrite Hd.
Qed.

Lemma tidy_inline_append w contentType a a' : tidy a -> inline_append w contentType a = Ret a' -> tidy a'.
Proof.
  intros [Ht Hn]. unfold inline_append. destruct (a_body a) as [|ct d|ct d|ct n] eqn:Eb; [| |done|done]; intros E.
  - apply (tidy_check_type _ _ _ _ _ (default_tidy w)) in E as (-> & E1 & E2). case_bool_decide; (split; [|done]); [by rewrite Eb|done].
  - apply (tidy_check_type _ _ _ _ _ (Ht eq_refl)) in E as (-> & E1 & E2). by split.
Qed.

Lemma start_tidy st : start_ok st -> tidy (start_reply st).
Proof.
  assert (Hfull : forall c fs d ct, start_type_ok d ct -> tidy (full_reply c fs d (TrimOws ct))).
  { intros c fs d ct [_ H]. split; [|constructor]. cbn [full_reply a_body]. case_bool_decide as E; [done|]. intros _. apply (type_checked ct). by apply H. }
  destruct st; cbn [start_ok start_reply]; [intros _; by split; [|constructor]|intros (_ & H & _); by apply Hfull..].
Qed.

Lemma apply_op_tidy op a a' : tidy a -> op_ok op a -> apply_op op a = Ret a' -> tidy a'.
Proof.
  intros H Hop. destruct op as [c|r|k v|k v|k v sep|k|d ct|d ct|d ct|fs off len det ct|ml w ct|ml w ct|k v]; cbn [apply_op].
  - unfold set_status. destruct (_ || _); [done|]. by intros [= <-].
  - by intros [= <-].
  - unfold set_header, add_line. repeat case_match; intros [= <-]; exact H.
  - unfold add_line. repeat case_match; intros [= <-]; exact H.
  - unfold append_value, add_line. repeat case_match; intros [= <-]; exact H.
  - unfold remove_line. repeat case_match; intros [= <-]; exact H.
  - by apply tidy_replace.
  - by apply tidy_replace.
  - unfold append_body. case_bool_decide; [by intros [= <-]|].
    assert (Happ : has_body (a_body a) = true -> in_memory (a_body a) = true -> append_to (a_body a) d ct a = Ret a' -> tidy a').
    { intros Hb Hm. unfold append_to. destruct (negb _); [done|]. destruct (_ && _) eqn:Eg; [done|]. intros [= <-]. destruct H as [Ht Hn].
      split; [|done]. intros _. cbn [with_body a_body].
      assert (Et : body_type (with_data (a_body a) (if bool_decide (TrimOws ct = []) then body_type (a_body a) else TrimOws ct) (body_data (a_body a) ++ d))
                   = if bool_decide (TrimOws ct = []) then body_type (a_body a) else TrimOws ct) by (by destruct (a_body a)).
      rewrite Et. case_bool_decide as Hg; [by apply Ht|]. split; [apply TrimOws_idem|].
      apply andb_false_iff in Eg as [Eg|Eg]; [done|by apply negb_false_iff in Eg]. }
    destruct (a_body a) eqn:Eb; [|by apply Happ|by apply Happ|done]. by apply tidy_replace.
  - unfold set_file. repeat case_match; try done. all: by apply tidy_replace.
  - by apply tidy_inline_set.
  - by apply tidy_inline_append.
  - unfold add_trailer. destruct (negb (IsValidHeaderName k)) eqn:Ek; [done|]. repeat case_match; try done. intros [= <-].
    destruct H as [Ht Hn]. split; [exact Ht|]. cbn [with_trailers a_trailers]. apply Forall_app. split; [done|]. constructor; [|constructor].
    apply negb_false_iff in Ek. split; [done|apply Hop].
Qed.

Lemma history_tidy ops a : tidy a -> history_ok ops a -> tidy (fst (apply_ops ops a)).
Proof.
  revert a. induction ops as [|op ops IH]; intros a H Hok; [done|]. destruct Hok as [Hop Hok]. cbn [apply_ops].
  destruct (apply_op op a) as [a1|what] eqn:E.
  - destruct Hok as [_ Hok]. specialize (IH a1 (apply_op_tidy _ _ _ H Hop E) Hok). by destruct (apply_ops ops a1).
  - specialize (IH a H Hok). by destruct (apply_ops ops a).
Qed.

(** ** The message of a response *)

(** A final status, a trimmed reason in one line, headers that are not for the framing of the
    body; the body is in memory. *)
Definition sendable (a : Response) : Prop :=
  200 <= a_code a <= 599 /\ a_code a <> 204 /\ a_code a <> 304
  /\ no_lf (a_reason a) /\ TrimOws (a_reason a) = a_reason a /\ Forall plain_field (a_fields a)
  /\ match a_body a with FileBody _ _ => False | _ => True end.

Definition missing_fields (a : Response) (gs : list field) : list field :=
  List.filter (fun g => is_missing a (field_text g)) gs.
Definition connection_fields (opts : Options) : list field := if op_close opts then [(n_connection, v_close)] else [].
Definition names_fields (opts : Options) (a : Response) : list field :=
  if has_trailers a && op_addTrailerHeader opts then [names_field (a_trailers a)] else [].

Definition message_of (date : bytes) (opts : Options) (gs : list field) (a : Response) : ResponseMessage :=
  let added := missing_fields a gs ++ connection_fields opts in
  let fields := (str "date", date) :: a_fields a in
  if has_body (a_body a) then
    ResponseRoundtrip.MkMessage (a_code a) (a_reason a) fields (Some (type_field a)) (names_fields opts a)
      (if has_trailers a then str "transfer-encoding" else n_content_length) added
      (if has_trailers a then ByChunks [MkChunk [] (body_data (a_body a))] (map field_text (a_trailers a))
       else ByLength (decimal (zlen (body_data (a_body a)))) (body_data (a_body a)))
  else ResponseRoundtrip.MkMessage (a_code a) (a_reason a) fields None added n_content_length [] (ByLength (str "0") []).

(** ** The text is the one of the message *)

Lemma field_lines_eq (fs : list field) : concat (map ResponseRoundtrip.field_line fs) = flat_lines fs.
Proof.
  unfold flat_lines. f_equal. apply map_ext. intros f.
  unfold ResponseRoundtrip.field_line, field_line, WriteHeaderCRLF, WriteHeader. by rewrite <- !app_assoc.
Qed.

Lemma crlf_line_text f : crlf_line f = CRLF ++ field_text f.
Proof. done. Qed.

Lemma server_text_fields (gs : list field) : server_text (map field_text gs) = crlf_lines gs.
Proof. unfold server_text, crlf_lines. rewrite map_map. done. Qed.

Lemma server_headers_fields a (gs : list field) :
  server_text (server_headers false a (map field_text gs)) = crlf_lines (missing_fields a gs).
Proof.
  rewrite <- server_text_fields. f_equal. unfold server_headers, missing_fields. induction gs as [|g gs IH]; [done|].
  cbn [map List.filter]. destruct (is_missing a (field_text g)); cbn [map]; by rewrite IH.
Qed.

Lemma connection_fields_text opts : connection_text opts HTTP_1_1 = crlf_lines (connection_fields opts).
Proof. unfold connection_text, connection_fields. by destruct (op_close opts). Qed.

(** The lines and the blank line, whichever way the ends are written. *)
Lemma lines_of_head l : crlf_lines l ++ DoubleCRLF = CRLF ++ flat_lines l ++ CRLF.
Proof. change DoubleCRLF with (CRLF ++ CRLF). by rewrite app_assoc, lines_shift, <- app_assoc. Qed.

Lemma chunks_text d ts :
  chunk_head (length d) ++ d ++ chunk_tail ts
  = encode_chunks [MkChunk [] d] ++ str "0" ++ CRLF ++ concat (map (fun t => t ++ CRLF) (map field_text ts)) ++ CRLF.
Proof.
  assert (E : concat (map (fun t => t ++ CRLF) (map field_text ts)) = flat_lines ts).
  { unfold flat_lines. by rewrite map_map. }
  rewrite E. unfold chunk_head, chunk_tail, kEndChunkedBody, encode_chunks, encode_chunk, zlen. cbn [map concat ck_data ck_extension].
  rewrite app_nil_r, <- !app_assoc. done.
Qed.

Lemma has_trailers_body a : wf a -> has_body (a_body a) = false -> a_trailers a = [].
Proof. intros (_ & _ & _ & _ & _ & Hb & _) H. unfold body_wf in Hb. by destruct (a_body a). Qed.

(** What follows the start line. *)
Lemma wire_after_start (date : bytes) (fs : list field) :
  CRLF ++ str "date: " ++ date ++ crlf_lines fs ++ DoubleCRLF
  = CRLF ++ concat (map ResponseRoundtrip.field_line ((str "date", date) :: fs)) ++ CRLF.
Proof.
  rewrite field_lines_eq, lines_of_head. change (flat_lines ((str "date", date) :: fs)) with (field_line (str "date", date) ++ flat_lines fs).
  unfold field_line, WriteHeaderCRLF, WriteHeader. cbn [fst snd]. by rewrite <- !app_assoc.
Qed.

Lemma crlf_lines_cons f fs : crlf_lines (f :: fs) = crlf_line f ++ crlf_lines fs.
Proof. done. Qed.

Lemma wire_of_lines (m : ResponseMessage) (date lines body : bytes) (fs : list field) :
  ms_fields m ++ type_fields m ++ ms_middle m ++ [framing_field m] ++ ms_after m = (str "date", date) :: fs ->
  lines = crlf_lines fs -> body_text m = body ->
  ((writeFull HTTP_1_1 ++ [32] ++ code_digits (ms_code m) ++ [32] ++ ms_reason m ++ CRLF ++ str "date: " ++ date) ++ lines ++ DoubleCRLF)
    ++ body = encode_response m.
Proof.
  intros Ef -> <-. unfold encode_response. rewrite Ef.
  assert (Es : writeFull HTTP_1_1 ++ [32] ++ code_digits (ms_code m) ++ [32] ++ ms_reason m = status_text m) by done.
  rewrite <- Es, (app_assoc _ CRLF (body_text m)), (app_assoc _ (_ ++ CRLF)). f_equal.
  pose proof (wire_after_start date fs) as E. rewrite <- !app_assoc. by rewrite E.
Qed.

Lemma wire_message date opts gs a :
  wf a -> sendable a -> op_headMethod opts = false -> op_streamingBody opts = false ->
  wire_text false HTTP_1_1 date opts (map field_text gs) a = encode_response (message_of date opts gs a).
Proof.
  intros Hw (Hc & H204 & H304 & _ & _ & _ & Hmem) Hh Hs. unfold wire_text, wire_head, added_text, start_text, sent_body, framing_fields.
  rewrite Hh, server_headers_fields, connection_fields_text. unfold message_of, no_length_text. rewrite Hh, Hs.
  set (added := missing_fields a gs ++ connection_fields opts).
  destruct (has_body (a_body a)) eqn:Eb; cbn [negb andb].
  - rewrite app_nil_r, andb_true_r. set (m := ResponseRoundtrip.MkMessage _ _ _ _ _ _ _ _).
    assert (El : body_len (a_body a) = length (body_data (a_body a))) by (destruct (a_body a); done).
    assert (Ef : framing_field m = if has_trailers a then chunked_field else length_field a).
    { unfold framing_field, length_field. subst m. cbn [ms_framing ms_payload]. rewrite El. by destruct (has_trailers a). }
    rewrite <- Ef, <- crlf_lines_app, (app_assoc (crlf_lines _)), <- crlf_lines_app.
    apply (wire_of_lines m date _ _ (a_fields a ++ type_field a :: names_fields opts a ++ [framing_field m] ++ added)).
    + done.
    + f_equal. rewrite <- app_assoc. f_equal. cbn [app]. f_equal. by rewrite <- app_assoc.
    + unfold body_text. subst m. cbn [ms_payload]. rewrite El. destruct (has_trailers a); [symmetry; apply chunks_text|done].
  - set (m := ResponseRoundtrip.MkMessage _ _ _ _ _ _ _ _). unfold status_has_length.
    rewrite (proj2 (Z.leb_le _ _)), (proj2 (Z.eqb_neq _ 204)), (proj2 (Z.eqb_neq _ 304)) by lia. cbn [negb andb].
    assert (Et : has_trailers a = false) by (unfold has_trailers; rewrite (has_trailers_body a Hw Eb); done).
    assert (Ed : body_data (a_body a) = []) by (destruct (a_body a); done). rewrite Et, Ed, (app_nil_r (a_fields a)), (app_assoc (crlf_lines (a_fields a))).
    apply (wire_of_lines m date _ [] (a_fields a ++ added ++ [framing_field m])).
    + subst m. cbn [ms_fields type_fields ms_type ms_middle ms_after app]. done.
    + subst added. by rewrite !crlf_lines_app, <- !app_assoc.
    + done.
Qed.

(** ** The message is well formed *)

(** The names of trailers, in one value. *)
Lemma tchar_solid c : byte_ok c -> is_tchar c = true -> isWhitespace c = false.
Proof.
  intros Hc Ht. assert (H : all_bytes (fun c => negb (is_tchar c) || negb (isWhitespace c)) = true) by (vm_compute; reflexivity).
  pose proof (all_bytes_spec _ c H Hc) as H'. cbv beta in H'. rewrite Ht in H'. by apply negb_true_iff in H'.
Qed.

Lemma name_solid name : IsValidHeaderName name = true -> bytes_ok name -> no_lf name /\ solid_ends name.
Proof.
  unfold IsValidHeaderName. intros H Hb. apply andb_true_iff in H as [Hne Hall]. apply negb_true_iff, bool_decide_eq_false in Hne.
  assert (Ht : Forall (fun c => is_tchar c = true /\ byte_ok c) name).
  { apply Forall_and. split; [|exact Hb]. apply Forall_forall. intros c Hc. rewrite forallb_forall in Hall. by apply Hall, list_elem_of_In. }
  split.
  - eapply Forall_impl; [exact Ht|]. intros c [H1 H2]. by apply tchar_plain.
  - destruct name as [|c r]; [done|]. exists c, r. split; [done|]. split.
    + apply Forall_inv in Ht as [? ?]. by apply tchar_solid.
    + assert (Hl : is_tchar (List.last (c :: r) 0) = true /\ byte_ok (List.last (c :: r) 0)); [|by destruct Hl; apply tchar_solid].
      destruct (exists_last (l := c :: r)) as (w & z & E); [done|]. rewrite E in *. rewrite last_last. by apply Forall_app in Ht as [_ Ht%Forall_inv].
Qed.

Lemma solid_app a sep b : solid_ends a -> solid_ends b -> solid_ends (a ++ sep ++ b).
Proof.
  intros (c & r & -> & Hc & _) (d & s & -> & _ & Hl). exists c, (r ++ sep ++ d :: s). split; [done|]. split; [done|].
  destruct (exists_last (l := d :: s)) as (w & z & E); [done|]. rewrite E in *. rewrite !app_assoc, last_last. by rewrite last_last in Hl.
Qed.

Lemma names_text_solid ts :
  Forall (fun f => IsValidHeaderName (fst f) = true /\ bytes_ok (fst f)) ts -> ts <> [] ->
  no_lf (names_text true ts) /\ solid_ends (names_text true ts).
Proof.
  intros H _Hne. destruct ts as [|f ts]; [done|]. clear _Hne. cbn [names_text app].
  apply Forall_cons in H as [[Hf Hb] H]. revert f Hf Hb. induction H as [|g ts [Hg Hgb] H IH]; intros f Hf Hb.
  - rewrite app_nil_r. by apply name_solid.
  - cbn [names_text]. destruct (name_solid _ Hf Hb) as [L1 S1]. destruct (IH g Hg Hgb) as [L2 S2]. split.
    + apply Forall_app. split; [done|]. apply Forall_app. split; [by repeat constructor|done].
    + by apply solid_app.
Qed.

Ltac decided := apply (bool_decide_unpack _); vm_compute; exact I.

Lemma names_plain a :
  tidy a -> has_trailers a = true -> plain_field (names_field (a_trailers a)).
Proof.
  intros [_ Hn] Ht. unfold has_trailers in Ht. apply negb_true_iff, bool_decide_eq_false in Ht.
  destruct (names_text_solid _ Hn Ht) as [Hl Hs]. split; [|by vm_compute]. split; [done|]. split; [decided|]. split; [decided|].
  split; [exact Hl|]. by apply solid_trimmed.
Qed.

Lemma date_plain date : no_lf date -> TrimOws date = date -> plain_field (str "date", date).
Proof. intros H1 H2. split; [|by vm_compute]. split_and!; [done|decided|decided|done|done]. Qed.

Lemma length_named : named_as n_content_length (str "content-length").
Proof. split_and!; [discriminate|decided|decided|vm_compute; reflexivity..]. Qed.
Lemma coding_named : named_as (str "transfer-encoding") (str "transfer-encoding").
Proof. split_and!; [discriminate|decided|decided|vm_compute; reflexivity..]. Qed.
Lemma type_named : named_as n_content_type (str "content-type").
Proof. split_and!; [discriminate|decided|decided|vm_compute; reflexivity..]. Qed.

Lemma connection_plain opts : Forall plain_field (connection_fields opts).
Proof.
  unfold connection_fields. destruct (op_close opts); [|done]. repeat constructor; cbn [fst snd]; try discriminate; try (vm_compute; reflexivity); decided.
Qed.

Lemma message_of_wf date opts gs a :
  wf a -> tidy a -> sendable a -> no_lf date -> TrimOws date = date -> Forall plain_field gs ->
  message_wf (message_of date opts gs a).
Proof.
  intros Hw Ht (Hc & H204 & H304 & Hr & Htr & Hf & Hmem) Hd Htd Hg. unfold message_of.
  pose proof Hw as (_ & Hlen & _ & _ & _ & Hb & Hrd & _ & Hsz).
  assert (Hadded : Forall plain_field (missing_fields a gs ++ connection_fields opts)).
  { apply Forall_app. split; [|apply connection_plain]. apply Forall_forall. intros g Hin. rewrite Forall_forall in Hg. apply Hg.
    apply list_elem_of_In in Hin. apply list_elem_of_In. by apply filter_In in Hin as [? _]. }
  assert (Hfields : Forall plain_field ((str "date", date) :: a_fields a)) by (constructor; [by apply date_plain|done]).
  destruct (has_body (a_body a)) eqn:Eb; (split; [done|]); (split; [done|]); (split; [done|]); (split; [done|]); (split; [done|]); (split; [done|]).
  - split; [|split; [|split]].
    + unfold kept_fields. cbn [ms_fields ms_middle ms_after]. apply Forall_app. split; [done|]. apply Forall_app. split; [|done].
      unfold names_fields. destruct (has_trailers a) eqn:Eh; [|done]. destruct (op_addTrailerHeader opts); [|done]. constructor; [by apply names_plain|done].
    + intros name ct [= <- <-]. split; [apply type_named|]. destruct (proj1 Ht Eb) as [E1 E2].
      assert (Hty : type_ok (body_type (a_body a))) by (unfold body_wf in Hb; destruct (a_body a); tauto || done).
      destruct Hty as [Hl Hall]. split; [|done]. eapply Forall_impl; [exact Hall|]. by intros b (_ & _ & ?).
    + cbn [ms_framing ms_payload]. destruct (has_trailers a); [apply coding_named|apply length_named].
    + cbn [ms_payload]. assert (Hne : body_data (a_body a) <> []) by (unfold body_wf in Hb; destruct (a_body a); tauto || done).
      destruct (has_trailers a); cbn [payload_wf].
      * split; [constructor; [split; [done|split; [constructor|by left]]|done]|]. apply Forall_map. eapply Forall_impl; [exact Hrd|].
        intros [k v] (H1 & _ & _ & H4 & H5). cbn [fst snd] in *. unfold field_text. cbn [fst snd]. split; [|by destruct k].
        apply Forall_app. split; [done|]. apply Forall_app. split; [by repeat constructor|done].
      * unfold zlen. apply decimal_read. unfold size_ok, zlen in Hsz. lia.
  - split; [|split; [|split]].
    + unfold kept_fields. cbn [ms_fields ms_middle ms_after]. rewrite app_nil_r. by apply Forall_app.
    + done.
    + apply length_named.
    + vm_compute. reflexivity.
Qed.

(** ** The date *)

Lemma write2_printed v l : write2 v = Some l -> no_lf l.
Proof.
  unfold write2. destruct (_ && _) eqn:E; [|done]. intros [= <-]. apply andb_true_iff in E as [E1%Z.leb_le E2%Z.ltb_lt].
  repeat constructor; zlia.
Qed.

Lemma write4_printed v l : write4 v = Some l -> no_lf l.
Proof.
  unfold write4. intros E. destruct (write2 (u32 (Z.quot v 100))) as [hi|] eqn:Ehi; [|done]. cbn [mbind option_bind] in E.
  destruct (write2 (u32 (Z.rem v 100))) as [lo|] eqn:Elo; [|done]. injection E as <-. apply Forall_app. split; by eapply write2_printed.
Qed.

Definition printed_name (l : bytes) : bool :=
  forallb (fun b => negb (b =? 10)) l && negb (isWhitespace (byte_at l 0)) && negb (bool_decide (l = [])).

Lemma name_printed names i l : forallb printed_name names = true -> names !! i = Some l -> no_lf l /\ exists c r, l = c :: r /\ isWhitespace c = false.
Proof.
  intros H E. rewrite forallb_forall in H. specialize (H l). apply list_elem_of_lookup_2 in E. apply list_elem_of_In in E. specialize (H E).
  unfold printed_name in H. apply andb_true_iff in H as [H Hne]. apply andb_true_iff in H as [H1 H2]. split.
  - apply Forall_forall. intros b Hb. rewrite forallb_forall in H1. apply list_elem_of_In, H1, negb_true_iff, Z.eqb_neq in Hb. done.
  - destruct l as [|c r]; [done|]. exists c, r. split; [done|]. by apply negb_true_iff in H2.
Qed.

Definition ends_in (z : Z) (l : bytes) : Prop := exists w, l = w ++ [z].
Lemma ends_here z : ends_in z [z].
Proof. by exists []. Qed.
Lemma ends_cons z c l : ends_in z l -> ends_in z (c :: l).
Proof. intros [w ->]. by exists (c :: w). Qed.
Lemma ends_app z a l : ends_in z l -> ends_in z (a ++ l).
Proof. intros [w ->]. exists (a ++ w). by rewrite app_assoc. Qed.
Lemma last_ends z l : ends_in z l -> List.last l 0 = z.
Proof. intros [w ->]. apply last_last. Qed.

Lemma date_line tp date : TimeToStringRFC7231 tp = Some date -> no_lf date /\ TrimOws date = date.
Proof.
  unfold TimeToStringRFC7231. destruct (civil_from_days _) as [[y m] d]. intros E.
  repeat match type of E with (mbind _ ?o = _) => destruct o eqn:?; [cbn [mbind option_bind] in E|done] end.
  injection E as <-.
  match goal with H : kWeekdays !! _ = Some _ |- _ => apply name_printed in H as (Hwd & c & r & Ewd & Hc); [|vm_compute; reflexivity] end.
  match goal with H : kMonths !! _ = Some _ |- _ => apply name_printed in H as (Hmon & _); [|vm_compute; reflexivity] end.
  match goal with H : write4 _ = Some _ |- _ => apply write4_printed in H end.
  repeat match goal with H : write2 _ = Some _ |- _ => apply write2_printed in H end. split.
  - repeat first [done | apply Forall_app; split | constructor].
  - rewrite Ewd. apply solid_trimmed. eexists c, _. split; [reflexivity|]. split; [exact Hc|].
    rewrite (last_ends 84); [done|]. repeat first [apply ends_here | apply ends_app | apply ends_cons].
Qed.

(** ** The theorem *)

Definition received_fields (date : bytes) (opts : Options) (gs : list field) (a : Response) : list field :=
  (str "date", date) :: a_fields a ++ names_fields opts a ++ missing_fields a gs ++ connection_fields opts.
Definition received_body (a : Response) : option (bytes * bytes) :=
  if has_body (a_body a) then Some (body_data (a_body a), body_type (a_body a)) else None.

Lemma message_received date opts gs a :
  wf a -> sendable a ->
  let m := message_of date opts gs a in
  received m = MkResponse (a_code a) (a_reason a) (received_fields date opts gs a) (received_body a)
  /\ keeps_alive m = negb (fst (connection_seen (received_fields date opts gs a))).
Proof.
  intros Hw (_ & _ & _ & _ & _ & _ & Hmem) m. subst m. unfold received, keeps_alive, received_fields, received_body, message_of.
  destruct (has_body (a_body a)) eqn:Eb.
  - split; [|done]. f_equal. unfold message_body, message_type. cbn [ms_payload ms_type option_map default snd type_field].
    assert (Hne : body_data (a_body a) <> []).
    { destruct Hw as (_ & _ & _ & _ & _ & Hb & _). unfold body_wf in Hb. destruct (a_body a); tauto || done. }
    destruct (has_trailers a); [unfold chunks_data; cbn [map concat ck_data]; rewrite app_nil_r|]; by rewrite bool_decide_false.
  - unfold names_fields. assert (Et : has_trailers a = false) by (unfold has_trailers; rewrite (has_trailers_body a Hw Eb); done).
    rewrite Et. unfold kept_fields. cbn [ms_fields ms_middle ms_after andb]. by rewrite !app_nil_r.
Qed.

(** C8: A response built by a history of operations, and sent over HTTP/1.1, is received by the
    client as the history describes it, however the transport cuts the bytes and whatever
    follows them: status, reason, the date, its headers, the names of its trailers, the headers
    of the server that it does not have, and its body with its content type, sent with its
    length or as a chunk with trailers; exactly the bytes of the response are consumed and the
    connection is kept unless the library said close.  The history is one of
    [message_refines_response] (no reserved header is set) and its response is [sendable]: a final
    status other than 204 and 304, a reason and values in one line, no content coding, no file. *)
Theorem server_response_received garbage st ops tp opts gs min :
  start_ok st -> history_ok ops (start_reply st) -> - 2 ^ 63 <= tp < 2 ^ 63 ->
  globals_ok (map field_text gs) -> Forall plain_field gs ->
  op_httpRequest opts = false -> op_headMethod opts = false -> op_streamingBody opts = false ->
  let a := fst (apply_ops ops (start_reply st)) in
  sendable a ->
  exists m0 m date p, build garbage st = Some (Returns m0)
    /\ run garbage ops m0 = Some (m, snd (apply_ops ops (start_reply st)))
    /\ TimeToStringRFC7231 tp = Some date
    /\ finalizeForHttp1 garbage tp HTTP_1_1 opts (map field_text gs) min m = Some p
    /\ forall decompress maxResponseBytes reads rest,
         concat reads = sent p ++ rest -> zlen (sent p) <= maxResponseBytes < 2 ^ 64 ->
         exists q, exchange decompress reads [] maxResponseBytes (parser_reset false) new_response
                   = Some (SComplete, q, MkResponse (a_code a) (a_reason a) (received_fields date opts gs a) (received_body a))
           /\ rp_pos q = length (sent p)
           /\ rp_keepAlive q = negb (fst (connection_seen (received_fields date opts gs a))).
Proof.
  intros Hc Hok Htp Hg Hgs Ha Hh Hs a Hsend. destruct (build_repr garbage st Hc) as (m0 & E0 & HR0).
  destruct (run_refines garbage no_options ops m0 _ HR0 Hok) as (m & E & HR). fold a in HR.
  destruct (finalized_repr garbage no_options opts HTTP_1_1 (map field_text gs) m a tp min HR Htp Hg Ha) as (date & p & Ed & Ef & Es & _).
  exists m0, m, date, p. do 4 (split; [done|]). intros decompress max reads rest Er Hz.
  assert (Hw : wf a) by (destruct HR as (_ & _ & _ & _ & _ & Hw); exact Hw).
  assert (Ht : tidy a) by (apply history_tidy; [by apply start_tidy|done]).
  destruct (date_line tp date Ed) as [Hd1 Hd2]. change (op_prepared no_options) with false in Es. rewrite wire_message in Es by done.
  destruct (message_received date opts gs a Hw Hsend) as [Erc Ek]. rewrite Es in *. rewrite <- Erc, <- Ek. eapply response_received; [|done|done].
  by apply message_of_wf.
Qed.

Definition sample_fields : list field := [(str "server", str "aeronet"); (str "vary", str "*")].

Lemma server_response_received_witness :
  let a := fst (apply_ops sample_history (start_reply sample_start)) in
  start_ok sample_start /\ history_ok sample_history (start_reply sample_start) /\ globals_ok (map field_text sample_fields) /\ sendable a
  /\ (exists m0 m date p, build 0 sample_start = Some (Returns m0)
    /\ run 0 sample_history m0 = Some (m, snd (apply_ops sample_history (start_reply sample_start)))
    /\ TimeToStringRFC7231 784111777000000000 = Some date
    /\ finalizeForHttp1 0 784111777000000000 HTTP_1_1 sample_options (map field_text sample_fields) 4096 m = Some p
    /\ forall decompress maxResponseBytes reads rest,
         concat reads = sent p ++ rest -> zlen (sent p) <= maxResponseBytes < 2 ^ 64 ->
         exists q, exchange decompress reads [] maxResponseBytes (parser_reset false) new_response
                   = Some (SComplete, q, MkResponse 404 [] (received_fields date sample_options sample_fields a)
                                           (Some (str "hello world!", str "text/html")))
           /\ rp_pos q = length (sent p)
           /\ rp_keepAlive q = negb (fst (connection_seen (received_fields date sample_options sample_fields a))))
  /\ received_fields (str "Sun, 06 Nov 1994 08:49:37 GMT") sample_options sample_fields a
     = [(str "date", str "Sun, 06 Nov 1994 08:49:37 GMT"); (str "Vary", str "accept, origin"); (str "trailer", str "X-Sum");
        (str "server", str "aeronet"); (str "connection", str "close")].
Proof.
  intros a. destruct sample_ok as [Hst Hok].
  assert (Hg : globals_ok (map field_text sample_fields)).
  { split; [vm_compute; lia|]. split; [|split; [done|repeat constructor]]. repeat constructor; vm_compute; intuition discriminate. }
  assert (Hp : forall fs, bool_decide (Forall (fun f => field_wf f) fs) = true ->
            forallb (fun f => negb (framing_name (fst f)) && negb (CaseInsensitiveEqual (fst f) (str "content-encoding"))) fs = true ->
            Forall plain_field fs).
  { intros fs H1%bool_decide_eq_true_1 H2. rewrite forallb_forall in H2. rewrite Forall_forall in H1 |- *. intros f Hf. split; [by apply H1|].
    apply list_elem_of_In, H2, andb_true_iff in Hf as [? ?]. split; by apply negb_true_iff. }
  assert (Hsend : sendable a).
  { split; [vm_compute; split; discriminate|]. split; [vm_compute; discriminate|]. split; [vm_compute; discriminate|]. split; [vm_compute; constructor|].
    split; [vm_compute; reflexivity|]. split; [|vm_compute; exact I]. apply Hp; vm_compute; reflexivity. }
  do 4 (split; [done|]). split; [|vm_compute; reflexivity].
  apply (server_response_received 0 sample_start sample_history 784111777000000000 sample_options sample_fields 4096); try done.
  apply Hp; vm_compute; reflexivity.
Defined.

(** Outside of these conditions: a body given to a 204 response is sent after its head, where the
    client does not read it. *)
Definition sent_204 : bytes :=
  match build 0 (StartBody 204 (str "hi") (str "text/plain")) with
  | Some (Returns m) =>
      match finalizeForHttp1 0 784111777000000000 HTTP_1_1 sample_options [] 4096 m with Some p => sent p | None => [] end
  | _ => []
  end.

Lemma no_content_body_unread :
  drop (length sent_204 - 2) sent_204 = str "hi"
  /\ option_map (fun r => match r with (s, q, resp) => (s, rp_pos q, rs_body resp) end)
       (exchange None [sent_204] [] 4096 (parser_reset false) new_response)
     = Some (SComplete, (length sent_204 - 2)%nat, None).
Proof. split; vm_compute; reflexivity. Qed.
