(* ===== verification/StaticRanges.v ===== *)
(** Byte ranges of static files (http/src/static-file-handler.cpp): the Range header, the ranges
    it selects in a file, the header and the multipart body of a partial answer.

    Sizes are [std::size_t]: integers below 2^64, with [u64] where the code adds. *)

From S2P Require Import Prelude.
From stdpp Require Import sorting.
From S2P Require Import AsciiCase.
From S2P Require Import HeadersView.
From S2P Require Import UrlCodec.
From S2P Require Import Cors.
From S2P Require Import Http1Request.
From S2P Require Import Http1Body.
From S2P Require Import HttpMessage.
From S2P Require Import HttpFinalize.
Local Open Scope Z_scope.

(** ** Sizes *)

Definition kInvalidSize : Z := 2 ^ 64 - 1.
Definition ParseSize (token : bytes) : Z := default kInvalidSize (from_chars_size token).

(** ** One range *)

Inductive RangeSelection :=
| Valid (offset length : Z)
| Invalid
| Unsatisfiable.

Definition ParseSingleRangeSpec (spec : bytes) (fileSize : Z) : RangeSelection :=
  let spec := TrimOws spec in
  if bool_decide (spec = []) then Invalid
  else
    match memchr_pos 45 spec with
    | None => Invalid
    | Some dashPos =>
        let firstPart := TrimOws (take dashPos spec) in
        let secondPart := TrimOws (drop (dashPos + 1) spec) in
        if fileSize =? 0 then Unsatisfiable
        else if bool_decide (firstPart = []) then
          let suffixLen := ParseSize secondPart in
          if (suffixLen =? kInvalidSize) || (suffixLen =? 0) then Invalid
          else let len := Z.min suffixLen fileSize in Valid (fileSize - len) len
        else
          let firstValue := ParseSize firstPart in
          if firstValue =? kInvalidSize then Invalid
          else if fileSize <=? firstValue then Unsatisfiable
          else if bool_decide (secondPart = []) then Valid firstValue (fileSize - firstValue)
          else
            let secondValue := ParseSize secondPart in
            if secondValue =? kInvalidSize then Invalid
            else if secondValue <? firstValue then Unsatisfiable
            else
              let endInclusive := Z.min secondValue (fileSize - 1) in
              Valid firstValue (endInclusive - firstValue + 1)
    end.

(** ** Several ranges *)

(** [std::ranges::sort] by offset; it may order ranges with the same offset in any way. *)
Abbreviation range := (Z * Z)%type.
Definition by_offset (a b : range) : Prop := fst a <= fst b.
#[export] Instance by_offset_dec a b : Decision (by_offset a b).
Proof. unfold by_offset. apply _. Defined.

(** The walk over the sorted ranges; [cur] is the one at [outIdx]. *)
Fixpoint coalesce (cur : range) (rs : list range) : list range :=
  match rs with
  | [] => [cur]
  | r :: rs =>
      let curEnd := u64 (fst cur + snd cur) in
      if fst r <=? curEnd then
        let newEnd := Z.max curEnd (u64 (fst r + snd r)) in
        coalesce (fst cur, u64 (newEnd - fst cur)) rs
      else cur :: coalesce r rs
  end.

Definition SortAndCoalesceRanges (ranges : list range) : list range :=
  if (length ranges <=? 1)%nat then ranges
  else match merge_sort by_offset ranges with [] => [] | cur :: rs => coalesce cur rs end.

Inductive MultiRangeResult :=
| RangesNone
| SingleValid (r : range)
| MultiValid (rs : list range)
| RangesInvalid
| RangesUnsatisfiable.

Definition kBytesEqual : bytes := str "bytes=".

(** The comma-separated specs from the [rangeCount]th on: [None] is an invalid header. *)
Fixpoint range_loop (fuel : nat) (raw : bytes) (fileSize maxRanges rangeCount : Z) (satisfiable : list range)
  : option (list range) :=
  match fuel with
  | O => None
  | S fuel =>
      if bool_decide (raw = []) then Some satisfiable
      else
        let commaPos := memchr_pos 44 raw in
        let spec := match commaPos with None => raw | Some p => take p raw end in
        let rangeCount := rangeCount + 1 in
        if (0 <? maxRanges) && (maxRanges <? rangeCount) then None
        else
          let next := fun satisfiable =>
            match commaPos with
            | None => Some satisfiable
            | Some p => range_loop fuel (drop (p + 1) raw) fileSize maxRanges rangeCount satisfiable
            end in
          match ParseSingleRangeSpec spec fileSize with
          | Invalid => None
          | Valid offset length => next (satisfiable ++ [(offset, length)])
          | Unsatisfiable => next satisfiable
          end
  end.

Definition ParseRanges (raw : bytes) (fileSize maxRanges : Z) : MultiRangeResult :=
  let raw := TrimOws raw in
  if bool_decide (raw = []) then RangesNone
  else if negb (CaseInsensitiveEqual (take (length kBytesEqual) raw) kBytesEqual) then RangesInvalid
  else
    let raw := TrimOws (drop (length kBytesEqual) raw) in
    if bool_decide (raw = []) then RangesInvalid
    else
      match range_loop (S (length raw)) raw fileSize maxRanges 0 [] with
      | None => RangesInvalid
      | Some [] => RangesUnsatisfiable
      | Some satisfiable =>
          match SortAndCoalesceRanges satisfiable with
          | [r] => SingleValid r
          | rs => MultiValid rs
          end
      end.

(** ** The header of a range *)

Definition kBytesPrefixStr : bytes := str "bytes ".
Definition kMaxRangeHeaderLen : Z := zlen kBytesPrefixStr + 3 * (19 + 1) + 2.
Definition BuildRangeHeader (start length total : Z) : bytes :=
  kBytesPrefixStr ++ decimal start ++ [45] ++ decimal (u64 (u64 (start + length) - 1)) ++ [47] ++ decimal total.

Definition kUnsatisfiedRangePrefixStr : bytes := str "bytes */".
Definition kMaxUnsatisfiedRangeHeaderLen : Z := zlen kUnsatisfiedRangePrefixStr + 19 + 1.
Definition BuildUnsatisfiedRangeHeader (total : Z) : bytes := kUnsatisfiedRangePrefixStr ++ decimal total.

(** ** Multipart bodies *)

Definition kBoundarySize : Z := 24.
Definition kAeronetPrefix : bytes := str "aeronet".

(** The boundary made from a random number. *)
Definition GenerateBoundary (val : Z) : bytes :=
  kAeronetPrefix ++ repeat 48 (Z.to_nat kBoundarySize - length kAeronetPrefix - hex_digits val) ++ to_lower_hex val.

Fixpoint estimate_loop (ranges : list range) (perPartOverhead maxBodySize total : Z) : Z :=
  match ranges with
  | [] => total
  | r :: ranges =>
      let total := u64 (total + u64 (perPartOverhead + snd r)) in
      if maxBodySize <? total then kInvalidSize else estimate_loop ranges perPartOverhead maxBodySize total
  end.
Definition EstimateMultipartBodySize (ranges : list range) (contentType : bytes) (maxBodySize : Z) : Z :=
  let perPartOverhead := u64 (4 + kBoundarySize + 16 + zlen contentType + 17 + 80 + 4) in
  estimate_loop ranges perPartOverhead maxBodySize (4 + kBoundarySize + 4).

Definition kContentTypeHeaderPrefix : bytes := str "multipart/byteranges; boundary=".
Definition kBoundaryPrefix : bytes := CRLF ++ str "--".
Definition kBoundarySuffix : bytes := str "--" ++ CRLF.
Definition kContentTypeHeader : bytes := CRLF ++ str "Content-Type: ".
Definition kContentRangeHeader : bytes := CRLF ++ str "Content-Range: ".

(** The room that the body is given. *)
Definition multipart_needed (ranges : list range) (contentType : bytes) : Z :=
  foldl (fun n r =>
           n + kBoundarySize + (zlen kContentTypeHeader + zlen contentType)
           + (zlen kContentRangeHeader + kMaxRangeHeaderLen + zlen DoubleCRLF) + snd r + zlen kBoundaryPrefix)
    (zlen kBoundaryPrefix) ranges + (kBoundarySize + zlen kBoundarySuffix).

Section Multipart.
(** [readAt length offset]: [None] is an error; fewer bytes come at the end of the file. *)
Context (readAt : Z -> Z -> option bytes).

(** The writer, from the boundary of the next part on: [None] is a failed read. *)
Fixpoint multipart_parts (boundary contentType : bytes) (fileSize : Z) (ranges : list range) (pData : bytes) : option bytes :=
  match ranges with
  | [] => Some (pData ++ boundary ++ kBoundarySuffix)
  | (offset, length) :: ranges =>
      let pData := pData ++ boundary ++ kContentTypeHeader ++ contentType ++ kContentRangeHeader
                   ++ BuildRangeHeader offset length fileSize ++ DoubleCRLF in
      match readAt length offset with
      | Some data =>
          if negb (zlen data =? length) then None
          else multipart_parts boundary contentType fileSize ranges (pData ++ data ++ kBoundaryPrefix)
      | None => None
      end
  end.
Definition multipart_text (boundary contentType : bytes) (fileSize : Z) (ranges : list range) : option bytes :=
  multipart_parts boundary contentType fileSize ranges kBoundaryPrefix.
End Multipart.

(** ** Entity tags *)

Definition EtagTokenMatches (token etag : bytes) : bool :=
  let token := TrimOws token in
  if bool_decide (token = []) then false
  else if bool_decide (token = str "*") then true
  else if (2 <? length token)%nat && bool_decide (take 2 token = str "W/") then false
  else bool_decide (token = etag).

Fixpoint etag_loop (fuel : nat) (headerValue etag : bytes) : bool :=
  match fuel with
  | O => false
  | S fuel =>
      if bool_decide (headerValue = []) then false
      else
        let commaPos := memchr_pos 44 headerValue in
        let token := match commaPos with None => headerValue | Some p => take p headerValue end in
        if EtagTokenMatches token etag then true
        else match commaPos with None => false | Some p => etag_loop fuel (drop (p + 1) headerValue) etag end
  end.
Definition EtagListMatches (headerValue etag : bytes) : bool :=
  let headerValue := TrimOws headerValue in
  if bool_decide (headerValue = str "*") then true else etag_loop (S (length headerValue)) headerValue etag.

(** The digits from the most significant nibble. *)
Fixpoint hex_count (fuel : nat) (tmp : Z) : nat :=
  match fuel with O => 0%nat | S fuel => if tmp =? 0 then 0%nat else S (hex_count fuel (Z.shiftr tmp 4)) end.
Definition write_hex_direct (value : Z) : bytes :=
  if value =? 0 then [48]
  else map (fun pos => hexit 97 (Z.land (Z.shiftr value (Z.of_nat pos * 4)) 15)) (rev (seq 0 (hex_count 16 value))).

Definition MakeStrongEtag (fileSize lastModified : Z) : bytes :=
  [34] ++ write_hex_direct fileSize ++ [45] ++ write_hex_direct (u64 lastModified) ++ [34].
