(* ===== verification/StaticRangesProofs.v ===== *)
(** The ranges of an answer are within the file, apart from each other, and cover exactly the
    bytes that the header asks for; multipart bodies fit in the room they are given. *)

From S2P Require Import Prelude.
From stdpp Require Import sorting.
From S2P Require Import AsciiCase.
From S2P Require Import HeadersView.
From S2P Require Import UrlCodec.
From S2P Require Import Cors.
From S2P Require Import Http1Request.
From S2P Require Import Http1Body.
From S2P Require Import RoutePattern.
From S2P Require Import RoutePatternProofs.
From S2P Require Import ResponseParser.
From S2P Require Import ResponseParserProofs.
From S2P Require Import HttpMessage.
From S2P Require Import HttpMessageSpec.
From S2P Require Import HttpMessageRepr.
From S2P Require Import TimeString.
From S2P Require Import RawChars.
From S2P Require Import Hpack.
From S2P Require Import HttpFinalize.
From S2P Require Import HttpFinalizeSpec.
From S2P Require Import StaticRanges.
Local Open Scope Z_scope.

(** ** Sets of bytes *)

(** A non-empty range of a file of that size. *)
Definition range_ok (fileSize : Z) (r : range) : Prop := 0 <= fst r /\ 0 < snd r /\ fst r + snd r <= fileSize.
Definition in_range (i : Z) (r : range) : Prop := fst r <= i < fst r + snd r.
Definition covered (rs : list range) (i : Z) : Prop := Exists (in_range i) rs.

(** In order, with at least one byte between two of them. *)
Fixpoint separated (rs : list range) : Prop :=
  match rs with
  | r :: (r' :: _) as tl => fst r + snd r < fst r' /\ separated tl
  | _ => True
  end.

Lemma separated_tail r rs : separated (r :: rs) -> separated rs.
Proof. destruct rs; [done|]. by intros [_ ?]. Qed.

Lemma separated_after fileSize r rs i :
  Forall (range_ok fileSize) (r :: rs) -> separated (r :: rs) -> covered rs i -> fst r + snd r < i.
Proof.
  revert r. induction rs as [|r' rs IH]; intros r Hok Hs Hc; [by apply Exists_nil in Hc|].
  destruct Hs as [Hlt Hs]. apply Forall_cons in Hok as [_ Hok]. pose proof Hok as [(H1 & H2 & H3) _]%Forall_cons.
  apply Exists_cons in Hc as [Hc|Hc]; [destruct Hc; lia|]. specialize (IH r' Hok Hs Hc). lia.
Qed.

(** The ranges are determined by the bytes they cover. *)
Lemma separated_unique fileSize rs rs' :
  Forall (range_ok fileSize) rs -> Forall (range_ok fileSize) rs' -> separated rs -> separated rs' ->
  (forall i, covered rs i <-> covered rs' i) -> rs = rs'.
Proof.
  revert rs'. induction rs as [|r rs IH]; intros rs' Hok Hok' Hs Hs' Hc.
  - destruct rs' as [|r' rs']; [done|]. exfalso. pose proof Hok' as [(H1 & H2 & H3) _]%Forall_cons.
    assert (H : covered (r' :: rs') (fst r')) by (apply Exists_cons; left; unfold in_range; lia). apply Hc in H. by apply Exists_nil in H.
  - pose proof Hok as [(H1 & H2 & H3) Hok1]%Forall_cons. destruct rs' as [|r' rs'].
    { exfalso. assert (H : covered (r :: rs) (fst r)) by (apply Exists_cons; left; unfold in_range; lia). apply Hc in H. by apply Exists_nil in H. }
    pose proof Hok' as [(H1' & H2' & H3') Hok1']%Forall_cons.
    assert (Hin : forall a l i, covered (a :: l) i <-> in_range i a \/ covered l i) by (intros; apply Exists_cons).
    assert (Hf : fst r = fst r').
    { assert (A : covered (r' :: rs') (fst r)) by (apply Hc, Hin; left; unfold in_range; lia).
      assert (B : covered (r :: rs) (fst r')) by (apply Hc, Hin; left; unfold in_range; lia).
      apply Hin in A, B.
      destruct A as [A|A]; [|apply (separated_after fileSize r') in A; [|done|done]];
      (destruct B as [B|B]; [|apply (separated_after fileSize r) in B; [|done|done]]); unfold in_range in *; lia. }
    assert (Hl : snd r = snd r').
    { assert (A : covered (r :: rs) (fst r' + snd r') <-> covered (r' :: rs') (fst r' + snd r')) by apply Hc.
      assert (B : covered (r :: rs) (fst r + snd r) <-> covered (r' :: rs') (fst r + snd r)) by apply Hc.
      rewrite !Hin in A, B.
      assert (N : ~ covered rs (fst r + snd r)) by (intros H; apply (separated_after fileSize r) in H; [lia|done|done]).
      assert (N' : ~ covered rs' (fst r' + snd r')) by (intros H; apply (separated_after fileSize r') in H; [lia|done|done]).
      destruct (Z.lt_trichotomy (snd r) (snd r')) as [Hlt|[?|Hlt]]; [|done|]; exfalso.
      - destruct B as [_ B]. destruct B as [B|B]; [left; unfold in_range; lia|unfold in_range in B; lia|done].
      - destruct A as [A _]. destruct A as [A|A]; [left; unfold in_range; lia|unfold in_range in A; lia|done]. }
    assert (r = r') as <- by (destruct r, r'; cbn in *; congruence). f_equal.
    apply IH; [done|done|by eapply separated_tail|by eapply separated_tail|]. intros i.
    split; intros H; pose proof H as Hi; apply (separated_after fileSize r) in Hi; try done.
    + assert (A : covered (r :: rs') i) by (apply Hc, Hin; by right). apply Hin in A as [A|A]; [unfold in_range in A; lia|done].
    + assert (A : covered (r :: rs) i) by (apply Hc, Hin; by right). apply Hin in A as [A|A]; [unfold in_range in A; lia|done].
Qed.

(** ** Sorting and merging *)

Section Coalesce.
Context (fileSize : Z) (Hsize : fileSize < 2 ^ 64).

Lemma coalesce_ok cur rs :
  range_ok fileSize cur -> Forall (range_ok fileSize) rs -> Forall (by_offset cur) rs -> StronglySorted by_offset rs ->
  Forall (range_ok fileSize) (coalesce cur rs) /\ separated (coalesce cur rs)
  /\ (forall i, covered (coalesce cur rs) i <-> covered (cur :: rs) i)
  /\ exists l tl, coalesce cur rs = (fst cur, l) :: tl.
Proof.
  revert cur. induction rs as [|r rs IH]; intros cur Hc Hok Hle Hs.
  { cbn [coalesce]. split; [by constructor|]. split; [done|]. split; [done|]. exists (snd cur), []. by destruct cur. }
  apply Forall_cons in Hok as [Hr Hok]. apply Forall_cons in Hle as [Hcr Hle]. apply StronglySorted_inv in Hs as [Hs Hrs].
  destruct Hc as (C1 & C2 & C3), Hr as (R1 & R2 & R3). unfold by_offset in Hcr. cbn [coalesce].
  rewrite (u64_id (fst cur + snd cur)), (u64_id (fst r + snd r)) by lia. destruct (Z.leb_spec (fst r) (fst cur + snd cur)) as [Hm|Hm].
  - rewrite u64_id by lia. set (cur' := (fst cur, Z.max (fst cur + snd cur) (fst r + snd r) - fst cur)).
    destruct (IH cur') as (A & B & C & l & tl & D); [unfold range_ok; cbn; lia|done|exact Hle|done|].
    split; [done|]. split; [done|]. split; [|by exists l, tl]. intros i. rewrite C. unfold covered. rewrite !Exists_cons.
    unfold in_range. cbn [fst snd cur']. split; [intros [H|H]; [|tauto]|intros [H|[H|H]]; [left; lia|left; lia|tauto]].
    destruct (Z.lt_ge_cases i (fst cur + snd cur)); [left; lia|right; left; lia].
  - destruct (IH r) as (A & B & C & l & tl & D); [done|done|done|done|]. split; [by constructor|]. split.
    + rewrite D in *. cbn [separated] in *. split; [cbn; lia|done].
    + split; [|by eexists _, _; rewrite <- surjective_pairing]. intros i. unfold covered in *. rewrite Exists_cons, C, (Exists_cons _ cur). done.
Qed.

(** Whatever order the sort leaves ranges of the same offset in. *)
Lemma sorted_coalesce_ok rs sorted cur tl :
  Forall (range_ok fileSize) rs -> sorted = cur :: tl -> sorted ≡ₚ rs -> StronglySorted by_offset sorted ->
  Forall (range_ok fileSize) (coalesce cur tl) /\ separated (coalesce cur tl)
  /\ (forall i, covered (coalesce cur tl) i <-> covered rs i).
Proof.
  intros Hok -> Hp Hs. assert (Hok' : Forall (range_ok fileSize) (cur :: tl)) by by rewrite Hp.
  apply Forall_cons in Hok' as [Hc Hok']. apply StronglySorted_inv in Hs as [Hs Hle].
  destruct (coalesce_ok cur tl Hc Hok' Hle Hs) as (A & B & C & _). split; [done|]. split; [done|].
  intros i. rewrite C. unfold covered. by rewrite Hp.
Qed.

#[local] Instance by_offset_trans : Transitive by_offset.
Proof. intros a b c. unfold by_offset. lia. Qed.
#[local] Instance by_offset_total : Total by_offset.
Proof. intros a b. unfold by_offset. lia. Qed.

Lemma coalesced rs :
  Forall (range_ok fileSize) rs ->
  let out := SortAndCoalesceRanges rs in
  Forall (range_ok fileSize) out /\ separated out /\ (forall i, covered out i <-> covered rs i) /\ (rs <> [] -> out <> [])
  /\ (length out <= length rs)%nat.
Proof.
  intros Hok out. subst out. unfold SortAndCoalesceRanges. destruct (Nat.leb_spec (length rs) 1) as [Hl|Hl].
  { destruct rs as [|r [|r' rs]]; cbn in Hl; [done|done|lia]. }
  pose proof (merge_sort_Permutation by_offset rs) as Hp. pose proof (StronglySorted_merge_sort by_offset rs) as Hs.
  destruct (merge_sort by_offset rs) as [|cur tl] eqn:E.
  { apply Permutation_length in Hp. cbn in Hp. lia. }
  destruct (sorted_coalesce_ok rs _ cur tl Hok eq_refl Hp Hs) as (A & B & C). split; [done|]. split; [done|]. split; [done|].
  split.
  - intros _ Hn. assert (Hc : covered rs (fst cur)); [|apply C in Hc; rewrite Hn in Hc; by apply Exists_nil in Hc].
    assert (Hok' : Forall (range_ok fileSize) (cur :: tl)) by by rewrite Hp.
    apply Forall_inv in Hok' as (? & ? & ?). unfold covered. rewrite <- Hp. apply Exists_cons. left. unfold in_range. lia.
  - apply Permutation_length in Hp. rewrite <- Hp. clear. revert cur. induction tl as [|r tl IH]; intros cur; [done|]. cbn [coalesce].
    destruct (_ <=? _); [specialize (IH (fst cur, u64 (Z.max (u64 (fst cur + snd cur)) (u64 (fst r + snd r)) - fst cur)))|specialize (IH r)]; cbn [length] in *; lia.
Qed.
End Coalesce.

(** ** Reading a header *)

Lemma ParseSize_nonneg token : 0 <= ParseSize token.
Proof. unfold ParseSize. destruct (from_chars_size token) as [v|] eqn:E; [by eapply from_chars_size_nonneg|done]. Qed.

Lemma single_spec_ok spec fileSize :
  0 <= fileSize -> match ParseSingleRangeSpec spec fileSize with Valid o l => range_ok fileSize (o, l) | _ => True end.
Proof.
  intros Hn. unfold ParseSingleRangeSpec, range_ok. case_bool_decide; [done|]. destruct (memchr_pos 45 _); [|done].
  set (a := ParseSize (TrimOws (take _ _))). set (b := ParseSize (TrimOws (drop _ _))).
  assert (0 <= a) by apply ParseSize_nonneg. assert (0 <= b) by apply ParseSize_nonneg.
  destruct (Z.eqb_spec fileSize 0); [done|]. case_bool_decide.
  - destruct (Z.eqb_spec b kInvalidSize), (Z.eqb_spec b 0); cbn [orb fst snd]; done || lia.
  - destruct (Z.eqb_spec a kInvalidSize); [done|]. destruct (Z.leb_spec fileSize a); [done|]. case_bool_decide; [cbn; lia|].
    destruct (Z.eqb_spec b kInvalidSize); [done|]. destruct (Z.ltb_spec b a); [done|]. cbn. lia.
Qed.

Lemma range_loop_ok fuel raw fileSize maxRanges count acc rs :
  0 <= fileSize -> Forall (range_ok fileSize) acc -> (0 < maxRanges -> zlen acc <= count) ->
  range_loop fuel raw fileSize maxRanges count acc = Some rs ->
  Forall (range_ok fileSize) rs /\ (0 < maxRanges -> count <= maxRanges -> zlen rs <= maxRanges).
Proof.
  intros Hn. revert raw count acc. induction fuel as [|fuel IH]; intros raw count acc Hacc Hz; [done|]. cbn [range_loop].
  case_bool_decide; [intros [= <-]; split; [done|lia]|].
  destruct ((0 <? maxRanges) && (maxRanges <? count + 1)) eqn:Eg; [done|].
  assert (Hmax : 0 < maxRanges -> count + 1 <= maxRanges).
  { intros Hm. apply andb_false_iff in Eg as [Eg|Eg]; [apply Z.ltb_ge in Eg; lia|by apply Z.ltb_ge in Eg]. }
  set (spec := match memchr_pos 44 raw with None => raw | Some p => take p raw end).
  pose proof (single_spec_ok spec fileSize Hn) as Hs. destruct (ParseSingleRangeSpec spec fileSize) as [o l| |]; [|done|].
  - assert (Hacc' : Forall (range_ok fileSize) (acc ++ [(o, l)])) by (apply Forall_app; split; [done|by constructor]).
    destruct (memchr_pos 44 raw).
    + intros E. apply IH in E as [A B]; [|done|rewrite zlen_app; intros Hm; specialize (Hz Hm); change (zlen [(o, l)]) with 1; lia].
      split; [done|]. intros Hm _. apply B; [done|by apply Hmax].
    + intros [= <-]. split; [done|]. intros Hm _. rewrite zlen_app. specialize (Hz Hm). specialize (Hmax Hm). change (zlen [(o, l)]) with 1. lia.
  - destruct (memchr_pos 44 raw).
    + intros E. apply IH in E as [A B]; [|done|intros Hm; specialize (Hz Hm); lia]. split; [done|]. intros Hm _. apply B; [done|by apply Hmax].
    + intros [= <-]. split; [done|]. intros Hm _. specialize (Hz Hm). specialize (Hmax Hm). lia.
Qed.

(** The ranges of a result. *)
Definition selected (r : MultiRangeResult) : list range :=
  match r with SingleValid r => [r] | MultiValid rs => rs | _ => [] end.

Lemma selected_sorted rs :
  rs <> [] ->
  let r := match SortAndCoalesceRanges rs with [r] => SingleValid r | rs => MultiValid rs end in
  selected r = SortAndCoalesceRanges rs /\ match r with RangesNone | RangesInvalid | RangesUnsatisfiable => False | _ => True end.
Proof. intros Hne. by destruct (SortAndCoalesceRanges rs) as [|? [|? ?]]. Qed.

Lemma ParseRanges_sound raw fileSize maxRanges :
  0 <= fileSize < 2 ^ 64 ->
  let rs := selected (ParseRanges raw fileSize maxRanges) in
  Forall (range_ok fileSize) rs /\ separated rs /\ (0 < maxRanges -> zlen rs <= maxRanges).
Proof.
  intros Hn rs. subst rs.
  assert (Hnil : Forall (range_ok fileSize) [] /\ separated [] /\ (0 < maxRanges -> zlen (@nil range) <= maxRanges))
    by (split; [by apply Forall_nil_2|split; [done|unfold zlen; cbn; lia]]).
  unfold ParseRanges. case_bool_decide; [done|]. destruct (negb _); [done|]. case_bool_decide; [done|].
  set (raw' := TrimOws (drop _ _)) in *. destruct (range_loop _ raw' _ _ _ _) as [[|r rs]|] eqn:E; [done| |done].
  apply range_loop_ok in E as [A B]; [|lia|done|done]. destruct (coalesced fileSize ltac:(lia) _ A) as (C & D & _ & _ & F).
  destruct (selected_sorted (r :: rs)) as [-> _]; [done|]. split; [done|]. split; [done|]. intros Hm. specialize (B Hm ltac:(lia)). unfold zlen in *. lia.
Qed.

(** ** What a header asks for *)

Inductive RangeSpec := FromTo (first last : Z) | From (first : Z) | Suffix (n : Z).

Definition spec_text (s : RangeSpec) : bytes :=
  match s with
  | FromTo a b => decimal a ++ [45] ++ decimal b
  | From a => decimal a ++ [45]
  | Suffix n => 45 :: decimal n
  end.
Definition number_ok (n : Z) : Prop := 0 <= n < 2 ^ 64 - 1.
Definition spec_ok (s : RangeSpec) : Prop :=
  match s with FromTo a b => number_ok a /\ number_ok b | From a => number_ok a | Suffix n => number_ok n /\ 0 < n end.

(** The bytes of a file of that size that are asked for. *)
Definition wanted (fileSize : Z) (s : RangeSpec) (i : Z) : Prop :=
  0 <= i < fileSize /\ match s with FromTo a b => a <= i <= b | From a => a <= i | Suffix n => fileSize - n <= i end.

Fixpoint header_specs (s : RangeSpec) (ss : list RangeSpec) : bytes :=
  spec_text s ++ match ss with [] => [] | s' :: ss => 44 :: header_specs s' ss end.
Definition header_of (s : RangeSpec) (ss : list RangeSpec) : bytes := kBytesEqual ++ header_specs s ss.

Lemma decimal_ok n :
  0 <= n < 2 ^ 64 ->
  from_chars_size (decimal n) = Some n /\ Forall (fun b => 48 <= b <= 57) (decimal n) /\ decimal n <> [].
Proof.
  intros Hn. rewrite <- (Z2Nat.id n) by lia. split; [apply decimal_read; lia|]. split; [apply decimal_digits|apply decimal_nonempty].
Qed.

Lemma ParseSize_decimal n : 0 <= n < 2 ^ 64 -> ParseSize (decimal n) = n.
Proof. intros Hn. unfold ParseSize. by rewrite (proj1 (decimal_ok n Hn)). Qed.

Definition spec_char (b : Z) : Prop := 45 <= b <= 57.
Lemma spec_char_solid b : spec_char b -> isWhitespace b = false.
Proof. unfold spec_char, isWhitespace. intros H. rewrite (proj2 (Z.eqb_neq b 32)), (proj2 (Z.eqb_neq b 9)) by lia. done. Qed.

Lemma chars_trimmed l : Forall spec_char l -> TrimOws l = l.
Proof.
  intros H. destruct l as [|c l]; [done|]. apply solid_trimmed. exists c, l. split; [done|].
  split; [apply spec_char_solid; by apply Forall_inv in H|].
  destruct (exists_last (l := c :: l)) as (w & z & E); [done|]. rewrite E in *. rewrite last_last.
  apply Forall_app in H as [_ H%Forall_inv]. by apply spec_char_solid.
Qed.

Lemma digits_chars l : Forall (fun b => 48 <= b <= 57) l -> Forall spec_char l.
Proof. intros H. eapply Forall_impl; [exact H|]. intros b. unfold spec_char. cbv beta. lia. Qed.

Lemma spec_chars s : spec_ok s -> Forall spec_char (spec_text s) /\ spec_text s <> [].
Proof.
  assert (Hd : forall n, number_ok n -> Forall spec_char (decimal n) /\ decimal n <> []).
  { intros n Hn. destruct (decimal_ok n) as (_ & H & Hne); [unfold number_ok in Hn; lia|]. split; [by apply digits_chars|done]. }
  assert (Hm : Forall spec_char [45]) by (constructor; [unfold spec_char; lia|apply Forall_nil_2]).
  destruct s as [a b|a|n]; cbn [spec_ok spec_text].
  - intros [Ha Hb]. split; [|by destruct (decimal a)]. apply Forall_app. split; [by apply Hd|]. apply Forall_app. split; [done|by apply Hd].
  - intros Ha. split; [|by destruct (decimal a)]. apply Forall_app. split; [by apply Hd|done].
  - intros [Hn _]. split; [|done]. constructor; [unfold spec_char; lia|by apply Hd].
Qed.

(** One spec selects the bytes it asks for, or there is none. *)
Lemma single_spec_exact s fileSize :
  spec_ok s -> 0 <= fileSize < 2 ^ 64 ->
  match ParseSingleRangeSpec (spec_text s) fileSize with
  | Invalid => False
  | Unsatisfiable => forall i, ~ wanted fileSize s i
  | Valid o l => forall i, in_range i (o, l) <-> wanted fileSize s i
  end.
Proof.
  intros Hs Hf. destruct (spec_chars s Hs) as [Hc Hne]. unfold ParseSingleRangeSpec. rewrite (chars_trimmed _ Hc), bool_decide_false by done.
  assert (Hpos : forall a rest, number_ok a -> memchr_pos 45 (decimal a ++ 45 :: rest) = Some (length (decimal a))
            /\ take (length (decimal a)) (decimal a ++ 45 :: rest) = decimal a /\ drop (length (decimal a) + 1) (decimal a ++ 45 :: rest) = rest).
  { intros a rest Ha. destruct (decimal_ok a) as (_ & Hd & _); [unfold number_ok in Ha; lia|]. split.
    - apply memchr_pos_app. eapply Forall_impl; [exact Hd|]. cbv beta. lia.
    - rewrite take_app_length. split; [done|]. rewrite drop_app_ge by lia. by replace (length (decimal a) + 1 - length (decimal a))%nat with 1%nat by lia. }
  assert (Htrim : forall a, number_ok a -> TrimOws (decimal a) = decimal a /\ decimal a <> [] /\ ParseSize (decimal a) = a /\ a <> kInvalidSize).
  { intros a Ha. unfold number_ok in Ha. destruct (decimal_ok a) as (_ & Hd & Hn); [lia|]. split; [by apply chars_trimmed, digits_chars|].
    split; [done|]. split; [apply ParseSize_decimal; lia|unfold kInvalidSize; lia]. }
  destruct s as [a b|a|n]; cbn [spec_ok spec_text app] in *.
  - destruct Hs as [Ha Hb]. destruct (Hpos a (decimal b) Ha) as (-> & -> & ->).
    destruct (Htrim a Ha) as (-> & Hna & -> & Ka), (Htrim b Hb) as (-> & Hnb & -> & Kb). unfold number_ok in *.
    destruct (Z.eqb_spec fileSize 0); [intros i [? _]; lia|]. rewrite bool_decide_false, (proj2 (Z.eqb_neq _ _) Ka) by done.
    destruct (Z.leb_spec fileSize a); [intros i [? ?]; lia|]. rewrite bool_decide_false, (proj2 (Z.eqb_neq _ _) Kb) by done.
    destruct (Z.ltb_spec b a); [intros i [? ?]; lia|]. intros i. unfold in_range, wanted. cbn [fst snd]. lia.
  - destruct (Hpos a [] Hs) as (-> & -> & ->). destruct (Htrim a Hs) as (-> & Hna & -> & Ka). unfold number_ok in *.
    destruct (Z.eqb_spec fileSize 0); [intros i [? _]; lia|]. rewrite bool_decide_false, (proj2 (Z.eqb_neq _ _) Ka) by done.
    destruct (Z.leb_spec fileSize a); [intros i [? ?]; lia|]. cbn [TrimOws]. rewrite bool_decide_true by done.
    intros i. unfold in_range, wanted. cbn [fst snd]. lia.
  - destruct Hs as [Hn H0]. change (memchr_pos 45 (45 :: decimal n)) with (Some 0%nat). cbv beta iota. 
    change (take 0 (45 :: decimal n)) with (@nil Z). change (drop (0 + 1)%nat (45 :: decimal n)) with (decimal n). change (TrimOws []) with (@nil Z).
    destruct (Htrim n Hn) as (-> & Hnn & -> & Kn). unfold number_ok in *.
    destruct (Z.eqb_spec fileSize 0); [intros i [? _]; lia|]. rewrite bool_decide_true, (proj2 (Z.eqb_neq _ _) Kn), (proj2 (Z.eqb_neq n 0)) by (done || lia).
    cbn [orb]. intros i. unfold in_range, wanted. cbn [fst snd]. lia.
Qed.

(** The header asks for the bytes that one of its specs asks for. *)
Definition asked (fileSize : Z) (ss : list RangeSpec) (i : Z) : Prop := Exists (fun s => wanted fileSize s i) ss.

Lemma header_specs_loop fileSize maxRanges s ss fuel count acc :
  Forall spec_ok (s :: ss) -> 0 <= fileSize < 2 ^ 64 -> (maxRanges = 0 \/ count + 1 + zlen ss <= maxRanges) ->
  (length (header_specs s ss) < fuel)%nat -> Forall (range_ok fileSize) acc ->
  exists rs, range_loop fuel (header_specs s ss) fileSize maxRanges count acc = Some rs /\ Forall (range_ok fileSize) rs
    /\ forall i, covered rs i <-> covered acc i \/ asked fileSize (s :: ss) i.
Proof.
  revert s fuel count acc. induction ss as [|s' ss IH]; intros s fuel count acc Hok Hf Hm Hfuel Hacc; apply Forall_cons in Hok as [Hs Hok];
    (destruct fuel as [|fuel]; [lia|]); destruct (spec_chars s Hs) as [Hc Hne]; cbn [range_loop header_specs] in *; rewrite bool_decide_false by (by destruct (spec_text s));
    (assert (Hg : (0 <? maxRanges) && (maxRanges <? count + 1) = false) by
       (apply andb_false_iff; destruct Hm as [->|Hm]; [by left|right; apply Z.ltb_ge; unfold zlen in Hm; cbn [length] in Hm; lia])); rewrite Hg;
    pose proof (single_spec_exact s fileSize Hs Hf) as He; pose proof (single_spec_ok (spec_text s) fileSize ltac:(lia)) as Hr;
    (assert (Hcov : forall o l i, covered (acc ++ [(o, l)]) i <-> covered acc i \/ in_range i (o, l)) by
       (intros o l i; unfold covered; rewrite Exists_app, Exists_cons, Exists_nil; tauto)).
  - rewrite app_nil_r. assert (Hn : memchr_pos 44 (spec_text s) = None).
    { apply memchr_pos_None. eapply Forall_impl; [exact Hc|]. unfold spec_char. cbv beta. lia. }
    rewrite Hn. unfold asked. destruct (ParseSingleRangeSpec (spec_text s) fileSize) as [o l| |]; [|done|]; eexists; (split; [done|]).
    + split; [apply Forall_app; split; [done|by constructor]|]. intros i. rewrite Hcov, Exists_cons, Exists_nil, <- He. tauto.
    + split; [done|]. intros i. rewrite Exists_cons, Exists_nil. specialize (He i). tauto.
  - assert (Hp : memchr_pos 44 (spec_text s ++ 44 :: header_specs s' ss) = Some (length (spec_text s))).
    { apply memchr_pos_app. eapply Forall_impl; [exact Hc|]. unfold spec_char. cbv beta. lia. }
    rewrite Hp, take_app_length.
    assert (Hd : drop (length (spec_text s) + 1) (spec_text s ++ 44 :: header_specs s' ss) = header_specs s' ss).
    { rewrite drop_app_ge by lia. by replace (length (spec_text s) + 1 - length (spec_text s))%nat with 1%nat by lia. }
    rewrite Hd. rewrite length_app in Hfuel. cbn [length] in Hfuel.
    assert (Hm' : maxRanges = 0 \/ count + 1 + 1 + zlen ss <= maxRanges) by (destruct Hm as [Hm|Hm]; [by left|right; unfold zlen in *; cbn [length] in Hm; lia]).
    unfold asked. destruct (ParseSingleRangeSpec (spec_text s) fileSize) as [o l| |]; [|done|].
    + destruct (IH s' fuel (count + 1) (acc ++ [(o, l)])) as (rs & E & A & B); [done|done|done|lia|apply Forall_app; split; [done|by constructor]|].
      exists rs. split; [done|]. split; [done|]. intros i. rewrite B, Hcov, (Exists_cons _ s), <- He. unfold asked. tauto.
    + destruct (IH s' fuel (count + 1) acc) as (rs & E & A & B); [done|done|done|lia|done|].
      exists rs. split; [done|]. split; [done|]. intros i. rewrite B, (Exists_cons _ s). specialize (He i). unfold asked. tauto.
Qed.

Lemma spec_text_last s ss : Forall spec_ok (s :: ss) -> exists w z, header_specs s ss = w ++ [z] /\ spec_char z.
Proof.
  revert s. induction ss as [|s' ss IH]; intros s Hok; apply Forall_cons in Hok as [Hs Hok]; destruct (spec_chars s Hs) as [Hc Hne]; cbn [header_specs].
  - rewrite app_nil_r. destruct (exists_last Hne) as (w & z & E). exists w, z. split; [done|]. rewrite E in Hc. by apply Forall_app in Hc as [_ Hc%Forall_inv].
  - destruct (IH s' Hok) as (w & z & -> & Hz). exists (spec_text s ++ 44 :: w), z. split; [|done]. rewrite <- app_assoc. done.
Qed.

Lemma ParseRanges_exact s ss fileSize maxRanges :
  Forall spec_ok (s :: ss) -> 0 <= fileSize < 2 ^ 64 -> (maxRanges = 0 \/ 1 + zlen ss <= maxRanges) ->
  let r := ParseRanges (header_of s ss) fileSize maxRanges in
  (forall i, covered (selected r) i <-> asked fileSize (s :: ss) i)
  /\ match r with
     | SingleValid _ | MultiValid _ => True
     | RangesUnsatisfiable => forall i, ~ asked fileSize (s :: ss) i
     | _ => False
     end.
Proof.
  intros Hok Hf Hm r. subst r. unfold ParseRanges, header_of. destruct (spec_text_last s ss Hok) as (w & z & E & Hz).
  assert (Hchar : forall c r, header_specs s ss = c :: r -> isWhitespace c = false).
  { intros c r Ec. destruct (spec_chars s) as [Hc Hne]; [by apply Forall_inv in Hok|]. destruct ss; cbn [header_specs] in Ec;
      (destruct (spec_text s) as [|c' l]; [done|]); injection Ec as <- _; apply spec_char_solid; by apply Forall_inv in Hc. }
  assert (Ht : forall h, TrimOws (h ++ header_specs s ss) = h ++ header_specs s ss \/ exists c r, h = c :: r /\ isWhitespace c = true).
  { intros h. destruct h as [|c h].
    - left. destruct (header_specs s ss) as [|c r] eqn:Es; [done|]. apply solid_trimmed. exists c, r. split; [done|]. split; [by eapply Hchar|].
      cbn [app]. rewrite E, last_last. by apply spec_char_solid.
    - destruct (isWhitespace c) eqn:Ew; [right; by exists c, h|left]. apply solid_trimmed. exists c, (h ++ header_specs s ss). split; [done|]. split; [done|].
      rewrite E, app_assoc, last_last. by apply spec_char_solid. }
  destruct (Ht kBytesEqual) as [->|(c & r & [= <- _] & Hw)]; [|done].
  rewrite bool_decide_false by done. rewrite take_app_length.
  replace (CaseInsensitiveEqual kBytesEqual kBytesEqual) with true by (vm_compute; reflexivity). cbn [negb].
  rewrite drop_app_length. destruct (Ht []) as [Et|(c & r & ? & _)]; [|done]. cbn [app] in Et. rewrite Et.
  rewrite bool_decide_false by (rewrite E; by destruct w).
  destruct (header_specs_loop fileSize maxRanges s ss (S (length (header_specs s ss))) 0 []) as (rs & Er & A & B); [done|done|lia|lia|by apply Forall_nil_2|].
  rewrite Er. assert (B' : forall i, covered rs i <-> asked fileSize (s :: ss) i).
  { intros i. rewrite B. split; [intros [H|H]; [by apply Exists_nil in H|done]|by right]. }
  destruct rs as [|r rs].
  { cbn [selected]. split; [done|]. intros i H. apply B' in H. by apply Exists_nil in H. }
  destruct (coalesced fileSize ltac:(lia) _ A) as (_ & _ & D & _). destruct (selected_sorted (r :: rs)) as [-> Hk]; [done|].
  split; [intros i; by rewrite D, B'|]. by destruct (SortAndCoalesceRanges (r :: rs)) as [|? [|? ?]].
Qed.

(** ** Sizes of texts *)

Lemma decimal_length v : zlen (decimal v) <= 20.
Proof. unfold zlen. pose proof (decimal_loop_length 20 v []). unfold decimal. cbn [length] in *. lia. Qed.

Lemma range_header_fits start length total : zlen (BuildRangeHeader start length total) <= kMaxRangeHeaderLen.
Proof.
  unfold BuildRangeHeader, kMaxRangeHeaderLen. rewrite !zlen_app. pose proof (decimal_length start). pose proof (decimal_length total).
  pose proof (decimal_length (u64 (u64 (start + length) - 1))). change (zlen [45]) with 1. change (zlen [47]) with 1. lia.
Qed.

Lemma unsatisfied_header_fits total : zlen (BuildUnsatisfiedRangeHeader total) <= kMaxUnsatisfiedRangeHeaderLen.
Proof. unfold BuildUnsatisfiedRangeHeader, kMaxUnsatisfiedRangeHeaderLen. rewrite zlen_app. pose proof (decimal_length total). lia. Qed.

Lemma boundary_size val : 0 <= val < 2 ^ 64 -> zlen (GenerateBoundary val) = kBoundarySize.
Proof.
  intros Hv. unfold GenerateBoundary. rewrite hex_digits_length by done. rewrite !zlen_app. unfold zlen. rewrite repeat_length.
  assert (Hl : (length (to_lower_hex val) <= 16)%nat).
  { rewrite <- hex_digits_length by done. unfold hex_digits. destruct (val =? 0) eqn:E; [lia|]. apply Z.eqb_neq in E.
    unfold bit_width. rewrite (proj2 (Z.eqb_neq _ _)) by done. assert (0 <= Z.log2 val < 64) by (split; [apply Z.log2_nonneg|apply Z.log2_lt_pow2; lia]).
    rewrite !u32_id by (rewrite ?u32_id; lia). zlia. }
  change (Z.to_nat kBoundarySize) with 24%nat. change (length kAeronetPrefix) with 7%nat. unfold kBoundarySize. lia.
Qed.

(** ** Multipart bodies *)

Section Multipart.
Context (readAt : Z -> Z -> option bytes) (boundary contentType content : bytes).
(** The file is read as it is. *)
Hypothesis (Hread : forall offset length, readAt length offset = Some (subspan offset length content)).

Definition part_text (r : range) : bytes :=
  boundary ++ kContentTypeHeader ++ contentType ++ kContentRangeHeader ++ BuildRangeHeader (fst r) (snd r) (zlen content)
  ++ DoubleCRLF ++ subspan (fst r) (snd r) content ++ kBoundaryPrefix.

Lemma multipart_parts_exact rs pData :
  Forall (range_ok (zlen content)) rs ->
  multipart_parts readAt boundary contentType (zlen content) rs pData
  = Some (pData ++ concat (map part_text rs) ++ boundary ++ kBoundarySuffix).
Proof using Hread.
  revert pData. induction rs as [|[o l] rs IH]; intros pData Hok; [done|]. apply Forall_cons in Hok as [(H1 & H2 & H3) Hok]. cbn [fst snd] in *.
  cbn [multipart_parts]. rewrite Hread, subspan_length, Z.eqb_refl by lia. cbn [negb]. rewrite IH by done. f_equal.
  cbn [map concat]. unfold part_text at 2. cbn [fst snd]. by rewrite <- !app_assoc.
Qed.

Lemma multipart_fits rs :
  zlen boundary = kBoundarySize -> Forall (range_ok (zlen content)) rs ->
  zlen (kBoundaryPrefix ++ concat (map part_text rs) ++ boundary ++ kBoundarySuffix) <= multipart_needed rs contentType.
Proof using Type.
  intros Hb Hok. unfold multipart_needed. rewrite !zlen_app, Hb.
  enough (H : forall n, n + zlen (concat (map part_text rs))
          <= foldl (fun n r => n + kBoundarySize + (zlen kContentTypeHeader + zlen contentType)
               + (zlen kContentRangeHeader + kMaxRangeHeaderLen + zlen DoubleCRLF) + snd r + zlen kBoundaryPrefix) n rs)
    by (specialize (H (zlen kBoundaryPrefix)); lia).
  induction Hok as [|[o l] rs (H1 & H2 & H3) Hok IH]; intros n; [change (n + 0 <= n); lia|]. cbn [fst snd] in *.
  cbn [map concat foldl]. rewrite zlen_app. etrans; [|apply IH]. unfold part_text. cbn [fst snd]. rewrite !zlen_app, subspan_length, Hb by lia.
  pose proof (range_header_fits o l (zlen content)). lia.
Qed.
End Multipart.

(** ** Entity tags *)

Definition unhex (l : bytes) : Z := foldl (fun a c => a * 16 + from_hex_digit c) 0 l.

Lemma nibble_digit n : 0 <= n < 16 -> from_hex_digit (hexit 97 n) = n /\ hexit 97 n <> 45.
Proof.
  intros Hn. assert (H : forallb (fun n => (from_hex_digit (hexit 97 n) =? n) && negb (hexit 97 n =? 45)) (seqZ 0 16) = true) by (vm_compute; reflexivity).
  rewrite forallb_forall in H. specialize (H n). apply andb_true_iff in H as [H1 H2]; [|apply list_elem_of_In, elem_of_seqZ; lia].
  split; [by apply Z.eqb_eq|by apply Z.eqb_neq, negb_true_iff].
Qed.

Lemma nibbles_value v k :
  unhex (map (fun pos => hexit 97 (Z.land (Z.shiftr v (Z.of_nat pos * 4)) 15)) (rev (seq 0 k))) = v mod 16 ^ Z.of_nat k.
Proof.
  assert (Hn : forall pos, 0 <= Z.land (Z.shiftr v (Z.of_nat pos * 4)) 15 < 16 /\ Z.land (Z.shiftr v (Z.of_nat pos * 4)) 15 = (v / 16 ^ Z.of_nat pos) mod 16).
  { intros pos. change 15 with (Z.ones 4). rewrite Z.land_ones, Z.shiftr_div_pow2 by lia. replace (2 ^ (Z.of_nat pos * 4)) with (16 ^ Z.of_nat pos).
    - change (2 ^ 4) with 16. split; [apply Z.mod_pos_bound; lia|done].
    - change 16 with (2 ^ 4). rewrite <- Z.pow_mul_r by lia. f_equal. lia. }
  assert (Hg : forall a, foldl (fun a c => a * 16 + from_hex_digit c) a
                (map (fun pos => hexit 97 (Z.land (Z.shiftr v (Z.of_nat pos * 4)) 15)) (rev (seq 0 k))) = a * 16 ^ Z.of_nat k + v mod 16 ^ Z.of_nat k).
  { induction k as [|k IH]; intros a; [cbn; rewrite Z.mod_1_r; lia|].
    rewrite seq_S, rev_app_distr. cbn [rev app map foldl Nat.add]. destruct (Hn k) as [Hb He]. rewrite (proj1 (nibble_digit _ Hb)), IH, He.
    rewrite Nat2Z.inj_succ, Z.pow_succ_r by lia. assert (0 < 16 ^ Z.of_nat k) by (apply Z.pow_pos_nonneg; lia).
    replace (16 * 16 ^ Z.of_nat k) with (16 ^ Z.of_nat k * 16) by lia. rewrite Z.rem_mul_r by lia. lia. }
  unfold unhex. rewrite Hg. lia.
Qed.

Lemma hex_count_enough fuel v : 0 <= v < 16 ^ Z.of_nat fuel -> v < 16 ^ Z.of_nat (hex_count fuel v).
Proof.
  revert v. induction fuel as [|fuel IH]; intros v Hv; [by destruct Hv|]. cbn [hex_count]. destruct (Z.eqb_spec v 0); [subst; done|].
  rewrite Nat2Z.inj_succ, Z.pow_succ_r in Hv by lia. rewrite Nat2Z.inj_succ, Z.pow_succ_r by lia.
  rewrite Z.shiftr_div_pow2 by lia. change (2 ^ 4) with 16. specialize (IH (v / 16)).
  assert (v / 16 < 16 ^ Z.of_nat (hex_count fuel (v / 16))) by (apply IH; split; [zlia|apply Z.div_lt_upper_bound; lia]). zlia.
Qed.

Lemma write_hex_read v : 0 <= v < 2 ^ 64 -> unhex (write_hex_direct v) = v /\ Forall (fun b => b <> 45) (write_hex_direct v).
Proof.
  intros Hv. unfold write_hex_direct. destruct (Z.eqb_spec v 0) as [->|]; [split; [done|by repeat constructor]|]. split.
  - rewrite nibbles_value. apply Z.mod_small. split; [lia|]. apply hex_count_enough. done.
  - apply Forall_map, Forall_forall. intros pos _. apply nibble_digit. change 15 with (Z.ones 4). rewrite Z.land_ones by lia. apply Z.mod_pos_bound. done.
Qed.

(** Different sizes or times, different tags. *)
Lemma etag_injective size time size' time' :
  0 <= size < 2 ^ 64 -> 0 <= size' < 2 ^ 64 -> - 2 ^ 63 <= time < 2 ^ 63 -> - 2 ^ 63 <= time' < 2 ^ 63 ->
  MakeStrongEtag size time = MakeStrongEtag size' time' -> size = size' /\ time = time'.
Proof.
  intros Hs Hs' Ht Ht'. unfold MakeStrongEtag. intros [= E].
  destruct (write_hex_read size Hs) as [Es Ns], (write_hex_read size' Hs') as [Es' Ns'].
  assert (Hu : forall t, 0 <= u64 t < 2 ^ 64) by (intros t; apply Z.mod_pos_bound; done).
  destruct (write_hex_read (u64 time) (Hu _)) as [Et _], (write_hex_read (u64 time') (Hu _)) as [Et' _].
  assert (H1 : write_hex_direct size = write_hex_direct size').
  { pose proof (memchr_pos_app 45 _ (write_hex_direct (u64 time) ++ [34]) Ns) as M. pose proof (memchr_pos_app 45 _ (write_hex_direct (u64 time') ++ [34]) Ns') as M'.
    rewrite E, M' in M. injection M as M. pose proof (f_equal (take (length (write_hex_direct size))) E) as E'.
    rewrite take_app_length, <- M, take_app_length in E'. done. }
  rewrite H1 in E. apply (inj (app _)) in E. injection E as E. apply (inj (fun l => l ++ [34])) in E. split; [congruence|].
  assert (u64 time = u64 time') by congruence. unfold u64 in *. zlia.
Qed.

(** The fuel is enough. *)
Lemma range_loop_fuel fuel fuel' raw fileSize maxRanges count acc :
  (length raw < fuel)%nat -> (length raw < fuel')%nat ->
  range_loop fuel raw fileSize maxRanges count acc = range_loop fuel' raw fileSize maxRanges count acc.
Proof.
  revert fuel' raw count acc. induction fuel as [|fuel IH]; intros [|fuel'] raw count acc H H'; try lia. cbn [range_loop].
  case_bool_decide as Er; [done|]. destruct (_ && _); [done|].
  assert (Hd : forall p, (length (drop (p + 1) raw) < length raw)%nat) by (intros p; rewrite length_drop; destruct raw; [done|cbn; lia]).
  destruct (ParseSingleRangeSpec _ _), (memchr_pos 44 raw) as [p|]; try done; specialize (Hd p); apply IH; lia.
Qed.

(** ** The theorem *)

(** C12: Whatever the Range header is, the ranges that are answered lie in the file, are apart
    from each other and are at most as many as allowed; for a header that lists ranges, they
    cover exactly the bytes that it asks for, and the answer is "not satisfiable" exactly when
    it asks for none. *)
Theorem ranges_exact raw fileSize maxRanges :
  0 <= fileSize < 2 ^ 64 ->
  let r := ParseRanges raw fileSize maxRanges in
  (Forall (range_ok fileSize) (selected r) /\ separated (selected r) /\ (0 < maxRanges -> zlen (selected r) <= maxRanges))
  /\ (forall s ss, raw = header_of s ss -> Forall spec_ok (s :: ss) -> maxRanges = 0 \/ 1 + zlen ss <= maxRanges ->
        (forall i, covered (selected r) i <-> asked fileSize (s :: ss) i)
        /\ match r with
           | SingleValid _ | MultiValid _ => True
           | RangesUnsatisfiable => forall i, ~ asked fileSize (s :: ss) i
           | _ => False
           end).
Proof.
  intros Hf r. split; [by apply ParseRanges_sound|]. intros s ss -> Hok Hmax. by apply ParseRanges_exact.
Qed.

(** Two ranges that touch become one. *)
Lemma ranges_exact_witness :
  let raw := header_of (FromTo 0 9) [FromTo 10 19; Suffix 5] in
  let r := ParseRanges raw 100 16 in
  raw = str "bytes=0-9,10-19,-5" /\ r = MultiValid [(0, 20); (95, 5)]
  /\ (Forall (range_ok 100) (selected r) /\ separated (selected r) /\ (0 < 16 -> zlen (selected r) <= 16))
  /\ (forall s ss, raw = header_of s ss -> Forall spec_ok (s :: ss) -> 16 = 0 \/ 1 + zlen ss <= 16 ->
        (forall i, covered (selected r) i <-> asked 100 (s :: ss) i)
        /\ match r with
           | SingleValid _ | MultiValid _ => True
           | RangesUnsatisfiable => forall i, ~ asked 100 (s :: ss) i
           | _ => False
           end).
Proof. intros raw r. split; [vm_compute; reflexivity|]. split; [vm_compute; reflexivity|]. apply (ranges_exact raw 100 16). lia. Defined.
